(* ===== verification/_CoqProject ===== *)
-Q . S2P
Prelude.v
BTree.v
Text.v
Procedure.v
Procedures.v
Broker.v
Feed.v
Generator.v
Framing.v
Git.v
Agent.v
SshAuth.v
Net.v
Schema.v
Signing.v
Requests.v
Operators.v
OperatorFacts.v
OperatorLive.v
OperatorRegistry.v
SchemaValidation.v
Crypto.v
CryptoFacts.v
Store.v
Asks.v
AskFacts.v
FileSystem.v
FsUtil.v
Profiles.v
Protocol.v
Backend.v
BackendFacts.v
BackendSample.v
Deploy.v
Paths.v
Rows.v
Tui.v
TuiFacts.v
TuiScreen.v
Ui.v
Drive.v
UiFacts.v
TuiSample.v
Wire.v
Handshake.v
HandshakeFacts.v
Exchange.v
Relay.v
ExchangeFacts.v
ExchangeSample.v
HostKey.v
HostKeyFacts.v
HostKeySample.v
Manifest.v
ManifestFacts.v
ManifestSample.v
Lines.v
StorageBox.v
StorageBoxFacts.v
StorageBoxSession.v
StorageBoxSample.v
Plan.v
PlanFacts.v
PlanSample.v
Generate.v
GenerateFacts.v
Tasks.v
TasksFacts.v
AuditRecord.v
Apply.v
ApplyFacts.v
Together.v
Waiter.v
WaiterFacts.v
PublicDefault.v
PublicDefaultFacts.v
Prune.v
Sample.v
HostSample.v
ApplySample.v
