(* ===== verification/Prelude.v ===== *)
(** * nix-secrets: a verification development

    nix-secrets keeps the secrets of NixOS hosts encrypted in a repository.  A
    backend on the repository's machine holds the store and hands work to
    whoever may decide: an operator at an attached TUI approves requests,
    decrypts and signs; a deployer installs values on a target host as
    generations of a directory.  This library models those parts of the Rust
    sources below [src/crates] as executable definitions and proves what they
    promise.

    ** How the parts interact

    - The _schema_ says which leaves exist, who they are encrypted to and where
      they are installed; everything else refers to its paths.
    - The _store_ keeps one encrypted record per path, checked against the
      schema and replaced atomically.
    - Processes join _procedures_ by token and descent, and ask for values and
      signatures; the _operator_ part queues each request for the TUI attached
      last and brings the answer back; _sessions_ hand approved values out.
    - The _broker_ lets several frontends share one queue of approvals.
    - The _backend_ dispatches the protocol requests of the management
      interfaces to store, broker, _profiles_ and _git_, and announces what
      changed in its _feed_; a _listener_ in the TUI turns the feed into views.
    - The TUI _plans_ a deployment before it asks: which leaves are sent as they
      are, generated, derived on the target or left out.  Its _rows_ are the
      leaves in groups; its _dialogs_ show one procedure's prompt, approval or
      result at a time while the others wait in the task bar.
    - The _agent relay_ lets a backend's git use the operator's ssh-agent for
      commit signatures and nothing else; _SSH approvals_ cover logins.
    - A deployment first verifies the target's _host keys_, then the operator
      and the target exchange state, selection, batch and result as _frames_
      over ssh, relayed on the target between ssh and a socket.
    - The _deployer_ turns a batch of values into a generation that becomes
      current in one step, in two roots at once, and recovers after a crash;
      before that it reads its _manifest_, runs the batch's _tasks_ (SSH keys,
      storage box keys) and _generates_ values, and on its own it installs
      _public defaults_.
    - The _bootstrap_ adds a key to authorized_keys of a storage box.
    - The _waiter_ holds services back until the declared secrets are ready.

    ** Files, in dependency order, and the sources they model

    - Prelude.v (this file): fallible and stateful computations ([result] is
      [Result], [stE] a method that changes state and may fail), machine
      integers, tactics, generic lemmas.
    - BTree.v: std's ordered maps and sets as sorted lists, because their
      iteration order is observable.  Text.v: std's UTF-8 strings.
    - Procedure.v, Procedures.v: core [procedure.rs], the descendant check of
      [secret_request.rs], [backend/procedures.rs].
    - Broker.v: core [approval.rs], [approval_types.rs].
    - Generator.v: core [generator.rs], [schema/value.rs],
      [schema/value_generator.rs].
    - Framing.v: core [framing.rs].  Git.v: core [git.rs].  Agent.v:
      [git/agent.rs].  SshAuth.v: core [ssh_auth.rs].
    - Profiles.v: core [profiles.rs].  Feed.v: backend [feed.rs], how
      subscriptions are served, and the listener of manager [background.rs].
    - Protocol.v: core [protocol.rs] and the texts of its errors.  Backend.v:
      the dispatch of core [backend.rs], [backend/broker.rs],
      [backend/deployment.rs]; BackendFacts.v proves what it announces,
      BackendSample.v runs all of these.
    - Schema.v: core [schema.rs] and [schema/].  Net.v, SchemaValidation.v:
      core [schema/validation.rs], [registry.rs], [derived.rs].
    - Signing.v: core [artifact_signing.rs] (Module Artifacts),
      [closure_signing.rs] (Module Closures).
    - Requests.v: core [secret_request.rs], [secret_session.rs].
    - Operators.v: the threads of core [backend/secrets.rs] (attached TUIs and
      waiting requests) as a step relation over explicit events;
      OperatorFacts.v, OperatorLive.v, OperatorRegistry.v prove it.
    - Store.v: core [store.rs], [store/].  Each operation is its checks, then
      one closure on the document under the lock.  [store/persistence.rs] is
      modelled call by call on the store's directory: a failing write leaves a
      part of the text, [Disk] records every state the calls leave behind, and
      [survives] says what a loss of power may bring back.
    - Asks.v: the request handlers of [backend/secrets.rs], over an arbitrary
      operator; AskFacts.v proves them.
    - FileSystem.v: a file system whose calls may fail and in which every state
      between two calls is a crash state.  FsUtil.v, Deploy.v: deploy
      [fsutil.rs], [deploy.rs], [deploy/staging.rs], [deploy/recovery.rs],
      [validate.rs], [schema.rs].  Together.v, Prune.v prove deployments;
      Sample.v runs them on a concrete host.
    - Wire.v: transport [protocol.rs], [deployment/types.rs].  Handshake.v:
      [deployment/validation.rs], [task_schema.rs], and the selection and batch
      of [client.rs]; HandshakeFacts.v proves the checks.  Exchange.v:
      [deployment/server.rs], [client.rs] and the session of [openssh.rs].
      Relay.v: [receiver.rs].  ExchangeFacts.v puts operator, relay and target
      together; ExchangeSample.v runs them.
    - Crypto.v: crypto [record.rs], [header.rs], [secret.rs],
      [age_command.rs], [age_failure.rs], [error.rs]; CryptoFacts.v.
    - Paths.v: std's relative paths.  Manifest.v: deploy [manifest.rs] and
      [manifest/]; ManifestFacts.v, ManifestSample.v.
    - Plan.v: manager [controller/unset.rs], [controller/preflight.rs],
      [controller/target.rs] and the stale public information of
      [controller/public_info.rs]; PlanFacts.v, PlanSample.v.
    - Rows.v: manager [tree.rs], [tree/reorder.rs], and of [model/] the files
      [attributes.rs], [visibility.rs], [collapse.rs], [catalog.rs],
      [profiles.rs].  Tui.v: manager [model.rs], [model/procedures.rs],
      [model/dialogs.rs]; its events and their runs are in TuiFacts.v, which
      proves the invariant and what waits, TuiScreen.v what is on screen.
      Ui.v: manager [ui/reducer.rs] and the dialogs beside it in [ui/], what a
      key or click does and which calls of the writer it makes; Drive.v:
      [ui/drive.rs], completions, ticks and the loop; UiFacts.v proves them.
      TuiSample.v runs all of these.
    - Lines.v: lists of lines.  StorageBox.v: the crate storagebox-bootstrap;
      StorageBoxFacts.v (the merge), StorageBoxSession.v (the session),
      StorageBoxSample.v.
    - Generate.v: deploy [generate.rs].  Tasks.v: [tasks.rs].  AuditRecord.v:
      [audit.rs].  PublicDefault.v: [public_default.rs].  Apply.v: the closure
      of [main.rs] that composes them.  Their Facts files prove them;
      ApplySample.v and HostSample.v run them.
    - Waiter.v: the crate secrets-ready-waiter; WaiterFacts.v proves it, and
      that what the deployer publishes is what it accepts; HostSample.v.
    - HostKey.v: transport [hostkey.rs], [hostkey/persist.rs] and the pinning
      of [openssh.rs]; HostKeyFacts.v proves it, HostKeySample.v runs it.

    A definition has the name of the function or type it models where that is
    free; a record's fields carry a two-letter prefix.  A method on [&mut self]
    returns its result with the state it leaves, errors included.

    ** What the theorems show

    - Procedures and requests: only descendants with the token act in a
      procedure; an answer reaches exactly the request it was given to, from a
      TUI that was shown it; prompts and slots are kept exactly; a requester
      that leaves is let go; what is handed out is what was approved.
    - Signatures: the filters of the agent relay and of login requests accept
      exactly one kind of message each, the purposes cannot be confused, and
      accepted signatures cover exactly the approved batch or closure.
    - Broker: leases exclude each other, outcomes are final, queues are exact.
    - Schema and store: validation implies safe destinations, lookups and
      listings agree, records read back, versions are compared and swapped,
      every document stored stays in order, and wherever the replacement of the
      file stops, power lost or not, the old or the new document is read.
    - Values: sampling is unbiased, passwords that are returned satisfy their
      constraints, framings are unambiguous for their readers.
    - Transport: the checks of both sides accept exactly the declared states
      and the valid batches; the two programs and the relay between them
      implement one abstract step (select, apply once, report), in whatever
      pieces the streams arrive, and whatever arrives the target applies at most
      one checked batch; messages that end early are errors, loops terminate.
    - Host keys: what is pinned is recorded and offered, or accepted by the
      operator, or exactly what was approved; scans never hide a key, the
      direct probe only confirms, what is recorded is read back.
    - Deployment: consumers of both roots are given both old or both new
      generations; recovery changes nothing they see; clones are exact; pruning
      keeps the newest; a default never replaces a value of an operator.
    - Batches on the target: every entry is installed where its leaf declares
      or named with a reason; generated values, tasks and derived values are
      each accounted for; what the deployer assembles is a batch its own checks
      accept, and the batch the transport accepted.
    - Backend: an edit of the profiles is on disk whole or not at all; a commit
      contains the managed files only, whatever else is staged; a listing that
      changed is announced, a subscriber receives a prefix of what was
      published with nothing skipped, and a view follows the store.
    - Plans: every selected leaf is accounted for in one way, and a value that
      is only missing elsewhere never blocks the others.
    - TUI: requests for approval are neither lost nor multiplied, what arrives
      leaves the request or dialog on screen alone, and whatever waits can be
      brought back.  A request is answered exactly as the operator says; nothing
      stored changes and no deployment is approved without the confirmation
      shown for exactly that; every input ends.
    - Storage box: authorized_keys is replaced atomically, lines of others are
      kept, and another run finds or replaces exactly its own line.
    - Waiter: it lets services start only once, and as soon as, every declared
      secret is ready, and what the deployer publishes is ready.

    ** Arguments, bounds and fuel

    Third-party code and the outside world are arguments of the definitions
    that use them: base64, TOML and JSON codecs, SHA-2, the OpenSSH key parser,
    regular expressions, [/proc], random bytes, clocks, the kernel's part of
    the file system.  Hypotheses on them state documented behaviour, and each
    theorem with hypotheses is applied to concrete ones in its witness.
    [usize] is 64 bits.  Fuel appears in rejection sampling (a random source
    may never settle; the theorems say what a settling one gives), in the
    breadth-first walks of FsUtil.v (the number of entries is enough, proved
    with [clone_tree_exact]), in the climb through parents (4096, the source's
    own bound), in message loops (one turn per message), in the waiter's loop
    (one turn per poll; it waits for as long as secrets are missing) and in the
    reducer of the TUI (it calls itself at most three deep, proved in
    UiFacts.v).

    ** Not modelled

    - Sockets, threads' creation, poisoned locks (a panic while one is held),
      allocation failure, memory erasure.
    - The JSON and command-line glue, drawing and reading the terminal, the
      threads between the interface and the backend, the processes of git, age,
      nix and ssh, and the Nix modules.
    - PROJECT.json lists every part with its state. *)
From stdpp Require Export base tactics list strings relations.
From Stdlib Require Export ZArith Lia Sorted.

#[global] Open Scope Z_scope.

(** ** Fallible computations

    [result E A] is Rust's [Result<A, E>]; the [MBind] instance gives the
    [x ← e; k] notation the reading of Rust's [?]. *)
Inductive result (E A : Type) : Type :=
| Ok (a : A)
| Err (e : E).
Arguments Ok {E A} a.
Arguments Err {E A} e.

#[export] Instance result_ret E : MRet (result E) := λ A, Ok.
#[export] Instance result_bind E : MBind (result E) :=
  λ A B f m, match m with Ok a => f a | Err e => Err e end.
#[export] Instance result_eq_dec E A `{EqDecision E, EqDecision A} :
  EqDecision (result E A).
Proof. solve_decision. Defined.

Definition is_ok {E A} (r : result E A) : bool :=
  match r with Ok _ => true | Err _ => false end.

Definition map_err {E F A} (f : E → F) (r : result E A) : result F A :=
  match r with Ok a => Ok a | Err e => Err (f e) end.

Definition ok_or {E A} (e : E) (o : option A) : result E A :=
  match o with Some a => Ok a | None => Err e end.

(** [guard_err b e] is [if !b { return Err(e) }]. *)
Definition guard_err {E} (b : bool) (e : E) : result E unit :=
  if b then Ok tt else Err e.

(** The loop [for x in l { f(x)?; }]. *)
Fixpoint try_each {E A} (f : A → result E unit) (l : list A) : result E unit :=
  match l with
  | [] => Ok tt
  | x :: l => match f x with Ok _ => try_each f l | Err e => Err e end
  end.

(** The loop [for x in l { acc = f(acc, x)?; }]. *)
Fixpoint try_fold {E A B} (f : B → A → result E B) (acc : B) (l : list A)
  : result E B :=
  match l with
  | [] => Ok acc
  | x :: l => match f acc x with Ok acc' => try_fold f acc' l | Err e => Err e end
  end.

(** [iter().map(f).collect::<Result<Vec<_>, _>>()]. *)
Fixpoint try_map {E A B} (f : A → result E B) (l : list A) : result E (list B) :=
  match l with
  | [] => Ok []
  | x :: l =>
      match f x with
      | Ok y => match try_map f l with Ok ys => Ok (y :: ys) | Err e => Err e end
      | Err e => Err e
      end
  end.

(** ** Stateful fallible computations

    A method on [&mut self] that returns a [Result]: the state changes made
    before an error stay. *)
Definition stE (S E A : Type) : Type := S → result E A * S.

#[export] Instance stE_ret S E : MRet (stE S E) := λ A a s, (Ok a, s).
#[export] Instance stE_bind S E : MBind (stE S E) :=
  λ A B f m s,
    match m s with
    | (Ok a, s') => f a s'
    | (Err e, s') => (Err e, s')
    end.
Definition st_get {S E} : stE S E S := λ s, (Ok s, s).
Definition st_put {S E} (s : S) : stE S E unit := λ _, (Ok tt, s).
Definition st_modify {S E} (f : S → S) : stE S E unit := λ s, (Ok tt, f s).
Definition st_lift {S E A} (r : result E A) : stE S E A := λ s, (r, s).
Definition st_guard {S E} (b : bool) (e : E) : stE S E unit :=
  st_lift (guard_err b e).

(** ** Machine integers *)
Definition u16_max : Z := 2 ^ 16 - 1.
Definition u32_max : Z := 2 ^ 32 - 1.
Definition u64_max : Z := 2 ^ 64 - 1.
(** 64-bit targets: [usize] is [u64]. *)
Definition usize_max : Z := u64_max.
Definition wrap64 (z : Z) : Z := z mod 2 ^ 64.

(** [Duration], in nanoseconds, and its [saturating_sub]. *)
Definition secs (n : Z) : Z := n * 1000000000.
Definition millis (n : Z) : Z := n * 1000000.
Definition as_secs (d : Z) : Z := d / 1000000000.
Definition sat_sub (a b : Z) : Z := Z.max 0 (a - b).

(** [len()] of a slice and of a [str] (its UTF-8 bytes). *)
Definition zlen {A} (l : list A) : Z := Z.of_nat (length l).
Definition slen (s : string) : Z := Z.of_nat (String.length s).

(** [Option::is_some_and] and [Option::is_none_or]. *)
Definition is_some_and {A} (p : A → bool) (o : option A) : bool :=
  match o with Some a => p a | None => false end.
Definition is_none_or {A} (p : A → bool) (o : option A) : bool :=
  match o with Some a => p a | None => true end.
Definition is_some {A} (o : option A) : bool :=
  match o with Some _ => true | None => false end.

(** ** Tactics *)
(** Turns the booleans of hypotheses and goal into propositions. *)
Create Rewrite HintDb nsbool.
#[export] Hint Rewrite Z.eqb_eq Z.eqb_neq Z.leb_le Z.leb_gt Z.ltb_lt Z.ltb_ge
  andb_true_iff andb_false_iff orb_true_iff orb_false_iff
  negb_true_iff negb_false_iff bool_decide_eq_true bool_decide_eq_false
  : nsbool.
Ltac bool_prop := autorewrite with nsbool in *.

(** Splits every conjunction and existential of the context. *)
Ltac split_hyps :=
  repeat match goal with
  | H : _ ∧ _ |- _ => destruct H
  | H : ∃ _, _ |- _ => destruct H
  | H : (_ * _)%type |- _ => destruct H
  end.

(** Runs a fallible computation in hypothesis [H] one branch at a time. *)
Ltac inv_result H :=
  unfold mbind, result_bind, mret, result_ret, guard_err, ok_or, map_err,
    st_guard, st_lift, st_modify, st_get, st_put, stE_bind, stE_ret in H;
  repeat (case_match; simplify_eq/=).

(** ** Generic lemmas *)
Section StatefulSuccess.
Context {S E : Type}.

Lemma stE_bind_ok {A B} (m : stE S E A) (k : A → stE S E B) s b s' :
  mbind k m s = (Ok b, s') ↔ ∃ a s1, m s = (Ok a, s1) ∧ k a s1 = (Ok b, s').
Proof. unfold mbind, stE_bind. destruct (m s) as [[a|] s1]; naive_solver. Qed.

Lemma stE_guard_ok b (e : E) (s s' : S) u : st_guard b e s = (Ok u, s') ↔ b = true ∧ s' = s.
Proof. destruct u, b; unfold st_guard, st_lift; cbn; naive_solver. Qed.

Lemma stE_lift_ok {A} (r : result E A) (s s' : S) a : st_lift r s = (Ok a, s') ↔ r = Ok a ∧ s' = s.
Proof. unfold st_lift. naive_solver. Qed.
End StatefulSuccess.

Lemma zlen_nonneg {A} (l : list A) : 0 ≤ zlen l.
Proof. unfold zlen. lia. Qed.

Lemma zlen_app {A} (l k : list A) : zlen (l ++ k) = zlen l + zlen k.
Proof. unfold zlen. rewrite length_app. lia. Qed.

Lemma zlen_cons {A} (x : A) l : zlen (x :: l) = 1 + zlen l.
Proof. unfold zlen. cbn [length]. lia. Qed.

Lemma slen_nonneg s : 0 ≤ slen s.
Proof. unfold slen. lia. Qed.

Lemma scons_app c s t : String c s +:+ t = String c (s +:+ t).
Proof. done. Qed.

Lemma length_sapp s t : String.length (s +:+ t) = (String.length s + String.length t)%nat.
Proof. induction s as [|c s IH]; [done|]. rewrite scons_app. cbn [String.length]. by rewrite IH. Qed.

Lemma slen_app s t : slen (s +:+ t) = slen s + slen t.
Proof. unfold slen. rewrite length_sapp. lia. Qed.

Lemma sapp_assoc s t u : (s +:+ t) +:+ u = s +:+ (t +:+ u).
Proof. induction s as [|c s IH]; [done|]. rewrite !scons_app. by rewrite IH. Qed.

Lemma sapp_nil_r s : s +:+ "" = s.
Proof. induction s as [|c s IH]; [done|]. rewrite !scons_app. by rewrite IH. Qed.

Lemma try_each_ok {E A} (f : A → result E unit) l :
  try_each f l = Ok tt ↔ Forall (λ x, f x = Ok tt) l.
Proof.
  induction l as [|x l IH]; cbn; [by split|].
  rewrite Forall_cons, <- IH.
  destruct (f x) as [[]|e]; naive_solver.
Qed.

Lemma try_map_ok {E A B} (f : A → result E B) l ys :
  try_map f l = Ok ys ↔ Forall2 (λ x y, f x = Ok y) l ys.
Proof.
  revert ys. induction l as [|x l IH]; intros ys; cbn.
  - split; [intros; simplify_eq; constructor|]. by inversion 1.
  - split.
    + intros H. repeat case_match; simplify_eq. constructor; [done|]. by apply IH.
    + inversion 1 as [|? y ? ys' Hy Hys]; subst.
      rewrite Hy. apply IH in Hys. by rewrite Hys.
Qed.

Lemma forallb_Forall {A} (p : A → bool) l :
  forallb p l = true ↔ Forall (λ x, p x = true) l.
Proof.
  rewrite forallb_forall, Forall_forall. by setoid_rewrite list_elem_of_In.
Qed.

Lemma mjoin_fmap_cons {A B} (f : A → list B) x l :
  mjoin (f <$> x :: l) = f x ++ mjoin (f <$> l).
Proof. done. Qed.

(** A guard, alone and before the rest of a computation. *)
Lemma guard_ok {E} b (e : E) : guard_err b e = Ok tt ↔ b = true.
Proof. by destruct b. Qed.

Lemma guard_bind_ok {E A} b (e : E) (k : unit → result E A) x :
  mbind k (guard_err b e) = Ok x ↔ b = true ∧ k tt = Ok x.
Proof. destruct b; cbn; naive_solver. Qed.

Lemma bind_ok {E A B} (k : A → result E B) m x :
  mbind k m = Ok x ↔ ∃ a, m = Ok a ∧ k a = Ok x.
Proof. destruct m; cbn; naive_solver. Qed.

Lemma then_ok {E A} (k : unit → result E A) m x :
  mbind k m = Ok x ↔ m = Ok tt ∧ k tt = Ok x.
Proof. destruct m as [[]|]; cbn; naive_solver. Qed.

Lemma is_some_true {A} (o : option A) : is_some o = true ↔ is_Some o.
Proof. destruct o; cbn; [|by rewrite is_Some_alt]. split; [by eexists|done]. Qed.

Lemma is_some_false {A} (o : option A) : is_some o = false ↔ o = None.
Proof. by destruct o. Qed.

Lemma try_fold_ext {E A B} (f g : B → A → result E B) acc l :
  (∀ acc x, x ∈ l → f acc x = g acc x) → try_fold f acc l = try_fold g acc l.
Proof.
  revert acc. induction l as [|x l IH]; intros acc H; [done|]. cbn [try_fold].
  rewrite H by set_solver. destruct (g acc x); [|done]. apply IH. set_solver.
Qed.

Lemma nodup_fst {A B} (l : list (A * B)) k a b : NoDup l.*1 → (k, a) ∈ l → (k, b) ∈ l → a = b.
Proof.
  induction l as [|[k' c] l IH]; [by intros _ ?%not_elem_of_nil|].
  rewrite fmap_cons, !elem_of_cons. intros [Hni Hnd]%NoDup_cons.
  assert (∀ d, (k', d) ∉ l) as Hno by (intros d Hin; apply Hni, list_elem_of_fmap; by exists (k', d)).
  intros [Heq|Ha] [Heq'|Hb]; simplify_eq; [done|by apply Hno in Hb|by apply Hno in Ha|by apply IH].
Qed.

(** A fold that keeps an invariant of its accumulator. *)
Lemma foldl_inv {A B} (P : B → Prop) (f : B → A → B) b l :
  P b → (∀ b a, a ∈ l → P b → P (f b a)) → P (foldl f b l).
Proof.
  revert b. induction l as [|a l IH]; intros b Hb Hf; cbn; [done|].
  apply IH; [apply Hf; [set_solver|done]|].
  intros; apply Hf; set_solver.
Qed.
