(* ===== verification/BTree.v ===== *)
(** * BTreeMap and BTreeSet

    The std collections the backend keeps its state in: an association list
    in ascending key order.  Iteration order is observable in the source
    (queues are filled in it, errors name the first offender of it), so the
    maps are lists sorted by the key's comparison and not finite functions.
    [bt_insert] returns only the new map; the [Option] Rust returns is
    [bt_get] on the old one. *)
From stdpp Require Import sorting.
From S2P Require Import Prelude.

(** ** Key orders *)
Class OrdKey (K : Type) := {
  kcmp : K → K → comparison;
  kcmp_eq : ∀ a b, kcmp a b = Eq ↔ a = b;
  kcmp_opp : ∀ a b, kcmp b a = CompOpp (kcmp a b);
  kcmp_trans : ∀ a b c, kcmp a b = Lt → kcmp b c = Lt → kcmp a c = Lt
}.

Definition klt `{OrdKey K} (a b : K) : Prop := kcmp a b = Lt.

Lemma kcmp_refl `{OrdKey K} a : kcmp a a = Eq.
Proof. by apply kcmp_eq. Qed.

Lemma kcmp_spec `{OrdKey K} a b :
  CompareSpec (a = b) (klt a b) (klt b a) (kcmp a b).
Proof.
  destruct (kcmp a b) eqn:E; constructor; [by apply kcmp_eq|done|].
  unfold klt. by rewrite kcmp_opp, E.
Qed.

Lemma klt_irrefl `{OrdKey K} a : ¬ klt a a.
Proof. unfold klt. by rewrite kcmp_refl. Qed.

#[export] Instance klt_transitive `{OrdKey K} : Transitive klt.
Proof. intros a b c. apply kcmp_trans. Qed.

(** The order of a sort. *)
Definition kle `{OrdKey K} (a b : K) : Prop := kcmp a b ≠ Gt.
#[export] Instance kle_dec `{OrdKey K} a b : Decision (kle a b) := decide (kcmp a b ≠ Gt).

Lemma kle_alt `{OrdKey K} a b : kle a b ↔ a = b ∨ klt a b.
Proof.
  unfold kle. destruct (kcmp_spec a b) as [->|Hlt|Hlt].
  - split; [by left|done].
  - split; [by right|done].
  - split; [done|]. intros [->|H']; [by apply klt_irrefl in Hlt|]. destruct (klt_irrefl a). by etrans.
Qed.
#[export] Instance kle_total `{OrdKey K} : Total (kle (K:=K)).
Proof. intros a b. rewrite !kle_alt. destruct (kcmp_spec a b); auto. Qed.
#[export] Instance kle_trans `{OrdKey K} : Transitive (kle (K:=K)).
Proof. intros a b c. rewrite !kle_alt. intros [->|Hab] [->|Hbc]; auto. right. by eapply kcmp_trans. Qed.
#[export] Instance kle_antisym `{OrdKey K} : AntiSymm (=) (kle (K:=K)).
Proof.
  intros a b. rewrite !kle_alt. intros [->|Hab] [Hba|Hba]; try done.
  destruct (klt_irrefl a). by eapply kcmp_trans.
Qed.

(** Two lists sort to the same one when one is a permutation of the other. *)
Lemma merge_sort_perm `{OrdKey K} (a b : list K) : merge_sort kle a = merge_sort kle b ↔ a ≡ₚ b.
Proof.
  split.
  - intros E. rewrite <- (merge_sort_Permutation kle a), E. apply merge_sort_Permutation.
  - intros E. apply (StronglySorted_unique kle).
    + apply StronglySorted_merge_sort; apply _.
    + apply StronglySorted_merge_sort; apply _.
    + by rewrite !merge_sort_Permutation.
Qed.

#[export] Program Instance OrdKey_Z : OrdKey Z := {| kcmp := Z.compare |}.
Next Obligation. apply Z.compare_eq_iff. Qed.
Next Obligation. intros a b. apply Z.compare_antisym. Qed.
Next Obligation. intros a b c. rewrite !Z.compare_lt_iff. lia. Qed.

Lemma ascii_compare_refl a : Ascii.compare a a = Eq.
Proof. apply N.compare_refl. Qed.

Lemma ascii_compare_trans a b c :
  Ascii.compare a b = Lt → Ascii.compare b c = Lt → Ascii.compare a c = Lt.
Proof. unfold Ascii.compare. rewrite !N.compare_lt_iff. lia. Qed.

Lemma string_compare_trans a b c :
  String.compare a b = Lt → String.compare b c = Lt → String.compare a c = Lt.
Proof.
  revert b c. induction a as [|x a IH]; intros [|y b] [|z c]; cbn; try done.
  destruct (Ascii.compare x y) eqn:Exy; try done;
    destruct (Ascii.compare y z) eqn:Eyz; try done; intros H1 H2;
    try apply Ascii.compare_eq_iff in Exy; try apply Ascii.compare_eq_iff in Eyz; subst.
  - rewrite ascii_compare_refl. by eapply IH.
  - by rewrite Eyz.
  - by rewrite Exy.
  - by rewrite (ascii_compare_trans _ _ _ Exy Eyz).
Qed.

(** [String: Ord] compares bytes. *)
#[export] Program Instance OrdKey_string : OrdKey string :=
  {| kcmp := String.compare |}.
Next Obligation.
  intros a b. split; [apply String.compare_eq_iff|intros ->].
  induction b as [|c b IH]; cbn; [done|]. by rewrite ascii_compare_refl.
Qed.
Next Obligation. intros a b. apply String.compare_antisym. Qed.
Next Obligation. apply string_compare_trans. Qed.

(** Pairs compare lexicographically. *)
Definition pair_cmp `{OrdKey A, OrdKey B} (p q : A * B) : comparison :=
  match kcmp p.1 q.1 with Eq => kcmp p.2 q.2 | c => c end.

#[export] Program Instance OrdKey_pair `{OrdKey A, OrdKey B} : OrdKey (A * B) :=
  {| kcmp := pair_cmp |}.
Next Obligation.
  intros A HA B HB [a b] [a' b']. unfold pair_cmp; cbn.
  destruct (kcmp_spec a a') as [->|Hlt|Hlt].
  - rewrite kcmp_eq. naive_solver.
  - split; [done|]. intros ?; simplify_eq. by apply klt_irrefl in Hlt.
  - split; [done|]. intros ?; simplify_eq. by apply klt_irrefl in Hlt.
Qed.
Next Obligation.
  intros A HA B HB [a b] [a' b']. unfold pair_cmp; cbn.
  rewrite (kcmp_opp a a'). destruct (kcmp a a'); cbn; [apply kcmp_opp|done|done].
Qed.
Next Obligation.
  intros A HA B HB [a b] [a' b'] [a'' b'']. unfold pair_cmp; cbn.
  destruct (kcmp a a') eqn:E1; [|intros _|done];
    (destruct (kcmp a' a'') eqn:E2; [| |done]);
    rewrite ?kcmp_eq in *; subst; rewrite ?kcmp_refl, ?E1, ?E2;
    [apply kcmp_trans|done|done|intros _].
  by rewrite (kcmp_trans _ _ _ E1 E2).
Qed.

(** Vectors compare lexicographically, the shorter first. *)
Fixpoint list_cmp `{OrdKey A} (l k : list A) : comparison :=
  match l, k with
  | [], [] => Eq
  | [], _ => Lt
  | _, [] => Gt
  | a :: l, b :: k => match kcmp a b with Eq => list_cmp l k | c => c end
  end.

#[export] Program Instance OrdKey_list `{OrdKey A} : OrdKey (list A) :=
  {| kcmp := list_cmp |}.
Next Obligation.
  intros A HA l. induction l as [|a l IH]; intros [|b k]; cbn; try done.
  destruct (kcmp_spec a b) as [->|Hlt|Hlt].
  - rewrite IH. naive_solver.
  - split; [done|]. intros ?; simplify_eq. by apply klt_irrefl in Hlt.
  - split; [done|]. intros ?; simplify_eq. by apply klt_irrefl in Hlt.
Qed.
Next Obligation.
  intros A HA l. induction l as [|a l IH]; intros [|b k]; cbn; try done.
  rewrite (kcmp_opp a b). destruct (kcmp a b); cbn; [apply IH|done|done].
Qed.
Next Obligation.
  intros A HA l. induction l as [|a l IH]; intros [|b k] [|c m]; cbn; try done.
  destruct (kcmp a b) eqn:E1; [|intros _|done];
    (destruct (kcmp b c) eqn:E2; [| |done]);
    rewrite ?kcmp_eq in *; subst; rewrite ?kcmp_refl, ?E1, ?E2;
    [apply IH|done|done|intros _].
  by rewrite (kcmp_trans _ _ _ E1 E2).
Qed.

(** ** Maps *)
Section Maps.
Context {K : Type} {HK : OrdKey K} {V : Type}.
Implicit Types (m : list (K * V)) (k : K) (v : V).

Fixpoint bt_get k m : option V :=
  match m with
  | [] => None
  | (k', v) :: m => match kcmp k k' with Eq => Some v | _ => bt_get k m end
  end.

Fixpoint bt_insert k v m : list (K * V) :=
  match m with
  | [] => [(k, v)]
  | (k', v') :: m' =>
      match kcmp k k' with
      | Lt => (k, v) :: m
      | Eq => (k, v) :: m'
      | Gt => (k', v') :: bt_insert k v m'
      end
  end.

Fixpoint bt_remove k m : list (K * V) :=
  match m with
  | [] => []
  | (k', v) :: m =>
      match kcmp k k' with Eq => bt_remove k m | _ => (k', v) :: bt_remove k m end
  end.

(** [get_mut] followed by an assignment. *)
Definition bt_update (f : V → V) k m : list (K * V) :=
  map (λ '(k', v), (k', match kcmp k k' with Eq => f v | _ => v end)) m.

Definition bt_contains k m : bool := is_some (bt_get k m).
Definition bt_keys m : list K := m.*1.
Definition bt_values m : list V := m.*2.

(** Ascending keys; what every map built by the operations has. *)
Definition bt_wf m : Prop := StronglySorted klt (bt_keys m).

Lemma bt_get_insert_eq k v m : bt_get k (bt_insert k v m) = Some v.
Proof.
  induction m as [|[k' v'] m IH]; cbn; [by rewrite kcmp_refl|].
  destruct (kcmp k k') eqn:E; cbn; rewrite ?kcmp_refl, ?E; done.
Qed.

Lemma bt_get_insert_ne k k' v m :
  k ≠ k' → bt_get k' (bt_insert k v m) = bt_get k' m.
Proof.
  intros Hne. assert (kcmp k' k ≠ Eq) as Hne' by (rewrite kcmp_eq; done).
  induction m as [|[k1 v1] m IH]; cbn; [by destruct (kcmp k' k)|].
  destruct (kcmp k k1) eqn:E; cbn.
  - apply kcmp_eq in E as ->. by destruct (kcmp k' k1).
  - by destruct (kcmp k' k).
  - by rewrite IH.
Qed.

Lemma bt_get_insert `{EqDecision K} k k' v m :
  bt_get k' (bt_insert k v m) = if decide (k = k') then Some v else bt_get k' m.
Proof.
  case_decide; [subst; apply bt_get_insert_eq|by apply bt_get_insert_ne].
Qed.

Lemma bt_get_remove_eq k m : bt_get k (bt_remove k m) = None.
Proof.
  induction m as [|[k' v'] m IH]; cbn; [done|].
  destruct (kcmp k k') eqn:E; cbn; rewrite ?E; done.
Qed.

Lemma bt_get_remove_ne k k' m :
  k ≠ k' → bt_get k' (bt_remove k m) = bt_get k' m.
Proof.
  intros Hne. induction m as [|[k1 v1] m IH]; cbn; [done|].
  destruct (kcmp k k1) eqn:E; cbn; rewrite IH; [|done|done].
  apply kcmp_eq in E as ->.
  destruct (kcmp k' k1) eqn:E'; [|done|done]. by apply kcmp_eq in E' as ->.
Qed.

Lemma bt_get_remove_Some k k' m v : bt_get k (bt_remove k' m) = Some v → bt_get k m = Some v.
Proof.
  destruct (kcmp_spec k k') as [->|H|H].
  - by rewrite bt_get_remove_eq.
  - rewrite bt_get_remove_ne; [done|]. intros ->. by apply klt_irrefl in H.
  - rewrite bt_get_remove_ne; [done|]. intros ->. by apply klt_irrefl in H.
Qed.

Lemma bt_get_update f k k' m :
  bt_get k' (bt_update f k m) =
    match kcmp k k' with Eq => f <$> bt_get k' m | _ => bt_get k' m end.
Proof.
  induction m as [|[k1 v1] m IH]; cbn; [by destruct (kcmp k k')|].
  destruct (kcmp k' k1) eqn:E; rewrite ?IH; [|done|done].
  apply kcmp_eq in E as ->. by destruct (kcmp k k1).
Qed.

Lemma bt_keys_update f k m : bt_keys (bt_update f k m) = bt_keys m.
Proof.
  unfold bt_keys, bt_update. induction m as [|[k1 v1] m IH]; cbn; [done|].
  by rewrite IH.
Qed.

Lemma bt_get_elem k v m : bt_get k m = Some v → (k, v) ∈ m.
Proof.
  induction m as [|[k1 v1] m IH]; cbn; [done|].
  destruct (kcmp k k1) eqn:E; intros H; [|set_solver|set_solver].
  apply kcmp_eq in E as ->. simplify_eq. set_solver.
Qed.

Lemma bt_get_None_keys k m : bt_get k m = None ↔ k ∉ bt_keys m.
Proof.
  unfold bt_keys. induction m as [|[k1 v1] m IH]; cbn; [set_solver|].
  rewrite not_elem_of_cons, <- IH.
  destruct (kcmp_spec k k1) as [->|H|H]; [naive_solver| |];
    split; try tauto; intros ?; split; try done; intros ->; by apply klt_irrefl in H.
Qed.

Lemma bt_get_Some_keys k m : is_Some (bt_get k m) ↔ k ∈ bt_keys m.
Proof.
  split.
  - intros [v H]. unfold bt_keys. apply list_elem_of_fmap.
    exists (k, v). split; [done|]. by apply bt_get_elem.
  - intros H. destruct (bt_get k m) eqn:E; [done|]. by apply bt_get_None_keys in E.
Qed.

Lemma bt_wf_nodup m : bt_wf m → NoDup (bt_keys m).
Proof.
  unfold bt_wf. induction (bt_keys m) as [|k ks IH]; [constructor|].
  inversion 1 as [|?? Hs Hf]; subst. constructor; [|auto].
  intros Hin. rewrite Forall_forall in Hf. by apply Hf, klt_irrefl in Hin.
Qed.

Lemma bt_elem_get k v m : bt_wf m → (k, v) ∈ m → bt_get k m = Some v.
Proof.
  intros Hwf%bt_wf_nodup. unfold bt_keys in Hwf.
  induction m as [|[k1 v1] m IH]; cbn in *; [by intros ?%elem_of_nil|].
  inversion Hwf as [|?? Hn Hd]; subst.
  intros [?|Hin]%elem_of_cons; simplify_eq; [by rewrite kcmp_refl|].
  destruct (kcmp k k1) eqn:E; [|by apply IH|by apply IH].
  apply kcmp_eq in E as ->. destruct Hn. apply list_elem_of_fmap. by exists (k1, v).
Qed.

Lemma bt_keys_insert k v m k' : k' ∈ bt_keys (bt_insert k v m) ↔ k' = k ∨ k' ∈ bt_keys m.
Proof.
  unfold bt_keys. induction m as [|[k1 v1] m IH]; cbn; [set_solver|].
  destruct (kcmp k k1) eqn:E; cbn.
  - apply kcmp_eq in E as ->. set_solver.
  - set_solver.
  - set_solver.
Qed.

Lemma bt_keys_remove k m k' : k' ∈ bt_keys (bt_remove k m) ↔ k' ≠ k ∧ k' ∈ bt_keys m.
Proof.
  unfold bt_keys. induction m as [|[k1 v1] m IH]; cbn; [set_solver|].
  destruct (kcmp_spec k k1) as [->|H|H]; cbn; [set_solver| |];
    rewrite !elem_of_cons, IH; (split; [|naive_solver]);
    intros [->|?]; try naive_solver; split; auto;
    intros ->; by apply klt_irrefl in H.
Qed.

Lemma bt_wf_insert k v m : bt_wf m → bt_wf (bt_insert k v m).
Proof.
  unfold bt_wf. induction m as [|[k1 v1] m IH]; cbn; [by repeat constructor|].
  inversion 1 as [|?? Hs Hf]; subst.
  destruct (kcmp_spec k k1) as [->|Hlt|Hlt]; cbn.
  - by constructor.
  - constructor; [by constructor|]. constructor; [done|].
    eapply Forall_impl; [done|]. intros. by etrans.
  - constructor; [by apply IH|]. rewrite Forall_forall in *.
    intros k' [->|?]%bt_keys_insert; auto.
Qed.

Lemma bt_wf_remove k m : bt_wf m → bt_wf (bt_remove k m).
Proof.
  unfold bt_wf. induction m as [|[k1 v1] m IH]; cbn; [done|].
  inversion 1 as [|?? Hs Hf]; subst.
  destruct (kcmp k k1); cbn; [auto| |];
    (constructor; [auto|]); rewrite Forall_forall in *;
    intros k' [??]%bt_keys_remove; auto.
Qed.

Lemma bt_wf_update f k m : bt_wf m → bt_wf (bt_update f k m).
Proof. unfold bt_wf. by rewrite bt_keys_update. Qed.

Lemma bt_wf_nil : bt_wf [].
Proof. constructor. Qed.

Lemma bt_len_insert_le k v m : zlen (bt_insert k v m) ≤ 1 + zlen m.
Proof.
  induction m as [|[k1 v1] m IH]; cbn [bt_insert]; [done|].
  destruct (kcmp k k1); rewrite ?zlen_cons in *; lia.
Qed.

Lemma bt_len_insert_old k v m :
  bt_wf m → is_Some (bt_get k m) → zlen (bt_insert k v m) = zlen m.
Proof.
  unfold bt_wf. induction m as [|[k1 v1] m IH]; cbn; [by intros ? [??]|].
  inversion 1 as [|?? Hs Hf]; subst.
  destruct (kcmp_spec k k1) as [->|Hlt|Hlt]; rewrite ?zlen_cons; [done| |].
  - intros Hin%bt_get_Some_keys. rewrite Forall_forall in Hf.
    apply Hf in Hin. destruct (klt_irrefl k1). by etrans.
  - intros Hin. by rewrite IH.
Qed.

Lemma bt_len_insert_new k v m :
  bt_get k m = None → zlen (bt_insert k v m) = 1 + zlen m.
Proof.
  induction m as [|[k1 v1] m IH]; cbn [bt_insert bt_get]; [done|].
  destruct (kcmp k k1); intros H; rewrite ?zlen_cons; [done|done|].
  rewrite IH by done. lia.
Qed.

Lemma bt_len_remove k m : zlen (bt_remove k m) ≤ zlen m.
Proof.
  induction m as [|[k1 v1] m IH]; cbn [bt_remove]; [done|].
  destruct (kcmp k k1); rewrite ?zlen_cons in *; lia.
Qed.

Lemma bt_len_update f k m : zlen (bt_update f k m) = zlen m.
Proof. unfold zlen, bt_update. by rewrite length_map. Qed.

(** Two maps in key order with the same bindings are the same list. *)
Lemma bt_ext m m' :
  bt_wf m → bt_wf m' → (∀ k, bt_get k m = bt_get k m') → m = m'.
Proof.
  unfold bt_wf. revert m'.
  induction m as [|[k v] m IH]; intros [|[k' v'] m'] Hm Hm' Hget; [done| | |].
  - specialize (Hget k'). cbn in Hget. by rewrite kcmp_refl in Hget.
  - specialize (Hget k). cbn in Hget. by rewrite kcmp_refl in Hget.
  - inversion Hm as [|?? Hs Hf]; inversion Hm' as [|?? Hs' Hf']; subst.
    assert (k = k') as <-.
    { destruct (kcmp_spec k k') as [|Hlt|Hlt]; [done|exfalso|exfalso].
      - pose proof (Hget k) as H. cbn in H. rewrite kcmp_refl in H.
        assert (k ∈ k' :: bt_keys m') as Hin
          by (apply (bt_get_Some_keys k ((k', v') :: m')); eexists; cbn; by rewrite <- H).
        rewrite Forall_forall in Hf'.
        apply elem_of_cons in Hin as [->|Hin%Hf'];
          [by apply klt_irrefl in Hlt|destruct (klt_irrefl k); by etrans].
      - pose proof (Hget k') as H. cbn in H. rewrite kcmp_refl in H.
        assert (k' ∈ k :: bt_keys m) as Hin
          by (apply (bt_get_Some_keys k' ((k, v) :: m)); eexists; cbn; by rewrite H).
        rewrite Forall_forall in Hf.
        apply elem_of_cons in Hin as [->|Hin%Hf];
          [by apply klt_irrefl in Hlt|destruct (klt_irrefl k'); by etrans]. }
    pose proof (Hget k) as H. cbn in H. rewrite kcmp_refl in H. simplify_eq.
    f_equal. apply IH; [done..|]. intros j.
    destruct (kcmp_spec k j) as [<-|Hlt|Hlt].
    + rewrite Forall_forall in Hf, Hf'.
      assert (bt_get k m = None) as ->.
      { apply bt_get_None_keys. intros Hin%Hf. by apply klt_irrefl in Hin. }
      symmetry. apply bt_get_None_keys. intros Hin%Hf'. by apply klt_irrefl in Hin.
    + specialize (Hget j). cbn in Hget. rewrite kcmp_opp in Hget.
      unfold klt in Hlt. by rewrite Hlt in Hget.
    + specialize (Hget j). cbn in Hget. unfold klt in Hlt. by rewrite Hlt in Hget.
Qed.
End Maps.

(** A map over the values keeps keys, order and size. *)
Definition bt_map {K V W} (f : K → V → W) (m : list (K * V)) : list (K * W) :=
  map (λ '(k, v), (k, f k v)) m.

Lemma bt_keys_map {K V W} (f : K → V → W) m : bt_keys (bt_map f m) = bt_keys m.
Proof.
  unfold bt_keys, bt_map. induction m as [|[k v] m IH]; cbn; [done|]. by rewrite IH.
Qed.

Lemma bt_get_map `{OrdKey K} {V W} (f : K → V → W) m k :
  bt_get k (bt_map f m) = f k <$> bt_get k m.
Proof.
  induction m as [|[k1 v1] m IH]; cbn; [done|].
  destruct (kcmp k k1) eqn:E; [|done|done]. by apply kcmp_eq in E as ->.
Qed.

Lemma bt_wf_map `{OrdKey K} {V W} (f : K → V → W) (m : list (K * V)) :
  bt_wf m → bt_wf (bt_map f m).
Proof. unfold bt_wf. by rewrite bt_keys_map. Qed.

Lemma bt_len_map {K V W} (f : K → V → W) (m : list (K * V)) :
  zlen (bt_map f m) = zlen m.
Proof. unfold zlen, bt_map. by rewrite length_map. Qed.

(** ** Sets *)
Definition bs_insert `{OrdKey K} (k : K) (s : list (K * unit)) := bt_insert k tt s.
Definition bs_of_list `{OrdKey K} (l : list K) : list (K * unit) :=
  foldl (λ s k, bs_insert k s) [] l.

Lemma bs_of_list_acc `{OrdKey K} (l : list K) s k :
  k ∈ bt_keys (foldl (λ s k, bs_insert k s) s l) ↔ k ∈ l ∨ k ∈ bt_keys s.
Proof.
  revert s. induction l as [|x l IH]; intros s; cbn [foldl]; [set_solver|].
  rewrite IH. unfold bs_insert. rewrite bt_keys_insert. set_solver.
Qed.

Lemma bs_of_list_elem `{OrdKey K} (l : list K) k : k ∈ bt_keys (bs_of_list l) ↔ k ∈ l.
Proof. unfold bs_of_list. rewrite bs_of_list_acc. set_solver. Qed.

Lemma bs_of_list_wf `{OrdKey K} (l : list K) : bt_wf (bs_of_list l).
Proof.
  unfold bs_of_list. apply (foldl_inv bt_wf); [apply bt_wf_nil|].
  intros. by apply bt_wf_insert.
Qed.

Lemma bs_of_list_nodup `{OrdKey K} (l : list K) : zlen (bs_of_list l) = zlen l → NoDup l.
Proof.
  intros Hl. assert (bt_keys (bs_of_list l) ≡ₚ l) as <-.
  { apply submseteq_length_Permutation.
    - apply NoDup_submseteq; [apply bt_wf_nodup, bs_of_list_wf|]. intros k. by rewrite bs_of_list_elem.
    - unfold zlen in Hl. unfold bt_keys. rewrite length_fmap. lia. }
  apply bt_wf_nodup, bs_of_list_wf.
Qed.

(** Sets in order are equal exactly when they have the same members. *)
Lemma bs_ext `{OrdKey K} (s t : list (K * unit)) :
  bt_wf s → bt_wf t → (∀ k, k ∈ bt_keys s ↔ k ∈ bt_keys t) → s = t.
Proof.
  intros Hs Ht Hk. apply bt_ext; [done..|]. intros k.
  specialize (Hk k). rewrite <- !bt_get_Some_keys in Hk.
  destruct (bt_get k s) as [[]|], (bt_get k t) as [[]|]; try done.
  - destruct (proj1 Hk); naive_solver.
  - destruct (proj2 Hk); naive_solver.
Qed.

Create HintDb btree discriminated.
#[export] Hint Resolve bt_wf_insert bt_wf_remove bt_wf_update bt_wf_map bt_wf_nil
  bs_of_list_wf : btree.
Create Rewrite HintDb btree.
#[export] Hint Rewrite @bt_get_insert_eq @bt_get_remove_eq @bt_get_map @bt_keys_map
  @bt_keys_update @bt_len_map @bt_len_update : btree.

(** Case analysis on the order of two keys. *)
Ltac kcase a b := destruct (kcmp_spec a b) as [?|?|?]; simplify_eq.
