(* ===== verification/Text.v ===== *)
(** * Rust strings

    A Rust [str] is its UTF-8 bytes: a Stdlib [string], whose length is
    [str::len].  This file models the parts of [core::str], [char] and
    [format!] the sources use: ASCII classes, splitting and prefixes,
    decimal and hexadecimal printing, big-endian integers and the decoding of
    a [str] into its [char]s. *)
From S2P Require Import Prelude.
From Stdlib Require Export Ascii.
#[local] Open Scope Z_scope.

(** ** Bytes *)
Definition bz (c : ascii) : Z := Z.of_N (N_of_ascii c).
Definition zb (z : Z) : ascii := ascii_of_N (Z.to_N z).
Definition chr_list (s : string) : list ascii := String.list_ascii_of_string s.
(** [str::as_bytes]. *)
Definition bytes (s : string) : list Z := bz <$> chr_list s.
Definition of_bytes (l : list Z) : string := String.string_of_list_ascii (zb <$> l).

Definition in_range (lo hi z : Z) : bool := (lo <=? z) && (z <=? hi).
Definition is_byte (z : Z) : bool := in_range 0 255 z.
Definition is_ascii_digit (b : Z) : bool := in_range 48 57 b.
Definition is_ascii_uppercase (b : Z) : bool := in_range 65 90 b.
Definition is_ascii_lowercase (b : Z) : bool := in_range 97 122 b.
Definition is_ascii_alphanumeric (b : Z) : bool :=
  is_ascii_digit b || is_ascii_uppercase b || is_ascii_lowercase b.
Definition is_ascii_hexdigit (b : Z) : bool :=
  is_ascii_digit b || in_range 65 70 b || in_range 97 102 b.

(** [set.contains(&b)] for a byte string [set]. *)
Definition byte_of (set : string) (b : Z) : bool := existsb (Z.eqb b) (bytes set).
(** [s.bytes().all(p)]. *)
Definition all_bytes (p : Z → bool) (s : string) : bool := forallb p (bytes s).
(** [s.contains(c)] for an ASCII [c]. *)
Definition contains_byte (b : Z) (s : string) : bool := existsb (Z.eqb b) (bytes s).

(** ** Prefixes, suffixes, splitting *)
Fixpoint strip_prefix (p s : string) : option string :=
  match p, s with
  | EmptyString, _ => Some s
  | String a p, String b s => if Ascii.eqb a b then strip_prefix p s else None
  | _, _ => None
  end.
Definition starts_with (p s : string) : bool := is_some (strip_prefix p s).

Definition srev (s : string) : string :=
  String.string_of_list_ascii (reverse (chr_list s)).
Definition strip_suffix (p s : string) : option string :=
  srev <$> strip_prefix (srev p) (srev s).
Definition ends_with (p s : string) : bool := is_some (strip_suffix p s).

(** [s.contains(pattern)]. *)
Fixpoint contains_str (pattern s : string) : bool :=
  starts_with pattern s ||
  match s with EmptyString => false | String _ s => contains_str pattern s end.

(** [s.split(sep)] for an ASCII separator: never empty. *)
Fixpoint split (sep : ascii) (s : string) : list string :=
  match s with
  | EmptyString => [""]
  | String c s =>
      if Ascii.eqb c sep then "" :: split sep s
      else match split sep s with
           | w :: ws => String c w :: ws
           | [] => [String c ""]
           end
  end.

(** [s.split_once(sep)]: at the first separator. *)
Fixpoint split_once (sep : ascii) (s : string) : option (string * string) :=
  match s with
  | EmptyString => None
  | String c s =>
      if Ascii.eqb c sep then Some ("", s)
      else match split_once sep s with
           | Some (a, b) => Some (String c a, b)
           | None => None
           end
  end.

(** [parts.join(sep)]. *)
Fixpoint join (sep : string) (parts : list string) : string :=
  match parts with
  | [] => ""
  | [p] => p
  | p :: ps => p +:+ sep +:+ join sep ps
  end.

(** ** Printing *)
(** The decimal digits of [n], least significant first. *)
Fixpoint dec_digits (fuel : nat) (n : Z) : list Z :=
  match fuel with
  | O => []
  | S fuel =>
      if n <? 10 then [48 + n] else 48 + n mod 10 :: dec_digits fuel (n / 10)
  end.
(** [format!("{n}")] of an unsigned integer: no more digits than bits. *)
Definition dec (n : Z) : string :=
  of_bytes (reverse (dec_digits (S (Z.to_nat (Z.log2 n))) n)).
(** The value of a string of digits. *)
Definition digits_value (ds : list Z) : Z := foldl (λ n d, n * 10 + (d - 48)) 0 ds.

Definition hex_digit (d : Z) : Z := if d <? 10 then 48 + d else 87 + d.
(** [format!("{byte:02x}")] of every byte, concatenated. *)
Definition hex_of (l : list Z) : string :=
  of_bytes (mjoin ((λ b, [hex_digit (b / 16); hex_digit (b mod 16)]) <$> l)).

(** ** Big-endian integers *)
(** [z.to_be_bytes()] at [n] bytes. *)
Fixpoint be_bytes (n : nat) (z : Z) : list Z :=
  match n with
  | O => []
  | S n => (z / 256 ^ Z.of_nat n) mod 256 :: be_bytes n z
  end.
(** [from_be_bytes]. *)
Definition be_value (l : list Z) : Z := foldl (λ acc b, acc * 256 + b) 0 l.
(** [from_le_bytes]. *)
Fixpoint le_value (l : list Z) : Z :=
  match l with [] => 0 | b :: l => b + 256 * le_value l end.

(** ** Characters *)
(** A Unicode scalar value, what a Rust [char] holds. *)
Definition is_scalar (c : Z) : bool :=
  in_range 0 0xD7FF c || in_range 0xE000 0x10FFFF c.

Definition len_utf8 (c : Z) : Z :=
  if c <? 0x80 then 1 else if c <? 0x800 then 2 else if c <? 0x10000 then 3 else 4.

Definition encode_utf8 (c : Z) : list Z :=
  if c <? 0x80 then [c]
  else if c <? 0x800 then [0xC0 + c / 64; 0x80 + c mod 64]
  else if c <? 0x10000 then
    [0xE0 + c / 4096; 0x80 + (c / 64) mod 64; 0x80 + c mod 64]
  else
    [0xF0 + c / 262144; 0x80 + (c / 4096) mod 64; 0x80 + (c / 64) mod 64;
     0x80 + c mod 64].

Definition replacement : Z := 0xFFFD.
Definition is_cont (b : Z) : bool := in_range 0x80 0xBF b.

(** The next [char] and the bytes after it.  A [str] is well-formed UTF-8, so
    the replacement character for a malformed byte is never used on one. *)
Definition decode_utf8 (l : list Z) : option (Z * list Z) :=
  match l with
  | [] => None
  | a :: r =>
      if a <? 0x80 then Some (a, r)
      else
        let bad := Some (replacement, r) in
        if in_range 0xC0 0xDF a then
          match r with
          | b :: r' =>
              let c := (a - 0xC0) * 64 + (b - 0x80) in
              if is_cont b && (0x80 <=? c) then Some (c, r') else bad
          | _ => bad
          end
        else if in_range 0xE0 0xEF a then
          match r with
          | b :: b' :: r' =>
              let c := (a - 0xE0) * 4096 + (b - 0x80) * 64 + (b' - 0x80) in
              if is_cont b && is_cont b' && (0x800 <=? c) && is_scalar c
              then Some (c, r') else bad
          | _ => bad
          end
        else if in_range 0xF0 0xF7 a then
          match r with
          | b :: b' :: b'' :: r' =>
              let c := (a - 0xF0) * 262144 + (b - 0x80) * 4096
                       + (b' - 0x80) * 64 + (b'' - 0x80) in
              if is_cont b && is_cont b' && is_cont b'' && (0x10000 <=? c) && is_scalar c
              then Some (c, r') else bad
          | _ => bad
          end
        else bad
  end.

Fixpoint decode_all (fuel : nat) (l : list Z) : list Z :=
  match fuel with
  | O => []
  | S fuel =>
      match decode_utf8 l with
      | Some (c, r) => c :: decode_all fuel r
      | None => []
      end
  end.

(** [s.chars()]; one byte at least per step, so the length is fuel enough
    ([chars_of_chars] below). *)
Definition chars (s : string) : list Z := decode_all (length (bytes s)) (bytes s).
(** [chars.collect::<String>()]. *)
Definition of_chars (cs : list Z) : string := of_bytes (mjoin (encode_utf8 <$> cs)).

(** [std::str::from_utf8]: malformed input does not encode back to itself. *)
Definition from_utf8 (l : list Z) : option string :=
  let s := of_bytes l in
  if bool_decide (of_chars (chars s) = s) then Some s else None.

(** [char::is_control]: general category Cc. *)
Definition is_control (c : Z) : bool := in_range 0 0x1F c || in_range 0x7F 0x9F c.
(** [char::is_whitespace]: the White_Space property. *)
Definition is_whitespace (c : Z) : bool :=
  in_range 9 13 c || (c =? 0x20) || (c =? 0x85) || (c =? 0xA0) || (c =? 0x1680)
  || in_range 0x2000 0x200A c || (c =? 0x2028) || (c =? 0x2029) || (c =? 0x202F)
  || (c =? 0x205F) || (c =? 0x3000).

Fixpoint trim_start (cs : list Z) : list Z :=
  match cs with
  | c :: cs' => if is_whitespace c then trim_start cs' else cs
  | [] => []
  end.
(** [str::trim] on the characters. *)
Definition trim_chars (cs : list Z) : list Z :=
  reverse (trim_start (reverse (trim_start cs))).
Definition trim (s : string) : string := of_chars (trim_chars (chars s)).
Definition any_control (s : string) : bool := existsb is_control (chars s).

(** [str::split_whitespace]. *)
Fixpoint words_of (cur : list Z) (cs : list Z) : list (list Z) :=
  match cs with
  | [] => if bool_decide (cur = []) then [] else [reverse cur]
  | c :: cs =>
      if is_whitespace c
      then (if bool_decide (cur = []) then [] else [reverse cur]) ++ words_of [] cs
      else words_of (c :: cur) cs
  end.
Definition split_whitespace (s : string) : list string := of_chars <$> words_of [] (chars s).

(** [str::lines]: without the line ends; only a line that ends loses a carriage return. *)
Definition strip_cr (line : string) : string :=
  match strip_suffix (String (zb 13) "") line with Some l => l | None => line end.
Definition str_lines (s : string) : list string :=
  match reverse (split (zb 10) s) with
  | last :: rest => (strip_cr <$> reverse rest) ++ (if String.eqb last "" then [] else [last])
  | [] => []
  end.

(** [parse::<uN>()] on the characters: digits, with a plus sign allowed. *)
Definition parse_unsigned (max : Z) (cs : list Z) : option Z :=
  let ds := match cs with 43 :: ds => ds | _ => cs end in
  if bool_decide (ds ≠ []) && forallb is_ascii_digit ds && (digits_value ds <=? max)
  then Some (digits_value ds) else None.

(** ** Lossy decoding *)
(** The length of a malformed sequence that becomes one replacement character. *)
Definition malformed_len (l : list Z) : nat :=
  match l with
  | a :: b :: r =>
      let second := if a =? 0xE0 then in_range 0xA0 0xBF b
                    else if a =? 0xED then in_range 0x80 0x9F b
                    else if a =? 0xF0 then in_range 0x90 0xBF b
                    else if a =? 0xF4 then in_range 0x80 0x8F b
                    else is_cont b in
      if in_range 0xE0 0xEF a && second then 2%nat
      else if in_range 0xF0 0xF4 a && second
           then match r with c :: _ => if is_cont c then 3%nat else 2%nat | [] => 2%nat end
      else 1%nat
  | _ => 1%nat
  end.

Definition well_formed (l : list Z) : bool :=
  match decode_utf8 l with
  | Some (c, r) => bool_decide (encode_utf8 c ++ r = l)
  | None => false
  end.

Fixpoint lossy_chars (fuel : nat) (l : list Z) : list Z :=
  match fuel with
  | O => []
  | Datatypes.S fuel =>
      match decode_utf8 l with
      | None => []
      | Some (c, r) =>
          if well_formed l then c :: lossy_chars fuel r
          else replacement :: lossy_chars fuel (drop (malformed_len l) l)
      end
  end.

(** [String::from_utf8_lossy]: every step takes a byte at least. *)
Definition lossy (l : list Z) : string := of_chars (lossy_chars (length l) l).

(** ** Lemmas: bytes *)
Lemma bz_range c : 0 ≤ bz c < 256.
Proof. unfold bz. pose proof (N_ascii_bounded c). lia. Qed.

Lemma bz_zb z : is_byte z = true → bz (zb z) = z.
Proof.
  unfold is_byte, in_range, bz, zb. bool_prop. intros [??].
  rewrite N_ascii_embedding by lia. lia.
Qed.

Lemma zb_bz c : zb (bz c) = c.
Proof. unfold zb, bz. rewrite N2Z.id. apply ascii_N_embedding. Qed.

Lemma bytes_of_bytes l : forallb is_byte l = true → bytes (of_bytes l) = l.
Proof.
  unfold bytes, of_bytes, chr_list. rewrite String.list_ascii_of_string_of_list_ascii.
  induction l as [|z l IH]; cbn; [done|]. rewrite andb_true_iff. intros [Hz Hl].
  by rewrite bz_zb, IH.
Qed.

Lemma of_bytes_bytes s : of_bytes (bytes s) = s.
Proof.
  unfold bytes, of_bytes, chr_list. rewrite <- list_fmap_compose.
  rewrite <- (String.string_of_list_ascii_of_string s) at 2. f_equal.
  induction (String.list_ascii_of_string s) as [|c l IH]; cbn; [done|].
  by rewrite zb_bz, IH.
Qed.

Lemma bytes_inj s t : bytes s = bytes t → s = t.
Proof. intros H. by rewrite <- (of_bytes_bytes s), H, of_bytes_bytes. Qed.

Lemma bytes_cons c s : bytes (String c s) = bz c :: bytes s.
Proof. done. Qed.

Lemma bytes_app s t : bytes (s +:+ t) = bytes s ++ bytes t.
Proof.
  induction s as [|c s IH]; [done|].
  rewrite scons_app, !bytes_cons, IH. done.
Qed.

Lemma length_bytes s : length (bytes s) = String.length s.
Proof. induction s as [|c s IH]; [done|]. rewrite bytes_cons. cbn. by rewrite IH. Qed.

Lemma slen_bytes s : slen s = zlen (bytes s).
Proof. unfold slen, zlen. by rewrite length_bytes. Qed.

Lemma bytes_is_byte s : forallb is_byte (bytes s) = true.
Proof.
  induction s as [|c s IH]; [done|]. rewrite bytes_cons. cbn.
  rewrite IH, andb_true_r. unfold is_byte, in_range. bool_prop.
  pose proof (bz_range c). lia.
Qed.

Lemma slen_of_bytes l : slen (of_bytes l) = zlen l.
Proof.
  unfold slen, of_bytes, zlen. f_equal.
  induction l as [|z l IH]; cbn; [done|]. by rewrite IH.
Qed.

Lemma of_bytes_app l k : of_bytes (l ++ k) = of_bytes l +:+ of_bytes k.
Proof.
  induction l as [|z l IH]; [done|]. cbn. rewrite scons_app. f_equal. apply IH.
Qed.

Lemma all_bytes_app p s t : all_bytes p (s +:+ t) = all_bytes p s && all_bytes p t.
Proof. unfold all_bytes. by rewrite bytes_app, forallb_app. Qed.

Lemma all_bytes_forall p s : all_bytes p s = true ↔ Forall (λ b, p b = true) (bytes s).
Proof. apply forallb_Forall. Qed.

(** ** Lemmas: splitting *)
Lemma strip_prefix_app p s : strip_prefix p (p +:+ s) = Some s.
Proof.
  induction p as [|c p IH]; [done|]. rewrite scons_app. cbn.
  by rewrite Ascii.eqb_refl.
Qed.

Lemma strip_prefix_Some p s r : strip_prefix p s = Some r ↔ s = p +:+ r.
Proof.
  split; [|intros ->; apply strip_prefix_app].
  revert s. induction p as [|c p IH]; intros s; cbn; [by intros [= ->]|].
  destruct s as [|d s]; [done|]. destruct (Ascii.eqb_spec c d) as [->|]; [|done].
  intros ->%IH. by rewrite scons_app.
Qed.

Lemma chr_list_of_list l : chr_list (String.string_of_list_ascii l) = l.
Proof. apply String.list_ascii_of_string_of_list_ascii. Qed.
Lemma of_list_chr_list s : String.string_of_list_ascii (chr_list s) = s.
Proof. apply String.string_of_list_ascii_of_string. Qed.
Lemma chr_list_inj s t : chr_list s = chr_list t → s = t.
Proof. intros H. by rewrite <- (of_list_chr_list s), H, of_list_chr_list. Qed.
Lemma chr_list_app s t : chr_list (s +:+ t) = chr_list s ++ chr_list t.
Proof.
  induction s as [|c s IH]; [done|]. rewrite scons_app. unfold chr_list in *.
  cbn [String.list_ascii_of_string app]. by rewrite IH.
Qed.

Lemma srev_app s t : srev (s +:+ t) = srev t +:+ srev s.
Proof.
  apply chr_list_inj. unfold srev.
  by rewrite !chr_list_app, !chr_list_of_list, reverse_app.
Qed.
Lemma srev_involutive s : srev (srev s) = s.
Proof.
  apply chr_list_inj. unfold srev. by rewrite !chr_list_of_list, reverse_involutive.
Qed.

Lemma strip_suffix_Some p s r : strip_suffix p s = Some r ↔ s = r +:+ p.
Proof.
  unfold strip_suffix. rewrite fmap_Some. setoid_rewrite strip_prefix_Some. split.
  - intros (t & Hs & ->). rewrite <- (srev_involutive s), Hs, srev_app.
    by rewrite srev_involutive.
  - intros ->. exists (srev r). rewrite srev_app, srev_involutive. done.
Qed.

Lemma ends_with_spec p s : ends_with p s = true ↔ ∃ r, s = r +:+ p.
Proof.
  unfold ends_with. setoid_rewrite <- strip_suffix_Some.
  destruct (strip_suffix p s); naive_solver.
Qed.
Lemma starts_with_spec p s : starts_with p s = true ↔ ∃ r, s = p +:+ r.
Proof.
  unfold starts_with. setoid_rewrite <- strip_prefix_Some.
  destruct (strip_prefix p s); naive_solver.
Qed.

(** A text of bytes of one class has no suffix with another last byte. *)
Lemma ends_with_class (q : Z → bool) p c s :
  q (bz c) = false → all_bytes q s = true → ends_with (p +:+ String c "") s = false.
Proof.
  intros Hc Hs. destruct (ends_with (p +:+ String c "") s) eqn:E; [|done].
  apply ends_with_spec in E as [r ->]. unfold all_bytes in Hs.
  rewrite <- sapp_assoc, bytes_app, forallb_app in Hs. cbn in Hs.
  rewrite Hc, andb_false_r in Hs. done.
Qed.

Lemma split_once_none sep s : contains_byte (bz sep) s = false → split_once sep s = None.
Proof.
  unfold contains_byte. induction s as [|c s IH]; [done|]. rewrite bytes_cons.
  cbn [existsb split_once]. rewrite orb_false_iff. intros [Hc Hs].
  destruct (Ascii.eqb_spec c sep) as [->|]; [by rewrite Z.eqb_refl in Hc|]. by rewrite IH.
Qed.

Lemma split_not_nil sep s : split sep s ≠ [].
Proof. destruct s as [|c s]; cbn; [done|]. repeat case_match; done. Qed.

(** [join] undoes [split]: printing a parsed path gives the text back. *)
Lemma join_split sep s : join (String sep "") (split sep s) = s.
Proof.
  induction s as [|c s IH]; [done|]. cbn [split].
  destruct (Ascii.eqb_spec c sep) as [->|Hne].
  - destruct (split sep s) as [|w ws] eqn:E; [by apply split_not_nil in E|].
    change (join _ ("" :: w :: ws)) with (String sep (join (String sep "") (w :: ws))).
    by rewrite IH.
  - destruct (split sep s) as [|w ws] eqn:E; [by apply split_not_nil in E|].
    rewrite <- IH. by destruct ws.
Qed.

Lemma split_no_sep sep s :
  contains_byte (bz sep) s = false → split sep s = [s].
Proof.
  unfold contains_byte. induction s as [|c s IH]; [done|]. rewrite bytes_cons.
  cbn [existsb split]. rewrite orb_false_iff. intros [Hc Hs].
  destruct (Ascii.eqb_spec c sep) as [->|]; [by rewrite Z.eqb_refl in Hc|].
  by rewrite IH.
Qed.

Lemma split_app_sep sep s t :
  contains_byte (bz sep) s = false → split sep (s +:+ String sep t) = s :: split sep t.
Proof.
  unfold contains_byte. induction s as [|c s IH].
  - intros _. change ("" +:+ String sep t) with (String sep t). cbn. by rewrite Ascii.eqb_refl.
  - rewrite bytes_cons, scons_app. cbn [existsb split]. rewrite orb_false_iff.
    intros [Hc Hs]. destruct (Ascii.eqb_spec c sep) as [->|]; [by rewrite Z.eqb_refl in Hc|].
    by rewrite IH.
Qed.

(** [split] undoes [join] on parts without the separator. *)
Lemma split_join sep ps :
  ps ≠ [] → Forall (λ p, contains_byte (bz sep) p = false) ps →
  split sep (join (String sep "") ps) = ps.
Proof.
  intros Hne Hps. induction Hps as [|p ps Hp Hps IH]; [done|].
  destruct ps as [|q ps]; [by apply split_no_sep|].
  change (join _ (p :: q :: ps)) with (p +:+ String sep (join (String sep "") (q :: ps))).
  rewrite split_app_sep by done. f_equal. by apply IH.
Qed.

Lemma split_once_app sep a b :
  contains_byte (bz sep) a = false → split_once sep (a +:+ String sep b) = Some (a, b).
Proof.
  unfold contains_byte. induction a as [|c a IH].
  - intros _. change ("" +:+ String sep b) with (String sep b). cbn. by rewrite Ascii.eqb_refl.
  - rewrite bytes_cons, scons_app. cbn [existsb split_once]. rewrite orb_false_iff.
    intros [Hc Ha]. destruct (Ascii.eqb_spec c sep) as [->|]; [by rewrite Z.eqb_refl in Hc|].
    by rewrite IH.
Qed.

Lemma split_once_Some sep s a b :
  split_once sep s = Some (a, b) →
  s = a +:+ String sep b ∧ contains_byte (bz sep) a = false.
Proof.
  unfold contains_byte. revert a. induction s as [|c s IH]; intros a; [done|].
  cbn [split_once]. destruct (Ascii.eqb_spec c sep) as [->|Hne].
  - by intros [= <- <-].
  - destruct (split_once sep s) as [[a' b']|] eqn:E; [|done].
    intros [= <- <-]. destruct (IH a' eq_refl) as [-> Ha].
    rewrite bytes_cons. cbn [existsb]. rewrite Ha, orb_false_r. split; [done|].
    apply Z.eqb_neq. intros Heq. apply Hne. by rewrite <- (zb_bz c), <- Heq, zb_bz.
Qed.

(** ** Lemmas: integers *)
Lemma length_be_bytes n z : length (be_bytes n z) = n.
Proof. induction n as [|n IH]; cbn; [done|]. by rewrite IH. Qed.

Lemma be_bytes_is_byte n z : forallb is_byte (be_bytes n z) = true.
Proof.
  induction n as [|n IH]; cbn; [done|]. rewrite IH, andb_true_r.
  unfold is_byte, in_range. bool_prop.
  pose proof (Z.mod_pos_bound (z / 256 ^ Z.of_nat n) 256). lia.
Qed.

Lemma be_value_acc l acc :
  foldl (λ acc b, acc * 256 + b) acc l = acc * 256 ^ zlen l + be_value l.
Proof.
  unfold be_value. revert acc. induction l as [|b l IH]; intros acc; cbn [foldl].
  - unfold zlen. cbn. lia.
  - rewrite IH, (IH (0 * 256 + b)), zlen_cons, Z.pow_add_r by (try apply zlen_nonneg; lia).
    lia.
Qed.

(** Decoding an encoded integer of the width gives it back. *)
Lemma be_value_bytes n z : 0 ≤ z → be_value (be_bytes n z) = z mod 256 ^ Z.of_nat n.
Proof.
  intros Hz. induction n as [|n IH]; [by rewrite Z.mod_1_r|].
  unfold be_value. cbn [be_bytes foldl]. rewrite be_value_acc, IH.
  unfold zlen. rewrite length_be_bytes.
  rewrite Nat2Z.inj_succ, Z.pow_succ_r by lia.
  rewrite (Z.mul_comm 256), Z.rem_mul_r by lia. lia.
Qed.

Lemma be_value_bytes_id n z :
  0 ≤ z < 256 ^ Z.of_nat n → be_value (be_bytes n z) = z.
Proof. intros H. rewrite be_value_bytes by lia. by apply Z.mod_small. Qed.

(** Encoding a decoded integer gives its bytes back. *)
Lemma be_bytes_mod n z k : be_bytes n (z + k * 256 ^ Z.of_nat n) = be_bytes n z.
Proof.
  revert k. induction n as [|n IH]; intros k; cbn [be_bytes]; [done|].
  rewrite Nat2Z.inj_succ, Z.pow_succ_r by lia.
  replace (k * (256 * 256 ^ Z.of_nat n)) with (k * 256 * 256 ^ Z.of_nat n) by lia.
  rewrite IH, Z.div_add by lia. by rewrite Z.mod_add.
Qed.

Lemma be_value_range l : forallb is_byte l = true → 0 ≤ be_value l < 256 ^ zlen l.
Proof.
  induction l as [|b l IH]; cbn [forallb]; [cbn; unfold zlen; cbn; lia|].
  intros H. unfold is_byte, in_range in *. bool_prop. destruct H as [Hb Hl].
  apply IH in Hl. unfold be_value. cbn [foldl].
  rewrite be_value_acc, zlen_cons, Z.pow_add_r by (try apply zlen_nonneg; lia). nia.
Qed.

Lemma be_bytes_value l : forallb is_byte l = true → be_bytes (length l) (be_value l) = l.
Proof.
  induction l as [|b l IH]; cbn [forallb length be_bytes]; [done|].
  intros H. apply andb_true_iff in H as [Hb Hl].
  pose proof (be_value_range l Hl) as Hr. unfold zlen in Hr.
  unfold be_value. cbn [foldl]. rewrite be_value_acc. unfold zlen. f_equal.
  - unfold is_byte, in_range in Hb. bool_prop.
    rewrite Z.div_add_l, Z.div_small, Z.add_0_r, Z.mod_small by lia. lia.
  - by rewrite Z.add_comm, be_bytes_mod, IH.
Qed.

(** ** Lemmas: characters *)
Lemma len_utf8_encode c : zlen (encode_utf8 c) = len_utf8 c.
Proof. unfold encode_utf8, len_utf8. repeat case_match; done. Qed.

Lemma len_utf8_bounds c : 1 ≤ len_utf8 c ≤ 4.
Proof. unfold len_utf8. repeat case_match; lia. Qed.

Section Utf8.
#[local] Ltac Zify.zify_post_hook ::= Z.div_mod_to_equations.

Lemma encode_utf8_bytes c :
  is_scalar c = true → forallb is_byte (encode_utf8 c) = true.
Proof.
  unfold is_scalar, encode_utf8, is_byte, in_range. intros H.
  repeat case_match; cbn [forallb]; bool_prop; repeat split; lia.
Qed.

Lemma decode_encode c r :
  is_scalar c = true → decode_utf8 (encode_utf8 c ++ r) = Some (c, r).
Proof.
  intros Hc. pose proof Hc as Hr. unfold is_scalar, in_range in Hr. bool_prop.
  unfold encode_utf8.
  repeat case_match; bool_prop; cbn [app decode_utf8].
  - case_match; bool_prop; [done|lia].
  - rewrite (proj2 (Z.ltb_ge _ _)) by lia.
    replace (in_range 0xC0 0xDF (0xC0 + c / 64)) with true
      by (symmetry; unfold in_range; bool_prop; lia).
    replace ((192 + c / 64 - 192) * 64 + (128 + c mod 64 - 128)) with c by lia.
    replace (is_cont (128 + c mod 64) && (128 <=? c)) with true; [done|].
    symmetry. unfold is_cont, in_range. bool_prop. lia.
  - rewrite (proj2 (Z.ltb_ge _ _)) by lia.
    replace (in_range 0xC0 0xDF (0xE0 + c / 4096)) with false
      by (symmetry; unfold in_range; bool_prop; lia).
    replace (in_range 0xE0 0xEF (0xE0 + c / 4096)) with true
      by (symmetry; unfold in_range; bool_prop; lia).
    replace ((224 + c / 4096 - 224) * 4096 + (128 + (c / 64) mod 64 - 128) * 64
             + (128 + c mod 64 - 128)) with c by lia.
    replace (is_cont (128 + (c / 64) mod 64) && is_cont (128 + c mod 64)
             && (2048 <=? c) && is_scalar c) with true; [done|].
    symmetry. rewrite Hc, andb_true_r. unfold is_cont, in_range. bool_prop. lia.
  - rewrite (proj2 (Z.ltb_ge _ _)) by lia.
    replace (in_range 0xC0 0xDF (0xF0 + c / 262144)) with false
      by (symmetry; unfold in_range; bool_prop; lia).
    replace (in_range 0xE0 0xEF (0xF0 + c / 262144)) with false
      by (symmetry; unfold in_range; bool_prop; lia).
    replace (in_range 0xF0 0xF7 (0xF0 + c / 262144)) with true
      by (symmetry; unfold in_range; bool_prop; lia).
    replace ((240 + c / 262144 - 240) * 262144 + (128 + (c / 4096) mod 64 - 128) * 4096
             + (128 + (c / 64) mod 64 - 128) * 64 + (128 + c mod 64 - 128)) with c by lia.
    replace (is_cont (128 + (c / 4096) mod 64) && is_cont (128 + (c / 64) mod 64)
             && is_cont (128 + c mod 64) && (65536 <=? c) && is_scalar c) with true; [done|].
    symmetry. rewrite Hc, andb_true_r. unfold is_cont, in_range. bool_prop. lia.
Qed.
End Utf8.

Definition all_scalar (cs : list Z) : Prop := Forall (λ c, is_scalar c = true) cs.

Lemma decode_utf8_scalar l c r :
  forallb is_byte l = true → decode_utf8 l = Some (c, r) →
  is_scalar c = true ∧ forallb is_byte r = true ∧ (length r < length l)%nat.
Proof.
  destruct l as [|a l]; [done|]. cbn [forallb decode_utf8]. rewrite andb_true_iff.
  intros [Ha Hl] H.
  assert (is_scalar replacement = true) by done.
  unfold is_byte, in_range in Ha.
  repeat case_match; simplify_eq; cbn [forallb length] in *; bool_prop; split_hyps;
    repeat split; try done; try lia; unfold is_scalar, is_cont, in_range in *; bool_prop; lia.
Qed.

Lemma decode_all_scalar fuel l :
  forallb is_byte l = true → all_scalar (decode_all fuel l).
Proof.
  revert l. induction fuel as [|fuel IH]; intros l Hl; cbn; [constructor|].
  destruct (decode_utf8 l) as [[c r]|] eqn:E; [|constructor].
  apply decode_utf8_scalar in E as (?&?&?); [|done]. constructor; [done|by apply IH].
Qed.

Lemma chars_scalar s : all_scalar (chars s).
Proof. apply decode_all_scalar, bytes_is_byte. Qed.

Lemma decode_all_encode cs fuel :
  all_scalar cs → (length (mjoin (encode_utf8 <$> cs)) ≤ fuel)%nat →
  decode_all fuel (mjoin (encode_utf8 <$> cs)) = cs.
Proof.
  intros Hcs. revert fuel. induction Hcs as [|c cs Hc Hcs IH]; intros fuel Hf.
  - by destruct fuel.
  - change (mjoin (encode_utf8 <$> c :: cs))
      with (encode_utf8 c ++ mjoin (encode_utf8 <$> cs)) in *. rewrite length_app in Hf.
    pose proof (len_utf8_encode c) as Hl. pose proof (len_utf8_bounds c).
    unfold zlen in Hl. destruct fuel as [|fuel]; [lia|].
    cbn [decode_all]. rewrite decode_encode by done. f_equal. apply IH. lia.
Qed.

Lemma encode_all_bytes cs :
  all_scalar cs → forallb is_byte (mjoin (encode_utf8 <$> cs)) = true.
Proof.
  induction 1 as [|c cs Hc Hcs IH]; [done|].
  change (mjoin (encode_utf8 <$> c :: cs))
    with (encode_utf8 c ++ mjoin (encode_utf8 <$> cs)). rewrite forallb_app.
  rewrite IH, andb_true_r. by apply encode_utf8_bytes.
Qed.

(** Decoding the characters a string was built from gives them back. *)
Lemma chars_of_chars cs : all_scalar cs → chars (of_chars cs) = cs.
Proof.
  intros H. unfold chars, of_chars. rewrite bytes_of_bytes by by apply encode_all_bytes.
  by apply decode_all_encode.
Qed.

Lemma from_utf8_encoded cs :
  all_scalar cs → from_utf8 (mjoin (encode_utf8 <$> cs)) = Some (of_chars cs).
Proof.
  intros H. unfold from_utf8. change (of_bytes (mjoin (encode_utf8 <$> cs))) with (of_chars cs).
  rewrite chars_of_chars by done. by rewrite bool_decide_eq_true_2.
Qed.

Definition sum_len (cs : list Z) : Z := foldr (λ c n, len_utf8 c + n) 0 cs.

Lemma sum_len_cons c cs : sum_len (c :: cs) = len_utf8 c + sum_len cs.
Proof. done. Qed.

Lemma sum_len_nonneg cs : 0 ≤ sum_len cs.
Proof.
  induction cs as [|c cs IH]; [done|]. rewrite sum_len_cons.
  pose proof (len_utf8_bounds c). lia.
Qed.

Lemma sum_len_app cs ds : sum_len (cs ++ ds) = sum_len cs + sum_len ds.
Proof. induction cs as [|c cs IH]; [done|]. cbn [app]. rewrite !sum_len_cons. lia. Qed.

Lemma slen_of_chars cs : slen (of_chars cs) = sum_len cs.
Proof.
  unfold of_chars. rewrite slen_of_bytes.
  induction cs as [|c cs IH]; [done|].
  change (mjoin (encode_utf8 <$> c :: cs))
    with (encode_utf8 c ++ mjoin (encode_utf8 <$> cs)).
  by rewrite zlen_app, len_utf8_encode, IH.
Qed.

(** ** Lemmas: trimming *)
Lemma trim_start_suffix cs : ∃ ws, cs = ws ++ trim_start cs ∧ Forall (λ c, is_whitespace c = true) ws.
Proof.
  induction cs as [|c cs (ws & Heq & Hws)]; cbn; [by exists []|].
  destruct (is_whitespace c) eqn:E.
  - exists (c :: ws). cbn. split; [congruence|by constructor].
  - by exists [].
Qed.

Lemma trim_chars_sub cs : ∃ l r, cs = l ++ trim_chars cs ++ r.
Proof.
  destruct (trim_start_suffix cs) as (l & Hl & _).
  destruct (trim_start_suffix (reverse (trim_start cs))) as (r & Hr & _).
  exists l, (reverse r). unfold trim_chars.
  rewrite <- reverse_app, <- Hr, reverse_involutive. done.
Qed.

Lemma trim_chars_forall (P : Z → Prop) cs : Forall P cs → Forall P (trim_chars cs).
Proof.
  destruct (trim_chars_sub cs) as (l & r & H). rewrite H at 1.
  rewrite !Forall_app. tauto.
Qed.

Lemma trim_chars_len cs : sum_len (trim_chars cs) ≤ sum_len cs.
Proof.
  destruct (trim_chars_sub cs) as (l & r & H). rewrite H at 2.
  rewrite !sum_len_app. pose proof (sum_len_nonneg l). pose proof (sum_len_nonneg r). lia.
Qed.

(** A list that starts and ends with text is left as it is. *)
Definition no_ws_head (cs : list Z) : Prop :=
  match cs with c :: _ => is_whitespace c = false | [] => True end.

Lemma trim_start_head cs : no_ws_head (trim_start cs).
Proof. induction cs as [|c cs IH]; cbn; [done|]. by destruct (is_whitespace c) eqn:E. Qed.

Lemma trim_start_id cs : no_ws_head cs → trim_start cs = cs.
Proof. destruct cs as [|c cs]; cbn; [done|]. by intros ->. Qed.

Lemma trim_start_snoc cs c :
  is_whitespace c = false → trim_start (cs ++ [c]) = trim_start cs ++ [c].
Proof.
  intros Hc. induction cs as [|d cs IH]; cbn; [by rewrite Hc|].
  by destruct (is_whitespace d).
Qed.

Lemma trim_start_rev_head cs :
  no_ws_head cs → no_ws_head (reverse (trim_start (reverse cs))).
Proof.
  destruct cs as [|c cs]; [done|]. intros Hc.
  rewrite reverse_cons, trim_start_snoc by exact Hc. rewrite reverse_snoc. exact Hc.
Qed.

Lemma trim_chars_idem cs : trim_chars (trim_chars cs) = trim_chars cs.
Proof.
  unfold trim_chars.
  rewrite (trim_start_id (reverse (trim_start (reverse (trim_start cs)))))
    by apply trim_start_rev_head, trim_start_head.
  rewrite reverse_involutive. f_equal. apply trim_start_id, trim_start_head.
Qed.

(** ** Lemmas: printing *)
Section Decimal.
#[local] Ltac Zify.zify_post_hook ::= Z.div_mod_to_equations.

Lemma dec_digits_spec fuel n :
  0 ≤ n < 10 ^ Z.of_nat fuel → (0 < fuel)%nat →
  digits_value (reverse (dec_digits fuel n)) = n
  ∧ Forall (λ d, is_ascii_digit d = true) (dec_digits fuel n)
  ∧ dec_digits fuel n ≠ [].
Proof.
  revert n. induction fuel as [|fuel IH]; intros n Hn Hf; [lia|].
  cbn [dec_digits]. rewrite Nat2Z.inj_succ, Z.pow_succ_r in Hn by lia.
  destruct (n <? 10) eqn:E; bool_prop.
  - split_and!; [unfold digits_value; cbn; lia| |done].
    constructor; [|constructor]. unfold is_ascii_digit, in_range. bool_prop. lia.
  - destruct fuel as [|fuel]; [cbn in Hn; lia|].
    destruct (IH (n / 10)) as (Hv & Hd & _); [lia|lia|].
    split_and!; [| |done].
    + rewrite reverse_cons. unfold digits_value in *. rewrite foldl_app, Hv.
      cbn [foldl]. lia.
    + constructor; [|done]. unfold is_ascii_digit, in_range. bool_prop. lia.
Qed.

Lemma dec_digits_length fuel n k :
  0 ≤ n < 10 ^ Z.of_nat (S k) → (length (dec_digits fuel n) ≤ S k)%nat.
Proof.
  revert n k. induction fuel as [|fuel IH]; intros n k Hn; cbn [dec_digits length]; [lia|].
  destruct (n <? 10) eqn:E; bool_prop; cbn [length]; [lia|].
  destruct k as [|k]; [cbn in Hn; lia|].
  rewrite Nat2Z.inj_succ, Z.pow_succ_r in Hn by lia.
  specialize (IH (n / 10) k). lia.
Qed.
End Decimal.

Lemma dec_fuel n : 0 ≤ n → 0 ≤ n < 10 ^ Z.of_nat (S (Z.to_nat (Z.log2 n))).
Proof.
  intros Hn. split; [done|]. rewrite Nat2Z.inj_succ, Z2Nat.id by apply Z.log2_nonneg.
  destruct (Z.eq_dec n 0) as [->|]; [vm_compute; done|].
  apply Z.lt_le_trans with (2 ^ Z.succ (Z.log2 n)); [apply Z.log2_spec; lia|].
  apply Z.pow_le_mono_l. lia.
Qed.

Lemma digit_is_byte d : is_ascii_digit d = true → is_byte d = true.
Proof. unfold is_ascii_digit, is_byte, in_range. bool_prop. lia. Qed.

Lemma dec_bytes n : 0 ≤ n →
  digits_value (bytes (dec n)) = n ∧ all_bytes is_ascii_digit (dec n) = true ∧ dec n ≠ "".
Proof.
  intros Hn. destruct (dec_digits_spec _ n (dec_fuel n Hn)) as (Hv & Hd & Hne); [lia|].
  assert (bytes (dec n) = reverse (dec_digits (S (Z.to_nat (Z.log2 n))) n)) as Hb.
  { apply bytes_of_bytes, forallb_Forall, Forall_reverse.
    eapply Forall_impl; [done|]. apply digit_is_byte. }
  unfold all_bytes. rewrite Hb. split_and!; [done| |].
  - by apply forallb_Forall, Forall_reverse.
  - intros H. rewrite H in Hb. apply Hne.
    by rewrite <- (reverse_involutive (dec_digits _ _)), <- Hb.
Qed.

Lemma dec_inj n m : 0 ≤ n → 0 ≤ m → dec n = dec m → n = m.
Proof.
  intros Hn Hm H. destruct (dec_bytes n Hn) as [<- _], (dec_bytes m Hm) as [<- _].
  by rewrite H.
Qed.

Lemma slen_dec n k : 0 ≤ n < 10 ^ Z.of_nat (S k) → slen (dec n) ≤ Z.of_nat (S k).
Proof.
  intros Hn. unfold dec. rewrite slen_of_bytes. unfold zlen. rewrite length_reverse.
  pose proof (dec_digits_length (S (Z.to_nat (Z.log2 n))) n k Hn). lia.
Qed.

(** A byte class that lacks [b] keeps [b] out of the string. *)
Lemma all_bytes_not_contains p b s :
  all_bytes p s = true → p b = false → contains_byte b s = false.
Proof.
  unfold all_bytes, contains_byte. intros Ha Hb.
  induction (bytes s) as [|x l IH]; cbn in *; [done|]. apply andb_true_iff in Ha as [Hx Hl].
  rewrite (IH Hl), orb_false_r. apply Z.eqb_neq. intros ->. congruence.
Qed.

Lemma all_bytes_impl (p q : Z → bool) s :
  (∀ b, p b = true → q b = true) → all_bytes p s = true → all_bytes q s = true.
Proof. intros H. rewrite !all_bytes_forall. intros Hp. by eapply Forall_impl. Qed.

Lemma hex_digit_class d : 0 ≤ d < 16 →
  is_ascii_digit (hex_digit d) || in_range 97 102 (hex_digit d) = true.
Proof.
  unfold hex_digit, is_ascii_digit, in_range. intros Hd. case_match; bool_prop; lia.
Qed.

Definition is_lower_hex (b : Z) : bool := is_ascii_digit b || in_range 97 102 b.

Lemma hex_of_bytes l : forallb is_byte l = true →
  Forall (λ b, is_lower_hex b = true)
    (mjoin ((λ b, [hex_digit (b / 16); hex_digit (b mod 16)]) <$> l)).
Proof.
  induction l as [|b l IH]; cbn; [constructor|]. rewrite andb_true_iff. intros [Hb Hl].
  unfold is_byte, in_range in Hb. bool_prop.
  constructor; [|constructor; [|by apply IH]]; apply hex_digit_class.
  - split; [apply Z.div_pos; lia|apply Z.div_lt_upper_bound; lia].
  - apply Z.mod_pos_bound. lia.
Qed.

Lemma hex_of_class l : forallb is_byte l = true →
  all_bytes is_lower_hex (hex_of l) = true ∧ slen (hex_of l) = 2 * zlen l.
Proof.
  intros Hl. split.
  - pose proof (hex_of_bytes l Hl) as H. unfold hex_of, all_bytes.
    rewrite bytes_of_bytes; [by apply forallb_Forall|].
    apply forallb_Forall. eapply Forall_impl; [done|]. intros x.
    unfold is_lower_hex, is_ascii_digit, is_byte, in_range. bool_prop. lia.
  - unfold hex_of. rewrite slen_of_bytes. clear Hl. induction l as [|b l IH]; [done|].
    rewrite mjoin_fmap_cons, zlen_app, IH, (zlen_cons b l). unfold zlen. cbn. lia.
Qed.

#[global] Arguments dec : simpl never.
#[global] Arguments hex_of : simpl never.
#[global] Arguments of_bytes : simpl never.
#[global] Arguments of_chars : simpl never.
#[global] Arguments bytes : simpl never.
#[global] Arguments chars : simpl never.
#[global] Arguments be_bytes : simpl never.
#[global] Arguments slen : simpl never.
#[global] Arguments zlen : simpl never.

(** ** Lemmas: ASCII *)
Lemma encode_ascii b : 0 ≤ b < 128 → encode_utf8 b = [b].
Proof. intros H. unfold encode_utf8. by rewrite (proj2 (Z.ltb_lt _ _)) by lia. Qed.

Lemma of_chars_ascii l : Forall (λ b, 0 ≤ b < 128) l → of_chars l = of_bytes l.
Proof.
  intros H. unfold of_chars. f_equal. induction H as [|b l Hb _ IH]; [done|].
  rewrite fmap_cons. change (encode_utf8 b ++ mjoin (encode_utf8 <$> l) = b :: l).
  by rewrite IH, encode_ascii.
Qed.

Lemma chars_ascii s : Forall (λ b, 0 ≤ b < 128) (bytes s) → chars s = bytes s.
Proof.
  unfold chars. generalize (bytes s). intros l H. induction H as [|b l Hb _ IH]; [done|].
  cbn [length decode_all decode_utf8]. rewrite (proj2 (Z.ltb_lt _ _)) by lia. by rewrite IH.
Qed.

Lemma lossy_ascii s : Forall (λ b, 0 ≤ b < 128) (bytes s) → lossy (bytes s) = s.
Proof.
  intros H. unfold lossy.
  assert (lossy_chars (length (bytes s)) (bytes s) = bytes s) as ->.
  { induction H as [|b l Hb _ IH]; [done|]. cbn [length lossy_chars]. unfold well_formed.
    cbn [decode_utf8]. rewrite (proj2 (Z.ltb_lt _ _)) by lia. rewrite encode_ascii by done.
    rewrite bool_decide_true by done. by rewrite IH. }
  rewrite of_chars_ascii by done. apply of_bytes_bytes.
Qed.

Lemma from_utf8_ascii s : Forall (λ b, 0 ≤ b < 128) (bytes s) → from_utf8 (bytes s) = Some s.
Proof.
  intros H. unfold from_utf8. rewrite of_bytes_bytes, chars_ascii, of_chars_ascii, of_bytes_bytes by done.
  by rewrite bool_decide_true.
Qed.

Lemma from_utf8_bytes l s : forallb is_byte l = true → from_utf8 l = Some s → bytes s = l.
Proof.
  unfold from_utf8. intros Hl. case_bool_decide; [|done]. intros [= <-]. by apply bytes_of_bytes.
Qed.
