(* ===== verification/Procedure.v ===== *)
(** * Procedures: the wire types and the text they carry

    [crates/core/src/procedure.rs] (steps, progress, confirmations, cleaning
    of requester-supplied text, tokens) and the descendant check of
    [crates/core/src/secret_request.rs].  [/proc] is the environment: a
    function from a PID to the contents of its [stat] file. *)
From S2P Require Import Prelude BTree Text.
#[local] Open Scope Z_scope.

Definition MAX_TITLE_BYTES : Z := 256.
Definition MAX_LABEL_BYTES : Z := 512.
Definition MAX_REASON_BYTES : Z := 2048.
Definition MAX_DECLARED_STEPS : Z := 1000.
Definition MAX_PROCEDURES : Z := 64.
Definition MAX_CONFIRMATION_ITEMS : Z := 1000.
Definition MAX_CONFIRMATION_ITEM_BYTES : Z := 1024.

Record StepProgress := { sp_text : string; sp_percent : option Z }.

Record ProcedureStep := {
  ps_id : string;
  ps_title : string;
  ps_step : Z;
  ps_steps : option Z;
  ps_label : string;
  ps_deployment : bool;
  ps_failure : option string;
  ps_warning : option string;
  ps_progress : option StepProgress
}.

#[export] Instance StepProgress_eq_dec : EqDecision StepProgress.
Proof. solve_decision. Defined.
#[export] Instance ProcedureStep_eq_dec : EqDecision ProcedureStep.
Proof. solve_decision. Defined.

Definition step_countdown (s : ProcedureStep) : bool := ps_step s <=? 1.

Definition position (s : ProcedureStep) : string :=
  match ps_steps s with
  | Some steps =>
      if ps_step s <=? steps then "step " +:+ dec (ps_step s) +:+ "/" +:+ dec steps
      else "step " +:+ dec (ps_step s)
  | None => "step " +:+ dec (ps_step s)
  end.

(** The bounds of a failure or a warning in [ProcedureStep::validate]. *)
Definition bad_reason (r : option string) : bool :=
  is_some_and (λ r, bool_decide (r = "") || (MAX_REASON_BYTES <? slen r)) r.

Definition step_validate (s : ProcedureStep) : result string unit :=
  if bool_decide (ps_id s = "") || (128 <? slen (ps_id s))
     || negb (all_bytes (λ b, is_ascii_alphanumeric b || (b =? 45)) (ps_id s))
  then Err "procedure id is invalid"
  else if bool_decide (ps_title s = "") || (MAX_TITLE_BYTES <? slen (ps_title s))
  then Err "procedure title has an invalid length"
  else if MAX_LABEL_BYTES <? slen (ps_label s)
  then Err "procedure step label is too long"
  else if is_some_and (λ n, (n =? 0) || (MAX_DECLARED_STEPS <? n)) (ps_steps s)
  then Err "procedure step count is invalid"
  else if bad_reason (ps_failure s)
  then Err "procedure step failure has an invalid length"
  else if bad_reason (ps_warning s)
  then Err "procedure step warning has an invalid length"
  else if is_some_and
            (λ p, bool_decide (sp_text p = "") || (MAX_REASON_BYTES <? slen (sp_text p))
                  || is_some_and (λ n, 100 <? n) (sp_percent p)) (ps_progress s)
  then Err "procedure step progress is invalid"
  else Ok tt.

(** ** Requester-supplied text *)
Definition is_bidi_control (c : Z) : bool :=
  in_range 0x202A 0x202E c || in_range 0x2066 0x2069 c
  || (c =? 0x200E) || (c =? 0x200F) || (c =? 0x061C).

(** What [clean_text] removes. *)
Definition is_hidden (c : Z) : bool := is_control c || is_bidi_control c.

(** The loop of [clean_text]: [len] is the length of [cleaned] so far. *)
Fixpoint clean_loop (cs : list Z) (len max_bytes : Z) : list Z :=
  match cs with
  | [] => []
  | c :: cs =>
      let c := if is_control c || is_bidi_control c then 32 else c in
      if max_bytes <? len + len_utf8 c then []
      else c :: clean_loop cs (len + len_utf8 c) max_bytes
  end.

Definition clean_text (text : string) (max_bytes : Z) : string :=
  of_chars (trim_chars (clean_loop (chars text) 0 max_bytes)).

Record Confirmation := {
  cf_label : string;
  cf_reason : string;
  cf_items : list string
}.

Definition cleaned (label reason : string) (items : list string)
  : result string Confirmation :=
  let label := clean_text label MAX_LABEL_BYTES in
  if bool_decide (label = "") then Err "a confirmation needs a label"
  else if MAX_CONFIRMATION_ITEMS <? zlen items
  then Err ("a confirmation lists at most " +:+ dec MAX_CONFIRMATION_ITEMS +:+ " items")
  else
    let reason := clean_text reason MAX_REASON_BYTES in
    let reason := if bool_decide (reason = "") then "no reason given" else reason in
    let items := filter (λ item, item ≠ "")
                   ((λ item, clean_text item MAX_CONFIRMATION_ITEM_BYTES) <$> items) in
    Ok {| cf_label := label; cf_reason := reason; cf_items := items |}.

(** The closure [clean] of [Confirmation::validate]. *)
Definition is_clean (max : Z) (text : string) : bool :=
  bool_decide (text ≠ "") && (slen text <=? max) && negb (any_control text).

Definition confirmation_validate (c : Confirmation) : result string unit :=
  if negb (is_clean MAX_LABEL_BYTES (cf_label c))
     || negb (is_clean MAX_REASON_BYTES (cf_reason c))
     || (MAX_CONFIRMATION_ITEMS <? zlen (cf_items c))
     || negb (forallb (is_clean MAX_CONFIRMATION_ITEM_BYTES) (cf_items c))
  then Err "the confirmation is malformed"
  else Ok tt.

Definition split_token (token : string) : option (string * string) :=
  match split_once ":" token with
  | Some (id, secret) =>
      if bool_decide (id ≠ "") && bool_decide (secret ≠ "") then Some (id, secret) else None
  | None => None
  end.

(** ** Processes *)
Section Proc.
(** [/proc/<pid>/stat], when it can be read. *)
Context (proc_stat : Z → option string).

(** [&stat[stat.rfind(')')? + 1..]]. *)
Fixpoint after_last_paren (s : string) : option string :=
  match s with
  | EmptyString => None
  | String c s' =>
      match after_last_paren s' with
      | Some r => Some r
      | None => if Ascii.eqb c ")" then Some s' else None
      end
  end.

(** [str::parse::<u32>]: an optional [+], then digits, in range. *)
Definition parse_u32 (cs : list Z) : option Z :=
  let ds := match cs with 43 :: ds => ds | _ => cs end in
  if bool_decide (ds ≠ []) && forallb is_ascii_digit ds && (digits_value ds <=? u32_max)
  then Some (digits_value ds) else None.

Definition parent_pid (pid : Z) : option Z :=
  stat ← proc_stat pid;
  rest ← after_last_paren stat;
  word ← words_of [] (chars rest) !! 1%nat;
  parse_u32 word.

(** The loop of [is_same_or_descendant] with [n] iterations left. *)
Fixpoint climbs (n : nat) (current ancestor : Z) : bool :=
  match n with
  | O => false
  | S n =>
      if current =? ancestor then true
      else match parent_pid current with
           | Some parent =>
               if negb (parent =? 0) && negb (parent =? current)
               then climbs n parent ancestor else false
           | None => false
           end
  end.

Definition is_same_or_descendant (pid ancestor : Z) : bool := climbs 4096 pid ancestor.

(** The process tree: [child] runs under [parent]. *)
Definition parent_of (child parent : Z) : Prop :=
  parent_pid child = Some parent ∧ parent ≠ 0 ∧ parent ≠ child.

Lemma climbs_spec n pid ancestor :
  climbs n pid ancestor = true ↔
    ∃ k, (k < n)%nat ∧ nsteps parent_of k pid ancestor.
Proof.
  revert pid. induction n as [|n IH]; intros pid; cbn [climbs].
  - split; [done|]. intros (k & ? & _). lia.
  - destruct (Z.eqb_spec pid ancestor) as [->|Hne].
    { split; [|done]. intros _. exists 0%nat. split; [lia|constructor]. }
    split.
    + destruct (parent_pid pid) as [p|] eqn:E; [|done].
      destruct (negb (p =? 0) && negb (p =? pid)) eqn:Eg; [|done].
      bool_prop. rewrite IH. intros (k & ? & Hk). exists (S k). split; [lia|].
      econstructor; [|done]. unfold parent_of. naive_solver.
    + intros (k & Hk & Hsteps). destruct Hsteps as [|k x y z (Hp & H0 & Hself) Hsteps]; [done|].
      rewrite Hp. replace (negb (y =? 0) && negb (y =? x)) with true
        by (symmetry; bool_prop; done).
      apply IH. exists k. split; [lia|done].
Qed.
End Proc.

(** ** Cleaning *)
Definition visible (cs : list Z) : Prop := Forall (λ c, is_hidden c = false) cs.

Lemma clean_loop_visible cs len max : visible (clean_loop cs len max).
Proof.
  revert len. induction cs as [|c cs IH]; intros len; cbn; [constructor|].
  case_match; [constructor|]. constructor; [|apply IH].
  unfold is_hidden. by destruct (is_control c || is_bidi_control c) eqn:E.
Qed.

Lemma clean_loop_scalar cs len max : all_scalar cs → all_scalar (clean_loop cs len max).
Proof.
  intros H. revert len. induction H as [|c cs Hc H IH]; intros len; cbn; [constructor|].
  case_match; [constructor|]. constructor; [|apply IH].
  by destruct (is_control c || is_bidi_control c).
Qed.

Lemma clean_loop_len cs len max :
  len ≤ max → len + sum_len (clean_loop cs len max) ≤ max.
Proof.
  revert len. induction cs as [|c cs IH]; intros len Hlen; cbn [clean_loop].
  - cbn. lia.
  - cbv zeta. case_match eqn:E; [cbn; lia|]. bool_prop. rewrite sum_len_cons.
    specialize (IH _ E). lia.
Qed.

(** Visible text within the bound is kept as it is. *)
Lemma clean_loop_id cs len max :
  visible cs → len + sum_len cs ≤ max → clean_loop cs len max = cs.
Proof.
  intros H. revert len. induction H as [|c cs Hc H IH]; intros len Hlen; [done|].
  rewrite sum_len_cons in Hlen. cbn [clean_loop]. unfold is_hidden in Hc. rewrite Hc.
  cbv zeta. pose proof (sum_len_nonneg cs).
  rewrite (proj2 (Z.ltb_ge _ _)) by lia. f_equal. apply IH. lia.
Qed.

Lemma chars_clean_text text max :
  chars (clean_text text max) = trim_chars (clean_loop (chars text) 0 max).
Proof.
  unfold clean_text. apply chars_of_chars, trim_chars_forall.
  apply clean_loop_scalar, chars_scalar.
Qed.

Lemma clean_text_len text max : 0 ≤ max → slen (clean_text text max) ≤ max.
Proof.
  intros Hmax. unfold clean_text. rewrite slen_of_chars.
  etrans; [apply trim_chars_len|].
  pose proof (clean_loop_len (chars text) 0 max). lia.
Qed.

Lemma clean_text_visible text max : visible (chars (clean_text text max)).
Proof. rewrite chars_clean_text. apply trim_chars_forall, clean_loop_visible. Qed.

Lemma visible_no_control s : visible (chars s) → any_control s = false.
Proof.
  unfold any_control. induction 1 as [|c cs Hc H IH]; [done|]. cbn.
  rewrite IH, orb_false_r. unfold is_hidden in Hc. by apply orb_false_iff in Hc as [-> _].
Qed.

Lemma clean_text_is_clean text max :
  0 ≤ max → clean_text text max ≠ "" → is_clean max (clean_text text max) = true.
Proof.
  intros Hmax Hne. unfold is_clean. bool_prop. split_and!; [done|by apply clean_text_len|].
  apply visible_no_control, clean_text_visible.
Qed.

Create HintDb nstext discriminated.
#[export] Hint Resolve clean_text_len clean_text_is_clean clean_text_visible : nstext.

#[global] Arguments clean_text : simpl never.
#[global] Arguments is_same_or_descendant : simpl never.

(** ** Properties *)
(** Requester-supplied text is safe to show once cleaned: it fits the
    bound, holds no control and no direction-changing character, neither
    starts nor ends with white space, and cleaning it again changes
    nothing. *)
Theorem clean_text_safe text max :
  0 ≤ max →
  slen (clean_text text max) ≤ max
  ∧ Forall (λ c, is_control c = false ∧ is_bidi_control c = false)
      (chars (clean_text text max))
  ∧ trim (clean_text text max) = clean_text text max
  ∧ clean_text (clean_text text max) max = clean_text text max.
Proof.
  intros Hmax. assert (of_chars (chars (clean_text text max)) = clean_text text max) as Hof
    by (rewrite chars_clean_text; done).
  split_and!; [by apply clean_text_len| | |].
  - eapply Forall_impl; [apply (clean_text_visible text max)|].
    intros c. unfold is_hidden. apply orb_false_iff.
  - unfold trim. rewrite chars_clean_text, trim_chars_idem. done.
  - pose proof (clean_text_len text max Hmax) as Hl.
    rewrite <- Hof, slen_of_chars in Hl.
    unfold clean_text at 1. rewrite clean_loop_id; [|apply clean_text_visible|lia].
    by rewrite chars_clean_text, trim_chars_idem.
Qed.

Lemma clean_text_safe_witness :
  slen (clean_text "  rm -rf /  " 8) ≤ 8
  ∧ Forall (λ c, is_control c = false ∧ is_bidi_control c = false)
      (chars (clean_text "  rm -rf /  " 8))
  ∧ trim (clean_text "  rm -rf /  " 8) = clean_text "  rm -rf /  " 8
  ∧ clean_text (clean_text "  rm -rf /  " 8) 8 = clean_text "  rm -rf /  " 8.
Proof. apply (clean_text_safe "  rm -rf /  " 8). lia. Defined.

(** Whatever [Confirmation::cleaned] returns passes
    [Confirmation::validate]; it refuses exactly an empty label or more than
    1000 items. *)
Theorem cleaned_validates label reason items :
  match cleaned label reason items with
  | Ok c => confirmation_validate c = Ok tt
      ∧ cf_label c = clean_text label MAX_LABEL_BYTES ∧ cf_label c ≠ "" ∧ zlen items ≤ MAX_CONFIRMATION_ITEMS
      ∧ zlen (cf_items c) ≤ zlen items
  | Err _ => clean_text label MAX_LABEL_BYTES = "" ∨ MAX_CONFIRMATION_ITEMS < zlen items
  end.
Proof.
  unfold cleaned. case_bool_decide as Hl; [by left|].
  destruct (MAX_CONFIRMATION_ITEMS <? zlen items) eqn:Hi; bool_prop; [by right|].
  match goal with |- context [filter ?P ?l] => set (kept := filter P l) end.
  assert (zlen kept ≤ zlen items) as Hkept.
  { subst kept. unfold zlen. etrans; [apply inj_le, length_filter|]. by rewrite length_fmap. }
  assert (Forall (λ item, is_clean MAX_CONFIRMATION_ITEM_BYTES item = true) kept) as Hall.
  { apply Forall_forall. intros item [Hne Hin]%list_elem_of_filter.
    apply list_elem_of_fmap in Hin as (raw & -> & _). by apply clean_text_is_clean. }
  split; [|done]. unfold confirmation_validate. cbn [cf_label cf_reason cf_items].
  rewrite clean_text_is_clean by done.
  rewrite (proj2 (Z.ltb_ge _ _)) by lia.
  rewrite (proj2 (forallb_Forall _ _) Hall).
  assert (is_clean MAX_REASON_BYTES
    (if bool_decide (clean_text reason MAX_REASON_BYTES = "") then "no reason given"
     else clean_text reason MAX_REASON_BYTES) = true) as ->; [|done].
  case_bool_decide; [by vm_compute|by apply clean_text_is_clean].
Qed.

(** [Confirmation::validate] accepts more than [cleaned] leaves: a
    confirmation with a direction-changing character passes, yet no call of
    [cleaned] returns it. *)
Theorem validate_accepts_uncleaned :
  ∃ c, confirmation_validate c = Ok tt
    ∧ ∀ label reason items, cleaned label reason items ≠ Ok c.
Proof.
  exists {| cf_label := of_chars [0x202E; 97]; cf_reason := "r"; cf_items := [] |}.
  split; [vm_compute; reflexivity|]. intros label reason items H.
  unfold cleaned in H. repeat case_match; simplify_eq.
  pose proof (clean_text_visible label MAX_LABEL_BYTES) as Hv.
  match goal with E : clean_text label _ = _ |- _ => rewrite E in Hv end.
  unfold visible in Hv. rewrite chars_of_chars in Hv by by repeat constructor.
  by inversion Hv.
Qed.

(** The descendant check accepts exactly the processes that reach the
    ancestor in fewer than 4096 steps up the process tree, itself included. *)
Theorem is_same_or_descendant_spec proc_stat pid ancestor :
  is_same_or_descendant proc_stat pid ancestor = true ↔
    ∃ k, (k < 4096)%nat ∧ nsteps (parent_of proc_stat) k pid ancestor.
Proof. apply climbs_spec. Qed.
