(* ===== verification/Procedures.v ===== *)
(** * The live procedures of the backend

    [crates/core/src/backend/procedures.rs]: the registry behind
    [BeginProcedure] and the requests that join a procedure.  The mutex makes
    every method one step on the registry; a poisoned lock (a panic while it
    was held) is not modelled.  The process table and the kernel's random
    bytes are arguments. *)
From S2P Require Import Prelude BTree Text Procedure.
#[local] Open Scope Z_scope.

Record Live := {
  lv_secret : string;
  lv_owner : Z;
  lv_step : ProcedureStep;
  lv_repeatable : bool
}.

Record Procedures := {
  pr_live : list (string * Live);
  pr_next : Z
}.

Inductive Report := Failure (reason : string) | Warning (reason : string).

Definition procedures_default : Procedures := {| pr_live := []; pr_next := 0 |}.

Definition reported (label reason : string) : result string string :=
  if bool_decide (clean_text label MAX_LABEL_BYTES = "")
  then Err "a reported step needs a label"
  else
    let reason := clean_text reason MAX_REASON_BYTES in
    Ok (if bool_decide (reason = "") then "no reason given" else reason).

(** What [getrandom::fill] gave for a buffer of each size, or its error. *)
Definition random_hex (getrandom : nat → result string (list Z)) (n : nat)
  : result string string :=
  match getrandom n with Ok l => Ok (hex_of l) | Err e => Err e end.

(** [getrandom::fill] fills the whole buffer with bytes. *)
Definition fills (getrandom : nat → result string (list Z)) : Prop :=
  ∀ n l, getrandom n = Ok l → length l = n ∧ forallb is_byte l = true.

Fixpoint zip_diff (l r : list Z) (difference : Z) : Z :=
  match l, r with
  | a :: l, b :: r => zip_diff l r (Z.lor difference (Z.lxor a b))
  | _, _ => difference
  end.

Definition same_secret (left right : string) : bool :=
  (slen left =? slen right) && (zip_diff (bytes left) (bytes right) 0 =? 0).

Definition op (A : Type) : Type := stE Procedures string A.

Definition begin (getrandom : nat → result string (list Z))
  (owner : Z) (title : string) (steps : option Z) : op (ProcedureStep * string) :=
  λ p,
  let title := clean_text title MAX_TITLE_BYTES in
  if bool_decide (title = "") then (Err "a procedure needs a title", p)
  else if is_some_and (λ n, (n =? 0) || (MAX_DECLARED_STEPS <? n)) steps
  then (Err ("a procedure declares between 1 and " +:+ dec MAX_DECLARED_STEPS +:+ " steps"), p)
  else if MAX_PROCEDURES <=? zlen (pr_live p)
  then (Err "too many procedures are running; retry when one ends", p)
  else
    (* fetch_add happens before random_hex can fail *)
    let n := pr_next p in
    let p := {| pr_live := pr_live p; pr_next := wrap64 (n + 1) |} in
    match random_hex getrandom 6 with
    | Err e => (Err e, p)
    | Ok r6 =>
        let id := "proc-" +:+ dec n +:+ "-" +:+ r6 in
        match random_hex getrandom 32 with
        | Err e => (Err e, p)
        | Ok secret =>
            let step := {| ps_id := id; ps_title := title; ps_step := 0; ps_steps := steps;
                           ps_label := "starting"; ps_deployment := false;
                           ps_failure := None; ps_warning := None; ps_progress := None |} in
            let live := {| lv_secret := secret; lv_owner := owner; lv_step := step;
                           lv_repeatable := false |} in
            (Ok (step, id +:+ ":" +:+ secret),
             {| pr_live := bt_insert id live (pr_live p); pr_next := pr_next p |})
        end
    end.

(** [Procedures::end]. *)
Definition end_procedure (id : string) (p : Procedures) : Procedures :=
  {| pr_live := bt_remove id (pr_live p); pr_next := pr_next p |}.

Definition snapshot (p : Procedures) : list ProcedureStep :=
  lv_step <$> bt_values (pr_live p).

Section Join.
Context (proc_stat : Z → option string).

Definition joined {T} (token : string) (peer : Z) (change : Live → T * Live) : op T :=
  λ p,
  match split_token token with
  | None => (Err "the procedure token is malformed", p)
  | Some (id, secret) =>
      match bt_get id (pr_live p) with
      | Some live =>
          if negb (same_secret (lv_secret live) secret)
          then (Err "the procedure has ended or the token is wrong", p)
          else if negb (is_same_or_descendant proc_stat peer (lv_owner live))
          then (Err ("this process does not belong to procedure " +:+ id +:+
                     "; only the command started by `nix-secrets procedure` and its descendants may join it"), p)
          else
            let '(t, live') := change live in
            (Ok t, {| pr_live := bt_update (λ _, live') id (pr_live p); pr_next := pr_next p |})
      | None => (Err "the procedure has ended or the token is wrong", p)
      end
  end.

(** [u32::saturating_add(1)]. *)
Definition next_number (n : Z) : Z := Z.min u32_max (n + 1).

(** The closure [number_step] runs on the live procedure. *)
Definition number_change (label : string) (deployment repeatable : bool)
  (report : option Report) (procedure : Live) : ProcedureStep * Live :=
  let s := lv_step procedure in
  let repeat := repeatable && lv_repeatable procedure && (0 <? ps_step s)
                && bool_decide (ps_label s = label) in
  let number := if repeat then ps_step s else next_number (ps_step s) in
  let failure := if repeat then ps_failure s else None in
  let warning := if repeat then ps_warning s else None in
  let progress := if repeat then ps_progress s else None in
  let '(failure, warning, progress) :=
    match report with
    | Some (Failure reason) => (Some reason, warning, None)
    | Some (Warning reason) => (failure, Some reason, None)
    | None => (None, None, progress)
    end in
  let s := {| ps_id := ps_id s; ps_title := ps_title s; ps_step := number;
              ps_steps := ps_steps s; ps_label := label; ps_deployment := deployment;
              ps_failure := failure; ps_warning := warning; ps_progress := progress |} in
  (s, {| lv_secret := lv_secret procedure; lv_owner := lv_owner procedure;
         lv_step := s; lv_repeatable := repeatable |}).

Definition number_step (token : string) (peer : Z) (label : string)
  (deployment repeatable : bool) (report : option Report) : op ProcedureStep :=
  joined token peer
    (number_change (clean_text label MAX_LABEL_BYTES) deployment repeatable report).

Definition next_step (token : string) (peer : Z) (label : string)
  (deployment repeatable : bool) : op ProcedureStep :=
  number_step token peer label deployment repeatable None.

Definition fail_step (token : string) (peer : Z) (label reason : string)
  : op ProcedureStep :=
  reason ← st_lift (reported label reason);
  number_step token peer label false true (Some (Failure reason)).

Definition warn_step (token : string) (peer : Z) (label reason : string)
  : op ProcedureStep :=
  reason ← st_lift (reported label reason);
  number_step token peer label false true (Some (Warning reason)).

Definition set_progress (progress : StepProgress) (procedure : Live)
  : ProcedureStep * Live :=
  let s := lv_step procedure in
  let s := {| ps_id := ps_id s; ps_title := ps_title s; ps_step := ps_step s;
              ps_steps := ps_steps s; ps_label := ps_label s;
              ps_deployment := ps_deployment s; ps_failure := ps_failure s;
              ps_warning := ps_warning s; ps_progress := Some progress |} in
  (s, {| lv_secret := lv_secret procedure; lv_owner := lv_owner procedure;
         lv_step := s; lv_repeatable := lv_repeatable procedure |}).

Definition progress_step (token : string) (peer : Z) (text : string)
  (percent : option Z) : op ProcedureStep :=
  let text := clean_text text MAX_REASON_BYTES in
  if bool_decide (text = "") then st_lift (Err "a progress report needs a text")
  else if is_some_and (λ n, 100 <? n) percent
  then st_lift (Err "a progress percentage is at most 100")
  else joined token peer (set_progress {| sp_text := text; sp_percent := percent |}).

Definition annotate (token : string) (peer : Z) (label : string) : op ProcedureStep :=
  let label := clean_text label MAX_LABEL_BYTES in
  if bool_decide (label = "") then st_lift (Err "a confirmation needs a label")
  else joined token peer
         (λ procedure,
            let s := lv_step procedure in
            ({| ps_id := ps_id s; ps_title := ps_title s; ps_step := ps_step s;
                ps_steps := ps_steps s; ps_label := label; ps_deployment := false;
                ps_failure := None; ps_warning := None; ps_progress := None |}, procedure)).
End Join.

(** ** The connection of a procedure

    [serve]: what the owner's connection delivers is a list of read outcomes
    ([read_json]), what becomes of each write is a function of its number. *)
Inductive Read :=
| RdEndProcedure (exit_code : option Z)
| RdOther
| RdEof
| RdErr (error : string).

Inductive Sent :=
| SentError (message : string)
| SentBegun (id token : string)
| SentEnded (id : string) (exit_code : option Z).

Inductive Announced :=
| AnnStep (step : ProcedureStep)
| AnnEnded (id : string) (exit_code : option Z).

(** The [loop], with [n] writes made before: the connection's result and the
    exit code, [None] while it waits for the next read, and the responses written
    so far. *)
Fixpoint serve_loop (write : nat → result string unit) (id : string) (n : nat)
  (reads : list Read) : option (result string unit * option Z) * list Sent :=
  match reads with
  | [] => (None, [])
  | RdEndProcedure exit_code :: _ => (Some (write n, exit_code), [SentEnded id exit_code])
  | RdOther :: reads =>
      let error := SentError "a procedure connection only ends the procedure" in
      match write n with
      | Err e => (Some (Err e, None), [error])
      | Ok _ => let '(ended, sent) := serve_loop write id (S n) reads in (ended, error :: sent)
      end
  | RdEof :: _ => (Some (Ok tt, None), [])
  | RdErr e :: _ => (Some (Err e, None), [])
  end.

Definition serve_connection (write : nat → result string unit) (id token : string)
  (reads : list Read) : option (result string unit * option Z) * list Sent :=
  match write 0%nat with
  | Err e => (Some (Err e, None), [SentBegun id token])
  | Ok _ => let '(ended, sent) := serve_loop write id 1 reads in (ended, SentBegun id token :: sent)
  end.

Record Served := {
  sv_result : option (result string unit);
  sv_sent : list Sent;
  sv_announced : list Announced
}.

(** [others] is what the other connections do to the registry while this one
    is open; [sv_result = None] means the connection is still served. *)
Definition serve (getrandom : nat → result string (list Z)) (owner : Z) (title : string)
  (steps : option Z) (write : nat → result string unit) (reads : list Read)
  (others : Procedures → Procedures) (p : Procedures) : Served * Procedures :=
  match begin getrandom owner title steps p with
  | (Err message, p) =>
      ({| sv_result := Some (write 0%nat); sv_sent := [SentError message]; sv_announced := [] |}, p)
  | (Ok (step, token), p) =>
      let id := ps_id step in
      let p := others p in
      let '(ended, sent) := serve_connection write id token reads in
      match ended with
      | None => ({| sv_result := None; sv_sent := sent; sv_announced := [AnnStep step] |}, p)
      | Some (r, exit) =>
          ({| sv_result := Some r; sv_sent := sent; sv_announced := [AnnStep step; AnnEnded id exit] |},
           end_procedure id p)
      end
  end.

Ltac simpl_proc :=
  cbn [ps_id ps_title ps_step ps_steps ps_label ps_deployment ps_failure ps_warning
       ps_progress lv_secret lv_owner lv_step lv_repeatable pr_live pr_next fst snd] in *.

(** ** Constant-time comparison *)
Lemma zip_diff_zero l r d :
  length l = length r → 0 ≤ d → Forall (Z.le 0) l → Forall (Z.le 0) r →
  zip_diff l r d = 0 ↔ d = 0 ∧ l = r.
Proof.
  revert r d. induction l as [|a l IH]; intros [|b r] d Hlen Hd Hl Hr; cbn in *;
    try lia; [naive_solver|].
  inversion Hl; inversion Hr; subst.
  rewrite IH; [|lia|apply Z.lor_nonneg; split; [done|apply Z.lxor_nonneg; lia]|done|done].
  rewrite Z.lor_eq_0_iff, Z.lxor_eq_0_iff. naive_solver.
Qed.

Lemma bytes_nonneg s : Forall (Z.le 0) (bytes s).
Proof.
  induction s as [|c s IH]; [constructor|]. rewrite bytes_cons.
  constructor; [|done]. pose proof (bz_range c). lia.
Qed.

Lemma same_secret_eq left right : same_secret left right = true ↔ left = right.
Proof.
  unfold same_secret. rewrite andb_true_iff, !Z.eqb_eq. split.
  - intros [Hlen H]. unfold slen in Hlen.
    apply zip_diff_zero in H as [_ H]; [by apply bytes_inj| |done|apply bytes_nonneg..].
    rewrite !length_bytes. lia.
  - intros ->. split; [done|]. apply zip_diff_zero; [done..|apply bytes_nonneg|apply bytes_nonneg|done].
Qed.

(** ** Joining *)
(** Who may act in a live procedure: the holder of its token, running under
    the process that registered it. *)
Definition may_join (proc_stat : Z → option string) (p : Procedures)
  (token : string) (peer : Z) (id : string) (live : Live) : Prop :=
  bt_get id (pr_live p) = Some live
  ∧ token = id +:+ ":" +:+ lv_secret live ∧ id ≠ "" ∧ lv_secret live ≠ ""
  ∧ contains_byte 58 id = false
  ∧ is_same_or_descendant proc_stat peer (lv_owner live) = true.

Lemma split_token_Some token id secret :
  split_token token = Some (id, secret) ↔
    token = id +:+ ":" +:+ secret ∧ id ≠ "" ∧ secret ≠ "" ∧ contains_byte 58 id = false.
Proof.
  unfold split_token. split.
  - intros H. repeat case_match; simplify_eq. bool_prop.
    apply split_once_Some in H0 as [-> ?]. naive_solver.
  - intros (-> & ? & ? & ?).
    change (":" +:+ secret) with (String ":" secret).
    rewrite split_once_app by done.
    by rewrite !bool_decide_eq_true_2.
Qed.

Lemma joined_ok proc_stat {T} token peer (change : Live → T * Live) p t p' :
  joined proc_stat token peer change p = (Ok t, p') ↔
    ∃ id live, may_join proc_stat p token peer id live
      ∧ t = (change live).1
      ∧ p' = {| pr_live := bt_update (λ _, (change live).2) id (pr_live p);
                pr_next := pr_next p |}.
Proof.
  unfold joined, may_join. split.
  - intros H. repeat case_match; simplify_eq.
    apply split_token_Some in H0 as (-> & ? & ? & ?). bool_prop.
    apply same_secret_eq in H3 as <-.
    eexists _, _. split_and!; try done; by rewrite H5.
  - intros (id & live & (Hget & Htok & Hid & Hsec & Hcol & Hdesc) & -> & ->).
    rewrite (proj2 (split_token_Some token id (lv_secret live))) by done.
    rewrite Hget, (proj2 (same_secret_eq _ _) eq_refl), Hdesc. cbn.
    by destruct (change live).
Qed.

(** A refused request changes nothing. *)
Lemma joined_err proc_stat {T} token peer (change : Live → T * Live) p e p' :
  joined proc_stat token peer change p = (Err e, p') → p' = p.
Proof. unfold joined. intros. by repeat case_match; simplify_eq. Qed.

(** ** The registry invariant *)
Definition step_valid (s : ProcedureStep) : Prop :=
  (ps_id s ≠ "" ∧ slen (ps_id s) ≤ 128
     ∧ all_bytes (λ b, is_ascii_alphanumeric b || (b =? 45)) (ps_id s) = true)
  ∧ (ps_title s ≠ "" ∧ slen (ps_title s) ≤ MAX_TITLE_BYTES)
  ∧ slen (ps_label s) ≤ MAX_LABEL_BYTES
  ∧ is_some_and (λ n, (n =? 0) || (MAX_DECLARED_STEPS <? n)) (ps_steps s) = false
  ∧ bad_reason (ps_failure s) = false
  ∧ bad_reason (ps_warning s) = false
  ∧ is_some_and
      (λ p, bool_decide (sp_text p = "") || (MAX_REASON_BYTES <? slen (sp_text p))
            || is_some_and (λ n, 100 <? n) (sp_percent p)) (ps_progress s) = false.

Lemma step_validate_ok s : step_validate s = Ok tt ↔ step_valid s.
Proof.
  unfold step_validate, step_valid.
  repeat case_match; bool_prop; split; try done; try tauto; intros;
    split_hyps; try congruence; try lia; intuition (try congruence; try lia).
Qed.

Definition live_ok (id : string) (live : Live) : Prop :=
  ps_id (lv_step live) = id ∧ step_valid (lv_step live)
  ∧ 0 ≤ ps_step (lv_step live) ≤ u32_max.

(** Identifiers carry the counter they were made with. *)
Definition numbered_below (n : Z) (id : string) : Prop :=
  ∃ k r, 0 ≤ k < n ∧ id = "proc-" +:+ dec k +:+ "-" +:+ r.

Definition registry_ok (p : Procedures) : Prop :=
  bt_wf (pr_live p) ∧ zlen (pr_live p) ≤ MAX_PROCEDURES ∧ 0 ≤ pr_next p ≤ u64_max
  ∧ (∀ id live, bt_get id (pr_live p) = Some live →
       live_ok id live ∧ numbered_below (pr_next p) id).

Lemma reported_ok label reason r :
  reported label reason = Ok r → bad_reason (Some r) = false.
Proof.
  unfold reported. case_match; [done|]. intros [= <-].
  destruct (bool_decide (clean_text reason MAX_REASON_BYTES = "")) eqn:E; [done|].
  cbn. rewrite E. apply Z.ltb_ge. by apply clean_text_len.
Qed.

Definition report_ok (r : option Report) : Prop :=
  match r with
  | Some (Failure reason) | Some (Warning reason) => bad_reason (Some reason) = false
  | None => True
  end.

Lemma number_change_ok id label deployment repeatable report live :
  report_ok report → live_ok id live →
  live_ok id (number_change (clean_text label MAX_LABEL_BYTES) deployment repeatable report live).2.
Proof.
  intros Hr (Hid & (Hi & Ht & Hl & Hs & Hf & Hw & Hp) & Hn).
  unfold number_change, live_ok, step_valid, next_number.
  assert (slen (clean_text label MAX_LABEL_BYTES) ≤ MAX_LABEL_BYTES) by by apply clean_text_len.
  repeat case_match; simplify_eq; cbn in *; split_and!; try tauto; lia.
Qed.

Lemma set_progress_ok id text percent live :
  clean_text text MAX_REASON_BYTES ≠ "" → is_some_and (λ n, 100 <? n) percent = false →
  live_ok id live →
  live_ok id (set_progress {| sp_text := clean_text text MAX_REASON_BYTES;
                              sp_percent := percent |} live).2.
Proof.
  intros Hne Hp (Hid & (Hi & Ht & Hl & Hs & Hf & Hw & _) & Hn).
  unfold live_ok, step_valid. cbn. split_and!; try tauto; try lia.
  rewrite Hp, bool_decide_eq_false_2 by done. cbn.
  rewrite orb_false_r. apply Z.ltb_ge. by apply clean_text_len.
Qed.

(** Replacing one live procedure by a valid one keeps the registry valid. *)
Lemma registry_ok_update p id live live' :
  registry_ok p → bt_get id (pr_live p) = Some live → live_ok id live' →
  registry_ok {| pr_live := bt_update (λ _, live') id (pr_live p); pr_next := pr_next p |}.
Proof.
  intros (Hwf & Hlen & Hnext & Hall) Hget Hok. split_and!; cbn; try done; try lia.
  - by apply bt_wf_update.
  - rewrite bt_len_update. done.
  - intros id' l. rewrite bt_get_update. destruct (kcmp_spec id id') as [<-|Hlt|Hlt].
    + rewrite Hget. intros [= <-]. split; [done|]. by destruct (Hall _ _ Hget).
    + apply Hall.
    + apply Hall.
Qed.

Lemma registry_ok_joined proc_stat {T} token peer (change : Live → T * Live) p :
  registry_ok p →
  (∀ id live, live_ok id live → live_ok id (change live).2) →
  registry_ok (joined proc_stat token peer change p).2.
Proof.
  intros Hp Hc. destruct (joined proc_stat token peer change p) as [[t|e] p'] eqn:E.
  - apply joined_ok in E as (id & live & Hj & -> & ->). cbn.
    destruct Hj as [Hget _]. eapply registry_ok_update; [done..|].
    apply Hc. by apply Hp.
  - apply joined_err in E as ->. done.
Qed.

Lemma proc_id_class n r :
  0 ≤ n ≤ u64_max → all_bytes is_lower_hex r = true → slen r = 12 →
  let id := "proc-" +:+ dec n +:+ "-" +:+ r in
  all_bytes (λ b, is_ascii_alphanumeric b || (b =? 45)) id = true
  ∧ slen id ≤ 128 ∧ id ≠ "" ∧ contains_byte 58 id = false.
Proof.
  intros Hn Hr Hlen. cbv zeta.
  assert (all_bytes (λ b, is_ascii_alphanumeric b || (b =? 45))
            ("proc-" +:+ dec n +:+ "-" +:+ r) = true) as Hall.
  { rewrite !all_bytes_app. destruct (dec_bytes n) as (_ & Hd & _); [lia|].
    rewrite (all_bytes_impl is_ascii_digit _ (dec n)), (all_bytes_impl is_lower_hex _ r); [done| |done| |done].
    - intros b. unfold is_lower_hex, is_ascii_alphanumeric, is_ascii_digit,
        is_ascii_uppercase, is_ascii_lowercase, in_range. bool_prop. lia.
    - intros b Hb. unfold is_ascii_alphanumeric. by rewrite Hb. }
  split_and!; [done| |done|by eapply all_bytes_not_contains].
  rewrite !slen_app, Hlen. change (slen "proc-") with 5. change (slen "-") with 1.
  assert (slen (dec n) ≤ 20); [|lia].
  apply (slen_dec n 19). unfold u64_max in Hn. change (10 ^ Z.of_nat 20) with (10 ^ 20). lia.
Qed.

Lemma numbered_below_inj n m r r' :
  0 ≤ n → 0 ≤ m →
  "proc-" +:+ dec n +:+ "-" +:+ r = "proc-" +:+ dec m +:+ "-" +:+ r' → n = m.
Proof.
  intros Hn Hm H. apply (inj (String.append "proc-")) in H.
  change ("-" +:+ r) with (String "-" r) in H. change ("-" +:+ r') with (String "-" r') in H.
  destruct (dec_bytes n Hn) as (_ & Hdn & _), (dec_bytes m Hm) as (_ & Hdm & _).
  assert (split_once "-" (dec n +:+ String "-" r) = split_once "-" (dec m +:+ String "-" r'))
    as Hs by by rewrite H.
  rewrite !split_once_app in Hs by (by eapply all_bytes_not_contains).
  simplify_eq. by apply dec_inj.
Qed.

(** What a successful [begin] did: a fresh identifier, everything else kept. *)
Lemma begin_ok getrandom owner title steps p step token p' :
  fills getrandom → registry_ok p → pr_next p < u64_max →
  begin getrandom owner title steps p = (Ok (step, token), p') →
  ∃ live, bt_get (ps_id step) (pr_live p) = None
    ∧ p' = {| pr_live := bt_insert (ps_id step) live (pr_live p); pr_next := pr_next p + 1 |}
    ∧ lv_step live = step ∧ lv_owner live = owner ∧ lv_repeatable live = false
    ∧ ps_step step = 0 ∧ step_valid step ∧ numbered_below (pr_next p + 1) (ps_id step)
    ∧ token = ps_id step +:+ ":" +:+ lv_secret live ∧ lv_secret live ≠ ""
    ∧ contains_byte 58 (ps_id step) = false
    ∧ zlen (pr_live p) < MAX_PROCEDURES.
Proof.
  intros Hfill (Hwf & Hlen & Hnext & Hall) Hmax. unfold begin, random_hex. intros H.
  repeat case_match; simplify_eq; bool_prop.
  match goal with H : getrandom 6%nat = Ok ?l |- _ => rename l into l6, H into Hg6 end.
  match goal with H : getrandom 32%nat = Ok ?l |- _ => rename l into l32, H into Hg32 end.
  destruct (Hfill _ _ Hg6) as [Hl6 Hb6], (hex_of_class l6 Hb6) as [Hc6 Hs6].
  destruct (Hfill _ _ Hg32) as [Hl32 Hb32], (hex_of_class l32 Hb32) as [Hc32 Hs32].
  unfold zlen in Hs6, Hs32. rewrite Hl6 in Hs6. rewrite Hl32 in Hs32. cbn in Hs6, Hs32.
  destruct (proc_id_class (pr_next p) (hex_of l6)) as (Hcls & Hidlen & Hidne & Hcol); [lia|done|lia|].
  match goal with |- context [bt_insert _ ?l _] => exists l end.
  simpl_proc. split_and!; try done.
  - destruct (bt_get _ (pr_live p)) as [live|] eqn:E; [|done]. exfalso.
    destruct (Hall _ _ E) as [_ (k & r & Hk & Heq)].
    apply numbered_below_inj in Heq; lia.
  - f_equal. unfold wrap64. rewrite Z.mod_small; [done|]. unfold u64_max in *. lia.
  - unfold step_valid. simpl_proc. split_and!; try done. by apply clean_text_len.
  - eexists _, _. split; [|done]. lia.
  - intros Hh. rewrite Hh in Hs32. done.
Qed.

Lemma begin_keeps getrandom owner title steps p :
  fills getrandom → registry_ok p → pr_next p < u64_max →
  registry_ok (begin getrandom owner title steps p).2.
Proof.
  intros Hfill Hp Hmax.
  destruct (begin getrandom owner title steps p) as [[[step token]|e] p'] eqn:E.
  - apply begin_ok in E as (live & Hfresh & -> & Hst & Hown & Hrep & H0 & Hval & Hnum & _ & _ & _ & Hcap);
      [|done..].
    destruct Hp as (Hwf & Hlen & Hnext & Hall). cbn.
    split_and!; cbn; [by apply bt_wf_insert| |lia|lia|].
    + etrans; [apply bt_len_insert_le|]. lia.
    + intros id' l'. rewrite bt_get_insert. case_decide; subst.
      * intros [= <-]. split; [|done]. split_and!; [done|done|lia|]. rewrite H0. done.
      * intros Hget. destruct (Hall _ _ Hget) as [? (k & r & ? & ?)].
        split; [done|]. exists k, r. split; [lia|done].
  - unfold begin in E. destruct Hp as (Hwf & Hlen & Hnext & Hall).
    assert (registry_ok {| pr_live := pr_live p; pr_next := wrap64 (pr_next p + 1) |}) as Hbump.
    { unfold wrap64. rewrite Z.mod_small by (unfold u64_max in *; lia).
      split_and!; cbn; try done; [lia|lia|]. intros id live Hget.
      destruct (Hall _ _ Hget) as [? (k & r & ? & ?)].
      split; [done|]. exists k, r. split; [lia|done]. }
    repeat case_match; simplify_eq; done.
Qed.

(** ** Reachable registries *)
(** The requests that join a procedure with a token. *)
Inductive JoinRequest :=
| JNext (label : string) (deployment repeatable : bool)
| JFail (label reason : string)
| JWarn (label reason : string)
| JProgress (text : string) (percent : option Z)
| JAnnotate (label : string).

Definition run_join (proc_stat : Z → option string) (token : string) (peer : Z)
  (req : JoinRequest) : op ProcedureStep :=
  match req with
  | JNext label deployment repeatable => next_step proc_stat token peer label deployment repeatable
  | JFail label reason => fail_step proc_stat token peer label reason
  | JWarn label reason => warn_step proc_stat token peer label reason
  | JProgress text percent => progress_step proc_stat token peer text percent
  | JAnnotate label => annotate proc_stat token peer label
  end.

(** Every method in any order, with any process table and any random bytes;
    fewer than 2^64 procedures are begun in one backend's life. *)
Inductive reachable : Procedures → Prop :=
| reach_default : reachable procedures_default
| reach_begin getrandom owner title steps p :
    fills getrandom → pr_next p < u64_max → reachable p →
    reachable (begin getrandom owner title steps p).2
| reach_end id p : reachable p → reachable (end_procedure id p)
| reach_join proc_stat token peer req p :
    reachable p → reachable (run_join proc_stat token peer req p).2.

(** A joining request either refuses or runs one closure on the live
    procedure it names. *)
Lemma run_join_cases proc_stat token peer req p :
  (∃ e, run_join proc_stat token peer req p = (Err e, p))
  ∨ ∃ change : Live → ProcedureStep * Live,
      run_join proc_stat token peer req p = joined proc_stat token peer change p
      ∧ (∀ id live, live_ok id live → live_ok id (change live).2)
      ∧ (∀ live, lv_secret (change live).2 = lv_secret live
                 ∧ lv_owner (change live).2 = lv_owner live).
Proof.
  assert (∀ l d r rp live,
    lv_secret (number_change l d r rp live).2 = lv_secret live
    ∧ lv_owner (number_change l d r rp live).2 = lv_owner live) as Hkeep.
  { intros. unfold number_change. by repeat case_match. }
  destruct req as [label d r|label reason|label reason|text percent|label];
    cbn [run_join].
  - right. eexists. split; [done|]. split; [|done]. intros. by apply number_change_ok.
  - unfold fail_step, st_lift, mbind, stE_bind.
    destruct (reported label reason) eqn:E; [|left; by eexists].
    right. eexists. split; [done|]. split; [|done]. intros. apply number_change_ok; [|done].
    by eapply reported_ok.
  - unfold warn_step, st_lift, mbind, stE_bind.
    destruct (reported label reason) eqn:E; [|left; by eexists].
    right. eexists. split; [done|]. split; [|done]. intros. apply number_change_ok; [|done].
    by eapply reported_ok.
  - unfold progress_step, st_lift. case_bool_decide; [left; by eexists|].
    destruct (is_some_and _ _) eqn:E; [left; by eexists|].
    right. eexists. split; [done|]. split; [|done]. intros. by apply set_progress_ok.
  - unfold annotate, st_lift. case_bool_decide; [left; by eexists|].
    right. eexists. split; [done|]. done.
Qed.

Lemma reachable_ok p : reachable p → registry_ok p.
Proof.
  induction 1 as [|g owner title steps p Hf Hm _ IH|id p _ IH|ps token peer req p _ IH].
  - split_and!; cbn; try done. apply bt_wf_nil.
  - by apply begin_keeps.
  - destruct IH as (Hwf & Hlen & Hnext & Hall). split_and!; cbn; try lia.
    + by apply bt_wf_remove.
    + etrans; [apply bt_len_remove|done].
    + intros id' live Hget. apply Hall.
      destruct (decide (id = id')) as [->|Hne]; [by rewrite bt_get_remove_eq in Hget|].
      by rewrite bt_get_remove_ne in Hget.
  - destruct (run_join_cases ps token peer req p) as [[e ->]|(change & -> & Hok & _)]; [done|].
    by apply registry_ok_joined.
Qed.

Lemma run_join_ok proc_stat token peer req p s p' :
  run_join proc_stat token peer req p = (Ok s, p') →
  ∃ id live live', may_join proc_stat p token peer id live
    ∧ p' = {| pr_live := bt_update (λ _, live') id (pr_live p); pr_next := pr_next p |}
    ∧ lv_secret live' = lv_secret live ∧ lv_owner live' = lv_owner live.
Proof.
  intros H.
  destruct (run_join_cases proc_stat token peer req p) as [[e E]|(change & E & _ & Hkeep)];
    rewrite E in H; [done|].
  apply joined_ok in H as (id & live & Hj & -> & ->).
  eexists _, _, _. split; [done|]. split; [done|]. apply Hkeep.
Qed.

(** ** Properties *)
Section Properties.
Context (proc_stat : Z → option string).

(** In every reachable registry each procedure's step passes
    [ProcedureStep::validate], ids are distinct, and at most 64 procedures
    live. *)
Theorem registry_invariant p :
  reachable p →
  Forall (λ s, step_validate s = Ok tt) (snapshot p)
  ∧ zlen (snapshot p) ≤ MAX_PROCEDURES ∧ NoDup (ps_id <$> snapshot p).
Proof.
  intros (Hwf & Hlen & _ & Hall)%reachable_ok.
  assert (∀ id live, (id, live) ∈ pr_live p → live_ok id live) as Hin.
  { intros id live Hin%bt_elem_get; [|done]. by apply Hall. }
  unfold snapshot, bt_values. split_and!.
  - apply Forall_fmap, Forall_fmap, Forall_forall. intros [id live] Hx. cbn.
    apply step_validate_ok. by apply Hin in Hx as (_ & ? & _).
  - unfold zlen in *. by rewrite !length_fmap.
  - assert (ps_id <$> (lv_step <$> (pr_live p).*2) = bt_keys (pr_live p)) as ->.
    { unfold bt_keys. rewrite <- !list_fmap_compose. apply list_fmap_ext.
      intros i [id live] Hl. cbn. by destruct (Hin id live) as [-> _];
        [by eapply list_elem_of_lookup_2|]. }
    by apply bt_wf_nodup.
Qed.

(** C34: Only the holder of a live procedure's token that runs under the
    process which registered it can act in the procedure; such an act
    changes that procedure alone and neither its secret nor its owner.  A
    refused request changes nothing. *)
Theorem join_authority token peer req p :
  match run_join proc_stat token peer req p with
  | (Ok _, p') => ∃ id live,
      bt_get id (pr_live p) = Some live
      ∧ token = id +:+ ":" +:+ lv_secret live
      ∧ (∃ k, (k < 4096)%nat ∧ nsteps (parent_of proc_stat) k peer (lv_owner live))
      ∧ (∀ id', id' ≠ id → bt_get id' (pr_live p') = bt_get id' (pr_live p))
      ∧ (∃ live', bt_get id (pr_live p') = Some live'
           ∧ lv_secret live' = lv_secret live ∧ lv_owner live' = lv_owner live)
  | (Err _, p') => p' = p
  end.
Proof.
  destruct (run_join proc_stat token peer req p) as [[s|e] p'] eqn:E.
  - apply run_join_ok in E as (id & live & live' & (Hget & -> & _ & _ & _ & Hd) & -> & Hs & Ho).
    exists id, live. split_and!; try done.
    + by apply climbs_spec.
    + intros id' Hne. cbn. rewrite bt_get_update. by kcase id id'.
    + exists live'. cbn. rewrite bt_get_update, kcmp_refl, Hget. done.
  - destruct (run_join_cases proc_stat token peer req p) as [[e' E']|(change & E' & _)];
      rewrite E' in E; [by simplify_eq|]. by eapply joined_err.
Qed.

(** A procedure just begun can be joined by its owner with the token
    that was returned: its first step is numbered 1 and carries the cleaned
    label. *)
Theorem begin_then_join getrandom owner title steps p step token p' :
  fills getrandom → reachable p → pr_next p < u64_max →
  begin getrandom owner title steps p = (Ok (step, token), p') →
  ∀ label deployment repeatable, ∃ s p'',
    next_step proc_stat token owner label deployment repeatable p' = (Ok s, p'')
    ∧ ps_step s = 1 ∧ ps_id s = ps_id step ∧ ps_title s = ps_title step
    ∧ ps_label s = clean_text label MAX_LABEL_BYTES.
Proof.
  intros Hf Hr%reachable_ok Hm
    (live & Hfresh & -> & Hst & Hown & Hrep & H0 & Hval & _ & -> & Hsec & Hcol & _)%begin_ok
    label d r; [|done..].
  destruct (joined proc_stat (ps_id step +:+ ":" +:+ lv_secret live) owner
    (number_change (clean_text label MAX_LABEL_BYTES) d r None)
    {| pr_live := bt_insert (ps_id step) live (pr_live p); pr_next := pr_next p + 1 |})
    as [[s|e] p''] eqn:E.
  - exists s, p''. split; [exact E|]. apply joined_ok in E as (id & live' & Hj & -> & ->).
    destruct Hj as (Hget & Htok & Hid & _ & Hcol' & _). cbn in Hget.
    assert (id = ps_id step) as ->.
    { apply (f_equal (split_once ":")) in Htok.
      change (":" +:+ lv_secret live) with (String ":" (lv_secret live)) in Htok.
      change (":" +:+ lv_secret live') with (String ":" (lv_secret live')) in Htok.
      rewrite !split_once_app in Htok by done. by simplify_eq. }
    rewrite bt_get_insert_eq in Hget. simplify_eq.
    unfold number_change, next_number. rewrite H0. cbn.
    rewrite andb_false_r. done.
  - exfalso. revert E. unfold joined.
    destruct Hval as ((Hid & _) & _).
    rewrite (proj2 (split_token_Some (ps_id step +:+ ":" +:+ lv_secret live)
      (ps_id step) (lv_secret live))) by done.
    cbn [pr_live].
    rewrite bt_get_insert_eq, (proj2 (same_secret_eq (lv_secret live) (lv_secret live)) eq_refl), Hown.
    assert (is_same_or_descendant proc_stat owner owner = true) as ->.
    { apply climbs_spec. exists 0%nat. split; [lia|constructor]. }
    cbn. by case_match.
Qed.

(** [n] logins to the same destination, one after another. *)
Fixpoint logins (n : nat) (token : string) (peer : Z) (label : string) : op ProcedureStep :=
  match n with
  | O => next_step proc_stat token peer label false true
  | S n => λ p, logins n token peer label
                  (next_step proc_stat token peer label false true p).2
  end.

Lemma login_again token peer label p id live :
  may_join proc_stat p token peer id live →
  ∃ live', next_step proc_stat token peer label false true p =
      (Ok (lv_step live'), {| pr_live := bt_update (λ _, live') id (pr_live p); pr_next := pr_next p |})
    ∧ (number_change (clean_text label MAX_LABEL_BYTES) false true None live).2 = live'
    ∧ may_join proc_stat
        {| pr_live := bt_update (λ _, live') id (pr_live p); pr_next := pr_next p |}
        token peer id live'.
Proof.
  intros Hj. eexists. split_and!; [|done|].
  - apply joined_ok. exists id, live. split; [done|]. split; [|done].
    unfold number_change. by repeat case_match.
  - destruct Hj as (Hget & ? & ? & ? & ? & ?). unfold may_join.
    assert (∀ l, lv_secret (number_change l false true None live).2 = lv_secret live
      ∧ lv_owner (number_change l false true None live).2 = lv_owner live) as Hk
      by (intros; unfold number_change; by repeat case_match).
    destruct (Hk (clean_text label MAX_LABEL_BYTES)) as [-> ->].
    split_and!; try done. cbn [pr_live]. rewrite bt_get_update, kcmp_refl, Hget. done.
Qed.

(** Consecutive repeatable steps with the same label, however many,
    are numbered as one step. *)
Theorem repeated_logins_one_step n token peer label p id live :
  may_join proc_stat p token peer id live →
  0 ≤ ps_step (lv_step live) < u32_max →
  (lv_repeatable live = true → ps_label (lv_step live) ≠ clean_text label MAX_LABEL_BYTES) →
  ∃ s p', logins n token peer label p = (Ok s, p')
    ∧ ps_step s = ps_step (lv_step live) + 1
    ∧ ps_label s = clean_text label MAX_LABEL_BYTES.
Proof.
  intros Hj Hn Hnew.
  (* after the first login the procedure sits on the repeatable step *)
  assert (∀ m q lv, may_join proc_stat q token peer id lv → lv_repeatable lv = true →
    ps_label (lv_step lv) = clean_text label MAX_LABEL_BYTES → 0 < ps_step (lv_step lv) →
    ∃ s p', logins m token peer label q = (Ok s, p')
      ∧ ps_step s = ps_step (lv_step lv) ∧ ps_label s = clean_text label MAX_LABEL_BYTES)
    as Hagain.
  { induction m as [|m IH]; intros q lv Hq Hr Hl H0; cbn [logins];
      destruct (login_again token peer label q id lv Hq) as (lv' & Hnext & Hlv' & Hq');
      unfold number_change in Hlv'; rewrite Hr, (proj2 (Z.ltb_lt _ _) H0),
        bool_decide_eq_true_2 in Hlv' by done; cbn in Hlv'.
    - rewrite Hnext. eexists _, _. split; [done|]. by rewrite <- Hlv'.
    - rewrite Hnext. cbn [snd].
      destruct (IH _ lv' Hq') as (s & p' & Hs & Hst & Hlb); [by rewrite <- Hlv'..|].
      exists s, p'. split; [done|]. split; [|done]. rewrite Hst. by rewrite <- Hlv'. }
  destruct (login_again token peer label p id live Hj) as (lv' & Hnext & Hlv' & Hq').
  unfold number_change in Hlv'.
  assert (true && lv_repeatable live && (0 <? ps_step (lv_step live))
    && bool_decide (ps_label (lv_step live) = clean_text label MAX_LABEL_BYTES) = false) as Hrep.
  { destruct (lv_repeatable live); [|by rewrite andb_false_r].
    rewrite (bool_decide_eq_false_2 _ (Hnew eq_refl)). by rewrite !andb_false_r. }
  rewrite Hrep in Hlv'. cbn in Hlv'.
  assert (ps_step (lv_step lv') = ps_step (lv_step live) + 1) as Hstep.
  { rewrite <- Hlv'. cbn. unfold next_number. lia. }
  destruct n as [|n]; cbn [logins]; rewrite Hnext.
  - eexists _, _. split; [done|]. split; [done|]. by rewrite <- Hlv'.
  - cbn [snd]. destruct (Hagain n _ lv' Hq') as (s & p' & Hs & Hst & Hlb);
      [by rewrite <- Hlv'|by rewrite <- Hlv'|lia|].
    exists s, p'. split; [done|]. split; [|done]. lia.
Qed.
End Properties.

(** The connection is still served exactly when every read so far was some other
    request and every write worked. *)
Definition still_open (write : nat → result string unit) (n : nat) (reads : list Read) : Prop :=
  Forall (λ read, read = RdOther) reads ∧ ∀ i, (n ≤ i < n + length reads)%nat → is_ok (write i) = true.
Lemma serve_loop_open write id n reads : (serve_loop write id n reads).1 = None ↔ still_open write n reads.
Proof.
  unfold still_open. revert n. induction reads as [|read reads IH]; intros n.
  { split; [|done]. intros _. split; [constructor|]. cbn. lia. }
  destruct read as [code| | |e]; cbn [serve_loop length].
  1,3,4: split; [done|]; by intros [[? _]%Forall_cons _].
  destruct (write n) as [[]|e] eqn:E.
  - specialize (IH (S n)). destruct (serve_loop write id (S n) reads) as [ended sent]. cbn [fst] in *. rewrite IH. split.
    + intros [Hr Hw]. split; [by constructor|]. intros i Hi.
      destruct (decide (i = n)) as [->|]; [by rewrite E|]. apply Hw. lia.
    + intros [[_ Hr]%Forall_cons Hw]. split; [done|]. intros i Hi. apply Hw. lia.
  - split; [done|]. intros [_ Hw]. specialize (Hw n). rewrite E in Hw. cbn in Hw. discriminate Hw. lia.
Qed.
(** Only what the owner said at the end counts as how its command exited. *)
Lemma serve_loop_exit write id n reads r code :
  (serve_loop write id n reads).1 = Some (r, Some code) →
  RdEndProcedure (Some code) ∈ reads ∧ SentEnded id (Some code) ∈ (serve_loop write id n reads).2.
Proof.
  revert n. induction reads as [|read reads IH]; intros n; [done|].
  destruct read as [code'| | |e]; cbn [serve_loop]; try done.
  - intros [= <- ->]. split; by left.
  - destruct (write n) as [[]|e]; [|done]. specialize (IH (S n)).
    destruct (serve_loop write id (S n) reads) as [ended sent]. cbn [fst snd] in *. intros H.
    destruct (IH H). split; by right.
Qed.

(** The connection of the owner keeps the procedure alive.  It goes on exactly
    while every read gives some other request and every write works; then the
    procedure stays and only its first step was announced.  Whatever else happens
    (its own [EndProcedure], end of file, a read or a write error), the procedure is
    gone from the registry, every other procedure is as the other connections left
    it, and the end was announced once, after the first step, with an exit code
    only if the owner gave it. *)
Theorem serve_cleans_up getrandom owner title steps write reads others p sv p' step token p1 :
  begin getrandom owner title steps p = (Ok (step, token), p1) →
  serve getrandom owner title steps write reads others p = (sv, p') →
  (sv_result sv = None ↔ is_ok (write 0%nat) = true ∧ still_open write 1 reads)
  ∧ (sv_result sv = None → p' = others p1 ∧ sv_announced sv = [AnnStep step])
  ∧ (sv_result sv ≠ None →
      bt_get (ps_id step) (pr_live p') = None
      ∧ (∀ id, id ≠ ps_id step → bt_get id (pr_live p') = bt_get id (pr_live (others p1)))
      ∧ ∃ exit, sv_announced sv = [AnnStep step; AnnEnded (ps_id step) exit]
          ∧ ∀ code, exit = Some code → RdEndProcedure (Some code) ∈ reads)
  ∧ ∃ sent, sv_sent sv = SentBegun (ps_id step) token :: sent.
Proof.
  unfold serve, serve_connection. intros ->. pose proof (serve_loop_open write (ps_id step) 1 reads) as Ho.
  pose proof (λ r code, serve_loop_exit write (ps_id step) 1 reads r code) as Hx.
  destruct (serve_loop write (ps_id step) 1 reads) as [ended sent]. cbn [fst snd] in *.
  assert (∀ r exit, p' = end_procedure (ps_id step) (others p1) → sv_announced sv = [AnnStep step; AnnEnded (ps_id step) exit] →
    sv_result sv = Some r → (∀ code, exit = Some code → RdEndProcedure (Some code) ∈ reads) →
    (sv_result sv ≠ None →
      bt_get (ps_id step) (pr_live p') = None
      ∧ (∀ id, id ≠ ps_id step → bt_get id (pr_live p') = bt_get id (pr_live (others p1)))
      ∧ ∃ exit, sv_announced sv = [AnnStep step; AnnEnded (ps_id step) exit]
          ∧ ∀ code, exit = Some code → RdEndProcedure (Some code) ∈ reads)) as Hend.
  { intros r exit -> Ha _ He _. split_and!; [apply bt_get_remove_eq|intros id Hne; by apply bt_get_remove_ne|eauto]. }
  destruct (write 0%nat) as [[]|e]; [destruct ended as [[r exit]|]|]; cbn; intros [= <- <-]; cbn in *.
  - split_and!; [|done|eapply Hend; [done|done|done|]|eauto]; [naive_solver|].
    intros code ->. by destruct (Hx r code eq_refl).
  - split_and!; [naive_solver|done|done|eauto].
  - split_and!; [naive_solver|done|by eapply Hend|eauto].
Qed.

(** ** Witnesses *)
Definition sample_random (n : nat) : result string (list Z) := Ok (repeat 165 n).
Definition sample_tree (pid : Z) : option string :=
  if pid =? 20 then Some "20 (sh (x)) S 10 20 20" else None.

Lemma sample_fills : fills sample_random.
Proof.
  intros n l [= <-]. split; [apply repeat_length|].
  induction n as [|n IH]; [done|]. cbn. exact IH.
Qed.

Definition sample_begun := begin sample_random 10 " deploy " (Some 3) procedures_default.
Definition sample_token : string :=
  match sample_begun with (Ok (_, token), _) => token | _ => "" end.

Lemma sample_reachable : reachable sample_begun.2.
Proof. apply reach_begin; [apply sample_fills|done|constructor]. Qed.

Definition sample_failed :=
  run_join sample_tree sample_token 20 (JFail "login" "no route to host") sample_begun.2.

Lemma registry_invariant_witness :
  Forall (λ s, step_validate s = Ok tt) (snapshot sample_failed.2)
  ∧ zlen (snapshot sample_failed.2) ≤ MAX_PROCEDURES
  ∧ NoDup (ps_id <$> snapshot sample_failed.2).
Proof. apply (registry_invariant sample_failed.2). exact (reach_join _ _ _ _ _ sample_reachable). Defined.

Lemma begin_then_join_witness :
  ∃ s p'', next_step sample_tree sample_token 10 "build" false false sample_begun.2 = (Ok s, p'')
    ∧ ps_step s = 1 ∧ ps_id s = "proc-0-a5a5a5a5a5a5" ∧ ps_title s = "deploy"
    ∧ ps_label s = "build".
Proof.
  apply (begin_then_join sample_tree sample_random 10 " deploy " (Some 3) procedures_default
    {| ps_id := "proc-0-a5a5a5a5a5a5"; ps_title := "deploy"; ps_step := 0; ps_steps := Some 3;
       ps_label := "starting"; ps_deployment := false; ps_failure := None;
       ps_warning := None; ps_progress := None |} sample_token sample_begun.2)
    with (label := "build") (deployment := false) (repeatable := false).
  - apply sample_fills.
  - constructor.
  - vm_compute. reflexivity.
  - vm_compute. reflexivity.
Defined.

Lemma repeated_logins_one_step_witness :
  ∃ s p', logins sample_tree 5 sample_token 20 "login to host" sample_begun.2 = (Ok s, p')
    ∧ ps_step s = 1 ∧ ps_label s = "login to host".
Proof.
  apply (repeated_logins_one_step sample_tree 5 sample_token 20 "login to host" sample_begun.2
    "proc-0-a5a5a5a5a5a5"
    {| lv_secret := hex_of (repeat 165 32); lv_owner := 10;
       lv_step := {| ps_id := "proc-0-a5a5a5a5a5a5"; ps_title := "deploy"; ps_step := 0;
                     ps_steps := Some 3; ps_label := "starting"; ps_deployment := false;
                     ps_failure := None; ps_warning := None; ps_progress := None |};
       lv_repeatable := false |}).
  - unfold may_join. split_and!; try (vm_compute; reflexivity); by vm_compute.
  - vm_compute. by split.
  - done.
Defined.

Definition sample_served : Served * Procedures :=
  serve sample_random 10 " deploy " (Some 3) (λ _, Ok tt) [RdOther; RdEof] id procedures_default.
Lemma serve_cleans_up_witness :
  sv_result sample_served.1 = Some (Ok tt)
  ∧ bt_get "proc-0-a5a5a5a5a5a5" (pr_live sample_served.2) = None.
Proof.
  split; [vm_compute; reflexivity|].
  destruct (serve_cleans_up sample_random 10 " deploy " (Some 3) (λ _, Ok tt) [RdOther; RdEof] id
    procedures_default sample_served.1 sample_served.2
    {| ps_id := "proc-0-a5a5a5a5a5a5"; ps_title := "deploy"; ps_step := 0; ps_steps := Some 3;
       ps_label := "starting"; ps_deployment := false; ps_failure := None;
       ps_warning := None; ps_progress := None |} sample_token sample_begun.2) as (_ & _ & Hend & _).
  - vm_compute. reflexivity.
  - vm_compute. reflexivity.
  - apply Hend. vm_compute. discriminate.
Defined.
