(* ===== verification/Broker.v ===== *)
(** * The approval broker

    [crates/core/src/approval.rs] and [crates/core/src/approval_types.rs]:
    requests wait in one table, every registered frontend has a queue of the
    requests it may claim, a claim is a lease that expires.

    [Instant] and [Duration] are nanoseconds in [Z]; [Instant::now] is an
    argument of the operations ([now] for the reading of [reclaim], [now']
    for a second reading in the same call).  An operation returns its result
    with the state it leaves, errors included, since [reclaim] has run before
    most errors are found. *)
From S2P Require Import Prelude BTree Text Procedure.
#[local] Open Scope Z_scope.

Definition MAX_REQUEST_ID : Z := 128.
Definition MAX_APPROVAL_ITEMS : Z := 4096.

Record ApprovalRequest := {
  ar_id : string;
  ar_target : string;
  ar_secrets : list string;
  ar_allow_partial : bool
}.
#[export] Instance ApprovalRequest_eq_dec : EqDecision ApprovalRequest.
Proof. solve_decision. Defined.

Definition is_id_byte (b : Z) : bool :=
  is_ascii_alphanumeric b || bool_decide (b ∈ bytes "-_.:").

Definition request_validate (r : ApprovalRequest) : result string unit :=
  if bool_decide (ar_id r = "") || (MAX_REQUEST_ID <? slen (ar_id r))
  then Err "request id has an invalid length"
  else if negb (all_bytes is_id_byte (ar_id r))
  then Err "request id contains invalid characters"
  else if bool_decide (ar_target r = "") || (512 <? slen (ar_target r))
  then Err "target has an invalid length"
  else if bool_decide (ar_secrets r = []) || (MAX_APPROVAL_ITEMS <? zlen (ar_secrets r))
  then Err "secret list has an invalid length"
  else if existsb (λ item, bool_decide (item = "") || (1024 <? slen item)) (ar_secrets r)
  then Err "secret identifier has an invalid length"
  else Ok tt.

Inductive Decision := Approved | Rejected.

Inductive ApprovalStatus :=
| StPending
| StClaimed (lease_id expires_in_ms : Z)
| StResolved (decision : Decision) (message : option string)
| StCancelled.

Record Claim := { cl_lease_id : Z; cl_expires_in_ms : Z }.

Definition MAX_REQUESTS : Z := 4096.
Definition MAX_FRONTENDS : Z := 128.
Definition MAX_QUEUE : Z := 4096.
Definition MAX_MESSAGE : Z := 64 * 1024.
Definition nanos_per_sec : Z := 1000000000.
Definition MAX_LEASE : Z := 15 * 60 * nanos_per_sec.

Inductive BrokerError :=
| Invalid (message : string)
| Full
| Unknown
| Unavailable
| WrongLease.

Record Lease := { ls_id : Z; ls_owner : Z; ls_expires : Z }.

Inductive State :=
| Pending
| Claimed (lease : Lease)
| Resolved (decision : Decision) (message : option string)
| Cancelled.

Record Entry := {
  en_request : ApprovalRequest;
  en_state : State;
  en_procedure : option ProcedureStep
}.

(** [known] is a [BTreeSet]. *)
Record Frontend := { fe_queued : list string; fe_known : list (string * unit) }.

Record ApprovalBroker := {
  br_entries : list (string * Entry);
  br_frontends : list (Z * Frontend);
  br_next_lease : Z
}.

Definition broker_default : ApprovalBroker :=
  {| br_entries := []; br_frontends := []; br_next_lease := 1 |}.

Definition frontend_default : Frontend := {| fe_queued := []; fe_known := [] |}.

Definition set_entries (es : list (string * Entry)) (b : ApprovalBroker) : ApprovalBroker :=
  {| br_entries := es; br_frontends := br_frontends b; br_next_lease := br_next_lease b |}.
Definition set_frontends (fs : list (Z * Frontend)) (b : ApprovalBroker) : ApprovalBroker :=
  {| br_entries := br_entries b; br_frontends := fs; br_next_lease := br_next_lease b |}.
Definition set_next_lease (n : Z) (b : ApprovalBroker) : ApprovalBroker :=
  {| br_entries := br_entries b; br_frontends := br_frontends b; br_next_lease := n |}.
Definition set_state (s : State) (e : Entry) : Entry :=
  {| en_request := en_request e; en_state := s; en_procedure := en_procedure e |}.

Definition is_pending (e : Entry) : bool :=
  match en_state e with Pending => true | _ => false end.

Definition millis (duration : Z) : Z := Z.min (duration / 1000000) u64_max.

(** The free function [status]; [now'] is the reading it makes itself. *)
Definition entry_status (now' : Z) (e : Entry) : ApprovalStatus :=
  match en_state e with
  | Pending => StPending
  | Claimed lease =>
      StClaimed (ls_id lease) (millis (Z.max 0 (ls_expires lease - now')))
  | Resolved decision message => StResolved decision message
  | Cancelled => StCancelled
  end.

Definition queue (f : Frontend) (id : string) : Frontend :=
  if bt_contains id (fe_known f) then f
  else
    let known := bs_insert id (fe_known f) in
    let '(queued, known) :=
      if zlen (fe_queued f) =? MAX_QUEUE then
        match fe_queued f with
        | old :: queued => (queued, bt_remove old known)
        | [] => (fe_queued f, known)
        end
      else (fe_queued f, known) in
    {| fe_queued := queued ++ [id]; fe_known := known |}.

Definition broadcast (b : ApprovalBroker) (id : string) : ApprovalBroker :=
  set_frontends (bt_map (λ _ f, queue f id) (br_frontends b)) b.

(** The part [reclaim] and [disconnect] share: claims that satisfy [p] go
    back to [Pending] and their ids are announced in key order. *)
Definition claimed_by (p : Lease → bool) (e : Entry) : bool :=
  match en_state e with Claimed lease => p lease | _ => false end.

Definition release (p : Lease → bool) (b : ApprovalBroker) : ApprovalBroker :=
  let ids := (filter (λ '(_, e), claimed_by p e = true) (br_entries b)).*1 in
  let entries :=
    bt_map (λ _ e, if claimed_by p e then set_state Pending e else e) (br_entries b) in
  foldl broadcast (set_entries entries b) ids.

Definition reclaim (now : Z) (b : ApprovalBroker) : ApprovalBroker :=
  release (λ lease, ls_expires lease <=? now) b.

Definition disconnect (session : Z) (b : ApprovalBroker) : ApprovalBroker :=
  release (λ lease, ls_owner lease =? session)
    (set_frontends (bt_remove session (br_frontends b)) b).

Definition bop (A : Type) : Type := stE ApprovalBroker BrokerError A.

Definition register (now session : Z) : bop unit :=
  _ ← st_modify (reclaim now);
  b ← st_get;
  _ ← st_guard (negb (negb (bt_contains session (br_frontends b))
                      && (MAX_FRONTENDS <=? zlen (br_frontends b)))) Full;
  let pending := (filter (λ '(_, e), is_pending e = true) (br_entries b)).*1 in
  let frontend := default frontend_default (bt_get session (br_frontends b)) in
  st_put (set_frontends
            (bt_insert session (foldl queue frontend pending) (br_frontends b)) b).

Definition submit_in_procedure (now now' : Z) (request : ApprovalRequest)
  (procedure : option ProcedureStep) : bop ApprovalStatus :=
  _ ← st_lift (map_err Invalid (request_validate request));
  _ ← st_modify (reclaim now);
  b ← st_get;
  match bt_get (ar_id request) (br_entries b) with
  | Some entry =>
      _ ← st_guard (bool_decide (en_request entry = request))
            (Invalid "request id collision");
      mret (entry_status now' entry)
  | None =>
      _ ← st_guard (zlen (br_entries b) <? MAX_REQUESTS) Full;
      let id := ar_id request in
      let entry := {| en_request := request; en_state := Pending;
                      en_procedure := procedure |} in
      _ ← st_put (broadcast (set_entries (bt_insert id entry (br_entries b)) b) id);
      mret StPending
  end.

Definition submit (now now' : Z) (request : ApprovalRequest) : bop ApprovalStatus :=
  submit_in_procedure now now' request None.

Definition pending (now session : Z) : bop (list ApprovalRequest) :=
  _ ← st_modify (reclaim now);
  b ← st_get;
  frontend ← st_lift (ok_or Unavailable (bt_get session (br_frontends b)));
  let queued := filter (λ id, is_some_and is_pending (bt_get id (br_entries b)) = true)
                  (fe_queued frontend) in
  let frontend := {| fe_queued := queued; fe_known := bs_of_list queued |} in
  _ ← st_put (set_frontends (bt_update (λ _, frontend) session (br_frontends b)) b);
  mret (en_request <$> omap (λ id, bt_get id (br_entries b)) queued).

(** [checked_add(1).unwrap_or(1)] on a [u64]. *)
Definition lease_after (n : Z) : Z := if n + 1 <=? u64_max then n + 1 else 1.

Definition claim (now now' session : Z) (id : string) (lease : Z) : bop Claim :=
  _ ← st_modify (reclaim now);
  b ← st_get;
  _ ← st_guard (bt_contains session (br_frontends b)) Unavailable;
  _ ← st_guard (negb ((lease =? 0) || (MAX_LEASE <? lease)))
        (Invalid "invalid lease duration");
  entry ← st_lift (ok_or Unknown (bt_get id (br_entries b)));
  _ ← st_guard (is_pending entry) Unavailable;
  let lease_id := br_next_lease b in
  let claimed := Claimed {| ls_id := lease_id; ls_owner := session;
                            ls_expires := now' + lease |} in
  _ ← st_put (set_entries (bt_update (set_state claimed) id (br_entries b))
                (set_next_lease (lease_after (br_next_lease b)) b));
  mret {| cl_lease_id := lease_id; cl_expires_in_ms := millis lease |}.

(** The guard [State::Claimed(lease) if lease.owner == session && lease.id == lease_id]. *)
Definition holds (session lease_id : Z) (lease : Lease) : bool :=
  (ls_owner lease =? session) && (ls_id lease =? lease_id).

Definition resolve (now session : Z) (id : string) (lease_id : Z)
  (decision : Decision) (message : option string) : bop unit :=
  _ ← st_modify (reclaim now);
  _ ← st_guard (negb (is_some_and (λ m, MAX_MESSAGE <? slen m) message))
        (Invalid "resolution message is too long");
  b ← st_get;
  entry ← st_lift (ok_or Unknown (bt_get id (br_entries b)));
  _ ← st_guard (claimed_by (holds session lease_id) entry) WrongLease;
  st_put (set_entries (bt_update (set_state (Resolved decision message)) id (br_entries b)) b).

Definition extend (expires : Z) (e : Entry) : Entry :=
  match en_state e with
  | Claimed lease =>
      set_state (Claimed {| ls_id := ls_id lease; ls_owner := ls_owner lease;
                            ls_expires := expires |}) e
  | _ => e
  end.

Definition renew (now now' session : Z) (id : string) (lease_id duration : Z) : bop Z :=
  _ ← st_modify (reclaim now);
  b ← st_get;
  _ ← st_guard (bt_contains session (br_frontends b)) Unavailable;
  _ ← st_guard (negb ((duration =? 0) || (MAX_LEASE <? duration)))
        (Invalid "invalid lease duration");
  entry ← st_lift (ok_or Unknown (bt_get id (br_entries b)));
  _ ← st_guard (claimed_by (holds session lease_id) entry) WrongLease;
  _ ← st_put (set_entries (bt_update (extend (now' + duration)) id (br_entries b)) b);
  mret (millis duration).

Definition cancel (now : Z) (id : string) : bop unit :=
  _ ← st_modify (reclaim now);
  b ← st_get;
  _ ← st_lift (ok_or Unknown (bt_get id (br_entries b)));
  st_put (set_entries (bt_update (set_state Cancelled) id (br_entries b)) b).

Definition status (now now' : Z) (id : string) : bop ApprovalStatus :=
  _ ← st_modify (reclaim now);
  b ← st_get;
  entry ← st_lift (ok_or Unknown (bt_get id (br_entries b)));
  mret (entry_status now' entry).

Definition procedures (requests : list ApprovalRequest) (b : ApprovalBroker)
  : list (string * ProcedureStep) :=
  foldl (λ m '(id, step), bt_insert id step m) []
    (omap (λ request,
             entry ← bt_get (ar_id request) (br_entries b);
             step ← en_procedure entry;
             Some (ar_id request, step)) requests).

Definition has_pending (b : ApprovalBroker) : bool :=
  existsb is_pending (bt_values (br_entries b)).

Definition has_frontends (b : ApprovalBroker) : bool :=
  negb (bool_decide (br_frontends b = [])).

(** ** Runs

    One call on the broker with the clock readings it made. *)
Inductive call :=
| CRegister (session : Z)
| CSubmit (request : ApprovalRequest) (procedure : option ProcedureStep)
| CPending (session : Z)
| CClaim (session : Z) (id : string) (lease : Z)
| CResolve (session : Z) (id : string) (lease_id : Z) (d : Decision) (m : option string)
| CRenew (session : Z) (id : string) (lease_id duration : Z)
| CCancel (id : string)
| CStatus (id : string)
| CDisconnect (session : Z).

Definition exec (now now' : Z) (c : call) (b : ApprovalBroker) : ApprovalBroker :=
  match c with
  | CRegister session => (register now session b).2
  | CSubmit request procedure => (submit_in_procedure now now' request procedure b).2
  | CPending session => (pending now session b).2
  | CClaim session id lease => (claim now now' session id lease b).2
  | CResolve session id lease_id d m => (resolve now session id lease_id d m b).2
  | CRenew session id lease_id duration => (renew now now' session id lease_id duration b).2
  | CCancel id => (cancel now id b).2
  | CStatus id => (status now now' id b).2
  | CDisconnect session => disconnect session b
  end.

Definition run (calls : list (Z * Z * call)) (b : ApprovalBroker) : ApprovalBroker :=
  foldl (λ b '(now, now', c), exec now now' c b) b calls.

Ltac unfold_op :=
  unfold mbind, mret, stE_bind, stE_ret, st_modify, st_get, st_put, st_guard, st_lift,
    guard_err, ok_or, map_err in *.

Ltac simpl_broker :=
  cbn [br_entries br_frontends br_next_lease set_entries set_frontends set_next_lease
       en_request en_state en_procedure set_state fe_queued fe_known
       ls_id ls_owner ls_expires fst snd] in *.

(** ** The invariant *)
(** A queue holds distinct known requests, and [known] is its set. *)
Definition frontend_shape (es : list (string * Entry)) (f : Frontend) : Prop :=
  NoDup (fe_queued f) ∧ bt_wf (fe_known f)
  ∧ (∀ id, id ∈ bt_keys (fe_known f) ↔ id ∈ fe_queued f)
  ∧ (∀ id, id ∈ fe_queued f → id ∈ bt_keys es).

(** Every waiting request is in the queue. *)
Definition frontend_covers (es : list (string * Entry)) (f : Frontend) : Prop :=
  ∀ id e, bt_get id es = Some e → is_pending e = true → id ∈ fe_queued f.

Record broker_ok (b : ApprovalBroker) : Prop := {
  ok_entries_wf : bt_wf (br_entries b);
  ok_entries_len : zlen (br_entries b) ≤ MAX_REQUESTS;
  ok_entries : ∀ id e, bt_get id (br_entries b) = Some e →
    ar_id (en_request e) = id ∧ request_validate (en_request e) = Ok tt;
  ok_frontends_wf : bt_wf (br_frontends b);
  ok_frontends_len : zlen (br_frontends b) ≤ MAX_FRONTENDS;
  ok_frontends : ∀ s f, bt_get s (br_frontends b) = Some f →
    frontend_shape (br_entries b) f ∧ frontend_covers (br_entries b) f;
  ok_next_lease : 1 ≤ br_next_lease b ≤ u64_max
}.

Lemma shape_room es f id :
  zlen es ≤ MAX_QUEUE → frontend_shape es f → id ∈ bt_keys es → id ∉ fe_queued f →
  zlen (fe_queued f) < MAX_QUEUE.
Proof.
  intros Hlen (Hd & _ & _ & Hsub) Hid Hnin.
  assert (length (id :: fe_queued f) ≤ length (bt_keys es))%nat as Hle.
  { apply submseteq_length, NoDup_submseteq; [by constructor|].
    intros x [->|Hx]%elem_of_cons; auto. }
  unfold bt_keys, zlen in *. rewrite length_fmap in Hle. cbn in Hle. lia.
Qed.

(** [queue] never drops a request of a well-formed queue. *)
Lemma queue_shape es f id :
  zlen es ≤ MAX_QUEUE → frontend_shape es f → id ∈ bt_keys es →
  frontend_shape es (queue f id)
  ∧ (∀ j, j ∈ fe_queued (queue f id) ↔ j = id ∨ j ∈ fe_queued f).
Proof.
  intros Hlen Hf Hid. pose proof Hf as (Hd & Hwf & Hk & Hsub). unfold queue, bt_contains.
  destruct (bt_get id (fe_known f)) eqn:E; cbn [is_some].
  { assert (id ∈ fe_queued f) by (apply Hk, bt_get_Some_keys; by eexists).
    split; [done|]. naive_solver. }
  rewrite bt_get_None_keys, Hk in E.
  pose proof (shape_room _ _ _ Hlen Hf Hid E).
  rewrite (proj2 (Z.eqb_neq _ _)) by lia. cbv beta iota zeta.
  split; [split_and!; simpl_broker|simpl_broker].
  - rewrite NoDup_app. split_and!; [done| |apply NoDup_singleton]. set_solver.
  - by apply bt_wf_insert.
  - intros j. unfold bs_insert. rewrite bt_keys_insert, Hk, elem_of_app, list_elem_of_singleton.
    tauto.
  - intros j. rewrite elem_of_app, list_elem_of_singleton. intros [?| ->]; auto.
  - intros j. rewrite elem_of_app, list_elem_of_singleton. tauto.
Qed.

Lemma queue_all_shape es ids f :
  zlen es ≤ MAX_QUEUE → frontend_shape es f → (∀ id, id ∈ ids → id ∈ bt_keys es) →
  frontend_shape es (foldl queue f ids)
  ∧ (∀ j, j ∈ fe_queued (foldl queue f ids) ↔ j ∈ ids ∨ j ∈ fe_queued f).
Proof.
  intros Hlen. revert f. induction ids as [|id ids IH]; intros f Hf Hids; cbn [foldl].
  { split; [done|]. set_solver. }
  destruct (queue_shape es f id) as [Hf' Hj]; [done..|set_solver|].
  destruct (IH (queue f id)) as [Hf'' Hj']; [done|set_solver|]. split; [done|].
  intros j. rewrite Hj', Hj. set_solver.
Qed.

Lemma bt_map_compose {K V} (f g : K → V → V) (m : list (K * V)) :
  bt_map g (bt_map f m) = bt_map (λ k v, g k (f k v)) m.
Proof. unfold bt_map. rewrite map_map. apply map_ext. by intros [??]. Qed.

Lemma bt_map_id {K V} (f : K → V → V) (m : list (K * V)) :
  (∀ k v, (k, v) ∈ m → f k v = v) → bt_map f m = m.
Proof.
  unfold bt_map. induction m as [|[k v] m IH]; cbn; intros H; [done|].
  rewrite H, IH; set_solver.
Qed.

Lemma broadcast_all ids b :
  foldl broadcast b ids =
    set_frontends (bt_map (λ _ f, foldl queue f ids) (br_frontends b)) b.
Proof.
  revert b. induction ids as [|id ids IH]; intros b; cbn [foldl].
  - rewrite bt_map_id by done. by destruct b.
  - rewrite IH. unfold broadcast, set_frontends. simpl_broker. by rewrite bt_map_compose.
Qed.

(** ** Release *)
Definition released (p : Lease → bool) (e : Entry) : Entry :=
  if claimed_by p e then set_state Pending e else e.

Lemma released_request p e : en_request (released p e) = en_request e.
Proof. unfold released. by case_match. Qed.

Lemma release_entries p b :
  br_entries (release p b) = bt_map (λ _ e, released p e) (br_entries b).
Proof. unfold release. by rewrite broadcast_all. Qed.

Lemma release_next p b : br_next_lease (release p b) = br_next_lease b.
Proof. unfold release. by rewrite broadcast_all. Qed.

Lemma release_get p b id :
  bt_get id (br_entries (release p b)) = released p <$> bt_get id (br_entries b).
Proof. by rewrite release_entries, bt_get_map. Qed.

Lemma release_sessions p b : bt_keys (br_frontends (release p b)) = bt_keys (br_frontends b).
Proof. unfold release. rewrite broadcast_all. simpl_broker. apply bt_keys_map. Qed.

Lemma bt_contains_keys `{OrdKey K} {V W} k (m : list (K * V)) (m' : list (K * W)) :
  bt_keys m = bt_keys m' → bt_contains k m = bt_contains k m'.
Proof.
  intros E. unfold bt_contains.
  pose proof (bt_get_Some_keys k m) as H1. pose proof (bt_get_Some_keys k m') as H2.
  rewrite E in H1. rewrite <- H2 in H1. clear -H1.
  destruct (bt_get k m), (bt_get k m'); cbn; try done; exfalso.
  - by destruct (proj1 H1 ltac:(by eexists)).
  - by destruct (proj2 H1 ltac:(by eexists)).
Qed.

Lemma release_contains p b s :
  bt_contains s (br_frontends (release p b)) = bt_contains s (br_frontends b).
Proof. apply bt_contains_keys, release_sessions. Qed.

Lemma filter_keys_elem `{OrdKey K} {V} (q : V → bool) (m : list (K * V)) k :
  bt_wf m →
  k ∈ (filter (λ '(_, v), q v = true) m).*1 ↔ ∃ v, bt_get k m = Some v ∧ q v = true.
Proof.
  intros Hwf. rewrite list_elem_of_fmap. split.
  - intros ([k' v] & -> & [Hq Hin]%list_elem_of_filter). exists v.
    split; [by apply bt_elem_get|done].
  - intros (v & Hget & Hq). exists (k, v). split; [done|].
    apply list_elem_of_filter. split; [done|by apply bt_get_elem].
Qed.

Lemma frontend_shape_keys es es' f :
  bt_keys es = bt_keys es' → frontend_shape es f → frontend_shape es' f.
Proof. unfold frontend_shape. intros <-. done. Qed.

Lemma release_ok p b : broker_ok b → broker_ok (release p b).
Proof.
  intros [Hwf Hlen Hent Hfwf Hflen Hfe Hnext]. split.
  - rewrite release_entries. auto with btree.
  - rewrite release_entries, bt_len_map. done.
  - intros id e. rewrite release_get. intros (e' & Hget & ->)%fmap_Some.
    rewrite released_request. by apply Hent.
  - unfold release. rewrite broadcast_all. simpl_broker. auto with btree.
  - unfold release. rewrite broadcast_all. simpl_broker. by rewrite bt_len_map.
  - intros s f. rewrite release_entries. unfold release. rewrite broadcast_all. simpl_broker.
    rewrite bt_get_map. intros (f0 & Hget & ->)%fmap_Some.
    destruct (Hfe _ _ Hget) as [Hs Hc].
    destruct (queue_all_shape (br_entries b)
      (filter (λ '(_, e), claimed_by p e = true) (br_entries b)).*1 f0) as [Hs' Hj];
      [done|done| |].
    { intros id (e & He & _)%filter_keys_elem; [|done]. apply bt_get_Some_keys. by eexists. }
    split; [eapply frontend_shape_keys; [|done]; by rewrite bt_keys_map|].
    intros id e. rewrite bt_get_map. intros (e' & He & ->)%fmap_Some Hp.
    apply Hj. rewrite filter_keys_elem by done.
    unfold released in Hp. destruct (claimed_by p e') eqn:E; [left; eauto|right; eauto].
  - by rewrite release_next.
Qed.

Lemma reclaim_ok now b : broker_ok b → broker_ok (reclaim now b).
Proof. apply release_ok. Qed.

(** Entries are only ever changed in place, to a state that does not wait. *)
Lemma update_entry_ok f id b :
  (∀ e, bt_get id (br_entries b) = Some e →
     en_request (f e) = en_request e ∧ is_pending (f e) = false) →
  broker_ok b → broker_ok (set_entries (bt_update f id (br_entries b)) b).
Proof.
  intros Hf [Hwf Hlen Hent Hfwf Hflen Hfe Hnext]. split; simpl_broker; try done.
  - auto with btree.
  - by rewrite bt_len_update.
  - intros j e. rewrite bt_get_update. kcase id j; [|by apply Hent..].
    intros (e' & He & ->)%fmap_Some. rewrite (proj1 (Hf _ He)). by apply Hent.
  - intros s fe Hget. destruct (Hfe _ _ Hget) as [Hs Hc].
    split; [eapply frontend_shape_keys; [|done]; by rewrite bt_keys_update|].
    intros j e. rewrite bt_get_update. kcase id j; [|by apply Hc..].
    intros (e' & He & ->)%fmap_Some. by rewrite (proj2 (Hf _ He)).
Qed.

Lemma next_lease_ok n b :
  1 ≤ n ≤ u64_max → broker_ok b → broker_ok (set_next_lease n b).
Proof. intros Hn [? ? ? ? ? ? _]. by split. Qed.

Lemma lease_after_range n : 1 ≤ n ≤ u64_max → 1 ≤ lease_after n ≤ u64_max.
Proof. unfold lease_after, u64_max. intros. case_match; bool_prop; lia. Qed.

Create HintDb broker discriminated.
#[export] Hint Resolve reclaim_ok release_ok update_entry_ok next_lease_ok
  lease_after_range ok_next_lease : broker.

Lemma bt_len_insert_room `{OrdKey K} {V} k (v : V) m n :
  bt_wf m → zlen m ≤ n → (bt_contains k m = false → zlen m < n) →
  zlen (bt_insert k v m) ≤ n.
Proof.
  intros Hwf Hlen Hroom. unfold bt_contains in Hroom. destruct (bt_get k m) eqn:E.
  - rewrite bt_len_insert_old by eauto. done.
  - pose proof (bt_len_insert_le k v m). specialize (Hroom eq_refl). lia.
Qed.

Lemma frontend_default_shape es : frontend_shape es frontend_default.
Proof. split_and!; cbn; [constructor|constructor|set_solver|set_solver]. Qed.

Lemma register_ok now s b : broker_ok b → broker_ok (register now s b).2.
Proof.
  intros Hb%(reclaim_ok now). unfold register. unfold_op. revert Hb.
  generalize (reclaim now b) as b1. intros b1 Hb.
  repeat case_match; simplify_eq; simpl_broker; try done. bool_prop.
  destruct Hb as [Hwf Hlen Hent Hfwf Hflen Hfe Hnext]. split; simpl_broker; try done.
  - auto with btree.
  - apply bt_len_insert_room; [done|done|]. intros. intuition (congruence || lia).
  - intros j f. rewrite bt_get_insert. case_decide; [|apply Hfe]. subst j. intros [= <-].
    set (f0 := default frontend_default (bt_get s (br_frontends b1))).
    assert (frontend_shape (br_entries b1) f0) as Hf0.
    { subst f0. destruct (bt_get s (br_frontends b1)) eqn:E; cbn;
        [by eapply Hfe|apply frontend_default_shape]. }
    edestruct (queue_all_shape (br_entries b1)) as [Hs Hj]; [done|exact Hf0| |split; [exact Hs|]].
    { intros id (e & He & _)%filter_keys_elem; [|done]. apply bt_get_Some_keys. by eexists. }
    intros id e He Hp. apply Hj. left. apply filter_keys_elem; eauto.
Qed.

Lemma submit_ok now now' r proc b :
  broker_ok b → broker_ok (submit_in_procedure now now' r proc b).2.
Proof.
  intros Hb. unfold submit_in_procedure. unfold_op.
  destruct (request_validate r) as [[]|] eqn:Er; [|done].
  apply (reclaim_ok now) in Hb. revert Hb. generalize (reclaim now b) as b1. intros b1 Hb.
  destruct (bt_get (ar_id r) (br_entries b1)) eqn:Eid; [by case_match|].
  destruct (zlen (br_entries b1) <? MAX_REQUESTS) eqn:Elen; [|done]. bool_prop.
  destruct Hb as [Hwf Hlen Hent Hfwf Hflen Hfe Hnext].
  split; unfold broadcast; simpl_broker; try done.
  - auto with btree.
  - pose proof (bt_len_insert_le (ar_id r)
      {| en_request := r; en_state := Pending; en_procedure := proc |} (br_entries b1)). lia.
  - intros id e. rewrite bt_get_insert. case_decide; [|apply Hent]. subst id. by intros [= <-].
  - auto with btree.
  - by rewrite bt_len_map.
  - intros s f. rewrite bt_get_map. intros (f0 & Hget & ->)%fmap_Some.
    destruct (Hfe _ _ Hget) as [(Hd & Hk & Hkq & Hsub) Hc].
    edestruct (queue_shape (bt_insert (ar_id r)
      {| en_request := r; en_state := Pending; en_procedure := proc |} (br_entries b1)) f0 (ar_id r))
      as [Hs Hj]; [| |by apply bt_keys_insert; left|split; [exact Hs|]].
    + etrans; [apply bt_len_insert_le|]. unfold MAX_QUEUE, MAX_REQUESTS in *. lia.
    + split_and!; [done..|]. intros id ?. apply bt_keys_insert. eauto.
    + intros id e. rewrite bt_get_insert. case_decide; [subst; intros; apply Hj; auto|].
      intros. apply Hj. eauto.
Qed.

Lemma pending_ok now s b : broker_ok b → broker_ok (pending now s b).2.
Proof.
  intros Hb%(reclaim_ok now). unfold pending. unfold_op. revert Hb.
  generalize (reclaim now b) as b1. intros b1 Hb.
  destruct (bt_get s (br_frontends b1)) as [f|] eqn:Ef; [|done]. simpl_broker.
  destruct Hb as [Hwf Hlen Hent Hfwf Hflen Hfe Hnext]. split; simpl_broker; try done.
  - auto with btree.
  - by rewrite bt_len_update.
  - intros j f'. rewrite bt_get_update. kcase s j; [|apply Hfe..].
    intros (f0 & Hget & ->)%fmap_Some. simplify_eq.
    destruct (Hfe _ _ Ef) as [(Hd & Hk & Hkq & Hsub) Hc]. split; [split_and!; simpl_broker|].
    + by apply NoDup_filter.
    + apply bs_of_list_wf.
    + intros id. by rewrite bs_of_list_elem.
    + intros id [_ ?]%list_elem_of_filter. auto.
    + intros id e Hget' Hp. simpl_broker. apply list_elem_of_filter.
      rewrite Hget'. cbn. eauto.
Qed.

(** The operations that only change the state of one entry. *)
Lemma claim_ok now now' s id d b : broker_ok b → broker_ok (claim now now' s id d b).2.
Proof.
  intros Hb%(reclaim_ok now). unfold claim. unfold_op. repeat case_match; simplify_eq; try done.
  apply (update_entry_ok _ id (set_next_lease _ _)); [done|]. auto with broker.
Qed.

Lemma resolve_ok now s id l d m b : broker_ok b → broker_ok (resolve now s id l d m b).2.
Proof.
  intros Hb%(reclaim_ok now). unfold resolve. unfold_op. repeat case_match; simplify_eq; try done.
  by apply update_entry_ok.
Qed.

Lemma extend_claimed p e t :
  claimed_by p e = true → is_pending (extend t e) = false.
Proof. unfold claimed_by, extend, is_pending. by destruct (en_state e). Qed.

Lemma extend_request e t : en_request (extend t e) = en_request e.
Proof. unfold extend. by destruct (en_state e). Qed.

Lemma renew_ok now now' s id l d b : broker_ok b → broker_ok (renew now now' s id l d b).2.
Proof.
  intros Hb%(reclaim_ok now). unfold renew. unfold_op. repeat case_match; simplify_eq; try done.
  apply update_entry_ok; [|done]. intros e He. simplify_eq.
  split; [apply extend_request|by eapply extend_claimed].
Qed.

Lemma cancel_ok now id b : broker_ok b → broker_ok (cancel now id b).2.
Proof.
  intros Hb%(reclaim_ok now). unfold cancel. unfold_op. repeat case_match; simplify_eq; try done.
  by apply update_entry_ok.
Qed.

Lemma status_ok now now' id b : broker_ok b → broker_ok (status now now' id b).2.
Proof.
  intros Hb%(reclaim_ok now). unfold status. unfold_op. by repeat case_match; simplify_eq.
Qed.

Lemma disconnect_ok s b : broker_ok b → broker_ok (disconnect s b).
Proof.
  intros Hb. apply release_ok. destruct Hb as [Hwf Hlen Hent Hfwf Hflen Hfe Hnext].
  split; simpl_broker; try done.
  - auto with btree.
  - pose proof (bt_len_remove s (br_frontends b)). lia.
  - intros j f Hget. apply (Hfe j).
    destruct (decide (s = j)) as [->|]; [by rewrite bt_get_remove_eq in Hget|].
    by rewrite bt_get_remove_ne in Hget.
Qed.

#[export] Hint Resolve register_ok submit_ok pending_ok claim_ok resolve_ok renew_ok
  cancel_ok status_ok disconnect_ok : broker.

Lemma exec_ok now now' c b : broker_ok b → broker_ok (exec now now' c b).
Proof. intros. destruct c; cbn [exec]; auto with broker. Qed.

Lemma run_ok calls b : broker_ok b → broker_ok (run calls b).
Proof. intros. apply (foldl_inv broker_ok); [done|]. intros b' [[now now'] c] _. apply exec_ok. Qed.

Lemma default_ok : broker_ok broker_default.
Proof. split; cbn; try done; try constructor; by unfold MAX_REQUESTS, MAX_FRONTENDS, u64_max. Qed.

(** ** What one call does to one request *)
Definition expired (now : Z) (lease : Lease) : bool := ls_expires lease <=? now.
Definition owned (session : Z) (lease : Lease) : bool := ls_owner lease =? session.

Inductive entry_step (now now' : Z) (id : string) (next : Z) (e : Entry) : call → State → Prop :=
| step_refused c : entry_step now now' id next e c (en_state e)
| step_idle c : entry_step now now' id next e c (en_state (released (expired now) e))
| step_disconnect s :
    entry_step now now' id next e (CDisconnect s) (en_state (released (owned s) e))
| step_claim s d :
    is_pending (released (expired now) e) = true → 0 ≠ d → d ≤ MAX_LEASE →
    entry_step now now' id next e (CClaim s id d)
      (Claimed {| ls_id := next; ls_owner := s; ls_expires := now' + d |})
| step_resolve s l d m lease :
    en_state e = Claimed lease → expired now lease = false → holds s l lease = true →
    entry_step now now' id next e (CResolve s id l d m) (Resolved d m)
| step_renew s l d lease :
    en_state e = Claimed lease → expired now lease = false → holds s l lease = true →
    0 ≠ d → d ≤ MAX_LEASE →
    entry_step now now' id next e (CRenew s id l d)
      (Claimed {| ls_id := ls_id lease; ls_owner := ls_owner lease; ls_expires := now' + d |})
| step_cancel : entry_step now now' id next e (CCancel id) Cancelled.

Lemma reclaim_get now b id :
  bt_get id (br_entries (reclaim now b)) = released (expired now) <$> bt_get id (br_entries b).
Proof. apply release_get. Qed.

Lemma reclaim_get_Some now b id e :
  bt_get id (br_entries b) = Some e →
  bt_get id (br_entries (reclaim now b)) = Some (released (expired now) e).
Proof. intros H. by rewrite reclaim_get, H. Qed.

(** A claim that outlived [reclaim] was there before and has not expired. *)
Lemma released_claimed p e q :
  claimed_by q (released p e) = true →
  released p e = e ∧ ∃ lease, en_state e = Claimed lease ∧ p lease = false ∧ q lease = true.
Proof.
  unfold released, claimed_by. destruct (en_state e) eqn:E; cbn; rewrite ?E; try done.
  destruct (p lease) eqn:Ep; cbn; [done|]. rewrite E. eauto.
Qed.

Lemma released_same_procedure p e : en_procedure (released p e) = en_procedure e.
Proof. unfold released. by case_match. Qed.

Definition same_item (e e' : Entry) : Prop :=
  en_request e' = en_request e ∧ en_procedure e' = en_procedure e.

Lemma entry_step_idle now now' id next e c :
  same_item e (released (expired now) e)
  ∧ entry_step now now' id next e c (en_state (released (expired now) e)).
Proof.
  split; [split; [apply released_request|apply released_same_procedure]|constructor].
Qed.

(** How an update of one entry shows up in a lookup. *)
Lemma update_entry_get f id id' (es : list (string * Entry)) e :
  bt_get id es = Some e →
  bt_get id (bt_update f id' es) = Some (if decide (id' = id) then f e else e).
Proof.
  intros He. rewrite bt_get_update, He. kcase id' id.
  - rewrite decide_True by done. done.
  - rewrite decide_False; [done|]. intros ->. by eapply klt_irrefl.
  - rewrite decide_False; [done|]. intros ->. by eapply klt_irrefl.
Qed.

(** The call changed entry [i] of the reclaimed table with [f]. *)
Lemma exec_entry_update now now' c b id e i f :
  bt_get id (br_entries b) = Some e →
  (i = id → same_item (released (expired now) e) (f (released (expired now) e))
     ∧ entry_step now now' id (br_next_lease b) e c (en_state (f (released (expired now) e)))) →
  ∃ e', bt_get id (bt_update f i (br_entries (reclaim now b))) = Some e'
    ∧ same_item e e' ∧ entry_step now now' id (br_next_lease b) e c (en_state e').
Proof.
  intros He Hf. pose proof (reclaim_get_Some now _ _ _ He) as Hr.
  rewrite (update_entry_get _ _ _ _ _ Hr).
  destruct (entry_step_idle now now' id (br_next_lease b) e c) as [[H1 H2] H3].
  eexists. split; [done|]. case_decide as E; [|done].
  destruct (Hf E) as [[H4 H5] ?]. split; [|done]. unfold same_item. by rewrite H4, H5.
Qed.

Lemma exec_entry now now' c b id e :
  bt_get id (br_entries b) = Some e →
  ∃ e', bt_get id (br_entries (exec now now' c b)) = Some e'
    ∧ same_item e e' ∧ entry_step now now' id (br_next_lease b) e c (en_state e').
Proof.
  intros He. pose proof (reclaim_get_Some now _ _ _ He) as Hr.
  pose proof (λ c, entry_step_idle now now' id (br_next_lease b) e c) as Hidle.
  destruct c as [s|r p|s|s i d|s i l d m|s i l d|i|i|s]; cbn [exec].
  - unfold register. unfold_op. repeat case_match; simplify_eq; simpl_broker; eauto.
  - unfold submit_in_procedure. unfold_op. repeat case_match; simplify_eq; simpl_broker;
      try by eauto.
    + unfold broadcast. simpl_broker. rewrite bt_get_insert_ne by congruence. eauto.
    + exists e. split_and!; [done|done|constructor].
  - unfold pending. unfold_op. repeat case_match; simplify_eq; simpl_broker; eauto.
  - unfold claim. unfold_op. repeat case_match; simplify_eq; simpl_broker; try by eauto.
    apply exec_entry_update; [done|]. intros ->. split; [done|]. cbn [en_state set_state].
    replace (br_next_lease (reclaim now b)) with (br_next_lease b)
      by (unfold reclaim; by rewrite release_next).
    bool_prop. simplify_eq. constructor; [done|naive_solver..].
  - unfold resolve. unfold_op. repeat case_match; simplify_eq; simpl_broker; try by eauto.
    apply exec_entry_update; [done|]. intros ->. split; [done|]. cbn [en_state set_state].
    simplify_eq.
    match goal with H : claimed_by _ _ = true |- _ =>
      apply released_claimed in H as (_ & lease & ? & ? & ?) end.
    by econstructor.
  - unfold renew. unfold_op. repeat case_match; simplify_eq; simpl_broker; try by eauto.
    apply exec_entry_update; [done|]. intros ->. simplify_eq. bool_prop.
    match goal with H : claimed_by _ _ = true |- _ =>
      apply released_claimed in H as (-> & lease & E & ? & ?) end.
    unfold extend. rewrite E. split; [done|]. econstructor; naive_solver.
  - unfold cancel. unfold_op. repeat case_match; simplify_eq; simpl_broker; try by eauto.
    apply exec_entry_update; [done|]. intros ->. split; [done|]. constructor.
  - unfold status. unfold_op. repeat case_match; simplify_eq; simpl_broker; eauto.
  - unfold disconnect. exists (released (owned s) e).
    rewrite release_get. simpl_broker. rewrite He. split; [done|].
    split; [split; [apply released_request|apply released_same_procedure]|constructor].
Qed.

Lemma run_nil b : run [] b = b.
Proof. done. Qed.

Lemma run_cons now now' c calls b :
  run ((now, now', c) :: calls) b = run calls (exec now now' c b).
Proof. done. Qed.

(** ** Properties *)
(** Whatever calls arrive, with whatever clock readings, the broker keeps
    its tables in order and bounded (4096 requests, 128 frontends), every
    entry is a validated request under its own id, every queue holds distinct
    known requests with [known] as its set, and every waiting request is in
    every registered frontend's queue: the eviction of [queue] never loses
    one. *)
Theorem broker_invariant (calls : list (Z * Z * call)) :
  broker_ok (run calls broker_default).
Proof. apply run_ok, default_ok. Qed.

(** What a frontend may claim at [now]. *)
Definition waiting (now : Z) (e : Entry) : bool :=
  match en_state e with
  | Pending => true
  | Claimed lease => expired now lease
  | _ => false
  end.

Lemma waiting_released now e : is_pending (released (expired now) e) = waiting now e.
Proof.
  unfold waiting, released, claimed_by, is_pending.
  destruct (en_state e) as [|lease| |] eqn:E; cbn; rewrite ?E; try done.
  destruct (expired now lease); cbn; rewrite ?E; done.
Qed.

Lemma pending_result now s b :
  broker_ok b → bt_contains s (br_frontends b) = true →
  ∃ f, bt_get s (br_frontends (reclaim now b)) = Some f
    ∧ (pending now s b).1 =
        Ok (en_request <$> omap (λ id, bt_get id (br_entries (reclaim now b)))
              (filter (λ id, is_some_and is_pending
                               (bt_get id (br_entries (reclaim now b))) = true)
                 (fe_queued f))).
Proof.
  intros Hb Hs. unfold pending. unfold_op.
  rewrite <- (release_contains (expired now)) in Hs.
  change (release (expired now) b) with (reclaim now b) in Hs. unfold bt_contains in Hs.
  destruct (bt_get s (br_frontends (reclaim now b))) as [f|]; [|done]. eauto.
Qed.

Lemma omap_request_elem (es : list (string * Entry)) (queued : list string) r :
  (∀ id e, bt_get id es = Some e → ar_id (en_request e) = id) →
  r ∈ en_request <$> omap (λ id, bt_get id es) queued ↔
    ∃ e, ar_id r ∈ queued ∧ bt_get (ar_id r) es = Some e ∧ en_request e = r.
Proof.
  intros Hkey. rewrite list_elem_of_fmap. setoid_rewrite list_elem_of_omap. split.
  - intros (e & -> & id & Hid & He). rewrite (Hkey _ _ He). eauto.
  - intros (e & Hin & He & <-). eauto.
Qed.

Lemma omap_request_nodup (es : list (string * Entry)) (queued : list string) :
  (∀ id e, bt_get id es = Some e → ar_id (en_request e) = id) →
  NoDup queued → NoDup (en_request <$> omap (λ id, bt_get id es) queued).
Proof.
  intros Hkey. induction 1 as [|id queued Hid Hd IH]; [constructor|]. cbn.
  destruct (bt_get id es) as [e|] eqn:E; [|done]. constructor; [|done].
  intros (e' & Hin & He' & Heq)%(omap_request_elem _ _ _ Hkey). by rewrite (Hkey _ _ E) in Hin.
Qed.

(** C8: What a registered frontend is offered is exactly the set of requests
    that wait at that time: each once, those whose lease ran out included,
    claimed, resolved and cancelled ones left out. *)
Theorem pending_exact (calls : list (Z * Z * call)) (now s : Z) :
  let b := run calls broker_default in
  bt_contains s (br_frontends b) = true →
  ∃ rs, (pending now s b).1 = Ok rs ∧ NoDup rs
    ∧ (∀ r, r ∈ rs ↔
         ∃ e, bt_get (ar_id r) (br_entries b) = Some e ∧ en_request e = r
              ∧ waiting now e = true).
Proof.
  intros b Hs. assert (broker_ok b) as Hb by apply run_ok, default_ok.
  destruct (pending_result now s b Hb Hs) as (f & Hf & ->). eexists. split; [done|].
  destruct (reclaim_ok now b Hb) as [Hwf Hlen Hent Hfwf Hflen Hfe Hnext].
  destruct (Hfe _ _ Hf) as [(Hd & _) Hc].
  pose proof (λ id e H, proj1 (Hent id e H)) as Hkey.
  split; [apply omap_request_nodup; [done|by apply NoDup_filter]|].
  intros r. rewrite omap_request_elem by done. split.
  - intros (e & [Hp _]%list_elem_of_filter & He & <-). rewrite He in Hp. cbn in Hp.
    rewrite reclaim_get in He. apply fmap_Some in He as (e0 & He0 & ->).
    rewrite waiting_released in Hp. rewrite released_request in *. eauto.
  - intros (e & He & <- & Hw). apply (reclaim_get_Some now) in He.
    rewrite <- waiting_released in Hw.
    exists (released (expired now) e). rewrite released_request. split_and!; try done.
    apply list_elem_of_filter. rewrite He. split; [done|]. by eapply Hc.
Qed.

Definition sample_request (id : string) : ApprovalRequest :=
  {| ar_id := id; ar_target := "host"; ar_secrets := ["db.password"]; ar_allow_partial := false |}.

Definition sample_calls : list (Z * Z * call) :=
  [(0, 0, CRegister 7); (1, 1, CSubmit (sample_request "a") None);
   (2, 2, CSubmit (sample_request "b") None); (3, 3, CClaim 7 "a" 100)].

Lemma pending_exact_witness :
  ∃ rs, (pending 50 7 (run sample_calls broker_default)).1 = Ok rs ∧ NoDup rs
    ∧ (∀ r, r ∈ rs ↔
         ∃ e, bt_get (ar_id r) (br_entries (run sample_calls broker_default)) = Some e
              ∧ en_request e = r ∧ waiting 50 e = true).
Proof. apply (pending_exact sample_calls 50 7). vm_compute. reflexivity. Defined.

(** ** Leases *)
(** Calls before [lease] expires that are neither its holder's own resolution
    or renewal, nor a cancellation, nor the holder's disconnect. *)
Definition leaves_lease (id : string) (lease : Lease) (k : Z * Z * call) : bool :=
  let '(now, _, c) := k in
  (now <? ls_expires lease) &&
  match c with
  | CCancel i => negb (bool_decide (i = id))
  | CDisconnect s => negb (ls_owner lease =? s)
  | CResolve s i l _ _ | CRenew s i l _ => negb (bool_decide (i = id) && holds s l lease)
  | _ => true
  end.

Lemma live_not_released now e lease :
  en_state e = Claimed lease → expired now lease = false →
  released (expired now) e = e.
Proof. intros E H. unfold released, claimed_by. by rewrite E, H. Qed.

Lemma leaves_lease_step id lease now now' c b e :
  leaves_lease id lease (now, now', c) = true →
  bt_get id (br_entries b) = Some e → en_state e = Claimed lease →
  ∃ e', bt_get id (br_entries (exec now now' c b)) = Some e'
    ∧ en_request e' = en_request e ∧ en_state e' = Claimed lease.
Proof.
  intros Hk He Es. destruct (exec_entry now now' c b id e He) as (e' & He' & [Hr _] & Hstep).
  exists e'. split_and!; [done..|]. cbn in Hk. apply andb_true_iff in Hk as [Hnow Hc].
  assert (expired now lease = false) as Hx by (unfold expired; bool_prop; done).
  pose proof (live_not_released _ _ _ Es Hx) as Hrel.
  set (st := en_state e') in *. clearbody st.
  destruct Hstep as [|?|s|s d Hp|s l d m lease' E' _ Hh|s l d lease' E' _ Hh|].
  - done.
  - by rewrite Hrel.
  - unfold released, claimed_by. rewrite Es. unfold owned.
    by destruct (ls_owner lease =? s).
  - rewrite Hrel in Hp. unfold is_pending in Hp. by rewrite Es in Hp.
  - assert (lease' = lease) as -> by congruence. by rewrite Hh, bool_decide_eq_true_2 in Hc.
  - assert (lease' = lease) as -> by congruence. by rewrite Hh, bool_decide_eq_true_2 in Hc.
  - by rewrite bool_decide_eq_true_2 in Hc.
Qed.

Lemma leaves_lease_run id lease calls b e :
  Forall (λ k, leaves_lease id lease k = true) calls →
  bt_get id (br_entries b) = Some e → en_state e = Claimed lease →
  ∃ e', bt_get id (br_entries (run calls b)) = Some e'
    ∧ en_request e' = en_request e ∧ en_state e' = Claimed lease.
Proof.
  intros Hall. revert b e. induction Hall as [|[[now now'] c] calls Hk Hall IH]; intros b e He Es.
  { eauto. }
  destruct (leaves_lease_step _ _ _ _ _ _ _ Hk He Es) as (e' & He' & Hr & Es').
  rewrite run_cons. destruct (IH _ _ He' Es') as (e'' & ? & ? & ?).
  exists e''. split_and!; [done|congruence|done].
Qed.

(** What a successful [claim] did. *)
Lemma claim_inv now now' s id d b c b' :
  claim now now' s id d b = (Ok c, b') →
  ∃ e, bt_get id (br_entries b) = Some e ∧ waiting now e = true
    ∧ 0 ≠ d ∧ d ≤ MAX_LEASE
    ∧ cl_lease_id c = br_next_lease b
    ∧ bt_get id (br_entries b') =
        Some (set_state (Claimed {| ls_id := cl_lease_id c; ls_owner := s;
                                    ls_expires := now' + d |}) e)
    ∧ br_next_lease b' = lease_after (br_next_lease b).
Proof.
  unfold claim. unfold_op. intros H. repeat case_match; simplify_eq; simpl_broker. bool_prop.
  match goal with H : bt_get id (br_entries (reclaim now b)) = Some _ |- _ => rename H into He end.
  pose proof He as He1. rewrite reclaim_get in He. apply fmap_Some in He as (e & He & ->).
  exists e. rewrite <- waiting_released.
  rewrite (update_entry_get _ _ _ _ _ He1), decide_True by done.
  replace (br_next_lease (reclaim now b)) with (br_next_lease b)
    by (unfold reclaim; by rewrite release_next).
  split_and!; try done; try naive_solver. cbn. unfold released, set_state. by case_match.
Qed.

Lemma claim_claimed now now' s id d b e lease :
  bt_get id (br_entries b) = Some e → en_state e = Claimed lease → now < ls_expires lease →
  is_ok (claim now now' s id d b).1 = false.
Proof.
  intros He Es Hx. destruct (claim now now' s id d b) as [[c|] b'] eqn:E; [|done].
  apply claim_inv in E as (e' & He' & Hw & _). simplify_eq.
  unfold waiting, expired in Hw. rewrite Es in Hw. bool_prop. lia.
Qed.

(** The exact condition under which [resolve] succeeds, and its effect. *)
Lemma resolve_inv now s id l d m b :
  is_ok (resolve now s id l d m b).1 = true ↔
    ∃ e lease, bt_get id (br_entries b) = Some e ∧ en_state e = Claimed lease
      ∧ now < ls_expires lease ∧ holds s l lease = true
      ∧ is_some_and (λ m, MAX_MESSAGE <? slen m) m = false.
Proof.
  unfold resolve. unfold_op. split.
  - intros H. repeat case_match; simplify_eq; try done.
    match goal with H : bt_get id (br_entries (reclaim now b)) = Some _ |- _ => rename H into He end.
    rewrite reclaim_get in He. apply fmap_Some in He as (e & He & ->).
    match goal with H : claimed_by _ _ = true |- _ =>
      apply released_claimed in H as (_ & lease & ? & Hx & ?) end.
    unfold expired in Hx. bool_prop. naive_solver.
  - intros (e & lease & He & Es & Hx & Hh & Hm). rewrite Hm. cbn.
    rewrite (reclaim_get_Some _ _ _ _ He), (live_not_released _ _ _ Es)
      by (unfold expired; by bool_prop).
    unfold claimed_by. by rewrite Es, Hh.
Qed.

(** A lease is exclusive until it runs out: after a successful [claim],
    through any calls that are not the holder's own, a cancellation or the
    holder's disconnect, nobody can claim the request again and nobody but
    the holder of that very lease can resolve it, before its deadline. *)
Theorem claim_exclusive now now' s id d b c b' calls :
  claim now now' s id d b = (Ok c, b') →
  let lease := {| ls_id := cl_lease_id c; ls_owner := s; ls_expires := now' + d |} in
  Forall (λ k, leaves_lease id lease k = true) calls →
  ∀ t, t < now' + d →
    (∀ t' s2 d2, is_ok (claim t t' s2 id d2 (run calls b')).1 = false)
    ∧ (∀ s2 l2 dec m, is_ok (resolve t s2 id l2 dec m (run calls b')).1 = true →
         s2 = s ∧ l2 = cl_lease_id c).
Proof.
  intros (e & _ & _ & _ & _ & _ & He & _)%claim_inv lease Hall t Ht.
  destruct (leaves_lease_run _ _ _ _ _ Hall He eq_refl) as (e' & He' & _ & Es').
  split.
  - intros. by eapply claim_claimed.
  - intros s2 l2 dec m (e2 & lease2 & ? & ? & _ & Hh & _)%resolve_inv.
    assert (lease2 = lease) as -> by congruence.
    unfold holds in Hh. bool_prop. cbn in Hh. lia.
Qed.

Definition claimed_sample : ApprovalBroker := (claim 3 3 7 "b" 100 (run sample_calls broker_default)).2.
Definition other_calls : list (Z * Z * call) :=
  [(10, 10, CRegister 8); (11, 11, CPending 8); (12, 12, CClaim 8 "b" 50);
   (13, 13, CResolve 8 "b" 2 Approved None); (14, 14, CDisconnect 8)].

Lemma claim_exclusive_witness :
  (∀ t' s2 d2, is_ok (claim 20 t' s2 "b" d2 (run other_calls claimed_sample)).1 = false)
  ∧ (∀ s2 l2 dec m,
       is_ok (resolve 20 s2 "b" l2 dec m (run other_calls claimed_sample)).1 = true →
       s2 = 7 ∧ l2 = 2).
Proof.
  apply (claim_exclusive 3 3 7 "b" 100 (run sample_calls broker_default)
           {| cl_lease_id := 2; cl_expires_in_ms := 0 |} claimed_sample other_calls).
  - vm_compute. reflexivity.
  - repeat constructor.
  - lia.
Defined.

(** [resolve] succeeds exactly for the session that holds the unexpired
    lease with that id, with a message of at most 64 KiB; it then records the
    decision and the message, and [status] reports them at any later time. *)
Theorem resolve_by_holder now s id l d m b :
  (is_ok (resolve now s id l d m b).1 = true ↔
    ∃ e lease, bt_get id (br_entries b) = Some e ∧ en_state e = Claimed lease
      ∧ now < ls_expires lease ∧ ls_owner lease = s ∧ ls_id lease = l
      ∧ is_some_and (λ m, MAX_MESSAGE <? slen m) m = false)
  ∧ (is_ok (resolve now s id l d m b).1 = true →
       ∀ t t', (status t t' id (resolve now s id l d m b).2).1 = Ok (StResolved d m)).
Proof.
  split.
  - rewrite resolve_inv. unfold holds.
    by setoid_rewrite andb_true_iff; setoid_rewrite Z.eqb_eq; setoid_rewrite <- (assoc and).
  - intros (e & lease & He & Es & Hx & Hh & Hm)%resolve_inv t t'.
    unfold status. unfold_op.
    assert (bt_get id (br_entries (resolve now s id l d m b).2)
            = Some (set_state (Resolved d m) e)) as Hget.
    { pose proof (reclaim_get_Some now _ _ _ He) as Hr.
      rewrite (live_not_released _ _ _ Es) in Hr by (unfold expired; by bool_prop).
      unfold resolve. unfold_op. rewrite Hm. cbn [negb]. rewrite Hr. cbn.
      unfold claimed_by. rewrite Es, Hh. simpl_broker.
      by rewrite (update_entry_get _ _ _ _ _ Hr), decide_True. }
    by rewrite (reclaim_get_Some _ _ _ _ Hget).
Qed.

Lemma resolve_by_holder_witness :
  is_ok (resolve 20 7 "b" 2 Approved (Some "done") claimed_sample).1 = true
  ∧ ∀ t t', (status t t' "b" (resolve 20 7 "b" 2 Approved (Some "done") claimed_sample).2).1
            = Ok (StResolved Approved (Some "done")).
Proof.
  split; [vm_compute; reflexivity|].
  apply (resolve_by_holder 20 7 "b" 2 Approved (Some "done") claimed_sample).
  vm_compute. reflexivity.
Defined.

(** A request that nobody waits for any more. *)
Definition settled (s : State) : bool :=
  match s with Resolved _ _ | Cancelled => true | _ => false end.

Lemma settled_step now now' c b id e :
  bt_get id (br_entries b) = Some e → settled (en_state e) = true → c ≠ CCancel id →
  ∃ e', bt_get id (br_entries (exec now now' c b)) = Some e'
    ∧ en_request e' = en_request e ∧ en_state e' = en_state e.
Proof.
  intros He Hs Hc. destruct (exec_entry now now' c b id e He) as (e' & He' & [Hr _] & Hstep).
  exists e'. split_and!; [done..|].
  assert (∀ p, released p e = e) as Hrel.
  { intros p. unfold released, claimed_by. by destruct (en_state e). }
  set (st := en_state e') in *. clearbody st.
  destruct Hstep as [|?|s|s d Hp|s l d m lease' E' _ Hh|s l d lease' E' _ Hh|];
    rewrite ?Hrel in *; try done;
    [unfold is_pending in Hp; by destruct (en_state e)|by rewrite E' in Hs..].
Qed.

(** A decision is final: once a request is resolved or cancelled, no
    sequence of calls other than a cancellation of that request changes its
    recorded outcome, and it is never offered or claimable again. *)
Theorem settled_final calls b id e :
  bt_get id (br_entries b) = Some e → settled (en_state e) = true →
  Forall (λ '(_, _, c), c ≠ CCancel id) calls →
  (∃ e', bt_get id (br_entries (run calls b)) = Some e' ∧ en_state e' = en_state e)
  ∧ ∀ now now' s d, is_ok (claim now now' s id d (run calls b)).1 = false.
Proof.
  intros He Hs Hall.
  assert (∃ e', bt_get id (br_entries (run calls b)) = Some e' ∧ en_state e' = en_state e)
    as (e' & He' & Es').
  { revert b e He Hs. induction Hall as [|[[now now'] c] calls Hc Hall IH]; intros b e He Hs.
    { eauto. }
    destruct (settled_step now now' c b id e He Hs Hc) as (e1 & He1 & _ & Es1).
    rewrite run_cons, <- Es1. apply IH; [done|by rewrite Es1]. }
  split; [eauto|]. intros now now' s d.
  destruct (claim now now' s id d (run calls b)) as [[c|] b'] eqn:E; [|done].
  apply claim_inv in E as (e2 & He2 & Hw & _). assert (e2 = e') as -> by congruence.
  rewrite <- Es' in Hs. unfold waiting in Hw. by destruct (en_state e').
Qed.

Lemma settled_final_witness :
  (∃ e', bt_get "b" (br_entries (run (other_calls ++ [(500, 500, CDisconnect 7)])
            (resolve 20 7 "b" 2 Rejected None claimed_sample).2)) = Some e'
         ∧ en_state e' = Resolved Rejected None)
  ∧ ∀ now now' s d, is_ok (claim now now' s "b" d
       (run (other_calls ++ [(500, 500, CDisconnect 7)])
            (resolve 20 7 "b" 2 Rejected None claimed_sample).2)).1 = false.
Proof.
  apply (settled_final (other_calls ++ [(500, 500, CDisconnect 7)])
    (resolve 20 7 "b" 2 Rejected None claimed_sample).2 "b"
    {| en_request := sample_request "b"; en_state := Resolved Rejected None;
       en_procedure := None |}).
  - vm_compute. reflexivity.
  - reflexivity.
  - repeat constructor; done.
Defined.

(** When a frontend disconnects it is forgotten, each request it held
    waits again and is offered to every frontend that is left, and every
    other request keeps its state. *)
Theorem disconnect_releases calls s :
  let b := run calls broker_default in
  let b' := disconnect s b in
  bt_contains s (br_frontends b') = false
  ∧ (∀ id e, bt_get id (br_entries b) = Some e →
       ∃ e', bt_get id (br_entries b') = Some e' ∧ en_request e' = en_request e
         ∧ en_state e' = if claimed_by (owned s) e then Pending else en_state e)
  ∧ (∀ id e s2 f, bt_get id (br_entries b) = Some e → claimed_by (owned s) e = true →
       bt_get s2 (br_frontends b') = Some f → id ∈ fe_queued f).
Proof.
  intros b b'. assert (broker_ok b') as Hb' by apply disconnect_ok, run_ok, default_ok.
  assert (∀ id, bt_get id (br_entries b') = released (owned s) <$> bt_get id (br_entries b))
    as Hget by (intros; subst b'; unfold disconnect; by rewrite release_get).
  split_and!.
  - subst b'. unfold disconnect. rewrite release_contains. unfold bt_contains. simpl_broker.
    by rewrite bt_get_remove_eq.
  - intros id e He. rewrite Hget, He. eexists. split; [done|].
    unfold released. by destruct (claimed_by (owned s) e).
  - intros id e s2 f He Hc Hf. destruct (ok_frontends _ Hb' _ _ Hf) as [_ Hcov].
    eapply Hcov; [by rewrite Hget, He|]. unfold released. by rewrite Hc.
Qed.

Lemma run_entry calls b id e :
  bt_get id (br_entries b) = Some e →
  ∃ e', bt_get id (br_entries (run calls b)) = Some e' ∧ en_request e' = en_request e.
Proof.
  revert b e. induction calls as [|[[now now'] c] calls IH]; intros b e He; [eauto|].
  destruct (exec_entry now now' c b id e He) as (e1 & He1 & [Hr1 _] & _).
  rewrite run_cons. destruct (IH _ _ He1) as (e2 & He2 & Hr2). exists e2. split; congruence.
Qed.

(** Submission is idempotent, for ever: once a request is in the table,
    whatever happens since, submitting the same request again reports its
    current status and creates nothing, and submitting another request under
    its id is refused. *)
Theorem submit_idempotent calls b id e now now' r p :
  bt_get id (br_entries b) = Some e → ar_id r = id → request_validate r = Ok tt →
  let b' := run calls b in
  submit_in_procedure now now' r p b' =
    (if bool_decide (r = en_request e) then (status now now' id b').1
     else Err (Invalid "request id collision"),
     reclaim now b').
Proof.
  intros He Hid Hv b'. destruct (run_entry calls b id e He) as (e' & He' & Hr').
  apply (reclaim_get_Some now) in He'. fold b' in He'.
  unfold submit_in_procedure, status. unfold_op. rewrite Hv, Hid, He'.
  rewrite released_request, Hr'.
  destruct (decide (r = en_request e)) as [->|Hne].
  - by rewrite !bool_decide_eq_true_2.
  - by rewrite !bool_decide_eq_false_2.
Qed.

Lemma submit_idempotent_witness :
  submit_in_procedure 30 30 (sample_request "b") None (run other_calls claimed_sample) =
    (Ok (StClaimed 2 0), reclaim 30 (run other_calls claimed_sample)).
Proof.
  rewrite (submit_idempotent other_calls claimed_sample "b"
    {| en_request := sample_request "b";
       en_state := Claimed {| ls_id := 2; ls_owner := 7; ls_expires := 103 |};
       en_procedure := None |}).
  - vm_compute. reflexivity.
  - vm_compute. reflexivity.
  - reflexivity.
  - vm_compute. reflexivity.
Defined.

Lemma exec_next_lease now now' c b :
  br_next_lease (exec now now' c b) = br_next_lease b
  ∨ br_next_lease (exec now now' c b) = lease_after (br_next_lease b).
Proof.
  assert (br_next_lease (reclaim now b) = br_next_lease b) as Hr by apply release_next.
  destruct c; cbn [exec]; [| | | | | | | |left; unfold disconnect; by rewrite release_next];
    unfold register, submit_in_procedure, pending, claim, resolve, renew, cancel, status, broadcast;
    unfold_op; repeat case_match; simplify_eq; simpl_broker; rewrite ?Hr; auto.
Qed.

(** Lease ids fence stale holders: unless the 64-bit counter wraps, an id
    given by a claim differs from every id given before it, so a lease that
    expired and was claimed again cannot be confused with the old one. *)
Theorem lease_ids_fresh now now' s id d b c b' calls t t' s2 id2 d2 c2 b'' :
  claim now now' s id d b = (Ok c, b') →
  1 ≤ br_next_lease b → br_next_lease b + zlen calls + 1 ≤ u64_max →
  claim t t' s2 id2 d2 (run calls b') = (Ok c2, b'') →
  cl_lease_id c < cl_lease_id c2.
Proof.
  intros (e & _ & _ & _ & _ & Hc & _ & Hn)%claim_inv Hge Hmax
    (e2 & _ & _ & _ & _ & Hc2 & _)%claim_inv.
  rewrite Hc, Hc2.
  assert (br_next_lease b' = br_next_lease b + 1) as Hb'.
  { rewrite Hn. unfold lease_after. pose proof (zlen_nonneg calls). case_match; bool_prop; lia. }
  enough (br_next_lease b' ≤ br_next_lease (run calls b')) by lia.
  assert (br_next_lease b' + zlen calls ≤ u64_max) as Hm by lia. clear -Hm.
  revert b' Hm. induction calls as [|[[n n'] k] calls IH]; intros b' Hm; [done|].
  rewrite zlen_cons in Hm. rewrite run_cons. pose proof (zlen_nonneg calls).
  destruct (exec_next_lease n n' k b') as [E|E].
  - specialize (IH (exec n n' k b')). rewrite E in IH. lia.
  - specialize (IH (exec n n' k b')). rewrite E in IH. unfold lease_after in IH.
    case_match; bool_prop; lia.
Qed.

Lemma lease_ids_fresh_witness : 2 < 3.
Proof.
  apply (lease_ids_fresh 3 3 7 "b" 100 (run sample_calls broker_default)
    {| cl_lease_id := 2; cl_expires_in_ms := 0 |} claimed_sample [(500, 500, CDisconnect 9)]
    600 600 7 "a" 1 {| cl_lease_id := 3; cl_expires_in_ms := 0 |}
    (claim 600 600 7 "a" 1 (run [(500, 500, CDisconnect 9)] claimed_sample)).2).
  - vm_compute. reflexivity.
  - vm_compute. discriminate.
  - vm_compute. discriminate.
  - vm_compute. reflexivity.
Defined.

Lemma bt_len_same_keys `{OrdKey K} {V} (m m' : list (K * V)) :
  bt_wf m → (∀ k, k ∈ bt_keys m → k ∈ bt_keys m') → zlen m ≤ zlen m'.
Proof.
  intros Hwf Hk. apply bt_wf_nodup in Hwf.
  apply NoDup_submseteq, submseteq_length in Hk; [|done].
  unfold bt_keys, zlen in *. rewrite !length_fmap in Hk. lia.
Qed.

(** Requests are never dropped from the table.  After 4096 distinct
    requests, whatever calls follow (cancellations and resolutions of all of
    them included), every new request is refused as [Full]. *)
Theorem broker_saturates calls later now now' r p :
  let b := run calls broker_default in
  let b' := run later b in
  zlen (br_entries b) = MAX_REQUESTS → request_validate r = Ok tt →
  bt_get (ar_id r) (br_entries b') = None →
  (submit_in_procedure now now' r p b').1 = Err Full.
Proof.
  intros b b' Hfull Hv Hnew.
  assert (broker_ok b) as Hb by apply run_ok, default_ok.
  assert (zlen (br_entries b) ≤ zlen (br_entries b')) as Hle.
  { apply bt_len_same_keys; [apply Hb|]. intros k. rewrite <- !bt_get_Some_keys.
    intros [e He]. destruct (run_entry later b k e He) as (e' & ? & _). by exists e'. }
  unfold submit_in_procedure. unfold_op.
  rewrite Hv, reclaim_get, Hnew. cbn [fmap option_fmap option_map].
  assert (zlen (br_entries (reclaim now b')) = zlen (br_entries b')) as E
    by (unfold reclaim; by rewrite release_entries, bt_len_map).
  rewrite E, (proj2 (Z.ltb_ge _ _)) by lia. done.
Qed.

(** Fresh submissions, one entry each. *)
Lemma submit_fresh now now' r b :
  request_validate r = Ok tt → ar_id r ∉ bt_keys (br_entries b) →
  zlen (br_entries b) < MAX_REQUESTS →
  let b' := exec now now' (CSubmit r None) b in
  zlen (br_entries b') = 1 + zlen (br_entries b)
  ∧ ∀ id, id ∈ bt_keys (br_entries b') ↔ id = ar_id r ∨ id ∈ bt_keys (br_entries b).
Proof.
  intros Hv Hnew%bt_get_None_keys Hlen. cbn [exec]. unfold submit_in_procedure. unfold_op.
  rewrite Hv, reclaim_get, Hnew. cbn [fmap option_fmap option_map].
  assert (br_entries (reclaim now b) = bt_map (λ _ e, released (expired now) e) (br_entries b))
    as E by apply release_entries.
  rewrite E, bt_len_map, (proj2 (Z.ltb_lt _ _)) by done. unfold broadcast. simpl_broker.
  rewrite bt_len_insert_new, bt_len_map by by rewrite bt_get_map, Hnew.
  split; [done|]. intros id. by rewrite bt_keys_insert, bt_keys_map.
Qed.

Definition submit_all (rs : list ApprovalRequest) : list (Z * Z * call) :=
  (λ r, (0, 0, CSubmit r None)) <$> rs.

Lemma submit_all_fresh rs b :
  Forall (λ r, request_validate r = Ok tt) rs → NoDup (ar_id <$> rs) →
  (∀ r, r ∈ rs → ar_id r ∉ bt_keys (br_entries b)) →
  zlen (br_entries b) + zlen rs ≤ MAX_REQUESTS →
  zlen (br_entries (run (submit_all rs) b)) = zlen (br_entries b) + zlen rs
  ∧ ∀ id, id ∈ bt_keys (br_entries (run (submit_all rs) b)) →
      id ∈ ar_id <$> rs ∨ id ∈ bt_keys (br_entries b).
Proof.
  intros Hv. revert b. induction Hv as [|r rs Hr Hv IH]; intros b Hd Hnew Hlen.
  { split; [cbn; unfold zlen; cbn; lia|]. intros id ?. by right. }
  rewrite zlen_cons in *. cbn in Hd. apply NoDup_cons in Hd as [Hnin Hd].
  pose proof (zlen_nonneg rs).
  destruct (submit_fresh 0 0 r b) as [Heq Hk]; [done|apply Hnew; set_solver|lia|].
  change (submit_all (r :: rs)) with ((0, 0, CSubmit r None) :: submit_all rs).
  rewrite run_cons. destruct (IH (exec 0 0 (CSubmit r None) b) Hd) as [H1 H2]; [|lia|].
  { intros r' Hr'. rewrite Hk. intros [E|Hin]; [|eapply Hnew; [|done]; set_solver].
    apply Hnin. rewrite <- E. by apply list_elem_of_fmap_2. }
  split; [lia|]. intros id Hid. apply H2 in Hid as [?|Hid]; [left; set_solver|].
  apply Hk in Hid as [->|?]; [left; set_solver|by right].
Qed.

Definition many_requests : list ApprovalRequest :=
  (λ i, sample_request ("r" +:+ dec (Z.of_nat i))) <$> seq 0 4096.

Lemma many_requests_valid : Forall (λ r, request_validate r = Ok tt) many_requests.
Proof.
  assert (forallb (λ r, is_ok (request_validate r)) many_requests = true) as H
    by (vm_compute; reflexivity).
  apply forallb_Forall in H. eapply Forall_impl; [exact H|].
  intros r. cbn. by destruct (request_validate r) as [[]|].
Qed.

Lemma many_requests_submitted :
  zlen (br_entries (run (submit_all many_requests) broker_default)) = MAX_REQUESTS
  ∧ "new" ∉ bt_keys (br_entries (run (submit_all many_requests) broker_default)).
Proof.
  destruct (submit_all_fresh many_requests broker_default) as [H1 H2].
  - apply many_requests_valid.
  - unfold many_requests. rewrite <- list_fmap_compose.
    apply NoDup_fmap_2_strong; [|apply NoDup_seq].
    intros i j _ _ E. cbn in E. rewrite !scons_app in E. injection E as E.
    apply dec_inj in E; lia.
  - intros r _. cbn. apply not_elem_of_nil.
  - vm_compute. discriminate.
  - split; [rewrite H1; vm_compute; reflexivity|].
    intros [(r & Er & Hr)%list_elem_of_fmap|Hn%elem_of_nil]%H2; [|done].
    apply list_elem_of_fmap in Hr as (i & -> & _). cbn in Er. by rewrite scons_app in Er.
Qed.

Lemma broker_saturates_witness :
  (submit_in_procedure 9 9 (sample_request "new") None
     (run [] (run (submit_all many_requests) broker_default))).1 = Err Full.
Proof.
  apply (broker_saturates (submit_all many_requests) [] 9 9 (sample_request "new") None).
  - apply many_requests_submitted.
  - vm_compute. reflexivity.
  - rewrite run_nil. apply (proj2 (bt_get_None_keys "new" _)). apply many_requests_submitted.
Defined.
