(* ===== verification/Feed.v ===== *)
(** * The feed of changes, and the view it keeps current

    [crates/core/src/backend/feed.rs], the connection that serves a
    subscription ([backend.rs]) and the listener of the TUI
    ([crates/manager/src/controller/background.rs]).  A bounded channel of
    std is its queue and whether its receiver lives; a subscriber is numbered
    by the order of subscription. *)
From stdpp Require Import sets.
From S2P Require Import Prelude Broker.
#[local] Open Scope Z_scope.

Inductive BackendEvent :=
| SecretChanged (path : string) (set : bool)
| PublicInfoChanged (shared_id : string) (set : bool)
| ApprovalRequested (request : ApprovalRequest)
| ProfilesChanged.

(** ** The feed *)
Definition FEED_CAPACITY : Z := 64.

Record Channel := { ch_queue : list BackendEvent; ch_open : bool }.
Record Feed := { fd_channels : list Channel; fd_senders : list nat }.
Definition feed_default : Feed := {| fd_channels := []; fd_senders := [] |}.

Definition subscribe (f : Feed) : nat * Feed :=
  let id := length (fd_channels f) in
  (id, {| fd_channels := fd_channels f ++ [{| ch_queue := []; ch_open := true |}];
          fd_senders := fd_senders f ++ [id] |}).

(** [SyncSender::try_send]: fails when the queue is full or the receiver is gone. *)
Definition try_send (event : BackendEvent) (id : nat) (channels : list Channel) : option (list Channel) :=
  ch ← channels !! id;
  if ch_open ch && (zlen (ch_queue ch) <? FEED_CAPACITY)
  then Some (<[id := {| ch_queue := ch_queue ch ++ [event]; ch_open := true |}]> channels)
  else None.

(** [retain] with a send: a subscriber that cannot take the event is dropped. *)
Definition send_retained (event : BackendEvent) (f : Feed) (id : nat) : Feed :=
  match try_send event id (fd_channels f) with
  | Some channels => {| fd_channels := channels; fd_senders := fd_senders f ++ [id] |}
  | None => f
  end.
Definition publish (event : BackendEvent) (f : Feed) : Feed :=
  foldl (send_retained event) {| fd_channels := fd_channels f; fd_senders := [] |} (fd_senders f).

(** [recv_timeout]: what it returns with nothing in the queue depends on
    whether a sender is left. *)
Inductive Received := Update (event : BackendEvent) | Timeout | Disconnected.
Definition receive (id : nat) (f : Feed) : Received * Feed :=
  match fd_channels f !! id with
  | Some {| ch_queue := event :: queue; ch_open := open |} =>
      (Update event, {| fd_channels := <[id := {| ch_queue := queue; ch_open := open |}]> (fd_channels f);
                        fd_senders := fd_senders f |})
  | _ => (if bool_decide (id ∈ fd_senders f) then Timeout else Disconnected, f)
  end.

(** The connection ends and its receiver is dropped. *)
Definition drop_receiver (id : nat) (f : Feed) : Feed :=
  {| fd_channels := alter (λ ch, {| ch_queue := ch_queue ch; ch_open := false |}) id (fd_channels f);
     fd_senders := fd_senders f |}.

(** One turn of the loop that serves a subscription: the frame it writes, or
    the end of the connection. *)
Inductive ChangeFrame := Change (update : BackendEvent) | Heartbeat.
Definition serve_change (id : nat) (f : Feed) : option ChangeFrame * Feed :=
  match receive id f with
  | (Update update, f) => (Some (Change update), f)
  | (Timeout, f) => (Some Heartbeat, f)
  | (Disconnected, f) => (None, drop_receiver id f)
  end.

(** ** Runs of the feed *)
Inductive FeedOp := FSubscribe | FPublish (event : BackendEvent) | FReceive (id : nat) | FDrop (id : nat).

(** The feed with, per subscriber, what was published since it subscribed and
    what it has received. *)
Record Run := { rn_feed : Feed; rn_since : list (list BackendEvent); rn_got : list (list BackendEvent) }.
Definition feed_step (r : Run) (op : FeedOp) : Run :=
  match op with
  | FSubscribe => {| rn_feed := (subscribe (rn_feed r)).2; rn_since := rn_since r ++ [[]]; rn_got := rn_got r ++ [[]] |}
  | FPublish event =>
      {| rn_feed := publish event (rn_feed r); rn_since := (λ l, l ++ [event]) <$> rn_since r; rn_got := rn_got r |}
  | FReceive id =>
      let '(received, f) := receive id (rn_feed r) in
      {| rn_feed := f; rn_since := rn_since r;
         rn_got := match received with Update event => alter (λ l, l ++ [event]) id (rn_got r) | _ => rn_got r end |}
  | FDrop id => {| rn_feed := drop_receiver id (rn_feed r); rn_since := rn_since r; rn_got := rn_got r |}
  end.
Definition feed_run (ops : list FeedOp) : Run :=
  foldl feed_step {| rn_feed := feed_default; rn_since := []; rn_got := [] |} ops.

(** ** The listener of the TUI *)
Section Listener.
(** What the backend lists, and the rows the TUI makes of secrets and public
    information. *)
Context {Secrets Public Profiles Rows : Type} (rows_of : Secrets → Public → Rows).

Record Holdings := { so_secrets : Secrets; so_public : Public; so_profiles : Profiles }.

(** Where [listen] is: [refresh] lists the secrets, then the public
    information; the first refresh is followed by the profiles. *)
Inductive Listening :=
| LSubscribe
| LSecrets (first : bool)
| LPublic (first : bool) (secrets : Secrets)
| LProfiles
| LWait
| LEnded.

Record World := {
  wd_stored : Holdings;
  (** Changes that were stored and are not published yet. *)
  wd_unpublished : list BackendEvent;
  wd_feed : Feed;
  (** The listener's subscription, and what is on the way from it. *)
  wd_id : option nat;
  wd_wire : list BackendEvent;
  wd_phase : Listening;
  (** The last rows and profiles sent to the TUI. *)
  wd_rows : option Rows;
  wd_profiles : option Profiles
}.

Definition changes_rows (event : BackendEvent) : bool :=
  match event with SecretChanged _ _ | PublicInfoChanged _ _ => true | _ => false end.
Definition changes_profiles_list (event : BackendEvent) : bool :=
  match event with ProfilesChanged => true | _ => false end.

(** What [listen] does with an event. *)
Definition on_event (event : BackendEvent) : Listening :=
  match event with
  | ApprovalRequested _ => LWait
  | SecretChanged _ _ | PublicInfoChanged _ _ => LSecrets false
  | ProfilesChanged => LProfiles
  end.

Definition with_feed (f : Feed) (w : World) : World :=
  {| wd_stored := wd_stored w; wd_unpublished := wd_unpublished w; wd_feed := f; wd_id := wd_id w;
     wd_wire := wd_wire w; wd_phase := wd_phase w; wd_rows := wd_rows w; wd_profiles := wd_profiles w |}.
Definition with_phase (phase : Listening) (w : World) : World :=
  {| wd_stored := wd_stored w; wd_unpublished := wd_unpublished w; wd_feed := wd_feed w; wd_id := wd_id w;
     wd_wire := wd_wire w; wd_phase := phase; wd_rows := wd_rows w; wd_profiles := wd_profiles w |}.

(** A stored change and its event: which of the lists may differ. *)
Definition announces (event : BackendEvent) (before after : Holdings) : Prop :=
  match event with
  | SecretChanged _ _ => so_public after = so_public before ∧ so_profiles after = so_profiles before
  | PublicInfoChanged _ _ => so_secrets after = so_secrets before ∧ so_profiles after = so_profiles before
  | ProfilesChanged => so_secrets after = so_secrets before ∧ so_public after = so_public before
  | ApprovalRequested _ => after = before
  end.

(** What goes on without further changes: a backend thread publishes a change
    it stored, the connection of the subscription passes an event on or ends,
    the listener takes a step. *)
Inductive calm_step : World → World → Prop :=
| WPublish event l1 l2 w :
    wd_unpublished w = l1 ++ event :: l2 →
    calm_step w {| wd_stored := wd_stored w; wd_unpublished := l1 ++ l2; wd_feed := publish event (wd_feed w);
                   wd_id := wd_id w; wd_wire := wd_wire w; wd_phase := wd_phase w; wd_rows := wd_rows w;
                   wd_profiles := wd_profiles w |}
| WForward id event f w :
    wd_id w = Some id → serve_change id (wd_feed w) = (Some (Change event), f) →
    calm_step w {| wd_stored := wd_stored w; wd_unpublished := wd_unpublished w; wd_feed := f; wd_id := wd_id w;
                   wd_wire := wd_wire w ++ [event]; wd_phase := wd_phase w; wd_rows := wd_rows w;
                   wd_profiles := wd_profiles w |}
| WSubscribe w :
    wd_phase w = LSubscribe →
    calm_step w {| wd_stored := wd_stored w; wd_unpublished := wd_unpublished w;
                   wd_feed := (subscribe (wd_feed w)).2; wd_id := Some (subscribe (wd_feed w)).1; wd_wire := [];
                   wd_phase := LSecrets true; wd_rows := None; wd_profiles := None |}
| WListSecrets first w :
    wd_phase w = LSecrets first → calm_step w (with_phase (LPublic first (so_secrets (wd_stored w))) w)
| WListPublic first secrets w :
    wd_phase w = LPublic first secrets →
    calm_step w {| wd_stored := wd_stored w; wd_unpublished := wd_unpublished w; wd_feed := wd_feed w;
                   wd_id := wd_id w; wd_wire := wd_wire w; wd_phase := if first then LProfiles else LWait;
                   wd_rows := Some (rows_of secrets (so_public (wd_stored w)));
                   wd_profiles := wd_profiles w |}
| WListProfiles w :
    wd_phase w = LProfiles →
    calm_step w {| wd_stored := wd_stored w; wd_unpublished := wd_unpublished w; wd_feed := wd_feed w;
                   wd_id := wd_id w; wd_wire := wd_wire w; wd_phase := LWait; wd_rows := wd_rows w;
                   wd_profiles := Some (so_profiles (wd_stored w)) |}
| WHandle event rest w :
    wd_phase w = LWait → wd_wire w = event :: rest →
    calm_step w {| wd_stored := wd_stored w; wd_unpublished := wd_unpublished w; wd_feed := wd_feed w;
                   wd_id := wd_id w; wd_wire := rest; wd_phase := on_event event; wd_rows := wd_rows w;
                   wd_profiles := wd_profiles w |}
| WEnd id w :
    wd_phase w = LWait → wd_wire w = [] → wd_id w = Some id → (serve_change id (wd_feed w)).1 = None →
    calm_step w (with_phase LEnded w).

(** Besides, changes are stored, other subscribers come, receive and go, and
    the listener's connection may break at any time. *)
Inductive world_step : World → World → Prop :=
| WCalm w w' : calm_step w w' → world_step w w'
| WStore event after w :
    announces event (wd_stored w) after →
    world_step w {| wd_stored := after; wd_unpublished := wd_unpublished w ++ [event]; wd_feed := wd_feed w;
                    wd_id := wd_id w; wd_wire := wd_wire w; wd_phase := wd_phase w; wd_rows := wd_rows w;
                    wd_profiles := wd_profiles w |}
| WOtherSubscribes w : world_step w (with_feed (subscribe (wd_feed w)).2 w)
| WOtherReceives id w : wd_id w ≠ Some id → world_step w (with_feed (receive id (wd_feed w)).2 w)
| WOtherLeaves id w : wd_id w ≠ Some id → world_step w (with_feed (drop_receiver id (wd_feed w)) w)
| WBreak w : world_step w (with_phase LEnded w).

(** A backend with a store and subscribers, and a listener about to subscribe. *)
Definition world_start (stored : Holdings) (unpublished : list BackendEvent) (f : Feed) : World :=
  {| wd_stored := stored; wd_unpublished := unpublished; wd_feed := f; wd_id := None; wd_wire := [];
     wd_phase := LSubscribe; wd_rows := None; wd_profiles := None |}.
End Listener.

(** * Subscribers miss nothing, and the view follows the store

    A subscriber receives every event published since it subscribed, in order,
    or is dropped and told so; and a listener that has nothing left to do shows
    what the store holds. *)
(** ** The feed *)
Record feed_ok (f : Feed) : Prop := {
  fo_nodup : NoDup (fd_senders f);
  fo_known : ∀ id, id ∈ fd_senders f → (id < length (fd_channels f))%nat
}.

(** What [publish] does to one subscriber. *)
Definition fits (channels : list Channel) (id : nat) : bool :=
  match channels !! id with
  | Some ch => ch_open ch && (zlen (ch_queue ch) <? FEED_CAPACITY)
  | None => false
  end.
Definition sent (event : BackendEvent) (ch : Channel) : Channel :=
  {| ch_queue := ch_queue ch ++ [event]; ch_open := ch_open ch |}.

Lemma try_send_fits event id channels :
  try_send event id channels = if fits channels id then Some (alter (sent event) id channels) else None.
Proof.
  unfold try_send, fits. destruct (channels !! id) as [ch|] eqn:E; [|done]. cbn.
  destruct (ch_open ch && _) eqn:Eb; [|done]. bool_prop. destruct Eb as [Ho _]. f_equal.
  apply list_eq. intros j. destruct (decide (j = id)) as [->|Hne].
  - rewrite list_lookup_alter_eq, E, list_lookup_insert_eq by (by eapply lookup_lt_Some).
    cbn. unfold sent. by rewrite Ho.
  - by rewrite list_lookup_alter_ne, list_lookup_insert_ne by done.
Qed.

Lemma fits_alter event channels id j : j ≠ id → fits (alter (sent event) id channels) j = fits channels j.
Proof. intros. unfold fits. by rewrite list_lookup_alter_ne. Qed.

Lemma publish_fold event todo acc :
  NoDup todo →
  let f := foldl (send_retained event) acc todo in
  (∀ id, fd_channels f !! id
     = (if bool_decide (id ∈ todo) && fits (fd_channels acc) id then sent event else λ ch, ch) <$> fd_channels acc !! id)
  ∧ fd_senders f = fd_senders acc ++ List.filter (fits (fd_channels acc)) todo
  ∧ length (fd_channels f) = length (fd_channels acc).
Proof.
  revert acc. induction todo as [|k todo IH]; intros acc Hnd; cbn [foldl].
  { split_and!; [intros id; by destruct (fd_channels acc !! id)|by rewrite app_nil_r|done]. }
  apply NoDup_cons in Hnd as [Hk Hnd]. unfold send_retained at 2 4 6. rewrite try_send_fits.
  destruct (fits (fd_channels acc) k) eqn:Ef.
  - destruct (IH {| fd_channels := alter (sent event) k (fd_channels acc); fd_senders := fd_senders acc ++ [k] |} Hnd)
      as (H1 & H2 & H3). cbn [fd_channels fd_senders] in H1, H2, H3. cbn [List.filter]. rewrite Ef. split_and!.
    + intros id. rewrite H1. destruct (decide (id = k)) as [->|Hne].
      * rewrite (bool_decide_eq_true_2 (k ∈ k :: todo)) by (by left). rewrite (bool_decide_eq_false_2 (k ∈ todo)) by done.
        rewrite Ef. cbn. rewrite list_lookup_alter_eq. by destruct (_ !! k).
      * rewrite fits_alter, list_lookup_alter_ne by done.
        by rewrite (bool_decide_ext (id ∈ k :: todo) (id ∈ todo)) by set_solver.
    + rewrite H2, <- app_assoc. cbn [app]. do 2 f_equal. apply filter_ext_in. intros j Hj.
      apply fits_alter. apply list_elem_of_In in Hj. by intros ->.
    + by rewrite H3, length_alter.
  - destruct (IH acc Hnd) as (H1 & H2 & H3). cbn [List.filter]. rewrite Ef.
    split_and!; [|done..]. intros id. rewrite H1. destruct (decide (id = k)) as [->|Hne].
    + by rewrite Ef, !andb_false_r.
    + by rewrite (bool_decide_ext (id ∈ k :: todo) (id ∈ todo)) by set_solver.
Qed.

Lemma feed_publish_spec event f :
  feed_ok f →
  (∀ id, fd_channels (publish event f) !! id
     = (if bool_decide (id ∈ fd_senders f) && fits (fd_channels f) id then sent event else λ ch, ch) <$> fd_channels f !! id)
  ∧ fd_senders (publish event f) = List.filter (fits (fd_channels f)) (fd_senders f)
  ∧ length (fd_channels (publish event f)) = length (fd_channels f).
Proof. intros [Hnd _]. apply (publish_fold event (fd_senders f) {| fd_channels := fd_channels f; fd_senders := [] |} Hnd). Qed.

Lemma fits_spec channels id ch :
  channels !! id = Some ch → fits channels id = true ↔ ch_open ch = true ∧ zlen (ch_queue ch) < FEED_CAPACITY.
Proof. intros H. unfold fits. rewrite H, andb_true_iff, Z.ltb_lt. done. Qed.

Lemma publish_ok event f : feed_ok f → feed_ok (publish event f).
Proof.
  intros H. destruct (feed_publish_spec event f H) as (_ & Hs & Hl). destruct H as [Hnd Hk]. split.
  - rewrite Hs. clear Hs. induction (fd_senders f) as [|k l IH]; [constructor|]. apply NoDup_cons in Hnd as [Hn Hnd].
    cbn [List.filter]. assert (∀ id, id ∈ l → (id < length (fd_channels f))%nat) by (intros; apply Hk; by right).
    destruct (fits _ k); [|by apply IH]. apply NoDup_cons. split; [|by apply IH].
    intros Hin. apply list_elem_of_In, filter_In, proj1, list_elem_of_In in Hin. done.
  - intros id. rewrite Hs, Hl. intros Hin. apply list_elem_of_In, filter_In, proj1, list_elem_of_In in Hin. by apply Hk.
Qed.
Lemma subscribe_ok f : feed_ok f → feed_ok (subscribe f).2.
Proof.
  intros [Hnd Hk]. split; cbn.
  - apply NoDup_app. split_and!; [done| |apply NoDup_singleton].
    intros id Hin Hid. apply list_elem_of_singleton in Hid as ->. apply Hk in Hin. lia.
  - intros id. rewrite elem_of_app, list_elem_of_singleton, length_app. cbn. intros [Hin| ->]; [|lia].
    apply Hk in Hin. lia.
Qed.
Lemma receive_senders id f : fd_senders (receive id f).2 = fd_senders f.
Proof. unfold receive. by destruct (fd_channels f !! id) as [[[] ]|]. Qed.
Lemma receive_ok id f : feed_ok f → feed_ok (receive id f).2.
Proof.
  intros [Hnd Hk]. split; rewrite receive_senders; [done|]. intros j Hj. apply Hk in Hj.
  unfold receive. destruct (fd_channels f !! id) as [[[] ]|]; cbn; by rewrite ?length_insert.
Qed.
Lemma drop_ok id f : feed_ok f → feed_ok (drop_receiver id f).
Proof. intros [Hnd Hk]. split; cbn; [done|]. intros j Hj. rewrite length_alter. by apply Hk. Qed.

(** ** No gaps *)
Definition subscriber_ok (f : Feed) (id : nat) (ch : Channel) (since got : list BackendEvent) : Prop :=
  ∃ lost, since = got ++ ch_queue ch ++ lost
    ∧ (id ∈ fd_senders f → lost = [])
    ∧ zlen (ch_queue ch) <= FEED_CAPACITY
    ∧ (id ∉ fd_senders f → ch_open ch = false ∨ FEED_CAPACITY <= zlen (got ++ ch_queue ch)).

Record run_ok (r : Run) : Prop := {
  ro_feed : feed_ok (rn_feed r);
  ro_since : length (rn_since r) = length (fd_channels (rn_feed r));
  ro_got : length (rn_got r) = length (fd_channels (rn_feed r));
  ro_subscribers : ∀ id ch since got, fd_channels (rn_feed r) !! id = Some ch → rn_since r !! id = Some since →
    rn_got r !! id = Some got → subscriber_ok (rn_feed r) id ch since got
}.

Lemma run_subscribe r : run_ok r → run_ok (feed_step r FSubscribe).
Proof.
  intros [Hf Hs Hg H]. split; [by apply subscribe_ok|..]; cbn; rewrite ?length_app; cbn; [lia..|].
  intros id ch since got Hc Hsi Hgo. destruct (decide (id = length (fd_channels (rn_feed r)))) as [->|Hne].
  - rewrite lookup_app_r, Nat.sub_diag in Hc by lia. rewrite lookup_app_r, Hs, Nat.sub_diag in Hsi by lia.
    rewrite lookup_app_r, Hg, Nat.sub_diag in Hgo by lia.
    cbn in Hc, Hsi, Hgo. simplify_eq. exists []. split_and!; [done..|]. intros Hn. exfalso. apply Hn. cbn.
    apply elem_of_app. right. by left.
  - assert (id < length (fd_channels (rn_feed r)))%nat as Hlt
      by (apply lookup_lt_Some in Hc; rewrite length_app in Hc; cbn in Hc; lia).
    rewrite lookup_app_l in Hc by lia. rewrite lookup_app_l in Hsi by lia. rewrite lookup_app_l in Hgo by lia. destruct (H _ _ _ _ Hc Hsi Hgo) as (lost & ? & Hl & ? & Hd).
    exists lost. cbn. rewrite elem_of_app, list_elem_of_singleton. split_and!; [done| |done|].
    + intros [?|?]; [auto|lia].
    + intros Hn. apply Hd. tauto.
Qed.

Lemma run_publish event r : run_ok r → run_ok (feed_step r (FPublish event)).
Proof.
  intros [Hf Hs Hg H]. destruct (feed_publish_spec event _ Hf) as (Hc & Hse & Hl).
  split; [by apply publish_ok|..]; cbn; rewrite ?length_fmap, ?Hl; [done..|].
  intros id ch since got. rewrite Hc, list_lookup_fmap.
  destruct (fd_channels (rn_feed r) !! id) as [ch0|] eqn:E; [|done]. cbn [fmap option_fmap option_map].
  intros Hch. destruct (rn_since r !! id) as [since0|] eqn:Esi; [|done]. cbn. intros [= <-] Hgo.
  destruct (H _ _ _ _ E Esi Hgo) as (lost & -> & Hl1 & Hq & Hd).
  pose proof (fits_spec _ _ _ E) as Hfit. unfold subscriber_ok. rewrite Hse.
  assert (id ∈ List.filter (fits (fd_channels (rn_feed r))) (fd_senders (rn_feed r))
    ↔ id ∈ fd_senders (rn_feed r) ∧ fits (fd_channels (rn_feed r)) id = true) as Hin'
    by (rewrite list_elem_of_In, filter_In, <- list_elem_of_In; done).
  setoid_rewrite Hin'. clear Hin'.
  destruct (decide (id ∈ fd_senders (rn_feed r))) as [Hin|Hin].
  - rewrite bool_decide_eq_true_2 in Hch by done. rewrite (Hl1 Hin), app_nil_r.
    destruct (fits _ id); injection Hch as <-; cbn.
    + destruct (proj1 Hfit eq_refl) as [Ho Hlt]. exists []. rewrite app_nil_r, app_assoc, zlen_app. cbn.
      split_and!; [done..|unfold zlen at 2; cbn; lia|tauto].
    + exists [event]. rewrite <- app_assoc. split_and!; [done|by intros [_ ?]|done|]. intros _.
      destruct (ch_open ch0) eqn:Eo; [|by left]. right. rewrite zlen_app. pose proof (zlen_nonneg got).
      destruct (decide (zlen (ch_queue ch0) < FEED_CAPACITY)); [|lia]. by assert (false = true) by tauto.
  - rewrite bool_decide_eq_false_2 in Hch by done. cbn in Hch. simplify_eq. exists (lost ++ [event]).
    rewrite <- !app_assoc. split_and!; [done|tauto|done|auto].
Qed.

Lemma run_receive id r : run_ok r → run_ok (feed_step r (FReceive id)).
Proof.
  intros [Hf Hs Hg H]. cbn. pose proof (receive_ok id _ Hf) as Hok. unfold receive in *.
  destruct (fd_channels (rn_feed r) !! id) as [[[|event queue] open]|] eqn:E; cbn in *;
    [by destruct (bool_decide _); split| |by destruct (bool_decide _); split].
  split; cbn; rewrite ?length_insert, ?length_alter; [done..|].
  intros j ch since got Hc Hsi Hgo. destruct (decide (j = id)) as [->|Hne].
  - rewrite list_lookup_insert_eq in Hc by (by eapply lookup_lt_Some). injection Hc as <-.
    rewrite list_lookup_alter_eq in Hgo. destruct (rn_got r !! id) as [got0|] eqn:Eg; [|done].
    cbn in Hgo. injection Hgo as <-. destruct (H _ _ _ _ E Hsi Eg) as (lost & -> & Hl & Hq & Hd).
    exists lost. cbn in *. rewrite zlen_cons in Hq. rewrite <- !app_assoc. split_and!; [done..|lia|done].
  - rewrite list_lookup_insert_ne in Hc by done. rewrite list_lookup_alter_ne in Hgo by done.
    by apply (H j).
Qed.

Lemma run_drop id r : run_ok r → run_ok (feed_step r (FDrop id)).
Proof.
  intros [Hf Hs Hg H]. split; [by apply drop_ok|..]; cbn; rewrite ?length_alter; [done..|].
  intros j ch since got Hc Hsi Hgo. destruct (decide (j = id)) as [->|Hne].
  - rewrite list_lookup_alter_eq in Hc. destruct (fd_channels (rn_feed r) !! id) as [ch0|] eqn:E; [|done]. cbn in Hc. injection Hc as <-.
    destruct (H _ _ _ _ E Hsi Hgo) as (lost & -> & Hl & Hq & Hd). exists lost. cbn. split_and!; [done..|by left].
  - rewrite list_lookup_alter_ne in Hc by done. by apply (H j).
Qed.

Lemma run_invariant ops : run_ok (feed_run ops).
Proof.
  unfold feed_run. apply foldl_inv.
  - split; cbn; [split; [constructor|by intros ? ?%not_elem_of_nil]|done..].
  - intros r [] _; auto using run_subscribe, run_publish, run_receive, run_drop.
Qed.

(** C22: a subscriber of the feed misses nothing silently.  In every run, what a
    subscriber received and what waits for it are, in order, the events
    published since it subscribed, from the first on; all of them while the
    feed still sends to it.  A subscriber the feed no longer sends to has left,
    or had at least a full queue of events, and is told of the end as soon as
    it has received what was queued.  At most 64 events wait. *)
Theorem feed_no_gaps ops id ch since got :
  let r := feed_run ops in
  fd_channels (rn_feed r) !! id = Some ch → rn_since r !! id = Some since → rn_got r !! id = Some got →
  (∃ lost, since = got ++ ch_queue ch ++ lost ∧ (id ∈ fd_senders (rn_feed r) → lost = []))
  ∧ (id ∉ fd_senders (rn_feed r) → ch_open ch = false ∨ FEED_CAPACITY <= zlen (got ++ ch_queue ch))
  ∧ zlen (ch_queue ch) <= FEED_CAPACITY
  ∧ (receive id (rn_feed r)).1 = match ch_queue ch with
                                 | event :: _ => Update event
                                 | [] => if bool_decide (id ∈ fd_senders (rn_feed r)) then Timeout else Disconnected
                                 end.
Proof.
  intros r Hc Hs Hg. destruct (ro_subscribers _ (run_invariant ops) _ _ _ _ Hc Hs Hg) as (lost & ? & ? & ? & ?).
  split_and!; [by exists lost|done..|]. subst r. unfold receive. rewrite Hc. destruct ch as [[|event queue] open]; done.
Qed.

(** ** The view follows the store *)
Section View.
Context {Secrets Public Profiles Rows : Type} (rows_of : Secrets → Public → Rows).
Notation Holdings := (@Holdings Secrets Public Profiles).
Notation World := (@World Secrets Public Profiles Rows).

Definition queued (w : World) : list BackendEvent :=
  match wd_id w with
  | Some id => match fd_channels (wd_feed w) !! id with Some ch => ch_queue ch | None => [] end
  | None => []
  end.
(** An event of the kind is on its way to the listener. *)
Definition coming (p : BackendEvent → bool) (w : World) : Prop :=
  existsb p (wd_unpublished w) || existsb p (queued w) || existsb p (wd_wire w) = true.

Definition rows_current (w : World) : Prop :=
  wd_rows w = Some (rows_of (so_secrets (wd_stored w)) (so_public (wd_stored w))).
Definition profiles_current (w : World) : Prop := wd_profiles w = Some (so_profiles (wd_stored w)).

(** The feed still sends to the listener. *)
Definition connected (w : World) : Prop := ∃ id, wd_id w = Some id ∧ id ∈ fd_senders (wd_feed w).

Definition phase_ok (w : World) : Prop :=
  match wd_phase w with
  | LSubscribe | LEnded | LSecrets true => True
  | LSecrets false => profiles_current w ∨ coming changes_profiles_list w
  | LPublic first secrets =>
      (secrets = so_secrets (wd_stored w) ∨ coming changes_rows w)
      ∧ (first = false → profiles_current w ∨ coming changes_profiles_list w)
  | LProfiles => rows_current w ∨ coming changes_rows w
  | LWait => (rows_current w ∨ coming changes_rows w) ∧ (profiles_current w ∨ coming changes_profiles_list w)
  end.
Record world_ok (w : World) : Prop := {
  wo_feed : feed_ok (wd_feed w);
  wo_id : match wd_id w with
          | Some id => (id < length (fd_channels (wd_feed w)))%nat ∧ wd_phase w ≠ LSubscribe
          | None => wd_phase w = LSubscribe ∨ wd_phase w = LEnded
          end;
  (** Once dropped, the subscription delivers what is queued and ends. *)
  wo_phase : connected w → phase_ok w
}.

Lemma phase_ok_mono w w' :
  wd_stored w' = wd_stored w → wd_phase w' = wd_phase w → wd_rows w' = wd_rows w → wd_profiles w' = wd_profiles w →
  (∀ p, coming p w → coming p w') → phase_ok w → phase_ok w'.
Proof.
  unfold phase_ok, rows_current, profiles_current. intros -> -> -> -> Hc.
  pose proof (Hc changes_rows). pose proof (Hc changes_profiles_list).
  destruct (wd_phase w) as [|[]| | | |]; naive_solver.
Qed.

(** A change of the feed that leaves the listener's channel alone. *)
Lemma feed_changes w f :
  world_ok w → feed_ok f → (length (fd_channels (wd_feed w)) <= length (fd_channels f))%nat →
  (∀ id, wd_id w = Some id → fd_channels f !! id = fd_channels (wd_feed w) !! id) →
  (∀ id, wd_id w = Some id → id ∈ fd_senders f → id ∈ fd_senders (wd_feed w)) →
  world_ok (with_feed f w).
Proof.
  intros [Hf Hid Hp] Hf' Hl Hc Hs. split; [done| |].
  - cbn. destruct (wd_id w); [|done]. destruct Hid. split; [lia|done].
  - intros (id & Hi & Hin). cbn in Hi, Hin. apply (phase_ok_mono w); [done..| |apply Hp; exists id; auto].
    intros p. unfold coming, queued. cbn. by rewrite Hi, Hc.
Qed.

Lemma subscribe_world w : world_ok w → world_ok (with_feed (subscribe (wd_feed w)).2 w).
Proof.
  intros H. pose proof H as [Hf Hid _]. apply feed_changes; [done|by apply subscribe_ok|..].
  - cbn. rewrite length_app. lia.
  - intros id E. rewrite E in Hid. apply lookup_app_l, Hid.
  - intros id E. rewrite E in Hid. cbn. rewrite elem_of_app, list_elem_of_singleton. intros [?|?]; [done|lia].
Qed.
Lemma receive_world id w : wd_id w ≠ Some id → world_ok w → world_ok (with_feed (receive id (wd_feed w)).2 w).
Proof.
  intros Hne H. pose proof H as [Hf Hid _]. apply feed_changes; [done|by apply receive_ok|..].
  - unfold receive. destruct (_ !! id) as [[[] ]|]; cbn; by rewrite ?length_insert.
  - intros j E. unfold receive. destruct (_ !! id) as [[[] ]|]; cbn; [done| |done].
    apply list_lookup_insert_ne. congruence.
  - intros j E. by rewrite receive_senders.
Qed.
Lemma drop_world id w : wd_id w ≠ Some id → world_ok w → world_ok (with_feed (drop_receiver id (wd_feed w)) w).
Proof.
  intros Hne H. pose proof H as [Hf Hid _]. apply feed_changes; [done|by apply drop_ok|..]; cbn; [by rewrite length_alter| |done].
  intros j E. apply list_lookup_alter_ne. congruence.
Qed.

Lemma store_world event after w :
  announces event (wd_stored w) after → world_ok w →
  world_ok {| wd_stored := after; wd_unpublished := wd_unpublished w ++ [event]; wd_feed := wd_feed w;
              wd_id := wd_id w; wd_wire := wd_wire w; wd_phase := wd_phase w; wd_rows := wd_rows w;
              wd_profiles := wd_profiles w |}.
Proof.
  intros Ha [Hf Hid Hp]. split; [done..|]. intros Hc. specialize (Hp Hc).
  set (w' := {| wd_unpublished := wd_unpublished w ++ [event] |}).
  assert (∀ p, coming p w → coming p w') as Hmono.
  { intros p. unfold coming, queued. cbn. rewrite existsb_app, !orb_true_iff. tauto. }
  assert (∀ p, p event = true → coming p w') as Hnew.
  { intros p E. unfold coming. cbn. rewrite existsb_app. cbn. by rewrite E, !orb_true_r. }
  pose proof (Hmono changes_rows). pose proof (Hmono changes_profiles_list).
  pose proof (Hnew changes_rows). pose proof (Hnew changes_profiles_list). clear Hmono Hnew.
  unfold phase_ok, rows_current, profiles_current in *. cbn.
  destruct event; cbn in *; [destruct Ha as [-> ->]|destruct Ha as [-> ->]|subst after|destruct Ha as [-> ->]];
    destruct (wd_phase w) as [|[]| | | |]; naive_solver.
Qed.

Lemma publish_world event l1 l2 w :
  wd_unpublished w = l1 ++ event :: l2 → world_ok w →
  world_ok {| wd_stored := wd_stored w; wd_unpublished := l1 ++ l2; wd_feed := publish event (wd_feed w);
              wd_id := wd_id w; wd_wire := wd_wire w; wd_phase := wd_phase w; wd_rows := wd_rows w;
              wd_profiles := wd_profiles w |}.
Proof.
  intros Hu [Hf Hid Hp]. destruct (feed_publish_spec event _ Hf) as (Hc & Hs & Hl).
  split; [by apply publish_ok|cbn; by rewrite Hl|].
  intros (id & Hi & Hin). cbn in Hi, Hin. rewrite Hs in Hin.
  apply list_elem_of_In, filter_In in Hin as [Hin Hfit]. apply list_elem_of_In in Hin.
  apply (phase_ok_mono w); [done..| |apply Hp; by exists id].
  intros p. unfold coming, queued. cbn. rewrite Hi, Hc, Hu, bool_decide_eq_true_2, Hfit by done. cbn.
  unfold fits in Hfit. destruct (fd_channels (wd_feed w) !! id) as [ch|]; [|done].
  cbn. rewrite !existsb_app. cbn. rewrite !orb_true_iff. tauto.
Qed.

Lemma forward_world id event f w :
  wd_id w = Some id → serve_change id (wd_feed w) = (Some (Change event), f) → world_ok w →
  world_ok {| wd_stored := wd_stored w; wd_unpublished := wd_unpublished w; wd_feed := f; wd_id := wd_id w;
              wd_wire := wd_wire w ++ [event]; wd_phase := wd_phase w; wd_rows := wd_rows w;
              wd_profiles := wd_profiles w |}
  ∧ queued w = event :: queued (with_feed f w).
Proof.
  intros Hi Hs [Hf Hid Hp]. unfold serve_change in Hs. pose proof (receive_ok id _ Hf) as Hok.
  pose proof (receive_senders id (wd_feed w)) as Hse. unfold receive in Hs, Hok, Hse.
  rewrite Hi in Hid. destruct Hid as [Hlt Hph].
  destruct (fd_channels (wd_feed w) !! id) as [[[|e queue] open]|] eqn:E;
    [by destruct (bool_decide _)| |by destruct (bool_decide _)].
  cbn in Hs, Hok, Hse. injection Hs as -> <-.
  assert (queued w = event :: queue) as Hq by (unfold queued; by rewrite Hi, E).
  assert (queued (with_feed {| fd_channels := <[id:={| ch_queue := queue; ch_open := open |}]> (fd_channels (wd_feed w));
    fd_senders := fd_senders (wd_feed w) |} w) = queue) as Hq'
    by (unfold queued; cbn; by rewrite Hi, list_lookup_insert_eq).
  split; [|by rewrite Hq, Hq']. split; [done|cbn; rewrite Hi; by rewrite length_insert|].
  intros (j & Hj & Hin). cbn in Hj, Hin. apply (phase_ok_mono w); [done..| |apply Hp; by exists j].
  intros p. unfold coming. rewrite Hq. unfold queued. cbn [wd_id wd_feed fd_channels wd_unpublished wd_wire].
  rewrite Hi, list_lookup_insert_eq by done.
  cbn. rewrite existsb_app. cbn. rewrite !orb_true_iff. tauto.
Qed.

Lemma handle_world event rest w :
  wd_phase w = LWait → wd_wire w = event :: rest → world_ok w →
  world_ok {| wd_stored := wd_stored w; wd_unpublished := wd_unpublished w; wd_feed := wd_feed w;
              wd_id := wd_id w; wd_wire := rest; wd_phase := on_event event; wd_rows := wd_rows w;
              wd_profiles := wd_profiles w |}.
Proof.
  intros Hph Hw [Hf Hid Hp]. split; [done|cbn|].
  { rewrite Hph in Hid. destruct (wd_id w); [destruct Hid; by destruct event|by destruct Hid]. }
  intros Hc. specialize (Hp Hc). unfold phase_ok in Hp. rewrite Hph in Hp.
  unfold phase_ok, coming, queued, rows_current, profiles_current in *. cbn. rewrite Hw in Hp. cbn in Hp.
  destruct event; cbn in *; tauto.
Qed.

Lemma calm_world w w' : calm_step rows_of w w' → world_ok w → world_ok w'.
Proof.
  intros Hs H. pose proof H as [Hf Hid Hp].
  destruct Hs as [event l1 l2 w Hu|id event f w Hi Hs|w Hph|first w Hph|first secrets w Hph|w Hph|event rest w Hph Hw|id w Hph _ _ _].
  - by apply publish_world.
  - by eapply forward_world.
  - split; [by apply subscribe_ok|cbn; rewrite length_app; cbn; split; [lia|done]|]. done.
  - split; [done|cbn; rewrite Hph in Hid; destruct (wd_id w); naive_solver|]. intros Hc. specialize (Hp Hc).
    unfold phase_ok in *. rewrite Hph in Hp. cbn. split; [by left|]. by intros ->.
  - split; [done|cbn; rewrite Hph in Hid; destruct (wd_id w), first; naive_solver|]. intros Hc. specialize (Hp Hc).
    unfold phase_ok in *. rewrite Hph in Hp. cbn. destruct Hp as [Hr Hpr].
    assert (∀ P Q, P ∨ Q → P ∨ Q) by done.
    destruct first; cbn; [|split; [|by apply Hpr]]; (destruct Hr as [->|Hr]; [by left|by right]).
  - split; [done|cbn; rewrite Hph in Hid; destruct (wd_id w); naive_solver|]. intros Hc. specialize (Hp Hc).
    unfold phase_ok in *. rewrite Hph in Hp. cbn. split; [done|by left].
  - by apply handle_world.
  - split; [done|cbn; rewrite Hph in Hid; destruct (wd_id w); naive_solver|done].
Qed.

Lemma reachable_world stored unpublished ops w :
  rtc (world_step rows_of) (world_start stored unpublished (rn_feed (feed_run ops))) w → world_ok w.
Proof.
  intros H. assert (world_ok (world_start stored unpublished (rn_feed (feed_run ops)))) as H0.
  { split; [apply run_invariant|by left|done]. }
  revert H0. induction H as [|w1 w2 w3 Hs _ IH]; [done|]. intros H1. apply IH.
  destruct Hs; [by eapply calm_world|by apply store_world|by apply subscribe_world|by apply receive_world
    |by apply drop_world|].
  destruct H1 as [Hf Hid Hp]. split; [done|cbn; destruct (wd_id w); [destruct Hid; done|by right]|done].
Qed.

(** ** What is left to do *)
Definition phase_work (phase : @Listening Secrets) : nat :=
  match phase with
  | LEnded => 0
  | LWait => 1
  | LProfiles => 2
  | LPublic _ _ => 3
  | LSecrets _ => 4
  | LSubscribe => 5
  end.
Definition work (w : World) : nat :=
  8 * length (wd_unpublished w) + 7 * length (queued w) + 6 * length (wd_wire w) + phase_work (wd_phase w).

Lemma queued_publish event w l :
  feed_ok (wd_feed w) →
  (length (queued {| wd_stored := wd_stored w; wd_unpublished := l; wd_feed := publish event (wd_feed w);
                     wd_id := wd_id w; wd_wire := wd_wire w; wd_phase := wd_phase w; wd_rows := wd_rows w;
                     wd_profiles := wd_profiles w |}) <= S (length (queued w)))%nat.
Proof.
  intros Hf. destruct (feed_publish_spec event _ Hf) as (Hc & _). unfold queued. cbn.
  destruct (wd_id w) as [id|]; [|cbn; lia]. rewrite Hc.
  destruct (fd_channels (wd_feed w) !! id) as [ch|]; cbn; [|lia].
  destruct (_ && _); cbn; rewrite ?length_app; cbn; lia.
Qed.

Lemma calm_work w w' : world_ok w → calm_step rows_of w w' → (work w' < work w)%nat.
Proof.
  intros H Hs. pose proof H as [Hf Hid Hp]. unfold work.
  destruct Hs as [event l1 l2 w Hu|id event f w Hi Hs|w Hph|first w Hph|first secrets w Hph|w Hph|event rest w Hph Hw|id w Hph _ _ _].
  - pose proof (queued_publish event w (l1 ++ l2) Hf). cbn [wd_unpublished wd_wire wd_phase].
    rewrite Hu, !length_app. cbn [length]. lia.
  - destruct (forward_world _ _ _ _ Hi Hs H) as [_ Hq]. rewrite Hq.
    change (queued {| wd_stored := _ |}) with (queued (with_feed f w)).
    cbn [wd_unpublished wd_wire wd_phase length]. rewrite length_app. cbn [length]. lia.
  - rewrite Hph in *. destruct (wd_id w) as [id|] eqn:Ei; [by destruct Hid|].
    unfold queued. cbn. rewrite Ei, lookup_app_r, Nat.sub_diag by lia. cbn. lia.
  - rewrite Hph. cbn. unfold queued. cbn. lia.
  - rewrite Hph. cbn. unfold queued. cbn. destruct first; cbn; lia.
  - rewrite Hph. cbn. unfold queued. cbn. lia.
  - rewrite Hph, Hw. unfold queued. cbn. destruct event; cbn; lia.
  - rewrite Hph. cbn. unfold queued. cbn. lia.
Qed.

(** C10: the TUI's view follows the store.  However changes, publications, other
    subscribers and the listener interleave: once nothing changes any more,
    only finitely many steps are left, and when none is left the listener's
    connection has ended (it is then opened again and starts over), or the rows
    and profiles last shown are those of the store.  No change is lost between
    subscribing and listing, and a listener that fell behind is never taken for
    a current one. *)
Theorem view_follows_store stored unpublished ops w :
  rtc (world_step rows_of) (world_start stored unpublished (rn_feed (feed_run ops))) w →
  (∀ w', calm_step rows_of w w' → (work w' < work w)%nat)
  ∧ ((∀ w', ¬ calm_step rows_of w w') → wd_phase w = LEnded ∨ rows_current w ∧ profiles_current w).
Proof.
  intros H%reachable_world. split; [intros w'; by apply calm_work|]. intros Hstuck.
  pose proof H as [Hf Hid Hp].
  destruct (wd_phase w) as [|first|first secrets| | |] eqn:Hph; [| | | | |by left].
  - exfalso. by eapply Hstuck, WSubscribe.
  - exfalso. by eapply Hstuck, WListSecrets.
  - exfalso. by eapply Hstuck, WListPublic.
  - exfalso. by eapply Hstuck, WListProfiles.
  - right. destruct (wd_id w) as [id|] eqn:Ei; [|by destruct Hid].
    destruct (wd_unpublished w) as [|e l] eqn:Eu; [|exfalso; by eapply Hstuck, (WPublish _ e [] l)].
    destruct (wd_wire w) as [|e l] eqn:Ew; [|exfalso; by eapply Hstuck, WHandle].
    assert (∀ e f, serve_change id (wd_feed w) ≠ (Some (Change e), f)) as Hno by (intros e f E; by eapply Hstuck, WForward).
    assert ((serve_change id (wd_feed w)).1 ≠ None) as Hopen by (intros E; by eapply Hstuck, WEnd).
    unfold serve_change, receive in Hno, Hopen. destruct Hid as [Hlt _].
    destruct (fd_channels (wd_feed w) !! id) as [[[|e queue] open]|] eqn:E; [|by edestruct Hno|].
    + case_bool_decide as Hin; [|done]. specialize (Hp (ex_intro _ id (conj Ei Hin))).
      unfold phase_ok, coming, queued in Hp. rewrite Hph, Eu, Ei, E, Ew in Hp. cbn in Hp.
      destruct Hp as [[?|?] [?|?]]; done.
    + apply lookup_ge_None in E. lia.
Qed.
End View.
