(* ===== verification/Generator.v ===== *)
(** * Generated values

    [crates/core/src/generator.rs] (passwords, passphrases and random bytes
    from an injected random source), [crates/core/src/schema/value.rs]
    (consumer constraints) and [crates/core/src/schema/value_generator.rs]
    (what a target may generate for itself).

    The random source is a state with a [fill] function.  Rejection sampling
    loops until a draw is accepted: it runs on fuel, [None] meaning that the
    fuel ran out.  The base64 engine and the regular expressions are
    third-party code: arguments of the definitions that use them. *)
From S2P Require Import Prelude BTree Text.
#[local] Open Scope Z_scope.

Definition MAX_OUTPUT_BYTES : Z := 1024 * 1024.
Definition MAX_ALPHABET_CHARS : Z := 4096.
Definition MAX_WORDS : Z := 8192.
Definition MAX_WORD_BYTES : Z := 4096.

Inductive ByteEncoding := Raw | HexLower | Base64 | Base64UrlUnpadded.

Inductive GeneratorOptions :=
| Password (length : Z) (alphabet : string)
| Passphrase (words : Z) (separator : string) (word_list : list string)
| Bytes (length : Z) (encoding : ByteEncoding).

Inductive GenError :=
| Empty (field : string)
| DuplicateAlphabetCharacter
| Limit (field : string)
| Randomness
| Encoding.

(** [Display] of the error. *)
Definition gen_error_text (e : GenError) : string :=
  match e with
  | Empty field => field +:+ " must not be empty"
  | DuplicateAlphabetCharacter => "password alphabet contains duplicate characters"
  | Limit field => field +:+ " exceeds its safety limit"
  | Randomness => "operating-system randomness failed"
  | Encoding => "output encoding failed"
  end.

(** A computation that draws randomness: [None] is out of fuel. *)
Definition gen (S A : Type) : Type := S → option (result GenError A * S).
#[export] Instance gen_ret S : MRet (gen S) := λ A a s, Some (Ok a, s).
#[export] Instance gen_bind S : MBind (gen S) :=
  λ A B f m s,
    match m s with
    | Some (Ok a, s) => f a s
    | Some (Err e, s) => Some (Err e, s)
    | None => None
    end.
Definition gen_lift {S A} (r : result GenError A) : gen S A := λ s, Some (r, s).

Definition checked (z : Z) : option Z := if z <=? usize_max then Some z else None.

Definition require_nonzero (value : Z) (field : string) : result GenError unit :=
  guard_err (negb (value =? 0)) (Empty field).

Definition require_output_bound (length : Z) : result GenError unit :=
  guard_err (length <=? MAX_OUTPUT_BYTES) (Limit "generated output").

Definition encoded_length (length : Z) (encoding : ByteEncoding) : result GenError Z :=
  ok_or (Limit "encoded output")
    match encoding with
    | Raw => Some length
    | HexLower => checked (length * 2)
    | Base64 => size ← checked (length + 2); checked (size / 3 * 4)
    | Base64UrlUnpadded =>
        size ← checked (length * 4); size ← checked (size + 2); Some (size / 3)
    end.

Definition hex_lower (raw : list Z) : list Z :=
  mjoin ((λ b, [hex_digit (Z.shiftr b 4); hex_digit (Z.land b 0x0f)]) <$> raw).

(** [sort_unstable] and [dedup]. *)
Definition sort_dedup (cs : list Z) : list Z := bt_keys (bs_of_list cs).

Section Source.
Context {S : Type} (fill : nat → S → result GenError (list Z) * S).

Definition gen_fill (n : nat) : gen S (list Z) := λ s, Some (fill n s).

(** [bound.wrapping_neg() % bound]. *)
Definition threshold (bound : Z) : Z := wrap64 (- bound) mod bound.

Fixpoint uniform_index (fuel : nat) (bound : Z) : gen S Z :=
  match fuel with
  | O => λ _, None
  | Datatypes.S fuel =>
      bytes ← gen_fill 8;
      let value := le_value bytes in
      if threshold bound <=? value then mret (value mod bound)
      else uniform_index fuel bound
  end.

Context (fuel : nat).

(** [for _ in 0..n { output.extend(characters[index]) }]. *)
Fixpoint password_loop (n : nat) (characters : list Z) : gen S (list Z) :=
  match n with
  | O => mret []
  | Datatypes.S n =>
      index ← uniform_index fuel (zlen characters);
      rest ← password_loop n characters;
      mret (encode_utf8 (nth (Z.to_nat index) characters 0) ++ rest)
  end.

Definition password (length : Z) (alphabet : string) : gen S (list Z) :=
  _ ← gen_lift (require_nonzero length "password length");
  let characters := chars alphabet in
  _ ← gen_lift (require_nonzero (zlen characters) "password alphabet");
  _ ← gen_lift (guard_err (zlen characters <=? MAX_ALPHABET_CHARS) (Limit "password alphabet"));
  _ ← gen_lift (guard_err (zlen (sort_dedup characters) =? zlen characters)
                  DuplicateAlphabetCharacter);
  maximum ← gen_lift (ok_or (Limit "password output") (checked (length * 4)));
  _ ← gen_lift (require_output_bound maximum);
  password_loop (Z.to_nat length) characters.

Fixpoint passphrase_loop (n : nat) (first : bool) (separator : string) (words : list string)
  : gen S (list Z) :=
  match n with
  | O => mret []
  | Datatypes.S n =>
      index ← uniform_index fuel (zlen words);
      rest ← passphrase_loop n false separator words;
      mret ((if first then [] else bytes separator)
            ++ bytes (nth (Z.to_nat index) words "") ++ rest)
  end.

Definition longest (words : list string) : Z := foldr (λ w n, Z.max (slen w) n) 0 words.

Definition passphrase (count : Z) (separator : string) (words : list string)
  : gen S (list Z) :=
  _ ← gen_lift (require_nonzero count "passphrase word count");
  _ ← gen_lift (require_nonzero (zlen words) "passphrase word list");
  _ ← gen_lift (guard_err (negb ((MAX_WORDS <? count) || (MAX_WORDS <? zlen words)))
                  (Limit "passphrase words"));
  _ ← gen_lift (guard_err (negb (existsb (λ w, bool_decide (w = "")) words))
                  (Empty "passphrase word"));
  _ ← gen_lift (guard_err (negb (existsb (λ w, MAX_WORD_BYTES <? slen w) words))
                  (Limit "passphrase word"));
  let separators := count - 1 in
  maximum ← gen_lift (ok_or (Limit "passphrase output")
    (size ← checked (count * longest words);
     seps ← checked (separators * slen separator);
     checked (size + seps)));
  _ ← gen_lift (require_output_bound maximum);
  passphrase_loop (Z.to_nat count) true separator words.

(** [engine.encode_slice] of the two base64 engines: the bytes it wrote, when
    they fit the buffer of the given length. *)
Context (encode_slice : ByteEncoding → list Z → Z → option (list Z)).

Definition encode_base64 (raw : list Z) (length : Z) (engine : ByteEncoding)
  : result GenError (list Z) :=
  ok_or Encoding (encode_slice engine raw length).

Definition fixed_bytes (length : Z) (encoding : ByteEncoding) : gen S (list Z) :=
  _ ← gen_lift (require_nonzero length "byte length");
  output_length ← gen_lift (encoded_length length encoding);
  _ ← gen_lift (require_output_bound output_length);
  raw ← gen_fill (Z.to_nat length);
  gen_lift match encoding with
           | Raw => Ok raw
           | HexLower => Ok (hex_lower raw)
           | Base64 => encode_base64 raw output_length Base64
           | Base64UrlUnpadded => encode_base64 raw output_length Base64UrlUnpadded
           end.

(** [generator::generate_with]. *)
Definition generate_with (policy : GeneratorOptions) : gen S (list Z) :=
  match policy with
  | Password length alphabet => password length alphabet
  | Passphrase words separator word_list => passphrase words separator word_list
  | Bytes length encoding => fixed_bytes length encoding
  end.
End Source.

(** ** Consumer constraints *)
Inductive ValueType := VtPassword | VtKey.
#[export] Instance ValueType_eq_dec : EqDecision ValueType.
Proof. solve_decision. Defined.

Record ConsumerConstraints := {
  cc_shorter : option Z;
  cc_longer : option Z;
  cc_regex : option string
}.

Section Constraints.
(** [Regex::new] of the anchored pattern: an error or its [is_match]. *)
Context (regex_new : string → result string (string → bool)).

Definition anchored (pattern : string) : string := "\A(?:" +:+ pattern +:+ ")\z".

Definition constraints_validate (c : ConsumerConstraints) : result string unit :=
  if default usize_max (cc_longer c) <? default 0 (cc_shorter c)
  then Err "minimum consumer length exceeds maximum"
  else match cc_regex c with
       | Some pattern =>
           if bool_decide (pattern = "") || (4096 <? slen pattern)
           then Err "consumer matching regex must contain 1 through 4096 bytes"
           else match regex_new (anchored pattern) with
                | Ok _ => Ok tt
                | Err error => Err ("invalid consumer matching regex: " +:+ error)
                end
       | None => Ok tt
       end.

Definition accepts (c : ConsumerConstraints) (value : string) : result string unit :=
  let length := zlen (chars value) in
  if length <? default 0 (cc_shorter c)
  then Err "password is shorter than the consumer accepts"
  else if default usize_max (cc_longer c) <? length
  then Err "password is longer than the consumer accepts"
  else match cc_regex c with
       | Some pattern =>
           match regex_new (anchored pattern) with
           | Ok is_match =>
               if is_match value then Ok tt
               else Err "password does not match the consumer format"
           | Err error => Err ("invalid consumer matching regex: " +:+ error)
           end
       | None => Ok tt
       end.
End Constraints.

(** ** What a target may generate *)
Inductive RandomEncoding := REBase64 | REBase64UrlUnpadded | REHexLower.

(** The only variant of the enum, [RandomBytes]. *)
Record ValueGenerator := {
  vg_bytes : Z;
  vg_encoding : RandomEncoding;
  vg_prefix : string;
  vg_suffix : string
}.

Definition MIN_RANDOM_BYTES : Z := 16.
Definition MAX_RANDOM_BYTES : Z := 1024.
Definition MAX_AFFIX_BYTES : Z := 1024.

Definition PASSWORD_ALPHABETS : list string :=
  ["ABCDEFGHIJKLMNOPQRSTUVWXYZabcdefghijklmnopqrstuvwxyz0123456789"
   +:+ "!#$%&()*+,-./:;<=>?@[]^_{|}~";
   "ABCDEFGHIJKLMNOPQRSTUVWXYZabcdefghijklmnopqrstuvwxyz0123456789";
   "abcdefghijklmnopqrstuvwxyz";
   "ABCDEFGHIJKLMNOPQRSTUVWXYZ";
   "0123456789"].

Definition generator_validate (g : ValueGenerator) : result string unit :=
  if negb (in_range MIN_RANDOM_BYTES MAX_RANDOM_BYTES (vg_bytes g))
  then Err ("random-bytes generator needs " +:+ dec MIN_RANDOM_BYTES +:+ " through "
            +:+ dec MAX_RANDOM_BYTES +:+ " bytes")
  else try_each (λ affix,
         if (MAX_AFFIX_BYTES <? slen affix) || contains_byte 0 affix
         then Err ("random-bytes prefix and suffix must be at most "
                   +:+ dec MAX_AFFIX_BYTES +:+ " bytes without NUL")
         else Ok tt) [vg_prefix g; vg_suffix g].

Inductive DeployGenerator :=
| DgPassword (constraints : option ConsumerConstraints)
| DgDeclared (generator : ValueGenerator).

Definition generator_label (g : DeployGenerator) : string :=
  match g with
  | DgPassword _ => "password"
  | DgDeclared g =>
      let encoding := match vg_encoding g with
                      | REBase64 => "base64"
                      | REBase64UrlUnpadded => "base64url"
                      | REHexLower => "hex"
                      end in
      let framed := if bool_decide (vg_prefix g = "") && bool_decide (vg_suffix g = "")
                    then "" else ", framed" in
      dec (vg_bytes g) +:+ " random bytes, " +:+ encoding +:+ framed
  end.

Section Deploy.
Context {S : Type} (fill : nat → S → result GenError (list Z) * S) (fuel : nat).
Context (encode_slice : ByteEncoding → list Z → Z → option (list Z)).
Context (regex_new : string → result string (string → bool)).

(** [std::str::from_utf8(&value).is_ok_and(|text| c.accepts(text).is_ok())]. *)
Definition accepts_bytes (c : ConsumerConstraints) (value : list Z) : bool :=
  is_some_and (λ text, is_ok (accepts regex_new c text)) (from_utf8 value).

(** A computation with the error as text. *)
Definition tgen (A : Type) : Type := S → option (result string A * S).

(** [for _ in 0..n { ... }]: [Ok None] when no try was accepted. *)
Fixpoint password_tries (n : nat) (constraints : option ConsumerConstraints)
  (length : Z) (alphabet : string) : tgen (option (list Z)) :=
  match n with
  | O => λ s, Some (Ok None, s)
  | Datatypes.S n => λ s,
      match generate_with fill fuel encode_slice (Password length alphabet) s with
      | Some (Ok value, s) =>
          if is_none_or (λ c, accepts_bytes c value) constraints
          then Some (Ok (Some value), s)
          else password_tries n constraints length alphabet s
      | Some (Err e, s) => Some (Err (gen_error_text e), s)
      | None => None
      end
  end.

Fixpoint password_alphabets (alphabets : list string) (constraints : option ConsumerConstraints)
  (length : Z) : tgen (list Z) :=
  match alphabets with
  | [] => λ s, Some (Err "the password generator could not meet the consumer format", s)
  | alphabet :: alphabets => λ s,
      match password_tries 16 constraints length alphabet s with
      | Some (Ok (Some value), s) => Some (Ok value, s)
      | Some (Ok None, s) => password_alphabets alphabets constraints length s
      | Some (Err e, s) => Some (Err e, s)
      | None => None
      end
  end.

(** [value_generator::password]. *)
Definition constrained_password (constraints : option ConsumerConstraints) : tgen (list Z) :=
  let minimum := default 0 (c ← constraints; cc_shorter c) in
  let maximum := default usize_max (c ← constraints; cc_longer c) in
  if (256 <? minimum) || (maximum =? 0)
  then λ s, Some (Err "consumer length limits cannot be met by the password generator", s)
  else
    let length := Z.min (Z.max 32 minimum) maximum in
    password_alphabets PASSWORD_ALPHABETS constraints length.

Definition byte_encoding (e : RandomEncoding) : ByteEncoding :=
  match e with
  | REBase64 => Base64
  | REBase64UrlUnpadded => Base64UrlUnpadded
  | REHexLower => HexLower
  end.

(** [DeployGenerator::generate_with]. *)
Definition deploy_generate (g : DeployGenerator) : tgen (list Z) :=
  match g with
  | DgPassword constraints => constrained_password constraints
  | DgDeclared g => λ s,
      match generator_validate g with
      | Err e => Some (Err e, s)
      | Ok _ =>
          match generate_with fill fuel encode_slice
                  (Bytes (vg_bytes g) (byte_encoding (vg_encoding g))) s with
          | Some (Ok encoded, s) =>
              Some (Ok (bytes (vg_prefix g) ++ encoded ++ bytes (vg_suffix g)), s)
          | Some (Err e, s) => Some (Err (gen_error_text e), s)
          | None => None
          end
      end
  end.
End Deploy.

Inductive SecretKind := KSecret | KPublicInfo.
#[export] Instance SecretKind_eq_dec : EqDecision SecretKind.
Proof. solve_decision. Defined.

Inductive NotGeneratable := ExternalInput | OptedOut | PublicInfo | UnknownFormat | Derived.

Definition not_generatable_reason (n : NotGeneratable) : string :=
  match n with
  | ExternalInput => "external input"
  | OptedOut => "generateOnDeploy = false"
  | PublicInfo => "public information"
  | UnknownFormat => "no valueGenerator"
  | Derived => "derived from another value"
  end.

(** [value_generator::decide]. *)
Definition decide_generator (kind : SecretKind) (external_input_required generate_on_deploy : bool)
  (value_generator : option ValueGenerator) (value_type : option ValueType)
  (constraints : option ConsumerConstraints) : result NotGeneratable DeployGenerator :=
  match kind with
  | KPublicInfo => Err PublicInfo
  | KSecret =>
      if external_input_required then Err ExternalInput
      else if negb generate_on_deploy then Err OptedOut
      else match value_generator with
           | Some generator => Ok (DgDeclared generator)
           | None =>
               if bool_decide (value_type = Some VtPassword)
               then Ok (DgPassword constraints) else Err UnknownFormat
           end
  end.

Ltac unfold_gen :=
  unfold mbind, mret, gen_bind, gen_ret, gen_lift, gen_fill, require_nonzero,
    require_output_bound, guard_err, ok_or in *.

(** ** Uniform selection *)
Lemma threshold_spec bound :
  0 < bound ≤ u64_max →
  0 ≤ threshold bound < bound ∧ ∃ q, 1 ≤ q ∧ 2 ^ 64 = threshold bound + q * bound.
Proof.
  intros Hb. unfold threshold, wrap64, u64_max in *.
  assert ((- bound) mod 2 ^ 64 = 2 ^ 64 - bound) as ->.
  { symmetry. apply Z.mod_unique with (-1); lia. }
  pose proof (Z.mod_pos_bound (2 ^ 64 - bound) bound). split; [lia|].
  exists ((2 ^ 64 - bound) / bound + 1).
  pose proof (Z.div_mod (2 ^ 64 - bound) bound).
  assert (0 ≤ (2 ^ 64 - bound) / bound) by (apply Z.div_pos; lia). lia.
Qed.

(** The values [uniform_index] maps to one index, in order. *)
Lemma accepted_values bound i v q :
  0 < bound → 0 ≤ i < bound → 0 ≤ threshold bound < bound →
  2 ^ 64 = threshold bound + q * bound →
  let first := threshold bound + (i - threshold bound) mod bound in
  (threshold bound ≤ v < 2 ^ 64 ∧ v mod bound = i) ↔
    ∃ j, 0 ≤ j < q ∧ v = first + j * bound.
Proof.
  intros Hb Hi Ht Hq first.
  assert ((threshold bound + (i - threshold bound) mod bound) mod bound = i) as Hfirst.
  { rewrite Zplus_mod_idemp_r.
    replace (threshold bound + (i - threshold bound)) with i by lia. by apply Z.mod_small. }
  pose proof (Z.mod_pos_bound (i - threshold bound) bound ltac:(lia)) as Hpos.
  split.
  - intros [Hv Hm]. exists ((v - first) / bound).
    assert ((v - first) mod bound = 0) as Hz.
    { subst first. rewrite Zminus_mod, Hfirst, Hm, Z.sub_diag. by apply Z.mod_0_l; lia. }
    pose proof (Z.div_mod (v - first) bound ltac:(lia)) as Hd. rewrite Hz in Hd.
    set (k := (v - first) / bound) in *. clearbody k.
    assert (v = first + bound * k) as Hvk by lia. subst first.
    assert (bound * (-1) < bound * k) by lia. assert (bound * k < bound * q) by lia.
    split; [|lia]. split; [|by apply (Z.mul_lt_mono_pos_l bound)].
    assert (-1 < k); [by apply (Z.mul_lt_mono_pos_l bound)|lia].
  - intros (j & Hj & ->). subst first. split; [nia|]. by rewrite Z_mod_plus_full.
Qed.

(** [v.to_le_bytes()]. *)
Definition le_bytes8 (v : Z) : list Z := reverse (be_bytes 8 v).

(** What [uniform_index] makes of one draw [v]: [None] when it draws again. *)
Definition one_draw (bound v : Z) : option Z :=
  match uniform_index (λ _ (s : unit), (Ok (le_bytes8 v), s)) 1 bound tt with
  | Some (Ok i, _) => Some i
  | _ => None
  end.

Lemma le_value_be l : le_value (reverse l) = be_value l.
Proof.
  assert (∀ k, le_value (k ++ reverse l) = foldl (λ acc b, acc * 256 + b) 0 l * 256 ^ zlen k + le_value k) as H.
  { induction l as [|b l IH] using rev_ind; intros k.
    - rewrite reverse_nil, app_nil_r. cbn. lia.
    - rewrite reverse_app, foldl_app, reverse_singleton. cbn [foldl].
      rewrite (assoc app). specialize (IH (k ++ [b])). rewrite IH, zlen_app.
      replace (zlen [b]) with 1 by done. rewrite Z.pow_add_r by (try lia; apply zlen_nonneg).
      assert (le_value (k ++ [b]) = le_value k + b * 256 ^ zlen k) as ->.
      { clear. induction k as [|c k IH]; cbn [le_value app];
          [replace (zlen (@nil Z)) with 0 by done; lia|].
        rewrite IH, zlen_cons, Z.pow_add_r by (try lia; apply zlen_nonneg). lia. }
      lia. }
  specialize (H []). cbn in H. rewrite Z.mul_1_r, Z.add_0_r in H. done.
Qed.

Lemma le_value_le_bytes8 v : 0 ≤ v < 2 ^ 64 → le_value (le_bytes8 v) = v.
Proof. intros. unfold le_bytes8. rewrite le_value_be. by apply be_value_bytes_id. Qed.

Lemma one_draw_spec bound v i :
  0 ≤ v < 2 ^ 64 → one_draw bound v = Some i ↔ threshold bound ≤ v ∧ v mod bound = i.
Proof.
  intros Hv. unfold one_draw, uniform_index. unfold_gen. rewrite le_value_le_bytes8 by done.
  case_match eqn:E; simplify_eq; bool_prop; repeat case_match; simplify_eq;
    destruct (threshold bound <=? v) eqn:Et; bool_prop; naive_solver lia.
Qed.

(** ** Generated output *)
Section Output.
Context {S : Type} (fill : nat → S → result GenError (list Z) * S).
Context (encode_slice : ByteEncoding → list Z → Z → option (list Z)).

Lemma uniform_index_range fuel bound s i s' :
  0 < bound → uniform_index fill fuel bound s = Some (Ok i, s') → 0 ≤ i < bound.
Proof.
  intros Hb. revert s. induction fuel as [|fuel IH]; intros s; cbn [uniform_index]; [done|].
  unfold_gen. intros H. repeat case_match; simplify_eq; [|by eapply IH].
  by apply Z.mod_pos_bound.
Qed.

(** Within [n] draws the source fails or gives a value that is accepted. *)
Inductive settles (bound : Z) : nat → S → Prop :=
| settles_error n s e s' : fill 8 s = (Err e, s') → settles bound (Datatypes.S n) s
| settles_accept n s bs s' :
    fill 8 s = (Ok bs, s') → threshold bound ≤ le_value bs → settles bound (Datatypes.S n) s
| settles_again n s bs s' :
    fill 8 s = (Ok bs, s') → settles bound n s' → settles bound (Datatypes.S n) s.

Lemma uniform_index_total bound n s :
  settles bound n s → uniform_index fill n bound s ≠ None.
Proof.
  induction 1 as [n s e s' E|n s bs s' E Ht|n s bs s' E _ IH]; cbn [uniform_index];
    unfold_gen; rewrite E; [done| |by case_match].
  by rewrite (proj2 (Z.leb_le _ _)) by done.
Qed.

Lemma nth_elem {A} (l : list A) d i : 0 ≤ i < zlen l → nth (Z.to_nat i) l d ∈ l.
Proof.
  unfold zlen. intros Hi. apply list_elem_of_In, nth_In. lia.
Qed.

Lemma password_loop_spec fuel n characters s out s' :
  0 < zlen characters → password_loop fill fuel n characters s = Some (Ok out, s') →
  ∃ cs, out = mjoin (encode_utf8 <$> cs) ∧ length cs = n ∧ Forall (λ c, c ∈ characters) cs.
Proof.
  intros Hc. revert s out s'. induction n as [|n IH]; intros s out s'; cbn [password_loop].
  { unfold_gen. intros [= <- _]. by exists []. }
  unfold_gen. intros H. repeat case_match; simplify_eq.
  match goal with H : uniform_index _ _ _ _ = _ |- _ =>
    apply uniform_index_range in H; [|done] end.
  match goal with H : password_loop _ _ _ _ _ = _ |- _ => apply IH in H as (cs & -> & Hl & Hcs) end.
  eexists (_ :: cs). split_and!; [done|cbn; by rewrite Hl|].
  constructor; [|done]. by apply nth_elem.
Qed.

Lemma password_loop_total fuel n characters s :
  (∀ s, settles (zlen characters) fuel s) →
  password_loop fill fuel n characters s ≠ None.
Proof.
  intros Hs. revert s. induction n as [|n IH]; intros s; cbn [password_loop]; unfold_gen; [done|].
  pose proof (uniform_index_total _ _ _ (Hs s)) as Hu.
  repeat case_match; simplify_eq; try done.
  match goal with H : password_loop _ _ _ _ _ = None |- _ => by apply IH in H end.
Qed.

Lemma sort_dedup_nodup cs : zlen (sort_dedup cs) = zlen cs → NoDup cs.
Proof.
  intros H. assert (NoDup (sort_dedup cs)) as Hd by apply bt_wf_nodup, bs_of_list_wf.
  assert (sort_dedup cs ⊆+ cs) as Hsub.
  { apply NoDup_submseteq; [done|]. intros c. unfold sort_dedup. by rewrite bs_of_list_elem. }
  assert (sort_dedup cs ≡ₚ cs) as Hp
    by (apply submseteq_length_Permutation; [done|unfold zlen in H; lia]).
  by rewrite <- Hp.
Qed.

Lemma mjoin_encode_len cs :
  zlen (mjoin (encode_utf8 <$> cs)) ≤ 4 * zlen cs.
Proof.
  induction cs as [|c cs IH]; [done|].
  rewrite mjoin_fmap_cons, zlen_app, len_utf8_encode, zlen_cons.
  pose proof (len_utf8_bounds c). lia.
Qed.

Lemma password_ok fuel length alphabet s out s' :
  0 ≤ length → password fill fuel length alphabet s = Some (Ok out, s') →
  ∃ cs, out = mjoin (encode_utf8 <$> cs) ∧ zlen cs = length
    ∧ Forall (λ c, c ∈ chars alphabet) cs
    ∧ NoDup (chars alphabet) ∧ 0 < length ∧ zlen out ≤ 4 * length ≤ MAX_OUTPUT_BYTES.
Proof.
  intros Hl. unfold password. unfold_gen. intros H. repeat case_match; simplify_eq. bool_prop.
  match goal with H : password_loop _ _ _ _ _ = _ |- _ =>
    apply password_loop_spec in H as (cs & -> & Hlen & Hcs) end;
    [|pose proof (zlen_nonneg (chars alphabet)); lia].
  match goal with H : checked _ = Some _ |- _ => unfold checked in H end.
  case_match; simplify_eq.
  exists cs. pose proof (mjoin_encode_len cs). unfold zlen in *.
  split_and!; [done|lia|done|apply sort_dedup_nodup; unfold zlen; lia|lia|lia|lia].
Qed.
End Output.

(** One 64-bit draw decides an index without bias: every index below the
    bound comes from exactly [q] of the [2 ^ 64] draws, and all other draws,
    fewer than the bound, are rejected. *)
Theorem uniform_index_unbiased bound :
  0 < bound ≤ u64_max →
  ∃ q, 1 ≤ q ∧ 2 ^ 64 - q * bound = threshold bound ∧ threshold bound < bound
  ∧ ∀ i, 0 ≤ i < bound → ∃ first, 0 ≤ first ∧ first + (q - 1) * bound < 2 ^ 64
      ∧ ∀ v, 0 ≤ v < 2 ^ 64 → one_draw bound v = Some i ↔ ∃ j, 0 ≤ j < q ∧ v = first + j * bound.
Proof.
  intros Hb. destruct (threshold_spec bound Hb) as (Ht & q & Hq & Heq).
  exists q. split_and!; [done|lia|lia|]. intros i Hi.
  exists (threshold bound + (i - threshold bound) mod bound).
  pose proof (Z.mod_pos_bound (i - threshold bound) bound ltac:(lia)) as Hpos.
  split_and!; [lia|nia|]. intros v Hv. rewrite one_draw_spec by done.
  rewrite <- (accepted_values bound i v q) by (done || lia). intuition lia.
Qed.

Lemma uniform_index_unbiased_witness :
  ∃ q, 1 ≤ q ∧ 2 ^ 64 - q * 90 = threshold 90 ∧ threshold 90 < 90
  ∧ ∀ i, 0 ≤ i < 90 → ∃ first, 0 ≤ first ∧ first + (q - 1) * 90 < 2 ^ 64
      ∧ ∀ v, 0 ≤ v < 2 ^ 64 → one_draw 90 v = Some i ↔ ∃ j, 0 ≤ j < q ∧ v = first + j * 90.
Proof. apply (uniform_index_unbiased 90). vm_compute. by split. Defined.

(** A generated password is the UTF-8 of exactly [length] characters of
    an alphabet without repetitions, at most 1 MiB and within the capacity
    reserved for it; and when the source settles each draw within the fuel,
    the generator returns. *)
Theorem password_spec {S} (fill : nat → S → result GenError (list Z) * S) fuel length alphabet s :
  0 ≤ length →
  (∀ out s', password fill fuel length alphabet s = Some (Ok out, s') →
     ∃ cs, from_utf8 out = Some (of_chars cs) ∧ chars (of_chars cs) = cs ∧ zlen cs = length
       ∧ Forall (λ c, c ∈ chars alphabet) cs ∧ NoDup (chars alphabet)
       ∧ zlen out ≤ 4 * length ≤ MAX_OUTPUT_BYTES)
  ∧ ((∀ s, settles fill (zlen (chars alphabet)) fuel s) →
     password fill fuel length alphabet s ≠ None).
Proof.
  intros Hl. split.
  - intros out s' H. apply password_ok in H as (cs & -> & Hlen & Hcs & Hd & _ & Ho); [|done].
    assert (all_scalar cs) as Hsc.
    { eapply Forall_impl; [exact Hcs|]. intros c Hc. cbn in Hc.
      pose proof (chars_scalar alphabet) as Ha. unfold all_scalar in Ha.
      rewrite Forall_forall in Ha. auto. }
    exists cs. split_and!; try done; [by apply from_utf8_encoded|by apply chars_of_chars|lia|lia].
  - intros Hs H. unfold password in H. unfold_gen. repeat case_match; simplify_eq.
    by eapply password_loop_total.
Qed.

(** A source that fills buffers with a counter. *)
Definition counting (n : nat) (s : Z) : result GenError (list Z) * Z :=
  (Ok ((λ i, (s + Z.of_nat i) mod 256) <$> seq 0 n), s + Z.of_nat n).

Lemma password_spec_witness :
  ∃ cs, from_utf8 [97; 98; 97] = Some (of_chars cs) ∧ chars (of_chars cs) = cs ∧ zlen cs = 3
    ∧ Forall (λ c, c ∈ chars "ab") cs ∧ NoDup (chars "ab")
    ∧ zlen [97; 98; 97] ≤ 4 * 3 ≤ MAX_OUTPUT_BYTES.
Proof.
  apply (proj1 (password_spec (λ n s, let '(r, s') := counting n s in (r, s' + 1)) 1 3 "ab" 0 ltac:(lia))
    [97; 98; 97] 27).
  vm_compute. reflexivity.
Defined.

Section MoreOutput.
Context {S : Type} (fill : nat → S → result GenError (list Z) * S).
Context (encode_slice : ByteEncoding → list Z → Z → option (list Z)).

(** The separator before each word but the first, then the words. *)
Definition joined_bytes (first : bool) (separator : string) (ws : list string) : list Z :=
  match ws with
  | [] => []
  | w :: ws => (if first then [] else bytes separator) ++ bytes w
               ++ mjoin ((λ w, bytes separator ++ bytes w) <$> ws)
  end.

Lemma joined_bytes_join separator ws : joined_bytes true separator ws = bytes (join separator ws).
Proof.
  destruct ws as [|w ws]; [done|]. cbn [joined_bytes app].
  revert w. induction ws as [|w' ws IH]; intros w; [cbn [join]; by rewrite app_nil_r|].
  change (join separator (w :: w' :: ws)) with (w +:+ separator +:+ join separator (w' :: ws)).
  rewrite mjoin_fmap_cons, !bytes_app, <- IH. by rewrite <- (assoc app).
Qed.

Lemma passphrase_loop_spec fuel n first separator words s out s' :
  0 < zlen words → passphrase_loop fill fuel n first separator words s = Some (Ok out, s') →
  ∃ ws, out = joined_bytes first separator ws ∧ length ws = n ∧ Forall (λ w, w ∈ words) ws.
Proof.
  intros Hw. revert first s out s'.
  induction n as [|n IH]; intros first s out s'; cbn [passphrase_loop].
  { unfold_gen. intros [= <- _]. by exists []. }
  unfold_gen. intros H.
  destruct (uniform_index fill fuel (zlen words) s) as [[[i|] s1]|] eqn:Ei; try done.
  destruct (passphrase_loop fill fuel n false separator words s1) as [[[rest|] s2]|] eqn:Er;
    try done.
  apply uniform_index_range in Ei; [|done]. apply IH in Er as (ws & -> & Hl & Hws).
  simplify_eq. exists (nth (Z.to_nat i) words "" :: ws).
  split_and!; [|done|constructor; [by apply nth_elem|done]].
  destruct ws as [|w ws]; [done|]. cbn [joined_bytes]. by rewrite mjoin_fmap_cons, <- (assoc app).
Qed.

Lemma longest_max words w : w ∈ words → slen w ≤ longest words.
Proof.
  induction words as [|w' words IH]; [by intros ?%elem_of_nil|].
  cbn [longest foldr]. intros [->|Hin]%elem_of_cons; [lia|].
  specialize (IH Hin). unfold longest in IH. lia.
Qed.

Lemma join_len_bound separator ws m :
  ws ≠ [] → (∀ w, w ∈ ws → slen w ≤ m) →
  slen (join separator ws) ≤ zlen ws * m + (zlen ws - 1) * slen separator.
Proof.
  intros Hne. destruct ws as [|w ws]; [done|]. clear Hne.
  revert w. induction ws as [|w' ws IH]; intros w Hm.
  - cbn [join]. replace (zlen [w]) with 1 by done. specialize (Hm w ltac:(set_solver)). lia.
  - change (join separator (w :: w' :: ws)) with (w +:+ separator +:+ join separator (w' :: ws)).
    rewrite !slen_app, zlen_cons.
    assert (∀ x, x ∈ w' :: ws → slen x ≤ m) as Hm' by (intros; apply Hm; set_solver).
    specialize (IH w' Hm'). specialize (Hm w ltac:(set_solver)). lia.
Qed.
End MoreOutput.

(** A passphrase that is returned is exactly [count] words of the list joined by
    the separator, and it fits the capacity computed before: no more than
    1 MiB. *)
Theorem passphrase_spec {S} (fill : nat → S → result GenError (list Z) * S) fuel count separator
  words s out s' :
  0 ≤ count → passphrase fill fuel count separator words s = Some (Ok out, s') →
  ∃ ws, out = bytes (join separator ws) ∧ zlen ws = count ∧ Forall (λ w, w ∈ words) ws
    ∧ zlen out ≤ count * longest words + (count - 1) * slen separator ≤ MAX_OUTPUT_BYTES.
Proof.
  intros Hc. unfold passphrase. unfold_gen. intros H. repeat case_match; simplify_eq. bool_prop.
  match goal with H : passphrase_loop _ _ _ _ _ _ _ = _ |- _ =>
    apply passphrase_loop_spec in H as (ws & -> & Hl & Hws) end;
    [|pose proof (zlen_nonneg words); lia].
  rewrite joined_bytes_join, <- slen_bytes.
  exists ws. unfold checked, mbind, option_bind in *. repeat case_match; simplify_eq.
  assert (zlen ws = count) as Hzl by (unfold zlen; lia).
  split_and!; [done|done|done| |lia].
  rewrite <- Hzl. apply join_len_bound.
  - intros ->. unfold zlen in Hzl. cbn in Hzl. lia.
  - intros w Hin. apply longest_max. rewrite Forall_forall in Hws. auto.
Qed.

Lemma passphrase_spec_witness :
  ∃ ws, bytes "a-b-a" = bytes (join "-" ws) ∧ zlen ws = 3 ∧ Forall (λ w, w ∈ ["a"; "b"]) ws
    ∧ zlen (bytes "a-b-a") ≤ 3 * longest ["a"; "b"] + (3 - 1) * slen "-" ≤ MAX_OUTPUT_BYTES.
Proof.
  apply (passphrase_spec (λ n s, let '(r, s') := counting n s in (r, s' + 1)) 1 3 "-" ["a"; "b"] 0
    (bytes "a-b-a") 27); [lia|]. vm_compute. reflexivity.
Defined.

(** ** Bytes *)
(** What the documentation of the [base64] crate promises of [encode_slice]:
    with padding 4 bytes per started group of 3, without padding no more than
    the bits need; and it writes all of it whenever the buffer holds it. *)
Definition base64_len (engine : ByteEncoding) (n : Z) : Z :=
  match engine with Base64UrlUnpadded => (4 * n + 2) / 3 | _ => (n + 2) / 3 * 4 end.
Definition base64_engine (encode_slice : ByteEncoding → list Z → Z → option (list Z)) : Prop :=
  ∀ e raw n, base64_len e (zlen raw) ≤ n →
    ∃ out, encode_slice e raw n = Some out ∧ zlen out = base64_len e (zlen raw).

(** The source fills the buffer it is given. *)
Definition fills_buffer {S} (fill : nat → S → result GenError (list Z) * S) : Prop :=
  ∀ n s bs s', fill n s = (Ok bs, s') → length bs = n.

Lemma hex_lower_len raw : zlen (hex_lower raw) = 2 * zlen raw.
Proof.
  unfold hex_lower. induction raw as [|b raw IH]; [done|].
  rewrite mjoin_fmap_cons, zlen_app, zlen_cons, IH. unfold zlen. cbn [length]. lia.
Qed.

(** Random bytes never fail in the encoder and are never cut short: the
    output is the encoding of the [length] bytes that were drawn and has the length
    [encoded_length] announced, which is within the output bound. *)
Theorem fixed_bytes_spec {S} (fill : nat → S → result GenError (list Z) * S) encode_slice
  length encoding s :
  fills_buffer fill → base64_engine encode_slice → 0 ≤ length →
  match fixed_bytes fill encode_slice length encoding s with
  | Some (Ok out, _) => encoded_length length encoding = Ok (zlen out)
      ∧ 0 < length ∧ zlen out ≤ MAX_OUTPUT_BYTES
      ∧ ∃ raw, (fill (Z.to_nat length) s).1 = Ok raw ∧ zlen raw = length ∧
          out = match encoding with
                | Raw => raw
                | HexLower => hex_lower raw
                | e => default [] (encode_slice e raw (zlen out))
                end
  | Some (Err e, _) => e = Empty "byte length" ∨ e = Limit "encoded output"
      ∨ e = Limit "generated output" ∨ ∃ s', fill (Z.to_nat length) s = (Err e, s')
  | None => False
  end.
Proof.
  intros Hf Hb Hl. unfold fixed_bytes. unfold_gen.
  destruct (length =? 0) eqn:E0; cbn [negb]; [by left|]. bool_prop.
  destruct (encoded_length length encoding) as [n|e] eqn:En; cycle 1.
  { unfold encoded_length, ok_or in En. case_match; simplify_eq. auto. }
  destruct (n <=? MAX_OUTPUT_BYTES) eqn:Em; [|by right; right; left]. bool_prop.
  destruct (fill (Z.to_nat length) s) as [[raw|e] s'] eqn:Ef; [|naive_solver].
  pose proof (Hf _ _ _ _ Ef) as Hlen0. assert (zlen raw = length) as Hraw by (unfold zlen; lia).
  assert (∀ e, (e = Base64 ∨ e = Base64UrlUnpadded) → encoding = e → n = base64_len e (zlen raw)) as Hn.
  { intros e He ->. unfold encoded_length, ok_or, checked, mbind, option_bind in En.
    rewrite Hraw. unfold base64_len.
    destruct He as [->| ->]; repeat case_match; simplify_eq; [done|f_equal; lia]. }
  destruct encoding.
  - unfold encoded_length, ok_or in En. simplify_eq.
    split_and!; [done|lia|done|by exists raw].
  - unfold encoded_length, ok_or, checked in En. repeat case_match; simplify_eq.
    rewrite hex_lower_len. split_and!; [f_equal; lia|lia|lia|by exists raw].
  - rewrite (Hn Base64) in * by auto. unfold encode_base64.
    destruct (Hb Base64 raw (base64_len Base64 (zlen raw))) as (out & Ho & Hlen); [done|].
    rewrite Ho. cbn. split_and!; [by rewrite Hlen|lia|lia|].
    exists raw. do 2 (split; [done|]). by rewrite Hlen, Ho.
  - rewrite (Hn Base64UrlUnpadded) in * by auto. unfold encode_base64.
    destruct (Hb Base64UrlUnpadded raw (base64_len Base64UrlUnpadded (zlen raw)))
      as (out & Ho & Hlen); [done|].
    rewrite Ho. cbn. split_and!; [by rewrite Hlen|lia|lia|].
    exists raw. do 2 (split; [done|]). by rewrite Hlen, Ho.
Qed.

Definition sample_engine (e : ByteEncoding) (raw : list Z) (n : Z) : option (list Z) :=
  if base64_len e (zlen raw) <=? n
  then Some (repeat 65 (Z.to_nat (base64_len e (zlen raw)))) else None.

Lemma sample_engine_ok : base64_engine sample_engine.
Proof.
  intros e raw n Hn. unfold sample_engine. rewrite (proj2 (Z.leb_le _ _)) by done.
  eexists. split; [done|]. unfold zlen. rewrite repeat_length, Z2Nat.id; [done|].
  unfold base64_len. destruct e; (apply Z.mul_nonneg_nonneg; [apply Z.div_pos; lia|lia])
    || (apply Z.div_pos; lia).
Qed.

Lemma counting_fills : fills_buffer counting.
Proof. intros n s bs s' [= <- _]. by rewrite length_fmap, length_seq. Qed.

Lemma fixed_bytes_spec_witness :
  match fixed_bytes counting sample_engine 32 Base64 0 with
  | Some (Ok out, _) => encoded_length 32 Base64 = Ok (zlen out)
      ∧ 0 < 32 ∧ zlen out ≤ MAX_OUTPUT_BYTES
      ∧ ∃ raw, (counting (Z.to_nat 32) 0).1 = Ok raw ∧ zlen raw = 32
          ∧ out = default [] (sample_engine Base64 raw (zlen out))
  | Some (Err e, _) => e = Empty "byte length" ∨ e = Limit "encoded output"
      ∨ e = Limit "generated output" ∨ ∃ s', counting (Z.to_nat 32) 0 = (Err e, s')
  | None => False
  end.
Proof.
  apply (fixed_bytes_spec counting sample_engine 32 Base64 0);
    [apply counting_fills|apply sample_engine_ok|lia].
Defined.

(** ** Passwords under consumer constraints *)
Section Constrained.
Context {S : Type} (fill : nat → S → result GenError (list Z) * S) (fuel : nat).
Context (encode_slice : ByteEncoding → list Z → Z → option (list Z)).
Context (regex_new : string → result string (string → bool)).

Definition fits (constraints : option ConsumerConstraints) (value : list Z) : Prop :=
  ∃ text, from_utf8 value = Some text
    ∧ ∀ c, constraints = Some c → accepts regex_new c text = Ok tt.

Lemma accepts_bytes_fits c value :
  accepts_bytes regex_new c value = true → fits (Some c) value.
Proof.
  unfold accepts_bytes, fits. destruct (from_utf8 value) as [text|]; [|done]. cbn.
  intros H. exists text. split; [done|]. intros ? [= <-].
  by destruct (accepts regex_new c text) as [[]|].
Qed.

Lemma generated_password_utf8 length alphabet s value s' :
  0 ≤ length →
  generate_with fill fuel encode_slice (Password length alphabet) s = Some (Ok value, s') →
  ∃ cs, from_utf8 value = Some (of_chars cs) ∧ chars (of_chars cs) = cs ∧ zlen cs = length.
Proof.
  intros Hl H. cbn [generate_with] in H.
  destruct (password_spec fill fuel length alphabet s Hl) as [Hp _].
  apply Hp in H as (cs & ? & ? & ? & _). eauto.
Qed.

Lemma password_tries_fits n constraints length alphabet s value s' :
  0 ≤ length →
  password_tries fill fuel encode_slice regex_new n constraints length alphabet s
    = Some (Ok (Some value), s') → fits constraints value.
Proof.
  intros Hl. revert s. induction n as [|n IH]; intros s; [done|]. cbn [password_tries].
  intros H. repeat case_match; simplify_eq; [|by eapply IH].
  destruct constraints as [c|]; cbn in *; [by apply accepts_bytes_fits|].
  match goal with H : password _ _ _ _ _ = _ |- _ =>
    apply (generated_password_utf8 _ _ _ _ _ Hl) in H as (cs & ? & _) end.
  by eexists.
Qed.

Lemma password_alphabets_fits alphabets constraints length s value s' :
  0 ≤ length →
  password_alphabets fill fuel encode_slice regex_new alphabets constraints length s
    = Some (Ok value, s') → fits constraints value.
Proof.
  intros Hl. revert s. induction alphabets as [|a alphabets IH]; intros s; [done|].
  cbn [password_alphabets]. intros H. repeat case_match; simplify_eq; [|by eapply IH].
  by eapply password_tries_fits.
Qed.

(** The limits [constrained_password] reads are [usize] values. *)
Definition limits_ok (constraints : option ConsumerConstraints) : Prop :=
  ∀ c, constraints = Some c →
    is_none_or (λ n, 0 <=? n) (cc_shorter c) = true
    ∧ is_none_or (λ n, 0 <=? n) (cc_longer c) = true.
End Constrained.

(** A password that is returned for a consumer satisfies the consumer's
    own constraints: it is UTF-8 text that [ConsumerConstraints::accepts]. *)
Theorem password_meets_constraints {S} (fill : nat → S → result GenError (list Z) * S) fuel
  encode_slice regex_new constraints s value s' :
  limits_ok constraints →
  constrained_password fill fuel encode_slice regex_new constraints s = Some (Ok value, s') →
  ∃ text, from_utf8 value = Some text
    ∧ ∀ c, constraints = Some c → accepts regex_new c text = Ok tt.
Proof.
  intros Hc. unfold constrained_password. case_match; [done|].
  apply password_alphabets_fits. bool_prop. unfold usize_max, u64_max in *.
  destruct constraints as [c|]; cbn in *; [|lia].
  destruct (Hc c eq_refl) as [H1 H2]. destruct (cc_shorter c), (cc_longer c); cbn in *;
    bool_prop; lia.
Qed.

Definition sample_constraints : ConsumerConstraints :=
  {| cc_shorter := Some 4; cc_longer := Some 6; cc_regex := Some "[a-z]+" |}.
Definition sample_regex (p : string) : result string (string → bool) :=
  Ok (all_bytes is_ascii_lowercase).

Lemma password_meets_constraints_witness :
  ∃ text, from_utf8 (bytes "ikmoqs") = Some text
    ∧ ∀ c, Some sample_constraints = Some c → accepts sample_regex c text = Ok tt.
Proof.
  eapply (password_meets_constraints counting 3 sample_engine sample_regex
    (Some sample_constraints) 0).
  - intros c [= <-]. by split.
  - vm_compute. reflexivity.
Defined.

Lemma password_total {S} (fill : nat → S → result GenError (list Z) * S) fuel length alphabet s :
  0 < length → length * 4 ≤ MAX_OUTPUT_BYTES →
  0 < zlen (chars alphabet) ≤ MAX_ALPHABET_CHARS →
  zlen (sort_dedup (chars alphabet)) = zlen (chars alphabet) →
  (∀ s, settles fill (zlen (chars alphabet)) fuel s) → (∀ n s, is_ok (fill n s).1 = true) →
  ∃ value s', password fill fuel length alphabet s = Some (Ok value, s').
Proof.
  intros Hl Hm Ha Hd Hs Hf.
  assert (∀ n b s e s', uniform_index fill n b s ≠ Some (Err e, s')) as Hu.
  { intros n b. induction n as [|n IH]; intros s0 e s' H; cbn [uniform_index] in H; [done|].
    unfold_gen. pose proof (Hf 8%nat s0) as H8.
    destruct (fill 8%nat s0) as [[bs|] s1]; [|done].
    destruct (threshold b <=? le_value bs); [done|by eapply IH]. }
  assert (∀ n cs s e s', password_loop fill fuel n cs s ≠ Some (Err e, s')) as Hpl.
  { intros n cs. induction n as [|n IH]; intros s0 e s' H; cbn [password_loop] in H; [done|].
    unfold_gen. destruct (uniform_index fill fuel (zlen cs) s0) as [[[i|] s1]|] eqn:Ei;
      [|by eapply Hu|done].
    destruct (password_loop fill fuel n cs s1) as [[[r|] s2]|] eqn:Er; [done|by eapply IH|done]. }
  unfold password. unfold_gen.
  rewrite (proj2 (Z.eqb_neq length 0)), (proj2 (Z.eqb_neq (zlen (chars alphabet)) 0)) by lia.
  cbn [negb]. rewrite (proj2 (Z.leb_le (zlen (chars alphabet)) _)) by lia.
  rewrite (proj2 (Z.eqb_eq _ _)) by done. unfold checked.
  rewrite (proj2 (Z.leb_le (length * 4) usize_max))
    by (unfold MAX_OUTPUT_BYTES, usize_max, u64_max in *; lia).
  rewrite (proj2 (Z.leb_le (length * 4) MAX_OUTPUT_BYTES)) by done.
  pose proof (password_loop_total fill fuel (Z.to_nat length) (chars alphabet) s Hs) as Ht.
  destruct (password_loop fill fuel (Z.to_nat length) (chars alphabet) s) as [[[v|e] s']|] eqn:E;
    [eauto|by apply Hpl in E|done].
Qed.

(** When a consumer sets no pattern, its length limits are consistent
    (minimum at most the maximum, at least one character, minimum at most
    256), the random source works and each of its draws is settled within
    the fuel, a password is generated. *)
Theorem password_always_possible {S} (fill : nat → S → result GenError (list Z) * S) fuel
  encode_slice regex_new c s :
  limits_ok (Some c) → cc_regex c = None →
  default 0 (cc_shorter c) ≤ default usize_max (cc_longer c) →
  default 0 (cc_shorter c) ≤ 256 → default usize_max (cc_longer c) ≠ 0 →
  (∀ s, settles fill 90 fuel s) → (∀ n s, is_ok (fill n s).1 = true) →
  ∃ value s', constrained_password fill fuel encode_slice regex_new (Some c) s = Some (Ok value, s').
Proof.
  intros Hc Hre Hmm Hmin Hmax Hs Hf. destruct (Hc c eq_refl) as [H1 H2].
  unfold constrained_password. cbn [mbind option_bind].
  rewrite (proj2 (Z.ltb_ge 256 _)), (proj2 (Z.eqb_neq _ 0)) by done. cbn [orb].
  set (length := Z.min _ _).
  assert (default 0 (cc_shorter c) ≤ length ≤ default usize_max (cc_longer c)
          ∧ 0 < length ≤ 256) as [Hlen Hpos].
  { subst length. unfold usize_max, u64_max in *.
    destruct (cc_shorter c), (cc_longer c); cbn in *; bool_prop; lia. }
  cbn [PASSWORD_ALPHABETS password_alphabets password_tries generate_with].
  match goal with |- context [password fill fuel length ?a s] => set (alphabet := a) end.
  assert (zlen (chars alphabet) = 90) as Ha by (vm_compute; reflexivity).
  destruct (password_total fill fuel length alphabet s) as (value & s' & E).
  - lia.
  - unfold MAX_OUTPUT_BYTES. lia.
  - rewrite Ha. unfold MAX_ALPHABET_CHARS. lia.
  - vm_compute. reflexivity.
  - by rewrite Ha.
  - done.
  - change (password_tries fill fuel encode_slice regex_new 16) with
      (password_tries fill fuel encode_slice regex_new (Datatypes.S 15)).
    cbn [password_tries generate_with]. rewrite E.
    destruct (generated_password_utf8 fill fuel encode_slice length alphabet s value s')
      as (cs & Hu & Hcs & Hn); [lia|done|].
    assert (accepts_bytes regex_new c value = true) as Hacc.
    { unfold accepts_bytes, accepts. rewrite Hu. cbn [is_some_and].
      rewrite Hcs, Hn, Hre, !(proj2 (Z.ltb_ge _ _)) by lia. done. }
    cbn [is_none_or]. rewrite Hacc. eauto.
Qed.

Definition all_ones (n : nat) (s : unit) : result GenError (list Z) * unit := (Ok (repeat 255 n), s).

Lemma password_always_possible_witness :
  ∃ value s', constrained_password all_ones 1 sample_engine sample_regex
    (Some {| cc_shorter := Some 4; cc_longer := Some 6; cc_regex := None |}) tt = Some (Ok value, s').
Proof.
  apply (password_always_possible all_ones 1 sample_engine sample_regex
    {| cc_shorter := Some 4; cc_longer := Some 6; cc_regex := None |} tt);
    try (by vm_compute).
  - intros c [= <-]. by split.
  - intros []. eapply (settles_accept all_ones 90 0 tt (repeat 255 8) tt); [done|by vm_compute].
Defined.
