(* ===== verification/Framing.v ===== *)
(** * Length-prefixed JSON frames

    [crates/core/src/framing.rs].  A reader is the bytes it will deliver and
    what ends them: end of file or an I/O error.  The JSON encoder and parser
    ([serde_json]) are arguments. *)
From S2P Require Import Prelude BTree Text.
#[local] Open Scope Z_scope.

Definition MAX_FRAME : Z := 8 * 1024 * 1024.

Inductive IoError :=
| UnexpectedEof
| InvalidData (message : string)
| InvalidInput (message : string)
| OtherIo (message : string).

Record Reader := { rd_bytes : list Z; rd_end : option string }.

(** [Read::read_exact]: the bytes, or the error after all of them are consumed. *)
Definition read_exact (n : Z) : stE Reader IoError (list Z) := λ r,
  if n <=? zlen (rd_bytes r)
  then (Ok (take (Z.to_nat n) (rd_bytes r)),
        {| rd_bytes := drop (Z.to_nat n) (rd_bytes r); rd_end := rd_end r |})
  else (Err match rd_end r with None => UnexpectedEof | Some e => OtherIo e end,
        {| rd_bytes := []; rd_end := rd_end r |}).

Section Codec.
Context {T : Type}.
(** [serde_json::to_vec] and [serde_json::from_slice]. *)
Context (to_vec : T → result string (list Z)) (from_slice : list Z → result string T).

Definition read_json : stE Reader IoError (option T) := λ r,
  match read_exact 4 r with
  | (Err UnexpectedEof, r) => (Ok None, r)
  | (Err error, r) => (Err error, r)
  | (Ok prefix, r) =>
      let length := be_value prefix in
      if MAX_FRAME <? length then (Err (InvalidData "JSON frame is too large"), r)
      else match read_exact length r with
           | (Err error, r) => (Err error, r)
           | (Ok body, r) =>
               (match from_slice body with
                | Ok value => Ok (Some value)
                | Err error => Err (InvalidData error)
                end, r)
           end
  end.

(** The bytes [write_json] hands to the writer. *)
Definition write_json (value : T) : result IoError (list Z) :=
  match to_vec value with
  | Err error => Err (InvalidData error)
  | Ok body =>
      if MAX_FRAME <? zlen body then Err (InvalidInput "JSON frame is too large")
      else Ok (be_bytes 4 (zlen body) ++ body)
  end.

(** [while let Some(value) = read_json(reader)? { ... }]. *)
Fixpoint read_frames (fuel : nat) : stE Reader IoError (option (list T)) := λ r,
  match fuel with
  | O => (Ok None, r)
  | S fuel =>
      match read_json r with
      | (Ok (Some value), r) =>
          match read_frames fuel r with
          | (Ok (Some values), r) => (Ok (Some (value :: values)), r)
          | (other, r) => (other, r)
          end
      | (Ok None, r) => (Ok (Some []), r)
      | (Err e, r) => (Err e, r)
      end
  end.

(** Parsing gives back what was encoded. *)
Definition codec_ok : Prop :=
  ∀ value body, to_vec value = Ok body → from_slice body = Ok value.

Lemma read_exact_app n (l rest : list Z) e :
  zlen l = n →
  read_exact n {| rd_bytes := l ++ rest; rd_end := e |} =
    (Ok l, {| rd_bytes := rest; rd_end := e |}).
Proof.
  intros <-. unfold read_exact. cbn [rd_bytes rd_end].
  rewrite zlen_app, (proj2 (Z.leb_le _ _)) by (pose proof (zlen_nonneg rest); lia).
  unfold zlen. rewrite Nat2Z.id, take_app_length, drop_app_length. done.
Qed.

Lemma write_then_read value frame rest e :
  codec_ok → write_json value = Ok frame →
  read_json {| rd_bytes := frame ++ rest; rd_end := e |} =
    (Ok (Some value), {| rd_bytes := rest; rd_end := e |}).
Proof.
  intros Hc. unfold write_json. destruct (to_vec value) as [body|] eqn:Eb; [|done].
  destruct (MAX_FRAME <? zlen body) eqn:El; [done|]. intros E.
  assert (frame = be_bytes 4 (zlen body) ++ body) as -> by congruence.
  unfold read_json. rewrite <- (assoc app), read_exact_app
    by (unfold zlen; by rewrite length_be_bytes).
  rewrite be_value_bytes_id
    by (bool_prop; unfold MAX_FRAME in El; pose proof (zlen_nonneg body); lia).
  rewrite El, read_exact_app by done. by rewrite (Hc _ _ Eb).
Qed.
End Codec.

(** Frames written one after another are read back, value by value, in
    order, and the reader stops at the end of the stream. *)
Theorem frames_round_trip {T} (to_vec : T → result string (list Z)) from_slice values frames :
  codec_ok to_vec from_slice →
  Forall2 (λ value frame, write_json to_vec value = Ok frame) values frames →
  ∀ fuel, (length values < fuel)%nat →
  read_frames from_slice fuel {| rd_bytes := mjoin frames; rd_end := None |} =
    (Ok (Some values), {| rd_bytes := []; rd_end := None |}).
Proof.
  intros Hc. induction 1 as [|value frame values frames Hw Hall IH]; intros fuel Hf.
  - destruct fuel; [cbn in Hf; lia|]. done.
  - destruct fuel as [|fuel]; cbn in Hf; [lia|].
    change (mjoin (frame :: frames)) with (frame ++ mjoin frames). cbn [read_frames].
    rewrite (write_then_read to_vec from_slice value) by done. rewrite IH by lia. done.
Qed.

Lemma frames_round_trip_witness :
  read_frames (λ body, Ok (of_bytes body)) 5
    {| rd_bytes := [0; 0; 0; 2; 97; 98] ++ [0; 0; 0; 0]; rd_end := None |} =
    (Ok (Some ["ab"; ""]), {| rd_bytes := []; rd_end := None |}).
Proof.
  apply (frames_round_trip (λ s, Ok (bytes s)) (λ body, Ok (of_bytes body)) ["ab"; ""]
    [[0; 0; 0; 2; 97; 98]; [0; 0; 0; 0]]).
  - intros value body [= <-]. f_equal. apply of_bytes_bytes.
  - repeat constructor.
  - cbn. lia.
Defined.

(** On any input [read_json] takes at most the prefix and 8 MiB, whatever
    length the prefix announces, and a stream that ends within the four
    prefix bytes reads as a clean end. *)
Theorem read_json_bounded {T} (from_slice : list Z → result string T) r :
  let '(result, r') := read_json from_slice r in
  rd_end r' = rd_end r
  ∧ (∃ taken, rd_bytes r = taken ++ rd_bytes r')
  ∧ zlen (rd_bytes r) - zlen (rd_bytes r') ≤ 4 + MAX_FRAME
  ∧ (MAX_FRAME < be_value (take 4 (rd_bytes r)) → 4 ≤ zlen (rd_bytes r) →
       result = Err (InvalidData "JSON frame is too large")
       ∧ zlen (rd_bytes r) - zlen (rd_bytes r') = 4)
  ∧ (zlen (rd_bytes r) < 4 → rd_end r = None → result = Ok None).
Proof.
  destruct r as [l e]. unfold read_json, read_exact. cbn [rd_bytes rd_end].
  destruct (4 <=? zlen l) eqn:E4; bool_prop; cbn [rd_bytes rd_end].
  2:{ assert (∃ taken, l = taken ++ []) by (exists l; by rewrite app_nil_r).
      assert (zlen l - zlen (@nil Z) ≤ 4 + MAX_FRAME)
        by (replace (zlen (@nil Z)) with 0 by done; unfold MAX_FRAME; lia).
      destruct e; cbn; split_and!; try done; lia. }
  change (Z.to_nat 4) with 4%nat.
  assert (zlen l - zlen (drop 4 l) = 4) as Hd by (unfold zlen in *; rewrite length_drop; lia).
  destruct (MAX_FRAME <? be_value (take 4 l)) eqn:Em; bool_prop; cbn [rd_bytes rd_end].
  { split_and!; try done; [exists (take 4 l); by rewrite take_drop|unfold MAX_FRAME; lia|lia]. }
  set (n := be_value (take 4 l)) in *.
  destruct (n <=? zlen (drop 4 l)) eqn:En; bool_prop; cbn [rd_bytes rd_end].
  - split_and!; try done; try lia; [|].
    + exists (take 4 l ++ take (Z.to_nat n) (drop 4 l)).
      by rewrite <- (assoc app), !take_drop.
    + unfold zlen in *. rewrite length_drop. unfold MAX_FRAME in *. lia.
  - split_and!; try (destruct e; done); try lia; try (destruct e; cbn; done).
    + exists l. by rewrite app_nil_r.
    + unfold zlen in *. cbn [length]. unfold MAX_FRAME in *. lia.
Qed.
