(* ===== verification/Git.v ===== *)
(** * Commits of the managed files

    [crates/core/src/git.rs]: what a commit would contain, and the commit
    itself.  Running git and looking for a file are arguments; what this file
    decides is which commands are run, with which arguments, and when none is. *)
From S2P Require Import Prelude Text.
#[local] Open Scope Z_scope.

Definition MANAGED_FILES : list string := ["nix-secrets.toml"; "nix-secrets-profiles.toml"].

Record CommitSummary := {
  cs_diff_stat : string;
  cs_changed : list string;
  cs_foreign_staged : list string;
  cs_head_message : option string;
  cs_signs : bool
}.
Record CommitOptions := { co_message : string; co_amend : bool; co_signoff : bool }.
Record CommitResult := { cr_hash : string; cr_output : string }.

(** What a finished git process left; [op_status] is its printed status. *)
Record Output := { op_success : bool; op_status : string; op_stdout : list Z; op_stderr : list Z }.

Class Git (S : Type) := {
  (** git with these arguments and, when given, this [SSH_AUTH_SOCK]. *)
  git_process : list string → option string → stE S string Output;
  file_present : string → S → bool
}.

Definition checked (output : Output) : result string string :=
  if op_success output then ok_or "git printed non-UTF-8 output" (from_utf8 (op_stdout output))
  else
    let stderr := trim (lossy (op_stderr output)) in
    Err (if bool_decide (stderr = "") then "git failed with " +:+ op_status output else stderr).

Section Repository.
Context {S : Type} `{Git S} (directory : string).

(** [git()] with further arguments: the directory comes first. *)
Definition git (arguments : list string) (agent : option string) : stE S string Output := λ s,
  match git_process (["-C"; directory] ++ arguments) agent s with
  | (Ok output, s) => (Ok output, s)
  | (Err error, s) => (Err ("git could not be started: " +:+ error), s)
  end.
Definition run (arguments : list string) : stE S string string :=
  output ← git arguments None;
  st_lift (checked output).
(** The result of a command as a value: [ok()], [is_ok_and], [or_else]. *)
Definition try_run (arguments : list string) : stE S string (result string string) := λ s,
  let '(r, s) := run arguments s in (Ok r, s).

Definition has_head : stE S string bool := λ s,
  match git ["rev-parse"; "--verify"; "-q"; "HEAD"] None s with
  | (Ok output, s) => (Ok (op_success output), s)
  | (Err _, s) => (Ok false, s)
  end.

Definition managed_paths : stE S string (list string) :=
  tracked ← run (["ls-files"; "--"] ++ MANAGED_FILES);
  s ← st_get;
  mret (List.filter (λ file, file_present (directory +:+ "/" +:+ file) s
                             || existsb (λ line, bool_decide (line = file)) (str_lines tracked))
          MANAGED_FILES).

Definition foreign_staged : stE S string (list string) :=
  head ← has_head;
  staged ← (if head : bool then run ["diff"; "--cached"; "--name-only"; "-z"; "HEAD"]
            else
              r ← try_run ["diff"; "--cached"; "--name-only"; "-z"; "--root"];
              match r with
              | Ok staged => mret staged
              | Err _ => run ["ls-files"; "-z"; "--cached"]
              end);
  mret (List.filter (λ path, negb (bool_decide (path = "")) && negb (bool_decide (path ∈ MANAGED_FILES)))
          (split (zb 0) staged)).

(** [trim_end] of a printed text. *)
Definition trim_end (text : string) : string :=
  of_chars (reverse (trim_start (reverse (chars text)))).

Definition with_untracked (changed : list string) (diff_stat : string) : string :=
  let untracked := omap (strip_prefix "?? ") changed in
  if bool_decide (untracked = []) then diff_stat
  else
    let note := "new: " +:+ join ", " untracked in
    if bool_decide (diff_stat = "") then note else diff_stat +:+ String (zb 10) note.

Definition summary : stE S string CommitSummary :=
  paths ← managed_paths;
  head ← has_head;
  signing ← try_run ["config"; "--type=bool"; "--get"; "commit.gpgsign"];
  let signs := match signing with Ok value => bool_decide (trim value = "true") | Err _ => false end in
  foreign ← foreign_staged;
  if bool_decide (paths = []) then
    mret {| cs_diff_stat := ""; cs_changed := []; cs_foreign_staged := foreign;
            cs_head_message := None; cs_signs := signs |}
  else
    status ← run (["status"; "--porcelain=v1"; "--untracked-files=all"; "--"] ++ paths);
    let changed := str_lines status in
    diff ← run ((if head : bool then ["diff"; "--stat"; "HEAD"; "--"] else ["diff"; "--stat"; "--cached"; "--"])
                ++ paths);
    message ← (if head : bool then
                 r ← try_run ["log"; "-1"; "--format=%B"; "HEAD"];
                 mret (match r with Ok message => Some (trim_end message) | Err _ => None end)
               else mret None);
    mret {| cs_diff_stat := with_untracked changed (trim_end diff); cs_changed := changed;
            cs_foreign_staged := foreign; cs_head_message := message; cs_signs := signs |}.

(** The command line of the commit, before the paths. *)
Definition commit_arguments (options : CommitOptions) (message : string) (signed_by_agent : bool) : list string :=
  (if signed_by_agent then ["-c"; "gpg.ssh.program=ssh-keygen"] else [])
  ++ ["commit"; "--quiet"]
  ++ (if co_amend options then "--amend" :: (if bool_decide (message = "") then ["--no-edit"] else []) else [])
  ++ (if co_signoff options then ["--signoff"] else [])
  ++ (if bool_decide (message = "") then [] else ["--cleanup=strip"; "-m"; message]).

Definition commit (options : CommitOptions) (agent : option string) : stE S string CommitResult :=
  let message := trim (co_message options) in
  _ ← st_guard (negb (bool_decide (message = "") && negb (co_amend options))) "the commit message is empty";
  foreign ← foreign_staged;
  _ ← st_guard (bool_decide (foreign = []))
        ("other changes are staged, so nothing was committed; unstage them first: " +:+ join ", " foreign);
  paths ← managed_paths;
  _ ← st_guard (negb (bool_decide (paths = []))) "there are no nix-secrets files to commit";
  _ ← run (["add"; "--"] ++ paths);
  output ← git (commit_arguments options message (is_some agent) ++ ["--"] ++ paths) agent;
  stdout ← st_lift (checked output);
  hash ← run ["rev-parse"; "HEAD"];
  line ← try_run ["log"; "-1"; "--format=[%h] %s"; "HEAD"];
  mret {| cr_hash := trim hash;
          cr_output := match line with
                       | Ok line => trim line
                       | Err _ => default "" (head (str_lines stdout))
                       end |}.
End Repository.

(** * Commits touch the managed files only

    Git is an arbitrary environment here: each process answers as it likes,
    depending on everything that was run before.  Whatever it answers, the
    changing commands of [commit] are the staging and the commit of managed
    files, and neither runs while other changes are staged. *)
(** A git process: its arguments and the agent it may sign through. *)
Definition Call : Type := list string * option string.

(** An environment that answers from what was run so far. *)
Definition journal (answer : list Call → Call → result string Output) (present : string → list Call → bool)
  : Git (list Call) :=
  {| git_process arguments agent := λ s, (answer s (arguments, agent), s ++ [(arguments, agent)]);
     file_present := present |}.

Section Commits.
Context (answer : list Call → Call → result string Output) (present : string → list Call → bool).
Context (directory : string).
#[local] Instance run_journal : Git (list Call) := journal answer present.

Definition in_directory (arguments : list string) : list string := ["-C"; directory] ++ arguments.

(** Commands that change nothing. *)
Definition read_only (call : Call) : Prop :=
  ∃ command arguments, call = (in_directory (command :: arguments), None)
    ∧ command ∈ ["rev-parse"; "ls-files"; "diff"; "log"].

(** Git succeeded with this text when [history] had been run. *)
Definition printed (history : list Call) (arguments : list string) (text : string) : Prop :=
  ∃ output, answer history (in_directory arguments, None) = Ok output
    ∧ op_success output = true ∧ from_utf8 (op_stdout output) = Some text.

(** The listings of staged paths. *)
Definition staged_listings : list (list string) :=
  [["diff"; "--cached"; "--name-only"; "-z"; "HEAD"]; ["diff"; "--cached"; "--name-only"; "-z"; "--root"];
   ["ls-files"; "-z"; "--cached"]].
(** [text] is such a listing, printed between [start] and [history]. *)
Definition listed_staged (start history : list Call) (text : string) : Prop :=
  ∃ before arguments, start `prefix_of` before ∧ before `prefix_of` history
    ∧ arguments ∈ staged_listings ∧ printed before arguments text.

(** From a history with [P], [m] only runs commands that change nothing and
    yields what [Q] says. *)
Definition reads {A} (P : list Call → Prop) (m : stE (list Call) string A) (Q : list Call → A → Prop) : Prop :=
  ∀ s r s', P s → m s = (r, s') →
    ∃ calls, s' = s ++ calls ∧ Forall read_only calls ∧ ∀ a, r = Ok a → Q s' a.

Lemma reads_ret {A} (a : A) P (Q : list Call → A → Prop) : (∀ s, P s → Q s a) → reads P (mret a) Q.
Proof.
  intros HQ s r s' HP [= <- <-]. exists []. rewrite app_nil_r.
  split_and!; [done|constructor|]. intros ? [= <-]. by apply HQ.
Qed.

Lemma reads_bind {A B} (m : stE (list Call) string A) (k : A → stE (list Call) string B) P Q R :
  reads P m Q → (∀ a, reads (λ s, Q s a) (k a) R) → reads P (mbind k m) R.
Proof.
  intros Hm Hk s r s' HP. unfold mbind, stE_bind. destruct (m s) as [[a|e] s1] eqn:E;
    destruct (Hm _ _ _ HP E) as (c1 & -> & Hc1 & Ha).
  - intros Hr. destruct (Hk a _ _ _ (Ha a eq_refl) Hr) as (c2 & -> & Hc2 & Hb).
    exists (c1 ++ c2). rewrite app_assoc. split_and!; [done|by apply Forall_app|done].
  - intros [= <- <-]. exists c1. by split_and!.
Qed.

Lemma run_eq arguments s r s' :
  run directory arguments s = (r, s') →
  s' = s ++ [(in_directory arguments, None)] ∧ ∀ text, r = Ok text → printed s arguments text.
Proof.
  unfold run, git, mbind, stE_bind, st_lift. cbn [git_process run_journal journal].
  fold (in_directory arguments).
  destruct (answer s (in_directory arguments, None)) as [output|e] eqn:E; intros [= <- <-]; [|done].
  split; [done|]. intros text Ht. exists output. unfold checked in Ht.
  destruct (op_success output) eqn:Hs; [|done].
  destruct (from_utf8 (op_stdout output)) eqn:Hu; by simplify_eq/=.
Qed.

Definition is_reading (command : string) : Prop := command ∈ ["rev-parse"; "ls-files"; "diff"; "log"].

Lemma reads_run start command arguments :
  is_reading command →
  reads (λ s, start `prefix_of` s) (run directory (command :: arguments))
    (λ s text, ∃ before, start `prefix_of` before ∧ before `prefix_of` s
       ∧ printed before (command :: arguments) text).
Proof.
  intros Hc s r s' HP [-> Hr]%run_eq. eexists. split; [done|].
  split; [repeat constructor; by exists command, arguments|].
  intros text ->. exists s. split_and!; [done|by eexists|by apply Hr].
Qed.

Lemma reads_run_any P command arguments :
  is_reading command → reads P (run directory (command :: arguments)) (λ _ _, True).
Proof.
  intros Hc s r s' _ [-> Hr]%run_eq. eexists. split; [done|].
  split; [repeat constructor; by exists command, arguments|done].
Qed.

Lemma reads_try_run start command arguments :
  is_reading command →
  reads (λ s, start `prefix_of` s) (try_run directory (command :: arguments))
    (λ s r, start `prefix_of` s ∧ ∀ text, r = Ok text → ∃ before, start `prefix_of` before ∧ before `prefix_of` s
       ∧ printed before (command :: arguments) text).
Proof.
  intros Hc s r s' HP. unfold try_run. destruct (run directory (command :: arguments) s) as [r0 s1] eqn:E.
  intros [= <- <-]. destruct (reads_run _ _ _ Hc _ _ _ HP E) as (calls & -> & ? & ?).
  exists calls. split_and!; [done..|]. intros a [= ->]. split; [by apply prefix_app_r|done].
Qed.

Lemma reads_has_head start :
  reads (λ s, start `prefix_of` s) (has_head directory) (λ s _, start `prefix_of` s).
Proof.
  intros s r s' HP. unfold has_head, git. cbn [git_process run_journal journal].
  intros H. assert (s' = s ++ [(in_directory ["rev-parse"; "--verify"; "-q"; "HEAD"], None)]) as ->
    by (by destruct (answer _ _); simplify_eq).
  eexists. split; [done|]. split; [|intros; by apply prefix_app_r].
  repeat constructor. exists "rev-parse". eexists. split; [done|]. by left.
Qed.

Lemma reads_listing start command arguments :
  is_reading command → command :: arguments ∈ staged_listings →
  reads (λ s, start `prefix_of` s) (run directory (command :: arguments)) (listed_staged start).
Proof.
  intros Hc Hin s r s' HP H. destruct (reads_run _ _ _ Hc _ _ _ HP H) as (calls & -> & ? & Hr).
  exists calls. split_and!; [done..|]. intros text Ht. destruct (Hr _ Ht) as (before & ? & ? & ?).
  by exists before, (command :: arguments).
Qed.

(** The paths of a listing that are not managed. *)
Definition others (text : string) : list string :=
  List.filter (λ path, negb (bool_decide (path = "")) && negb (bool_decide (path ∈ MANAGED_FILES)))
    (split (zb 0) text).

Lemma reads_foreign_staged start :
  reads (λ s, start `prefix_of` s) (foreign_staged directory)
    (λ s foreign, ∃ text, listed_staged start s text ∧ foreign = others text).
Proof.
  eapply reads_bind; [apply reads_has_head|]. intros head.
  eapply (reads_bind _ _ _ (listed_staged start)); [|intros text; apply reads_ret; eauto].
  destruct head.
  - apply reads_listing; [by do 2 right; left|by left].
  - eapply reads_bind; [apply reads_try_run; by do 2 right; left|]. intros [text|e].
    + apply reads_ret. intros s [_ Ht]. destruct (Ht _ eq_refl) as (before & ? & ? & ?).
      eexists before, _. split_and!; [done|done| |done]. by right; left.
    + intros s r s' [HP _]. apply reads_listing; [by right; left|by right; right; left|done].
Qed.

Lemma reads_managed_paths P :
  reads P (managed_paths directory) (λ _ paths, paths ⊆ MANAGED_FILES).
Proof.
  eapply reads_bind; [apply reads_run_any; by right; left|].
  intros tracked s r s' _. unfold mbind, stE_bind, st_get, mret, stE_ret.
  remember (List.filter _ MANAGED_FILES) as kept eqn:Hk. intros [= <- <-].
  exists []. rewrite app_nil_r. split_and!; [done|constructor|]. intros paths [= <-] file Hin. subst kept.
  by apply list_elem_of_In, filter_In, proj1, list_elem_of_In in Hin.
Qed.

Definition staging (paths : list string) : Call := (in_directory (["add"; "--"] ++ paths), None).
Definition committing (options : CommitOptions) (agent : option string) (paths : list string) : Call :=
  (in_directory (commit_arguments options (trim (co_message options)) (is_some agent) ++ ["--"] ++ paths), agent).

(** What a commit that got past its checks changed, and how it ended. *)
Definition changed (options : CommitOptions) (agent : option string) (start before : list Call)
    (changes : list Call) (r : result string CommitResult) : Prop :=
  ∃ paths text, paths ≠ [] ∧ paths ⊆ MANAGED_FILES
    ∧ listed_staged start before text ∧ others text = []
    ∧ (trim (co_message options) = "" → co_amend options = true)
    ∧ (changes = [staging paths] ∧ is_ok r = false
       ∨ changes = [staging paths; committing options agent paths]
         ∧ (is_ok r = true → ∃ output,
              answer (before ++ [staging paths]) (committing options agent paths) = Ok output
              ∧ op_success output = true)).

Lemma listed_later start history later text :
  listed_staged start history text → history `prefix_of` later → listed_staged start later text.
Proof.
  intros (before & arguments & ? & ? & ? & ?) Hp. exists before, arguments.
  split_and!; [done|by etrans|done..].
Qed.

(** The part of [commit] after the staging. *)
Lemma after_staging options agent paths s r s' :
  (output ← git directory (commit_arguments options (trim (co_message options)) (is_some agent) ++ ["--"] ++ paths) agent;
   stdout ← st_lift (checked output);
   hash ← run directory ["rev-parse"; "HEAD"];
   line ← try_run directory ["log"; "-1"; "--format=[%h] %s"; "HEAD"];
   mret {| cr_hash := trim hash;
           cr_output := match line with
                        | Ok line => trim line
                        | Err _ => default "" (head (str_lines stdout))
                        end |}) s = (r, s') →
  ∃ after, s' = s ++ [committing options agent paths] ++ after ∧ Forall read_only after
    ∧ (is_ok r = true → ∃ output, answer s (committing options agent paths) = Ok output ∧ op_success output = true).
Proof.
  unfold mbind at 1, stE_bind at 1, git at 1. cbn [git_process run_journal journal].
  set (c := committing options agent paths).
  change (["-C"; directory] ++ _, agent) with c.
  destruct (answer s c) as [output|e] eqn:Ea; [|intros [= <- <-]; by exists []].
  unfold mbind at 1, stE_bind at 1, st_lift at 1. unfold checked. destruct (op_success output) eqn:Es.
  - destruct (from_utf8 (op_stdout output)) as [stdout|] eqn:Eu; cbn [ok_or];
      [|intros [= <- <-]; exists []; by split_and!].
    intros H.
    assert (reads (λ _, True)
      (hash ← run directory ["rev-parse"; "HEAD"];
       line ← try_run directory ["log"; "-1"; "--format=[%h] %s"; "HEAD"];
       mret {| cr_hash := trim hash;
               cr_output := match line with
                            | Ok line => trim line
                            | Err _ => default "" (head (str_lines stdout))
                            end |}) (λ _ _, True)) as Hreads.
    { eapply reads_bind; [apply reads_run_any; by left|]. intros hash.
      apply (reads_bind _ _ _ (λ _ _, True)); [|intros; by apply reads_ret].
      intros s2 r2 s2' _ Hl. assert (is_reading "log") as Hlog by (by do 3 right; left).
      destruct (reads_try_run [] _ ["-1"; "--format=[%h] %s"; "HEAD"] Hlog s2 r2 s2') as (calls & ? & ? & _); [by exists s2|done|by exists calls]. }
    destruct (Hreads _ _ _ I H) as (calls & -> & ? & _). exists calls.
    rewrite app_assoc. split_and!; eauto.
  - intros [= <- <-]. exists []. by split_and!.
Qed.

(** The run of one [commit] from [start]. *)
Definition commit_trace (options : CommitOptions) (agent : option string) (start : list Call)
    (r : result string CommitResult) (final : list Call) : Prop :=
  ∃ before changes after, final = start ++ before ++ changes ++ after
    ∧ Forall read_only before ∧ Forall read_only after
    ∧ (changes = [] ∧ is_ok r = false ∨ changed options agent start (start ++ before) changes r).

Lemma trace_stops options agent start calls e :
  Forall read_only calls → commit_trace options agent start (Err e) (start ++ calls).
Proof. intros H. exists calls, [], []. rewrite !app_nil_r. split_and!; [done..|by left]. Qed.

(** C12: whatever git answers, [commit] changes nothing before it has seen a
    listing of the staged paths, printed during this call, that names managed
    files only; then it stages and commits managed files and nothing else, at
    most once, with no message only when it amends.  Every other command it
    runs changes nothing.  An error before the staging leaves the repository
    alone, and success means that git reported the commit as made. *)
Theorem commit_only_managed options agent start r final :
  commit directory options agent start = (r, final) →
  commit_trace options agent start r final.
Proof.
  unfold commit. set (message := trim (co_message options)).
  unfold mbind at 1, stE_bind at 1, st_guard at 1, st_lift at 1.
  destruct (negb (bool_decide (message = "") && negb (co_amend options))) eqn:Hm; cbn [guard_err];
    [|intros [= <- <-]; exists [], [], []; cbn [app]; rewrite app_nil_r; split_and!; [done|by constructor|by constructor|by left]].
  unfold mbind at 1, stE_bind at 1.
  destruct (foreign_staged directory start) as [[foreign|e] s1] eqn:E1;
    destruct (reads_foreign_staged start _ _ _ (reflexivity _) E1) as (c1 & -> & Hc1 & Hl);
    [|intros [= <- <-]; by apply trace_stops].
  destruct (Hl _ eq_refl) as (text & Htext & ->).
  unfold mbind at 1, stE_bind at 1, st_guard at 1, st_lift at 1.
  destruct (bool_decide (others text = [])) eqn:Ho; cbn [guard_err];
    [|intros [= <- <-]; by apply trace_stops].
  unfold mbind at 1, stE_bind at 1.
  destruct (managed_paths directory (start ++ c1)) as [[paths|e] s2] eqn:E2;
    destruct (reads_managed_paths (λ _, True) _ _ _ I E2) as (c2 & -> & Hc2 & Hp);
    rewrite <- app_assoc; assert (Forall read_only (c1 ++ c2)) as Hc by (by apply Forall_app);
    [|intros [= <- <-]; by apply trace_stops].
  unfold mbind at 1, stE_bind at 1, st_guard at 1, st_lift at 1.
  destruct (bool_decide (paths = [])) eqn:Hn; cbn [guard_err negb];
    [intros [= <- <-]; by apply trace_stops|].
  bool_prop. set (before := start ++ c1 ++ c2).
  assert (listed_staged start before text) as Hlisted by (eapply listed_later; [exact Htext|]; eexists; by rewrite <- app_assoc).
  assert (message = "" → co_amend options = true) as Hamend by naive_solver.
  unfold mbind at 1, stE_bind at 1.
  destruct (run directory (["add"; "--"] ++ paths) before) as [[added|e] s3] eqn:E3;
    apply run_eq in E3 as [-> _]; fold (staging paths).
  - intros (after & -> & Hafter & Hok)%after_staging.
    exists (c1 ++ c2), [staging paths; committing options agent paths], after.
    split_and!; [subst before; by rewrite <- !app_assoc|done..|]. right. exists paths, text.
    split_and!; [done|by apply Hp|done..|]. right. split; [done|]. intros Hr. destruct (Hok Hr) as (output & ? & ?).
    by exists output.
  - intros [= <- <-]. exists (c1 ++ c2), [staging paths], []. rewrite app_nil_r.
    split_and!; [subst before; by rewrite <- !app_assoc|done|by constructor|]. right. exists paths, text.
    split_and!; [done|by apply Hp|done..|]. by left.
Qed.
End Commits.
