(* ===== verification/Agent.v ===== *)
(** * The SSH agent relay

    [crates/core/src/git/agent.rs]: the SSH wire strings, the framing of agent
    messages, the filter on the requests that may reach the operator's agent
    and the private socket that serves them ([AgentProxy]).  The client's
    stream, the agent and the forwarding callback are arguments. *)
From S2P Require Import Prelude Text Framing Procedure.
#[local] Open Scope Z_scope.

(** ** SSH strings *)
(** The body [take_string] and the [string] of [ssh_auth.rs] share: a length
    and as many bytes.  The cursor only moves when both are there. *)
Definition wire_string (e : string) : stE (list Z) string (list Z) := λ input,
  if zlen input <? 4 then (Err e, input)
  else
    let length := be_value (take 4 input) in
    if 4 + length <=? zlen input
    then (Ok (take (Z.to_nat length) (drop 4 input)), drop (Z.to_nat (4 + length)) input)
    else (Err e, input).

Definition take_string : stE (list Z) string (list Z) := wire_string "truncated agent message".

(** [value.len() as u32] drops the high bits. *)
Definition put_string (output value : list Z) : list Z :=
  output ++ be_bytes 4 (zlen value mod 2 ^ 32) ++ value.

(** [input.strip_prefix(prefix)] of a slice. *)
Fixpoint slice_prefix (prefix l : list Z) : option (list Z) :=
  match prefix, l with
  | [], _ => Some l
  | a :: prefix, b :: l => if a =? b then slice_prefix prefix l else None
  | _, [] => None
  end.

(** ** The filter *)
Definition REQUEST_IDENTITIES : Z := 11.
Definition SIGN_REQUEST : Z := 13.
Definition FAILURE : list Z := [0; 0; 0; 1; 5].
Definition MAX_MESSAGE : Z := 256 * 1024.
Definition SSHSIG_MAGIC : list Z := bytes "SSHSIG".

Definition permitted (message : list Z) : result string unit :=
  match message with
  | [] => Err "empty agent request"
  | kind :: rest =>
      if (kind =? REQUEST_IDENTITIES) && (zlen message =? 1) then Ok tt
      else if kind =? SIGN_REQUEST then
        let '(key, rest) := take_string rest in
        _ ← key;
        let '(data, rest) := take_string rest in
        data ← data;
        if negb (zlen rest =? 4) then Err "malformed sign request"
        else
          data ← ok_or "only git commit signatures may be signed" (slice_prefix SSHSIG_MAGIC data);
          namespace ← fst (take_string data);
          if bool_decide (namespace ≠ bytes "git")
          then Err "only the git signature namespace may be signed"
          else Ok tt
      else Err ("agent request type " +:+ dec kind +:+ " is not allowed")
  end.

(** ** Messages *)
Definition invalid_length : IoError := InvalidData "agent message has an invalid length".

Definition read_message : stE Reader IoError (option (list Z)) := λ r,
  match read_exact 4 r with
  | (Err UnexpectedEof, r) => (Ok None, r)
  | (Err error, r) => (Err error, r)
  | (Ok prefix, r) =>
      let length := be_value prefix in
      if (length =? 0) || (MAX_MESSAGE <? length) then (Err invalid_length, r)
      else match read_exact length r with
           | (Ok body, r) => (Ok (Some body), r)
           | (Err error, r) => (Err error, r)
           end
  end.

Section Stream.
(** [write_all] and [flush] of a stream. *)
Context {W : Type} (write_all : list Z → stE W IoError unit) (flush : stE W IoError unit).

Definition write_message (body : list Z) : stE W IoError unit :=
  _ ← st_guard ((zlen body <=? u32_max) && (zlen body <=? MAX_MESSAGE))
        (InvalidInput "agent message too large");
  _ ← write_all (be_bytes 4 (zlen body));
  _ ← write_all body;
  flush.

(** ** The proxy *)
Section Serve.
Context (proc_stat : Z → option string) (owner : option Z).
Context (permitted : list Z → bool) (forward : list Z → stE W IoError (list Z)).

(** The [while let] of [serve_connection] with [fuel] messages left. *)
Fixpoint serve_messages (fuel : nat) (stream : Reader) : stE W IoError unit :=
  match fuel with
  | O => mret tt
  | S fuel =>
      match read_message stream with
      | (Ok (Some message), stream) =>
          reply ← (if permitted message then forward message else mret (drop 4 FAILURE));
          (λ w, match write_message reply w with
                | (Ok _, w) => serve_messages fuel stream w
                | (Err _, w) => (Ok tt, w)
                end) : stE W IoError unit
      | _ => mret tt
      end
  end.

(** [serve_connection]: [peer] is the process at the other end. *)
Definition serve_connection (peer : result IoError Z) (stream : Reader) : stE W IoError unit :=
  match owner with
  | Some owner =>
      pid ← st_lift peer;
      if negb (is_same_or_descendant proc_stat pid owner) then mret tt
      else serve_messages (S (length (rd_bytes stream))) stream
  | None => serve_messages (S (length (rd_bytes stream))) stream
  end.

(** One turn of [serve_until_filtered]: what [try_recv] gave and, when it
    was empty, what [accept] gave. *)
Inductive Turn (T : Type) :=
| Finished (value : T)
| Vanished
| AcceptFailed (error : IoError)
| NoConnection
| Connection (peer : result IoError Z) (stream : Reader).
Arguments Finished {T}. Arguments Vanished {T}. Arguments AcceptFailed {T}.
Arguments NoConnection {T}. Arguments Connection {T}.

(** [serve_until_filtered] over the turns that happen; [None] while the
    process that uses the socket still runs. *)
Fixpoint serve_until_filtered {T} (turns : list (Turn T)) : stE W IoError (option T) :=
  match turns with
  | [] => mret None
  | Finished value :: _ => mret (Some value)
  | Vanished :: _ => st_lift (Err (OtherIo "the signing process vanished"))
  | AcceptFailed error :: _ => st_lift (Err error)
  | NoConnection :: turns => serve_until_filtered turns
  | Connection peer stream :: turns =>
      _ ← serve_connection peer stream;
      serve_until_filtered turns
  end.
End Serve.
End Stream.
Arguments Finished {T}. Arguments Vanished {T}. Arguments AcceptFailed {T}.
Arguments NoConnection {T}. Arguments Connection {T}.

(** [AgentProxy::serve_until]: the Git policy. *)
Definition serve_until {W T} write_all flush proc_stat owner (forward : list Z → stE W IoError (list Z))
  (turns : list (Turn T)) : stE W IoError (option T) :=
  serve_until_filtered write_all flush proc_stat owner (λ message, is_ok (permitted message))
    forward turns.

(** [relay]: [connect] gives the agent's stream, what is written to it decides
    what it will answer. *)
Definition relay (connect : result IoError (list Z → Reader)) (message : list Z)
  : result IoError (list Z) :=
  if negb (is_ok (permitted message)) then Ok (drop 4 FAILURE)
  else
    agent ← connect;
    let '(sent, frame) :=
      write_message (λ l w, (Ok tt, w ++ l)) (λ w, (Ok tt, w)) message [] in
    _ ← sent;
    reply ← fst (read_message (agent frame));
    ok_or UnexpectedEof reply.

(** ** Lemmas: strings *)
(** The bytes [put_string] appends. *)
Definition enc (value : list Z) : list Z := put_string [] value.

Lemma put_string_enc output value : put_string output value = output ++ enc value.
Proof. done. Qed.

Lemma zlen_enc value : zlen (enc value) = 4 + zlen value.
Proof.
  unfold enc, put_string. rewrite app_nil_l, zlen_app. unfold zlen at 1.
  by rewrite length_be_bytes.
Qed.

Lemma enc_bytes value : forallb is_byte value = true → forallb is_byte (enc value) = true.
Proof.
  intros H. unfold enc, put_string. rewrite app_nil_l, forallb_app, H, andb_true_r.
  apply be_bytes_is_byte.
Qed.

(** What was appended is read back, and the cursor stops after it. *)
Lemma wire_string_enc e value rest :
  zlen value < 2 ^ 32 → wire_string e (enc value ++ rest) = (Ok value, rest).
Proof.
  intros Hl. unfold wire_string. pose proof (zlen_nonneg value). pose proof (zlen_nonneg rest).
  rewrite zlen_app, zlen_enc, (proj2 (Z.ltb_ge _ _)) by lia.
  unfold enc, put_string. rewrite app_nil_l, <- !(assoc app), Z.mod_small by lia.
  assert (4%nat = length (be_bytes 4 (zlen value))) as H4 by (symmetry; apply length_be_bytes).
  rewrite (take_app_length' (be_bytes 4 _)) by done.
  rewrite be_value_bytes_id by (cbn; lia).
  rewrite (proj2 (Z.leb_le _ _)) by lia.
  rewrite Z2Nat.inj_add, <- drop_drop by lia. change (Z.to_nat 4) with 4%nat.
  rewrite (drop_app_length' (be_bytes 4 _)) by done.
  unfold zlen at 1 2. by rewrite Nat2Z.id, take_app_length, drop_app_length.
Qed.

(** Nothing else is read as a string. *)
Lemma wire_string_ok e input value rest :
  forallb is_byte input = true →
  wire_string e input = (Ok value, rest) →
  input = enc value ++ rest ∧ zlen value < 2 ^ 32
  ∧ forallb is_byte value = true ∧ forallb is_byte rest = true.
Proof.
  intros Hb. unfold wire_string.
  destruct (zlen input <? 4) eqn:E4; [done|].
  destruct (_ <=? _) eqn:El; [|done]. intros [= <- <-]. bool_prop.
  rewrite <- (take_drop 4 input) in Hb. rewrite forallb_app in Hb.
  apply andb_true_iff in Hb as [Hp Hd].
  pose proof (be_value_range _ Hp) as Hr.
  assert (length (take 4 input) = 4%nat) as Hl4
    by (rewrite length_take; unfold zlen in *; lia).
  unfold zlen in Hr at 1. rewrite Hl4 in Hr. change (256 ^ Z.of_nat 4) with (2 ^ 32) in Hr.
  set (n := be_value (take 4 input)) in *.
  assert (zlen (take (Z.to_nat n) (drop 4 input)) = n) as Hn.
  { unfold zlen in *. rewrite length_take, length_drop. lia. }
  rewrite Z2Nat.inj_add, <- drop_drop by lia. change (Z.to_nat 4) with 4%nat.
  rewrite <- (take_drop (Z.to_nat n) (drop 4 input)), forallb_app in Hd.
  apply andb_true_iff in Hd as [Hv Hrest]. split_and!; try done; [|lia].
  unfold enc, put_string. rewrite app_nil_l, Hn, Z.mod_small by lia.
  assert (be_bytes 4 n = take 4 input) as Hbe.
  { unfold n. pose proof (be_bytes_value _ Hp) as Hbv. rewrite Hl4 in Hbv. exact Hbv. }
  by rewrite Hbe, <- (assoc app), !take_drop.
Qed.

Lemma wire_string_iff e input value rest :
  forallb is_byte input = true →
  wire_string e input = (Ok value, rest) ↔ input = enc value ++ rest ∧ zlen value < 2 ^ 32.
Proof.
  intros Hb. split.
  - intros H. apply wire_string_ok in H; [naive_solver|done].
  - intros [-> Hl]. by apply wire_string_enc.
Qed.

(** The next string of a wire image is determined by it. *)
Lemma enc_inj v w r s : zlen v < 2 ^ 32 → zlen w < 2 ^ 32 → enc v ++ r = enc w ++ s → v = w ∧ r = s.
Proof.
  intros Hv Hw E. pose proof (wire_string_enc "" v r Hv) as Ev.
  rewrite E, wire_string_enc in Ev by done. naive_solver.
Qed.

Lemma slice_prefix_Some p l r : slice_prefix p l = Some r ↔ l = p ++ r.
Proof.
  revert l. induction p as [|a p IH]; intros l; cbn [slice_prefix app].
  { naive_solver. }
  destruct l as [|b l]; [naive_solver|].
  destruct (Z.eqb_spec a b) as [->|Hne]; [|naive_solver].
  rewrite IH. naive_solver.
Qed.

(** ** Lemmas: messages *)
(** The frame of a message. *)
Definition frame (body : list Z) : list Z := be_bytes 4 (zlen body) ++ body.

Definition sendable (body : list Z) : Prop := 1 ≤ zlen body ≤ MAX_MESSAGE.

Lemma read_message_frame body rest e :
  sendable body →
  read_message {| rd_bytes := frame body ++ rest; rd_end := e |} =
    (Ok (Some body), {| rd_bytes := rest; rd_end := e |}).
Proof.
  intros [H1 H2]. unfold read_message, frame, MAX_MESSAGE in *.
  rewrite <- (assoc app), read_exact_app by (unfold zlen; by rewrite length_be_bytes).
  rewrite be_value_bytes_id by (cbn; lia).
  rewrite (proj2 (Z.eqb_neq _ _)), (proj2 (Z.ltb_ge _ _)) by lia.
  cbn [orb]. by rewrite read_exact_app.
Qed.

(** A message takes at least its prefix, so the proxy's loop ends. *)
Lemma read_message_shrinks r body r' :
  read_message r = (Ok (Some body), r') → (length (rd_bytes r') < length (rd_bytes r))%nat.
Proof.
  unfold read_message, read_exact.
  destruct (4 <=? zlen (rd_bytes r)) eqn:E4; [|by destruct (rd_end r)].
  cbn [rd_bytes rd_end]. destruct (_ || _); [done|].
  destruct (_ <=? zlen (drop _ _)) eqn:El; [|by destruct (rd_end r)].
  intros [= _ <-]. cbn [rd_bytes]. rewrite !length_drop. bool_prop. unfold zlen in *. lia.
Qed.

(** A message that was read is the frame at the front of the stream. *)
Lemma read_message_ok r body r' :
  forallb is_byte (rd_bytes r) = true →
  read_message r = (Ok (Some body), r') →
  rd_bytes r = frame body ++ rd_bytes r' ∧ sendable body.
Proof.
  intros Hb. unfold read_message, read_exact.
  destruct (4 <=? zlen (rd_bytes r)) eqn:E4; [|by destruct (rd_end r)].
  cbn [rd_bytes rd_end]. change (Z.to_nat 4) with 4%nat. destruct (_ || _) eqn:El; [done|].
  destruct (_ <=? zlen (drop _ _)) eqn:Ed; [|by destruct (rd_end r)].
  intros [= <- <-]. cbn [rd_bytes]. bool_prop.
  assert (forallb is_byte (take 4 (rd_bytes r)) = true) as Hp.
  { rewrite <- (take_drop 4 (rd_bytes r)), forallb_app in Hb. by apply andb_true_iff in Hb as []. }
  pose proof (be_value_range _ Hp) as Hr. pose proof (be_bytes_value _ Hp) as Hbe.
  assert (length (take 4 (rd_bytes r)) = 4%nat) as Hl4
    by (rewrite length_take; unfold zlen in *; lia).
  rewrite Hl4 in Hbe. set (n := be_value (take 4 (rd_bytes r))) in *.
  assert (zlen (take (Z.to_nat n) (drop 4 (rd_bytes r))) = n) as Hn.
  { unfold zlen in *. rewrite length_take. lia. }
  unfold frame, sendable. rewrite Hn. split; [|lia].
  by rewrite Hbe, <- (assoc app), !take_drop.
Qed.

(** ** The filter *)
(** What [ssh-keygen -Y sign -n git] sends: a key, an SSHSIG blob in the
    [git] namespace, the flags. *)
Definition git_request (key payload flags : list Z) : list Z :=
  SIGN_REQUEST :: enc key ++ enc (SSHSIG_MAGIC ++ enc (bytes "git") ++ payload) ++ flags.

Lemma take_string_iff input value rest :
  forallb is_byte input = true →
  take_string input = (Ok value, rest) ↔ input = enc value ++ rest ∧ zlen value < 2 ^ 32.
Proof. apply wire_string_iff. Qed.

Lemma permitted_git_request key payload flags :
  zlen (git_request key payload flags) < 2 ^ 32 → zlen flags = 4 →
  permitted (git_request key payload flags) = Ok tt.
Proof.
  unfold git_request. rewrite zlen_cons, !zlen_app, !zlen_enc, !zlen_app. intros Hl Hf.
  pose proof (zlen_nonneg key). pose proof (zlen_nonneg payload).
  pose proof (zlen_nonneg SSHSIG_MAGIC). pose proof (zlen_nonneg (enc (bytes "git"))).
  unfold permitted. change (SIGN_REQUEST =? REQUEST_IDENTITIES) with false.
  change (SIGN_REQUEST =? SIGN_REQUEST) with true. cbn [andb]. unfold take_string.
  rewrite wire_string_enc by lia. cbn [mbind result_bind].
  rewrite wire_string_enc by (rewrite !zlen_app; lia). cbn [mbind result_bind].
  rewrite Hf. change (negb (4 =? 4)) with false. cbn match.
  rewrite (proj2 (slice_prefix_Some SSHSIG_MAGIC _ _) eq_refl). cbn [ok_or mbind result_bind].
  rewrite wire_string_enc by done. done.
Qed.

(** C37: The filter lets exactly two kinds of request through to the
    operator's agent: the bare identity listing, and a sign request whose data
    is an SSHSIG blob in the [git] namespace; whatever else the bytes say,
    the request is refused. *)
Theorem permitted_exact message :
  forallb is_byte message = true → zlen message ≤ MAX_MESSAGE →
  permitted message = Ok tt ↔
    message = [REQUEST_IDENTITIES]
    ∨ ∃ key payload flags, message = git_request key payload flags ∧ zlen flags = 4.
Proof.
  intros Hb Hl. split.
  - destruct message as [|kind rest]; [done|]. cbn [permitted].
    destruct (_ && _) eqn:Ei.
    { intros _. left. bool_prop. destruct Ei as [-> E1]. rewrite zlen_cons in E1.
      destruct rest; [done|]. rewrite zlen_cons in E1. pose proof (zlen_nonneg rest). lia. }
    destruct (Z.eqb_spec kind SIGN_REQUEST) as [->|]; [|done].
    cbn [forallb] in Hb. apply andb_true_iff in Hb as [_ Hb].
    destruct (take_string rest) as [[key|e] rest1] eqn:E1; [|done]. cbn [mbind result_bind].
    apply wire_string_ok in E1 as (-> & _ & _ & Hb1); [|done].
    destruct (take_string rest1) as [[data|e] rest2] eqn:E2; [|done]. cbn [mbind result_bind].
    apply wire_string_ok in E2 as (-> & _ & Hbd & _); [|done].
    destruct (zlen rest2 =? 4) eqn:E4; [|done]. cbn [negb].
    destruct (slice_prefix SSHSIG_MAGIC data) as [data'|] eqn:Ep; [|done].
    apply slice_prefix_Some in Ep as ->. cbn [ok_or mbind result_bind].
    rewrite forallb_app in Hbd. apply andb_true_iff in Hbd as [_ Hbd].
    destruct (take_string data') as [[namespace|e] payload] eqn:E3; [|done].
    apply wire_string_ok in E3 as (-> & _); [|done]. cbn [fst mbind result_bind].
    case_bool_decide as Hn; [done|]. intros _. right. exists key, payload, rest2.
    bool_prop. destruct (decide (namespace = bytes "git")) as [->|]; [done|tauto].
  - intros [->|(key & payload & flags & -> & Hf)]; [done|].
    apply permitted_git_request; [|done]. unfold MAX_MESSAGE in Hl. lia.
Qed.

Lemma permitted_exact_witness :
  permitted (git_request [7] [9; 9] [0; 0; 0; 0]) = Ok tt.
Proof.
  apply permitted_exact; [reflexivity|vm_compute; discriminate|].
  right. exists [7], [9; 9], [0; 0; 0; 0]. split; reflexivity.
Defined.

(** ** The proxy *)
Section Proxy.
Context {W : Type} (write_all : list Z → stE W IoError unit) (flush : stE W IoError unit).

(** The callback is only ever asked about messages the filter lets through. *)
Lemma serve_messages_ext allowed forward forward' fuel stream w :
  (∀ message, allowed message = true → forward message = forward' message) →
  serve_messages write_all flush allowed forward fuel stream w =
  serve_messages write_all flush allowed forward' fuel stream w.
Proof.
  intros Hf. revert stream w. induction fuel as [|fuel IH]; intros stream w; [done|].
  cbn [serve_messages]. destruct (read_message stream) as [[[message|]|] stream']; try done.
  unfold mbind, stE_bind. destruct (allowed message) eqn:Ea.
  - rewrite Hf by done. destruct (forward' message w) as [[reply|] w']; [|done].
    destruct (write_message write_all flush reply w') as [[]]; auto.
  - cbn [mret stE_ret]. destruct (write_message write_all flush _ w) as [[]]; auto.
Qed.

(** The fuel of [serve_connection] is enough: more changes nothing. *)
Lemma serve_messages_fuel allowed forward fuel fuel' stream w :
  (length (rd_bytes stream) < fuel)%nat → (length (rd_bytes stream) < fuel')%nat →
  serve_messages write_all flush allowed forward fuel stream w =
  serve_messages write_all flush allowed forward fuel' stream w.
Proof.
  revert fuel' stream w. induction fuel as [|fuel IH]; intros fuel' stream w H1 H2; [lia|].
  destruct fuel' as [|fuel']; [lia|]. cbn [serve_messages].
  destruct (read_message stream) as [[[message|]|] stream'] eqn:Er; try done.
  apply read_message_shrinks in Er. unfold mbind, stE_bind.
  destruct (allowed message); cbn [mret stE_ret].
  - destruct (forward message w) as [[reply|] w']; [|done].
    destruct (write_message write_all flush reply w') as [[] w'']; [|done]. apply IH; lia.
  - destruct (write_message write_all flush _ w) as [[] w'']; [|done]. apply IH; lia.
Qed.
End Proxy.

(** A client that reads every reply: what was written is a list of bytes. *)
Definition append : list Z → stE (list Z) IoError unit := λ l w, (Ok tt, w ++ l).
Definition flushed : stE (list Z) IoError unit := mret tt.

Lemma write_message_frame body w :
  zlen body ≤ MAX_MESSAGE → write_message append flushed body w = (Ok tt, w ++ frame body).
Proof.
  intros Hl. unfold write_message, mbind, stE_bind, st_guard, st_lift, guard_err.
  rewrite (proj2 (Z.leb_le _ _)), (proj2 (Z.leb_le _ _))
    by (unfold u32_max, MAX_MESSAGE in *; lia).
  cbn [andb]. unfold append, flushed, mret, stE_ret, frame. by rewrite (assoc app).
Qed.

(** What the client gets for a request. *)
Definition answer (allowed : list Z → bool) (reply : list Z → list Z) (message : list Z) : list Z :=
  if allowed message then reply message else drop 4 FAILURE.

Lemma serve_messages_frames allowed reply messages e w :
  Forall sendable messages →
  (∀ message, message ∈ messages → allowed message = true → zlen (reply message) ≤ MAX_MESSAGE) →
  ∀ fuel, (length messages < fuel)%nat →
  serve_messages append flushed allowed (λ m, mret (reply m)) fuel
    {| rd_bytes := mjoin (frame <$> messages); rd_end := e |} w =
  (Ok tt, w ++ mjoin (frame <$> (answer allowed reply <$> messages))).
Proof.
  intros Hs. revert w. induction Hs as [|message messages Hm Hs IH]; intros w Hr fuel Hf.
  - destruct fuel; [cbn in Hf; lia|]. cbn. rewrite app_nil_r. by destruct e.
  - destruct fuel as [|fuel]; cbn [length] in Hf; [lia|].
    rewrite fmap_cons. change (mjoin (frame message :: (frame <$> messages)))
      with (frame message ++ mjoin (frame <$> messages)).
    cbn [serve_messages]. rewrite read_message_frame by done.
    rewrite !fmap_cons. change (mjoin (frame (answer allowed reply message) :: ?l))
      with (frame (answer allowed reply message) ++ mjoin l).
    assert (zlen (answer allowed reply message) ≤ MAX_MESSAGE) as Hl.
    { unfold answer. destruct (allowed message) eqn:Ea; [|done]. apply Hr; [|done]. left. }
    assert ((if allowed message then mret (reply message) else mret (drop 4 FAILURE)) =
            mret (M:=stE (list Z) IoError) (answer allowed reply message)) as ->
      by (unfold answer; by destruct (allowed message)).
    unfold mbind, stE_bind, mret, stE_ret. rewrite write_message_frame by done.
    rewrite IH; [by rewrite (assoc app)| |lia].
    intros m Hin. apply Hr. by right.
Qed.

(** A client of the private agent socket gets exactly one reply for each
    request, in order: what the operator's agent answered to a request the
    filter lets through, [SSH_AGENT_FAILURE] to every other one.  The
    operator's side is never asked about a refused request: callbacks that
    agree on the permitted requests are indistinguishable. *)
Theorem proxy_answers_in_order proc_stat owner pid reply messages :
  Forall sendable messages →
  (∀ message, is_ok (permitted message) = true → zlen (reply message) ≤ MAX_MESSAGE) →
  let stream := {| rd_bytes := mjoin (frame <$> messages); rd_end := None |} in
  let trusted := match owner with
                 | Some owner => is_same_or_descendant proc_stat pid owner
                 | None => true
                 end in
  let answers := answer (λ m, is_ok (permitted m)) reply <$> messages in
  (∀ (T : Type) (value : T) turns,
    serve_until append flushed proc_stat owner (λ m, mret (reply m))
      (Connection (Ok pid) stream :: Finished value :: turns) [] =
    (Ok (Some value), if trusted then mjoin (frame <$> answers) else []))
  ∧ (∀ (W T : Type) write_all flush (forward forward' : list Z → stE W IoError (list Z))
       (turns : list (Turn T)) w,
      (∀ m, permitted m = Ok tt → forward m = forward' m) →
      serve_until write_all flush proc_stat owner forward turns w =
      serve_until write_all flush proc_stat owner forward' turns w).
Proof.
  intros Hs Hr stream trusted answers. split.
  - intros T value turns. unfold serve_until. cbn [serve_until_filtered].
    assert (length messages < S (length (rd_bytes stream)))%nat as Hf.
    { cbn [rd_bytes stream]. clear. induction messages as [|m messages IH]; cbn [length]; [lia|].
      rewrite fmap_cons. change (mjoin (frame m :: ?l)) with (frame m ++ mjoin l).
      rewrite length_app. unfold frame at 1. rewrite length_app, length_be_bytes. lia. }
    assert (serve_messages append flushed (λ m, is_ok (permitted m)) (λ m, mret (reply m))
              (S (length (rd_bytes stream))) stream [] = (Ok tt, mjoin (frame <$> answers))) as E
      by (apply (serve_messages_frames _ reply messages None []); auto).
    unfold mbind, stE_bind, serve_connection. destruct owner as [owner|]; cbn [trusted].
    + unfold mbind, stE_bind, st_lift.
      destruct (is_same_or_descendant proc_stat pid owner) eqn:Eo; cbn [negb]; [|done].
      by rewrite E.
    + by rewrite E.
  - intros W T write_all flush forward forward' turns. unfold serve_until.
    induction turns as [|turn turns IH]; intros w Hf; [done|].
    destruct turn as [value| |error| |peer stream']; cbn [serve_until_filtered]; auto.
    unfold mbind, stE_bind, serve_connection.
    assert (∀ fuel s w', serve_messages write_all flush (λ m, is_ok (permitted m)) forward fuel s w' =
       serve_messages write_all flush (λ m, is_ok (permitted m)) forward' fuel s w') as Hm.
    { intros. apply serve_messages_ext. intros m Hm. apply Hf. by destruct (permitted m) as [[]|]. }
    destruct owner as [owner|].
    + unfold mbind, stE_bind, st_lift. destruct peer as [p|]; [|done].
      destruct (negb _); [cbn; by apply IH|]. rewrite Hm.
      destruct (serve_messages _ _ _ _ _ _ _) as [[]]; auto.
    + rewrite Hm. destruct (serve_messages _ _ _ _ _ _ _) as [[]]; auto.
Qed.

(** An agent that answers short requests with 12 and the request. *)
Definition sample_reply (m : list Z) : list Z := if zlen m <? 9 then 12 :: m else [12].

Lemma proxy_answers_in_order_witness :
  serve_until append flushed (λ _, None) None (λ m, mret (sample_reply m))
    [Connection (Ok 4) {| rd_bytes := mjoin (frame <$> [[11]; [17]; [11]]); rd_end := None |};
     Finished true] [] =
  (Ok (Some true), [0; 0; 0; 2; 12; 11] ++ [0; 0; 0; 1; 5] ++ [0; 0; 0; 2; 12; 11]).
Proof.
  apply (proxy_answers_in_order (λ _, None) None 4 sample_reply [[11]; [17]; [11]]).
  - repeat constructor; vm_compute; congruence.
  - intros m _. unfold sample_reply. destruct (zlen m <? 9) eqn:E; [|done]. bool_prop.
    rewrite zlen_cons. unfold MAX_MESSAGE. lia.
Defined.
