(* ===== verification/SshAuth.v ===== *)
(** * SSH login signatures

    [crates/core/src/ssh_auth.rs]: the requests that have the operator's agent
    sign one SSH user authentication, the approvals that cover several of
    them, and the checks both ends make.  The base64 decoder, the parser of
    host keys ([ssh_key]) and SHA-512 are arguments. *)
From S2P Require Import Prelude Text Framing Procedure Agent.
#[local] Open Scope Z_scope.

Record SignatureRequest := {
  sr_public_key : string;
  sr_destination : string;
  sr_message : list Z
}.

Record LoginGrantRequest := {
  lg_public_key : string;
  lg_destination : string
}.

(** The private [string]: same body as [take_string]. *)
Definition ssh_string : stE (list Z) string (list Z) := wire_string "truncated SSH string".

(** [if cursor.first() != Some(&b) { return Err(e) }; cursor = &cursor[1..]]. *)
Definition expect_byte (b : Z) (e : string) : stE (list Z) string unit := λ input,
  match input with
  | first :: rest => if first =? b then (Ok tt, rest) else (Err e, input)
  | [] => (Err e, input)
  end.

(** [string(&mut cursor)? != expected] guarding an error. *)
Definition expect_string (expected : list Z) (e : string) : stE (list Z) string unit :=
  value ← ssh_string;
  st_guard (bool_decide (value = expected)) e.

(** [cursor != expected] guarding an error. *)
Definition expect_rest (expected : list Z) (e : string) : stE (list Z) string unit :=
  rest ← st_get;
  st_guard (bool_decide (rest = expected)) e.

Definition ED25519 : list Z := bytes "ssh-ed25519".

(** Checks a [user@host] destination and returns its user. *)
Definition destination_user (destination : string) : result string string :=
  match split_once "@" destination with
  | None => Err "destination must be user@host"
  | Some (user, host) =>
      if bool_decide (user = "") || (64 <? slen user)
         || bool_decide (host = "") || (253 <? slen host)
         || negb (all_bytes (λ b, is_ascii_alphanumeric b || byte_of "_.-" b) user)
         || negb (all_bytes (λ b, is_ascii_alphanumeric b || byte_of "_.:-" b) host)
      then Err "invalid SSH destination"
      else Ok user
  end.

(** [LOGIN_GRANT_WINDOW] in seconds. *)
Definition LOGIN_GRANT_WINDOW : Z := 30 * 60.
Definition LOGIN_GRANT_SIGNATURES : Z := 256.
Definition LOGIN_APPROVAL_NAMESPACE : list Z := bytes "nix-secrets-login-approval@sirati.me".

Section Keys.
(** [base64::STANDARD.decode]. *)
Context (decode : string → option (list Z)).

Definition key_blob (public_key : string) : result string (list Z) :=
  let fields := split_whitespace public_key in
  if negb (bool_decide (head fields = Some "ssh-ed25519"))
  then Err "SSH authentication relay currently requires an Ed25519 key"
  else
    encoded ← ok_or "missing public key" (fields !! 1%nat);
    blob ← ok_or "invalid public key encoding" (decode encoded);
    _ ← fst ((_ ← expect_string ED25519 "invalid Ed25519 public key";
              key ← ssh_string;
              _ ← st_guard (zlen key =? 32) "invalid Ed25519 public key";
              expect_rest [] "invalid Ed25519 public key") blob);
    Ok blob.

(** ** Approvals *)
Definition login_grant_validate (g : LoginGrantRequest) : result string unit :=
  _ ← destination_user (lg_destination g);
  _ ← key_blob (lg_public_key g);
  Ok tt.

Definition ok {E A} (r : result E A) : option A :=
  match r with Ok a => Some a | Err _ => None end.

Definition covers (g : LoginGrantRequest) (signature : SignatureRequest) : bool :=
  bool_decide (sr_destination signature = lg_destination g)
  && bool_decide (ok (key_blob (sr_public_key signature)) = ok (key_blob (lg_public_key g))).

Definition agent_confirmation (sha512 : list Z → list Z) (g : LoginGrantRequest) (grant : string)
  : result string (list Z) :=
  key ← key_blob (lg_public_key g);
  let statement := "approve SSH logins to " +:+ lg_destination g +:+ " for " +:+ grant in
  let data := SSHSIG_MAGIC in
  let data := put_string data LOGIN_APPROVAL_NAMESPACE in
  let data := put_string data [] in
  let data := put_string data (bytes "sha512") in
  let data := put_string data (sha512 (bytes statement)) in
  let message := [13] in
  let message := put_string message key in
  let message := put_string message data in
  Ok (message ++ [0; 0; 0; 0]).

(** ** The request to sign *)
(** [ssh_key::PublicKey::from_bytes(..).is_ok()]. *)
Context (host_key : list Z → bool).

Definition PUBLICKEY : list Z := bytes "publickey".
Definition HOSTBOUND : list Z := bytes "publickey-hostbound-v00@openssh.com".

(** The checks of [SignatureRequest::validate] on the data to sign. *)
Definition check_data (user : string) (key : list Z) : stE (list Z) string unit :=
  session ← ssh_string;
  _ ← st_guard ((zlen session =? 32) || (zlen session =? 64)) "invalid SSH session identifier";
  _ ← expect_byte 50 "only SSH user authentication may be signed";
  _ ← expect_string (bytes user) "SSH authentication destination or method differs";
  _ ← expect_string (bytes "ssh-connection") "SSH authentication destination or method differs";
  method ← ssh_string;
  host_bound ← st_lift (if bool_decide (method = PUBLICKEY) then Ok false
                        else if bool_decide (method = HOSTBOUND) then Ok true
                        else Err "only SSH public-key authentication may be signed");
  _ ← expect_byte 1 "SSH authentication must request a signature";
  _ ← expect_string ED25519 "SSH authentication key differs";
  _ ← expect_string key "SSH authentication key differs";
  _ ← (if host_bound : bool
       then bound ← ssh_string; st_guard (host_key bound) "malformed SSH server host key"
       else mret tt);
  expect_rest [] "SSH authentication key differs or has trailing data".

(** The checks of [SignatureRequest::validate] on the request around it. *)
Definition check_message (key : list Z) : stE (list Z) string (list Z) :=
  _ ← expect_byte 13 "only an SSH signing request is accepted";
  _ ← expect_string key "request asks for another SSH key";
  data ← ssh_string;
  _ ← expect_rest [0; 0; 0; 0] "unsupported SSH signing flags";
  mret data.

Definition signature_request_validate (r : SignatureRequest) : result string unit :=
  user ← destination_user (sr_destination r);
  _ ← guard_err (zlen (sr_message r) <=? MAX_MESSAGE) "SSH agent request is too large";
  key ← key_blob (sr_public_key r);
  data ← fst (check_message key (sr_message r));
  fst (check_data user key data).

(** ** Replies *)
Definition identities (public_key : string) : result string (list Z) :=
  key ← key_blob public_key;
  let reply := [12; 0; 0; 0; 1] in
  let reply := put_string reply key in
  Ok (put_string reply (bytes "nix-secrets approved SSH authentication key")).

Definition validate_reply (reply : list Z) : result string unit :=
  let malformed := "malformed SSH signature reply" in
  '(_, rest) ← (match expect_byte 14 "client SSH agent refused the authentication signature" reply with
                | (Ok _, rest) => Ok (tt, rest)
                | (Err e, _) => Err e
                end);
  signature ← fst ((signature ← ssh_string; _ ← expect_rest [] malformed; mret signature) rest);
  fst ((_ ← expect_string ED25519 malformed;
        value ← ssh_string;
        _ ← st_guard (zlen value =? 64) malformed;
        expect_rest [] malformed) signature).

(** [agent_sign]: [connect] as in [Agent.relay]; [show] prints an I/O error. *)
Definition agent_sign (show : IoError → string) (connect : result string (list Z → Reader))
  (message : list Z) : result string (list Z) :=
  agent ← connect;
  let '(sent, frame) := write_message append flushed message [] in
  _ ← map_err show sent;
  reply ← map_err show (fst (read_message (agent frame)));
  reply ← ok_or "client SSH agent closed the connection" reply;
  _ ← validate_reply reply;
  Ok reply.

Definition sign show connect (r : SignatureRequest) : result string (list Z) :=
  _ ← signature_request_validate r;
  agent_sign show connect (sr_message r).

Definition confirm_login_grant show sha512 connect (g : LoginGrantRequest) (grant : string)
  : result string unit :=
  message ← agent_confirmation sha512 g grant;
  _ ← agent_sign show connect message;
  Ok tt.
End Keys.

(** ** Lemmas: cursors *)
Lemma st_bind_ok {A B} (m : stE (list Z) string A) (k : A → stE (list Z) string B) input b rest :
  mbind k m input = (Ok b, rest) ↔
    ∃ a mid, m input = (Ok a, mid) ∧ k a mid = (Ok b, rest).
Proof.
  unfold mbind, stE_bind. destruct (m input) as [[a|] mid]; [|split; [done|naive_solver]].
  split; [eauto|]. intros (? & ? & [= -> ->] & H). done.
Qed.

Lemma st_guard_ok b (e : string) (input rest : list Z) :
  st_guard b e input = (Ok tt, rest) ↔ b = true ∧ rest = input.
Proof. unfold st_guard, st_lift, guard_err. destruct b; naive_solver. Qed.

Lemma expect_byte_ok b e input rest :
  expect_byte b e input = (Ok tt, rest) ↔ input = b :: rest.
Proof.
  unfold expect_byte. destruct input as [|x input]; [done|].
  destruct (Z.eqb_spec x b) as [->|]; naive_solver.
Qed.

Lemma expect_rest_ok expected e input rest :
  expect_rest expected e input = (Ok tt, rest) ↔ input = expected ∧ rest = input.
Proof.
  unfold expect_rest, st_get, mbind, stE_bind. rewrite st_guard_ok, bool_decide_eq_true. done.
Qed.

Lemma ssh_string_enc value rest :
  zlen value < 2 ^ 32 → ssh_string (enc value ++ rest) = (Ok value, rest).
Proof. apply wire_string_enc. Qed.

Lemma ssh_string_ok input value rest :
  forallb is_byte input = true → ssh_string input = (Ok value, rest) →
  input = enc value ++ rest ∧ zlen value < 2 ^ 32
  ∧ forallb is_byte value = true ∧ forallb is_byte rest = true.
Proof. apply wire_string_ok. Qed.

Lemma expect_string_enc expected e rest :
  zlen expected < 2 ^ 32 → expect_string expected e (enc expected ++ rest) = (Ok tt, rest).
Proof.
  intros H. unfold expect_string, mbind, stE_bind. rewrite ssh_string_enc by done.
  by rewrite bool_decide_true.
Qed.

Lemma expect_string_ok expected e input rest :
  forallb is_byte input = true → expect_string expected e input = (Ok tt, rest) →
  input = enc expected ++ rest ∧ zlen expected < 2 ^ 32 ∧ forallb is_byte rest = true.
Proof.
  intros Hb H. unfold expect_string in H. apply st_bind_ok in H as (value & mid & Hs & Hg).
  apply ssh_string_ok in Hs as (-> & Hl & _ & Hr); [|done].
  apply st_guard_ok in Hg as [Hv ->]. apply bool_decide_eq_true in Hv as ->. done.
Qed.
Lemma fst_ok {S E A} (m : result E A * S) a : fst m = Ok a ↔ ∃ s, m = (Ok a, s).
Proof. destruct m as [r s]. cbn. naive_solver. Qed.

(** Takes the checks of a successful cursor computation apart, in order. *)
Ltac inv_cursor :=
  repeat match goal with
  | H : mbind _ _ _ = (Ok _, _) |- _ => apply st_bind_ok in H as (? & ? & ? & H)
  | H : st_guard _ _ _ = (Ok _, _) |- _ => apply st_guard_ok in H as [? ?]; simplify_eq
  | x : unit |- _ => destruct x
  | H : expect_byte _ _ _ = (Ok _, _) |- _ => apply expect_byte_ok in H as ->
  | H : expect_rest _ _ _ = (Ok _, _) |- _ => apply expect_rest_ok in H as [-> ->]
  | H : expect_string _ _ _ = (Ok _, _), Hb : forallb is_byte _ = true |- _ =>
      apply expect_string_ok in H as (-> & ? & ?); [|exact Hb]
  | H : ssh_string _ = (Ok _, _), Hb : forallb is_byte _ = true |- _ =>
      apply ssh_string_ok in H as (-> & ? & ? & ?); [|exact Hb]
  | H : forallb is_byte (_ :: _) = true |- _ => cbn [forallb] in H; apply andb_true_iff in H as [_ H]
  | H : st_lift _ _ = (Ok _, _) |- _ => unfold st_lift in H; apply pair_eq in H as [H ->]
  | H : mret _ _ = (Ok _, _) |- _ => apply pair_eq in H as [H ?]; simplify_eq
  end.

(** Runs a cursor computation on a wire image. *)
Ltac run_cursor :=
  repeat match goal with
  | |- mbind _ _ _ = (Ok _, _) => apply st_bind_ok; do 2 eexists; split
  | |- expect_byte _ _ _ = _ => apply expect_byte_ok; reflexivity
  | |- expect_string _ _ _ = _ => apply expect_string_enc
  | |- ssh_string _ = _ => apply ssh_string_enc
  | |- expect_rest _ _ _ = _ => apply expect_rest_ok; split; reflexivity
  | |- st_guard _ _ _ = _ => apply st_guard_ok; split; [|reflexivity]
  | |- mret _ _ = _ => reflexivity
  end.

(** ** Lemmas: destinations and keys *)
Definition is_user (user : string) : Prop :=
  user ≠ "" ∧ slen user ≤ 64
  ∧ all_bytes (λ b, is_ascii_alphanumeric b || byte_of "_.-" b) user = true.
Definition is_host (host : string) : Prop :=
  host ≠ "" ∧ slen host ≤ 253
  ∧ all_bytes (λ b, is_ascii_alphanumeric b || byte_of "_.:-" b) host = true.

Lemma destination_user_ok destination user :
  destination_user destination = Ok user ↔
    ∃ host, destination = user +:+ "@" +:+ host ∧ is_user user ∧ is_host host.
Proof.
  unfold destination_user, is_user, is_host. split.
  - destruct (split_once "@" destination) as [[u host]|] eqn:Es; [|done].
    destruct (_ || _) eqn:Eg; [done|]. intros [= ->]. bool_prop. split_hyps.
    apply split_once_Some in Es as [-> _]. exists host. split_and!; try done.
  - intros (host & -> & (Hu1 & Hu2 & Hu3) & Hh1 & Hh2 & Hh3).
    change (user +:+ "@" +:+ host) with (user +:+ String "@" host).
    rewrite split_once_app by (eapply all_bytes_not_contains; [exact Hu3|done]).
    rewrite Hu3, Hh3, !bool_decide_false by done.
    rewrite (proj2 (Z.ltb_ge _ _)), (proj2 (Z.ltb_ge _ _)) by done. done.
Qed.

(** ** What an approved signature signs *)
(** RFC 4252, section 7: the data an SSH client signs to log in as [user]
    with [key].  [bound] is the server's key of the host-bound method. *)
Definition login_data (session user key : list Z) (bound : option (list Z)) : list Z :=
  enc session ++ 50 :: enc user ++ enc (bytes "ssh-connection") ++
  match bound with
  | None => enc PUBLICKEY ++ 1 :: enc ED25519 ++ enc key
  | Some host => enc HOSTBOUND ++ 1 :: enc ED25519 ++ enc key ++ enc host
  end.

(** The agent's sign request for [data], without flags. *)
Definition sign_message (key data : list Z) : list Z := 13 :: enc key ++ enc data ++ [0; 0; 0; 0].

(** The data a sign request has the agent sign. *)
Definition signed_data (message : list Z) : option (list Z) :=
  match message with
  | 13 :: rest =>
      match (_ ← ssh_string; ssh_string) rest with (Ok data, _) => Some data | _ => None end
  | _ => None
  end.

Section Login.
Context (decode : string → option (list Z)) (host_key : list Z → bool).

Lemma check_message_ok key message data rest :
  forallb is_byte message = true →
  check_message key message = (Ok data, rest) →
  message = sign_message key data ∧ forallb is_byte data = true.
Proof. intros Hb H. unfold check_message in H. by inv_cursor. Qed.

Lemma check_message_run key data :
  zlen key < 2 ^ 32 → zlen data < 2 ^ 32 →
  fst (check_message key (sign_message key data)) = Ok data.
Proof.
  intros Hk Hd. apply fst_ok. exists [0; 0; 0; 0]. unfold check_message, sign_message.
  run_cursor; done.
Qed.

Definition session_ok (session : list Z) : Prop := zlen session = 32 ∨ zlen session = 64.
Definition bound_ok (bound : option (list Z)) : Prop :=
  match bound with Some host => host_key host = true | None => True end.

Lemma check_data_ok user key data rest :
  forallb is_byte data = true →
  check_data host_key user key data = (Ok tt, rest) →
  ∃ session bound, data = login_data session (bytes user) key bound
    ∧ session_ok session ∧ bound_ok bound.
Proof.
  intros Hb H. unfold check_data in H. inv_cursor.
  rename select ((if bool_decide _ then _ else _) = _) into Hm.
  match goal with Hs : (zlen ?s =? 32) || _ = true |- _ =>
    exists s; assert (session_ok s) by (bool_prop; exact Hs) end.
  unfold login_data. case_bool_decide as Hp; [|case_bool_decide as Hq; [|done]];
    injection Hm as <-; cbn match in *; inv_cursor; subst.
  - exists None. by rewrite app_nil_r.
  - eexists (Some _). by rewrite app_nil_r.
Qed.

Lemma zlen_login_data session user key bound :
  zlen session + zlen user + zlen key +
    match bound with Some host => zlen host | None => 0 end
  ≤ zlen (login_data session user key bound).
Proof.
  unfold login_data. destruct bound; repeat rewrite ?zlen_app, ?zlen_cons, ?zlen_enc;
    repeat match goal with |- context [zlen ?l] =>
      lazymatch goal with _ : 0 ≤ zlen l |- _ => fail | _ => pose proof (zlen_nonneg l) end
    end; lia.
Qed.

Lemma check_data_run user key session bound :
  zlen (login_data session (bytes user) key bound) < 2 ^ 32 →
  session_ok session → bound_ok bound →
  fst (check_data host_key user key (login_data session (bytes user) key bound)) = Ok tt.
Proof.
  intros Hl Hs Hb. pose proof (zlen_login_data session (bytes user) key bound) as Hz.
  pose proof (zlen_nonneg session). pose proof (zlen_nonneg (bytes user)).
  pose proof (zlen_nonneg key). apply fst_ok. exists [].
  unfold check_data, login_data. unfold session_ok in Hs.
  destruct bound as [host|].
  - pose proof (zlen_nonneg host). rewrite <- (app_nil_r (enc host)).
    run_cursor; try lia; try done. cbn match. run_cursor; try lia; done.
  - rewrite <- (app_nil_r (enc key)). run_cursor; try lia; done.
Qed.

Lemma key_blob_ok pk key :
  (∀ s l, decode s = Some l → forallb is_byte l = true) →
  key_blob decode pk = Ok key →
  ∃ k, key = enc ED25519 ++ enc k ∧ zlen k = 32 ∧ forallb is_byte k = true.
Proof.
  intros Hd H. unfold key_blob in H. destruct (negb _); [done|].
  apply bind_ok in H as (encoded & _ & H). apply bind_ok in H as (blob & Hb & H).
  apply bind_ok in H as ([] & Hf & [= <-]). apply fst_ok in Hf as [rest Hf].
  destruct (decode encoded) as [l|] eqn:Ed; [|done]. injection Hb as ->. apply Hd in Ed.
  inv_cursor. bool_prop. eexists. by rewrite app_nil_r.
Qed.
End Login.

(** ** The theorems *)
(** C7: A login request passes exactly when its message asks the agent to sign
    one thing: the RFC 4252 authentication of the declared user, with the
    declared Ed25519 key, over a session identifier of 32 or 64 bytes, by the
    plain method or by the host-bound one with a well-formed server key. *)
Theorem login_request_exact decode host_key r :
  forallb is_byte (sr_message r) = true →
  signature_request_validate decode host_key r = Ok tt ↔
    zlen (sr_message r) ≤ MAX_MESSAGE
    ∧ ∃ user host key session bound,
        sr_destination r = user +:+ "@" +:+ host ∧ is_user user ∧ is_host host
        ∧ key_blob decode (sr_public_key r) = Ok key
        ∧ session_ok session ∧ bound_ok host_key bound
        ∧ sr_message r = sign_message key (login_data session (bytes user) key bound).
Proof.
  intros Hb. unfold signature_request_validate. rewrite bind_ok. setoid_rewrite guard_bind_ok.
  setoid_rewrite bind_ok. setoid_rewrite destination_user_ok. split.
  - intros (user & (host & Hd & Hu & Hh) & Hl & key & Hk & H). bool_prop. split; [done|].
    apply bind_ok in H as (data & Hm & Hc).
    apply fst_ok in Hm as [rest Hm]. apply fst_ok in Hc as [rest' Hc].
    apply check_message_ok in Hm as [Hm Hbd]; [|done].
    apply check_data_ok in Hc as (session & bound & -> & Hs & Hbo); [|done].
    exists user, host, key, session, bound. done.
  - intros (Hl & user & host & key & session & bound & Hd & Hu & Hh & Hk & Hs & Hbo & Hm).
    exists user. split; [by exists host|]. split; [by apply Z.leb_le|].
    exists key. split; [done|]. apply bind_ok.
    exists (login_data session (bytes user) key bound). rewrite Hm in *.
    unfold sign_message in Hl. rewrite zlen_cons, !zlen_app, !zlen_enc in Hl.
    pose proof (zlen_nonneg key). unfold MAX_MESSAGE in Hl.
    pose proof (zlen_nonneg (login_data session (bytes user) key bound)).
    change (zlen [0; 0; 0; 0]) with 4 in Hl.
    split; [apply check_message_run; lia|apply check_data_run; [lia|done..]].
Qed.

Lemma login_data_inj s1 u1 k1 b1 s2 u2 k2 b2 :
  zlen (login_data s1 u1 k1 b1) < 2 ^ 32 → zlen (login_data s2 u2 k2 b2) < 2 ^ 32 →
  login_data s1 u1 k1 b1 = login_data s2 u2 k2 b2 → u1 = u2.
Proof.
  intros H1 H2 E. pose proof (zlen_login_data s1 u1 k1 b1). pose proof (zlen_login_data s2 u2 k2 b2).
  pose proof (zlen_nonneg s1). pose proof (zlen_nonneg u1). pose proof (zlen_nonneg k1).
  pose proof (zlen_nonneg s2). pose proof (zlen_nonneg u2). pose proof (zlen_nonneg k2).
  assert (∀ b : option (list Z), 0 ≤ match b with Some host => zlen host | None => 0 end)
    as Hb by (intros []; [apply zlen_nonneg|done]).
  pose proof (Hb b1). pose proof (Hb b2).
  unfold login_data in E. apply enc_inj in E as [_ E]; [|lia..].
  apply (f_equal tail) in E. cbn [tail] in E.
  by apply enc_inj in E as [E _]; [|lia..].
Qed.

Lemma sign_message_inj k1 d1 k2 d2 :
  zlen (sign_message k1 d1) < 2 ^ 32 → zlen (sign_message k2 d2) < 2 ^ 32 →
  sign_message k1 d1 = sign_message k2 d2 → k1 = k2 ∧ d1 = d2.
Proof.
  unfold sign_message. rewrite !zlen_cons, !zlen_app, !zlen_enc. change (zlen [0; 0; 0; 0]) with 4.
  pose proof (zlen_nonneg k1). pose proof (zlen_nonneg d1).
  pose proof (zlen_nonneg k2). pose proof (zlen_nonneg d2).
  intros Hz1 Hz2 E. apply (f_equal tail) in E. cbn [tail] in E.
  apply enc_inj in E as [-> E]; [|lia..].
  by apply enc_inj in E as [-> _]; [|lia..].
Qed.

(** An approval covers only logins as its own user with its own key: when a
    valid request is covered by a valid approval, its message authenticates
    the approved user with the approved key, and any other valid request for
    the same message names that same user and key. *)
Theorem covered_login_bound decode host_key g r r' :
  login_grant_validate decode g = Ok tt →
  forallb is_byte (sr_message r) = true →
  signature_request_validate decode host_key r = Ok tt →
  covers decode g r = true →
  ∃ user key session bound,
    destination_user (lg_destination g) = Ok user
    ∧ key_blob decode (lg_public_key g) = Ok key
    ∧ sr_message r = sign_message key (login_data session (bytes user) key bound)
    ∧ (sr_message r' = sr_message r →
       signature_request_validate decode host_key r' = Ok tt →
       destination_user (sr_destination r') = Ok user
       ∧ key_blob decode (sr_public_key r') = Ok key).
Proof.
  intros Hg Hb Hv Hc. apply login_request_exact in Hv
    as (Hl & user & host & key & session & bound & Hd & Hu & Hh & Hk & Hs & Hbo & Hm); [|done].
  unfold covers in Hc. bool_prop. destruct Hc as [Hcd Hck].
  unfold login_grant_validate in Hg. apply bind_ok in Hg as (u & Hdu & Hg).
  apply bind_ok in Hg as (key' & Hk' & _). rewrite Hk, Hk' in Hck. injection Hck as <-.
  exists user, key, session, bound. split_and!; try done.
  { rewrite <- Hcd. apply destination_user_ok. by exists host. }
  intros Em Hv'. apply login_request_exact in Hv'
    as (_ & user' & host' & key' & session' & bound' & Hd' & Hu' & Hh' & Hkk & _ & _ & Hm');
    [|by rewrite Em].
  assert (zlen (sr_message r) < 2 ^ 32) as Hz by (unfold MAX_MESSAGE in Hl; lia).
  pose proof Hz as Hz'. rewrite <- Em, Hm' in Hz'. rewrite Em, Hm in Hm'. rewrite Hm in Hz.
  pose proof (sign_message_inj _ _ _ _ Hz Hz' Hm') as [-> Hdata].
  unfold sign_message in Hz, Hz'. rewrite zlen_cons, !zlen_app, !zlen_enc in Hz, Hz'.
  pose proof (zlen_nonneg key'). change (zlen [0; 0; 0; 0]) with 4 in Hz, Hz'.
  apply login_data_inj, bytes_inj in Hdata as ->; [|lia..].
  split; [|done]. apply destination_user_ok. by exists host'.
Qed.

Lemma signed_data_sign key data :
  zlen key < 2 ^ 32 → zlen data < 2 ^ 32 →
  signed_data (sign_message key data) = Some data.
Proof.
  intros Hk Hd. unfold signed_data, sign_message, mbind, stE_bind.
  by rewrite !ssh_string_enc.
Qed.

(** The data of the confirmation of an approval. *)
Definition approval_data (digest : list Z) : list Z :=
  SSHSIG_MAGIC ++ enc LOGIN_APPROVAL_NAMESPACE ++ enc [] ++ enc (bytes "sha512") ++ enc digest.

Lemma agent_confirmation_ok decode sha512 g grant c :
  agent_confirmation decode sha512 g grant = Ok c →
  ∃ key, key_blob decode (lg_public_key g) = Ok key
    ∧ c = sign_message key (approval_data (sha512 (bytes
        ("approve SSH logins to " +:+ lg_destination g +:+ " for " +:+ grant)))).
Proof.
  intros H. apply bind_ok in H as (key & Hk & [= <-]). exists key. split; [done|].
  unfold sign_message, approval_data. rewrite !put_string_enc, <- !(assoc app). done.
Qed.

Lemma signed_data_git key payload flags :
  zlen (git_request key payload flags) < 2 ^ 32 →
  signed_data (git_request key payload flags) =
    Some (SSHSIG_MAGIC ++ enc (bytes "git") ++ payload).
Proof.
  intros Hl. unfold git_request in *. rewrite zlen_cons, !zlen_app, !zlen_enc in Hl.
  pose proof (zlen_nonneg key). pose proof (zlen_nonneg flags).
  pose proof (zlen_nonneg (SSHSIG_MAGIC ++ enc (bytes "git") ++ payload)).
  change SIGN_REQUEST with 13. unfold signed_data, mbind, stE_bind.
  by rewrite !ssh_string_enc by lia.
Qed.

(** What a request of each kind has the agent sign. *)
Lemma permitted_signs x :
  forallb is_byte x = true → zlen x ≤ MAX_MESSAGE → permitted x = Ok tt →
  x = [REQUEST_IDENTITIES] ∨
  ∃ payload, signed_data x = Some (SSHSIG_MAGIC ++ enc (bytes "git") ++ payload).
Proof.
  intros Hx Hl H. apply permitted_exact in H as [->|(k & p & f & -> & _)]; [by left| |done..].
  right. exists p. apply signed_data_git. unfold MAX_MESSAGE in Hl. lia.
Qed.

(** A login's data starts with the length of its session identifier. *)
Lemma login_data_head session user key bound :
  session_ok session → ∃ rest, login_data session user key bound = 0 :: rest.
Proof.
  intros Hs. unfold login_data, enc at 1, put_string. rewrite app_nil_l.
  destruct Hs as [-> | ->]; cbn; eauto.
Qed.


Lemma login_signs decode host_key r :
  forallb is_byte (sr_message r) = true →
  signature_request_validate decode host_key r = Ok tt →
  zlen (sr_message r) ≤ MAX_MESSAGE ∧ sr_message r ≠ [REQUEST_IDENTITIES]
  ∧ ∃ rest, signed_data (sr_message r) = Some (0 :: rest).
Proof.
  intros Hx H. apply login_request_exact in H
    as (Hl & u & h & k & s & b & _ & _ & _ & _ & Hs & _ & E); [|done].
  split; [done|]. rewrite E in *. split; [done|].
  destruct (login_data_head s (bytes u) k b Hs) as [rest Er]. exists rest. rewrite <- Er.
  unfold sign_message in Hl. rewrite zlen_cons, !zlen_app, !zlen_enc in Hl.
  pose proof (zlen_nonneg k). pose proof (zlen_nonneg (login_data s (bytes u) k b)).
  change (zlen [0; 0; 0; 0]) with 4 in Hl. unfold MAX_MESSAGE in Hl.
  apply signed_data_sign; lia.
Qed.

Lemma approval_signs decode sha512 g grant c :
  (∀ s l, decode s = Some l → forallb is_byte l = true) →
  (∀ l, zlen (sha512 l) = 64 ∧ forallb is_byte (sha512 l) = true) →
  agent_confirmation decode sha512 g grant = Ok c →
  forallb is_byte c = true ∧ zlen c ≤ MAX_MESSAGE ∧ c ≠ [REQUEST_IDENTITIES]
  ∧ ∃ digest, signed_data c = Some (approval_data digest).
Proof.
  intros Hdec Hsha Hc. apply agent_confirmation_ok in Hc as (key & Hk & ->).
  apply key_blob_ok in Hk as (k & -> & Hkl & Hkb); [|done].
  destruct (Hsha (bytes ("approve SSH logins to " +:+ lg_destination g +:+ " for " +:+ grant)))
    as [Hd Hdb].
  set (digest := sha512 _) in *. set (key := enc ED25519 ++ enc k).
  assert (zlen key = 51) as Hkey by (unfold key; rewrite zlen_app, !zlen_enc, Hkl; done).
  assert (zlen (approval_data digest) < 200) as Had
    by (unfold approval_data; rewrite !zlen_app, !zlen_enc, Hd; done).
  split_and!; [| |done|exists digest; apply signed_data_sign; lia].
  - unfold sign_message. cbn [forallb]. rewrite !forallb_app.
    rewrite (enc_bytes key), (enc_bytes (approval_data _)); [done| |].
    + unfold approval_data. rewrite !forallb_app. by rewrite (enc_bytes digest).
    + unfold key. rewrite forallb_app. by rewrite (enc_bytes k).
  - unfold sign_message. rewrite zlen_cons, !zlen_app, !zlen_enc.
    change (zlen [0; 0; 0; 0]) with 4. unfold MAX_MESSAGE. lia.
Qed.

Lemma approval_not_git digest payload :
  approval_data digest ≠ SSHSIG_MAGIC ++ enc (bytes "git") ++ payload.
Proof. unfold approval_data. intros E. apply app_inv_head, enc_inj in E as [E _]; done. Qed.

(** The three things the operator's agent is ever asked to sign cannot be
    taken for one another: a login passes neither the Git filter nor as a
    confirmation, a confirmation of an approval is neither a login nor a Git
    signature, and the data signed for the three purposes always differs. *)
Theorem signing_purposes_disjoint decode host_key sha512 r g grant c m :
  (∀ s l, decode s = Some l → forallb is_byte l = true) →
  (∀ l, zlen (sha512 l) = 64 ∧ forallb is_byte (sha512 l) = true) →
  forallb is_byte (sr_message r) = true → forallb is_byte m = true →
  zlen m ≤ MAX_MESSAGE → m ≠ [REQUEST_IDENTITIES] →
  signature_request_validate decode host_key r = Ok tt →
  agent_confirmation decode sha512 g grant = Ok c →
  permitted m = Ok tt →
  (∃ login approval git,
    signed_data (sr_message r) = Some login ∧ signed_data c = Some approval
    ∧ signed_data m = Some git ∧ login ≠ approval ∧ login ≠ git ∧ approval ≠ git)
  ∧ permitted (sr_message r) ≠ Ok tt ∧ permitted c ≠ Ok tt
  ∧ ∀ pk d message, message = c ∨ message = m →
      signature_request_validate decode host_key
        {| sr_public_key := pk; sr_destination := d; sr_message := message |} ≠ Ok tt.
Proof.
  intros Hdec Hsha Hb Hbm Hlm Hid Hv Hc Hp.
  pose proof (login_signs _ _ _ Hb Hv) as (Hlr & Hir & login & Er).
  pose proof (approval_signs _ _ _ _ _ Hdec Hsha Hc) as (Hbc & Hlc & Hic & digest & Ec).
  pose proof (permitted_signs m Hbm Hlm Hp) as [?|[git Em]]; [done|].
  split_and!.
  - exists (0 :: login), (approval_data digest), (SSHSIG_MAGIC ++ enc (bytes "git") ++ git).
    split_and!; [done..|apply approval_not_git].
  - intros H. apply permitted_signs in H as [?|[p E]]; [done| |done..].
    rewrite Er in E. by injection E.
  - intros H. apply permitted_signs in H as [?|[p E]]; [done| |done..].
    rewrite Ec in E. exact (approval_not_git _ _ (Some_inj _ _ E)).
  - intros pk d message Hm H. apply login_signs in H as (_ & _ & rest & E); cbn [sr_message] in *.
    + destruct Hm as [-> | ->]; [rewrite Ec in E|rewrite Em in E]; by injection E.
    + by destruct Hm as [-> | ->].
Qed.

(** What an agent answers to a sign request it carries out. *)
Definition ed25519_reply (signature : list Z) : list Z :=
  14 :: enc (enc ED25519 ++ enc signature).

Lemma validate_reply_ok reply :
  forallb is_byte reply = true → validate_reply reply = Ok tt →
  ∃ signature, reply = ed25519_reply signature ∧ zlen signature = 64.
Proof.
  intros Hb H. unfold validate_reply in H. apply bind_ok in H as ([[] rest] & Hf & H).
  destruct (expect_byte _ _ reply) as [[[]|] ?] eqn:E; [|done]. injection Hf as ->.
  apply expect_byte_ok in E as ->. cbn [forallb] in Hb. apply andb_true_iff in Hb as [_ Hb].
  apply bind_ok in H as (outer & Ho & Hi). apply fst_ok in Ho as [? Ho]. apply fst_ok in Hi as [? Hi].
  inv_cursor. bool_prop. eexists. unfold ed25519_reply. by rewrite !app_nil_r.
Qed.

Lemma validate_reply_run signature :
  zlen signature = 64 → validate_reply (ed25519_reply signature) = Ok tt.
Proof.
  intros Hs. unfold validate_reply, ed25519_reply.
  change (expect_byte 14 _ (14 :: ?l)) with (Ok (E:=string) tt, l). cbn [mbind result_bind].
  apply bind_ok. exists (enc ED25519 ++ enc signature).
  assert (zlen (enc ED25519 ++ enc signature) < 2 ^ 32)
    by (rewrite zlen_app, !zlen_enc, Hs; done).
  split; apply fst_ok; exists [].
  - rewrite <- (app_nil_r (enc (_ ++ _))). run_cursor. done.
  - rewrite <- (app_nil_r (enc signature)). run_cursor; rewrite ?Hs; done.
Qed.

Section SignTheorem.
Context (decode : string → option (list Z)) (host_key : list Z → bool).
Context (show : IoError → string).

(** Signing on the operator's machine sends the agent the one request it
    validated and gives back exactly the well-formed Ed25519 signatures the
    agent answers; a request that fails validation never reaches the agent. *)
Theorem sign_exact (agent : list Z → Reader) r reply :
  forallb is_byte (rd_bytes (agent (frame (sr_message r)))) = true →
  (sign decode host_key show (Ok agent) r = Ok reply ↔
    signature_request_validate decode host_key r = Ok tt
    ∧ ∃ signature rest, reply = ed25519_reply signature ∧ zlen signature = 64
        ∧ rd_bytes (agent (frame (sr_message r))) = frame reply ++ rest)
  ∧ ∀ e connect, signature_request_validate decode host_key r = Err e →
      sign decode host_key show connect r = Err e.
Proof.
  intros Hb. split; [|intros e connect He; unfold sign; by rewrite He].
  unfold sign. rewrite bind_ok. split.
  - intros ([] & Hv & H). split; [done|]. unfold agent_sign in H. cbn [mbind result_bind] in H.
    assert (zlen (sr_message r) ≤ MAX_MESSAGE) as Hl.
    { apply bind_ok in Hv as (? & _ & Hv). apply guard_bind_ok in Hv as [Hv _]. by bool_prop. }
    rewrite write_message_frame in H by done. cbn [map_err mbind result_bind app] in H.
    destruct (read_message _) as [[[body|]|] r'] eqn:Er; [|done..].
    apply read_message_ok in Er as [Er _]; [|done]. cbn [fst map_err ok_or mbind result_bind] in H.
    destruct (validate_reply body) as [[]|] eqn:Ev; [|done]. injection H as <-.
    rewrite Er, forallb_app in Hb. apply andb_true_iff in Hb as [Hb _].
    unfold frame in Hb. rewrite forallb_app in Hb. apply andb_true_iff in Hb as [_ Hb].
    apply validate_reply_ok in Ev as (signature & -> & Hs); [|done]. eauto.
  - intros (Hv & signature & rest & -> & Hs & Er). exists tt. split; [done|].
    assert (zlen (sr_message r) ≤ MAX_MESSAGE) as Hl.
    { apply bind_ok in Hv as (? & _ & Hv). apply guard_bind_ok in Hv as [Hv _]. by bool_prop. }
    unfold agent_sign. cbn [mbind result_bind]. rewrite write_message_frame by done.
    cbn [map_err mbind result_bind app].
    destruct (agent _) as [l ending]. cbn [rd_bytes] in Er. subst l.
    assert (zlen (ed25519_reply signature) = 88) as Hz.
    { unfold ed25519_reply. by rewrite zlen_cons, zlen_enc, zlen_app, !zlen_enc, Hs. }
    rewrite read_message_frame by (unfold sendable, MAX_MESSAGE; lia).
    cbn [fst map_err ok_or mbind result_bind]. by rewrite validate_reply_run.
Qed.
End SignTheorem.

(** ** A sample key and login *)
Module Samples.
Definition blob : list Z := enc ED25519 ++ enc (repeat 3 32).
Definition decode (s : string) : option (list Z) :=
  if bool_decide (s = "AAAA") then Some blob else None.
Definition host_key (l : list Z) : bool := bool_decide (l = blob).
Definition sha512 (l : list Z) : list Z := repeat 7 64.
Definition login : SignatureRequest :=
  {| sr_public_key := "ssh-ed25519 AAAA me@here"; sr_destination := "update@ns1.lamk.eu";
     sr_message := sign_message blob
       (login_data (repeat 4 32) (bytes "update") blob (Some blob)) |}.
Definition grant : LoginGrantRequest :=
  {| lg_public_key := "ssh-ed25519 AAAA"; lg_destination := "update@ns1.lamk.eu" |}.
Definition git : list Z := git_request blob [1; 2; 3] [0; 0; 0; 0].
Definition agent (frame : list Z) : Reader :=
  {| rd_bytes := Agent.frame (ed25519_reply (repeat 9 64)); rd_end := None |}.

Lemma decode_bytes s l : decode s = Some l → forallb is_byte l = true.
Proof. unfold decode. case_bool_decide; [|done]. by intros [= <-]. Qed.
End Samples.

Lemma login_request_exact_witness :
  signature_request_validate Samples.decode Samples.host_key Samples.login = Ok tt.
Proof.
  apply login_request_exact; [vm_compute; reflexivity|]. split; [vm_compute; discriminate|].
  exists "update", "ns1.lamk.eu", Samples.blob, (repeat 4 32), (Some Samples.blob).
  split_and!; [reflexivity| | |vm_compute; reflexivity|by left|vm_compute; reflexivity|reflexivity];
    (split; [discriminate|split; [vm_compute; discriminate|vm_compute; reflexivity]]).
Defined.

Lemma covered_login_bound_witness :
  ∃ user key session bound,
    destination_user "update@ns1.lamk.eu" = Ok user
    ∧ key_blob Samples.decode "ssh-ed25519 AAAA" = Ok key
    ∧ sr_message Samples.login = sign_message key (login_data session (bytes user) key bound)
    ∧ (sr_message Samples.login = sr_message Samples.login →
       signature_request_validate Samples.decode Samples.host_key Samples.login = Ok tt →
       destination_user (sr_destination Samples.login) = Ok user
       ∧ key_blob Samples.decode (sr_public_key Samples.login) = Ok key).
Proof.
  apply (covered_login_bound Samples.decode Samples.host_key Samples.grant Samples.login
           Samples.login); vm_compute; reflexivity.
Defined.

Lemma signing_purposes_disjoint_witness :
  permitted (sr_message Samples.login) ≠ Ok tt.
Proof.
  destruct (agent_confirmation Samples.decode Samples.sha512 Samples.grant "g1") as [c|] eqn:Ec;
    [|vm_compute in Ec; discriminate].
  apply (signing_purposes_disjoint Samples.decode Samples.host_key Samples.sha512 Samples.login
    Samples.grant "g1" c Samples.git Samples.decode_bytes (λ _, conj eq_refl eq_refl)).
  1-2: vm_compute; reflexivity.
  1-2: vm_compute; discriminate.
  - vm_compute; reflexivity.
  - exact Ec.
  - vm_compute; reflexivity.
Defined.

Lemma sign_exact_witness :
  sign Samples.decode Samples.host_key (λ _, "") (Ok Samples.agent) Samples.login =
    Ok (ed25519_reply (repeat 9 64)).
Proof.
  apply sign_exact; [vm_compute; reflexivity|]. split; [vm_compute; reflexivity|].
  exists (repeat 9 64), []. split_and!; [reflexivity..|]. by rewrite app_nil_r.
Defined.
