(* ===== verification/Net.v ===== *)
(** * Host names and addresses that must never be pinned

    [local_only_ssh_host] and [inet_aton] of
    [crates/core/src/schema/validation.rs], with the address parser of the
    Rust standard library ([core::net]) they use: [parse::<IpAddr>()] reads an
    IPv4 or else an IPv6 address and must then be at the end of the text. *)
From S2P Require Import Prelude BTree Text.
#[local] Open Scope Z_scope.

(** ** The parser of the standard library *)
(** [char::to_digit] on a byte. *)
Definition to_digit (radix b : Z) : option Z :=
  let d := if is_ascii_digit b then b - 48
           else if in_range 97 102 b then b - 87
           else if in_range 65 70 b then b - 55 else 99 in
  if d <? radix then Some d else None.

(** The digits of [read_number] with at most [max] of them: value, count and
    the bytes after them; [None] when there are more. *)
Fixpoint read_digits (radix : Z) (max : nat) (l : list Z) (value : Z) (count : nat)
  : option (Z * nat * list Z) :=
  match l with
  | b :: l' =>
      match to_digit radix b with
      | Some d =>
          match max with
          | O => None
          | S max => read_digits radix max l' (value * radix + d) (S count)
          end
      | None => Some (value, count, l)
      end
  | [] => Some (value, count, l)
  end.

Definition read_number (radix : Z) (max : nat) (allow_zero_prefix : bool) (limit : Z)
  (l : list Z) : option (Z * list Z) :=
  match read_digits radix max l 0 0 with
  | Some (value, count, rest) =>
      let leading_zero := match l with 48 :: _ => true | _ => false end in
      if (count =? 0)%nat then None
      else if negb allow_zero_prefix && leading_zero && (1 <? count)%nat then None
      else if value <=? limit then Some (value, rest) else None
  | None => None
  end.

Definition read_char (c : Z) (l : list Z) : option (list Z) :=
  match l with b :: l => if b =? c then Some l else None | [] => None end.

(** [read_separator]: the separator comes before every part but the first. *)
Definition read_separator {A} (c : Z) (index : nat) (inner : list Z → option (A * list Z))
  (l : list Z) : option (A * list Z) :=
  match index with
  | O => inner l
  | _ => l ← read_char c l; inner l
  end.

Definition read_octet (index : nat) : list Z → option (Z * list Z) :=
  read_separator 46 index (read_number 10 3 false 255).

(** An IPv4 address is its 32-bit value. *)
Definition read_ipv4 (l : list Z) : option (Z * list Z) :=
  '(a, l) ← read_octet 0 l;
  '(b, l) ← read_octet 1 l;
  '(c, l) ← read_octet 2 l;
  '(d, l) ← read_octet 3 l;
  Some (be_value [a; b; c; d], l).

(** [read_groups] from group [i] of [i + n]. *)
Fixpoint read_groups (n i : nat) (l : list Z) : list Z * bool * list Z :=
  match n with
  | O => ([], false, l)
  | S n' =>
      match (if (1 <? n)%nat then read_separator 58 i read_ipv4 l else None) with
      | Some (v4, l) => ([v4 / 2 ^ 16; v4 mod 2 ^ 16], true, l)
      | None =>
          match read_separator 58 i (read_number 16 4 true u16_max) l with
          | Some (group, l) =>
              let '(groups, ipv4, l) := read_groups n' (S i) l in (group :: groups, ipv4, l)
          | None => ([], false, l)
          end
      end
  end.

(** An IPv6 address is its eight 16-bit segments. *)
Definition read_ipv6 (l : list Z) : option (list Z * list Z) :=
  let '(head, head_ipv4, l) := read_groups 8 0 l in
  if (length head =? 8)%nat then Some (head, l)
  else if head_ipv4 then None
  else
    l ← read_char 58 l;
    l ← read_char 58 l;
    let '(tail, _, l) := read_groups (8 - (length head + 1)) 0 l in
    Some (head ++ repeat 0 (8 - length head - length tail) ++ tail, l).

Inductive IpAddr := V4 (address : Z) | V6 (segments : list Z).

Definition read_ip (l : list Z) : option (IpAddr * list Z) :=
  match read_ipv4 l with
  | Some (v4, l) => Some (V4 v4, l)
  | None => '(v6, l) ← read_ipv6 l; Some (V6 v6, l)
  end.

(** [s.parse::<IpAddr>().ok()]. *)
Definition parse_ip (s : string) : option IpAddr :=
  match read_ip (bytes s) with Some (ip, []) => Some ip | _ => None end.

(** ** [inet_aton] *)
(** [u32::from_str_radix] on a text of hexadecimal digits. *)
Definition from_str_radix (radix : Z) (digits : string) : option Z :=
  value ← foldl (λ acc b, acc ← acc; d ← to_digit radix b; Some (acc * radix + d))
            (Some 0) (bytes digits);
  if value <=? u32_max then Some value else None.

Definition inet_part (part : string) : option Z :=
  let '(digits, radix) :=
    match strip_prefix "0x" part with
    | Some hex => (hex, 16)
    | None =>
        match strip_prefix "0X" part with
        | Some hex => (hex, 16)
        | None =>
            if (1 <? slen part) && starts_with "0" part
            then (match part with String _ rest => rest | EmptyString => "" end, 8)
            else (part, 10)
        end
    end in
  if bool_decide (digits = "") || negb (all_bytes is_ascii_hexdigit digits) then None
  else from_str_radix radix digits.

Definition inet_aton (host : string) : option Z :=
  parts ← mapM inet_part (split "." host);
  match reverse parts with
  | [] => None
  | final :: leading =>
      let leading := reverse leading in
      let last_bits := 8 * (4 - Z.min (zlen leading) 4) in
      if (3 <? zlen leading) || existsb (λ part, 255 <? part) leading
         || (2 ^ last_bits <=? final)
      then None
      else
        let high := foldl (λ address part, Z.lor (Z.shiftl address 8) part) 0 leading in
        let value := Z.lor (Z.shiftl high last_bits) final in
        if value <=? u32_max then Some value else None
  end.

(** ** [local_only_ssh_host] *)
Definition to_ascii_lowercase (s : string) : string :=
  of_bytes ((λ b, if is_ascii_uppercase b then b + 32 else b) <$> bytes s).

(** [Ipv6Addr::to_ipv4_mapped]. *)
Definition to_ipv4_mapped (segments : list Z) : option Z :=
  match segments with
  | [0; 0; 0; 0; 0; 0xffff; a; b] => Some (a * 2 ^ 16 + b)
  | _ => None
  end.

Definition local_only_address (address : IpAddr) : option string :=
  match address with
  | V4 v4 =>
      if v4 / 2 ^ 24 =? 127 then Some "a loopback address"
      else if v4 =? 0 then Some "the unspecified address"
      else if v4 / 2 ^ 16 =? 169 * 256 + 254 then Some "a link-local address"
      else None
  | V6 segments =>
      if bool_decide (segments = [0; 0; 0; 0; 0; 0; 0; 1]) then Some "a loopback address"
      else if bool_decide (segments = [0; 0; 0; 0; 0; 0; 0; 0]) then Some "the unspecified address"
      else if Z.land (nth 0 segments 0) 0xffc0 =? 0xfe80 then Some "a link-local address"
      else None
  end.

Definition local_only_ssh_host (host : string) : option string :=
  let host := default host (strip_suffix "." host) in
  let lower := to_ascii_lowercase host in
  if bool_decide (lower = "localhost") || ends_with ".localhost" lower
  then Some "a loopback name"
  else
    let literal := match split_once "%" host with Some (address, _) => address | None => host end in
    match parse_ip literal with
    | Some (V6 v6) =>
        local_only_address match to_ipv4_mapped v6 with Some v4 => V4 v4 | None => V6 v6 end
    | Some v4 => local_only_address v4
    | None => v4 ← inet_aton host; local_only_address (V4 v4)
    end.

Example local_only_examples :
  local_only_ssh_host <$>
    ["LocalHost."; "db.localhost"; "127.0.0.1"; "127.1"; "0x7f000001"; "0177.0.0.1"; "2130706433";
     "::1"; "::"; "fe80::1%eth0"; "::ffff:127.0.0.1"; "0.0.0.0"; "169.254.1.2"; "febf::"]
  = Some <$>
    ["a loopback name"; "a loopback name"; "a loopback address"; "a loopback address";
     "a loopback address"; "a loopback address"; "a loopback address"; "a loopback address";
     "the unspecified address"; "a link-local address"; "a loopback address";
     "the unspecified address"; "a link-local address"; "a link-local address"]
  ∧ Forall (λ h, local_only_ssh_host h = None)
      ["example.org"; "10.0.0.1"; "2001:db8::1"; "fec0::1"; "127.0.0.256"; "1.2.3.4.5"; ""].
Proof. split; [vm_compute; reflexivity|]. repeat constructor; vm_compute; reflexivity. Qed.

(** ** Dotted quads *)
Definition dotted (a b c d : Z) : string :=
  dec a +:+ "." +:+ dec b +:+ "." +:+ dec c +:+ "." +:+ dec d.

Lemma read_octet_dec n rest :
  0 ≤ n ≤ 255 → (rest = [] ∨ ∃ r, rest = 46 :: r) →
  read_number 10 3 false 255 (bytes (dec n) ++ rest) = Some (n, rest).
Proof.
  intros Hn Hr.
  assert (Forall (λ n, ∀ r,
    read_number 10 3 false 255 (bytes (dec n)) = Some (n, [])
    ∧ read_number 10 3 false 255 (bytes (dec n) ++ 46 :: r) = Some (n, 46 :: r))
    (Z.of_nat <$> seq 0 256)) as H.
  { cbn [seq fmap list_fmap]. repeat constructor; intros; vm_compute; reflexivity. }
  rewrite Forall_forall in H.
  assert (n ∈ Z.of_nat <$> seq 0 256) as Hin.
  { apply list_elem_of_fmap. exists (Z.to_nat n). split; [lia|]. apply elem_of_seq. lia. }
  destruct Hr as [->|[r ->]]; [rewrite app_nil_r; by apply (H n Hin [])|by apply (H n Hin r)].
Qed.

Lemma bytes_dotted a b c d :
  bytes (dotted a b c d) =
    bytes (dec a) ++ 46 :: bytes (dec b) ++ 46 :: bytes (dec c) ++ 46 :: bytes (dec d).
Proof. unfold dotted. by rewrite !bytes_app. Qed.

Lemma parse_dotted a b c d :
  0 ≤ a ≤ 255 → 0 ≤ b ≤ 255 → 0 ≤ c ≤ 255 → 0 ≤ d ≤ 255 →
  parse_ip (dotted a b c d) = Some (V4 (be_value [a; b; c; d])).
Proof.
  intros Ha Hb Hc Hd. unfold parse_ip, read_ip. rewrite bytes_dotted.
  unfold read_ipv4, read_octet, read_separator.
  rewrite read_octet_dec by eauto. cbn [mbind option_bind read_char]. rewrite Z.eqb_refl.
  cbn [mbind option_bind]. rewrite read_octet_dec by eauto. cbn [mbind option_bind read_char].
  rewrite Z.eqb_refl. cbn [mbind option_bind]. rewrite read_octet_dec by eauto.
  cbn [mbind option_bind read_char]. rewrite Z.eqb_refl. cbn [mbind option_bind].
  rewrite <- (app_nil_r (bytes (dec d))), read_octet_dec by auto. done.
Qed.

(** Digits and dots, the bytes of every numeric IPv4 form in decimal. *)
Definition is_quad_byte (b : Z) : bool := is_ascii_digit b || (b =? 46).

Lemma quad_bytes_dec n : 0 ≤ n → all_bytes is_quad_byte (dec n) = true.
Proof.
  intros Hn. destruct (dec_bytes n Hn) as (_ & H & _).
  eapply all_bytes_impl; [|exact H]. intros b Hb. unfold is_quad_byte. by rewrite Hb.
Qed.

Lemma quad_lowercase s : all_bytes is_quad_byte s = true → to_ascii_lowercase s = s.
Proof.
  intros H. unfold to_ascii_lowercase. rewrite <- (of_bytes_bytes s) at 2. f_equal.
  apply all_bytes_forall in H. induction H as [|b l Hb H IH]; [done|]. cbn. f_equal; [|done].
  unfold is_quad_byte, is_ascii_digit, is_ascii_uppercase, in_range in *.
  case_match; [|done]. bool_prop. lia.
Qed.

(** The name checks never apply to such a text. *)
Lemma local_only_quad s :
  all_bytes is_quad_byte s = true → ends_with "." s = false →
  local_only_ssh_host s =
    match parse_ip s with
    | Some (V6 v6) =>
        local_only_address match to_ipv4_mapped v6 with Some v4 => V4 v4 | None => V6 v6 end
    | Some v4 => local_only_address v4
    | None => v4 ← inet_aton s; local_only_address (V4 v4)
    end.
Proof.
  intros Hq Hdot. unfold local_only_ssh_host.
  assert (strip_suffix "." s = None) as ->.
  { unfold ends_with in Hdot. by destruct (strip_suffix "." s). }
  cbn [default]. rewrite quad_lowercase by done.
  assert (ends_with ".localhost" s = false) as ->
    by (apply (ends_with_class is_quad_byte ".localhos" "t"); [vm_compute; done|done]).
  rewrite bool_decide_eq_false_2 by (intros ->; by vm_compute in Hq). cbn [orb].
  rewrite split_once_none; [done|].
  apply all_bytes_not_contains with (p := is_quad_byte); [done|]. by vm_compute.
Qed.

Lemma dec_not_dot n : 0 ≤ n → ∃ p b, bytes (dec n) = p ++ [b] ∧ is_ascii_digit b = true.
Proof.
  intros Hn. destruct (dec_bytes n Hn) as (_ & Hd & Hne). apply all_bytes_forall in Hd.
  destruct (bytes (dec n)) as [|b l _] eqn:E using rev_ind.
  - destruct Hne. by apply bytes_inj.
  - exists l, b. split; [done|]. apply Forall_app in Hd as [_ Hd]. by inversion Hd.
Qed.

Lemma ends_dot_app s n : 0 ≤ n → ends_with "." (s +:+ dec n) = false.
Proof.
  intros Hn. destruct (ends_with "." (s +:+ dec n)) eqn:E; [|done].
  apply ends_with_spec in E as [r E]. apply (f_equal bytes) in E. rewrite !bytes_app in E.
  destruct (dec_not_dot n Hn) as (p & b & Eb & Hb). rewrite Eb, (assoc app) in E.
  change (bytes ".") with [46] in E. apply app_inj_tail in E as [_ ->]. done.
Qed.

(** Every IPv4 address in its usual notation is classified by the address
    it names: refused as loopback exactly in 127.0.0.0/8, as unspecified
    exactly for 0.0.0.0, as link-local exactly in 169.254.0.0/16. *)
Theorem dotted_quad_classified a b c d :
  0 ≤ a ≤ 255 → 0 ≤ b ≤ 255 → 0 ≤ c ≤ 255 → 0 ≤ d ≤ 255 →
  local_only_ssh_host (dotted a b c d) =
    (if a =? 127 then Some "a loopback address"
     else if (a =? 0) && (b =? 0) && (c =? 0) && (d =? 0) then Some "the unspecified address"
     else if (a =? 169) && (b =? 254) then Some "a link-local address"
     else None).
Proof.
  intros Ha Hb Hc Hd. rewrite local_only_quad.
  - rewrite parse_dotted by done. unfold local_only_address, be_value. cbn [foldl].
    set (v := (((0 * 256 + a) * 256 + b) * 256 + c) * 256 + d).
    assert (v / 2 ^ 24 = a) as ->
      by (symmetry; apply Z.div_unique with (b * 65536 + c * 256 + d); subst v; lia).
    assert (v / 2 ^ 16 = a * 256 + b) as ->
      by (symmetry; apply Z.div_unique with (c * 256 + d); subst v; lia).
    repeat case_match; bool_prop; subst v; try done; exfalso; lia.
  - unfold dotted. rewrite !all_bytes_app, !quad_bytes_dec by lia. done.
  - unfold dotted. rewrite <- !sapp_assoc. apply ends_dot_app. lia.
Qed.

Lemma dotted_quad_classified_witness :
  local_only_ssh_host (dotted 127 3 0 1) = Some "a loopback address".
Proof. apply (dotted_quad_classified 127 3 0 1); lia. Defined.
