(* ===== verification/Schema.v ===== *)
(** * The schema

    [crates/core/src/schema.rs] and its parts [path], [errors], [spec],
    [generated], [operator], [identity], [deployable] and [producers]: the
    tree of hosts, namespaces, services and leaves, secret paths, and the
    walks over the tree.  JSON decoding ([serde]) happens before: a schema is
    the decoded value. *)
From S2P Require Import Prelude BTree Text Generator.
#[local] Open Scope Z_scope.

(** ** Data *)
(** [SecretPath] is a newtype of the components. *)
Definition SecretPath : Type := list string.

(** The Rust error, and [Panicked] for a panic at the same place. *)
Inductive SchemaError :=
| TooShort
| InvalidComponent (component : string)
| InvalidNamespace (namespace : string)
| NotFound (path : SecretPath)
| IsBranch (path : SecretPath)
| WrongKind (path : SecretPath)
| MissingPublicKey (path : SecretPath)
| RecipientCount (path : SecretPath)
| InvalidDestination (path : SecretPath) (message : string)
| InvalidValueDefinition (path : SecretPath) (message : string)
| Panicked (message : string).

Record SecretIdentity := {
  si_host : string;
  si_scope : string;
  si_user : option string;
  si_service : string;
  si_responsibility : string;
  si_namespace : option string;
  si_name : string
}.

Record SecretPresentation := {
  sn_explanation : string;
  sn_facing : string;
  sn_value_type : string
}.

Record Destination := {
  ds_path : string;
  ds_category : string;
  ds_owner : string;
  ds_group : string;
  ds_mode : string;
  ds_content_type : option string;
  ds_authorized_for_user : option string
}.

Record DerivedFrom := {
  df_identifier : string;
  df_prefix : string;
  df_suffix : string;
  df_toml_path : list string;
  df_encoding : option string
}.

Record SecretLeaf := {
  lf_kind : SecretKind;
  lf_shared_public_id : option string;
  lf_expected_ssh_host : option string;
  lf_expected_ssh_port : option Z;
  lf_expected_ssh_hosts : list string;
  lf_install_default_if_missing : bool;
  lf_default_value : option string;
  lf_description : option string;
  lf_human_facing : bool;
  lf_external_input_required : bool;
  lf_required_for_install : bool;
  lf_optional : bool;
  lf_identity : option SecretIdentity;
  lf_presentation : option SecretPresentation;
  lf_recipient_public_keys : list string;
  lf_recipient_ids : list string;
  lf_recipient_names : list string;
  lf_destination : Destination;
  lf_consumer_units : list string;
  lf_value_type : option ValueType;
  lf_consumer_constraints : option ConsumerConstraints;
  lf_value_generator : option ValueGenerator;
  lf_generate_on_deploy : bool;
  lf_derived_from : option DerivedFrom
}.

Inductive GeneratedSecretType := StorageBoxSshKey | LocalSshKey.

Record StorageBoxBootstrap := {
  sb_host : string;
  sb_port : Z;
  sb_user : string;
  sb_host_public_keys : list string;
  sb_known_hosts_file : option string
}.

Record GeneratedSecret := {
  gs_secret_type : GeneratedSecretType;
  gs_output : Destination;
  gs_bootstrap : option StorageBoxBootstrap;
  gs_register_at : option string
}.

Record GeneratedSecretLeaf := {
  gl_description : option string;
  gl_human_facing : bool;
  gl_external_input_required : bool;
  gl_required_for_install : bool;
  gl_optional : bool;
  gl_identity : option SecretIdentity;
  gl_presentation : option SecretPresentation;
  gl_recipient_public_keys : list string;
  gl_recipient_ids : list string;
  gl_recipient_names : list string;
  gl_generated_secret : GeneratedSecret;
  gl_consumer_units : list string;
  gl_value_type : option ValueType;
  gl_consumer_constraints : option ConsumerConstraints
}.

Record KeypairGenerator := { kg_installable : string; kg_args : list string }.

Record OperatorLeaf := {
  ol_description : option string;
  ol_human_facing : bool;
  ol_required_for_install : bool;
  ol_signing_only : bool;
  ol_identity : option SecretIdentity;
  ol_presentation : option SecretPresentation;
  ol_recipient_public_keys : list string;
  ol_recipient_ids : list string;
  ol_recipient_names : list string;
  ol_generator : option KeypairGenerator
}.

Inductive SecretNode :=
| Generated (leaf : GeneratedSecretLeaf)
| Secret (leaf : SecretLeaf)
| Operator (leaf : OperatorLeaf)
| Branch (children : list (string * SecretNode)).

Record DeploymentMetadata := {
  dm_publish_host_identity_to : option string;
  dm_host : string;
  dm_destination : string;
  dm_port : Z;
  dm_identity_public_keys : list string;
  dm_protocol_version : option Z
}.

Record HostMetadata := {
  hm_socket_path : string;
  hm_deployment : DeploymentMetadata;
  hm_recipient_public_keys : list (string * string);
  hm_service_display_paths : list (string * list (string * list string))
}.

Record HostSchema := {
  hs_metadata : HostMetadata;
  hs_service_groups : list (string * list (string * SecretNode))
}.

Definition Schema : Type := list (string * HostSchema).

Record SecretSpec := {
  ss_path : SecretPath;
  ss_kind : SecretKind;
  ss_shared_public_id : option string;
  ss_expected_ssh_host : option string;
  ss_expected_ssh_port : option Z;
  ss_expected_ssh_hosts : list string;
  ss_install_default_if_missing : bool;
  ss_default_value : option string;
  ss_description : option string;
  ss_human_facing : bool;
  ss_external_input_required : bool;
  ss_optional : bool;
  ss_identity : option SecretIdentity;
  ss_presentation : option SecretPresentation;
  ss_recipient_public_keys : list string;
  ss_recipient_ids : list string;
  ss_recipient_names : list string;
  ss_destination : Destination;
  ss_consumer_units : list string;
  ss_value_type : option ValueType;
  ss_consumer_constraints : option ConsumerConstraints;
  ss_value_generator : option ValueGenerator;
  ss_generate_on_deploy : bool;
  ss_derived_from : option DerivedFrom
}.

Record GeneratedSecretSpec := {
  gp_path : SecretPath;
  gp_description : option string;
  gp_human_facing : bool;
  gp_external_input_required : bool;
  gp_optional : bool;
  gp_identity : option SecretIdentity;
  gp_presentation : option SecretPresentation;
  gp_recipient_public_keys : list string;
  gp_recipient_ids : list string;
  gp_recipient_names : list string;
  gp_generated_secret : GeneratedSecret;
  gp_consumer_units : list string;
  gp_value_type : option ValueType;
  gp_consumer_constraints : option ConsumerConstraints
}.

Record OperatorSpec := {
  os_signing_only : bool;
  os_path : SecretPath;
  os_description : option string;
  os_human_facing : bool;
  os_identity : option SecretIdentity;
  os_presentation : option SecretPresentation;
  os_recipient_public_keys : list string;
  os_recipient_ids : list string;
  os_recipient_names : list string;
  os_generator : option KeypairGenerator
}.

Inductive LeafSpec :=
| Stored (spec : SecretSpec)
| GeneratedSpec (spec : GeneratedSecretSpec)
| OperatorOnly (spec : OperatorSpec).

(** ** Paths *)
Definition is_component_byte (b : Z) : bool :=
  is_ascii_alphanumeric b || (b =? 45) || (b =? 95).

Definition validate_component (component : string) : result SchemaError unit :=
  guard_err (negb (bool_decide (component = "")) && all_bytes is_component_byte component)
    (InvalidComponent component).

Definition validate_namespace (namespace : string) : result SchemaError unit :=
  guard_err (bool_decide (namespace = "services")
             || (starts_with "user-" namespace && ends_with "-services" namespace))
    (InvalidNamespace namespace).

(** [SecretPath::new]. *)
Definition path_new (parts : list string) : result SchemaError SecretPath :=
  if zlen parts <? 4 then Err TooShort
  else
    _ ← try_each validate_component parts;
    _ ← validate_namespace (nth 1 parts "");
    Ok parts.

(** [SecretPath::parse]. *)
Definition path_parse (path : string) : result SchemaError SecretPath :=
  path_new (split "." path).

(** [Display for SecretPath]. *)
Definition path_show (path : SecretPath) : string := join "." path.

(** [Display for SchemaError]; [debug] is the [{:?}] of a string.  A panic is
    never displayed. *)
Definition schema_error_show (debug : string → string) (e : SchemaError) : string :=
  match e with
  | TooShort => "secret path must have at least four components"
  | InvalidComponent component => "invalid path component " +:+ debug component
  | InvalidNamespace namespace => "invalid service namespace " +:+ debug namespace
  | NotFound path => "schema path does not exist: " +:+ path_show path
  | IsBranch path => "schema path is a branch: " +:+ path_show path
  | WrongKind path => "schema path has the wrong leaf kind: " +:+ path_show path
  | MissingPublicKey path => "secret has no recipient public key: " +:+ path_show path
  | RecipientCount path => "recipient key and identifier counts differ: " +:+ path_show path
  | InvalidDestination path message =>
      "invalid destination for " +:+ path_show path +:+ ": " +:+ message
  | InvalidValueDefinition path message =>
      "invalid value definition for " +:+ path_show path +:+ ": " +:+ message
  | Panicked message => message
  end.

(** ** Leaves *)
Definition stored_spec (path : SecretPath) (leaf : SecretLeaf) : SecretSpec :=
  {| ss_path := path; ss_kind := lf_kind leaf;
     ss_shared_public_id := lf_shared_public_id leaf;
     ss_expected_ssh_host := lf_expected_ssh_host leaf;
     ss_expected_ssh_port := lf_expected_ssh_port leaf;
     ss_expected_ssh_hosts := lf_expected_ssh_hosts leaf;
     ss_install_default_if_missing := lf_install_default_if_missing leaf;
     ss_default_value := lf_default_value leaf; ss_description := lf_description leaf;
     ss_human_facing := lf_human_facing leaf;
     ss_external_input_required := lf_external_input_required leaf;
     ss_optional := lf_optional leaf; ss_identity := lf_identity leaf;
     ss_presentation := lf_presentation leaf;
     ss_recipient_public_keys := lf_recipient_public_keys leaf;
     ss_recipient_ids := lf_recipient_ids leaf;
     ss_recipient_names := lf_recipient_names leaf;
     ss_destination := lf_destination leaf; ss_consumer_units := lf_consumer_units leaf;
     ss_value_type := lf_value_type leaf;
     ss_consumer_constraints := lf_consumer_constraints leaf;
     ss_value_generator := lf_value_generator leaf;
     ss_generate_on_deploy := lf_generate_on_deploy leaf;
     ss_derived_from := lf_derived_from leaf |}.

Definition generated_spec (path : SecretPath) (leaf : GeneratedSecretLeaf) : GeneratedSecretSpec :=
  {| gp_path := path; gp_description := gl_description leaf;
     gp_human_facing := gl_human_facing leaf;
     gp_external_input_required := gl_external_input_required leaf;
     gp_optional := gl_optional leaf; gp_identity := gl_identity leaf;
     gp_presentation := gl_presentation leaf;
     gp_recipient_public_keys := gl_recipient_public_keys leaf;
     gp_recipient_ids := gl_recipient_ids leaf;
     gp_recipient_names := gl_recipient_names leaf;
     gp_generated_secret := gl_generated_secret leaf;
     gp_consumer_units := gl_consumer_units leaf; gp_value_type := gl_value_type leaf;
     gp_consumer_constraints := gl_consumer_constraints leaf |}.

Definition operator_spec (path : SecretPath) (leaf : OperatorLeaf) : OperatorSpec :=
  {| os_signing_only := ol_signing_only leaf; os_path := path;
     os_description := ol_description leaf; os_human_facing := ol_human_facing leaf;
     os_identity := ol_identity leaf; os_presentation := ol_presentation leaf;
     os_recipient_public_keys := ol_recipient_public_keys leaf;
     os_recipient_ids := ol_recipient_ids leaf;
     os_recipient_names := ol_recipient_names leaf; os_generator := ol_generator leaf |}.

(** The loop over the components below the service. *)
Fixpoint descend (path : SecretPath) (components : list string) (node : SecretNode)
  : result SchemaError SecretNode :=
  match components with
  | [] => Ok node
  | component :: components =>
      match node with
      | Branch children =>
          match bt_get component children with
          | Some child => descend path components child
          | None => Err (NotFound path)
          end
      | Secret _ | Generated _ | Operator _ => Err (NotFound path)
      end
  end.

(** [Schema::leaf]; a path built by [path_new] has the components indexed. *)
Definition leaf (schema : Schema) (path : SecretPath) : result SchemaError LeafSpec :=
  host ← ok_or (NotFound path) (bt_get (nth 0 path "") schema);
  services ← ok_or (NotFound path) (bt_get (nth 1 path "") (hs_service_groups host));
  node ← ok_or (NotFound path) (bt_get (nth 2 path "") services);
  node ← descend path (drop 3 path) node;
  match node with
  | Branch _ => Err (IsBranch path)
  | Secret leaf => Ok (Stored (stored_spec path leaf))
  | Operator leaf => Ok (OperatorOnly (operator_spec path leaf))
  | Generated leaf => Ok (GeneratedSpec (generated_spec path leaf))
  end.

Definition secret (schema : Schema) (path : SecretPath) : result SchemaError SecretSpec :=
  spec ← leaf schema path;
  match spec with Stored spec => Ok spec | _ => Err (WrongKind path) end.

Definition generated_secret (schema : Schema) (path : SecretPath)
  : result SchemaError GeneratedSecretSpec :=
  spec ← leaf schema path;
  match spec with GeneratedSpec spec => Ok spec | _ => Err (WrongKind path) end.

Definition recipients (spec : LeafSpec) : list string * list string :=
  match spec with
  | Stored spec => (ss_recipient_ids spec, ss_recipient_public_keys spec)
  | GeneratedSpec spec => (gp_recipient_ids spec, gp_recipient_public_keys spec)
  | OperatorOnly spec => (os_recipient_ids spec, os_recipient_public_keys spec)
  end.

Definition recipient_names (spec : LeafSpec) : list string :=
  match spec with
  | Stored spec => ss_recipient_names spec
  | GeneratedSpec spec => gp_recipient_names spec
  | OperatorOnly spec => os_recipient_names spec
  end.

(** [sort_unstable] and [dedup] of the hosts. *)
Definition ssh_hosts (single : option string) (more : list string) : list string :=
  bt_keys (bs_of_list (option_list single ++ more)).
Definition leaf_ssh_hosts (leaf : SecretLeaf) : list string :=
  ssh_hosts (lf_expected_ssh_host leaf) (lf_expected_ssh_hosts leaf).
Definition spec_ssh_hosts (spec : SecretSpec) : list string :=
  ssh_hosts (ss_expected_ssh_host spec) (ss_expected_ssh_hosts spec).

(** [deployment_generator] for a spec and for a manifest node. *)
Definition deployment_generator (spec : SecretSpec) : result NotGeneratable DeployGenerator :=
  if is_some (ss_derived_from spec) then Err Derived
  else decide_generator (ss_kind spec) (ss_external_input_required spec)
         (ss_generate_on_deploy spec) (ss_value_generator spec) (ss_value_type spec)
         (ss_consumer_constraints spec).

Definition leaf_deployment_generator (leaf : SecretLeaf) : result NotGeneratable DeployGenerator :=
  if is_some (lf_derived_from leaf) then Err Derived
  else decide_generator (lf_kind leaf) (lf_external_input_required leaf)
         (lf_generate_on_deploy leaf) (lf_value_generator leaf) (lf_value_type leaf)
         (lf_consumer_constraints leaf).

(** ** Walks *)
(** Runs [f] on every node of every service, in key order, threading an
    accumulator: the three nested loops every walk starts with. *)
Definition over_services {A} (f : string → string → string → SecretNode → A → result SchemaError A)
  (groups : list (string * list (string * SecretNode))) (host : string) (acc : A)
  : result SchemaError A :=
  try_fold (λ acc '(namespace, services),
    try_fold (λ acc '(service, node), f host namespace service node acc) acc services) acc groups.

Definition over_hosts {A} (f : string → string → string → SecretNode → A → result SchemaError A)
  (schema : Schema) (acc : A) : result SchemaError A :=
  try_fold (λ acc '(host, entry), over_services f (hs_service_groups entry) host acc) acc schema.

(** [deployable::collect]. *)
Fixpoint collect_deployable (path : list string) (node : SecretNode) (identifiers : list string)
  : result SchemaError (list string) :=
  match node with
  | Branch children =>
      (fix go children identifiers :=
         match children with
         | [] => Ok identifiers
         | (name, child) :: children =>
             match collect_deployable (path ++ [name]) child identifiers with
             | Ok identifiers => go children identifiers
             | Err e => Err e
             end
         end) children identifiers
  | Secret _ | Generated _ =>
      path ← path_new path;
      Ok (identifiers ++ [path_show path])
  | Operator _ => Ok identifiers
  end.

Definition deployable_identifiers (schema : Schema) (host : string)
  : result SchemaError (list string) :=
  entry ← ok_or (InvalidComponent ("unknown host " +:+ host)) (bt_get host schema);
  over_services (λ host namespace service node identifiers,
      collect_deployable [host; namespace; service] node identifiers)
    (hs_service_groups entry) host [].

(** [producers::walk]. *)
Fixpoint walk_producers (path : string) (inventory : string) (node : SecretNode)
  : list string :=
  match node with
  | Branch children =>
      (fix go children :=
         match children with
         | [] => []
         | (name, child) :: children =>
             walk_producers (path +:+ "." +:+ name) inventory child ++ go children
         end) children
  | Generated leaf =>
      if bool_decide (gs_register_at (gl_generated_secret leaf) = Some inventory)
      then [path] else []
  | _ => []
  end.

Definition registration_producers (schema : Schema) (inventory : string) : list string :=
  mjoin ((λ '(host, entry),
    mjoin ((λ '(namespace, services),
      mjoin ((λ '(service, node),
        walk_producers (host +:+ "." +:+ namespace +:+ "." +:+ service) inventory node)
        <$> services)) <$> hs_service_groups entry)) <$> schema).

(** ** Identities *)
(** The derived [Ord] of [SecretIdentity]: field by field, [None] first. *)
Definition identity_key_type : Type :=
  string * (string * (list string * (string * (string * (list string * string))))).
Definition identity_key (i : SecretIdentity) : identity_key_type :=
  (si_host i, (si_scope i, (option_list (si_user i),
    (si_service i, (si_responsibility i, (option_list (si_namespace i), si_name i)))))).
Definition identity_map : Type := list (identity_key_type * SecretPath).

Definition valid_label (value : string) : bool :=
  negb (bool_decide (trim value = "")) && (slen value <=? 256) && negb (any_control value).

(** [&s[from..to]] of an ASCII text: [None] is the panic of a bad range. *)
Definition slice (s : string) (from to : Z) : option string :=
  if (0 <=? from) && (from <=? to) && (to <=? slen s)
  then Some (of_bytes (take (Z.to_nat (to - from)) (drop (Z.to_nat from) (bytes s))))
  else None.

(** The [match path[1].as_str()] of [identity::insert]. *)
Definition scope_matches (namespace : string) (identity : SecretIdentity)
  : result SchemaError bool :=
  if bool_decide (namespace = "services")
  then Ok (bool_decide (si_scope identity = "system") && bool_decide (si_user identity = None))
  else if starts_with "user-" namespace && ends_with "-services" namespace
  then if bool_decide (si_scope identity = "user")
       then match slice namespace 5 (slen namespace - slen "-services") with
            | Some user => Ok (bool_decide (si_user identity = Some user))
            | None => Err (Panicked "slice index starts at 5 but ends before")
            end
       else Ok false
  else Ok false.

Definition bad_presentation (value : SecretPresentation) : bool :=
  negb (valid_label (sn_facing value)) || negb (valid_label (sn_value_type value))
  || (2048 <? slen (sn_explanation value)) || any_control (sn_explanation value).

(** [identity::insert]. *)
Definition identity_insert (identity : option SecretIdentity)
  (presentation : option SecretPresentation) (path : list string) (index : identity_map)
  : result SchemaError identity_map :=
  match identity with
  | None => Ok index
  | Some identity =>
      stable ← path_new path;
      scope ← (if bool_decide (si_host identity = nth 0 path "")
               then scope_matches (nth 1 path "") identity else Ok false);
      let valid := scope
        && forallb valid_label [si_service identity; si_responsibility identity; si_name identity]
        && is_none_or valid_label (si_namespace identity) in
      _ ← guard_err valid (InvalidValueDefinition stable "invalid semantic identity");
      _ ← guard_err (negb (is_some_and bad_presentation presentation))
            (InvalidValueDefinition stable "invalid presentation metadata");
      _ ← guard_err (negb (bt_contains (identity_key identity) index))
            (InvalidValueDefinition stable "duplicate semantic identity");
      Ok (bt_insert (identity_key identity) stable index)
  end.

(** [identity::collect]. *)
Fixpoint collect_identities (path : list string) (node : SecretNode) (index : identity_map)
  : result SchemaError identity_map :=
  match node with
  | Branch children =>
      (fix go children index :=
         match children with
         | [] => Ok index
         | (name, child) :: children =>
             match collect_identities (path ++ [name]) child index with
             | Ok index => go children index
             | Err e => Err e
             end
         end) children index
  | Secret leaf => identity_insert (lf_identity leaf) (lf_presentation leaf) path index
  | Generated leaf => identity_insert (gl_identity leaf) (gl_presentation leaf) path index
  | Operator leaf => identity_insert (ol_identity leaf) (ol_presentation leaf) path index
  end.

Definition identity_index (schema : Schema) : result SchemaError identity_map :=
  over_hosts (λ host scope service node index,
    collect_identities [host; scope; service] node index) schema [].

Definition resolve_identity (schema : Schema) (identity : SecretIdentity)
  : result SchemaError (option SecretPath) :=
  index ← identity_index schema;
  Ok (bt_get (identity_key identity) index).

(** ** Nodes *)
(** Induction with the hypothesis for every child. *)
Section NodeInd.
Context (P : SecretNode → Prop).
Context (Hg : ∀ l, P (Generated l)) (Hs : ∀ l, P (Secret l)) (Ho : ∀ l, P (Operator l)).
Context (Hb : ∀ children, Forall (λ c, P c.2) children → P (Branch children)).

Fixpoint SecretNode_ind' (node : SecretNode) : P node :=
  match node with
  | Generated l => Hg l
  | Secret l => Hs l
  | Operator l => Ho l
  | Branch children =>
      Hb children
        ((fix go (children : list (string * SecretNode)) : Forall (λ c, P c.2) children :=
            match children with
            | [] => @List.Forall_nil _ _
            | (name, child) :: children =>
                @List.Forall_cons _ (λ c, P c.2) (name, child) children
                  (SecretNode_ind' child) (go children)
            end) children)
  end.
End NodeInd.

(** ** Paths: parsing and printing *)
Lemma component_no_dot c :
  validate_component c = Ok tt → contains_byte (bz ".") c = false.
Proof.
  unfold validate_component, guard_err. case_match eqn:E; [|done]. intros _.
  apply andb_true_iff in E as [_ E].
  by apply all_bytes_not_contains with (p := is_component_byte).
Qed.

Lemma path_new_ok parts p :
  path_new parts = Ok p ↔
    p = parts ∧ 4 ≤ zlen parts ∧ Forall (λ c, validate_component c = Ok tt) parts
    ∧ validate_namespace (nth 1 parts "") = Ok tt.
Proof.
  unfold path_new, mbind, result_bind.
  destruct (zlen parts <? 4) eqn:El; bool_prop.
  { split; [done|]. intros (_ & ? & _). lia. }
  rewrite <- try_each_ok.
  destruct (try_each validate_component parts) as [[]|]; [|naive_solver].
  destruct (validate_namespace _) as [[]|]; [|naive_solver].
  split; [intros [= <-]; done|]. naive_solver.
Qed.

Lemma path_show_new parts p : path_new parts = Ok p → path_parse (path_show p) = Ok p.
Proof.
  intros H. pose proof H as (-> & Hl & Hc & _)%path_new_ok.
  unfold path_parse, path_show. rewrite split_join; [done| |].
  - intros ->. unfold zlen in Hl. cbn in Hl. lia.
  - eapply Forall_impl; [exact Hc|]. intros c. apply component_no_dot.
Qed.

Lemma path_parse_show s p : path_parse s = Ok p → path_show p = s.
Proof.
  unfold path_parse. intros (-> & _)%path_new_ok. apply join_split.
Qed.

(** ** The leaves of a tree *)
Definition is_leaf (node : SecretNode) : bool :=
  match node with Branch _ => false | _ => true end.

Fixpoint leaves_of (path : list string) (node : SecretNode) : list (list string * SecretNode) :=
  match node with
  | Branch children =>
      (fix go children :=
         match children with
         | [] => []
         | (name, child) :: children => leaves_of (path ++ [name]) child ++ go children
         end) children
  | _ => [(path, node)]
  end.

Lemma leaves_of_branch path children :
  leaves_of path (Branch children) =
    mjoin ((λ '(name, child), leaves_of (path ++ [name]) child) <$> children).
Proof.
  cbn [leaves_of]. induction children as [|[name child] children IH]; [done|].
  rewrite mjoin_fmap_cons. by rewrite IH.
Qed.

Definition schema_leaves (schema : Schema) : list (list string * SecretNode) :=
  mjoin ((λ '(host, entry),
    mjoin ((λ '(namespace, services),
      mjoin ((λ '(service, node), leaves_of [host; namespace; service] node) <$> services))
      <$> hs_service_groups entry)) <$> schema).

Lemma try_fold_app {E A B} (f : B → A → result E B) acc l k :
  try_fold f acc (l ++ k) = (acc ← try_fold f acc l; try_fold f acc k).
Proof.
  revert acc. induction l as [|x l IH]; intros acc; [done|]. cbn [try_fold app].
  destruct (f acc x); [apply IH|done].
Qed.

Lemma try_fold_mjoin {E A B C} (f : B → A → result E B) (g : C → list A) acc l :
  try_fold (λ acc x, try_fold f acc (g x)) acc l = try_fold f acc (mjoin (g <$> l)).
Proof.
  revert acc. induction l as [|x l IH]; intros acc; [done|].
  rewrite mjoin_fmap_cons, try_fold_app. cbn [try_fold].
  unfold mbind, result_bind. destruct (try_fold f acc (g x)); [apply IH|done].
Qed.

(** A walk that treats each leaf by itself is one fold over the leaves. *)
Lemma over_hosts_leaves {A} (step : A → list string * SecretNode → result SchemaError A)
  (f : string → string → string → SecretNode → A → result SchemaError A) schema acc :
  (∀ host namespace service node acc,
     f host namespace service node acc =
       try_fold step acc (leaves_of [host; namespace; service] node)) →
  over_hosts f schema acc = try_fold step acc (schema_leaves schema).
Proof.
  intros Hf. unfold over_hosts, schema_leaves. rewrite <- try_fold_mjoin.
  apply try_fold_ext. intros acc1 [host entry] _. unfold over_services.
  rewrite <- try_fold_mjoin. apply try_fold_ext. intros acc2 [namespace services] _.
  rewrite <- try_fold_mjoin. apply try_fold_ext. intros acc3 [service node] _. apply Hf.
Qed.

(** A [collect] that recurses into branches and runs [step] on leaves. *)
Lemma collect_leaves {E A} (step : A → list string * SecretNode → result E A)
  (collect : list string → SecretNode → A → result E A) :
  (∀ path node acc, is_leaf node = true → collect path node acc = step acc (path, node)) →
  (∀ path children acc, collect path (Branch children) acc =
     try_fold (λ acc '(name, child), collect (path ++ [name]) child acc) acc children) →
  ∀ node path acc, collect path node acc = try_fold step acc (leaves_of path node).
Proof.
  intros Hleaf Hbranch node.
  induction node as [l|l|l|children IH] using SecretNode_ind'; intros path acc;
    try (rewrite Hleaf by done; cbn [leaves_of try_fold]; by case_match).
  rewrite Hbranch, leaves_of_branch, <- try_fold_mjoin. apply try_fold_ext.
  intros acc' [name child] Hin. rewrite Forall_forall in IH. by apply (IH _ Hin).
Qed.

Lemma leaves_of_prefix path node p n : (p, n) ∈ leaves_of path node → ∃ q, p = path ++ q.
Proof.
  revert path. induction node as [l|l|l|children IH] using SecretNode_ind'; intros path;
    try (cbn [leaves_of]; intros ?%list_elem_of_singleton; simplify_eq; exists [];
         by rewrite app_nil_r).
  rewrite leaves_of_branch, list_elem_of_join. rewrite Forall_forall in IH.
  intros (k & Hk & ([name child] & -> & Hin)%list_elem_of_fmap).
  apply (IH _ Hin) in Hk as (q & ->). exists (name :: q). by rewrite <- (assoc app).
Qed.

(** *** Which leaves there are *)
(** Maps in key order everywhere, as [BTreeMap]s are. *)
Inductive node_wf : SecretNode → Prop :=
| wf_leaf node : is_leaf node = true → node_wf node
| wf_branch children :
    bt_wf children → Forall (λ c, node_wf c.2) children → node_wf (Branch children).

Record schema_wf (schema : Schema) : Prop := {
  sw_hosts : bt_wf schema;
  sw_groups : ∀ host entry, bt_get host schema = Some entry → bt_wf (hs_service_groups entry);
  sw_services : ∀ host entry namespace services, bt_get host schema = Some entry →
    bt_get namespace (hs_service_groups entry) = Some services → bt_wf services;
  sw_nodes : ∀ host entry namespace services service node, bt_get host schema = Some entry →
    bt_get namespace (hs_service_groups entry) = Some services →
    bt_get service services = Some node → node_wf node
}.

Lemma mjoin_elem {A B} (f : A → list B) l y : y ∈ mjoin (f <$> l) ↔ ∃ x, x ∈ l ∧ y ∈ f x.
Proof.
  rewrite list_elem_of_join. split.
  - intros (k & Hy & (x & -> & Hx)%list_elem_of_fmap). eauto.
  - intros (x & Hx & Hy). exists (f x). split; [done|]. by apply list_elem_of_fmap_2.
Qed.

Lemma bt_mjoin_elem `{OrdKey K} {V B} (f : K → V → list B) (m : list (K * V)) y :
  bt_wf m → y ∈ mjoin ((λ '(k, v), f k v) <$> m) ↔ ∃ k v, bt_get k m = Some v ∧ y ∈ f k v.
Proof.
  intros Hm. rewrite mjoin_elem. split.
  - intros ([k v] & Hin%bt_elem_get & Hy); [eauto|done].
  - intros (k & v & Hget%bt_get_elem & Hy). by exists (k, v).
Qed.

Lemma leaves_of_elem node path p n e :
  node_wf node →
  (p, n) ∈ leaves_of path node ↔
    ∃ q, p = path ++ q ∧ descend e q node = Ok n ∧ is_leaf n = true.
Proof.
  assert (∀ node path, is_leaf node = true →
    (p, n) ∈ [(path, node)] ↔
      ∃ q, p = path ++ q ∧ descend e q node = Ok n ∧ is_leaf n = true) as Hbase.
  { intros node0 path0 Hl. rewrite list_elem_of_singleton. split.
    - intros [= -> ->]. exists []. by rewrite app_nil_r.
    - intros ([|c q] & -> & Hd & _); cbn in Hd; [|by destruct node0].
      simplify_eq. by rewrite app_nil_r. }
  revert path. induction node as [l|l|l|children IH] using SecretNode_ind';
    intros path Hwf; try by apply Hbase.
  inversion Hwf as [|? Hc Hall]; subst; [done|].
  rewrite leaves_of_branch, bt_mjoin_elem by done. rewrite Forall_forall in IH, Hall. split.
  - intros (name & child & Hget & Hin). pose proof (bt_get_elem _ _ _ Hget) as Hel.
    apply (IH _ Hel) in Hin as (q & -> & Hd & Hn); [|by apply (Hall _ Hel)].
    exists (name :: q). rewrite <- (assoc app). cbn [descend app]. by rewrite Hget.
  - intros ([|name q] & -> & Hd & Hn); cbn [descend] in Hd; [by simplify_eq|].
    destruct (bt_get name children) as [child|] eqn:Hget; [|done].
    exists name, child. split; [done|]. pose proof (bt_get_elem _ _ _ Hget) as Hel.
    apply (IH _ Hel); [by apply (Hall _ Hel)|]. exists q. by rewrite <- (assoc app).
Qed.

(** What [leaf] makes of a node. *)
Definition leaf_spec (path : SecretPath) (node : SecretNode) : option LeafSpec :=
  match node with
  | Secret leaf => Some (Stored (stored_spec path leaf))
  | Operator leaf => Some (OperatorOnly (operator_spec path leaf))
  | Generated leaf => Some (GeneratedSpec (generated_spec path leaf))
  | Branch _ => None
  end.

Lemma schema_leaves_elem schema p spec :
  schema_wf schema → 3 ≤ zlen p →
  leaf schema p = Ok spec ↔ ∃ n, (p, n) ∈ schema_leaves schema ∧ leaf_spec p n = Some spec.
Proof.
  intros [Hh Hg Hs Hn] Hlen.
  destruct p as [|host [|namespace [|service q]]];
    [unfold zlen in Hlen; cbn in Hlen; lia..|].
  unfold schema_leaves. setoid_rewrite (bt_mjoin_elem (λ host entry,
    mjoin ((λ '(namespace, services),
      mjoin ((λ '(service, node), leaves_of [host; namespace; service] node) <$> services))
      <$> hs_service_groups entry))); [|done].
  unfold leaf, mbind, result_bind, ok_or. cbn [nth drop]. rewrite drop_0. split.
  - intros H.
    destruct (bt_get host schema) as [entry|] eqn:E1; [|done].
    destruct (bt_get namespace (hs_service_groups entry)) as [services|] eqn:E2; [|done].
    destruct (bt_get service services) as [node|] eqn:E3; [|done].
    destruct (descend (host :: namespace :: service :: q) q node) as [n|] eqn:E4; [|done].
    exists n. split; [|destruct n; by simplify_eq].
    exists host, entry. split; [done|]. apply bt_mjoin_elem; [by eapply Hg|].
    exists namespace, services. split; [done|]. apply bt_mjoin_elem; [by eapply Hs|].
    exists service, node. split; [done|].
    apply (leaves_of_elem _ _ _ _ (host :: namespace :: service :: q)); [by eapply Hn|].
    exists q. split_and!; [done|done|by destruct n].
  - intros (n & (host' & entry & E1 & H) & Hspec).
    apply bt_mjoin_elem in H as (namespace' & services & E2 & H); [|by eapply Hg].
    apply bt_mjoin_elem in H as (service' & node & E3 & H); [|by eapply Hs].
    apply (leaves_of_elem _ _ _ _ (host :: namespace :: service :: q)) in H
      as (q' & Hq & Hd & _); [|by eapply Hn].
    cbn in Hq. simplify_eq. rewrite E1, E2, E3, Hd. by destruct n; simplify_eq/=.
Qed.

(** ** What the walks compute *)
Definition deployable_step (identifiers : list string) (x : list string * SecretNode)
  : result SchemaError (list string) :=
  match x.2 with
  | Secret _ | Generated _ => path ← path_new x.1; Ok (identifiers ++ [path_show path])
  | _ => Ok identifiers
  end.

Definition identity_of (node : SecretNode) : option SecretIdentity :=
  match node with
  | Secret leaf => lf_identity leaf
  | Generated leaf => gl_identity leaf
  | Operator leaf => ol_identity leaf
  | Branch _ => None
  end.
Definition presentation_of (node : SecretNode) : option SecretPresentation :=
  match node with
  | Secret leaf => lf_presentation leaf
  | Generated leaf => gl_presentation leaf
  | Operator leaf => ol_presentation leaf
  | Branch _ => None
  end.
Definition identity_step (index : identity_map) (x : list string * SecretNode)
  : result SchemaError identity_map :=
  identity_insert (identity_of x.2) (presentation_of x.2) x.1 index.

Lemma collect_deployable_leaves path node acc :
  collect_deployable path node acc = try_fold deployable_step acc (leaves_of path node).
Proof.
  revert node path acc.
  apply (collect_leaves deployable_step (λ path node acc, collect_deployable path node acc)).
  - intros path node acc Hl. by destruct node.
  - intros path children. cbn [collect_deployable].
    induction children as [|[name child] children IH]; intros acc; [done|]. cbn [try_fold].
    destruct (collect_deployable _ child acc); [apply IH|done].
Qed.

Lemma identity_index_leaves schema :
  identity_index schema = try_fold identity_step [] (schema_leaves schema).
Proof.
  unfold identity_index. apply over_hosts_leaves.
  intros host namespace service node acc. generalize [host; namespace; service]. clear.
  revert node acc. intros node acc path. revert node path acc.
  apply (collect_leaves identity_step (λ path node acc, collect_identities path node acc)).
  - intros path node acc Hl. by destruct node.
  - intros path children. cbn [collect_identities].
    induction children as [|[name child] children IH]; intros acc; [done|]. cbn [try_fold].
    destruct (collect_identities _ child acc); [apply IH|done].
Qed.

(** A leaf that may be part of a deployment. *)
Definition is_deployable (node : SecretNode) : bool :=
  match node with Secret _ | Generated _ => true | _ => false end.

Lemma deployable_fold l acc ids :
  try_fold deployable_step acc l = Ok ids →
  ∀ id, id ∈ ids ↔ id ∈ acc ∨ ∃ p n, (p, n) ∈ l ∧ id = path_show p ∧ path_new p = Ok p
    ∧ is_deployable n = true.
Proof.
  revert acc. induction l as [|[p n] l IH]; intros acc; cbn [try_fold].
  { intros [= ->] id. set_solver. }
  destruct (deployable_step acc (p, n)) as [acc'|] eqn:E; [|done]. intros H id.
  rewrite (IH _ H). unfold deployable_step in E. cbn [fst snd] in E.
  assert (is_deployable n = false ∧ acc' = acc
    ∨ is_deployable n = true ∧ path_new p = Ok p ∧ acc' = acc ++ [path_show p]) as Hn.
  { unfold mbind, result_bind in E.
    destruct n; [right|right|left|left]; cbn; try (by simplify_eq);
      destruct (path_new p) as [q|] eqn:Ep; try done;
      pose proof Ep as (-> & _)%path_new_ok; by simplify_eq. }
  setoid_rewrite elem_of_cons.
  destruct Hn as [[Hn ->]|(Hn & Hp & ->)].
  - split; [naive_solver|]. intros [?|(p' & n' & [[= -> ->]|?] & ? & ? & Hd)];
      [by left|congruence|right; by exists p', n'].
  - rewrite elem_of_app, list_elem_of_singleton. naive_solver.
Qed.

(** Parsing and printing a secret path are inverse, so distinct paths
    have distinct identifiers; no path has fewer than four components. *)
Theorem path_round_trip s p :
  (path_parse s = Ok p ↔ path_show p = s ∧ path_new p = Ok p)
  ∧ (path_new p = Ok p → 4 ≤ zlen p).
Proof.
  split; [split|].
  - intros H. split; [by apply path_parse_show|].
    unfold path_parse in H. pose proof H as (E & _)%path_new_ok. by rewrite <- E in H.
  - intros [<- H]. by eapply path_show_new.
  - intros (_ & ? & _)%path_new_ok. done.
Qed.

(** The leaves of one host, and the nested folds over them. *)
Lemma services_leaves {E A} (step : A → list string * SecretNode → result E A)
  (f : string → string → SecretNode → A → result E A) host entry acc :
  (∀ namespace service node acc,
     f namespace service node acc = try_fold step acc (leaves_of [host; namespace; service] node)) →
  try_fold (λ acc '(namespace, services),
    try_fold (λ acc '(service, node), f namespace service node acc) acc services) acc
    (hs_service_groups entry)
  = try_fold step acc (schema_leaves [(host, entry)]).
Proof.
  intros Hf. unfold schema_leaves. cbn [fmap list_fmap mjoin list_join]. rewrite app_nil_r.
  rewrite <- try_fold_mjoin. apply try_fold_ext. intros acc2 [namespace services] _.
  rewrite <- try_fold_mjoin. apply try_fold_ext. intros acc3 [service node] _. apply Hf.
Qed.

Lemma host_leaves_len host entry p n :
  (p, n) ∈ schema_leaves [(host, entry)] → nth 0 p "" = host ∧ 3 ≤ zlen p.
Proof.
  intros Hp. unfold schema_leaves in Hp. cbn [fmap list_fmap mjoin list_join] in Hp.
  rewrite app_nil_r in Hp.
  apply mjoin_elem in Hp as ([ns ss] & _ & Hp). apply mjoin_elem in Hp as ([s node] & _ & Hp).
  apply leaves_of_prefix in Hp as (q & ->). split; [done|].
  rewrite zlen_app. pose proof (zlen_nonneg q). change (zlen [host; ns; s]) with 3. lia.
Qed.

Lemma host_leaves_elem schema host entry p spec :
  schema_wf schema → bt_get host schema = Some entry → nth 0 p "" = host → 3 ≤ zlen p →
  leaf schema p = Ok spec ↔ ∃ n, (p, n) ∈ schema_leaves [(host, entry)] ∧ leaf_spec p n = Some spec.
Proof.
  intros Hwf Eh Hh Hl.
  assert (schema_wf [(host, entry)]) as Hwf1.
  { assert (∀ h e, bt_get h [(host, entry)] = Some e → bt_get h schema = Some e) as Hsub.
    { intros h e. cbn [bt_get]. destruct (kcmp h host) eqn:Ek; [|done|done].
      apply kcmp_eq in Ek as ->. congruence. }
    split; [repeat constructor| | |]; intros *;
      [intros ?%Hsub|intros ?%Hsub ?|intros ?%Hsub ? ?]; by eapply Hwf. }
  rewrite <- schema_leaves_elem by done. unfold leaf. rewrite Hh, Eh. cbn [bt_get]. by rewrite kcmp_refl.
Qed.

(** The identifiers of a host's deployable values are exactly the paths
    of its stored and generated leaves: [leaf] resolves each of them to such
    a leaf, none is missing, and operator-only leaves are never among them. *)
Theorem deployable_exact schema host ids :
  schema_wf schema → deployable_identifiers schema host = Ok ids →
  ∀ id, id ∈ ids ↔
    ∃ p spec, path_parse id = Ok p ∧ nth 0 p "" = host ∧ leaf schema p = Ok spec
      ∧ match spec with OperatorOnly _ => False | _ => True end.
Proof.
  intros Hwf. unfold deployable_identifiers, mbind, result_bind, ok_or.
  destruct (bt_get host schema) as [entry|] eqn:Eh; [|done]. intros H id.
  unfold over_services in H.
  rewrite (services_leaves deployable_step (λ namespace service node identifiers,
    collect_deployable [host; namespace; service] node identifiers) host) in H
    by (intros; apply collect_deployable_leaves).
  rewrite (deployable_fold _ _ _ H).
  split.
  - intros [?%elem_of_nil|(p & n & Hp & -> & Hnew & Hd)]; [done|].
    destruct (host_leaves_len _ _ _ _ Hp) as [Hh Hl].
    destruct (leaf_spec p n) as [spec|] eqn:Es; [|by destruct n].
    exists p, spec. split_and!; [by eapply path_show_new|done| |by destruct n; simplify_eq/=].
    apply (host_leaves_elem schema host entry); [done..|]. by exists n.
  - intros (p & spec & Hp & Hh & Hl & Hspec). right.
    apply (proj1 (path_round_trip id p)) in Hp as [<- Hnew].
    assert (4 ≤ zlen p) as H4 by by apply (path_round_trip "" p).
    apply (host_leaves_elem schema host entry) in Hl as (n & Hn & Es); [|done..|lia].
    exists p, n. split_and!; [done..|]. by destruct n; simplify_eq/=.
Qed.

Definition spec_identity (spec : LeafSpec) : option SecretIdentity :=
  match spec with
  | Stored spec => ss_identity spec
  | GeneratedSpec spec => gp_identity spec
  | OperatorOnly spec => os_identity spec
  end.

Lemma identity_key_inj i j : identity_key i = identity_key j → i = j.
Proof.
  destruct i as [? ? [?|] ? ? [?|] ?], j as [? ? [?|] ? ? [?|] ?];
    unfold identity_key; cbn; intros; by simplify_eq.
Qed.

Lemma identity_insert_ok i pres path index index' :
  identity_insert (Some i) pres path index = Ok index' →
  path_new path = Ok path ∧ si_host i = nth 0 path ""
  ∧ bt_get (identity_key i) index = None ∧ index' = bt_insert (identity_key i) path index.
Proof.
  unfold identity_insert, guard_err, mbind, result_bind, bt_contains. intros H.
  destruct (path_new path) as [stable|] eqn:Ep; [|done].
  pose proof Ep as (-> & _)%path_new_ok.
  destruct (bool_decide (si_host i = nth 0 path "")) eqn:Eh; bool_prop;
    repeat case_match; simplify_eq; try done.
  destruct (bt_get (identity_key i) index); done.
Qed.

Lemma identity_fold l index index' :
  try_fold identity_step index l = Ok index' →
  (∀ k, is_Some (bt_get k index) → is_Some (bt_get k index'))
  ∧ ∀ i p, bt_get (identity_key i) index' = Some p ↔
    bt_get (identity_key i) index = Some p ∨ ∃ n, (p, n) ∈ l ∧ identity_of n = Some i.
Proof.
  revert index. induction l as [|[path n] l IH]; intros index; cbn [try_fold].
  { intros [= ->]. split; [done|]. intros i p. set_solver. }
  destruct (identity_step index (path, n)) as [index1|] eqn:E; [|done]. intros H.
  destruct (IH _ H) as [Hmono Hget]. unfold identity_step in E. cbn [fst snd] in E.
  setoid_rewrite elem_of_cons.
  destruct (identity_of n) as [j|] eqn:Ej.
  - apply identity_insert_ok in E as (_ & _ & Hnone & ->). split.
    + intros k Hk. apply Hmono. destruct (kcmp_spec k (identity_key j)) as [->|Hlt|Hlt].
      * by rewrite bt_get_insert_eq.
      * rewrite bt_get_insert_ne; [done|]. intros <-. by apply klt_irrefl in Hlt.
      * rewrite bt_get_insert_ne; [done|]. intros <-. by apply klt_irrefl in Hlt.
    + intros i p. rewrite Hget. clear Hmono Hget IH H.
      destruct (kcmp_spec (identity_key i) (identity_key j)) as [Heq|Hlt|Hlt].
      * apply identity_key_inj in Heq as ->. rewrite bt_get_insert_eq, Hnone. split.
        -- intros [[= ->]|(n' & ? & ?)]; right; eauto.
        -- intros [?|(n' & [[= -> ->]|?] & ?)]; [done|by left|right; eauto].
      * rewrite bt_get_insert_ne by (intros E; rewrite E in Hlt; by apply klt_irrefl in Hlt).
        split; [naive_solver|]. intros [?|(n' & [[= -> ->]|?] & ?)]; [by left| |right; eauto].
        simplify_eq. by apply klt_irrefl in Hlt.
      * rewrite bt_get_insert_ne by (intros E; rewrite E in Hlt; by apply klt_irrefl in Hlt).
        split; [naive_solver|]. intros [?|(n' & [[= -> ->]|?] & ?)]; [by left| |right; eauto].
        simplify_eq. by apply klt_irrefl in Hlt.
  - cbn in E. simplify_eq. split; [done|]. intros i p. rewrite Hget.
    split; [naive_solver|]. intros [?|(n' & [[= -> ->]|?] & ?)]; [by left|congruence|right; eauto].
Qed.

Lemma schema_leaves_len schema p n : (p, n) ∈ schema_leaves schema → 3 ≤ zlen p ∧ nth 0 p "" ∈ bt_keys schema.
Proof.
  unfold schema_leaves. intros ([host entry] & Hh & Hp)%mjoin_elem.
  apply mjoin_elem in Hp as ([ns ss] & _ & Hp). apply mjoin_elem in Hp as ([s node] & _ & Hp).
  apply leaves_of_prefix in Hp as (q & ->). split.
  - rewrite zlen_app. pose proof (zlen_nonneg q). change (zlen [host; ns; s]) with 3. lia.
  - cbn. unfold bt_keys. apply list_elem_of_fmap. by exists (host, entry).
Qed.

Lemma leaf_spec_identity p n spec : leaf_spec p n = Some spec → spec_identity spec = identity_of n.
Proof. destruct n; cbn; intros; by simplify_eq. Qed.

(** The identity index of a schema is exact: an identity resolves to a
    path exactly when the leaf at that path declares it.  So no two leaves
    share a semantic identity. *)
Theorem identity_index_exact schema index :
  schema_wf schema → identity_index schema = Ok index →
  ∀ i p, resolve_identity schema i = Ok (Some p) ↔
    3 ≤ zlen p ∧ ∃ spec, leaf schema p = Ok spec ∧ spec_identity spec = Some i.
Proof.
  intros Hwf H i p. unfold resolve_identity. rewrite H. cbn [mbind result_bind].
  rewrite identity_index_leaves in H. apply identity_fold in H as [_ Hget].
  transitivity (bt_get (identity_key i) index = Some p); [split; congruence|].
  rewrite Hget. split.
  - intros [?|(n & Hin & Hi)]; [done|]. pose proof (schema_leaves_len _ _ _ Hin) as [Hl _].
    split; [done|]. destruct (leaf_spec p n) as [spec|] eqn:Es; [|by destruct n].
    exists spec. split; [apply schema_leaves_elem; eauto|]. by rewrite (leaf_spec_identity _ _ _ Es).
  - intros (Hl & spec & (n & Hin & Es)%schema_leaves_elem & Hi); [|done..].
    right. exists n. split; [done|]. by rewrite <- (leaf_spec_identity _ _ _ Es).
Qed.

(** A host's manifest node and its spec decide alike what may be
    generated, and nothing is ever generated for derived values, public
    information, values that need external input or that opted out. *)
Theorem deployment_generator_spec path leaf g :
  deployment_generator (stored_spec path leaf) = leaf_deployment_generator leaf
  ∧ (leaf_deployment_generator leaf = Ok g →
     lf_derived_from leaf = None ∧ lf_kind leaf = KSecret
     ∧ lf_external_input_required leaf = false ∧ lf_generate_on_deploy leaf = true
     ∧ match g with
       | DgDeclared generator => lf_value_generator leaf = Some generator
       | DgPassword constraints => lf_value_generator leaf = None
           ∧ lf_value_type leaf = Some VtPassword ∧ constraints = lf_consumer_constraints leaf
       end).
Proof.
  split; [done|]. unfold leaf_deployment_generator, decide_generator. intros H.
  destruct (lf_derived_from leaf); [done|]. cbn in H.
  destruct (lf_kind leaf); [|done]. destruct (lf_external_input_required leaf); [done|].
  destruct (lf_generate_on_deploy leaf); [|done]. cbn in H.
  destruct (lf_value_generator leaf); [by simplify_eq|].
  case_bool_decide; by simplify_eq.
Qed.

(** ** A sample schema *)
Definition sample_identity : SecretIdentity :=
  {| si_host := "web"; si_scope := "user"; si_user := Some "ann"; si_service := "mail";
     si_responsibility := "login"; si_namespace := None; si_name := "password" |}.
Definition sample_destination (service name : string) : Destination :=
  {| ds_path := "/persistent/secrets/" +:+ service +:+ "/service/" +:+ name;
     ds_category := "service"; ds_owner := "root"; ds_group := "root"; ds_mode := "0400";
     ds_content_type := None; ds_authorized_for_user := None |}.
Definition sample_leaf (identity : option SecretIdentity) : SecretLeaf :=
  {| lf_kind := KSecret; lf_shared_public_id := None; lf_expected_ssh_host := None;
     lf_expected_ssh_port := None; lf_expected_ssh_hosts := [];
     lf_install_default_if_missing := false; lf_default_value := None; lf_description := None;
     lf_human_facing := true; lf_external_input_required := false;
     lf_required_for_install := false; lf_optional := false; lf_identity := identity;
     lf_presentation := None; lf_recipient_public_keys := ["key"]; lf_recipient_ids := ["id"];
     lf_recipient_names := []; lf_destination := sample_destination "mail" "password";
     lf_consumer_units := []; lf_value_type := Some VtPassword; lf_consumer_constraints := None;
     lf_value_generator := None; lf_generate_on_deploy := true; lf_derived_from := None |}.
Definition sample_metadata : HostMetadata :=
  {| hm_socket_path := "/run/secrets.sock";
     hm_deployment := {| dm_publish_host_identity_to := None; dm_host := "web.example";
       dm_destination := "deploy"; dm_port := 22; dm_identity_public_keys := [];
       dm_protocol_version := None |};
     hm_recipient_public_keys := []; hm_service_display_paths := [] |}.
(** One leaf in the given namespace. *)
Definition sample_schema (namespace : string) : Schema :=
  [("web", {| hs_metadata := sample_metadata;
     hs_service_groups := [(namespace, [("mail",
       Branch [("login", Branch [("password", Secret (sample_leaf (Some sample_identity)))])])])] |})].

Lemma sample_schema_wf namespace : schema_wf (sample_schema namespace).
Proof.
  assert (∀ h e, bt_get h (sample_schema namespace) = Some e → e = {| hs_metadata := sample_metadata;
     hs_service_groups := [(namespace, [("mail",
       Branch [("login", Branch [("password", Secret (sample_leaf (Some sample_identity)))])])])] |}) as Hh.
  { intros h e. unfold sample_schema. cbn [bt_get]. destruct (kcmp h "web"); naive_solver. }
  assert (∀ (k : string) {V} k' (v v' : V), bt_get k [(k', v)] = Some v' → v' = v) as H1.
  { intros k V k' v v'. cbn [bt_get]. destruct (kcmp k k'); naive_solver. }
  split.
  - repeat constructor.
  - intros h e ->%Hh. repeat constructor.
  - intros h e ns ss ->%Hh ->%H1. repeat constructor.
  - intros h e ns ss s n ->%Hh ->%H1 ->%H1.
    repeat (apply wf_branch; [repeat constructor|constructor; [|constructor]]).
    by apply wf_leaf.
Qed.

Lemma deployable_exact_witness :
  schema_wf (sample_schema "user-ann-services")
  ∧ ∀ id, id ∈ ["web.user-ann-services.mail.login.password"] ↔
    ∃ p spec, path_parse id = Ok p ∧ nth 0 p "" = "web"
      ∧ leaf (sample_schema "user-ann-services") p = Ok spec
      ∧ match spec with OperatorOnly _ => False | _ => True end.
Proof.
  split; [apply sample_schema_wf|].
  apply (deployable_exact (sample_schema "user-ann-services")); [apply sample_schema_wf|].
  vm_compute. reflexivity.
Defined.

Lemma identity_index_exact_witness :
  schema_wf (sample_schema "user-ann-services")
  ∧ ∀ i p, resolve_identity (sample_schema "user-ann-services") i = Ok (Some p) ↔
    3 ≤ zlen p ∧ ∃ spec, leaf (sample_schema "user-ann-services") p = Ok spec
      ∧ spec_identity spec = Some i.
Proof.
  split; [apply sample_schema_wf|].
  eapply (identity_index_exact (sample_schema "user-ann-services")); [apply sample_schema_wf|].
  vm_compute. reflexivity.
Defined.
