(* ===== verification/Signing.v ===== *)
(** * Signing artifacts and closures

    [crates/core/src/artifact_signing.rs] and
    [crates/core/src/closure_signing.rs]: the manifests an operator is asked to
    sign, the detached signatures that come back, and the text a Nix store
    signature covers.  The base64 engine, the JSON encoder and parser and the
    [{:?}] of a string are arguments. *)
From stdpp Require Import gmap.
From S2P Require Import Prelude BTree Text Schema.
#[local] Open Scope Z_scope.

(** [hex]: exactly [length] lowercase hexadecimal characters. *)
Definition hex (value : string) (length : Z) : bool :=
  (slen value =? length) && all_bytes is_lower_hex value.

(** What both [SigningRequest::validate]s check of the key's identifier. *)
Definition check_signing_key (debug : string → string) (message : string)
  (identifier host fingerprint : string) : result string unit :=
  _ ← map_err (schema_error_show debug) (path_parse identifier);
  if bool_decide (host = "") || (253 <? slen host)
     || negb (all_bytes (λ b, is_ascii_alphanumeric b || (b =? 45)) host)
     || negb (starts_with (host +:+ ".services.") identifier)
  then Err message
  else guard_err (hex fingerprint 64) "invalid signing public-key fingerprint".

(** [set.insert(x)] of a [BTreeSet]: whether it was new, and the set after. *)
Definition set_insert (x : string) (s : gset string) : bool * gset string :=
  (bool_decide (x ∉ s), {[x]} ∪ s).

(** ** Artifacts *)
Module Artifacts.
Definition MAX_MANIFEST_BYTES : Z := 64 * 1024.
Definition CHUNK_BYTES : Z := 1024 * 1024.
Definition MAX_ARTIFACT_BYTES : Z := 128 * 1024 * 1024 * 1024.
Definition REQUIRED_ROLES : list string :=
  ["generation-image"; "boot-config"; "gen-kernel"; "gen-initrd"; "rescue-sfs"].
Definition OPTIONAL_ROLES : list string := ["network-stage"; "rescue-tools"].

Record Artifact := {
  ar_role : string;
  ar_path : string;
  ar_sha512 : string;
  ar_size : Z
}.

(** [Manifest] is its list of artifacts. *)
Definition Manifest : Type := list Artifact.

(** The body of the loop of [Manifest::validate]. *)
Definition check_artifact (roles : gset string) (a : Artifact) : result string (gset string) :=
  if negb (bool_decide (ar_role a ∈ REQUIRED_ROLES))
     && negb (bool_decide (ar_role a ∈ OPTIONAL_ROLES))
  then Err "unknown artifact role"
  else
    let '(new, roles) := set_insert (ar_role a) roles in
    if negb new then Err "duplicate artifact role"
    else if negb (hex (ar_sha512 a) 128)
    then Err "artifact SHA512 must be 128 lowercase hexadecimal characters"
    else if (ar_size a =? 0) || (MAX_ARTIFACT_BYTES <? ar_size a)
    then Err "artifact size outside permitted bounds"
    else if negb (starts_with "/nix/store/" (ar_path a))
            || (4096 <? slen (ar_path a)) || contains_byte 0 (ar_path a)
    then Err "signing accepts immutable Nix store artifacts only"
    else Ok roles.

(** [REQUIRED_ROLES.iter().any(|role| !roles.contains(role))]. *)
Definition missing_role (roles : gset string) : bool :=
  existsb (λ role, negb (bool_decide (role ∈ roles))) REQUIRED_ROLES.

Definition manifest_validate (m : Manifest) : result string unit :=
  if negb ((zlen REQUIRED_ROLES <=? zlen m) && (zlen m <=? zlen REQUIRED_ROLES + zlen OPTIONAL_ROLES))
  then Err "artifact batch requires five roles plus an optional network stage and rescue tools image"
  else
    roles ← try_fold check_artifact ∅ m;
    if missing_role roles
    then Err "missing required artifact role"
    else Ok tt.

Record SigningRequest := {
  sq_identifier : string;
  sq_host : string;
  sq_public_key_sha256 : string;
  sq_manifest : Manifest
}.

Definition request_validate (debug : string → string) (r : SigningRequest) : result string unit :=
  _ ← check_signing_key debug "signing key must belong to the declared host"
        (sq_identifier r) (sq_host r) (sq_public_key_sha256 r);
  manifest_validate (sq_manifest r).

Record DetachedSignature := {
  dt_role : string;
  dt_sha512 : string;
  dt_size : Z;
  dt_signature_base64 : string
}.

(** [slice.starts_with(prefix)]. *)
Definition slice_starts_with (prefix l : list Z) : bool :=
  bool_decide (take (length prefix) l = prefix).

Section Signatures.
Context (decode : string → option (list Z)).

(** The body of the loop of [Signatures::validate]. *)
Definition check_signature (m : Manifest) (roles : gset string) (s : DetachedSignature)
  : result string (gset string) :=
  let '(new, roles) := set_insert (dt_role s) roles in
  if negb new then Err "duplicate detached signature"
  else
    artifact ← ok_or "unasked detached signature"
      (snd <$> list_find (λ a, ar_role a = dt_role s) m);
    if negb (bool_decide (ar_sha512 artifact = dt_sha512 s)) || negb (ar_size artifact =? dt_size s)
    then Err "detached signature does not match approved artifact"
    else if 8192 <? slen (dt_signature_base64 s) then Err "oversized detached signature"
    else
      decoded ← ok_or "malformed detached signature" (decode (dt_signature_base64 s));
      if negb (slice_starts_with (bytes "NMBLSIG1") decoded)
         || negb ((3000 <=? zlen decoded) && (zlen decoded <=? 6000))
      then Err "invalid detached NMBL sidecar"
      else Ok roles.

Definition signatures_validate (signatures : list DetachedSignature) (m : Manifest)
  : result string unit :=
  if negb (zlen signatures =? zlen m) then Err "missing or extra detached signature"
  else
    _ ← try_fold (check_signature m) ∅ signatures;
    Ok tt.
End Signatures.
End Artifacts.

(** ** Closures *)
Module Closures.
Definition VERSION : Z := 1.
Definition MAX_MANIFEST_BYTES : Z := 4 * 1024 * 1024.
Definition MAX_PATHS : Z := 4096.
Definition MAX_NAR_BYTES : Z := 128 * 1024 * 1024 * 1024.
Definition NIX32 : string := "0123456789abcdfghijklmnpqrsvwxyz".

Record ManifestPath := {
  mp_path : string;
  mp_nar_hash : string;
  mp_nar_size : Z;
  mp_references : list string
}.

Definition canonical_store_path (path : string) : bool :=
  match strip_prefix "/nix/store/" path with
  | None => false
  | Some name =>
      let b := bytes name in
      (33 <? zlen b) && (zlen b <=? 244)
      && (nth 32 b 0 =? 45)
      && forallb (byte_of NIX32) (take 32 b)
      && negb (nth 33 b 0 =? 46)
      && forallb (λ b, is_ascii_alphanumeric b || byte_of "+-._?=" b) (drop 33 b)
  end.

(** [windows(2).any(|w| w[0] >= w[1])]. *)
Fixpoint unsorted (l : list string) : bool :=
  match l with
  | x :: ((y :: _) as rest) => match kcmp x y with Lt => false | _ => true end || unsorted rest
  | _ => false
  end.

Definition path_validate (p : ManifestPath) : result string unit :=
  if negb (canonical_store_path (mp_path p)) then Err "invalid canonical Nix store path"
  else
    hash ← ok_or "NAR hash must use sha256" (strip_prefix "sha256:" (mp_nar_hash p));
    if negb (slen hash =? 52)
       || negb ((nth 0 (bytes hash) 0 =? 48) || (nth 0 (bytes hash) 0 =? 49))
       || negb (all_bytes (byte_of NIX32) hash)
    then Err "NAR hash must be canonical sha256 Nix base32"
    else if (mp_nar_size p =? 0) || (MAX_NAR_BYTES <? mp_nar_size p)
    then Err "NAR size outside permitted bounds"
    else if MAX_PATHS <? zlen (mp_references p) then Err "too many references"
    else if existsb (λ p, negb (canonical_store_path p)) (mp_references p)
            || unsorted (mp_references p)
    then Err "references must be sorted unique canonical store paths"
    else Ok tt.

Definition fingerprint (p : ManifestPath) : string :=
  "1;" +:+ mp_path p +:+ ";" +:+ mp_nar_hash p +:+ ";" +:+ dec (mp_nar_size p) +:+ ";"
    +:+ join "," (mp_references p).

Record Manifest := { mf_version : Z; mf_paths : list ManifestPath }.

Record SigningRequest := {
  sq_identifier : string;
  sq_host : string;
  sq_public_key_sha256 : string;
  sq_manifest : Manifest
}.

Record PathSignature := { pg_path : string; pg_signature : string }.
Record Signatures := { sg_version : Z; sg_signatures : list PathSignature }.

Section Json.
(** [serde_json::to_vec] of a manifest and of a request, and
    [serde_json::from_slice] of a manifest. *)
Context (manifest_json : Manifest → result string (list Z))
  (request_json : SigningRequest → result string (list Z))
  (from_slice : list Z → result string Manifest).

Definition check_path (paths : gset string) (p : ManifestPath) : result string (gset string) :=
  _ ← path_validate p;
  let '(new, paths) := set_insert (mp_path p) paths in
  if new then Ok paths else Err "duplicate closure path".

Definition manifest_validate (m : Manifest) : result string unit :=
  if negb (mf_version m =? VERSION) then Err "unsupported closure manifest version"
  else if bool_decide (mf_paths m = []) || (MAX_PATHS <? zlen (mf_paths m))
  then Err "closure requires 1..4096 paths"
  else
    _ ← try_fold check_path ∅ (mf_paths m);
    json ← manifest_json m;
    guard_err (zlen json <=? MAX_MANIFEST_BYTES) "closure manifest exceeds 4 MiB".

Definition parse_json (bytes : list Z) : result string Manifest :=
  if MAX_MANIFEST_BYTES <? zlen bytes then Err "closure manifest exceeds 4 MiB"
  else
    manifest ← from_slice bytes;
    _ ← manifest_validate manifest;
    Ok manifest.

Definition request_validate (debug : string → string) (r : SigningRequest) : result string unit :=
  _ ← check_signing_key debug "signing key must belong to declared host"
        (sq_identifier r) (sq_host r) (sq_public_key_sha256 r);
  _ ← manifest_validate (sq_manifest r);
  json ← request_json r;
  guard_err (zlen json <=? MAX_MANIFEST_BYTES) "closure signing request exceeds 4 MiB".

(** [STANDARD.decode] and [STANDARD.encode]. *)
Context (decode : string → option (list Z)) (encode : list Z → string).

Definition validate_named_base64 (value : string) (size : Z) : result string unit :=
  '(name, encoded) ← ok_or "missing Nix key name" (split_once ":" value);
  if bool_decide (name = "") || (253 <? slen name)
     || negb (all_bytes (λ b, is_ascii_alphanumeric b || byte_of "-._" b) name)
  then Err "invalid Nix key name"
  else if negb (slen encoded =? ((size + 2) / 3) * 4) then Err "invalid Nix key encoded size"
  else
    decoded ← ok_or "invalid Nix key base64" (decode encoded);
    if negb (zlen decoded =? size) || negb (bool_decide (encode decoded = encoded))
    then Err "invalid Nix key size or encoding"
    else Ok tt.

Definition validate_public_key (value : string) : result string unit :=
  validate_named_base64 value 32.

(** The body of the loop of [Signatures::validate]. *)
Definition check_signature (expected seen : gset string) (s : PathSignature)
  : result string (gset string) :=
  if negb (bool_decide (pg_path s ∈ expected)) then Err "duplicate or unasked closure signature"
  else
    let '(new, seen) := set_insert (pg_path s) seen in
    if negb new then Err "duplicate or unasked closure signature"
    else
      _ ← validate_named_base64 (pg_signature s) 64;
      Ok seen.

Definition signatures_validate (s : Signatures) (m : Manifest) : result string unit :=
  _ ← manifest_validate m;
  if negb (sg_version s =? VERSION) || negb (zlen (sg_signatures s) =? zlen (mf_paths m))
  then Err "missing, extra or unsupported closure signatures"
  else
    let expected := list_to_set (C:=gset string) (mp_path <$> mf_paths m) in
    _ ← try_fold (check_signature expected) ∅ (sg_signatures s);
    Ok tt.
End Json.
End Closures.

(** ** Lemmas *)
(** The shape of all four loops: an element passes when it is good and its key
    was not seen, and then the key is seen. *)
Section Seen.
Context {A : Type} (key : A → string) (P : A → Prop).
Context (f : gset string → A → result string (gset string)).
Context (f_ok : ∀ s a s', f s a = Ok s' ↔ P a ∧ key a ∉ s ∧ s' = {[key a]} ∪ s).

Lemma try_fold_seen s l s' :
  try_fold f s l = Ok s' ↔
    Forall P l ∧ NoDup (key <$> l) ∧ (∀ k, k ∈ key <$> l → k ∉ s)
    ∧ s' = list_to_set (key <$> l) ∪ s.
Proof.
  revert s s'. induction l as [|a l IH]; intros s s'; cbn [try_fold].
  { rewrite Forall_nil. cbn. rewrite (left_id_L ∅ union). split.
    - intros [= ->]. split_and!; [done|constructor| |done]. by intros k ?%elem_of_nil.
    - naive_solver. }
  rewrite Forall_cons, fmap_cons, NoDup_cons. cbn [list_to_set].
  destruct (f s a) as [s1|e] eqn:Ef.
  - apply f_ok in Ef as (Ha & Hk & ->). rewrite IH. setoid_rewrite elem_of_cons.
    setoid_rewrite elem_of_union. setoid_rewrite elem_of_singleton. split.
    + intros (Hl & Hn & Hd & ->). split_and!; try done.
      * intros Hin. by destruct (Hd _ Hin); left.
      * intros k [->|Hin]; [done|]. intros Hs. by destruct (Hd _ Hin); right.
      * by rewrite (assoc_L union), (comm_L union (list_to_set _) {[key a]}).
    + intros ((_ & Hl) & (Hna & Hn) & Hd & ->). split_and!; try done.
      * intros k Hin [->|Hs]; [done|]. by apply (Hd k); [right|].
      * by rewrite (assoc_L union), (comm_L union (list_to_set _) {[key a]}).
  - split; [done|]. intros ((Ha & _) & _ & Hd & _). exfalso.
    assert (f s a = Ok ({[key a]} ∪ s)) as E; [|congruence].
    apply f_ok. split_and!; [done| |done]. apply Hd. left.
Qed.
End Seen.

Lemma set_insert_ok x s :
  set_insert x s = (bool_decide (x ∉ s), {[x]} ∪ s).
Proof. done. Qed.

(** Two lists without repetition, one within the other and as long, are the
    same up to order. *)
Lemma cover_permutation {A} (l k : list A) :
  NoDup l → l ⊆ k → length l = length k → l ≡ₚ k.
Proof.
  intros Hn Hs Hl. apply submseteq_length_Permutation; [|lia].
  by apply NoDup_submseteq.
Qed.

Module ArtifactFacts.
Import Artifacts.

Definition valid_artifact (a : Artifact) : Prop :=
  ar_role a ∈ REQUIRED_ROLES ++ OPTIONAL_ROLES
  ∧ hex (ar_sha512 a) 128 = true
  ∧ ar_size a ≠ 0 ∧ ar_size a ≤ MAX_ARTIFACT_BYTES
  ∧ (∃ name, ar_path a = "/nix/store/" +:+ name) ∧ slen (ar_path a) ≤ 4096
  ∧ contains_byte 0 (ar_path a) = false.

Lemma check_artifact_ok s a s' :
  check_artifact s a = Ok s' ↔ valid_artifact a ∧ ar_role a ∉ s ∧ s' = {[ar_role a]} ∪ s.
Proof.
  unfold check_artifact, valid_artifact. rewrite <- starts_with_spec, elem_of_app.
  rewrite set_insert_ok. split.
  - intros H. repeat case_match; simplify_eq. bool_prop. tauto.
  - intros ((Hr & Hh & Hz & Hm & Hp & Hl & Hn) & Hs & ->).
    replace (negb _ && negb _) with false by (symmetry; bool_prop; tauto).
    rewrite bool_decide_true, Hh, Hp, Hn by done. cbn [negb orb].
    rewrite (proj2 (Z.eqb_neq _ _)), !(proj2 (Z.ltb_ge _ _)) by done. done.
Qed.

Lemma missing_role_false roles :
  missing_role roles = false ↔ ∀ r, r ∈ REQUIRED_ROLES → r ∈ roles.
Proof.
  unfold missing_role. rewrite <- not_true_iff_false, existsb_exists. split.
  - intros H r Hr. apply dec_stable. intros Hn. apply H. exists r.
    rewrite <- list_elem_of_In, negb_true_iff, bool_decide_eq_false. done.
  - intros H (r & Hr & Hn). rewrite negb_true_iff, bool_decide_eq_false in Hn.
    by apply Hn, H, list_elem_of_In.
Qed.

(** A batch of artifacts is accepted exactly when it has the five required
    roles and at most the two optional ones, no role twice, and every artifact
    is an immutable store path with a SHA-512 and a size within bounds; the
    count check before the loop never decides. *)
Theorem artifact_manifest_exact m :
  manifest_validate m = Ok tt ↔
    Forall valid_artifact m ∧ NoDup (ar_role <$> m) ∧ REQUIRED_ROLES ⊆ ar_role <$> m.
Proof.
  unfold manifest_validate.
  split.
  - destruct (negb _); [done|]. intros H. apply bind_ok in H as (roles & Hf & H).
    apply (try_fold_seen _ _ _ check_artifact_ok) in Hf as (Hv & Hn & _ & ->).
    destruct (missing_role _) eqn:Em; [done|]. clear H.
    pose proof (proj1 (missing_role_false _) Em) as H. split_and!; [done..|]. intros r Hr. apply H in Hr.
    rewrite (right_id_L ∅ union), elem_of_list_to_set in Hr. done.
  - intros (Hv & Hn & Hr).
    assert (ar_role <$> m ⊆ REQUIRED_ROLES ++ OPTIONAL_ROLES) as Hsub.
    { intros r (a & -> & Ha)%list_elem_of_fmap.
      rewrite Forall_forall in Hv. by destruct (Hv a Ha). }
    assert (NoDup REQUIRED_ROLES) as Hrn by (apply NoDup_ListNoDup; repeat constructor; cbn; intuition discriminate).
    pose proof (submseteq_length _ _ (NoDup_submseteq _ _ Hn Hsub)) as H1.
    pose proof (submseteq_length _ _ (NoDup_submseteq _ _ Hrn Hr)) as H2.
    rewrite length_fmap in H1, H2. rewrite length_app in H1.
    replace (_ && _) with true by (symmetry; bool_prop; unfold zlen; lia). cbn [negb].
    apply bind_ok. exists (list_to_set (ar_role <$> m) ∪ ∅). split.
    + apply (try_fold_seen _ _ _ check_artifact_ok). split_and!; try done.
    + rewrite (proj2 (missing_role_false _)); [done|]. intros r Hin.
      rewrite (right_id_L ∅ union), elem_of_list_to_set. by apply Hr.
Qed.

Section Signatures.
Context (decode : string → option (list Z)).

(** A signature of an artifact: its role and digest, and an NMBL sidecar. *)
Definition signs (m : Manifest) (s : DetachedSignature) : Prop :=
  ∃ i a, list_find (λ a, ar_role a = dt_role s) m = Some (i, a)
    ∧ ar_sha512 a = dt_sha512 s ∧ ar_size a = dt_size s
    ∧ slen (dt_signature_base64 s) ≤ 8192
    ∧ ∃ rest, decode (dt_signature_base64 s) = Some (bytes "NMBLSIG1" ++ rest)
        ∧ 3000 ≤ zlen (bytes "NMBLSIG1" ++ rest) ≤ 6000.

Lemma slice_starts_with_spec prefix l :
  slice_starts_with prefix l = true ↔ ∃ rest, l = prefix ++ rest.
Proof.
  unfold slice_starts_with. rewrite bool_decide_eq_true. split.
  - intros H. exists (drop (length prefix) l). by rewrite <- H at 1; rewrite take_drop.
  - intros [rest ->]. by rewrite take_app_length.
Qed.

Lemma check_signature_ok m s x s' :
  check_signature decode m s x = Ok s' ↔
    signs m x ∧ dt_role x ∉ s ∧ s' = {[dt_role x]} ∪ s.
Proof.
  unfold check_signature, signs. rewrite set_insert_ok. split.
  - case_bool_decide as Hs; [|done]. cbn [negb]. cbn match.
    destruct (list_find _ m) as [[i a]|] eqn:Ef; [|done]. cbn [fmap option_fmap option_map snd ok_or].
    cbn [mbind result_bind]. destruct (negb (bool_decide (ar_sha512 a = _)) || _) eqn:E1; [done|].
    destruct (8192 <? _) eqn:E2; [done|].
    destruct (decode _) as [decoded|] eqn:Ed; [|done]. cbn [ok_or mbind result_bind].
    destruct (negb (slice_starts_with _ _) || _) eqn:E3; [done|]. intros [= <-]. split; [|done].
    rewrite orb_false_iff, !negb_false_iff, slice_starts_with_spec in E3.
    destruct E3 as [[rest ->] E3]. bool_prop. exists i, a. split_and!; try tauto. by exists rest.
  - intros ((i & a & -> & Hh & Hz & Hl & rest & Hd & H1 & H2) & Hs & ->).
    rewrite bool_decide_true by done. cbn [negb fmap option_fmap option_map snd ok_or mbind result_bind].
    rewrite bool_decide_true, Hz, Z.eqb_refl, (proj2 (Z.ltb_ge _ _)), Hd by done.
    cbn [negb orb ok_or mbind result_bind].
    rewrite (proj2 (slice_starts_with_spec _ _)) by eauto.
    by rewrite (proj2 (Z.leb_le _ _)), (proj2 (Z.leb_le _ _)) by done.
Qed.

(** Detached signatures accepted for an approved batch sign exactly that
    batch: paired with the role, digest and size they carry they are the
    artifacts, each once, and each is an NMBL sidecar of sane size. *)
Theorem artifact_signatures_cover m signatures :
  manifest_validate m = Ok tt →
  signatures_validate decode signatures m = Ok tt →
  ((λ s, (dt_role s, dt_sha512 s, dt_size s)) <$> signatures)
    ≡ₚ ((λ a, (ar_role a, ar_sha512 a, ar_size a)) <$> m)
  ∧ Forall (signs m) signatures.
Proof.
  intros Hm H. unfold signatures_validate in H.
  destruct (zlen signatures =? zlen m) eqn:El; [|done]. cbn [negb] in H.
  apply bind_ok in H as (roles & Hf & _).
  apply (try_fold_seen _ _ _ (check_signature_ok m)) in Hf as (Hs & Hn & _ & _).
  split; [|done]. apply cover_permutation.
  - apply (NoDup_fmap_1 (λ t : string * string * Z, t.1.1)). by rewrite <- list_fmap_compose.
  - intros t (s & -> & Hin)%list_elem_of_fmap. rewrite Forall_forall in Hs.
    destruct (Hs s Hin) as (i & a & (Ha & Hr & _)%list_find_Some & Hh & Hz & _).
    apply list_elem_of_fmap. exists a. split; [by rewrite Hr, Hh, Hz|].
    by eapply list_elem_of_lookup_2.
  - rewrite !length_fmap. bool_prop. unfold zlen in El. lia.
Qed.
End Signatures.
End ArtifactFacts.

Module ClosureFacts.
Import Closures.

(** ** The fingerprint *)
Lemma split_unique sep a b r s :
  contains_byte (bz sep) a = false → contains_byte (bz sep) b = false →
  a +:+ String sep r = b +:+ String sep s → a = b ∧ r = s.
Proof.
  intros Ha Hb E. pose proof (split_once_app sep a r Ha) as E1.
  rewrite E, split_once_app in E1 by done. by injection E1.
Qed.

(** The bytes of a store path: no separator of a fingerprint is among them. *)
Definition store_byte (b : Z) : bool := is_ascii_alphanumeric b || byte_of "+-._?=/" b.

Lemma nix32_alphanumeric b : byte_of NIX32 b = true → is_ascii_alphanumeric b = true.
Proof.
  unfold byte_of. intros (x & Hx & E)%existsb_exists. apply Z.eqb_eq in E as <-.
  cbn in Hx. repeat (destruct Hx as [<-|Hx]; [done|]). done.
Qed.

Lemma canonical_spec path :
  canonical_store_path path = true →
  ∃ name, path = "/nix/store/" +:+ name ∧ 33 < slen name ≤ 244
    ∧ all_bytes store_byte name = true ∧ contains_byte 47 name = false.
Proof.
  unfold canonical_store_path. intros H.
  destruct (strip_prefix "/nix/store/" path) as [name|] eqn:Es; [|done].
  apply strip_prefix_Some in Es as ->. exists name. split; [done|].
  rewrite !andb_true_iff in H. destruct H as [[[[[H1 H2] H45] H32] _] H33].
  rewrite slen_bytes. bool_prop. split; [done|].
  assert (all_bytes (λ b, is_ascii_alphanumeric b || byte_of "+-._?=" b) name = true) as Ha.
  { unfold all_bytes. rewrite <- (take_drop 32 (bytes name)), forallb_app.
    assert (length (bytes name) > 33)%nat as Hl by (unfold zlen in H1; lia).
    destruct (drop 32 (bytes name)) as [|x l] eqn:Ed.
    { apply (f_equal length) in Ed. rewrite length_drop in Ed. cbn in Ed. lia. }
    assert (x = nth 32 (bytes name) 0) as ->.
    { rewrite <- (firstn_skipn 32 (bytes name)) at 1. rewrite app_nth2 by (rewrite firstn_length; lia).
      rewrite firstn_length, Nat.min_l by lia. change (skipn 32) with (drop (A:=Z) 32).
      by rewrite Ed. }
    replace l with (drop 33 (bytes name))
      by (change 33%nat with (32 + 1)%nat; rewrite <- drop_drop, Ed; done).
    cbn [forallb]. rewrite H33, H45. apply andb_true_iff. split; [|done].
    apply forallb_forall. intros b Hb. rewrite forallb_forall in H32.
    rewrite nix32_alphanumeric; [done|]. by apply H32. }
  split; [|by eapply all_bytes_not_contains; [exact Ha|]].
  eapply all_bytes_impl; [|exact Ha]. intros b. unfold store_byte.
  rewrite !orb_true_iff. intros [?|H]; [by left|right].
  unfold byte_of in *. apply existsb_exists in H as (x & Hx & E). apply existsb_exists.
  exists x. split; [|done]. change (bytes "+-._?=/") with (bytes "+-._?=" ++ [47]).
  apply in_app_iff. by left.
Qed.

Lemma canonical_no_byte b path :
  canonical_store_path path = true → store_byte b = false → contains_byte b path = false.
Proof.
  intros (name & -> & _ & Ha & _)%canonical_spec Hb.
  apply (all_bytes_not_contains store_byte); [|done]. by rewrite all_bytes_app, Ha.
Qed.

Definition valid_path (p : ManifestPath) : Prop :=
  canonical_store_path (mp_path p) = true
  ∧ (∃ hash, mp_nar_hash p = "sha256:" +:+ hash ∧ slen hash = 52
       ∧ all_bytes (byte_of NIX32) hash = true)
  ∧ mp_nar_size p ≠ 0 ∧ mp_nar_size p ≤ MAX_NAR_BYTES
  ∧ Forall (λ r, canonical_store_path r = true) (mp_references p)
  ∧ unsorted (mp_references p) = false.

Lemma path_validate_ok p : path_validate p = Ok tt → valid_path p.
Proof.
  unfold path_validate, valid_path. intros H.
  destruct (canonical_store_path (mp_path p)); [|done].
  destruct (strip_prefix "sha256:" (mp_nar_hash p)) as [hash|] eqn:Eh; [|done].
  apply strip_prefix_Some in Eh. cbn [negb ok_or mbind result_bind] in H.
  destruct (negb (slen hash =? 52) || _ || _) eqn:E1; [done|].
  destruct ((mp_nar_size p =? 0) || _) eqn:E2; [done|].
  destruct (MAX_PATHS <? _); [done|].
  destruct (existsb _ _ || _) eqn:E3; [done|].
  apply orb_false_iff in E3 as [E3 E4]. bool_prop. split_hyps.
  split_and!; try done; [by exists hash|].
  apply Forall_forall. intros r Hr. apply not_false_iff_true. intros Hc.
  apply not_true_iff_false in E3. apply E3, existsb_exists. exists r.
  split; [by apply list_elem_of_In|]. by rewrite Hc.
Qed.

(** The text a Nix store signature covers determines what it vouches for:
    two validated paths with the same fingerprint agree in path, NAR hash, NAR
    size and references, so no signature transfers to other contents. *)
Theorem fingerprint_injective p q :
  path_validate p = Ok tt → path_validate q = Ok tt →
  0 ≤ mp_nar_size p → 0 ≤ mp_nar_size q →
  fingerprint p = fingerprint q → p = q.
Proof.
  intros (Hp1 & (h1 & Eh1 & _ & Hh1) & _ & _ & Hr1 & _)%path_validate_ok
         (Hp2 & (h2 & Eh2 & _ & Hh2) & _ & _ & Hr2 & _)%path_validate_ok Hs1 Hs2 E.
  unfold fingerprint in E. rewrite Eh1, Eh2 in E.
  apply (f_equal (strip_prefix "1;")) in E. rewrite !strip_prefix_app in E.
  injection E as E.
  apply (split_unique ";") in E as [Epath E]; [|by apply canonical_no_byte..].
  assert (∀ h, all_bytes (byte_of NIX32) h = true → contains_byte 59 ("sha256:" +:+ h) = false)
    as Hno.
  { intros h Hh. unfold contains_byte. rewrite bytes_app, existsb_app.
    exact (all_bytes_not_contains _ 59 _ Hh eq_refl). }
  apply (split_unique ";") in E as [Ehash E]; [|by apply Hno..].
  assert (∀ n, 0 ≤ n → contains_byte 59 (dec n) = false) as Hdec.
  { intros n Hn. apply (all_bytes_not_contains is_ascii_digit); [|done].
    by destruct (dec_bytes n Hn) as (_ & ? & _). }
  apply (split_unique ";") in E as [Esize E]; [|by apply Hdec..].
  apply dec_inj in Esize; [|done..].
  assert (mp_references p = mp_references q) as Erefs.
  { assert (∀ l, Forall (λ r, canonical_store_path r = true) l →
              split "," (join "," l) = match l with [] => [""] | _ => l end) as Hsplit.
    { intros [|r l] Hl; [done|]. apply split_join; [done|].
      eapply Forall_impl; [exact Hl|]. intros x Hx. by apply canonical_no_byte. }
    apply (f_equal (split ",")) in E. rewrite !Hsplit in E by done.
    destruct (mp_references p), (mp_references q); [done| | |done]; simplify_eq.
    - by apply Forall_cons_1 in Hr2 as [? _].
    - by apply Forall_cons_1 in Hr1 as [? _]. }
  destruct p, q; cbn in *. rewrite Eh1, Eh2. congruence.
Qed.

Section Signatures.
Context (manifest_json : Manifest → result string (list Z)).
Context (decode : string → option (list Z)) (encode : list Z → string).

(** [name:base64] of 64 bytes. *)
Definition named_signature (value : string) : Prop :=
  validate_named_base64 decode encode value 64 = Ok tt.

Lemma check_path_ok s p s' :
  check_path s p = Ok s' ↔ path_validate p = Ok tt ∧ mp_path p ∉ s ∧ s' = {[mp_path p]} ∪ s.
Proof.
  unfold check_path. rewrite set_insert_ok.
  destruct (path_validate p) as [[]|]; cbn [mbind result_bind]; [|naive_solver].
  case_bool_decide; split; [|naive_solver|done|naive_solver]. by intros [= <-].
Qed.

Lemma check_path_signature_ok expected s x s' :
  check_signature decode encode expected s x = Ok s' ↔
    (pg_path x ∈ expected ∧ named_signature (pg_signature x))
    ∧ pg_path x ∉ s ∧ s' = {[pg_path x]} ∪ s.
Proof.
  unfold check_signature, named_signature. rewrite set_insert_ok.
  destruct (decide (pg_path x ∈ expected)) as [He|He];
    [rewrite bool_decide_true by done|rewrite bool_decide_false by done; naive_solver].
  destruct (decide (pg_path x ∈ s)) as [Hs|Hs];
    [rewrite bool_decide_false by tauto; naive_solver|rewrite bool_decide_true by done].
  cbn [negb]. cbn match.
  destruct (validate_named_base64 _ _ _ _) as [[]|]; cbn [mbind result_bind]; [|naive_solver].
  split; [by intros [= <-]|naive_solver].
Qed.

(** The signatures accepted for a closure sign exactly its paths: each path
    once and no other, every path canonical and listed once, every signature
    the named base64 of 64 bytes. *)
Theorem closure_signatures_cover s m :
  signatures_validate manifest_json decode encode s m = Ok tt →
  (pg_path <$> sg_signatures s) ≡ₚ (mp_path <$> mf_paths m)
  ∧ NoDup (mp_path <$> mf_paths m)
  ∧ Forall (λ p, path_validate p = Ok tt) (mf_paths m)
  ∧ Forall (λ x, named_signature (pg_signature x)) (sg_signatures s).
Proof.
  unfold signatures_validate. intros ([] & Hm & H)%bind_ok.
  unfold manifest_validate in Hm. destruct (negb (mf_version m =? VERSION)); [done|].
  destruct (bool_decide (mf_paths m = []) || _); [done|].
  apply bind_ok in Hm as (paths & Hf & _).
  apply (try_fold_seen _ _ _ check_path_ok) in Hf as (Hp & Hpn & _ & _).
  destruct (negb (sg_version s =? VERSION) || _) eqn:El; [done|].
  apply bind_ok in H as (seen & Hf & _).
  apply (try_fold_seen _ _ _ (check_path_signature_ok _)) in Hf as (Hs & Hn & _ & _).
  split_and!; [|done..|].
  - apply cover_permutation; [done| |].
    + intros k (x & -> & Hx)%list_elem_of_fmap. rewrite Forall_forall in Hs.
      destruct (Hs x Hx) as [He _]. by apply elem_of_list_to_set in He.
    + rewrite !length_fmap. apply orb_false_iff in El as [_ El]. bool_prop. unfold zlen in El. lia.
  - eapply Forall_impl; [exact Hs|]. by intros x [_ ?].
Qed.
End Signatures.
End ClosureFacts.

(** ** The signing key *)
Lemma check_signing_key_ok debug message identifier host fingerprint :
  check_signing_key debug message identifier host fingerprint = Ok tt →
  (∃ rest, path_parse identifier = Ok (host :: "services" :: rest)) ∧ hex fingerprint 64 = true.
Proof.
  unfold check_signing_key. intros (path & Hp & H)%bind_ok.
  destruct (_ || _ || _ || _) eqn:E; [done|]. apply guard_ok in H. split; [|done].
  rewrite !orb_false_iff, !negb_false_iff, starts_with_spec in E.
  destruct E as [[_ Ha] [r ->]].
  destruct (path_parse _) as [p|] eqn:Ep; [|done]. pose proof Ep as E'.
  unfold path_parse in E'. apply path_new_ok in E' as (-> & _).
  assert (contains_byte 46 host = false) as Hd
    by (eapply all_bytes_not_contains; [exact Ha|done]).
  exists (split "." r). f_equal.
  change ((host +:+ ".services.") +:+ r) with ((host +:+ String "." ("services" +:+ ".")) +:+ r).
  rewrite !sapp_assoc, scons_app. rewrite split_app_sep by done. f_equal.
Qed.

(** A signing request names a key of the host it declares: its identifier is
    a secret path of that host's [services] namespace, for artifacts and for
    closures alike, and the key's fingerprint is a SHA-256 in lowercase hex. *)
Theorem signing_key_of_host debug manifest_json request_json ra rc :
  (Artifacts.request_validate debug ra = Ok tt →
    (∃ rest, path_parse (Artifacts.sq_identifier ra)
             = Ok (Artifacts.sq_host ra :: "services" :: rest))
    ∧ hex (Artifacts.sq_public_key_sha256 ra) 64 = true)
  ∧ (Closures.request_validate manifest_json request_json debug rc = Ok tt →
    (∃ rest, path_parse (Closures.sq_identifier rc)
             = Ok (Closures.sq_host rc :: "services" :: rest))
    ∧ hex (Closures.sq_public_key_sha256 rc) 64 = true).
Proof.
  split; intros ([] & H & _)%bind_ok; by apply check_signing_key_ok in H.
Qed.

(** ** A sample batch and closure *)
Module Samples.
Fixpoint rep (n : nat) (c : ascii) : string :=
  match n with O => "" | S n => String c (rep n c) end.

Definition artifact (role : string) : Artifacts.Artifact :=
  {| Artifacts.ar_role := role; Artifacts.ar_path := "/nix/store/image";
     Artifacts.ar_sha512 := rep 128 "a"; Artifacts.ar_size := 9 |}.
Definition batch : Artifacts.Manifest := artifact <$> Artifacts.REQUIRED_ROLES.
Definition sidecar : list Z := bytes "NMBLSIG1" ++ repeat 0 3000.
Definition sidecar_engine (s : string) : option (list Z) :=
  if bool_decide (s = "sig") then Some sidecar else None.
Definition detached (role : string) : Artifacts.DetachedSignature :=
  {| Artifacts.dt_role := role; Artifacts.dt_sha512 := rep 128 "a"; Artifacts.dt_size := 9;
     Artifacts.dt_signature_base64 := "sig" |}.

Definition store_path (name : string) : string := "/nix/store/" +:+ rep 32 "0" +:+ "-" +:+ name.
Definition entry : Closures.ManifestPath :=
  {| Closures.mp_path := store_path "root"; Closures.mp_nar_hash := "sha256:" +:+ rep 52 "0";
     Closures.mp_nar_size := 7; Closures.mp_references := [store_path "a"; store_path "b"] |}.
Definition closure : Closures.Manifest :=
  {| Closures.mf_version := 1; Closures.mf_paths := [entry] |}.
Definition encode (l : list Z) : string := rep 88 "A".
Definition decode (s : string) : option (list Z) :=
  if bool_decide (s = rep 88 "A") then Some (repeat 0 64) else None.
Definition signed : Closures.Signatures :=
  {| Closures.sg_version := 1;
     Closures.sg_signatures :=
       [{| Closures.pg_path := store_path "root"; Closures.pg_signature := "cache:" +:+ rep 88 "A" |}] |}.
Definition no_json {A} (_ : A) : result string (list Z) := Ok [].
Definition request : Closures.SigningRequest :=
  {| Closures.sq_identifier := "web.services.cache.key"; Closures.sq_host := "web";
     Closures.sq_public_key_sha256 := rep 64 "0"; Closures.sq_manifest := closure |}.
Definition artifact_request : Artifacts.SigningRequest :=
  {| Artifacts.sq_identifier := "web.services.boot.key"; Artifacts.sq_host := "web";
     Artifacts.sq_public_key_sha256 := rep 64 "0"; Artifacts.sq_manifest := batch |}.
End Samples.

Lemma artifact_signatures_cover_witness :
  ((λ s, (Artifacts.dt_role s, Artifacts.dt_sha512 s, Artifacts.dt_size s))
     <$> (Samples.detached <$> reverse Artifacts.REQUIRED_ROLES))
    ≡ₚ ((λ a, (Artifacts.ar_role a, Artifacts.ar_sha512 a, Artifacts.ar_size a)) <$> Samples.batch).
Proof.
  apply (ArtifactFacts.artifact_signatures_cover Samples.sidecar_engine);
    vm_compute; reflexivity.
Defined.

Lemma fingerprint_injective_witness : Samples.entry = Samples.entry.
Proof.
  apply ClosureFacts.fingerprint_injective; vm_compute; congruence.
Defined.

Lemma closure_signatures_cover_witness :
  (Closures.pg_path <$> Closures.sg_signatures Samples.signed)
    ≡ₚ (Closures.mp_path <$> Closures.mf_paths Samples.closure).
Proof.
  apply (ClosureFacts.closure_signatures_cover Samples.no_json Samples.decode Samples.encode).
  vm_compute; reflexivity.
Defined.

Lemma signing_key_of_host_witness :
  (∃ rest, path_parse "web.services.boot.key" = Ok ("web" :: "services" :: rest))
  ∧ (∃ rest, path_parse "web.services.cache.key" = Ok ("web" :: "services" :: rest)).
Proof.
  pose proof (signing_key_of_host (λ s, s) Samples.no_json Samples.no_json
    Samples.artifact_request Samples.request) as [Ha Hc].
  split; [apply Ha|apply Hc]; vm_compute; reflexivity.
Defined.
