(* ===== verification/Requests.v ===== *)
(** * Secret requests and sessions

    [crates/core/src/secret_request.rs]: what the backend asks an attached TUI
    and what it answers, and how a process is described from [/proc].
    [crates/core/src/secret_session.rs]: the socket that hands the approved
    values to the command they were asked for.  [/proc], the lossy decoding of
    bytes and the base64 encoder are arguments. *)
From S2P Require Import Prelude BTree Text Framing Procedure SshAuth Signing.
#[local] Open Scope Z_scope.

Definition MAX_REQUEST_IDENTIFIERS : Z := 256.
Definition MAX_REQUEST_REASON_BYTES : Z := 4096.
Definition MAX_ARGV_BYTES : Z := 16 * 1024.
Definition MAX_ARGUMENTS : Z := 256.

Record ProcessInfo := {
  pi_pid : Z;
  pi_executable : option string;
  pi_argv : list string;
  pi_cwd : option string
}.

(** ** Processes *)
Section Proc.
(** [fs::read_link] of an entry of [/proc/<pid>], already made text,
    [fs::read] of its [cmdline] and [String::from_utf8_lossy]. *)
Context (read_link : Z → string → option string) (read_cmdline : Z → option (list Z)).
Context (lossy : list Z → string).

(** [bytes.split(|byte| *byte == 0)]: never empty. *)
Fixpoint split_nul (l : list Z) : list (list Z) :=
  match l with
  | [] => [[]]
  | b :: l =>
      if b =? 0 then [] :: split_nul l
      else match split_nul l with
           | w :: ws => (b :: w) :: ws
           | [] => [[b]]
           end
  end.

(** The ellipsis character of an argument list that was cut. *)
Definition ELLIPSIS : string := of_chars [0x2026].

(** The loop over the arguments: [argv] and [total] so far. *)
Fixpoint collect (arguments : list (list Z)) (argv : list string) (total : Z) : list string :=
  match arguments with
  | [] => argv
  | argument :: arguments =>
      let total := total + zlen argument + 1 in
      if (zlen argv =? MAX_ARGUMENTS) || (MAX_ARGV_BYTES <? total) then argv ++ [ELLIPSIS]
      else collect arguments (argv ++ [lossy argument]) total
  end.

(** [ProcessInfo::read]. *)
Definition process_read (pid : Z) : ProcessInfo :=
  let argv :=
    match read_cmdline pid with
    | None => []
    | Some cmdline =>
        let cmdline := if bool_decide (last cmdline = Some 0)
                       then removelast cmdline else cmdline in
        if bool_decide (cmdline = []) then [] else collect (split_nul cmdline) [] 0
    end in
  {| pi_pid := pid; pi_executable := read_link pid "exe"; pi_argv := argv;
     pi_cwd := read_link pid "cwd" |}.
End Proc.

(** ** Requests and answers *)
Record SecretRequest := {
  rq_id : string;
  rq_identifiers : list string;
  rq_reason : option string;
  rq_ssh_signature : option SignatureRequest;
  rq_artifact_signature : option Artifacts.SigningRequest;
  rq_closure_signature : option Closures.SigningRequest;
  rq_ssh_login : option LoginGrantRequest;
  rq_ssh_grant : option string;
  rq_requester : ProcessInfo;
  rq_parent : option ProcessInfo;
  rq_procedure : option ProcedureStep;
  rq_confirmation : option Confirmation
}.

(** [SecretRequest::countdown]. *)
Definition request_countdown (r : SecretRequest) : bool :=
  bool_decide (rq_ssh_grant r = None) && negb (is_some (rq_confirmation r))
  && is_none_or step_countdown (rq_procedure r).

Record SecretValue := { sx_identifier : string; sx_value_base64 : string }.

Inductive SecretAnswer :=
| Approved (values : list SecretValue)
| Signed (reply : list Z)
| LoginGranted (expires_in_seconds signatures : Z)
| ArtifactsSigned (signatures : list Artifacts.DetachedSignature)
| ClosureSigned (signatures : Closures.Signatures)
| Confirmed
| Denied (reason : string).

(** ** Sessions *)
Inductive SessionRequest := SessionGet (identifier : string).
Inductive SessionResponse := SessionValue (value_base64 : string) | SessionError (message : string).

(** [SecretSession] without its socket. *)
Record SecretSession := { se_values : list (string * list Z); se_owner : Z }.

Section Session.
Context (proc_stat : Z → option string) (encode : list Z → string).

(** [SecretSession::answer]: [peer] is what [SO_PEERCRED] gave, [read] what
    [read_json] gave; the result is the response it tries to write. *)
Definition session_answer (s : SecretSession) (peer : option Z)
  (read : result IoError (option SessionRequest)) : option SessionResponse :=
  let permitted := is_some_and (λ pid, is_same_or_descendant proc_stat pid (se_owner s)) peer in
  match read with
  | Ok (Some (SessionGet identifier)) =>
      if negb permitted
      then Some (SessionError "this process was not started by the secret session's command")
      else Some match bt_get identifier (se_values s) with
                | Some value => SessionValue (encode value)
                | None => SessionError (identifier +:+ " was not part of the approved request; list it in `with-secrets` to ask for it")
                end
  | _ => None
  end.

(** [SecretSession::serve_until]: what each turn of the loop meets. *)
Inductive SessionTurn :=
| SessionFinished
| SessionAcceptFailed (error : IoError)
| SessionIdle
| SessionConnection (peer : option Z) (read : result IoError (option SessionRequest)).

Fixpoint session_serve (s : SecretSession) (turns : list SessionTurn)
  : option (result IoError unit) * list SessionResponse :=
  match turns with
  | [] => (None, [])
  | SessionFinished :: _ => (Some (Ok tt), [])
  | SessionAcceptFailed error :: _ => (Some (Err error), [])
  | SessionIdle :: turns => session_serve s turns
  | SessionConnection peer read :: turns =>
      let '(result, sent) := session_serve s turns in
      (result, option_list (session_answer s peer read) ++ sent)
  end.
End Session.

(** ** Theorems *)
Section ProcFacts.
Context (read_link : Z → string → option string) (read_cmdline : Z → option (list Z)).
Context (lossy : list Z → string).

Lemma collect_length arguments argv total :
  zlen argv ≤ MAX_ARGUMENTS →
  zlen argv ≤ zlen (collect lossy arguments argv total) ≤ MAX_ARGUMENTS + 1.
Proof.
  revert argv total. induction arguments as [|argument arguments IH]; intros argv total H; cbn [collect].
  { lia. }
  assert (∀ s : string, zlen (argv ++ [s]) = zlen argv + 1) as Hs by (intros; by rewrite zlen_app).
  destruct (_ || _) eqn:E; [rewrite Hs; lia|]. bool_prop. destruct E as [E _].
  pose proof (IH (argv ++ [lossy argument]) (total + zlen argument + 1)) as H'.
  rewrite Hs in H'. lia.
Qed.
End ProcFacts.

(** A secret session only ever hands out values the operator approved, and
    only to the process it was opened for or one of that process's
    descendants; every other reader of the socket gets a refusal that does not
    depend on the values. *)
Theorem session_serves_approved proc_stat encode s turns value :
  SessionValue value ∈ snd (session_serve proc_stat encode s turns) →
  ∃ peer identifier plaintext k,
    SessionConnection (Some peer) (Ok (Some (SessionGet identifier))) ∈ turns
    ∧ bt_get identifier (se_values s) = Some plaintext ∧ value = encode plaintext
    ∧ nsteps (parent_of proc_stat) k peer (se_owner s).
Proof.
  induction turns as [|turn turns IH]; [by intros ?%elem_of_nil|].
  destruct turn as [|error| |peer read]; cbn [session_serve snd]; try by intros ?%elem_of_nil.
  { intros H. destruct (IH H) as (p & i & x & k & Hin & H'). exists p, i, x, k.
    split; [by right|done]. }
  destruct (session_serve proc_stat encode s turns) as [result sent]. cbn [snd] in *.
  rewrite elem_of_app. intros [H|H].
  2:{ destruct (IH H) as (p & i & x & k & Hin & H'). exists p, i, x, k. split; [by right|done]. }
  unfold session_answer in H.
  destruct read as [[[identifier]|]|error]; [|by apply elem_of_nil in H..].
  destruct peer as [pid|]; cbn [is_some_and] in H; [|by apply list_elem_of_singleton in H].
  destruct (is_same_or_descendant proc_stat pid (se_owner s)) eqn:Ed; cbn [negb] in H;
    [|by apply list_elem_of_singleton in H].
  apply list_elem_of_singleton in H.
  destruct (bt_get identifier (se_values s)) as [plaintext|] eqn:Eg; [|done].
  injection H as ->. apply climbs_spec in Ed as (k & _ & Hk).
  exists pid, identifier, plaintext, k. split; [by left|done].
Qed.

Lemma session_serves_approved_witness :
  ∃ peer identifier plaintext k,
    SessionConnection (Some peer) (Ok (Some (SessionGet identifier)))
      ∈ [SessionConnection (Some 7) (Ok (Some (SessionGet "web.services.a.key")))]
    ∧ bt_get identifier [("web.services.a.key", [1; 2])] = Some plaintext
    ∧ "AQI=" = (λ _, "AQI=") plaintext
    ∧ nsteps (parent_of (λ _, None)) k peer 7.
Proof.
  apply (session_serves_approved (λ _, None) (λ _, "AQI=")
    {| se_values := [("web.services.a.key", [1; 2])]; se_owner := 7 |}
    [SessionConnection (Some 7) (Ok (Some (SessionGet "web.services.a.key")))]).
  vm_compute. left.
Defined.
