(* ===== verification/Operators.v ===== *)
(** * Operator sessions and waiting requests

    The concurrent part of [crates/core/src/backend/secrets.rs]: attached TUIs
    ([attach]), the requests that wait for their answer
    ([request_operator_with_id], [wait_for_operator], [wait_for_answer]) and
    the registries they share ([Operators]).  Every thread is a record in the
    state, and every event is what one thread does between two points where
    the others can run: taking a message from a channel, a critical section, a
    poll.  The clock, a peer that hung up, a write that fails and the kernel's
    random bytes are parts of the event; [/proc] and the files of the Nix store
    are arguments. *)
From stdpp Require Import gmap.
From S2P Require Import Prelude BTree Text Framing Procedure Procedures SshAuth Signing.
From S2P Require Import Requests.
#[local] Open Scope Z_scope.

(** Times are in milliseconds. *)
Definition ANSWER_TIMEOUT : Z := 600 * 1000.
Definition ANSWER_GRACE : Z := 10 * 1000.
Definition HEARTBEAT : Z := 30 * 1000.
Definition MAX_PENDING : Z := 16.
Definition NO_OPERATOR : string :=
  "no nix-secrets TUI is attached to this backend; open the nix-secrets TUI and retry".

(** ** Messages *)
Inductive Outcome :=
| OAnswer (answer : result string SecretAnswer)
| OCountdownCancelled.

(** [Inbox]; a [Sender<Outcome>] is the number of the waiting call. *)
Inductive Inbox :=
| IJob (request : SecretRequest) (reply : nat)
| IWithdraw (id : string)
| IStep (step : ProcedureStep)
| IEnded (id : string) (exit_code : option Z)
| IGrantEnded (grant : string)
| IAnswer (request_id : string) (answer : SecretAnswer)
| ICancelCountdown (request_id : string)
| IClosed.

(** What the reader thread of [attach] reads from the TUI. *)
Inductive FromTui :=
| TuiAnswers (request_id : string) (answer : SecretAnswer)
| TuiCancels (request_id : string)
| TuiOther.

(** The responses written to a TUI, and those to a waiting requester. *)
Inductive TuiFrame :=
| FOperatorAttached
| FProcedureUpdate (procedure : ProcedureStep)
| FProceduresListed (ids : list string)
| FSecretRequested (request : SecretRequest)
| FSecretRequestWithdrawn (request_id : string)
| FProcedureEnded (id : string) (exit_code : option Z)
| FSshLoginGrantEnded (grant : string)
| FHeartbeat.
Inductive RequesterFrame := RWaitingForOperator | RHeartbeat | RCountdownCancelled.

(** ** State *)
(** Where the thread of a TUI is: in its loop, past it, removed from
    [attached], and returned (its channel and its waiting map are dropped). *)
Inductive TuiPhase := Serving | Left | Detached | Closed.

Record Tui := {
  tu_phase : TuiPhase;
  tu_reading : bool;
  tu_inbox : list Inbox;
  tu_waiting : list (string * nat);
  tu_frames : list TuiFrame;
  tu_last_heartbeat : Z
}.

(** [Ssh]: what a request asks of the client's SSH agent. *)
Record Ssh := {
  sh_signature : option SignatureRequest;
  sh_login : option LoginGrantRequest;
  sh_grant : option string
}.
Definition ssh_default : Ssh := {| sh_signature := None; sh_login := None; sh_grant := None |}.

(** The arguments of [request_operator_with_id]; [Requester] is
    [ak_stream] (whether there is one), [ak_procedure] and [ak_progress]. *)
Record Ask := {
  ak_peer : Z;
  ak_identifiers : list string;
  ak_reason : option string;
  ak_ssh : Ssh;
  ak_artifact_signature : option Artifacts.SigningRequest;
  ak_closure_signature : option Closures.SigningRequest;
  ak_stream : bool;
  ak_procedure : option string;
  ak_progress : bool;
  ak_confirmation : option Confirmation
}.

(** Where a waiting call is: in [wait_for_operator], holding an operator
    before and after the request is built, in [wait_for_answer] before or after
    [recv_timeout] ran out, and returned. *)
Inductive Phase :=
| Searching (announce : bool) (last_heartbeat : Z)
| Found (session : Z)
| Sending (session : Z)
| Awaiting (session : Z) (deadline : option Z) (last_heartbeat : Z) (timed_out : bool)
| Done (answer : result string SecretAnswer).

(** [ca_request] is set once the request is built and registered. *)
Record Call := {
  ca_ask : Ask;
  ca_phase : Phase;
  ca_request : option SecretRequest;
  ca_replies : list Outcome;
  ca_frames : list RequesterFrame
}.

(** A pinned artifact is its bytes. *)
Record Sys := {
  sy_now : Z;
  sy_attached : list Z;
  sy_tuis : gmap Z Tui;
  sy_operator_peers : gmap Z Z;
  sy_closure_requests : gmap string (nat * Z);
  sy_artifacts : gmap string (list (string * list Z));
  sy_pending : Z;
  sy_next_request : Z;
  sy_procedures : Procedures;
  sy_calls : list Call
}.

Definition operators_default : Sys :=
  {| sy_now := 0; sy_attached := []; sy_tuis := ∅; sy_operator_peers := ∅;
     sy_closure_requests := ∅; sy_artifacts := ∅; sy_pending := 0; sy_next_request := 0;
     sy_procedures := procedures_default; sy_calls := [] |}.

(** ** Updates *)
Definition set_tuis (tuis : gmap Z Tui) (s : Sys) : Sys :=
  {| sy_now := sy_now s; sy_attached := sy_attached s; sy_tuis := tuis;
     sy_operator_peers := sy_operator_peers s; sy_closure_requests := sy_closure_requests s;
     sy_artifacts := sy_artifacts s; sy_pending := sy_pending s;
     sy_next_request := sy_next_request s; sy_procedures := sy_procedures s;
     sy_calls := sy_calls s |}.
Definition set_attached (attached : list Z) (s : Sys) : Sys :=
  {| sy_now := sy_now s; sy_attached := attached; sy_tuis := sy_tuis s;
     sy_operator_peers := sy_operator_peers s; sy_closure_requests := sy_closure_requests s;
     sy_artifacts := sy_artifacts s; sy_pending := sy_pending s;
     sy_next_request := sy_next_request s; sy_procedures := sy_procedures s;
     sy_calls := sy_calls s |}.
Definition set_calls (calls : list Call) (s : Sys) : Sys :=
  {| sy_now := sy_now s; sy_attached := sy_attached s; sy_tuis := sy_tuis s;
     sy_operator_peers := sy_operator_peers s; sy_closure_requests := sy_closure_requests s;
     sy_artifacts := sy_artifacts s; sy_pending := sy_pending s;
     sy_next_request := sy_next_request s; sy_procedures := sy_procedures s;
     sy_calls := calls |}.
Definition set_pending (pending : Z) (s : Sys) : Sys :=
  {| sy_now := sy_now s; sy_attached := sy_attached s; sy_tuis := sy_tuis s;
     sy_operator_peers := sy_operator_peers s; sy_closure_requests := sy_closure_requests s;
     sy_artifacts := sy_artifacts s; sy_pending := pending;
     sy_next_request := sy_next_request s; sy_procedures := sy_procedures s;
     sy_calls := sy_calls s |}.
Definition set_registries (peers : gmap Z Z) (closures : gmap string (nat * Z))
  (artifacts : gmap string (list (string * list Z))) (s : Sys) : Sys :=
  {| sy_now := sy_now s; sy_attached := sy_attached s; sy_tuis := sy_tuis s;
     sy_operator_peers := peers; sy_closure_requests := closures;
     sy_artifacts := artifacts; sy_pending := sy_pending s;
     sy_next_request := sy_next_request s; sy_procedures := sy_procedures s;
     sy_calls := sy_calls s |}.
Definition set_counters (now next : Z) (procedures : Procedures) (s : Sys) : Sys :=
  {| sy_now := now; sy_attached := sy_attached s; sy_tuis := sy_tuis s;
     sy_operator_peers := sy_operator_peers s; sy_closure_requests := sy_closure_requests s;
     sy_artifacts := sy_artifacts s; sy_pending := sy_pending s;
     sy_next_request := next; sy_procedures := procedures;
     sy_calls := sy_calls s |}.

Definition set_inbox (inbox : list Inbox) (t : Tui) : Tui :=
  {| tu_phase := tu_phase t; tu_reading := tu_reading t; tu_inbox := inbox;
     tu_waiting := tu_waiting t; tu_frames := tu_frames t;
     tu_last_heartbeat := tu_last_heartbeat t |}.
Definition set_tui_phase (phase : TuiPhase) (t : Tui) : Tui :=
  {| tu_phase := phase; tu_reading := tu_reading t; tu_inbox := tu_inbox t;
     tu_waiting := tu_waiting t; tu_frames := tu_frames t;
     tu_last_heartbeat := tu_last_heartbeat t |}.
Definition set_waiting (waiting : list (string * nat)) (t : Tui) : Tui :=
  {| tu_phase := tu_phase t; tu_reading := tu_reading t; tu_inbox := tu_inbox t;
     tu_waiting := waiting; tu_frames := tu_frames t;
     tu_last_heartbeat := tu_last_heartbeat t |}.

Definition set_phase (phase : Phase) (c : Call) : Call :=
  {| ca_ask := ca_ask c; ca_phase := phase; ca_request := ca_request c;
     ca_replies := ca_replies c; ca_frames := ca_frames c |}.
Definition set_replies (replies : list Outcome) (c : Call) : Call :=
  {| ca_ask := ca_ask c; ca_phase := ca_phase c; ca_request := ca_request c;
     ca_replies := replies; ca_frames := ca_frames c |}.
Definition add_frame (frame : RequesterFrame) (c : Call) : Call :=
  {| ca_ask := ca_ask c; ca_phase := ca_phase c; ca_request := ca_request c;
     ca_replies := ca_replies c; ca_frames := ca_frames c ++ [frame] |}.
Definition set_request (request : SecretRequest) (c : Call) : Call :=
  {| ca_ask := ca_ask c; ca_phase := ca_phase c; ca_request := Some request;
     ca_replies := ca_replies c; ca_frames := ca_frames c |}.

Definition on_call (c : nat) (f : Call → Call) (s : Sys) : Sys :=
  set_calls (alter f c (sy_calls s)) s.
Definition on_tui (session : Z) (f : Tui → Tui) (s : Sys) : Sys :=
  set_tuis (alter f session (sy_tuis s)) s.
Definition on_procedures (p : Procedures) (s : Sys) : Sys :=
  set_counters (sy_now s) (sy_next_request s) p s.

(** ** Channels and registries *)
(** [Sender<Inbox>::send] reaches a thread that has not returned. *)
Definition accepts (session : Z) (s : Sys) : bool :=
  match sy_tuis s !! session with
  | Some t => match tu_phase t with Closed => false | _ => true end
  | None => false
  end.
Definition push (session : Z) (m : Inbox) (s : Sys) : Sys :=
  on_tui session (λ t, match tu_phase t with
                       | Closed => t
                       | _ => set_inbox (tu_inbox t ++ [m]) t
                       end) s.

(** [Sender<Outcome>::send]: dropped when the call returned. *)
Definition send_reply (c : nat) (o : Outcome) (s : Sys) : Sys :=
  on_call c (λ call, match ca_phase call with
                     | Done _ => call
                     | _ => set_replies (ca_replies call ++ [o]) call
                     end) s.

Definition pending_count (s : Sys) : Z := sy_pending s.
Definition is_attached (session : Z) (s : Sys) : bool := bool_decide (session ∈ sy_attached s).
Definition detach (session : Z) (s : Sys) : Sys :=
  set_attached (filter (λ id, id ≠ session) (sy_attached s)) s.
Definition latest (s : Sys) : option Z := last (sy_attached s).
Definition broadcast (m : Inbox) (s : Sys) : Sys :=
  foldl (λ s session, push session m s) s (sy_attached s).
Definition broadcast_step (step : ProcedureStep) : Sys → Sys := broadcast (IStep step).
Definition broadcast_end (id : string) (exit_code : option Z) : Sys → Sys :=
  broadcast (IEnded id exit_code).
(** [grants] in the order of the [BTreeSet]. *)
Definition end_grants (grants : list string) (s : Sys) : Sys :=
  foldl (λ s grant, broadcast (IGrantEnded grant) s) s grants.

(** [Operators::claim]. *)
Definition claim (s : Sys) : result string Sys :=
  if sy_pending s <? MAX_PENDING then Ok (set_pending (sy_pending s + 1) s)
  else Err (dec MAX_PENDING +:+ " requests are already waiting for the operator; retry when one is answered").

(** What a request asks for, as a procedure step label. *)
Definition step_label (identifiers : list string) (ssh_destination : option string)
  (artifact_signature : option Artifacts.SigningRequest)
  (closure_signature : option Closures.SigningRequest) : string :=
  match closure_signature, artifact_signature, ssh_destination with
  | Some signing, _, _ => "sign closure for " +:+ Closures.sq_host signing
  | None, Some signing, _ => "sign artifacts for " +:+ Artifacts.sq_host signing
  | None, None, Some destination => "SSH authentication to " +:+ destination
  | None, None, None =>
      "release " +:+ dec (zlen identifiers) +:+ " secret value"
        +:+ (if zlen identifiers =? 1 then "" else "s")
  end.

(** [_pending] and [_registered] are dropped and the call returns. *)
Definition finish (c : nat) (answer : result string SecretAnswer) (s : Sys) : Sys :=
  let id := rq_id <$> (sy_calls s !! c ≫= ca_request) in
  let s := match id with
           | Some id => set_registries (sy_operator_peers s) (delete id (sy_closure_requests s))
                          (delete id (sy_artifacts s)) s
           | None => s
           end in
  on_call c (set_phase (Done answer)) (set_pending (sy_pending s - 1) s).

(** The closure [withdraw] of [wait_for_answer]. *)
Definition withdraw (c : nat) (session : Z) (reason : string) (s : Sys) : Sys :=
  let id := default "" (rq_id <$> (sy_calls s !! c ≫= ca_request)) in
  finish c (Err reason) (push session (IWithdraw id) s).

Definition ssh_destination (ssh : Ssh) : option string :=
  match sh_login ssh with
  | Some login => Some (lg_destination login)
  | None => sr_destination <$> sh_signature ssh
  end.

Section System.
Context (proc_stat : Z → option string) (process_info : Z → ProcessInfo).
Context (open_artifacts : Artifacts.SigningRequest → result string (list (string * list Z))).
(** [Operators::deadline] and [Operators::heartbeat]. *)
Context (deadline heartbeat : Z).

(** [Operators::advance], [fail_step], [warn_step] and [progress_step]: the
    registry's method, then the news for the TUIs. *)
Definition announced (o : op ProcedureStep) (s : Sys) : result string ProcedureStep * Sys :=
  match o (sy_procedures s) with
  | (Ok step, p) => (Ok step, broadcast_step step (on_procedures p s))
  | (Err e, p) => (Err e, on_procedures p s)
  end.
Definition advance token peer label deployment repeatable :=
  announced (next_step proc_stat token peer label deployment repeatable).
Definition operators_fail_step token peer label reason :=
  announced (fail_step proc_stat token peer label reason).
Definition operators_warn_step token peer label reason :=
  announced (warn_step proc_stat token peer label reason).
Definition operators_progress_step token peer text percent :=
  announced (progress_step proc_stat token peer text percent).

(** ** A waiting call *)
(** [request_operator_with_id] up to and including [claim]. *)
Definition start (ask : Ask) (s : Sys) : Sys :=
  let call phase := {| ca_ask := ask; ca_phase := phase; ca_request := None;
                       ca_replies := []; ca_frames := [] |} in
  let refuse e := set_calls (sy_calls s ++ [call (Done (Err e))]) s in
  if is_some_and (λ r, MAX_REQUEST_REASON_BYTES <? slen r) (ak_reason ask)
  then refuse "request reason exceeds 4096 bytes"
  else if is_some (ak_confirmation ask) && negb (is_some (ak_procedure ask))
  then refuse "a confirmation must come from inside a procedure"
  else if is_some (ak_confirmation ask) && negb (is_some (latest s))
  then refuse NO_OPERATOR
  else match claim s with
       | Err e => refuse e
       | Ok s => set_calls (sy_calls s ++ [call (Searching true (sy_now s))]) s
       end.

(** One turn of [wait_for_operator]. *)
Definition search (c : nat) (gone ok : bool) (s : Sys) : option Sys :=
  call ← sy_calls s !! c;
  match ca_phase call with
  | Searching announce last_heartbeat =>
      match latest s with
      | Some session =>
          Some (on_call c (set_phase (if is_some (ca_request call) then Sending session
                                      else Found session)) s)
      | None =>
          if ak_stream (ca_ask call) && gone
          then Some (finish c (Err "the requester disconnected") s)
          else if ak_stream (ca_ask call) && ak_progress (ca_ask call) then
            let frame := if announce then Some RWaitingForOperator
                         else if heartbeat <=? sy_now s - last_heartbeat then Some RHeartbeat
                         else None in
            match frame with
            | Some frame =>
                if ok : bool
                then Some (on_call c (λ call, set_phase (Searching false (sy_now s))
                                                (add_frame frame call)) s)
                else Some (finish c (Err "the requester disconnected") s)
            | None => Some s
            end
          else Some s
      end
  | _ => None
  end.

(** The step a request is checked and numbered as: none for a login an
    approval covers, an annotation for a confirmation. *)
Definition number_request (ask : Ask) (s : Sys) : result string (option ProcedureStep) * Sys :=
  match (if is_some (sh_grant (ak_ssh ask)) then None else ak_procedure ask) with
  | None => (Ok None, s)
  | Some token =>
      let '(step, s) :=
        match ak_confirmation ask with
        | Some confirmation =>
            let '(step, p) := annotate proc_stat token (ak_peer ask) (cf_label confirmation)
                                (sy_procedures s) in
            (step, on_procedures p s)
        | None =>
            let destination := ssh_destination (ak_ssh ask) in
            advance token (ak_peer ask)
              (step_label (ak_identifiers ask) destination (ak_artifact_signature ask)
                 (ak_closure_signature ask)) false (is_some destination) s
        end in
      (match step with Ok step => Ok (Some step) | Err e => Err e end, s)
  end.

Definition new_request (ask : Ask) (procedure : option ProcedureStep) (n : Z) (random : list Z)
  : SecretRequest :=
  {| rq_id := "secret-" +:+ dec n +:+ "-" +:+ hex_of random;
     rq_identifiers := ak_identifiers ask; rq_reason := ak_reason ask;
     rq_ssh_signature := sh_signature (ak_ssh ask);
     rq_artifact_signature := ak_artifact_signature ask;
     rq_closure_signature := ak_closure_signature ask;
     rq_ssh_login := sh_login (ak_ssh ask); rq_ssh_grant := sh_grant (ak_ssh ask);
     rq_requester := process_info (ak_peer ask);
     rq_parent := process_info <$> parent_pid proc_stat (ak_peer ask);
     rq_procedure := procedure; rq_confirmation := ak_confirmation ask |}.

(** From a found operator to the registered request; [random] is what
    [getrandom::fill] gave for eight bytes. *)
Definition build (c : nat) (random : result string (list Z)) (s : Sys) : option Sys :=
  call ← sy_calls s !! c;
  match ca_phase call with
  | Found session =>
      let '(procedure, s) := number_request (ca_ask call) s in
      match procedure, random with
      | Err e, _ => Some (finish c (Err e) s)
      | Ok _, Err e => Some (finish c (Err e) s)
      | Ok procedure, Ok random =>
          let n := sy_next_request s in
          let request := new_request (ca_ask call) procedure n random in
          let s := set_counters (sy_now s) (wrap64 (n + 1)) (sy_procedures s) s in
          let register files s :=
            Some (on_call c (λ call, set_phase (Sending session) (set_request request call))
                    (set_registries (sy_operator_peers s) (sy_closure_requests s) files s)) in
          match rq_artifact_signature request with
          | None => register (sy_artifacts s) s
          | Some signing =>
              match open_artifacts signing with
              | Err e => Some (finish c (Err e) s)
              | Ok files => register (<[rq_id request := files]> (sy_artifacts s)) s
              end
          end
      end
  | _ => None
  end.

(** The TUI went away before answering. *)
Definition went_away (c : nat) (request : SecretRequest) (s : Sys) : Sys :=
  if is_some (rq_confirmation request)
  then finish c (Err "the nix-secrets TUI went away before the operator answered") s
  else on_call c (set_phase (Searching true (sy_now s))) s.

(** The loop of [request_operator_with_id] up to [wait_for_answer]. *)
Definition send (c : nat) (s : Sys) : option Sys :=
  call ← sy_calls s !! c;
  request ← ca_request call;
  match ca_phase call with
  | Sending session =>
      let registered :=
        match rq_closure_signature request with
        | None => Ok s
        | Some _ =>
            match sy_operator_peers s !! session with
            | None => Err NO_OPERATOR
            | Some owner =>
                if ak_stream (ca_ask call)
                then Ok (set_registries (sy_operator_peers s)
                           (<[rq_id request := (c, owner)]> (sy_closure_requests s))
                           (sy_artifacts s) s)
                else Err "missing closure requester"
            end
        end in
      match registered with
      | Err e => Some (finish c (Err e) s)
      | Ok s =>
          let limit := if request_countdown request then Some (sy_now s + deadline) else None in
          if accepts session s
          then Some (on_call c (set_phase (Awaiting session limit (sy_now s) false))
                       (push session (IJob request c) s))
          else Some (went_away c request (detach session s))
      end
  | _ => None
  end.

(** [wait_for_answer]: a message arrives before [recv_timeout] runs out. *)
Definition receive (c : nat) (ok : bool) (s : Sys) : option Sys :=
  call ← sy_calls s !! c;
  match ca_phase call, ca_replies call with
  | Awaiting session limit last_heartbeat false, outcome :: replies =>
      let s := on_call c (set_replies replies) s in
      match outcome with
      | OAnswer answer => Some (finish c answer s)
      | OCountdownCancelled =>
          let s := on_call c (set_phase (Awaiting session None last_heartbeat false)) s in
          if ak_stream (ca_ask call) && ak_progress (ca_ask call) then
            if ok then Some (on_call c (add_frame RCountdownCancelled) s)
            else Some (withdraw c session "the requester disconnected" s)
          else Some s
      end
  | _, _ => None
  end.

(** [recv_timeout] runs out. *)
Definition time_out (c : nat) (s : Sys) : option Sys :=
  call ← sy_calls s !! c;
  match ca_phase call, ca_replies call with
  | Awaiting session limit last_heartbeat false, [] =>
      Some (on_call c (set_phase (Awaiting session limit last_heartbeat true)) s)
  | _, _ => None
  end.

(** The branch for a timeout. *)
Definition poll (c : nat) (gone ok : bool) (s : Sys) : option Sys :=
  call ← sy_calls s !! c;
  request ← ca_request call;
  match ca_phase call with
  | Awaiting session limit last_heartbeat true =>
      if negb (is_attached session s) then Some (went_away c request s)
      else if ak_stream (ca_ask call) && gone
      then Some (withdraw c session "the requester disconnected" s)
      else if is_some_and (λ limit, limit <=? sy_now s) limit
      then Some (withdraw c session "the nix-secrets TUI did not answer in time" s)
      else if ak_stream (ca_ask call) && ak_progress (ca_ask call)
              && (heartbeat <=? sy_now s - last_heartbeat)
      then
        if ok then Some (on_call c (λ call, set_phase (Awaiting session limit (sy_now s) false)
                                              (add_frame RHeartbeat call)) s)
        else Some (withdraw c session "the requester disconnected" s)
      else Some (on_call c (set_phase (Awaiting session limit last_heartbeat false)) s)
  | _ => None
  end.

(** ** A TUI *)
Definition fresh_tui (frames : list TuiFrame) (phase : TuiPhase) (now : Z) : Tui :=
  {| tu_phase := phase; tu_reading := true; tu_inbox := []; tu_waiting := [];
     tu_frames := frames; tu_last_heartbeat := now |}.

(** [attach] up to its loop; session numbers are never used twice. *)
Definition attach (session peer : Z) (ok : bool) (s : Sys) : option Sys :=
  match sy_tuis s !! session with
  | Some _ => None
  | None =>
      let live := snapshot (sy_procedures s) in
      let frames := [FOperatorAttached] ++ (FProcedureUpdate <$> live)
                      ++ [FProceduresListed (ps_id <$> live)] in
      let t := if ok then fresh_tui frames Serving (sy_now s) else fresh_tui [] Left (sy_now s) in
      let s := set_registries (<[session := peer]> (sy_operator_peers s))
                 (sy_closure_requests s) (sy_artifacts s) s in
      Some (set_tuis (<[session := t]> (sy_tuis s))
              (set_attached (sy_attached s ++ [session]) s))
  end.

(** The reader thread. *)
Definition reads (session : Z) (m : FromTui) (s : Sys) : option Sys :=
  t ← sy_tuis s !! session;
  if tu_reading t then
    let message := match m with
                   | TuiAnswers id answer => IAnswer id answer
                   | TuiCancels id => ICancelCountdown id
                   | TuiOther => IClosed
                   end in
    let stop (t : Tui) :=
      {| tu_phase := tu_phase t;
         tu_reading := match m with TuiOther => false | _ => tu_reading t end;
         tu_inbox := tu_inbox t; tu_waiting := tu_waiting t; tu_frames := tu_frames t;
         tu_last_heartbeat := tu_last_heartbeat t |} in
    Some (on_tui session stop (push session message s))
  else None.

(** [write_json(stream, ..)?] in the loop. *)
Definition write (frame : TuiFrame) (ok : bool) (t : Tui) : Tui :=
  if ok then {| tu_phase := tu_phase t; tu_reading := tu_reading t; tu_inbox := tu_inbox t;
                tu_waiting := tu_waiting t; tu_frames := tu_frames t ++ [frame];
                tu_last_heartbeat := tu_last_heartbeat t |}
  else set_tui_phase Left t.

(** What the loop does with a message: to its own state, and to the others'. *)
Definition handle_own (m : Inbox) (ok : bool) (t : Tui) : Tui :=
  match m with
  | IJob request reply =>
      let t := write (FSecretRequested request) ok t in
      if ok then set_waiting (bt_insert (rq_id request) reply (tu_waiting t)) t else t
  | IWithdraw id =>
      if bt_contains id (tu_waiting t)
      then write (FSecretRequestWithdrawn id) ok (set_waiting (bt_remove id (tu_waiting t)) t)
      else t
  | IStep procedure => write (FProcedureUpdate procedure) ok t
  | IEnded id exit_code => write (FProcedureEnded id exit_code) ok t
  | IGrantEnded grant => write (FSshLoginGrantEnded grant) ok t
  | IAnswer id _ => set_waiting (bt_remove id (tu_waiting t)) t
  | ICancelCountdown _ => t
  | IClosed => set_tui_phase Left t
  end.
Definition handle_others (m : Inbox) (waiting : list (string * nat)) (s : Sys) : Sys :=
  match m with
  | IAnswer id answer =>
      match bt_get id waiting with
      | Some c =>
          send_reply c (OAnswer (Ok answer))
            (set_registries (sy_operator_peers s) (delete id (sy_closure_requests s))
               (sy_artifacts s) s)
      | None => s
      end
  | ICancelCountdown id =>
      match bt_get id waiting with
      | Some c => send_reply c OCountdownCancelled s
      | None => s
      end
  | _ => s
  end.

(** One turn of the loop of [attach] that takes a message. *)
Definition serve_tui (session : Z) (ok : bool) (s : Sys) : option Sys :=
  t ← sy_tuis s !! session;
  match tu_phase t, tu_inbox t with
  | Serving, m :: inbox =>
      Some (handle_others m (tu_waiting t)
              (on_tui session (λ t, handle_own m ok (set_inbox inbox t)) s))
  | _, _ => None
  end.

(** One turn of the loop that runs out of [wait]. *)
Definition beat_tui (session : Z) (ok : bool) (s : Sys) : option Sys :=
  t ← sy_tuis s !! session;
  match tu_phase t, tu_inbox t with
  | Serving, [] =>
      if heartbeat <=? sy_now s - tu_last_heartbeat t then
        Some (on_tui session
                (λ t, let t := write FHeartbeat ok t in
                      if ok then {| tu_phase := tu_phase t; tu_reading := tu_reading t;
                                    tu_inbox := tu_inbox t; tu_waiting := tu_waiting t;
                                    tu_frames := tu_frames t; tu_last_heartbeat := sy_now s |}
                      else t) s)
      else None
  | _, _ => None
  end.

(** After the loop: out of [attached]; then out of [operator_peers], and the
    thread's map and channel are dropped. *)
Definition leave_tui (session : Z) (s : Sys) : option Sys :=
  t ← sy_tuis s !! session;
  match tu_phase t with
  | Left => Some (on_tui session (set_tui_phase Detached) (detach session s))
  | Detached =>
      Some (on_tui session (λ t, set_tui_phase Closed (set_waiting [] (set_inbox [] t)))
              (set_registries (delete session (sy_operator_peers s)) (sy_closure_requests s)
                 (sy_artifacts s) s))
  | _ => None
  end.

(** ** Other connections *)
(** [check_closure]; [gone] is [peer_done] of the requester's socket. *)
Definition check_closure (id : string) (peer : Z) (gone : bool) (s : Sys)
  : result string unit * Sys :=
  match sy_closure_requests s !! id with
  | None => (Err "no matching pending closure request", s)
  | Some (_, owner) =>
      if negb (owner =? peer) then (Err "closure request belongs to another operator", s)
      else if gone
      then (Err "closure signing requester disconnected",
            set_registries (sy_operator_peers s) (delete id (sy_closure_requests s))
              (sy_artifacts s) s)
      else (Ok tt, s)
  end.

(** [read_artifact]: the chunk before it is encoded. *)
Definition read_artifact (id role : string) (offset : Z) (s : Sys)
  : result string (Z * list Z) :=
  file ← ok_or "no matching pending signing artifact"
           (files ← sy_artifacts s !! id; bt_get role files);
  let size := zlen file in
  if size <=? offset then Err "artifact offset outside file"
  else Ok (offset, take (Z.to_nat (Z.min Artifacts.CHUNK_BYTES (size - offset)))
                     (drop (Z.to_nat offset) file)).

(** What the other connections' requests do to a procedure. *)
Inductive ProcedureRequest :=
| PBegin (getrandom : nat → result string (list Z)) (owner : Z) (title : string) (steps : option Z)
| PEnd (id : string) (exit_code : option Z)
| PAdvance (token : string) (peer : Z) (label : string)
| PFail (token : string) (peer : Z) (label reason : string)
| PWarn (token : string) (peer : Z) (label reason : string)
| PProgress (token : string) (peer : Z) (text : string) (percent : option Z).

Definition procedure_request (r : ProcedureRequest) (s : Sys) : Sys :=
  match r with
  | PBegin getrandom owner title steps =>
      match begin getrandom owner title steps (sy_procedures s) with
      | (Ok (step, _), p) => broadcast_step step (on_procedures p s)
      | (Err _, p) => on_procedures p s
      end
  | PEnd id exit_code =>
      broadcast_end id exit_code (on_procedures (end_procedure id (sy_procedures s)) s)
  | PAdvance token peer label => snd (advance token peer label true false s)
  | PFail token peer label reason => snd (operators_fail_step token peer label reason s)
  | PWarn token peer label reason => snd (operators_warn_step token peer label reason s)
  | PProgress token peer text percent => snd (operators_progress_step token peer text percent s)
  end.

(** ** Runs *)
Inductive Event :=
| EvTick (elapsed : Z)
| EvStart (ask : Ask)
| EvSearch (c : nat) (gone ok : bool)
| EvBuild (c : nat) (random : result string (list Z))
| EvSend (c : nat)
| EvReceive (c : nat) (ok : bool)
| EvTimeOut (c : nat)
| EvPoll (c : nat) (gone ok : bool)
| EvAttach (session peer : Z) (ok : bool)
| EvReads (session : Z) (m : FromTui)
| EvServe (session : Z) (ok : bool)
| EvBeat (session : Z) (ok : bool)
| EvLeave (session : Z)
| EvCheckClosure (id : string) (peer : Z) (gone : bool)
| EvProcedure (r : ProcedureRequest)
| EvEndGrants (grants : list string).

Definition step (e : Event) (s : Sys) : option Sys :=
  match e with
  | EvTick elapsed =>
      if 0 <=? elapsed
      then Some (set_counters (sy_now s + elapsed) (sy_next_request s) (sy_procedures s) s)
      else None
  | EvStart ask => Some (start ask s)
  | EvSearch c gone ok => search c gone ok s
  | EvBuild c random => build c random s
  | EvSend c => send c s
  | EvReceive c ok => receive c ok s
  | EvTimeOut c => time_out c s
  | EvPoll c gone ok => poll c gone ok s
  | EvAttach session peer ok => attach session peer ok s
  | EvReads session m => reads session m s
  | EvServe session ok => serve_tui session ok s
  | EvBeat session ok => beat_tui session ok s
  | EvLeave session => leave_tui session s
  | EvCheckClosure id peer gone => Some (snd (check_closure id peer gone s))
  | EvProcedure r => Some (procedure_request r s)
  | EvEndGrants grants => Some (end_grants grants s)
  end.

(** The events that happen, in order; every one must be enabled. *)
Fixpoint run (events : list Event) (s : Sys) : option Sys :=
  match events with
  | [] => Some s
  | e :: events => s ← step e s; run events s
  end.
End System.

(** ** Lemmas: what each update touches *)
Lemma finish_fields c answer s :
  sy_calls (finish c answer s) = alter (set_phase (Done answer)) c (sy_calls s)
  ∧ sy_tuis (finish c answer s) = sy_tuis s
  ∧ sy_attached (finish c answer s) = sy_attached s
  ∧ sy_pending (finish c answer s) = sy_pending s - 1
  ∧ sy_next_request (finish c answer s) = sy_next_request s
  ∧ sy_operator_peers (finish c answer s) = sy_operator_peers s
  ∧ sy_now (finish c answer s) = sy_now s
  ∧ sy_procedures (finish c answer s) = sy_procedures s.
Proof.
  unfold finish, on_call. cbn [set_calls set_pending sy_calls sy_tuis sy_attached sy_pending
    sy_next_request sy_operator_peers sy_now sy_procedures].
  by destruct (rq_id <$> _).
Qed.

(** The news every TUI gets. *)
Definition is_news (m : Inbox) : bool :=
  match m with IStep _ | IEnded _ _ | IGrantEnded _ => true | _ => false end.

(** [s'] is [s] after news: only inboxes and the registry of procedures differ. *)
Definition tui_news (t t' : Tui) : Prop :=
  ∃ ms, t' = set_inbox (tu_inbox t ++ ms) t ∧ Forall (λ m, is_news m = true) ms.
Record news (s s' : Sys) : Prop := {
  nw_calls : sy_calls s' = sy_calls s;
  nw_attached : sy_attached s' = sy_attached s;
  nw_pending : sy_pending s' = sy_pending s;
  nw_next : sy_next_request s' = sy_next_request s;
  nw_peers : sy_operator_peers s' = sy_operator_peers s;
  nw_closures : sy_closure_requests s' = sy_closure_requests s;
  nw_artifacts : sy_artifacts s' = sy_artifacts s;
  nw_now : sy_now s' = sy_now s;
  nw_none : ∀ n, sy_tuis s !! n = None → sy_tuis s' !! n = None;
  nw_some : ∀ n t, sy_tuis s !! n = Some t → ∃ t', sy_tuis s' !! n = Some t' ∧ tui_news t t'
}.

Lemma tui_news_refl t : tui_news t t.
Proof. exists []. rewrite app_nil_r. destruct t. split; [done|constructor]. Qed.

Lemma tui_news_trans t1 t2 t3 : tui_news t1 t2 → tui_news t2 t3 → tui_news t1 t3.
Proof.
  intros (ms & -> & H1) (ks & -> & H2). exists (ms ++ ks). cbn. rewrite (assoc app).
  split; [done|]. by apply Forall_app.
Qed.

#[export] Instance news_preorder : PreOrder news.
Proof.
  split.
  - intros s. split; try done. intros n t Ht. exists t. split; [done|]. apply tui_news_refl.
  - intros s1 s2 s3 H12 H23. destruct H12, H23. split; try congruence; [auto|].
    intros n t Ht. destruct (nw_some0 n t Ht) as (t' & Ht' & H1).
    destruct (nw_some1 n t' Ht') as (t'' & Ht'' & H2).
    exists t''. split; [done|]. by eapply tui_news_trans.
Qed.

Lemma news_push session m s : is_news m = true → news s (push session m s).
Proof.
  intros Hm. split; try done; unfold push, on_tui; cbn.
  - intros n Hn. by rewrite lookup_alter_None.
  - intros n t Ht. destruct (decide (n = session)) as [->|Hne].
    + rewrite lookup_alter_eq, Ht. eexists. split; [done|].
      destruct (tu_phase t); try (exists [m]; split; [done|by repeat constructor]).
      apply tui_news_refl.
    + rewrite lookup_alter_ne by done. exists t. split; [done|]. apply tui_news_refl.
Qed.

Lemma news_broadcast m s : is_news m = true → news s (broadcast m s).
Proof.
  intros Hm. unfold broadcast. generalize (sy_attached s). intros l.
  revert s. induction l as [|n l IH]; intros s; cbn [foldl]; [done|].
  transitivity (push n m s); [by apply news_push|apply IH].
Qed.

Lemma news_procedures p s : news s (on_procedures p s).
Proof. split; try done. intros n t Ht. exists t. split; [done|]. apply tui_news_refl. Qed.

Lemma news_announced o s : news s (snd (announced o s)).
Proof.
  unfold announced. destruct (o (sy_procedures s)) as [[step|e] p]; cbn [snd].
  - transitivity (on_procedures p s); [apply news_procedures|by apply news_broadcast].
  - apply news_procedures.
Qed.

Lemma news_end_grants grants s : news s (end_grants grants s).
Proof.
  unfold end_grants. revert s. induction grants as [|g grants IH]; intros s; cbn [foldl]; [done|].
  transitivity (broadcast (IGrantEnded g) s); [by apply news_broadcast|apply IH].
Qed.

Section Facts.
Context (proc_stat : Z → option string) (process_info : Z → ProcessInfo).
Context (open_artifacts : Artifacts.SigningRequest → result string (list (string * list Z))).
Context (deadline heartbeat : Z).
Notation step := (step proc_stat process_info open_artifacts deadline heartbeat).
Notation run := (run proc_stat process_info open_artifacts deadline heartbeat).

Lemma news_procedure_request r s : news s (procedure_request proc_stat r s).
Proof.
  destruct r; cbn [procedure_request]; try apply news_announced.
  - destruct (begin _ _ _ _ _) as [[[step token]|e] p]; [|apply news_procedures].
    transitivity (on_procedures p s); [apply news_procedures|by apply news_broadcast].
  - transitivity (on_procedures (end_procedure id (sy_procedures s)) s);
      [apply news_procedures|by apply news_broadcast].
Qed.

Lemma news_number_request ask s : news s (snd (number_request proc_stat ask s)).
Proof.
  unfold number_request.
  destruct (if is_some _ then _ else _) as [token|]; [|done].
  destruct (ak_confirmation ask) as [confirmation|].
  - destruct (annotate _ _ _ _ _) as [step p]. apply news_procedures.
  - pose proof (news_announced (next_step proc_stat token (ak_peer ask)
      (step_label (ak_identifiers ask) (ssh_destination (ak_ssh ask)) (ak_artifact_signature ask)
         (ak_closure_signature ask)) false (is_some (ssh_destination (ak_ssh ask)))) s) as H.
    unfold advance. by destruct (announced _ s).
Qed.

Lemma run_app evs evs' s : run (evs ++ evs') s = run evs s ≫= run evs'.
Proof.
  revert s. induction evs as [|e evs IH]; intros s; cbn [Operators.run app]; [done|].
  unfold mbind, option_bind. destruct (step e s) as [s1|]; [apply IH|done].
Qed.

(** Rule induction over the runs from the start. *)
Lemma run_ind (P : list Event → Sys → Prop) :
  P [] operators_default →
  (∀ evs e s s', run evs operators_default = Some s → P evs s → step e s = Some s' →
     P (evs ++ [e]) s') →
  ∀ evs s, run evs operators_default = Some s → P evs s.
Proof.
  intros H0 HS evs. induction evs as [|e evs IH] using rev_ind; intros s.
  { by intros [= <-]. }
  rewrite run_app. destruct (run evs operators_default) as [s1|] eqn:E1; [|done].
  cbn. destruct (step e s1) as [s2|] eqn:E2; [|done]. cbn. intros [= <-].
  eapply HS; [exact E1|by apply IH|done].
Qed.
End Facts.
