(* ===== verification/OperatorFacts.v ===== *)
(** * What reaches a waiting request

    Invariants of the runs of [Operators]: an answer comes from a TUI that was
    shown the request it answers, the slots bound the waiting requests, a
    prompt whose request is gone is withdrawn, and a requester that leaves is
    let go. *)
From stdpp Require Import gmap.
From S2P Require Import Prelude BTree Text Framing Procedure Procedures SshAuth Signing.
From S2P Require Import Requests Operators.
#[local] Open Scope Z_scope.

(** ** What a call can do *)
(** [s'] differs from [s] by news, registries and TUIs whose thread returned. *)
Record quiet (s s' : Sys) : Prop := {
  qt_calls : sy_calls s' = sy_calls s;
  qt_pending : sy_pending s' = sy_pending s;
  qt_peers : sy_operator_peers s' = sy_operator_peers s;
  qt_less : ∀ n, n ∈ sy_attached s' → n ∈ sy_attached s;
  qt_accepts : ∀ n, n ∈ sy_attached s → accepts n s = true → n ∈ sy_attached s';
  qt_none : ∀ n, sy_tuis s !! n = None → sy_tuis s' !! n = None;
  qt_some : ∀ n t, sy_tuis s !! n = Some t → ∃ t', sy_tuis s' !! n = Some t' ∧ tui_news t t';
  qt_closures : ∀ id x, sy_closure_requests s' !! id = Some x → sy_closure_requests s !! id = Some x;
  qt_artifacts : ∀ id x, sy_artifacts s' !! id = Some x → sy_artifacts s !! id = Some x
}.

Lemma quiet_news s s' : news s s' → quiet s s'.
Proof.
  intros []. split; try done; try (by rewrite nw_attached);
    intros id x; by rewrite ?nw_closures, ?nw_artifacts.
Qed.

(** Counters aside, [s'] is [s]. *)
Lemma quiet_same s s' :
  sy_calls s' = sy_calls s → sy_tuis s' = sy_tuis s → sy_attached s' = sy_attached s →
  sy_pending s' = sy_pending s → sy_operator_peers s' = sy_operator_peers s →
  sy_closure_requests s' = sy_closure_requests s → sy_artifacts s' = sy_artifacts s → quiet s s'.
Proof.
  intros Hc Ht Ha Hp Ho Hcl Har. split; try done; rewrite ?Ha, ?Ht, ?Hcl, ?Har; try done.
  intros n t Hn. exists t. split; [done|apply tui_news_refl].
Qed.

Lemma quiet_detach n s : accepts n s = false → quiet s (detach n s).
Proof.
  intros Hn. split; try done; cbn.
  - intros m. rewrite list_elem_of_filter. by intros [_ ?].
  - intros m Hm Ha. apply list_elem_of_filter. split; [|done]. intros ->. congruence.
  - intros m t Ht. exists t. split; [done|apply tui_news_refl].
Qed.

Definition open_call (call : Call) : bool :=
  match ca_phase call with Done _ => false | _ => true end.

(** The phases a call moves between on its own. *)
Inductive turn (s : Sys) : Phase → Phase → Prop :=
| turn_search a h a' h' : turn s (Searching a h) (Searching a' h')
| turn_found a h n : turn s (Searching a h) (Found n)
| turn_sending a h n : turn s (Searching a h) (Sending n)
| turn_await n l h b l' h' b' : turn s (Awaiting n l h b) (Awaiting n l' h' b')
| turn_gone n l h b a' h' : n ∉ sy_attached s → turn s (Awaiting n l h b) (Searching a' h')
| turn_closed n a' h' : turn s (Sending n) (Searching a' h').

(** The changes the events of call [c] are made of. *)
Inductive micro (c : nat) (s : Sys) : Sys → Prop :=
| mi_quiet s' : quiet s s' → micro c s s'
| mi_refuse call e :
    sy_calls s !! c = Some call → open_call call = true →
    (∀ n l h b, ca_phase call = Awaiting n l h b → n ∉ sy_attached s) →
    micro c s (finish c (Err e) s)
| mi_withdraw call n l h b reason :
    sy_calls s !! c = Some call → ca_phase call = Awaiting n l h b →
    micro c s (withdraw c n reason s)
| mi_answer call n l h b answer replies :
    sy_calls s !! c = Some call → ca_phase call = Awaiting n l h b →
    ca_replies call = OAnswer answer :: replies →
    micro c s (finish c answer (on_call c (set_replies replies) s))
| mi_phase f call :
    sy_calls s !! c = Some call → turn s (ca_phase call) (ca_phase (f call)) →
    ca_request (f call) = ca_request call → ca_ask (f call) = ca_ask call →
    (∀ n, ca_phase (f call) = Found n → ca_request call = None) →
    (∀ n, ca_phase (f call) = Sending n → ca_request call ≠ None) →
    (∀ o, o ∈ ca_replies (f call) → o ∈ ca_replies call) →
    micro c s (on_call c f s)
| mi_request call n request :
    sy_calls s !! c = Some call → ca_phase call = Found n →
    micro c s (on_call c (λ call, set_phase (Sending n) (set_request request call)) s)
| mi_pin call n request files :
    sy_calls s !! c = Some call → ca_phase call = Sending n → ca_request call = Some request →
    micro c s (set_registries (sy_operator_peers s) (sy_closure_requests s)
                 (<[rq_id request := files]> (sy_artifacts s)) s)
| mi_register call n request owner :
    sy_calls s !! c = Some call → ca_phase call = Sending n → ca_request call = Some request →
    rq_closure_signature request ≠ None → sy_operator_peers s !! n = Some owner →
    micro c s (set_registries (sy_operator_peers s)
                 (<[rq_id request := (c, owner)]> (sy_closure_requests s)) (sy_artifacts s) s)
| mi_job call n request l :
    sy_calls s !! c = Some call → ca_phase call = Sending n →
    ca_request call = Some request → accepts n s = true →
    (rq_closure_signature request ≠ None →
     ∃ owner, sy_operator_peers s !! n = Some owner
       ∧ sy_closure_requests s !! rq_id request = Some (c, owner)) →
    micro c s (on_call c (set_phase (Awaiting n l (sy_now s) false)) (push n (IJob request c) s)).

(** A call in a given phase that is not [Done] is open. *)
Lemma phase_open call p : ca_phase call = p → (∀ a, p ≠ Done a) → open_call call = true.
Proof. intros <- H. unfold open_call. destruct (ca_phase call); try done. by destruct (H answer). Qed.

Lemma micro_finish c call e s s1 :
  quiet s s1 → sy_calls s !! c = Some call → open_call call = true →
  (∀ n l h b, ca_phase call ≠ Awaiting n l h b) →
  rtc (micro c) s (finish c (Err e) s1).
Proof.
  intros Hq Hc Ho Hn. eapply rtc_l; [by apply mi_quiet|]. apply rtc_once.
  eapply mi_refuse; [by rewrite (qt_calls _ _ Hq)|done|]. intros n l h b Hp. by destruct (Hn n l h b).
Qed.

Lemma micro_went_away c call request s :
  sy_calls s !! c = Some call →
  (∃ n, ca_phase call = Sending n) ∨ (∃ n l h b, ca_phase call = Awaiting n l h b ∧ n ∉ sy_attached s) →
  micro c s (went_away c request s).
Proof.
  intros Hc Hp. unfold went_away. destruct (is_some _).
  - eapply mi_refuse; [done| |].
    + destruct Hp as [[n Hp]|(n & l & h & b & Hp & _)]; by apply (phase_open _ _ Hp).
    + intros n l h b Hp'. destruct Hp as [[m Hp]|(m & l' & h' & b' & Hp & Hm)]; congruence.
  - eapply mi_phase; [done|cbn|done..].
    destruct Hp as [[n ->]|(n & l & h & b & -> & Hn)]; by constructor.
Qed.

Section Runs.
Context (proc_stat : Z → option string) (process_info : Z → ProcessInfo).
Context (open_artifacts : Artifacts.SigningRequest → result string (list (string * list Z))).
Context (deadline heartbeat : Z).
Notation step := (step proc_stat process_info open_artifacts deadline heartbeat).
Notation run := (run proc_stat process_info open_artifacts deadline heartbeat).

Lemma search_micro c gone ok s s' : search heartbeat c gone ok s = Some s' → rtc (micro c) s s'.
Proof.
  unfold search. destruct (sy_calls s !! c) as [call|] eqn:Ec; [|done]. cbn.
  destruct (ca_phase call) as [a hb| | | |] eqn:Ep; try done. intros E.
  assert (open_call call = true) as Ho by (by apply (phase_open _ _ Ep)).
  assert (∀ e, rtc (micro c) s (finish c (Err e) s)) as Hf.
  { intros e. eapply micro_finish; [by apply quiet_same|done..|]. intros. congruence. }
  destruct (latest s) as [n|].
  { injection E as <-. apply rtc_once. eapply mi_phase; [done|..]; cbn; try done;
      rewrite ?Ep; destruct (ca_request call); try done; constructor. }
  destruct (_ && gone); [by injection E as <-|].
  destruct (_ && _); [|injection E as <-; reflexivity].
  destruct (if a then _ else _) as [frame|]; [|injection E as <-; reflexivity].
  destruct ok; injection E as <-; [|done].
  apply rtc_once. eapply mi_phase; [done|..]; cbn; try done. rewrite Ep. constructor.
Qed.

Lemma build_micro c random s s' :
  build proc_stat process_info open_artifacts c random s = Some s' → rtc (micro c) s s'.
Proof.
  unfold build. destruct (sy_calls s !! c) as [call|] eqn:Ec; [|done]. cbn.
  destruct (ca_phase call) as [|n| | |] eqn:Ep; try done.
  pose proof (news_number_request proc_stat (ca_ask call) s) as Hn.
  destruct (number_request proc_stat (ca_ask call) s) as [procedure s1]. cbn [snd] in Hn.
  apply quiet_news in Hn. intros E.
  assert (open_call call = true) as Ho by (by apply (phase_open _ _ Ep)).
  assert (∀ e s2, quiet s1 s2 → rtc (micro c) s (finish c (Err e) s2)) as Hf.
  { intros e s2 H2. eapply rtc_l; [by apply mi_quiet|].
    eapply micro_finish; [done|by rewrite (qt_calls _ _ Hn)|done|]. intros. congruence. }
  assert (quiet s1 s1) as Hrefl by (by apply quiet_same).
  destruct procedure as [procedure|e]; [|injection E as <-; by apply Hf].
  destruct random as [random|e]; [|injection E as <-; by apply Hf].
  assert (∀ s2 r, quiet s1 s2 →
    rtc (micro c) s (on_call c (λ call, set_phase (Sending n) (set_request r call)) s2)
    ∧ sy_calls (on_call c (λ call, set_phase (Sending n) (set_request r call)) s2) !! c
      = Some (set_phase (Sending n) (set_request r call))) as Hk.
  { intros s2 r H2. assert (sy_calls s2 !! c = Some call) as Ec2
      by (by rewrite (qt_calls _ _ H2), (qt_calls _ _ Hn)). split.
    - eapply rtc_l; [by apply mi_quiet|]. eapply rtc_l; [by apply mi_quiet|].
      apply rtc_once. by eapply mi_request.
    - cbn. by rewrite list_lookup_alter_eq, Ec2. }
  destruct (ak_artifact_signature (ca_ask call)) as [signing|].
  - destruct (open_artifacts signing) as [files|e]; injection E as <-; [|by apply Hf, quiet_same].
    set (r := new_request _ _ _ _ _ _).
    set (s2 := set_counters (sy_now s1) (wrap64 (sy_next_request s1 + 1)) (sy_procedures s1) s1).
    destruct (Hk s2 r) as [Hmi Hc2]; [by apply quiet_same|].
    eapply rtc_r; [exact Hmi|]. exact (mi_pin c _ _ n r files Hc2 eq_refl eq_refl).
  - injection E as <-. by apply Hk, quiet_same.
Qed.

Lemma send_micro c s s' : send deadline c s = Some s' → rtc (micro c) s s'.
Proof.
  unfold send. destruct (sy_calls s !! c) as [call|] eqn:Ec; [|done]. cbn.
  destruct (ca_request call) as [request|] eqn:Er; [|done]. cbn.
  destruct (ca_phase call) as [| |n| |] eqn:Ep; try done. intros E.
  assert (open_call call = true) as Ho by (by apply (phase_open _ _ Ep)).
  destruct (match rq_closure_signature request with Some _ => _ | None => _ end) as [s1|e] eqn:E1;
    [|injection E as <-; eapply micro_finish; [by apply quiet_same|done..|]; intros; congruence].
  assert (rtc (micro c) s s1 ∧ sy_calls s1 = sy_calls s
    ∧ (rq_closure_signature request ≠ None → ∃ owner, sy_operator_peers s1 !! n = Some owner
         ∧ sy_closure_requests s1 !! rq_id request = Some (c, owner))) as (H1 & Hc1 & Hreg).
  { destruct (rq_closure_signature request) as [signing|] eqn:Es.
    - destruct (sy_operator_peers s !! n) as [owner|] eqn:Eo; [|done].
      destruct (ak_stream _); [|done]. injection E1 as <-. split_and!; [|done|].
      + apply rtc_once. eapply mi_register; [done..| |done]. by rewrite Es.
      + intros _. exists owner. split; [done|]. cbn. by rewrite lookup_insert_eq.
    - injection E1 as <-. split_and!; [reflexivity|done|done]. }
  etransitivity; [exact H1|]. rewrite <- Hc1 in Ec.
  destruct (accepts n s1) eqn:Ea; injection E as <-.
  - apply rtc_once. by eapply mi_job.
  - eapply rtc_l; [by apply mi_quiet, quiet_detach|]. apply rtc_once.
    eapply micro_went_away; [done|]. left. by exists n.
Qed.

Lemma receive_micro c ok s s' : receive c ok s = Some s' → rtc (micro c) s s'.
Proof.
  unfold receive. destruct (sy_calls s !! c) as [call|] eqn:Ec; [|done]. cbn.
  destruct (ca_phase call) as [| | |n l hb [|]|] eqn:Ep; try done.
  destruct (ca_replies call) as [|o replies] eqn:Er; [done|]. intros E.
  destruct o as [answer|].
  { injection E as <-. apply rtc_once. by eapply mi_answer. }
  assert (micro c s (on_call c (set_replies replies) s)) as H1.
  { eapply mi_phase; [done|..]; cbn; try done; rewrite ?Ep; try done; [constructor|].
    intros o Ho. rewrite Er. by right. }
  eapply rtc_l; [exact H1|].
  assert (sy_calls (on_call c (set_replies replies) s) !! c = Some (set_replies replies call)) as Ec1
    by (cbn; by rewrite list_lookup_alter_eq, Ec).
  assert (micro c (on_call c (set_replies replies) s)
    (on_call c (set_phase (Awaiting n None hb false)) (on_call c (set_replies replies) s))) as H2.
  { eapply mi_phase; [done|..]; cbn; try done. rewrite Ep. constructor. }
  eapply rtc_l; [exact H2|].
  assert (sy_calls (on_call c (set_phase (Awaiting n None hb false)) (on_call c (set_replies replies) s)) !! c
    = Some (set_phase (Awaiting n None hb false) (set_replies replies call))) as Ec2
    by (cbn; by rewrite !list_lookup_alter_eq, Ec).
  destruct (_ && _); [|injection E as <-; reflexivity].
  destruct ok; injection E as <-; apply rtc_once; [|by eapply mi_withdraw].
  eapply mi_phase; [done|..]; cbn; try done. constructor.
Qed.

Lemma time_out_micro c s s' : time_out c s = Some s' → rtc (micro c) s s'.
Proof.
  unfold time_out. destruct (sy_calls s !! c) as [call|] eqn:Ec; [|done]. cbn.
  destruct (ca_phase call) as [| | |n l hb [|]|] eqn:Ep; try done.
  destruct (ca_replies call); [|done]. intros [= <-]. apply rtc_once.
  eapply mi_phase; [done|..]; cbn; try done. rewrite Ep. constructor.
Qed.

Lemma poll_micro c gone ok s s' : poll heartbeat c gone ok s = Some s' → rtc (micro c) s s'.
Proof.
  unfold poll. destruct (sy_calls s !! c) as [call|] eqn:Ec; [|done]. cbn.
  destruct (ca_request call) as [request|]; [|done]. cbn.
  destruct (ca_phase call) as [| | |n l hb [|]|] eqn:Ep; try done. intros E.
  assert (∀ reason, rtc (micro c) s (withdraw c n reason s)) as Hw.
  { intros reason. apply rtc_once. by eapply mi_withdraw. }
  assert (∀ f, (∃ l h b, ca_phase (f call) = Awaiting n l h b) → ca_request (f call) = ca_request call →
    ca_ask (f call) = ca_ask call → ca_replies (f call) = ca_replies call →
    rtc (micro c) s (on_call c f s)) as Hk.
  { intros f (l' & h' & b' & Hf) Hr Ha Ho. apply rtc_once. eapply mi_phase; [done|..]; try done.
    - rewrite Ep, Hf. constructor.
    - intros m Hm. congruence.
    - intros m Hm. congruence.
    - by rewrite Ho. }
  destruct (is_attached n s) eqn:Ea; cbn [negb] in E.
  2:{ injection E as <-. apply rtc_once. eapply micro_went_away; [done|]. right.
      exists n, l, hb, true. split; [done|]. by apply bool_decide_eq_false in Ea. }
  destruct (_ && gone); [by injection E as <-|].
  destruct (is_some_and _ _); [by injection E as <-|].
  destruct (_ && _ && _); [|injection E as <-; apply Hk; eauto].
  destruct ok; injection E as <-; [apply Hk; cbn; eauto|done].
Qed.

(** The call an event belongs to. *)
Definition event_call (e : Event) : option nat :=
  match e with
  | EvSearch c _ _ | EvBuild c _ | EvSend c | EvReceive c _ | EvTimeOut c | EvPoll c _ _ => Some c
  | _ => None
  end.

Lemma event_micro e c s s' : event_call e = Some c → step e s = Some s' → rtc (micro c) s s'.
Proof.
  intros He E. destruct e; try done; injection He as <-; cbn [Operators.step] in E.
  - by eapply search_micro.
  - by eapply build_micro.
  - by eapply send_micro.
  - by eapply receive_micro.
  - by eapply time_out_micro.
  - by eapply poll_micro.
Qed.
End Runs.

(** ** Provenance *)
(** Call [c] made the request [r]; the TUI of session [n] was shown it. *)
Definition has_request (s : Sys) (c : nat) (r : SecretRequest) : Prop :=
  ∃ call, sy_calls s !! c = Some call ∧ ca_request call = Some r.
Definition shown (s : Sys) (n : Z) (r : SecretRequest) : Prop :=
  ∃ t, sy_tuis s !! n = Some t ∧ FSecretRequested r ∈ tu_frames t.

(** What [shown] and [has_request] say stays true. *)
Record ext (s s' : Sys) : Prop := {
  ext_request : ∀ c r, has_request s c r → has_request s' c r;
  ext_shown : ∀ n r, shown s n r → shown s' n r
}.

#[export] Instance ext_preorder : PreOrder ext.
Proof. split; [by intros s|]. intros s1 s2 s3 [? ?] [? ?]. split; auto. Qed.

(** The answer [a] of request [r], or its cancelled countdown, was sent by a
    TUI that was shown the request. *)
Definition told (evs : list Event) (s : Sys) (r : SecretRequest) (m : FromTui) : Prop :=
  ∃ n, shown s n r ∧ EvReads n m ∈ evs.

Definition outcome_ok (evs : list Event) (s : Sys) (r : option SecretRequest) (o : Outcome) : Prop :=
  match o with
  | OAnswer (Ok a) => ∃ r', r = Some r' ∧ told evs s r' (TuiAnswers (rq_id r') a)
  | OAnswer (Err _) => False
  | OCountdownCancelled => ∃ r', r = Some r' ∧ told evs s r' (TuiCancels (rq_id r'))
  end.
Definition phase_ok (evs : list Event) (s : Sys) (r : option SecretRequest) (p : Phase) : Prop :=
  match p with
  | Found _ => r = None
  | Done (Ok a) => outcome_ok evs s r (OAnswer (Ok a))
  | _ => True
  end.
Definition call_ok (evs : list Event) (s : Sys) (call : Call) : Prop :=
  Forall (outcome_ok evs s (ca_request call)) (ca_replies call)
  ∧ phase_ok evs s (ca_request call) (ca_phase call).

Definition message_ok (evs : list Event) (s : Sys) (n : Z) (m : Inbox) : Prop :=
  match m with
  | IJob r c => has_request s c r
  | IAnswer id a => EvReads n (TuiAnswers id a) ∈ evs
  | ICancelCountdown id => EvReads n (TuiCancels id) ∈ evs
  | _ => True
  end.
Definition tui_ok (evs : list Event) (s : Sys) (n : Z) (t : Tui) : Prop :=
  Forall (message_ok evs s n) (tu_inbox t)
  ∧ ∀ id c, bt_get id (tu_waiting t) = Some c →
      ∃ r, has_request s c r ∧ rq_id r = id ∧ shown s n r.

Record provenance (evs : list Event) (s : Sys) : Prop := {
  pv_tuis : ∀ n t, sy_tuis s !! n = Some t → tui_ok evs s n t;
  pv_calls : ∀ c call, sy_calls s !! c = Some call → call_ok evs s call
}.

Section Monotone.
Context (evs evs' : list Event) (s s' : Sys) (Hevs : evs ⊆ evs') (Hext : ext s s').

Lemma told_mono r m : told evs s r m → told evs' s' r m.
Proof. intros (n & Hn & He). exists n. split; [by apply Hext|by apply Hevs]. Qed.

Lemma outcome_ok_mono r o : outcome_ok evs s r o → outcome_ok evs' s' r o.
Proof.
  destruct o as [[a|e]|]; cbn; [| done |]; intros (r' & -> & H);
    exists r'; (split; [done|by apply told_mono]).
Qed.

Lemma call_ok_mono call : call_ok evs s call → call_ok evs' s' call.
Proof.
  intros [H1 H2]. split; [eapply Forall_impl; [exact H1|]; intros o; apply outcome_ok_mono|].
  unfold phase_ok in *. destruct (ca_phase call) as [| | | |[a|e]]; try done.
  by apply outcome_ok_mono.
Qed.

Lemma message_ok_mono n m : message_ok evs s n m → message_ok evs' s' n m.
Proof. destruct m; cbn; try done; try apply Hext; apply Hevs. Qed.

Lemma tui_ok_mono n t : tui_ok evs s n t → tui_ok evs' s' n t.
Proof.
  intros [H1 H2]. split; [eapply Forall_impl; [exact H1|]; intros m; apply message_ok_mono|].
  intros id c Hc. destruct (H2 id c Hc) as (r & Hr & Hid & Hs).
  exists r. split_and!; [by apply Hext|done|by apply Hext].
Qed.
End Monotone.

(** *** The updates *)
Lemma provenance_events evs evs' s : evs ⊆ evs' → provenance evs s → provenance evs' s.
Proof.
  intros He [Ht Hc]. split.
  - intros n t H. eapply tui_ok_mono; [done|reflexivity|auto].
  - intros c call H. eapply call_ok_mono; [done|reflexivity|eauto].
Qed.

(** Nothing a request depends on changed. *)
Lemma ext_same s s' : sy_calls s' = sy_calls s → sy_tuis s' = sy_tuis s → ext s s'.
Proof. intros Hc Ht. split; unfold has_request, shown; by rewrite ?Hc, ?Ht. Qed.

Lemma provenance_same evs s s' :
  sy_calls s' = sy_calls s → sy_tuis s' = sy_tuis s → provenance evs s → provenance evs s'.
Proof.
  intros Hc Ht [H1 H2]. pose proof (ext_same s s' Hc Ht) as He. split.
  - intros n t H. rewrite Ht in H. eapply tui_ok_mono; [done|exact He|auto].
  - intros c call H. rewrite Hc in H. eapply call_ok_mono; [done|exact He|eauto].
Qed.

Lemma provenance_on_call evs c f s :
  (∀ call, sy_calls s !! c = Some call →
    (∀ r, ca_request call = Some r → ca_request (f call) = Some r)
    ∧ (call_ok evs s call → call_ok evs s (f call))) →
  provenance evs s → provenance evs (on_call c f s) ∧ ext s (on_call c f s).
Proof.
  intros Hf [H1 H2].
  assert (ext s (on_call c f s)) as He.
  { split; [|by intros]. intros c' r (call & Hc & Hr). unfold has_request, on_call; cbn.
    destruct (decide (c' = c)) as [->|Hne].
    - rewrite list_lookup_alter_eq, Hc. exists (f call). split; [done|]. by apply Hf.
    - rewrite list_lookup_alter_ne by done. by exists call. }
  split; [|done]. split.
  - intros n t H. eapply tui_ok_mono; [done|exact He|auto].
  - intros c' call H. unfold on_call in H; cbn in H.
    destruct (decide (c' = c)) as [->|Hne].
    + rewrite list_lookup_alter_eq in H. destruct (sy_calls s !! c) as [call0|] eqn:E; [|done].
      injection H as <-. eapply call_ok_mono; [done|exact He|]. apply Hf; eauto.
    + rewrite list_lookup_alter_ne in H by done. eapply call_ok_mono; [done|exact He|eauto].
Qed.

Lemma ext_on_tui n f s :
  (∀ t, sy_tuis s !! n = Some t → tu_frames t ⊆ tu_frames (f t)) → ext s (on_tui n f s).
Proof.
  intros Hf. split; [by intros|]. intros n' r (t & Ht & Hr). unfold shown, on_tui; cbn.
  destruct (decide (n' = n)) as [->|Hne].
  - rewrite lookup_alter_eq, Ht. exists (f t). split; [done|]. by apply (Hf t Ht).
  - rewrite lookup_alter_ne by done. by exists t.
Qed.

(** A change that leaves the inbox and the waiting map as good as they were. *)
Lemma tui_ok_on_tui evs n f s t t' :
  (∀ t, sy_tuis s !! n = Some t → tu_frames t ⊆ tu_frames (f t)) →
  tu_inbox t' ⊆ tu_inbox t →
  (∀ id c, bt_get id (tu_waiting t') = Some c → bt_get id (tu_waiting t) = Some c) →
  tui_ok evs s n t → tui_ok evs (on_tui n f s) n t'.
Proof.
  intros Hf Hi Hw Hok. eapply tui_ok_mono in Hok as [H1 H2]; [|done|by apply ext_on_tui].
  split; [|eauto]. rewrite Forall_forall in *. auto.
Qed.

Lemma provenance_on_tui evs n f s :
  (∀ t, sy_tuis s !! n = Some t → tu_frames t ⊆ tu_frames (f t)) →
  (∀ t, sy_tuis s !! n = Some t → tui_ok evs s n t → tui_ok evs (on_tui n f s) n (f t)) →
  provenance evs s → provenance evs (on_tui n f s).
Proof.
  intros Hfr Hf [H1 H2]. pose proof (ext_on_tui n f s Hfr) as He.
  split.
  - intros n' t H. unfold on_tui in H; cbn in H.
    destruct (decide (n' = n)) as [->|Hne].
    + rewrite lookup_alter_eq in H. destruct (sy_tuis s !! n) as [t0|] eqn:E; [|done].
      injection H as <-. apply Hf; auto.
    + rewrite lookup_alter_ne in H by done. eapply tui_ok_mono; [done|exact He|auto].
  - intros c call H. eapply call_ok_mono; [done|exact He|]. by eapply H2.
Qed.

Lemma provenance_push evs n m s :
  (message_ok evs s n m) → provenance evs s → provenance evs (push n m s).
Proof.
  intros Hm. apply provenance_on_tui; intros t Ht; [by destruct (tu_phase t)|].
  intros [Hi Hw].
  assert (tui_ok evs s n (match tu_phase t with Closed => t | _ => set_inbox (tu_inbox t ++ [m]) t end))
    as Hok.
  { destruct (tu_phase t); (split; [|exact Hw]); cbn; try done; apply Forall_app; by repeat constructor. }
  eapply tui_ok_mono; [done| |exact Hok]. apply ext_on_tui. intros t' _. by destruct (tu_phase t').
Qed.

Lemma provenance_quiet evs s s' : quiet s s' → provenance evs s → provenance evs s'.
Proof.
  intros [Hcalls _ _ _ _ Hnone Hsome _ _] [H1 H2].
  assert (ext s s') as He.
  { split; unfold has_request, shown; rewrite ?Hcalls; [done|].
    intros n r (t & Ht & Hr). destruct (Hsome n t Ht) as (t' & Ht' & ms & -> & _). eauto. }
  split.
  - intros n t' Ht'. destruct (sy_tuis s !! n) as [t|] eqn:Et; [|apply Hnone in Et; congruence].
    destruct (Hsome n t Et) as (t1 & Ht1 & ms & -> & Hms). rewrite Ht' in Ht1. injection Ht1 as ->.
    destruct (H1 n t Et) as [Hi Hw]. eapply tui_ok_mono; [done|exact He|]. split; [|exact Hw].
    cbn. apply Forall_app. split; [done|]. eapply Forall_impl; [exact Hms|]. by intros [].
  - intros c call H. rewrite Hcalls in H. eapply call_ok_mono; [done|exact He|eauto].
Qed.

Lemma provenance_news evs s s' : news s s' → provenance evs s → provenance evs s'.
Proof. intros H. by apply provenance_quiet, quiet_news. Qed.

Lemma provenance_new_call evs call s :
  call_ok evs s call → provenance evs s → provenance evs (set_calls (sy_calls s ++ [call]) s).
Proof.
  intros Hok [H1 H2].
  assert (ext s (set_calls (sy_calls s ++ [call]) s)) as He.
  { split; [|by intros]. intros c r (call0 & Hc & Hr). exists call0. split; [|done].
    cbn. by apply lookup_app_l_Some. }
  split.
  - intros n t H. eapply tui_ok_mono; [done|exact He|auto].
  - intros c call0 H. cbn in H. apply lookup_app_Some in H as [H|[_ H]].
    + eapply call_ok_mono; [done|exact He|eauto].
    + apply list_lookup_singleton_Some in H as [_ <-]. by eapply call_ok_mono; [|exact He|].
Qed.

Lemma provenance_finish evs c answer s :
  (∀ call a, sy_calls s !! c = Some call → answer = Ok a →
     outcome_ok evs s (ca_request call) (OAnswer (Ok a))) →
  provenance evs s → provenance evs (finish c answer s).
Proof.
  intros Ha H. destruct (finish_fields c answer s) as (Hc & Ht & _).
  apply (provenance_same evs (on_call c (set_phase (Done answer)) s)); [done..|].
  apply provenance_on_call; [|done]. intros call Hcall. split; [done|].
  intros [H1 _]. split; [done|]. cbn. destruct answer as [a|e]; [|done]. by eapply Ha.
Qed.

Lemma provenance_refuse evs c e s : provenance evs s → provenance evs (finish c (Err e) s).
Proof. by apply provenance_finish. Qed.

Lemma provenance_withdraw evs c n reason s :
  provenance evs s → provenance evs (withdraw c n reason s).
Proof. intros H. unfold withdraw. apply provenance_refuse. by apply provenance_push. Qed.

(** Phases that say nothing about the answer. *)
Definition silent (p : Phase) : bool :=
  match p with Found _ | Done _ => false | _ => true end.

Lemma provenance_phase evs c f s :
  (∀ call, silent (ca_phase (f call)) = true ∧ ca_request (f call) = ca_request call
     ∧ (∀ o, o ∈ ca_replies (f call) → o ∈ ca_replies call)) →
  provenance evs s → provenance evs (on_call c f s).
Proof.
  intros Hf H. apply provenance_on_call; [|done]. intros call _.
  destruct (Hf call) as (Hs & Hr & Ho). split; [by rewrite Hr|]. intros [H1 _].
  split; rewrite Hr.
  - rewrite !Forall_forall in *. intros o Hin. by apply H1, Ho.
  - by destruct (ca_phase (f call)).
Qed.

Lemma provenance_reply evs c o s :
  (∀ call, sy_calls s !! c = Some call → outcome_ok evs s (ca_request call) o) →
  provenance evs s → provenance evs (send_reply c o s).
Proof.
  intros Ho H. apply provenance_on_call; [|done]. intros call Hc.
  split; [by destruct (ca_phase call)|]. intros [H1 H2]. split.
  - destruct (ca_phase call); try done; cbn; apply Forall_app; (split; [done|]);
      apply Forall_singleton; by apply Ho.
  - destruct (ca_phase call) eqn:E; cbn; rewrite ?E in *; done.
Qed.

(** *** The events *)
Section Runs.
Context (proc_stat : Z → option string) (process_info : Z → ProcessInfo).
Context (open_artifacts : Artifacts.SigningRequest → result string (list (string * list Z))).
Context (deadline heartbeat : Z).
Notation step := (step proc_stat process_info open_artifacts deadline heartbeat).
Notation run := (run proc_stat process_info open_artifacts deadline heartbeat).

Lemma provenance_start evs ask s : provenance evs s → provenance evs (start ask s).
Proof.
  intros H. unfold start.
  assert (∀ phase s', (phase_ok evs s' None phase) → provenance evs s' →
    provenance evs (set_calls (sy_calls s' ++
      [{| ca_ask := ask; ca_phase := phase; ca_request := None; ca_replies := []; ca_frames := [] |}]) s'))
    as Hnew.
  { intros phase s' Hp Hs'. apply provenance_new_call; [|done]. split; [constructor|done]. }
  repeat (destruct (_ : bool); [by apply Hnew|]).
  unfold claim. destruct (_ <? _); [|by apply Hnew].
  apply Hnew; [done|]. by eapply provenance_same; [| |exact H].
Qed.

Lemma provenance_micro evs c s s' : micro c s s' → provenance evs s → provenance evs s'.
Proof.
  intros Hm H. destruct Hm as
    [s' Hq|call e Hc Ho Hn|call n l h b reason Hc Hp|call n l h b answer replies Hc Hp Hr
    |f call Hc Ht Hreq _ Hf Hs Hrep|call n request Hc Hp
    |call n request files Hc Hp Hr|call n request owner Hc Hp Hr Hs Ho|call n request l Hc Hp Hr Ha _].
  - by eapply provenance_quiet.
  - by apply provenance_refuse.
  - by apply provenance_withdraw.
  - pose proof (pv_calls _ _ H c call Hc) as [Hrep _]. rewrite Hr in Hrep.
    apply Forall_cons_1 in Hrep as [Ho Hrest].
    assert (provenance evs (on_call c (set_replies replies) s)
            ∧ ext s (on_call c (set_replies replies) s)) as [H1 He].
    { apply provenance_on_call; [|done]. intros call' Hc'. rewrite Hc in Hc'. injection Hc' as <-.
      split; [done|]. intros [_ H2]. by split. }
    apply provenance_finish; [|done]. intros call' a Hc' ->.
    unfold on_call in Hc'; cbn in Hc'. rewrite list_lookup_alter_eq, Hc in Hc'. injection Hc' as <-.
    eapply outcome_ok_mono; [done|exact He|exact Ho].
  - apply provenance_on_call; [|done]. intros call' Hc'. rewrite Hc in Hc'. injection Hc' as <-.
    split; [by rewrite Hreq|]. intros [H1 H2]. split; rewrite Hreq.
    + rewrite Forall_forall in *. intros o Hin. by apply H1, Hrep.
    + destruct (ca_phase (f call)) eqn:Ep; try done; [by eapply Hf|]. by inversion Ht.
  - pose proof (pv_calls _ _ H c call Hc) as [Hrep Hph]. rewrite Hp in Hph. cbn in Hph.
    rewrite Hph in Hrep.
    assert (ca_replies call = []) as Hnil.
    { destruct (ca_replies call) as [|o k]; [done|]. apply Forall_cons_1 in Hrep as [Ho _].
      destruct o as [[a|e]|]; cbn in Ho; [by destruct Ho as (? & ? & _)|done|by destruct Ho as (? & ? & _)]. }
    apply provenance_on_call; [|done]. intros call' Hc'. rewrite Hc in Hc'. injection Hc' as <-.
    cbn. rewrite Hph. split; [done|]. intros _. split; [|done]. cbn. by rewrite Hnil.
  - by apply (provenance_same _ s).
  - by apply (provenance_same _ s).
  - apply provenance_phase; [done|]. apply provenance_push; [|done]. by exists call.
Qed.

Lemma provenance_attach evs n peer ok s s' :
  attach n peer ok s = Some s' → provenance evs s → provenance evs s'.
Proof.
  unfold attach. destruct (sy_tuis s !! n) as [t0|] eqn:En; [done|].
  set (t := if ok then _ else _). intros [= <-] [H1 H2].
  assert (tu_inbox t = [] ∧ tu_waiting t = []) as [Hi Hw] by (by subst t; destruct ok).
  set (s' := set_tuis _ _).
  assert (ext s s') as He.
  { split; [by intros|]. intros n' r (t' & Ht' & Hr). unfold shown. cbn.
    rewrite lookup_insert_ne by congruence. by exists t'. }
  split.
  - intros n' t' H. cbn in H. apply lookup_insert_Some in H as [[<- <-]|[Hne H]].
    + split; [rewrite Hi; constructor|]. rewrite Hw. done.
    + eapply tui_ok_mono; [done|exact He|auto].
  - intros c call H. eapply call_ok_mono; [done|exact He|]. by eapply H2.
Qed.

Lemma provenance_reads evs n m s s' :
  EvReads n m ∈ evs → reads n m s = Some s' → provenance evs s → provenance evs s'.
Proof.
  intros Hin. unfold reads. destruct (sy_tuis s !! n) as [t|] eqn:En; [|done]. cbn.
  destruct (tu_reading t); [|done]. intros [= <-] H.
  apply provenance_on_tui; [by intros| |].
  - intros t' Ht'. by apply tui_ok_on_tui.
  - apply provenance_push; [|done]. by destruct m.
Qed.

Lemma handle_own_frames m ok t : tu_frames t ⊆ tu_frames (handle_own m ok t).
Proof.
  assert (∀ f t, tu_frames t ⊆ tu_frames (write f ok t)) as Hw.
  { intros f t'. unfold write. destruct ok; [|done]. cbn. intros x Hx. apply elem_of_app. by left. }
  destruct m; cbn; try apply Hw; try done; [destruct ok; apply (Hw (FSecretRequested request) t)|].
  destruct (bt_contains _ _); [|done].
  apply (Hw (FSecretRequestWithdrawn id) (set_waiting (bt_remove id (tu_waiting t)) t)).
Qed.

Lemma provenance_serve evs n ok s s' :
  serve_tui n ok s = Some s' → provenance evs s → provenance evs s'.
Proof.
  unfold serve_tui. destruct (sy_tuis s !! n) as [t|] eqn:En; [|done]. cbn.
  destruct (tu_phase t) eqn:Ep; try done. destruct (tu_inbox t) as [|m inbox] eqn:Ei; [done|].
  intros [= <-] H. pose proof (pv_tuis _ _ H n t En) as [Hi Hw]. rewrite Ei in Hi.
  apply Forall_cons_1 in Hi as [Hm Hi].
  set (f := λ t, handle_own m ok (set_inbox inbox t)).
  assert (ext s (on_tui n f s)) as He.
  { apply ext_on_tui. intros t' _. apply (handle_own_frames m ok (set_inbox inbox t')). }
  assert (provenance evs (on_tui n f s)) as H1.
  { apply provenance_on_tui; [intros t' _; apply (handle_own_frames m ok (set_inbox inbox t'))| |done].
    intros t' Ht' _. rewrite En in Ht'. injection Ht' as <-.
    assert (tu_inbox (f t) = inbox) as Hfi.
    { subst f. cbn. destruct m, ok; cbn; try done; by destruct (bt_contains _ _). }
    assert (∀ id c, bt_get id (tu_waiting (f t)) = Some c →
              bt_get id (tu_waiting t) = Some c ∨
              ∃ r, m = IJob r c ∧ rq_id r = id ∧ FSecretRequested r ∈ tu_frames (f t)) as Hfw.
    { intros id c. subst f. cbn. destruct m; cbn; intros Hg; try (destruct ok; cbn in Hg; by left).
      - destruct ok; cbn in Hg; [|by left]. rewrite bt_get_insert in Hg.
        destruct (decide (rq_id request = id)) as [<-|]; [|by left].
        injection Hg as ->. right. exists request. split_and!; [done..|]. apply elem_of_app. right. left.
      - left. destruct (bt_contains _ _); [|done].
        assert (bt_get id (bt_remove id0 (tu_waiting t)) = Some c) as Hg' by (by destruct ok).
        by apply bt_get_remove_Some in Hg'.
      - left. by apply bt_get_remove_Some in Hg. }
    split.
    - rewrite Hfi. eapply Forall_impl; [exact Hi|]. intros m'. by apply message_ok_mono.
    - intros id c Hg. destruct (Hfw id c Hg) as [Hold|(r & -> & Hid & Hfr)].
      + destruct (Hw id c Hold) as (r & Hr & Hid & Hs). exists r.
        split_and!; [by apply He|done|by apply He].
      + exists r. split_and!; [by apply He|done|]. exists (f t). split; [|done].
        unfold on_tui; cbn. by rewrite lookup_alter_eq, En. }
  assert (∀ id c o mt, bt_get id (tu_waiting t) = Some c → EvReads n mt ∈ evs →
    (∀ r, rq_id r = id → told evs (on_tui n f s) r mt → outcome_ok evs (on_tui n f s) (Some r) o) →
    ∀ call, sy_calls (on_tui n f s) !! c = Some call →
      outcome_ok evs (on_tui n f s) (ca_request call) o) as Hreply.
  { intros id c o mt Hg Hin Ho call Hc. destruct (Hw id c Hg) as (r & (call' & Hc' & Hr) & Hid & Hs).
    cbn in Hc. rewrite Hc' in Hc. injection Hc as ->. rewrite Hr. apply Ho; [done|].
    exists n. split; [by apply He|done]. }
  destruct m; cbn [handle_others]; try done.
  - destruct (bt_get request_id (tu_waiting t)) as [c|] eqn:Eg; [|done].
    apply provenance_reply; [|by eapply provenance_same; [| |exact H1]].
    intros call Hc. eapply outcome_ok_mono; [done| |].
    { apply (ext_same (on_tui n f s)); done. }
    eapply Hreply; [exact Eg|exact Hm| |done]. intros r <- Ht. exists r. done.
  - destruct (bt_get request_id (tu_waiting t)) as [c|] eqn:Eg; [|done].
    apply provenance_reply; [|exact H1]. intros call Hc.
    eapply Hreply; [exact Eg|exact Hm| |done]. intros r <- Ht. exists r. done.
Qed.

Lemma provenance_beat evs n ok s s' :
  beat_tui heartbeat n ok s = Some s' → provenance evs s → provenance evs s'.
Proof.
  unfold beat_tui. destruct (sy_tuis s !! n) as [t|] eqn:En; [|done]. cbn.
  destruct (tu_phase t); try done. destruct (tu_inbox t); [|done].
  destruct (_ <=? _); [|done]. intros [= <-] H. apply provenance_on_tui; [| |done].
  - intros t' _. destruct ok; [|done]. cbn. intros x Hx. apply elem_of_app. by left.
  - intros t' Ht'. apply tui_ok_on_tui; destruct ok; try done.
    intros t1 _. cbn. intros x Hx. apply elem_of_app. by left.
Qed.

Lemma provenance_leave evs n s s' :
  leave_tui n s = Some s' → provenance evs s → provenance evs s'.
Proof.
  unfold leave_tui. destruct (sy_tuis s !! n) as [t|] eqn:En; [|done]. cbn.
  intros E H. destruct (tu_phase t); try done; injection E as <-.
  - apply provenance_on_tui; [by intros| |by eapply provenance_same; [| |exact H]].
    intros t' Ht'. by apply tui_ok_on_tui.
  - apply provenance_on_tui; [by intros| |by eapply provenance_same; [| |exact H]].
    intros t' Ht'. by apply tui_ok_on_tui; [|apply list_subseteq_nil|].
Qed.

Lemma provenance_step evs e s s' :
  step e s = Some s' → provenance evs s → provenance (evs ++ [e]) s'.
Proof.
  intros E H.
  assert (provenance (evs ++ [e]) s) as H'.
  { eapply provenance_events; [|exact H]. intros x Hx. apply elem_of_app. by left. }
  clear H. destruct (event_call e) as [c|] eqn:Ee.
  { eapply event_micro in E; [|exact Ee]. clear Ee. induction E as [|s s1 s2 Hm _ IH]; [done|].
    apply IH. by eapply provenance_micro. }
  destruct e; try done; cbn [Operators.step] in E.
  - destruct (0 <=? elapsed); [|done]. injection E as <-. by eapply provenance_same; [| |exact H'].
  - injection E as <-. by apply provenance_start.
  - by eapply provenance_attach.
  - eapply provenance_reads; [|done..]. apply elem_of_app. right. left.
  - by eapply provenance_serve.
  - by eapply provenance_beat.
  - by eapply provenance_leave.
  - injection E as <-. unfold check_closure. repeat case_match; try done.
    by eapply provenance_same; [| |exact H'].
  - injection E as <-. eapply provenance_news; [apply news_procedure_request|done].
  - injection E as <-. eapply provenance_news; [apply news_end_grants|done].
Qed.

Lemma provenance_run evs s : run evs operators_default = Some s → provenance evs s.
Proof.
  apply run_ind.
  - split; [intros n t H; cbn in H; by rewrite lookup_empty in H|]. intros c call H. by destruct c.
  - intros evs' e s1 s2 _ H E. by eapply provenance_step.
Qed.

(** C3: A requester is only ever given an answer that an operator gave to that
    very request: when a call returns an answer, some TUI was shown exactly
    the request this call made, and that TUI sent this answer for the
    request's id.  No answer is made up, redirected or taken from a TUI that
    never saw the request. *)
Theorem answers_from_shown_tui evs s c call a :
  run evs operators_default = Some s →
  sy_calls s !! c = Some call → ca_phase call = Done (Ok a) →
  ∃ r n t, ca_request call = Some r
    ∧ sy_tuis s !! n = Some t ∧ FSecretRequested r ∈ tu_frames t
    ∧ EvReads n (TuiAnswers (rq_id r) a) ∈ evs.
Proof.
  intros Hrun Hc Hp. pose proof (provenance_run _ _ Hrun) as H.
  destruct (pv_calls _ _ H c call Hc) as [_ Hph]. rewrite Hp in Hph. cbn in Hph.
  destruct Hph as (r & Hr & n & (t & Ht & Hf) & He). by exists r, n, t.
Qed.
End Runs.
