(* ===== verification/OperatorLive.v ===== *)
(** * Slots, prompts and requesters that leave

    More invariants of the runs of [Operators]: the number of waiting requests,
    which prompts a TUI can still show, who may ask after a closure request,
    and that a requester that leaves is let go. *)
From stdpp Require Import gmap.
From S2P Require Import Prelude BTree Text Framing Procedure Procedures SshAuth Signing.
From S2P Require Import Requests Operators OperatorFacts.
#[local] Open Scope Z_scope.

(** ** Slots *)
Definition weight (call : Call) : Z := if open_call call then 1 else 0.
Definition waiting_calls (calls : list Call) : Z := foldr (λ call n, weight call + n) 0 calls.

Lemma waiting_app calls calls' :
  waiting_calls (calls ++ calls') = waiting_calls calls + waiting_calls calls'.
Proof.
  induction calls as [|call calls IH]; [done|].
  change (waiting_calls ((call :: calls) ++ calls')) with (weight call + waiting_calls (calls ++ calls')).
  change (waiting_calls (call :: calls)) with (weight call + waiting_calls calls). lia.
Qed.

Lemma waiting_alter f c calls :
  waiting_calls (alter f c calls) =
    waiting_calls calls +
      match calls !! c with Some call => weight (f call) - weight call | None => 0 end.
Proof.
  revert c. induction calls as [|call calls IH]; intros c; [done|].
  change (waiting_calls (call :: calls)) with (weight call + waiting_calls calls).
  destruct c as [|c].
  - change (waiting_calls (alter f 0%nat (call :: calls))) with (weight (f call) + waiting_calls calls).
    cbn. lia.
  - change (waiting_calls (alter f (S c) (call :: calls)))
      with (weight call + waiting_calls (alter f c calls)).
    rewrite IH. change ((call :: calls) !! S c) with (calls !! c). lia.
Qed.

Lemma waiting_nonneg calls : 0 ≤ waiting_calls calls.
Proof.
  induction calls as [|call calls IH]; [done|].
  change (waiting_calls (call :: calls)) with (weight call + waiting_calls calls).
  unfold weight. destruct (open_call call); lia.
Qed.

Definition slots (s : Sys) : Prop :=
  sy_pending s = waiting_calls (sy_calls s) ∧ sy_pending s ≤ MAX_PENDING.

Lemma slots_same s s' :
  sy_pending s' = sy_pending s → sy_calls s' = sy_calls s → slots s → slots s'.
Proof. unfold slots. by intros -> ->. Qed.

Lemma slots_on_call c f s :
  (∀ call, sy_calls s !! c = Some call → weight (f call) = weight call) →
  slots s → slots (on_call c f s).
Proof.
  intros Hf [H1 H2]. split; [|done]. cbn [on_call set_calls sy_calls sy_pending].
  rewrite waiting_alter, H1.
  destruct (sy_calls s !! c) as [call|]; [rewrite Hf by done|]; lia.
Qed.

Lemma slots_finish c answer s call :
  sy_calls s !! c = Some call → open_call call = true → slots s → slots (finish c answer s).
Proof.
  intros Hc Ho [H1 H2]. destruct (finish_fields c answer s) as (Ec & _ & _ & Ep & _).
  unfold slots. rewrite Ec, Ep, waiting_alter, Hc. unfold weight. rewrite Ho. cbn. lia.
Qed.

Lemma slots_micro c s s' : micro c s s' → slots s → slots s'.
Proof.
  intros Hm H. destruct Hm.
  - match goal with H : quiet _ _ |- _ => destruct H end. by apply (slots_same s).
  - by eapply slots_finish.
  - unfold withdraw. eapply slots_finish; [done|by eapply phase_open|by apply (slots_same s)].
  - eapply (slots_finish _ _ _ (set_replies replies call)).
    + cbn. by rewrite list_lookup_alter_eq, H0.
    + by eapply (phase_open (set_replies replies call)).
    + by apply slots_on_call.
  - apply slots_on_call; [|done]. intros call' Hc'. rewrite H0 in Hc'. injection Hc' as <-.
    unfold weight, open_call. by destruct H1.
  - apply slots_on_call; [|done]. intros call' Hc'. rewrite H0 in Hc'. injection Hc' as <-.
    unfold weight, open_call. by rewrite H1.
  - by apply (slots_same s).
  - by apply (slots_same s).
  - apply slots_on_call; [|by apply (slots_same s)]. intros call' Hc'. cbn in Hc'.
    rewrite H0 in Hc'. injection Hc' as <-. unfold weight, open_call. by rewrite H1.
Qed.

(** The events of the other threads leave the phases alone. *)
Lemma weight_reply o call :
  weight (match ca_phase call with Done _ => call | _ => set_replies (ca_replies call ++ [o]) call end)
  = weight call.
Proof. unfold weight, open_call. destruct (ca_phase call) eqn:E; cbn; by rewrite ?E. Qed.

Lemma slots_serve n ok s s' : serve_tui n ok s = Some s' → slots s → slots s'.
Proof.
  unfold serve_tui. destruct (sy_tuis s !! n) as [t|]; [|done]. cbn.
  destruct (tu_phase t); try done. destruct (tu_inbox t) as [|m inbox]; [done|].
  intros [= <-] H.
  assert (∀ f s1, s1 = on_tui n f s → slots s1) as H1
    by (intros f s1 ->; by apply (slots_same s)).
  destruct m; cbn [handle_others]; try (by eapply H1);
    (destruct (bt_get _ _) as [c|]; [|by eapply H1]); apply slots_on_call;
    try (intros; apply weight_reply); by apply (slots_same s).
Qed.

Section SlotRuns.
Context (proc_stat : Z → option string) (process_info : Z → ProcessInfo).
Context (open_artifacts : Artifacts.SigningRequest → result string (list (string * list Z))).
Context (deadline heartbeat : Z).
Notation step := (step proc_stat process_info open_artifacts deadline heartbeat).
Notation run := (run proc_stat process_info open_artifacts deadline heartbeat).

Lemma slots_start ask s : slots s → slots (start ask s).
Proof.
  intros [H1 H2]. unfold start.
  assert (∀ e, slots (set_calls (sy_calls s ++ [{| ca_ask := ask; ca_phase := Done (Err e);
    ca_request := None; ca_replies := []; ca_frames := [] |}]) s)) as Hr.
  { intros e. split; [|done]. cbn. rewrite waiting_app. cbn. lia. }
  repeat (destruct (_ : bool); [by apply Hr|]).
  unfold claim. destruct (sy_pending s <? MAX_PENDING) eqn:E; [|by apply Hr]. bool_prop.
  split; [|cbn; lia]. cbn. rewrite waiting_app. cbn. lia.
Qed.

Lemma slots_step e s s' : step e s = Some s' → slots s → slots s'.
Proof.
  intros E H. destruct (event_call e) as [c|] eqn:Ee.
  { eapply event_micro in E; [|exact Ee]. induction E as [|s s1 s2 Hm _ IH]; [done|].
    apply IH. by eapply slots_micro. }
  destruct e; try done; cbn [Operators.step] in E.
  - destruct (0 <=? elapsed); [|done]. by injection E as <-.
  - injection E as <-. by apply slots_start.
  - unfold attach in E. destruct (sy_tuis s !! session); [done|]. injection E as <-.
    by apply (slots_same s).
  - unfold reads in E. destruct (sy_tuis s !! session) as [t|]; [|done]. cbn in E.
    destruct (tu_reading t); [|done]. injection E as <-. by apply (slots_same s).
  - by eapply slots_serve.
  - unfold beat_tui in E. destruct (sy_tuis s !! session) as [t|]; [|done]. cbn in E.
    destruct (tu_phase t); try done. destruct (tu_inbox t); [|done].
    destruct (_ <=? _); [|done]. injection E as <-. by apply (slots_same s).
  - unfold leave_tui in E. destruct (sy_tuis s !! session) as [t|]; [|done]. cbn in E.
    destruct (tu_phase t); try done; injection E as <-; by apply (slots_same s).
  - injection E as <-. unfold check_closure. repeat case_match; try done; by apply (slots_same s).
  - injection E as <-. destruct (news_procedure_request proc_stat r s). by apply (slots_same s).
  - injection E as <-. destruct (news_end_grants grants s). by apply (slots_same s).
Qed.

Lemma slots_run evs s : run evs operators_default = Some s → slots s.
Proof.
  apply (run_ind _ _ _ _ _ (λ _ s, slots s)); [by split|].
  intros evs' e s1 s2 _ H E. by eapply slots_step.
Qed.

(** The counter of waiting requests is exact and bounded: at any time it
    is the number of calls that have not returned, at most sixteen, and while
    all sixteen are taken a further request is refused at once instead of
    waiting. *)
Theorem pending_slots_exact evs s :
  run evs operators_default = Some s →
  pending_count s = waiting_calls (sy_calls s)
  ∧ 0 ≤ pending_count s ≤ MAX_PENDING
  ∧ (pending_count s = MAX_PENDING → ∀ ask, ∃ e call,
       sy_calls (start ask s) = sy_calls s ++ [call] ∧ ca_phase call = Done (Err e)
       ∧ pending_count (start ask s) = MAX_PENDING).
Proof.
  intros Hrun. pose proof (slots_run _ _ Hrun) as [H1 H2].
  unfold pending_count. split; [done|].
  split; [split; [rewrite H1; apply waiting_nonneg|done]|].
  intros Hfull ask. unfold start.
  assert (∀ e, ∃ e' call, sy_calls (set_calls (sy_calls s ++ [{| ca_ask := ask;
      ca_phase := Done (Err e); ca_request := None; ca_replies := []; ca_frames := [] |}]) s)
      = sy_calls s ++ [call] ∧ ca_phase call = Done (Err e')
      ∧ sy_pending (set_calls (sy_calls s ++ [{| ca_ask := ask;
      ca_phase := Done (Err e); ca_request := None; ca_replies := []; ca_frames := [] |}]) s) = MAX_PENDING)
    as Hr by (intros e; do 2 eexists; split_and!; [done..|]; done).
  repeat (destruct (_ : bool); [by apply Hr|]).
  unfold claim. rewrite Hfull, Z.ltb_irrefl. by apply Hr.
Qed.
End SlotRuns.

(** ** Prompts *)
(** The thread of this TUI shows, or will show, the request of call [c]. *)
Definition prompts (t : Tui) (c : nat) : Prop :=
  (∃ r, IJob r c ∈ tu_inbox t) ∨ (∃ id, bt_get id (tu_waiting t) = Some c).
(** Its withdrawal is queued, behind the request itself. *)
Definition withdrawn (t : Tui) (c : nat) (id : string) : Prop :=
  ∃ l k, tu_inbox t = l ++ IWithdraw id :: k ∧ ∀ r, IJob r c ∉ k.

Definition prompt_ok (n : Z) (t : Tui) (c : nat) (call : Call) : Prop :=
  match ca_phase call with
  | Awaiting n' _ _ _ => n' = n
  | Done (Ok _) => True
  | Done (Err _) => ∃ r, ca_request call = Some r ∧ withdrawn t c (rq_id r)
  | _ => False
  end.

(** A TUI whose thread has not left [attached]. *)
Definition listed (n : Z) (s : Sys) : bool :=
  match sy_tuis s !! n with
  | Some t => match tu_phase t with Serving | Left => true | _ => false end
  | None => false
  end.

Lemma listed_accepts n s : listed n s = true → accepts n s = true.
Proof. unfold listed, accepts. destruct (sy_tuis s !! n) as [t|]; [|done]. by destruct (tu_phase t). Qed.

Record tidy (s : Sys) : Prop := {
  td_attached : ∀ n t, sy_tuis s !! n = Some t → tu_phase t = Serving → n ∈ sy_attached s;
  td_listed : ∀ n, n ∈ sy_attached s → listed n s = true;
  td_prompts : ∀ n t c call, sy_tuis s !! n = Some t → tu_phase t = Serving → prompts t c →
    sy_calls s !! c = Some call → prompt_ok n t c call
}.

(** Messages that neither are nor withdraw a request of [c], at the end. *)
Lemma prompts_extend t ms c :
  (∀ r, IJob r c ∉ ms) → prompts (set_inbox (tu_inbox t ++ ms) t) c → prompts t c.
Proof.
  intros Hms [[r Hr]|Hw]; [|by right]. left. exists r. cbn in Hr.
  apply elem_of_app in Hr as [Hr|Hr]; [done|]. by apply Hms in Hr.
Qed.

Lemma withdrawn_extend t ms c id :
  (∀ r, IJob r c ∉ ms) → withdrawn t c id → withdrawn (set_inbox (tu_inbox t ++ ms) t) c id.
Proof.
  intros Hms (l & k & E & Hk). exists l, (k ++ ms). cbn. rewrite E, <- (assoc app).
  split; [done|]. intros r [Hr|Hr]%elem_of_app; [by apply Hk in Hr|by apply Hms in Hr].
Qed.

Lemma prompt_ok_extend n t ms c call :
  (∀ r, IJob r c ∉ ms) → prompt_ok n t c call → prompt_ok n (set_inbox (tu_inbox t ++ ms) t) c call.
Proof.
  intros Hms. unfold prompt_ok. destruct (ca_phase call) as [| | | |[a|e]]; try done.
  intros (r & Hr & Hw). exists r. split; [done|]. by apply withdrawn_extend.
Qed.

Lemma news_no_job ms c : Forall (λ m, is_news m = true) ms → ∀ r, IJob r c ∉ ms.
Proof. intros H r Hin. rewrite Forall_forall in H. by apply H in Hin. Qed.

Lemma accepts_news t t' : tui_news t t' → tu_phase t' = tu_phase t.
Proof. by intros (ms & -> & _). Qed.

Lemma quiet_listed s s' n : quiet s s' → listed n s' = listed n s.
Proof.
  intros [_ _ _ _ _ Hn Hs _ _]. unfold listed.
  destruct (sy_tuis s !! n) as [t|] eqn:Et; [|by rewrite Hn].
  destruct (Hs n t Et) as (t' & -> & Hnews). by rewrite (accepts_news t t').
Qed.

Lemma tidy_quiet s s' : quiet s s' → tidy s → tidy s'.
Proof.
  intros Hq [H1 H2 H3]. pose proof (λ n, quiet_listed s s' n Hq) as Ha.
  destruct Hq as [Hc _ _ Hless Hacc Hn Hs _ _].
  assert (∀ n t', sy_tuis s' !! n = Some t' →
    ∃ t, sy_tuis s !! n = Some t ∧ tui_news t t') as Hback.
  { intros n t' Ht'. destruct (sy_tuis s !! n) as [t|] eqn:Et; [|rewrite Hn in Ht' by done; done].
    destruct (Hs n t Et) as (t1 & Ht1 & Hnews). rewrite Ht' in Ht1. injection Ht1 as ->. eauto. }
  split.
  - intros n t' Ht' Hp. destruct (Hback n t' Ht') as (t & Ht & Hnews).
    rewrite (accepts_news _ _ Hnews) in Hp. pose proof (H1 n t Ht Hp). by apply Hacc; [|apply listed_accepts, H2].
  - intros n Hin. rewrite Ha. by apply H2, Hless.
  - intros n t' c call Ht' Hp Hpr Hcall. rewrite Hc in Hcall.
    destruct (Hback n t' Ht') as (t & Ht & ms & -> & Hms).
    pose proof (news_no_job ms c Hms) as Hno.
    apply prompt_ok_extend; [done|]. eapply H3; [done..| |done]. by eapply prompts_extend.
Qed.

(** A change to one call, the others and the TUIs untouched. *)
Lemma tidy_on_call c f s :
  (∀ n t call, sy_tuis s !! n = Some t → tu_phase t = Serving → n ∈ sy_attached s →
     prompts t c → sy_calls s !! c = Some call → prompt_ok n t c call → prompt_ok n t c (f call)) →
  tidy s → tidy (on_call c f s).
Proof.
  intros Hf [H1 H2 H3]. split; [exact H1|exact H2|].
  intros n t c' call Ht Hp Hpr Hc. cbn in Hc. destruct (decide (c' = c)) as [->|Hne].
  - rewrite list_lookup_alter_eq in Hc. destruct (sy_calls s !! c) as [call0|] eqn:E; [|done].
    injection Hc as <-. eapply Hf; eauto.
  - rewrite list_lookup_alter_ne in Hc by done. by eapply H3.
Qed.

Lemma tidy_same s s' :
  sy_calls s' = sy_calls s → sy_tuis s' = sy_tuis s → sy_attached s' = sy_attached s →
  tidy s → tidy s'.
Proof.
  intros Hc Ht Ha [H1 H2 H3]. split.
  - intros n t. rewrite Ht, Ha. apply H1.
  - intros n. unfold listed. rewrite Ht, Ha. apply H2.
  - intros n t c call. rewrite Ht, Hc. apply H3.
Qed.

(** Pushing a message: only prompts of the call of a job change. *)
Lemma tidy_push n m s :
  (∀ r c, m = IJob r c → ∀ call, sy_calls s !! c = Some call → ∀ t, prompt_ok n t c call) →
  tidy s → tidy (push n m s).
Proof.
  intros Hm [H1 H2 H3].
  assert (∀ n', listed n' (push n m s) = listed n' s) as Ha.
  { intros n'. unfold listed, push, on_tui; cbn. destruct (decide (n' = n)) as [->|Hne].
    - rewrite lookup_alter_eq. destruct (sy_tuis s !! n) as [t|]; [|done]. cbn. by destruct (tu_phase t) eqn:E; cbn; rewrite ?E.
    - by rewrite lookup_alter_ne. }
  assert (∀ n' t', sy_tuis (push n m s) !! n' = Some t' → tu_phase t' = Serving →
    ∃ t ms, sy_tuis s !! n' = Some t ∧ tu_phase t = Serving ∧ t' = set_inbox (tu_inbox t ++ ms) t
      ∧ (ms = [] ∨ ms = [m] ∧ n' = n)) as Hback.
  { intros n' t' Ht' Hp. unfold push, on_tui in Ht'; cbn in Ht'.
    destruct (decide (n' = n)) as [->|Hne].
    - rewrite lookup_alter_eq in Ht'. destruct (sy_tuis s !! n) as [t|]; [|done].
      injection Ht' as <-. destruct (tu_phase t) eqn:E; cbn in Hp; try congruence.
      exists t, [m]. split_and!; auto.
    - rewrite lookup_alter_ne in Ht' by done. exists t', []. rewrite app_nil_r.
      split_and!; [done..|by destruct t'|by left]. }
  split.
  - intros n' t' Ht' Hp. destruct (Hback n' t' Ht' Hp) as (t & ms & Ht & Hpt & _). by eapply H1.
  - intros n' Hin. rewrite Ha. by apply H2.
  - intros n' t' c call Ht' Hp Hpr Hc. destruct (Hback n' t' Ht' Hp) as (t & ms & Ht & Hpt & -> & Hms).
    assert ((∀ r, IJob r c ∉ ms) ∨ ∃ r, m = IJob r c ∧ n' = n) as [Hno|(r & -> & ->)].
    { destruct Hms as [->|[-> ->]]; [left; by intros r ?%elem_of_nil|].
      destruct m as [r c'| | | | | | |]; try (left; by intros r' ?%list_elem_of_singleton).
      destruct (decide (c' = c)) as [->|Hne]; [right; eauto|].
      left. intros r' Hr%list_elem_of_singleton. congruence. }
    + apply prompt_ok_extend; [done|]. eapply H3; [done..| |exact Hc]. by eapply prompts_extend.
    + by eapply Hm.
Qed.

(** What [provenance] says of a prompt. *)
Lemma prompt_request evs s n t c :
  provenance evs s → sy_tuis s !! n = Some t → prompts t c →
  ∃ call r, sy_calls s !! c = Some call ∧ ca_request call = Some r
    ∧ ∀ id, bt_get id (tu_waiting t) = Some c → id = rq_id r.
Proof.
  intros H Ht Hp. destruct (pv_tuis _ _ H n t Ht) as [Hi Hw].
  assert (∃ call r, sy_calls s !! c = Some call ∧ ca_request call = Some r) as (call & r & Hc & Hr).
  { destruct Hp as [[r Hr]|[id Hid]].
    - rewrite Forall_forall in Hi. destruct (Hi _ Hr) as (call & Hc & Hr'). eauto.
    - destruct (Hw id c Hid) as (r & (call & Hc & Hr) & _). eauto. }
  exists call, r. split_and!; [done..|]. intros id Hid.
  destruct (Hw id c Hid) as (r' & (call' & Hc' & Hr') & <- & _). congruence.
Qed.

Lemma tidy_finish c answer s :
  (∀ n t call, sy_tuis s !! n = Some t → tu_phase t = Serving → n ∈ sy_attached s →
     prompts t c → sy_calls s !! c = Some call → prompt_ok n t c call →
     prompt_ok n t c (set_phase (Done answer) call)) →
  tidy s → tidy (finish c answer s).
Proof.
  intros Hf H. destruct (finish_fields c answer s) as (Hc & Ht & Ha & _).
  apply (tidy_same (on_call c (set_phase (Done answer)) s)); [done..|]. by apply tidy_on_call.
Qed.

Lemma push_lookup n m s n' :
  sy_tuis (push n m s) !! n' =
    (if decide (n' = n)
     then (λ t, match tu_phase t with Closed => t | _ => set_inbox (tu_inbox t ++ [m]) t end) <$> sy_tuis s !! n
     else sy_tuis s !! n').
Proof.
  unfold push, on_tui; cbn. case_decide as H; [subst; apply lookup_alter_eq|by apply lookup_alter_ne].
Qed.

Lemma tidy_withdraw evs c call n l h b reason s :
  sy_calls s !! c = Some call → ca_phase call = Awaiting n l h b →
  provenance evs s → tidy s → tidy (withdraw c n reason s).
Proof.
  intros Hc Hp Hprov H. unfold withdraw. apply tidy_finish; [|by apply tidy_push].
  intros n' t' call' Ht' Hs _ Hpr Hc' Hok. cbn in Hc'. rewrite Hc in Hc'. injection Hc' as <-.
  unfold prompt_ok in Hok. rewrite Hp in Hok. subst n'.
  rewrite push_lookup, decide_True in Ht' by done.
  destruct (sy_tuis s !! n) as [t|] eqn:Et; [|done]. injection Ht' as <-.
  assert (prompts t c) as Hpr'.
  { destruct (tu_phase t); try done; eapply (prompts_extend t [_]); try exact Hpr;
      by intros r ?%list_elem_of_singleton. }
  destruct (prompt_request _ _ _ _ _ Hprov Et Hpr') as (call0 & r & Hc0 & Hr & _).
  rewrite Hc in Hc0. injection Hc0 as <-. exists r. split; [done|].
  destruct (tu_phase t) eqn:Ep; cbn in Hs; try congruence.
  exists (tu_inbox t), []. cbn. rewrite Hc. cbn. rewrite Hr. split; [done|]. by intros r' ?%elem_of_nil.
Qed.

Lemma tidy_micro evs c s s' : provenance evs s → micro c s s' → tidy s → tidy s'.
Proof.
  intros Hprov Hm H. destruct Hm as
    [s' Hq|call e Hc Ho Hn|call n l h b reason Hc Hp|call n l h b answer replies Hc Hp Hr
    |f call Hc Ht Hreq _ _ _ _|call n request Hc Hp
    |call n request files Hc Hp Hr|call n request owner Hc Hp Hr Hs Ho|call n request l Hc Hp Hr Ha _].
  - by eapply tidy_quiet.
  - apply tidy_finish; [|done]. intros n t call' Htui Hs Hatt Hpr Hc' Hok.
    rewrite Hc in Hc'. injection Hc' as <-. unfold prompt_ok in Hok.
    destruct (ca_phase call) as [| | |n' l h b|] eqn:Ep; try done.
    + subst n'. by destruct (Hn n l h b).
    + unfold open_call in Ho. by rewrite Ep in Ho.
  - by eapply tidy_withdraw.
  - assert (∃ a, answer = Ok a) as [a ->].
    { destruct (pv_calls _ _ Hprov c call Hc) as [Hrep _]. rewrite Hr in Hrep.
      apply Forall_cons_1 in Hrep as [Ho _]. destruct answer as [a|e]; [eauto|done]. }
    apply tidy_finish; [by intros|]. apply tidy_on_call; [|done].
    intros n' t call' _ _ _ _ _. done.
  - apply tidy_on_call; [|done]. intros n t call' Htui Hs Hatt Hpr Hc'.
    rewrite Hc in Hc'. injection Hc' as <-. unfold prompt_ok. rewrite Hreq.
    destruct Ht; try done. by intros ->.
  - apply tidy_on_call; [|done]. intros n' t call' Htui Hs Hatt Hpr Hc'.
    rewrite Hc in Hc'. injection Hc' as <-. unfold prompt_ok. by rewrite Hp.
  - by apply (tidy_same s).
  - by apply (tidy_same s).
  - apply (tidy_same (push n (IJob request c) (on_call c (set_phase (Awaiting n l (sy_now s) false)) s)));
      [done..|].
    apply tidy_push.
    + intros r c' [= <- <-] call' Hc' t. cbn in Hc'. rewrite list_lookup_alter_eq, Hc in Hc'.
      by injection Hc' as <-.
    + apply tidy_on_call; [|done]. intros n' t call' Htui Hs Hatt Hpr Hc'.
      rewrite Hc in Hc'. injection Hc' as <-. unfold prompt_ok. by rewrite Hp.
Qed.

(** A change to one TUI that neither starts serving nor prompts anew. *)
Lemma tidy_on_tui n f s :
  (∀ t, sy_tuis s !! n = Some t → tu_phase (f t) = Serving → tu_phase t = Serving) →
  (∀ t, sy_tuis s !! n = Some t → n ∈ sy_attached s → tu_phase (f t) = tu_phase t ∨ tu_phase (f t) = Left) →
  (∀ t c call, sy_tuis s !! n = Some t → tu_phase (f t) = Serving → prompts (f t) c →
     sy_calls s !! c = Some call →
     prompts t c ∧ (prompt_ok n t c call → prompt_ok n (f t) c call)) →
  tidy s → tidy (on_tui n f s).
Proof.
  intros Hs Hcl Hp [H1 H2 H3]. split.
  - intros n' t' Ht' Hph. cbn in *. destruct (decide (n' = n)) as [->|Hne].
    + rewrite lookup_alter_eq in Ht'. destruct (sy_tuis s !! n) as [t|] eqn:E; [|done].
      injection Ht' as <-. eapply H1; eauto.
    + rewrite lookup_alter_ne in Ht' by done. by eapply H1.
  - intros n' Hin. cbn in *. pose proof (H2 n' Hin) as Ha. unfold listed in *. cbn.
    destruct (decide (n' = n)) as [->|Hne]; [|by rewrite lookup_alter_ne].
    rewrite lookup_alter_eq. destruct (sy_tuis s !! n) as [t|] eqn:E; [|done]. cbn.
    by destruct (Hcl t eq_refl Hin) as [-> | ->].
  - intros n' t' c call Ht' Hph Hpr Hc. cbn in *. destruct (decide (n' = n)) as [->|Hne].
    + rewrite lookup_alter_eq in Ht'. destruct (sy_tuis s !! n) as [t|] eqn:E; [|done].
      injection Ht' as <-. destruct (Hp t c call eq_refl Hph Hpr Hc) as [Hpr' Hok].
      apply Hok. eapply H3; eauto.
    + rewrite lookup_alter_ne in Ht' by done. by eapply H3.
Qed.

Lemma handle_own_inbox m ok t : tu_inbox (handle_own m ok t) = tu_inbox t.
Proof. destruct m, ok; cbn; try done; by destruct (bt_contains _ _). Qed.

Lemma handle_own_waiting m ok t id c :
  bt_get id (tu_waiting (handle_own m ok t)) = Some c →
  (bt_get id (tu_waiting t) = Some c ∧ m ≠ IWithdraw id) ∨ ∃ r, m = IJob r c ∧ rq_id r = id.
Proof.
  destruct m; cbn; intros Hg; try (destruct ok; cbn in Hg; by left).
  - destruct ok; cbn in Hg; [|by left]. rewrite bt_get_insert in Hg.
    destruct (decide (rq_id request = id)) as [<-|]; [|by left].
    injection Hg as ->. right. eauto.
  - left. destruct (bt_contains id0 (tu_waiting t)) eqn:Ec.
    + assert (bt_get id (bt_remove id0 (tu_waiting t)) = Some c) as Hg' by (by destruct ok).
      split; [by apply bt_get_remove_Some in Hg'|]. intros [= ->].
      by rewrite bt_get_remove_eq in Hg'.
    + split; [done|]. intros [= ->]. unfold bt_contains in Ec. by rewrite Hg in Ec.
  - left. split; [by apply bt_get_remove_Some in Hg|done].
Qed.

Lemma handle_own_phase m ok t :
  tu_phase (handle_own m ok t) = tu_phase t ∨ tu_phase (handle_own m ok t) = Left.
Proof. destruct m, ok; cbn; auto; destruct (bt_contains _ _); auto. Qed.

Lemma tidy_serve evs n ok s s' :
  serve_tui n ok s = Some s' → provenance evs s → tidy s → tidy s'.
Proof.
  unfold serve_tui. destruct (sy_tuis s !! n) as [t|] eqn:En; [|done]. cbn.
  destruct (tu_phase t) eqn:Ep; try done. destruct (tu_inbox t) as [|m inbox] eqn:Ei; [done|].
  intros [= <-] Hprov H.
  set (f := λ t, handle_own m ok (set_inbox inbox t)).
  assert (tidy (on_tui n f s)) as H1.
  { apply tidy_on_tui; [| | |done]; intros t'.
    - intros Ht'. rewrite En in Ht'. by injection Ht' as <-.
    - intros _ _. apply (handle_own_phase m ok (set_inbox inbox t')).
    - intros c call Ht' Hph Hpr Hc. rewrite En in Ht'. injection Ht' as <-.
      assert (prompts t c) as Hpr'.
      { destruct Hpr as [[r Hr]|[id Hid]].
        - unfold f in Hr. rewrite handle_own_inbox in Hr. left. exists r. rewrite Ei. by right.
        - apply handle_own_waiting in Hid as [[Hid _]|(r & -> & _)]; [by right; exists id|].
          left. exists r. rewrite Ei. left. }
      split; [done|]. unfold prompt_ok. destruct (ca_phase call) as [| | | |[a|e]]; try done.
      intros (r & Hr & l & k & El & Hk). exists r. split; [done|].
      rewrite Ei in El. destruct l as [|m' l]; cbn in El; injection El as -> ->.
      + exfalso. destruct Hpr as [[r' Hr']|[id Hid]].
        * unfold f in Hr'. rewrite handle_own_inbox in Hr'. by apply Hk in Hr'.
        * apply handle_own_waiting in Hid as [[Hid Hne]|(r' & ? & _)]; [|done].
          destruct (prompt_request _ _ _ _ _ Hprov En Hpr') as (call' & r' & Hc' & Hr' & Hids).
          rewrite Hc in Hc'. injection Hc' as <-. apply Hids in Hid. congruence.
      + exists l, k. unfold f. by rewrite handle_own_inbox. }
  assert (∀ c o s1, tidy s1 → tidy (send_reply c o s1)) as Hreply.
  { intros c o s1 Hs1. apply tidy_on_call; [|done]. intros n' t' call _ _ _ _ _.
    unfold prompt_ok. by destruct (ca_phase call) eqn:E; cbn; rewrite ?E. }
  destruct m; cbn [handle_others]; try done; destruct (bt_get _ _) as [c|]; try done;
    apply Hreply; [|done]. by eapply tidy_same; [| | |exact H1].
Qed.

Section PromptRuns.
Context (proc_stat : Z → option string) (process_info : Z → ProcessInfo).
Context (open_artifacts : Artifacts.SigningRequest → result string (list (string * list Z))).
Context (deadline heartbeat : Z).
Notation step := (step proc_stat process_info open_artifacts deadline heartbeat).
Notation run := (run proc_stat process_info open_artifacts deadline heartbeat).

Lemma tidy_start evs ask s : provenance evs s → tidy s → tidy (start ask s).
Proof.
  intros Hprov H. unfold start.
  assert (∀ call s', sy_calls s' = sy_calls s → sy_tuis s' = sy_tuis s → tidy s' →
    tidy (set_calls (sy_calls s' ++ [call]) s')) as Hnew.
  { intros call s' Hc Ht [H1 H2 H3]. split; [exact H1|exact H2|].
    intros n t c call' Htui Hp Hpr Hcall. cbn in *. apply lookup_app_Some in Hcall as [Hcall|[Hle Hcall]].
    { by eapply H3. }
    rewrite Ht in Htui.
    destruct (prompt_request _ _ _ _ _ Hprov Htui Hpr) as (call0 & r & Hc0 & _).
    apply lookup_lt_Some in Hc0. rewrite Hc in Hle. lia. }
  repeat (destruct (_ : bool); [by apply Hnew|]).
  unfold claim. destruct (_ <? _); [|by apply Hnew].
  apply Hnew; [done..|]. by apply (tidy_same s).
Qed.

Lemma tidy_step evs e s s' : step e s = Some s' → provenance evs s → tidy s → tidy s'.
Proof.
  intros E Hprov H. destruct (event_call e) as [c|] eqn:Ee.
  { eapply event_micro in E; [|exact Ee]. clear Ee.
    induction E as [|s s1 s2 Hm _ IH]; [done|].
    apply IH; [by eapply provenance_micro|by eapply tidy_micro]. }
  destruct e; try done; cbn [Operators.step] in E.
  - destruct (0 <=? elapsed); [|done]. injection E as <-. by apply (tidy_same s).
  - injection E as <-. by eapply tidy_start.
  - unfold attach in E. destruct (sy_tuis s !! session) as [t0|] eqn:En; [done|].
    set (t := if ok then _ else _) in E. injection E as <-.
    assert (tu_inbox t = [] ∧ tu_waiting t = [] ∧ tu_phase t ≠ Closed) as (Hi & Hw & Hph)
      by (subst t; by destruct ok).
    assert (tu_phase t = Serving ∨ tu_phase t = Left) as Hpl by (subst t; destruct ok; auto).
    destruct H as [H1 H2 H3]. split; cbn.
    + intros n t' [[<- <-]|[Hne Ht']]%lookup_insert_Some Hp; apply elem_of_app; [right; left|left].
      by eapply H1.
    + intros n Hin. unfold listed. cbn. destruct (decide (n = session)) as [->|Hne].
      * rewrite lookup_insert_eq. by destruct Hpl as [-> | ->].
      * rewrite lookup_insert_ne by done. apply elem_of_app in Hin as [Hin|Hin]; [by apply H2|].
        by apply list_elem_of_singleton in Hin.
    + intros n t' c call [[<- <-]|[Hne Ht']]%lookup_insert_Some Hp Hpr Hc; [|by eapply H3].
      exfalso. destruct Hpr as [[r Hr]|[id Hid]]; [rewrite Hi in Hr; by apply elem_of_nil in Hr|].
      by rewrite Hw in Hid.
  - unfold reads in E. destruct (sy_tuis s !! session) as [t|] eqn:En; [|done]. cbn in E.
    destruct (tu_reading t); [|done]. injection E as <-.
    apply tidy_on_tui; [by intros|by left|by intros|].
    apply tidy_push; [|done]. intros r c Hm. by destruct m.
  - by eapply tidy_serve.
  - unfold beat_tui in E. destruct (sy_tuis s !! session) as [t|] eqn:En; [|done]. cbn in E.
    destruct (tu_phase t) eqn:Ep; try done. destruct (tu_inbox t) eqn:Ei; [|done].
    destruct (_ <=? _); [|done]. injection E as <-.
    apply tidy_on_tui; [| | |done]; intros t'; rewrite En;
      [by destruct ok|intros [= <-] _; destruct ok; auto|].
    intros c call [= <-]. destruct ok; cbn; [|done]. intros _ Hpr _. split; [done|]. done.
  - unfold leave_tui in E. destruct (sy_tuis s !! session) as [t|] eqn:En; [|done]. cbn in E.
    destruct (tu_phase t) eqn:Ep; try done; injection E as <-.
    + (* its sessions leave [attached] with the change *)
      destruct H as [H1 H2 H3]. split; cbn.
      * intros n t' Ht' Hp. apply list_elem_of_filter.
        destruct (decide (n = session)) as [->|Hne].
        { rewrite lookup_alter_eq, En in Ht'. by injection Ht' as <-. }
        rewrite lookup_alter_ne in Ht' by done. split; [done|]. by eapply H1.
      * intros n [Hne Hin]%list_elem_of_filter. unfold listed. cbn.
        rewrite lookup_alter_ne by done. by apply H2.
      * intros n t' c call Ht' Hp Hpr Hc. destruct (decide (n = session)) as [->|Hne].
        { rewrite lookup_alter_eq, En in Ht'. by injection Ht' as <-. }
        rewrite lookup_alter_ne in Ht' by done. by eapply H3.
    + assert (session ∉ sy_attached s) as Hna.
      { intros Hin. pose proof (td_listed _ H _ Hin) as Hl. unfold listed in Hl. by rewrite En, Ep in Hl. }
      apply tidy_on_tui; [by intros|by intros|by intros|]. by apply (tidy_same s).
  - injection E as <-. unfold check_closure. repeat case_match; try done; by apply (tidy_same s).
  - injection E as <-. eapply tidy_quiet; [|done]. apply quiet_news, news_procedure_request.
  - injection E as <-. eapply tidy_quiet; [|done]. apply quiet_news, news_end_grants.
Qed.

Lemma tidy_run evs s : run evs operators_default = Some s → tidy s.
Proof.
  apply (run_ind _ _ _ _ _ (λ _ s, tidy s)).
  - split; cbn; [intros n t H; by rewrite lookup_empty in H|by intros n ?%elem_of_nil|].
    intros n t c call H. by rewrite lookup_empty in H.
  - intros evs' e s1 s2 Hrun H E. eapply tidy_step; [exact E| |done]. by eapply provenance_run.
Qed.

(** A TUI never keeps a prompt for a request that failed: while its thread
    runs, each request in its waiting map belongs to a call that waits for
    this very TUI, or that was answered, or whose withdrawal is already queued
    for the TUI. *)
Theorem prompts_are_live evs s n t id c :
  run evs operators_default = Some s →
  sy_tuis s !! n = Some t → tu_phase t = Serving → bt_get id (tu_waiting t) = Some c →
  ∃ call r, sy_calls s !! c = Some call ∧ ca_request call = Some r ∧ rq_id r = id
    ∧ match ca_phase call with
      | Awaiting n' _ _ _ => n' = n
      | Done (Ok _) => True
      | Done (Err _) => IWithdraw id ∈ tu_inbox t
      | _ => False
      end.
Proof.
  intros Hrun Ht Hp Hg. pose proof (provenance_run _ _ _ _ _ _ _ Hrun) as Hprov.
  assert (prompts t c) as Hpr by (right; by exists id).
  destruct (prompt_request _ _ _ _ _ Hprov Ht Hpr) as (call & r & Hc & Hr & Hid).
  apply Hid in Hg as ->. exists call, r. split_and!; [done..|].
  pose proof (td_prompts _ (tidy_run _ _ Hrun) n t c call Ht Hp Hpr Hc) as Hok.
  unfold prompt_ok in Hok. destruct (ca_phase call) as [| | | |[a|e]]; try done.
  destruct Hok as (r' & Hr' & l & k & -> & _). rewrite Hr in Hr'. injection Hr' as <-.
  apply elem_of_app. right. left.
Qed.
End PromptRuns.

(** ** A requester that leaves *)
(** A call that reached a TUI has its request. *)
Definition asked (s : Sys) : Prop :=
  ∀ c call, sy_calls s !! c = Some call →
    match ca_phase call with Sending _ | Awaiting _ _ _ _ => ca_request call ≠ None | _ => True end.

Lemma asked_calls s s' : sy_calls s' = sy_calls s → asked s → asked s'.
Proof. unfold asked. by intros ->. Qed.

Lemma asked_on_call c f s :
  (∀ call, sy_calls s !! c = Some call →
     match ca_phase (f call) with Sending _ | Awaiting _ _ _ _ => ca_request (f call) ≠ None | _ => True end) →
  asked s → asked (on_call c f s).
Proof.
  intros Hf H c' call Hc. cbn in Hc. destruct (decide (c' = c)) as [->|Hne].
  - rewrite list_lookup_alter_eq in Hc. destruct (sy_calls s !! c) as [call0|] eqn:E; [|done].
    injection Hc as <-. by apply Hf.
  - rewrite list_lookup_alter_ne in Hc by done. by apply (H c').
Qed.

Lemma asked_finish c answer s : asked s → asked (finish c answer s).
Proof.
  intros H. destruct (finish_fields c answer s) as (Hc & _).
  apply (asked_calls (on_call c (set_phase (Done answer)) s)); [done|]. by apply asked_on_call.
Qed.

Lemma asked_micro c s s' : micro c s s' → asked s → asked s'.
Proof.
  intros Hm H. destruct Hm as
    [s' Hq|call e Hc Ho Hn|call n l h b reason Hc Hp|call n l h b answer replies Hc Hp Hr
    |f call Hc Ht Hreq _ _ Hs _|call n request Hc Hp
    |call n request files Hc Hp Hr|call n request owner Hc Hp Hr Hs Ho|call n request l Hc Hp Hr Ha _].
  - by apply (asked_calls s), H; destruct Hq.
  - by apply asked_finish.
  - by apply asked_finish, (asked_calls s).
  - apply asked_finish, asked_on_call; [|done]. intros call' Hc'. apply (H c call' Hc').
  - apply asked_on_call; [|done]. intros call' Hc'. rewrite Hc in Hc'. injection Hc' as <-.
    pose proof (H c call Hc) as Hold. destruct (ca_phase (f call)) eqn:Ep; try done; rewrite Hreq.
    + by eapply Hs.
    + inversion Ht as [| | |n' l' h' b' ? ? ? E| |]; subst. by rewrite <- E in Hold.
  - by apply asked_on_call.
  - by apply (asked_calls s).
  - by apply (asked_calls s).
  - apply asked_on_call; [|by apply (asked_calls s)]. intros call' Hc'. cbn in Hc'.
    rewrite Hc in Hc'. injection Hc' as <-. cbn. by rewrite Hr.
Qed.

Section LeaveRuns.
Context (proc_stat : Z → option string) (process_info : Z → ProcessInfo).
Context (open_artifacts : Artifacts.SigningRequest → result string (list (string * list Z))).
Context (deadline heartbeat : Z).
Notation step := (step proc_stat process_info open_artifacts deadline heartbeat).
Notation run := (run proc_stat process_info open_artifacts deadline heartbeat).

Lemma asked_step e s s' : step e s = Some s' → asked s → asked s'.
Proof.
  intros E H. destruct (event_call e) as [c|] eqn:Ee.
  { eapply event_micro in E; [|exact Ee]. clear Ee.
    induction E as [|s s1 s2 Hm _ IH]; [done|]. apply IH. by eapply asked_micro. }
  destruct e; try done; cbn [Operators.step] in E.
  - destruct (0 <=? elapsed); [|done]. by injection E as <-.
  - injection E as <-. unfold start.
    assert (∀ call s', sy_calls s' = sy_calls s → (∀ n, ca_phase call ≠ Sending n) →
      (∀ n l h b, ca_phase call ≠ Awaiting n l h b) → asked (set_calls (sy_calls s' ++ [call]) s')) as Hnew.
    { intros call s' Hs' Hn1 Hn2 c call' Hc. cbn in Hc. rewrite Hs' in Hc.
      apply lookup_app_Some in Hc as [Hc|[_ Hc]]; [by apply (H c)|].
      apply list_lookup_singleton_Some in Hc as [_ <-].
      destruct (ca_phase call) eqn:Ep; try done; [by destruct (Hn1 session)|by edestruct Hn2]. }
    repeat (destruct (_ : bool); [by apply Hnew|]).
    unfold claim. destruct (_ <? _); by apply Hnew.
  - unfold attach in E. destruct (sy_tuis s !! session); [done|]. by injection E as <-.
  - unfold reads in E. destruct (sy_tuis s !! session) as [t|]; [|done]. cbn in E.
    destruct (tu_reading t); [|done]. by injection E as <-.
  - unfold serve_tui in E. destruct (sy_tuis s !! session) as [t|]; [|done]. cbn in E.
    destruct (tu_phase t); try done. destruct (tu_inbox t) as [|m inbox]; [done|]. injection E as <-.
    assert (∀ c o s1, asked s1 → asked (send_reply c o s1)) as Hr.
    { intros c o s1 H1. apply asked_on_call; [|done]. intros call Hc. pose proof (H1 c call Hc) as Ha.
      by destruct (ca_phase call) eqn:Ep; cbn; rewrite ?Ep. }
    destruct m; cbn [handle_others]; try done; destruct (bt_get _ _); try done; by apply Hr.
  - unfold beat_tui in E. destruct (sy_tuis s !! session) as [t|]; [|done]. cbn in E.
    destruct (tu_phase t); try done. destruct (tu_inbox t); [|done].
    destruct (_ <=? _); [|done]. by injection E as <-.
  - unfold leave_tui in E. destruct (sy_tuis s !! session) as [t|]; [|done]. cbn in E.
    destruct (tu_phase t); try done; by injection E as <-.
  - injection E as <-. unfold check_closure. repeat case_match; done.
  - injection E as <-. eapply asked_calls; [|done]. apply nw_calls, news_procedure_request.
  - injection E as <-. eapply asked_calls; [|done]. apply nw_calls, news_end_grants.
Qed.

Lemma asked_run evs s : run evs operators_default = Some s → asked s.
Proof.
  apply (run_ind _ _ _ _ _ (λ _ s, asked s)); [by intros [|c] call|].
  intros evs' e s1 s2 _ H E. by eapply asked_step.
Qed.

(** The events of call [c] once its requester hung up. *)
Definition leaving (c : nat) (e : Event) : Prop :=
  match e with
  | EvSearch c' gone _ | EvPoll c' gone _ => c' = c ∧ gone = true
  | EvBuild c' random => c' = c
  | EvSend c' | EvReceive c' _ | EvTimeOut c' => c' = c
  | _ => False
  end.

(** How many of its own events a call can still take. *)
Definition level (s : Sys) (p : Phase) : nat :=
  match p with
  | Done _ => 0
  | Awaiting n _ _ _ => if is_attached n s then 1 else 5
  | Sending n => if is_attached n s then 2 else 6
  | Found n => if is_attached n s then 3 else 7
  | Searching _ _ => 4
  end.
Definition unpolled (p : Phase) : nat := match p with Awaiting _ _ _ false => 1 | _ => 0 end.
Definition left_over (s : Sys) (call : Call) : nat :=
  2 * level s (ca_phase call) + 2 * length (ca_replies call) + unpolled (ca_phase call).

(** [c] is in phase [p] of a call that otherwise is [call], with no more replies. *)
Definition moved_to (s s' : Sys) (c : nat) (call : Call) (p : Phase) (replies : list Outcome) : Prop :=
  ∃ call', sy_calls s' !! c = Some call' ∧ ca_phase call' = p ∧ ca_replies call' = replies
    ∧ ca_ask call' = ca_ask call ∧ ∀ n, is_attached n s' = is_attached n s.

Lemma moved_decreases s s' c call p replies :
  moved_to s s' c call p replies →
  (2 * level s p + 2 * length replies + unpolled p < left_over s call)%nat →
  ∃ call', sy_calls s' !! c = Some call' ∧ ca_ask call' = ca_ask call
    ∧ (left_over s' call' < left_over s call)%nat.
Proof.
  intros (call' & Hc & <- & <- & Ha & Hatt) Hl. exists call'. split_and!; [done..|].
  assert (level s' (ca_phase call') = level s (ca_phase call')) as E
    by (unfold level; destruct (ca_phase call'); by rewrite ?Hatt).
  unfold left_over at 1. by rewrite E.
Qed.

Lemma moved_on_call s s1 c call f :
  sy_calls s1 !! c = Some call → (∀ n, is_attached n s1 = is_attached n s) →
  ca_ask (f call) = ca_ask call →
  moved_to s (on_call c f s1) c call (ca_phase (f call)) (ca_replies (f call)).
Proof.
  intros Hc Ha Hf. exists (f call). cbn. rewrite list_lookup_alter_eq, Hc. done.
Qed.

Lemma moved_finish s s1 c call answer :
  sy_calls s1 !! c = Some call → (∀ n, is_attached n s1 = is_attached n s) →
  moved_to s (finish c answer s1) c call (Done answer) (ca_replies call).
Proof.
  intros Hc Ha. destruct (finish_fields c answer s1) as (Ec & _ & Ea & _).
  exists (set_phase (Done answer) call). rewrite Ec, list_lookup_alter_eq, Hc.
  split_and!; [done..|]. intros n. unfold is_attached. rewrite Ea. apply Ha.
Qed.

(** [went_away] from a phase above [Searching]. *)
Lemma moved_went_away s s1 c call request :
  sy_calls s1 !! c = Some call → (∀ n, is_attached n s1 = is_attached n s) →
  ∃ p, moved_to s (went_away c request s1) c call p (ca_replies call) ∧ (level s p ≤ 4)%nat
    ∧ unpolled p = 0%nat.
Proof.
  intros Hc Ha. unfold went_away. destruct (is_some _).
  - eexists. split; [by apply moved_finish|]. cbn. lia.
  - eexists. split; [by eapply moved_on_call|]. cbn. lia.
Qed.

Lemma leaving_search s c call announce hb ok s' :
  sy_calls s !! c = Some call → ca_phase call = Searching announce hb →
  ak_stream (ca_ask call) = true → search heartbeat c true ok s = Some s' →
  ∃ call', sy_calls s' !! c = Some call' ∧ ca_ask call' = ca_ask call
    ∧ (left_over s' call' < left_over s call)%nat.
Proof.
  intros Hc Hp Hs E. unfold search in E. rewrite Hc in E. cbn in E. rewrite Hp in E.
  destruct (latest s) as [n|] eqn:El.
  - injection E as <-. eapply moved_decreases; [by eapply moved_on_call|].
    assert (is_attached n s = true) as Hn.
    { apply bool_decide_eq_true. unfold latest in El. apply last_Some in El as [l ->].
      apply elem_of_app. right. left. }
    unfold left_over. rewrite Hp. cbn. destruct (ca_request call); cbn; rewrite Hn; lia.
  - rewrite Hs in E. cbn in E. injection E as <-.
    eapply moved_decreases; [by eapply moved_finish|]. unfold left_over. rewrite Hp. cbn. lia.
Qed.

Lemma leaving_build s c call n random s' :
  sy_calls s !! c = Some call → ca_phase call = Found n →
  build proc_stat process_info open_artifacts c random s = Some s' →
  ∃ call', sy_calls s' !! c = Some call' ∧ ca_ask call' = ca_ask call
    ∧ (left_over s' call' < left_over s call)%nat.
Proof.
  intros Hc Hp E. unfold build in E. rewrite Hc in E. cbn in E. rewrite Hp in E.
  pose proof (news_number_request proc_stat (ca_ask call) s) as Hn.
  destruct (number_request proc_stat (ca_ask call) s) as [procedure s1]. cbn [snd] in Hn.
  assert (∀ s2, sy_calls s2 = sy_calls s1 → sy_attached s2 = sy_attached s1 →
    sy_calls s2 !! c = Some call ∧ ∀ m, is_attached m s2 = is_attached m s) as Hsame.
  { intros s2 Hc2 Ha2. rewrite Hc2, (nw_calls _ _ Hn). split; [done|].
    intros m. unfold is_attached. by rewrite Ha2, (nw_attached _ _ Hn). }
  assert (∀ e s2, sy_calls s2 = sy_calls s1 → sy_attached s2 = sy_attached s1 →
    ∃ call', sy_calls (finish c (Err e) s2) !! c = Some call' ∧ ca_ask call' = ca_ask call
    ∧ (left_over (finish c (Err e) s2) call' < left_over s call)%nat) as Hf.
  { intros e s2 Hc2 Ha2. destruct (Hsame s2 Hc2 Ha2) as [Hcs Has].
    eapply moved_decreases; [by eapply moved_finish|].
    unfold left_over. rewrite Hp. cbn. destruct (is_attached n s); lia. }
  destruct procedure as [procedure|e]; [|injection E as <-; by apply Hf].
  destruct random as [random|e]; [|injection E as <-; by apply Hf].
  assert (∀ s2 r, sy_calls s2 = sy_calls s1 → sy_attached s2 = sy_attached s1 →
    let s' := on_call c (λ call, set_phase (Sending n) (set_request r call)) s2 in
    ∃ call', sy_calls s' !! c = Some call' ∧ ca_ask call' = ca_ask call
    ∧ (left_over s' call' < left_over s call)%nat) as Hk.
  { intros s2 r Hc2 Ha2. destruct (Hsame s2 Hc2 Ha2) as [Hcs Has].
    eapply moved_decreases; [by eapply moved_on_call|].
    unfold left_over. rewrite Hp. cbn. destruct (is_attached n s); lia. }
  destruct (ak_artifact_signature (ca_ask call)) as [signing|].
  - destruct (open_artifacts signing) as [files|e]; injection E as <-; [by apply Hk|by apply Hf].
  - injection E as <-. by apply Hk.
Qed.

Lemma leaving_send s c call n s' :
  tidy s → sy_calls s !! c = Some call → ca_phase call = Sending n →
  send deadline c s = Some s' →
  ∃ call', sy_calls s' !! c = Some call' ∧ ca_ask call' = ca_ask call
    ∧ (left_over s' call' < left_over s call)%nat.
Proof.
  intros Htidy Hc Hp E. unfold send in E. rewrite Hc in E. cbn in E.
  destruct (ca_request call) as [request|]; [|done]. cbn in E. rewrite Hp in E.
  destruct (match rq_closure_signature request with Some _ => _ | None => _ end) as [s1|e] eqn:E1.
  2:{ injection E as <-. eapply moved_decreases; [by eapply moved_finish|].
      unfold left_over. rewrite Hp. cbn. destruct (is_attached n s); lia. }
  assert (sy_calls s1 = sy_calls s ∧ sy_tuis s1 = sy_tuis s ∧ sy_attached s1 = sy_attached s)
    as (Hc1 & Ht1 & Ha1).
  { destruct (rq_closure_signature request); [|by injection E1 as <-].
    destruct (sy_operator_peers s !! n); [|done]. destruct (ak_stream _); [|done].
    by injection E1 as <-. }
  assert (∀ m, is_attached m s1 = is_attached m s) as Hatt by (intros m; unfold is_attached; by rewrite Ha1).
  rewrite <- Hc1 in Hc.
  destruct (accepts n s1) eqn:Ea; injection E as <-.
  - eapply moved_decreases; [by eapply moved_on_call|].
    unfold left_over. rewrite Hp. cbn. destruct (is_attached n s); lia.
  - assert (n ∉ sy_attached s) as Hn.
    { intros Hin. apply (td_listed _ Htidy) in Hin. apply listed_accepts in Hin.
      unfold accepts in Ea, Hin. rewrite Ht1 in Ea. congruence. }
    destruct (moved_went_away s (detach n s1) c call request Hc) as (p & Hm & Hl & Hu).
    { intros m. unfold is_attached, detach. cbn. rewrite Ha1. apply bool_decide_ext.
      rewrite list_elem_of_filter. split; [by intros [_ ?]|]. intros Hin. split; [|done]. by intros ->. }
    eapply moved_decreases; [exact Hm|]. unfold left_over. rewrite Hp. cbn.
    unfold is_attached. rewrite bool_decide_eq_false_2 by done. lia.
Qed.

Lemma leaving_receive s c call n l hb ok s' :
  sy_calls s !! c = Some call → ca_phase call = Awaiting n l hb false →
  receive c ok s = Some s' →
  ∃ call', sy_calls s' !! c = Some call' ∧ ca_ask call' = ca_ask call
    ∧ (left_over s' call' < left_over s call)%nat.
Proof.
  intros Hc Hp E. unfold receive in E. rewrite Hc in E. cbn in E. rewrite Hp in E.
  destruct (ca_replies call) as [|o replies] eqn:Er; [done|].
  set (call1 := set_replies replies call).
  assert (sy_calls (on_call c (set_replies replies) s) !! c = Some call1) as Hc1
    by (cbn; by rewrite list_lookup_alter_eq, Hc).
  destruct o as [answer|].
  - injection E as <-. eapply (moved_decreases s _ c call); [by eapply (moved_finish s _ c call1)|].
    unfold left_over. rewrite Hp, Er. cbn. lia.
  - set (s2 := on_call c (set_phase (Awaiting n None hb false)) (on_call c (set_replies replies) s)) in *.
    set (call2 := set_phase (Awaiting n None hb false) call1).
    assert (sy_calls s2 !! c = Some call2) as Hc2
      by (subst s2; cbn; by rewrite !list_lookup_alter_eq, Hc).
    destruct (_ && _).
    + destruct ok; injection E as <-.
      * eapply (moved_decreases s _ c call); [by eapply (moved_on_call s s2 c call2 (add_frame RCountdownCancelled))|].
        unfold left_over. rewrite Hp, Er. cbn. lia.
      * eapply (moved_decreases s _ c call); [by eapply (moved_finish s _ c call2)|].
        unfold left_over. rewrite Hp, Er. cbn. lia.
    + injection E as <-. eapply (moved_decreases s _ c call).
      { exists call2. split_and!; done. }
      unfold left_over. rewrite Hp, Er. cbn. lia.
Qed.

Lemma leaving_poll s c call n l hb ok s' :
  sy_calls s !! c = Some call → ca_phase call = Awaiting n l hb true →
  ak_stream (ca_ask call) = true → poll heartbeat c true ok s = Some s' →
  ∃ call', sy_calls s' !! c = Some call' ∧ ca_ask call' = ca_ask call
    ∧ (left_over s' call' < left_over s call)%nat.
Proof.
  intros Hc Hp Hs E. unfold poll in E. rewrite Hc in E. cbn in E.
  destruct (ca_request call) as [request|]; [|done]. cbn in E. rewrite Hp, Hs in E. cbn in E.
  destruct (is_attached n s) eqn:Ea; cbn in E; injection E as <-.
  - eapply moved_decreases; [by eapply (moved_finish s (push n _ s))|].
    unfold left_over. rewrite Hp. cbn. rewrite Ea. lia.
  - destruct (moved_went_away s s c call request Hc) as (p & Hm & Hl & Hu); [done|].
    eapply moved_decreases; [exact Hm|]. unfold left_over. rewrite Hp. cbn. rewrite Ea. lia.
Qed.

Lemma leaving_step s c call e s' :
  tidy s → sy_calls s !! c = Some call → ak_stream (ca_ask call) = true →
  leaving c e → step e s = Some s' →
  ∃ call', sy_calls s' !! c = Some call' ∧ ca_ask call' = ca_ask call
    ∧ (left_over s' call' < left_over s call)%nat.
Proof.
  intros Htidy Hc Hs Hl E. destruct e; cbn in Hl; try done; cbn [Operators.step] in E;
    repeat match goal with H : _ ∧ _ |- _ => destruct H end; subst.
  - destruct (ca_phase call) eqn:Hp; [by eapply leaving_search|exfalso..];
      unfold search in E; rewrite Hc in E; cbn in E; by rewrite Hp in E.
  - destruct (ca_phase call) eqn:Hp; [exfalso|by eapply leaving_build|exfalso..];
      unfold build in E; rewrite Hc in E; cbn in E; by rewrite Hp in E.
  - destruct (ca_phase call) eqn:Hp; [exfalso|exfalso|by eapply leaving_send|exfalso..];
      unfold send in E; rewrite Hc in E; cbn in E; rewrite Hp in E; by destruct (ca_request call).
  - destruct (ca_phase call) as [| | |n l h [|]|] eqn:Hp; [exfalso..|by eapply leaving_receive|exfalso];
      unfold receive in E; rewrite Hc in E; cbn in E; by rewrite Hp in E.
  - unfold time_out in E; rewrite Hc in E; cbn in E.
    destruct (ca_phase call) as [| | |n l h [|]|] eqn:Hp; try done.
    destruct (ca_replies call) eqn:Er; [|done]. injection E as <-.
    eapply moved_decreases; [by eapply moved_on_call|]. unfold left_over. rewrite Hp, Er. cbn. rewrite Er. cbn. destruct (is_attached n s); lia.
  - destruct (ca_phase call) as [| | |n l h [|]|] eqn:Hp; [exfalso|exfalso|exfalso|by eapply leaving_poll|exfalso..];
      unfold poll in E; rewrite Hc in E; cbn in E; rewrite Hp in E; by destruct (ca_request call).
Qed.

(** While it is open, a call has something left to do. *)
Lemma leaving_progress s c call :
  asked s → sy_calls s !! c = Some call → open_call call = true →
  ∃ e s', leaving c e ∧ step e s = Some s'.
Proof.
  intros Hasked Hc Ho. pose proof (Hasked c call Hc) as Hr. unfold open_call in Ho.
  destruct (ca_phase call) as [a h|n|n|n l h [|]|answer] eqn:Hp; try done.
  - exists (EvSearch c true true). cbn. unfold search. rewrite Hc. cbn. rewrite Hp.
    destruct (latest s); [eauto|]. destruct (_ && true); [eauto|]. destruct (_ && _); [|eauto].
    destruct (if a then _ else _); eauto.
  - exists (EvBuild c (Ok (repeat 0 8))). cbn. unfold build. rewrite Hc. cbn. rewrite Hp.
    destruct (number_request _ _ _) as [[procedure|e] s1]; [|eauto].
    destruct (ak_artifact_signature _); [|eauto]. destruct (open_artifacts _); eauto.
  - exists (EvSend c). cbn. unfold send. rewrite Hc. cbn.
    destruct (ca_request call) as [request|]; [|done]. cbn. rewrite Hp.
    destruct (match rq_closure_signature request with Some _ => _ | None => _ end); [|eauto].
    destruct (accepts _ _); eauto.
  - exists (EvPoll c true true). cbn. unfold poll. rewrite Hc. cbn.
    destruct (ca_request call) as [request|]; [|done]. cbn. rewrite Hp.
    destruct (negb _); [eauto|]. destruct (_ && true); [eauto|].
    destruct (is_some_and _ _); [eauto|]. destruct (_ && _ && _); eauto.
  - destruct (ca_replies call) as [|o replies] eqn:Er.
    + exists (EvTimeOut c). cbn. unfold time_out. rewrite Hc. cbn. rewrite Hp, Er. eauto.
    + exists (EvReceive c true). cbn. unfold receive. rewrite Hc. cbn. rewrite Hp, Er.
      destruct o; [eauto|]. destruct (_ && _); eauto.
Qed.

End LeaveRuns.
