(* ===== verification/OperatorRegistry.v ===== *)
(** * Who may ask after a pending signature

    The registries of closure requests and of pinned artifacts over the runs
    of [Operators], a sample run, and the prompt a late answer leaves behind. *)
From stdpp Require Import gmap.
From S2P Require Import Prelude BTree Text Framing Procedure Procedures SshAuth Signing.
From S2P Require Import Requests Operators OperatorFacts OperatorLive.
#[local] Open Scope Z_scope.

(** The call [c] still waits with a request of this id. *)
Definition waits (s : Sys) (c : nat) (id : string) (call : Call) (r : SecretRequest) : Prop :=
  sy_calls s !! c = Some call ∧ open_call call = true ∧ ca_request call = Some r ∧ rq_id r = id.

Record registered (evs : list Event) (s : Sys) : Prop := {
  rg_peers : ∀ n owner, sy_operator_peers s !! n = Some owner → ∃ b, EvAttach n owner b ∈ evs;
  rg_closures : ∀ id c owner, sy_closure_requests s !! id = Some (c, owner) →
    ∃ call r n b, waits s c id call r ∧ rq_closure_signature r ≠ None
      ∧ EvAttach n owner b ∈ evs
      ∧ ∀ n' l h t, ca_phase call = Awaiting n' l h t → n' = n;
  rg_artifacts : ∀ id files, sy_artifacts s !! id = Some files → ∃ c call r, waits s c id call r
}.

Lemma registered_events evs evs' s : evs ⊆ evs' → registered evs s → registered evs' s.
Proof.
  intros He [H1 H2 H3]. split; [| |exact H3].
  - intros n owner Hn. destruct (H1 n owner Hn) as [b Hb]. eauto.
  - intros id c owner Hc. destruct (H2 id c owner Hc) as (call & r & n & b & Hw & Hs & Hb & Ha).
    exists call, r, n, b. split_and!; auto.
Qed.

(** Fewer entries, the same calls. *)
Lemma registered_less evs s s' :
  sy_calls s' = sy_calls s →
  (∀ n x, sy_operator_peers s' !! n = Some x → sy_operator_peers s !! n = Some x) →
  (∀ id x, sy_closure_requests s' !! id = Some x → sy_closure_requests s !! id = Some x) →
  (∀ id x, sy_artifacts s' !! id = Some x → sy_artifacts s !! id = Some x) →
  registered evs s → registered evs s'.
Proof.
  intros Hc Hp Hcl Har [H1 H2 H3]. unfold waits in *. rewrite <- Hc in H2, H3. split; eauto.
Qed.

(** A call changes; its entries must still fit. *)
Lemma registered_on_call evs c f s call :
  sy_calls s !! c = Some call →
  (∀ r, ca_request call = Some r → open_call call = true →
     ca_request (f call) = Some r ∧ open_call (f call) = true) →
  (∀ r owner n l h t, ca_request call = Some r → rq_closure_signature r ≠ None →
     sy_closure_requests s !! rq_id r = Some (c, owner) →
     ca_phase (f call) = Awaiting n l h t →
     (∃ l' h' t', ca_phase call = Awaiting n l' h' t') ∨ sy_operator_peers s !! n = Some owner) →
  registered evs s → registered evs (on_call c f s).
Proof.
  intros Hc Hf Hn [H1 H2 H3].
  assert (∀ c' id call' r, waits s c' id call' r →
    waits (on_call c f s) c' id (if decide (c' = c) then f call' else call') r) as Hw.
  { intros c' id call' r (Hc' & Ho & Hr & Hid). unfold waits. cbn.
    case_decide as He; [subst c'|by rewrite list_lookup_alter_ne].
    rewrite Hc in Hc'. injection Hc' as <-. destruct (Hf r Hr Ho) as [Hr' Ho'].
    by rewrite list_lookup_alter_eq, Hc. }
  split; [exact H1| |].
  - intros id c' owner He. cbn in He.
    destruct (H2 id c' owner He) as (call' & r & n & b & Hwait & Hs & Hb & Ha).
    pose proof (Hw _ _ _ _ Hwait) as Hwait'. case_decide as Hd; [subst c'|].
    2:{ exists call', r, n, b. done. }
    destruct Hwait as (Hc' & Ho & Hr & Hid). rewrite Hc in Hc'. injection Hc' as <-. subst id.
    destruct (ca_phase (f call)) as [| | |n' l h t|] eqn:Ep;
      try (exists (f call), r, n, b; split_and!; [done..|]; intros; congruence).
    destruct (Hn r owner n' l h t Hr Hs He eq_refl) as [(l' & h' & t' & Hp)|Hp].
    + exists (f call), r, n, b. split_and!; [done..|]. intros n0 l0 h0 t0 E.
      rewrite Ep in E. injection E as <- _ _ _. by eapply Ha.
    + destruct (H1 n' owner Hp) as [b' Hb']. exists (f call), r, n', b'. split_and!; [done..|].
      intros n0 l0 h0 t0 E. congruence.
  - intros id files He. destruct (H3 id files He) as (c' & call' & r & Hwait). eauto.
Qed.

Lemma registered_finish evs c answer s :
  registered evs s → registered evs (finish c answer s).
Proof.
  intros [H1 H2 H3]. destruct (finish_fields c answer s) as (Hc & _ & _ & _ & _ & Hp & _).
  assert (∀ c' id call r, waits s c' id call r → (c' = c → False) →
    waits (finish c answer s) c' id call r) as Hw.
  { intros c' id call r (Hc' & Ho & Hr & Hid) Hne. unfold waits. rewrite Hc.
    by rewrite list_lookup_alter_ne by (intros ->; by apply Hne). }
  (* an entry of [c] is gone *)
  assert (∀ id call r, waits s c id call r →
    sy_closure_requests (finish c answer s) !! id = None ∧ sy_artifacts (finish c answer s) !! id = None)
    as Hgone.
  { intros id call r (Hc' & _ & Hr & Hid). unfold finish. rewrite Hc'. cbn. rewrite Hr. cbn.
    rewrite Hid. by rewrite !lookup_delete_eq. }
  assert (∀ id x, sy_closure_requests (finish c answer s) !! id = Some x → sy_closure_requests s !! id = Some x)
    as Hcl.
  { intros id x. unfold finish. destruct (rq_id <$> _); cbn; [|done]. rewrite lookup_delete_Some. naive_solver. }
  assert (∀ id x, sy_artifacts (finish c answer s) !! id = Some x → sy_artifacts s !! id = Some x) as Har.
  { intros id x. unfold finish. destruct (rq_id <$> _); cbn; [|done]. rewrite lookup_delete_Some. naive_solver. }
  split; [rewrite Hp; exact H1| |].
  - intros id c' owner He. destruct (H2 id c' owner (Hcl _ _ He)) as (call & r & n & b & Hwait & Hrest).
    exists call, r, n, b. split; [|done]. apply Hw; [done|]. intros ->.
    destruct (Hgone _ _ _ Hwait) as [Hg _]. congruence.
  - intros id files He. destruct (H3 id files (Har _ _ He)) as (c' & call & r & Hwait).
    exists c', call, r. apply Hw; [done|]. intros ->.
    destruct (Hgone _ _ _ Hwait) as [_ Hg]. congruence.
Qed.

Lemma registered_micro evs evs' c s s' :
  provenance evs' s → micro c s s' → registered evs s → registered evs s'.
Proof.
  intros Hprov Hm H. destruct Hm as
    [s' Hq|call e Hc Ho Hn|call n l h b reason Hc Hp|call n l h b answer replies Hc Hp Hr
    |f call Hc Ht Hreq _ _ Hs _|call n request Hc Hp
    |call n request files Hc Hp Hr|call n request owner Hc Hp Hr Hs Ho|call n request l Hc Hp Hr Ha Hreg].
  - destruct Hq as [Hc _ Hp _ _ _ _ Hcl Har]. apply (registered_less _ s); [done| |done..|done].
    intros n x. by rewrite Hp.
  - by apply registered_finish.
  - apply registered_finish. by apply (registered_less _ s).
  - apply registered_finish. eapply registered_on_call; [done| | |done]; [done|].
    intros r owner n' l' h' t' _ _ _ E. left. cbn in E. eauto.
  - eapply registered_on_call; [done| | |done].
    + intros r Hr _. rewrite Hreq. split; [done|]. unfold open_call. by destruct Ht.
    + intros r owner n l h t _ _ _ E. left. rewrite E in Ht. inversion Ht; subst. eauto.
  - pose proof (pv_calls _ _ Hprov c call Hc) as [_ Hph]. rewrite Hp in Hph. cbn in Hph.
    eapply registered_on_call; [done|intros; congruence|intros; congruence|done].
  - destruct H as [H1 H2 H3]. split; [exact H1|exact H2|]. cbn. intros id x He.
    apply lookup_insert_Some in He as [[<- <-]|[_ He]]; [|by eapply H3].
    exists c, call, request. repeat split; [done|by apply (phase_open _ _ Hp)|done].
  - destruct H as [H1 H2 H3]. split; [exact H1| |exact H3]. cbn. intros id c' x He.
    apply lookup_insert_Some in He as [[<- [= <- <-]]|[_ He]]; [|by eapply H2].
    destruct (H1 n owner Ho) as [b Hb]. exists call, request, n, b.
    assert (waits s c (rq_id request) call request) as Hw
      by (repeat split; [done|by apply (phase_open _ _ Hp)|done]).
    split_and!; [exact Hw|done..|]. intros. congruence.
  - assert (registered evs (push n (IJob request c) s)) as H' by (by apply (registered_less _ s)).
    eapply registered_on_call; [done| | |exact H'].
    + intros r Hr' _. split; [done|]. done.
    + cbn. intros r owner n' l' h' t' Hr' Hs' He E. injection E as <- _ _ _. right.
      rewrite Hr in Hr'. injection Hr' as <-. destruct (Hreg Hs') as (owner' & Hp' & He').
      congruence.
Qed.

Section Runs.
Context (proc_stat : Z → option string) (process_info : Z → ProcessInfo).
Context (open_artifacts : Artifacts.SigningRequest → result string (list (string * list Z))).
Context (deadline heartbeat : Z).
Notation step := (step proc_stat process_info open_artifacts deadline heartbeat).
Notation run := (run proc_stat process_info open_artifacts deadline heartbeat).

Lemma registered_new_call evs call s s' :
  sy_calls s' = sy_calls s ++ [call] →
  sy_operator_peers s' = sy_operator_peers s → sy_closure_requests s' = sy_closure_requests s →
  sy_artifacts s' = sy_artifacts s → registered evs s → registered evs s'.
Proof.
  intros Hc Hp Hcl Har [H1 H2 H3].
  assert (∀ c id call r, waits s c id call r → waits s' c id call r) as Hw.
  { intros c id call' r (Hc' & Hrest). split; [|done]. rewrite Hc. by apply lookup_app_l_Some. }
  split.
  - by rewrite Hp.
  - rewrite Hcl. intros id c owner He. destruct (H2 id c owner He) as (call' & r & n & b & Hwait & Hrest).
    exists call', r, n, b. auto.
  - rewrite Har. intros id files He. destruct (H3 id files He) as (c & call' & r & Hwait). eauto.
Qed.

Lemma registered_reply evs c o s : registered evs s → registered evs (send_reply c o s).
Proof.
  intros H. destruct (sy_calls s !! c) as [call|] eqn:Ec.
  - eapply registered_on_call; [done| | |done].
    + intros r Hr Ho. unfold open_call in *. destruct (ca_phase call) eqn:Ep; cbn; by rewrite ?Ep.
    + intros r owner n l h t _ _ _ E. left. destruct (ca_phase call) eqn:Ep; cbn in E; rewrite ?Ep in E; eauto; done.
  - apply (registered_less _ s); [|done..|done]. unfold send_reply, on_call. cbn.
    apply list_eq. intros i. destruct (decide (i = c)) as [->|]; [|by rewrite list_lookup_alter_ne].
    by rewrite list_lookup_alter_eq, Ec.
Qed.

Lemma registered_step evs e s s' :
  step e s = Some s' → provenance evs s → registered evs s → registered (evs ++ [e]) s'.
Proof.
  intros E Hprov H.
  assert (registered (evs ++ [e]) s) as H'.
  { eapply registered_events; [|exact H]. intros x Hx. apply elem_of_app. by left. }
  clear H. destruct (event_call e) as [c|] eqn:Ee.
  { eapply event_micro in E; [|exact Ee]. clear Ee.
    induction E as [|s s1 s2 Hm _ IH]; [done|].
    apply IH; [by eapply provenance_micro|by eapply registered_micro]. }
  destruct e; try done; cbn [Operators.step] in E.
  - destruct (0 <=? elapsed); [|done]. injection E as <-. by apply (registered_less _ s).
  - injection E as <-. unfold start, claim.
    repeat (destruct (_ : bool); [by eapply (registered_new_call _ _ s)|]).
    by eapply (registered_new_call _ _ s).
  - unfold attach in E. destruct (sy_tuis s !! session); [done|]. injection E as <-.
    destruct H' as [H1 H2 H3]. split; [|exact H2|exact H3]. cbn. intros n owner.
    intros [[<- <-]|[_ Hn]]%lookup_insert_Some; [|by apply H1].
    exists ok. apply elem_of_app. right. left.
  - unfold reads in E. destruct (sy_tuis s !! session) as [t|]; [|done]. cbn in E.
    destruct (tu_reading t); [|done]. injection E as <-. by apply (registered_less _ s).
  - unfold serve_tui in E. destruct (sy_tuis s !! session) as [t|]; [|done]. cbn in E.
    destruct (tu_phase t); try done. destruct (tu_inbox t) as [|m inbox]; [done|]. injection E as <-.
    assert (∀ f s1, s1 = on_tui session f s → registered (evs ++ [EvServe session ok]) s1) as Ht
      by (intros f s1 ->; by apply (registered_less _ s)).
    destruct m; cbn [handle_others]; try (by eapply Ht); (destruct (bt_get _ _); [|by eapply Ht]);
      apply registered_reply; [|by eapply Ht].
    apply (registered_less _ s); [done..| |done|done]. cbn. intros id x. rewrite lookup_delete_Some. by intros [_ ?].
  - unfold beat_tui in E. destruct (sy_tuis s !! session) as [t|]; [|done]. cbn in E.
    destruct (tu_phase t); try done. destruct (tu_inbox t); [|done].
    destruct (_ <=? _); [|done]. injection E as <-. by apply (registered_less _ s).
  - unfold leave_tui in E. destruct (sy_tuis s !! session) as [t|]; [|done]. cbn in E.
    destruct (tu_phase t); try done; injection E as <-; [by apply (registered_less _ s)|].
    apply (registered_less _ s); [done| |done..|done]. cbn. intros n x. rewrite lookup_delete_Some. by intros [_ ?].
  - injection E as <-. unfold check_closure. destruct (_ !! id) as [[c owner]|]; [|done].
    destruct (negb _); [done|]. destruct gone; [|done]. cbn [snd].
    apply (registered_less _ s); [done..| |done|done]. cbn. intros id' x. rewrite lookup_delete_Some. by intros [_ ?].
  - injection E as <-. pose proof (news_procedure_request proc_stat r s) as Hn.
    destruct Hn. apply (registered_less _ s); congruence.
  - injection E as <-. destruct (news_end_grants grants s). apply (registered_less _ s); congruence.
Qed.

Lemma registered_run evs s : run evs operators_default = Some s → registered evs s.
Proof.
  apply run_ind.
  - split; cbn; intros *; by rewrite lookup_empty.
  - intros evs' e s1 s2 Hrun H E. eapply registered_step; [exact E| |done]. by eapply provenance_run.
Qed.

(** Only the operator who is being asked learns that a closure request is
    alive, and only while it waits: a successful check comes from the process
    that attached the TUI the request was last sent to, and the request is
    still unanswered; a pinned artifact can be read only by the id of a
    request that still waits. *)
Theorem pending_signatures_guarded evs s id peer s' :
  run evs operators_default = Some s →
  (check_closure id peer false s = (Ok tt, s') →
     ∃ c call r n b, waits s c id call r ∧ rq_closure_signature r ≠ None
       ∧ EvAttach n peer b ∈ evs
       ∧ ∀ n' l h t, ca_phase call = Awaiting n' l h t → n' = n)
  ∧ (∀ role offset chunk, read_artifact id role offset s = Ok chunk →
     ∃ c call r, waits s c id call r).
Proof.
  intros Hrun. pose proof (registered_run _ _ Hrun) as [H1 H2 H3]. split.
  - unfold check_closure. destruct (sy_closure_requests s !! id) as [[c owner]|] eqn:Ec; [|done].
    destruct (owner =? peer) eqn:Eo; [|done]. cbn. intros _. bool_prop. subst owner.
    destruct (H2 id c peer Ec) as (call & r & n & b & Hw). by exists c, call, r, n, b.
  - intros role offset chunk. unfold read_artifact.
    destruct (sy_artifacts s !! id) as [files|] eqn:Ea; [|done]. intros _. by eapply H3.
Qed.
End Runs.

(** ** Sample runs *)
Module Samples.
Definition process_info (pid : Z) : ProcessInfo :=
  {| pi_pid := pid; pi_executable := None; pi_argv := []; pi_cwd := None |}.
Definition open_artifacts (_ : Artifacts.SigningRequest) : result string (list (string * list Z)) :=
  Ok [].
Notation runs evs :=
  (run (λ _, None) process_info open_artifacts (ANSWER_TIMEOUT + ANSWER_GRACE) HEARTBEAT evs
     operators_default).
Definition state_after (evs : list Event) : Sys := default operators_default (runs evs).

(** Process 7 asks for one value. *)
Definition ask (closure : option Closures.SigningRequest) : Ask :=
  {| ak_peer := 7; ak_identifiers := ["web.services.db.password"]; ak_reason := None;
     ak_ssh := ssh_default; ak_artifact_signature := None; ak_closure_signature := closure;
     ak_stream := true; ak_procedure := None; ak_progress := true; ak_confirmation := None |}.
Definition id : string := "secret-0-0101010101010101".
Definition approval : SecretAnswer :=
  Approved [{| sx_identifier := "web.services.db.password"; sx_value_base64 := "c2VjcmV0" |}].

(** A TUI attaches, is shown the request and answers it. *)
Definition shown (closure : option Closures.SigningRequest) : list Event :=
  [EvAttach 1 100 true; EvStart (ask closure); EvSearch 0 false true;
   EvBuild 0 (Ok (repeat 1 8)); EvSend 0; EvServe 1 true].
Definition answered : list Event :=
  shown None ++ [EvReads 1 (TuiAnswers id approval); EvServe 1 true; EvReceive 0 true].

(** The TUI answers and hangs up between the end of the requester's
    [recv_timeout] and its look at the attached TUIs; another TUI attaches. *)
Definition late : list Event :=
  shown None ++
  [EvTimeOut 0; EvReads 1 (TuiAnswers id approval); EvReads 1 TuiOther;
   EvServe 1 true; EvServe 1 true; EvLeave 1; EvAttach 2 101 true;
   EvPoll 0 false true; EvSearch 0 false true; EvSend 0; EvServe 2 true; EvReceive 0 true].
End Samples.

(** A prompt can outlive its request: when a TUI answers and goes away just
    as the requester's poll runs out, the requester sends its request to the
    next TUI and only then takes the first one's answer, and nothing withdraws
    the request there: the second TUI keeps showing a request nobody waits for
    and has no withdrawal queued. *)
Theorem answered_prompt_left_behind :
  let s := Samples.state_after Samples.late in
  Samples.runs Samples.late = Some s
  ∧ (ca_phase <$> sy_calls s !! 0%nat) = Some (Done (Ok Samples.approval))
  ∧ (bt_get Samples.id ∘ tu_waiting <$> sy_tuis s !! 2) = Some (Some 0%nat)
  ∧ (tu_phase <$> sy_tuis s !! 2) = Some Serving
  ∧ (tu_inbox <$> sy_tuis s !! 2) = Some []
  ∧ sy_pending s = 0.
Proof. vm_compute. done. Qed.

Lemma answers_from_shown_tui_witness :
  ∃ r n t, (sy_calls (Samples.state_after Samples.answered) !! 0%nat ≫= ca_request) = Some r
    ∧ sy_tuis (Samples.state_after Samples.answered) !! n = Some t
    ∧ FSecretRequested r ∈ tu_frames t
    ∧ EvReads n (TuiAnswers (rq_id r) Samples.approval) ∈ Samples.answered.
Proof.
  destruct (sy_calls (Samples.state_after Samples.answered) !! 0%nat) as [call|] eqn:Ec;
    [|vm_compute in Ec; discriminate].
  apply (answers_from_shown_tui (λ _, None) Samples.process_info Samples.open_artifacts
    (ANSWER_TIMEOUT + ANSWER_GRACE) HEARTBEAT Samples.answered
    (Samples.state_after Samples.answered) 0 call Samples.approval).
  - vm_compute. reflexivity.
  - exact Ec.
  - vm_compute in Ec. by injection Ec as <-.
Defined.

Lemma pending_slots_exact_witness :
  pending_count (Samples.state_after (Samples.shown None)) = 1
  ∧ pending_count (Samples.state_after (Samples.shown None)) =
      waiting_calls (sy_calls (Samples.state_after (Samples.shown None))).
Proof.
  split; [vm_compute; reflexivity|].
  apply (pending_slots_exact (λ _, None) Samples.process_info Samples.open_artifacts
    (ANSWER_TIMEOUT + ANSWER_GRACE) HEARTBEAT (Samples.shown None)).
  vm_compute. reflexivity.
Defined.

Lemma prompts_are_live_witness :
  ∃ call r, sy_calls (Samples.state_after (Samples.shown None)) !! 0%nat = Some call
    ∧ ca_request call = Some r ∧ rq_id r = Samples.id
    ∧ match ca_phase call with
      | Awaiting n' _ _ _ => n' = 1
      | Done (Ok _) => True
      | _ => False
      end.
Proof.
  destruct (sy_tuis (Samples.state_after (Samples.shown None)) !! 1) as [t|] eqn:Et;
    [|vm_compute in Et; discriminate].
  destruct (prompts_are_live (λ _, None) Samples.process_info Samples.open_artifacts
    (ANSWER_TIMEOUT + ANSWER_GRACE) HEARTBEAT (Samples.shown None)
    (Samples.state_after (Samples.shown None)) 1 t Samples.id 0) as (call & r & Hc & Hr & Hid & Hp).
  - vm_compute. reflexivity.
  - exact Et.
  - vm_compute in Et. by injection Et as <-.
  - vm_compute in Et. by injection Et as <-.
  - exists call, r. split_and!; [done..|]. vm_compute in Hc. by injection Hc as <-.
Defined.


Lemma pending_signatures_guarded_witness :
  ∃ c call r n b,
    waits (Samples.state_after (Samples.shown (Some Signing.Samples.request))) c Samples.id call r
    ∧ rq_closure_signature r ≠ None
    ∧ EvAttach n 100 b ∈ Samples.shown (Some Signing.Samples.request)
    ∧ ∀ n' l h t, ca_phase call = Awaiting n' l h t → n' = n.
Proof.
  eapply (proj1 (pending_signatures_guarded (λ _, None) Samples.process_info Samples.open_artifacts
    (ANSWER_TIMEOUT + ANSWER_GRACE) HEARTBEAT (Samples.shown (Some Signing.Samples.request))
    (Samples.state_after (Samples.shown (Some Signing.Samples.request))) Samples.id 100
    (Samples.state_after (Samples.shown (Some Signing.Samples.request))) ltac:(vm_compute; reflexivity))).
  vm_compute. reflexivity.
Defined.
