(* ===== verification/SchemaValidation.v ===== *)
(** * Schema validation

    [crates/core/src/schema/validation.rs], [schema/registry.rs],
    [schema/derived.rs] and [Schema::validate] of
    [crates/core/src/schema.rs].  Third-party code is an argument: the base64
    decoder, the OpenSSH key parser of the [ssh_key] crate, regular
    expressions, SHA-256 and the TOML parser. *)
From S2P Require Import Prelude BTree Text Generator Net Schema.
#[local] Open Scope Z_scope.

Definition invalid (path : SecretPath) (message : string) : SchemaError :=
  InvalidDestination path message.

Definition leaf_path (host namespace service : string) (parents : list string) : SecretPath :=
  [host; namespace; service] ++ parents.

Definition synthetic_path (host : string) : SecretPath :=
  [host; "services"; "metadata"; "socket"].

(** [sort] and [dedup] leave fewer elements exactly when one repeats. *)
Definition has_duplicates (l : list string) : bool :=
  negb (zlen (bt_keys (bs_of_list l)) =? zlen l).

(** ** SSH wire format *)
(** [ssh_string]: a length-prefixed string and what follows it. *)
Definition ssh_string (input : list Z) : option (list Z * list Z) :=
  if zlen input <? 4 then None
  else
    let length := be_value (take 4 input) in
    let rest := drop 4 input in
    if length <=? zlen rest
    then Some (take (Z.to_nat length) rest, drop (Z.to_nat length) rest) else None.

Definition valid_key_blob (algorithm : string) (input : list Z) : bool :=
  if bool_decide (algorithm = "ssh-ed25519") then
    is_some_and (λ '(key, rest), (zlen key =? 32) && bool_decide (rest = [])) (ssh_string input)
  else if bool_decide (algorithm = "ssh-rsa") then
    is_some_and (λ '(exponent, rest),
      negb (bool_decide (exponent = []))
      && is_some_and (λ '(modulus, tail),
           negb (bool_decide (modulus = [])) && bool_decide (tail = [])) (ssh_string rest))
      (ssh_string input)
  else
    match strip_prefix "ecdsa-sha2-" algorithm with
    | Some name =>
        is_some_and (λ '(curve, rest),
          bool_decide (bytes name = curve)
          && is_some_and (λ '(point, tail),
               negb (bool_decide (point = [])) && bool_decide (tail = [])) (ssh_string rest))
          (ssh_string input)
    | None => false
    end.

(** [char::is_ascii_whitespace] and [str::split_ascii_whitespace]. *)
Definition is_ascii_whitespace (b : Z) : bool :=
  (b =? 32) || (b =? 9) || (b =? 10) || (b =? 12) || (b =? 13).

Fixpoint ascii_words (cur : list Z) (l : list Z) : list (list Z) :=
  match l with
  | [] => if bool_decide (cur = []) then [] else [reverse cur]
  | b :: l =>
      if is_ascii_whitespace b
      then (if bool_decide (cur = []) then [] else [reverse cur]) ++ ascii_words [] l
      else ascii_words (b :: cur) l
  end.
Definition split_ascii_whitespace (s : string) : list string :=
  of_bytes <$> ascii_words [] (bytes s).

Definition ssh_algorithms : list string :=
  ["ssh-ed25519"; "ssh-rsa"; "ecdsa-sha2-nistp256"; "ecdsa-sha2-nistp384"; "ecdsa-sha2-nistp521"].

(** What [ssh_key::Algorithm] tells the code. *)
Inductive Algorithm :=
| AlgEd25519 (name : string)
| AlgEcdsa (name : string)
| AlgRsa (name : string)
| AlgOther (name : string).
Definition algorithm_str (a : Algorithm) : string :=
  match a with AlgEd25519 n | AlgEcdsa n | AlgRsa n | AlgOther n => n end.
Definition allowed_algorithm (a : Algorithm) : bool :=
  match a with AlgOther _ => false | _ => true end.

Section Keys.
(** [base64 STANDARD.decode] and [ssh_key::PublicKey::from_openssh]. *)
Context (b64_decode : string → option (list Z)).
Context (from_openssh : string → option Algorithm).

Definition valid_ssh_public_key (key : string) : bool :=
  if negb (bool_decide (trim key = key)) || contains_byte 13 key || contains_byte 10 key
  then false
  else match split_ascii_whitespace key with
       | algorithm :: encoded :: _ =>
           if negb (bool_decide (algorithm ∈ ssh_algorithms)) then false
           else match b64_decode encoded with
                | None => false
                | Some blob =>
                    match ssh_string blob with
                    | None => false
                    | Some (embedded, remainder) =>
                        bool_decide (embedded = bytes algorithm)
                        && valid_key_blob algorithm remainder
                    end
                end
       | _ => false
       end.

(** ** known_hosts *)
Definition MAX_KNOWN_HOSTS_BYTES : Z := 64 * 1024.
Definition MAX_KNOWN_HOSTS_LINES : Z := 256.

(** [strip_prefix('[')?.split_once("]:")]. *)
Definition bare_name (name : string) : string :=
  match strip_prefix "[" name with
  | Some rest =>
      (fix go (acc : list Z) (l : list Z) : string :=
         match l with
         | 93 :: 58 :: _ => of_bytes (reverse acc)
         | b :: l => go (b :: acc) l
         | [] => name
         end) [] (bytes rest)
  | None => name
  end.

Definition line_error (number : Z) (rest : string) : string :=
  "known_hosts line " +:+ dec number +:+ rest.

(** One turn of the loop of [known_hosts_lines]. *)
Definition known_hosts_line (hosts : list string) (port : Z)
  (acc : Z * list (string * string) * list (string * string)) (line : string)
  : result string (Z * list (string * string) * list (string * string)) :=
  let '(index, seen, lines) := acc in
  let number := index + 1 in
  if zlen lines =? MAX_KNOWN_HOSTS_LINES then Err "known_hosts value has too many lines"
  else if existsb (λ b, contains_byte b line) [42; 63; 44; 64; 124; 35]
  then Err (line_error number ": markers, wildcards, and host lists are forbidden")
  else match split_ascii_whitespace line with
  | [name; algorithm; key] =>
      if negb (bool_decide (line = name +:+ " " +:+ algorithm +:+ " " +:+ key))
      then Err (line_error number " is not a canonical `[host]:port algorithm key` line")
      else
        let bare := bare_name name in
        match local_only_ssh_host bare with
        | Some kind =>
            Err (line_error number (" names " +:+ bare +:+ ", which is " +:+ kind
                                    +:+ " and is never pinned"))
        | None =>
            match list_find (λ host,
                    name = "[" +:+ host +:+ "]:" +:+ dec port ∨ (port = 22 ∧ name = host)) hosts with
            | None =>
                Err (line_error number (" names " +:+ name +:+ ", but the schema allows only "
                       +:+ join ", " hosts +:+ " on port " +:+ dec port))
            | Some (_, host) =>
                match from_openssh (algorithm +:+ " " +:+ key) with
                | None => Err (line_error number (" (" +:+ name +:+ ") has an invalid key"))
                | Some alg =>
                    if negb (allowed_algorithm alg) || negb (bool_decide (algorithm_str alg = algorithm))
                    then Err (line_error number (" (" +:+ name
                                +:+ "): the key must be Ed25519, ECDSA or RSA"))
                    else if bool_decide ((name, key) ∈ seen)
                    then Err (line_error number (" (" +:+ name +:+ ") repeats an earlier line"))
                    else Ok (number, (name, key) :: seen,
                             lines ++ [(host, algorithm +:+ " " +:+ key)])
                end
            end
        end
  | _ => Err (line_error number " is not a canonical `[host]:port algorithm key` line")
  end.

Definition known_hosts_lines (value : string) (hosts : list string) (port : Z)
  : result string (list (string * string)) :=
  if (MAX_KNOWN_HOSTS_BYTES <? slen value) || contains_byte 13 value
  then Err "known_hosts value is too large or contains carriage return"
  else
    let body := default value (strip_suffix (String "010" "") value) in
    if bool_decide (body = "") then Err "known_hosts value is empty"
    else
      '(_, _, lines) ← try_fold (known_hosts_line hosts port) (0, [], []) (split "010" body);
      Ok lines.

Definition validate_ssh_known_hosts (value : string) (hosts : list string) (port : Z)
  : result string unit :=
  _ ← known_hosts_lines value hosts port; Ok tt.

Definition known_hosts_keys (value : string) (hosts : list string) (port : Z) (host : string)
  : result string (list string) :=
  lines ← known_hosts_lines value hosts port;
  Ok ((filter (λ '(name, _), name = host) lines).*2).
End Keys.

(** ** Derived values *)
Definition MAX_DERIVED_AFFIX_BYTES : Z := 1024.

(** The part of a TOML document [select] looks at. *)
Inductive TomlValue :=
| TomlString (text : string)
| TomlTable (table : list (string * TomlValue))
| TomlOther.

Section Derived.
(** [Display] of a schema error, for the message that quotes one. *)
Context (error_text : SchemaError → string).
Context (sha256 : list Z → list Z) (toml_parse : string → option (list (string * TomlValue))).

Definition derived_validate (d : DerivedFrom) : result string SecretPath :=
  source ← map_err (λ error, "derivedFrom.identifier is invalid: " +:+ error_text error)
             (path_parse (df_identifier d));
  _ ← guard_err (negb ((8 <? zlen (df_toml_path d))
        || existsb (λ key, bool_decide (key = "") || (128 <? slen key) || contains_byte 0 key)
             (df_toml_path d)))
        "derivedFrom.tomlPath must be at most 8 non-empty keys";
  _ ← guard_err (negb (is_some_and (λ v, negb (bool_decide (v = "pgpass"))) (df_encoding d)))
        "derivedFrom.encoding must be pgpass when set";
  _ ← try_each (λ affix,
        guard_err (negb ((MAX_DERIVED_AFFIX_BYTES <? slen affix) || contains_byte 0 affix))
          ("derivedFrom prefix and suffix must be at most "
           +:+ dec MAX_DERIVED_AFFIX_BYTES +:+ " bytes without NUL"))
        [df_prefix d; df_suffix d];
  Ok source.

(** What [version] feeds the hash. *)
Definition length_prefixed (part : list Z) : list Z := be_bytes 8 (zlen part) ++ part.
Definition version_input (d : DerivedFrom) (source_version : list Z) : list Z :=
  mjoin (length_prefixed <$>
    [source_version; bytes (df_identifier d); bytes (df_prefix d); bytes (df_suffix d)])
  ++ (if bool_decide (df_toml_path d = []) then []
      else length_prefixed (bytes (join (String "000" "") (df_toml_path d))))
  ++ match df_encoding d with
     | Some encoding => length_prefixed (bytes ("encoding:" +:+ encoding))
     | None => []
     end.

Definition derived_version (d : DerivedFrom) (source_version : list Z) : string :=
  "d-" +:+ hex_of (take 16 (sha256 (version_input d source_version))).

Definition frame_bytes (d : DerivedFrom) (source : list Z) : list Z :=
  bytes (df_prefix d) ++ source ++ bytes (df_suffix d).

Definition pgpass_escape (source : list Z) : list Z :=
  mjoin ((λ byte, if (byte =? 58) || (byte =? 92) then [92; byte] else [byte]) <$> source).

Definition frame_encoded (d : DerivedFrom) (source : list Z) : result string (list Z) :=
  match df_encoding d with
  | None => Ok (frame_bytes d source)
  | Some encoding =>
      if bool_decide (encoding = "pgpass") then
        if existsb (λ byte, (byte =? 0) || (byte =? 13) || (byte =? 10)) source
        then Err "pgpass source must be one password without NUL or line breaks"
        else Ok (frame_bytes d (pgpass_escape source))
      else Err "derivedFrom.encoding must be pgpass when set"
  end.

(** The loop of [select] over the keys. *)
Fixpoint toml_select (no_field : string) (keys : list string) (table : list (string * TomlValue))
  : result string (option TomlValue) :=
  match keys with
  | [] => Ok None
  | key :: keys =>
      match bt_get key table with
      | None => Err no_field
      | Some next =>
          match keys with
          | [] => Ok (Some next)
          | _ => match next with
                 | TomlTable table => toml_select no_field keys table
                 | _ => Err no_field
                 end
          end
      end
  end.

Definition select (d : DerivedFrom) (source : list Z) : result string string :=
  let path := join "." (df_toml_path d) in
  text ← ok_or (df_identifier d +:+ " is not UTF-8 TOML, so it has no " +:+ path)
           (from_utf8 source);
  document ← ok_or (df_identifier d +:+ " is not valid TOML, so it has no " +:+ path)
               (toml_parse text);
  value ← toml_select (df_identifier d +:+ " has no field " +:+ path) (df_toml_path d) document;
  match value with
  | Some (TomlString text) => Ok text
  | _ => Err (df_identifier d +:+ ": " +:+ path +:+ " is not a string")
  end.

Definition frame (d : DerivedFrom) (source : list Z) : result string (list Z) :=
  if bool_decide (df_toml_path d = []) then frame_encoded d source
  else
    field ← select d source;
    frame_encoded d (bytes field).
End Derived.

(** ** Leaves *)
Definition MAX_GENERATOR_ARGS : Z := 64.
Definition MAX_GENERATOR_ARG_BYTES : Z := 4096.

Definition keypair_validate (g : KeypairGenerator) : result string unit :=
  if bool_decide (kg_installable g = "") || (MAX_GENERATOR_ARG_BYTES <? slen (kg_installable g))
     || any_control (kg_installable g) || starts_with "-" (kg_installable g)
  then Err "generator installable must be a printable flake reference"
  else if (MAX_GENERATOR_ARGS <? zlen (kg_args g))
          || existsb (λ arg, (MAX_GENERATOR_ARG_BYTES <? slen arg) || contains_byte 0 arg) (kg_args g)
  then Err ("generator takes at most " +:+ dec MAX_GENERATOR_ARGS +:+ " arguments of at most "
            +:+ dec MAX_GENERATOR_ARG_BYTES +:+ " bytes without NUL")
  else Ok tt.

Definition validate_description (path : SecretPath) (description : option string)
  : result SchemaError unit :=
  guard_err (negb (is_some_and (λ value,
      bool_decide (value = "") || (512 <? slen value) || any_control value) description))
    (invalid path ("description must contain 1" +:+ of_bytes [226; 128; 147]
                   +:+ "512 printable bytes")).

Definition validate_recipients (path : SecretPath) (public_keys ids : list string)
  : result SchemaError unit :=
  _ ← guard_err (negb (bool_decide (public_keys = []))) (MissingPublicKey path);
  guard_err (zlen public_keys =? zlen ids) (RecipientCount path).

Definition is_user_byte (b : Z) : bool := is_ascii_alphanumeric b || (b =? 95) || (b =? 45).

(** The [match] on content type and authorized user. *)
Definition content_type_ok (content_type authorized_for_user : option string) : bool :=
  match content_type, authorized_for_user with
  | Some kind, Some user =>
      bool_decide (kind = "named-ssh-ed25519-public-keys")
      && negb (bool_decide (user = "")) && (slen user <=? 32) && all_bytes is_user_byte user
  | None, None => true
  | Some kind, None => bool_decide (kind ∈ ["openssh-private-key"; "openssh-public-key"])
  | None, Some _ => false
  end.

Definition validate_destination (path : SecretPath) (service : string) (d : Destination)
  : result SchemaError unit :=
  _ ← guard_err (bool_decide (ds_category d ∈ ["setup"; "service"; "backup"]))
        (invalid path "invalid category");
  _ ← guard_err (negb (bool_decide (ds_owner d = "") || bool_decide (ds_group d = "")))
        (invalid path "owner and group must not be empty");
  _ ← guard_err (bool_decide (ds_mode d ∈ ["0400"; "0440"]))
        (invalid path "mode must be 0400 or 0440");
  _ ← guard_err (negb (is_some_and (λ kind,
        negb (bool_decide (kind ∈ ["named-ssh-ed25519-public-keys"; "openssh-private-key";
                                   "openssh-public-key"]))) (ds_content_type d)))
        (invalid path "unsupported secret content type");
  _ ← guard_err (content_type_ok (ds_content_type d) (ds_authorized_for_user d))
        (invalid path "SSH key inventory requires a valid authorizedForUser");
  let prefix := "/persistent/secrets/" +:+ service +:+ "/" +:+ ds_category d +:+ "/" in
  let name := default "" (strip_prefix prefix (ds_path d)) in
  guard_err (negb (bool_decide (name = "") || contains_byte 47 name))
    (invalid path ("path must be directly below " +:+ prefix)).

Definition validate_value_generator (path : SecretPath) (leaf : SecretLeaf)
  : result SchemaError unit :=
  match lf_value_generator leaf with
  | None => Ok tt
  | Some generator =>
      let fail := InvalidValueDefinition path in
      _ ← guard_err (negb (lf_external_input_required leaf))
            (fail "valueGenerator contradicts externalInputRequired");
      _ ← guard_err (negb (bool_decide (lf_value_type leaf = Some VtPassword)))
            (fail "a password leaf uses the password generator; remove valueGenerator");
      _ ← guard_err (negb (is_some (ds_content_type (lf_destination leaf))))
            (fail "valueGenerator cannot produce a typed destination contentType");
      map_err fail (generator_validate generator)
  end.

Definition is_id_part_byte (b : Z) : bool := is_ascii_alphanumeric b || (b =? 95) || (b =? 45).
Definition is_host_byte (b : Z) : bool := is_ascii_alphanumeric b || (b =? 46) || (b =? 45).

(** The check of [sharedPublicId]. *)
Definition valid_shared_id (id : string) : bool :=
  let parts := split "/" id in
  (zlen parts =? 2)
  && forallb (λ part, negb (bool_decide (part = "")) && (slen part <=? 64)
                      && all_bytes is_id_part_byte part) parts
  && (slen id <=? 256).

Definition valid_ssh_host (host : string) : bool :=
  negb (bool_decide (host = "")) && (slen host <=? 253)
  && (is_some (parse_ip host) || all_bytes is_host_byte host).

Section Leaves.
Context (b64_decode : string → option (list Z)) (from_openssh : string → option Algorithm).
Context (regex_new : string → result string (string → bool)).
Context (error_text : SchemaError → string).

Definition validate_value (path : SecretPath) (value_type : option ValueType)
  (constraints : option ConsumerConstraints) : result SchemaError unit :=
  _ ← guard_err (negb (is_some constraints && negb (bool_decide (value_type = Some VtPassword))))
        (InvalidValueDefinition path "consumerConstraints requires valueType=password");
  match constraints with
  | Some constraints =>
      map_err (InvalidValueDefinition path) (constraints_validate regex_new constraints)
  | None => Ok tt
  end.

Definition validate_derived_leaf (path : SecretPath) (leaf : SecretLeaf)
  : result SchemaError unit :=
  match lf_derived_from leaf with
  | None => Ok tt
  | Some derived =>
      let fail := InvalidValueDefinition path in
      _ ← guard_err (negb (is_some (lf_value_generator leaf) || lf_external_input_required leaf))
            (fail "derivedFrom excludes valueGenerator and externalInputRequired");
      map_err fail (_ ← derived_validate error_text derived; Ok tt)
  end.

Definition validate_public_destination (path : SecretPath) (leaf : SecretLeaf)
  : result SchemaError unit :=
  id ← ok_or (invalid path "public-info has no sharedPublicId") (lf_shared_public_id leaf);
  _ ← guard_err (valid_shared_id id) (invalid path "invalid sharedPublicId");
  let d := lf_destination leaf in
  _ ← guard_err (bool_decide (ds_path d = "/persistent/public-info/" +:+ id)
        && bool_decide (ds_category d = "public-info")
        && bool_decide (ds_owner d = "root") && bool_decide (ds_group d = "root")
        && bool_decide (ds_mode d = "0644")
        && bool_decide (ds_content_type d = Some "ssh-known-hosts")
        && bool_decide (ds_authorized_for_user d = None))
        (invalid path "public-info destination must be its root-owned 0644 known-hosts path");
  _ ← guard_err (is_some (lf_expected_ssh_host leaf)) (invalid path "expectedSshHost is required");
  let hosts := leaf_ssh_hosts leaf in
  _ ← guard_err ((zlen hosts <=? 64) && forallb valid_ssh_host hosts
                 && negb (default 0 (lf_expected_ssh_port leaf) =? 0))
        (invalid path "invalid expected SSH host or port");
  _ ← try_each (λ host,
        match local_only_ssh_host host with
        | Some kind => Err (invalid path ("expected SSH host " +:+ host +:+ " is " +:+ kind
                              +:+ "; pin the host's real name or address"))
        | None => Ok tt
        end) hosts;
  match lf_default_value leaf with
  | Some value =>
      map_err (λ error, invalid path ("invalid defaultValue: " +:+ error))
        (validate_ssh_known_hosts from_openssh value hosts (default 0 (lf_expected_ssh_port leaf)))
  | None => Ok tt
  end.

Definition validate_generated (path : SecretPath) (service : string) (leaf : GeneratedSecretLeaf)
  : result SchemaError unit :=
  let g := gl_generated_secret leaf in
  _ ← validate_recipients path (gl_recipient_public_keys leaf) (gl_recipient_ids leaf);
  _ ← validate_destination path service (gs_output g);
  _ ← validate_value path (gl_value_type leaf) (gl_consumer_constraints leaf);
  match gs_secret_type g with
  | LocalSshKey =>
      _ ← guard_err (negb (is_some (gs_bootstrap g))
                     && bool_decide (ds_category (gs_output g) = "service"))
            (invalid path "local SSH key must have a service output and no bootstrap");
      match gs_register_at g with
      | Some register_at =>
          map_err (λ _, invalid path "invalid registration secret identifier")
            (_ ← path_parse register_at; Ok tt)
      | None => Ok tt
      end
  | StorageBoxSshKey =>
      bootstrap ← ok_or (invalid path "storage-box bootstrap is missing") (gs_bootstrap g);
      _ ← guard_err (negb (is_some (gs_register_at g)))
            (invalid path "storage-box key cannot register another secret");
      _ ← guard_err (negb (bool_decide (sb_host bootstrap = "") || bool_decide (sb_user bootstrap = "")))
            (invalid path "storage-box bootstrap is incomplete");
      _ ← guard_err (sb_port bootstrap =? 23)
            (invalid path "storage-box bootstrap port must be 23");
      _ ← guard_err (negb
            (Bool.eqb (bool_decide (sb_host_public_keys bootstrap = []))
                      (negb (is_some (sb_known_hosts_file bootstrap)))
             || existsb (λ key, negb (valid_ssh_public_key b64_decode key))
                  (sb_host_public_keys bootstrap)))
            (invalid path "exactly one pinned host-key source is required");
      _ ← guard_err (negb (is_some_and (λ file,
              negb (starts_with "/persistent/public-info/" file) || contains_str ".." file)
              (sb_known_hosts_file bootstrap)))
            (invalid path "invalid knownHostsFile path");
      _ ← guard_err (negb (has_duplicates (sb_host_public_keys bootstrap)))
            (invalid path "duplicate pinned OpenSSH host public key");
      guard_err (negb (existsb (λ key, negb (valid_ssh_public_key b64_decode key))
                         (gl_recipient_public_keys leaf)))
        (invalid path "invalid OpenSSH recipient public key")
  end.
End Leaves.

(** ** The tree *)
Section Tree.
Context (b64_decode : string → option (list Z)) (from_openssh : string → option Algorithm).
Context (regex_new : string → result string (string → bool)).
Context (error_text : SchemaError → string).

(** The [Secret] arm of [validate_tree]. *)
Definition validate_secret_leaf (path : SecretPath) (service : string) (leaf : SecretLeaf)
  : result SchemaError unit :=
  _ ← guard_err (negb (lf_optional leaf && lf_required_for_install leaf))
        (invalid path "optional conflicts with requiredForInstall");
  _ ← validate_description path (lf_description leaf);
  match lf_kind leaf with
  | KSecret =>
      _ ← guard_err (negb (is_some (lf_shared_public_id leaf)
            || is_some (lf_expected_ssh_host leaf)
            || negb (bool_decide (lf_expected_ssh_hosts leaf = []))
            || is_some (lf_default_value leaf)
            || is_some (lf_expected_ssh_port leaf)
            || lf_install_default_if_missing leaf))
            (invalid path "public-info fields require kind=public-info");
      _ ← validate_recipients path (lf_recipient_public_keys leaf) (lf_recipient_ids leaf);
      _ ← validate_destination path service (lf_destination leaf);
      _ ← validate_value regex_new path (lf_value_type leaf) (lf_consumer_constraints leaf);
      _ ← validate_value_generator path leaf;
      validate_derived_leaf error_text path leaf
  | KPublicInfo =>
      _ ← guard_err (negb (negb (bool_decide (lf_recipient_public_keys leaf = []))
            || negb (bool_decide (lf_recipient_ids leaf = []))
            || negb (bool_decide (lf_recipient_names leaf = []))
            || is_some (lf_value_type leaf)
            || is_some (lf_consumer_constraints leaf)
            || is_some (lf_value_generator leaf)
            || is_some (lf_derived_from leaf)))
            (invalid path "public-info cannot have encryption or private value settings");
      validate_public_destination from_openssh path leaf
  end.

Definition validate_operator_leaf (path : SecretPath) (leaf : OperatorLeaf)
  : result SchemaError unit :=
  _ ← validate_description path (ol_description leaf);
  _ ← validate_recipients path (ol_recipient_public_keys leaf) (ol_recipient_ids leaf);
  _ ← guard_err (negb (existsb (λ key, negb (valid_ssh_public_key b64_decode key))
                         (ol_recipient_public_keys leaf)))
        (invalid path "invalid OpenSSH recipient public key");
  match ol_generator leaf with
  | Some generator => map_err (InvalidValueDefinition path) (keypair_validate generator)
  | None => Ok tt
  end.

Definition validate_generated_leaf (path : SecretPath) (service : string)
  (leaf : GeneratedSecretLeaf) : result SchemaError unit :=
  _ ← guard_err (negb (gl_optional leaf && gl_required_for_install leaf))
        (invalid path "optional conflicts with requiredForInstall");
  _ ← validate_description path (gl_description leaf);
  validate_generated b64_decode regex_new path service leaf.

Fixpoint validate_tree (host namespace service : string) (parents : list string)
  (node : SecretNode) : result SchemaError unit :=
  match node with
  | Branch children =>
      (fix go children :=
         match children with
         | [] => Ok tt
         | (name, child) :: children =>
             match validate_component name with
             | Err e => Err e
             | Ok _ =>
                 match validate_tree host namespace service (parents ++ [name]) child with
                 | Err e => Err e
                 | Ok _ => go children
                 end
             end
         end) children
  | Secret leaf => validate_secret_leaf (leaf_path host namespace service parents) service leaf
  | Operator leaf => validate_operator_leaf (leaf_path host namespace service parents) leaf
  | Generated leaf =>
      validate_generated_leaf (leaf_path host namespace service parents) service leaf
  end.

(** ** [schema/registry.rs] *)
Definition check_recipient_names (host : string) (names keys : list string)
  (registry : list (string * string)) : result SchemaError unit :=
  if bool_decide (names = []) then Ok tt
  else
    let path := synthetic_path host in
    _ ← guard_err (negb (negb (zlen names =? zlen keys)
          || existsb (λ '(name, key),
               bool_decide (name = "") || (64 <? slen name)
               || negb (all_bytes is_user_byte name)
               || negb (bool_decide (bt_get name registry = Some key))) (combine names keys)))
          (invalid path "named recipient does not match the host registry");
    guard_err (negb (has_duplicates names)) (invalid path "duplicate recipient name").

Fixpoint validate_named_recipients (host : string) (registry : list (string * string))
  (node : SecretNode) : result SchemaError unit :=
  match node with
  | Branch children =>
      (fix go children :=
         match children with
         | [] => Ok tt
         | (_, child) :: children =>
             match validate_named_recipients host registry child with
             | Err e => Err e
             | Ok _ => go children
             end
         end) children
  | Secret leaf =>
      check_recipient_names host (lf_recipient_names leaf) (lf_recipient_public_keys leaf) registry
  | Generated leaf =>
      check_recipient_names host (gl_recipient_names leaf) (gl_recipient_public_keys leaf) registry
  | Operator leaf =>
      check_recipient_names host (ol_recipient_names leaf) (ol_recipient_public_keys leaf) registry
  end.

Definition shared_specs : Type := list (string * (list string * Z)).

Fixpoint validate_shared_public_specs (host : string) (node : SecretNode) (seen : shared_specs)
  : result SchemaError shared_specs :=
  match node with
  | Branch children =>
      (fix go children seen :=
         match children with
         | [] => Ok seen
         | (_, child) :: children =>
             match validate_shared_public_specs host child seen with
             | Err e => Err e
             | Ok seen => go children seen
             end
         end) children seen
  | Secret leaf =>
      match lf_kind leaf with
      | KPublicInfo =>
          id ← ok_or (Panicked "validated public-info ID") (lf_shared_public_id leaf);
          port ← ok_or (Panicked "validated SSH port") (lf_expected_ssh_port leaf);
          let value := (leaf_ssh_hosts leaf, port) in
          _ ← guard_err (is_none_or (λ previous, bool_decide (previous = value)) (bt_get id seen))
                (invalid (synthetic_path host)
                   "shared public-info ID has conflicting validation settings");
          Ok (bt_insert id value seen)
      | KSecret => Ok seen
      end
  | _ => Ok seen
  end.

(** ** [Schema::validate_derived] *)
(** [derived::collect]. *)
Fixpoint collect_stored (schema : Schema) (path : list string) (node : SecretNode)
  (leaves : list (SecretPath * SecretSpec)) : result SchemaError (list (SecretPath * SecretSpec)) :=
  match node with
  | Branch children =>
      (fix go children leaves :=
         match children with
         | [] => Ok leaves
         | (name, child) :: children =>
             match collect_stored schema (path ++ [name]) child leaves with
             | Err e => Err e
             | Ok leaves => go children leaves
             end
         end) children leaves
  | Secret _ =>
      secret_path ← path_new path;
      spec ← leaf schema secret_path;
      match spec with
      | Stored spec => Ok (leaves ++ [(secret_path, spec)])
      | _ => Ok leaves
      end
  | _ => Ok leaves
  end.

Definition stored_leaves (schema : Schema) : result SchemaError (list (SecretPath * SecretSpec)) :=
  over_hosts (λ host namespace service node leaves,
    collect_stored schema [host; namespace; service] node leaves) schema [].

(** The body of the loop of [validate_derived]. *)
Definition validate_derived_spec (schema : Schema) (path : SecretPath) (spec : SecretSpec)
  : result SchemaError unit :=
  match ss_derived_from spec with
  | None => Ok tt
  | Some derived =>
      source ← map_err (InvalidValueDefinition path) (derived_validate error_text derived);
      if negb (bt_contains (nth 0 source "") schema) then Ok tt
      else
        let fail := InvalidValueDefinition path in
        _ ← guard_err (negb (bool_decide (source = path)))
              (fail "a value cannot be derived from itself");
        match leaf schema source with
        | Ok (Stored source) =>
            guard_err (bool_decide (ss_kind source = KSecret) && negb (is_some (ss_derived_from source)))
              (fail "derivedFrom must name a stored secret that is not itself derived")
        | Ok _ => Err (fail "derivedFrom must name a stored secret that is not itself derived")
        | Err _ => Err (fail "derivedFrom names a value absent from the schema")
        end
  end.

Definition validate_derived (schema : Schema) : result SchemaError unit :=
  leaves ← stored_leaves schema;
  try_each (λ '(path, spec), validate_derived_spec schema path spec) leaves.

(** ** [Schema::validate] *)
Definition validate_publisher (schema : Schema) (host_name : string) (m : HostMetadata)
  (producers : list (string * string)) : result SchemaError (list (string * string)) :=
  match dm_publish_host_identity_to (hm_deployment m) with
  | None => Ok producers
  | Some identifier =>
      path ← path_parse identifier;
      spec ← secret schema path;
      _ ← guard_err (bool_decide (ss_kind spec = KPublicInfo)
            && is_some (ss_shared_public_id spec)
            && is_some (ss_expected_ssh_port spec)
            && bool_decide (nth 0 path "" = host_name))
            (invalid path "publishHostIdentityTo requires this producer's shared public-info leaf");
      shared ← ok_or (Panicked "checked above") (ss_shared_public_id spec);
      _ ← guard_err (negb (bt_contains shared producers))
            (invalid path "shared host identity has more than one producer");
      Ok (bt_insert shared host_name producers)
  end.

Definition validate_display_paths (host : HostSchema) : result SchemaError unit :=
  try_each (λ '(namespace, services),
    _ ← validate_namespace namespace;
    try_each (λ '(service, path),
      _ ← guard_err (is_some_and (bt_contains service) (bt_get namespace (hs_service_groups host))
                     && negb (bool_decide (path = [])))
            (InvalidComponent ("unknown or empty display path for " +:+ namespace +:+ "." +:+ service));
      try_each validate_component path) services)
    (hm_service_display_paths (hs_metadata host)).

(** The display path of a service, its own name by default. *)
Definition display_path (host : HostSchema) (namespace service : string) : list string :=
  default [service]
    (paths ← bt_get namespace (hm_service_display_paths (hs_metadata host)); bt_get service paths).

Definition validate_unique_paths (host : HostSchema) : result SchemaError unit :=
  try_each (λ '(namespace, services),
    _ ← try_fold (λ (used : list (list string * unit)) '(service, _),
          let path := display_path host namespace service in
          _ ← guard_err (negb (bt_contains path used))
                (InvalidComponent ("duplicate display path in " +:+ namespace));
          Ok (bs_insert path used)) [] services;
    Ok tt) (hs_service_groups host).

Definition validate_host (schema : Schema) (acc : list (string * string) * shared_specs)
  (entry : string * HostSchema) : result SchemaError (list (string * string) * shared_specs) :=
  let '(producers, specs) := acc in
  let '(host_name, host) := entry in
  let m := hs_metadata host in
  _ ← validate_component host_name;
  _ ← guard_err (starts_with "/" (hm_socket_path m))
        (invalid (synthetic_path host_name) "socketPath must be absolute");
  _ ← guard_err (negb (bool_decide (dm_host (hm_deployment m) = "")
                       || bool_decide (dm_destination (hm_deployment m) = "")
                       || (dm_port (hm_deployment m) =? 0)))
        (invalid (synthetic_path host_name) "deployment metadata is incomplete");
  producers ← validate_publisher schema host_name m producers;
  specs ← try_fold (λ specs '(namespace, services),
      _ ← validate_namespace namespace;
      try_fold (λ specs '(service, tree),
        _ ← validate_component service;
        _ ← validate_tree host_name namespace service [] tree;
        _ ← validate_named_recipients host_name (hm_recipient_public_keys m) tree;
        validate_shared_public_specs host_name tree specs) specs services)
    specs (hs_service_groups host);
  _ ← validate_display_paths host;
  _ ← validate_unique_paths host;
  Ok (producers, specs).

Definition schema_validate (schema : Schema) : result SchemaError unit :=
  _ ← identity_index schema;
  _ ← validate_derived schema;
  _ ← try_fold (validate_host schema) ([], []) schema;
  Ok tt.
End Tree.

(** ** Derived values: framing and versions *)
(** Reads one field of a PostgreSQL password file: up to the next [:] that is
    not escaped, or the end; the reference for [pgpass_escape]. *)
Fixpoint pgpass_field (l : list Z) : list Z * list Z :=
  match l with
  | [] => ([], [])
  | 58 :: l => ([], l)
  | 92 :: b :: l => let '(field, rest) := pgpass_field l in (b :: field, rest)
  | b :: l => let '(field, rest) := pgpass_field l in (b :: field, rest)
  end.

Lemma pgpass_field_escape l rest :
  pgpass_field (pgpass_escape l ++ 58 :: rest) = (l, rest).
Proof.
  induction l as [|b l IH]; [done|].
  unfold pgpass_escape in *. rewrite mjoin_fmap_cons, <- (assoc app).
  destruct (Z.eqb_spec b 58) as [->|H58]; [cbn; by rewrite IH|].
  destruct (Z.eqb_spec b 92) as [->|H92]; [cbn; by rewrite IH|]. cbn [orb app].
  assert (pgpass_field (b :: mjoin ((λ byte, if (byte =? 58) || (byte =? 92) then [92; byte] else [byte]) <$> l)
                        ++ 58 :: rest)
    = (let '(field, rest) := pgpass_field (mjoin ((λ byte, if (byte =? 58) || (byte =? 92)
         then [92; byte] else [byte]) <$> l) ++ 58 :: rest) in (b :: field, rest))) as ->.
  { cbn [pgpass_field]. repeat (case_match; try done); lia. }
  by rewrite IH.
Qed.

Lemma pgpass_escape_class l :
  existsb (λ byte, (byte =? 0) || (byte =? 13) || (byte =? 10)) l = false →
  existsb (λ byte, (byte =? 0) || (byte =? 13) || (byte =? 10)) (pgpass_escape l) = false.
Proof.
  induction l as [|b l IH]; [done|]. cbn [existsb]. rewrite orb_false_iff. intros [Hb Hl].
  unfold pgpass_escape in *. rewrite mjoin_fmap_cons, existsb_app, IH by done.
  rewrite orb_false_r. case_match; cbn; by rewrite Hb.
Qed.

(** A derived PostgreSQL password-file field cannot break the record: the
    framed value is prefix, escaped password, suffix; reading the field back
    up to the next unescaped [:] yields exactly the source password; and no
    NUL or line break comes from it. *)
Theorem pgpass_frame_safe d source out :
  df_encoding d = Some "pgpass" → frame_encoded d source = Ok out →
  ∃ field, out = bytes (df_prefix d) ++ field ++ bytes (df_suffix d)
    ∧ (∀ rest, pgpass_field (field ++ 58 :: rest) = (source, rest))
    ∧ existsb (λ byte, (byte =? 0) || (byte =? 13) || (byte =? 10)) field = false.
Proof.
  unfold frame_encoded, frame_bytes. intros -> H. rewrite bool_decide_eq_true_2 in H by done.
  destruct (existsb _ source) eqn:E; [done|]. simplify_eq.
  exists (pgpass_escape source).
  split_and!; [done|intros; apply pgpass_field_escape|by apply pgpass_escape_class].
Qed.

Definition sample_derived : DerivedFrom :=
  {| df_identifier := "db.services.postgresql.password"; df_prefix := "host:5432:*:ann:";
     df_suffix := ""; df_toml_path := []; df_encoding := Some "pgpass" |}.

Lemma pgpass_frame_safe_witness :
  ∃ field, bytes "host:5432:*:ann:pa\:ss\\word" =
      bytes (df_prefix sample_derived) ++ field ++ bytes (df_suffix sample_derived)
    ∧ (∀ rest, pgpass_field (field ++ 58 :: rest) = (bytes "pa:ss\word", rest))
    ∧ existsb (λ byte, (byte =? 0) || (byte =? 13) || (byte =? 10)) field = false.
Proof.
  apply (pgpass_frame_safe sample_derived (bytes "pa:ss\word")); [done|].
  vm_compute. reflexivity.
Defined.

Lemma length_prefixed_inj a b r s :
  zlen a < 2 ^ 64 → zlen b < 2 ^ 64 →
  length_prefixed a ++ r = length_prefixed b ++ s → a = b ∧ r = s.
Proof.
  intros Ha Hb H. unfold length_prefixed in H. rewrite <- !(assoc app) in H.
  apply app_inj_1 in H as [Hlen H]; [|by rewrite !length_be_bytes].
  apply (f_equal be_value) in Hlen.
  rewrite !be_value_bytes_id in Hlen by (split; [apply zlen_nonneg|done]).
  apply app_inj_1 in H; [done|]. unfold zlen in Hlen. lia.
Qed.

Definition df_bounded (d : DerivedFrom) : Prop :=
  slen (df_identifier d) < 2 ^ 64 ∧ slen (df_prefix d) < 2 ^ 64 ∧ slen (df_suffix d) < 2 ^ 64
  ∧ slen (join (String "000" "") (df_toml_path d)) < 2 ^ 64
  ∧ is_none_or (λ e, slen ("encoding:" +:+ e) <? 2 ^ 64) (df_encoding d) = true
  ∧ Forall (λ key, contains_byte 0 key = false) (df_toml_path d).

(** What the deployed version hashes determines the source version, the
    source identifier, prefix and suffix, and, between two derivations that
    both select a TOML field or both do not, the selector and the encoding:
    no two framings share a hash input. *)
Theorem version_input_injective d e v w :
  df_bounded d → df_bounded e → zlen v < 2 ^ 64 → zlen w < 2 ^ 64 →
  (df_toml_path d = [] ↔ df_toml_path e = []) →
  version_input d v = version_input e w →
  v = w ∧ df_identifier d = df_identifier e ∧ df_prefix d = df_prefix e
  ∧ df_suffix d = df_suffix e ∧ df_toml_path d = df_toml_path e ∧ df_encoding d = df_encoding e.
Proof.
  intros (Hd1 & Hd2 & Hd3 & Hd4 & Hd5 & Hd6) (He1 & He2 & He3 & He4 & He5 & He6) Hv Hw Hempty H.
  rewrite !slen_bytes in *. unfold version_input in H. cbn [fmap list_fmap mjoin list_join] in H.
  rewrite !app_nil_r, <- !(assoc app) in H.
  apply length_prefixed_inj in H as [Hvw H]; [|done..].
  apply length_prefixed_inj in H as [Hi%bytes_inj H]; [|done..].
  apply length_prefixed_inj in H as [Hp%bytes_inj H]; [|done..].
  apply length_prefixed_inj in H as [Hs%bytes_inj H]; [|done..].
  assert (df_toml_path d = df_toml_path e
    ∧ match df_encoding d with
      | Some encoding => length_prefixed (bytes ("encoding:" +:+ encoding)) | None => [] end
    = match df_encoding e with
      | Some encoding => length_prefixed (bytes ("encoding:" +:+ encoding)) | None => [] end)
    as [Ht Henc].
  { destruct (decide (df_toml_path d = [])) as [Hd|Hd].
    - pose proof (proj1 Hempty Hd) as He. rewrite Hd, He in *.
      rewrite !bool_decide_eq_true_2 in H by done. done.
    - assert (df_toml_path e ≠ []) as He by tauto.
      rewrite !bool_decide_eq_false_2 in H by done.
      apply length_prefixed_inj in H as [Hj%bytes_inj H]; [|done..]. split; [|done].
      apply (f_equal (split "000")) in Hj. by rewrite !split_join in Hj. }
  split_and!; try done.
  destruct (df_encoding d) as [a|], (df_encoding e) as [b|]; try done.
  - cbn in Hd5, He5. bool_prop. rewrite !slen_bytes in *.
    rewrite <- (app_nil_r (length_prefixed (bytes ("encoding:" +:+ a)))),
      <- (app_nil_r (length_prefixed (bytes ("encoding:" +:+ b)))) in Henc.
    apply length_prefixed_inj in Henc as [Hab _]; [|done..].
    rewrite !bytes_app in Hab. apply app_inj_1 in Hab as [_ Hab]; [|done].
    f_equal. by apply bytes_inj.
Qed.

Definition sample_derived_toml : DerivedFrom :=
  {| df_identifier := "db.services.postgresql.password"; df_prefix := ""; df_suffix := "";
     df_toml_path := ["encoding:pgpass"]; df_encoding := None |}.
Definition sample_derived_encoded : DerivedFrom :=
  {| df_identifier := "db.services.postgresql.password"; df_prefix := ""; df_suffix := "";
     df_toml_path := []; df_encoding := Some "pgpass" |}.

Lemma sample_derived_bounded : df_bounded sample_derived.
Proof. unfold df_bounded. split_and!; try (vm_compute; reflexivity). constructor. Qed.

Lemma version_input_injective_witness :
  [1; 2] = [1; 2] ∧ df_identifier sample_derived = df_identifier sample_derived
  ∧ df_prefix sample_derived = df_prefix sample_derived
  ∧ df_suffix sample_derived = df_suffix sample_derived
  ∧ df_toml_path sample_derived = df_toml_path sample_derived
  ∧ df_encoding sample_derived = df_encoding sample_derived.
Proof.
  apply (version_input_injective sample_derived sample_derived [1; 2] [1; 2]);
    [apply sample_derived_bounded|apply sample_derived_bounded|vm_compute; reflexivity
    |vm_compute; reflexivity|done|done].
Defined.

(** A selector and an encoding can share a version: a derivation that
    selects the TOML key [encoding:pgpass] and one that encodes the whole
    value with [pgpass] both pass validation, differ in their encoding, and have
    the same version for every source version. *)
Theorem version_collision error_text sha256 :
  ∃ d e : DerivedFrom,
    is_ok (derived_validate error_text d) = true ∧ is_ok (derived_validate error_text e) = true
    ∧ df_encoding d ≠ df_encoding e
    ∧ ∀ v, derived_version sha256 d v = derived_version sha256 e v.
Proof.
  exists sample_derived_toml, sample_derived_encoded.
  split_and!; [vm_compute; reflexivity|vm_compute; reflexivity|done|].
  intros v. unfold derived_version, version_input. reflexivity.
Qed.

(** ** known_hosts *)
Section KnownHosts.
Context (from_openssh : string → option Algorithm) (hosts : list string) (port : Z).

(** What one accepted line is: [text] is the line, [host] and [key] what is
    kept of it. *)
Definition pinned_line (text : string) (entry : string * string) : Prop :=
  ∃ name algorithm key,
    entry = (entry.1, algorithm +:+ " " +:+ key)
    ∧ text = name +:+ " " +:+ algorithm +:+ " " +:+ key
    ∧ entry.1 ∈ hosts
    ∧ (name = "[" +:+ entry.1 +:+ "]:" +:+ dec port ∨ (port = 22 ∧ name = entry.1))
    ∧ local_only_ssh_host (bare_name name) = None
    ∧ (∃ alg, from_openssh (algorithm +:+ " " +:+ key) = Some alg
         ∧ allowed_algorithm alg = true ∧ algorithm_str alg = algorithm)
    ∧ Forall (λ b, contains_byte b text = false) [42; 63; 44; 64; 124; 35].

Lemma known_hosts_line_ok index seen lines text index' seen' lines' :
  known_hosts_line from_openssh hosts port (index, seen, lines) text = Ok (index', seen', lines') →
  ∃ entry, lines' = lines ++ [entry] ∧ pinned_line text entry
    ∧ zlen lines ≠ MAX_KNOWN_HOSTS_LINES.
Proof.
  unfold known_hosts_line. intros H.
  destruct (zlen lines =? MAX_KNOWN_HOSTS_LINES) eqn:El; [done|].
  destruct (existsb _ _) eqn:Eb; [done|].
  destruct (split_ascii_whitespace text) as [|name [|algorithm [|key [|]]]]; try done.
  destruct (negb _) eqn:Et; [done|]. bool_prop.
  destruct (local_only_ssh_host (bare_name name)) eqn:Elo; [done|].
  destruct (list_find _ hosts) as [[i host]|] eqn:Ef; [|done].
  destruct (from_openssh _) as [alg|] eqn:Ek; [|done].
  destruct (negb (allowed_algorithm alg) || _) eqn:Ea; [done|].
  destruct (bool_decide ((name, key) ∈ seen)); [done|]. simplify_eq. bool_prop.
  destruct Ea as [Ea1 Ea2]. bool_prop.
  apply list_find_Some in Ef as (Hi & Hn & _).
  exists (host, algorithm +:+ " " +:+ key). split_and!; [done| |done].
  exists name, algorithm, key. cbn [fst]. split_and!; try done.
  - by eapply list_elem_of_lookup_2.
  - eauto.
  - repeat (apply orb_false_iff in Eb as [? Eb]). by repeat constructor.
Qed.

Lemma known_hosts_fold texts acc index' seen' lines' :
  try_fold (known_hosts_line from_openssh hosts port) acc texts = Ok (index', seen', lines') →
  ∃ entries, lines' = acc.2 ++ entries ∧ Forall2 pinned_line texts entries
    ∧ (zlen acc.2 ≤ MAX_KNOWN_HOSTS_LINES → zlen lines' ≤ MAX_KNOWN_HOSTS_LINES).
Proof.
  revert acc. induction texts as [|text texts IH]; intros [[index seen] lines]; cbn [try_fold].
  - intros [= -> -> ->]. exists []. rewrite app_nil_r. split_and!; [done|constructor|done].
  - destruct (known_hosts_line _ _ _ _ text) as [[[i1 s1] l1]|] eqn:E; [|done].
    apply known_hosts_line_ok in E as (entry & -> & Hp & Hne).
    intros (entries & -> & Hall & Hlen)%IH. cbn [snd] in *.
    exists (entry :: entries). rewrite <- (assoc app). split_and!; [done|by constructor|].
    intros Hle. rewrite (assoc app). apply Hlen. rewrite zlen_app.
    change (zlen [entry]) with 1. lia.
Qed.
End KnownHosts.

(** An accepted known_hosts value consists of at most 256 canonical lines
    that each pin one allowed host on the port with an Ed25519, ECDSA or RSA
    key: no markers, wildcards or host lists, and no name that only reaches
    this machine or link.  [known_hosts_keys] returns exactly the keys of the
    lines of its host. *)
Theorem known_hosts_sound from_openssh value hosts port lines :
  known_hosts_lines from_openssh value hosts port = Ok lines →
  ∃ body, (value = body ∨ value = body +:+ String "010" "") ∧ contains_byte 13 value = false
    ∧ slen value ≤ MAX_KNOWN_HOSTS_BYTES
    ∧ Forall2 (pinned_line from_openssh hosts port) (split "010" body) lines
    ∧ zlen lines ≤ MAX_KNOWN_HOSTS_LINES
    ∧ ∀ host, known_hosts_keys from_openssh value hosts port host =
        Ok ((filter (λ '(name, _), name = host) lines).*2).
Proof.
  intros H. assert (∀ host, known_hosts_keys from_openssh value hosts port host =
        Ok ((filter (λ '(name, _), name = host) lines).*2)) as Hkeys
    by (intros; unfold known_hosts_keys; by rewrite H).
  unfold known_hosts_lines, mbind, result_bind in H.
  destruct (_ || contains_byte 13 value) eqn:Ev; [done|]. apply orb_false_iff in Ev as [Ev1 Ev2].
  set (body := default value (strip_suffix (String "010" "") value)) in *.
  destruct (bool_decide (body = "")); [done|].
  destruct (try_fold _ _ (split "010" body)) as [[[i s] l]|] eqn:E; [|done]. simplify_eq.
  apply known_hosts_fold in E as (entries & Hl & Hall & Hlen). cbn in Hl, Hlen. subst.
  exists body. bool_prop. split_and!; try done.
  - subst body. destruct (strip_suffix _ value) as [b|] eqn:Es; [|by left].
    apply strip_suffix_Some in Es. by right.
  - apply Hlen. by vm_compute.
Qed.

Definition sample_openssh (s : string) : option Algorithm :=
  if starts_with "ssh-ed25519 " s then Some (AlgEd25519 "ssh-ed25519") else None.
Definition sample_known_hosts : string :=
  "[web.example]:2222 ssh-ed25519 AAAA" +:+ String "010" "".

Lemma known_hosts_sound_witness :
  ∃ body, (sample_known_hosts = body ∨ sample_known_hosts = body +:+ String "010" "")
    ∧ contains_byte 13 sample_known_hosts = false
    ∧ slen sample_known_hosts ≤ MAX_KNOWN_HOSTS_BYTES
    ∧ Forall2 (pinned_line sample_openssh ["web.example"] 2222) (split "010" body)
        [("web.example", "ssh-ed25519 AAAA")]
    ∧ zlen [("web.example", "ssh-ed25519 AAAA")] ≤ MAX_KNOWN_HOSTS_LINES
    ∧ ∀ host, known_hosts_keys sample_openssh sample_known_hosts ["web.example"] 2222 host =
        Ok ((filter (λ '(name, _), name = host) [("web.example", "ssh-ed25519 AAAA")]).*2).
Proof.
  apply (known_hosts_sound sample_openssh sample_known_hosts ["web.example"] 2222).
  vm_compute. reflexivity.
Defined.

(** ** What a validated schema guarantees *)
Section Validated.
Context (b64_decode : string → option (list Z)) (from_openssh : string → option Algorithm).
Context (regex_new : string → result string (string → bool)).
Context (error_text : SchemaError → string).

(** The check of one leaf in service [service]. *)
Definition validate_leaf (path : SecretPath) (service : string) (node : SecretNode)
  : result SchemaError unit :=
  match node with
  | Secret leaf => validate_secret_leaf from_openssh regex_new error_text path service leaf
  | Operator leaf => validate_operator_leaf b64_decode path leaf
  | Generated leaf => validate_generated_leaf b64_decode regex_new path service leaf
  | Branch _ => Ok tt
  end.

Lemma validate_tree_branch host namespace service parents children :
  validate_tree b64_decode from_openssh regex_new error_text host namespace service parents
    (Branch children) =
  try_each (λ '(name, child),
    match validate_component name with
    | Err e => Err e
    | Ok _ => validate_tree b64_decode from_openssh regex_new error_text host namespace service
                (parents ++ [name]) child
    end) children.
Proof.
  cbn [validate_tree]. induction children as [|[name child] children IH]; [done|]. cbn [try_each].
  destruct (validate_component name); [|done].
  destruct (validate_tree _ _ _ _ _ _ _ _ child); [apply IH|done].
Qed.

Lemma validate_tree_leaves host namespace service node parents :
  validate_tree b64_decode from_openssh regex_new error_text host namespace service parents node
    = Ok tt →
  ∀ p n, (p, n) ∈ leaves_of ([host; namespace; service] ++ parents) node →
    validate_leaf p service n = Ok tt.
Proof.
  revert parents. induction node as [l|l|l|children IH] using SecretNode_ind'; intros parents Hv p n;
    try (cbn [leaves_of]; intros ?%list_elem_of_singleton; by simplify_eq).
  rewrite validate_tree_branch, try_each_ok in Hv. rewrite Forall_forall in Hv, IH.
  rewrite leaves_of_branch. intros ([name child] & Hin & Hp)%mjoin_elem.
  specialize (Hv _ Hin). cbn in Hv. destruct (validate_component name); [|done].
  rewrite <- (assoc app) in Hp. by apply (IH _ Hin _ Hv).
Qed.

Lemma try_fold_each {E A B} (f : B → A → result E B) acc l r x :
  try_fold f acc l = Ok r → x ∈ l → ∃ acc1 acc2, f acc1 x = Ok acc2.
Proof.
  revert acc. induction l as [|y l IH]; intros acc; [by intros _ ?%elem_of_nil|].
  cbn [try_fold]. destruct (f acc y) eqn:E'; [|done].
  intros H [->|?]%elem_of_cons; [eauto|by eapply IH].
Qed.

Lemma schema_validate_leaves schema :
  schema_validate b64_decode from_openssh regex_new error_text schema = Ok tt →
  ∀ p n, (p, n) ∈ schema_leaves schema →
    validate_leaf p (nth 2 p "") n = Ok tt ∧ validate_component (nth 0 p "") = Ok tt
    ∧ validate_namespace (nth 1 p "") = Ok tt ∧ validate_component (nth 2 p "") = Ok tt.
Proof.
  unfold schema_validate, mbind, result_bind. intros H p n.
  destruct (identity_index schema); [|done].
  destruct (validate_derived error_text schema); [|done].
  destruct (try_fold _ _ schema) as [acc|] eqn:E; [|done]. clear H.
  intros ([host entry] & Hh & Hp)%mjoin_elem.
  apply mjoin_elem in Hp as ([ns services] & Hns & Hp).
  apply mjoin_elem in Hp as ([service node] & Hs & Hp).
  destruct (try_fold_each _ _ _ _ _ E Hh) as ([a1 a2] & r & Hv).
  unfold validate_host, mbind, result_bind in Hv.
  destruct (validate_component host) eqn:Ec; [|done].
  destruct (guard_err (starts_with _ _) _); [|done].
  destruct (guard_err (negb _) _); [|done].
  destruct (validate_publisher _ _ _ _); [|done].
  destruct (try_fold _ a2 _) eqn:Ef; [|done]. clear Hv.
  destruct (try_fold_each _ _ _ _ _ Ef Hns) as (b1 & b2 & Hv).
  destruct (validate_namespace ns) eqn:En; [|done].
  destruct (try_fold_each _ _ _ _ _ Hv Hs) as (c1 & c2 & Hv').
  destruct (validate_component service) eqn:Es; [|done].
  destruct (validate_tree _ _ _ _ _ _ _ _ node) as [[]|] eqn:Et; [|done].
  pose proof (leaves_of_prefix _ _ _ _ Hp) as (q & Hq).
  assert (nth 0 p "" = host ∧ nth 1 p "" = ns ∧ nth 2 p "" = service) as (-> & -> & ->)
    by by rewrite Hq.
  rewrite Ec, En, Es. split; [by eapply (validate_tree_leaves host ns service node [])|].
  repeat match goal with u : unit |- _ => destruct u end. done.
Qed.

Lemma validate_recipients_ok path keys ids :
  validate_recipients path keys ids = Ok tt ↔ keys ≠ [] ∧ zlen keys = zlen ids.
Proof.
  unfold validate_recipients, mbind, result_bind, guard_err.
  repeat case_match; bool_prop; naive_solver.
Qed.

(** A destination below the service's own directory. *)
Definition destination_ok (service : string) (d : Destination) : Prop :=
  ds_category d ∈ ["setup"; "service"; "backup"]
  ∧ ds_owner d ≠ "" ∧ ds_group d ≠ "" ∧ ds_mode d ∈ ["0400"; "0440"]
  ∧ content_type_ok (ds_content_type d) (ds_authorized_for_user d) = true
  ∧ ∃ name, ds_path d = "/persistent/secrets/" +:+ service +:+ "/" +:+ ds_category d +:+ "/" +:+ name
      ∧ name ≠ "" ∧ contains_byte 47 name = false.

Lemma validate_destination_ok path service d :
  validate_destination path service d = Ok tt → destination_ok service d.
Proof.
  unfold validate_destination, destination_ok. cbv zeta. intros H.
  apply guard_bind_ok in H as [G1 H]. apply guard_bind_ok in H as [G2 H].
  apply guard_bind_ok in H as [G3 H]. apply guard_bind_ok in H as [_ H].
  apply guard_bind_ok in H as [G5 H]. apply guard_ok in H. bool_prop.
  destruct G2 as [Ho Hg]. destruct H as [Hn Hs]. bool_prop. split_and!; try done.
  destruct (strip_prefix _ (ds_path d)) as [name|] eqn:E; [|done].
  apply strip_prefix_Some in E. exists name. cbn in Hn, Hs. split_and!; [|done|done].
  by rewrite E, !sapp_assoc.
Qed.

(** What the consumers of a private value rely on. *)
Definition secret_ok (service : string) (spec : SecretSpec) : Prop :=
  destination_ok service (ss_destination spec)
  ∧ ss_recipient_public_keys spec ≠ []
  ∧ zlen (ss_recipient_public_keys spec) = zlen (ss_recipient_ids spec)
  ∧ ss_default_value spec = None ∧ ss_shared_public_id spec = None
  ∧ (is_some (ss_consumer_constraints spec) = true → ss_value_type spec = Some VtPassword)
  ∧ (is_some (ss_derived_from spec) = true →
       ss_value_generator spec = None ∧ ss_external_input_required spec = false)
  ∧ (is_some (ss_value_generator spec) = true →
       ss_external_input_required spec = false ∧ ss_value_type spec ≠ Some VtPassword).

(** What the consumers of public information rely on. *)
Definition public_ok (spec : SecretSpec) : Prop :=
  (∃ id, ss_shared_public_id spec = Some id
     ∧ ds_path (ss_destination spec) = "/persistent/public-info/" +:+ id
     ∧ valid_shared_id id = true)
  ∧ ds_owner (ss_destination spec) = "root" ∧ ds_mode (ss_destination spec) = "0644"
  ∧ ss_recipient_public_keys spec = [] ∧ ss_derived_from spec = None
  ∧ ss_value_generator spec = None
  ∧ (∃ port, ss_expected_ssh_port spec = Some port ∧ port ≠ 0)
  ∧ Forall (λ host, valid_ssh_host host = true ∧ local_only_ssh_host host = None)
      (spec_ssh_hosts spec)
  ∧ (∀ value, ss_default_value spec = Some value →
       ∃ port lines, ss_expected_ssh_port spec = Some port
         ∧ known_hosts_lines from_openssh value (spec_ssh_hosts spec) port = Ok lines).

Lemma validate_public_ok path leaf :
  lf_recipient_public_keys leaf = [] → lf_derived_from leaf = None →
  lf_value_generator leaf = None →
  validate_public_destination from_openssh path leaf = Ok tt → public_ok (stored_spec path leaf).
Proof.
  intros Hk Hd Hg H. unfold validate_public_destination in H. cbv zeta in H.
  apply bind_ok in H as (id & Hid & H). apply guard_bind_ok in H as [G1 H].
  apply guard_bind_ok in H as [G2 H]. apply guard_bind_ok in H as [_ H].
  apply guard_bind_ok in H as [G3 H]. apply bind_ok in H as ([] & Hl & H).
  apply try_each_ok in Hl. bool_prop. destruct G2 as [[[[[[? ?] ?] ?] ?] ?] ?].
  destruct G3 as [[Hn Hh] Hp]. apply forallb_Forall in Hh. bool_prop.
  destruct (lf_shared_public_id leaf) as [id'|] eqn:Eid; [|done]. cbn in Hid. simplify_eq.
  destruct (lf_expected_ssh_port leaf) as [port|] eqn:Ep; [|done]. cbn in Hp.
  assert (spec_ssh_hosts (stored_spec path leaf) = leaf_ssh_hosts leaf) as Hsh by done.
  unfold public_ok. cbn [stored_spec ss_shared_public_id ss_destination ss_recipient_public_keys
    ss_derived_from ss_value_generator ss_expected_ssh_port ss_default_value].
  split_and!; try done; [by exists id|by exists port| |].
  - rewrite Hsh. clear H. rewrite Forall_forall in *. intros host Hin.
    split; [by apply Hh|]. specialize (Hl _ Hin). cbn in Hl.
    by destruct (local_only_ssh_host host).
  - intros value Ev. rewrite Ev in H. exists port. rewrite Hsh.
    change (default 0 (Some port)) with port in H.
    unfold validate_ssh_known_hosts, map_err, mbind, result_bind in H.
    destruct (known_hosts_lines from_openssh value (leaf_ssh_hosts leaf) port); [eauto|done].
Qed.

Lemma validate_secret_leaf_ok path service leaf :
  validate_secret_leaf from_openssh regex_new error_text path service leaf = Ok tt →
  match lf_kind leaf with
  | KSecret => secret_ok service (stored_spec path leaf)
  | KPublicInfo => public_ok (stored_spec path leaf)
  end.
Proof.
  unfold validate_secret_leaf. intros H.
  apply guard_bind_ok in H as [_ H]. apply bind_ok in H as ([] & _ & H).
  destruct (lf_kind leaf).
  - apply guard_bind_ok in H as [G1 H].
    apply bind_ok in H as ([] & Hr%validate_recipients_ok & H).
    apply bind_ok in H as ([] & Hd%validate_destination_ok & H).
    apply bind_ok in H as ([] & Hv & H). apply bind_ok in H as ([] & Hg & H).
    bool_prop. destruct G1 as [[[[[Hid _] _] Hdef] _] _].
    destruct Hr as [Hk Hn].
    unfold secret_ok. cbn [stored_spec ss_destination ss_recipient_public_keys ss_recipient_ids
      ss_default_value ss_shared_public_id ss_consumer_constraints ss_value_type ss_derived_from
      ss_value_generator ss_external_input_required].
    split_and!; try done.
    + by destruct (lf_default_value leaf).
    + by destruct (lf_shared_public_id leaf).
    + intros Hc. unfold validate_value in Hv. apply guard_bind_ok in Hv as [G _].
      rewrite Hc in G. bool_prop. destruct G; [done|by bool_prop].
    + intros Hs. unfold validate_derived_leaf in H.
      destruct (lf_derived_from leaf); [|done]. apply guard_bind_ok in H as [G _]. bool_prop.
      destruct G. by destruct (lf_value_generator leaf).
    + intros Hs. unfold validate_value_generator in Hg.
      destruct (lf_value_generator leaf); [|done].
      apply guard_bind_ok in Hg as [G1 Hg]. apply guard_bind_ok in Hg as [G2 _]. by bool_prop.
  - apply guard_bind_ok in H as [G1 H]. bool_prop.
    destruct G1 as [[[[[[Hk _] _] _] _] Hg] Hd]. bool_prop.
    apply validate_public_ok; [done| | |done].
    + by destruct (lf_derived_from leaf).
    + by destruct (lf_value_generator leaf).
Qed.
End Validated.

(** ** Derived leaves of a schema *)
Definition stored_step (schema : Schema) (leaves : list (SecretPath * SecretSpec))
  (x : list string * SecretNode) : result SchemaError (list (SecretPath * SecretSpec)) :=
  match x.2 with
  | Secret _ =>
      secret_path ← path_new x.1;
      spec ← leaf schema secret_path;
      match spec with
      | Stored spec => Ok (leaves ++ [(secret_path, spec)])
      | _ => Ok leaves
      end
  | _ => Ok leaves
  end.

Lemma stored_leaves_fold schema :
  stored_leaves schema = try_fold (stored_step schema) [] (schema_leaves schema).
Proof.
  unfold stored_leaves. apply over_hosts_leaves.
  intros host namespace service node acc. generalize [host; namespace; service]. intros path.
  revert node path acc.
  apply (collect_leaves (stored_step schema) (λ path node acc, collect_stored schema path node acc)).
  - intros path node acc Hl. by destruct node.
  - intros path children. cbn [collect_stored].
    induction children as [|[name child] children IH]; intros acc; [done|]. cbn [try_fold].
    destruct (collect_stored _ _ child acc); [apply IH|done].
Qed.

Lemma stored_fold_complete schema l acc leaves :
  try_fold (stored_step schema) acc l = Ok leaves →
  (∀ x, x ∈ acc → x ∈ leaves)
  ∧ ∀ p n spec, (p, n) ∈ l → is_leaf n = true → (∃ sl, n = Secret sl) →
      leaf schema p = Ok (Stored spec) → (p, spec) ∈ leaves.
Proof.
  revert acc. induction l as [|[p n] l IH]; intros acc; cbn [try_fold].
  { intros [= ->]. split; [done|]. intros p n spec ?%elem_of_nil. done. }
  destruct (stored_step schema acc (p, n)) as [acc'|] eqn:E; [|done]. intros H.
  destruct (IH _ H) as [Hmono Hall]. unfold stored_step in E. cbn [fst snd] in E.
  assert (∀ x, x ∈ acc → x ∈ acc') as Hacc.
  { destruct n; simplify_eq; try done. apply bind_ok in E as (q & _ & E).
    apply bind_ok in E as (spec & _ & E). destruct spec; simplify_eq; set_solver. }
  split; [auto|]. intros p' n' spec [[= -> ->]|Hin]%elem_of_cons Hl Hs Hleaf; [|by eapply Hall].
  destruct Hs as [sl ->]. apply bind_ok in E as (q & Hq & E).
  pose proof Hq as (-> & _)%path_new_ok. rewrite Hleaf in E. cbn in E. simplify_eq.
  apply Hmono. set_solver.
Qed.

(** C31: In a validated schema every private leaf is installed directly below
    its own service's directory (its path is that directory, a slash and a name
    without a slash, where the code and this theorem also accept the names "."
    and ".."), owned, with mode 0400 or 0440, and encrypted
    to at least one recipient; every public leaf has its root-owned 0644 path,
    no recipients, a port and only host names that a key may be pinned for,
    and a default value that is a valid known_hosts text for them. *)
Theorem validated_leaf_safe b64_decode from_openssh regex_new error_text schema p spec :
  schema_wf schema → 3 ≤ zlen p →
  schema_validate b64_decode from_openssh regex_new error_text schema = Ok tt →
  leaf schema p = Ok (Stored spec) →
  match ss_kind spec with
  | KSecret => secret_ok (nth 2 p "") spec
  | KPublicInfo => public_ok from_openssh spec
  end
  ∧ validate_component (nth 2 p "") = Ok tt.
Proof.
  intros Hwf Hlen Hv Hl. apply schema_leaves_elem in Hl as (n & Hin & Hs); [|done..].
  destruct (schema_validate_leaves _ _ _ _ _ Hv _ _ Hin) as (Hleaf & _ & _ & Hc).
  split; [|done]. destruct n as [g|sl|o|c]; cbn in Hs; simplify_eq.
  cbn [validate_leaf] in Hleaf. apply (validate_secret_leaf_ok b64_decode) in Hleaf.
  cbn [stored_spec ss_kind]. by destruct (lf_kind sl).
Qed.

(** In a validated schema a derived value whose source host is in the
    schema has a stored private source other than itself that is not itself
    derived: derivations never chain or loop. *)
Theorem derived_sources_stored b64_decode from_openssh regex_new error_text schema p spec d :
  schema_wf schema → 3 ≤ zlen p →
  schema_validate b64_decode from_openssh regex_new error_text schema = Ok tt →
  leaf schema p = Ok (Stored spec) → ss_derived_from spec = Some d →
  ∃ source, path_parse (df_identifier d) = Ok source
    ∧ (bt_contains (nth 0 source "") schema = true →
       source ≠ p ∧ ∃ s, leaf schema source = Ok (Stored s)
         ∧ ss_kind s = KSecret ∧ ss_derived_from s = None).
Proof.
  intros Hwf Hlen Hv Hl Hd. unfold schema_validate in Hv.
  apply bind_ok in Hv as (index & _ & Hv). apply bind_ok in Hv as ([] & Hv & _).
  unfold validate_derived in Hv. apply bind_ok in Hv as (leaves & Hs & Hv).
  rewrite stored_leaves_fold in Hs. apply stored_fold_complete in Hs as [_ Hs].
  assert ((p, spec) ∈ leaves) as Hin.
  { pose proof Hl as (n & Hn & Es)%schema_leaves_elem; [|done..].
    eapply (Hs p n); [done|by destruct n|destruct n; by eauto|done]. }
  apply try_each_ok in Hv. rewrite Forall_forall in Hv. specialize (Hv _ Hin). cbn in Hv.
  unfold validate_derived_spec in Hv. rewrite Hd in Hv. apply bind_ok in Hv as (source & Hp & Hv).
  exists source. split.
  { unfold derived_validate in Hp.
    destruct (path_parse (df_identifier d)) as [src|] eqn:E; [|done]. f_equal.
    unfold map_err in Hp. destruct (_ ≫= _) as [a|] eqn:Eb in Hp; [|done]. simplify_eq.
    apply bind_ok in Eb as (a & [= <-] & Eb). apply guard_bind_ok in Eb as [_ Eb].
    apply guard_bind_ok in Eb as [_ Eb]. apply bind_ok in Eb as (u & _ & Eb). by simplify_eq. }
  intros Hc. rewrite Hc in Hv. cbn [negb] in Hv. apply guard_bind_ok in Hv as [Hne Hv].
  bool_prop. split; [done|]. destruct (leaf schema source) as [[s|s|s]|]; try done.
  exists s. apply guard_ok in Hv. apply andb_true_iff in Hv as [Hk Hn]. bool_prop.
  split_and!; [done|done|]. by destruct (ss_derived_from s).
Qed.

(** The [expect]s of [validate_shared_public_specs] never fire: on a
    service tree that [validate_tree] accepted it returns, or reports a
    conflict between two leaves that share an id. *)
Theorem shared_specs_never_panic b64_decode from_openssh regex_new error_text host namespace
  service tree seen m :
  validate_tree b64_decode from_openssh regex_new error_text host namespace service [] tree = Ok tt →
  validate_shared_public_specs host tree seen ≠ Err (Panicked m).
Proof.
  intros Hv. pose proof (validate_tree_leaves _ _ _ _ _ _ _ _ _ Hv) as Hl. clear Hv.
  rewrite app_nil_r in Hl. revert Hl. generalize [host; namespace; service] as path.
  revert seen. induction tree as [l|sl|l|children IH] using SecretNode_ind';
    intros seen path Hl; cbn [validate_shared_public_specs]; try done.
  - specialize (Hl path (Secret sl) ltac:(cbn [leaves_of]; set_solver)).
    cbn [validate_leaf] in Hl. apply (validate_secret_leaf_ok b64_decode) in Hl.
    destruct (lf_kind sl); [done|].
    destruct Hl as ((id & Hid & _) & _ & _ & _ & _ & _ & (port & Hp & _) & _).
    cbn [stored_spec ss_shared_public_id ss_expected_ssh_port] in Hid, Hp.
    rewrite Hid, Hp. cbn. unfold guard_err. by case_match.
  - assert (∀ name child, (name, child) ∈ children → ∀ p n,
      (p, n) ∈ leaves_of (path ++ [name]) child →
      validate_leaf b64_decode from_openssh regex_new error_text p service n = Ok tt) as Hch.
    { intros name child Hin p n Hp. apply Hl. rewrite leaves_of_branch. apply mjoin_elem.
      by exists (name, child). }
    clear Hl. revert seen. induction children as [|[name child] children IHc]; intros seen; [done|].
    inversion IH as [|? ? Hc Hcs]; subst.
    destruct (validate_shared_public_specs host child seen) as [seen'|e] eqn:E.
    + apply IHc; [done|]. intros. eapply Hch; [|done]. by right.
    + intros [= ->]. eapply (Hc seen (path ++ [name])); [|exact E].
      intros p n. eapply Hch. by left.
Qed.

(** The namespace [user-services] passes [validate_namespace] (the prefix
    [user-] and the suffix [-services] overlap), but [Schema::validate] panics
    on the sample schema that uses it, whose leaf has an identity of scope
    [user] on the host of its own path. *)
Theorem user_services_panics b64_decode from_openssh regex_new error_text :
  validate_namespace "user-services" = Ok tt
  ∧ schema_validate b64_decode from_openssh regex_new error_text (sample_schema "user-services")
    = Err (Panicked "slice index starts at 5 but ends before").
Proof. split; vm_compute; reflexivity. Qed.

(** ** Witnesses *)
Definition no_decode (s : string) : option (list Z) := None.
Definition no_text (e : SchemaError) : string := "".
Definition sample_path : SecretPath := ["web"; "user-ann-services"; "mail"; "login"; "password"].

Lemma validated_leaf_safe_witness :
  secret_ok "mail" (stored_spec sample_path (sample_leaf (Some sample_identity)))
  ∧ validate_component "mail" = Ok tt.
Proof.
  apply (validated_leaf_safe no_decode sample_openssh sample_regex no_text
    (sample_schema "user-ann-services") sample_path
    (stored_spec sample_path (sample_leaf (Some sample_identity)))).
  - apply sample_schema_wf.
  - vm_compute. discriminate.
  - vm_compute. reflexivity.
  - vm_compute. reflexivity.
Defined.

Definition derived_leaf : SecretLeaf :=
  {| lf_kind := KSecret; lf_shared_public_id := None; lf_expected_ssh_host := None;
     lf_expected_ssh_port := None; lf_expected_ssh_hosts := [];
     lf_install_default_if_missing := false; lf_default_value := None; lf_description := None;
     lf_human_facing := true; lf_external_input_required := false;
     lf_required_for_install := false; lf_optional := false; lf_identity := None;
     lf_presentation := None; lf_recipient_public_keys := ["key"]; lf_recipient_ids := ["id"];
     lf_recipient_names := []; lf_destination := sample_destination "mail" "env";
     lf_consumer_units := []; lf_value_type := None; lf_consumer_constraints := None;
     lf_value_generator := None; lf_generate_on_deploy := true;
     lf_derived_from := Some {| df_identifier := "web.services.mail.login.password";
       df_prefix := "PASS="; df_suffix := ""; df_toml_path := []; df_encoding := None |} |}.
Definition derived_schema : Schema :=
  [("web", {| hs_metadata := sample_metadata;
     hs_service_groups := [("services", [("mail",
       Branch [("env", Secret derived_leaf);
               ("login", Branch [("password", Secret (sample_leaf None))])])])] |})].

Lemma derived_schema_wf : schema_wf derived_schema.
Proof.
  assert (∀ h e, bt_get h derived_schema = Some e → e = {| hs_metadata := sample_metadata;
     hs_service_groups := [("services", [("mail",
       Branch [("env", Secret derived_leaf);
               ("login", Branch [("password", Secret (sample_leaf None))])])])] |}) as Hh.
  { intros h e. unfold derived_schema. cbn [bt_get]. destruct (kcmp h "web"); naive_solver. }
  assert (∀ (k : string) {V} k' (v v' : V), bt_get k [(k', v)] = Some v' → v' = v) as H1.
  { intros k V k' v v'. cbn [bt_get]. destruct (kcmp k k'); naive_solver. }
  split.
  - repeat constructor.
  - intros h e ->%Hh. repeat constructor.
  - intros h e ns ss ->%Hh ->%H1. repeat constructor.
  - intros h e ns ss s n ->%Hh ->%H1 ->%H1. apply wf_branch; [repeat constructor|].
    constructor; [by apply wf_leaf|]. constructor; [|constructor].
    apply wf_branch; [repeat constructor|]. constructor; [by apply wf_leaf|constructor].
Qed.

Lemma derived_sources_stored_witness :
  ∃ source, path_parse "web.services.mail.login.password" = Ok source
    ∧ (bt_contains (nth 0 source "") derived_schema = true →
       source ≠ ["web"; "services"; "mail"; "env"] ∧ ∃ s, leaf derived_schema source = Ok (Stored s)
         ∧ ss_kind s = KSecret ∧ ss_derived_from s = None).
Proof.
  apply (derived_sources_stored no_decode sample_openssh sample_regex no_text derived_schema
    ["web"; "services"; "mail"; "env"]
    (stored_spec ["web"; "services"; "mail"; "env"] derived_leaf)
    {| df_identifier := "web.services.mail.login.password";
       df_prefix := "PASS="; df_suffix := ""; df_toml_path := []; df_encoding := None |}).
  - apply derived_schema_wf.
  - vm_compute. discriminate.
  - vm_compute. reflexivity.
  - reflexivity.
  - reflexivity.
Defined.

Lemma shared_specs_never_panic_witness :
  validate_shared_public_specs "web" (Branch [("password", Secret (sample_leaf None))]) []
    ≠ Err (Panicked "validated SSH port").
Proof.
  apply (shared_specs_never_panic no_decode sample_openssh sample_regex no_text "web" "services"
    "mail"). vm_compute. reflexivity.
Defined.
