(* ===== verification/Crypto.v ===== *)
(** * Encrypted records

    [crates/crypto/src]: a stored secret is one age file whose plaintext
    repeats the secret's identifier and version, so a record cannot be taken
    for another; a record from an untrusted peer is checked for its recipients
    without decrypting it; failed runs of age are described without leaking
    key material.

    Running age is the environment: a [CryptoProvider] and, for the provider
    that runs programs, the function that runs one.  SHA-256 and base64 are
    arguments. *)
From stdpp Require Import sorting.
From S2P Require Import Prelude BTree Text SchemaValidation.
#[local] Open Scope Z_scope.

Definition INNER_TAG : list Z := bytes "NIXSECRT".
Definition INNER_VERSION : Z := 1.
Definition VERSION_ID_SIZE : Z := 16.
Definition MAX_IDENTIFIER_SIZE : Z := 4096.
Definition INNER_FIXED_SIZE : Z := zlen INNER_TAG + 1 + 2 + VERSION_ID_SIZE.
Definition MAX_SECRET_SIZE : Z := 16 * 1024 * 1024.
Definition MAX_PLAINTEXT_SIZE : Z := MAX_SECRET_SIZE + MAX_IDENTIFIER_SIZE + INNER_FIXED_SIZE.
Definition MAX_CIPHERTEXT_SIZE : Z := MAX_PLAINTEXT_SIZE + 1024 * 1024.
Definition FORMAT_VERSION : Z := 1.

Record Recipient := { rc_id : string; rc_ssh_public_key : string }.
Record EncryptedSecret := {
  es_format_version : Z;
  es_version_id : list Z;
  es_recipient_ids : list string;
  es_age_ciphertext : list Z
}.

(** ** Failures *)
Record AgeFailure := {
  af_operation : option string;
  af_status : string;
  af_stderr : string;
  af_op_diagnostic : option string;
  af_hint : option string
}.

Inductive CryptoError :=
| InvalidIdentifier
| InvalidRecipient
| InvalidRecord
| MetadataMismatch
| Randomness
| AgeIo (message : string)
| AgeFailed (failure : AgeFailure)
| AgeOutputTooLarge
| SecretTooLarge
| InputWorkerFailed
| RecipientMismatch.

(** [CryptoError::during]: the innermost operation is kept. *)
Definition during (error : CryptoError) (operation : string) : CryptoError :=
  match error with
  | AgeFailed failure =>
      AgeFailed {| af_operation := Some (default operation (af_operation failure));
                   af_status := af_status failure; af_stderr := af_stderr failure;
                   af_op_diagnostic := af_op_diagnostic failure; af_hint := af_hint failure |}
  | error => error
  end.

Definition SHOWN_CHARACTERS : nat := 600.
Definition AUTHORIZATION_FAILED : string := "nix-secrets-1password: 1Password authorization failed:".

Definition failure_show (f : AgeFailure) : string :=
  match af_operation f with Some operation => operation +:+ " failed: " | None => "" end
  +:+ match strip_prefix AUTHORIZATION_FAILED (af_stderr f) with
      | Some reason => "1Password authorization denied or failed:" +:+ reason
      | None => "age exited with " +:+ af_status f
                +:+ (if bool_decide (af_stderr f = "") then "" else ": " +:+ af_stderr f)
      end
  +:+ match af_op_diagnostic f with Some d => String (zb 10) "" +:+ d | None => "" end
  +:+ match af_hint f with Some h => String (zb 10) "" +:+ "Hint: " +:+ h | None => "" end.

Definition redact_word (word : string) : string :=
  if starts_with "AGE-SECRET-KEY-" word || starts_with "AGE-PLUGIN-" word then "[redacted]" else word.
Definition redact_line (line : string) : string :=
  if contains_str "PRIVATE KEY" line then "[redacted key material]"
  else join " " (redact_word <$> split " " line).
(** The lines that are shown, trimmed and redacted. *)
Definition shown_lines (raw : list Z) : list string :=
  redact_line <$> List.filter (λ line, negb (contains_str "report unexpected or unhelpful errors" line))
    (List.filter (λ line, negb (bool_decide (line = ""))) (trim <$> str_lines (lossy raw))).
Definition flat_chars (raw : list Z) : list Z :=
  (λ c, if is_control c then 32 else c) <$> chars (join " | " (shown_lines raw)).
Definition clean (raw : list Z) : string :=
  let flat := flat_chars raw in
  if (SHOWN_CHARACTERS <? length flat)%nat then of_chars (take SHOWN_CHARACTERS flat ++ [8230])
  else of_chars flat.

Definition APP_UNREACHABLE : string :=
  "start and unlock the 1Password app and enable Settings > Developer > Integrate with 1Password CLI".
Definition HINTS : list (string * string) :=
  [("connecting to desktop app timed out", APP_UNREACHABLE);
   ("connecting to desktop app",
    "op cannot reach the 1Password app; the app accepts only an op that is setgid onepassword-cli (on NixOS enable programs._1password so /run/wrappers/bin/op exists)");
   ("1Password app is locked", "unlock the 1Password app and retry");
   ("authorization prompt dismissed", "approve the 1Password authorization prompt and retry");
   ("authorization took too long", "the 1Password authorization prompt timed out; retry and approve it");
   ("authorization timeout", "the 1Password authorization prompt timed out; retry and approve it");
   ("no accounts configured", "sign in to a 1Password account in the desktop app");
   ("not currently signed in", "enable Settings > Developer > Integrate with 1Password CLI, or run op signin");
   ("no identity matched any of the recipients",
    "none of the available identities is a recipient of this secret");
   ("1p" +:+ String (zb 34) "" +:+ " plugin not found",
    "age-plugin-1p is not in PATH; use the nix-secrets-1password package")].
Definition hint_for (text : string) : option string :=
  snd <$> List.find (λ '(needle, _), contains_str needle text) HINTS.

(** An exit code, or the signal that ended the process. *)
Definition describe_status (code signal : option Z) : string :=
  match code, signal with
  | Some code, _ => "exit code " +:+ dec code
  | None, Some signal => "signal " +:+ dec signal
  | None, None => "an unknown status"
  end.

Definition failure_new (code signal : option Z) (stderr : list Z) : AgeFailure :=
  let stderr := clean stderr in
  {| af_operation := None; af_status := describe_status code signal; af_stderr := stderr;
     af_op_diagnostic := None; af_hint := hint_for stderr |}.

Definition strip_log_prefix (raw : list Z) : list Z :=
  let prefix := bytes "[ERROR] " in
  if bool_decide (take (length prefix) raw = prefix) && (length prefix + 20 <? length raw)%nat
  then drop (length prefix + 20) raw else raw.

(** [error.to_string()]. *)
Definition crypto_error_show (error : CryptoError) : string :=
  match error with
  | InvalidIdentifier => "secret identifier is not canonical"
  | InvalidRecipient => "invalid SSH recipient"
  | InvalidRecord => "encrypted secret record is invalid"
  | MetadataMismatch => "authenticated secret metadata does not match the requested record"
  | Randomness => "operating-system randomness is unavailable"
  | AgeIo message => "could not execute age: " +:+ message
  | AgeFailed failure => failure_show failure
  | AgeOutputTooLarge => "age produced an unexpectedly large result"
  | SecretTooLarge => "secret exceeds the configured size limit"
  | InputWorkerFailed => "age input worker terminated unexpectedly"
  | RecipientMismatch => "age recipients differ from the expected recipients"
  end.

(** ** The plaintext of a record *)
Definition encode_inner (identifier : string) (version_id secret : list Z) : list Z :=
  INNER_TAG ++ [INNER_VERSION] ++ be_bytes 2 (slen identifier mod 2 ^ 16) ++ bytes identifier
  ++ version_id ++ secret.

Definition is_identifier_byte (b : Z) : bool := is_ascii_alphanumeric b || (b =? 45) || (b =? 95).
Definition validate_identifier (identifier : string) : result CryptoError unit :=
  let components := split "." identifier in
  let namespace := default "" (components !! 1%nat) in
  let valid_namespace := bool_decide (namespace = "services")
                         || (starts_with "user-" namespace && ends_with "-services" namespace) in
  guard_err ((slen identifier <=? MAX_IDENTIFIER_SIZE) && (4 <=? zlen components) && valid_namespace
             && forallb (λ component, negb (bool_decide (component = ""))
                                      && all_bytes is_identifier_byte component) components)
    InvalidIdentifier.

Definition validate_recipients (recipients : list Recipient) : result CryptoError unit :=
  guard_err (negb (bool_decide (recipients = [])
                   || existsb (λ entry, bool_decide (rc_id entry = "") || any_control (rc_id entry)
                                        || bool_decide (rc_ssh_public_key entry = "")) recipients))
    InvalidRecipient.

Definition validate_record (record : EncryptedSecret) : result CryptoError unit :=
  guard_err (negb (negb (es_format_version record =? FORMAT_VERSION)
                   || negb (zlen (es_version_id record) =? VERSION_ID_SIZE)
                   || bool_decide (es_recipient_ids record = [])
                   || existsb (λ id, bool_decide (id = "")) (es_recipient_ids record)
                   || bool_decide (es_age_ciphertext record = [])
                   || (MAX_CIPHERTEXT_SIZE <? zlen (es_age_ciphertext record))))
    InvalidRecord.

Definition decode_inner (requested_identifier : string) (outer_version_id inner : list Z)
  : result CryptoError (list Z) :=
  _ ← guard_err (negb ((zlen inner <? INNER_FIXED_SIZE) || negb (bool_decide (take 8 inner = INNER_TAG))))
        InvalidRecord;
  _ ← guard_err (nth 8 inner 0 =? INNER_VERSION) InvalidRecord;
  let identifier_size := be_value [nth 9 inner 0; nth 10 inner 0] in
  let version_start := 11 + identifier_size in
  let secret_start := version_start + VERSION_ID_SIZE in
  _ ← guard_err (negb ((MAX_IDENTIFIER_SIZE <? identifier_size) || (zlen inner <? secret_start)))
        InvalidRecord;
  authenticated ← ok_or InvalidRecord (from_utf8 (take (Z.to_nat identifier_size) (drop 11 inner)));
  _ ← map_err (const InvalidRecord) (validate_identifier authenticated);
  _ ← guard_err (negb (negb (bool_decide (authenticated = requested_identifier))
                       || negb (bool_decide (take 16 (drop (Z.to_nat version_start) inner) = outer_version_id))))
        MetadataMismatch;
  let secret := drop (Z.to_nat secret_start) inner in
  _ ← guard_err (zlen secret <=? MAX_SECRET_SIZE) SecretTooLarge;
  Ok secret.

(** ** Providers *)
Class CryptoProvider (S : Type) := {
  provider_encrypt : list string → list Z → stE S CryptoError (list Z);
  provider_decrypt : list Z → stE S CryptoError (list Z);
  provider_decrypt_batch : list (list Z) → stE S CryptoError (list (list Z))
}.

Definition failing_during {S A} (operation : string) (m : stE S CryptoError A) : stE S CryptoError A :=
  λ s, match m s with
       | (Ok a, s) => (Ok a, s)
       | (Err error, s) => (Err (during error operation), s)
       end.

Section Records.
Context {S : Type} `{CryptoProvider S}.

Definition encrypt_secret_with_version (identifier : string) (version_id plaintext : list Z)
    (recipients : list Recipient) : stE S CryptoError EncryptedSecret :=
  _ ← st_lift (validate_identifier identifier);
  _ ← st_lift (validate_recipients recipients);
  _ ← st_guard (zlen plaintext <=? MAX_SECRET_SIZE) SecretTooLarge;
  let inner := encode_inner identifier version_id plaintext in
  age_ciphertext ← failing_during
    ("encrypting " +:+ identifier +:+ " for recipients " +:+ join ", " (rc_id <$> recipients))
    (provider_encrypt (rc_ssh_public_key <$> recipients) inner);
  _ ← st_guard (negb (bool_decide (age_ciphertext = []) || (MAX_CIPHERTEXT_SIZE <? zlen age_ciphertext)))
        InvalidRecord;
  mret {| es_format_version := FORMAT_VERSION; es_version_id := version_id;
          es_recipient_ids := rc_id <$> recipients; es_age_ciphertext := age_ciphertext |}.

(** [random] fills the version. *)
Definition encrypt_secret (random : stE S CryptoError (list Z)) (identifier : string) (plaintext : list Z)
    (recipients : list Recipient) : stE S CryptoError EncryptedSecret :=
  version_id ← random;
  encrypt_secret_with_version identifier version_id plaintext recipients.

Definition decrypt_secret (identifier : string) (record : EncryptedSecret) : stE S CryptoError (list Z) :=
  _ ← st_lift (validate_identifier identifier);
  _ ← st_lift (validate_record record);
  inner ← failing_during ("decrypting " +:+ identifier) (provider_decrypt (es_age_ciphertext record));
  st_lift (decode_inner identifier (es_version_id record) inner).

Definition decrypt_secrets (records : list (string * EncryptedSecret)) : stE S CryptoError (list (list Z)) :=
  _ ← st_lift (try_each (λ '(identifier, record),
        _ ← validate_identifier identifier; validate_record record) records);
  inner ← failing_during ("decrypting " +:+ join ", " records.*1)
            (provider_decrypt_batch ((λ '(_, record), es_age_ciphertext record) <$> records));
  st_lift (try_map (λ '(identifier, record, inner), decode_inner identifier (es_version_id record) inner)
             (zip records inner)).
End Records.

(** ** The provider that runs age *)
Inductive DecryptionMode := OnePassword | IdentityFile (path : string).

Definition validate_ssh_recipient (recipient : string) : result CryptoError unit :=
  guard_err (negb (any_control recipient)
             && is_some_and (λ kind, bool_decide (kind ∈ ["ssh-ed25519"; "ssh-rsa"]))
                  (head (split_ascii_whitespace recipient)))
    InvalidRecipient.

Definition encrypt_arguments (recipients : list string) : list string :=
  "--encrypt" :: mjoin ((λ recipient, ["--recipient"; recipient]) <$> recipients).
Definition decrypt_arguments (mode : DecryptionMode) : list string :=
  match mode with
  | OnePassword => ["--decrypt"; "-j"; "1p"]
  | IdentityFile path => ["--decrypt"; "--identity"; path]
  end.

(** What a launcher reads and writes for a batch. *)
Definition encode_batch (values : list (list Z)) : list Z :=
  mjoin ((λ value, be_bytes 4 (zlen value mod 2 ^ 32) ++ value) <$> values).
Definition malformed : CryptoError := AgeIo "malformed batch output".
(** Every turn takes at least four bytes. *)
Fixpoint decode_batch (fuel : nat) (rest : list Z) : result CryptoError (list (list Z)) :=
  match rest, fuel with
  | [], _ => Ok []
  | _, O => Err malformed
  | _, Datatypes.S fuel =>
      _ ← guard_err (4 <=? zlen rest) malformed;
      let length := be_value (take 4 rest) in
      _ ← guard_err (4 + length <=? zlen rest) malformed;
      values ← decode_batch fuel (drop (Z.to_nat (4 + length)) rest);
      Ok (take (Z.to_nat length) (drop 4 rest) :: values)
  end.

Definition parse_progress (line : list Z) : option (Z * Z * bool) :=
  text ← from_utf8 line;
  text ← strip_prefix "NIX_SECRETS_PROGRESS " text;
  match split " " text with
  | [done; total; state] =>
      done ← parse_unsigned usize_max (chars done);
      total ← parse_unsigned usize_max (chars total);
      if (total =? 0) || (4096 <? total) || (total <? done) then None
      else if bool_decide (state = "one-password") then Some (done, total, true)
      else if bool_decide (state = "decrypting") then Some (done, total, false)
      else None
  | _ => None
  end.

Record AgeCommandProvider := {
  ac_program : string;
  ac_launcher : option (string * list string);
  ac_decryption : DecryptionMode
}.
Definition uses_one_password (p : AgeCommandProvider) : bool :=
  match ac_decryption p with OnePassword => true | IdentityFile _ => false end.

(** [inputs.chunks(n)] for a positive [n]. *)
Fixpoint chunks_of {A} (fuel n : nat) (l : list A) : list (list A) :=
  match l, fuel with
  | [], _ | _, O => []
  | _, Datatypes.S fuel => take n l :: chunks_of fuel n (drop n l)
  end.
Definition chunks {A} (n : nat) (l : list A) : list (list A) := chunks_of (length l) n l.

Section AgeCommand.
Context {S : Type} (p : AgeCommandProvider) (workers : Z).
(** [run_with]: launcher, arguments, input, the limit of the output. *)
Context (run_with : option (string * list string) → list string → list Z → Z → stE S CryptoError (list Z)).

Definition age_encrypt (ssh_recipients : list string) (plaintext : list Z) : stE S CryptoError (list Z) :=
  _ ← st_guard (zlen plaintext <=? MAX_PLAINTEXT_SIZE) SecretTooLarge;
  _ ← st_guard (negb (bool_decide (ssh_recipients = []))) InvalidRecipient;
  _ ← st_lift (try_each validate_ssh_recipient ssh_recipients);
  run_with None (encrypt_arguments ssh_recipients) plaintext MAX_CIPHERTEXT_SIZE.

Definition batch_through (launcher : string) (prefix : list string) (ciphertexts : list (list Z))
  : stE S CryptoError (list (list Z)) :=
  let prefix := prefix ++ ["--batch"] in
  let '(prefix, arguments) :=
    if uses_one_password p then (prefix ++ ["--one-key"], ["--decrypt"])
    else (prefix, decrypt_arguments (ac_decryption p)) in
  output ← run_with (Some (launcher, prefix)) arguments (encode_batch ciphertexts)
             (zlen ciphertexts * (MAX_PLAINTEXT_SIZE + 4));
  plaintexts ← st_lift (decode_batch (length output) output);
  _ ← st_guard (zlen plaintexts =? zlen ciphertexts)
        (AgeIo "the launcher returned a different number of values");
  mret plaintexts.

Definition age_decrypt (ciphertext : list Z) : stE S CryptoError (list Z) :=
  _ ← st_guard (zlen ciphertext <=? MAX_CIPHERTEXT_SIZE) SecretTooLarge;
  match ac_launcher p with
  | Some (launcher, prefix) =>
      if uses_one_password p then
        plaintexts ← batch_through launcher prefix [ciphertext];
        st_lift (ok_or (AgeIo "no output") (last plaintexts))
      else run_with (ac_launcher p) (decrypt_arguments (ac_decryption p)) ciphertext MAX_PLAINTEXT_SIZE
  | None => run_with None (decrypt_arguments (ac_decryption p)) ciphertext MAX_PLAINTEXT_SIZE
  end.

(** One after the other, until one fails. *)
Fixpoint decrypt_each (ciphertexts : list (list Z)) : stE S CryptoError (list (list Z)) :=
  match ciphertexts with
  | [] => mret []
  | ciphertext :: ciphertexts =>
      value ← age_decrypt ciphertext;
      values ← decrypt_each ciphertexts;
      mret (value :: values)
  end.

(** The workers of one wave: all of them finish, whatever fails. *)
Fixpoint run_wave (wave : list (list Z)) (s : S) : list (result CryptoError (list Z)) * S :=
  match wave with
  | [] => ([], s)
  | ciphertext :: wave =>
      let '(r, s) := age_decrypt ciphertext s in
      let '(rs, s) := run_wave wave s in
      (r :: rs, s)
  end.
(** [ordered_parallel]: waves of [workers] values; the first failure in input
    order is reported and no later wave starts. *)
Fixpoint ordered_parallel (waves : list (list (list Z))) (output : list (list Z))
  : stE S CryptoError (list (list Z)) :=
  match waves with
  | [] => mret output
  | wave :: waves => λ s,
      let '(results, s) := run_wave wave s in
      match try_map id results with
      | Ok values => ordered_parallel waves (output ++ values) s
      | Err error => (Err error, s)
      end
  end.

Definition age_decrypt_batch (ciphertexts : list (list Z)) : stE S CryptoError (list (list Z)) :=
  _ ← st_guard (forallb (λ ciphertext, zlen ciphertext <=? MAX_CIPHERTEXT_SIZE) ciphertexts) SecretTooLarge;
  if bool_decide (ciphertexts = []) then mret []
  else
    match ac_launcher p with
    | None => if uses_one_password p then decrypt_each ciphertexts
              else ordered_parallel (chunks (Z.to_nat (Z.max workers 1)) ciphertexts) []
    | Some (launcher, prefix) => batch_through launcher prefix ciphertexts
    end.
End AgeCommand.

(** ** Recipients of an age file *)
Section Header.
(** SHA-256, [STANDARD.decode], and [STANDARD_NO_PAD]. *)
Context (sha256 : list Z → list Z) (b64_decode : string → option (list Z)).
Context (b64_nopad : list Z → string) (b64_nopad_decode : string → option (list Z)).

Definition HEADER_VERSION : string := "age-encryption.org/v1".
Definition MAX_HEADER_LINES : Z := 1024.
Definition ssh_kinds : list string := ["ssh-ed25519"; "ssh-rsa"].

Definition stanza_tag (ssh_public_key : string) : result CryptoError (string * string) :=
  match split_ascii_whitespace ssh_public_key with
  | [] => Err InvalidRecipient
  | kind :: fields =>
      _ ← guard_err (bool_decide (kind ∈ ssh_kinds)) InvalidRecipient;
      encoded ← ok_or InvalidRecipient (head fields);
      blob ← ok_or InvalidRecipient (b64_decode encoded);
      Ok (kind, b64_nopad (take 4 (sha256 blob)))
  end.

Definition sort_tags (tags : list (string * string)) : list (string * string) :=
  merge_sort kle tags.

(** The loop over the header's lines. *)
Fixpoint header_tags (index : Z) (lines : list string) (actual : list (string * string))
  : result CryptoError (list (string * string)) :=
  match lines with
  | [] => Err InvalidRecord
  | line :: lines =>
      if MAX_HEADER_LINES <? index then Err InvalidRecord
      else
        line ← ok_or InvalidRecord (from_utf8 (bytes line));
        if starts_with "--- " line then Ok actual
        else match strip_prefix "-> " line with
             | None => header_tags (index + 1) lines actual
             | Some arguments =>
                 match split " " arguments with
                 | kind :: fields =>
                     if bool_decide (kind ∈ ssh_kinds) then
                       match head fields with
                       | Some tag => header_tags (index + 1) lines (actual ++ [(kind, tag)])
                       | None => Err InvalidRecord
                       end
                     else Err RecipientMismatch
                 | [] => Err RecipientMismatch
                 end
             end
  end.

Definition verify_ssh_recipient_header (ciphertext : list Z) (ssh_public_keys : list string)
  : result CryptoError unit :=
  _ ← guard_err (negb (bool_decide (ciphertext = []) || (MAX_CIPHERTEXT_SIZE <? zlen ciphertext))) InvalidRecord;
  expected ← try_map stanza_tag ssh_public_keys;
  let expected := sort_tags expected in
  match split (zb 10) (of_bytes ciphertext) with
  | version :: lines =>
      _ ← guard_err (bool_decide (version = HEADER_VERSION)) InvalidRecord;
      actual ← header_tags 0 lines [];
      guard_err (bool_decide (sort_tags actual = expected)) RecipientMismatch
  | [] => Err InvalidRecord
  end.

(** [ssh_stanza_tags]: other stanzas are passed over. *)
Fixpoint known_tags (index : Z) (lines : list string) (tags : list (string * string))
  : result CryptoError (list (string * string)) :=
  match lines with
  | [] => Err InvalidRecord
  | line :: lines =>
      if MAX_HEADER_LINES <? index then Err InvalidRecord
      else
        line ← ok_or InvalidRecord (from_utf8 (bytes line));
        if starts_with "--- " line then Ok tags
        else match strip_prefix "-> " line with
             | None => known_tags (index + 1) lines tags
             | Some arguments =>
                 match split " " arguments with
                 | kind :: tag :: _ =>
                     known_tags (index + 1) lines
                       (if bool_decide (kind ∈ ssh_kinds) then tags ++ [(kind, tag)] else tags)
                 | _ => known_tags (index + 1) lines tags
                 end
             end
  end.
Definition ssh_stanza_tags (ciphertext : list Z) : result CryptoError (list (string * string)) :=
  match split (zb 10) (of_bytes ciphertext) with
  | version :: lines =>
      _ ← guard_err (bool_decide (version = HEADER_VERSION)) InvalidRecord;
      known_tags 0 lines []
  | [] => Err InvalidRecord
  end.

Definition fingerprint_stanza_tag (fingerprint : string) : option string :=
  encoded ← strip_prefix "SHA256:" fingerprint;
  digest ← b64_nopad_decode encoded;
  if zlen digest =? 32 then Some (b64_nopad (take 4 digest)) else None.
End Header.
