(* ===== verification/CryptoFacts.v ===== *)
(** * What a record guarantees *)
From stdpp Require Import sorting.
From S2P Require Import Prelude BTree Text Schema SchemaValidation Crypto.
#[local] Open Scope Z_scope.

(** ** Identifiers *)
(** Encryption and the schema agree on what an identifier is; encryption
    only bounds its length. *)
Theorem identifiers_agree id :
  Crypto.validate_identifier id = Ok tt ↔ (∃ p, path_parse id = Ok p) ∧ slen id ≤ 4096.
Proof.
  unfold Crypto.validate_identifier, path_parse. rewrite guard_ok. setoid_rewrite path_new_ok.
  assert (∀ c, validate_component c = Ok tt ↔
    negb (bool_decide (c = "")) && all_bytes Crypto.is_identifier_byte c = true) as Hc.
  { intros c. unfold validate_component. by rewrite guard_ok. }
  assert (∀ n, validate_namespace n = Ok tt ↔
    bool_decide (n = "services") || (starts_with "user-" n && ends_with "-services" n) = true) as Hn.
  { intros n. unfold validate_namespace. by rewrite guard_ok. }
  rewrite !andb_true_iff, Z.leb_le, Z.leb_le, forallb_Forall.
  assert (default "" (split "." id !! 1%nat) = nth 1 (split "." id) "") as ->.
  { destruct (split "." id) as [|? [|? ?]]; done. }
  rewrite <- Hn. unfold MAX_IDENTIFIER_SIZE. split.
  - intros [[[Hlen H4] Hns] Hall]. split; [|done]. exists (split "." id). split; [done|]. split; [done|].
    split; [|done]. eapply Forall_impl; [exact Hall|]. intros c. apply Hc.
  - intros [(p & -> & H4 & Hall & Hns) Hlen]. repeat (split; [done|]).
    eapply Forall_impl; [exact Hall|]. intros c. apply Hc.
Qed.

Lemma identifier_ascii id : Crypto.validate_identifier id = Ok tt → Forall (λ b, 0 ≤ b < 128) (bytes id).
Proof.
  intros [(p & Hp) _]%identifiers_agree. unfold path_parse in Hp. apply path_new_ok in Hp as (-> & _ & Hc & _).
  rewrite <- (join_split "." id). change (String "." "") with ".".
  induction Hc as [|c l Hc _ IH]; [constructor|].
  assert (Forall (λ b, 0 ≤ b < 128) (bytes c)) as Hb.
  { unfold validate_component in Hc. apply guard_ok, andb_true_iff in Hc as [_ Hc].
    apply all_bytes_forall in Hc. eapply Forall_impl; [exact Hc|]. intros b Hb.
    unfold is_component_byte, is_ascii_alphanumeric, is_ascii_digit, is_ascii_uppercase, is_ascii_lowercase, in_range in Hb.
    bool_prop. lia. }
  destruct l as [|c' l]; [done|]. change (join "." (c :: c' :: l)) with (c +:+ "." +:+ join "." (c' :: l)).
  rewrite !bytes_app. apply Forall_app. split; [done|]. constructor; [by vm_compute|done].
Qed.

Lemma identifier_length id : Crypto.validate_identifier id = Ok tt → 0 ≤ slen id ≤ 4096.
Proof. intros [_ H]%identifiers_agree. pose proof (slen_nonneg id). lia. Qed.

(** ** The plaintext *)
Lemma zlen_bytes s : zlen (bytes s) = slen s.
Proof. unfold zlen, slen. by rewrite length_bytes. Qed.

(** Everything up to the identifier, and what follows it. *)
Definition inner_head (n : Z) : list Z := INNER_TAG ++ [INNER_VERSION] ++ be_bytes 2 n.

Lemma encode_inner_head id v secret :
  0 ≤ slen id ≤ 4096 → encode_inner id v secret = inner_head (slen id) ++ bytes id ++ v ++ secret.
Proof. intros H. unfold encode_inner, inner_head. by rewrite Z.mod_small, <- !app_assoc by lia. Qed.

Lemma inner_head_reads n rest :
  0 ≤ n < 65536 →
  let inner := inner_head n ++ rest in
  zlen inner = 11 + zlen rest ∧ take 8 inner = INNER_TAG ∧ nth 8 inner 0 = INNER_VERSION
  ∧ be_value [nth 9 inner 0; nth 10 inner 0] = n ∧ drop 11 inner = rest
  ∧ ∀ m, 0 ≤ m → drop (Z.to_nat (11 + m)) inner = drop (Z.to_nat m) rest.
Proof.
  intros H inner. subst inner. unfold inner_head.
  destruct (be_bytes 2 n) as [|a [|b [|? ?]]] eqn:E;
    pose proof (length_be_bytes 2 n) as Hl; rewrite E in Hl; try done.
  assert (be_value [a; b] = n) as Hv by (rewrite <- E; by apply be_value_bytes_id).
  split; [unfold zlen; rewrite !length_app; cbn [length]; change (length INNER_TAG) with 8%nat; lia|].
  split; [done|]. split; [done|]. split; [exact Hv|]. split; [done|]. intros m Hm.
  rewrite Z2Nat.inj_add by lia. change (Z.to_nat 11) with 11%nat. by rewrite <- drop_drop.
Qed.

(** A plaintext that is long enough and starts as one must. *)
Lemma inner_shape inner :
  forallb is_byte inner = true → 27 ≤ zlen inner → take 8 inner = INNER_TAG → nth 8 inner 0 = INNER_VERSION →
  ∃ n body, 0 ≤ n < 65536 ∧ inner = inner_head n ++ body ∧ forallb is_byte body = true.
Proof.
  intros Hb Hlen Ht Hv.
  destruct inner as [|x0 [|x1 [|x2 [|x3 [|x4 [|x5 [|x6 [|x7 [|x8 [|x9 [|x10 body]]]]]]]]]]];
    try (unfold zlen in Hlen; cbn in Hlen; lia).
  cbn [take] in Ht. cbn [nth] in Hv. injection Ht as -> -> -> -> -> -> -> ->. subst x8.
  cbn [forallb] in Hb. rewrite !andb_true_iff in Hb.
  destruct Hb as (_ & _ & _ & _ & _ & _ & _ & _ & _ & Ha & Hc & Hb).
  assert (forallb is_byte [x9; x10] = true) as Hab by (cbn; by rewrite Ha, Hc).
  exists (be_value [x9; x10]), body. split; [by apply (be_value_range [x9; x10])|]. split; [|done].
  unfold inner_head. change 2%nat with (length [x9; x10]). by rewrite be_bytes_value.
Qed.

(** Opening a record under an identifier and a version gives a secret exactly
    when the plaintext is that secret's, written under that identifier and
    that version: nothing made for another secret or another version opens. *)
Theorem decode_inner_exact id v inner secret :
  forallb is_byte inner = true →
  decode_inner id v inner = Ok secret ↔
    Crypto.validate_identifier id = Ok tt ∧ zlen v = 16 ∧ zlen secret ≤ MAX_SECRET_SIZE
    ∧ inner = encode_inner id v secret.
Proof.
  intros Hb. split.
  - unfold decode_inner, INNER_FIXED_SIZE, VERSION_ID_SIZE. change (zlen INNER_TAG) with 8.
    intros H. apply guard_bind_ok in H as [H1 H]. apply guard_bind_ok in H as [H2 H]. bool_prop.
    destruct H1 as [H1 Htag]. destruct (inner_shape inner Hb) as (n & body & Hn & -> & Hbb); [lia|done|done|].
    destruct (inner_head_reads n body Hn) as (R1 & _ & _ & R4 & R5 & R6).
    rewrite R1, R4, R5, <- !Z.add_assoc, !R6 in H by lia.
    apply guard_bind_ok in H as [H3 H]. apply bind_ok in H as (auth & Ha & H).
    apply then_ok in H as [Hid H]. apply guard_bind_ok in H as [H4 H]. apply guard_bind_ok in H as [H5 [= <-]].
    bool_prop. destruct H4 as [-> <-]. destruct H3 as [H3 H3'].
    assert (Crypto.validate_identifier id = Ok tt) as Hid'.
    { destruct (Crypto.validate_identifier id) as [[]|]; [done|discriminate Hid]. }
    assert (bytes id = take (Z.to_nat n) body) as Hbytes.
    { destruct (from_utf8 _) as [s|] eqn:Es; cbn in Ha; [|discriminate Ha]. injection Ha as ->.
      apply from_utf8_bytes in Es; [done|]. rewrite <- (take_drop (Z.to_nat n) body), forallb_app in Hbb.
      by apply andb_true_iff in Hbb as [Hbb _]. }
    assert (slen id = n) as Hsl.
    { rewrite <- zlen_bytes, Hbytes. unfold zlen in *. rewrite length_take. lia. }
    rewrite encode_inner_head by (by apply identifier_length). rewrite Hsl, Hbytes.
    rewrite Z2Nat.inj_add, <- drop_drop in H5 |- * by lia. change (Z.to_nat 16) with 16%nat in *.
    split; [done|]. split; [|split; [done|]].
    + unfold zlen in *. rewrite length_take, length_drop. lia.
    + by rewrite take_drop, take_drop.
  - intros (Hid & Hv & Hs & ->). pose proof (identifier_length _ Hid) as Hl.
    rewrite encode_inner_head by done.
    destruct (inner_head_reads (slen id) (bytes id ++ v ++ secret)) as (R1 & R2 & R3 & R4 & R5 & R6); [lia|].
    unfold decode_inner, INNER_FIXED_SIZE, VERSION_ID_SIZE. change (zlen INNER_TAG) with 8.
    rewrite R1, R2, R3, R4, R5, <- !Z.add_assoc, !R6 by lia.
    rewrite !zlen_app, zlen_bytes, Hv.
    assert (Z.to_nat (slen id) = length (bytes id)) as Hlen by (rewrite length_bytes; unfold slen; lia).
    rewrite Z2Nat.inj_add, <- drop_drop, Hlen, take_app_length, drop_app_length by lia.
    assert (16%nat = length v) as Hlv by (unfold zlen in Hv; lia). change (Z.to_nat 16) with 16%nat.
    rewrite Hlv, take_app_length, drop_app_length.
    rewrite from_utf8_ascii by (by apply identifier_ascii).
    pose proof (zlen_nonneg secret). unfold MAX_IDENTIFIER_SIZE.
    rewrite !bool_decide_true by done.
    assert (∀ a b : Z, b ≤ a → (a <? b) = false) as Hlt by (intros a b; apply Z.ltb_ge).
    rewrite !Hlt by lia. cbn [negb orb guard_err ok_or mbind result_bind].
    change (INNER_VERSION =? INNER_VERSION) with true. cbn [guard_err mbind result_bind].
    rewrite Hid. cbn [map_err mbind result_bind]. rewrite bool_decide_true by done.
    cbn [negb orb guard_err mbind result_bind]. by rewrite (proj2 (Z.leb_le _ _) Hs).
Qed.

Lemma encode_inner_inj id v secret id' v' secret' :
  Crypto.validate_identifier id = Ok tt → Crypto.validate_identifier id' = Ok tt →
  zlen v = 16 → zlen v' = 16 → encode_inner id v secret = encode_inner id' v' secret' →
  id = id' ∧ v = v' ∧ secret = secret'.
Proof.
  intros Hid Hid' Hv Hv' E. apply identifier_length in Hid, Hid'. rewrite !encode_inner_head in E by done.
  assert (slen id = slen id') as Hn.
  { destruct (inner_head_reads (slen id) (bytes id ++ v ++ secret)) as (_ & _ & _ & <- & _); [lia|].
    destruct (inner_head_reads (slen id') (bytes id' ++ v' ++ secret')) as (_ & _ & _ & <- & _); [lia|].
    by rewrite E. }
  rewrite Hn in E. apply (inj (inner_head (slen id') ++.)) in E.
  apply app_inj_1 in E as [Hb E]; [|rewrite !length_bytes; unfold slen in Hn; lia].
  apply app_inj_1 in E as [-> ->]; [|unfold zlen in *; lia]. split; [by apply bytes_inj|done].
Qed.

(** ** Encrypting and decrypting *)
Lemma failing_during_ok {S A} operation (m : stE S CryptoError A) s a s' :
  failing_during operation m s = (Ok a, s') ↔ m s = (Ok a, s').
Proof. unfold failing_during. destruct (m s) as [[?|?] ?]; split; intros H; congruence. Qed.

Lemma encode_inner_bytes id v secret :
  Crypto.validate_identifier id = Ok tt → forallb is_byte (v ++ secret) = true →
  forallb is_byte (encode_inner id v secret) = true.
Proof.
  intros Hid Hb. rewrite encode_inner_head by (by apply identifier_length). unfold inner_head.
  rewrite !forallb_app in *. rewrite be_bytes_is_byte, bytes_is_byte. exact Hb.
Qed.

Section Records.
Context {S : Type} `{CryptoProvider S}.
(** age: what was encrypted is what is decrypted, and only that. *)
Context (decrypts : ∀ keys inner s ciphertext s1 s2,
  provider_encrypt keys inner s = (Ok ciphertext, s1) →
  ∃ s3, provider_decrypt ciphertext s2 = (Ok inner, s3)).

Lemma encrypt_parts id v secret recipients s record s' :
  encrypt_secret_with_version id v secret recipients s = (Ok record, s') →
  Crypto.validate_identifier id = Ok tt ∧ Crypto.validate_recipients recipients = Ok tt
  ∧ zlen secret ≤ MAX_SECRET_SIZE
  ∧ es_format_version record = FORMAT_VERSION ∧ es_version_id record = v
  ∧ es_recipient_ids record = rc_id <$> recipients
  ∧ es_age_ciphertext record ≠ [] ∧ zlen (es_age_ciphertext record) ≤ MAX_CIPHERTEXT_SIZE
  ∧ provider_encrypt (rc_ssh_public_key <$> recipients) (encode_inner id v secret) s
    = (Ok (es_age_ciphertext record), s').
Proof.
  unfold encrypt_secret_with_version. intros ([] & s1 & [Hid ->]%stE_lift_ok & H')%stE_bind_ok.
  apply stE_bind_ok in H' as ([] & s1 & [Hr ->]%stE_lift_ok & H').
  apply stE_bind_ok in H' as ([] & s1 & [Hs ->]%stE_guard_ok & H').
  apply stE_bind_ok in H' as (ct & s1 & Hc%failing_during_ok & H').
  apply stE_bind_ok in H' as ([] & s2 & [Hg ->]%stE_guard_ok & H'). injection H' as <- <-.
  bool_prop. cbn. repeat (split; [done|]). split; [tauto|]. split; [tauto|done].
Qed.

Lemma recipients_record recipients v ciphertext :
  Crypto.validate_recipients recipients = Ok tt → zlen v = 16 → ciphertext ≠ [] →
  zlen ciphertext ≤ MAX_CIPHERTEXT_SIZE →
  validate_record {| es_format_version := FORMAT_VERSION; es_version_id := v;
                     es_recipient_ids := rc_id <$> recipients; es_age_ciphertext := ciphertext |} = Ok tt.
Proof.
  intros Hr%guard_ok Hv Hc Hl. apply guard_ok. cbn. bool_prop. destruct Hr as [Hne Hall].
  rewrite Hv. split_and!; try done.
  - intros E. apply fmap_nil_inv in E. done.
  - apply not_true_iff_false. rewrite existsb_exists. intros (i & Hin & Hi). bool_prop. subst i.
    apply list_elem_of_In, list_elem_of_fmap in Hin as (r & Hr & Hin).
    apply not_true_iff_false in Hall. apply Hall, existsb_exists. exists r.
    split; [by apply list_elem_of_In|]. by rewrite <- Hr.
Qed.

Lemma decrypt_encrypted id v secret recipients s record s' :
  encrypt_secret_with_version id v secret recipients s = (Ok record, s') →
  zlen v = 16 → forallb is_byte (v ++ secret) = true →
  ∀ s2, ∃ s3, decrypt_secret id record s2 = (Ok secret, s3).
Proof.
  intros (Hid & Hr & Hs & Hf & Hv & Hi & Hne & Hl & Henc)%encrypt_parts Hlen Hbytes s2.
  assert (forallb is_byte (encode_inner id v secret) = true) as Hb by (by apply encode_inner_bytes).
  destruct (decrypts _ _ _ _ _ s2 Henc) as [s3 Hd]. exists s3. unfold decrypt_secret.
  destruct record as [f v' ids ct]. cbn in *. subst f v' ids.
  assert (decode_inner id v (encode_inner id v secret) = Ok secret) as Hdec by (by apply decode_inner_exact).
  unfold mbind, stE_bind, st_lift. rewrite Hid, recipients_record by done.
  unfold failing_during. by rewrite Hd, Hdec.
Qed.

(** What is encrypted under an identifier and a version is decrypted under
    them, whenever that happens; and a record with the same ciphertext opens
    under no other identifier and no other version. *)
Theorem record_round_trip id v secret recipients s record s' :
  encrypt_secret_with_version id v secret recipients s = (Ok record, s') →
  zlen v = 16 → forallb is_byte (v ++ secret) = true →
  (∀ s2, ∃ s3, decrypt_secret id record s2 = (Ok secret, s3))
  ∧ (∀ id' record' s2 x s3, es_age_ciphertext record' = es_age_ciphertext record →
       decrypt_secret id' record' s2 = (Ok x, s3) →
       id' = id ∧ es_version_id record' = v ∧ x = secret).
Proof.
  intros He Hlen Hbytes. split; [by eapply decrypt_encrypted|].
  apply encrypt_parts in He as (Hid & Hr & Hs & Hf & Hv & Hi & Hne & Hl & Henc).
  assert (forallb is_byte (encode_inner id v secret) = true) as Hb by (by apply encode_inner_bytes).
  intros id' record' s2 x s3 Ect Hd. unfold decrypt_secret in Hd.
  apply stE_bind_ok in Hd as ([] & s4 & [Hid' ->]%stE_lift_ok & Hd).
  apply stE_bind_ok in Hd as ([] & s4 & [Hrec ->]%stE_lift_ok & Hd).
  apply stE_bind_ok in Hd as (inner & s4 & Hp%failing_during_ok & Hd). apply stE_lift_ok in Hd as [Hd _].
  destruct (decrypts _ _ _ _ _ s2 Henc) as [s5 Hp']. rewrite Ect in Hp. rewrite Hp in Hp'.
  assert (inner = encode_inner id v secret) as -> by congruence.
  apply decode_inner_exact in Hd as (_ & Hv' & _ & E); [|done].
  by destruct (encode_inner_inj id v secret id' (es_version_id record') x) as (-> & -> & ->).
Qed.
End Records.

(** ** The recipients of an age file *)
Lemma sort_tags_perm a b : sort_tags a = sort_tags b ↔ a ≡ₚ b.
Proof. apply merge_sort_perm. Qed.

(** The lines of a header up to its MAC, [n] of them, and its SSH stanzas;
    every stanza is one. *)
Inductive header : nat → list string → list (string * string) → Prop :=
| header_mac line lines :
    is_some (from_utf8 (bytes line)) = true → starts_with "--- " line = true → header 0 (line :: lines) []
| header_text n line lines tags :
    is_some (from_utf8 (bytes line)) = true → starts_with "--- " line = false →
    starts_with "-> " line = false → header n lines tags → header (S n) (line :: lines) tags
| header_stanza n line arguments kind tag fields lines tags :
    is_some (from_utf8 (bytes line)) = true → line = "-> " +:+ arguments →
    split " " arguments = kind :: tag :: fields → kind ∈ ssh_kinds → header n lines tags →
    header (S n) (line :: lines) ((kind, tag) :: tags).

Lemma from_utf8_id line s : from_utf8 (bytes line) = Some s → s = line.
Proof. intros E%from_utf8_bytes; [by apply bytes_inj|apply bytes_is_byte]. Qed.

Lemma header_tags_exact index lines actual tags :
  header_tags index lines actual = Ok tags ↔
    ∃ n new, header n lines new ∧ tags = actual ++ new ∧ index + Z.of_nat n ≤ MAX_HEADER_LINES.
Proof.
  revert index actual. induction lines as [|line lines IH]; intros index actual; cbn [header_tags].
  { split; [done|]. intros (n & new & H & _). inversion H. }
  destruct (MAX_HEADER_LINES <? index) eqn:El.
  { bool_prop. split; [done|]. intros (n & new & _ & _ & Hn). lia. }
  bool_prop. destruct (from_utf8 (bytes line)) as [s|] eqn:Eu; cbn [ok_or mbind result_bind].
  2:{ split; [done|]. intros (n & new & H & _). inversion H; subst; rewrite Eu in *; done. }
  assert (is_some (from_utf8 (bytes line)) = true) as Hu by (by rewrite Eu).
  apply from_utf8_id in Eu as ->.
  destruct (starts_with "--- " line) eqn:Em.
  { split.
    - intros [= <-]. exists 0%nat, []. rewrite app_nil_r. split; [by constructor|]. split; [done|lia].
    - intros (n & new & H & -> & _). inversion H as [?? _ _|???? _ E _ _|???????? _ E _ _ _]; subst.
      + by rewrite app_nil_r.
      + congruence.
      + by cbn in Em. }
  destruct (strip_prefix "-> " line) as [arguments|] eqn:Ep.
  2:{ assert (starts_with "-> " line = false) as Hs by (unfold starts_with; by rewrite Ep).
      rewrite IH. split.
      - intros (n & new & H & -> & Hn). exists (S n), new. split; [by constructor|]. split; [done|lia].
      - intros (n & new & H & -> & Hn). inversion H as [?? _ E|????? ? E' H'|???????? _ E]; subst; [congruence| |].
        + exists n0, new. split; [done|]. split; [done|lia].
        + unfold starts_with in Hs. by rewrite strip_prefix_app in Hs. }
  apply strip_prefix_Some in Ep.
  assert (∀ n new, header n (line :: lines) new → ∃ kind tag fields n' new',
    n = S n' ∧ new = (kind, tag) :: new' ∧ split " " arguments = kind :: tag :: fields ∧ kind ∈ ssh_kinds
    ∧ header n' lines new') as Hinv.
  { intros n new H. inversion H as [?? _ E|????? ? E' H'|? ? arguments' kind tag fields ? tags' _ E Hsp Hk H']; subst.
    - congruence.
    - by cbn in E'.
    - exists kind, tag, fields, n0, tags'. assert (arguments' = arguments) as ->; [|done].
      apply (f_equal (strip_prefix "-> ")) in E. rewrite !strip_prefix_app in E. by injection E as ->. }
  pose proof (split_not_nil " " arguments) as Hnn.
  destruct (split " " arguments) as [|kind fields] eqn:Es; [done|].
  case_bool_decide as Hk.
  - destruct fields as [|tag fields]; cbn [head].
    { split; [done|]. by intros (n & new & (? & ? & ? & ? & ? & _ & _ & Hs & _)%Hinv & _). }
    rewrite IH. split.
    + intros (n & new & H & -> & Hn). exists (S n), ((kind, tag) :: new). rewrite <- app_assoc.
      split; [by eapply header_stanza|]. split; [done|lia].
    + intros (n & new & (kind' & tag' & fields' & n' & new' & -> & -> & [= <- <- <-] & _ & H')%Hinv & -> & Hn).
      exists n', new'. rewrite <- app_assoc. split; [done|]. split; [done|lia].
  - split; [done|]. intros (n & new & (? & ? & ? & ? & ? & _ & _ & [= -> ->] & Hk' & _)%Hinv & _). done.
Qed.

Section Header.
Context (sha256 : list Z → list Z) (b64_decode : string → option (list Z)) (b64_nopad : list Z → string).

(** A record from an untrusted peer is accepted exactly when its age header
    has one SSH stanza for each expected recipient, in any order, and no other
    stanza. *)
Theorem recipients_exact ciphertext keys :
  verify_ssh_recipient_header sha256 b64_decode b64_nopad ciphertext keys = Ok tt ↔
    ciphertext ≠ [] ∧ zlen ciphertext ≤ MAX_CIPHERTEXT_SIZE
    ∧ ∃ expected lines n tags,
        Forall2 (λ key tag, stanza_tag sha256 b64_decode b64_nopad key = Ok tag) keys expected
        ∧ split (zb 10) (of_bytes ciphertext) = HEADER_VERSION :: lines
        ∧ header n lines tags ∧ Z.of_nat n ≤ MAX_HEADER_LINES ∧ tags ≡ₚ expected.
Proof.
  unfold verify_ssh_recipient_header. rewrite guard_bind_ok. bool_prop. split.
  - intros [[Hne Hl] H]. apply bind_ok in H as (expected & He%try_map_ok & H).
    destruct (split _ _) as [|version lines] eqn:Es; [done|].
    apply guard_bind_ok in H as [Hv H]. apply bool_decide_eq_true in Hv as ->.
    apply bind_ok in H as (actual & (n & tags & Hh & -> & Hn)%header_tags_exact & H).
    apply guard_ok, bool_decide_eq_true, sort_tags_perm in H. split; [done|]. split; [lia|].
    exists expected, lines, n, tags. repeat (split; [done|]). done.
  - intros (Hne & Hl & expected & lines & n & tags & He%try_map_ok & Hs & Hh & Hn & Hp).
    split; [split; [done|lia]|]. rewrite He, Hs. cbn [mbind result_bind guard_err]. rewrite bool_decide_true by done.
    cbn [guard_err mbind result_bind].
    assert (header_tags 0 lines [] = Ok tags) as -> by (apply header_tags_exact; exists n, tags; split; [done|]; split; [done|lia]).
    cbn [mbind result_bind]. apply guard_ok, bool_decide_eq_true. by apply sort_tags_perm.
Qed.
End Header.

(** ** Batches *)
Lemma encode_batch_cons value values :
  encode_batch (value :: values) = be_bytes 4 (zlen value mod 2 ^ 32) ++ value ++ encode_batch values.
Proof. unfold encode_batch. by rewrite mjoin_fmap_cons, <- app_assoc. Qed.

(** What is framed for the launcher is read back as the same values: none is
    split, joined, dropped or moved, and empty ones stay. *)
Theorem batch_round_trip values :
  (∀ value, value ∈ values → zlen value < 2 ^ 32) →
  ∀ fuel, (length (encode_batch values) ≤ fuel)%nat → decode_batch fuel (encode_batch values) = Ok values.
Proof.
  induction values as [|value values IH]; intros Hv fuel Hf; [by destruct fuel|].
  rewrite encode_batch_cons in Hf |- *. pose proof (Hv value ltac:(apply elem_of_cons; by left)) as Hlt. pose proof (zlen_nonneg value).
  rewrite Z.mod_small in Hf |- * by lia.
  pose proof (length_be_bytes 4 (zlen value)) as H4.
  assert (zlen (be_bytes 4 (zlen value)) = 4) as H4' by (change (Z.of_nat (length (be_bytes 4 (zlen value))) = 4); by rewrite H4).
  rewrite !length_app, H4 in Hf. destruct fuel as [|fuel]; [lia|].
  pose proof (take_app_length (be_bytes 4 (zlen value)) (value ++ encode_batch values)) as Ht. rewrite H4 in Ht.
  pose proof (drop_app_length (be_bytes 4 (zlen value)) (value ++ encode_batch values)) as Hd. rewrite H4 in Hd.
  destruct (be_bytes 4 (zlen value) ++ value ++ encode_batch values) as [|b l] eqn:E.
  { apply (f_equal length) in E. rewrite length_app, H4 in E. discriminate E. }
  cbn [decode_batch]. rewrite <- E in *. clear E b l. rewrite Ht, be_value_bytes_id by (cbn; lia).
  rewrite !zlen_app, H4'. pose proof (zlen_nonneg (encode_batch values)).
  rewrite (proj2 (Z.leb_le 4 _)) by lia. cbn [guard_err mbind result_bind].
  rewrite (proj2 (Z.leb_le (4 + zlen value) _)) by lia. cbn [guard_err mbind result_bind].
  rewrite Z2Nat.inj_add, <- drop_drop by lia. change (Z.to_nat 4) with 4%nat. rewrite Hd.
  assert (Z.to_nat (zlen value) = length value) as -> by (unfold zlen; lia).
  rewrite take_app_length, drop_app_length, IH; [done|set_solver|lia].
Qed.

(** ** Diagnostics *)
(** What is shown of age's diagnostics is one line of at most 601 characters. *)
Lemma clean_chars raw :
  let shown := flat_chars raw in
  Forall (λ c, is_control c = false) shown
  ∧ clean raw = of_chars (if (SHOWN_CHARACTERS <? length shown)%nat then take SHOWN_CHARACTERS shown ++ [8230] else shown).
Proof.
  cbn zeta. split.
  - unfold flat_chars. apply Forall_fmap, Forall_true. intros c. cbn. by destruct (is_control c) eqn:E.
  - unfold clean. by destruct (_ <? _)%nat.
Qed.

(** A secret key that follows a tab is shown as it is: words are split at
    spaces before control characters become spaces. *)
Theorem tab_hides_key_from_redaction :
  clean (bytes ("bad identity" +:+ String (zb 9) "" +:+ "AGE-SECRET-KEY-1QQQQ"))
    = "bad identity AGE-SECRET-KEY-1QQQQ"
  ∧ clean (bytes "bad identity AGE-SECRET-KEY-1QQQQ") = "bad identity [redacted]".
Proof. by vm_compute. Qed.

(** ** Waves *)
Lemma chunks_of_join {A} fuel n (l : list A) : (0 < n)%nat → (length l ≤ fuel)%nat → mjoin (chunks_of fuel n l) = l.
Proof.
  intros Hn. revert l. induction fuel as [|fuel IH]; intros l Hl; [by destruct l; [|cbn in Hl; lia]|].
  destruct l as [|x l]; [done|]. cbn [chunks_of]. change (mjoin (?a :: ?b)) with (a ++ mjoin b).
  rewrite IH; [apply take_drop|]. rewrite length_drop. cbn [length] in *. lia.
Qed.

Lemma try_map_app {E A B} (f : A → result E B) l k :
  try_map f (l ++ k) = (ys ← try_map f l; zs ← try_map f k; Ok (ys ++ zs)).
Proof.
  induction l as [|x l IH]; cbn [try_map app].
  - unfold mbind, result_bind. by destruct (try_map f k).
  - unfold mbind, result_bind in *. destruct (f x); [|done]. rewrite IH.
    destruct (try_map f l); [|done]. by destruct (try_map f k).
Qed.

Lemma try_map_fmap {E A B C} (f : B → result E C) (g : A → B) l :
  try_map f (g <$> l) = try_map (λ x, f (g x)) l.
Proof. induction l as [|x l IH]; [done|]. rewrite fmap_cons. cbn [try_map]. by rewrite IH. Qed.

Section Waves.
Context {S : Type} (p : AgeCommandProvider).
Context (run_with : option (string * list string) → list string → list Z → Z → stE S CryptoError (list Z)).
(** Decrypting one value does not depend on the others. *)
Context (one : list Z → result CryptoError (list Z)).
Context (independent : ∀ ciphertext s, age_decrypt p run_with ciphertext s = (one ciphertext, s)).

Lemma run_wave_all wave s : run_wave p run_with wave s = (one <$> wave, s).
Proof. induction wave as [|c wave IH]; [done|]. cbn [run_wave]. by rewrite independent, IH. Qed.

Lemma ordered_parallel_all waves output s :
  ordered_parallel p run_with waves output s = (values ← try_map one (mjoin waves); Ok (output ++ values), s).
Proof.
  revert output. induction waves as [|wave waves IH]; intros output; cbn [ordered_parallel].
  - change (mjoin []) with (@nil (list Z)). cbn. by rewrite app_nil_r.
  - rewrite run_wave_all, try_map_fmap. change (mjoin (wave :: waves)) with (wave ++ mjoin waves).
    rewrite try_map_app. change (λ x, id (one x)) with one.
    destruct (try_map one wave) as [values|]; cbn [mbind result_bind]; [|done]. rewrite IH.
    destruct (try_map one (mjoin waves)); cbn [mbind result_bind]; [|done]. by rewrite app_assoc.
Qed.

Lemma decrypt_each_all ciphertexts s : decrypt_each p run_with ciphertexts s = (try_map one ciphertexts, s).
Proof.
  induction ciphertexts as [|c l IH]; [done|]. cbn [decrypt_each try_map]. unfold mbind, stE_bind.
  rewrite independent. destruct (one c); [|done]. rewrite IH. by destruct (try_map one l).
Qed.

(** Decrypting in parallel waves gives what decrypting one after the other
    gives, whatever the number of workers: all values in input order, or the
    first failure in input order. *)
Theorem waves_are_sequential workers ciphertexts s :
  ordered_parallel p run_with (chunks (Z.to_nat (Z.max workers 1)) ciphertexts) [] s
    = decrypt_each p run_with ciphertexts s.
Proof.
  rewrite ordered_parallel_all, decrypt_each_all. unfold chunks. rewrite chunks_of_join by lia.
  by destruct (try_map one ciphertexts).
Qed.
End Waves.

(** ** Evaluated *)
(** An age that only marks what it encrypted. *)
#[local] Instance marking : CryptoProvider unit := {
  provider_encrypt _ inner := mret (255 :: inner);
  provider_decrypt ciphertext := mret (drop 1 ciphertext);
  provider_decrypt_batch ciphertexts := mret (drop 1 <$> ciphertexts)
}.
Definition some_version : list Z := repeat 7 16.
Definition some_recipients : list Recipient := [{| rc_id := "SHA256:abc"; rc_ssh_public_key := "ssh-ed25519 AAAA" |}].

Lemma record_round_trip_witness :
  ∃ record, encrypt_secret_with_version "web.services.mail.password" some_version (bytes "hunter2")
              some_recipients tt = (Ok record, tt)
    ∧ ∃ s3, decrypt_secret "web.services.mail.password" record tt = (Ok (bytes "hunter2"), s3).
Proof.
  destruct (encrypt_secret_with_version "web.services.mail.password" some_version (bytes "hunter2")
              some_recipients tt) as [[record|e] []] eqn:E; [|exfalso; vm_compute in E; discriminate E].
  exists record. split; [reflexivity|].
  refine (proj1 (record_round_trip _ "web.services.mail.password" some_version (bytes "hunter2")
                   some_recipients tt record tt E eq_refl eq_refl) tt).
  intros keys inner s ciphertext s1 s2 H. injection H as <- <-. exists s2. reflexivity.
Defined.

Lemma batch_round_trip_witness :
  decode_batch 11 (encode_batch [bytes "abc"; []]) = Ok [bytes "abc"; []].
Proof. apply batch_round_trip; [|vm_compute; lia]. intros value H. repeat (apply elem_of_cons in H as [->|H]; [vm_compute; reflexivity|]). by apply not_elem_of_nil in H. Defined.

Lemma decode_inner_exact_witness :
  forallb is_byte (encode_inner "a.services.b.c" some_version []) = true
  ∧ (decode_inner "a.services.b.d" some_version (encode_inner "a.services.b.c" some_version []) = Ok [] ↔
     Crypto.validate_identifier "a.services.b.d" = Ok tt ∧ zlen some_version = 16 ∧ zlen (@nil Z) ≤ MAX_SECRET_SIZE
     ∧ encode_inner "a.services.b.c" some_version [] = encode_inner "a.services.b.d" some_version []).
Proof. split; [reflexivity|]. apply decode_inner_exact. reflexivity. Defined.

Lemma waves_are_sequential_witness :
  let p := {| ac_program := "age"; ac_launcher := None; ac_decryption := IdentityFile "/id" |} in
  let run := λ _ _ input _, mret (M := stE unit CryptoError) (drop 1 input) in
  ordered_parallel p run (chunks (Z.to_nat (Z.max 2 1)) [[255; 1]; [255; 2]; [255; 3]]) [] tt
    = decrypt_each p run [[255; 1]; [255; 2]; [255; 3]] tt.
Proof.
  intros p run.
  apply (waves_are_sequential p run (λ c, if zlen c <=? MAX_CIPHERTEXT_SIZE then Ok (drop 1 c) else Err SecretTooLarge)).
  intros c s. unfold age_decrypt, mbind, stE_bind, st_guard, st_lift, guard_err.
  destruct (zlen c <=? MAX_CIPHERTEXT_SIZE); reflexivity.
Defined.
