(* ===== verification/Store.v ===== *)
(** * The encrypted store

    [crates/core/src/store.rs] and [crates/core/src/store/]: records by
    identifier, the recipient registry they refer to, public keys, public
    information and the quarantine, in one TOML file that is replaced
    atomically under a file lock.  The lock makes every operation one step; every
    state of the directory that its system calls leave behind is recorded, and a
    loss of power may undo what was not synced.  The TOML encoder and parser, the base64 decoder, the OpenSSH
    key parser, the kernel's random bytes and git are arguments. *)
From S2P Require Import Prelude BTree Text Generator Schema SchemaValidation.
#[local] Open Scope Z_scope.

Record EncryptedSecret := {
  es_format_version : Z;
  es_version_id : list Z;
  es_recipient_ids : list string;
  es_recipient_refs : list string;
  es_age_ciphertext : list Z;
  es_public_key : option string
}.

Record GeneratedPublicKey := { gk_version_id : string; gk_public_key : string }.
Record PublicInfoRecord := { pi_version_id : string; pi_value : string }.

Inductive QuarantinedContent :=
| GeneratedRecord (format_version : Z) (version_id_base64 : string)
    (recipient_ids : list string) (age_ciphertext_base64 : string) (adopted : bool)
| QuarantinedKey (public_key : string).

Record QuarantinedValue := {
  qv_identifier : string;
  qv_source_host : string;
  qv_deployment_id : string;
  qv_quarantined_at : Z;
  qv_reason : string;
  qv_content : QuarantinedContent
}.

Record StoreDocument := {
  sd_secrets : list (string * EncryptedSecret);
  sd_generated_public_keys : list (string * GeneratedPublicKey);
  sd_recipient_registry : list (string * string);
  sd_public_info : list (string * PublicInfoRecord);
  sd_quarantine : list (string * QuarantinedValue)
}.

Definition document_default : StoreDocument :=
  {| sd_secrets := []; sd_generated_public_keys := []; sd_recipient_registry := [];
     sd_public_info := []; sd_quarantine := [] |}.

Inductive StoreError :=
| Io (message : string)
| Decode (message : string)
| Encode (message : string)
| BadSchema (error : SchemaError)
| RecipientMismatch
| InvalidRecord
| InvalidPublicKey
| InvalidRecipientRegistry
| InvalidPublicInfo
| InvalidQuarantine
| VersionConflict
| DerivedValue.

Definition with_secrets (m : list (string * EncryptedSecret)) (d : StoreDocument) : StoreDocument :=
  {| sd_secrets := m; sd_generated_public_keys := sd_generated_public_keys d;
     sd_recipient_registry := sd_recipient_registry d; sd_public_info := sd_public_info d;
     sd_quarantine := sd_quarantine d |}.
Definition with_generated (m : list (string * GeneratedPublicKey)) (d : StoreDocument)
  : StoreDocument :=
  {| sd_secrets := sd_secrets d; sd_generated_public_keys := m;
     sd_recipient_registry := sd_recipient_registry d; sd_public_info := sd_public_info d;
     sd_quarantine := sd_quarantine d |}.
Definition with_registry (m : list (string * string)) (d : StoreDocument) : StoreDocument :=
  {| sd_secrets := sd_secrets d; sd_generated_public_keys := sd_generated_public_keys d;
     sd_recipient_registry := m; sd_public_info := sd_public_info d;
     sd_quarantine := sd_quarantine d |}.
Definition with_public_info (m : list (string * PublicInfoRecord)) (d : StoreDocument)
  : StoreDocument :=
  {| sd_secrets := sd_secrets d; sd_generated_public_keys := sd_generated_public_keys d;
     sd_recipient_registry := sd_recipient_registry d; sd_public_info := m;
     sd_quarantine := sd_quarantine d |}.
Definition with_quarantine (m : list (string * QuarantinedValue)) (d : StoreDocument)
  : StoreDocument :=
  {| sd_secrets := sd_secrets d; sd_generated_public_keys := sd_generated_public_keys d;
     sd_recipient_registry := sd_recipient_registry d; sd_public_info := sd_public_info d;
     sd_quarantine := m |}.

Definition with_ids (ids refs : list string) (e : EncryptedSecret) : EncryptedSecret :=
  {| es_format_version := es_format_version e; es_version_id := es_version_id e;
     es_recipient_ids := ids; es_recipient_refs := refs;
     es_age_ciphertext := es_age_ciphertext e; es_public_key := es_public_key e |}.
Definition with_public_key (key : string) (e : EncryptedSecret) : EncryptedSecret :=
  {| es_format_version := es_format_version e; es_version_id := es_version_id e;
     es_recipient_ids := es_recipient_ids e; es_recipient_refs := es_recipient_refs e;
     es_age_ciphertext := es_age_ciphertext e; es_public_key := Some key |}.

(** An operation on the document under the lock. *)
Definition action (T : Type) : Type := stE StoreDocument StoreError T.

(** ** Validation *)
Definition hydrate_record (d : StoreDocument) (record : EncryptedSecret)
  : result StoreError EncryptedSecret :=
  if bool_decide (es_recipient_refs record = []) then Ok record
  else if negb (bool_decide (es_recipient_ids record = [])) then Err InvalidRecipientRegistry
  else
    ids ← try_map (λ reference,
            ok_or InvalidRecipientRegistry (bt_get reference (sd_recipient_registry d)))
            (es_recipient_refs record);
    Ok (with_ids ids (es_recipient_refs record) record).

Definition MAX_OPERATOR_PUBLIC_KEY_BYTES : Z := 64 * 1024.
Definition MAX_CIPHERTEXT_BYTES : Z := 64 * 1024 * 1024.

Section Metadata.
Context (b64_decode : string → option (list Z)).

Definition valid_operator_public_key (key : string) : bool :=
  is_some_and (λ bytes, negb (bool_decide (bytes = []))
                        && (zlen bytes <=? MAX_OPERATOR_PUBLIC_KEY_BYTES)) (b64_decode key).

(** The last check, with what the leaf says about private keys. *)
Definition check_public_key (private_key : bool) (public_key : option string)
  : result StoreError unit :=
  guard_err (negb (is_some_and (λ key,
      negb private_key || negb (valid_ssh_public_key b64_decode key)) public_key))
    InvalidPublicKey.

Definition validate_public_metadata (leaf : LeafSpec) (public_key : option string)
  : result StoreError unit :=
  match leaf with
  | Stored spec =>
      if bool_decide (ds_content_type (ss_destination spec) = Some "openssh-private-key")
      then
        _ ← guard_err (is_some public_key) InvalidPublicKey;
        check_public_key true public_key
      else check_public_key false public_key
  | GeneratedSpec spec =>
      check_public_key
        (bool_decide (ds_content_type (gs_output (gp_generated_secret spec))
                      = Some "openssh-private-key")) public_key
  | OperatorOnly spec =>
      match public_key with
      | None => Ok tt
      | Some key =>
          guard_err (is_some (os_generator spec) && valid_operator_public_key key)
            InvalidPublicKey
      end
  end.
End Metadata.

Definition validate_record (record : EncryptedSecret) : result StoreError unit :=
  guard_err (negb (negb (es_format_version record =? 1)
      || negb (zlen (es_version_id record) =? 16)
      || bool_decide (es_recipient_ids record = [])
      || bool_decide (es_age_ciphertext record = [])
      || (MAX_CIPHERTEXT_BYTES <? zlen (es_age_ciphertext record))))
    InvalidRecord.

(** ** Records *)
Definition is_public_info (leaf : LeafSpec) : bool :=
  match leaf with Stored spec => bool_decide (ss_kind spec = KPublicInfo) | _ => false end.
Definition is_derived (leaf : LeafSpec) : bool :=
  match leaf with Stored spec => is_some (ss_derived_from spec) | _ => false end.

Definition get_record (path : SecretPath) (d : StoreDocument)
  : result StoreError (option EncryptedSecret) :=
  match bt_get (path_show path) (sd_secrets d) with
  | Some record => record ← hydrate_record d record; Ok (Some record)
  | None => Ok None
  end.

Definition list_records (d : StoreDocument)
  : result StoreError (list (string * EncryptedSecret)) :=
  try_map (λ '(path, record), record ← hydrate_record d record; Ok (path, record)) (sd_secrets d).

(** The [loop] that looks for a free revision: [None] is out of fuel. *)
Fixpoint free_reference (fuel : nat) (revision : Z) (registry : list (string * string))
  (name : string) : option string :=
  match fuel with
  | O => None
  | S fuel =>
      let reference := name +:+ "#" +:+ dec revision in
      if negb (bt_contains reference registry) then Some reference
      else free_reference fuel (revision + 1) registry name
  end.

(** The reference of one recipient: one that already names it, or a free one.
    One try more than the registry has entries is enough. *)
Definition find_reference (registry : list (string * string)) (name id : string)
  : option string :=
  match list_find (λ '(reference, value),
          starts_with (name +:+ "#") reference = true ∧ value = id) registry with
  | Some (_, (reference, _)) => Some reference
  | None => free_reference (S (length registry)) 0 registry name
  end.

(** The loop over names and ids. *)
Fixpoint register_recipients (registry : list (string * string)) (pairs : list (string * string))
  : option (list string * list (string * string)) :=
  match pairs with
  | [] => Some ([], registry)
  | (name, id) :: pairs =>
      reference ← find_reference registry name id;
      let registry :=
        if bt_contains reference registry then registry else bt_insert reference id registry in
      '(refs, registry) ← register_recipients registry pairs;
      Some (reference :: refs, registry)
  end.

(** The closure of [set_checked]. *)
Definition set_action (path : SecretPath) (names : list string) (envelope : EncryptedSecret)
  (expected_version : option (option (list Z))) : action unit := λ d,
  let actual := es_version_id <$> bt_get (path_show path) (sd_secrets d) in
  if negb (is_none_or (λ expected, bool_decide (actual = expected)) expected_version)
  then (Err VersionConflict, d)
  else if bool_decide (names = [])
  then (Ok tt, with_secrets (bt_insert (path_show path)
          (with_ids (es_recipient_ids envelope) [] envelope) (sd_secrets d)) d)
  else if negb (zlen names =? zlen (es_recipient_ids envelope))
  then (Err InvalidRecipientRegistry, d)
  else
    match register_recipients (sd_recipient_registry d)
            (combine names (es_recipient_ids envelope)) with
    | Some (refs, registry) =>
        (Ok tt, with_secrets (bt_insert (path_show path) (with_ids [] refs envelope) (sd_secrets d))
                  (with_registry registry d))
    | None => (Err (Io "out of fuel"), d)
    end.

(** The checks of [set_checked] before the lock: the recipient names. *)
Definition set_checks (b64_decode : string → option (list Z)) (schema : Schema)
  (path : SecretPath) (envelope : EncryptedSecret) : result StoreError (list string) :=
  leaf ← map_err BadSchema (leaf schema path);
  _ ← guard_err (negb (is_public_info leaf)) InvalidPublicInfo;
  _ ← guard_err (negb (is_derived leaf)) DerivedValue;
  _ ← guard_err (bool_decide ((recipients leaf).1 = es_recipient_ids envelope)) RecipientMismatch;
  _ ← validate_public_metadata b64_decode leaf (es_public_key envelope);
  _ ← validate_record envelope;
  Ok (recipient_names leaf).

Definition remove_action (path : SecretPath) : action bool := λ d,
  (Ok (bt_contains (path_show path) (sd_secrets d)),
   with_secrets (bt_remove (path_show path) (sd_secrets d)) d).

Definition remove_if_version_action (path : SecretPath) (expected_version : list Z)
  : action bool := λ d,
  if bool_decide (es_version_id <$> bt_get (path_show path) (sd_secrets d) = Some expected_version)
  then remove_action path d else (Err VersionConflict, d).

Definition remove_checks (schema : Schema) (path : SecretPath) : result StoreError unit :=
  leaf ← map_err BadSchema (leaf schema path);
  guard_err (negb (is_public_info leaf)) InvalidPublicInfo.

(** ** Generated public keys *)
Definition generated_key_checks (b64_decode : string → option (list Z)) (schema : Schema)
  (path : SecretPath) (value : GeneratedPublicKey) : result StoreError unit :=
  leaf ← map_err BadSchema (leaf schema path);
  match leaf with
  | GeneratedSpec spec =>
      guard_err (match gs_secret_type (gp_generated_secret spec) with LocalSshKey => true | _ => false end
          && valid_ssh_public_key b64_decode (gk_public_key value)
          && negb (bool_decide (gk_version_id value = "")) && (slen (gk_version_id value) <=? 256))
        InvalidPublicKey
  | _ => Err InvalidPublicKey
  end.

Definition set_generated_action (path : SecretPath) (value : GeneratedPublicKey)
  (expected_version : option string) : action unit := λ d,
  let actual := bt_get (path_show path) (sd_generated_public_keys d) in
  if negb (bool_decide (gk_version_id <$> actual = expected_version)) then (Err VersionConflict, d)
  else if is_some_and (λ record,
            negb (bool_decide (gk_public_key record = gk_public_key value))
            && bool_decide (gk_version_id record = gk_version_id value)) actual
  then (Err VersionConflict, d)
  else (Ok tt, with_generated (bt_insert (path_show path) value (sd_generated_public_keys d)) d).

Definition generated_public_key (path : SecretPath) (d : StoreDocument)
  : result StoreError (option GeneratedPublicKey) :=
  Ok (bt_get (path_show path) (sd_generated_public_keys d)).

Definition public_key_checks (b64_decode : string → option (list Z)) (schema : Schema)
  (path : SecretPath) (public_key : string) : result StoreError unit :=
  leaf ← map_err BadSchema (leaf schema path);
  match leaf with
  | GeneratedSpec spec =>
      guard_err (match gs_secret_type (gp_generated_secret spec) with
                 | StorageBoxSshKey => true | _ => false end
                 && valid_ssh_public_key b64_decode public_key) InvalidPublicKey
  | _ => Err InvalidPublicKey
  end.

Definition set_public_key_action (path : SecretPath) (public_key : string)
  (expected_version : list Z) (expected_public_key : option string) : action unit := λ d,
  match bt_get (path_show path) (sd_secrets d) with
  | None => (Err VersionConflict, d)
  | Some record =>
      if negb (bool_decide (es_version_id record = expected_version)) then (Err VersionConflict, d)
      else if negb (bool_decide (es_public_key record = expected_public_key))
      then (Err VersionConflict, d)
      else (Ok tt, with_secrets (bt_update (with_public_key public_key) (path_show path)
                                   (sd_secrets d)) d)
  end.

(** ** Public information *)
Definition public_info_checks (from_openssh : string → option Algorithm) (schema : Schema)
  (path : SecretPath) (value : PublicInfoRecord) : result StoreError string :=
  spec ← map_err BadSchema (secret schema path);
  match ss_kind spec, ss_shared_public_id spec, ss_expected_ssh_host spec,
        ss_expected_ssh_port spec with
  | KPublicInfo, Some id, Some _, Some port =>
      let hosts := spec_ssh_hosts spec in
      _ ← guard_err (bool_decide (slen (pi_version_id value) ∈ [32; 64])
            && all_bytes is_ascii_hexdigit (pi_version_id value)
            && is_ok (validate_ssh_known_hosts from_openssh (pi_value value) hosts port))
            InvalidPublicInfo;
      Ok id
  | _, _, _, _ => Err InvalidPublicInfo
  end.

Definition set_public_info_action (id : string) (value : PublicInfoRecord)
  (expected_version : option string) : action unit := λ d,
  if negb (bool_decide (pi_version_id <$> bt_get id (sd_public_info d) = expected_version))
  then (Err VersionConflict, d)
  else (Ok tt, with_public_info (bt_insert id value (sd_public_info d)) d).

Definition remove_public_info_checks (schema : Schema) (path : SecretPath)
  : result StoreError string :=
  spec ← map_err BadSchema (secret schema path);
  match ss_kind spec, ss_shared_public_id spec with
  | KPublicInfo, Some id => Ok id
  | _, _ => Err InvalidPublicInfo
  end.

Definition remove_public_info_action (id : string) (expected_version : string)
  : action bool := λ d,
  if negb (bool_decide (pi_version_id <$> bt_get id (sd_public_info d) = Some expected_version))
  then (Err VersionConflict, d)
  else (Ok (bt_contains id (sd_public_info d)),
        with_public_info (bt_remove id (sd_public_info d)) d).

Definition list_public_info (d : StoreDocument)
  : result StoreError (list (string * PublicInfoRecord)) := Ok (sd_public_info d).
Definition get_public_info (shared_id : string) (d : StoreDocument)
  : result StoreError (option PublicInfoRecord) := Ok (bt_get shared_id (sd_public_info d)).

(** ** Quarantine *)
Definition MAX_QUARANTINE : Z := 1024.
Definition MAX_TEXT : Z := 4096.
Definition MAX_CONTENT : Z := 32 * 1024 * 1024.

Definition content_len (c : QuarantinedContent) : Z :=
  match c with
  | GeneratedRecord _ version_id recipient_ids ciphertext _ =>
      slen version_id + slen ciphertext + foldr (λ s n, slen s + n) 0 recipient_ids
  | QuarantinedKey public_key => slen public_key
  end.

Definition quarantine_validate (v : QuarantinedValue) : result StoreError unit :=
  guard_err (negb (existsb (λ text, MAX_TEXT <? slen text)
        [qv_identifier v; qv_source_host v; qv_deployment_id v; qv_reason v]
      || bool_decide (qv_identifier v = "") || bool_decide (qv_source_host v = "")
      || (MAX_CONTENT <? content_len (qv_content v))))
    InvalidQuarantine.

Definition quarantine_action (id : string) (value : QuarantinedValue) : action unit := λ d,
  if MAX_QUARANTINE <=? zlen (sd_quarantine d) then (Err InvalidQuarantine, d)
  else (Ok tt, with_quarantine (bt_insert id value (sd_quarantine d)) d).

Definition list_quarantine (d : StoreDocument)
  : result StoreError (list (string * QuarantinedValue)) := Ok (sd_quarantine d).

Definition remove_quarantined_action (id : string) : action bool := λ d,
  (Ok (bt_contains id (sd_quarantine d)),
   with_quarantine (bt_remove id (sd_quarantine d)) d).

(** ** Commit state *)
Inductive CommitState := Unset | Committed | Uncommitted | CommitUnknown (reason : string).

(** [committed] is [committed_document]: what git shows of the last commit. *)
Definition commit_state (committed : result string StoreDocument) (path : SecretPath)
  (d : StoreDocument) : CommitState :=
  match bt_get (path_show path) (sd_secrets d) with
  | None => Unset
  | Some current =>
      match committed with
      | Ok committed =>
          if is_some_and (λ record,
               bool_decide (es_version_id record = es_version_id current)
               && bool_decide (es_age_ciphertext record = es_age_ciphertext current))
               (bt_get (path_show path) (sd_secrets committed))
          then Committed else Uncommitted
      | Err reason => CommitUnknown reason
      end
  end.

(** ** The file *)
(** An open or closed file; [in_durable] is whether its contents survive a loss of power. *)
Record Inode := { in_text : string; in_durable : bool }.
(** The store's directory: the store file, the temporary files, and what the
    store's name stood for since the directory was last synced, which a loss of
    power may bring back. *)
Record Files := {
  fl_store : option Inode;
  fl_temps : list (string * Inode);
  fl_undone : list (option Inode)
}.
(** With the process's counter [TEMP_ID] and every state its calls left behind. *)
Record Disk := { dk_files : Files; dk_temp_id : Z; dk_trace : list Files }.

(** The system calls of [with_lock], [read_document] and [write_document]. *)
Inductive SysCall :=
| DkMkdir | DkOpenLock | DkFlock | DkRead
| DkCreate | DkWrite | DkSync | DkRename | DkChmod | DkOpenDir | DkSyncDir | DkRemove.
#[export] Instance SysCall_eq_dec : EqDecision SysCall.
Proof. solve_decision. Defined.
(** How a call fails; a failing write has written [ft_written] bytes. *)
Record Fault := { ft_error : string; ft_written : nat }.

Definition with_files (f : Files) (disk : Disk) : Disk :=
  {| dk_files := f; dk_temp_id := dk_temp_id disk; dk_trace := dk_trace disk ++ [f] |}.
Definition set_temps (temps : list (string * Inode)) (f : Files) : Files :=
  {| fl_store := fl_store f; fl_temps := temps; fl_undone := fl_undone f |}.
Definition on_temp (name : string) (g : Inode → Inode) (f : Files) : Files :=
  set_temps (bt_update g name (fl_temps f)) f.

(** [write_all] at the end of a new file. *)
Definition append (text : string) (i : Inode) : Inode :=
  {| in_text := in_text i +:+ text; in_durable := false |}.
Definition sync (i : Inode) : Inode := {| in_text := in_text i; in_durable := true |}.
Definition rename_temp (name : string) (f : Files) : Files :=
  {| fl_store := bt_get name (fl_temps f); fl_temps := bt_remove name (fl_temps f);
     fl_undone := fl_store f :: fl_undone f |}.
Definition sync_directory (f : Files) : Files :=
  {| fl_store := fl_store f; fl_temps := fl_temps f; fl_undone := [] |}.

Definition temp_name (pid id : Z) : string := ".nix-secrets." +:+ dec pid +:+ "." +:+ dec id +:+ ".tmp".

Section File.
(** [toml::to_string_pretty] and [toml::from_str]; the process id. *)
Context (encode : StoreDocument → result string string)
        (decode : string → result string StoreDocument) (pid : Z).
(** Which system calls fail. *)
Context (fails : SysCall → option Fault).

(** A call that leaves the directory's files alone. *)
Definition sys_check (call : SysCall) : stE Disk StoreError unit :=
  match fails call with Some fault => st_lift (Err (Io (ft_error fault))) | None => mret tt end.
(** A call that changes them; [failed] is what it does when it fails. *)
Definition sys_step (call : SysCall) (failed : nat → Files → Files) (effect : Files → Files)
  : stE Disk StoreError unit := λ disk,
  match fails call with
  | Some fault => (Err (Io (ft_error fault)), with_files (failed (ft_written fault) (dk_files disk)) disk)
  | None => (Ok tt, with_files (effect (dk_files disk)) disk)
  end.
Definition unchanged (n : nat) (f : Files) : Files := f.

(** What a reader gets of these contents. *)
Definition parse_document (text : option string) : result StoreError StoreDocument :=
  match text with Some text => map_err Decode (decode text) | None => Ok document_default end.
Definition stored (f : Files) : result StoreError StoreDocument := parse_document (in_text <$> fl_store f).

(** Every error but [NotFound] is reported. *)
Definition read_document : stE Disk StoreError StoreDocument :=
  _ ← sys_check DkRead;
  disk ← st_get;
  st_lift (stored (dk_files disk)).

(** [TEMP_ID.fetch_add(1)]. *)
Definition next_temp_id : stE Disk StoreError Z := λ disk,
  (Ok (dk_temp_id disk),
   {| dk_files := dk_files disk; dk_temp_id := wrap64 (dk_temp_id disk + 1); dk_trace := dk_trace disk |}).

(** [create_new]: there must be no file of this name. *)
Definition create_temp (name : string) : stE Disk StoreError unit :=
  disk ← st_get;
  _ ← st_guard (negb (bt_contains name (fl_temps (dk_files disk)))) (Io "File exists");
  sys_step DkCreate unchanged
    (λ f, set_temps (bt_insert name {| in_text := ""; in_durable := false |} (fl_temps f)) f).

(** The closure of [write_document]. *)
Definition write_temp (name : string) (d : StoreDocument) : stE Disk StoreError unit :=
  text ← st_lift (map_err Encode (encode d));
  _ ← sys_step DkWrite (λ n, on_temp name (append (String.substring 0 n text))) (on_temp name (append text));
  _ ← sys_step DkSync unchanged (on_temp name sync);
  _ ← sys_step DkRename unchanged (rename_temp name);
  _ ← sys_check DkChmod;
  _ ← sys_check DkOpenDir;
  sys_step DkSyncDir unchanged sync_directory.

(** [let _ = fs::remove_file(temp_path)]. *)
Definition remove_temp (name : string) (disk : Disk) : Disk :=
  (sys_step DkRemove unchanged (λ f, set_temps (bt_remove name (fl_temps f)) f) disk).2.

(** [if result.is_err()] the temporary file is removed. *)
Definition cleaning_up (name : string) (m : stE Disk StoreError unit) : stE Disk StoreError unit := λ disk,
  match m disk with
  | (Ok _, disk) => (Ok tt, disk)
  | (Err e, disk) => (Err e, remove_temp name disk)
  end.
Definition write_document (d : StoreDocument) : stE Disk StoreError unit :=
  id ← next_temp_id;
  let name := temp_name pid id in
  _ ← create_temp name;
  cleaning_up name (write_temp name d).

(** The closure's document is dropped when it fails. *)
Definition run_action {T} (act : action T) (d : StoreDocument) : result StoreError (T * StoreDocument) :=
  match act d with (Ok value, d) => Ok (value, d) | (Err e, _) => Err e end.

Definition with_lock {T} (write : bool) (act : action T) : stE Disk StoreError T :=
  _ ← sys_check DkMkdir;
  _ ← sys_check DkOpenLock;
  _ ← sys_check DkFlock;
  document ← read_document;
  '(value, document) ← st_lift (run_action act document);
  _ ← (if write then write_document document else mret tt);
  mret value.

(** A read. *)
Definition reading {T} (f : StoreDocument → result StoreError T) : stE Disk StoreError T :=
  with_lock false (λ d, (f d, d)).

(** ** The operations of [SecretStore] *)
Context (b64_decode : string → option (list Z)) (from_openssh : string → option Algorithm).

Definition set_checked (schema : Schema) (path : SecretPath) (envelope : EncryptedSecret)
  (expected_version : option (option (list Z))) : stE Disk StoreError unit :=
  names ← st_lift (set_checks b64_decode schema path envelope);
  with_lock true (set_action path names envelope expected_version).

Definition set_record (schema : Schema) (path : SecretPath) (envelope : EncryptedSecret) :=
  set_checked schema path envelope None.
Definition set_if_version (schema : Schema) (path : SecretPath) (envelope : EncryptedSecret)
  (expected_version : option (list Z)) :=
  set_checked schema path envelope (Some expected_version).

Definition remove (schema : Schema) (path : SecretPath) : stE Disk StoreError bool :=
  _ ← st_lift (remove_checks schema path);
  with_lock true (remove_action path).
Definition remove_if_version (schema : Schema) (path : SecretPath) (expected_version : list Z)
  : stE Disk StoreError bool :=
  _ ← st_lift (remove_checks schema path);
  with_lock true (remove_if_version_action path expected_version).

Definition set_generated_public_key_if_version (schema : Schema) (path : SecretPath)
  (value : GeneratedPublicKey) (expected_version : option string) : stE Disk StoreError unit :=
  _ ← st_lift (generated_key_checks b64_decode schema path value);
  with_lock true (set_generated_action path value expected_version).
Definition set_public_key_if_version (schema : Schema) (path : SecretPath) (public_key : string)
  (expected_version : list Z) (expected_public_key : option string) : stE Disk StoreError unit :=
  _ ← st_lift (public_key_checks b64_decode schema path public_key);
  with_lock true (set_public_key_action path public_key expected_version expected_public_key).

Definition set_public_info_if_version (schema : Schema) (path : SecretPath)
  (value : PublicInfoRecord) (expected_version : option string) : stE Disk StoreError unit :=
  id ← st_lift (public_info_checks from_openssh schema path value);
  with_lock true (set_public_info_action id value expected_version).
Definition remove_public_info_if_version (schema : Schema) (path : SecretPath)
  (expected_version : string) : stE Disk StoreError bool :=
  id ← st_lift (remove_public_info_checks schema path);
  with_lock true (remove_public_info_action id expected_version).

(** [getrandom] gives the 8 bytes of the id, or fails. *)
Definition quarantine (getrandom : result string (list Z)) (value : QuarantinedValue)
  : stE Disk StoreError string :=
  _ ← st_lift (quarantine_validate value);
  random ← st_lift (map_err Io getrandom);
  let id := hex_of random in
  _ ← with_lock true (quarantine_action id value);
  mret id.
Definition remove_quarantined (id : string) : stE Disk StoreError bool :=
  with_lock true (remove_quarantined_action id).
End File.

(** ** Atomic replacement *)
(** The contents of the store's name after a loss of power: of any file it stood
    for since the directory was synced, and if that file was not synced, anything. *)
Definition survives (f : Files) (text : option string) : Prop :=
  ∃ entry, entry ∈ fl_store f :: fl_undone f
    ∧ match entry with
      | None => text = None
      | Some i => ∃ t, text = Some t ∧ (in_durable i = true → t = in_text i)
      end.
(** Every file the store's name may stand for is synced. *)
Definition whole (f : Files) : Prop := ∀ i, Some i ∈ fl_store f :: fl_undone f → in_durable i = true.

Lemma survives_whole f text : whole f →
  survives f text ↔ ∃ entry, entry ∈ fl_store f :: fl_undone f ∧ text = in_text <$> entry.
Proof.
  intros Hw. unfold survives. split.
  - intros (entry & He & Ht). exists entry. split; [done|]. destruct entry as [i|]; [|done].
    destruct Ht as (t & -> & Ht). cbn. f_equal. by apply Ht, Hw.
  - intros (entry & He & ->). exists entry. split; [done|]. destruct entry as [i|]; [|done]. by exists (in_text i).
Qed.
Lemma survives_now f : survives f (in_text <$> fl_store f).
Proof. exists (fl_store f). split; [by left|]. destruct (fl_store f) as [i|]; [|done]. by exists (in_text i). Qed.

(** The store's name stands for the same files. *)
Definition same_store (f f' : Files) : Prop := fl_store f' = fl_store f ∧ fl_undone f' = fl_undone f.
(** It stands for a synced file of the contents [t], and may still stand for those before. *)
Definition replaced (t : string) (f f' : Files) : Prop :=
  fl_store f' = Some {| in_text := t; in_durable := true |}
  ∧ (fl_undone f' = fl_store f :: fl_undone f ∨ fl_undone f' = []).
Lemma same_store_refl f : same_store f f.
Proof. done. Qed.

Section Atomic.
Context (encode : StoreDocument → result string string)
        (decode : string → result string StoreDocument) (pid : Z).
Context (Hcodec : ∀ d text, encode d = Ok text → decode text = Ok d).
Context (fails : SysCall → option Fault).
Notation locked := (with_lock encode decode pid fails).

(** The calls after the rename: when one of them fails, the file is replaced all the same. *)
Definition late_failure : Prop :=
  is_some (fails DkChmod) = true ∨ is_some (fails DkOpenDir) = true ∨ is_some (fails DkSyncDir) = true.

Lemma check_spec call disk r disk' :
  sys_check fails call disk = (r, disk') →
  disk' = disk ∧ (r = Ok tt ∨ (∃ e, r = Err e) ∧ is_some (fails call) = true).
Proof. unfold sys_check, st_lift, mret, stE_ret. destruct (fails call); intros [= <- <-]; eauto. Qed.

(** What the directory's states have in common while [d] is written over [f]. *)
Definition writing (d : StoreDocument) (f f' : Files) : Prop :=
  same_store f f' ∨ ∃ t, encode d = Ok t ∧ replaced t f f'.

Lemma temp_synced name text f :
  fl_store (rename_temp name (on_temp name sync (on_temp name (append text)
    (set_temps (bt_insert name {| in_text := ""; in_durable := false |} (fl_temps f)) f))))
  = Some {| in_text := text; in_durable := true |}.
Proof.
  unfold rename_temp, on_temp, set_temps. cbn [fl_store fl_temps].
  by rewrite !bt_get_update, !kcmp_refl, bt_get_insert_eq.
Qed.

(** Names the states a run added to the trace and shows what they are. *)
Ltac seen :=
  eexists; split; [rewrite <- ?app_assoc; reflexivity|];
  repeat first [apply List.Forall_nil | apply List.Forall_cons; [try by left|]].
Lemma write_document_spec d disk r disk' :
  write_document encode pid fails d disk = (r, disk') →
  (∃ visited, dk_trace disk' = dk_trace disk ++ visited ∧ Forall (writing d (dk_files disk)) visited)
  ∧ (is_ok r = false ∧ same_store (dk_files disk) (dk_files disk')
     ∨ ∃ t, encode d = Ok t ∧ replaced t (dk_files disk) (dk_files disk')
         ∧ (is_ok r = true ∧ fl_undone (dk_files disk') = [] ∨ is_ok r = false ∧ late_failure)).
Proof.
  unfold write_document, next_temp_id, create_temp, st_get, st_guard, st_lift, guard_err, mbind, stE_bind. cbv beta iota.
  cbn [dk_files dk_temp_id dk_trace]. set (name := temp_name pid (dk_temp_id disk)). set (f := dk_files disk).
  unfold cleaning_up, write_temp, remove_temp, sys_step, sys_check, st_lift, mbind, stE_bind.
  intros H. pose proof (λ text, temp_synced name text f) as Hsynced.
  destruct (bt_contains name (fl_temps f)); cbn in H; [simplify_eq/=; split; [exists []; by rewrite app_nil_r|by left]|].
  destruct (fails DkCreate) as [e|]; cbn in H.
  { simplify_eq/=. split; [seen|by left]. }
  destruct (encode d) as [text|e] eqn:Ee; cbn in H;
    [|destruct (fails DkRemove); simplify_eq/=; (split; [seen|by left])].
  destruct (fails DkWrite) as [e|]; cbn in H;
    [destruct (fails DkRemove); simplify_eq/=; (split; [seen|by left])|].
  destruct (fails DkSync) as [e|]; cbn in H;
    [destruct (fails DkRemove); simplify_eq/=; (split; [seen|by left])|].
  destruct (fails DkRename) as [e|]; cbn in H;
    [destruct (fails DkRemove); simplify_eq/=; (split; [seen|by left])|].
  assert (∀ f', fl_store f' = fl_store (rename_temp name (on_temp name sync (on_temp name (append text)
      (set_temps (bt_insert name {| in_text := ""; in_durable := false |} (fl_temps f)) f)))) →
    fl_undone f' = fl_store f :: fl_undone f ∨ fl_undone f' = [] → replaced text f f') as Hnew.
  { intros f' Hs Hu. split; [by rewrite Hs, Hsynced|done]. }
  destruct (fails DkChmod) as [e|] eqn:F1; [|destruct (fails DkOpenDir) as [e|] eqn:F2;
    [|destruct (fails DkSyncDir) as [e|] eqn:F3]]; cbn in H; try destruct (fails DkRemove); simplify_eq/=.
  all: (split; [seen; right; exists text; (split; [done|]); apply Hnew; auto|right; exists text]).
  all: split_and!; [done|by apply Hnew; auto|].
  all: unfold late_failure; rewrite ?F1, ?F2, ?F3; naive_solver.
Qed.

Lemma replaced_stored t d f f' : encode d = Ok t → replaced t f f' → stored decode f' = Ok d.
Proof. intros He [Hs _]. unfold stored. rewrite Hs. cbn. by rewrite (Hcodec _ _ He). Qed.

(** An operation under the lock: what it leaves, and what it left behind on the way. *)
Lemma with_lock_spec {T} write (act : action T) disk r disk' d :
  stored decode (dk_files disk) = Ok d → locked write act disk = (r, disk') →
  (∃ visited, dk_trace disk' = dk_trace disk ++ visited
     ∧ ∀ f, f ∈ visited → same_store (dk_files disk) f
         ∨ ∃ v d' t, act d = (Ok v, d') ∧ encode d' = Ok t ∧ replaced t (dk_files disk) f)
  ∧ (same_store (dk_files disk) (dk_files disk') ∧ (∀ v, r = Ok v → write = false ∧ (act d).1 = Ok v)
     ∨ ∃ v d' t, write = true ∧ act d = (Ok v, d') ∧ encode d' = Ok t ∧ replaced t (dk_files disk) (dk_files disk')
         ∧ (r = Ok v ∧ fl_undone (dk_files disk') = [] ∨ is_ok r = false ∧ late_failure)).
Proof.
  intros Hd. unfold with_lock, read_document, sys_check, st_get, st_lift, run_action, mbind, stE_bind.
  assert (∃ visited, dk_trace disk = dk_trace disk ++ visited
     ∧ ∀ f, f ∈ visited → same_store (dk_files disk) f
         ∨ ∃ v d' t, act d = (Ok v, d') ∧ encode d' = Ok t ∧ replaced t (dk_files disk) f) as Hnone.
  { exists []. split; [by rewrite app_nil_r|]. intros f Hf. by apply elem_of_nil in Hf. }
  destruct (fails DkMkdir); [intros [= <- <-]; split; [done|by left]|].
  destruct (fails DkOpenLock); [intros [= <- <-]; split; [done|by left]|].
  destruct (fails DkFlock); [intros [= <- <-]; split; [done|by left]|].
  destruct (fails DkRead); [intros [= <- <-]; split; [done|by left]|]. cbn [mret stE_ret]. rewrite Hd. cbn.
  destruct (act d) as [[v|e] d'] eqn:Ea; [|intros [= <- <-]; split; [done|by left]].
  destruct write; cbn; [|intros [= <- <-]; split; [done|left; split; [done|]; by intros ? [= <-]]].
  destruct (write_document encode pid fails d' disk) as [w disk1] eqn:Ew.
  apply write_document_spec in Ew as [(visited & Ht & Hall) Hend]. intros H.
  assert (disk1 = disk' ∧ is_ok r = is_ok w ∧ (is_ok w = true → r = Ok v)) as (<- & Hr & Hv)
    by (unfold mret, stE_ret in H; destruct w as [[]|]; cbn in H; simplify_eq; by split_and!).
  split.
  - exists visited. split; [done|]. intros f Hf. rewrite Forall_forall in Hall.
    destruct (Hall f Hf) as [?|(t & ? & ?)]; [by left|]. right. by exists v, d', t.
  - destruct Hend as [[Hw Hs]|(t & He & Hrep & Hw)].
    + left. split; [done|]. intros u ->. cbn in Hr. congruence.
    + right. exists v, d', t. split_and!; try done. rewrite Hr. naive_solver.
Qed.
Lemma with_lock_undecoded {T} write (act : action T) disk r disk' e :
  stored decode (dk_files disk) = Err e → locked write act disk = (r, disk') → is_ok r = false ∧ disk' = disk.
Proof.
  intros Hd. unfold with_lock, read_document, sys_check, st_get, st_lift, mbind, stE_bind, mret, stE_ret.
  destruct (fails DkMkdir), (fails DkOpenLock), (fails DkFlock), (fails DkRead); rewrite ?Hd; by intros [= <- <-].
Qed.

Lemma with_lock_refused {T} write (act : action T) disk d e d' :
  (∀ call, fails call = None) → stored decode (dk_files disk) = Ok d → act d = (Err e, d') →
  locked write act disk = (Err e, disk).
Proof.
  intros Hf Hd Ha. unfold with_lock, read_document, sys_check, st_get, st_lift, run_action, mbind, stE_bind, mret, stE_ret.
  by rewrite !Hf, Hd, Ha.
Qed.

(** A read leaves the directory alone. *)
Lemma reading_keeps {T} (g : StoreDocument → result StoreError T) disk :
  (reading encode decode pid fails g disk).2 = disk.
Proof.
  unfold reading, with_lock, read_document, sys_check, st_get, st_lift, run_action, mbind, stE_bind, mret, stE_ret.
  destruct (fails DkMkdir), (fails DkOpenLock), (fails DkFlock), (fails DkRead); try done.
  destruct (stored decode (dk_files disk)) as [d|]; [|done]. by destruct (g d).
Qed.

Lemma whole_same f f' : same_store f f' → whole f → whole f'.
Proof. intros [Hs Hu]. unfold whole. by rewrite Hs, Hu. Qed.
Lemma whole_replaced t f f' : replaced t f f' → whole f → whole f'.
Proof.
  intros [Hs Hu] Hw i. rewrite Hs. intros [[= ->]|Hi]%elem_of_cons; [done|].
  destruct Hu as [Hu|Hu]; rewrite Hu in Hi; [by apply Hw|by apply elem_of_nil in Hi].
Qed.
Lemma survives_same f f' text : same_store f f' → survives f' text → survives f text.
Proof. intros [Hs Hu]. unfold survives. by rewrite Hs, Hu. Qed.
Lemma survives_replaced t f f' text : replaced t f f' → survives f' text → text = Some t ∨ survives f text.
Proof.
  intros [Hs Hu] (entry & He & Ht). rewrite Hs in He. apply elem_of_cons in He as [->|He].
  - left. destruct Ht as (t' & -> & Ht). f_equal. by apply Ht.
  - right. exists entry. split; [|done]. destruct Hu as [Hu|Hu]; rewrite Hu in He; [done|by apply elem_of_nil in He].
Qed.
Lemma survives_settled t f f' text :
  replaced t f f' → fl_undone f' = [] → survives f' text → text = Some t.
Proof.
  intros [Hs _] Hu (entry & He & Ht). rewrite Hs, Hu in He. apply list_elem_of_singleton in He as ->.
  destruct Ht as (t' & -> & Ht). f_equal. by apply Ht.
Qed.
End Atomic.

(** ** The recipient registry *)
Lemma free_reference_none fuel revision registry name :
  free_reference fuel revision registry name = None →
  ∀ i, (i < fuel)%nat → name +:+ "#" +:+ dec (revision + Z.of_nat i) ∈ bt_keys registry.
Proof.
  revert revision. induction fuel as [|fuel IH]; intros revision H i Hi; [lia|].
  cbn [free_reference] in H. unfold bt_contains in H.
  destruct (bt_get _ registry) as [v|] eqn:E; [|done]. cbn in H.
  destruct i as [|i].
  - rewrite Z.add_0_r. apply bt_get_Some_keys. by rewrite E.
  - replace (revision + Z.of_nat (S i)) with (revision + 1 + Z.of_nat i) by lia.
    apply IH; [done|lia].
Qed.

Lemma sapp_inj_l s t u : s +:+ t = s +:+ u → t = u.
Proof.
  intros H. apply (f_equal (strip_prefix s)) in H. rewrite !strip_prefix_app in H. by simplify_eq.
Qed.

(** The loop of the code ends: a registry of [n] entries cannot hold [n + 1]
    distinct references. *)
Lemma free_reference_found registry name :
  ∃ reference, free_reference (S (length registry)) 0 registry name = Some reference.
Proof.
  destruct (free_reference (S (length registry)) 0 registry name) eqn:E; [eauto|].
  exfalso. pose proof (free_reference_none _ _ _ _ E) as H.
  set (refs := (λ i, name +:+ "#" +:+ dec (Z.of_nat i)) <$> seq 0 (S (length registry))).
  assert (NoDup refs) as Hd.
  { apply NoDup_fmap_2_strong; [|apply NoDup_seq]. intros i j _ _ Hij.
    apply sapp_inj_l, sapp_inj_l, dec_inj in Hij; lia. }
  assert (length refs ≤ length (bt_keys registry))%nat as Hle.
  { apply submseteq_length, NoDup_submseteq; [done|]. intros r (i & -> & Hi)%list_elem_of_fmap.
    apply elem_of_seq in Hi. apply (H i). lia. }
  subst refs. unfold bt_keys in Hle. rewrite !length_fmap, length_seq in Hle. lia.
Qed.

Lemma free_reference_new fuel revision registry name reference :
  free_reference fuel revision registry name = Some reference →
  bt_get reference registry = None ∧ starts_with (name +:+ "#") reference = true.
Proof.
  revert revision. induction fuel as [|fuel IH]; intros revision; [done|].
  cbn [free_reference]. unfold bt_contains.
  destruct (bt_get (name +:+ "#" +:+ dec revision) registry) eqn:E; cbn; [apply IH|]. intros [= <-]. split; [done|].
  apply starts_with_spec. eexists. by rewrite sapp_assoc.
Qed.

Definition extends (r r' : list (string * string)) : Prop :=
  ∀ reference id, bt_get reference r = Some id → bt_get reference r' = Some id.

Lemma extends_refl r : extends r r.
Proof. by intros ??. Qed.

Lemma register_recipients_spec registry pairs :
  bt_wf registry →
  ∃ refs registry', register_recipients registry pairs = Some (refs, registry')
    ∧ bt_wf registry' ∧ extends registry registry'
    ∧ Forall2 (λ reference pair, bt_get reference registry' = Some pair.2
        ∧ starts_with (pair.1 +:+ "#") reference = true) refs pairs.
Proof.
  revert registry. induction pairs as [|[name id] pairs IH]; intros registry Hwf.
  { eexists _, _. cbn. split_and!; [done|done|by intros ??|constructor]. }
  cbn [register_recipients].
  assert (∃ reference, find_reference registry name id = Some reference
    ∧ (bt_get reference registry = Some id ∨ bt_get reference registry = None)
    ∧ starts_with (name +:+ "#") reference = true) as (reference & -> & Hr & Hs).
  { unfold find_reference. destruct (list_find _ registry) as [[i [reference v]]|] eqn:E.
    - apply list_find_Some in E as (Hi & [Hs ->] & _). exists reference. split_and!; [done|left|done].
      apply bt_elem_get; [done|]. by eapply list_elem_of_lookup_2.
    - destruct (free_reference_found registry name) as (reference & Hf). rewrite Hf.
      apply free_reference_new in Hf as [? ?]. eauto. }
  cbn [mbind option_bind]. unfold bt_contains.
  set (registry1 := if is_some (bt_get reference registry) then registry
                    else bt_insert reference id registry).
  assert (bt_wf registry1 ∧ extends registry registry1 ∧ bt_get reference registry1 = Some id)
    as (Hwf1 & Hext & Hget).
  { subst registry1. destruct Hr as [Hr|Hr]; rewrite Hr; cbn;
      [split_and!; [done|by intros ??|done]|].
    split_and!; [auto with btree| |apply bt_get_insert_eq].
    intros r v Hv. rewrite bt_get_insert_ne; [done|]. intros <-. congruence. }
  destruct (IH registry1 Hwf1) as (refs & registry' & -> & Hwf' & Hext' & Hall).
  cbn. eexists _, _. split; [done|]. split_and!; [done|intros r v ?; auto|].
  constructor; [|done]. split; [|done]. cbn. auto.
Qed.

Lemma hydrate_extends d d' record value :
  extends (sd_recipient_registry d) (sd_recipient_registry d') →
  hydrate_record d record = Ok value → hydrate_record d' record = Ok value.
Proof.
  intros Hext. unfold hydrate_record. case_bool_decide; [done|]. case_match; [done|].
  intros (ids & Hids & H1)%bind_ok. apply bind_ok. exists ids. split; [|done].
  apply try_map_ok in Hids. apply try_map_ok. eapply Forall2_impl; [exact Hids|].
  intros reference id. unfold ok_or. destruct (bt_get reference (sd_recipient_registry d)) eqn:E; [|done].
  intros [= ->]. by rewrite (Hext _ _ E).
Qed.

(** A record that the closure of [set_checked] stores reads back with the
    recipients it was given. *)
Definition same_record (e e' : EncryptedSecret) : Prop :=
  es_format_version e' = es_format_version e ∧ es_version_id e' = es_version_id e
  ∧ es_recipient_ids e' = es_recipient_ids e ∧ es_age_ciphertext e' = es_age_ciphertext e
  ∧ es_public_key e' = es_public_key e.

Lemma combine_snd {A B} (l : list A) (k : list B) :
  length l = length k → (combine l k).*2 = k.
Proof. revert k. induction l as [|a l IH]; intros [|b k] H; cbn in *; f_equal; auto; lia. Qed.

Lemma set_action_ok path names envelope expected d d' :
  bt_wf (sd_recipient_registry d) → es_recipient_ids envelope ≠ [] →
  set_action path names envelope expected d = (Ok tt, d') →
  extends (sd_recipient_registry d) (sd_recipient_registry d')
  ∧ bt_wf (sd_recipient_registry d')
  ∧ (∃ stored, sd_secrets d' = bt_insert (path_show path) stored (sd_secrets d)
       ∧ ∃ value, hydrate_record d' stored = Ok value ∧ same_record envelope value
           ∧ es_version_id stored = es_version_id envelope)
  ∧ sd_generated_public_keys d' = sd_generated_public_keys d
  ∧ sd_public_info d' = sd_public_info d ∧ sd_quarantine d' = sd_quarantine d
  ∧ (∀ v, expected = Some v → es_version_id <$> bt_get (path_show path) (sd_secrets d) = v).
Proof.
  intros Hwf Hids. unfold set_action. intros H.
  destruct (negb (is_none_or _ expected)) eqn:Ev; [done|].
  assert (∀ v, expected = Some v → es_version_id <$> bt_get (path_show path) (sd_secrets d) = v) as Hv.
  { intros v ->. cbn in Ev. by bool_prop. }
  destruct (bool_decide (names = [])) eqn:En.
  { simplify_eq. cbn. split_and!; try apply extends_refl; try done.
    eexists. split; [done|]. unfold hydrate_record. cbn.
    eexists. split; [done|]. by split_and!. }
  destruct (negb (zlen names =? _)) eqn:El; [done|]. bool_prop.
  destruct (register_recipients_spec (sd_recipient_registry d)
    (combine names (es_recipient_ids envelope)) Hwf) as (refs & registry & Hreg & Hwf' & Hext & Hall).
  rewrite Hreg in H. simplify_eq. cbn. split_and!; try done.
  eexists. split; [done|]. unfold hydrate_record. cbn [es_recipient_refs es_recipient_ids with_ids].
  assert (try_map (λ reference, ok_or InvalidRecipientRegistry (bt_get reference registry)) refs
    = Ok (es_recipient_ids envelope)) as Htry.
  { apply try_map_ok.
    rewrite <- (combine_snd names (es_recipient_ids envelope)) by (unfold zlen in El; lia).
    apply Forall2_fmap_r. eapply Forall2_impl; [exact Hall|].
    intros reference pair [Hg _]. cbn. by rewrite Hg. }
  assert (refs ≠ []) as Hne.
  { intros ->. inversion Hall as [E|]. destruct names, (es_recipient_ids envelope); done. }
  rewrite bool_decide_eq_false_2 by done. rewrite bool_decide_eq_true_2 by done. cbn [negb].
  cbn [with_secrets with_registry sd_recipient_registry]. rewrite Htry. cbn.
  eexists. split; [done|]. by split_and!.
Qed.

(** ** The store over time

    Every operation of [SecretStore] that changes the document: its checks
    against the schema, then its closure on the document. *)
Inductive store_call :=
| SSet (path : SecretPath) (envelope : EncryptedSecret) (expected : option (option (list Z)))
| SRemove (path : SecretPath)
| SRemoveIf (path : SecretPath) (expected : list Z)
| SGenerated (path : SecretPath) (value : GeneratedPublicKey) (expected : option string)
| SPublicKey (path : SecretPath) (key : string) (version : list Z) (expected : option string)
| SPublicInfo (path : SecretPath) (value : PublicInfoRecord) (expected : option string)
| SRemovePublicInfo (path : SecretPath) (expected : string)
| SQuarantine (random : result string (list Z)) (value : QuarantinedValue)
| SRemoveQuarantined (id : string).

Section Calls.
Context (b64_decode : string → option (list Z)) (from_openssh : string → option Algorithm).
Context (schema : Schema).

Definition checked_action {A T} (checks : result StoreError A) (act : A → action T)
  : action unit := λ d,
  match checks with
  | Ok a => match act a d with (Ok _, d) => (Ok tt, d) | (Err e, _) => (Err e, d) end
  | Err e => (Err e, d)
  end.

Definition store_exec (c : store_call) : action unit :=
  match c with
  | SSet path envelope expected =>
      checked_action (set_checks b64_decode schema path envelope)
        (λ names, set_action path names envelope expected)
  | SRemove path => checked_action (remove_checks schema path) (λ _, remove_action path)
  | SRemoveIf path expected =>
      checked_action (remove_checks schema path) (λ _, remove_if_version_action path expected)
  | SGenerated path value expected =>
      checked_action (generated_key_checks b64_decode schema path value)
        (λ _, set_generated_action path value expected)
  | SPublicKey path key version expected =>
      checked_action (public_key_checks b64_decode schema path key)
        (λ _, set_public_key_action path key version expected)
  | SPublicInfo path value expected =>
      checked_action (public_info_checks from_openssh schema path value)
        (λ id, set_public_info_action id value expected)
  | SRemovePublicInfo path expected =>
      checked_action (remove_public_info_checks schema path)
        (λ id, remove_public_info_action id expected)
  | SQuarantine random value =>
      checked_action (_ ← quarantine_validate value; map_err Io random)
        (λ random, quarantine_action (hex_of random) value)
  | SRemoveQuarantined id => checked_action (Ok tt) (λ _, remove_quarantined_action id)
  end.

End Calls.

(** ** What a stored document satisfies
    [known] are the schemas the operations were given. *)
Section Documents.
Context (b64_decode : string → option (list Z)) (from_openssh : string → option Algorithm).
Context (known : Schema → Prop).

(** A stored record, read back: complete, valid, and encrypted to exactly the
    recipients a schema names for a leaf that is stored. *)
Definition record_ok (key : string) (record : EncryptedSecret) : Prop :=
  validate_record record = Ok tt
  ∧ ∃ schema path spec, known schema ∧ path_show path = key ∧ leaf schema path = Ok spec
      ∧ is_public_info spec = false ∧ is_derived spec = false
      ∧ (recipients spec).1 = es_recipient_ids record.

Record document_ok (d : StoreDocument) : Prop := {
  do_secrets_wf : bt_wf (sd_secrets d);
  do_registry_wf : bt_wf (sd_recipient_registry d);
  do_secrets : ∀ key record, bt_get key (sd_secrets d) = Some record →
    ∃ value, hydrate_record d record = Ok value ∧ record_ok key value;
  do_public : ∀ id record, bt_get id (sd_public_info d) = Some record →
    ∃ schema path, known schema ∧ public_info_checks from_openssh schema path record = Ok id;
  do_generated : ∀ key record, bt_get key (sd_generated_public_keys d) = Some record →
    ∃ schema path, known schema ∧ path_show path = key
      ∧ generated_key_checks b64_decode schema path record = Ok tt;
  do_quarantine : zlen (sd_quarantine d) ≤ MAX_QUARANTINE;
  do_quarantined : ∀ id value, bt_get id (sd_quarantine d) = Some value → quarantine_validate value = Ok tt
}.

Lemma validate_record_same e e' :
  same_record e e' → validate_record e = Ok tt → validate_record e' = Ok tt.
Proof. intros (H1 & H2 & H3 & H4 & _). unfold validate_record. by rewrite H1, H2, H3, H4. Qed.

Lemma set_checks_ok schema path envelope names :
  set_checks b64_decode schema path envelope = Ok names →
  ∃ spec, leaf schema path = Ok spec ∧ is_public_info spec = false ∧ is_derived spec = false
    ∧ (recipients spec).1 = es_recipient_ids envelope ∧ names = recipient_names spec
    ∧ validate_record envelope = Ok tt.
Proof.
  unfold set_checks. intros H. apply bind_ok in H as (spec & Hl & H).
  apply guard_bind_ok in H as [G1 H]. apply guard_bind_ok in H as [G2 H].
  apply guard_bind_ok in H as [G3 H]. apply bind_ok in H as ([] & _ & H).
  apply bind_ok in H as ([] & Hv & H). simplify_eq. bool_prop.
  exists spec. split_and!; try done. unfold map_err in Hl. by case_match; simplify_eq.
Qed.

Lemma validate_record_ids e : validate_record e = Ok tt → es_recipient_ids e ≠ [].
Proof.
  unfold validate_record. intros H%guard_ok. intros E. rewrite E in H.
  rewrite bool_decide_eq_true_2 in H by done. by rewrite !orb_true_r in H.
Qed.

(** The secrets of a document after a change that keeps the registry. *)
Lemma secrets_kept_ok d d' :
  sd_recipient_registry d' = sd_recipient_registry d →
  (∀ key record, bt_get key (sd_secrets d') = Some record → bt_get key (sd_secrets d) = Some record) →
  document_ok d →
  ∀ key record, bt_get key (sd_secrets d') = Some record →
    ∃ value, hydrate_record d' record = Ok value ∧ record_ok key value.
Proof.
  intros Hr Hs Hd key record Hget%Hs. destruct (do_secrets _ Hd _ _ Hget) as (value & Hv & Hok).
  exists value. split; [|done]. eapply hydrate_extends; [|exact Hv]. rewrite Hr. by intros ??.
Qed.

Lemma bt_get_remove_sub `{OrdKey K} {V} (k k' : K) (v : V) m :
  bt_get k' (bt_remove k m) = Some v → bt_get k' m = Some v.
Proof.
  destruct (kcmp_spec k k') as [<-|Hlt|Hlt]; [by rewrite bt_get_remove_eq| |];
    rewrite bt_get_remove_ne; try done; intros <-; by apply klt_irrefl in Hlt.
Qed.

Lemma set_exec_ok schema path envelope names expected d d' :
  known schema → document_ok d → set_checks b64_decode schema path envelope = Ok names →
  set_action path names envelope expected d = (Ok tt, d') → document_ok d'.
Proof.
  intros Hk Hd (spec & Hl & Hp & Hder & Hrec & _ & Hv)%set_checks_ok Hact.
  pose proof (validate_record_ids _ Hv) as Hids.
  apply set_action_ok in Hact
    as (Hext & Hrwf & (record0 & Hs & value & Hh & Hsame & _) & Hg & Hpi & Hq & _);
    [|apply Hd|done].
  split; rewrite ?Hs, ?Hpi, ?Hq, ?Hg; try apply Hd; try done; [auto using do_secrets_wf with btree|].
  intros key record. rewrite bt_get_insert. case_decide as E.
  - intros [= <-]. subst key. exists value. split; [done|]. split; [by eapply validate_record_same|].
    exists schema, path, spec. split_and!; try done. destruct Hsame as (_ & _ & -> & _). done.
  - intros Hget. destruct (do_secrets _ Hd _ _ Hget) as (v & Hv' & Hok).
    exists v. split; [|done]. by eapply hydrate_extends.
Qed.

Lemma public_key_record_ok d path key record value :
  bt_get (path_show path) (sd_secrets d) = Some record → document_ok d →
  hydrate_record d (with_public_key key record) = Ok value → record_ok (path_show path) value.
Proof.
  intros Hget Hd Hv. destruct (do_secrets _ Hd _ _ Hget) as (v & Hh & Hok).
  unfold hydrate_record in *. cbn [with_public_key es_recipient_refs es_recipient_ids] in Hv.
  case_bool_decide; [by simplify_eq|]. case_match; [done|].
  apply bind_ok in Hh as (ids & Hids & [= <-]). rewrite Hids in Hv. cbn in Hv. by simplify_eq.
Qed.

Lemma store_exec_ok schema c d :
  known schema → document_ok d → document_ok (store_exec b64_decode from_openssh schema c d).2.
Proof.
  intros Hk Hd. destruct c as [path e expected|path|path v|path g v|path k v pk|path pi v|path v|r q|id];
    cbn [store_exec]; unfold checked_action.
  - destruct (set_checks _ _ _ _) as [names|] eqn:Ec; [|done].
    destruct (set_action path names e expected d) as [[[]|] d'] eqn:Ea; [|done].
    by eapply set_exec_ok.
  - destruct (remove_checks _ _); [|done]. cbn.
    split; try apply Hd; [apply bt_wf_remove, Hd|].
    apply (secrets_kept_ok d); [done| |done]. intros key record. apply bt_get_remove_sub.
  - destruct (remove_checks _ _); [|done]. unfold remove_if_version_action.
    case_bool_decide; [|done]. cbn. split; try apply Hd; [apply bt_wf_remove, Hd|].
    apply (secrets_kept_ok d); [done| |done]. intros key record. apply bt_get_remove_sub.
  - destruct (generated_key_checks _ _ _ _) as [[]|] eqn:Ec; [|done]. unfold set_generated_action.
    destruct (negb _); [done|]. destruct (is_some_and _ _); [done|]. cbn; split; try apply Hd; cbn.
    intros key record. rewrite bt_get_insert. case_decide as E; [|apply Hd].
    intros [= <-]. exists schema, path. by rewrite E.
  - destruct (public_key_checks _ _ _ _); [|done]. unfold set_public_key_action.
    destruct (bt_get (path_show path) (sd_secrets d)) as [record|] eqn:Hget; [|done].
    destruct (negb (bool_decide (es_version_id record = v))); [done|].
    destruct (negb (bool_decide (es_public_key record = pk))); [done|].
    cbn. split; cbn; try apply Hd; [apply bt_wf_update, Hd|].
    intros key rec. rewrite bt_get_update. kcase (path_show path) key.
    + intros (rec0 & Hget' & ->)%fmap_Some. assert (rec0 = record) as -> by congruence.
      destruct (do_secrets _ Hd _ _ Hget) as (v' & Hh & Hok).
      assert (∃ v'', hydrate_record d (with_public_key k record) = Ok v'') as (v'' & Hv'').
      { unfold hydrate_record in *. cbn [with_public_key es_recipient_refs es_recipient_ids].
        case_bool_decide; [eauto|]. case_match; [done|].
        apply bind_ok in Hh as (ids & Hids & _). rewrite Hids. cbn. eauto. }
      exists v''. split; [|by eapply public_key_record_ok].
      eapply hydrate_extends; [|exact Hv'']. by intros ??.
    + intros Hget'. by apply (secrets_kept_ok d d eq_refl (λ _ _ H, H) Hd).
    + intros Hget'. by apply (secrets_kept_ok d d eq_refl (λ _ _ H, H) Hd).
  - destruct (public_info_checks _ _ _ _) as [id|] eqn:Ec; [|done].
    unfold set_public_info_action. destruct (negb _); [done|]. cbn. split; cbn; try apply Hd.
    intros id' record. rewrite bt_get_insert. case_decide; [|apply Hd].
    intros [= <-]. subst id'. by exists schema, path.
  - destruct (remove_public_info_checks _ _) as [id|]; [|done].
    unfold remove_public_info_action. destruct (negb _); [done|]. cbn. split; cbn; try apply Hd.
    intros id' record Hget%bt_get_remove_sub. by apply Hd in Hget.
  - destruct (quarantine_validate q) as [[]|] eqn:Eq; [|done]. cbn. destruct r as [r|]; [|done]. cbn.
    unfold quarantine_action. destruct (MAX_QUARANTINE <=? zlen (sd_quarantine d)) eqn:El; [done|].
    cbn. bool_prop. split; cbn; try apply Hd.
    + pose proof (bt_len_insert_le (hex_of r) q (sd_quarantine d)). lia.
    + intros id value. rewrite bt_get_insert. case_decide; [by intros [= <-]|apply Hd].
  - cbn. split; cbn; try apply Hd.
    + pose proof (bt_len_remove id (sd_quarantine d)). pose proof (do_quarantine _ Hd). lia.
    + intros id' value Hget%bt_get_remove_sub. by apply Hd in Hget.
Qed.

Lemma document_default_ok : document_ok document_default.
Proof. split; cbn; try done; constructor. Qed.
End Documents.

(** ** Operations on the file, one after another
    Each turn is given its own schema and meets its own failing system calls. *)
Record StoreTurn := { tn_schema : Schema; tn_fails : SysCall → option Fault; tn_call : store_call }.

Section StoreTurns.
Context (encode : StoreDocument → result string string)
        (decode : string → result string StoreDocument) (pid : Z).
Context (Hcodec : ∀ d text, encode d = Ok text → decode text = Ok d).
Context (b64_decode : string → option (list Z)) (from_openssh : string → option Algorithm).

Definition dropped {T} (m : stE Disk StoreError T) : stE Disk StoreError unit := _ ← m; mret tt.
Definition turn_exec (t : StoreTurn) : stE Disk StoreError unit :=
  let fails := tn_fails t in
  let schema := tn_schema t in
  match tn_call t with
  | SSet path envelope None => dropped (set_record encode decode pid fails b64_decode schema path envelope)
  | SSet path envelope (Some expected) =>
      dropped (set_if_version encode decode pid fails b64_decode schema path envelope expected)
  | SRemove path => dropped (remove encode decode pid fails schema path)
  | SRemoveIf path expected => dropped (remove_if_version encode decode pid fails schema path expected)
  | SGenerated path value expected =>
      dropped (set_generated_public_key_if_version encode decode pid fails b64_decode schema path value expected)
  | SPublicKey path key version expected =>
      dropped (set_public_key_if_version encode decode pid fails b64_decode schema path key version expected)
  | SPublicInfo path value expected =>
      dropped (set_public_info_if_version encode decode pid fails from_openssh schema path value expected)
  | SRemovePublicInfo path expected =>
      dropped (remove_public_info_if_version encode decode pid fails schema path expected)
  | SQuarantine random value => dropped (quarantine encode decode pid fails random value)
  | SRemoveQuarantined id => dropped (remove_quarantined encode decode pid fails id)
  end.
Definition turns_run (turns : list StoreTurn) (disk : Disk) : Disk :=
  foldl (λ disk t, (turn_exec t disk).2) disk turns.

(** What an operation does to the file, given what its checks and its closure do to the document. *)
Definition implements {T} (fails : SysCall → option Fault) (m : stE Disk StoreError T) (act : action unit) : Prop :=
  ∀ d disk r disk', stored decode (dk_files disk) = Ok d → m disk = (r, disk') →
    is_ok r = false ∧ same_store (dk_files disk) (dk_files disk')
    ∨ ∃ d', act d = (Ok tt, d') ∧ stored decode (dk_files disk') = Ok d'
        ∧ (is_ok r = true ∨ late_failure fails).

Lemma implements_ret {T U} fails (m : stE Disk StoreError T) (f : T → U) act :
  implements fails m act → implements fails (a ← m; mret (f a)) act.
Proof.
  intros Hm d disk r disk' Hd. unfold mbind, stE_bind, mret, stE_ret.
  destruct (m disk) as [[a|e] disk1] eqn:E; intros [= <- <-]; exact (Hm _ _ _ _ Hd E).
Qed.
Lemma implements_locked {A T} fails (checks : result StoreError A) (act : A → action T) :
  implements fails (a ← st_lift checks; with_lock encode decode pid fails true (act a)) (checked_action checks act).
Proof.
  intros d disk r disk' Hd. unfold mbind, stE_bind, st_lift, checked_action.
  destruct checks as [a|e]; [|intros [= <- <-]; by left]. intros H.
  apply (with_lock_spec _ _ _ _ _ _ _ _ _ _ Hd) in H as [_ [[Hs Hr]|(v & d' & t & _ & Ha & He & Hrep & Hr)]].
  - left. split; [|done]. destruct r as [v|]; [|done]. by destruct (Hr v eq_refl).
  - right. exists d'. rewrite Ha. split_and!; [done|by eapply replaced_stored|]. destruct Hr as [[-> _]|[_ ?]]; auto.
Qed.

Lemma turn_exec_spec t :
  implements (tn_fails t) (turn_exec t) (store_exec b64_decode from_openssh (tn_schema t) (tn_call t)).
Proof.
  unfold turn_exec. destruct (tn_call t) as [path e [expected|]|path|path v|path g v|path k v pk|path pi v|path v|r q|id];
    cbn [store_exec]; apply implements_ret; try apply implements_locked.
  - intros d disk res disk' Hd H. unfold quarantine, st_lift in H. unfold mbind at 1 2, stE_bind at 1 2 in H.
    destruct (quarantine_validate q) as [[]|e]; [|simplify_eq/=; by left].
    destruct r as [random|e]; [|simplify_eq/=; by left].
    exact (implements_ret _ _ _ _ (implements_locked _ (Ok random) (λ random, quarantine_action (hex_of random) q))
             d disk res disk' Hd H).
  - exact (implements_locked _ (Ok tt) (λ _, remove_quarantined_action id)).
Qed.

Context (known : Schema → Prop).
Notation ok := (document_ok b64_decode from_openssh known).

(** Every turn keeps a readable store readable and its document in order. *)
Lemma turn_keeps t disk d :
  known (tn_schema t) → ok d → stored decode (dk_files disk) = Ok d →
  ∃ d', ok d' ∧ stored decode (dk_files (turn_exec t disk).2) = Ok d'
    ∧ (d' = d ∨ store_exec b64_decode from_openssh (tn_schema t) (tn_call t) d = (Ok tt, d')).
Proof.
  intros Hk Hok Hd. destruct (turn_exec t disk) as [r disk'] eqn:E. cbn [snd].
  destruct (turn_exec_spec t d disk r disk' Hd E) as [[_ [Hs _]]|(d' & Ha & Hd' & _)].
  - exists d. split_and!; [done| |by left]. unfold stored in *. by rewrite Hs.
  - exists d'. split_and!; [|done|by right]. pose proof (store_exec_ok b64_decode from_openssh known _ (tn_call t) d Hk Hok) as H.
    by rewrite Ha in H.
Qed.
Lemma turns_keep turns disk d :
  Forall (λ t, known (tn_schema t)) turns → ok d → stored decode (dk_files disk) = Ok d →
  ∃ d', ok d' ∧ stored decode (dk_files (turns_run turns disk)) = Ok d'.
Proof.
  revert disk d. induction turns as [|t turns IH]; intros disk d Hk Hok Hd; [by exists d|].
  apply Forall_cons in Hk as [Ht Hk]. destruct (turn_keeps t disk d Ht Hok Hd) as (d1 & Hok1 & Hd1 & _).
  by apply (IH (turn_exec t disk).2 d1).
Qed.

(** The version at [path], and the calls that may change it. *)
Definition version_at (path : SecretPath) (d : StoreDocument) : option (list Z) :=
  es_version_id <$> bt_get (path_show path) (sd_secrets d).
Definition writes_at (path : SecretPath) (c : store_call) : bool :=
  match c with
  | SSet q _ _ | SRemove q | SRemoveIf q _ => bool_decide (path_show q = path_show path)
  | _ => false
  end.
Lemma version_kept path schema c d d' :
  writes_at path c = false → ok d → store_exec b64_decode from_openssh schema c d = (Ok tt, d') →
  version_at path d' = version_at path d.
Proof.
  intros Hw Hok. unfold version_at.
  destruct c as [q e v|q|q v|q g v|q k v pk|q pi v|q v|r q|id]; cbn [writes_at store_exec] in *;
    unfold checked_action; bool_prop.
  - destruct (set_checks _ _ _ _) as [names|] eqn:Ec; [|done].
    destruct (set_action q names e v d) as [[[]|] d1] eqn:Ea; [|done]. intros [= <-].
    apply set_checks_ok in Ec as (spec & _ & _ & _ & _ & _ & Hv).
    apply set_action_ok in Ea as (_ & _ & (record & -> & _) & _); [|apply Hok|by apply validate_record_ids].
    by rewrite bt_get_insert_ne.
  - destruct (remove_checks _ _); [|done]. cbn. intros [= <-]. cbn. by rewrite bt_get_remove_ne.
  - destruct (remove_checks _ _); [|done]. unfold remove_if_version_action. case_bool_decide; [|done].
    cbn. intros [= <-]. cbn. by rewrite bt_get_remove_ne.
  - destruct (generated_key_checks _ _ _ _); [|done]. unfold set_generated_action. repeat case_match; intros; by simplify_eq/=.
  - destruct (public_key_checks _ _ _ _); [|done]. unfold set_public_key_action.
    repeat case_match; intros; simplify_eq; try done. cbn. rewrite bt_get_update.
    kcase (path_show q) (path_show path); [|done..]. by destruct (bt_get (path_show path) (sd_secrets d)).
  - destruct (public_info_checks _ _ _ _); [|done]. unfold set_public_info_action. repeat case_match; intros; by simplify_eq/=.
  - destruct (remove_public_info_checks _ _); [|done]. unfold remove_public_info_action.
    repeat case_match; intros; by simplify_eq/=.
  - destruct (quarantine_validate q), r; try done. cbn. unfold quarantine_action. repeat case_match; intros; by simplify_eq/=.
  - cbn. by intros [= <-].
Qed.
Lemma versions_kept path turns disk d :
  Forall (λ t, known (tn_schema t)) turns → Forall (λ t, writes_at path (tn_call t) = false) turns →
  ok d → stored decode (dk_files disk) = Ok d →
  ∃ d', ok d' ∧ stored decode (dk_files (turns_run turns disk)) = Ok d' ∧ version_at path d' = version_at path d.
Proof.
  revert disk d. induction turns as [|t turns IH]; intros disk d Hk Hw Hok Hd; [by exists d|].
  apply Forall_cons in Hk as [Ht Hk]. apply Forall_cons in Hw as [Htw Hw].
  destruct (turn_keeps t disk d Ht Hok Hd) as (d1 & Hok1 & Hd1 & Hex).
  destruct (IH (turn_exec t disk).2 d1 Hk Hw Hok1 Hd1) as (d2 & Hok2 & Hd2 & Hv).
  exists d2. split_and!; [done|done|]. rewrite Hv. destruct Hex as [->|Hex]; [done|].
  by eapply version_kept.
Qed.
End StoreTurns.

(** ** Properties *)
(** C40: Every store is in order.  From a store without a file, after any
    operations, each with a schema of its own, a random source that may fail and
    any choice of failing system calls, the store file still reads, and its
    document is in order: each record's recipient references resolve and the
    record read back has format 1, a 16-byte version and a non-empty bounded
    ciphertext, and is encrypted to exactly the recipients one of the schemas
    names for a leaf that may be stored, never public information, never a
    derived value; public information and generated public keys are what a leaf
    of one of the schemas accepts; the quarantine is bounded and each of its
    values passes the checks of a quarantined value. *)
Theorem store_invariant encode decode pid (Hcodec : ∀ d text, encode d = Ok text → decode text = Ok d)
  b64_decode from_openssh turns disk :
  fl_store (dk_files disk) = None →
  ∃ d, stored decode (dk_files (turns_run encode decode pid b64_decode from_openssh turns disk)) = Ok d
    ∧ document_ok b64_decode from_openssh (λ schema, schema ∈ tn_schema <$> turns) d.
Proof.
  intros Hd. destruct (turns_keep encode decode pid Hcodec b64_decode from_openssh
    (λ schema, schema ∈ tn_schema <$> turns) turns disk document_default) as (d & Hok & Hs).
  - apply Forall_forall. intros t Ht. by apply list_elem_of_fmap_2.
  - apply document_default_ok.
  - unfold stored. by rewrite Hd.
  - by exists d.
Qed.

(** What was set is what is read: after a successful [set] of a record
    the path reads back with the same format, version, recipients, ciphertext
    and public key, whatever the store's document was before, and every other
    identifier reads as before. *)
Theorem set_then_get b64_decode from_openssh known schema path envelope names expected d d' :
  document_ok b64_decode from_openssh known d →
  set_checks b64_decode schema path envelope = Ok names →
  set_action path names envelope expected d = (Ok tt, d') →
  (∃ record, get_record path d' = Ok (Some record) ∧ same_record envelope record)
  ∧ (∀ q, path_show q ≠ path_show path → get_record q d' = get_record q d)
  ∧ extends (sd_recipient_registry d) (sd_recipient_registry d').
Proof.
  intros Hd Hc Hact.
  pose proof Hc as (spec & _ & _ & _ & _ & _ & Hv)%set_checks_ok.
  apply set_action_ok in Hact as (Hext & _ & (stored & Hs & value & Hh & Hsame & _) & _);
    [|apply Hd|by apply validate_record_ids].
  split_and!; [| |done].
  - exists value. split; [|done]. unfold get_record. rewrite Hs, bt_get_insert_eq, Hh. done.
  - intros q Hq. unfold get_record. rewrite Hs, bt_get_insert_ne by done.
    destruct (bt_get (path_show q) (sd_secrets d)) as [record|] eqn:E; [|done].
    destruct (do_secrets _ _ _ _ Hd _ _ E) as (v & Hv' & _).
    rewrite Hv'. by rewrite (hydrate_extends _ _ _ _ Hext Hv').
Qed.

(** C35: [set_if_version] is a compare-and-swap.  Of two writers that expect the
    same version of a secret, where the first one writes another version, one is
    refused: if the first succeeds, the secret had the expected version, and
    whatever operations on other secrets, on public keys, on public information
    and on the quarantine happen in between, with whatever failures, the secret
    then has the first writer's version and the second writer fails and leaves
    the file alone, with a version conflict unless its checks or its own system
    calls fail first. *)
Theorem set_if_version_cas encode decode pid (Hcodec : ∀ d text, encode d = Ok text → decode text = Ok d)
  b64_decode from_openssh known fails1 fails2 schema1 schema2 path e1 e2 v between disk d disk1 r2 disk3 :
  document_ok b64_decode from_openssh known d → stored decode (dk_files disk) = Ok d →
  known schema1 → Forall (λ t, known (tn_schema t)) between →
  Forall (λ t, writes_at path (tn_call t) = false) between →
  Some (es_version_id e1) ≠ v →
  set_if_version encode decode pid fails1 b64_decode schema1 path e1 v disk = (Ok tt, disk1) →
  let disk2 := turns_run encode decode pid b64_decode from_openssh between disk1 in
  set_if_version encode decode pid fails2 b64_decode schema2 path e2 v disk2 = (r2, disk3) →
  version_at path d = v
  ∧ (∃ d2, stored decode (dk_files disk2) = Ok d2 ∧ version_at path d2 = Some (es_version_id e1))
  ∧ is_ok r2 = false ∧ same_store (dk_files disk2) (dk_files disk3)
  ∧ (is_ok (set_checks b64_decode schema2 path e2) = true → (∀ call, fails2 call = None) → r2 = Err VersionConflict).
Proof.
  intros Hok Hd Hk Hbk Hbw Hne H1 disk2 H2.
  destruct (implements_locked encode decode pid Hcodec fails1 (set_checks b64_decode schema1 path e1)
    (λ names, set_action path names e1 (Some v)) d disk (Ok tt) disk1 Hd H1) as [[? _]|(d1 & Ha & Hd1 & _)]; [done|].
  unfold checked_action in Ha. destruct (set_checks _ _ _ _) as [names|] eqn:Ec; [|done].
  destruct (set_action path names e1 (Some v) d) as [[[]|] d1'] eqn:Ea; [|done]. injection Ha as ->.
  pose proof (set_exec_ok b64_decode from_openssh known schema1 path e1 names (Some v) d d1 Hk Hok Ec Ea) as Hok1.
  apply set_checks_ok in Ec as (spec & _ & _ & _ & _ & _ & Hv).
  apply set_action_ok in Ea as (_ & _ & (record & Hs & value & _ & _ & Hver) & _ & _ & _ & Hexp);
    [|apply Hok|by apply validate_record_ids].
  assert (version_at path d1 = Some (es_version_id e1)) as Hv1
    by (unfold version_at; rewrite Hs, bt_get_insert_eq; cbn; by rewrite Hver).
  destruct (versions_kept encode decode pid Hcodec b64_decode from_openssh known path between disk1 d1 Hbk Hbw Hok1 Hd1)
    as (d2 & _ & Hd2 & Hv2). rewrite Hv1 in Hv2.
  assert (∀ names, set_action path names e2 (Some v) d2 = (Err VersionConflict, d2)) as Hrefused.
  { intros names2. unfold set_action. unfold version_at in Hv2. rewrite Hv2. cbn.
    by rewrite bool_decide_eq_false_2. }
  split_and!; [by apply Hexp|by exists d2|..].
  - destruct (implements_locked encode decode pid Hcodec fails2 (set_checks b64_decode schema2 path e2)
      (λ names, set_action path names e2 (Some v)) d2 disk2 r2 disk3 Hd2 H2) as [[? _]|(d3 & Ha & _)]; [done|].
    unfold checked_action in Ha. destruct (set_checks _ _ _ _); [|done]. by rewrite Hrefused in Ha.
  - destruct (implements_locked encode decode pid Hcodec fails2 (set_checks b64_decode schema2 path e2)
      (λ names, set_action path names e2 (Some v)) d2 disk2 r2 disk3 Hd2 H2) as [[_ ?]|(d3 & Ha & _)]; [done|].
    unfold checked_action in Ha. destruct (set_checks _ _ _ _); [|done]. by rewrite Hrefused in Ha.
  - intros Hc Hf. unfold set_if_version, set_checked in H2.
    destruct (set_checks b64_decode schema2 path e2) as [names2|]; [|done].
    unfold st_lift, mbind, stE_bind in H2.
    rewrite (with_lock_refused _ _ _ _ _ _ _ _ _ _ Hf Hd2 (Hrefused names2)) in H2. by simplify_eq.
Qed.

(** A valid write is never refused by the registry: when the checks pass,
    the version matches and the leaf names all or none of its recipients, the
    write succeeds; the search for a free registry reference ends. *)
Theorem set_succeeds path names envelope expected d :
  bt_wf (sd_recipient_registry d) →
  (names = [] ∨ zlen names = zlen (es_recipient_ids envelope)) →
  (∀ v, expected = Some v → es_version_id <$> bt_get (path_show path) (sd_secrets d) = v) →
  ∃ d', set_action path names envelope expected d = (Ok tt, d').
Proof.
  intros Hwf Hn Hv. unfold set_action.
  assert (is_none_or (λ expected, bool_decide (es_version_id <$>
    bt_get (path_show path) (sd_secrets d) = expected)) expected = true) as ->.
  { destruct expected as [v|]; [|done]. cbn. apply bool_decide_eq_true_2. by apply Hv. }
  cbn [negb]. case_bool_decide; [eauto|]. destruct Hn as [|Hn]; [done|].
  rewrite (proj2 (Z.eqb_eq _ _) Hn). cbn [negb].
  destruct (register_recipients_spec (sd_recipient_registry d)
    (combine names (es_recipient_ids envelope)) Hwf) as (refs & registry & -> & _). eauto.
Qed.

(** C23: The store file is replaced atomically and durably.  Take a store whose
    file is synced and reads as [d], any operation that writes, and any choice of
    failing system calls, a write that stops half-way among them.  The store's
    name still stands for the same file and the operation failed, or the file
    reads as the operation's new document; success is reported only once a loss
    of power cannot bring the old file back, and an error with the new file in
    place only when one of the calls after the rename failed.  Wherever the
    process is stopped on the way, and even if the machine then loses power, the
    store's name stands for contents it could have stood for before, or for the
    complete new document. *)
Theorem store_file_atomic {T} encode decode pid
  (Hcodec : ∀ d text, encode d = Ok text → decode text = Ok d) fails (act : action T) disk r disk' d :
  whole (dk_files disk) → stored decode (dk_files disk) = Ok d →
  with_lock encode decode pid fails true act disk = (r, disk') →
  whole (dk_files disk')
  ∧ (same_store (dk_files disk) (dk_files disk') ∧ is_ok r = false
     ∨ ∃ v d', act d = (Ok v, d') ∧ stored decode (dk_files disk') = Ok d'
         ∧ (r = Ok v ∧ (∀ text, survives (dk_files disk') text → parse_document decode text = Ok d')
            ∨ is_ok r = false ∧ late_failure fails))
  ∧ ∃ visited, dk_trace disk' = dk_trace disk ++ visited
      ∧ ∀ f text, f ∈ visited → survives f text →
          survives (dk_files disk) text ∨ ∃ v d', act d = (Ok v, d') ∧ parse_document decode text = Ok d'.
Proof.
  intros Hw Hd H. apply (with_lock_spec _ _ _ _ _ _ _ _ _ _ Hd) in H as [(visited & Ht & Hall) Hend].
  split_and!.
  - destruct Hend as [[Hs _]|(v & d' & t & _ & _ & _ & Hrep & _)]; [by eapply whole_same|by eapply whole_replaced].
  - destruct Hend as [[Hs Hr]|(v & d' & t & _ & Ha & He & Hrep & Hr)].
    + left. split; [done|]. destruct r as [v|]; [|done]. by destruct (Hr v eq_refl).
    + right. exists v, d'. split_and!; [done|by eapply replaced_stored|]. destruct Hr as [[-> Hu]|Hr]; [left|by right].
      split; [done|]. intros text Hs. rewrite (survives_settled _ _ _ _ Hrep Hu Hs). cbn. by rewrite (Hcodec _ _ He).
  - exists visited. split; [done|]. intros f text Hf Hs. destruct (Hall f Hf) as [Hsame|(v & d' & t & Ha & He & Hrep)].
    + left. by eapply survives_same.
    + destruct (survives_replaced _ _ _ _ Hrep Hs) as [->|?]; [|by left]. right. exists v, d'. split; [done|].
      cbn. by rewrite (Hcodec _ _ He).
Qed.

(** A stored value is reported as committed exactly when the last commit
    holds the same version and ciphertext; when git cannot answer, it is
    never reported as committed. *)
Theorem commit_state_exact committed path d :
  (commit_state committed path d = Committed ↔
    ∃ record c record', bt_get (path_show path) (sd_secrets d) = Some record
      ∧ committed = Ok c ∧ bt_get (path_show path) (sd_secrets c) = Some record'
      ∧ es_version_id record' = es_version_id record
      ∧ es_age_ciphertext record' = es_age_ciphertext record)
  ∧ (commit_state committed path d = Unset ↔ bt_get (path_show path) (sd_secrets d) = None).
Proof.
  unfold commit_state. destruct (bt_get (path_show path) (sd_secrets d)) as [record|].
  2:{ split; [split; [done|]|done]. intros (? & ? & ? & [=] & _). }
  destruct committed as [c|reason].
  2:{ split; [split; [done|]|done]. intros (? & ? & ? & _ & [=] & _). }
  split; [|by case_match]. split.
  - destruct (bt_get (path_show path) (sd_secrets c)) as [record'|] eqn:E; [|done].
    cbn [is_some_and]. case_match eqn:Eb; [|done]. bool_prop. intros _. by exists record, c, record'.
  - intros (r & c' & record' & [= <-] & [= <-] & -> & Hv & Ha). cbn [is_some_and].
    by rewrite Hv, Ha, !bool_decide_eq_true_2.
Qed.

(** ** Witnesses *)
Definition sample_envelope (v : Z) : EncryptedSecret :=
  {| es_format_version := 1; es_version_id := repeat v 16; es_recipient_ids := ["id"];
     es_recipient_refs := []; es_age_ciphertext := [1; 2; 3]; es_public_key := None |}.

Definition sample_set (v : Z) (names : list string) (d : StoreDocument) : StoreDocument :=
  (set_action sample_path names (sample_envelope v) None d).2.

Lemma set_then_get_witness :
  (∃ record, get_record sample_path (sample_set 7 [] document_default) = Ok (Some record)
     ∧ same_record (sample_envelope 7) record)
  ∧ (∀ q, path_show q ≠ path_show sample_path →
       get_record q (sample_set 7 [] document_default) = get_record q document_default)
  ∧ extends (sd_recipient_registry document_default)
      (sd_recipient_registry (sample_set 7 [] document_default)).
Proof.
  apply (set_then_get no_decode sample_openssh (λ _, True) (sample_schema "user-ann-services") sample_path
    (sample_envelope 7) [] None).
  - apply document_default_ok.
  - vm_compute. reflexivity.
  - vm_compute. reflexivity.
Defined.

Lemma set_succeeds_witness :
  ∃ d', set_action sample_path ["bob"] (sample_envelope 8) (Some (Some (repeat 7 16)))
          (sample_set 7 ["ann"] document_default) = (Ok tt, d').
Proof.
  apply (set_succeeds sample_path ["bob"] (sample_envelope 8) (Some (Some (repeat 7 16)))).
  - vm_compute. repeat constructor.
  - right. reflexivity.
  - intros v [= <-]. vm_compute. reflexivity.
Defined.

(** A codec for documents with at most one record, which names the recipient "id". *)
#[local] Instance EncryptedSecret_eq_dec : EqDecision EncryptedSecret.
Proof. solve_decision. Defined.
#[local] Instance GeneratedPublicKey_eq_dec : EqDecision GeneratedPublicKey.
Proof. solve_decision. Defined.
#[local] Instance PublicInfoRecord_eq_dec : EqDecision PublicInfoRecord.
Proof. solve_decision. Defined.
#[local] Instance QuarantinedContent_eq_dec : EqDecision QuarantinedContent.
Proof. solve_decision. Defined.
#[local] Instance QuarantinedValue_eq_dec : EqDecision QuarantinedValue.
Proof. solve_decision. Defined.
#[export] Instance StoreDocument_eq_dec : EqDecision StoreDocument.
Proof. solve_decision. Defined.

Definition sample_decode (text : string) : result string StoreDocument :=
  Ok (match bytes text with
      | [] => document_default
      | v :: path => with_secrets [(of_bytes path, sample_envelope v)] document_default
      end).
Definition sample_encode (d : StoreDocument) : result string string :=
  let text :=
    match sd_secrets d with
    | (path, record) :: _ => of_bytes (default 0 (head (es_version_id record)) :: bytes path)
    | [] => ""
    end in
  if bool_decide (sample_decode text = Ok d) then Ok text else Err "not modelled".

Lemma sample_codec_ok d text : sample_encode d = Ok text → sample_decode text = Ok d.
Proof. unfold sample_encode. case_bool_decide; [|done]. by intros [= <-]. Qed.

Definition document_of (v : Z) : StoreDocument :=
  with_secrets [(path_show sample_path, sample_envelope v)] document_default.
Definition disk_of (files : Files) : Disk := {| dk_files := files; dk_temp_id := 0; dk_trace := [] |}.
Definition store_of (text : string) : Disk :=
  disk_of {| fl_store := Some {| in_text := text; in_durable := true |}; fl_temps := []; fl_undone := [] |}.
Definition empty_disk : Disk := disk_of {| fl_store := None; fl_temps := []; fl_undone := [] |}.
Definition encoded (d : StoreDocument) : string :=
  match sample_encode d with Ok text => text | Err _ => "" end.
Definition no_faults (call : SysCall) : option Fault := None.
Definition dir_sync_fails (call : SysCall) : option Fault :=
  if decide (call = DkSyncDir) then Some {| ft_error := "EIO"; ft_written := 0 |} else None.
Definition disk_full (call : SysCall) : option Fault :=
  if decide (call = DkWrite) then Some {| ft_error := "ENOSPC"; ft_written := 3 |} else None.

Definition sample_removal : result StoreError bool * Disk :=
  with_lock sample_encode sample_decode 1 dir_sync_fails true (remove_action sample_path)
    (store_of (encoded (document_of 7))).

(** The record is removed, but the directory cannot be synced: the operation
    fails with the new file in place, and a loss of power may undo it. *)
Lemma store_file_atomic_witness :
  whole (dk_files (store_of (encoded (document_of 7))))
  ∧ stored sample_decode (dk_files sample_removal.2) = Ok document_default
  ∧ whole (dk_files sample_removal.2)
  ∧ ∃ visited, dk_trace sample_removal.2 = visited
      ∧ ∀ f text, f ∈ visited → survives f text →
          survives (dk_files (store_of (encoded (document_of 7)))) text
          ∨ ∃ v d', remove_action sample_path (document_of 7) = (Ok v, d')
              ∧ parse_document sample_decode text = Ok d'.
Proof.
  assert (whole (dk_files (store_of (encoded (document_of 7))))) as Hw.
  { intros i Hi. cbn in Hi. apply list_elem_of_singleton in Hi. by injection Hi as ->. }
  destruct (store_file_atomic sample_encode sample_decode 1 sample_codec_ok dir_sync_fails
    (remove_action sample_path) (store_of (encoded (document_of 7))) sample_removal.1 sample_removal.2
    (document_of 7)) as (Hw' & _ & Htrace).
  - exact Hw.
  - vm_compute. reflexivity.
  - vm_compute. reflexivity.
  - split; [exact Hw|]. split; [vm_compute; reflexivity|]. split; [exact Hw'|exact Htrace].
Defined.

Definition sample_turn (fails : SysCall → option Fault) (call : store_call) : StoreTurn :=
  {| tn_schema := sample_schema "user-ann-services"; tn_fails := fails; tn_call := call |}.
Definition sample_turns : list StoreTurn :=
  [sample_turn no_faults (SSet sample_path (sample_envelope 7) None);
   sample_turn disk_full (SSet sample_path (sample_envelope 8) None);
   sample_turn no_faults (SRemoveQuarantined "x")].

(** A write is kept, one that fills the disk is not, and the quarantine is searched. *)
Lemma store_invariant_witness :
  stored sample_decode (dk_files (turns_run sample_encode sample_decode 1 no_decode sample_openssh sample_turns empty_disk))
    = Ok (document_of 7)
  ∧ ∃ d, stored sample_decode
           (dk_files (turns_run sample_encode sample_decode 1 no_decode sample_openssh sample_turns empty_disk)) = Ok d
      ∧ document_ok no_decode sample_openssh (λ schema, schema ∈ tn_schema <$> sample_turns) d.
Proof.
  split; [vm_compute; reflexivity|].
  apply (store_invariant sample_encode sample_decode 1 sample_codec_ok no_decode sample_openssh sample_turns empty_disk).
  reflexivity.
Defined.

Definition sample_between : list StoreTurn :=
  [sample_turn dir_sync_fails (SRemoveQuarantined "x"); sample_turn no_faults (SRemovePublicInfo sample_path "v")].
Definition first_writer : result StoreError unit * Disk :=
  set_if_version sample_encode sample_decode 1 no_faults no_decode (sample_schema "user-ann-services") sample_path
    (sample_envelope 7) None empty_disk.
Definition second_writer : result StoreError unit * Disk :=
  set_if_version sample_encode sample_decode 1 no_faults no_decode (sample_schema "user-ann-services") sample_path
    (sample_envelope 8) None
    (turns_run sample_encode sample_decode 1 no_decode sample_openssh sample_between first_writer.2).

(** Two writers that both expect that nothing is stored. *)
Lemma set_if_version_cas_witness :
  first_writer.1 = Ok tt ∧ second_writer.1 = Err VersionConflict
  ∧ ∃ d2, stored sample_decode
            (dk_files (turns_run sample_encode sample_decode 1 no_decode sample_openssh sample_between first_writer.2))
          = Ok d2
      ∧ version_at sample_path d2 = Some (repeat 7 16).
Proof.
  destruct (set_if_version_cas sample_encode sample_decode 1 sample_codec_ok no_decode sample_openssh (λ _, True)
    no_faults no_faults (sample_schema "user-ann-services") (sample_schema "user-ann-services") sample_path
    (sample_envelope 7) (sample_envelope 8) None sample_between empty_disk document_default first_writer.2
    second_writer.1 second_writer.2) as (_ & Hd2 & _ & _ & Hconflict).
  - apply document_default_ok.
  - reflexivity.
  - done.
  - repeat constructor.
  - repeat constructor.
  - done.
  - vm_compute. reflexivity.
  - vm_compute. reflexivity.
  - split; [vm_compute; reflexivity|]. split; [|exact Hd2].
    apply Hconflict; [vm_compute; reflexivity|done].
Defined.
