(* ===== verification/Asks.v ===== *)
(** * Asking the operator

    The handlers of [crates/core/src/backend/secrets.rs] around a waiting
    request: what is refused before anybody is asked, what is asked for, and
    which answers are accepted.  [request_operator_with_id] is an argument
    here, a stateful function from the request to its id and the answer;
    [Operators] models what it does.  The base64 decoder, SHA-256, the host-key
    parser, the JSON encoder and the files of the Nix store are arguments. *)
From stdpp Require Import gmap.
From S2P Require Import Prelude BTree Text Framing Procedure Procedures SshAuth Schema.
From S2P Require Import Signing Requests Operators Store.
#[local] Open Scope Z_scope.

(** ** Responses and requesters *)
Inductive Response :=
| RError (message : string)
| RSecretSession (socket : string)
| RSshSignature (reply : list Z)
| RSshLoginGranted (grant : string) (expires_in_seconds signatures : Z)
| RProcedureConfirmation (confirmed : bool)
| RArtifactSignatures (signatures : list Artifacts.DetachedSignature)
| RClosureSignatures (signatures : Closures.Signatures).

(** [Grants], a [BTreeSet]. *)
Definition Grants : Type := list (string * unit).

Definition UNASKED : string := "the TUI returned an unasked answer".

(** [Requester::new] and the rest of the arguments. *)
Definition new_ask (peer : Z) (identifiers : list string) (reason : option string) (ssh : Ssh)
  (artifact : option Artifacts.SigningRequest) (closure : option Closures.SigningRequest)
  (procedure : option string) (progress : bool) (confirmation : option Confirmation) : Ask :=
  {| ak_peer := peer; ak_identifiers := identifiers; ak_reason := reason; ak_ssh := ssh;
     ak_artifact_signature := artifact; ak_closure_signature := closure; ak_stream := true;
     ak_procedure := procedure; ak_progress := progress; ak_confirmation := confirmation |}.

(** [result.unwrap_or_else(|message| Response::Error { message })]. *)
Definition respond {W A} (f : A → Response) (m : stE W string A) : W → Response * W := λ w,
  match m w with
  | (Ok a, w) => (f a, w)
  | (Err message, w) => (RError message, w)
  end.

(** ** Pinned artifacts *)
(** What the file system says of an artifact once it is open. *)
Record OpenFile := {
  of_is_file : bool;
  of_mode : Z;
  of_uid : Z;
  of_bytes : list Z
}.

Section Files.
(** The owner of [/nix/store], [fs::canonicalize] and [File::open]. *)
Context (store_uid : result string Z) (canonicalize : string → result string string)
  (open : string → result string OpenFile).

(** [Path::starts_with("/nix/store")] of an absolute path: by components. *)
Definition in_store (path : string) : bool :=
  bool_decide (path = "/nix/store") || starts_with "/nix/store/" path.

Definition pin (uid : Z) (files : list (string * list Z)) (a : Artifacts.Artifact)
  : result string (list (string * list Z)) :=
  canonical ← canonicalize (Artifacts.ar_path a);
  _ ← guard_err (in_store canonical) "artifact escaped immutable Nix store";
  file ← open canonical;
  if negb (of_is_file file) || negb (Z.land (of_mode file) 146 =? 0) (* 0o222 *)
     || negb (of_uid file =? uid) || negb (zlen (of_bytes file) =? Artifacts.ar_size a)
  then Err "artifact is mutable or has changed size"
  else Ok (bt_insert (Artifacts.ar_role a) (of_bytes file) files).

Definition open_artifacts (debug : string → string) (request : Artifacts.SigningRequest)
  : result string (list (string * list Z)) :=
  _ ← Artifacts.request_validate debug request;
  uid ← store_uid;
  try_fold (pin uid) [] (Artifacts.sq_manifest request).
End Files.

Section Handlers.
Context {W : Type} (operator : Ask → stE W string (string * SecretAnswer)).
Context (debug : string → string) (decode : string → option (list Z)).

(** [request_operator]: without the id. *)
Definition request_operator (ask : Ask) : stE W string SecretAnswer :=
  '(_, answer) ← operator ask; mret answer.

(** ** Secret values *)
Definition check_identifier (seen : gset string) (identifier : string) : result string (gset string) :=
  _ ← map_err (λ e, identifier +:+ ": " +:+ schema_error_show debug e) (path_parse identifier);
  let '(new, seen) := set_insert identifier seen in
  if new then Ok seen else Err (identifier +:+ " is requested twice").

Definition decode_value (seen : gset string) (decoded : list (string * list Z)) (v : SecretValue)
  : result string (list (string * list Z)) :=
  if negb (bool_decide (sx_identifier v ∈ seen))
  then Err ("the TUI returned " +:+ sx_identifier v +:+ " unasked")
  else
    plaintext ← ok_or ("the TUI returned a malformed value for " +:+ sx_identifier v)
                  (decode (sx_value_base64 v));
    if bt_contains (sx_identifier v) decoded
    then Err ("the TUI returned " +:+ sx_identifier v +:+ " twice")
    else Ok (bt_insert (sx_identifier v) plaintext decoded).

(** What [approved_values] makes of the answer. *)
Definition accept_values (seen : gset string) (answer : SecretAnswer)
  : result string (list (string * list Z)) :=
  match answer with
  | Denied reason => Err reason
  | Approved values =>
      decoded ← try_fold (decode_value seen) [] values;
      if zlen decoded =? Z.of_nat (size seen) then Ok decoded
      else Err "the TUI did not return every requested value"
  | _ => Err "the TUI returned an unasked signature"
  end.

Definition approved_values (peer : Z) (identifiers : list string) (reason : option string)
  (procedure : option string) (progress : bool) : stE W string (list (string * list Z)) :=
  _ ← st_guard (negb (is_some_and (λ r, MAX_REQUEST_REASON_BYTES <? slen r) reason))
        "secret request reason exceeds 4096 bytes";
  _ ← st_guard (negb (bool_decide (identifiers = []) || (MAX_REQUEST_IDENTIFIERS <? zlen identifiers)))
        ("a secret request names between 1 and " +:+ dec MAX_REQUEST_IDENTIFIERS +:+ " identifiers");
  seen ← st_lift (try_fold check_identifier ∅ identifiers);
  answer ← request_operator
             (new_ask peer identifiers reason ssh_default None None procedure progress None);
  st_lift (accept_values seen answer).

(** The first identifier of a key that may only sign. *)
Definition signing_only (schema : Schema) (identifier : string) : bool :=
  match path ← path_parse identifier; leaf schema path with
  | Ok (OperatorOnly spec) => os_signing_only spec
  | _ => false
  end.

(** [request] up to serving the session; [bind] is [SecretSession::bind]. *)
Definition request (schema : Schema) (bind : result string string) (peer : Z)
  (identifiers : list string) (reason procedure : option string) (progress : bool)
  : W → Response * option SecretSession * W := λ w,
  match list_find (λ identifier, signing_only schema identifier = true) identifiers with
  | Some (_, identifier) =>
      (RError (identifier +:+ " is signing-only; plaintext export is forbidden"), None, w)
  | None =>
      match approved_values peer identifiers reason procedure progress w with
      | (Err message, w) => (RError message, None, w)
      | (Ok values, w) =>
          match bind with
          | Err error => (RError ("cannot create the secret session socket: " +:+ error), None, w)
          | Ok socket =>
              (RSecretSession socket, Some {| se_values := values; se_owner := peer |}, w)
          end
      end
  end.

(** ** SSH *)
Context (host_key : list Z → bool).

Record SshSignatureAsk := {
  sg_request : SignatureRequest;
  sg_reason : option string;
  sg_procedure : option string;
  sg_progress : bool;
  sg_grant : option string
}.

Definition request_signature (peer : Z) (signature : SshSignatureAsk) (grants : Grants)
  : W → Response * W :=
  respond RSshSignature
    (_ ← st_lift (signature_request_validate decode host_key (sg_request signature));
     _ ← st_guard (is_none_or (λ grant, bt_contains grant grants) (sg_grant signature))
           "this connection has no such SSH login approval";
     answer ← request_operator
       (new_ask peer [] (sg_reason signature)
          {| sh_signature := Some (sg_request signature); sh_login := None;
             sh_grant := sg_grant signature |}
          None None (sg_procedure signature) (sg_progress signature) None);
     st_lift match answer with
             | Signed reply => _ ← validate_reply reply; Ok reply
             | Denied reason => Err reason
             | _ => Err UNASKED
             end).

(** The response and the connection's approvals after it. *)
Definition request_login_grant (peer : Z) (r : LoginGrantRequest) (reason procedure : option string)
  (progress : bool) (grants : Grants) : W → Response * Grants * W := λ w,
  match (_ ← st_lift (login_grant_validate decode r);
         '(id, answer) ← operator
           (new_ask peer [] reason {| sh_signature := None; sh_login := Some r; sh_grant := None |}
              None None procedure progress None);
         st_lift match answer with
                 | LoginGranted expires_in_seconds signatures => Ok (id, expires_in_seconds, signatures)
                 | Denied reason => Err reason
                 | _ => Err UNASKED
                 end) w with
  | (Ok (grant, expires_in_seconds, signatures), w) =>
      (RSshLoginGranted grant (Z.min expires_in_seconds LOGIN_GRANT_WINDOW)
         (Z.min signatures LOGIN_GRANT_SIGNATURES), bs_insert grant grants, w)
  | (Err message, w) => (RError message, grants, w)
  end.

(** ** Confirmations *)
Definition request_confirmation (peer : Z) (procedure : string)
  (confirmation : result string Confirmation) : W → Response * W :=
  respond (λ answer, RProcedureConfirmation match answer with Confirmed => true | _ => false end)
    (confirmation ← st_lift confirmation;
     request_operator (new_ask peer [] None ssh_default None None (Some procedure) false
                         (Some confirmation))).

(** ** Signatures *)
(** The key a signing request names must be one that may only sign. *)
Definition signing_key (schema : Schema) (message identifier : string) : result string SecretPath :=
  path ← map_err (schema_error_show debug) (path_parse identifier);
  spec ← map_err (schema_error_show debug) (leaf schema path);
  match spec with
  | OperatorOnly spec => if os_signing_only spec then Ok path else Err message
  | _ => Err message
  end.

Definition request_artifacts (schema : Schema) (peer : Z) (r : Artifacts.SigningRequest)
  (reason procedure : option string) (progress : bool) : W → Response * W :=
  respond RArtifactSignatures
    (_ ← st_lift (Artifacts.request_validate debug r);
     _ ← st_lift (signing_key schema "artifact signing requires a signing-only operator key"
                    (Artifacts.sq_identifier r));
     answer ← request_operator
       (new_ask peer [Artifacts.sq_identifier r] reason ssh_default (Some r) None procedure progress None);
     st_lift match answer with
             | ArtifactsSigned signatures =>
                 _ ← Artifacts.signatures_validate decode signatures (Artifacts.sq_manifest r);
                 Ok signatures
             | Denied reason => Err reason
             | _ => Err UNASKED
             end).

Section Closure.
Context (encode : list Z → string) (sha256 : list Z → list Z).
Context (manifest_json : Closures.Manifest → result string (list Z))
  (request_json : Closures.SigningRequest → result string (list Z)).
(** [store.get], its error printed. *)
Context (get : SecretPath → result string (option EncryptedSecret)).

Definition closure_answer (answer : SecretAnswer) (m : Closures.Manifest)
  : result string Closures.Signatures :=
  match answer with
  | ClosureSigned signatures =>
      _ ← Closures.signatures_validate manifest_json decode encode signatures m;
      Ok signatures
  | Denied reason => Err reason
  | _ => Err UNASKED
  end.

(** The public key the store has for the signing key, checked against the
    fingerprint of the request: its text. *)
Definition approved_public_key (path : SecretPath) (fingerprint : string) : result string string :=
  record ← get path;
  record ← ok_or "missing closure signing record" record;
  key ← ok_or "missing closure signing public key" (es_public_key record);
  public ← ok_or "invalid public key envelope" (decode key);
  text ← ok_or "invalid public key envelope" (from_utf8 public);
  _ ← Closures.validate_public_key decode encode
        (default text (strip_suffix (String "010" "") text));
  if bool_decide (fingerprint = hex_of (sha256 public)) then Ok text
  else Err "closure signing public key changed".

(** [signature.split_once(':').map(|(n, _)| n)]. *)
Definition key_name (signature : string) : option string := fst <$> split_once ":" signature.

Definition request_closure (schema : Schema) (peer : Z) (r : Closures.SigningRequest)
  (reason procedure : option string) (progress : bool) : W → Response * W :=
  respond RClosureSignatures
    (_ ← st_lift (Closures.request_validate manifest_json request_json debug r);
     path ← st_lift (signing_key schema "closure signing requires a signing-only operator key"
                       (Closures.sq_identifier r));
     text ← st_lift (approved_public_key path (Closures.sq_public_key_sha256 r));
     answer ← request_operator
       (new_ask peer [Closures.sq_identifier r] reason ssh_default None (Some r) procedure progress None);
     st_lift
       (signatures ← closure_answer answer (Closures.sq_manifest r);
        name ← ok_or "invalid public key envelope" (key_name text);
        if existsb (λ s, negb (bool_decide (key_name (Closures.pg_signature s) = Some name)))
             (Closures.sg_signatures signatures)
        then Err "closure signature key name differs from approved public key"
        else Ok signatures)).
End Closure.
End Handlers.
