(* ===== verification/AskFacts.v ===== *)
(** * What an answered request gives out

    Theorems on the handlers of [Asks]: which answers of an operator become a
    response, for an arbitrary operator. *)
From stdpp Require Import gmap.
From S2P Require Import Prelude BTree Text Framing Procedure Procedures SshAuth Schema.
From S2P Require Import Signing Requests Operators Store Asks.
#[local] Open Scope Z_scope.

(** ** Lemmas: running a handler *)
Section Run.
Context {W : Type}.

Lemma request_operator_ok (operator : Ask → stE W string (string * SecretAnswer)) ask w answer w' :
  request_operator operator ask w = (Ok answer, w') ↔ ∃ id, operator ask w = (Ok (id, answer), w').
Proof.
  unfold request_operator. rewrite stE_bind_ok. split.
  - intros ([id a] & w1 & H & E). unfold mret, stE_ret in E. simplify_eq. eauto.
  - intros [id H]. by exists (id, answer), w'.
Qed.

Lemma respond_ok {A} (f : A → Response) (m : stE W string A) w r w' :
  (∀ e, r ≠ RError e) →
  respond f m w = (r, w') ↔ ∃ a, r = f a ∧ m w = (Ok a, w').
Proof. unfold respond. intros Hr. destruct (m w) as [[a|e] w1]; naive_solver. Qed.
End Run.

(** Takes the steps of a successful handler apart, in order. *)
Ltac inv_handler H :=
  repeat match type of H with
  | mbind _ _ _ = (Ok _, _) => apply stE_bind_ok in H as (? & ? & ? & H)
  end;
  repeat match goal with
  | K : st_guard _ _ _ = (Ok _, _) |- _ => apply stE_guard_ok in K as [? ?]
  | K : st_lift _ _ = (Ok _, _) |- _ => apply stE_lift_ok in K as [? ?]
  | K : request_operator _ _ _ = (Ok _, _) |- _ => apply request_operator_ok in K as [? ?]
  end; simplify_eq.

(** ** Secret values *)
Section Values.
Context (debug : string → string) (decode : string → option (list Z)).

Lemma check_identifier_ok s i s' :
  check_identifier debug s i = Ok s' ↔ is_ok (path_parse i) = true ∧ i ∉ s ∧ s' = {[i]} ∪ s.
Proof.
  unfold check_identifier. rewrite set_insert_ok.
  destruct (path_parse i) as [p|]; cbn [map_err mbind result_bind is_ok]; [|naive_solver].
  case_bool_decide; naive_solver.
Qed.

(** The identifiers of an answer with the bytes they decode to. *)
Definition decoded (values : list SecretValue) (given : list (string * list Z)) : Prop :=
  Forall2 (λ v kv, kv.1 = sx_identifier v ∧ decode (sx_value_base64 v) = Some kv.2) values given.

Definition insert_all (given acc : list (string * list Z)) : list (string * list Z) :=
  foldl (λ m kv, bt_insert kv.1 kv.2 m) acc given.

Lemma decode_value_ok seen acc v out :
  decode_value decode seen acc v = Ok out ↔
    sx_identifier v ∈ seen ∧ bt_get (sx_identifier v) acc = None
    ∧ ∃ b, decode (sx_value_base64 v) = Some b ∧ out = bt_insert (sx_identifier v) b acc.
Proof.
  unfold decode_value, bt_contains. destruct (decide (sx_identifier v ∈ seen)) as [Hs|Hs].
  2:{ rewrite bool_decide_false by done. naive_solver. }
  rewrite bool_decide_true by done. cbn [negb].
  destruct (decode _) as [b|]; cbn [ok_or mbind result_bind]; [|naive_solver].
  destruct (bt_get _ acc); cbn [is_some]; naive_solver.
Qed.

Lemma decode_values_ok seen values acc out :
  try_fold (decode_value decode seen) acc values = Ok out ↔
    Forall (λ v, sx_identifier v ∈ seen) values ∧ NoDup (sx_identifier <$> values)
    ∧ (∀ k, k ∈ sx_identifier <$> values → bt_get k acc = None)
    ∧ ∃ given, decoded values given ∧ out = insert_all given acc.
Proof.
  revert acc out. induction values as [|v values IH]; intros acc out; cbn [try_fold].
  { split.
    - intros [= ->]. split_and!; [done|constructor| |exists []; by split; [constructor|]].
      by intros k ?%elem_of_nil.
    - intros (_ & _ & _ & given & Hg & ->). by inversion Hg. }
  rewrite Forall_cons, fmap_cons, NoDup_cons. setoid_rewrite elem_of_cons.
  assert (∀ k b, (k = sx_identifier v ∨ bt_get k acc = None) → k ≠ sx_identifier v →
            bt_get k (bt_insert (sx_identifier v) b acc) = None) as Hins.
  { intros k b [->|Hk] Hne; [done|]. rewrite bt_get_insert. by case_decide; [congruence|]. }
  destruct (decode_value decode seen acc v) as [acc'|e] eqn:Ed.
  - apply decode_value_ok in Ed as (Hs & Hn & b & Hb & ->). rewrite IH. split.
    + intros (Hf & Hnd & Hk & given & Hg & ->).
      assert (sx_identifier v ∉ sx_identifier <$> values) as Hv.
      { intros Hin. apply Hk in Hin. by rewrite bt_get_insert_eq in Hin. }
      split_and!; try done.
      * intros k [->|Hin]; [done|]. specialize (Hk k Hin). rewrite bt_get_insert in Hk.
        by case_decide.
      * exists ((sx_identifier v, b) :: given). by split; [constructor|].
    + intros ([_ Hf] & [Hv Hnd] & Hk & given & Hg & ->). split_and!; try done.
      * intros k Hin. apply Hins; [right; apply Hk; by right|]. by intros ->.
      * inversion Hg as [|? [k b'] ? g [Ek Eb] Hg']; subst. cbn in Ek, Eb. subst k.
        rewrite Hb in Eb. injection Eb as <-. by exists g.
  - split; [done|]. intros ([Hs _] & _ & Hk & given & Hg & _). exfalso.
    inversion Hg as [|? [k b'] ? g [Ek Eb] Hg']; subst.
    assert (decode_value decode seen acc v = Ok (bt_insert (sx_identifier v) b' acc)) as E;
      [|congruence].
    apply decode_value_ok. split_and!; [done|apply Hk; by left|]. by exists b'.
Qed.

Lemma insert_all_length given acc :
  NoDup given.*1 → (∀ k, k ∈ given.*1 → bt_get k acc = None) →
  zlen (insert_all given acc) = zlen given + zlen acc.
Proof.
  revert acc. induction given as [|[k b] given IH]; intros acc; [done|].
  rewrite fmap_cons, NoDup_cons. intros [Hk Hn] Ha.
  change (insert_all ((k, b) :: given) acc) with (insert_all given (bt_insert k b acc)).
  rewrite IH; [|done|].
  - cbn. rewrite bt_len_insert_new, zlen_cons by (apply Ha; by left). lia.
  - intros k' Hin. rewrite bt_get_insert. case_decide; [by subst|]. apply Ha. by right.
Qed.

Lemma decoded_keys values given : decoded values given → given.*1 = sx_identifier <$> values.
Proof. induction 1 as [|v [k b] values given [Hk _]]; cbn in *; congruence. Qed.

(** C33: The values a request ends with are exactly the operator's: they are given
    only for a well-formed list of identifiers without repetition, after an ask
    for that list, and are the decoded values of an approval that names each of
    them once and nothing else.  Whatever else happens, the operator is asked
    at most once, with that list. *)
Theorem approved_values_exact {W} (operator : Ask → stE W string (string * SecretAnswer)) peer
    identifiers reason procedure progress w w' out :
  let ask := new_ask peer identifiers reason ssh_default None None procedure progress None in
  (approved_values operator debug decode peer identifiers reason procedure progress w = (Ok out, w') ↔
    is_none_or (λ r, slen r <=? MAX_REQUEST_REASON_BYTES) reason = true
    ∧ 1 ≤ zlen identifiers ≤ MAX_REQUEST_IDENTIFIERS
    ∧ Forall (λ i, is_ok (path_parse i) = true) identifiers ∧ NoDup identifiers
    ∧ ∃ id values given, operator ask w = (Ok (id, Approved values), w')
        ∧ (sx_identifier <$> values) ≡ₚ identifiers
        ∧ decoded values given ∧ out = insert_all given [])
  ∧ (let after := snd (approved_values operator debug decode peer identifiers reason procedure progress w) in
     after = w ∨ after = snd (operator ask w)).
Proof.
  intros ask. split; [split|].
  - intros H. unfold approved_values in H. inv_handler H.
    bool_prop.
    match goal with K : try_fold (check_identifier debug) _ _ = Ok _ |- _ =>
      apply (try_fold_seen (λ i, i) _ _ check_identifier_ok) in K as (Hp & Hn & _ & ->) end.
    rewrite list_fmap_id in *. rewrite (right_id_L ∅ union) in H.
    split_and!; try done.
    + destruct reason; cbn in *; bool_prop; [lia|done].
    + destruct identifiers; [naive_solver|]. rewrite zlen_cons. pose proof (zlen_nonneg identifiers). lia.
    + naive_solver.
    + match goal with K : operator _ _ = (Ok (_, ?a), _) |- _ => destruct a as [values| | | | | |]; try done;
        rename K into Hop end.
      cbn [accept_values] in H. apply bind_ok in H as (m & Hf & H).
      destruct (zlen m =? _) eqn:El; [|done]. injection H as <-.
      apply decode_values_ok in Hf as (Hs & Hv & _ & given & Hg & ->).
      eexists _, values, given. split_and!; [exact Hop| |done|done].
      apply cover_permutation; [done| |].
      * intros k (v & -> & Hin)%list_elem_of_fmap. rewrite Forall_forall in Hs.
        by apply Hs, elem_of_list_to_set in Hin.
      * rewrite insert_all_length in El;
          [|by rewrite (decoded_keys _ _ Hg)|done].
        rewrite size_list_to_set in El by done. apply Forall2_length in Hg. cbn in El.
        rewrite length_fmap. bool_prop. unfold zlen in El. cbn in El. lia.
  - intros (Hr & Hl & Hp & Hn & id & values & given & Hop & Hperm & Hg & ->).
    unfold approved_values. apply stE_bind_ok. exists tt, w. split.
    { apply stE_guard_ok. split; [|done]. destruct reason; cbn in *; [|done].
      bool_prop. lia. }
    apply stE_bind_ok. exists tt, w. split.
    { apply stE_guard_ok. split; [|done]. bool_prop. split; [|lia].
      intros ->. change (zlen []) with 0 in Hl. lia. }
    apply stE_bind_ok. exists (list_to_set identifiers), w. split.
    { apply stE_lift_ok. split; [|done]. apply (try_fold_seen (λ i, i) _ _ check_identifier_ok).
      rewrite list_fmap_id. split_and!; try done. by rewrite (right_id_L ∅ union). }
    apply stE_bind_ok. exists (Approved values), w'. split; [apply request_operator_ok; by exists id|].
    apply stE_lift_ok. split; [|done]. cbn [accept_values]. apply bind_ok.
    assert (NoDup (sx_identifier <$> values)) as Hv by (by rewrite Hperm).
    exists (insert_all given []). split.
    + apply decode_values_ok. split_and!; [|done|done|by exists given].
      apply Forall_forall. intros v Hin. apply elem_of_list_to_set. rewrite <- Hperm.
      apply list_elem_of_fmap. eauto.
    + rewrite insert_all_length, size_list_to_set by (rewrite ?(decoded_keys _ _ Hg); done).
      rewrite <- (Permutation_length Hperm), length_fmap. apply Forall2_length in Hg.
      unfold zlen. rewrite <- Hg, Z.add_0_r, Z.eqb_refl. done.
  - unfold approved_values, mbind, stE_bind, st_guard, st_lift, guard_err.
    destruct (negb (is_some_and _ _)); [|by left].
    destruct (negb (_ || _)); [|by left].
    destruct (try_fold _ ∅ identifiers); [|by left].
    right. fold ask. unfold request_operator, mbind, stE_bind.
    destruct (operator ask w) as [[[id answer]|] w1]; [|done]. done.
Qed.
End Values.

(** ** Plaintext and signing-only keys *)
Lemma signing_only_spec schema identifier :
  signing_only schema identifier = true ↔
    ∃ path spec, path_parse identifier = Ok path ∧ leaf schema path = Ok (OperatorOnly spec)
      ∧ os_signing_only spec = true.
Proof.
  unfold signing_only. destruct (path_parse identifier) as [path|]; cbn [mbind result_bind]; [|naive_solver].
  split; [|by intros (? & ? & [= <-] & -> & ?)].
  destruct (leaf schema path) as [[]|] eqn:El; try done. eauto 10.
Qed.

(** No plaintext of a signing-only key leaves the backend: a request that
    names one is refused before any operator hears of it, and a request ends
    in a session exactly when none is named, the operator gave the values and
    the socket was bound; the session then belongs to the requester. *)
Theorem plaintext_session_exact {W} (operator : Ask → stE W string (string * SecretAnswer)) debug decode
    schema bind peer identifiers reason procedure progress w :
  let run := request operator debug decode schema bind peer identifiers reason procedure progress w in
  (∀ identifier path spec,
     identifier ∈ identifiers → path_parse identifier = Ok path →
     leaf schema path = Ok (OperatorOnly spec) → os_signing_only spec = true →
     ∃ message, run = (RError message, None, w))
  ∧ (∀ response session w',
     run = (response, Some session, w') ↔
       Forall (λ i, signing_only schema i = false) identifiers
       ∧ se_owner session = peer
       ∧ approved_values operator debug decode peer identifiers reason procedure progress w
           = (Ok (se_values session), w')
       ∧ ∃ socket, bind = Ok socket ∧ response = RSecretSession socket).
Proof.
  unfold request. split.
  - intros identifier path spec Hin Hp Hl Hs.
    destruct (list_find _ identifiers) as [[i x]|] eqn:Ef; [eauto|].
    apply list_find_None in Ef. rewrite Forall_forall in Ef. destruct (Ef _ Hin).
    apply signing_only_spec. eauto.
  - intros response session w'.
    destruct (list_find _ identifiers) as [[i x]|] eqn:Ef.
    { split; [done|]. intros [Hf _]. apply list_find_Some in Ef as (Hx & Hs & _).
      rewrite Forall_forall in Hf. apply list_elem_of_lookup_2, Hf in Hx. congruence. }
    apply list_find_None in Ef.
    assert (Forall (λ i, signing_only schema i = false) identifiers) as Hf
      by (eapply Forall_impl; [exact Ef|]; intros x Hx; by apply not_true_iff_false).
    destruct (approved_values _ _ _ _ _ _ _ _ w) as [[values|e] w1].
    + destruct bind as [socket|e]; [|naive_solver].
      split; [intros [= <- <- <-]; cbn; naive_solver|].
      intros (_ & <- & [= -> ->] & ? & [= <-] & ->). by destruct session.
    + naive_solver.
Qed.

(** ** SSH *)
Section Ssh.
Context {W : Type} (operator : Ask → stE W string (string * SecretAnswer)).
Context (decode : string → option (list Z)) (host_key : list Z → bool).

Lemma request_signature_ok peer a grants w reply w' :
  request_signature operator decode host_key peer a grants w = (RSshSignature reply, w') ↔
    signature_request_validate decode host_key (sg_request a) = Ok tt
    ∧ is_none_or (λ g, bt_contains g grants) (sg_grant a) = true
    ∧ validate_reply reply = Ok tt
    ∧ ∃ id, operator (new_ask peer [] (sg_reason a)
          {| sh_signature := Some (sg_request a); sh_login := None; sh_grant := sg_grant a |}
          None None (sg_procedure a) (sg_progress a) None) w = (Ok (id, Signed reply), w').
Proof.
  unfold request_signature. rewrite respond_ok by done. split.
  - intros (r & [= <-] & H). inv_handler H.
    match goal with K : operator _ _ = (Ok (_, ?a), _) |- _ => destruct a; try done end.
    repeat match goal with x : unit |- _ => destruct x end.
    match goal with K : mbind _ _ = Ok reply |- _ => apply bind_ok in K as ([] & Hv & [= ->]) end.
    eauto 10.
  - intros (Hv & Hg & Hr & id & Ho). exists reply. split; [done|].
    rewrite Hv. apply stE_bind_ok. exists tt, w. split; [done|].
    apply stE_bind_ok. exists tt, w. split; [by apply stE_guard_ok|].
    apply stE_bind_ok. eexists _, w'. split; [apply request_operator_ok; eauto|].
    apply stE_lift_ok. by rewrite Hr.
Qed.

(** Login approvals are scoped to the connection they were given on and to
    what was approved.  A signature under an approval the connection does not
    hold is refused without asking anybody.  A connection gains one only when
    the operator granted a valid request, under the id that request was asked
    with, and is told no more than half an hour and 256 signatures.  A
    signature that is returned answers a valid request and is well formed. *)
Theorem login_grants_scoped peer a grants w :
  (∀ grant, sg_grant a = Some grant → bt_contains grant grants = false →
     ∃ message, request_signature operator decode host_key peer a grants w = (RError message, w))
  ∧ (∀ reply w', request_signature operator decode host_key peer a grants w = (RSshSignature reply, w') →
     signature_request_validate decode host_key (sg_request a) = Ok tt ∧ validate_reply reply = Ok tt
     ∧ ∀ grant, sg_grant a = Some grant → bt_contains grant grants = true)
  ∧ (∀ r reason procedure progress response grants' w',
     request_login_grant operator decode peer r reason procedure progress grants w
       = (response, grants', w') →
     grants' = grants ∧ (∃ message, response = RError message)
     ∨ ∃ grant e n expires signatures,
         grants' = bs_insert grant grants
         ∧ login_grant_validate decode r = Ok tt
         ∧ operator (new_ask peer [] reason
               {| sh_signature := None; sh_login := Some r; sh_grant := None |}
               None None procedure progress None) w = (Ok (grant, LoginGranted e n), w')
         ∧ response = RSshLoginGranted grant expires signatures
         ∧ expires ≤ e ∧ expires ≤ 1800 ∧ signatures ≤ n ∧ signatures ≤ 256).
Proof.
  split_and!.
  - intros grant Eg Hn. unfold request_signature, respond, mbind, stE_bind, st_lift, st_guard.
    destruct (signature_request_validate _ _ _) as [[]|]; [|eauto].
    rewrite Eg. cbn [is_none_or]. rewrite Hn. cbn. eauto.
  - intros reply w' (Hv & Hg & Hr & _)%request_signature_ok. split_and!; [done..|].
    intros grant Eg. by rewrite Eg in Hg.
  - intros r reason procedure progress response grants' w' H. unfold request_login_grant in H.
    match type of H with (match ?m with _ => _ end) = _ => destruct m as [[[[g e] n]|e] w1] eqn:Em end.
    + injection H as <- <- <-. right. inv_handler Em.
      match goal with K : operator _ _ = (Ok ?p, _) |- _ => destruct p as [id answer]; rename K into Ho end.
      destruct answer; inv_handler Em; try done.
      repeat match goal with x : unit |- _ => destruct x end.
      repeat match goal with K : st_lift _ _ = _ |- _ => apply stE_lift_ok in K as [[= <- <- <-] ->] end.
      match goal with K : login_grant_validate _ _ = Ok _ |- _ => rename K into Hv end.
      eexists _, _, _, _, _. split_and!; [done..| | | |]; unfold LOGIN_GRANT_WINDOW, LOGIN_GRANT_SIGNATURES; lia.
    + injection H as <- <- <-. left. eauto.
Qed.
End Ssh.

(** ** Confirmations *)
(** A step of a procedure counts as confirmed exactly when its confirmation
    was well formed, the operator was asked with it, and answered [Confirmed];
    a denial, any other answer, a missing TUI and an error do not confirm. *)
Theorem confirmed_exact {W} (operator : Ask → stE W string (string * SecretAnswer)) peer procedure
    confirmation w w' :
  request_confirmation operator peer procedure confirmation w = (RProcedureConfirmation true, w') ↔
    ∃ c id, confirmation = Ok c
      ∧ operator (new_ask peer [] None ssh_default None None (Some procedure) false (Some c)) w
          = (Ok (id, Confirmed), w').
Proof.
  unfold request_confirmation. rewrite respond_ok by done. split.
  - intros (answer & E & H). destruct answer; try done. inv_handler H. eauto.
  - intros (c & id & -> & Ho). exists Confirmed. split; [done|].
    apply stE_bind_ok. exists c, w. split; [done|]. apply request_operator_ok. eauto.
Qed.

(** ** Pinned artifacts *)
Section Files.
Context (store_uid : result string Z) (canonicalize : string → result string string)
  (open : string → result string OpenFile).

(** An artifact nobody but the owner of the store can change any more. *)
Definition pinned (uid : Z) (a : Artifacts.Artifact) (bytes : list Z) : Prop :=
  ∃ canonical file,
    canonicalize (Artifacts.ar_path a) = Ok canonical ∧ in_store canonical = true
    ∧ open canonical = Ok file ∧ of_is_file file = true ∧ Z.land (of_mode file) 146 = 0
    ∧ of_uid file = uid ∧ of_bytes file = bytes ∧ zlen bytes = Artifacts.ar_size a.

Lemma pin_ok uid files a out :
  pin canonicalize open uid files a = Ok out ↔
    ∃ bytes, pinned uid a bytes ∧ out = bt_insert (Artifacts.ar_role a) bytes files.
Proof.
  unfold pin, pinned. rewrite bind_ok. split.
  - intros (canonical & Hc & H). apply guard_bind_ok in H as [Hs H].
    apply bind_ok in H as (file & Ho & H).
    destruct (_ || _ || _ || _) eqn:E; [done|]. injection H as <-.
    rewrite !orb_false_iff, !negb_false_iff, !Z.eqb_eq in E. destruct E as [[[E1 E2] E3] E4]. eauto 15.
  - intros (bytes & (canonical & file & Hc & Hs & Ho & H1 & H2 & H3 & H4 & H5) & ->).
    exists canonical. split; [done|]. rewrite Hs. cbn. rewrite Ho. cbn.
    rewrite H1, H2, H3, H4, H5, !Z.eqb_refl. done.
Qed.

Lemma pins_ok uid m files out :
  NoDup (Artifacts.ar_role <$> m) →
  try_fold (pin canonicalize open uid) files m = Ok out →
  (∀ role, role ∉ Artifacts.ar_role <$> m → bt_get role out = bt_get role files)
  ∧ ∀ a, a ∈ m → ∃ bytes, pinned uid a bytes ∧ bt_get (Artifacts.ar_role a) out = Some bytes.
Proof.
  revert files. induction m as [|a m IH]; intros files; cbn [try_fold].
  { intros _ [= ->]. split; [done|]. by intros a ?%elem_of_nil. }
  rewrite fmap_cons, NoDup_cons. intros [Ha Hn].
  destruct (pin _ _ uid files a) as [files'|] eqn:E; [|done]. intros H.
  apply pin_ok in E as (bytes & Hp & ->). destruct (IH _ Hn H) as [Hout Hin]. split.
  - intros role Hr. rewrite not_elem_of_cons in Hr. destruct Hr as [Hne Hr].
    rewrite Hout, bt_get_insert by done. by rewrite decide_False.
  - intros b [->|Hb]%elem_of_cons; [|by apply Hin]. exists bytes. split; [done|].
    by rewrite Hout, bt_get_insert_eq.
Qed.

(** What a TUI reads while it signs is fixed before it is asked: the pinned
    files are exactly those of a valid batch, by role, each opened at a path
    inside the store after resolving links, regular, writable by nobody, owned
    by the owner of the store and of the announced size. *)
Theorem pinned_artifacts_exact debug request files :
  open_artifacts store_uid canonicalize open debug request = Ok files →
  Artifacts.request_validate debug request = Ok tt
  ∧ (∀ role, is_Some (bt_get role files) ↔ role ∈ Artifacts.ar_role <$> Artifacts.sq_manifest request)
  ∧ ∃ uid, store_uid = Ok uid ∧ ∀ a, a ∈ Artifacts.sq_manifest request →
      ∃ bytes, pinned uid a bytes ∧ bt_get (Artifacts.ar_role a) files = Some bytes.
Proof.
  unfold open_artifacts. intros ([] & Hv & H)%bind_ok. apply bind_ok in H as (uid & Hu & H).
  assert (NoDup (Artifacts.ar_role <$> Artifacts.sq_manifest request)) as Hn.
  { unfold Artifacts.request_validate in Hv. apply bind_ok in Hv as (_ & _ & Hm).
    unfold Artifacts.manifest_validate in Hm. destruct (negb _); [done|].
    apply bind_ok in Hm as (roles & Hf & _).
    by apply (try_fold_seen _ _ _ ArtifactFacts.check_artifact_ok) in Hf as (_ & Hn & _). }
  destruct (pins_ok _ _ _ _ Hn H) as [Hout Hin]. split_and!; [done| |by exists uid].
  intros role. split.
  - intros [bytes Hb]. apply dec_stable. intros Hr. by rewrite Hout in Hb.
  - intros (a & -> & Ha)%list_elem_of_fmap. destruct (Hin a Ha) as (bytes & _ & Hb). by exists bytes.
Qed.
End Files.

(** ** Signatures *)
Section Signatures.
Context {W : Type} (operator : Ask → stE W string (string * SecretAnswer)).
Context (debug : string → string) (decode : string → option (list Z)) (schema : Schema).

Lemma signing_key_ok message identifier path :
  signing_key debug schema message identifier = Ok path ↔
    path_parse identifier = Ok path ∧
    ∃ spec, leaf schema path = Ok (OperatorOnly spec) ∧ os_signing_only spec = true.
Proof.
  unfold signing_key. split.
  - intros (p & Hp & H)%bind_ok. destruct (path_parse identifier) as [?|]; [|done].
    injection Hp as ->. apply bind_ok in H as (spec & Hl & H).
    destruct (leaf schema p) as [?|] eqn:El; [|done]. injection Hl as ->.
    destruct spec as [| |spec]; try done. destruct (os_signing_only spec) eqn:Es; [|done].
    injection H as ->. eauto.
  - intros (-> & spec & Hl & Hs). cbn. rewrite Hl. cbn. by rewrite Hs.
Qed.

(** An artifact signature that is handed back was asked for with that
    request, names a key that may only sign, and covers exactly the batch:
    the signed roles, digests and sizes are the artifacts', each once. *)
Theorem artifact_response_covers peer r reason procedure progress w signatures w' :
  request_artifacts operator debug decode schema peer r reason procedure progress w
    = (RArtifactSignatures signatures, w') →
  (∃ path spec, path_parse (Artifacts.sq_identifier r) = Ok path
    ∧ leaf schema path = Ok (OperatorOnly spec) ∧ os_signing_only spec = true)
  ∧ (∃ id, operator (new_ask peer [Artifacts.sq_identifier r] reason ssh_default (Some r) None
       procedure progress None) w = (Ok (id, ArtifactsSigned signatures), w'))
  ∧ ((λ s, (Artifacts.dt_role s, Artifacts.dt_sha512 s, Artifacts.dt_size s)) <$> signatures)
      ≡ₚ ((λ a, (Artifacts.ar_role a, Artifacts.ar_sha512 a, Artifacts.ar_size a))
            <$> Artifacts.sq_manifest r).
Proof.
  unfold request_artifacts. rewrite respond_ok by done. intros (s & [= <-] & H).
  inv_handler H. match goal with K : operator _ _ = (Ok (_, ?a), _) |- _ => destruct a; try done end.
  match goal with K : mbind _ _ = Ok signatures |- _ => apply bind_ok in K as ([] & Hs & [= ->]) end.
  match goal with K : signing_key _ _ _ _ = Ok _ |- _ => apply signing_key_ok in K as (Hp & spec & Hl) end.
  split_and!; [eauto..|].
  match goal with K : Artifacts.request_validate _ _ = Ok ?x |- _ =>
    destruct x; apply bind_ok in K as (_ & _ & Hm) end.
  by destruct (ArtifactFacts.artifact_signatures_cover decode _ _ Hm Hs).
Qed.

Context (encode : list Z → string) (sha256 : list Z → list Z).
Context (manifest_json : Closures.Manifest → result string (list Z))
  (request_json : Closures.SigningRequest → result string (list Z)).
Context (get : SecretPath → result string (option EncryptedSecret)).

Lemma key_name_spec value name :
  key_name value = Some name → ∃ rest, value = name +:+ ":" +:+ rest.
Proof.
  unfold key_name. destruct (split_once ":" value) as [[n rest]|] eqn:E; [|done].
  intros [= <-]. apply split_once_Some in E as [-> _]. by exists rest.
Qed.

Lemma approved_public_key_ok path fingerprint text :
  approved_public_key decode encode sha256 get path fingerprint = Ok text →
  ∃ record key public, get path = Ok (Some record) ∧ es_public_key record = Some key
    ∧ decode key = Some public ∧ from_utf8 public = Some text
    ∧ fingerprint = hex_of (sha256 public).
Proof.
  unfold approved_public_key. intros (record & Hg & H)%bind_ok.
  apply bind_ok in H as (? & Hr & H). destruct record as [record|]; [|done]. injection Hr as <-.
  apply bind_ok in H as (key & Hk & H). destruct (es_public_key record) as [?|] eqn:Ek; [|done].
  injection Hk as ->. apply bind_ok in H as (public & Hp & H).
  destruct (decode key) as [?|] eqn:Ed; [|done]. injection Hp as ->.
  apply bind_ok in H as (t & Ht & H). destruct (from_utf8 public) as [?|] eqn:Et; [|done].
  injection Ht as ->. apply bind_ok in H as (_ & _ & H). case_bool_decide; [|done].
  injection H as ->. eauto 10.
Qed.

(** C32: Closure signatures that are handed back were asked for with that request
    and cover exactly the paths of its manifest, each once.  They are named
    after the public key the store has for a key of the requesting host that
    may only sign, and the request carries that public key's fingerprint. *)
Theorem closure_response_covers peer r reason procedure progress w signatures w' :
  request_closure operator debug decode encode sha256 manifest_json request_json get schema peer r
    reason procedure progress w = (RClosureSignatures signatures, w') →
  ∃ rest spec record key public name tail,
    let path := Closures.sq_host r :: "services" :: rest in
    path_parse (Closures.sq_identifier r) = Ok path
    ∧ leaf schema path = Ok (OperatorOnly spec) ∧ os_signing_only spec = true
    ∧ get path = Ok (Some record) ∧ es_public_key record = Some key ∧ decode key = Some public
    ∧ from_utf8 public = Some (name +:+ ":" +:+ tail)
    ∧ Closures.sq_public_key_sha256 r = hex_of (sha256 public)
    ∧ (∃ id, operator (new_ask peer [Closures.sq_identifier r] reason ssh_default None (Some r)
         procedure progress None) w = (Ok (id, ClosureSigned signatures), w'))
    ∧ (Closures.pg_path <$> Closures.sg_signatures signatures)
        ≡ₚ (Closures.mp_path <$> Closures.mf_paths (Closures.sq_manifest r))
    ∧ Forall (λ s, ∃ base64, Closures.pg_signature s = name +:+ ":" +:+ base64)
        (Closures.sg_signatures signatures).
Proof.
  unfold request_closure. rewrite respond_ok by done. intros (s & [= <-] & H).
  inv_handler H.
  match goal with K : signing_key _ _ _ _ = Ok _ |- _ => apply signing_key_ok in K as (Hp & spec & Hl & Hs) end.
  match goal with K : approved_public_key _ _ _ _ _ _ = Ok _ |- _ =>
    apply approved_public_key_ok in K as (record & key & public & Hg & Hk & Hd & Ht & Hf) end.
  match goal with K : Closures.request_validate _ _ _ _ = Ok ?x |- _ => destruct x; rename K into Hv end.
  apply bind_ok in Hv as ([] & (Hpath & _)%check_signing_key_ok & _).
  destruct Hpath as [rest Hpath]. rewrite Hpath in Hp. injection Hp as <-.
  match goal with K : mbind _ _ = Ok signatures |- _ => apply bind_ok in K as (s & Ha & Hn) end.
  match goal with K : operator _ _ = (Ok (_, ?a), _) |- _ => destruct a; try done end.
  cbn [closure_answer] in Ha. apply bind_ok in Ha as ([] & Hc & [= <-]).
  apply bind_ok in Hn as (name & Hname & Hn).
  destruct (key_name _) as [?|] eqn:En; [|done]. injection Hname as ->.
  apply key_name_spec in En as [tail ->].
  destruct (existsb _ _) eqn:Ee; [done|]. injection Hn as <-.
  apply ClosureFacts.closure_signatures_cover in Hc as (Hcov & _).
  exists rest, spec, record, key, public, name, tail. split_and!; try done; [by eexists|].
  apply Forall_forall. intros x Hx. apply key_name_spec, dec_stable. intros Hne.
  apply not_true_iff_false in Ee. apply Ee, existsb_exists. exists x.
  split; [by apply list_elem_of_In|]. by rewrite bool_decide_false.
Qed.
End Signatures.

(** ** A sample operator *)
Module Samples.
(** A host with one key that may only sign. *)
Definition key_leaf : OperatorLeaf :=
  {| ol_description := None; ol_human_facing := false; ol_required_for_install := false;
     ol_signing_only := true; ol_identity := None; ol_presentation := None;
     ol_recipient_public_keys := []; ol_recipient_ids := []; ol_recipient_names := [];
     ol_generator := None |}.
Definition host : HostSchema :=
  {| hs_metadata :=
       {| hm_socket_path := "/run/secrets.sock";
          hm_deployment := {| dm_publish_host_identity_to := None; dm_host := "web";
            dm_destination := "root@web"; dm_port := 22; dm_identity_public_keys := [];
            dm_protocol_version := None |};
          hm_recipient_public_keys := []; hm_service_display_paths := [] |};
     hs_service_groups := [("services", [("boot", Branch [("key", Operator key_leaf)]);
                                         ("cache", Branch [("key", Operator key_leaf)])])] |}.
Definition schema : Schema := [("web", host)].

Definition debug (s : string) : string := s.
Definition public_key : string := "cache:" +:+ Signing.Samples.rep 44 "K".
(** Three base64 words and what they stand for. *)
Definition decode (s : string) : option (list Z) :=
  if bool_decide (s = Signing.Samples.rep 88 "A") then Some (repeat 0 64)
  else if bool_decide (s = Signing.Samples.rep 44 "K") then Some (repeat 0 32)
  else if bool_decide (s = "pub") then Some (bytes public_key)
  else Signing.Samples.sidecar_engine s.
Definition encode (l : list Z) : string :=
  Signing.Samples.rep (if bool_decide (length l = 64)%nat then 88 else 44)
    (if bool_decide (length l = 64)%nat then "A"%char else "K"%char).
Definition sha256 (_ : list Z) : list Z := repeat 0 32.
Definition get (_ : SecretPath) : result string (option EncryptedSecret) :=
  Ok (Some {| es_format_version := 1; es_version_id := []; es_recipient_ids := [];
              es_recipient_refs := []; es_age_ciphertext := []; es_public_key := Some "pub" |}).
(** An operator who gives one answer and counts the asks. *)
Definition answering (answer : SecretAnswer) : Ask → stE nat string (string * SecretAnswer) :=
  λ _ n, (Ok ("1", answer), S n).
Definition detached : list Artifacts.DetachedSignature :=
  Signing.Samples.detached <$> Artifacts.REQUIRED_ROLES.

Definition canonicalize (s : string) : result string string := Ok s.
Definition open (_ : string) : result string OpenFile :=
  Ok {| of_is_file := true; of_mode := 292; of_uid := 0; of_bytes := repeat 1 9 |}.
Definition ask : SshSignatureAsk :=
  {| sg_request := SshAuth.Samples.login; sg_reason := None; sg_procedure := None;
     sg_progress := false; sg_grant := Some "7" |}.
End Samples.

Lemma plaintext_session_exact_witness :
  ∃ message, request (Samples.answering Confirmed) Samples.debug Samples.decode Samples.schema
    (Ok "/run/s") 7 ["web.services.cache.key"] None None false 0%nat = (RError message, None, 0%nat).
Proof.
  refine (proj1 (plaintext_session_exact (Samples.answering Confirmed) Samples.debug Samples.decode
    Samples.schema (Ok "/run/s") 7 ["web.services.cache.key"] None None false 0%nat)
    "web.services.cache.key" ["web"; "services"; "cache"; "key"] _ _ _ _ _);
    [by left|vm_compute; reflexivity..].
Defined.

Lemma login_grants_scoped_witness :
  ∃ message, request_signature (Samples.answering Confirmed) SshAuth.Samples.decode
    SshAuth.Samples.host_key 7 Samples.ask [("1", tt)] 0%nat = (RError message, 0%nat).
Proof.
  refine (proj1 (login_grants_scoped (Samples.answering Confirmed) SshAuth.Samples.decode
    SshAuth.Samples.host_key 7 Samples.ask [("1", tt)] 0%nat) "7" _ _); vm_compute; reflexivity.
Defined.

Lemma pinned_artifacts_exact_witness :
  ∃ files, open_artifacts (Ok 0) Samples.canonicalize Samples.open Samples.debug
      Signing.Samples.artifact_request = Ok files
    ∧ Artifacts.request_validate Samples.debug Signing.Samples.artifact_request = Ok tt.
Proof.
  eexists. split; [vm_compute; reflexivity|].
  refine (proj1 (pinned_artifacts_exact (Ok 0) Samples.canonicalize Samples.open Samples.debug
    Signing.Samples.artifact_request _ _)). vm_compute; reflexivity.
Defined.

Lemma artifact_response_covers_witness :
  request_artifacts (Samples.answering (ArtifactsSigned Samples.detached)) Samples.debug Samples.decode
    Samples.schema 7 Signing.Samples.artifact_request None None false 0%nat
    = (RArtifactSignatures Samples.detached, 1%nat)
  ∧ ∃ path spec, path_parse "web.services.boot.key" = Ok path
      ∧ leaf Samples.schema path = Ok (OperatorOnly spec) ∧ os_signing_only spec = true.
Proof.
  assert (request_artifacts (Samples.answering (ArtifactsSigned Samples.detached)) Samples.debug
    Samples.decode Samples.schema 7 Signing.Samples.artifact_request None None false 0%nat
    = (RArtifactSignatures Samples.detached, 1%nat)) as H by (vm_compute; reflexivity).
  split; [exact H|]. exact (proj1 (artifact_response_covers _ _ _ _ _ _ _ _ _ _ _ _ H)).
Defined.

Lemma closure_response_covers_witness :
  ∃ rest, path_parse "web.services.cache.key" = Ok ("web" :: "services" :: rest).
Proof.
  destruct (closure_response_covers (Samples.answering (ClosureSigned Signing.Samples.signed))
    Samples.debug Samples.decode Samples.schema Samples.encode Samples.sha256 Signing.Samples.no_json
    Signing.Samples.no_json Samples.get 7 Signing.Samples.request None None false 0%nat
    Signing.Samples.signed 1%nat) as (rest & spec & record & key & public & name & tail & Hp & _).
  - vm_compute; reflexivity.
  - exists rest. exact Hp.
Defined.
