(* ===== verification/FileSystem.v ===== *)
(** * A file system with failing calls and crash points

    The part of a Unix file system that [crates/deploy] works on.  A world
    maps absolute paths (lists of components) to entries; every system call
    either fails without effect or is one atomic step, and the worlds that
    the calls leave behind are recorded: they are the states in which a crash
    can stop the program.  What the kernel decides (who the process is,
    directory order, POSIX ACL arithmetic, devices) is an argument; which
    calls fail, and how, is an argument as well.

    Not modelled: paths that lead through symbolic links, writes that stop
    half-way (a file being written is never reachable by a consumer), and
    loss of power, which may undo calls that were not synced. *)
From S2P Require Import Prelude BTree Text.
From stdpp Require Export gmap sorting.
#[local] Open Scope Z_scope.

(** A [Path] is its components. *)
Notation Path := (list string) (only parsing).

Fixpoint strip (p q : Path) : option Path :=
  match p, q with
  | [], _ => Some q
  | c :: p, d :: q => if bool_decide (c = d) then strip p q else None
  | _ :: _, [] => None
  end.
(** [Path::parent] and [Path::file_name]. *)
Definition parent (p : Path) : Path := removelast p.
Definition file_name (p : Path) : string := List.last p "".

Record Meta := {
  m_uid : Z;
  m_gid : Z;
  m_mode : Z;  (** the permission bits, [st_mode & 0o7777] *)
  m_acl : option (list Z);  (** [system.posix_acl_access] *)
  m_default_acl : option (list Z);
}.
Inductive entry :=
| EDir (m : Meta)
| EFile (m : Meta) (contents : list Z)
| ELink (target : Path)
| ESpecial.
Notation World := (@gmap (list string) (@list_eq_dec string String.eq_dec)
  (@list_countable string String.eq_dec String.countable) entry) (only parsing).

Inductive IoKind := KNotFound | KAlreadyExists | KOther.
Record IoErr := { io_kind : IoKind; io_text : string }.
Definition not_found : IoErr := {| io_kind := KNotFound; io_text := "No such file or directory" |}.
Definition already_exists : IoErr := {| io_kind := KAlreadyExists; io_text := "File exists" |}.
Definition other (text : string) : IoErr := {| io_kind := KOther; io_text := text |}.

#[export] Instance meta_eq_dec : EqDecision Meta.
Proof. solve_decision. Defined.
#[export] Instance entry_eq_dec : EqDecision entry.
Proof. solve_decision. Defined.
#[export] Instance io_kind_eq_dec : EqDecision IoKind.
Proof. solve_decision. Defined.
#[export] Instance io_err_eq_dec : EqDecision IoErr.
Proof. solve_decision. Defined.

(** What the kernel decides. *)
Record Kernel := {
  k_uid : Z;
  k_gid : Z;
  k_umask : Z;
  k_dev : Path → Z;  (** the device a path is on *)
  k_readdir : list string → list string;  (** the order of [readdir] *)
  k_inherit : list Z → Z → list Z * Z;  (** access ACL and mode from a default ACL *)
  k_chmod_acl : Z → list Z → list Z;  (** what [chmod] does to an access ACL *)
  k_acl_mode : list Z → Z → Z;  (** the mode after an access ACL is set *)
}.

Record Fs := { fs_world : World; fs_calls : nat; fs_trace : list World }.

Section Calls.
Context (K : Kernel) (fault : nat → option string).

(** One system call: it fails for reasons of its own, or as [f] says, or
    makes the step [f] describes. *)
Definition sys {A : Type} (f : World → result IoErr (A * World)) : stE Fs IoErr A := λ s,
  let n := S (fs_calls s) in
  match fault (fs_calls s) with
  | Some text =>
      (Err (other text), {| fs_world := fs_world s; fs_calls := n; fs_trace := fs_trace s |})
  | None =>
      match f (fs_world s) with
      | Ok (a, w) => (Ok a, {| fs_world := w; fs_calls := n; fs_trace := w :: fs_trace s |})
      | Err e => (Err e, {| fs_world := fs_world s; fs_calls := n; fs_trace := fs_trace s |})
      end
  end.

(** ** Reading calls *)
Definition look {A : Type} (f : World → result IoErr A) : stE Fs IoErr A :=
  sys (λ w, match f w with Ok a => Ok (a, w) | Err e => Err e end).

(** [fs::symlink_metadata]: the entry itself. *)
Definition symlink_metadata (p : Path) : stE Fs IoErr entry :=
  look (λ w, ok_or not_found (w !! p)).
(** [File::metadata] of an open file or directory. *)
Definition metadata_of (e : entry) : result IoErr Meta :=
  match e with EDir m | EFile m _ => Ok m | _ => Err (other "not a file or directory") end.
Definition fstat (p : Path) : stE Fs IoErr Meta :=
  look (λ w, e ← ok_or not_found (w !! p); metadata_of e).
Definition read_link (p : Path) : stE Fs IoErr Path :=
  look (λ w, match w !! p with
             | Some (ELink target) => Ok target
             | Some _ => Err (other "Invalid argument")
             | None => Err not_found
             end).
(** [Path::exists] follows one link and takes every error for absence. *)
Definition exists_path (p : Path) {E} : stE Fs E bool := λ s,
  let '(r, s) := look (λ w, match w !! p with
                            | Some (ELink target) => ok_or not_found (w !! (parent p ++ target))
                            | o => ok_or not_found o
                            end) s in
  (Ok (is_ok r), s).
Definition child_of (p q : Path) : option string :=
  match strip p q with Some [c] => Some c | _ => None end.
Definition children (p : Path) (w : World) : list string :=
  omap (λ '(q, _), child_of p q) (map_to_list w).
Definition read_dir (p : Path) : stE Fs IoErr (list string) :=
  look (λ w, match w !! p with
             | Some (EDir _) => Ok (k_readdir K (children p w))
             | Some _ => Err (other "Not a directory")
             | None => Err not_found
             end).
(** Reads the whole file. *)
Definition read_file (p : Path) : stE Fs IoErr (list Z) :=
  look (λ w, match w !! p with
             | Some (EFile _ contents) => Ok contents
             | Some _ => Err (other "not a regular file")
             | None => Err not_found
             end).
(** [File::open(path)] and [sync_all] on it. *)
Definition sync_path (p : Path) : stE Fs IoErr unit :=
  look (λ w, match w !! p with Some _ => Ok tt | None => Err not_found end).
(** An open with [O_NOFOLLOW]. *)
Definition open_nofollow (p : Path) : stE Fs IoErr unit :=
  look (λ w, match w !! p with
             | Some (ELink _) => Err (other "Too many levels of symbolic links")
             | Some _ => Ok tt
             | None => Err not_found
             end).
Definition get_acl (default : bool) (p : Path) : stE Fs IoErr (option (list Z)) :=
  look (λ w, e ← ok_or not_found (w !! p); m ← metadata_of e;
             Ok (if default then m_default_acl m else m_acl m)).

(** ** Creating calls *)
Definition created (pm : Meta) (mode : Z) (dir : bool) : Meta :=
  let gid := if Z.testbit (m_mode pm) 10 then m_gid pm else k_gid K in
  match m_default_acl pm with
  | None => {| m_uid := k_uid K; m_gid := gid; m_mode := Z.land mode (Z.lnot (k_umask K));
               m_acl := None; m_default_acl := None |}
  | Some d => {| m_uid := k_uid K; m_gid := gid; m_mode := (k_inherit K d mode).2;
                 m_acl := Some (k_inherit K d mode).1;
                 m_default_acl := if dir then Some d else None |}
  end.
Definition create (p : Path) (f : Meta → entry) (w : World) : result IoErr (unit * World) :=
  match w !! p, w !! parent p with
  | Some _, _ => Err already_exists
  | None, Some (EDir pm) =>
      if bool_decide (p = []) then Err already_exists else Ok (tt, <[p := f pm]> w)
  | None, Some _ => Err (other "Not a directory")
  | None, None => Err not_found
  end.
Definition mkdir (p : Path) (mode : Z) : stE Fs IoErr unit :=
  sys (create p (λ pm, EDir (created pm mode true))).
(** [O_CREAT | O_EXCL]. *)
Definition create_new (p : Path) (mode : Z) : stE Fs IoErr unit :=
  sys (create p (λ pm, EFile (created pm mode false) [])).
Definition symlink (target p : Path) : stE Fs IoErr unit := sys (create p (λ _, ELink target)).
(** [O_CREAT | O_NOFOLLOW] without [O_EXCL]. *)
Definition open_or_create (p : Path) (mode : Z) : stE Fs IoErr unit :=
  sys (λ w, match w !! p with
            | Some (ELink _) => Err (other "Too many levels of symbolic links")
            | Some _ => Ok (tt, w)
            | None => create p (λ pm, EFile (created pm mode false) []) w
            end).

(** ** Changing calls *)
Definition change (p : Path) (f : entry → result IoErr entry) : stE Fs IoErr unit :=
  sys (λ w, match w !! p with
            | Some e => match f e with Ok e => Ok (tt, <[p := e]> w) | Err e => Err e end
            | None => Err not_found
            end).
Definition on_meta (f : Meta → Meta) (e : entry) : result IoErr entry :=
  match e with
  | EDir m => Ok (EDir (f m))
  | EFile m contents => Ok (EFile (f m) contents)
  | _ => Err (other "not a file or directory")
  end.
Definition write_file (p : Path) (contents : list Z) : stE Fs IoErr unit :=
  change p (λ e, match e with
                 | EFile m _ => Ok (EFile m contents)
                 | _ => Err (other "not a regular file")
                 end).
Definition chown (p : Path) (uid gid : Z) : stE Fs IoErr unit :=
  change p (on_meta (λ m, {| m_uid := uid; m_gid := gid; m_mode := m_mode m; m_acl := m_acl m;
                             m_default_acl := m_default_acl m |})).
Definition chmod (p : Path) (mode : Z) : stE Fs IoErr unit :=
  change p (on_meta (λ m, {| m_uid := m_uid m; m_gid := m_gid m; m_mode := mode;
                             m_acl := k_chmod_acl K mode <$> m_acl m;
                             m_default_acl := m_default_acl m |})).
Definition set_acl (default : bool) (p : Path) (acl : list Z) : stE Fs IoErr unit :=
  change p (on_meta (λ m,
    if default
    then {| m_uid := m_uid m; m_gid := m_gid m; m_mode := m_mode m; m_acl := m_acl m;
            m_default_acl := Some acl |}
    else {| m_uid := m_uid m; m_gid := m_gid m; m_mode := k_acl_mode K acl (m_mode m);
            m_acl := Some acl; m_default_acl := m_default_acl m |})).
(** Removing an absent ACL succeeds here: the source accepts [NODATA]. *)
Definition unset_acl (default : bool) (p : Path) : stE Fs IoErr unit :=
  change p (on_meta (λ m,
    {| m_uid := m_uid m; m_gid := m_gid m; m_mode := m_mode m;
       m_acl := if default then m_acl m else None;
       m_default_acl := if default then None else m_default_acl m |})).

(** ** Removing and renaming calls *)
Definition remove_entry (p : Path) (w : World) : result IoErr (unit * World) :=
  match w !! p with
  | Some (EDir _) =>
      if bool_decide (children p w = []) then Ok (tt, delete p w)
      else Err (other "Directory not empty")
  | Some _ => Ok (tt, delete p w)
  | None => Err not_found
  end.
Definition remove_file (p : Path) : stE Fs IoErr unit :=
  sys (λ w, match w !! p with
            | Some (EDir _) => Err (other "Is a directory")
            | _ => remove_entry p w
            end).
Definition rekey (src dst : Path) (p : Path) : Path :=
  match strip src p with Some q => dst ++ q | None => p end.
(** The tree at [src] becomes the tree at [dst]. *)
Definition move (src dst : Path) (w : World) : World :=
  list_to_map ((λ '(p, e), (rekey src dst p, e))
    <$> filter (λ '(p, _), strip dst p = None) (map_to_list w)).
Definition rename_to (src dst : Path) (w : World) : result IoErr (unit * World) :=
  match w !! src, w !! parent dst with
  | None, _ | _, None => Err not_found
  | Some e, Some (EDir _) =>
      if bool_decide (src = dst) then Ok (tt, w)
      else if is_some (strip src dst) || is_some (strip dst src)
      then Err (other "Invalid argument")
      else match e, w !! dst with
      | EDir _, Some (EDir _) =>
          if bool_decide (children dst w = []) then Ok (tt, move src dst w)
          else Err (other "Directory not empty")
      | EDir _, Some _ => Err (other "Not a directory")
      | EDir _, None => Ok (tt, move src dst w)
      | _, Some (EDir _) => Err (other "Is a directory")
      | _, _ => Ok (tt, <[dst := e]> (delete src w))
      end
  | Some _, Some _ => Err (other "Not a directory")
  end.
Definition rename (src dst : Path) : stE Fs IoErr unit := sys (rename_to src dst).

(** [fs::remove_dir_all]: every entry below [p], the deepest first, then [p]. *)
Definition longer (p q : Path) : Prop := (length q ≤ length p)%nat.
#[export] Instance longer_dec p q : Decision (longer p q) := decide (length q ≤ length p)%nat.
Definition below (p : Path) (w : World) : list Path :=
  merge_sort longer (filter (λ q, is_Some (strip p q)) (map_to_list w).*1).
Fixpoint remove_all (l : list Path) : stE Fs IoErr unit :=
  match l with
  | [] => mret tt
  | p :: l => _ ← sys (remove_entry p); remove_all l
  end.
Definition remove_dir_all (p : Path) : stE Fs IoErr unit :=
  l ← look (λ w, Ok (below p w));
  remove_all l.
End Calls.

(** ** Reasoning about runs

    [spec I w m Q]: from world [w], whatever calls fail, every world that [m]
    goes through satisfies [I], and result and final world satisfy [Q]. *)
Definition spec {E A : Type} (I : World → Prop) (w : World) (m : stE Fs E A)
  (Q : result E A → World → Prop) : Prop :=
  ∀ n t, let '(r, s) := m {| fs_world := w; fs_calls := n; fs_trace := t |} in
    Q r (fs_world s) ∧ ∃ t', fs_trace s = t' ++ t ∧ Forall I t'.

Lemma spec_ret {E A : Type} I w (a : A) (Q : result E A → World → Prop) :
  Q (Ok a) w → spec I w (mret a) Q.
Proof. intros HQ n t. split; [done|]. by exists []. Qed.

Lemma spec_lift {E A : Type} I w (r : result E A) (Q : result E A → World → Prop) :
  Q r w → spec I w (st_lift r) Q.
Proof. intros HQ n t. split; [done|]. by exists []. Qed.

Lemma spec_guard {E : Type} I w b (e : E) (Q : result E unit → World → Prop) :
  (b = true → Q (Ok tt) w) → (b = false → Q (Err e) w) → spec I w (st_guard b e) Q.
Proof. intros. apply spec_lift. destruct b; cbn; auto. Qed.

Lemma spec_bind {E A B : Type} I w (m : stE Fs E A) (k : A → stE Fs E B) Q :
  spec I w m (λ r w', match r with Ok a => spec I w' (k a) Q | Err e => Q (Err e) w' end) →
  spec I w (m ≫= k) Q.
Proof.
  intros Hm n t. specialize (Hm n t). unfold mbind, stE_bind.
  destruct (m _) as [[a|e] s] eqn:E1; destruct Hm as [HQ (t1 & Ht1 & HI1)]; [|by eauto].
  destruct s as [w1 n1 tr]; cbn in *. subst. specialize (HQ n1 (t1 ++ t)).
  destruct (k a _) as [r s]. destruct HQ as [HQ (t2 & Ht2 & HI2)].
  split; [done|]. exists (t2 ++ t1). rewrite Ht2, app_assoc. split; [done|].
  by apply Forall_app.
Qed.

Lemma spec_mono {E A : Type} (I I' : World → Prop) w (m : stE Fs E A) (Q Q' : result E A → World → Prop) :
  spec I w m Q → (∀ w', I w' → I' w') → (∀ r w', Q r w' → Q' r w') → spec I' w m Q'.
Proof.
  intros Hm HI HQ n t. specialize (Hm n t). destruct (m _) as [r s].
  destruct Hm as [H1 (t' & -> & H2)]. split; [by apply HQ|].
  exists t'. split; [done|]. by eapply Forall_impl.
Qed.

Lemma spec_and {E A : Type} (I I' : World → Prop) w (m : stE Fs E A) (Q Q' : result E A → World → Prop) :
  spec I w m Q → spec I' w m Q' → spec (λ w', I w' ∧ I' w') w m (λ r w', Q r w' ∧ Q' r w').
Proof.
  intros H1 H2 n t. specialize (H1 n t). specialize (H2 n t). destruct (m _) as [r s].
  destruct H1 as [HQ1 (t1 & Ht1 & HI1)], H2 as [HQ2 (t2 & Ht2 & HI2)].
  split; [done|]. exists t1. split; [done|].
  rewrite Ht1 in Ht2. apply app_inv_tail in Ht2 as <-.
  apply Forall_and; by split.
Qed.

Lemma spec_sys {A : Type} fault I w (f : World → result IoErr (A * World)) Q :
  (∀ a w', f w = Ok (a, w') → I w' ∧ Q (Ok a) w') →
  (∀ e, f w = Err e ∨ io_kind e = KOther → Q (Err e) w) →
  spec I w (sys fault f) Q.
Proof.
  intros Hok Herr n t. unfold sys. cbn.
  destruct (fault n); cbn; [split; [apply Herr; by right|by exists []]|].
  destruct (f w) as [[a w']|e] eqn:Hf; cbn.
  - destruct (Hok a w' eq_refl). split; [done|]. exists [w']. split; [done|]. by constructor.
  - split; [apply Herr; by left|by exists []].
Qed.

Lemma spec_look {A : Type} fault (I : World → Prop) w (f : World → result IoErr A) Q :
  I w → (∀ a, f w = Ok a → Q (Ok a) w) →
  (∀ e, f w = Err e ∨ io_kind e = KOther → Q (Err e) w) →
  spec I w (look fault f) Q.
Proof.
  intros HI Hok Herr. apply spec_sys.
  - intros a w' H. destruct (f w); simplify_eq. auto.
  - intros e [H|H]; apply Herr; [|by right]. left. destruct (f w); by simplify_eq.
Qed.

(** Errors are turned into other errors. *)
Definition map_state_err {E F A : Type} (f : E → F) (m : stE Fs E A) : stE Fs F A :=
  λ s, let '(r, s) := m s in (map_err f r, s).

Lemma spec_map_err {E F A : Type} I w (f : E → F) (m : stE Fs E A) Q :
  spec I w m (λ r w', Q (map_err f r) w') → spec I w (map_state_err f m) Q.
Proof.
  intros Hm n t. specialize (Hm n t). unfold map_state_err. by destruct (m _) as [r s].
Qed.

(** [if let Err(error) = m] and [match m]: the result in hand. *)
Definition attempt {E F A : Type} (m : stE Fs E A) : stE Fs F (result E A) :=
  λ s, let '(r, s) := m s in (Ok r, s).

Lemma spec_attempt {E F A : Type} I w (m : stE Fs E A) (Q : result F (result E A) → World → Prop) :
  spec I w m (λ r w', Q (Ok r) w') → spec I w (attempt m) Q.
Proof.
  intros Hm n t. specialize (Hm n t). unfold attempt. by destruct (m _) as [r s].
Qed.

(** ** Paths *)
Lemma strip_app p q : strip p (p ++ q) = Some q.
Proof. induction p as [|c p IH]; cbn; [done|]. by rewrite bool_decide_eq_true_2. Qed.

Lemma strip_Some p q r : strip p q = Some r ↔ q = p ++ r.
Proof.
  split; [|intros ->; apply strip_app].
  revert q. induction p as [|c p IH]; intros q; cbn; [naive_solver|].
  destruct q as [|d q]; [done|]. case_bool_decide; [subst|done].
  intros ->%IH. done.
Qed.

Lemma strip_None_under p q : strip p q = None → ∀ r, strip (p ++ r) q = None.
Proof.
  intros H r. destruct (strip (p ++ r) q) eqn:E; [|done].
  apply strip_Some in E. rewrite <- app_assoc in E. apply strip_Some in E. congruence.
Qed.

(** [under p] are the paths at and below [p]. *)
Definition under (p : Path) (q : Path) : Prop := is_Some (strip p q).
#[export] Instance under_dec p q : Decision (under p q) := _.

Lemma under_spec p q : under p q ↔ ∃ r, q = p ++ r.
Proof. unfold under, is_Some. by setoid_rewrite strip_Some. Qed.
Lemma under_app p r : under p (p ++ r).
Proof. apply under_spec. eauto. Qed.
Lemma under_refl p : under p p.
Proof. apply under_spec. exists []. by rewrite app_nil_r. Qed.
Lemma under_trans p q r : under p q → under q r → under p r.
Proof. rewrite !under_spec. intros [a ->] [b ->]. exists (a ++ b). by rewrite app_assoc. Qed.

Lemma child_of_spec p q c : child_of p q = Some c ↔ q = p ++ [c].
Proof.
  unfold child_of. split.
  - repeat case_match; intros; simplify_eq. by apply strip_Some.
  - intros ->. by rewrite strip_app.
Qed.

Lemma elem_children p w c : c ∈ children p w ↔ is_Some (w !! (p ++ [c])).
Proof.
  unfold children. rewrite list_elem_of_omap. split.
  - intros ([q e] & Hin & Hc). apply child_of_spec in Hc as ->.
    apply elem_of_map_to_list in Hin. eauto.
  - intros [e He]. exists (p ++ [c], e). split; [by apply elem_of_map_to_list|].
    by apply child_of_spec.
Qed.

Lemma children_nil p w : children p w = [] ↔ ∀ c, w !! (p ++ [c]) = None.
Proof.
  split.
  - intros Hn c. apply eq_None_not_Some. rewrite <- elem_children, Hn. apply not_elem_of_nil.
  - intros H. apply elem_of_nil_inv. intros c. rewrite elem_children, H. apply is_Some_None.
Qed.

Lemma parent_snoc p c : parent (p ++ [c]) = p.
Proof. unfold parent. apply removelast_last. Qed.

Lemma NoDup_children p w : NoDup (children p w).
Proof.
  assert (∀ l : list (Path * entry), NoDup l.*1 → NoDup (omap (λ '(q, _), child_of p q) l))
    as H; [|apply H, NoDup_fst_map_to_list].
  induction l as [|[q e] l IH]; cbn; intros Hn; [constructor|].
  apply NoDup_cons in Hn as [Hq Hl].
  destruct (child_of p q) as [c|] eqn:Ec; [|auto].
  constructor; [|auto]. rewrite list_elem_of_omap. intros ([q' e'] & Hin & Hc).
  apply child_of_spec in Ec, Hc. subst. apply Hq.
  apply list_elem_of_fmap. by exists (p ++ [c], e').
Qed.

Lemma rekey_inj src dst p q :
  strip dst p = None → strip dst q = None → rekey src dst p = rekey src dst q → p = q.
Proof.
  unfold rekey. intros Hp Hq.
  destruct (strip src p) as [r|] eqn:E1, (strip src q) as [r'|] eqn:E2; intros H.
  - apply app_inv_head in H as ->. apply strip_Some in E1, E2. congruence.
  - subst. by rewrite strip_app in Hq.
  - subst. by rewrite strip_app in Hp.
  - done.
Qed.

(** Neither path leads through the other. *)
Definition apart (p q : Path) : Prop := strip p q = None ∧ strip q p = None.

Lemma apart_sym p q : apart p q → apart q p.
Proof. intros [? ?]. by split. Qed.

Lemma apart_app p q r : apart p q → strip p (q ++ r) = None.
Proof.
  revert q. induction p as [|c p IH]; intros q [H1 H2]; [done|].
  destruct q as [|d q]; [done|]. cbn in *.
  destruct (decide (c = d)) as [->|]; [|by rewrite bool_decide_eq_false_2].
  rewrite bool_decide_eq_true_2 in * by done. apply IH. by split.
Qed.

Lemma lookup_move src dst w p :
  apart src dst →
  move src dst w !! p =
    match strip dst p with
    | Some q => w !! (src ++ q)
    | None => if strip src p then None else w !! p
    end.
Proof.
  intros Hs. apply option_eq. intros e. unfold move.
  match goal with |- context [list_to_map ?l] => set (k := l) end.
  assert (NoDup k.*1) as Hk.
  { unfold k. rewrite <- list_fmap_compose. apply NoDup_fmap_2_strong.
    - intros [q e1] [q' e2]. rewrite !list_elem_of_filter.
      intros [H1 L1%elem_of_map_to_list] [H2 L2%elem_of_map_to_list] H. apply rekey_inj in H as ->; [congruence|done|done].
    - apply NoDup_filter, NoDup_map_to_list. }
  etrans; [symmetry; apply (elem_of_list_to_map (M:=gmap Path) k p e Hk)|]. unfold k.
  rewrite list_elem_of_fmap. split.
  - intros ([q e'] & H & Hin). injection H as -> ->.
    apply list_elem_of_filter in Hin as [Hd Hin]. apply elem_of_map_to_list in Hin.
    unfold rekey. destruct (strip src q) as [r|] eqn:E.
    + rewrite strip_app. by apply strip_Some in E as <-.
    + by rewrite Hd, E.
  - destruct (strip dst p) as [q|] eqn:E.
    + intros H. apply strip_Some in E as ->. exists (src ++ q, e).
      unfold rekey. rewrite strip_app. split; [done|].
      apply list_elem_of_filter. split; [|by apply elem_of_map_to_list].
      by apply apart_app, apart_sym.
    + destruct (strip src p) eqn:E2; [done|]. intros H. exists (p, e).
      unfold rekey. rewrite E2. split; [done|].
      apply list_elem_of_filter. split; [done|by apply elem_of_map_to_list].
Qed.

(** ** Footprints

    [wf_world]: every entry lies in a directory.  [step_in A]: only paths of
    [A] changed, and the world stayed well-formed. *)
Definition wf_world (w : World) : Prop :=
  ∀ p c, is_Some (w !! (p ++ [c])) → ∃ m, w !! p = Some (EDir m).
Definition step_in (A : Path → Prop) (w w' : World) : Prop :=
  (∀ q, ¬ A q → w' !! q = w !! q) ∧ (wf_world w → wf_world w').
Definition frames {E T : Type} (A : Path → Prop) (m : stE Fs E T) : Prop :=
  ∀ w, spec (step_in A w) w m (λ _ w', step_in A w w').

Lemma step_in_refl A w : step_in A w w.
Proof. by split. Qed.
Lemma step_in_trans A w1 w2 w3 : step_in A w1 w2 → step_in A w2 w3 → step_in A w1 w3.
Proof. intros [H1 W1] [H2 W2]. split; [|auto]. intros q Hq. rewrite H2, H1; auto. Qed.
Lemma step_in_mono (A B : Path → Prop) w w' :
  (∀ q, A q → B q) → step_in A w w' → step_in B w w'.
Proof. intros H [H1 W1]. split; [|done]. intros q Hq. apply H1. auto. Qed.

Lemma frames_mono {E T : Type} (A B : Path → Prop) (m : stE Fs E T) :
  (∀ q, A q → B q) → frames A m → frames B m.
Proof.
  intros H Hm w. eapply spec_mono; [apply Hm|..]; intros; by eapply step_in_mono.
Qed.
Lemma frames_ret {E T : Type} A (a : T) : frames A (mret a : stE Fs E T).
Proof. intros w. apply spec_ret, step_in_refl. Qed.
Lemma frames_lift {E T : Type} A (r : result E T) : frames A (st_lift r).
Proof. intros w. apply spec_lift, step_in_refl. Qed.
Lemma frames_bind {E T U : Type} A (m : stE Fs E T) (k : T → stE Fs E U) :
  frames A m → (∀ a, frames A (k a)) → frames A (m ≫= k).
Proof.
  intros Hm Hk w. apply spec_bind. eapply spec_mono; [apply Hm|done|].
  intros [a|e] w1 H1; [|done].
  eapply spec_mono; [apply Hk|..]; cbn; intros; by eapply step_in_trans.
Qed.
Lemma frames_map_err {E F T : Type} A (f : E → F) (m : stE Fs E T) :
  frames A m → frames A (map_state_err f m).
Proof. intros Hm w. apply spec_map_err, Hm. Qed.
Lemma frames_attempt {E F T : Type} A (m : stE Fs E T) :
  frames A m → frames A (attempt m : stE Fs F _).
Proof. intros Hm w. apply spec_attempt, Hm. Qed.
Lemma frames_sys {T : Type} A fault (f : World → result IoErr (T * World)) :
  (∀ w a w', f w = Ok (a, w') → step_in A w w') → frames A (sys fault f).
Proof.
  intros Hf w. apply spec_sys; [|intros; apply step_in_refl].
  intros a w' H. apply Hf in H. done.
Qed.

(** Reading calls leave no trace at all. *)
Lemma frames_look {T : Type} A fault (f : World → result IoErr T) : frames A (look fault f).
Proof.
  apply frames_sys. intros w a w'. destruct (f w); [|done].
  intros; simplify_eq. apply step_in_refl.
Qed.
Lemma frames_exists {E : Type} A fault p : frames A (exists_path fault p (E:=E)).
Proof.
  intros w n t. unfold exists_path.
  pose proof (frames_look A fault (λ w, match w !! p with
    | Some (ELink target) => ok_or not_found (w !! (parent p ++ target))
    | o => ok_or not_found o
    end) w n t) as H. by destruct (look _ _ _) as [r s].
Qed.

(** ** The footprint of each call *)
Lemma parent_child p q c : p ≠ [] → parent p = q → last p = Some c → p = q ++ [c].
Proof.
  intros Hp <- Hc. unfold parent.
  destruct p as [|d p] using rev_ind; [done|].
  rewrite removelast_last. rewrite last_snoc in Hc. congruence.
Qed.

Lemma child_parent p q c : p = q ++ [c] → parent p = q.
Proof. intros ->. apply parent_snoc. Qed.

Lemma step_in_insert_new (A : Path → Prop) p e pm w :
  A p → w !! p = None → w !! parent p = Some (EDir pm) → step_in A w (<[p := e]> w).
Proof.
  intros HA Hn Hp. split.
  - intros q Hq. apply lookup_insert_ne. intros ->. done.
  - intros Hw q c [e' H].
    destruct (decide (p = q ++ [c])) as [->|Hne].
    + rewrite parent_snoc in Hp. exists pm. rewrite lookup_insert_ne; [done|].
      intros E. apply (f_equal length) in E. rewrite length_app in E. cbn in E. lia.
    + rewrite lookup_insert_ne in H by done.
      destruct (Hw q c) as [m Hm]; [eauto|]. exists m.
      rewrite lookup_insert_ne; [done|]. intros ->. congruence.
Qed.

Definition same_kind (e e' : entry) : Prop := ∀ m, e = EDir m → ∃ m', e' = EDir m'.

Lemma step_in_insert_old (A : Path → Prop) p e e' w :
  A p → w !! p = Some e → same_kind e e' → step_in A w (<[p := e']> w).
Proof.
  intros HA Hp Hk. split.
  - intros q Hq. apply lookup_insert_ne. intros ->. done.
  - intros Hw q c [e1 H]. destruct (Hw q c) as [m Hm].
    { destruct (decide (p = q ++ [c])) as [->|]; [eauto|].
      rewrite lookup_insert_ne in H by done. eauto. }
    destruct (decide (p = q)) as [->|]; [|rewrite lookup_insert_ne by done; eauto].
    rewrite lookup_insert_eq. simplify_eq. destruct (Hk m eq_refl) as [m' ->]. eauto.
Qed.

Lemma step_in_delete (A : Path → Prop) p w :
  A p → (∀ c, w !! (p ++ [c]) = None) → step_in A w (delete p w).
Proof.
  intros HA Hc. split.
  - intros q Hq. apply lookup_delete_ne. intros ->. done.
  - intros Hw q c [e H]. apply lookup_delete_Some in H as [Hne H].
    destruct (Hw q c) as [m Hm]; [eauto|]. exists m.
    rewrite lookup_delete_ne; [done|]. intros ->. by rewrite Hc in H.
Qed.

Lemma wf_no_child w p e c :
  wf_world w → w !! p = Some e → (∀ m, e ≠ EDir m) → w !! (p ++ [c]) = None.
Proof.
  intros Hw Hp He. apply eq_None_not_Some. intros [m Hm]%Hw. simplify_eq. by apply (He m).
Qed.

Lemma create_step (A : Path → Prop) p f w a w' :
  A p → create p f w = Ok (a, w') → step_in A w w'.
Proof.
  unfold create. intros HA H. repeat case_match; simplify_eq.
  by eapply step_in_insert_new.
Qed.

Section Footprints.
Context (K : Kernel) (fault : nat → option string) (A : Path → Prop).

Lemma frames_mkdir p mode : A p → frames A (mkdir K fault p mode).
Proof. intros. apply frames_sys. intros *. by apply create_step. Qed.
Lemma frames_create_new p mode : A p → frames A (create_new K fault p mode).
Proof. intros. apply frames_sys. intros *. by apply create_step. Qed.
Lemma frames_symlink target p : A p → frames A (symlink fault target p).
Proof. intros. apply frames_sys. intros *. by apply create_step. Qed.
Lemma frames_open_or_create p mode : A p → frames A (open_or_create K fault p mode).
Proof.
  intros. apply frames_sys. intros w [] w' Hw.
  repeat case_match; simplify_eq; try apply step_in_refl; by eapply create_step.
Qed.

Lemma frames_change p f :
  A p → (∀ e e', f e = Ok e' → same_kind e e') → frames A (change fault p f).
Proof.
  intros HA Hf. apply frames_sys. intros w [] w' H.
  repeat case_match; simplify_eq. eapply step_in_insert_old; eauto.
Qed.
Lemma frames_on_meta p f : A p → frames A (change fault p (on_meta f)).
Proof.
  intros. apply frames_change; [done|]. intros [] e'; intros; simplify_eq/=; intros m' ?;
    simplify_eq; eauto.
Qed.
Lemma frames_write_file p contents : A p → frames A (write_file fault p contents).
Proof.
  intros. apply frames_change; [done|]. intros [] e'; intros; simplify_eq/=; intros m' ?; done.
Qed.
Lemma frames_chown p uid gid : A p → frames A (chown fault p uid gid).
Proof. apply frames_on_meta. Qed.
Lemma frames_chmod p mode : A p → frames A (chmod K fault p mode).
Proof. apply frames_on_meta. Qed.
Lemma frames_set_acl d p acl : A p → frames A (set_acl K fault d p acl).
Proof. apply frames_on_meta. Qed.
Lemma frames_unset_acl d p : A p → frames A (unset_acl fault d p).
Proof. apply frames_on_meta. Qed.

Lemma remove_entry_lookup p w w' u :
  remove_entry p w = Ok (u, w') → w' = delete p w.
Proof. unfold remove_entry. intros. by repeat case_match; simplify_eq. Qed.

Lemma remove_entry_step p w a w' :
  A p → remove_entry p w = Ok (a, w') → wf_world w → step_in A w w'.
Proof.
  unfold remove_entry. intros HA H Hw. repeat case_match; simplify_eq; bool_prop;
    apply step_in_delete; try done.
  - by apply children_nil.
  - intros c. by eapply wf_no_child.
  - intros c. by eapply wf_no_child.
  - intros c. by eapply wf_no_child.
Qed.

(** The footprint without well-formedness, then with it. *)
Lemma step_in_split w w' :
  (∀ q, ¬ A q → w' !! q = w !! q) → (wf_world w → step_in A w w') → step_in A w w'.
Proof. intros H1 H2. split; [done|]. intros Hw. by apply H2. Qed.

Lemma frames_remove_entry p : A p → frames A (sys fault (remove_entry p)).
Proof.
  intros HA. apply frames_sys. intros w a w' H. apply step_in_split.
  - intros q Hq. apply remove_entry_lookup in H as ->. apply lookup_delete_ne. intros ->. done.
  - by eapply remove_entry_step.
Qed.
Lemma frames_remove_file p : A p → frames A (remove_file fault p).
Proof.
  intros HA. apply frames_sys. intros w a w' H.
  assert (remove_entry p w = Ok (a, w')) as H' by (by repeat case_match).
  apply step_in_split.
  - intros q Hq. apply remove_entry_lookup in H' as ->. apply lookup_delete_ne. intros ->. done.
  - by eapply remove_entry_step.
Qed.
Lemma frames_remove_all l : Forall A l → frames A (remove_all fault l).
Proof.
  induction 1 as [|p l Hp Hl IH]; cbn; [apply frames_ret|].
  apply frames_bind; [by apply frames_remove_entry|done].
Qed.

(** A rename replaces an entry or moves a tree, between places that are apart. *)
Lemma rename_cases src dst w u w' :
  rename_to src dst w = Ok (u, w') →
  (src = dst ∧ w' = w)
  ∨ apart src dst ∧ ∃ e pm, w !! src = Some e ∧ w !! parent dst = Some (EDir pm)
    ∧ ((∀ m, e ≠ EDir m) ∧ (∀ m, w !! dst ≠ Some (EDir m)) ∧ w' = <[dst := e]> (delete src w)
       ∨ (∃ m, e = EDir m) ∧ w' = move src dst w
         ∧ (w !! dst = None ∨ (∃ m, w !! dst = Some (EDir m)) ∧ ∀ c, w !! (dst ++ [c]) = None)).
Proof.
  unfold rename_to.
  destruct (w !! src) as [e|] eqn:Es; [|done].
  destruct (w !! parent dst) as [[pm| | |]|] eqn:Ep; try done.
  case_bool_decide as Hne; [intros; simplify_eq; by left|].
  destruct (strip src dst) eqn:E1; [done|]. destruct (strip dst src) eqn:E2; [done|].
  cbn. intros H. right. split; [done|]. exists e, pm. do 2 (split; [done|]).
  repeat case_match; simplify_eq; bool_prop; try (by left; eauto);
    right; (split; [eauto|]; split; [done|]); [|by left].
  right. split; [eauto|]. by apply children_nil.
Qed.

Lemma parent_strip p q c : strip p (q ++ [c]) = None → strip p q = None.
Proof.
  intros H. destruct (strip p q) eqn:E; [|done]. apply strip_Some in E as ->.
  by rewrite <- app_assoc, strip_app in H.
Qed.

Lemma move_wf src dst w pm :
  apart src dst → w !! parent dst = Some (EDir pm) → dst ≠ [] →
  wf_world w → wf_world (move src dst w).
Proof.
  intros Ha Hp Hd Hw p c. rewrite !lookup_move by done.
  destruct (strip dst (p ++ [c])) as [q|] eqn:E1.
  - apply strip_Some in E1. destruct q as [|d q _] using rev_ind.
    + intros _. rewrite app_nil_r in E1. subst dst. rewrite parent_snoc in Hp.
      destruct (strip (p ++ [c]) p) as [q|] eqn:E2.
      { apply strip_Some, (f_equal length) in E2. rewrite !length_app in E2. cbn in E2. lia. }
      destruct (strip src p) eqn:E3; [|eauto].
      apply strip_Some in E3 as ->. destruct Ha as [Ha _].
      by rewrite <- app_assoc, strip_app in Ha.
    + rewrite app_assoc in E1. apply app_inj_tail in E1 as [-> ->].
      rewrite strip_app, app_assoc. apply Hw.
  - destruct (strip src (p ++ [c])) as [|] eqn:E2; [intros [? ?]; done|].
    rewrite (parent_strip _ _ _ E1), (parent_strip _ _ _ E2). apply Hw.
Qed.

Lemma replace_wf src dst e w pm :
  apart src dst → w !! src = Some e → (∀ m, e ≠ EDir m) →
  w !! parent dst = Some (EDir pm) → dst ≠ [] → (∀ m, w !! dst ≠ Some (EDir m)) →
  wf_world w → wf_world (<[dst := e]> (delete src w)).
Proof.
  intros Ha Hs He Hp Hd Hnd Hw p c [e' H].
  assert (src ≠ dst) as Hne by (intros ->; destruct Ha as [Ha _]; cbn in Ha;
    pose proof (strip_app dst []) as Hx; rewrite app_nil_r in Hx; congruence).
  assert (∃ m, w !! p = Some (EDir m)) as [m Hm].
  { destruct (decide (dst = p ++ [c])) as [->|]; [rewrite parent_snoc in Hp; eauto|].
    rewrite lookup_insert_ne in H by done. apply lookup_delete_Some in H as [_ H]. eauto. }
  exists m. rewrite lookup_insert_ne by (intros ->; by apply (Hnd m)).
  rewrite lookup_delete_ne; [done|]. intros ->. simplify_eq. by apply (He m).
Qed.

Lemma rename_root src w u w' : rename_to src [] w = Ok (u, w') → src = [].
Proof.
  unfold rename_to. repeat case_match; intros; simplify_eq; bool_prop; try done.
  all: destruct src; cbn in *; intuition (try done).
Qed.

Lemma rename_step src dst w u w' :
  (∀ q, under src q → A q) → (∀ q, under dst q → A q) →
  rename_to src dst w = Ok (u, w') → step_in A w w'.
Proof.
  intros H1 H2 H. destruct (decide (dst = [])) as [->|Hd].
  { pose proof (rename_root _ _ _ _ H) as ->.
    apply rename_cases in H as [[_ ->]|[[Ha _] _]]; [apply step_in_refl|done]. }
  apply rename_cases in H as [[-> ->]|(Ha & e & pm & Hs & Hp & [(He & Hnd & ->)|([m ->] & -> & _)])].
  - apply step_in_refl.
  - split; [|by eapply replace_wf].
    intros q Hq. rewrite lookup_insert_ne, lookup_delete_ne; [done|..];
      intros <-; eauto using under_refl.
  - split; [|by eapply move_wf].
    intros q Hq. rewrite lookup_move by done.
    destruct (strip dst q) eqn:E1; [exfalso; apply Hq, H2; by eexists|].
    destruct (strip src q) eqn:E2; [exfalso; apply Hq, H1; by eexists|done].
Qed.

Lemma frames_rename src dst :
  (∀ q, under src q → A q) → (∀ q, under dst q → A q) → frames A (rename fault src dst).
Proof. intros H1 H2. apply frames_sys. intros w u w' H. exact (rename_step src dst w u w' H1 H2 H). Qed.

Lemma elem_below p w q : q ∈ below p w ↔ under p q ∧ is_Some (w !! q).
Proof.
  unfold below. rewrite merge_sort_Permutation, list_elem_of_filter, list_elem_of_fmap.
  split; intros [Hu H]; (split; [done|]).
  - destruct H as ([q' e] & -> & Hin). apply elem_of_map_to_list in Hin. eauto.
  - destruct H as [e He]. exists (q, e). split; [done|]. by apply elem_of_map_to_list.
Qed.

Lemma frames_remove_dir_all p : (∀ q, under p q → A q) → frames A (remove_dir_all fault p).
Proof.
  intros HA w. apply spec_bind. apply spec_look; [apply step_in_refl| |intros; apply step_in_refl].
  intros l Hl. simplify_eq. apply frames_remove_all.
  apply Forall_forall. intros q [Hq _]%elem_below. auto.
Qed.
End Footprints.

(** ** What a run that returns a value has done *)
Definition okspec {E A : Type} (w : World) (m : stE Fs E A) (Q : A → World → Prop) : Prop :=
  spec (λ _, True) w m (λ r w', ∀ a, r = Ok a → Q a w').

Section Okspec.
Context {E A B : Type}.

Lemma ok_ret w (a : A) Q : Q a w → okspec w (mret a : stE Fs E A) Q.
Proof. intros H. apply spec_ret. by intros ? [= <-]. Qed.
Lemma ok_lift w (r : result E A) Q : (∀ a, r = Ok a → Q a w) → okspec w (st_lift r) Q.
Proof. intros H. apply spec_lift. exact H. Qed.
Lemma ok_guard w b (e : E) Q : (b = true → Q tt w) → okspec w (st_guard b e) Q.
Proof. intros H. apply spec_guard; intros Hb [] ?; [auto|done]. Qed.
Lemma ok_bind w (m : stE Fs E A) (k : A → stE Fs E B) Q :
  okspec w m (λ a w', okspec w' (k a) Q) → okspec w (m ≫= k) Q.
Proof.
  intros H. apply spec_bind. eapply spec_mono; [apply H|done|].
  intros [a|e] w' Hk; [by apply Hk|done].
Qed.
Lemma ok_mono w (m : stE Fs E A) (Q Q' : A → World → Prop) :
  okspec w m Q → (∀ a w', Q a w' → Q' a w') → okspec w m Q'.
Proof. intros H HQ. eapply spec_mono; [apply H|done|]. cbn. eauto. Qed.
Lemma ok_map_err {F} w (f : F → E) (m : stE Fs F A) Q :
  okspec w m Q → okspec w (map_state_err f m) Q.
Proof.
  intros H. apply spec_map_err. eapply spec_mono; [apply H|done|].
  intros [a|e] w' HQ a' [= <-]; auto.
Qed.
Lemma ok_and w (m : stE Fs E A) Q I Q' :
  okspec w m Q → spec I w m Q' → okspec w m (λ a w', Q a w' ∧ Q' (Ok a) w').
Proof.
  intros H1 H2. eapply spec_mono; [apply (spec_and _ _ _ _ _ _ H1 H2)|done|].
  intros r w' [HQ HQ'] a ->. auto.
Qed.
End Okspec.

Lemma ok_sys {A : Type} fault w (f : World → result IoErr (A * World)) Q :
  (∀ a w', f w = Ok (a, w') → Q a w') → okspec w (sys fault f) Q.
Proof. intros H. apply spec_sys; [|by intros e _ a [=]]. intros a w' Hf. split; [done|]. intros ? [= <-]. auto. Qed.
Lemma ok_look {A : Type} fault w (f : World → result IoErr A) Q :
  (∀ a, f w = Ok a → Q a w) → okspec w (look fault f) Q.
Proof. intros H. apply spec_look; [done| |by intros e _ a [=]]. intros a Hf ? [= <-]. auto. Qed.
Lemma ok_attempt {E F A : Type} w (m : stE Fs E A) (Q : result E A → World → Prop) I :
  spec I w m Q → okspec w (attempt m : stE Fs F _) Q.
Proof.
  intros H. apply spec_attempt. eapply spec_mono; [apply H|done|]. by intros r w' HQ a [= <-].
Qed.
Lemma ok_change fault w p f Q :
  (∀ e e', w !! p = Some e → f e = Ok e' → Q tt (<[p := e']> w)) →
  okspec w (change fault p f) Q.
Proof. intros H. apply ok_sys. intros [] w' Hf. repeat case_match; simplify_eq. eauto. Qed.
Lemma ok_create fault w p f Q :
  (∀ pm, w !! p = None → w !! parent p = Some (EDir pm) → p ≠ [] → Q tt (<[p := f pm]> w)) →
  okspec w (sys fault (create p f)) Q.
Proof.
  intros H. apply ok_sys. unfold create. intros [] w' Hf.
  repeat case_match; simplify_eq; bool_prop. eauto.
Qed.

(** An invariant of worlds that a run establishes whatever its result. *)
Lemma frames_ok {E A : Type} (P : Path → Prop) w (m : stE Fs E A) Q :
  frames P m → okspec w m Q → okspec w m (λ a w', Q a w' ∧ step_in P w w').
Proof. intros HF HO. exact (ok_and _ _ _ _ _ HO (HF w)). Qed.

#[export] Hint Resolve frames_ret frames_lift frames_look frames_exists frames_mkdir
  frames_create_new frames_symlink frames_open_or_create frames_write_file frames_chown
  frames_chmod frames_set_acl frames_unset_acl frames_remove_file frames_rename
  frames_remove_dir_all under_refl under_app : fs.
