(* ===== verification/FsUtil.v ===== *)
(** * File system helpers of the deployer

    [crates/deploy/src/fsutil.rs] over the file system model: creating and
    cloning directory trees with owners and POSIX ACLs, syncing, the check
    for an unchanged value, generation names; and [DeployError] of
    [crates/deploy/src/deploy.rs].

    The two breadth-first loops run on fuel, the number of entries in the
    world; [OutOfFuel] is not an error of the source and never occurs. *)
From S2P Require Import Prelude BTree Text FileSystem.
#[local] Open Scope Z_scope.

Inductive DeployError :=
| Invalid (message : string)
| Io (error : IoErr)
| Context (step : string) (error : IoErr)
| Missing (message : string)
| OutOfFuel.
Definition during (step : string) (error : DeployError) : DeployError :=
  match error with
  | Io error => Context step error
  | Context inner error => Context (step +:+ ": " +:+ inner) error
  | Invalid message => Invalid (step +:+ ": " +:+ message)
  | Missing message => Missing message
  | OutOfFuel => OutOfFuel
  end.

(** The [?] of an I/O call. *)
Definition io {A : Type} (m : stE Fs IoErr A) : stE Fs DeployError A := map_state_err Io m.

(** An octal literal. *)
Definition oct (digits : list Z) : Z := foldl (λ n d, 8 * n + d) 0 digits.

Notation FS A := (stE Fs DeployError A).
Definition fail {A : Type} (message : string) : FS A := st_lift (Err (Invalid message)).

Section FsUtil.
Context (K : Kernel) (fault : nat → option string).

Definition create_directory (p : Path) (mode : Z) : FS unit :=
  _ ← io (mkdir K fault p mode);
  _ ← io (chmod K fault p mode);
  _ ← io (sync_path fault p);
  if bool_decide (p = []) then mret tt else io (sync_path fault (parent p)).

Definition open_directory (p : Path) : FS unit :=
  io (look fault (λ w, match w !! p with
                       | Some (EDir _) => Ok tt
                       | Some (ELink _) => Err (other "Too many levels of symbolic links")
                       | Some _ => Err (other "Not a directory")
                       | None => Err not_found
                       end)).

Definition MAX_ACL_BYTES : Z := 65536.
Definition mode_bits (m : Meta) : Z := Z.land (m_mode m) (oct [7; 7; 7; 7]).

Definition remove_acl (p : Path) (default : bool) : FS unit := io (unset_acl fault default p).
Definition clear_access_acl (p : Path) : FS unit := remove_acl p false.

(** One round of the loop over the two ACL names. *)
Definition copy_acl (input output : Path) (default : bool) : FS unit :=
  value ← io (get_acl fault default input);
  match value with
  | None => remove_acl output default
  | Some value =>
      if MAX_ACL_BYTES <? zlen value
      then st_lift (Err (Io (other "Numerical result out of range")))
      else io (set_acl K fault default output value)
  end.
Definition copy_owner_and_acls (input output : Path) : FS unit :=
  metadata ← io (fstat fault input);
  _ ← io (chown fault output (m_uid metadata) (m_gid metadata));
  _ ← io (chmod K fault output (mode_bits metadata));
  _ ← copy_acl input output false;
  _ ← copy_acl input output true;
  copied ← io (fstat fault output);
  _ ← st_guard (mode_bits copied =? mode_bits metadata)
        (Invalid "copied POSIX ACL mode differs from source");
  io (sync_path fault output).

Definition is_file (e : entry) : bool := match e with EFile _ _ => true | _ => false end.
Definition is_dir (e : entry) : bool := match e with EDir _ => true | _ => false end.
Definition is_link (e : entry) : bool := match e with ELink _ => true | _ => false end.

Definition copy_file (source destination : Path) : FS unit :=
  _ ← io (open_nofollow fault source);
  metadata ← io (symlink_metadata fault source);
  _ ← st_guard (is_file metadata) (Invalid "source secret is not a regular file");
  _ ← io (create_new K fault destination (oct [6; 0; 0]));
  contents ← io (read_file fault source);
  _ ← io (write_file fault destination contents);
  _ ← copy_owner_and_acls source destination;
  io (sync_path fault destination).

(** [entry?] of a directory iterator. *)
Definition next_entry : FS unit := io (look fault (λ _, Ok tt)).

Definition VERSIONS : string := ".versions.json".

(** One round of the loop over a directory's entries. *)
Definition clone_entry (from to : Path) (name : string) (dirs : list (Path * Path))
  : FS (list (Path * Path)) :=
  _ ← next_entry;
  if bool_decide (name = VERSIONS) then mret dirs
  else
    metadata ← io (symlink_metadata fault (from ++ [name]));
    let target := to ++ [name] in
    match metadata with
    | ELink _ => fail "symbolic link in current generation"
    | EDir m =>
        _ ← create_directory target (Z.land (m_mode m) (oct [7; 7; 7]));
        _ ← open_directory (from ++ [name]);
        _ ← open_directory target;
        _ ← copy_owner_and_acls (from ++ [name]) target;
        mret (dirs ++ [(from ++ [name], target)])
    | EFile _ _ =>
        _ ← copy_file (from ++ [name]) target;
        mret dirs
    | ESpecial => fail "non-file in current generation"
    end.
Fixpoint clone_entries (from to : Path) (names : list string) (dirs : list (Path * Path))
  : FS (list (Path * Path)) :=
  match names with
  | [] => mret dirs
  | name :: names =>
      dirs ← clone_entry from to name dirs;
      clone_entries from to names dirs
  end.
(** [directories[index..]]: what is still to be copied. *)
Fixpoint clone_loop (fuel : nat) (dirs : list (Path * Path)) : FS unit :=
  match dirs, fuel with
  | [], _ => mret tt
  | _, O => st_lift (Err OutOfFuel)
  | (from, to) :: dirs, S fuel =>
      names ← io (read_dir K fault from);
      dirs ← clone_entries from to names dirs;
      clone_loop fuel dirs
  end.
Definition entries_of {E : Type} : stE Fs E nat := s ← st_get; mret (size (fs_world s)).
Definition clone_tree (source destination : Path) : FS unit :=
  fuel ← entries_of;
  clone_loop fuel [(source, destination)].

(** The directory scan of [sync_tree]: what is still to be read, and what
    was read, the last first. *)
Fixpoint sync_entries (dir : Path) (names : list string) (todo : list Path) : FS (list Path) :=
  match names with
  | [] => mret todo
  | name :: names =>
      _ ← next_entry;
      metadata ← io (symlink_metadata fault (dir ++ [name]));
      todo ← match metadata with
             | ELink _ => fail "symbolic link in staged generation"
             | EDir _ => mret (todo ++ [dir ++ [name]])
             | EFile _ _ => mret todo
             | ESpecial => fail "non-file in staged generation"
             end;
      sync_entries dir names todo
  end.
Fixpoint sync_scan (fuel : nat) (todo read : list Path) : FS (list Path) :=
  match todo, fuel with
  | [], _ => mret read
  | _, O => st_lift (Err OutOfFuel)
  | dir :: todo, S fuel =>
      names ← io (read_dir K fault dir);
      todo ← sync_entries dir names todo;
      sync_scan fuel todo (dir :: read)
  end.
Fixpoint sync_each (dirs : list Path) : FS unit :=
  match dirs with
  | [] => mret tt
  | dir :: dirs => _ ← io (sync_path fault dir); sync_each dirs
  end.
Definition sync_tree (root : Path) : FS unit :=
  fuel ← entries_of;
  dirs ← sync_scan fuel [root] [];
  sync_each dirs.

Definition require_real_directory (p : Path) (label : string) : FS unit :=
  metadata ← io (symlink_metadata fault p);
  st_guard (is_dir metadata) (Invalid (label +:+ " is not a real directory")).
Definition sync_directory (p : Path) : FS unit := io (sync_path fault p).

(** The ACL's entries are 8 bytes: tag, permission and id, little-endian. *)
Fixpoint acl_group (fuel : nat) (l : list Z) : option Z :=
  match fuel with
  | O => None
  | S fuel =>
      match l with
      | t0 :: t1 :: p0 :: p1 :: _ :: _ :: _ :: _ :: rest =>
          if le_value [t0; t1] =? 4 then Some (le_value [p0; p1]) else acl_group fuel rest
      | _ => None
      end
  end.
Definition group_object (p : Path) : FS (option Z) :=
  value ← io (get_acl fault false p);
  match value with
  | None => mret None
  | Some value =>
      _ ← st_guard (zlen value <=? MAX_ACL_BYTES) (Io (other "Numerical result out of range"));
      _ ← st_guard (negb ((zlen value <? 4) || negb ((zlen value - 4) mod 8 =? 0)
                          || negb (bool_decide (take 4 value = [2; 0; 0; 0]))))
            (Invalid "carried secret has an invalid POSIX ACL");
      match acl_group (length value) (drop 4 value) with
      | Some permission => mret (Some permission)
      | None => fail "carried secret ACL has no group entry"
      end
  end.
Definition unchanged_carried (p : Path) (contents : list Z) (owner group mode : Z) : FS bool :=
  opened ← attempt (open_nofollow fault p);
  if negb (is_ok opened) then mret false
  else
    e ← io (symlink_metadata fault p);
    match e with
    | EFile m existing =>
        let actual := mode_bits m in
        if negb (m_uid m =? owner) || negb (m_gid m =? group)
           || negb (zlen existing =? zlen contents)
           || negb (Z.land actual (Z.lnot (oct [0; 7; 0])) =? Z.land mode (Z.lnot (oct [0; 7; 0])))
        then mret false
        else
          object ← group_object p;
          let group_permission :=
            match object with
            | Some permission => permission
            | None => Z.land (Z.shiftr actual 3) 7
            end in
          if negb (group_permission =? Z.land (Z.shiftr mode 3) 7) then mret false
          else
            existing ← io (read_file fault p);
            mret (bool_decide (existing = contents))
    | _ => mret false
    end.
End FsUtil.

(** ** Generation names *)
Definition all_digits (s : string) : bool := all_bytes is_ascii_digit s.
Definition valid_generation (name : string) : bool :=
  match split_once "-" name with
  | Some (time, process) =>
      (slen time =? 39) && (slen process =? 10) && all_digits time && all_digits process
  | None => false
  end.
(** [{n:0width}] *)
Definition zeros (n : nat) : string := String.string_of_list_ascii (replicate n "0"%char).
Definition pad (width : nat) (n : Z) : string :=
  zeros (width - String.length (dec n)) +:+ dec n.
Definition generation_id (nanos pid : Z) : string := pad 39 nanos +:+ "-" +:+ pad 10 pid.

(** ** Footprints *)
Lemma frames_io {T : Type} A (m : stE Fs IoErr T) : frames A m → frames A (io m).
Proof. apply frames_map_err. Qed.
Lemma frames_guard {E : Type} A b (e : E) : frames A (st_guard b e).
Proof. apply frames_lift. Qed.
#[export] Hint Resolve frames_guard : fs.

(** Runs through a computation call by call. *)
Ltac frame :=
  repeat first
    [ solve [eauto 4 with fs]
    | lazymatch goal with
      | |- frames _ (mbind _ _) => apply frames_bind; [|intros ?]
      | |- frames _ (io _) => apply frames_io; first [apply frames_look | solve [eauto with fs] | idtac]
      | |- frames _ (attempt _) => apply frames_attempt; first [apply frames_look | idtac]
      | |- frames _ (if ?b then _ else _) => destruct b
      | |- frames _ (match ?x with _ => _ end) => destruct x
      | |- frames _ (let _ := _ in _) => cbv zeta
      end ].

Section Frames.
Context (K : Kernel) (fault : nat → option string) (A : Path → Prop).

Lemma frames_calls {T : Type} (f : World → result IoErr T) : frames A (io (look fault f)).
Proof. apply frames_io, frames_look. Qed.
Lemma frames_sync_directory p : frames A (sync_directory fault p).
Proof. apply frames_calls. Qed.
Lemma frames_next_entry : frames A (next_entry fault).
Proof. apply frames_calls. Qed.
Lemma frames_open_directory p : frames A (open_directory fault p).
Proof. apply frames_calls. Qed.
Lemma frames_fail {T : Type} message : frames A (fail message : FS T).
Proof. apply frames_lift. Qed.
Lemma frames_remove_acl p d : A p → frames A (remove_acl fault p d).
Proof. intros. by apply frames_io, frames_unset_acl. Qed.
Lemma frames_entries_of {E : Type} : frames A (entries_of : stE Fs E nat).
Proof. intros w n t. cbn. split; [apply step_in_refl|]. by exists []. Qed.
Hint Resolve frames_sync_directory frames_next_entry frames_open_directory frames_fail
  frames_remove_acl frames_entries_of : fs.

Lemma frames_create_directory p mode : A p → frames A (create_directory K fault p mode).
Proof. intros. unfold create_directory. frame. Qed.
Lemma frames_copy_acl input output d : A output → frames A (copy_acl K fault input output d).
Proof. intros. unfold copy_acl. frame. Qed.
Hint Resolve frames_create_directory frames_copy_acl : fs.
Lemma frames_copy_owner_and_acls input output :
  A output → frames A (copy_owner_and_acls K fault input output).
Proof. intros. unfold copy_owner_and_acls. frame. Qed.
Hint Resolve frames_copy_owner_and_acls : fs.
Lemma frames_copy_file source destination :
  A destination → frames A (copy_file K fault source destination).
Proof. intros. unfold copy_file. frame. Qed.
Hint Resolve frames_copy_file : fs.
Lemma frames_clone_entry from to name dirs :
  A (to ++ [name]) → frames A (clone_entry K fault from to name dirs).
Proof. intros. unfold clone_entry. frame. Qed.
Lemma frames_sync_entries dir names todo : frames A (sync_entries fault dir names todo).
Proof. revert todo. induction names as [|name names IH]; intros todo; cbn [sync_entries]; frame. Qed.
Hint Resolve frames_sync_entries : fs.
Lemma frames_sync_scan fuel todo read : frames A (sync_scan K fault fuel todo read).
Proof.
  revert todo read. induction fuel as [|fuel IH]; intros [|d todo] read; cbn [sync_scan]; frame.
Qed.
Lemma frames_sync_each dirs : frames A (sync_each fault dirs).
Proof. induction dirs as [|d dirs IH]; cbn [sync_each]; frame. Qed.
Hint Resolve frames_sync_scan frames_sync_each : fs.
Lemma frames_sync_tree root : frames A (sync_tree K fault root).
Proof. unfold sync_tree. frame. Qed.
Lemma frames_require_real_directory p label : frames A (require_real_directory fault p label).
Proof. unfold require_real_directory. frame. Qed.
Lemma frames_group_object p : frames A (group_object fault p).
Proof. unfold group_object. frame. Qed.
Hint Resolve frames_group_object : fs.
Lemma frames_unchanged_carried p contents owner group mode :
  frames A (unchanged_carried fault p contents owner group mode).
Proof. unfold unchanged_carried. frame. Qed.
End Frames.
#[export] Hint Resolve frames_create_directory frames_copy_owner_and_acls frames_copy_file
  frames_sync_tree frames_require_real_directory frames_sync_directory frames_next_entry
  frames_open_directory frames_unchanged_carried frames_entries_of frames_fail
  frames_remove_acl : fs.

(** A footprint with what is known of the value returned. *)
Definition framed {E T : Type} (A : Path → Prop) (m : stE Fs E T) (P : T → Prop) : Prop :=
  ∀ w, spec (step_in A w) w m (λ r w', step_in A w w' ∧ ∀ a, r = Ok a → P a).

Lemma framed_frames {E T : Type} A (m : stE Fs E T) P : framed A m P → frames A m.
Proof. intros H w. eapply spec_mono; [apply H|done|naive_solver]. Qed.
Lemma frames_framed {E T : Type} A (m : stE Fs E T) : frames A m → framed A m (λ _, True).
Proof. intros H w. eapply spec_mono; [apply H|done|naive_solver]. Qed.
Lemma framed_ret {E T : Type} A (a : T) (P : T → Prop) : P a → framed A (mret a : stE Fs E T) P.
Proof. intros H w. apply spec_ret. split; [apply step_in_refl|]. by intros ? [= <-]. Qed.
Lemma framed_bind {E T U : Type} A (m : stE Fs E T) (k : T → stE Fs E U) P Q :
  framed A m P → (∀ a, P a → framed A (k a) Q) → framed A (m ≫= k) Q.
Proof.
  intros Hm Hk w. apply spec_bind. eapply spec_mono; [apply Hm|done|].
  intros [a|e] w1 [H1 HP]; [|naive_solver].
  eapply spec_mono; [apply (Hk a); by apply HP|..]; cbn.
  - intros. by eapply step_in_trans.
  - intros r w' [H2 HQ]. split; [by eapply step_in_trans|done].
Qed.
Lemma framed_after {E T U : Type} A (m : stE Fs E T) (k : T → stE Fs E U) Q :
  frames A m → (∀ a, framed A (k a) Q) → framed A (m ≫= k) Q.
Proof. intros Hm Hk. eapply framed_bind; [by apply frames_framed|auto]. Qed.
Lemma framed_mono {E T : Type} A (m : stE Fs E T) (P Q : T → Prop) :
  framed A m P → (∀ a, P a → Q a) → framed A m Q.
Proof. intros H HQ w. eapply spec_mono; [apply H|done|naive_solver]. Qed.

(** ** Cloning copies a tree exactly *)
Definition meta_of (e : entry) : option Meta :=
  match e with EDir m | EFile m _ => Some m | _ => None end.
Definition with_meta (m : Meta) (e : entry) : entry :=
  match e with EDir _ => EDir m | EFile _ c => EFile m c | e => e end.

(** Modes are permission bits, and the kernel keeps them so. *)
Definition mode_ok (mode : Z) : Prop := 0 ≤ mode ≤ 4095.
Definition entry_ok (o : option entry) : Prop :=
  ∀ e m, o = Some e → meta_of e = Some m → mode_ok (m_mode m).
Definition modes_ok (p : Path) (w : World) : Prop := ∀ q, entry_ok (w !! (p ++ q)).
Record kernel_ok (K : Kernel) : Prop := {
  k_acl_mode_ok v mode : mode_ok mode → mode_ok (k_acl_mode K v mode);
  k_readdir_ok l : k_readdir K l ≡ₚ l;
}.

Lemma mode_bits_id m : mode_ok (m_mode m) → mode_bits m = m_mode m.
Proof.
  intros H. unfold mode_bits, mode_ok in *. change (oct [7; 7; 7; 7]) with (Z.ones 12).
  rewrite Z.land_ones by lia. apply Z.mod_small. lia.
Qed.
Lemma mode_bits_ok m : mode_ok (mode_bits m).
Proof.
  unfold mode_bits, mode_ok. change (oct [7; 7; 7; 7]) with (Z.ones 12).
  rewrite Z.land_ones by lia. pose proof (Z.mod_pos_bound (m_mode m) (2 ^ 12)). lia.
Qed.

Section Clone.
Context (K : Kernel) (fault : nat → option string) (HK : kernel_ok K).

Lemma ok_io {T : Type} w (m : stE Fs IoErr T) (Q : T → World → Prop) : okspec w m Q → okspec w (io m) Q.
Proof. apply ok_map_err. Qed.

Lemma ok_sync w p (Q : unit → World → Prop) : Q tt w → okspec w (io (sync_path fault p)) Q.
Proof. intros H. apply ok_io, ok_look. by intros []. Qed.

Lemma ok_create_directory w p mode (Q : unit → World → Prop) :
  (∀ pm m', w !! p = None → w !! parent p = Some (EDir pm) → p ≠ [] → m_mode m' = mode →
     Q tt (<[p := EDir m']> w)) →
  okspec w (create_directory K fault p mode) Q.
Proof.
  intros HQ. apply ok_bind, ok_io, ok_create. intros pm Hn Hp Hne.
  apply ok_bind, ok_io, ok_change. intros e e' He Hf.
  rewrite lookup_insert_eq in He. simplify_eq/=. rewrite insert_insert_eq.
  apply ok_bind, ok_sync. rewrite bool_decide_eq_false_2 by done. apply ok_sync.
  eapply HQ; eauto.
Qed.

(** What the calls on owner, mode and ACLs have made of the output. *)
Definition become (output : Path) (e : entry) (w : World) (m : Meta) : World :=
  <[output := with_meta m e]> w.

Lemma ok_meta w p (f : Meta → Meta) e m (Q : unit → World → Prop) :
  is_some (meta_of e) = true →
  Q tt (become p e w (f m)) →
  okspec (become p e w m) (change fault p (on_meta f)) Q.
Proof.
  intros He HQ. apply ok_change. intros e1 e2 H1 H2. unfold become in *.
  rewrite lookup_insert_eq in H1. simplify_eq. rewrite insert_insert_eq.
  destruct e; cbn in *; try done; by simplify_eq/=.
Qed.

Lemma ok_copy_acl input output (d : bool) w e e1 m m1 (Q : unit → World → Prop) :
  input ≠ output → w !! input = Some e1 → meta_of e1 = Some m1 → is_some (meta_of e) = true →
  (∀ m', m_uid m' = m_uid m → m_gid m' = m_gid m → (mode_ok (m_mode m) → mode_ok (m_mode m')) →
     (if d then m_default_acl m' = m_default_acl m1 ∧ m_acl m' = m_acl m
      else m_acl m' = m_acl m1 ∧ m_default_acl m' = m_default_acl m) →
     Q tt (become output e w m')) →
  okspec (become output e w m) (copy_acl K fault input output d) Q.
Proof.
  intros Hne H1 Hm1 He HQ. apply ok_bind, ok_io, ok_look. intros value Hv.
  unfold become in Hv at 1. rewrite lookup_insert_ne in Hv by done. rewrite H1 in Hv.
  destruct e1; cbn in *; simplify_eq/=.
  all: destruct (if d then _ else _) as [v|] eqn:Ev.
  all: try (destruct (MAX_ACL_BYTES <? zlen v); [by apply ok_lift|]).
  all: apply ok_io, ok_meta; [done|]; apply HQ; cbn; try done.
  all: try (destruct d; cbn; [done|]; intros; by apply k_acl_mode_ok).
  all: destruct d; cbn; by split.
Qed.

Lemma ok_copy_owner_and_acls input output w (Q : unit → World → Prop) :
  input ≠ output →
  entry_ok (w !! input) →
  (∀ e1 m1 e, w !! input = Some e1 → meta_of e1 = Some m1 → w !! output = Some e →
     Q tt (<[output := with_meta m1 e]> w)) →
  okspec w (copy_owner_and_acls K fault input output) Q.
Proof.
  intros Hne Hw HQ. apply ok_bind, ok_io, ok_look. intros m1 H1.
  destruct (w !! input) as [e1|] eqn:Ei; [|done]. cbn in H1.
  assert (meta_of e1 = Some m1) as Hm1 by (destruct e1; cbn in *; by simplify_eq).
  pose proof (Hw _ _ eq_refl Hm1) as Hr.
  apply ok_bind, ok_io, ok_change. intros e e' He Hf.
  assert (is_some (meta_of e) = true ∧ ∃ m, e' = with_meta m e ∧ m_uid m = m_uid m1
          ∧ m_gid m = m_gid m1) as (Hme & m & -> & Hu & Hg).
  { destruct e; cbn in *; simplify_eq/=; eauto. }
  apply ok_bind, ok_io, ok_meta; [done|].
  apply ok_bind, (ok_copy_acl _ _ _ _ _ _ _ _ _ Hne Ei Hm1 Hme). cbn. intros m2 Hu2 Hg2 Hr2 [Ha2 Hd2].
  apply ok_bind, (ok_copy_acl _ _ _ _ _ _ _ _ _ Hne Ei Hm1 Hme). cbn. intros m3 Hu3 Hg3 Hr3 [Ha3 Hd3].
  apply ok_bind, ok_io, ok_look. intros copied Hc. unfold become in Hc at 1.
  rewrite lookup_insert_eq in Hc. assert (copied = m3) as ->.
  { destruct e; cbn in *; try done; by simplify_eq/=. }
  apply ok_bind, ok_guard. intros Hmode. apply Z.eqb_eq in Hmode. apply ok_sync.
  specialize (HQ _ _ _ eq_refl Hm1 He). unfold become.
  assert (m3 = m1) as ->; [|done].
  rewrite !mode_bits_id in Hmode; [|done|apply Hr3, Hr2, mode_bits_ok].
  destruct m1, m3; cbn in *. congruence.
Qed.

Lemma ok_copy_file source destination w (Q : unit → World → Prop) :
  source ≠ destination → entry_ok (w !! source) →
  (∀ m c, w !! source = Some (EFile m c) → w !! destination = None →
     Q tt (<[destination := EFile m c]> w)) →
  okspec w (copy_file K fault source destination) Q.
Proof.
  intros Hne Hw HQ. apply ok_bind, ok_io, ok_look. intros _ _.
  apply ok_bind, ok_io, ok_look. intros e He.
  destruct (w !! source) as [e1|] eqn:Es; [|done]. injection He as [= <-].
  apply ok_bind, ok_guard. intros Hf. destruct e1 as [|m c| |]; try done.
  apply ok_bind, ok_io, ok_create. intros pm Hn Hp Hd.
  apply ok_bind, ok_io, ok_look. intros c' Hc. rewrite lookup_insert_ne, Es in Hc by done.
  injection Hc as [= <-].
  apply ok_bind, ok_io, ok_change. intros e e' He Hf'. rewrite lookup_insert_eq in He.
  simplify_eq/=. rewrite insert_insert_eq.
  apply ok_bind, ok_copy_owner_and_acls; [done|..].
  - by rewrite lookup_insert_ne, Es by done.
  - intros e1 m1 e. rewrite lookup_insert_ne, Es, lookup_insert_eq by done.
    intros. simplify_eq/=. rewrite insert_insert_eq. apply ok_sync. by apply HQ.
Qed.

Lemma ok_clone_entry from to name dirs w (Q : list (Path * Path) → World → Prop) :
  from ≠ to → entry_ok (w !! (from ++ [name])) →
  (name = VERSIONS → Q dirs w) →
  (∀ e, name ≠ VERSIONS → w !! (from ++ [name]) = Some e → is_some (meta_of e) = true →
     w !! (to ++ [name]) = None →
     Q (dirs ++ if is_dir e then [(from ++ [name], to ++ [name])] else [])
       (<[to ++ [name] := e]> w)) →
  okspec w (clone_entry K fault from to name dirs) Q.
Proof.
  intros Hne Hw HV HQ.
  assert (from ++ [name] ≠ to ++ [name]) as Hne' by (by intros [? _]%app_inj_tail).
  apply ok_bind, ok_io, ok_look. intros _ _.
  case_bool_decide as Hname; [by apply ok_ret, HV|].
  apply ok_bind, ok_io, ok_look. intros e He.
  destruct (w !! (from ++ [name])) as [e1|] eqn:Es; [|done]. injection He as [= <-].
  specialize (HQ _ Hname eq_refl). cbv zeta.
  destruct e1 as [m|m c| |]; [| |by apply ok_lift..]; cbn in HQ.
  - apply ok_bind, ok_create_directory. intros pm m' Hn Hp Hd Hm'.
    apply ok_bind, ok_io, ok_look. intros _ _.
    apply ok_bind, ok_io, ok_look. intros _ _.
    apply ok_bind, ok_copy_owner_and_acls; [done|..].
    + by rewrite lookup_insert_ne, Es by done.
    + intros e1 m1 e. rewrite lookup_insert_ne, Es, lookup_insert_eq by done.
      intros. simplify_eq/=. rewrite insert_insert_eq. apply ok_ret. by apply HQ.
  - apply ok_bind, ok_copy_file; [done|by rewrite Es|]. intros m1 c1 H1 H2. simplify_eq.
    apply ok_ret. specialize (HQ eq_refl H2). by rewrite app_nil_r in HQ.
Qed.

Definition dir_at (w : World) (p : Path) : bool :=
  match w !! p with Some (EDir _) => true | _ => false end.
(** The names whose entries are directories to go on with. *)
Definition subdirs (from : Path) (w : World) (names : list string) : list string :=
  filter (λ c, c ≠ VERSIONS ∧ dir_at w (from ++ [c]) = true) names.

Lemma subdirs_ext from w w' names :
  (∀ c, w !! (from ++ [c]) = w' !! (from ++ [c])) → subdirs from w names = subdirs from w' names.
Proof. intros H. apply list_filter_iff. intros c. unfold dir_at. by rewrite H. Qed.

Lemma ok_clone_entries from to names dirs w :
  apart from to → (∀ c, entry_ok (w !! (from ++ [c]))) → NoDup names →
  okspec w (clone_entries K fault from to names dirs) (λ dirs' w',
    (∀ q, (∀ c, c ∈ names → c ≠ VERSIONS → q ≠ to ++ [c]) → w' !! q = w !! q)
    ∧ (∀ c, c ∈ names → c ≠ VERSIONS → w' !! (to ++ [c]) = w !! (from ++ [c]))
    ∧ dirs' = dirs ++ ((λ c, (from ++ [c], to ++ [c])) <$> subdirs from w names)).
Proof.
  intros Ha. revert dirs w. induction names as [|n names IH]; intros dirs w Hw Hnd.
  { apply ok_ret. split_and!; [done|set_solver|]. cbn. by rewrite app_nil_r. }
  apply NoDup_cons in Hnd as [Hn Hnd].
  assert (from ≠ to) as Hne.
  { intros ->. destruct Ha as [Ha _]. pose proof (strip_app to []) as H.
    rewrite app_nil_r in H. congruence. }
  apply ok_bind, ok_clone_entry; [done|done|..].
  - intros ->. eapply ok_mono; [by apply IH|]. intros dirs' w' (H1 & H2 & H3).
    split_and!; [|set_solver|].
    + intros q Hq. apply H1. set_solver.
    + rewrite H3. unfold subdirs. rewrite filter_cons_False by tauto. done.
  - intros e Hv He Hm Ht. eapply ok_mono; [apply IH; [|done]|].
    { intros c. rewrite lookup_insert_ne; [done|]. intros [-> _]%app_inj_tail. done. }
    assert (∀ c, (<[to ++ [n] := e]> w : World) !! (from ++ [c]) = w !! (from ++ [c])) as Hfrom.
    { intros c. apply lookup_insert_ne. intros [-> _]%app_inj_tail. done. }
    intros dirs' w' (H1 & H2 & H3). split_and!.
    + intros q Hq. rewrite H1 by set_solver. apply lookup_insert_ne. intros <-.
      by apply (Hq n); [set_solver|..].
    + intros c [->|Hc]%elem_of_cons Hcv; [|rewrite H2, Hfrom; done].
      rewrite H1; [by rewrite lookup_insert_eq|].
      intros c Hc _ [_ <-]%app_inj_tail. done.
    + rewrite H3, (subdirs_ext from _ w names Hfrom). unfold subdirs. rewrite filter_cons.
      assert (dir_at w (from ++ [n]) = is_dir e) as -> by (unfold dir_at; rewrite He; by destruct e).
      destruct (is_dir e); [rewrite decide_True by done; by rewrite <- app_assoc|].
      rewrite decide_False by naive_solver. by rewrite app_nil_r.
Qed.
End Clone.

(** ** The loops end within their fuel *)
Definition total {T : Type} (m : FS T) : Prop :=
  ∀ w, spec (λ _, True) w m (λ r _, r ≠ Err OutOfFuel).

Lemma total_ret {T : Type} (a : T) : total (mret a).
Proof. intros w. by apply spec_ret. Qed.
Lemma total_lift {T : Type} (r : result DeployError T) : r ≠ Err OutOfFuel → total (st_lift r).
Proof. intros H w. by apply spec_lift. Qed.
Lemma total_guard b e : e ≠ OutOfFuel → total (st_guard b e).
Proof. intros H. apply total_lift. destruct b; cbn; congruence. Qed.
Lemma total_fail {T : Type} message : total (fail message : FS T).
Proof. by apply total_lift. Qed.
Lemma total_io {T : Type} (m : stE Fs IoErr T) A : frames A m → total (io m).
Proof.
  intros Hm w. apply spec_map_err. eapply spec_mono; [apply Hm|done|].
  by intros [|] w' _.
Qed.
Lemma total_bind {T U : Type} (m : FS T) (k : T → FS U) :
  total m → (∀ a, total (k a)) → total (m ≫= k).
Proof.
  intros Hm Hk w. apply spec_bind. eapply spec_mono; [apply Hm|done|].
  intros [a|e] w' H; [apply Hk|congruence].
Qed.
Lemma total_attempt {E T : Type} A (m : stE Fs E T) : frames A m → total (attempt m).
Proof. intros Hm w. apply spec_attempt. eapply spec_mono; [apply Hm|done|]. done. Qed.

(** Every path may change: the weakest footprint. *)
Definition everywhere : Path → Prop := λ _, True.
Lemma everywhere_any p : everywhere p.
Proof. exact I. Qed.
#[export] Hint Resolve total_ret total_fail everywhere_any : fs.

Ltac total :=
  repeat first
    [ solve [eauto 4 with fs]
    | lazymatch goal with
      | |- total (mbind _ _) => apply total_bind; [|intros ?]
      | |- total (io _) => apply (total_io _ everywhere); first
          [apply frames_look | solve [eauto with fs]]
      | |- total (st_guard _ _) => apply total_guard; done
      | |- total (st_lift (Err _)) => apply total_lift; done
      | |- total (if ?b then _ else _) => destruct b
      | |- total (match ?x with _ => _ end) => destruct x
      | |- total (let _ := _ in _) => cbv zeta
      end ].

Section Total.
Context (K : Kernel) (fault : nat → option string).

Lemma total_calls {T : Type} (f : World → result IoErr T) : total (io (look fault f)).
Proof. apply (total_io _ everywhere), frames_look. Qed.
Lemma total_create_directory p mode : total (create_directory K fault p mode).
Proof. unfold create_directory. total. Qed.
Lemma total_next_entry : total (next_entry fault).
Proof. apply total_calls. Qed.
Lemma total_open_directory p : total (open_directory fault p).
Proof. apply total_calls. Qed.
Lemma total_remove_acl p d : total (remove_acl fault p d).
Proof. unfold remove_acl. total. Qed.
Hint Resolve total_create_directory total_next_entry total_open_directory total_remove_acl : fs.
Lemma total_copy_acl input output d : total (copy_acl K fault input output d).
Proof. unfold copy_acl. total. Qed.
Hint Resolve total_copy_acl : fs.
Lemma total_copy_owner_and_acls input output : total (copy_owner_and_acls K fault input output).
Proof. unfold copy_owner_and_acls. total. Qed.
Hint Resolve total_copy_owner_and_acls : fs.
Lemma total_copy_file source destination : total (copy_file K fault source destination).
Proof. unfold copy_file. total. Qed.
Hint Resolve total_copy_file : fs.
Lemma total_clone_entry from to name dirs : total (clone_entry K fault from to name dirs).
Proof. unfold clone_entry. total. Qed.
Lemma total_clone_entries from to names dirs : total (clone_entries K fault from to names dirs).
Proof.
  revert dirs. induction names as [|name names IH]; intros dirs; cbn [clone_entries]; [total|].
  apply total_bind; [apply total_clone_entry|done].
Qed.
Lemma total_sync_entries dir names todo : total (sync_entries fault dir names todo).
Proof. revert todo. induction names as [|name names IH]; intros todo; cbn [sync_entries]; total. Qed.
Lemma total_sync_each dirs : total (sync_each fault dirs).
Proof. induction dirs as [|dir dirs IH]; cbn [sync_each]; total. Qed.
End Total.

(** The number of entries at and below [p]. *)
Definition weight (W : World) (p : Path) : nat :=
  length (filter (under p) (map_to_list W).*1).
Definition weights (W : World) (ps : list Path) : nat := sum_list (weight W <$> ps).

Lemma sum_list_add {A : Type} (f g : A → nat) l :
  sum_list ((λ x, f x + g x)%nat <$> l) = (sum_list (f <$> l) + sum_list (g <$> l))%nat.
Proof. induction l as [|x l IH]; cbn in *; lia. Qed.

Lemma sum_list_zero {A : Type} (f : A → nat) l : (∀ x, x ∈ l → f x = 0%nat) → sum_list (f <$> l) = 0%nat.
Proof.
  induction l as [|x l IH]; cbn; intros H; [done|]. rewrite H, IH by set_solver. done.
Qed.

Lemma length_filter_cons {A : Type} (P : A → Prop) `{∀ x, Decision (P x)} x l :
  length (filter P (x :: l)) = ((if decide (P x) then 1 else 0) + length (filter P l))%nat.
Proof. rewrite filter_cons. by destruct (decide (P x)). Qed.

Lemma under_child p c d r : under (p ++ [c]) (p ++ d :: r) ↔ c = d.
Proof.
  rewrite under_spec. split.
  - intros [x Hx]. rewrite <- app_assoc in Hx. apply app_inv_head in Hx. cbn in Hx. congruence.
  - intros ->. exists r. by rewrite <- app_assoc.
Qed.

Lemma count_key p names k :
  NoDup names →
  (sum_list ((λ c, if decide (under (p ++ [c]) k) then 1 else 0) <$> names)
   + (if decide (k = p) then 1 else 0) ≤ if decide (under p k) then 1 else 0)%nat.
Proof.
  intros Hn. destruct (strip p k) as [[|d r]|] eqn:E.
  - apply strip_Some in E as ->. rewrite app_nil_r.
    rewrite sum_list_zero; [by rewrite !decide_True by (done || apply under_refl)|].
    intros c _. apply decide_False. rewrite under_spec. intros [x Hx].
    apply (f_equal length) in Hx. rewrite !length_app in Hx. cbn in Hx. lia.
  - apply strip_Some in E as ->. rewrite (decide_True _ _ (under_app p (d :: r))).
    rewrite (decide_False (P:=p ++ d :: r = p)).
    2:{ intros Hx. apply (f_equal length) in Hx. rewrite length_app in Hx. cbn in Hx. lia. }
    assert ((λ c, if decide (under (p ++ [c]) (p ++ d :: r)) then 1 else 0)%nat <$> names
            = (λ c, if decide (c = d) then 1 else 0)%nat <$> names) as ->.
    { apply list_fmap_ext. intros i c _. apply decide_ext, under_child. }
    induction Hn as [|c names Hc Hn IH]; cbn in *; [lia|].
    destruct (decide (c = d)) as [->|]; [|lia].
    rewrite sum_list_zero; [lia|]. intros c Hc'. apply decide_False. congruence.
  - rewrite sum_list_zero; [|intros c _; apply decide_False; intros [x Hx];
      by rewrite (strip_None_under _ _ E) in Hx].
    rewrite (decide_False (P:=k = p)); [lia|]. intros ->.
    pose proof (strip_app p []) as Hx. rewrite app_nil_r in Hx. congruence.
Qed.

Lemma count_split p names (ks : list Path) :
  NoDup names →
  (sum_list ((λ c, length (filter (under (p ++ [c])) ks)) <$> names)
   + length (filter (λ k, k = p) ks) ≤ length (filter (under p) ks))%nat.
Proof.
  intros Hn. induction ks as [|k ks IH].
  { rewrite sum_list_zero by done. cbn. lia. }
  rewrite !length_filter_cons.
  assert ((λ c, length (filter (under (p ++ [c])) (k :: ks))) <$> names
    = (λ c, (if decide (under (p ++ [c]) k) then 1 else 0)
            + length (filter (under (p ++ [c])) ks))%nat <$> names) as ->.
  { apply list_fmap_ext. intros i c _. apply length_filter_cons. }
  rewrite sum_list_add. pose proof (count_key p names k Hn). lia.
Qed.

Lemma weights_children W p names :
  NoDup names → is_Some (W !! p) →
  (weights W ((λ c, p ++ [c]) <$> names) + 1 ≤ weight W p)%nat.
Proof.
  intros Hn [e He]. unfold weights, weight. rewrite <- list_fmap_compose.
  pose proof (count_split p names (map_to_list W).*1 Hn) as H.
  assert (1 ≤ length (filter (λ k, k = p) (map_to_list W).*1))%nat; [|unfold compose; lia].
  assert (p ∈ filter (λ k, k = p) (map_to_list W).*1) as Hin.
  { apply list_elem_of_filter. split; [done|]. apply list_elem_of_fmap. exists (p, e).
    split; [done|]. by apply elem_of_map_to_list. }
  destruct (filter _ _); [set_solver|cbn; lia].
Qed.

Lemma weights_app W ps qs : weights W (ps ++ qs) = (weights W ps + weights W qs)%nat.
Proof. unfold weights. rewrite fmap_app. induction (weight W <$> ps); cbn in *; lia. Qed.

Lemma weight_size W p : (weight W p ≤ size W)%nat.
Proof.
  unfold weight. rewrite <- (length_map_to_list W), <- (length_fmap fst).
  apply length_filter.
Qed.

(** ** The loop of [clone_tree] *)
(** [q] lies properly below [p]. *)
Definition below_dir (p q : Path) : Prop :=
  match strip p q with Some (_ :: _) => True | _ => False end.
#[export] Instance below_dir_dec p q : Decision (below_dir p q).
Proof. unfold below_dir. repeat case_match; apply _. Defined.

Lemma below_dir_spec p q : below_dir p q ↔ ∃ c r, q = p ++ c :: r.
Proof.
  unfold below_dir. split.
  - destruct (strip p q) as [[|c r]|] eqn:E; try done. apply strip_Some in E as ->. eauto.
  - intros (c & r & ->). by rewrite strip_app.
Qed.

Definition awaiting (ds : list Path) (q : Path) : Prop := Exists (λ d, below_dir d q) ds.
Lemma awaiting_spec ds q : awaiting ds q ↔ ∃ d c r, d ∈ ds ∧ q = d ++ c :: r.
Proof.
  unfold awaiting. rewrite Exists_exists. setoid_rewrite below_dir_spec. naive_solver.
Qed.
Definition clean (q : Path) : Prop := VERSIONS ∉ q.

Lemma wf_ancestor w p c r :
  wf_world w → is_Some (w !! (p ++ c :: r)) → ∃ m, w !! p = Some (EDir m).
Proof.
  intros Hw. revert c. induction r as [|d r IH] using rev_ind; intros c H; [by eapply Hw|].
  assert (p ++ c :: r ++ [d] = (p ++ c :: r) ++ [d]) as E by by rewrite <- app_assoc.
  rewrite E in H. apply Hw in H as [m Hm]. eauto.
Qed.

Lemma apart_children p c d : c ≠ d → apart (p ++ [c]) (p ++ [d]).
Proof.
  intros H. split; apply eq_None_not_Some; intros [r Hr]; apply strip_Some in Hr;
    rewrite <- app_assoc in Hr; apply app_inv_head in Hr; cbn in Hr; congruence.
Qed.

Lemma apart_extend p q r : apart p q → apart p (q ++ r).
Proof. intros H. split; [by apply apart_app|]. destruct H as [_ H]. by apply strip_None_under. Qed.

Lemma apart_prefix p c r d x s : p ++ c :: r = d ++ x :: s → apart p d → False.
Proof.
  intros H Ha. pose proof (apart_app _ _ (x :: s) Ha) as E. rewrite <- H, strip_app in E. done.
Qed.

Section CloneLoop.
Context (K : Kernel) (fault : nat → option string) (HK : kernel_ok K).
Context (W : World) (src dst : Path) (Hwf : wf_world W) (Hapart : apart src dst).
Context (Hm : modes_ok src W).

(** The directories still to be copied are [ds], below [src] and [dst]. *)
Record clone_inv (w : World) (ds : list Path) : Prop := {
  ci_outside q : strip dst q = None → w !! q = W !! q;
  ci_dirs d : d ∈ ds → clean d ∧ dir_at W (src ++ d) = true;
  ci_nodup : NoDup ds;
  ci_apart d d' : d ∈ ds → d' ∈ ds → d ≠ d' → apart d d';
  ci_done q : q ≠ [] → clean q → ¬ awaiting ds q → w !! (dst ++ q) = W !! (src ++ q);
  ci_todo q : q ≠ [] → ¬ clean q ∨ awaiting ds q → w !! (dst ++ q) = None;
}.

Lemma source_outside q : strip dst (src ++ q) = None.
Proof. by apply apart_app, apart_sym. Qed.

Definition pairs (ds : list Path) : list (Path * Path) := (λ d, (src ++ d, dst ++ d)) <$> ds.

Lemma clone_step w w1 ds d names :
  clone_inv w (d :: ds) → NoDup names →
  (∀ c, c ∈ names ↔ is_Some (W !! (src ++ d ++ [c]))) →
  (∀ q, (∀ c, c ∈ names → c ≠ VERSIONS → q ≠ (dst ++ d) ++ [c]) → w1 !! q = w !! q) →
  (∀ c, c ∈ names → c ≠ VERSIONS → w1 !! ((dst ++ d) ++ [c]) = W !! (src ++ d ++ [c])) →
  clone_inv w1 (ds ++ ((λ c, d ++ [c]) <$> subdirs (src ++ d) W names)).
Proof.
  intros [Hout Hdirs Hnd Hap Hdone Htodo] Hnn Hnames Hsame Hnew.
  apply NoDup_cons in Hnd as [Hd Hnd].
  destruct (Hdirs d) as [Hclean Hdir]; [set_solver|].
  set (new := (λ c, d ++ [c]) <$> subdirs (src ++ d) W names).
  assert (∀ q, q ∈ new ↔ ∃ c, q = d ++ [c] ∧ c ∈ names ∧ c ≠ VERSIONS
            ∧ dir_at W (src ++ d ++ [c]) = true) as Hnewds.
  { intros q. unfold new, subdirs. rewrite list_elem_of_fmap.
    setoid_rewrite list_elem_of_filter. setoid_rewrite <- app_assoc. naive_solver. }
  assert (∀ d', d' ∈ ds → apart d d') as Hapd.
  { intros d' H. apply Hap; [set_solver..|]. congruence. }
  assert (∀ q, ¬ (∃ c, q = d ++ [c] ∧ c ∈ names ∧ c ≠ VERSIONS) →
            w1 !! (dst ++ q) = w !! (dst ++ q)) as Hkeep.
  { intros q Hq. apply Hsame. intros c Hc Hv E. apply Hq. exists c.
    rewrite <- app_assoc in E. by apply app_inv_head in E. }
  assert (∀ c, c ∈ names → c ≠ VERSIONS → clean (d ++ [c])) as Hcl.
  { intros c _ Hv. unfold clean in *. set_solver. }
  constructor.
  - intros q Hq. rewrite Hsame; [by apply Hout|]. intros c _ _ ->.
    by rewrite <- app_assoc, strip_app in Hq.
  - intros q [Hq|(c & -> & Hc & Hv & Hdc)%Hnewds]%elem_of_app; [apply Hdirs; set_solver|]. auto.
  - apply NoDup_app. split_and!; [done| |].
    + intros q Hq (c & -> & _)%Hnewds. destruct (Hapd _ Hq) as [E _]. by rewrite strip_app in E.
    + apply NoDup_fmap_2; [by intros ? ? [_ ?]%app_inj_tail|]. by apply NoDup_filter.
  - intros a b [Ha|(c & -> & _)%Hnewds]%elem_of_app [Hb|(c' & -> & _)%Hnewds]%elem_of_app Hne.
    + apply Hap; [set_solver..|done].
    + apply apart_extend, apart_sym, Hapd. done.
    + apply apart_sym, apart_extend, apart_sym, Hapd. done.
    + apply apart_children. congruence.
  - intros q Hq Hc Hp. destruct (decide (awaiting (d :: ds) q)) as [Hold|Hold].
    + apply awaiting_spec in Hold as (d' & c & r & Hin & ->).
      apply elem_of_cons in Hin as [->|Hin]; [|exfalso; apply Hp, awaiting_spec;
        exists d', c, r; set_solver].
      assert (c ≠ VERSIONS) as Hv by (intros ->; apply Hc; set_solver).
      destruct r as [|x r].
      * destruct (W !! (src ++ d ++ [c])) as [e|] eqn:E.
        -- assert (c ∈ names) as Hcn by (apply Hnames; eauto).
           rewrite app_assoc, Hnew, E; done.
        -- rewrite Hkeep; [rewrite Htodo; [done|done|right]|].
           ++ apply awaiting_spec. exists d, c, []. set_solver.
           ++ intros (c' & E2 & Hc' & _). apply app_inj_tail in E2 as [_ <-].
              apply Hnames in Hc' as [? ?]. congruence.
      * rewrite Hkeep.
        2:{ intros (c' & E2 & _). apply app_inv_head in E2. done. }
        rewrite Htodo; [|done|right; apply awaiting_spec; exists d, c, (x :: r); set_solver].
        symmetry. apply eq_None_not_Some. intros H.
        assert (src ++ d ++ c :: x :: r = (src ++ d ++ [c]) ++ x :: r) as E
          by by rewrite <- !app_assoc.
        rewrite E in H. apply wf_ancestor in H as [m Hdirc]; [|done].
        apply Hp, awaiting_spec. exists (d ++ [c]), x, r. split; [|by rewrite <- app_assoc].
        apply elem_of_app. right. apply Hnewds. exists c. split_and!; try done.
        -- apply Hnames. eauto.
        -- unfold dir_at. by rewrite Hdirc.
    + rewrite Hkeep; [auto|]. intros (c & -> & _). apply Hold, awaiting_spec.
      exists d, c, []. set_solver.
  - intros q Hq Hor. rewrite Hkeep; [apply Htodo; [done|]|].
    + destruct Hor as [Hor|Hor]; [by left|right].
      apply awaiting_spec in Hor as (d' & c & r & [Hin|Hin]%elem_of_app & ->).
      * apply awaiting_spec. exists d', c, r. set_solver.
      * apply Hnewds in Hin as (c' & -> & _). apply awaiting_spec.
        exists d, c', (c :: r). split; [set_solver|by rewrite <- app_assoc].
    + intros (c & -> & Hc & Hv). destruct Hor as [Hor|Hor]; [by apply Hor, Hcl|].
      apply awaiting_spec in Hor as (d' & c' & r & [Hin|Hin]%elem_of_app & E).
      * eapply apart_prefix; [exact E|]. auto.
      * apply Hnewds in Hin as (c2 & -> & _). rewrite <- app_assoc in E.
        apply app_inv_head in E. done.
Qed.

Lemma clone_loop_ok fuel ds w :
  clone_inv w ds → (weights W ((app src) <$> ds) ≤ fuel)%nat →
  spec (λ _, True) w (clone_loop K fault fuel (pairs ds)) (λ r w',
    r ≠ Err OutOfFuel ∧ (r = Ok tt → clone_inv w' [])).
Proof.
  revert ds w. induction fuel as [|fuel IH]; intros [|d ds] w Hinv Hfuel.
  - by apply spec_ret.
  - exfalso. destruct (ci_dirs _ _ Hinv d) as [_ Hd]; [set_solver|].
    unfold dir_at in Hd. case_match; [|done].
    pose proof (weights_children W (src ++ d) [] ltac:(constructor) ltac:(eauto)).
    unfold weights in *. cbn in *. lia.
  - by apply spec_ret.
  - cbn [pairs fmap list_fmap clone_loop].
    destruct (ci_dirs _ _ Hinv d) as [Hclean Hd]; [set_solver|].
    apply spec_bind, spec_map_err, spec_look; [done| |by intros e _].
    intros names Hr. rewrite (ci_outside _ _ Hinv) in Hr by apply source_outside.
    unfold dir_at in Hd. destruct (W !! (src ++ d)) as [[m| | |]|] eqn:Ed; try done.
    injection Hr as <-. cbn [map_err].
    assert (∀ c, w !! ((src ++ d) ++ [c]) = W !! (src ++ d ++ [c])) as Hsrc.
    { intros c. rewrite <- app_assoc. apply (ci_outside _ _ Hinv), source_outside. }
    set (names := k_readdir K (children (src ++ d) w)).
    assert (NoDup names) as Hnn.
    { unfold names. rewrite (k_readdir_ok _ HK). apply NoDup_children. }
    assert (∀ c, c ∈ names ↔ is_Some (W !! (src ++ d ++ [c]))) as Hnames.
    { intros c. unfold names. rewrite (k_readdir_ok _ HK), elem_children, Hsrc. done. }
    assert (apart (src ++ d) (dst ++ d)) as Ha by (apply apart_extend, apart_sym, apart_extend, apart_sym, Hapart).
    assert (∀ c, entry_ok (w !! ((src ++ d) ++ [c]))) as Hmd by (intros c; rewrite Hsrc; apply Hm).
    apply spec_bind.
    eapply spec_mono;
      [apply (spec_and _ (λ _, True) _ _ _ _
                (ok_clone_entries K fault HK (src ++ d) (dst ++ d) names (pairs ds) w Ha
                   Hmd Hnn)
                (total_clone_entries K fault _ _ _ _ _))|done|].
    intros [dirs'|e] w1 [Hok Ht]; [|split; [congruence|by intros [=]]].
    destruct (Hok dirs' eq_refl) as (H1 & H2 & ->).
    rewrite (subdirs_ext _ _ W names) by (intros c; rewrite Hsrc; by rewrite app_assoc).
    set (new := (λ c, d ++ [c]) <$> subdirs (src ++ d) W names).
    assert (pairs ds ++ ((λ c, ((src ++ d) ++ [c], (dst ++ d) ++ [c])) <$> subdirs (src ++ d) W names)
            = pairs (ds ++ new)) as ->.
    { unfold pairs, new. rewrite fmap_app. f_equal. rewrite <- list_fmap_compose.
      apply list_fmap_ext. intros i c _. cbn. by rewrite !app_assoc. }
    apply IH.
    + eapply clone_step; try done. intros c Hc Hv. by rewrite H2, Hsrc.
    + pose proof (weights_children W (src ++ d) (subdirs (src ++ d) W names)
        ltac:(by apply NoDup_filter) ltac:(eauto)) as Hc.
      rewrite fmap_app, weights_app.
      assert (app src <$> new = (λ c, (src ++ d) ++ [c]) <$> subdirs (src ++ d) W names) as ->.
      { unfold new. rewrite <- list_fmap_compose. apply list_fmap_ext. intros i c _. cbn.
        by rewrite <- app_assoc. }
      cbn in Hfuel. unfold weights in *. cbn in Hfuel. lia.
Qed.
End CloneLoop.

(** The copy that [clone_tree] makes. *)
Lemma clone_tree_copies K fault src dst w :
  kernel_ok K → wf_world w → modes_ok src w → apart src dst →
  dir_at w src = true → (∀ q, q ≠ [] → w !! (dst ++ q) = None) →
  spec (λ _, True) w (clone_tree K fault src dst) (λ r w',
    r ≠ Err OutOfFuel
    ∧ (r = Ok tt → ∀ q, q ≠ [] →
         w' !! (dst ++ q) = if decide (clean q) then w !! (src ++ q) else None)).
Proof.
  intros HK Hwf Hm Ha Hsrc Hdst.
  assert (∀ (Q : result DeployError () → World → Prop),
    (spec (λ _, True) w (clone_loop K fault (size w) [(src, dst)]) Q →
     spec (λ _, True) w (clone_tree K fault src dst) Q)) as Hfuel.
  { intros Q H. apply spec_bind. intros n t. cbn. split; [exact H|]. by exists []. }
  apply Hfuel. pose proof (clone_loop_ok K fault HK w src dst Hwf Ha Hm (size w) [[]] w) as H.
  unfold pairs in H. cbn in H. rewrite !app_nil_r in H.
  eapply spec_mono; [apply H|done|].
  - constructor; try done.
    + intros d ->%list_elem_of_singleton. rewrite app_nil_r. split; [by apply not_elem_of_nil|done].
    + constructor; [set_solver|constructor].
    + set_solver.
    + intros q Hq _ Hp. exfalso. apply Hp, awaiting_spec. destruct q as [|c r]; [done|].
      exists [], c, r. set_solver.
    + intros q Hq _. by apply Hdst.
  - unfold weights. cbn. pose proof (weight_size w src). lia.
  - intros r w' [Ht Hok]. split; [done|]. intros Hr. specialize (Hok Hr).
    intros q Hq. destruct (decide (clean q)) as [Hc|Hc].
    + apply (ci_done _ _ _ _ _ Hok); [done..|]. intros (d & c & r' & Hin & _)%awaiting_spec. set_solver.
    + apply (ci_todo _ _ _ _ _ Hok); [done|by left].
Qed.

(** ** The scan of [sync_tree] ends as well *)
Section SyncLoop.
Context (K : Kernel) (fault : nat → option string) (HK : kernel_ok K) (w : World).

Lemma sync_entries_ok dir names todo :
  spec (λ _, True) w (sync_entries fault dir names todo) (λ r w',
    w' = w ∧ r ≠ Err OutOfFuel
    ∧ ∀ l, r = Ok l →
        l = todo ++ ((λ c, dir ++ [c]) <$> filter (λ c, dir_at w (dir ++ [c]) = true) names)).
Proof.
  revert todo. induction names as [|c names IH]; intros todo; cbn [sync_entries].
  - apply spec_ret. split_and!; [done..|]. intros l [= <-]. by rewrite app_nil_r.
  - apply spec_bind, spec_map_err, spec_look; [done| |by intros e _].
    intros u _. cbn [map_err]. apply spec_bind, spec_map_err, spec_look; [done| |by intros e _].
    intros e He. destruct (w !! (dir ++ [c])) as [e'|] eqn:E; [|done]. injection He as ->.
    cbn [map_err]. rewrite filter_cons.
    assert (dir_at w (dir ++ [c]) = is_dir e) as -> by (unfold dir_at; rewrite E; by destruct e).
    destruct e; cbn [is_dir]; apply spec_bind; try (apply spec_lift; done); apply spec_ret;
      (eapply spec_mono; [apply IH|done|]); intros r w' (-> & Ht & Hl); (split_and!; [done..|]);
      intros l Hr; rewrite (Hl l Hr).
  by rewrite <- app_assoc.
Qed.

Lemma sync_scan_ok fuel todo read :
  (weights w todo ≤ fuel)%nat → (∀ d, d ∈ todo → is_Some (w !! d)) →
  spec (λ _, True) w (sync_scan K fault fuel todo read) (λ r w', w' = w ∧ r ≠ Err OutOfFuel).
Proof.
  revert todo read. induction fuel as [|fuel IH]; intros [|d todo] read Hf Hd; cbn [sync_scan].
  - by apply spec_ret.
  - exfalso. pose proof (weights_children w d [] ltac:(constructor) ltac:(set_solver)).
    unfold weights in *. cbn in *. lia.
  - by apply spec_ret.
  - apply spec_bind, spec_map_err, spec_look; [done| |by intros e _].
    intros names Hn. cbn [map_err]. destruct (w !! d) as [[m| | |]|] eqn:Ed; try done.
    injection Hn as <-. apply spec_bind.
    eapply spec_mono; [apply sync_entries_ok|done|].
    intros [l|e] w' (-> & Ht & Hl); [|split; [done|congruence]].
    pose proof (Hl l eq_refl) as ->. clear Hl Ht.
    set (new := filter (λ c, dir_at w (d ++ [c]) = true) (k_readdir K (children d w))).
    apply IH.
    + rewrite weights_app.
      pose proof (weights_children w d new ltac:(apply NoDup_filter;
        rewrite (k_readdir_ok _ HK); apply NoDup_children) ltac:(eauto)).
      unfold weights in *. cbn in Hf. lia.
    + intros q [Hq|Hq]%elem_of_app; [apply Hd; set_solver|].
      apply list_elem_of_fmap in Hq as (c & -> & [Hc _]%list_elem_of_filter).
      unfold dir_at in Hc. case_match; [|done]. eauto.
Qed.

Lemma sync_tree_total root :
  is_Some (w !! root) →
  spec (λ _, True) w (sync_tree K fault root) (λ r w', w' = w ∧ r ≠ Err OutOfFuel).
Proof.
  intros Hroot. assert (∀ (Q : result DeployError () → World → Prop),
    (spec (λ _, True) w (dirs ← sync_scan K fault (size w) [root] []; sync_each fault dirs) Q →
     spec (λ _, True) w (sync_tree K fault root) Q)) as Hfuel.
  { intros Q H. apply spec_bind. intros n t. cbn. split; [exact H|]. by exists []. }
  apply Hfuel, spec_bind. eapply spec_mono; [apply sync_scan_ok|done|].
  - unfold weights. cbn. pose proof (weight_size w root). lia.
  - by intros d ->%list_elem_of_singleton.
  - intros [dirs|e'] w' [-> Ht]; [|split; [done|congruence]]. clear Ht.
    induction dirs as [|d dirs IH]; cbn [sync_each]; [by apply spec_ret|].
    apply spec_bind, spec_map_err, spec_look; [done| |by intros e' _].
    intros [] _. apply IH.
Qed.
End SyncLoop.

(** ** The footprint of cloning *)
Section CloneFrames.
Context (K : Kernel) (fault : nat → option string) (A : Path → Prop).

Definition inside (dirs : list (Path * Path)) : Prop :=
  Forall (λ '(_, to), ∀ q, under to q → A q) dirs.

Lemma framed_clone_entry from to name dirs :
  (∀ q, under to q → A q) → inside dirs →
  framed A (clone_entry K fault from to name dirs) inside.
Proof.
  intros Hto Hd. unfold clone_entry.
  assert (A (to ++ [name])) by apply Hto, under_app.
  apply framed_after; [frame|intros _]. case_bool_decide; [by apply framed_ret|].
  apply framed_after; [frame|intros e]. cbv zeta. destruct e.
  - do 4 (apply framed_after; [frame|intros _]). apply framed_ret.
    apply Forall_app. split; [done|]. constructor; [|done].
    intros q Hq. apply Hto. eapply under_trans; [apply under_app|done].
  - apply framed_after; [frame|intros _]. by apply framed_ret.
  - intros w. apply spec_lift. split; [apply step_in_refl|done].
  - intros w. apply spec_lift. split; [apply step_in_refl|done].
Qed.

Lemma framed_clone_entries from to names dirs :
  (∀ q, under to q → A q) → inside dirs →
  framed A (clone_entries K fault from to names dirs) inside.
Proof.
  intros Hto. revert dirs. induction names as [|name names IH]; intros dirs Hd; cbn [clone_entries].
  - by apply framed_ret.
  - eapply framed_bind; [by apply framed_clone_entry|auto].
Qed.

Lemma frames_clone_loop fuel dirs : inside dirs → frames A (clone_loop K fault fuel dirs).
Proof.
  revert dirs. induction fuel as [|fuel IH]; intros [|[from to] dirs] Hd; cbn [clone_loop];
    try (frame; fail).
  apply (framed_frames _ _ (λ _, True)). inversion Hd as [|? ? Hto Hds]; subst.
  apply framed_after; [frame|intros names].
  eapply framed_bind; [by apply framed_clone_entries|].
  intros dirs' Hd'. by apply frames_framed, IH.
Qed.

Lemma frames_clone_tree src dst :
  (∀ q, under dst q → A q) → frames A (clone_tree K fault src dst).
Proof.
  intros H. unfold clone_tree. apply frames_bind; [apply frames_entries_of|].
  intros fuel. apply frames_clone_loop. by constructor.
Qed.
End CloneFrames.
#[export] Hint Resolve frames_clone_tree : fs.

(** [clone_tree] copies every entry below the source, with owner, mode, ACLs
    and contents, except what lies at or below a name [.versions.json]; it
    changes nothing outside the destination, also when it fails, and always
    ends. *)
Theorem clone_tree_exact K fault src dst w :
  kernel_ok K → wf_world w → modes_ok src w → apart src dst →
  dir_at w src = true → (∀ q, q ≠ [] → w !! (dst ++ q) = None) →
  spec (step_in (under dst) w) w (clone_tree K fault src dst) (λ r w',
    step_in (under dst) w w' ∧ r ≠ Err OutOfFuel
    ∧ (r = Ok tt → ∀ q, q ≠ [] → w' !! (dst ++ q) =
         if decide (clean q) then w !! (src ++ q) else None)).
Proof.
  intros HK Hwf Hm Ha Hd Hn.
  eapply spec_mono; [apply (spec_and _ (λ _, True) _ _ _ _
    (frames_clone_tree K fault (under dst) src dst (λ _ H, H) w)
    (clone_tree_copies K fault src dst w HK Hwf Hm Ha Hd Hn))|by intros ? [? _]|].
  by intros r w' [H1 H2].
Qed.
