(* ===== verification/Profiles.v ===== *)
(** * View profiles of the TUI

    [crates/core/src/profiles.rs]: the profile file of a repository, its
    checks, its revision and its atomic replacement, over the modelled file
    system.  The TOML codec, the hash of the revision and the name of a staging
    file are arguments.  The mutex makes each public operation one step.  The
    error kind [InvalidData] is not told apart from other kinds. *)
From S2P Require Import Prelude BTree Text FileSystem FsUtil.
#[local] Open Scope Z_scope.

Definition MAX_BYTES : Z := 128 * 1024.
Definition ATTRIBUTES : list string :=
  ["host"; "scope"; "user"; "service"; "responsibility"; "namespace"; "name"; "explanation"; "facing"; "type";
   "status"].
Definition MAX_PROFILES : Z := 64.

Inductive ProfileFacetMode := FacetAll | FacetWhitelist | FacetBlacklist.
Inductive ProfileViewFilter := VfRequired | VfAll | VfKeys | VfPasswords | VfPublicInfo.
Record ProfileFacet := { pf_mode : ProfileFacetMode; pf_selected : list (string * unit) }.
Record ViewProfile := {
  vp_tree_order : list string;
  vp_facets : list (string * ProfileFacet);
  vp_view_filter : ProfileViewFilter;
  vp_human_only : bool
}.
Record ProfileSnapshot := { sn_revision : Z; sn_profiles : list (string * ViewProfile) }.
Definition no_profiles : ProfileSnapshot := {| sn_revision := 0; sn_profiles := [] |}.
Record Document := { do_version : Z; do_profiles : list (string * ViewProfile) }.

#[export] Instance facet_mode_eq_dec : EqDecision ProfileFacetMode.
Proof. solve_decision. Defined.

Definition invalid (message : string) : IoErr := other message.

(** ** Checks *)
Definition facet_invalid (item : string * ProfileFacet) : bool :=
  let '(attribute, facet) := item in
  negb (bool_decide (attribute ∈ ATTRIBUTES))
  || (1024 <? zlen (pf_selected facet))
  || existsb (λ value, (256 <? slen value) || any_control value) (bt_keys (pf_selected facet))
  || (bool_decide (pf_mode facet = FacetAll) && negb (bool_decide (pf_selected facet = []))).

Definition profile_validate (profile : ViewProfile) : result IoErr unit :=
  let order := vp_tree_order profile in
  _ ← guard_err (negb ((zlen ATTRIBUTES <? zlen order)
                       || negb (zlen (bs_of_list order) =? zlen order)
                       || existsb (λ name, negb (bool_decide (name ∈ ATTRIBUTES))) order))
        (invalid "invalid or duplicate tree attribute");
  _ ← guard_err (negb (zlen ATTRIBUTES <? zlen (vp_facets profile))) (invalid "too many facet filters");
  try_each (λ item, guard_err (negb (facet_invalid item)) (invalid "invalid facet filter")) (vp_facets profile).

Definition validate_profile_name (name : string) : result IoErr unit :=
  guard_err (negb (bool_decide (name = "") || (64 <? slen name)
                   || negb (all_bytes (λ b, is_ascii_alphanumeric b || byte_of " _-." b) name)))
    (invalid "profile name must be 1–64 letters, numbers, spaces, _, - or .").

Definition check_profile (item : string * ViewProfile) : result IoErr unit :=
  _ ← validate_profile_name item.1;
  profile_validate item.2.

(** What [read] makes of the text of the file. *)
Definition parse_profiles (from_toml : string → result string Document) (hash : string → Z) (content : string)
  : result IoErr ProfileSnapshot :=
  document ← map_err invalid (from_toml content);
  _ ← guard_err (do_version document =? 1) (invalid "unsupported profile file version");
  _ ← guard_err (zlen (do_profiles document) <=? MAX_PROFILES) (invalid "too many profiles");
  _ ← try_each check_profile (do_profiles document);
  Ok {| sn_revision := hash content; sn_profiles := do_profiles document |}.

(** ** The file *)
Section ProfileStore.
Context (K : Kernel) (fault : nat → option string).
Context (from_toml : string → result string Document) (to_toml : Document → result string string).
Context (hash : string → Z).
Context (file : list string).

Definition reject_symlink (p : list string) : stE Fs IoErr unit :=
  found ← attempt (symlink_metadata fault p);
  match found with
  | Ok (EFile _ _) => mret tt
  | Ok _ => st_lift (Err (invalid "profile path must be a regular file, not a symlink"))
  | Err error => if bool_decide (io_kind error = KNotFound) then mret tt else st_lift (Err error)
  end.

Definition unacceptable : IoErr := invalid "profile path is not a regular file of acceptable size".
Definition file_size (e : entry) : Z := match e with EFile _ contents => zlen contents | _ => 0 end.

(** The file that was opened, inspected and read up to the limit. *)
Definition read_opened : stE Fs IoErr ProfileSnapshot :=
  metadata ← symlink_metadata fault file;
  _ ← st_guard (is_file metadata) unacceptable;
  metadata ← symlink_metadata fault file;
  _ ← st_guard (file_size metadata <=? MAX_BYTES) unacceptable;
  contents ← read_file fault file;
  content ← st_lift (ok_or (other "stream did not contain valid UTF-8")
                       (from_utf8 (take (Z.to_nat (MAX_BYTES + 1)) contents)));
  _ ← st_guard (slen content <=? MAX_BYTES) (invalid "profile file is too large");
  st_lift (parse_profiles from_toml hash content).

Definition read : stE Fs IoErr ProfileSnapshot :=
  _ ← reject_symlink file;
  opened ← attempt (open_nofollow fault file);
  match opened with
  | Ok _ => read_opened
  | Err error => if bool_decide (io_kind error = KNotFound) then mret no_profiles else st_lift (Err error)
  end.

Definition temp_name (pid n : Z) : string := ".nix-secrets-profiles-" +:+ dec pid +:+ "-" +:+ dec n +:+ ".tmp".

Definition replace_file (temp : list string) (content : list Z) : stE Fs IoErr unit :=
  _ ← create_new K fault temp (oct [6; 0; 0]);
  _ ← write_file fault temp content;
  _ ← sync_path fault temp;
  _ ← reject_symlink file;
  _ ← rename fault temp file;
  sync_path fault (parent file).

Definition atomic_write (temp_file : string) (content : list Z) : stE Fs IoErr unit :=
  _ ← st_guard (negb (bool_decide (file = []))) (invalid "profile path has no parent");
  _ ← reject_symlink file;
  let temp := parent file ++ [temp_file] in
  result ← attempt (replace_file temp content);
  _ ← (if is_ok result then mret (Ok tt) else attempt (E:=IoErr) (remove_file fault temp));
  st_lift result.

Definition list_profiles : stE Fs IoErr ProfileSnapshot := read.

Definition stale_revision : IoErr :=
  {| io_kind := KAlreadyExists; io_text := "profiles changed; reload before saving" |}.

Definition change_profiles (temp_file : string) (expected : Z) (edit : Document → result IoErr Document)
  : stE Fs IoErr ProfileSnapshot :=
  current ← read;
  _ ← st_guard (sn_revision current =? expected) stale_revision;
  document ← st_lift (edit {| do_version := 1; do_profiles := sn_profiles current |});
  content ← st_lift (map_err other (to_toml document));
  _ ← st_guard (slen content <=? MAX_BYTES) (invalid "profile file is too large");
  _ ← atomic_write temp_file (bytes content);
  read.

Definition insert_profile (name : string) (profile : ViewProfile) (document : Document) : result IoErr Document :=
  Ok {| do_version := do_version document; do_profiles := bt_insert name profile (do_profiles document) |}.
Definition remove_profile (name : string) (document : Document) : result IoErr Document :=
  match bt_get name (do_profiles document) with
  | None => Err {| io_kind := KNotFound; io_text := "profile does not exist" |}
  | Some _ => Ok {| do_version := do_version document; do_profiles := bt_remove name (do_profiles document) |}
  end.

Definition save_profile (temp_file name : string) (profile : ViewProfile) (expected : Z) : stE Fs IoErr ProfileSnapshot :=
  _ ← st_lift (validate_profile_name name);
  _ ← st_lift (profile_validate profile);
  change_profiles temp_file expected (insert_profile name profile).

Definition delete_profile (temp_file name : string) (expected : Z) : stE Fs IoErr ProfileSnapshot :=
  _ ← st_lift (validate_profile_name name);
  change_profiles temp_file expected (remove_profile name).
End ProfileStore.

(** [ProfileStore::new]: the file of a repository. *)
Definition new_profile_store (fault : nat → option string) (repository : list string) : stE Fs IoErr (list string) :=
  let file := repository ++ ["nix-secrets-profiles.toml"] in
  _ ← reject_symlink fault file;
  mret file.

(** * Profiles are replaced atomically

    An edit of the profile file is a compare-and-swap on its revision that
    other files never notice, whichever calls fail and wherever it is stopped. *)
Section Facts.
Context (K : Kernel) (fault : nat → option string).
Context (from_toml : string → result string Document) (to_toml : Document → result string string).
Context (hash : string → Z).
Context (Hcodec : ∀ document content, to_toml document = Ok content →
  from_utf8 (bytes content) = Some content ∧ from_toml content = Ok document).
Context (repository : list string) (pid n : Z).

Notation file := (repository ++ ["nix-secrets-profiles.toml"]).
Notation temp := (repository ++ [temp_name pid n]).
Notation parse := (parse_profiles from_toml hash).

Lemma temp_not_file : temp ≠ file.
Proof. intros H. apply app_inv_head in H. done. Qed.
Lemma parent_file : parent file = repository.
Proof. apply parent_snoc. Qed.

(** The snapshot a world shows. *)
Definition shows (w : World) (s : ProfileSnapshot) : Prop :=
  (w !! file = None ∧ s = no_profiles)
  ∨ ∃ m contents content, w !! file = Some (EFile m contents) ∧ zlen contents <= MAX_BYTES
      ∧ from_utf8 contents = Some content ∧ parse content = Ok s.

Definition others_kept (w w' : World) : Prop := ∀ p, p ≠ file → p ≠ temp → w' !! p = w !! p.
Definition untouched (w w' : World) : Prop := others_kept w w' ∧ w' !! file = w !! file.
Definition replaced (content : list Z) (w w' : World) : Prop :=
  others_kept w w' ∧ ∃ m, w' !! file = Some (EFile m content).
Definition intact (content : list Z) (w w' : World) : Prop := untouched w w' ∨ replaced content w w'.

Lemma untouched_refl w : untouched w w.
Proof. by split. Qed.

Lemma reject_symlink_spec w : spec (λ w', w' = w) w (reject_symlink fault file) (λ _ w', w' = w).
Proof.
  unfold reject_symlink. apply spec_bind, spec_attempt, spec_look; [done|..].
  - intros [] _; first [by apply spec_ret|by apply spec_lift].
  - intros e _. case_bool_decide; [by apply spec_ret|by apply spec_lift].
Qed.

Lemma read_opened_spec w :
  spec (λ w', w' = w) w (read_opened fault from_toml hash file) (λ r w', w' = w ∧ ∀ s, r = Ok s → shows w s).
Proof.
  assert (∀ e : IoErr, w = w ∧ ∀ s : ProfileSnapshot, Err e = Ok s → shows w s) as He by done.
  unfold read_opened. apply spec_bind, spec_look; [done| |by auto].
  intros e1 _. apply spec_bind, spec_guard; [intros _|by auto].
  apply spec_bind, spec_look; [done| |by auto].
  intros e2 He2. apply spec_bind, spec_guard; [intros Hsize|by auto].
  apply spec_bind, spec_look; [done| |by auto].
  intros contents Hc. apply spec_bind, spec_lift.
  destruct (w !! file) as [[|m c| |]|] eqn:Ew; simplify_eq/=.
  assert (zlen contents <= MAX_BYTES) as Hlen by (by apply Z.leb_le).
  rewrite take_ge by (unfold zlen in Hlen; lia).
  destruct (from_utf8 contents) as [content|] eqn:Eu; [|done]. cbn [ok_or].
  apply spec_bind, spec_guard; [intros _|by auto].
  apply spec_lift. split; [done|]. intros s Hs. right. by exists m, contents, content.
Qed.

Lemma read_spec w :
  spec (λ w', w' = w) w (read fault from_toml hash file) (λ r w', w' = w ∧ ∀ s, r = Ok s → shows w s).
Proof.
  unfold read. apply spec_bind. eapply spec_mono; [apply reject_symlink_spec|done|].
  intros [[]|e] w' ->; [|done].
  apply spec_bind, spec_attempt, spec_look; [done|intros ? _; apply read_opened_spec|].
  intros e He. case_bool_decide as Hk; [|by apply spec_lift].
  apply spec_ret. split; [done|]. intros s [= <-]. left. split; [|done].
  destruct He as [He|He]; [|congruence]. destruct (w !! file) as [[]|]; by simplify_eq.
Qed.

(** ** Replacing the file *)
Lemma replaced_intact content w w' : replaced content w w' → intact content w w'.
Proof. by right. Qed.

Lemma temp_untouched w w1 e : untouched w w1 → untouched w (<[temp := e]> w1).
Proof.
  intros [H1 H2]. split; [intros p Hf Ht; rewrite lookup_insert_ne by done; by apply H1|].
  rewrite lookup_insert_ne by apply temp_not_file. done.
Qed.

Lemma rename_replaced content m w w1 u w2 :
  untouched w w1 → w1 !! temp = Some (EFile m content) → rename_to temp file w1 = Ok (u, w2) →
  replaced content w w2 ∧ w2 !! temp = None.
Proof.
  intros [H1 H2] Ht [[E _]|(_ & e & pm & He & _ & [(_ & _ & ->)|([? ->] & _)])]%rename_cases;
    [by apply temp_not_file in E| |by simplify_eq].
  simplify_eq. split; [split|].
  - intros p Hf Hp. rewrite lookup_insert_ne, lookup_delete_ne by done. by apply H1.
  - exists m. by rewrite lookup_insert_eq.
  - rewrite lookup_insert_ne by (intros E; by apply temp_not_file). apply lookup_delete_eq.
Qed.

Lemma replace_file_spec w content :
  spec (intact content w) w (replace_file K fault file temp content)
    (λ r w', intact content w w' ∧ (is_ok r = true → replaced content w w' ∧ w' !! temp = None)).
Proof.
  assert (Hu := untouched_refl w).
  assert (∀ (e : IoErr) w', untouched w w' → intact content w w'
    ∧ (is_ok (Err (A := unit) e) = true → replaced content w w' ∧ w' !! temp = None)) as Herr by (intros; by split; [left|]).
  unfold replace_file. apply spec_bind, spec_sys; [|by intros; apply Herr].
  intros [] w1 Hc. unfold create in Hc. repeat case_match; simplify_eq.
  set (w1 := <[temp := _]> w). assert (untouched w w1) as Hw1 by (by apply temp_untouched).
  split; [by left|]. apply spec_bind, spec_sys; [|by intros; apply Herr].
  intros [] w2 Hw. subst w1. rewrite lookup_insert_eq in Hw. cbn in Hw. simplify_eq. rewrite insert_insert_eq.
  set (w2 := <[temp := _]> w). assert (untouched w w2) as Hw2 by (by apply temp_untouched).
  split; [by left|]. apply spec_bind, spec_look; [by left| |by intros; apply Herr].
  intros [] _. apply spec_bind. eapply spec_mono; [apply reject_symlink_spec|intros ? ->; by left|].
  intros [[]|e] w3 ->; [|by apply Herr].
  apply spec_bind, spec_sys; [|by intros; apply Herr].
  intros u w4 Hr. eapply rename_replaced in Hr as [Hr Hn]; [|done|apply lookup_insert_eq].
  split; [by right|]. apply spec_look; [by right|by split; [right|]|by split; [right|]].
Qed.

Lemma remove_temp_intact content w w1 :
  intact content w w1 → spec (intact content w) w1 (remove_file fault temp) (λ _ w', intact content w w').
Proof.
  intros H. apply spec_sys; [|done]. intros [] w2 Hr.
  assert (w2 = delete temp w1) as ->.
  { unfold remove_entry in Hr. by destruct (w1 !! temp) as [[]|]; simplify_eq. }
  assert (others_kept w w1 → others_kept w (delete temp w1)) as Ho
    by (intros Ho p Hf Ht; rewrite lookup_delete_ne by done; by apply Ho).
  assert (delete temp w1 !! file = w1 !! file) as Hf by (apply lookup_delete_ne, temp_not_file).
  assert (intact content w (delete temp w1)); [|done].
  destruct H as [[? ?]|[? [m ?]]]; [left|right]; (split; [by apply Ho|]); rewrite Hf; eauto.
Qed.

Lemma atomic_write_spec w content :
  spec (intact content w) w (atomic_write K fault file (temp_name pid n) content)
    (λ r w', intact content w w' ∧ (is_ok r = true → replaced content w w' ∧ w' !! temp = None)).
Proof.
  assert (intact content w w) as Hw by (left; apply untouched_refl).
  unfold atomic_write. rewrite parent_file. apply spec_bind, spec_guard; [intros _|done].
  apply spec_bind. eapply spec_mono; [apply reject_symlink_spec|by intros ? ->|].
  intros [[]|e] w' ->; [|done].
  apply spec_bind, spec_attempt. eapply spec_mono; [apply replace_file_spec|done|].
  intros [[]|e] w1 [H1 H2]; cbn [is_ok]; apply spec_bind.
  - apply spec_ret, spec_lift. by split.
  - apply spec_attempt. eapply spec_mono; [by apply remove_temp_intact|done|].
    intros r w2 Hi. apply spec_lift. by split.
Qed.

(** ** Edits *)
(** The edit of the document that [w] shows, at the expected revision. *)
Definition edited (w : World) (expected : Z) (edit : Document → result IoErr Document)
    (document : Document) (content : string) : Prop :=
  ∃ current, shows w current ∧ sn_revision current = expected
    ∧ edit {| do_version := 1; do_profiles := sn_profiles current |} = Ok document
    ∧ to_toml document = Ok content ∧ slen content <= MAX_BYTES.

(** Until it is stopped, an edit leaves the old file or the complete new one. *)
Definition old_or_new (w : World) (expected : Z) (edit : Document → result IoErr Document) (w' : World) : Prop :=
  untouched w w' ∨ ∃ document content, edited w expected edit document content ∧ replaced (bytes content) w w'.

(** C11: an edit of the profile file ([save] and [delete]) is an atomic
    compare-and-swap.  Whichever calls fail and wherever it is stopped, other
    files are as before, and the profile file holds its old contents, or the
    complete new document, which is the edit of the profiles read from it at
    the expected revision.  Success means the new document is there, no staging
    file is left, and the profiles returned are those of the edit, at the
    revision a later reader sees. *)
Theorem profile_edits_atomic w expected edit :
  spec (old_or_new w expected edit) w
    (change_profiles K fault from_toml to_toml hash file (temp_name pid n) expected edit)
    (λ r w', old_or_new w expected edit w'
       ∧ ∀ s, r = Ok s → ∃ document content, edited w expected edit document content
           ∧ replaced (bytes content) w w' ∧ w' !! temp = None ∧ shows w' s
           ∧ sn_profiles s = do_profiles document ∧ sn_revision s = hash content).
Proof.
  assert (old_or_new w expected edit w) as Hw by (left; apply untouched_refl).
  assert (∀ (e : IoErr) (P : ProfileSnapshot → Prop), ∀ s, Err e = Ok s → P s) as Herr by done.
  unfold change_profiles. apply spec_bind.
  eapply spec_mono; [apply read_spec|by intros ? ->|]. intros [current|e] w1 [-> Hs]; [|done].
  specialize (Hs _ eq_refl).
  apply spec_bind, spec_guard; [intros Hrev|done]. apply Z.eqb_eq in Hrev.
  apply spec_bind, spec_lift. destruct (edit _) as [document|e] eqn:Ee; [|done].
  apply spec_bind, spec_lift. destruct (to_toml document) as [content|e] eqn:Et; [|done]. cbn [map_err].
  apply spec_bind, spec_guard; [intros Hlen|done]. apply Z.leb_le in Hlen.
  assert (edited w expected edit document content) as Hed by (by exists current).
  apply spec_bind. eapply spec_mono; [apply atomic_write_spec|intros w2 [?|?]; [by left|right; eauto]|].
  intros r w2 [Hi Hok].
  assert (old_or_new w expected edit w2) as Hw2 by (destruct Hi; [by left|right; eauto]).
  destruct r as [[]|e]; [|done]. destruct (Hok eq_refl) as [Hr Htemp].
  eapply spec_mono; [apply read_spec|by intros ? ->|]. intros r w3 [-> Hs2]. split; [done|].
  intros s ->. specialize (Hs2 _ eq_refl). exists document, content. split_and!; [done..| |];
    destruct Hs2 as [[Hn _]|(m & c & t & Hf & _ & Hu & Hp)]; destruct Hr as [_ [m' Hr]]; try congruence;
    rewrite Hr in Hf; injection Hf as <- <-; destruct (Hcodec _ _ Et) as [Hu' Hc]; simplify_eq;
    unfold parse_profiles in Hp; rewrite Hc in Hp; inv_result Hp; done.
Qed.
End Facts.
