(* ===== verification/Protocol.v ===== *)
(** * What a client may ask the backend, and what it answers

    [crates/core/src/backend/protocol.rs]: the requests and responses of a
    connection; [event_after.rs]: what a request that succeeded announces;
    the error texts of the store ([store.rs]) and of the broker
    ([backend/broker.rs]).  A constructor has its name in the source with the
    prefix [Rq] or [Rs]. *)
From S2P Require Import Prelude BTree Text Procedure SshAuth Schema Signing Requests Store Broker Feed Profiles Git.
#[local] Open Scope Z_scope.

Inductive Request :=
| RqGet (path : SecretPath)
| RqCommitState (path : SecretPath)
| RqList
| RqSet (path : SecretPath) (envelope : EncryptedSecret)
| RqSetIfVersion (path : SecretPath) (envelope : EncryptedSecret) (expected_version : option (list Z))
| RqRemove (path : SecretPath)
| RqRemoveIfVersion (path : SecretPath) (expected_version : list Z)
| RqGetGeneratedPublicKey (path : SecretPath)
| RqSetGeneratedPublicKeyIfVersion (path : SecretPath) (value : GeneratedPublicKey) (expected_version : option string)
| RqSetPublicKeyIfVersion (path : SecretPath) (public_key : string) (expected_version : list Z)
    (expected_public_key : option string)
| RqListPublicInfo
| RqGetPublicInfo (shared_id : string)
| RqSetPublicInfoIfVersion (path : SecretPath) (value : PublicInfoRecord) (expected_version : option string)
| RqRemovePublicInfoIfVersion (path : SecretPath) (expected_version : string)
| RqQuarantine (value : QuarantinedValue)
| RqListQuarantine
| RqRemoveQuarantined (id : string)
| RqRegisterFrontend
| RqPollApprovals
| RqSubmitApproval (request : ApprovalRequest)
| RqClaimApproval (request_id : string) (lease_ms : Z)
| RqRenewApproval (request_id : string) (lease_id lease_ms : Z)
| RqResolveApproval (request_id : string) (lease_id : Z) (decision : Decision) (message : option string)
| RqCancelApproval (request_id : string)
| RqApprovalStatus (request_id : string)
| RqSubscribeChanges
| RqListProfiles
| RqSaveProfile (name : string) (profile : ViewProfile) (expected_revision : Z)
| RqDeleteProfile (name : string) (expected_revision : Z)
| RqCommitSummary
| RqCommit (options : CommitOptions) (forward_agent : bool)
| RqAgentReply (message : list Z)
| RqAttachOperator
| RqAnswerSecretRequest (request_id : string) (answer : SecretAnswer)
| RqRequestSecrets (identifiers : list string) (reason procedure : option string) (progress : bool)
| RqEndSecretSession
| RqRequestSshSignature (request : SignatureRequest) (reason procedure : option string) (progress : bool)
    (grant : option string)
| RqRequestSshLoginGrant (request : LoginGrantRequest) (reason procedure : option string) (progress : bool)
| RqRequestArtifactSignatures (request : Artifacts.SigningRequest) (reason procedure : option string) (progress : bool)
| RqRequestClosureSignatures (request : Closures.SigningRequest) (reason procedure : option string) (progress : bool)
| RqCheckClosureSigningRequest (request_id : string)
| RqReadSigningArtifact (request_id role : string) (offset : Z)
| RqRequestDeployment (target : string) (allow_partial : bool) (procedure : option string)
| RqBeginProcedure (title : string) (steps : option Z)
| RqEndProcedure (exit_code : option Z)
| RqFailProcedureStep (procedure label reason : string)
| RqWarnProcedureStep (procedure label reason : string)
| RqReportProcedureProgress (procedure text : string) (percent : option Z)
| RqConfirmProcedureStep (procedure label reason : string) (items : list string)
| RqGetSchema
| RqCancelCountdown (request_id : string).

Inductive Response :=
| RsSuccess
| RsArtifactSignatures (signatures : list Artifacts.DetachedSignature)
| RsClosureSignatures (signatures : Closures.Signatures)
| RsSigningArtifactChunk (offset : Z) (bytes_base64 : string)
| RsSecret (envelope : option EncryptedSecret)
| RsSecrets (entries : list (string * EncryptedSecret))
| RsUpdated
| RsRemoved (existed : bool)
| RsGeneratedPublicKey (value : option GeneratedPublicKey)
| RsPublicInfo (value : option PublicInfoRecord)
| RsPublicInfoEntries (entries : list (string * PublicInfoRecord))
| RsQuarantined (id : string)
| RsQuarantineEntries (entries : list (string * QuarantinedValue))
| RsError (message : string)
| RsFrontendRegistered
| RsApprovals (requests : list ApprovalRequest) (procedures : list (string * ProcedureStep))
| RsApprovalState (state : ApprovalStatus)
| RsApprovalClaimed (lease_id expires_in_ms : Z)
| RsApprovalRenewed (expires_in_ms : Z)
| RsApprovalResolved
| RsApprovalCancelled
| RsSubscribed
| RsChange (update : BackendEvent)
| RsHeartbeat
| RsProfiles (snapshot : ProfileSnapshot)
| RsCommitState (state : CommitState)
| RsCommitSummary (summary : CommitSummary)
| RsAgentRequest (message : list Z)
| RsCommitted (result : CommitResult)
| RsOperatorAttached
| RsSecretRequested (request : SecretRequest)
| RsSecretSession (socket : string)
| RsSecretSessionEnded
| RsSshSignature (reply : list Z)
| RsProcedureConfirmation (confirmed : bool)
| RsSshLoginGranted (grant : string) (expires_in_seconds signatures : Z)
| RsDeploymentRequested (request : ApprovalRequest) (waiting_for_operator : bool)
| RsSchemaDocument (json : option string) (age_ms : Z) (waiting : bool)
| RsProcedureBegun (id token : string)
| RsProcedureUpdate (procedure : ProcedureStep)
| RsProceduresListed (ids : list string)
| RsSshLoginGrantEnded (grant : string)
| RsProcedureEnded (id : string) (exit_code : option Z)
| RsSecretRequestWithdrawn (request_id : string)
| RsWaitingForOperator
| RsCountdownCancelled.

Definition is_error (response : Response) : bool :=
  match response with RsError _ => true | _ => false end.

(** ** [event_after_success] *)
Definition public_info_event (path : SecretPath) (set : bool) (schema : Schema) : option BackendEvent :=
  match leaf schema path with
  | Ok (Stored spec) => (λ shared_id, PublicInfoChanged shared_id set) <$> ss_shared_public_id spec
  | _ => None
  end.
Definition event_after_success (request : Request) (schema : Schema) : option BackendEvent :=
  match request with
  | RqSet path _ | RqSetIfVersion path _ _ => Some (SecretChanged (path_show path) true)
  | RqRemove path | RqRemoveIfVersion path _ => Some (SecretChanged (path_show path) false)
  | RqSetPublicInfoIfVersion path _ _ => public_info_event path true schema
  | RqRemovePublicInfoIfVersion path _ => public_info_event path false schema
  | RqSubmitApproval request => Some (ApprovalRequested request)
  | RqSaveProfile _ _ _ | RqDeleteProfile _ _ => Some ProfilesChanged
  | _ => None
  end.

(** The requests that check against a freshly loaded schema. *)
Definition needs_fresh_schema (request : Request) : bool :=
  match request with
  | RqSet _ _ | RqSetIfVersion _ _ _ | RqRemove _ | RqRemoveIfVersion _ _
  | RqSetGeneratedPublicKeyIfVersion _ _ _ | RqSetPublicKeyIfVersion _ _ _ _
  | RqSetPublicInfoIfVersion _ _ _ | RqRemovePublicInfoIfVersion _ _ => true
  | _ => false
  end.

(** The requests that keep or take over the connection, handled before. *)
Definition hands_over (request : Request) : bool :=
  match request with
  | RqSubscribeChanges | RqCommit _ _ | RqAttachOperator | RqBeginProcedure _ _ | RqRequestSecrets _ _ _ _
  | RqRequestSshSignature _ _ _ _ _ | RqRequestSshLoginGrant _ _ _ _ | RqConfirmProcedureStep _ _ _ _
  | RqRequestArtifactSignatures _ _ _ _ | RqRequestClosureSignatures _ _ _ _ => true
  | _ => false
  end.

(** ** Error texts *)
Definition store_error_show (debug : string → string) (error : StoreError) : string :=
  match error with
  | Io message => "I/O error: " +:+ message
  | Decode message => "invalid TOML: " +:+ message
  | Encode message => "cannot encode TOML: " +:+ message
  | BadSchema error => schema_error_show debug error
  | RecipientMismatch => "envelope recipient does not match the evaluated schema"
  | InvalidRecord => "stored age record metadata is invalid"
  | InvalidPublicKey => "public key metadata does not match the evaluated secret type"
  | InvalidRecipientRegistry => "recipient registry reference is missing or inconsistent"
  | InvalidPublicInfo => "public-info value or schema is invalid"
  | InvalidQuarantine => "quarantined value is invalid or the quarantine is full"
  | VersionConflict => "secret version changed during update"
  | DerivedValue => "this value is derived from another secret and is never stored"
  end.

Definition broker_error (error : BrokerError) : string :=
  match error with
  | Invalid message => message
  | Full => "approval broker capacity reached"
  | Unknown => "unknown approval request"
  | Unavailable => "approval request is unavailable"
  | WrongLease => "approval lease is invalid"
  end.
