(* ===== verification/Backend.v ===== *)
(** * The backend's requests

    [crates/core/src/backend.rs]: what one connection's requests do to the
    store, the profiles, the broker, the procedures and the feed, and what is
    answered; [backend/broker.rs] and [backend/deployment.rs].  Requests that
    keep or take over the connection are modelled elsewhere (Asks.v,
    Operators.v, Procedures.v, Feed.v, Agent.v) and end a run here.

    The state joins those of the components.  Their locks make each request one
    step.  The codecs, the schema loader, random bytes, clocks, failing system
    calls, git and the requester's process are arguments. *)
From stdpp Require Import gmap.
From S2P Require Import Prelude BTree Text Procedure Procedures SshAuth Schema SchemaValidation Signing Requests Operators.
From S2P Require Import Store Broker FileSystem Profiles Git Feed Protocol.
#[local] Open Scope Z_scope.

Record Server (G : Type) := {
  sv_disk : Disk;
  sv_profiles : Fs;
  sv_broker : ApprovalBroker;
  sv_operators : Sys;
  sv_feed : Feed;
  sv_git : G
}.
Arguments sv_disk {G}. Arguments sv_profiles {G}. Arguments sv_broker {G}.
Arguments sv_operators {G}. Arguments sv_feed {G}. Arguments sv_git {G}.

(** What one request reads besides the state. *)
Record Request_env := {
  re_now : Z;
  re_now' : Z;
  (** 16 bytes for a deployment, 8 for a quarantined value. *)
  re_random : Z → result string (list Z);
  re_fails : SysCall → option Fault;
  re_fault : nat → option string;
  re_temp : string;
  (** The store as committed in [HEAD]. *)
  re_committed : result string StoreDocument;
  (** The requester of a closure signature has hung up. *)
  re_gone : string → bool
}.

Section Backend.
Context {G : Type} `{Git G}.
Context (debug : string → string) (b64_encode : list Z → string) (b64_decode : string → option (list Z)).
Context (from_openssh : string → option Algorithm).
Context (encode : StoreDocument → result string string) (decode : string → result string StoreDocument) (pid : Z).
Context (K : Kernel) (profiles_file : list string).
Context (from_toml : string → result string Document) (to_toml : Document → result string string).
Context (hash : string → Z).
Context (proc_stat : Z → option string).
Context (repository : string).
(** The schema document this backend was started with, and when. *)
Context (document : option (string * Z)).
(** [None] without a loader. *)
Context (reload : Server G → option (result string Schema)).

Definition step (A : Type) : Type := stE (Server G) string A.

Definition with_disk (d : Disk) (s : Server G) : Server G :=
  {| sv_disk := d; sv_profiles := sv_profiles s; sv_broker := sv_broker s; sv_operators := sv_operators s;
     sv_feed := sv_feed s; sv_git := sv_git s |}.
Definition with_profiles (p : Fs) (s : Server G) : Server G :=
  {| sv_disk := sv_disk s; sv_profiles := p; sv_broker := sv_broker s; sv_operators := sv_operators s;
     sv_feed := sv_feed s; sv_git := sv_git s |}.
Definition with_broker_state (b : ApprovalBroker) (s : Server G) : Server G :=
  {| sv_disk := sv_disk s; sv_profiles := sv_profiles s; sv_broker := b; sv_operators := sv_operators s;
     sv_feed := sv_feed s; sv_git := sv_git s |}.
Definition with_operators (o : Sys) (s : Server G) : Server G :=
  {| sv_disk := sv_disk s; sv_profiles := sv_profiles s; sv_broker := sv_broker s; sv_operators := o;
     sv_feed := sv_feed s; sv_git := sv_git s |}.
Definition with_feed_state (f : Feed) (s : Server G) : Server G :=
  {| sv_disk := sv_disk s; sv_profiles := sv_profiles s; sv_broker := sv_broker s; sv_operators := sv_operators s;
     sv_feed := f; sv_git := sv_git s |}.
Definition with_git_state (g : G) (s : Server G) : Server G :=
  {| sv_disk := sv_disk s; sv_profiles := sv_profiles s; sv_broker := sv_broker s; sv_operators := sv_operators s;
     sv_feed := sv_feed s; sv_git := g |}.

(** [.map(f).map_err(|error| error.to_string())] of a component's operation. *)
Definition on_store {A} (f : A → Response) (m : stE Disk StoreError A) : step Response := λ s,
  let '(r, d) := m (sv_disk s) in
  (match r with Ok a => Ok (f a) | Err e => Err (store_error_show debug e) end, with_disk d s).
Definition on_profiles (m : stE Fs IoErr ProfileSnapshot) : step Response := λ s,
  let '(r, p) := m (sv_profiles s) in
  (match r with Ok snapshot => Ok (RsProfiles snapshot) | Err e => Err (io_text e) end, with_profiles p s).
Definition on_git {A} (f : A → Response) (m : stE G string A) : step Response := λ s,
  let '(r, g) := m (sv_git s) in
  (match r with Ok a => Ok (f a) | Err e => Err e end, with_git_state g s).
Definition on_operators {A} (f : A → Response) (m : Sys → result string A * Sys) : step Response := λ s,
  let '(r, o) := m (sv_operators s) in
  (match r with Ok a => Ok (f a) | Err e => Err e end, with_operators o s).
Definition with_broker (m : bop Response) : step Response := λ s,
  let '(r, b) := m (sv_broker s) in (map_err broker_error r, with_broker_state b s).
Definition bmap {A} (f : A → Response) (m : bop A) : bop Response := a ← m; mret (f a).

(** ** [deployment::request] *)
Definition queue_error (error : BrokerError) : string :=
  match error with
  | Invalid message => message
  | Full => "approval broker capacity reached"
  | _ => "the deployment request could not be queued"
  end.

(** The procedure's next step, if the request names a procedure. *)
Definition procedure_step (peer : Z) (procedure : option string) (label : string) : step (option ProcedureStep) :=
  match procedure with
  | None => mret None
  | Some token => λ s,
      let '(r, o) := advance proc_stat token peer label true false (sv_operators s) in
      (match r with Ok numbered => Ok (Some numbered) | Err e => Err e end, with_operators o s)
  end.

Definition queue_deployment (env : Request_env) (request : ApprovalRequest) (numbered : option ProcedureStep)
  : step Response := λ s,
  let '(r, b) := submit_in_procedure (re_now env) (re_now' env) request numbered (sv_broker s) in
  (match r with
   | Ok _ => Ok (RsDeploymentRequested request (negb (has_frontends b)))
   | Err e => Err (queue_error e)
   end, with_broker_state b s).

Definition request_deployment (env : Request_env) (schema : Schema) (peer : Z) (target : string)
    (allow_partial : bool) (procedure : option string) : step Response :=
  secrets ← st_lift (map_err (λ _, target +:+ " is not a host of the evaluated schema")
                       (deployable_identifiers schema target));
  _ ← st_guard (negb (bool_decide (secrets = []))) (target +:+ " declares no deployable values");
  random ← st_lift (re_random env 16);
  let request := {| ar_id := "deploy-" +:+ hex_of random; ar_target := target; ar_secrets := secrets;
                    ar_allow_partial := allow_partial |} in
  numbered ← procedure_step peer procedure ("deploy secrets to " +:+ target);
  queue_deployment env request numbered.

(** ** One request *)
Definition age_ms (now at_ : Z) : Z := Z.min ((now - at_) / 1000000) u64_max.

Definition read_chunk (request_id role : string) (offset : Z) (o : Sys) : result string (Z * list Z) * Sys :=
  (read_artifact request_id role offset o, o).

(** The value of [response] for the requests that are answered here. *)
Definition response_to (env : Request_env) (schema : Schema) (session peer : Z) (request : Request) : step Response :=
  let fails := re_fails env in
  let now := re_now env in
  let now' := re_now' env in
  let reads {A} (f : A → Response) (g : StoreDocument → result StoreError A) := on_store f (reading encode decode pid fails g) in
  match request with
  | RqCheckClosureSigningRequest id => on_operators (λ _, RsSuccess) (check_closure id peer (re_gone env id))
  | RqReadSigningArtifact id role offset =>
      on_operators (λ '(offset, chunk), RsSigningArtifactChunk offset (b64_encode chunk)) (read_chunk id role offset)
  | RqGet path => reads RsSecret (get_record path)
  | RqCommitState path => reads RsCommitState (λ d, Ok (commit_state (re_committed env) path d))
  | RqList => reads RsSecrets list_records
  | RqListProfiles => on_profiles (list_profiles (re_fault env) from_toml hash profiles_file)
  | RqSaveProfile name profile expected =>
      on_profiles (save_profile K (re_fault env) from_toml to_toml hash profiles_file (re_temp env) name profile expected)
  | RqDeleteProfile name expected =>
      on_profiles (delete_profile K (re_fault env) from_toml to_toml hash profiles_file (re_temp env) name expected)
  | RqSet path envelope =>
      on_store (λ _, RsUpdated) (set_record encode decode pid fails b64_decode schema path envelope)
  | RqSetIfVersion path envelope expected =>
      on_store (λ _, RsUpdated) (set_if_version encode decode pid fails b64_decode schema path envelope expected)
  | RqRemove path => on_store RsRemoved (Store.remove encode decode pid fails schema path)
  | RqRemoveIfVersion path expected => on_store RsRemoved (remove_if_version encode decode pid fails schema path expected)
  | RqGetGeneratedPublicKey path => reads RsGeneratedPublicKey (generated_public_key path)
  | RqSetGeneratedPublicKeyIfVersion path value expected =>
      on_store (λ _, RsUpdated)
        (set_generated_public_key_if_version encode decode pid fails b64_decode schema path value expected)
  | RqSetPublicKeyIfVersion path key version expected =>
      on_store (λ _, RsUpdated) (set_public_key_if_version encode decode pid fails b64_decode schema path key version expected)
  | RqListPublicInfo => reads RsPublicInfoEntries list_public_info
  | RqGetPublicInfo shared_id => reads RsPublicInfo (get_public_info shared_id)
  | RqSetPublicInfoIfVersion path value expected =>
      on_store (λ _, RsUpdated)
        (set_public_info_if_version encode decode pid fails from_openssh schema path value expected)
  | RqRemovePublicInfoIfVersion path expected =>
      on_store RsRemoved (remove_public_info_if_version encode decode pid fails schema path expected)
  | RqQuarantine value => on_store RsQuarantined (quarantine encode decode pid fails (re_random env 8) value)
  | RqListQuarantine => reads RsQuarantineEntries list_quarantine
  | RqRemoveQuarantined id => on_store RsRemoved (remove_quarantined encode decode pid fails id)
  | RqRegisterFrontend => with_broker (bmap (λ _, RsFrontendRegistered) (Broker.register now session))
  | RqPollApprovals =>
      with_broker (requests ← Broker.pending now session;
                   b ← st_get;
                   mret (RsApprovals requests (procedures requests b)))
  | RqSubmitApproval request => with_broker (bmap RsApprovalState (submit now now' request))
  | RqClaimApproval id lease_ms =>
      with_broker (bmap (λ c, RsApprovalClaimed (cl_lease_id c) (cl_expires_in_ms c))
                     (Broker.claim now now' session id (Prelude.millis lease_ms)))
  | RqRenewApproval id lease_id lease_ms =>
      with_broker (bmap RsApprovalRenewed (Broker.renew now now' session id lease_id (Prelude.millis lease_ms)))
  | RqResolveApproval id lease_id decision message =>
      with_broker (bmap (λ _, RsApprovalResolved) (Broker.resolve now session id lease_id decision message))
  | RqCancelApproval id => with_broker (bmap (λ _, RsApprovalCancelled) (Broker.cancel now id))
  | RqApprovalStatus id => with_broker (bmap RsApprovalState (Broker.status now now' id))
  | RqCommitSummary => on_git RsCommitSummary (summary repository)
  | RqAgentReply _ => st_lift (Err "no signing request is pending")
  | RqAnswerSecretRequest _ _ => st_lift (Err "answers are accepted only on an attached operator connection")
  | RqEndSecretSession => st_lift (Err "no secret session is open")
  | RqRequestDeployment target allow_partial procedure =>
      request_deployment env schema peer target allow_partial procedure
  | RqEndProcedure _ => st_lift (Err "no procedure is registered on this connection")
  | RqFailProcedureStep procedure label reason =>
      on_operators (λ _, RsSuccess) (operators_fail_step proc_stat procedure peer label reason)
  | RqWarnProcedureStep procedure label reason =>
      on_operators (λ _, RsSuccess) (operators_warn_step proc_stat procedure peer label reason)
  | RqReportProcedureProgress procedure text percent =>
      on_operators (λ _, RsSuccess) (operators_progress_step proc_stat procedure peer text percent)
  | RqGetSchema => λ s,
      let waiting := (0 <? pending_count (sv_operators s)) || has_pending (sv_broker s) in
      (Ok (RsSchemaDocument (fst <$> document)
             (match document with Some (_, at_) => age_ms (re_now env) at_ | None => 0 end) waiting), s)
  | RqCancelCountdown _ => st_lift (Err "countdowns are cancelled only on an attached operator connection")
  | _ => st_lift (Err "handled above")
  end.

Definition publish_on (event : BackendEvent) (s : Server G) : Server G :=
  with_feed_state (Feed.publish event (sv_feed s)) s.

(** The events of a response. *)
Definition announce (update : option BackendEvent) (response : Response) (s : Server G) : Server G :=
  let s := match update with
           | Some event => if is_error response then s else publish_on event s
           | None => s
           end in
  match response with
  | RsDeploymentRequested request _ => publish_on (ApprovalRequested request) s
  | _ => s
  end.

(** A whole turn: the schema, the event, the response, the announcement. *)
Definition answer_with (env : Request_env) (schema : Schema) (session peer : Z) (request : Request) (s : Server G)
  : Response * Server G :=
  let update := event_after_success request schema in
  let '(r, s) := response_to env schema session peer request s in
  let response := match r with Ok response => response | Err message => RsError message end in
  (response, announce update response s).

Definition answer (env : Request_env) (schema : Schema) (session peer : Z) (request : Request) (s : Server G)
  : Response * Server G :=
  if needs_fresh_schema request then
    match reload s with
    | None => answer_with env schema session peer request s
    | Some (Ok fresh) => answer_with env fresh session peer request s
    | Some (Err message) => (RsError ("reloading repository schema failed: " +:+ message), s)
    end
  else answer_with env schema session peer request s.

(** ** A connection *)
(** The requests of a connection, up to one that is handled elsewhere: the
    responses, and what is left. *)
Fixpoint serve_requests (schema : Schema) (session peer : Z) (requests : list (Request_env * Request)) (s : Server G)
  : list Response * list (Request_env * Request) * Server G :=
  match requests with
  | [] => ([], [], s)
  | (env, request) :: rest =>
      if hands_over request then ([], requests, s)
      else
        let '(response, s) := answer env schema session peer request s in
        let '(responses, remaining, s) := serve_requests schema session peer rest s in
        (response :: responses, remaining, s)
  end.

(** The end of a connection: its login approvals end, its session leaves the
    broker. *)
Definition close_connection (session : Z) (grants : list string) (s : Server G) : Server G :=
  let s := with_operators (end_grants grants (sv_operators s)) s in
  with_broker_state (disconnect session (sv_broker s)) s.
End Backend.
