(* ===== verification/BackendFacts.v ===== *)
(** * Changes of the listing are announced

    A request that changes which secrets or which public information are set
    publishes one event of the right kind, which is what the view of a TUI
    relies on ([announces] of Feed.v). *)
From stdpp Require Import gmap.
From S2P Require Import Prelude BTree Text Procedure Procedures SshAuth Schema SchemaValidation Signing Requests Operators.
From S2P Require Import Store Broker FileSystem Profiles Git Feed Protocol Backend.
#[local] Open Scope Z_scope.

(** ** Operations of the store *)
Section Listings.
Context (encode : StoreDocument → result string string) (decode : string → result string StoreDocument)
  (pid : Z).
Context (Hcodec : ∀ d text, encode d = Ok text → decode text = Ok d).
Context (fails : SysCall → option Fault).

(** What [RqList] and [RqListPublicInfo] show of a store file: which are set. *)
Definition shown_keys (disk : Disk) : option (list string * list string) :=
  match stored decode (dk_files disk) with
  | Ok d => Some (bt_keys (sd_secrets d), bt_keys (sd_public_info d))
  | Err _ => None
  end.

(** [m] leaves the listing, or replaces a document by a related one. *)
Definition store_op {A} (rel : StoreDocument → StoreDocument → Prop) (m : stE Disk StoreError A) : Prop :=
  ∀ disk r disk', m disk = (r, disk') →
    shown_keys disk' = shown_keys disk
    ∨ ∃ d d', stored decode (dk_files disk) = Ok d ∧ stored decode (dk_files disk') = Ok d' ∧ rel d d'
        ∧ (is_ok r = true ∨ late_failure fails).

Lemma store_op_lock {A} rel write (act : action A) :
  (∀ d v d', act d = (Ok v, d') → rel d d') → store_op rel (with_lock encode decode pid fails write act).
Proof.
  intros Hact disk r disk' H. destruct (stored decode (dk_files disk)) as [d|e] eqn:Ed.
  - destruct (with_lock_spec encode decode pid _ _ _ _ _ _ _ Ed H) as [_ [[Hs _]|(v & d' & t & _ & Ha & He & Hrep & Hr)]].
    + left. unfold shown_keys, stored. by destruct Hs as [-> _].
    + right. exists d, d'. split_and!; [done|by eapply replaced_stored|by eapply Hact|].
      destruct Hr as [[-> _]|[_ Hr]]; [by left|by right].
  - destruct (with_lock_undecoded encode decode pid _ _ _ _ _ _ _ Ed H) as [_ ->]. by left.
Qed.
Lemma store_op_same {A} rel (m : stE Disk StoreError A) :
  (∀ disk, (m disk).2 = disk) → store_op rel m.
Proof. intros Hm disk r disk' H. left. specialize (Hm disk). rewrite H in Hm. by subst. Qed.
Lemma store_op_reading {A} rel (f : StoreDocument → result StoreError A) : store_op rel (reading encode decode pid fails f).
Proof. apply store_op_same. intros disk. apply reading_keeps. Qed.
Lemma store_op_lift {A B} rel (r : result StoreError A) (k : A → stE Disk StoreError B) :
  (∀ a, r = Ok a → store_op rel (k a)) → store_op rel (st_lift r ≫= k).
Proof. intros Hk. destruct r as [a|e]; [by apply Hk|]. by apply store_op_same. Qed.
Lemma store_op_ret {A B} rel (m : stE Disk StoreError A) (f : A → B) :
  store_op rel m → store_op rel (a ← m; mret (f a)).
Proof.
  intros Hm disk r disk'. unfold mbind, stE_bind, mret, stE_ret. destruct (m disk) as [[a|e] disk1] eqn:E;
    intros [= <- <-]; destruct (Hm _ _ _ E) as [?|(d & d' & ? & ? & ? & ?)]; eauto 10.
Qed.

(** Which of the listed keys an operation may change. *)
Definition keeps_keys (d d' : StoreDocument) : Prop :=
  bt_keys (sd_secrets d') = bt_keys (sd_secrets d) ∧ bt_keys (sd_public_info d') = bt_keys (sd_public_info d).
Definition keeps_public (d d' : StoreDocument) : Prop := sd_public_info d' = sd_public_info d.
Definition keeps_secrets (d d' : StoreDocument) : Prop := sd_secrets d' = sd_secrets d.

Context (b64_decode : string → option (list Z)) (from_openssh : string → option Algorithm) (schema : Schema).

Lemma op_set path envelope expected :
  store_op keeps_public (set_checked encode decode pid fails b64_decode schema path envelope expected).
Proof.
  apply store_op_lift. intros names _. apply store_op_lock. intros d v d'. unfold set_action, keeps_public.
  repeat case_match; intros; by simplify_eq.
Qed.
Lemma op_remove path : store_op keeps_public (Store.remove encode decode pid fails schema path).
Proof. apply store_op_lift. intros [] _. apply store_op_lock. intros d v d' [= <- <-]. done. Qed.
Lemma op_remove_if path expected : store_op keeps_public (remove_if_version encode decode pid fails schema path expected).
Proof.
  apply store_op_lift. intros [] _. apply store_op_lock. intros d v d'. unfold remove_if_version_action.
  case_match; [|done]. intros [= <- <-]. done.
Qed.
Lemma op_set_generated path value expected :
  store_op keeps_keys (set_generated_public_key_if_version encode decode pid fails b64_decode schema path value expected).
Proof.
  apply store_op_lift. intros [] _. apply store_op_lock. intros d v d'. unfold set_generated_action.
  repeat case_match; intros; by simplify_eq.
Qed.
Lemma op_set_public_key path key version expected :
  store_op keeps_keys (set_public_key_if_version encode decode pid fails b64_decode schema path key version expected).
Proof.
  apply store_op_lift. intros [] _. apply store_op_lock. intros d v d'. unfold set_public_key_action.
  repeat case_match; intros; simplify_eq; [done..|]. split; [apply bt_keys_update|done].
Qed.
Lemma op_quarantine random value : store_op keeps_keys (quarantine encode decode pid fails random value).
Proof.
  apply store_op_lift. intros [] _. apply store_op_lift. intros bytes _. apply store_op_ret, store_op_lock.
  intros d v d'. unfold quarantine_action. case_match; intros; by simplify_eq.
Qed.
Lemma op_remove_quarantined id : store_op keeps_keys (remove_quarantined encode decode pid fails id).
Proof. apply store_op_lock. intros d v d' [= <- <-]. done. Qed.

(** Public information is set under a shared id, which the event names. *)
Definition public_event (path : SecretPath) (set : bool) (d d' : StoreDocument) : Prop :=
  keeps_secrets d d' ∧ ∃ id, public_info_event path set schema = Some (PublicInfoChanged id set).
Lemma op_set_public_info path value expected :
  store_op (public_event path true) (set_public_info_if_version encode decode pid fails from_openssh schema path value expected).
Proof.
  apply store_op_lift. intros id Hid. apply store_op_lock. intros d v d'. unfold set_public_info_action.
  case_match; intros; simplify_eq. split; [done|]. exists id. unfold public_info_event.
  unfold public_info_checks, secret in Hid. destruct (leaf schema path) as [[spec| |]|]; try done. cbn in Hid.
  repeat (case_match; try done). simplify_eq/=. destruct (guard_err _ _); by simplify_eq/=.
Qed.
Lemma op_remove_public_info path expected :
  store_op (public_event path false) (remove_public_info_if_version encode decode pid fails schema path expected).
Proof.
  apply store_op_lift. intros id Hid. apply store_op_lock. intros d v d'. unfold remove_public_info_action.
  case_match; intros; simplify_eq. split; [done|]. exists id. unfold public_info_event.
  unfold remove_public_info_checks, secret in Hid. destruct (leaf schema path) as [[spec| |]|]; try done. cbn in Hid.
  repeat (case_match; try done). by simplify_eq/=.
Qed.
End Listings.

(** ** One request *)
Section Turns.
Context {G : Type} `{Git G}.
Context (debug : string → string) (b64_encode : list Z → string) (b64_decode : string → option (list Z)).
Context (from_openssh : string → option Algorithm).
Context (encode : StoreDocument → result string string) (decode : string → result string StoreDocument)
  (pid : Z).
Context (Hcodec : ∀ d text, encode d = Ok text → decode text = Ok d).
Context (K : Kernel) (profiles_file : list string).
Context (from_toml : string → result string Document) (to_toml : Document → result string string).
Context (hash : string → Z) (proc_stat : Z → option string) (repository : string).
Context (document : option (string * Z)) (reload : Server G → option (result string Schema)).
Notation respond := (response_to debug b64_encode b64_decode from_openssh encode decode pid K profiles_file from_toml
  to_toml hash proc_stat repository document).
Notation turn := (answer_with debug b64_encode b64_decode from_openssh encode decode pid K profiles_file from_toml
  to_toml hash proc_stat repository document).
Notation served := (answer debug b64_encode b64_decode from_openssh encode decode pid K profiles_file from_toml
  to_toml hash proc_stat repository document reload).

(** An event for a change of the listing, which names the list that changed. *)
Definition names_change (event : BackendEvent) (before after : list string * list string) : Prop :=
  match event with
  | SecretChanged _ _ => after.2 = before.2
  | PublicInfoChanged _ _ => after.1 = before.1
  | _ => False
  end.

(** What a turn from [s] to [s'] does to the listing and says of it. *)
Definition listing_told (env : Request_env) (response : Response) (s s' : Server G) : Prop :=
  shown_keys decode (sv_disk s') = shown_keys decode (sv_disk s)
  ∨ is_error response = false
      ∧ (∃ event before after, sv_feed s' = Feed.publish event (sv_feed s)
          ∧ shown_keys decode (sv_disk s) = Some before ∧ shown_keys decode (sv_disk s') = Some after
          ∧ names_change event before after)
  ∨ is_error response = true ∧ late_failure (re_fails env).

Lemma announce_disk update response (s : Server G) : sv_disk (announce update response s) = sv_disk s.
Proof. unfold announce. destruct update; [destruct (is_error response)|]; by destruct response. Qed.

Lemma turn_disk_kept env schema session peer request s :
  sv_disk (respond env schema session peer request s).2 = sv_disk s →
  listing_told env (turn env schema session peer request s).1 s (turn env schema session peer request s).2.
Proof.
  intros Hd. left. unfold answer_with. destruct (respond _ _ _ _ _ _) as [r s1]. cbn in Hd |- *.
  by rewrite announce_disk, Hd.
Qed.

(** A store operation whose response is not the one of a deployment. *)
Definition plain_response (response : Response) : bool :=
  match response with RsError _ | RsDeploymentRequested _ _ => false | _ => true end.

Lemma turn_store {A} env schema session peer request (f : A → Response) (m : stE Disk StoreError A) rel s :
  respond env schema session peer request = on_store debug f m →
  (∀ a, plain_response (f a) = true) →
  store_op decode (re_fails env) rel m →
  (∀ d d', rel d d' →
     (bt_keys (sd_secrets d'), bt_keys (sd_public_info d')) = (bt_keys (sd_secrets d), bt_keys (sd_public_info d))
     ∨ ∃ event, event_after_success request schema = Some event
         ∧ names_change event (bt_keys (sd_secrets d), bt_keys (sd_public_info d))
             (bt_keys (sd_secrets d'), bt_keys (sd_public_info d'))) →
  listing_told env (turn env schema session peer request s).1 s (turn env schema session peer request s).2.
Proof.
  intros Hr Hf Hop Hrel. unfold answer_with. rewrite Hr. unfold on_store.
  destruct (m (sv_disk s)) as [r d2] eqn:Em. unfold listing_told. cbn. rewrite announce_disk. cbn.
  destruct (Hop _ _ _ Em) as [Hk|(d & d' & Hd & Hd' & Hdd & Hok)]; [by left|].
  unfold shown_keys. rewrite Hd, Hd'. destruct (Hrel _ _ Hdd) as [->|(event & He & Hn)]; [by left|]. right.
  destruct r as [a|e].
  - left. specialize (Hf a). split; [by destruct (f a)|]. exists event. do 2 eexists. split; [|by split_and!].
    unfold announce. rewrite He. by destruct (f a).
  - right. destruct Hok as [?|?]; [done|]. by split.
Qed.

Lemma keys_kept d d' : keeps_keys d d' →
  (bt_keys (sd_secrets d'), bt_keys (sd_public_info d')) = (bt_keys (sd_secrets d), bt_keys (sd_public_info d)).
Proof. by intros [-> ->]. Qed.

(** [m] leaves the store alone. *)
Definition off_store {A} (m : @step G A) : Prop := ∀ s, sv_disk (m s).2 = sv_disk s.
Lemma off_store_bind {A B} (m : @step G A) (k : A → @step G B) :
  off_store m → (∀ a, off_store (k a)) → off_store (m ≫= k).
Proof.
  intros Hm Hk s. unfold mbind, stE_bind. specialize (Hm s). destruct (m s) as [[a|e] s1]; [|done].
  rewrite Hk. exact Hm.
Qed.
Lemma off_store_lift {A} (r : result string A) : off_store (st_lift r).
Proof. done. Qed.

Lemma deployment_off_store env schema peer target allow_partial procedure :
  off_store (request_deployment proc_stat env schema peer target allow_partial procedure).
Proof.
  unfold request_deployment. apply off_store_bind; [apply off_store_lift|intros secrets].
  apply off_store_bind; [apply off_store_lift|intros _].
  apply off_store_bind; [apply off_store_lift|intros random].
  apply off_store_bind; [|intros numbered s; unfold queue_deployment; by destruct (submit_in_procedure _ _ _ _ _)].
  destruct procedure as [token|]; [|done]. intros s. unfold procedure_step.
  by destruct (advance _ _ _ _ _ _ _).
Qed.

Lemma off_store_profiles (m : stE Fs IoErr ProfileSnapshot) : off_store (on_profiles m).
Proof. intros s. unfold on_profiles. by destruct (m _). Qed.
Lemma off_store_broker (m : bop Response) : off_store (with_broker m).
Proof. intros s. unfold with_broker. by destruct (m _). Qed.
Lemma off_store_operators {A} (f : A → Response) m : off_store (on_operators f m).
Proof. intros s. unfold on_operators. by destruct (m _). Qed.
Lemma off_store_git {A} (f : A → Response) (m : stE G string A) : off_store (on_git f m).
Proof. intros s. unfold on_git. by destruct (m _). Qed.
Lemma off_store_reading {A} fails (f : A → Response) (g : StoreDocument → result StoreError A) :
  off_store (on_store debug f (reading encode decode pid fails g)).
Proof.
  intros s. unfold on_store. pose proof (reading_keeps encode decode pid fails g (sv_disk s)) as Hk.
  by destruct (reading _ _ _ _ _ _).
Qed.
Lemma off_store_pure (f : Server G → result string Response) : off_store (λ s, (f s, s)).
Proof. done. Qed.

Ltac off_store :=
  apply turn_disk_kept; cbv beta iota zeta delta [response_to];
  first [apply off_store_profiles|apply off_store_broker|apply off_store_operators|apply off_store_git
    |apply off_store_reading|apply deployment_off_store|apply off_store_lift|apply off_store_pure].
(** An operation of the store that changes one of the lists, or neither. *)
Ltac on_list op :=
  eapply turn_store; [done|done|by apply op|];
  intros ? ? Hp; right; eexists; split; [done|]; cbn; by rewrite Hp.
Ltac on_public op :=
  eapply turn_store; [done|done|by apply op|];
  intros ? ? (Hp & ? & He); right; eexists; split; [exact He|]; cbn; by rewrite Hp.
Ltac on_neither op :=
  eapply turn_store; [done|done|by apply op|]; intros ? ? Hp; left; by apply keys_kept.

Lemma turn_told env schema session peer request s :
  listing_told env (turn env schema session peer request s).1 s (turn env schema session peer request s).2.
Proof.
  destruct request; try off_store.
  - on_list (@op_set).
  - on_list (@op_set).
  - on_list (@op_remove).
  - on_list (@op_remove_if).
  - on_neither (@op_set_generated).
  - on_neither (@op_set_public_key).
  - on_public (@op_set_public_info).
  - on_public (@op_remove_public_info).
  - on_neither (@op_quarantine).
  - on_neither (@op_remove_quarantined).
Qed.

End Turns.
