(* ===== verification/BackendSample.v ===== *)
(** * The backend, evaluated

    The parts a request of the management interface runs through: profiles in
    [/repo], whose document is written as the names of its profiles, one per
    line; a commit in a repository with one commit and both managed files; a
    feed with one subscriber; a backend with one stored value; and one whose
    broker is full, in a procedure. *)
From stdpp Require Import gmap pretty.
From S2P Require Import Prelude BTree Text Procedure Procedures SshAuth Schema SchemaValidation Signing Requests Operators.
From S2P Require Import Store Broker FileSystem FsUtil Profiles Git Feed Protocol Backend BackendFacts.
#[local] Open Scope Z_scope.

(** ** Profiles *)

Definition plain_profile : ViewProfile :=
  {| vp_tree_order := ["host"; "service"]; vp_facets := []; vp_view_filter := VfAll; vp_human_only := false |}.
#[export] Instance document_eq_dec : EqDecision Document.
Proof.
  assert (EqDecision ProfileFacet) by solve_decision.
  assert (EqDecision ProfileViewFilter) by solve_decision.
  assert (EqDecision ViewProfile) by solve_decision.
  solve_decision.
Defined.

Definition read_names (content : string) : result string Document :=
  Ok {| do_version := 1;
        do_profiles := (λ name, (name, plain_profile))
                         <$> List.filter (λ name, negb (bool_decide (name = ""))) (Text.split (zb 10) content) |}.
(** Documents of other profiles are refused. *)
Definition write_names (document : Document) : result string string :=
  let content := Text.join (String (zb 10) "") (do_profiles document).*1 in
  if bool_decide (read_names content = Ok document) && bool_decide (from_utf8 (bytes content) = Some content)
  then Ok content else Err "not written".

Lemma names_codec document content : write_names document = Ok content →
  from_utf8 (bytes content) = Some content ∧ read_names content = Ok document.
Proof. unfold write_names. intros H. case_match; [|done]. bool_prop. simplify_eq. tauto. Qed.

Definition sample_kernel : Kernel :=
  {| k_uid := 0; k_gid := 0; k_umask := 18; k_dev := λ _, 0; k_readdir := id;
     k_inherit := λ acl mode, (acl, mode); k_chmod_acl := λ _ acl, acl; k_acl_mode := λ _ mode, mode |}.
Definition no_fault : nat → option string := λ _, None.
Definition root_meta (mode : Z) : Meta :=
  {| m_uid := 0; m_gid := 0; m_mode := mode; m_acl := None; m_default_acl := None |}.
Definition profile_file : list string := ["repo"; "nix-secrets-profiles.toml"].
Definition world_with (names : list string) : Fs :=
  {| fs_world := <[profile_file := EFile (root_meta 384) (bytes (Text.join (String (zb 10) "") names))]>
                   {[["repo"] := EDir (root_meta 493)]};
     fs_calls := 0; fs_trace := [] |}.

(** The revision is the length here. *)
Definition sample_save (name : string) (expected : Z) : stE Fs IoErr ProfileSnapshot :=
  save_profile sample_kernel no_fault read_names write_names slen profile_file (temp_name 7 0) name plain_profile expected.
Definition sample_delete (name : string) (expected : Z) : stE Fs IoErr ProfileSnapshot :=
  delete_profile sample_kernel no_fault read_names write_names slen profile_file (temp_name 7 0) name expected.
Definition sample_list : stE Fs IoErr ProfileSnapshot := list_profiles no_fault read_names slen profile_file.

Definition saved_night : result IoErr ProfileSnapshot * Fs :=
  change_profiles sample_kernel no_fault read_names write_names slen profile_file (temp_name 7 0) 3
    (insert_profile "night" plain_profile) (world_with ["day"]).

Lemma profile_edits_atomic_witness :
  match saved_night.1 with Ok s => bt_keys (sn_profiles s) = ["day"; "night"] | Err _ => False end
  ∧ fs_world saved_night.2 !! profile_file
    = Some (EFile (root_meta 384) (bytes ("day" +:+ String (zb 10) "night")))
  ∧ old_or_new read_names write_names slen ["repo"] 7 0 (fs_world (world_with ["day"])) 3
      (insert_profile "night" plain_profile) (fs_world saved_night.2).
Proof.
  split; [vm_compute; reflexivity|]. split; [vm_compute; reflexivity|].
  pose proof (profile_edits_atomic sample_kernel no_fault read_names write_names slen names_codec
    ["repo"] 7 0 (fs_world (world_with ["day"])) 3 (insert_profile "night" plain_profile) 0%nat []) as H.
  change (change_profiles _ _ _ _ _ _ _ _ _ _) with saved_night in H.
  destruct saved_night as [r s]. exact (proj1 (proj1 H)).
Defined.

(** Sixty-four profiles are allowed, but the limit is checked only when the
    file is read: saving one more replaces the file and then fails, and from
    there on the profiles can be neither listed nor changed, not even deleted. *)
Definition sixty_four : list string := (λ i : nat, "p" +:+ pretty i) <$> seq 10 64.
Definition too_many : IoErr := invalid "too many profiles".

Theorem sixty_fifth_locks_profiles :
  let revision := slen (Text.join (String (zb 10) "") sixty_four) in
  is_ok (sample_list (world_with sixty_four)).1 = true
  ∧ let '(r, s) := sample_save "q" revision (world_with sixty_four) in
    r = Err too_many
    ∧ fs_world s !! profile_file = Some (EFile (root_meta 384) (bytes (Text.join (String (zb 10) "") (sixty_four ++ ["q"]))))
    ∧ (sample_list s).1 = Err too_many
    ∧ (sample_delete "q" revision s).1 = Err too_many
    ∧ (sample_save "p10" revision s).1 = Err too_many.
Proof. vm_compute. repeat split; reflexivity. Qed.

(** ** A commit *)

Definition says (text : string) : result string Output :=
  Ok {| op_success := true; op_status := "exit status: 0"; op_stdout := bytes text; op_stderr := [] |}.
Definition repository (history : list Call) (call : Call) : result string Output :=
  match drop 2 call.1 with
  | "log" :: _ => says "[1a2b3c4] rotate"
  | "rev-parse" :: _ => says "1a2b3c4"
  | _ => says ""
  end.
Definition rotate : CommitOptions := {| co_message := " rotate "; co_amend := false; co_signoff := false |}.
Definition both_present : string → list Call → bool := λ _ _, true.

Lemma commit_only_managed_witness :
  let '(r, final) := commit (H := journal repository both_present) "/repo" rotate (Some "/run/agent") [] in
  r = Ok {| cr_hash := "1a2b3c4"; cr_output := "[1a2b3c4] rotate" |}
  ∧ commit_trace repository "/repo" rotate (Some "/run/agent") [] r final.
Proof.
  destruct (commit (H := journal repository both_present) "/repo" rotate (Some "/run/agent") []) as [r final] eqn:E.
  split; [|exact (commit_only_managed repository both_present "/repo" rotate (Some "/run/agent") [] r final E)].
  vm_compute in E. by injection E.
Defined.

(** ** The feed *)

Definition night : BackendEvent := SecretChanged "web.services.app.login" true.
Definition two_events : list FeedOp := [FSubscribe; FPublish night; FPublish ProfilesChanged; FReceive 0].

Lemma feed_no_gaps_witness :
  rn_got (feed_run two_events) = [[night]]
  ∧ ∃ lost, [night; ProfilesChanged] = [night] ++ [ProfilesChanged] ++ lost.
Proof.
  split; [reflexivity|].
  destruct (feed_no_gaps two_events 0 {| ch_queue := [ProfilesChanged]; ch_open := true |}
    [night; ProfilesChanged] [night] eq_refl eq_refl eq_refl) as [(lost & H & _) _].
  exists lost. exact H.
Defined.

Definition ten_twenty : @Holdings Z Z Z := {| so_secrets := 10; so_public := 20; so_profiles := 30 |}.
Definition one_subscriber : Feed :=
  {| fd_channels := [{| ch_queue := []; ch_open := true |}]; fd_senders := [0%nat] |}.
Definition shown (phase : @Listening Z) (rows profiles : option Z) : @World Z Z Z Z :=
  {| wd_stored := ten_twenty; wd_unpublished := []; wd_feed := one_subscriber; wd_id := Some 0%nat; wd_wire := [];
     wd_phase := phase; wd_rows := rows; wd_profiles := profiles |}.

Lemma listed : rtc (world_step Z.add) (world_start ten_twenty [] (rn_feed (feed_run []))) (shown LWait (Some 30) (Some 30)).
Proof.
  apply (rtc_l _ _ (shown (LSecrets true) None None)); [apply WCalm, (WSubscribe Z.add); reflexivity|].
  apply (rtc_l _ _ (shown (LPublic true 10) None None)); [apply WCalm, (WListSecrets Z.add true); reflexivity|].
  apply (rtc_l _ _ (shown LProfiles (Some 30) None)); [apply WCalm, (WListPublic Z.add true 10); reflexivity|].
  apply (rtc_l _ _ (shown LWait (Some 30) (Some 30))); [apply WCalm, (WListProfiles Z.add); reflexivity|].
  apply rtc_refl.
Qed.

Lemma view_follows_store_witness : rows_current Z.add (shown LWait (Some 30) (Some 30)).
Proof.
  destruct (view_follows_store Z.add ten_twenty [] [] _ listed) as [_ H].
  destruct H as [H|[H _]]; [|discriminate H|exact H].
  intros w' Hs. inversion Hs; simplify_eq/=.
  match goal with H : [] = ?l ++ _ :: _ |- _ => destruct l; discriminate H end.
Defined.

(** ** Requests *)

Definition no_git : Git unit := {| git_process _ _ := λ s, (Err "no git", s); file_present _ _ := false |}.
Definition idle_kernel : Kernel :=
  {| k_uid := 0; k_gid := 0; k_umask := 18; k_dev := λ _, 0; k_readdir := id;
     k_inherit := λ acl mode, (acl, mode); k_chmod_acl := λ _ acl, acl; k_acl_mode := λ _ mode, mode |}.
Definition no_toml : string → result string Document := λ _, Err "no TOML".
Definition no_document : Document → result string string := λ _, Err "no TOML".

Definition quiet_env : Request_env :=
  {| re_now := 5; re_now' := 5; re_random := λ n, Ok (repeat 165 (Z.to_nat n)); re_fails := no_faults;
     re_fault := λ _, None; re_temp := "temp"; re_committed := Err "no commit"; re_gone := λ _, false |}.

Definition server_with (broker : ApprovalBroker) (operators : Sys) : Server unit :=
  {| sv_disk := store_of (encoded (document_of 7));
     sv_profiles := {| fs_world := ∅; fs_calls := 0; fs_trace := [] |};
     sv_broker := broker; sv_operators := operators;
     sv_feed := {| fd_channels := [{| ch_queue := []; ch_open := true |}]; fd_senders := [0%nat] |};
     sv_git := tt |}.

Definition sample_answer (schema : Schema) (request : Request) (s : Server unit) : Response * Server unit :=
  answer (H := no_git) id (λ _, "") no_decode sample_openssh sample_encode sample_decode 1 idle_kernel ["profiles"]
    no_toml no_document slen sample_tree "/repo" None (λ _, None) quiet_env schema 1 20 request s.

Definition removing : Response * Server unit :=
  sample_answer (sample_schema "user-ann-services") (RqRemove sample_path) (server_with broker_default operators_default).


(** ** A refused deployment uses up a step *)
(** A broker with as many requests as it takes, all of them settled. *)
Definition settled (i : nat) : string * Entry :=
  let id := "r" +:+ pretty i in
  (id, {| en_request := {| ar_id := id; ar_target := "web"; ar_secrets := ["x"]; ar_allow_partial := false |};
          en_state := Cancelled; en_procedure := None |}).
Definition full_broker : ApprovalBroker :=
  {| br_entries := settled <$> seq 0 4096; br_frontends := []; br_next_lease := 1 |}.
(** The operators of a backend in which one procedure has begun. *)
Definition in_procedure : Sys := on_procedures sample_begun.2 operators_default.
Definition current_step (s : Server unit) : list Z := ps_step <$> snapshot (sy_procedures (sv_operators s)).
Definition refused : Response * Server unit :=
  sample_answer (sample_schema "user-ann-services") (RqRequestDeployment "web" false (Some sample_token))
    (server_with full_broker in_procedure).

(** The procedure's step is numbered before the broker takes the request, so a
    deployment that the full broker refuses has used up a step. *)
Theorem refused_deployment_uses_step :
  current_step (server_with full_broker in_procedure) = [0]
  ∧ refused.1 = RsError "approval broker capacity reached"
  ∧ current_step refused.2 = [1]
  ∧ sv_broker refused.2 = full_broker.
Proof. vm_compute. repeat split; reflexivity. Qed.
