(* ===== verification/Deploy.v ===== *)
(** * Deploying secret generations

    [crates/deploy/src/deploy.rs], [deploy/staging.rs], [deploy/recovery.rs]
    and [validate.rs]: a batch of values becomes a new generation directory
    that a symbolic link makes current in one step; a deployment into the
    secret root and the public-info root commits through the secret root's
    link, and recovery finishes or discards what a crash interrupted.

    The deployment lock makes a deployment run alone; the test-only failure
    points are not modelled, since every state between two calls is a crash
    state here.  The JSON codec of the versions file and the iteration order
    of a [HashSet] are arguments; the generation name is an argument too. *)
From S2P Require Import Prelude BTree FileSystem FsUtil Text.
#[local] Open Scope Z_scope.

(** ** Batches *)
Inductive SecretClass := Setup | Service | Backup | PublicInfo.
#[export] Instance secret_class_eq_dec : EqDecision SecretClass.
Proof. solve_decision. Defined.
Definition directory (c : SecretClass) : string :=
  match c with Setup => "setup" | Service => "service" | Backup => "backup" | PublicInfo => "" end.

Record ResolvedSecret := {
  rs_identifier : string;
  rs_version_id : string;
  rs_service : string;
  rs_class : SecretClass;
  rs_secret : string;
  rs_contents : list Z;
  rs_owner : Z;
  rs_group : Z;
  rs_mode : Z;
  rs_audit_ssh_user : option string;
  rs_audit_key_names : list string;
}.
Record AuditDetail := { ad_ssh_user : option string; ad_key_names : list string }.

(** [ResolvedBatch::partition]: secrets and public information, in order. *)
Definition partition (entries : list ResolvedSecret) : list ResolvedSecret * list ResolvedSecret :=
  foldl (λ '(secrets, public) entry,
    if bool_decide (rs_class entry = PublicInfo) then (secrets, public ++ [entry])
    else (secrets ++ [entry], public)) ([], []) entries.
Definition audit_details (entries : list ResolvedSecret) : list (string * AuditDetail) :=
  foldl (λ details entry,
    bt_insert (rs_identifier entry)
      {| ad_ssh_user := rs_audit_ssh_user entry; ad_key_names := rs_audit_key_names entry |} details)
    [] entries.

Record ValidatedSecret := { vs_spec : ResolvedSecret; vs_relative : Path }.

Definition is_name_byte (b : Z) : bool := is_ascii_alphanumeric b || byte_of "._-" b.
Definition validate_name (kind value : string) : result DeployError unit :=
  guard_err (negb (bool_decide (value = "")) && (slen value <=? 128) && all_bytes is_name_byte value
             && negb (bool_decide (value = ".")) && negb (bool_decide (value = "..")))
    (Invalid ("invalid " +:+ kind +:+ " name")).
Definition validate_mode (mode : Z) : result DeployError unit :=
  guard_err ((Z.land mode (Z.lnot (oct [4; 4; 0])) =? 0) && negb (Z.land mode (oct [4; 0; 0]) =? 0))
    (Invalid "mode must grant owner read access and no write, execute, or other access").

(** [PathBuf::join]: an empty directory name adds no component. *)
Definition relative_path (spec : ResolvedSecret) : Path :=
  let d := directory (rs_class spec) in
  rs_service spec :: (if bool_decide (d = "") then [] else [d]) ++ [rs_secret spec].
Definition validate_secret (destinations : list Path) (spec : ResolvedSecret)
  : result DeployError ValidatedSecret :=
  let in_value {A} (r : result DeployError A) :=
    map_err (during ("validating " +:+ rs_identifier spec)) r in
  _ ← in_value (validate_name "service" (rs_service spec));
  _ ← in_value (validate_name "secret" (rs_secret spec));
  _ ← in_value (if bool_decide (rs_class spec = PublicInfo)
                then guard_err (rs_mode spec =? oct [6; 4; 4]) (Invalid "public-info mode must be 0644")
                else validate_mode (rs_mode spec));
  _ ← guard_err (negb (bool_decide (rs_identifier spec = "") || bool_decide (rs_version_id spec = "")))
        (Invalid "secret identifier and version must not be empty");
  let relative := relative_path spec in
  _ ← in_value (guard_err (bool_decide (relative ∉ destinations))
                  (Invalid ("duplicate destination: " +:+ join "/" relative)));
  Ok {| vs_spec := spec; vs_relative := relative |}.
Fixpoint validate_each (destinations : list Path) (entries : list ResolvedSecret)
  : result DeployError (list ValidatedSecret) :=
  match entries with
  | [] => Ok []
  | spec :: entries =>
      entry ← validate_secret destinations spec;
      rest ← validate_each (vs_relative entry :: destinations) entries;
      Ok (entry :: rest)
  end.
Definition validate (entries : list ResolvedSecret) : result DeployError (list ValidatedSecret) :=
  _ ← guard_err (negb (bool_decide (entries = []))) (Invalid "deployment is empty");
  validate_each [] entries.

(** ** Deployers *)
Record Deployer := {
  dp_root : Path;
  dp_require_root_owner : bool;
  dp_commit_root : option Path;
}.
Definition persistent : Deployer :=
  {| dp_root := ["persistent"; "secrets"]; dp_require_root_owner := true; dp_commit_root := None |}.
Definition public_info : Deployer :=
  {| dp_root := ["persistent"; "public-info"]; dp_require_root_owner := true;
     dp_commit_root := Some ["persistent"; "secrets"] |}.

Definition RETAINED_GENERATIONS : nat := 3.
Definition MAX_VERSIONS_BYTES : Z := 4 * 1024 * 1024.

Definition current (root : Path) : Path := root ++ [".current"].
Definition store (root : Path) : Path := root ++ [".generations"].
Definition generation (root : Path) (id : string) : Path := root ++ [".generations"; id].
Definition staging_of (root : Path) (id : string) : Path :=
  root ++ [".generations"; ".staging-" +:+ id].
Definition pending_pointer (root : Path) (id : string) : Path := root ++ [".current-" +:+ id].
Definition display (p : Path) : string := "/" +:+ join "/" p.
Definition publishing (d : Deployer) : string :=
  "publishing a generation under " +:+ display (dp_root d).

Definition validate_current_target (target : Path) : result DeployError unit :=
  match target with
  | [store; id] =>
      guard_err (bool_decide (store = ".generations") && valid_generation id)
        (Invalid "current pointer has an invalid target")
  | _ => Err (Invalid "current pointer has an invalid target")
  end.

Section Deploy.
Context (K : Kernel) (fault : nat → option string).
Context (to_json : list (string * string) → result string (list Z)).
Context (from_json : list Z → result string (list (string * string))).
Context (hash_order : list string → list string).

(** [match call { Err(e) if e.kind() == NotFound => None, r => Some(r?) }] *)
Definition unless_absent {A : Type} (m : stE Fs IoErr A) : FS (option A) :=
  r ← attempt m;
  match r with
  | Ok a => mret (Some a)
  | Err e => if bool_decide (io_kind e = KNotFound) then mret None else st_lift (Err (Io e))
  end.

Definition current_versions (root : Path) : FS (list (string * string)) :=
  link ← unless_absent (read_link fault (current root));
  match link with
  | None => mret []
  | Some target =>
      _ ← st_lift (validate_current_target target);
      let path := (root ++ target) ++ [VERSIONS] in
      metadata ← io (symlink_metadata fault path);
      _ ← st_guard (match metadata with
                    | EFile _ contents => zlen contents <=? MAX_VERSIONS_BYTES
                    | _ => false
                    end) (Invalid "generation version metadata is invalid");
      input ← io (read_file fault path);
      st_lift (map_err (λ e, Invalid ("invalid generation version metadata: " +:+ e))
                 (from_json input))
  end.

(** ** Staging *)
Definition insert_versions (entries : list ValidatedSecret) (versions : list (string * string))
  : list (string * string) :=
  foldl (λ versions entry,
    bt_insert (rs_identifier (vs_spec entry)) (rs_version_id (vs_spec entry)) versions)
    versions entries.
Definition stage_versions (root staging : Path) (entries : list ValidatedSecret) : FS unit :=
  versions ← current_versions root;
  let versions := insert_versions entries versions in
  let path := staging ++ [VERSIONS] in
  _ ← io (create_new K fault path (oct [6; 0; 0]));
  text ← st_lift (map_err (λ e, Invalid ("cannot encode generation versions: " +:+ e))
                    (to_json versions));
  _ ← io (write_file fault path text);
  io (sync_path fault path).

Definition clone_current (root staging : Path) : FS unit :=
  link ← unless_absent (read_link fault (current root));
  match link with
  | None => mret tt
  | Some target =>
      _ ← st_lift (validate_current_target target);
      clone_tree K fault (root ++ target) staging
  end.

Fixpoint create_components (cursor : Path) (components : Path) : FS unit :=
  match components with
  | [] => mret tt
  | c :: components =>
      let cursor := cursor ++ [c] in
      there ← exists_path fault cursor;
      _ ← (if there : bool then mret tt else create_directory K fault cursor (oct [7; 1; 1]));
      _ ← require_real_directory fault cursor "secret directory";
      create_components cursor components
  end.
Definition create_parents (base destination : Path) : FS unit :=
  match strip base destination with
  | None => fail "destination escaped generation"
  | Some relative => create_components base relative
  end.

Definition stage_one (staging : Path) (entry : ValidatedSecret) : FS unit :=
  let spec := vs_spec entry in
  let path := staging ++ vs_relative entry in
  _ ← create_parents staging (parent path);
  unchanged ← unchanged_carried fault path (rs_contents spec) (rs_owner spec) (rs_group spec)
                (rs_mode spec);
  if unchanged : bool then mret tt
  else
    existing ← attempt (symlink_metadata fault path);
    _ ← match existing with
        | Ok e =>
            _ ← st_guard (is_file e)
                  (Invalid "existing generation destination is not a regular file");
            io (remove_file fault path)
        | Err _ => mret tt
        end;
    _ ← io (create_new K fault path (oct [6; 0; 0]));
    _ ← io (write_file fault path (rs_contents spec));
    _ ← io (chown fault path (rs_owner spec) (rs_group spec));
    _ ← clear_access_acl fault path;
    _ ← io (chmod K fault path (rs_mode spec));
    _ ← io (sync_path fault path);
    metadata ← io (fstat fault path);
    st_guard ((m_uid metadata =? rs_owner spec) && (m_gid metadata =? rs_group spec)
              && (mode_bits metadata =? rs_mode spec))
      (Invalid "staged secret metadata does not match manifest").
Fixpoint stage_each (staging : Path) (entries : list ValidatedSecret) : FS unit :=
  match entries with
  | [] => mret tt
  | entry :: entries =>
      _ ← map_state_err (during ("staging " +:+ rs_identifier (vs_spec entry)))
            (stage_one staging entry);
      stage_each staging entries
  end.

(** ** Pruning *)
Definition newer (a b : string) : Prop := kcmp b a ≠ Gt.
#[export] Instance newer_dec a b : Decision (newer a b) := decide (kcmp b a ≠ Gt).
Fixpoint keep_newest (keep names : list string) : list string :=
  match names with
  | [] => keep
  | name :: names =>
      if bool_decide (length keep = RETAINED_GENERATIONS) then keep
      else keep_newest (if bool_decide (name ∈ keep) then keep else keep ++ [name]) names
  end.
Fixpoint list_generations (root : Path) (names : list string) : FS (list string) :=
  match names with
  | [] => mret []
  | name :: names =>
      _ ← next_entry fault;
      metadata ← io (symlink_metadata fault (store root ++ [name]));
      if starts_with ".staging-" name then
        _ ← (if is_dir metadata then io (remove_dir_all fault (store root ++ [name])) else mret tt);
        list_generations root names
      else
        rest ← list_generations root names;
        mret (if valid_generation name && is_dir metadata then name :: rest else rest)
  end.
Fixpoint remove_old (root : Path) (keep names : list string) : FS unit :=
  match names with
  | [] => mret tt
  | name :: names =>
      _ ← (if bool_decide (name ∈ keep) then mret tt
           else io (remove_dir_all fault (store root ++ [name])));
      remove_old root keep names
  end.
Definition prune_generations (root : Path) (active : string) : FS unit :=
  names ← io (read_dir K fault (store root));
  generations ← list_generations root names;
  let generations := merge_sort newer generations in
  let keep := keep_newest [active] generations in
  _ ← remove_old root keep generations;
  sync_directory fault (store root).

(** ** The root and its store *)
Definition require_root_metadata (d : Deployer) (metadata : Meta) (label : string) : FS unit :=
  st_guard (negb (dp_require_root_owner d && (negb (m_uid metadata =? 0) || negb (m_gid metadata =? 0))))
    (Invalid (label +:+ " must be owned by root")).
Definition prepare_root (d : Deployer) : FS unit :=
  let root := dp_root d in
  there ← exists_path fault root;
  _ ← (if there : bool then mret tt
       else
         made ← attempt (create_directory K fault root (oct [7; 1; 1]));
         match made with
         | Err (Io error) =>
             if bool_decide (io_kind error = KAlreadyExists) then mret tt
             else st_lift (Err (Io error))
         | r => st_lift r
         end);
  _ ← require_real_directory fault root "secret root";
  _ ← io (chmod K fault root (oct [7; 1; 1]));
  metadata ← io (fstat fault root);
  require_root_metadata d metadata "secret root".
Definition lock_deployments (d : Deployer) : FS unit :=
  let path := dp_root d ++ [".deploy-lock"] in
  _ ← io (open_or_create K fault path (oct [6; 0; 0]));
  e ← io (symlink_metadata fault path);
  match e with
  | EFile metadata _ =>
      _ ← require_root_metadata d metadata "deployment lock";
      _ ← io (chmod K fault path (oct [6; 0; 0]));
      next_entry fault  (* flock: waits, and may fail *)
  | _ => fail "deployment lock is not a regular file"
  end.
Definition validate_current (root : Path) : FS unit :=
  metadata ← unless_absent (symlink_metadata fault (current root));
  match metadata with
  | None => mret tt
  | Some metadata =>
      _ ← st_guard (is_link metadata) (Invalid "current pointer is not a symbolic link");
      target ← io (read_link fault (current root));
      _ ← st_lift (validate_current_target target);
      require_real_directory fault (root ++ target) "current generation"
  end.
Definition prepare_store (d : Deployer) : FS unit :=
  let root := dp_root d in
  there ← exists_path fault (store root);
  _ ← (if there : bool then mret tt else create_directory K fault (store root) (oct [7; 1; 1]));
  _ ← require_real_directory fault (store root) "generation store";
  _ ← io (chmod K fault (store root) (oct [7; 1; 1]));
  metadata ← io (fstat fault (store root));
  _ ← require_root_metadata d metadata "generation store";
  _ ← io (fstat fault root);
  _ ← io (fstat fault (store root));
  _ ← st_guard (k_dev K root =? k_dev K (store root))
        (Invalid "generation store must share the secret root filesystem");
  validate_current root.
Definition link_service (root : Path) (service : string) : FS unit :=
  let link := root ++ [service] in
  let expected := [".current"; service] in
  metadata ← unless_absent (symlink_metadata fault link);
  match metadata with
  | None => io (symlink fault expected link)
  | Some (ELink _) =>
      target ← io (read_link fault link);
      st_guard (bool_decide (target = expected))
        (Invalid ("public service path is not the expected link: " +:+ service))
  | Some _ => fail ("public service path is not the expected link: " +:+ service)
  end.
Fixpoint link_services (root : Path) (services : list string) : FS unit :=
  match services with
  | [] => mret tt
  | service :: services => _ ← link_service root service; link_services root services
  end.
Definition services_of (entries : list ValidatedSecret) : list string :=
  hash_order (remove_dups ((λ entry, rs_service (vs_spec entry)) <$> entries)).
Definition prepare_service_links (root : Path) (entries : list ValidatedSecret) : FS unit :=
  link_services root (services_of entries).

(** ** One deployment *)
(** The first half of [prepare]: the synced staging directory. *)
Definition stage_generation (d : Deployer) (entries : list ValidatedSecret) (id : string)
  : FS (list (string * string)) :=
  let root := dp_root d in
  _ ← prepare_store d;
  previous ← current_versions root;
  let staging := staging_of root id in
  _ ← create_directory K fault staging (oct [7; 0; 0]);
  _ ← clone_current root staging;
  _ ← stage_each staging entries;
  _ ← stage_versions root staging entries;
  _ ← sync_tree K fault staging;
  mret previous.
(** Its second half: the generation's final name, links and pending pointer. *)
Definition publish_generation (root : Path) (entries : list ValidatedSecret) (id : string) : FS unit :=
  _ ← io (rename fault (staging_of root id) (generation root id));
  _ ← sync_directory fault (store root);
  _ ← prepare_service_links root entries;
  _ ← sync_directory fault root;
  _ ← io (symlink fault [".generations"; id] (pending_pointer root id));
  _ ← sync_directory fault root;
  _ ← io (chmod K fault (generation root id) (oct [7; 1; 1]));
  sync_directory fault (generation root id).
Definition prepare (d : Deployer) (entries : list ValidatedSecret) (id : string)
  : FS (list (string * string)) :=
  previous ← stage_generation d entries id;
  _ ← publish_generation (dp_root d) entries id;
  mret previous.
Definition switch (d : Deployer) (id : string) : FS unit :=
  _ ← io (rename fault (pending_pointer (dp_root d) id) (current (dp_root d)));
  sync_directory fault (dp_root d).
Definition prune (d : Deployer) (id : string) : FS unit := prune_generations (dp_root d) id.

(** ** Recovery *)
Definition current_generation (root : Path) : FS (option string) :=
  link ← unless_absent (read_link fault (current root));
  match link with
  | None => mret None
  | Some target =>
      _ ← st_lift (validate_current_target target);
      mret (Some (file_name target))
  end.
Fixpoint check_pointers (root : Path) (names : list string) : FS (list string) :=
  match names with
  | [] => mret []
  | name :: names =>
      _ ← next_entry fault;
      match strip_prefix ".current-" name with
      | None => check_pointers root names
      | Some id =>
          let unexpected := "unexpected pending pointer " +:+ display (root ++ [name]) in
          _ ← st_guard (valid_generation id) (Invalid unexpected);
          metadata ← io (symlink_metadata fault (root ++ [name]));
          _ ← st_guard (is_link metadata) (Invalid unexpected);
          target ← io (read_link fault (root ++ [name]));
          _ ← st_guard (bool_decide (target = [".generations"; id])) (Invalid unexpected);
          rest ← check_pointers root names;
          mret (id :: rest)
      end
  end.
Definition pending_pointers (root : Path) : FS (list string) :=
  names ← io (read_dir K fault root);
  check_pointers root names.
Definition discard (root : Path) (current : option string) (id : string) : FS unit :=
  _ ← io (remove_file fault (pending_pointer root id));
  if bool_decide (current = Some id) then mret tt
  else
    metadata ← unless_absent (symlink_metadata fault (generation root id));
    match metadata with
    | None => mret tt
    | Some (EDir _) => io (remove_dir_all fault (generation root id))
    | Some _ => fail "uncommitted generation is not a real directory"
    end.
(** The loop over the pending pointers: [forward] and [discarded]. *)
Fixpoint settle (root : Path) (committed current : option string) (ids : list string)
  (forward : option string) (discarded : bool) : FS (option string * bool) :=
  match ids with
  | [] => mret (forward, discarded)
  | id :: ids =>
      if bool_decide (committed = Some id) then settle root committed current ids (Some id) discarded
      else
        _ ← discard root current id;
        settle root committed current ids forward true
  end.
Definition recover_pending (d : Deployer) : FS unit :=
  let root := dp_root d in
  committed ← match dp_commit_root d with
              | Some root => current_generation root
              | None => mret None
              end;
  current_id ← current_generation root;
  ids ← pending_pointers root;
  '(forward, discarded) ← settle root committed current_id ids None false;
  _ ← (if discarded : bool then
         there ← exists_path fault (store root);
         _ ← (if there : bool then sync_directory fault (store root) else mret tt);
         sync_directory fault root
       else mret tt);
  match forward with
  | None => mret tt
  | Some id =>
      _ ← require_real_directory fault (generation root id) "committed generation";
      _ ← io (rename fault (pending_pointer root id) (current root));
      sync_directory fault root
  end.
Definition recover_locked (d : Deployer) : FS unit :=
  map_state_err (during ("recovering " +:+ display (dp_root d))) (recover_pending d).
(** Whether the root exists; then the lock is held. *)
Definition lock_existing (d : Deployer) : FS bool :=
  e ← unless_absent (symlink_metadata fault (dp_root d));
  match e with
  | None => mret false
  | Some _ =>
      _ ← require_real_directory fault (dp_root d) "secret root";
      metadata ← io (fstat fault (dp_root d));
      _ ← require_root_metadata d metadata "secret root";
      _ ← lock_deployments d;
      mret true
  end.
Definition recover_alone (d : Deployer) : FS unit :=
  locked ← lock_existing d;
  if locked : bool then recover_locked d else mret tt.
Definition check_pair (secrets public : Deployer) : result DeployError unit :=
  guard_err (bool_decide (dp_commit_root secrets = None)
             && bool_decide (dp_commit_root public = Some (dp_root secrets)))
    (Invalid "public-info root is not paired with this secret root").
Definition recover (secrets public : Deployer) : FS unit :=
  _ ← st_lift (check_pair secrets public);
  secrets_lock ← lock_existing secrets;
  public_lock ← lock_existing public;
  _ ← (if secrets_lock : bool then recover_locked secrets else mret tt);
  if public_lock : bool then recover_locked public else mret tt.

(** ** Deployments *)
Definition run_deploy (d : Deployer) (entries : list ValidatedSecret) (id : string) : FS unit :=
  _ ← prepare d entries id;
  _ ← switch d id;
  prune d id.
Definition deploy_inner (d : Deployer) (batch : list ResolvedSecret) (id : string)
  (proceed : FS bool) (published : FS unit) : FS bool :=
  entries ← st_lift (validate batch);
  _ ← prepare_root d;
  _ ← lock_deployments d;
  _ ← recover_locked d;
  go ← proceed;
  if go : bool then
    r ← attempt (run_deploy d entries id);
    _ ← (if is_ok r then mret (Ok tt) else attempt (recover_locked d));
    _ ← st_lift (map_err (during (publishing d)) r);
    _ ← published;
    mret true
  else mret false.
Definition deploy (d : Deployer) (batch : list ResolvedSecret) (id : string) : FS unit :=
  _ ← deploy_inner d batch id (mret true) (mret tt);
  mret tt.

Definition validated (batch : option (list ResolvedSecret)) (d : Deployer)
  : result DeployError (option (list ValidatedSecret)) :=
  match batch with
  | Some ((_ :: _) as entries) =>
      map_err (during (publishing d)) (entries ← validate entries; Ok (Some entries))
  | _ => Ok None
  end.
Definition extend_versions (new versions : list (string * string)) : list (string * string) :=
  foldl (λ versions '(k, v), bt_insert k v versions) versions new.
(** [if let Some(entries) = entries { ... }] *)
Definition when_some {A : Type} (o : option A) (m : A → FS unit) : FS unit :=
  match o with Some a => m a | None => mret tt end.
Definition publish (secrets public : Deployer)
  (secrets_entries public_entries : option (list ValidatedSecret)) (id : string)
  : FS (list (string * string)) :=
  let in_secrets {A : Type} (m : FS A) : FS A := map_state_err (during (publishing secrets)) m in
  let in_public {A : Type} (m : FS A) : FS A := map_state_err (during (publishing public)) m in
  previous ← match public_entries with
             | Some entries =>
                 previous ← in_public (prepare public entries id);
                 mret (extend_versions previous [])
             | None => mret []
             end;
  previous ← match secrets_entries with
             | Some entries =>
                 new ← in_secrets (prepare secrets entries id);
                 _ ← in_secrets (switch secrets id);
                 mret (extend_versions new previous)
             | None => mret previous
             end;
  _ ← when_some public_entries (λ _, in_public (switch public id));
  _ ← when_some secrets_entries (λ _, in_secrets (prune secrets id));
  _ ← when_some public_entries (λ _, in_public (prune public id));
  mret previous.
Definition deploy_together (secrets public : Deployer)
  (secrets_batch public_batch : option (list ResolvedSecret)) (id : string)
  : FS (list (string * string)) :=
  _ ← st_lift (check_pair secrets public);
  secrets_entries ← st_lift (validated secrets_batch secrets);
  public_entries ← st_lift (validated public_batch public);
  _ ← st_guard (is_some secrets_entries || is_some public_entries) (Invalid "deployment is empty");
  _ ← map_state_err (during (publishing secrets)) (prepare_root secrets);
  _ ← map_state_err (during (publishing public)) (prepare_root public);
  _ ← map_state_err (during (publishing secrets)) (lock_deployments secrets);
  _ ← map_state_err (during (publishing public)) (lock_deployments public);
  _ ← recover_locked secrets;
  _ ← recover_locked public;
  result ← attempt (publish secrets public secrets_entries public_entries id);
  _ ← (if is_ok result then mret (Ok tt)
       else
         _ ← attempt (E:=DeployError) (F:=DeployError) (recover_locked secrets);
         attempt (recover_locked public));
  st_lift result.
End Deploy.

(** ** Footprints *)
Lemma frames_unless_absent {T : Type} A (m : stE Fs IoErr T) :
  frames A m → frames A (unless_absent m).
Proof.
  intros H. unfold unless_absent. apply frames_bind; [by apply frames_attempt|intros [a|e]]; frame.
Qed.
Lemma frames_during {T : Type} A s (m : FS T) : frames A m → frames A (map_state_err (during s) m).
Proof. apply frames_map_err. Qed.

(** Membership in a list built from known parts. *)
Ltac elem := rewrite ?elem_of_cons, ?elem_of_app; tauto.

Ltac deploy_frame :=
  repeat first
    [ progress frame
    | lazymatch goal with
      | |- frames _ (unless_absent _) => apply frames_unless_absent; first [apply frames_look | idtac]
      | |- frames _ (map_state_err _ _) => apply frames_map_err
      end ].

Section Frames.
Context (K : Kernel) (fault : nat → option string).
Context (to_json : list (string * string) → result string (list Z)).
Context (from_json : list Z → result string (list (string * string))).
Context (hash_order : list string → list string).
Context (A : Path → Prop).

Lemma frames_current_versions root : frames A (current_versions fault from_json root).
Proof. unfold current_versions. deploy_frame. Qed.
Lemma frames_current_generation root : frames A (current_generation fault root).
Proof. unfold current_generation. deploy_frame. Qed.
Lemma frames_check_pointers root names : frames A (check_pointers fault root names).
Proof. induction names as [|name names IH]; cbn [check_pointers]; deploy_frame. Qed.
Hint Resolve frames_current_versions frames_current_generation frames_check_pointers : fs.
Lemma frames_pending_pointers root : frames A (pending_pointers K fault root).
Proof. unfold pending_pointers. deploy_frame. Qed.
Lemma frames_require_root_metadata d m label : frames A (require_root_metadata d m label).
Proof. apply frames_guard. Qed.
Lemma frames_validate_current root : frames A (validate_current fault root).
Proof. unfold validate_current. deploy_frame. Qed.
Hint Resolve frames_pending_pointers frames_require_root_metadata frames_validate_current : fs.

Lemma frames_prepare_root d : A (dp_root d) → frames A (prepare_root K fault d).
Proof. intros. unfold prepare_root. deploy_frame. Qed.
Lemma frames_lock_deployments d :
  A (dp_root d ++ [".deploy-lock"]) → frames A (lock_deployments K fault d).
Proof. intros. unfold lock_deployments. cbv zeta. deploy_frame. Qed.
Lemma frames_prepare_store d : A (store (dp_root d)) → frames A (prepare_store K fault d).
Proof. intros. unfold prepare_store. cbv zeta. deploy_frame. Qed.
Lemma frames_create_components cursor components :
  (∀ q, under cursor q → A q) → frames A (create_components K fault cursor components).
Proof.
  revert cursor. induction components as [|c components IH]; intros cursor H;
    cbn [create_components]; [frame|]. cbv zeta.
  assert (A (cursor ++ [c])) by apply H, under_app. deploy_frame.
  apply IH. intros q Hq. apply H. eapply under_trans; [apply under_app|done].
Qed.
Lemma frames_stage_one staging entry :
  (∀ q, under staging q → A q) → frames A (stage_one K fault staging entry).
Proof.
  intros H. unfold stage_one, create_parents, clear_access_acl. cbv zeta.
  assert (A (staging ++ vs_relative entry)) by apply H, under_app.
  apply frames_bind; [|intros _].
  { destruct (strip _ _); [by apply frames_create_components|frame]. }
  deploy_frame.
Qed.
Lemma frames_stage_each staging entries :
  (∀ q, under staging q → A q) → frames A (stage_each K fault staging entries).
Proof.
  intros H. induction entries as [|entry entries IH]; cbn [stage_each]; [frame|].
  apply frames_bind; [by apply frames_map_err, frames_stage_one|done].
Qed.
Lemma frames_stage_versions root staging entries :
  A (staging ++ [VERSIONS]) → frames A (stage_versions K fault to_json from_json root staging entries).
Proof. intros. unfold stage_versions. cbv zeta. deploy_frame. Qed.
Lemma frames_clone_current root staging :
  (∀ q, under staging q → A q) → frames A (clone_current K fault root staging).
Proof. intros. unfold clone_current. deploy_frame. Qed.
Lemma frames_link_services root services :
  (∀ s, s ∈ services → A (root ++ [s])) → frames A (link_services fault root services).
Proof. clear hash_order from_json to_json.
  induction services as [|s services IH]; intros H; cbn [link_services]; [frame|].
  assert (A (root ++ [s])) by (apply H; elem).
  apply frames_bind; [unfold link_service; cbv zeta; deploy_frame|].
  intros _. apply IH. intros; apply H; elem.
Qed.
Hint Resolve frames_prepare_root frames_lock_deployments frames_prepare_store frames_stage_each
  frames_stage_versions frames_clone_current : fs.

(** What [prepare] may touch. *)
Definition prepare_paths (root : Path) (id : string) (services : list string) (q : Path) : Prop :=
  q = store root ∨ under (staging_of root id) q ∨ under (generation root id) q
  ∨ q = pending_pointer root id ∨ ∃ s, s ∈ services ∧ q = root ++ [s].

Lemma frames_prepare d entries id :
  (∀ q, prepare_paths (dp_root d) id (services_of hash_order entries) q → A q) →
  frames A (prepare K fault to_json from_json hash_order d entries id).
Proof.
  unfold prepare_paths. intros H. unfold prepare, stage_generation, publish_generation,
    prepare_service_links. cbv zeta.
  assert (A (store (dp_root d))) by (apply H; by left).
  assert (∀ q, under (staging_of (dp_root d) id) q → A q) as Hst by (intros; apply H; tauto).
  assert (∀ q, under (generation (dp_root d) id) q → A q) as Hg by (intros; apply H; tauto).
  assert (A (pending_pointer (dp_root d) id)) by (apply H; tauto).
  assert (A (staging_of (dp_root d) id)) by apply Hst, under_refl.
  assert (A (generation (dp_root d) id)) by apply Hg, under_refl.
  assert (A (staging_of (dp_root d) id ++ [VERSIONS])) by apply Hst, under_app.
  assert (frames A (link_services fault (dp_root d) (services_of hash_order entries)))
    by (apply frames_link_services; intros s Hs; apply H; eauto 10).
  deploy_frame.
Qed.
End Frames.
#[export] Hint Resolve frames_current_versions frames_current_generation frames_pending_pointers
  frames_require_root_metadata frames_validate_current frames_prepare_root
  frames_lock_deployments frames_prepare : fs.

(** ** What consumers of the two roots are given

    [pointer] is the target of a root's [.current].  [effective] is the
    public-info root's target once recovery has run: its pending pointer
    counts when the secret root's pointer names the same generation. *)
Definition pointer (root : Path) (w : World) : option Path :=
  match w !! current root with Some (ELink t) => Some t | _ => None end.
Definition target (id : string) : Path := [".generations"; id].
Definition is_link_to (t : Path) (e : option entry) : bool :=
  match e with Some (ELink t') => bool_decide (t' = t) | _ => false end.
Definition effective (S P : Path) (w : World) : option Path :=
  match pointer S w with
  | Some [g; id] =>
      if bool_decide (g = ".generations") && is_link_to (target id) (w !! pending_pointer P id)
      then Some (target id) else pointer P w
  | _ => pointer P w
  end.
(** The tree a target names is as before. *)
Definition keeps (root : Path) (t : option Path) (w w' : World) : Prop :=
  ∀ t', t = Some t' → ∀ q, w' !! (root ++ t' ++ q) = w !! (root ++ t' ++ q).
Definition same_view (S P : Path) (w w' : World) : Prop :=
  pointer S w' = pointer S w ∧ effective S P w' = effective S P w
  ∧ keeps S (pointer S w) w w' ∧ keeps P (effective S P w) w w'.

Lemma same_view_refl S P w : same_view S P w w.
Proof. by split_and!. Qed.
Lemma same_view_trans S P w1 w2 w3 :
  same_view S P w1 w2 → same_view S P w2 w3 → same_view S P w1 w3.
Proof.
  intros (A1 & A2 & A3 & A4) (B1 & B2 & B3 & B4). split_and!; [congruence..| |].
  - intros t Ht q. rewrite <- (A3 t Ht). apply B3. congruence.
  - intros t Ht q. rewrite <- (A4 t Ht). apply B4. congruence.
Qed.

(** The paths the view depends on. *)
Definition relevant (S P : Path) (w : World) (q : Path) : Prop :=
  q = current S ∨ q = current P
  ∨ (∃ id, pointer S w = Some (target id) ∧ q = pending_pointer P id)
  ∨ (∃ t, pointer S w = Some t ∧ under (S ++ t) q)
  ∨ (∃ t, effective S P w = Some t ∧ under (P ++ t) q).

Lemma same_view_outside S P (A : Path → Prop) w w' :
  (∀ q, relevant S P w q → ¬ A q) → step_in A w w' → same_view S P w w'.
Proof.
  intros HA [H _].
  assert (pointer S w' = pointer S w) as HS.
  { unfold pointer. rewrite H; [done|]. apply HA. by left. }
  assert (pointer P w' = pointer P w) as HP.
  { unfold pointer. rewrite H; [done|]. apply HA. right. by left. }
  assert (effective S P w' = effective S P w) as HE.
  { unfold effective. rewrite HS, HP.
    destruct (pointer S w) as [[|g [|id [|]]]|] eqn:E; try done.
    case_bool_decide as Hg; cbn; [|done]. rewrite H; [done|].
    apply HA. do 2 right. left. exists id. rewrite E. unfold target. by subst. }
  split_and!; try done; intros t Ht q; apply H, HA; do 3 right; [left|right];
    exists t; (split; [done|]); rewrite app_assoc; apply under_app.
Qed.

(** A pointer is absent or names a generation. *)
Definition sound (root : Path) (w : World) : Prop :=
  ∀ t, pointer root w = Some t → ∃ id, t = target id ∧ valid_generation id = true.

Lemma validate_current_target_ok t :
  validate_current_target t = Ok tt → ∃ id, t = target id ∧ valid_generation id = true.
Proof.
  unfold validate_current_target, target. intros H. repeat case_match; try done.
  apply guard_ok in H. bool_prop. destruct H as [-> H]. eauto.
Qed.

(** Sibling paths of a root. *)
Lemma snoc_apart (p : Path) a b r s : a ≠ b → apart (p ++ a :: r) (p ++ b :: s).
Proof.
  intros H. split; apply eq_None_not_Some; intros [x Hx]; apply strip_Some in Hx;
    rewrite <- app_assoc in Hx; apply app_inv_head in Hx; cbn in Hx; congruence.
Qed.
Lemma apart_not_under p q r : apart p q → under p r → ¬ under q r.
Proof.
  intros Ha [x Hx] [y Hy]. apply strip_Some in Hx, Hy. subst.
  pose proof (apart_app _ _ y Ha) as H. rewrite <- Hy, strip_app in H. done.
Qed.
Lemma app_string_inj_l (a b c : string) : a +:+ b = a +:+ c → b = c.
Proof. induction a as [|x a IH]; cbn; [done|]. intros [= H]. auto. Qed.
Lemma app_nonempty_ne (a b : string) : b ≠ "" → a ≠ a +:+ b.
Proof.
  intros Hb H. apply Hb. apply (app_string_inj_l a). by rewrite sapp_nil_r.
Qed.

(** ** Recovery keeps what consumers are given *)
Lemma spec_unless_absent {T : Type} fault (I : World → Prop) w (f : World → result IoErr T) Q :
  I w → (∀ a, f w = Ok a → Q (Ok (Some a)) w) →
  (∀ e, f w = Err e → io_kind e = KNotFound → Q (Ok None) w) →
  (∀ e, Q (Err (Io e)) w) →
  spec I w (unless_absent (look fault f)) Q.
Proof.
  intros HI Hok Hn He. unfold unless_absent. apply spec_bind, spec_attempt, spec_look; [done|..].
  - intros a Ha. apply spec_ret. auto.
  - intros e Hf. case_bool_decide as Hk; [|apply spec_lift; auto].
    apply spec_ret. destruct Hf as [Hf|Hf]; [eauto|congruence].
Qed.

Lemma current_generation_spec fault (I : World → Prop) root w :
  I w → sound root w →
  spec I w (current_generation fault root) (λ r w',
    w' = w ∧ ∀ o, r = Ok o → pointer root w = target <$> o).
Proof.
  intros HI Hs. unfold current_generation. apply spec_bind, spec_unless_absent; [done|..].
  - intros t Ht. destruct (w !! current root) as [[| |t'|]|] eqn:E; simplify_eq.
    assert (pointer root w = Some t) as Hp by (unfold pointer; by rewrite E).
    destruct (Hs t Hp) as (id & -> & Hv).
    apply spec_bind, spec_lift. unfold validate_current_target, target.
    rewrite bool_decide_eq_true_2, Hv by done. cbn.
    apply spec_ret. split; [done|]. by intros o [= <-].
  - intros e He _. apply spec_ret. split; [done|]. intros o [= <-].
    unfold pointer. cbn. by repeat case_match.
  - done.
Qed.

Definition points (root : Path) (w : World) (id : string) : Prop :=
  w !! pending_pointer root id = Some (ELink (target id)) ∧ valid_generation id = true.

Lemma check_pointers_spec fault (I : World → Prop) root w names :
  I w →
  spec I w (check_pointers fault root names) (λ r w', w' = w ∧ ∀ ids, r = Ok ids →
    (∀ id, id ∈ ids ↔ ".current-" +:+ id ∈ names) ∧ (∀ id, id ∈ ids → points root w id)
    ∧ (NoDup names → NoDup ids)).
Proof.
  intros HI. induction names as [|name names IH]; cbn [check_pointers].
  { apply spec_ret. split; [done|]. intros ids [= <-]. split_and!; [set_solver..|constructor]. }
  apply spec_bind, spec_map_err, spec_look; [done| |done]. intros [] _. cbn [map_err].
  destruct (strip_prefix ".current-" name) as [id|] eqn:Ep.
  - apply strip_prefix_Some in Ep as ->.
    apply spec_bind, spec_guard; [|done]. intros Hv.
    apply spec_bind, spec_map_err, spec_look; [done| |done]. intros e He. cbn [map_err].
    apply spec_bind, spec_guard; [|done]. intros Hl.
    apply spec_bind, spec_map_err, spec_look; [done| |done]. intros t Ht. cbn [map_err].
    apply spec_bind, spec_guard; [|done]. intros Hg. bool_prop. subst t.
    assert (points root w id) as Hp.
    { split; [|done]. unfold pending_pointer. by repeat case_match; simplify_eq. }
    apply spec_bind. eapply spec_mono; [apply IH|done|]. intros [ids|e'] w' [-> H]; [|done].
    destruct (H ids eq_refl) as (H1 & H2 & H3). apply spec_ret. split; [done|].
    intros ids' [= <-]. split_and!.
    + intros id'. rewrite !elem_of_cons, H1. split.
      * intros [->|]; [by left|by right].
      * intros [E|]; [left|by right]. by apply app_string_inj_l in E.
    + intros id' [->|]%elem_of_cons; auto.
    + intros [Hn Hnd]%NoDup_cons. apply NoDup_cons. rewrite H1. auto.
  - eapply spec_mono; [apply IH|done|]. intros r w' [-> H]. split; [done|].
    intros ids Hr. destruct (H ids Hr) as (H1 & H2 & H3). split_and!; [|done|].
    + intros id. rewrite H1, elem_of_cons. split; [by right|]. intros [<-|]; [|done].
      by rewrite strip_prefix_app in Ep.
    + intros [_ Hnd]%NoDup_cons. auto.
Qed.

Lemma pending_pointers_spec K fault (I : World → Prop) root w :
  kernel_ok K → I w →
  spec I w (pending_pointers K fault root) (λ r w', w' = w ∧ ∀ ids, r = Ok ids →
    (∀ id, id ∈ ids ↔ is_Some (w !! pending_pointer root id)) ∧ (∀ id, id ∈ ids → points root w id)
    ∧ NoDup ids).
Proof.
  intros HK HI. apply spec_bind, spec_map_err, spec_look; [done| |done].
  intros names Hn. cbn [map_err].
  destruct (w !! root) as [[m| | |]|]; simplify_eq.
  eapply spec_mono; [by apply check_pointers_spec|done|].
  intros r w' [-> H]. split; [done|]. intros ids Hr.
  destruct (H ids Hr) as (H1 & H2 & H3). split_and!; [|done|].
  - intros id. by rewrite H1, (k_readdir_ok _ HK), elem_children.
  - apply H3. rewrite (k_readdir_ok _ HK). apply NoDup_children.
Qed.

Lemma spec_remove_file fault (I : World → Prop) w p (Q : result DeployError () → World → Prop) :
  (I (delete p w) ∧ Q (Ok tt) (delete p w)) → (∀ e, Q (Err (Io e)) w) →
  spec I w (io (remove_file fault p)) Q.
Proof.
  intros [HI HQ] He. apply spec_map_err, spec_sys; [|intros; apply He].
  intros [] w' H. assert (remove_entry p w = Ok (tt, w')) as H' by (by repeat case_match).
  by apply remove_entry_lookup in H' as ->.
Qed.

(** What discarding the pointer [id] may touch. *)
Definition discarded_paths (root : Path) (cur : option string) (id : string) (q : Path) : Prop :=
  q = pending_pointer root id ∨ cur ≠ Some id ∧ under (generation root id) q.

Lemma pending_not_generation root id id' : ¬ under (generation root id) (pending_pointer root id').
Proof.
  eapply apart_not_under; [|apply under_refl]. by apply (snoc_apart root (".current-" +:+ id') ".generations").
Qed.

Lemma discard_spec fault root cur id w (I : World → Prop) :
  (∀ w', step_in (discarded_paths root cur id) w w' → I w') →
  wf_world w →
  spec I w (discard fault root cur id) (λ r w',
    step_in (discarded_paths root cur id) w w'
    ∧ (r = Ok tt → w' !! pending_pointer root id = None)).
Proof.
  intros HI Hw. set (A := discarded_paths root cur id). set (p := pending_pointer root id).
  assert (frames A (discard fault root cur id)) as Hf.
  { unfold discard. assert (A p) by by left. apply frames_bind; [frame|intros _].
    case_bool_decide; [frame|]. apply frames_bind; [apply frames_unless_absent, frames_look|].
    intros [[]|]; frame. apply frames_remove_dir_all. intros q Hq. by right. }
  eapply spec_mono; [apply (spec_and _ (λ _, True) _ _ _
    (λ r w', r = Ok tt → w' !! p = None) (Hf w))|by intros ? [? _]; auto|done].
  apply spec_bind, spec_remove_file; [|done]. split; [done|].
  case_bool_decide as Hc; [apply spec_ret; intros _; apply lookup_delete_eq|].
  apply spec_bind, spec_unless_absent; [done| |intros; apply spec_ret; intros; apply lookup_delete_eq|done].
  intros e He. destruct e; try (by apply spec_lift).
  eapply spec_mono; [apply (frames_map_err (under (generation root id)) Io),
    frames_remove_dir_all; auto|done|].
  intros r w' [H _] _. rewrite H; [apply lookup_delete_eq|apply pending_not_generation].
Qed.

(** The two roots of a joint deployment. *)
Section Pair.
Context (K : Kernel) (fault : nat → option string) (HK : kernel_ok K).
Context (S P : Path) (Hapart : apart S P).

(** The view, and the public root's own pointer, are as before. *)
Definition keeps_view (w w' : World) : Prop :=
  same_view S P w w' ∧ w' !! current P = w !! current P.

Lemma keeps_view_refl w : keeps_view w w.
Proof. split; [apply same_view_refl|done]. Qed.
Lemma keeps_view_trans w1 w2 w3 : keeps_view w1 w2 → keeps_view w2 w3 → keeps_view w1 w3.
Proof. intros [A1 A2] [B1 B2]. split; [by eapply same_view_trans|congruence]. Qed.
Lemma keeps_view_outside (A : Path → Prop) w w' :
  (∀ q, relevant S P w q → ¬ A q) → step_in A w w' → keeps_view w w'.
Proof.
  intros HA H. split; [by eapply same_view_outside|]. destruct H as [H _]. apply H, HA.
  right. by left.
Qed.
Lemma relevant_same w w' q : same_view S P w w' → relevant S P w' q → relevant S P w q.
Proof. intros (H1 & H2 & _). unfold relevant. by rewrite H1, H2. Qed.
Lemma keeps_view_sound w w' :
  keeps_view w w' → sound S w → sound P w → sound S w' ∧ sound P w'.
Proof.
  intros [(H1 & _) H2] HS HP. split; intros t; [rewrite H1; apply HS|].
  unfold pointer. rewrite H2. apply HP.
Qed.

(** Discarding pointers of [root] leaves the view alone unless they are committed. *)
Definition harmless (root : Path) (committed cur : option string) (w : World) : Prop :=
  ∀ id q, committed ≠ Some id → discarded_paths root cur id q → ¬ relevant S P w q.

Definition settle_paths (root : Path) (committed : option string) (ids : list string) (q : Path) : Prop :=
  ∃ id, id ∈ ids ∧ committed ≠ Some id ∧ (q = pending_pointer root id ∨ under (generation root id) q).

Lemma pending_inj root id id' : pending_pointer root id = pending_pointer root id' → id = id'.
Proof. intros [_ H]%app_inj_tail. by apply app_string_inj_l in H. Qed.

Lemma settle_paths_mono root committed id ids q :
  settle_paths root committed ids q → settle_paths root committed (id :: ids) q.
Proof. intros (x & Hx & H). exists x. split; [elem|done]. Qed.

Lemma settle_spec root committed cur ids fwd dis w :
  wf_world w → harmless root committed cur w →
  spec (keeps_view w) w (settle fault root committed cur ids fwd dis) (λ r w',
    keeps_view w w' ∧ step_in (settle_paths root committed ids) w w'
    ∧ ∀ f d, r = Ok (f, d) →
        (∀ id, id ∈ ids → committed ≠ Some id → w' !! pending_pointer root id = None)
        ∧ (f = fwd ∧ (∀ id, committed = Some id → id ∉ ids)
           ∨ ∃ id, f = Some id ∧ committed = Some id ∧ id ∈ ids)).
Proof.
  revert fwd dis w. induction ids as [|id ids IH]; intros fwd dis w Hw Hh; cbn [settle].
  { apply spec_ret. split_and!; [apply keeps_view_refl|apply step_in_refl|].
    intros f d [= <- <-]. split; [by intros id ?%elem_of_nil|left].
    split; [done|]. intros id _. apply not_elem_of_nil. }
  case_bool_decide as Hc.
  - eapply spec_mono; [by apply IH|done|]. intros r w' (H1 & H2 & H3).
    split_and!; [done|eapply step_in_mono; [|done]; intros q; apply settle_paths_mono|].
    intros f d Hr. destruct (H3 f d Hr) as [H4 H5]. split.
    + intros x [->|Hx]%elem_of_cons ?; [done|auto].
    + right. destruct H5 as [[-> _]|(x & -> & Hx & Hin)]; [exists id|exists x]; split_and!; try done; elem.
  - assert (∀ w', step_in (discarded_paths root cur id) w w' → keeps_view w w') as Hk.
    { intros w' Hs. eapply keeps_view_outside; [|exact Hs]. intros q Hr Hd. by eapply Hh. }
    apply spec_bind. eapply spec_mono; [by apply discard_spec|done|].
    intros r1 w1 [Hs Hn]. pose proof (Hk _ Hs) as Hkv.
    assert (step_in (settle_paths root committed (id :: ids)) w w1) as Hs'.
    { eapply step_in_mono; [|done]. intros q [->|[_ Hq]]; exists id; (split; [elem|split; [done|]]); [by left|by right]. }
    destruct r1 as [[]|e]; [|by split_and!].
    eapply spec_mono; [apply IH|..].
    + apply Hs, Hw.
    + intros x q Hx Hd Hr. eapply Hh; [done|done|]. eapply relevant_same; [|done]. apply Hkv.
    + intros w' H. by eapply keeps_view_trans.
    + intros r w' (H1 & H2 & H3). split_and!; [by eapply keeps_view_trans| |].
      { eapply step_in_trans; [done|]. eapply step_in_mono; [|done].
        intros q. apply settle_paths_mono. }
      intros f d Hr. destruct (H3 f d Hr) as [H4 H5]. split.
      * intros x Hx Hcx. destruct (decide (x ∈ ids)) as [|Hni]; [auto|].
        assert (x = id) as -> by (apply elem_of_cons in Hx; tauto). destruct H2 as [H2 _].
        rewrite H2; [auto|]. intros (y & Hy & _ & [E|E]).
        -- apply pending_inj in E as ->. done.
        -- by eapply pending_not_generation.
      * destruct H5 as [[-> H5]|(x & -> & Hx & Hin)]; [left|right].
        -- split; [done|]. intros y Hy [->|Hin]%elem_of_cons; [congruence|by eapply H5].
        -- exists x. split_and!; try done; elem.
Qed.

Lemma spec_rename_link (I : World → Prop) w src dst t (Q : result DeployError () → World → Prop) :
  w !! src = Some (ELink t) → apart src dst →
  (I (<[dst := ELink t]> (delete src w)) ∧ Q (Ok tt) (<[dst := ELink t]> (delete src w))) →
  (∀ e, Q (Err (Io e)) w) →
  spec I w (io (rename fault src dst)) Q.
Proof.
  intros Hs Ha [HI HQ] He. apply spec_map_err, spec_sys; [|intros; apply He].
  intros [] w' H. apply rename_cases in H as [[E _]|(_ & e & pm & E & _ & [(_ & _ & ->)|([m ->] & _)])].
  - exfalso. subst. destruct Ha as [Ha _]. pose proof (strip_app dst []) as H.
    rewrite app_nil_r in H. congruence.
  - rewrite Hs in E. by injection E as <-.
  - congruence.
Qed.

Lemma apart_roots a b : S ++ a = P ++ b → False.
Proof.
  intros H. pose proof (apart_app _ _ b Hapart) as H1. by rewrite <- H, strip_app in H1.
Qed.

(** Refutes equations between paths of the two roots. *)
Ltac paths :=
  unfold current, store, generation, staging_of, pending_pointer, target in *;
  repeat match goal with
  | H : under _ _ |- _ => apply under_spec in H as [? H]
  end;
  subst;
  repeat match goal with
  | H : context [(_ ++ _) ++ _] |- _ => rewrite <- app_assoc in H
  end;
  try match goal with
  | H : S ++ _ = P ++ _ |- _ => destruct (apart_roots _ _ H)
  | H : P ++ _ = S ++ _ |- _ => symmetry in H; destruct (apart_roots _ _ H)
  | H : ?r ++ _ = ?r ++ _ |- _ => apply app_inv_head in H; cbn in H; simplify_eq/=
  end.

Lemma effective_committed w id :
  pointer S w = Some (target id) →
  effective S P w =
    if is_link_to (target id) (w !! pending_pointer P id) then Some (target id) else pointer P w.
Proof. intros H. unfold effective. rewrite H. unfold target at 1. by rewrite bool_decide_eq_true_2. Qed.

Lemma effective_cases w t :
  sound S w → effective S P w = Some t →
  (∃ x, t = target x ∧ pointer S w = Some t ∧ w !! pending_pointer P x = Some (ELink t))
  ∨ pointer P w = Some t ∧ ∀ x, pointer S w = Some (target x) →
      is_link_to (target x) (w !! pending_pointer P x) = false.
Proof.
  intros Hs. unfold effective. destruct (pointer S w) as [s|] eqn:E; [|intros; right; by split].
  destruct (Hs s E) as (x & -> & _). unfold target at 1.
  rewrite bool_decide_eq_true_2 by done. cbn [andb].
  destruct (is_link_to (target x) _) eqn:El.
  - intros [= <-]. left. exists x. split_and!; [done|done|].
    unfold is_link_to in El. repeat case_match; bool_prop; by subst.
  - intros H. right. split; [done|]. intros y [= <-]. done.
Qed.

Lemma harmless_secrets w o :
  sound S w → sound P w → pointer S w = target <$> o → harmless S None o w.
Proof.
  intros HS HP Ho id q _ Hd Hr.
  destruct Hr as [->|[->|[(x & Hx & ->)|[(t & Ht & Hu)|(t & Ht & Hu)]]]].
  - destruct Hd as [E|[_ Hd]]; paths.
  - destruct Hd as [E|[_ Hd]]; paths.
  - destruct Hd as [E|[_ Hd]]; paths.
  - rewrite Ho in Ht. destruct o as [y|]; [|done]. injection Ht as <-.
    destruct Hd as [E|[Hne Hd]]; paths.
  - destruct Hd as [E|[_ Hd]]; paths.
Qed.

Lemma harmless_public w o c :
  sound S w → sound P w → pointer S w = target <$> c → pointer P w = target <$> o →
  harmless P c o w.
Proof.
  intros HS HP Hc Ho id q Hne Hd Hr.
  destruct Hr as [->|[->|[(x & Hx & ->)|[(t & Ht & Hu)|(t & Ht & Hu)]]]].
  - destruct Hd as [E|[_ Hd]]; paths.
  - destruct Hd as [E|[_ Hd]]; paths.
  - rewrite Hc in Hx. destruct c as [y|]; [|done]. injection Hx as ->.
    destruct Hd as [E%pending_inj|[_ Hd]]; [congruence|paths].
  - destruct (HS t Ht) as (y & -> & _). destruct Hd as [E|[_ Hd]]; paths.
  - apply effective_cases in Ht as [(y & -> & Hs & _)|[Hs _]]; [| |done].
    + rewrite Hc in Hs. destruct c as [z|]; [|done]. injection Hs as ->.
      destruct Hd as [E|[_ Hd]]; paths.
    + rewrite Ho in Hs. destruct o as [z|]; [|done]. injection Hs as <-.
      destruct Hd as [E|[Hn Hd]]; paths.
Qed.

(** What recovery may touch: the current pointer, and pending generations. *)
Definition recovery_paths (root : Path) (w : World) (q : Path) : Prop :=
  q = current root ∨ ∃ id, is_Some (w !! pending_pointer root id)
    ∧ (q = pending_pointer root id ∨ under (generation root id) q).

Definition no_pending (root : Path) (w : World) : Prop :=
  ∀ id, w !! pending_pointer root id = None.

(** Computations that change nothing. *)
Lemma spec_frames_nothing {E T : Type} w (m : stE Fs E T) :
  frames (λ _, False) m → spec (λ w', w' = w) w m (λ _ w', w' = w).
Proof.
  assert (∀ w', step_in (λ _, False) w w' → w' = w) as H.
  { intros w' [Hs _]. apply map_eq. intros q. apply Hs. by intros []. }
  intros Hf. eapply spec_mono; [apply Hf|exact H|]. intros r w'. apply H.
Qed.

Lemma spec_bind_frames {E T U : Type} I w (m : stE Fs E T) (k : T → stE Fs E U) Q :
  frames (λ _, False) m → I w → (∀ a, spec I w (k a) Q) → (∀ e, Q (Err e) w) →
  spec I w (m ≫= k) Q.
Proof.
  intros Hm HI Hk He. apply spec_bind.
  eapply spec_mono; [by apply spec_frames_nothing|by intros ? ->|].
  intros [a|e] w' ->; auto.
Qed.

(** A rename of a link onto another name of the same root. *)
Lemma rename_link w src dst t u w' :
  apart src dst → w !! src = Some (ELink t) → rename_to src dst w = Ok (u, w') →
  w' = <[dst := ELink t]> (delete src w) ∧ step_in (λ q, q = src ∨ q = dst) w w'.
Proof.
  intros Ha Hl H. pose proof (rename_cases _ _ _ _ _ H) as
    [[E _]|(_ & e & pm & E & Hp & [(_ & Hnd & ->)|([m ->] & _)])].
  - exfalso. subst. destruct Ha as [Ha _]. pose proof (strip_app dst []) as Hx.
    rewrite app_nil_r in Hx. congruence.
  - rewrite Hl in E. injection E as <-. split; [done|].
    pose proof (rename_step (λ _, True) src dst w u _ ltac:(done) ltac:(done) H) as [_ Hwf].
    split; [|done]. intros q Hq. rewrite lookup_insert_ne, lookup_delete_ne; [done|..];
      intros ->; apply Hq; auto.
  - congruence.
Qed.

Lemma pending_current_apart root id : apart (pending_pointer root id) (current root).
Proof. by apply (snoc_apart root (".current-" +:+ id) ".current" [] []). Qed.

(** Moving the committed pending pointer makes true what it already counts as. *)
Lemma forward_keeps w id u w' :
  pointer S w = Some (target id) → points P w id →
  rename_to (pending_pointer P id) (current P) w = Ok (u, w') →
  same_view S P w w' ∧ pointer P w' = Some (target id)
  ∧ step_in (λ q, q = pending_pointer P id ∨ q = current P) w w'
  ∧ w' !! pending_pointer P id = None.
Proof.
  intros HpS [Hl Hv] H.
  apply rename_link with (t := target id) in H as [-> Hs]; [|apply pending_current_apart|done].
  set (w' := <[current P := ELink (target id)]> (delete (pending_pointer P id) w)) in *.
  assert (∀ q, q ≠ current P → q ≠ pending_pointer P id → w' !! q = w !! q) as Ho.
  { intros q H1 H2. unfold w'. by rewrite lookup_insert_ne, lookup_delete_ne. }
  assert (pointer S w' = pointer S w) as HS.
  { unfold pointer. rewrite Ho; [done|intros E; paths|intros E; paths]. }
  assert (pointer P w' = Some (target id)) as HP.
  { unfold pointer, w'. by rewrite lookup_insert_eq. }
  assert (effective S P w = Some (target id)) as HE.
  { rewrite (effective_committed _ id HpS), Hl. cbn [is_link_to].
    by rewrite bool_decide_eq_true_2. }
  assert (effective S P w' = Some (target id)) as HE'.
  { rewrite (effective_committed w' id) by congruence. by destruct (is_link_to _ _). }
  split_and!; [|done|done|].
  - split_and!; [done|congruence|..]; intros t Ht q.
    + rewrite HpS in Ht. injection Ht as <-. apply Ho; intros E; paths.
    + rewrite HE in Ht. injection Ht as <-. apply Ho; intros E; paths.
  - unfold w'. rewrite lookup_insert_ne by (intros E; paths). apply lookup_delete_eq.
Qed.

Lemma recover_pending_spec d root w :
  dp_root d = root →
  (root = S ∧ dp_commit_root d = None ∨ root = P ∧ dp_commit_root d = Some S) →
  wf_world w → sound S w → sound P w →
  spec (same_view S P w) w (recover_pending K fault d) (λ r w',
    same_view S P w w' ∧ sound S w' ∧ sound P w' ∧ step_in (recovery_paths root w) w w'
    ∧ (r = Ok tt → no_pending root w')).
Proof.
  intros Hroot Hd Hw HS HP. unfold recover_pending. rewrite Hroot. cbv zeta.
  assert (∀ e : DeployError, same_view S P w w ∧ sound S w ∧ sound P w
    ∧ step_in (recovery_paths root w) w w ∧ (Err e = Ok tt → no_pending root w)) as Herr.
  { intros e. split_and!; [apply same_view_refl|done|done|apply step_in_refl|by intros [=]]. }
  assert (sound root w) as Hsr by (by destruct Hd as [[-> _]|[-> _]]).
  apply spec_bind.
  apply (spec_mono (λ w', w' = w) _ _ _ (λ r w', w' = w ∧ ∀ c, r = Ok c →
    (root = S ∧ c = None) ∨ root = P ∧ pointer S w = target <$> c)).
  { destruct Hd as [[Hr ->]|[Hr ->]].
    - apply spec_ret. split; [done|]. intros c [= <-]. by left.
    - eapply spec_mono; [by apply (current_generation_spec _ (λ w', w' = w))|done|].
      intros r w' [-> H]. split; [done|]. intros c Hc. right. auto. }
  { by intros ? ->. }
  intros [committed|e] w' [-> Hc]; [|done]. specialize (Hc committed eq_refl).
  apply spec_bind. eapply spec_mono; [apply (current_generation_spec _ (λ w', w' = w)); done|by intros ? ->|].
  intros [cur|e] w' [-> Hcur]; [|done]. specialize (Hcur cur eq_refl).
  apply spec_bind. eapply spec_mono; [apply (pending_pointers_spec _ _ (λ w', w' = w)); done|by intros ? ->|].
  intros [ids|e] w' [-> Hids]; [|done]. destruct (Hids ids eq_refl) as (Hin & Hpt & Hnd).
  assert (harmless root committed cur w) as Hh.
  { destruct Hc as [[-> ->]|[-> Hc]]; [by apply harmless_secrets|by apply harmless_public]. }
  apply spec_bind. eapply spec_mono; [by apply settle_spec|by intros ? [? _]|].
  intros r w1 (Hk & Hs & Hr).
  destruct (keeps_view_sound _ _ Hk HS HP) as [HS1 HP1]. destruct Hk as [Hk Hcp].
  assert (step_in (recovery_paths root w) w w1) as Hs1.
  { eapply step_in_mono; [|exact Hs]. intros q (id & Hid & _ & Hq). right. exists id.
    split; [by apply Hin|done]. }
  destruct r as [[forward dis]|e]; [|by split_and!].
  destruct (Hr forward dis eq_refl) as [Hgone Hfwd].
  apply (spec_mono (same_view S P w1) _ w1 _ (λ r w', same_view S P w1 w' ∧ sound S w' ∧ sound P w'
    ∧ step_in (recovery_paths root w) w1 w' ∧ (r = Ok tt → no_pending root w'))).
  2:{ intros w' H. by eapply same_view_trans. }
  2:{ intros r w' (H1 & H2 & H3 & H4 & H5). split_and!; [by eapply same_view_trans|done|done| |done].
      by eapply step_in_trans. }
  assert (∀ e : DeployError, same_view S P w1 w1 ∧ sound S w1 ∧ sound P w1
    ∧ step_in (recovery_paths root w) w1 w1 ∧ (Err e = Ok tt → no_pending root w1)) as Herr1.
  { intros e. split_and!; [apply same_view_refl|done|done|apply step_in_refl|by intros [=]]. }
  assert (∀ id, committed ≠ Some id → w1 !! pending_pointer root id = None) as Hgone1.
  { intros id Hne. destruct (decide (id ∈ ids)) as [|Hni]; [auto|].
    destruct Hs as [Hs _]. rewrite Hs.
    - apply eq_None_not_Some. by rewrite <- Hin.
    - intros (x & Hx & _ & [E|E]); [apply pending_inj in E as ->; done|].
      by eapply pending_not_generation. }
  apply spec_bind_frames; [|apply same_view_refl| |done].
  { destruct dis; [|frame]. apply frames_bind; [apply frames_exists|intros [|]]; frame. }
  intros _. destruct Hfwd as [[-> Hnf]|(id & -> & Hcid & Hid)].
  { apply spec_ret. split_and!; [apply same_view_refl|done|done|apply step_in_refl|].
    intros _ id. destruct (decide (committed = Some id)) as [Hci|]; [|auto].
    specialize (Hnf id Hci). destruct Hs as [Hs _]. rewrite Hs.
    - apply eq_None_not_Some. by rewrite <- Hin.
    - intros (x & _ & Hx & [E|E]); [apply pending_inj in E as ->; done|].
      by eapply pending_not_generation. }
  destruct Hc as [[_ ->]|[-> Hc]]; [done|]. subst committed. cbn in Hc.
  assert (pointer S w1 = Some (target id)) as HpS by (destruct Hk as [-> _]; done).
  assert (points P w1 id) as Hp1.
  { destruct (Hpt id Hid) as [Hl Hv]. split; [|done]. destruct Hs as [Hs _]. rewrite Hs; [done|].
    intros (x & _ & Hx & [E|E]); [apply pending_inj in E as ->; congruence|].
    by eapply pending_not_generation. }
  apply spec_bind_frames; [frame|apply same_view_refl| |done]. intros _.
  apply spec_bind, spec_map_err, spec_sys.
  - intros [] w2 H. destruct (forward_keeps _ _ _ _ HpS Hp1 H) as (H1 & H2 & H3 & H4).
    split; [done|]. cbn [map_err]. apply (spec_mono (λ w', w' = w2) _ w2 _ (λ _ w', w' = w2)).
    { apply spec_frames_nothing. frame. }
    { by intros ? ->. }
    intros r w' ->. split_and!; [done| | | |].
    + intros t Ht. apply HS1. destruct H1 as [H1 _]. congruence.
    + intros t Ht. rewrite H2 in Ht. injection Ht as <-. exists id. split; [done|apply Hp1].
    + eapply step_in_mono; [|exact H3]. intros q [-> | ->]; [|by left].
      right. exists id. split; [by apply Hin|by left].
    + intros _ x. destruct (decide (x = id)) as [->|Hne]; [done|].
      destruct H3 as [H3 _]. rewrite H3; [apply Hgone1; congruence|].
      intros [E%pending_inj|E]; [done|]. unfold pending_pointer, current in E.
      apply app_inv_head in E. done.
  - intros e _. apply Herr1.
Qed.
End Pair.

(** ** What a prepared generation contains *)
Lemma ok_unless_absent {T : Type} fault w (f : World → result IoErr T) (Q : option T → World → Prop) :
  (∀ a, f w = Ok a → Q (Some a) w) →
  (∀ e, f w = Err e → io_kind e = KNotFound → Q None w) →
  okspec w (unless_absent (look fault f)) Q.
Proof.
  intros Hok Hn. apply spec_unless_absent; [done| | |by intros e a [=]].
  - intros a Ha ? [= <-]. auto.
  - intros e He Hk ? [= <-]. eauto.
Qed.

Definition tree_at (root : Path) (t : option Path) (w : World) (q : Path) : option entry :=
  match t with Some t => w !! (root ++ t ++ q) | None => None end.

Section Built.
Context (K : Kernel) (fault : nat → option string) (HK : kernel_ok K).
Context (to_json : list (string * string) → result string (list Z)).
Context (from_json : list Z → result string (list (string * string))).
Context (hash_order : list string → list string).

(** The JSON codec on maps. *)
Definition codec_ok : Prop :=
  (∀ m text, bt_wf m → to_json m = Ok text → from_json text = Ok m)
  ∧ (∀ m text, from_json text = Ok m → bt_wf m).

Definition read_versions (tree : Path → option entry) : list (string * string) :=
  match tree [VERSIONS] with
  | Some (EFile _ text) => match from_json text with Ok versions => versions | Err _ => [] end
  | _ => []
  end.

Definition manifest_meta (spec : ResolvedSecret) : Meta :=
  {| m_uid := rs_owner spec; m_gid := rs_group spec; m_mode := rs_mode spec;
     m_acl := None; m_default_acl := None |}.
(** A value is installed as the manifest says, or its unchanged file was kept. *)
Definition installed (old : Path → option entry) (entry : ValidatedSecret) (e : FileSystem.entry)
  : Prop :=
  e = EFile (manifest_meta (vs_spec entry)) (rs_contents (vs_spec entry))
  ∨ ∃ m, old (vs_relative entry) = Some e ∧ e = EFile m (rs_contents (vs_spec entry))
      ∧ m_uid m = rs_owner (vs_spec entry) ∧ m_gid m = rs_group (vs_spec entry).
Record built (entries : list ValidatedSecret) (old new : Path → option entry) : Prop := {
  b_installed entry : entry ∈ entries → ∃ e, new (vs_relative entry) = Some e ∧ installed old entry e;
  b_carried q : q ≠ [] → clean q → (∀ entry, entry ∈ entries → q ≠ vs_relative entry) →
    is_Some (old q) → new q = old q;
  b_nothing_else q : q ≠ [] → is_Some (new q) →
    (∃ entry r, entry ∈ entries ∧ vs_relative entry = q ++ r) ∨ q = [VERSIONS]
    ∨ clean q ∧ new q = old q;
  b_versions : ∃ m text, new [VERSIONS] = Some (EFile m text)
    ∧ from_json text = Ok (insert_versions entries (read_versions old));
}.

Lemma current_versions_ok root w :
  okspec w (current_versions fault from_json root) (λ vs w',
    w' = w ∧ vs = read_versions (tree_at root (pointer root w) w)
    ∧ (codec_ok → bt_wf vs)).
Proof.
  apply ok_bind, ok_unless_absent.
  - intros t Ht. destruct (w !! current root) as [[| |t'|]|] eqn:E; simplify_eq.
    assert (pointer root w = Some t) as -> by (unfold pointer; by rewrite E).
    apply ok_bind, ok_lift. intros [] _. cbv zeta.
    apply ok_bind, ok_io, ok_look. intros e He.
    destruct (w !! ((root ++ t) ++ [VERSIONS])) as [e'|] eqn:Ev; [|done]. injection He as ->.
    apply ok_bind, ok_guard. intros He. destruct e as [|m c| |]; try done.
    apply ok_bind, ok_io, ok_look. intros input Hi. rewrite Ev in Hi. injection Hi as <-.
    apply ok_lift. intros vs Hvs. destruct (from_json c) as [vs'|] eqn:Ej; [|done].
    injection Hvs as ->. split_and!; [done| |].
    + unfold read_versions. cbn. rewrite app_assoc, Ev. by rewrite Ej.
    + intros [_ H]. eauto.
  - intros e He Hk. apply ok_ret. split_and!; [done| |intros _; apply bt_wf_nil].
    unfold pointer. destruct (w !! current root) as [[]|]; simplify_eq/=; done.
Qed.

Lemma insert_versions_wf entries versions :
  bt_wf versions → bt_wf (insert_versions entries versions).
Proof. intros H. unfold insert_versions. apply foldl_inv; [done|]. intros. by apply bt_wf_insert. Qed.

Lemma stage_versions_ok root staging entries w :
  codec_ok →
  okspec w (stage_versions K fault to_json from_json root staging entries) (λ _ w',
    ∃ m text, w' = <[staging ++ [VERSIONS] := EFile m text]> w
    ∧ w !! (staging ++ [VERSIONS]) = None
    ∧ from_json text
      = Ok (insert_versions entries (read_versions (tree_at root (pointer root w) w)))).
Proof.
  intros Hc. apply ok_bind. eapply ok_mono; [apply current_versions_ok|].
  intros vs w' (-> & -> & Hwf). cbv zeta.
  apply ok_bind, ok_io, ok_create. intros pm Hn _ _.
  apply ok_bind, ok_lift. intros text Ht.
  destruct (to_json _) as [text'|] eqn:Ej; [|done]. injection Ht as ->.
  apply ok_bind, ok_io, ok_change. intros e e' He Hf. rewrite lookup_insert_eq in He.
  simplify_eq/=. rewrite insert_insert_eq. apply ok_sync.
  eexists _, _. split_and!; [done|done|]. destruct Hc as [Hc1 Hc2] eqn:E.
  apply Hc1; [|done]. apply insert_versions_wf, Hwf. by split.
Qed.

(** New directories appear only along the components. *)
Definition grown (cursor components : Path) (w w' : World) : Prop :=
  ∀ q, w' !! q = w !! q
    ∨ w !! q = None ∧ ∃ a b, components = a ++ b ∧ a ≠ [] ∧ q = cursor ++ a ∧ dir_at w' q = true.

Lemma create_components_ok cursor components w :
  okspec w (create_components K fault cursor components) (λ _ w', grown cursor components w w').
Proof.
  revert cursor w. induction components as [|c components IH]; intros cursor w; cbn [create_components].
  { apply ok_ret. intros q. by left. }
  cbv zeta. apply ok_bind. eapply (spec_mono _ _ _ _ (λ r w', w' = w)).
  { apply (spec_frames_nothing w). apply frames_exists. }
  { done. }
  intros r w' -> there _.
  assert (∀ w1, grown cursor [c] w w1 →
    okspec w1 (_ ← require_real_directory fault (cursor ++ [c]) "secret directory";
               create_components K fault (cursor ++ [c]) components)
      (λ _ w2, grown cursor (c :: components) w w2)) as Hrest.
  { intros w1 H1. apply ok_bind, ok_bind, ok_io, ok_look. intros e He. apply ok_guard. intros Hd.
    eapply ok_mono; [apply IH|]. intros [] w2 H2 q.
    destruct (w1 !! (cursor ++ [c])) as [e'|] eqn:Ec; [|done]. injection He as ->.
    destruct (H2 q) as [E2|(Hn & a & b & Hcs & Ha & -> & Hda)].
    - destruct (H1 q) as [E1|(Hn & a & b & Hab & Ha & -> & Hda)]; [left; congruence|right].
      split; [done|]. destruct a as [|x a]; [done|]. injection Hab as <- Hab.
      symmetry in Hab. apply app_nil in Hab as [-> ->].
      exists [c], components. split_and!; [done..|]. unfold dir_at in *. by rewrite E2.
    - destruct (H1 ((cursor ++ [c]) ++ a)) as [E1|(Hn1 & a' & b' & Hab & Ha' & E & Hda')].
      + right. split; [congruence|]. exists (c :: a), b. split_and!; try done.
        * by rewrite Hcs.
        * by rewrite <- app_assoc.
      + exfalso. unfold dir_at in Hda'. by rewrite Hn in Hda'. }
  apply ok_bind. destruct there.
  - apply ok_ret, Hrest. intros q. by left.
  - apply ok_create_directory. intros pm m' Hn _ _ _. apply Hrest. intros q.
    destruct (decide (q = cursor ++ [c])) as [->|Hne].
    + right. split; [done|]. exists [c], []. split_and!; try done.
      unfold dir_at. by rewrite lookup_insert_eq.
    + left. by rewrite lookup_insert_ne.
Qed.

(** Splits the run at a test. *)
Ltac ok_if H := lazymatch goal with |- okspec _ (if ?b then _ else _) _ => destruct b eqn:H end.

Lemma unchanged_carried_ok p contents owner group mode w :
  okspec w (unchanged_carried fault p contents owner group mode) (λ b w',
    w' = w ∧ (b = true → ∃ m, w !! p = Some (EFile m contents) ∧ m_uid m = owner ∧ m_gid m = group)).
Proof.
  apply ok_bind. eapply (spec_mono _ _ _ _ (λ r w', w' = w)).
  { apply (spec_frames_nothing w), frames_attempt, frames_look. }
  { done. }
  intros r w' -> opened _. destruct (is_ok opened); cbn [negb]; [|by apply ok_ret].
  apply ok_bind, ok_io, ok_look. intros e He.
  destruct (w !! p) as [e'|] eqn:Ep; [|done]. injection He as ->.
  destruct e as [|m c| |]; try (by apply ok_ret).
  cbv zeta. ok_if Ec; [by apply ok_ret|].
  apply ok_bind. eapply (spec_mono _ _ _ _ (λ r w', w' = w)).
  { apply (spec_frames_nothing w), frames_group_object. }
  { done. }
  intros r' w' -> object _. ok_if Eg; [by apply ok_ret|].
  apply ok_bind, ok_io, ok_look. intros existing Hx. rewrite Ep in Hx. injection Hx as <-.
  apply ok_ret. split; [done|]. intros Hc. bool_prop. subst c. exists m. tauto.
Qed.

Lemma stage_one_ok staging entry w :
  vs_relative entry ≠ [] →
  okspec w (stage_one K fault staging entry) (λ _ w',
    (∃ e, w' !! (staging ++ vs_relative entry) = Some e
          ∧ installed (λ q, w !! (staging ++ q)) entry e)
    ∧ (∀ q, q ≠ staging ++ vs_relative entry → is_Some (w !! q) → w' !! q = w !! q)
    ∧ (∀ q, q ≠ staging ++ vs_relative entry → w !! q = None → is_Some (w' !! q) →
         dir_at w' q = true ∧ ∃ a r, q = staging ++ a ∧ vs_relative entry = a ++ r)).
Proof.
  intros Hne. set (path := staging ++ vs_relative entry). unfold stage_one, create_parents.
  fold path. cbv zeta. destruct (vs_relative entry) as [|last rel _] eqn:Er using rev_ind; [done|].
  assert (parent path = staging ++ rel) as ->.
  { unfold path. rewrite app_assoc. apply parent_snoc. }
  rewrite strip_app. apply ok_bind. eapply ok_mono; [apply create_components_ok|].
  intros [] w1 Hg.
  assert (∀ q, is_Some (w !! q) → w1 !! q = w !! q) as Hold.
  { intros q [e He]. destruct (Hg q) as [|[Hn _]]; congruence. }
  assert (∀ q, w !! q = None → is_Some (w1 !! q) →
            dir_at w1 q = true ∧ ∃ a r, q = staging ++ a ∧ rel ++ [last] = a ++ r) as Hnew.
  { intros q Hn [e He]. destruct (Hg q) as [|(_ & a & b & -> & _ & -> & Hd)]; [congruence|].
    split; [done|]. exists a, (b ++ [last]). by rewrite <- app_assoc. }
  apply ok_bind. eapply ok_mono; [apply unchanged_carried_ok|]. intros unchanged w1' [-> Hun].
  destruct unchanged.
  { apply ok_ret. destruct (Hun eq_refl) as (m & Hm & Hu & Hgr).
    split_and!; [|auto|auto]. exists (EFile m (rs_contents (vs_spec entry))). split; [done|].
    right. exists m. rewrite Er. split_and!; try done.
    destruct (Hg path) as [E|(_ & a & b & _ & _ & _ & Hd)]; [exact (eq_trans (eq_sym E) Hm)|].
    unfold dir_at in Hd. by rewrite Hm in Hd. }
  clear Hun. apply ok_bind. eapply (spec_mono _ _ _ _ (λ r w', w' = w1)).
  { apply (spec_frames_nothing w1), frames_attempt, frames_look. }
  { done. }
  intros r w' -> existing _. clear r. apply ok_bind.
  apply (ok_mono _ _ (λ _ w2, w2 = w1 ∨ w2 = delete path w1)).
  { destruct existing as [e|e]; [|apply ok_ret; by left].
    apply ok_bind, ok_guard. intros _.
    apply (spec_remove_file fault (λ _, True)); [|done]. split; [done|]. intros [] _. by right. }
  intros [] w2 H2.
  assert (∀ q, q ≠ path → w2 !! q = w1 !! q) as Hw2.
  { intros q Hq. destruct H2 as [-> | ->]; [done|by apply lookup_delete_ne]. }
  apply ok_bind, ok_io, ok_create. intros pm Hn Hp _.
  apply ok_bind, ok_io, ok_change. intros e e' He Hf. rewrite lookup_insert_eq in He.
  simplify_eq/=. rewrite insert_insert_eq.
  apply ok_bind, ok_io, ok_change. intros e e' He Hf. rewrite lookup_insert_eq in He.
  simplify_eq/=. rewrite insert_insert_eq.
  apply ok_bind, ok_io, ok_change. intros e e' He Hf. rewrite lookup_insert_eq in He.
  simplify_eq/=. rewrite insert_insert_eq.
  apply ok_bind, ok_io, ok_change. intros e e' He Hf. rewrite lookup_insert_eq in He.
  simplify_eq/=. rewrite insert_insert_eq.
  apply ok_bind, ok_sync. apply ok_bind, ok_io, ok_look. intros m _.
  apply ok_guard. intros _.
  match goal with |- context [<[path := ?e]> w2] => assert (e = EFile (manifest_meta (vs_spec entry))
    (rs_contents (vs_spec entry))) as -> end.
  { unfold manifest_meta. do 2 f_equal. unfold created. by destruct (m_default_acl pm). }
  assert (∀ q, q ≠ path → (<[path := EFile (manifest_meta (vs_spec entry))
    (rs_contents (vs_spec entry))]> w2 : World) !! q = w1 !! q) as Hw3.
  { intros q Hq. rewrite lookup_insert_ne by done. auto. }
  split_and!.
  - eexists. split; [apply lookup_insert_eq|by left].
  - intros q Hq Hs. rewrite Hw3; auto.
  - intros q Hq Hs. unfold dir_at. rewrite Hw3 by done. by apply Hnew.
Qed.

Lemma installed_ext old old' entry e :
  (∀ q, old' q = old q) → installed old entry e → installed old' entry e.
Proof. intros H [->|(m & Ho & He)]; [by left|right]. exists m. by rewrite H. Qed.

Lemma stage_each_ok staging entries w :
  (∀ entry, entry ∈ entries → vs_relative entry ≠ []) → NoDup (vs_relative <$> entries) →
  okspec w (stage_each K fault staging entries) (λ _ w',
    (∀ entry, entry ∈ entries → ∃ e, w' !! (staging ++ vs_relative entry) = Some e
       ∧ installed (λ q, w !! (staging ++ q)) entry e)
    ∧ (∀ q, (∀ entry, entry ∈ entries → q ≠ staging ++ vs_relative entry) →
         is_Some (w !! q) → w' !! q = w !! q)
    ∧ (∀ q, (∀ entry, entry ∈ entries → q ≠ staging ++ vs_relative entry) →
         w !! q = None → is_Some (w' !! q) →
         ∃ entry a r, entry ∈ entries ∧ q = staging ++ a ∧ vs_relative entry = a ++ r)).
Proof.
  revert w. induction entries as [|entry entries IH]; intros w Hne Hnd; cbn [stage_each].
  { apply ok_ret. split_and!; [by intros ? ?%elem_of_nil|done|].
    intros q _ Hn [e He]. congruence. }
  cbn in Hnd. apply NoDup_cons in Hnd as [Hni Hnd].
  apply ok_bind, ok_map_err. eapply ok_mono; [apply stage_one_ok, Hne; elem|].
  intros [] w1 ((e & He & Hin) & Hsame & Hnew).
  eapply ok_mono; [apply IH; [intros; apply Hne; elem|done]|].
  assert (∀ entry', entry' ∈ entries →
    staging ++ vs_relative entry' ≠ staging ++ vs_relative entry) as Hdiff.
  { intros entry' Hin' E%app_inv_head. apply Hni. rewrite <- E. by apply list_elem_of_fmap_2. }
  intros [] w2 (H1 & H2 & H3). split_and!.
  - intros entry' [->|Hin']%elem_of_cons.
    + exists e. split; [|done]. rewrite H2; [done|..|eauto].
      intros entry' Hin' E. symmetry in E. by eapply Hdiff.
    + destruct (H1 entry' Hin') as (e' & He' & Hi'). exists e'. split; [done|].
      destruct Hi' as [->|(m & Ho & -> & Hug)]; [by left|right]. exists m. split; [|done].
      destruct (w !! (staging ++ vs_relative entry')) as [e2|] eqn:E2.
      * rewrite <- Ho, <- E2. symmetry. apply Hsame; [by apply Hdiff|eauto].
      * destruct (Hnew (staging ++ vs_relative entry')) as [Hd _]; [by apply Hdiff|done|eauto|].
        unfold dir_at in Hd. by rewrite Ho in Hd.
  - intros q Hq Hs. assert (w1 !! q = w !! q) as E by (apply Hsame; [apply Hq; elem|done]).
    rewrite <- E. apply H2; [intros; apply Hq; elem|]. by rewrite E.
  - intros q Hq Hn Hs. destruct (w1 !! q) as [e1|] eqn:E1.
    + destruct (Hnew q) as (_ & a & r & -> & Har); [apply Hq; elem|done|eauto|].
      exists entry, a, r. split_and!; [elem|done|done].
    + destruct (H3 q) as (entry' & a & r & Hin' & Ha & Hr); [intros; apply Hq; elem|done|done|].
      exists entry', a, r. split_and!; [elem|done|done].
Qed.

(** The paths a root's view depends on. *)
Definition viewed (root q : Path) : Prop :=
  q = current root ∨ ∃ x, valid_generation x = true ∧ under (root ++ target x) q.

Lemma tree_outside root w w' :
  sound root w → (∀ q, viewed root q → w' !! q = w !! q) →
  pointer root w' = pointer root w
  ∧ ∀ q, tree_at root (pointer root w) w' q = tree_at root (pointer root w) w q.
Proof.
  intros Hs H. split; [unfold pointer; rewrite H; [done|by left]|].
  intros q. unfold tree_at. destruct (pointer root w) as [t|] eqn:E; [|done].
  destruct (Hs t E) as (x & -> & Hx). apply H. right. exists x. split; [done|].
  rewrite app_assoc. apply under_app.
Qed.

Lemma read_versions_ext old old' :
  (∀ q, old' q = old q) → read_versions old' = read_versions old.
Proof. intros H. unfold read_versions. by rewrite H. Qed.

Lemma valid_not_staging x : valid_generation (".staging-" +:+ x) = false.
Proof.
  unfold valid_generation.
  change (".staging-" +:+ x) with (".staging" +:+ String "-" x).
  by rewrite split_once_app.
Qed.

Lemma staging_not_viewed root id q : viewed root q → ¬ under (staging_of root id) q.
Proof.
  intros [->|(x & Hx & Hu)] Hs.
  - eapply apart_not_under; [|apply under_refl|exact Hs].
    by apply (snoc_apart root ".current" ".generations" [] [".staging-" +:+ id]).
  - eapply apart_not_under; [|exact Hu|exact Hs]. unfold staging_of, target.
    assert (apart (root ++ ".generations" :: [x]) (root ++ ".generations" :: [".staging-" +:+ id]))
      as H; [|done].
    pose proof (snoc_apart (root ++ [".generations"]) x (".staging-" +:+ id) [] []) as Ha.
    rewrite <- !app_assoc in Ha. apply Ha. intros ->. by rewrite valid_not_staging in Hx.
Qed.

Lemma prepare_store_ok d w :
  sound (dp_root d) w →
  okspec w (prepare_store K fault d) (λ _ w',
    (∀ q, q ≠ store (dp_root d) → w' !! q = w !! q)
    ∧ dir_at w' (store (dp_root d)) = true
    ∧ ∀ t, pointer (dp_root d) w = Some t → dir_at w' (dp_root d ++ t) = true).
Proof.
  intros Hs. set (root := dp_root d) in *. unfold prepare_store. fold root. cbv zeta.
  apply ok_bind. eapply (spec_mono _ _ _ _ (λ r w', w' = w)).
  { apply (spec_frames_nothing w). apply frames_exists. }
  { done. }
  intros r w' -> there _. clear r. apply ok_bind.
  apply (ok_mono _ _ (λ _ w', ∀ q, q ≠ store root → w' !! q = w !! q)).
  { destruct there; [by apply ok_ret|].
    apply ok_create_directory. intros pm m' Hn _ _ _ q Hq. by rewrite lookup_insert_ne. }
  intros [] w1 H1. apply ok_bind, ok_bind, ok_io, ok_look. intros e He. apply ok_guard.
  intros Hd. apply ok_bind, ok_io, ok_change. intros e1 e2 He1 Hf.
  rewrite He1 in He. injection He as <-. destruct e1 as [m| | |]; try done. cbn in Hf.
  injection Hf as <-. set (w2 := <[store root := _]> w1).
  assert (∀ q, q ≠ store root → w2 !! q = w !! q) as H2.
  { intros q Hq. unfold w2. rewrite lookup_insert_ne by done. auto. }
  assert (dir_at w2 (store root) = true) as Hd2 by (unfold dir_at, w2; by rewrite lookup_insert_eq).
  apply ok_bind, ok_io, ok_look. intros m1 _. apply ok_bind, ok_guard. intros _.
  apply ok_bind, ok_io, ok_look. intros m2 _. apply ok_bind, ok_io, ok_look. intros m3 _.
  apply ok_bind, ok_guard. intros _.
  assert (pointer root w2 = pointer root w) as Hp.
  { unfold pointer. rewrite H2; [done|]. intros E. apply app_inv_head in E. done. }
  apply ok_bind, ok_unless_absent.
  - intros e3 He3. apply ok_bind, ok_guard. intros _. apply ok_bind, ok_io, ok_look.
    intros t Ht. apply ok_bind, ok_lift. intros [] _. apply ok_bind, ok_io, ok_look.
    intros e4 He4. apply ok_guard. intros Hd4. split_and!; [done..|].
    intros t' Ht'. rewrite <- Hp in Ht'. unfold pointer in Ht'.
    destruct (w2 !! current root) as [[| |t0|]|]; try done.
    injection Ht as ->. injection Ht' as ->. unfold dir_at.
    destruct (w2 !! (root ++ t')) as [e5|]; [|done]. injection He4 as ->. by destruct e4.
  - intros e3 He3 _. apply ok_ret. split_and!; [done..|]. intros t Ht.
    rewrite <- Hp in Ht. unfold pointer in Ht. by destruct (w2 !! current root).
Qed.

Lemma clone_current_ok root staging w :
  wf_world w → sound root w → (∀ q, entry_ok (tree_at root (pointer root w) w q)) →
  (∀ t, pointer root w = Some t → dir_at w (root ++ t) = true ∧ apart (root ++ t) staging) →
  (∀ q, q ≠ [] → w !! (staging ++ q) = None) →
  okspec w (clone_current K fault root staging) (λ _ w',
    ∀ q, q ≠ [] → w' !! (staging ++ q)
      = if decide (clean q) then tree_at root (pointer root w) w q else None).
Proof.
  intros Hw Hs Hm Hd Hn. apply ok_bind, ok_unless_absent.
  - intros t Ht. assert (pointer root w = Some t) as Hp.
    { unfold pointer. by destruct (w !! current root) as [[]|]; simplify_eq. }
    rewrite Hp. apply ok_bind, ok_lift. intros [] _. destruct (Hd t Hp) as [Hdir Ha].
    assert (modes_ok (root ++ t) w) as Hmt.
    { intros q. specialize (Hm q). rewrite Hp in Hm. cbn in Hm. by rewrite <- app_assoc. }
    eapply spec_mono; [by apply clone_tree_copies|done|].
    intros r w' [_ H] [] Hr q Hq. rewrite (H Hr) by done. cbn. by rewrite app_assoc.
  - intros e He _. apply ok_ret. intros q Hq. rewrite Hn by done.
    assert (pointer root w = None) as -> by (unfold pointer; by destruct (w !! current root) as [[]|]).
    by destruct (decide _).
Qed.

(** What [validate] guarantees of the destinations. *)
Definition destinations_ok (entries : list ValidatedSecret) : Prop :=
  NoDup (vs_relative <$> entries)
  ∧ ∀ entry, entry ∈ entries → ∃ a b r, vs_relative entry = a :: b :: r.

(** The staged tree, as the steps before the rename leave it. *)
Lemma staged_built entries old (wc wd : Path → option entry) m text new :
  destinations_ok entries →
  (∀ q, q ≠ [] → wc q = if decide (clean q) then old q else None) →
  (∀ entry, entry ∈ entries → ∃ e, wd (vs_relative entry) = Some e ∧ installed wc entry e) →
  (∀ q, (∀ entry, entry ∈ entries → q ≠ vs_relative entry) → is_Some (wc q) → wd q = wc q) →
  (∀ q, (∀ entry, entry ∈ entries → q ≠ vs_relative entry) → wc q = None → is_Some (wd q) →
     ∃ entry r, entry ∈ entries ∧ vs_relative entry = q ++ r) →
  from_json text = Ok (insert_versions entries (read_versions old)) →
  new [VERSIONS] = Some (EFile m text) → (∀ q, q ≠ [] → q ≠ [VERSIONS] → new q = wd q) →
  built entries old new.
Proof.
  intros [Hnd Hlen] Hc Hin Hsame Hnew Htext HV Hq.
  assert (∀ entry, entry ∈ entries → vs_relative entry ≠ [] ∧ vs_relative entry ≠ [VERSIONS]) as Hr.
  { intros entry He. by destruct (Hlen entry He) as (a & b & r & ->). }
  constructor.
  - intros entry He. destruct (Hr entry He) as [Hr1 Hr2].
    destruct (Hin entry He) as (e & Hwd & Hi). exists e. rewrite Hq by done. split; [done|].
    destruct Hi as [->|(m' & Ho & Hi)]; [by left|right]. exists m'. split; [|done].
    rewrite Hc in Ho by done. by destruct (decide _).
  - intros q Hne Hcl Hni Hs. assert (q ≠ [VERSIONS]) as HnV.
    { intros ->. apply Hcl. elem. }
    assert (wc q = old q) as Ec by (rewrite Hc by done; by rewrite decide_True).
    rewrite Hq, Hsame, Ec; try done. by rewrite Ec.
  - intros q Hne Hs. destruct (decide (q = [VERSIONS])) as [|HnV]; [auto|].
    rewrite Hq in Hs |- * by done.
    destruct (decide (q ∈ vs_relative <$> entries)) as [Hin'|Hni].
    { left. apply list_elem_of_fmap in Hin' as (entry & -> & He). exists entry, [].
      by rewrite app_nil_r. }
    assert (∀ entry, entry ∈ entries → q ≠ vs_relative entry) as Hni'.
    { intros entry He ->. apply Hni. by apply list_elem_of_fmap_2. }
    destruct (wc q) as [e|] eqn:Ec.
    + right. right. rewrite Hsame, Ec by eauto. rewrite Hc in Ec by done.
      by destruct (decide _).
    + left. destruct (Hnew q) as (entry & r & He & Hr'); eauto.
  - eauto.
Qed.

Lemma stage_generation_ok d entries id w :
  codec_ok → wf_world w → sound (dp_root d) w →
  (∀ q, entry_ok (tree_at (dp_root d) (pointer (dp_root d) w) w q)) → destinations_ok entries →
  okspec w (stage_generation K fault to_json from_json d entries id) (λ previous w',
    previous = read_versions (tree_at (dp_root d) (pointer (dp_root d) w) w) ∧ wf_world w'
    ∧ ∀ new, (∀ q, q ≠ [] → new q = w' !! (staging_of (dp_root d) id ++ q)) →
        built entries (tree_at (dp_root d) (pointer (dp_root d) w) w) new).
Proof.
  intros Hcodec Hw Hs Hm Hde. set (root := dp_root d) in *. set (old := tree_at root (pointer root w) w).
  set (staging := staging_of root id). unfold stage_generation. fold root. cbv zeta. fold staging.
  (* the store *)
  apply ok_bind. refine (ok_mono _ _ _ _ (frames_ok (λ q, q = store root) w _ _
    (frames_prepare_store K fault _ d eq_refl) (prepare_store_ok d w Hs)) _).
  intros [] wa ((Ha & Hda & Hta) & [_ Hwa]). specialize (Hwa Hw). fold root in Ha, Hda, Hta.
  destruct (tree_outside root w wa Hs) as [Hpa Htra].
  { intros q Hv. apply Ha. intros ->. destruct Hv as [E|(x & _ & [y E]%under_spec)].
    - apply app_inv_head in E. done.
    - rewrite <- app_assoc in E. apply app_inv_head in E. done. }
  assert (sound root wa) as Hsa by (intros t; rewrite Hpa; apply Hs).
  (* the staging directory *)
  apply ok_bind. eapply ok_mono; [apply current_versions_ok|]. intros previous w' (-> & Hprev & _).
  assert (previous = read_versions old) as ->.
  { rewrite Hprev. apply read_versions_ext. intros q. rewrite Hpa. apply Htra. }
  apply ok_bind, ok_create_directory. intros pm ms Hns Hps _ _. fold staging in Hns, Hps.
  set (wb := <[staging := EDir ms]> wa).
  assert (wf_world wb) as Hwb
    by exact (proj2 (step_in_insert_new (λ _, True) staging (EDir ms) pm wa I Hns Hps) Hwa).
  destruct (tree_outside root wa wb Hsa) as [Hpb Htrb].
  { intros q Hv. unfold wb. rewrite lookup_insert_ne; [done|]. intros <-.
    eapply staging_not_viewed; [exact Hv|apply under_refl]. }
  assert (sound root wb) as Hsb by (intros t; rewrite Hpb; apply Hsa).
  (* the copy of the current generation *)
  apply ok_bind. refine (ok_mono _ _ _ _ (frames_ok (under staging) wb _ _
    (frames_clone_current K fault _ root staging ltac:(done))
    (clone_current_ok root staging wb Hwb Hsb _ _ _)) _).
  { intros q. rewrite Hpb, Htrb, Hpa. rewrite Htra. apply Hm. }
  { intros t Ht. rewrite Hpb, Hpa in Ht. destruct (Hs t Ht) as (x & -> & Hx). split.
    - unfold dir_at, wb. rewrite lookup_insert_ne; [by apply Hta|]. intros E.
      eapply (staging_not_viewed root id); [right; exists x; split; [done|apply under_refl]|].
      fold staging. rewrite E. apply under_refl.
    - pose proof (snoc_apart (root ++ [".generations"]) x (".staging-" +:+ id) [] []) as Hx'.
      rewrite <- !app_assoc in Hx'. apply Hx'. intros ->. by rewrite valid_not_staging in Hx. }
  { intros q Hq. unfold wb. rewrite lookup_insert_ne.
    - apply eq_None_not_Some. intros Hs'. destruct q as [|c q]; [done|].
      apply wf_ancestor in Hs' as [m Hs']; [congruence|done].
    - intros E. symmetry in E. rewrite <- (app_nil_r staging) in E at 2.
      by apply app_inv_head in E. }
  intros [] wc [Hc Hfc].
  destruct (tree_outside root wb wc Hsb) as [Hpc Htrc].
  { intros q Hv. apply Hfc. by apply staging_not_viewed. }
  (* the values *)
  apply ok_bind. refine (ok_mono _ _ _ _ (frames_ok (under staging) wc _ _
    (frames_stage_each K fault _ staging entries ltac:(done))
    (stage_each_ok staging entries wc _ (proj1 Hde))) _).
  { intros entry He. by destruct (proj2 Hde entry He) as (a & b & r & ->). }
  intros [] wd [(Hd1 & Hd2 & Hd3) Hfd].
  destruct (tree_outside root wc wd) as [Hpd Htrd].
  { intros t. rewrite Hpc. apply Hsb. }
  { intros q Hv. apply Hfd. by apply staging_not_viewed. }
  assert (∀ q, tree_at root (pointer root wb) wb q = old q) as Hbq.
  { intros q. rewrite Hpb, Htrb, Hpa. apply Htra. }
  (* the versions *)
  apply ok_bind. refine (ok_mono _ _ _ _ (frames_ok (λ _, True) wd _ _
    (frames_stage_versions K fault _ _ _ root staging entries I)
    (stage_versions_ok root staging entries wd Hcodec)) _).
  intros [] we ((m & text & -> & HnV & Htext) & [_ Hwe]).
  apply ok_bind. eapply (spec_mono _ _ _ _ (λ r w', w' = <[staging ++ [VERSIONS] := EFile m text]> wd)).
  { apply spec_frames_nothing, frames_sync_tree. }
  { done. }
  intros r w' -> u _. clear u r. apply ok_ret. split_and!; [done|by apply Hwe, Hfd, Hfc|].
  intros new Hnew.
  eapply (staged_built entries old (λ q, wc !! (staging ++ q)) (λ q, wd !! (staging ++ q)) m text);
    [done| |exact Hd1| | | | |].
  - intros q Hq. rewrite Hc by done. destruct (decide _); [|done]. apply Hbq.
  - intros q Hq. apply Hd2. intros entry He E. apply app_inv_head in E. by eapply Hq.
  - intros q Hq Hn Hsome. destruct (Hd3 (staging ++ q)) as (entry & a & r & He & E & Hr); [|done..|].
    + intros entry He E. apply app_inv_head in E. by eapply Hq.
    + apply app_inv_head in E as <-. eauto.
  - rewrite Htext. do 2 f_equal. apply read_versions_ext. intros q.
    rewrite Hpd, Htrd, Hpc, Htrc. apply Hbq.
  - rewrite Hnew by done. apply lookup_insert_eq.
  - intros q Hq HqV. rewrite Hnew by done. apply lookup_insert_ne. intros E.
    apply app_inv_head in E. done.
Qed.

Lemma staging_generation_apart root id : apart (staging_of root id) (generation root id).
Proof.
  pose proof (snoc_apart (root ++ [".generations"]) (".staging-" +:+ id) id [] []) as H.
  rewrite <- !app_assoc in H. apply H. intros E. apply (f_equal String.length) in E.
  rewrite length_sapp in E. cbn in E. lia.
Qed.

(** Renaming the staging directory moves everything below it. *)
Lemma rename_tree src dst w u w' :
  wf_world w → apart src dst → rename_to src dst w = Ok (u, w') →
  ∀ q, q ≠ [] → w' !! (dst ++ q) = w !! (src ++ q).
Proof.
  intros Hw Ha H q Hq. destruct q as [|c q]; [done|].
  apply rename_cases in H as [[-> ->]|(_ & e & pm & Hs & Hp & [(He & Hnd & ->)|(_ & -> & _)])].
  - destruct Ha as [Ha _]. pose proof (strip_app dst []) as Hx. rewrite app_nil_r in Hx. congruence.
  - assert (∀ p, (∀ m, w !! p ≠ Some (EDir m)) → w !! (p ++ c :: q) = None) as Hnone.
    { intros p Hp'. apply eq_None_not_Some. intros Hs'. apply wf_ancestor in Hs' as [m Hm]; [|done].
      by apply (Hp' m). }
    rewrite lookup_insert_ne, lookup_delete_ne.
    + rewrite !Hnone; [done| |done]. intros m Hm. rewrite Hs in Hm. injection Hm as ->. by eapply He.
    + intros E. destruct Ha as [_ Ha]. by rewrite E, strip_app in Ha.
    + intros E. rewrite <- (app_nil_r dst) in E at 1. apply app_inv_head in E. done.
  - rewrite lookup_move by done. by rewrite strip_app.
Qed.

Lemma publish_generation_ok root entries id w :
  wf_world w →
  okspec w (publish_generation K fault hash_order root entries id) (λ _ w',
    w' !! pending_pointer root id = Some (ELink (target id))
    ∧ ∀ q, q ≠ [] → w' !! (generation root id ++ q) = w !! (staging_of root id ++ q)).
Proof.
  intros Hw. unfold publish_generation. apply ok_bind, ok_io, ok_sys. intros [] w1 Hr.
  pose proof (rename_tree _ _ _ _ _ Hw (staging_generation_apart root id) Hr) as H1.
  apply ok_bind, ok_sync, ok_bind.
  apply (spec_mono (step_in (λ q, ∃ s, q = root ++ [s]) w1) _ _ _
    (λ r w', step_in (λ q, ∃ s, q = root ++ [s]) w1 w')).
  { apply frames_link_services. intros s _. by exists s. }
  { done. }
  intros r w2 [Hf _] u _. clear u r.
  apply ok_bind, ok_sync, ok_bind, ok_io, ok_create. intros pm Hn Hp Hne.
  apply ok_bind, ok_sync, ok_bind, ok_io, ok_change. intros e e' He Hf'. apply ok_sync.
  assert (∀ q, generation root id ++ q ≠ pending_pointer root id) as Hg.
  { intros q E. apply (pending_not_generation root id id). rewrite <- E. apply under_app. }
  split.
  - rewrite lookup_insert_ne; [apply lookup_insert_eq|]. intros E. apply (Hg []).
    by rewrite app_nil_r.
  - intros q Hq. rewrite !lookup_insert_ne.
    + rewrite Hf; [by apply H1|]. intros [s E]. unfold generation in E. rewrite <- app_assoc in E.
      apply app_inv_head in E. done.
    + intros E. symmetry in E. by apply Hg in E.
    + intros E. rewrite <- (app_nil_r (generation root id)) in E at 1. apply app_inv_head in E. done.
Qed.

(** A prepared generation holds the batch over the current generation. *)
Lemma prepare_ok d entries id w :
  codec_ok → wf_world w → sound (dp_root d) w →
  (∀ q, entry_ok (tree_at (dp_root d) (pointer (dp_root d) w) w q)) → destinations_ok entries →
  okspec w (prepare K fault to_json from_json hash_order d entries id) (λ previous w',
    previous = read_versions (tree_at (dp_root d) (pointer (dp_root d) w) w)
    ∧ w' !! pending_pointer (dp_root d) id = Some (ELink (target id))
    ∧ built entries (tree_at (dp_root d) (pointer (dp_root d) w) w)
        (λ q, w' !! (generation (dp_root d) id ++ q))).
Proof.
  intros. apply ok_bind. eapply ok_mono; [by apply stage_generation_ok|].
  intros previous w1 (-> & Hw1 & Hb). apply ok_bind.
  eapply ok_mono; [by apply publish_generation_ok|]. intros [] w2 [Hp Hg].
  apply ok_ret. split_and!; [done|done|]. by apply Hb.
Qed.

Lemma built_ext entries old old' new new' :
  (∀ q, old' q = old q) → (∀ q, new' q = new q) → built entries old new → built entries old' new'.
Proof.
  intros Ho Hn [H1 H2 H3 (m & text & H4 & H5)]. constructor.
  - intros entry He. destruct (H1 entry He) as (e & E & Hi). exists e. rewrite Hn.
    split; [done|]. by eapply installed_ext.
  - intros q. rewrite Ho, Hn. auto.
  - intros q. rewrite Ho, Hn. auto.
  - exists m, text. rewrite Hn. split; [done|]. by rewrite (read_versions_ext old old').
Qed.
End Built.
