(* ===== verification/Paths.v ===== *)
(** * Path texts

    [std::path::Path] over a text: components, parent, file name and joining,
    as the deployer uses them to compare destinations. *)
From S2P Require Import Prelude Text.
#[local] Open Scope Z_scope.

Inductive Component := RootDir | CurDir | ParentDir | Normal (name : string).
#[export] Instance component_eq_dec : EqDecision Component.
Proof. solve_decision. Defined.

(** A component that is not dropped; [.] counts only at the start of a
    relative path. *)
Definition component_of (part : string) : option Component :=
  if bool_decide (part = "") || bool_decide (part = ".") then None
  else if bool_decide (part = "..") then Some ParentDir
  else Some (Normal part).
Definition components (path : string) : list Component :=
  let parts := split "/" path in
  (if starts_with "/" path then [RootDir]
   else match parts with part :: _ => if bool_decide (part = ".") then [CurDir] else [] | [] => [] end)
  ++ omap component_of parts.

Definition path_parent (path : list Component) : option (list Component) :=
  match last path with
  | Some RootDir | None => None
  | Some _ => Some (removelast path)
  end.
Definition path_file_name (path : list Component) : option string :=
  match last path with Some (Normal name) => Some name | _ => None end.

(** [Path::join]. *)
Definition path_join (base path : string) : string :=
  if starts_with "/" path then path
  else if bool_decide (base = "") || ends_with "/" base then base +:+ path
  else base +:+ "/" +:+ path.

Definition is_absolute (path : string) : bool := starts_with "/" path.

(** ** Lemmas *)
Lemma path_parent_snoc path name : path_parent (path ++ [Normal name]) = Some path.
Proof. unfold path_parent. rewrite last_snoc. by rewrite removelast_last. Qed.

Lemma path_file_name_Some path name :
  path_file_name path = Some name ↔ ∃ parent, path = parent ++ [Normal name].
Proof.
  unfold path_file_name. split.
  - destruct (last path) as [[| | |n]|] eqn:E; try done. intros [= ->].
    apply last_Some in E as [parent ->]. by exists parent.
  - intros (parent & ->). by rewrite last_snoc.
Qed.

Lemma path_parts path parent name :
  path_parent path = Some parent → path_file_name path = Some name → path = parent ++ [Normal name].
Proof.
  intros Hp (q & ->)%path_file_name_Some. rewrite path_parent_snoc in Hp. by injection Hp as ->.
Qed.

Lemma split_app_mid sep a b : split sep (a +:+ String sep b) = split sep a ++ split sep b.
Proof.
  induction a as [|c a IH].
  - cbn [split]. change ("" +:+ String sep b) with (String sep b). cbn [split]. by rewrite Ascii.eqb_refl.
  - rewrite scons_app. cbn [split]. destruct (Ascii.eqb c sep); [by rewrite IH|]. rewrite IH.
    pose proof (split_not_nil sep a). by destruct (split sep a).
Qed.

(** A name that is one component of a path. *)
Definition plain_name (name : string) : Prop :=
  name ≠ "" ∧ name ≠ "." ∧ name ≠ ".." ∧ contains_byte 47 name = false.

Lemma plain_component name : plain_name name → component_of name = Some (Normal name).
Proof. intros (? & ? & ? & _). unfold component_of. by rewrite !bool_decide_false. Qed.

Lemma components_join base name :
  starts_with "/" base = true → ends_with "/" base = false → plain_name name →
  components (path_join base name) = components base ++ [Normal name].
Proof.
  intros Hs He Hn. pose proof Hn as (Hne & _ & _ & Hc).
  assert (starts_with "/" name = false) as Hrel.
  { apply not_true_iff_false. intros [r ->]%starts_with_spec. by cbn in Hc. }
  assert (path_join base name = base +:+ String "/" name) as ->.
  { unfold path_join. rewrite Hrel, He, orb_false_r, bool_decide_false; [done|]. by intros ->. }
  apply starts_with_spec in Hs as [r ->]. unfold components. rewrite split_app_mid, omap_app.
  rewrite (split_no_sep "/" name) by done. cbn [omap list_omap]. rewrite plain_component by done.
  assert (∀ t, starts_with "/" ("/" +:+ t) = true) as Habs by (intros t; apply starts_with_spec; by exists t).
  rewrite sapp_assoc, !Habs. by rewrite <- (assoc app).
Qed.

Lemma ends_with_last c s : ends_with (String c "") s = true ↔ last (bytes s) = Some (bz c).
Proof.
  unfold ends_with. rewrite is_some_true. split.
  - intros [r ->%strip_suffix_Some]. rewrite bytes_app. change (bytes (String c "")) with [bz c].
    apply last_snoc.
  - intros [l Hl]%last_Some. exists (of_bytes l). apply strip_suffix_Some, bytes_inj.
    rewrite bytes_app, bytes_of_bytes, Hl; [done|].
    pose proof (bytes_is_byte s) as H. rewrite Hl, forallb_app in H. by apply andb_true_iff in H as [H _].
Qed.

Lemma path_join_plain base name :
  starts_with "/" base = true → ends_with "/" base = false → plain_name name →
  starts_with "/" (path_join base name) = true ∧ ends_with "/" (path_join base name) = false.
Proof.
  intros [r ->]%starts_with_spec He (Hne & _ & _ & Hc). unfold path_join.
  assert (starts_with "/" name = false) as ->.
  { apply not_true_iff_false. intros [r' ->]%starts_with_spec. by cbn in Hc. }
  rewrite He, orb_false_r, bool_decide_false by done. split.
  - apply starts_with_spec. eexists. by rewrite sapp_assoc.
  - apply not_true_iff_false. rewrite ends_with_last, !bytes_app, !last_app.
    destruct (last (bytes name)) as [b|] eqn:E.
    + intros [= ->]. apply last_Some in E as [l E]. unfold contains_byte in Hc. rewrite E, existsb_app in Hc.
      cbn in Hc. by rewrite orb_true_r in Hc.
    + apply last_None in E. destruct Hne. by rewrite <- (of_bytes_bytes name), E.
Qed.
