(* ===== verification/Rows.v ===== *)
(** * The rows of the TUI

    [crates/manager/src/tree.rs], [tree/reorder.rs] and, of the model, its
    [attributes.rs], [visibility.rs], [collapse.rs], [catalog.rs],
    [profiles.rs] and the methods of [model.rs] and [dialogs.rs] that look at
    rows only: which leaves there are, in which groups, which of them are
    visible, and which one is selected.  Positions and depths are [nat]: they
    count rows in memory. *)
From S2P Require Import Prelude BTree Text Net Generator Schema FileSystem Profiles.
#[local] Open Scope Z_scope.

(** ** Rows *)
Inductive RowCategory := CtBranch | CtPassword | CtKey | CtPublicInfo | CtOperator | CtOther.

Record Row := {
  rw_depth : nat;
  rw_name : string;
  rw_display_segments : list string;
  rw_path : option string;
  rw_is_set : bool;
  rw_is_task : bool;
  rw_can_generate : bool;
  rw_can_copy_public : bool;
  rw_output_is_set : option bool;
  rw_description : option string;
  rw_category : RowCategory;
  rw_human_facing : bool;
  rw_external_input_required : bool;
  rw_required_for_install : bool;
  rw_identity : option SecretIdentity;
  rw_presentation : option SecretPresentation
}.

#[export] Instance RowCategory_eq_dec : EqDecision RowCategory.
Proof. solve_decision. Defined.
#[export] Instance SecretIdentity_eq_dec : EqDecision SecretIdentity.
Proof. solve_decision. Defined.
#[export] Instance SecretPresentation_eq_dec : EqDecision SecretPresentation.
Proof. solve_decision. Defined.
#[export] Instance Row_eq_dec : EqDecision Row.
Proof. solve_decision. Defined.

(** [Row::is_secret]. *)
Definition is_secret (row : Row) : bool := is_some (rw_path row).

Definition branch (depth : nat) (name : string) (segments : list string) : Row :=
  {| rw_depth := depth; rw_name := name; rw_display_segments := segments; rw_path := None;
     rw_is_set := false; rw_is_task := false; rw_can_generate := false; rw_can_copy_public := false;
     rw_output_is_set := None; rw_description := None; rw_category := CtBranch; rw_human_facing := false;
     rw_external_input_required := false; rw_required_for_install := false; rw_identity := None;
     rw_presentation := None |}.

Definition child_path (parent : list string) (name : string) : list string := parent ++ [name].

(** [rsplit('.').next()]. *)
Definition last_component (path : string) : string := default path (last (Text.split "." path)).

(** ** The rows of a schema *)
Section Visit.
Context (set public_ids : list (string * unit)).

(** What the three kinds of leaves have in common. *)
Definition leaf_row (depth : nat) (path : string) (display_path : list string) (is_set is_task generate copy : bool)
  (description : option string) (category : RowCategory) (human external install : bool)
  (identity : option SecretIdentity) (presentation : option SecretPresentation) : Row :=
  let name := from_option si_name (last_component path) identity in
  {| rw_depth := depth - 1; rw_name := name; rw_display_segments := child_path display_path name;
     rw_path := Some path; rw_is_set := is_set; rw_is_task := is_task; rw_can_generate := generate;
     rw_can_copy_public := copy; rw_output_is_set := None; rw_description := description;
     rw_category := category; rw_human_facing := human; rw_external_input_required := external;
     rw_required_for_install := install; rw_identity := identity; rw_presentation := presentation |}.

Definition is_password (t : option ValueType) : bool :=
  match t with Some VtPassword => true | _ => false end.

(** The leaf arms of [visit]; a generated secret of another type has no row. *)
Definition visit_leaf (node : SecretNode) (path : string) (depth : nat) (display_path : list string) : list Row :=
  match node with
  | Secret l =>
      [leaf_row depth path display_path
         (match lf_kind l with
          | KPublicInfo => is_some_and (λ id, bt_contains id public_ids) (lf_shared_public_id l)
          | KSecret => bt_contains path set
          end)
         false (is_password (lf_value_type l) && negb (lf_external_input_required l))
         (bool_decide (ds_content_type (lf_destination l) = Some "openssh-private-key"))
         (lf_description l)
         (match lf_kind l with
          | KPublicInfo => CtPublicInfo
          | KSecret => match lf_value_type l with
                       | Some VtPassword => CtPassword
                       | Some VtKey => CtKey
                       | None => CtOther
                       end
          end)
         (lf_human_facing l) (lf_external_input_required l) (lf_required_for_install l) (lf_identity l)
         (lf_presentation l)]
  | Generated l =>
      match gs_secret_type (gl_generated_secret l) with
      | StorageBoxSshKey =>
          [leaf_row depth path display_path (bt_contains path set) true
             (is_password (gl_value_type l) && negb (gl_external_input_required l)) false (gl_description l)
             CtPassword (gl_human_facing l) (gl_external_input_required l) (gl_required_for_install l)
             (gl_identity l) (gl_presentation l)]
      | LocalSshKey => []
      end
  | Operator l =>
      [leaf_row depth path display_path (bt_contains path set) false (is_some (ol_generator l))
         (is_some (ol_generator l)) (ol_description l) CtOperator (ol_human_facing l) false
         (ol_required_for_install l) (ol_identity l) (ol_presentation l)]
  | Branch _ => []
  end.

Definition is_branch (node : SecretNode) : bool := match node with Branch _ => true | _ => false end.

(** [visit], with [visit_children] as its loop. *)
Fixpoint visit (node : SecretNode) (path : string) (depth : nat) (display_path : list string) {struct node}
  : list Row :=
  match node with
  | Branch children =>
      (fix visit_children (children : list (string * SecretNode)) : list Row :=
         match children with
         | [] => []
         | (name, node) :: children =>
             let child := path +:+ "." +:+ name in
             let child_display := child_path display_path name in
             (if is_branch node
              then branch depth name child_display :: visit node child (depth + 1) child_display
              else visit node child (depth + 1) display_path) ++ visit_children children
         end) children
  | leaf => visit_leaf leaf path depth display_path
  end.

(** The services of a namespace by their display labels. *)
Inductive DisplayNode :=
| Display (children : list (string * DisplayNode)) (service : option (string * SecretNode)).
Definition empty_display : DisplayNode := Display [] None.

Fixpoint place (labels : list string) (service : string * SecretNode) (node : DisplayNode) : DisplayNode :=
  let '(Display children old) := node in
  match labels with
  | [] => Display children (Some service)
  | label :: labels =>
      Display (bt_insert label (place labels service (default empty_display (bt_get label children))) children) old
  end.

Fixpoint emit_display (parent : DisplayNode) (host namespace : string) (depth : nat) (display_path : list string)
  {struct parent} : list Row :=
  let '(Display children _) := parent in
  (fix go (children : list (string * DisplayNode)) : list Row :=
     match children with
     | [] => []
     | (label, node) :: children =>
         let child := child_path display_path label in
         branch depth label child
         :: (let '(Display _ service) := node in
             match service with
             | Some (service, tree) =>
                 visit tree (host +:+ "." +:+ namespace +:+ "." +:+ service) (depth + 1) child
             | None => []
             end)
         ++ emit_display node host namespace (depth + 1) child ++ go children
     end) children.

Definition service_labels (metadata : HostMetadata) (namespace service : string) : list string :=
  default [service] (paths ← bt_get namespace (hm_service_display_paths metadata); bt_get service paths).

Definition namespace_rows (host_name : string) (metadata : HostMetadata)
  (group : string * list (string * SecretNode)) : list Row :=
  let '(namespace, services) := group in
  let path := [host_name; namespace] in
  let display :=
    foldl (λ display service, place (service_labels metadata namespace service.1) service display)
      empty_display services in
  branch 1 namespace path :: emit_display display host_name namespace 2 path.

Definition rows_with_public (configuration : Schema) : list Row :=
  mjoin ((λ item : string * HostSchema,
    let '(host_name, host) := item in
    branch 0 host_name [host_name]
    :: mjoin (namespace_rows host_name (hs_metadata host) <$> hs_service_groups host)) <$> configuration).
End Visit.

Definition rows (configuration : Schema) (set : list (string * unit)) : list Row :=
  rows_with_public set [] configuration.

(** ** Attributes of a value *)
Inductive Attribute :=
| AHost | AScope | AUser | AService | AResponsibility | ANamespace | AName | AExplanation | AFacing | AType
| AStatus.

#[export] Instance Attribute_eq_dec : EqDecision Attribute.
Proof. solve_decision. Defined.

Definition attribute_key (attribute : Attribute) : string :=
  match attribute with
  | AHost => "host" | AScope => "scope" | AUser => "user" | AService => "service"
  | AResponsibility => "responsibility" | ANamespace => "namespace" | AName => "name"
  | AExplanation => "explanation" | AFacing => "facing" | AType => "type" | AStatus => "status"
  end.
Definition ALL : list Attribute :=
  [AHost; AScope; AUser; AService; AResponsibility; ANamespace; AName; AExplanation; AFacing; AType; AStatus].
Definition GROUPING : list Attribute :=
  [AHost; AScope; AUser; AService; AResponsibility; ANamespace; AName; AFacing; AType; AStatus].
Definition DEFAULT_TREE : list Attribute := [AHost; AScope; AService; AResponsibility; ANamespace; AName].

Definition from_key (key : string) : option Attribute :=
  List.find (λ attribute, bool_decide (attribute_key attribute = key)) ALL.
Definition groups (attribute : Attribute) : bool := bool_decide (attribute ∈ GROUPING).

(** The derived [Ord]: the order of declaration. *)
Definition attribute_rank (attribute : Attribute) : Z :=
  match attribute with
  | AHost => 0 | AScope => 1 | AUser => 2 | AService => 3 | AResponsibility => 4 | ANamespace => 5 | AName => 6
  | AExplanation => 7 | AFacing => 8 | AType => 9 | AStatus => 10
  end.
Lemma attribute_rank_inj a b : attribute_rank a = attribute_rank b → a = b.
Proof. by destruct a, b. Qed.
#[export] Program Instance OrdKey_Attribute : OrdKey Attribute :=
  {| kcmp := λ a b, attribute_rank a ?= attribute_rank b |}.
Next Obligation.
  intros a b. split; [|by intros ->; apply Z.compare_refl].
  intros H%Z.compare_eq. by apply attribute_rank_inj.
Qed.
Next Obligation. intros a b. apply Z.compare_antisym. Qed.
Next Obligation. intros a b c. rewrite !Z.compare_lt_iff. lia. Qed.

Definition raw_value (attribute : Attribute) (row : Row) : option string :=
  let identity := rw_identity row in
  let presentation := rw_presentation row in
  let path := default "" (rw_path row) in
  match attribute with
  | AHost => Some (from_option si_host (default "" (head (Text.split "." path))) identity)
  | AScope => Some (from_option si_scope (if contains_str ".user-" path then "user" else "system") identity)
  | AUser => identity ≫= si_user
  | AService => Some (from_option si_service (default "" (Text.split "." path !! 2%nat)) identity)
  | AResponsibility => Some (from_option si_responsibility "main" identity)
  | ANamespace => identity ≫= si_namespace
  | AName => Some (from_option si_name (rw_name row) identity)
  | AExplanation =>
      match presentation with Some value => Some (Schema.sn_explanation value) | None => rw_description row end
  | AFacing =>
      Some (from_option sn_facing
        (if rw_external_input_required row then "external" else if rw_human_facing row then "human" else "generated")
        presentation)
  | AType =>
      Some (from_option sn_value_type
        (match rw_category row with
         | CtPassword => "passphrase" | CtKey => "key" | CtPublicInfo => "public-key"
         | CtOperator => "operator-key" | CtOther | CtBranch => "value"
         end) presentation)
  | AStatus => Some (if rw_is_set row then "set" else "unset")
  end.

Definition value (attribute : Attribute) (row : Row) : option string :=
  value ← raw_value attribute row;
  if bool_decide (value ≠ "") && bool_decide (value ≠ "(none)") then Some value else None.

(** ** Facets *)
Inductive FacetMode := FmAll | FmWhitelist | FmBlacklist.
#[export] Instance FacetMode_eq_dec : EqDecision FacetMode.
Proof. solve_decision. Defined.
Record Facet := { fc_mode : FacetMode; fc_selected : list (string * unit) }.
Definition facet_default : Facet := {| fc_mode := FmAll; fc_selected := [] |}.

Definition facet_accepts (facet : Facet) (value : string) : bool :=
  match fc_mode facet with
  | FmAll => true
  | FmWhitelist => bt_contains value (fc_selected facet)
  | FmBlacklist => negb (bt_contains value (fc_selected facet))
  end.

Definition set_difference (universe selected : list (string * unit)) : list (string * unit) :=
  filter (λ item, bt_contains item.1 selected = false) universe.

Definition facet_set_mode (mode : FacetMode) (universe : list (string * unit)) (facet : Facet) : Facet :=
  if decide (mode = fc_mode facet) then facet
  else
    {| fc_mode := mode;
       fc_selected :=
         match fc_mode facet, mode with
         | FmAll, FmWhitelist => universe
         | FmAll, FmBlacklist | _, FmAll => []
         | FmWhitelist, FmBlacklist | FmBlacklist, FmWhitelist => set_difference universe (fc_selected facet)
         | _, _ => fc_selected facet
         end |}.

Definition set_toggle (value : string) (set : list (string * unit)) : list (string * unit) :=
  if bt_contains value set then bt_remove value set else bs_insert value set.
Definition facet_toggle (value : string) (facet : Facet) : Facet :=
  {| fc_mode := fc_mode facet; fc_selected := set_toggle value (fc_selected facet) |}.

(** ** Rows by attributes ([tree/reorder.rs]) *)
Inductive Node := Tree (children : list (string * Node)) (leaves : list Row).
Definition empty_node : Node := Tree [] [].

(** The groups [reordered_rows] walks down to a leaf: its name groups nothing
    when it is the last attribute. *)
Fixpoint group_labels (order : list Attribute) (leaf : Row) : list string :=
  match order with
  | [] => []
  | [AName] => []
  | attribute :: order => option_list (value attribute leaf) ++ group_labels order leaf
  end.

Fixpoint add_leaf (labels : list string) (leaf : Row) (node : Node) : Node :=
  let '(Tree children leaves) := node in
  match labels with
  | [] => Tree children (leaves ++ [leaf])
  | label :: labels =>
      Tree (bt_insert label (add_leaf labels leaf (default empty_node (bt_get label children))) children) leaves
  end.

Definition path_cmp (a b : option string) : comparison :=
  match a, b with
  | None, None => Eq | None, Some _ => Lt | Some _, None => Gt | Some a, Some b => kcmp a b
  end.
Definition leaf_cmp (a b : Row) : comparison :=
  match kcmp (rw_name a) (rw_name b) with Eq => path_cmp (rw_path a) (rw_path b) | c => c end.

(** [sort_by] is stable. *)
Fixpoint insert_leaf (leaf : Row) (leaves : list Row) : list Row :=
  match leaves with
  | [] => [leaf]
  | l :: ls => match leaf_cmp leaf l with Gt => l :: insert_leaf leaf ls | _ => leaf :: leaves end
  end.
Definition sort_leaves (leaves : list Row) : list Row := foldr insert_leaf [] leaves.

Definition settle (depth : nat) (ancestors : list string) (leaf : Row) : Row :=
  {| rw_depth := depth; rw_name := rw_name leaf; rw_display_segments := child_path ancestors (rw_name leaf);
     rw_path := rw_path leaf; rw_is_set := rw_is_set leaf; rw_is_task := rw_is_task leaf;
     rw_can_generate := rw_can_generate leaf; rw_can_copy_public := rw_can_copy_public leaf;
     rw_output_is_set := rw_output_is_set leaf; rw_description := rw_description leaf;
     rw_category := rw_category leaf; rw_human_facing := rw_human_facing leaf;
     rw_external_input_required := rw_external_input_required leaf;
     rw_required_for_install := rw_required_for_install leaf; rw_identity := rw_identity leaf;
     rw_presentation := rw_presentation leaf |}.

Fixpoint emit (node : Node) (depth : nat) (ancestors : list string) {struct node} : list Row :=
  let '(Tree children leaves) := node in
  (fix go (children : list (string * Node)) : list Row :=
     match children with
     | [] => []
     | (label, child) :: children =>
         let path := ancestors ++ [label] in
         branch depth label path :: emit child (depth + 1) path ++ go children
     end) children
  ++ (settle depth ancestors <$> sort_leaves leaves).

Definition reordered_rows (leaves : list Row) (order : list Attribute) : list Row :=
  emit (foldl (λ root leaf, add_leaf (group_labels order leaf) leaf root) empty_node
          (filter (λ leaf, is_secret leaf = true) leaves)) 0 [].

(** ** The view

    The fields of [Model] that say what of the rows is shown. *)
Inductive ViewFilter := FRequired | FAll | FKeys | FPasswords | FPublicInfo.
#[export] Instance ViewFilter_eq_dec : EqDecision ViewFilter.
Proof. solve_decision. Defined.

Record View := {
  vw_rows : list Row;
  vw_selected : nat;
  vw_filter : ViewFilter;
  vw_human_only : bool;
  vw_search : string;
  vw_tree_order : list Attribute;
  vw_facets : list (Attribute * Facet);
  vw_profiles : ProfileSnapshot;
  vw_active_profile : option string;
  vw_collapsed : list (list string * unit);
  vw_search_collapsed : string * list (list string * unit)
}.

Definition with_rows rows v := {| vw_rows := rows; vw_selected := vw_selected v; vw_filter := vw_filter v; vw_human_only := vw_human_only v; vw_search := vw_search v; vw_tree_order := vw_tree_order v; vw_facets := vw_facets v; vw_profiles := vw_profiles v; vw_active_profile := vw_active_profile v; vw_collapsed := vw_collapsed v; vw_search_collapsed := vw_search_collapsed v |}.
Definition with_selected selected v := {| vw_rows := vw_rows v; vw_selected := selected; vw_filter := vw_filter v; vw_human_only := vw_human_only v; vw_search := vw_search v; vw_tree_order := vw_tree_order v; vw_facets := vw_facets v; vw_profiles := vw_profiles v; vw_active_profile := vw_active_profile v; vw_collapsed := vw_collapsed v; vw_search_collapsed := vw_search_collapsed v |}.
Definition with_filter filter v := {| vw_rows := vw_rows v; vw_selected := vw_selected v; vw_filter := filter; vw_human_only := vw_human_only v; vw_search := vw_search v; vw_tree_order := vw_tree_order v; vw_facets := vw_facets v; vw_profiles := vw_profiles v; vw_active_profile := vw_active_profile v; vw_collapsed := vw_collapsed v; vw_search_collapsed := vw_search_collapsed v |}.
Definition with_human_only human v := {| vw_rows := vw_rows v; vw_selected := vw_selected v; vw_filter := vw_filter v; vw_human_only := human; vw_search := vw_search v; vw_tree_order := vw_tree_order v; vw_facets := vw_facets v; vw_profiles := vw_profiles v; vw_active_profile := vw_active_profile v; vw_collapsed := vw_collapsed v; vw_search_collapsed := vw_search_collapsed v |}.
Definition with_search search v := {| vw_rows := vw_rows v; vw_selected := vw_selected v; vw_filter := vw_filter v; vw_human_only := vw_human_only v; vw_search := search; vw_tree_order := vw_tree_order v; vw_facets := vw_facets v; vw_profiles := vw_profiles v; vw_active_profile := vw_active_profile v; vw_collapsed := vw_collapsed v; vw_search_collapsed := vw_search_collapsed v |}.
Definition with_tree_order order v := {| vw_rows := vw_rows v; vw_selected := vw_selected v; vw_filter := vw_filter v; vw_human_only := vw_human_only v; vw_search := vw_search v; vw_tree_order := order; vw_facets := vw_facets v; vw_profiles := vw_profiles v; vw_active_profile := vw_active_profile v; vw_collapsed := vw_collapsed v; vw_search_collapsed := vw_search_collapsed v |}.
Definition with_facets facets v := {| vw_rows := vw_rows v; vw_selected := vw_selected v; vw_filter := vw_filter v; vw_human_only := vw_human_only v; vw_search := vw_search v; vw_tree_order := vw_tree_order v; vw_facets := facets; vw_profiles := vw_profiles v; vw_active_profile := vw_active_profile v; vw_collapsed := vw_collapsed v; vw_search_collapsed := vw_search_collapsed v |}.
Definition with_profiles profiles v := {| vw_rows := vw_rows v; vw_selected := vw_selected v; vw_filter := vw_filter v; vw_human_only := vw_human_only v; vw_search := vw_search v; vw_tree_order := vw_tree_order v; vw_facets := vw_facets v; vw_profiles := profiles; vw_active_profile := vw_active_profile v; vw_collapsed := vw_collapsed v; vw_search_collapsed := vw_search_collapsed v |}.
Definition with_active_profile active v := {| vw_rows := vw_rows v; vw_selected := vw_selected v; vw_filter := vw_filter v; vw_human_only := vw_human_only v; vw_search := vw_search v; vw_tree_order := vw_tree_order v; vw_facets := vw_facets v; vw_profiles := vw_profiles v; vw_active_profile := active; vw_collapsed := vw_collapsed v; vw_search_collapsed := vw_search_collapsed v |}.
Definition with_collapsed collapsed v := {| vw_rows := vw_rows v; vw_selected := vw_selected v; vw_filter := vw_filter v; vw_human_only := vw_human_only v; vw_search := vw_search v; vw_tree_order := vw_tree_order v; vw_facets := vw_facets v; vw_profiles := vw_profiles v; vw_active_profile := vw_active_profile v; vw_collapsed := collapsed; vw_search_collapsed := vw_search_collapsed v |}.
Definition with_search_collapsed folds v := {| vw_rows := vw_rows v; vw_selected := vw_selected v; vw_filter := vw_filter v; vw_human_only := vw_human_only v; vw_search := vw_search v; vw_tree_order := vw_tree_order v; vw_facets := vw_facets v; vw_profiles := vw_profiles v; vw_active_profile := vw_active_profile v; vw_collapsed := vw_collapsed v; vw_search_collapsed := folds |}.

(** ** Collapsed groups *)
Definition active_collapsed (v : View) : option (list (list string * unit)) :=
  if bool_decide (vw_search v = "") then Some (vw_collapsed v)
  else if bool_decide ((vw_search_collapsed v).1 = vw_search v) then Some (vw_search_collapsed v).2
  else None.

(** [f] applied to [active_collapsed_mut()]. *)
Definition change_collapsed (f : list (list string * unit) → list (list string * unit)) (v : View) : View :=
  if bool_decide (vw_search v = "") then with_collapsed (f (vw_collapsed v)) v
  else
    let old := if bool_decide ((vw_search_collapsed v).1 = vw_search v) then (vw_search_collapsed v).2 else [] in
    with_search_collapsed (vw_search v, f old) v.

Definition is_collapsed (v : View) (row : Row) : bool :=
  negb (is_secret row) && is_some_and (bt_contains (rw_display_segments row)) (active_collapsed v).

(** ** Visible rows *)
Record RowChecks := { ck_category : bool; ck_audience : bool; ck_facets : bool; ck_searchable : bool }.
Definition passes (c : RowChecks) : bool := ck_category c && ck_audience c && ck_facets c && ck_searchable c.

Definition category_check (filter : ViewFilter) (row : Row) : bool :=
  match filter with
  | FRequired => rw_external_input_required row || (rw_required_for_install row && negb (rw_is_set row))
  | FAll => true
  | FKeys => match rw_category row with CtKey | CtOperator => true | _ => false end
  | FPasswords => bool_decide (rw_category row = CtPassword)
  | FPublicInfo => bool_decide (rw_category row = CtPublicInfo)
  end.
Definition matches (needle text : string) : bool := contains_str needle (to_ascii_lowercase text).

(** The checks of a value below [ancestors], innermost first. *)
Definition checks_of (v : View) (ancestors : list Row) (row : Row) : RowChecks :=
  let needle := to_ascii_lowercase (vw_search v) in
  {| ck_category := category_check (vw_filter v) row;
     ck_audience := negb (vw_human_only v) || rw_human_facing row;
     ck_facets := forallb (λ item, is_none_or (facet_accepts item.2) (value item.1 row)) (vw_facets v);
     ck_searchable :=
       existsb (matches needle)
         ([rw_name row] ++ option_list (rw_path row) ++ option_list (rw_description row) ++ (rw_name <$> ancestors))
       || existsb (λ attribute, is_some_and (matches needle) (value attribute row)) ALL |}.

Fixpoint pop_ancestors (depth : nat) (ancestors : list (nat * Row)) : list (nat * Row) :=
  match ancestors with
  | (_, parent) :: rest => if (depth <=? rw_depth parent)%nat then pop_ancestors depth rest else ancestors
  | [] => []
  end.

(** The loop of [row_checks] over the rows from position [index] on. *)
Fixpoint row_checks_loop (v : View) (index : nat) (ancestors : list (nat * Row)) (rows : list Row)
  : list (nat * list nat * RowChecks) :=
  match rows with
  | [] => []
  | row :: rows =>
      let ancestors := pop_ancestors (rw_depth row) ancestors in
      if is_secret row
      then (index, ancestors.*1, checks_of v ancestors.*2 row) :: row_checks_loop v (S index) ancestors rows
      else row_checks_loop v (S index) ((index, row) :: ancestors) rows
  end.
Definition row_checks (v : View) : list (nat * list nat * RowChecks) := row_checks_loop v 0 [] (vw_rows v).

(** The positions that [kept] collects, in order. *)
Definition kept (v : View) : list nat :=
  let marked := mjoin ((λ item, if passes item.2 then item.1.1 :: item.1.2 else []) <$> row_checks v) in
  filter (λ index, index ∈ marked) (seq 0 (length (vw_rows v))).

Record VisibleRow := { vr_index : nat; vr_depth : nat; vr_label : string }.

(** [self.rows[index]]; every position comes from the rows. *)
Definition row_at (v : View) (index : nat) : Row := nth index (vw_rows v) (branch 0 "" []).

(** How many rows lie directly below [row], where [after] are the kept rows
    that follow it. *)
Fixpoint run_below (v : View) (depth : nat) (after : list nat) : list nat :=
  match after with
  | [] => []
  | candidate :: after =>
      if (depth <? rw_depth (row_at v candidate))%nat then candidate :: run_below v depth after else []
  end.
Definition direct_children (v : View) (row : Row) (after : list nat) : nat :=
  length (filter (λ candidate, rw_depth (row_at v candidate) = S (rw_depth row)) (run_below v (rw_depth row) after)).

(** The loop over the rows above a row, nearest first; [after] are the rows
    that follow the parent. *)
Fixpoint merge_labels (v : View) (above after : list nat) (labels : list string) (depth : nat) : list string * nat :=
  match above with
  | [] => (labels, depth)
  | parent :: above =>
      let parent_row := row_at v parent in
      if (depth <=? rw_depth parent_row)%nat then merge_labels v above (parent :: after) labels depth
      else if negb (direct_children v parent_row after =? 1)%nat || (rw_depth parent_row <? 2)%nat
      then (labels, depth)
      else merge_labels v above (parent :: after) (rw_name parent_row :: labels) (rw_depth parent_row)
  end.

(** The loop over the kept rows; [above] are those before, nearest first. *)
Fixpoint shown_loop (v : View) (above rest : list nat) : list VisibleRow :=
  match rest with
  | [] => []
  | index :: rest =>
      let row := row_at v index in
      (if negb (is_secret row) && (2 <=? rw_depth row)%nat && (direct_children v row rest =? 1)%nat then []
       else
         let '(labels, depth) := merge_labels v above (index :: rest) [rw_name row] (rw_depth row) in
         [{| vr_index := index; vr_depth := depth; vr_label := Text.join "/" labels |}])
      ++ shown_loop v (index :: above) rest
  end.

(** [starts_with] of slices. *)
Definition segments_below (group segments : list string) : bool :=
  (length group <? length segments)%nat && bool_decide (take (length group) segments = group).

Fixpoint hide_loop (v : View) (hidden_below : option (list string)) (rows : list VisibleRow) : list VisibleRow :=
  match rows with
  | [] => []
  | visible :: rows =>
      let row := row_at v (vr_index visible) in
      if is_some_and (λ group, segments_below group (rw_display_segments row)) hidden_below
      then hide_loop v hidden_below rows
      else visible :: hide_loop v (if is_collapsed v row then Some (rw_display_segments row) else None) rows
  end.
Definition hide_collapsed (v : View) (rows : list VisibleRow) : list VisibleRow :=
  if is_none_or (λ set, bool_decide (set = [])) (active_collapsed v) then rows else hide_loop v None rows.

Definition visible_tree_rows (v : View) : list VisibleRow := hide_collapsed v (shown_loop v [] (kept v)).
Definition visible_rows (v : View) : list nat := vr_index <$> visible_tree_rows v.

(** ** Search *)
Record SearchSummary := {
  su_matches : Z;
  su_hidden : Z;
  su_hidden_by_type : Z;
  su_hidden_by_audience : Z;
  su_hidden_by_facets : Z
}.
Definition b2z (b : bool) : Z := if b then 1 else 0.

Definition count_match (s : SearchSummary) (c : RowChecks) : SearchSummary :=
  if negb (ck_searchable c) then s
  else if ck_category c && ck_audience c && ck_facets c
  then {| su_matches := su_matches s + 1; su_hidden := su_hidden s; su_hidden_by_type := su_hidden_by_type s;
          su_hidden_by_audience := su_hidden_by_audience s; su_hidden_by_facets := su_hidden_by_facets s |}
  else {| su_matches := su_matches s + 1; su_hidden := su_hidden s + 1;
          su_hidden_by_type := su_hidden_by_type s + b2z (negb (ck_category c));
          su_hidden_by_audience := su_hidden_by_audience s + b2z (negb (ck_audience c));
          su_hidden_by_facets := su_hidden_by_facets s + b2z (negb (ck_facets c)) |}.
Definition search_summary (v : View) : option SearchSummary :=
  if bool_decide (vw_search v = "") then None
  else Some (foldl (λ s item, count_match s item.2)
               {| su_matches := 0; su_hidden := 0; su_hidden_by_type := 0; su_hidden_by_audience := 0;
                  su_hidden_by_facets := 0 |} (row_checks v)).

Definition summary_text (s : SearchSummary) : string :=
  let reasons :=
    (λ item : Z * string, dec item.1 +:+ " " +:+ item.2)
    <$> filter (λ item, 0 < item.1)
          [(su_hidden_by_type s, "type"); (su_hidden_by_audience s, "audience");
           (su_hidden_by_facets s, "attribute filters")] in
  dec (su_matches s) +:+ " " +:+ (if su_matches s =? 1 then "match" else "matches")
  +:+ (if 0 <? su_hidden s
       then " · " +:+ dec (su_hidden s) +:+ " hidden by filters (" +:+ Text.join ", " reasons +:+ ")"
       else "").

(** ** The selection *)
Definition selected (v : View) : option Row :=
  index ← visible_rows v !! vw_selected v; vw_rows v !! index.

Record SelectionIdentity := { sl_path : option string; sl_segments : list string }.
Definition selection_identity (v : View) : option SelectionIdentity :=
  (λ row, {| sl_path := rw_path row; sl_segments := rw_display_segments row |}) <$> selected v.
Definition is_value (identity : SelectionIdentity) : bool := is_some (sl_path identity).

(** [Iterator::position]. *)
Fixpoint find_position {A} (p : A → bool) (l : list A) : option nat :=
  match l with
  | [] => None
  | x :: l => if p x then Some 0%nat else S <$> find_position p l
  end.

(** [max_by_key] returns the last of several maxima. *)
Definition max_by_key {A} (key : A → nat) (l : list A) : option A :=
  foldl (λ best x, match best with
                   | Some b => if (key x <? key b)%nat then Some b else Some x
                   | None => Some x
                   end) None l.

Definition visible_position_or_group (v : View) (anchor : nat) : option nat :=
  let visible := visible_rows v in
  match find_position (Nat.eqb anchor) visible with
  | Some position => Some position
  | None =>
      row ← vw_rows v !! anchor;
      let segments := rw_display_segments row in
      fst <$> max_by_key (λ item : nat * nat, length (rw_display_segments (row_at v item.2)))
        (filter (λ item : nat * nat,
           let row := row_at v item.2 in
           negb (is_secret row) && segments_below (rw_display_segments row) segments = true)
           (imap (λ position index, (position, index)) visible))
  end.

Definition restores (identity : SelectionIdentity) (row : Row) : bool :=
  match sl_path identity with
  | Some path => bool_decide (rw_path row = Some path)
  | None => negb (is_secret row) && bool_decide (rw_display_segments row = sl_segments identity)
  end.

(** [restore_selection], [None] when the selected row is gone. *)
Definition restore_selection (identity : option SelectionIdentity) (v : View) : option View :=
  position ← (identity ← identity; anchor ← find_position (restores identity) (vw_rows v);
              visible_position_or_group v anchor);
  Some (with_selected position v).

Definition selected_row_index (v : View) : option nat := visible_rows v !! vw_selected v.
Definition reselect (anchor : option nat) (v : View) : View :=
  with_selected (default 0%nat (anchor ← anchor; visible_position_or_group v anchor)) v.

Definition toggle_key (key : list string) (set : list (list string * unit)) : list (list string * unit) :=
  if bt_contains key set then bt_remove key set else bs_insert key set.
(** The boolean says whether a group was selected. *)
Definition toggle_selected_group (v : View) : bool * View :=
  match selected v with
  | Some row =>
      if is_secret row then (false, v) else (true, change_collapsed (toggle_key (rw_display_segments row)) v)
  | None => (false, v)
  end.
Definition collapse_all (v : View) : View :=
  let groups := rw_display_segments <$> filter (λ row, is_secret row = false) (vw_rows v) in
  reselect (selected_row_index v) (change_collapsed (λ set, foldl (λ set key, bs_insert key set) set groups) v).
Definition expand_all (v : View) : View :=
  reselect (selected_row_index v) (change_collapsed (λ _, []) v).

Definition rebuild_tree (v : View) : View :=
  let rebuilt :=
    with_rows (reordered_rows (filter (λ row, is_secret row = true) (vw_rows v)) (vw_tree_order v)) v in
  default (with_selected 0%nat rebuilt) (restore_selection (selection_identity v) rebuilt).

Definition update_rows (rows : list Row) (v : View) : View :=
  let identity := selection_identity v in
  let rebuilt := rebuild_tree (with_rows rows v) in
  match restore_selection identity rebuilt with
  | Some restored => restored
  | None =>
      with_selected
        (if is_some_and is_value identity then 0%nat
         else Nat.min (vw_selected rebuilt) (length (visible_rows rebuilt) - 1)) rebuilt
  end.

Definition view_new (rows : list Row) : View :=
  let v := {| vw_rows := rows; vw_selected := 0%nat; vw_filter := FRequired; vw_human_only := false; vw_search := "";
              vw_tree_order := DEFAULT_TREE; vw_facets := []; vw_profiles := no_profiles; vw_active_profile := None;
              vw_collapsed := []; vw_search_collapsed := ("", []) |} in
  if existsb (λ row, is_some (rw_identity row)) rows then rebuild_tree v else v.

Definition next_filter (filter : ViewFilter) : ViewFilter :=
  match filter with
  | FRequired => FAll | FAll => FKeys | FKeys => FPasswords | FPasswords => FPublicInfo | FPublicInfo => FRequired
  end.
Definition cycle_filter (v : View) : View := with_selected 0%nat (with_filter (next_filter (vw_filter v)) v).
Definition set_filter (filter : ViewFilter) (v : View) : View := with_selected 0%nat (with_filter filter v).
Definition set_human_only (enabled : bool) (v : View) : View := with_selected 0%nat (with_human_only enabled v).
Definition toggle_human (v : View) : View := set_human_only (negb (vw_human_only v)) v.
Definition set_search (search : string) (v : View) : View := with_selected 0%nat (with_search search v).

Definition move_by (amount : Z) (v : View) : View :=
  let count := length (visible_rows v) in
  if (count =? 0)%nat then v
  else with_selected (Nat.min (Z.to_nat (Z.min usize_max (Z.of_nat (vw_selected v) + amount))) (count - 1)) v.

Definition facet_values (attribute : Attribute) (v : View) : list (string * unit) :=
  bs_of_list (omap (value attribute) (filter (λ row, is_secret row = true) (vw_rows v))).
Definition facet (attribute : Attribute) (v : View) : Facet := default facet_default (bt_get attribute (vw_facets v)).
Definition set_facet (attribute : Attribute) (facet : Facet) (v : View) : View :=
  with_selected 0%nat (with_facets (bt_insert attribute facet (vw_facets v)) v).
Definition tree_editor_attributes (v : View) : list Attribute :=
  vw_tree_order v ++ filter (λ attribute, attribute ∉ vw_tree_order v) GROUPING.

(** [Model::is_set] and the row updates of [mark_saved], [mark_deleted]. *)
Definition is_set (path : string) (v : View) : bool :=
  existsb (λ row, bool_decide (rw_path row = Some path) && rw_is_set row) (vw_rows v).
Definition mark (is_set : bool) (row : Row) : Row :=
  {| rw_depth := rw_depth row; rw_name := rw_name row; rw_display_segments := rw_display_segments row;
     rw_path := rw_path row; rw_is_set := is_set; rw_is_task := rw_is_task row;
     rw_can_generate := rw_can_generate row; rw_can_copy_public := rw_can_copy_public row;
     rw_output_is_set := rw_output_is_set row; rw_description := rw_description row;
     rw_category := rw_category row; rw_human_facing := rw_human_facing row;
     rw_external_input_required := rw_external_input_required row;
     rw_required_for_install := rw_required_for_install row; rw_identity := rw_identity row;
     rw_presentation := rw_presentation row |}.
Definition mark_output (output : option bool) (row : Row) : Row :=
  {| rw_depth := rw_depth row; rw_name := rw_name row; rw_display_segments := rw_display_segments row;
     rw_path := rw_path row; rw_is_set := rw_is_set row; rw_is_task := rw_is_task row;
     rw_can_generate := rw_can_generate row; rw_can_copy_public := rw_can_copy_public row;
     rw_output_is_set := output; rw_description := rw_description row;
     rw_category := rw_category row; rw_human_facing := rw_human_facing row;
     rw_external_input_required := rw_external_input_required row;
     rw_required_for_install := rw_required_for_install row; rw_identity := rw_identity row;
     rw_presentation := rw_presentation row |}.

(** [iter_mut().find(p)] with [f] applied to what it finds. *)
Fixpoint update_first {A} (p : A → bool) (f : A → A) (l : list A) : list A :=
  match l with
  | [] => []
  | x :: l => if p x then f x :: l else x :: update_first p f l
  end.
Definition set_row (path : string) (set : bool) (v : View) : View :=
  with_rows (update_first (λ row, bool_decide (rw_path row = Some path)) (mark set) (vw_rows v)) v.

Definition selected_display_path (v : View) : option string :=
  let visible := visible_tree_rows v in
  current ← visible !! vw_selected v;
  let row := row_at v (vr_index current) in
  match rw_identity row with
  | Some i =>
      Some (Text.join " > "
        ([si_host i; si_scope i] ++ option_list (si_user i) ++ [si_service i; si_responsibility i]
         ++ option_list (si_namespace i) ++ [si_name i]))
  | None =>
      if bool_decide (rw_display_segments row = []) then Some (vr_label current)
      else
        let above :=
          filter (λ candidate,
            let other := row_at v (vr_index candidate) in
            negb (is_secret other) && segments_below (rw_display_segments other) (rw_display_segments row) = true)
            (take (vw_selected v) visible) in
        Some (Text.join " > " ((vr_label <$> above) ++ [vr_label current]))
  end.

(** ** Hosts *)
Fixpoint insert_string (s : string) (l : list string) : list string :=
  match l with
  | [] => [s]
  | x :: l' => match kcmp s x with Gt => x :: insert_string s l' | _ => s :: l end
  end.
Definition deploy_hosts (v : View) : list string :=
  foldr insert_string []
    (foldl (λ hosts host, if bool_decide (host ∈ hosts) then hosts else hosts ++ [host]) []
       (omap (value AHost) (filter (λ row, is_secret row = true) (vw_rows v)))).

Definition starts_with_segments (segments prefix : list string) : bool :=
  bool_decide (take (length prefix) segments = prefix).
Definition selected_host (v : View) : option string :=
  row ← selected v;
  if is_secret row then value AHost row
  else
    match bs_of_list (omap (value AHost)
            (filter (λ candidate,
               is_secret candidate
               && starts_with_segments (rw_display_segments candidate) (rw_display_segments row) = true)
               (vw_rows v))) with
    | [(host, _)] => Some host
    | _ => None
    end.

(** ** Profiles of the view *)
Definition profile_facet_mode (mode : FacetMode) : ProfileFacetMode :=
  match mode with FmAll => FacetAll | FmWhitelist => FacetWhitelist | FmBlacklist => FacetBlacklist end.
Definition facet_mode (mode : ProfileFacetMode) : FacetMode :=
  match mode with FacetAll => FmAll | FacetWhitelist => FmWhitelist | FacetBlacklist => FmBlacklist end.
Definition profile_view_filter (filter : ViewFilter) : ProfileViewFilter :=
  match filter with
  | FRequired => VfRequired | FAll => VfAll | FKeys => VfKeys | FPasswords => VfPasswords
  | FPublicInfo => VfPublicInfo
  end.
Definition view_filter (filter : ProfileViewFilter) : ViewFilter :=
  match filter with
  | VfRequired => FRequired | VfAll => FAll | VfKeys => FKeys | VfPasswords => FPasswords
  | VfPublicInfo => FPublicInfo
  end.

#[export] Instance ProfileFacet_eq_dec : EqDecision ProfileFacet.
Proof. solve_decision. Defined.
#[export] Instance ProfileViewFilter_eq_dec : EqDecision ProfileViewFilter.
Proof. solve_decision. Defined.
#[export] Instance ViewProfile_eq_dec : EqDecision ViewProfile.
Proof. solve_decision. Defined.

(** [collect] into a map: later entries win. *)
Definition bt_collect `{OrdKey K} {V} (entries : list (K * V)) : list (K * V) :=
  foldl (λ m entry, bt_insert entry.1 entry.2 m) [] entries.

Definition capture_facet (item : Attribute * Facet) : option (string * ProfileFacet) :=
  if decide (fc_mode item.2 = FmAll) then None
  else Some (attribute_key item.1,
             {| pf_mode := profile_facet_mode (fc_mode item.2); pf_selected := fc_selected item.2 |}).
Definition capture_profile (v : View) : ViewProfile :=
  {| vp_tree_order := attribute_key <$> vw_tree_order v;
     vp_facets := bt_collect (omap capture_facet (vw_facets v));
     vp_view_filter := profile_view_filter (vw_filter v);
     vp_human_only := vw_human_only v |}.

Definition known_attribute (unknown : string) (key : string) : result string Attribute :=
  ok_or unknown (from_key key).

(** The attributes of a stored order; those that no longer group are left out. *)
Definition load_order (order : list string) : result string (list Attribute) :=
  attributes ← try_map (λ key, known_attribute ("unknown tree attribute: " +:+ key) key) order;
  Ok (filter (λ attribute, groups attribute = true) attributes).
Definition load_facet (item : string * ProfileFacet) : result string (option (Attribute * Facet)) :=
  attribute ← known_attribute "unknown facet attribute" item.1;
  Ok (if groups attribute
      then Some (attribute, {| fc_mode := facet_mode (pf_mode item.2); fc_selected := pf_selected item.2 |})
      else None).
Definition load_facets (facets : list (string * ProfileFacet)) : result string (list (Attribute * Facet)) :=
  loaded ← try_map load_facet facets; Ok (bt_collect (omap id loaded)).

Definition load_profile (name : string) : stE View string unit :=
  v ← st_get;
  profile ← st_lift (ok_or "profile no longer exists" (bt_get name (sn_profiles (vw_profiles v))));
  _ ← st_lift (map_err io_text (profile_validate profile));
  order ← st_lift (load_order (vp_tree_order profile));
  _ ← st_modify (with_tree_order order);
  facets ← st_lift (load_facets (vp_facets profile));
  _ ← st_modify (with_facets facets);
  _ ← st_modify (with_filter (view_filter (vp_view_filter profile)));
  _ ← st_modify (with_human_only (vp_human_only profile));
  _ ← st_modify (with_search "");
  _ ← st_modify (with_active_profile (Some name));
  st_modify rebuild_tree.

Definition keeps_grouping (key : string) : bool := is_some_and groups (from_key key).
Definition normalized (profile : ViewProfile) : ViewProfile :=
  {| vp_tree_order := filter (λ key, keeps_grouping key = true) (vp_tree_order profile);
     vp_facets :=
       filter (λ item, keeps_grouping item.1 && negb (bool_decide (pf_mode item.2 = FacetAll)) = true)
         (vp_facets profile);
     vp_view_filter := vp_view_filter profile;
     vp_human_only := vp_human_only profile |}.
Definition profile_dirty (v : View) : bool :=
  is_some_and (λ name,
    negb (bool_decide (normalized <$> bt_get name (sn_profiles (vw_profiles v)) = Some (capture_profile v))))
    (vw_active_profile v).
