(* ===== verification/Tui.v ===== *)
(** * The state of the TUI: dialogs and procedures

    [crates/manager/src/model.rs], [model/procedures.rs] and
    [model/dialogs.rs], with the types of [ui/types.rs] and the prompt of
    [operator_channel.rs]: what is on screen, what waits for the operator and
    how requests, steps and outcomes of procedures change it.  Instants are
    nanoseconds; a method that reads the clock takes the time as [now] and reads
    it once. *)
From S2P Require Import Prelude BTree Text Paths Schema Procedure Requests Store Git FileSystem Profiles Rows.
#[local] Open Scope Z_scope.

(** ** Prompts and approvals *)
Record RequestedValue := {
  rv_identifier : string;
  rv_kind : string;
  rv_description : option string;
  rv_recipients : list string
}.

Record SecretPrompt := {
  sp_id : string;
  sp_values : list RequestedValue;
  sp_identity : string;
  sp_requester : ProcessInfo;
  sp_parent : option ProcessInfo;
  sp_reason : option string;
  sp_ssh_signature : bool;
  sp_ssh_login : bool;
  sp_artifact_signature : bool;
  sp_closure_signature : bool;
  sp_deadline : option Z;
  sp_procedure : option ProcedureStep;
  sp_confirmation : option Confirmation
}.
Definition DECISION_TIMEOUT : Z := secs 120.

Record HostMutationReview := {
  hr_identifier : string;
  hr_kind : string;
  hr_previous : list string;
  hr_proposed : list string
}.
Record TaskApproval := {
  ta_identifier : string;
  ta_input_is_set : bool;
  ta_output_is_set : option bool;
  ta_requires_input : bool
}.

Record ApprovalRequest := {
  ar_id : string;
  ar_target : string;
  ar_quarantined : list string;
  ar_host_mutations : list HostMutationReview;
  ar_host_mutations_before_deploy : bool;
  ar_connection_warnings : list string;
  ar_host_mutation_token : option string;
  ar_create : list string;
  ar_replace : list string;
  ar_recipient_keys : list string;
  ar_host_key : option string;
  ar_host_key_known : bool;
  ar_tasks : list TaskApproval;
  ar_generate : list (string * string);
  ar_missing : list (string * string);
  ar_derived : list (string * string);
  ar_skippable : list string;
  ar_missing_kinds : list (string * string);
  ar_host_default : list string;
  ar_allow_partial : bool;
  ar_login_key : option string;
  ar_unchecked : list (string * unit);
  ar_cursor : nat;
  ar_procedure : option ProcedureStep
}.

Definition approval_stage (r : ApprovalRequest) : Z :=
  if negb (bool_decide (ar_host_mutations r = [])) then (if ar_host_mutations_before_deploy r then 1 else 3)
  else if is_some (ar_host_key r) then 0
  else 2.

Definition partial_possible (r : ApprovalRequest) : bool :=
  negb (bool_decide (ar_missing r = []))
  && forallb (λ item, bool_decide (item.1 ∈ ar_skippable r)) (ar_missing r).

(** ** The rows of the deployment dialog *)
Inductive RowSection := RsSent | RsGenerated.
#[export] Instance RowSection_eq_dec : EqDecision RowSection.
Proof. solve_decision. Defined.
Record DeployRow := { dr_section : RowSection; dr_identifier : string; dr_what : string }.

Definition task_what (task : TaskApproval) : string :=
  let output := match ta_output_is_set task with
                | Some true => "installed" | Some false => "not installed" | None => "unknown"
                end in
  if ta_requires_input task then "target task; its key " +:+ output
  else "generated on the target; its key " +:+ output.

Definition among (l : list (string * string)) (identifier : string) : bool := bool_decide (identifier ∈ l.*1).
Definition sent_row (identifier what : string) : DeployRow :=
  {| dr_section := RsSent; dr_identifier := identifier; dr_what := what |}.

Definition deploy_rows (r : ApprovalRequest) : list DeployRow :=
  if negb (bool_decide (ar_host_mutations r = [])) then []
  else
    let missing := among (ar_missing r) in
    omap (λ item : string * string,
      if missing item.1 || among (ar_generate r) item.1 || among (ar_derived r) item.1 then None
      else Some (sent_row item.1 item.2))
      (((λ id, (id, "set")) <$> ar_create r) ++ ((λ id, (id, "replaced")) <$> ar_replace r))
    ++ omap (λ item : string * string,
         if missing item.1 then None else Some (sent_row item.1 ("derived from " +:+ item.2))) (ar_derived r)
    ++ omap (λ task,
         if missing (ta_identifier task) then None else Some (sent_row (ta_identifier task) (task_what task)))
         (ar_tasks r)
    ++ ((λ item, {| dr_section := RsGenerated; dr_identifier := item.1; dr_what := item.2 |}) <$> ar_generate r).

Definition checked (r : ApprovalRequest) : list DeployRow :=
  filter (λ row, bt_contains (dr_identifier row) (ar_unchecked r) = false) (deploy_rows r).
(** [ApprovalRequest::deployable]. *)
Definition request_deployable (r : ApprovalRequest) : bool := negb (bool_decide (length (checked r) = 0%nat)).

Definition with_unchecked (unchecked : list (string * unit)) (r : ApprovalRequest) : ApprovalRequest :=
  {| ar_id := ar_id r; ar_target := ar_target r; ar_quarantined := ar_quarantined r;
     ar_host_mutations := ar_host_mutations r;
     ar_host_mutations_before_deploy := ar_host_mutations_before_deploy r;
     ar_connection_warnings := ar_connection_warnings r; ar_host_mutation_token := ar_host_mutation_token r;
     ar_create := ar_create r; ar_replace := ar_replace r; ar_recipient_keys := ar_recipient_keys r;
     ar_host_key := ar_host_key r; ar_host_key_known := ar_host_key_known r; ar_tasks := ar_tasks r;
     ar_generate := ar_generate r; ar_missing := ar_missing r; ar_derived := ar_derived r;
     ar_skippable := ar_skippable r; ar_missing_kinds := ar_missing_kinds r;
     ar_host_default := ar_host_default r; ar_allow_partial := ar_allow_partial r;
     ar_login_key := ar_login_key r; ar_unchecked := unchecked; ar_cursor := ar_cursor r;
     ar_procedure := ar_procedure r |}.
Definition with_cursor (cursor : nat) (r : ApprovalRequest) : ApprovalRequest :=
  {| ar_id := ar_id r; ar_target := ar_target r; ar_quarantined := ar_quarantined r;
     ar_host_mutations := ar_host_mutations r;
     ar_host_mutations_before_deploy := ar_host_mutations_before_deploy r;
     ar_connection_warnings := ar_connection_warnings r; ar_host_mutation_token := ar_host_mutation_token r;
     ar_create := ar_create r; ar_replace := ar_replace r; ar_recipient_keys := ar_recipient_keys r;
     ar_host_key := ar_host_key r; ar_host_key_known := ar_host_key_known r; ar_tasks := ar_tasks r;
     ar_generate := ar_generate r; ar_missing := ar_missing r; ar_derived := ar_derived r;
     ar_skippable := ar_skippable r; ar_missing_kinds := ar_missing_kinds r;
     ar_host_default := ar_host_default r; ar_allow_partial := ar_allow_partial r;
     ar_login_key := ar_login_key r; ar_unchecked := ar_unchecked r; ar_cursor := cursor;
     ar_procedure := ar_procedure r |}.

(** [ApprovalRequest::toggle] and [toggle_section]. *)
Definition toggle_row (identifier : string) (r : ApprovalRequest) : ApprovalRequest :=
  with_unchecked (set_toggle identifier (ar_unchecked r)) r.
Definition toggle_section (section : RowSection) (r : ApprovalRequest) : ApprovalRequest :=
  let rows := dr_identifier <$> filter (λ row, dr_section row = section) (deploy_rows r) in
  with_unchecked
    (if forallb (λ row, negb (bt_contains row (ar_unchecked r))) rows
     then foldl (λ set row, bs_insert row set) (ar_unchecked r) rows
     else foldl (λ set row, bt_remove row set) (ar_unchecked r) rows) r.

(** ** Procedures *)
Definition FLASH_PERIOD : Z := millis 500.
Definition SPINNER_PERIOD : Z := millis 120.
Definition DEADLINE_SLACK : Z := secs 2.

Inductive StepKind :=
| SkValues | SkSshLogin | SkSshLoginApproval | SkArtifacts | SkClosure | SkDeployment | SkReported
| SkConfirmation.
#[export] Instance StepKind_eq_dec : EqDecision StepKind.
Proof. solve_decision. Defined.

(** [StepKind::of]. *)
Definition kind_of (prompt : SecretPrompt) : StepKind :=
  if is_some (sp_confirmation prompt) then SkConfirmation
  else if sp_closure_signature prompt then SkClosure
  else if sp_artifact_signature prompt then SkArtifacts
  else if sp_ssh_login prompt then SkSshLoginApproval
  else if sp_ssh_signature prompt then SkSshLogin
  else SkValues.

(** [StepKind::done]. *)
Definition kind_done (kind : StepKind) : string :=
  match kind with
  | SkValues => "secret values sent"
  | SkSshLogin => "SSH login signed"
  | SkSshLoginApproval => "SSH logins approved"
  | SkArtifacts => "artifacts signed"
  | SkClosure => "closure signed"
  | SkDeployment => "secrets deployed"
  | SkReported => "reported"
  | SkConfirmation => "confirmed"
  end.

Record InFlight := {
  if_request : string;
  if_step : ProcedureStep;
  if_kind : StepKind;
  if_denied : bool;
  if_deadline : option Z
}.

Inductive StepOutcome := SoDone | SoFailed | SoDenied | SoTimedOut | SoWarning.
#[export] Instance StepOutcome_eq_dec : EqDecision StepOutcome.
Proof. solve_decision. Defined.
Definition outcome_verb (outcome : StepOutcome) : string :=
  match outcome with
  | SoDone => "done" | SoFailed => "failed" | SoDenied => "denied" | SoTimedOut => "timed out"
  | SoWarning => "warned"
  end.

Record FinishedStep := {
  fs_request : string;
  fs_step : ProcedureStep;
  fs_kind : StepKind;
  fs_text : string;
  fs_outcome : StepOutcome
}.
Definition outcome_succeeded (outcome : StepOutcome) : bool :=
  match outcome with SoDone | SoWarning => true | _ => false end.
(** [FinishedStep::succeeded] and its other methods. *)
Definition step_succeeded (step : FinishedStep) : bool := outcome_succeeded (fs_outcome step).
Definition step_reported_failed (step : FinishedStep) : bool :=
  bool_decide (fs_kind step = SkReported) && bool_decide (fs_outcome step = SoFailed).
Definition step_line (step : FinishedStep) : string :=
  let at_step := position (fs_step step) in
  let label := ps_label (fs_step step) in
  if decide (fs_kind step = SkConfirmation)
  then (if step_succeeded step then "⚠" else "✗") +:+ " " +:+ label +:+ ": " +:+ fs_text step
  else if decide (fs_outcome step = SoWarning) then "⚠ " +:+ at_step +:+ ": " +:+ label +:+ ": " +:+ fs_text step
  else if step_succeeded step then "✓ " +:+ at_step +:+ ": " +:+ fs_text step
  else "✗ " +:+ at_step +:+ ": " +:+ label +:+ ": " +:+ fs_text step.
Definition step_missed (step : FinishedStep) : option string :=
  if step_succeeded step then None
  else Some (if decide (fs_kind step = SkConfirmation)
             then outcome_verb (fs_outcome step) +:+ ": " +:+ ps_label (fs_step step)
             else outcome_verb (fs_outcome step) +:+ " at " +:+ position (fs_step step) +:+ ": "
                  +:+ ps_label (fs_step step)).

Inductive Between :=
| BtWorking (since : Z)
| BtWaiting (since : Z)
| BtResult (succeeded : bool) (text : string).

Record Procedure := {
  pd_id : string;
  pd_title : string;
  pd_step : option ProcedureStep;
  pd_prompts : list SecretPrompt;
  pd_minimised : bool;
  pd_flashing : bool;
  pd_implicit : bool;
  pd_ended : bool;
  pd_awaiting_deployment : bool;
  pd_in_flight : list InFlight;
  pd_finished : list FinishedStep;
  pd_between : option Between;
  pd_exit_code : option Z;
  pd_reported_failure : option string
}.

Definition p_id (x : string) (m : Procedure) : Procedure := {| pd_id := x; pd_title := pd_title m; pd_step := pd_step m; pd_prompts := pd_prompts m; pd_minimised := pd_minimised m; pd_flashing := pd_flashing m; pd_implicit := pd_implicit m; pd_ended := pd_ended m; pd_awaiting_deployment := pd_awaiting_deployment m; pd_in_flight := pd_in_flight m; pd_finished := pd_finished m; pd_between := pd_between m; pd_exit_code := pd_exit_code m; pd_reported_failure := pd_reported_failure m |}.
Definition p_title (x : string) (m : Procedure) : Procedure := {| pd_id := pd_id m; pd_title := x; pd_step := pd_step m; pd_prompts := pd_prompts m; pd_minimised := pd_minimised m; pd_flashing := pd_flashing m; pd_implicit := pd_implicit m; pd_ended := pd_ended m; pd_awaiting_deployment := pd_awaiting_deployment m; pd_in_flight := pd_in_flight m; pd_finished := pd_finished m; pd_between := pd_between m; pd_exit_code := pd_exit_code m; pd_reported_failure := pd_reported_failure m |}.
Definition p_step (x : option ProcedureStep) (m : Procedure) : Procedure := {| pd_id := pd_id m; pd_title := pd_title m; pd_step := x; pd_prompts := pd_prompts m; pd_minimised := pd_minimised m; pd_flashing := pd_flashing m; pd_implicit := pd_implicit m; pd_ended := pd_ended m; pd_awaiting_deployment := pd_awaiting_deployment m; pd_in_flight := pd_in_flight m; pd_finished := pd_finished m; pd_between := pd_between m; pd_exit_code := pd_exit_code m; pd_reported_failure := pd_reported_failure m |}.
Definition p_prompts (x : list SecretPrompt) (m : Procedure) : Procedure := {| pd_id := pd_id m; pd_title := pd_title m; pd_step := pd_step m; pd_prompts := x; pd_minimised := pd_minimised m; pd_flashing := pd_flashing m; pd_implicit := pd_implicit m; pd_ended := pd_ended m; pd_awaiting_deployment := pd_awaiting_deployment m; pd_in_flight := pd_in_flight m; pd_finished := pd_finished m; pd_between := pd_between m; pd_exit_code := pd_exit_code m; pd_reported_failure := pd_reported_failure m |}.
Definition p_minimised (x : bool) (m : Procedure) : Procedure := {| pd_id := pd_id m; pd_title := pd_title m; pd_step := pd_step m; pd_prompts := pd_prompts m; pd_minimised := x; pd_flashing := pd_flashing m; pd_implicit := pd_implicit m; pd_ended := pd_ended m; pd_awaiting_deployment := pd_awaiting_deployment m; pd_in_flight := pd_in_flight m; pd_finished := pd_finished m; pd_between := pd_between m; pd_exit_code := pd_exit_code m; pd_reported_failure := pd_reported_failure m |}.
Definition p_flashing (x : bool) (m : Procedure) : Procedure := {| pd_id := pd_id m; pd_title := pd_title m; pd_step := pd_step m; pd_prompts := pd_prompts m; pd_minimised := pd_minimised m; pd_flashing := x; pd_implicit := pd_implicit m; pd_ended := pd_ended m; pd_awaiting_deployment := pd_awaiting_deployment m; pd_in_flight := pd_in_flight m; pd_finished := pd_finished m; pd_between := pd_between m; pd_exit_code := pd_exit_code m; pd_reported_failure := pd_reported_failure m |}.
Definition p_implicit (x : bool) (m : Procedure) : Procedure := {| pd_id := pd_id m; pd_title := pd_title m; pd_step := pd_step m; pd_prompts := pd_prompts m; pd_minimised := pd_minimised m; pd_flashing := pd_flashing m; pd_implicit := x; pd_ended := pd_ended m; pd_awaiting_deployment := pd_awaiting_deployment m; pd_in_flight := pd_in_flight m; pd_finished := pd_finished m; pd_between := pd_between m; pd_exit_code := pd_exit_code m; pd_reported_failure := pd_reported_failure m |}.
Definition p_ended (x : bool) (m : Procedure) : Procedure := {| pd_id := pd_id m; pd_title := pd_title m; pd_step := pd_step m; pd_prompts := pd_prompts m; pd_minimised := pd_minimised m; pd_flashing := pd_flashing m; pd_implicit := pd_implicit m; pd_ended := x; pd_awaiting_deployment := pd_awaiting_deployment m; pd_in_flight := pd_in_flight m; pd_finished := pd_finished m; pd_between := pd_between m; pd_exit_code := pd_exit_code m; pd_reported_failure := pd_reported_failure m |}.
Definition p_awaiting_deployment (x : bool) (m : Procedure) : Procedure := {| pd_id := pd_id m; pd_title := pd_title m; pd_step := pd_step m; pd_prompts := pd_prompts m; pd_minimised := pd_minimised m; pd_flashing := pd_flashing m; pd_implicit := pd_implicit m; pd_ended := pd_ended m; pd_awaiting_deployment := x; pd_in_flight := pd_in_flight m; pd_finished := pd_finished m; pd_between := pd_between m; pd_exit_code := pd_exit_code m; pd_reported_failure := pd_reported_failure m |}.
Definition p_in_flight (x : list InFlight) (m : Procedure) : Procedure := {| pd_id := pd_id m; pd_title := pd_title m; pd_step := pd_step m; pd_prompts := pd_prompts m; pd_minimised := pd_minimised m; pd_flashing := pd_flashing m; pd_implicit := pd_implicit m; pd_ended := pd_ended m; pd_awaiting_deployment := pd_awaiting_deployment m; pd_in_flight := x; pd_finished := pd_finished m; pd_between := pd_between m; pd_exit_code := pd_exit_code m; pd_reported_failure := pd_reported_failure m |}.
Definition p_finished (x : list FinishedStep) (m : Procedure) : Procedure := {| pd_id := pd_id m; pd_title := pd_title m; pd_step := pd_step m; pd_prompts := pd_prompts m; pd_minimised := pd_minimised m; pd_flashing := pd_flashing m; pd_implicit := pd_implicit m; pd_ended := pd_ended m; pd_awaiting_deployment := pd_awaiting_deployment m; pd_in_flight := pd_in_flight m; pd_finished := x; pd_between := pd_between m; pd_exit_code := pd_exit_code m; pd_reported_failure := pd_reported_failure m |}.
Definition p_between (x : option Between) (m : Procedure) : Procedure := {| pd_id := pd_id m; pd_title := pd_title m; pd_step := pd_step m; pd_prompts := pd_prompts m; pd_minimised := pd_minimised m; pd_flashing := pd_flashing m; pd_implicit := pd_implicit m; pd_ended := pd_ended m; pd_awaiting_deployment := pd_awaiting_deployment m; pd_in_flight := pd_in_flight m; pd_finished := pd_finished m; pd_between := x; pd_exit_code := pd_exit_code m; pd_reported_failure := pd_reported_failure m |}.
Definition p_exit_code (x : option Z) (m : Procedure) : Procedure := {| pd_id := pd_id m; pd_title := pd_title m; pd_step := pd_step m; pd_prompts := pd_prompts m; pd_minimised := pd_minimised m; pd_flashing := pd_flashing m; pd_implicit := pd_implicit m; pd_ended := pd_ended m; pd_awaiting_deployment := pd_awaiting_deployment m; pd_in_flight := pd_in_flight m; pd_finished := pd_finished m; pd_between := pd_between m; pd_exit_code := x; pd_reported_failure := pd_reported_failure m |}.
Definition p_reported_failure (x : option string) (m : Procedure) : Procedure := {| pd_id := pd_id m; pd_title := pd_title m; pd_step := pd_step m; pd_prompts := pd_prompts m; pd_minimised := pd_minimised m; pd_flashing := pd_flashing m; pd_implicit := pd_implicit m; pd_ended := pd_ended m; pd_awaiting_deployment := pd_awaiting_deployment m; pd_in_flight := pd_in_flight m; pd_finished := pd_finished m; pd_between := pd_between m; pd_exit_code := pd_exit_code m; pd_reported_failure := x |}.

(** [Procedure::new]. *)
Definition procedure_new (id title : string) (implicit : bool) : Procedure :=
  {| pd_id := id; pd_title := title; pd_step := None; pd_prompts := []; pd_minimised := false;
     pd_flashing := false; pd_implicit := implicit; pd_ended := false; pd_awaiting_deployment := false;
     pd_in_flight := []; pd_finished := []; pd_between := None; pd_exit_code := None;
     pd_reported_failure := None |}.

(** The step of [p], when it has reached one. *)
Definition counted_step (p : Procedure) : option ProcedureStep :=
  step ← pd_step p; if 0 <? ps_step step then Some step else None.

Definition heading (p : Procedure) : string :=
  match counted_step p with
  | Some step => pd_title p +:+ " · " +:+ position step +:+ ": " +:+ ps_label step
  | None => pd_title p
  end.

Definition has_result (succeeded : bool) (p : Procedure) : bool :=
  match pd_between p with Some (BtResult s _) => Bool.eqb s succeeded | _ => false end.
Definition is_result (p : Procedure) : bool :=
  match pd_between p with Some (BtResult _ _) => true | _ => false end.
(** [Procedure::failed] and the methods that follow from it. *)
Definition failed (p : Procedure) : bool := has_result false p.
Definition warnings (p : Procedure) : list FinishedStep :=
  filter (λ step, fs_outcome step = SoWarning) (pd_finished p).
Definition has_warnings (p : Procedure) : bool := negb (bool_decide (length (warnings p) = 0%nat)).
Definition succeeded_with_warnings (p : Procedure) : bool := has_result true p && has_warnings p.
Definition needs_acknowledgement (p : Procedure) : bool := failed p || succeeded_with_warnings p.
Definition missed_step (p : Procedure) : option FinishedStep :=
  if failed p then List.find (λ step, negb (step_succeeded step)) (rev (pd_finished p)) else None.
(** [Procedure::missed]. *)
Definition procedure_missed (p : Procedure) : option string := missed_step p ≫= step_missed.

Definition next_position (p : Procedure) : string :=
  let blank := {| ps_id := pd_id p; ps_title := pd_title p; ps_step := 0; ps_steps := None; ps_label := "";
                  ps_deployment := false; ps_failure := None; ps_warning := None; ps_progress := None |} in
  let known := match last (pd_finished p) with
               | Some finished => fs_step finished
               | None => default blank (pd_step p)
               end in
  position {| ps_id := ps_id known; ps_title := ps_title known; ps_step := (ps_step known + 1) mod 2 ^ 32;
              ps_steps := ps_steps known; ps_label := ps_label known; ps_deployment := ps_deployment known;
              ps_failure := ps_failure known; ps_warning := ps_warning known; ps_progress := ps_progress known |}.

(** The last step it asked. *)
Definition reached (p : Procedure) : Z := from_option ps_step 0 (pd_step p).
Definition ended_early (p : Procedure) : bool :=
  pd_ended p && is_some_and (λ steps, reached p <? steps) (pd_step p ≫= ps_steps).
Definition last_step_done (p : Procedure) : bool :=
  is_some_and (λ finished, step_succeeded finished
                 && is_some_and (λ steps, steps <=? ps_step (fs_step finished)) (ps_steps (fs_step finished)))
    (last (pd_finished p)).

Definition between_title (p : Procedure) : option string :=
  between ← pd_between p;
  Some (pd_title p +:+ " · " +:+
    match between with
    | BtWorking _ =>
        match counted_step p with Some step => position step +:+ " in progress" | None => "working" end
    | BtWaiting _ => "waiting for " +:+ next_position p
    | BtResult true _ => if succeeded_with_warnings p then "succeeded with warnings" else "done"
    | BtResult false _ =>
        if ended_early p && bool_decide (pd_exit_code p = Some 0) then "ended early"
        else default "failed" (procedure_missed p)
    end).

Definition repeat_text (text : string) (n : Z) : string := Text.join "" (repeat text (Z.to_nat n)).
(** [Procedure::progress]. *)
Definition progress_lines (p : Procedure) : list string :=
  match pd_step p ≫= ps_progress with
  | None => []
  | Some progress =>
      Procedure.sp_text progress
      :: match sp_percent progress with
         | Some percent =>
             let filled := Z.min percent 100 / 5 in
             [repeat_text "█" filled +:+ repeat_text "░" (20 - filled) +:+ " " +:+ dec percent +:+ "%"]
         | None => []
         end
  end.

Definition seconds_since (now since : Z) : string := dec (as_secs (sat_sub now since)).
Definition between_body (spinner : string) (now : Z) (p : Procedure) : option string :=
  between ← pd_between p;
  let lines := step_line <$> pd_finished p in
  let progress := (λ line, "  " +:+ line) <$> progress_lines p in
  Some (Text.join (String (ascii_of_nat 10) "")
    (lines ++
     match between with
     | BtWorking since =>
         (spinner +:+ " " +:+ match counted_step p with
                              | Some step => position step +:+ ": " +:+ ps_label step
                              | None => "working"
                              end +:+ " … " +:+ seconds_since now since +:+ " s") :: progress
     | BtWaiting since =>
         let or_login :=
           if is_some_and (λ finished, bool_decide (fs_kind finished = SkSshLogin)) (last (pd_finished p))
           then " or another SSH login" else "" in
         (spinner +:+ " waiting for " +:+ next_position p +:+ or_login +:+ " … " +:+ seconds_since now since
            +:+ " s") :: progress
     | BtResult _ text => (if bool_decide (lines = []) then [] else [""]) ++ [text]
     end)).

Definition prompt_procedure (prompt : SecretPrompt) : string :=
  from_option ps_id ("request:" +:+ sp_id prompt) (sp_procedure prompt).
Definition approval_procedure (request : ApprovalRequest) : string :=
  from_option ps_id ("deployment:" +:+ ar_id request) (ar_procedure request).
(** [reported_failure]. *)
Definition failure_text (step : FinishedStep) : string :=
  "Failed at " +:+ position (fs_step step) +:+ ": " +:+ ps_label (fs_step step) +:+ ": " +:+ fs_text step.
(** An [i32] in decimal. *)
Definition signed_dec (n : Z) : string := if n <? 0 then "-" +:+ dec (- n) else dec n.
Definition exit_text (exit_code : option Z) : string :=
  match exit_code with
  | Some 0 => "The command finished successfully."
  | Some code => "The command failed with exit status " +:+ signed_dec code +:+ "."
  | None => "The command ended without reporting its exit status."
  end.

(** ** The model *)
Inductive NoticeSeverity := NsInfo | NsFailure.
#[export] Instance NoticeSeverity_eq_dec : EqDecision NoticeSeverity.
Proof. solve_decision. Defined.
Record Notice := { nt_text : string; nt_severity : NoticeSeverity }.
#[export] Instance Notice_eq_dec : EqDecision Notice.
Proof. solve_decision. Defined.

Record CommitDraft := { cd_message : string; cd_amend : bool; cd_signoff : bool }.
Definition draft_default : CommitDraft := {| cd_message := ""; cd_amend := false; cd_signoff := false |}.

(** The dialog on screen.  A character is its UTF-8 text, a value its bytes. *)
Inductive Mode :=
| MBrowse
| MSettings (selected : nat)
| MProperties (scroll : Z)
| MFacetCategories (selected : nat)
| MFacetValues (attribute : Attribute) (selected : nat)
| MFacetFirstChoice (attribute : Attribute) (value : string)
| MTreeOrder (selected : nat)
| MProfiles (selected : nat)
| MProfileSave (name : string)
| MProfileOverwrite (name : string)
| MProfileDelete (name : string)
| MHelp (scroll : Z)
| MSearch (query : string)
| MDeleteConfirm (path : string) (commit : CommitState)
| MReveal (path : string) (value : list Z) (scroll : Z) (underneath : option Mode)
| MEdit (path : string) (value : list Z)
| MReplace (path : string) (value : list Z) (commit : CommitState)
| MGenerateChoice (path : string) (replacing : bool)
| MKeypairConfirm (path : string) (replacing : bool)
| MBulkGenerateConfirm (paths : list string)
| MBulkProgress (total done : nat)
| MGeneratedPreview (path : string) (value : list Z) (revealed replacing : bool)
| MApproval (request : ApprovalRequest)
| MDeployHost (selected : nat)
| MCommit (draft : CommitDraft) (summary : CommitSummary) (editing : bool)
| MProviderFailure (message path : string) (value : list Z).

Definition is_browse (mode : Mode) : bool := match mode with MBrowse => true | _ => false end.
Definition is_approval (mode : Mode) : bool := match mode with MApproval _ => true | _ => false end.

Inductive Shortcut := ScEnter | ScEscape | ScCharacter (character : string).
Inductive MouseTarget :=
| MtFilter (number : nat)
| MtTree (index : nat)
| MtModalItem (index : nat)
| MtShortcut (shortcut : Shortcut)
| MtAutosaveToggle
| MtConfirmLoss
| MtRevealCurrent
| MtNotice
| MtBusy
| MtCommitAmend
| MtCommitSignoff
| MtCommitEditor
| MtCommitSubmit
| MtDeployRow (index : nat)
| MtProcedure (index : nat).
#[export] Instance Shortcut_eq_dec : EqDecision Shortcut.
Proof. solve_decision. Defined.
#[export] Instance MouseTarget_eq_dec : EqDecision MouseTarget.
Proof. solve_decision. Defined.

Record Activity := { ac_label : string; ac_waits_for_one_password : bool; ac_started : Z }.

(** [md_scroll_limit] is [u16::MAX] before anything was drawn. *)
Record Model := {
  md_view : View;
  md_mode : Mode;
  md_message : option Notice;
  md_modal_scroll : Z;
  md_scroll_limit : Z;
  md_host_review : option (string * bool);
  md_host_review_rendered : option string;
  md_hover : option MouseTarget;
  md_notifications : list Notice;
  md_pending_approvals : list ApprovalRequest;
  md_completed_approvals : list (string * unit);
  md_pending_dialogs : list Mode;
  md_activity : option Activity;
  md_autosave_unset_on_paste : bool;
  md_commit_draft : CommitDraft;
  md_procedures : list Procedure;
  md_foreground : option string;
  md_flash_on : bool;
  md_flash_since : Z;
  md_spinner_due : Z;
  md_backend_problem : option string;
  md_secret_scroll : Z;
  md_secret_details : bool;
  md_confirmation_typed : string * string;
  md_approval_details : bool
}.

Definition m_view (x : View) (m : Model) : Model := {| md_view := x; md_mode := md_mode m; md_message := md_message m; md_modal_scroll := md_modal_scroll m; md_scroll_limit := md_scroll_limit m; md_host_review := md_host_review m; md_host_review_rendered := md_host_review_rendered m; md_hover := md_hover m; md_notifications := md_notifications m; md_pending_approvals := md_pending_approvals m; md_completed_approvals := md_completed_approvals m; md_pending_dialogs := md_pending_dialogs m; md_activity := md_activity m; md_autosave_unset_on_paste := md_autosave_unset_on_paste m; md_commit_draft := md_commit_draft m; md_procedures := md_procedures m; md_foreground := md_foreground m; md_flash_on := md_flash_on m; md_flash_since := md_flash_since m; md_spinner_due := md_spinner_due m; md_backend_problem := md_backend_problem m; md_secret_scroll := md_secret_scroll m; md_secret_details := md_secret_details m; md_confirmation_typed := md_confirmation_typed m; md_approval_details := md_approval_details m |}.
Definition m_mode (x : Mode) (m : Model) : Model := {| md_view := md_view m; md_mode := x; md_message := md_message m; md_modal_scroll := md_modal_scroll m; md_scroll_limit := md_scroll_limit m; md_host_review := md_host_review m; md_host_review_rendered := md_host_review_rendered m; md_hover := md_hover m; md_notifications := md_notifications m; md_pending_approvals := md_pending_approvals m; md_completed_approvals := md_completed_approvals m; md_pending_dialogs := md_pending_dialogs m; md_activity := md_activity m; md_autosave_unset_on_paste := md_autosave_unset_on_paste m; md_commit_draft := md_commit_draft m; md_procedures := md_procedures m; md_foreground := md_foreground m; md_flash_on := md_flash_on m; md_flash_since := md_flash_since m; md_spinner_due := md_spinner_due m; md_backend_problem := md_backend_problem m; md_secret_scroll := md_secret_scroll m; md_secret_details := md_secret_details m; md_confirmation_typed := md_confirmation_typed m; md_approval_details := md_approval_details m |}.
Definition m_message (x : option Notice) (m : Model) : Model := {| md_view := md_view m; md_mode := md_mode m; md_message := x; md_modal_scroll := md_modal_scroll m; md_scroll_limit := md_scroll_limit m; md_host_review := md_host_review m; md_host_review_rendered := md_host_review_rendered m; md_hover := md_hover m; md_notifications := md_notifications m; md_pending_approvals := md_pending_approvals m; md_completed_approvals := md_completed_approvals m; md_pending_dialogs := md_pending_dialogs m; md_activity := md_activity m; md_autosave_unset_on_paste := md_autosave_unset_on_paste m; md_commit_draft := md_commit_draft m; md_procedures := md_procedures m; md_foreground := md_foreground m; md_flash_on := md_flash_on m; md_flash_since := md_flash_since m; md_spinner_due := md_spinner_due m; md_backend_problem := md_backend_problem m; md_secret_scroll := md_secret_scroll m; md_secret_details := md_secret_details m; md_confirmation_typed := md_confirmation_typed m; md_approval_details := md_approval_details m |}.
Definition m_modal_scroll (x : Z) (m : Model) : Model := {| md_view := md_view m; md_mode := md_mode m; md_message := md_message m; md_modal_scroll := x; md_scroll_limit := md_scroll_limit m; md_host_review := md_host_review m; md_host_review_rendered := md_host_review_rendered m; md_hover := md_hover m; md_notifications := md_notifications m; md_pending_approvals := md_pending_approvals m; md_completed_approvals := md_completed_approvals m; md_pending_dialogs := md_pending_dialogs m; md_activity := md_activity m; md_autosave_unset_on_paste := md_autosave_unset_on_paste m; md_commit_draft := md_commit_draft m; md_procedures := md_procedures m; md_foreground := md_foreground m; md_flash_on := md_flash_on m; md_flash_since := md_flash_since m; md_spinner_due := md_spinner_due m; md_backend_problem := md_backend_problem m; md_secret_scroll := md_secret_scroll m; md_secret_details := md_secret_details m; md_confirmation_typed := md_confirmation_typed m; md_approval_details := md_approval_details m |}.
Definition m_scroll_limit (x : Z) (m : Model) : Model := {| md_view := md_view m; md_mode := md_mode m; md_message := md_message m; md_modal_scroll := md_modal_scroll m; md_scroll_limit := x; md_host_review := md_host_review m; md_host_review_rendered := md_host_review_rendered m; md_hover := md_hover m; md_notifications := md_notifications m; md_pending_approvals := md_pending_approvals m; md_completed_approvals := md_completed_approvals m; md_pending_dialogs := md_pending_dialogs m; md_activity := md_activity m; md_autosave_unset_on_paste := md_autosave_unset_on_paste m; md_commit_draft := md_commit_draft m; md_procedures := md_procedures m; md_foreground := md_foreground m; md_flash_on := md_flash_on m; md_flash_since := md_flash_since m; md_spinner_due := md_spinner_due m; md_backend_problem := md_backend_problem m; md_secret_scroll := md_secret_scroll m; md_secret_details := md_secret_details m; md_confirmation_typed := md_confirmation_typed m; md_approval_details := md_approval_details m |}.
Definition m_host_review (x : option (string * bool)) (m : Model) : Model := {| md_view := md_view m; md_mode := md_mode m; md_message := md_message m; md_modal_scroll := md_modal_scroll m; md_scroll_limit := md_scroll_limit m; md_host_review := x; md_host_review_rendered := md_host_review_rendered m; md_hover := md_hover m; md_notifications := md_notifications m; md_pending_approvals := md_pending_approvals m; md_completed_approvals := md_completed_approvals m; md_pending_dialogs := md_pending_dialogs m; md_activity := md_activity m; md_autosave_unset_on_paste := md_autosave_unset_on_paste m; md_commit_draft := md_commit_draft m; md_procedures := md_procedures m; md_foreground := md_foreground m; md_flash_on := md_flash_on m; md_flash_since := md_flash_since m; md_spinner_due := md_spinner_due m; md_backend_problem := md_backend_problem m; md_secret_scroll := md_secret_scroll m; md_secret_details := md_secret_details m; md_confirmation_typed := md_confirmation_typed m; md_approval_details := md_approval_details m |}.
Definition m_host_review_rendered (x : option string) (m : Model) : Model := {| md_view := md_view m; md_mode := md_mode m; md_message := md_message m; md_modal_scroll := md_modal_scroll m; md_scroll_limit := md_scroll_limit m; md_host_review := md_host_review m; md_host_review_rendered := x; md_hover := md_hover m; md_notifications := md_notifications m; md_pending_approvals := md_pending_approvals m; md_completed_approvals := md_completed_approvals m; md_pending_dialogs := md_pending_dialogs m; md_activity := md_activity m; md_autosave_unset_on_paste := md_autosave_unset_on_paste m; md_commit_draft := md_commit_draft m; md_procedures := md_procedures m; md_foreground := md_foreground m; md_flash_on := md_flash_on m; md_flash_since := md_flash_since m; md_spinner_due := md_spinner_due m; md_backend_problem := md_backend_problem m; md_secret_scroll := md_secret_scroll m; md_secret_details := md_secret_details m; md_confirmation_typed := md_confirmation_typed m; md_approval_details := md_approval_details m |}.
Definition m_hover (x : option MouseTarget) (m : Model) : Model := {| md_view := md_view m; md_mode := md_mode m; md_message := md_message m; md_modal_scroll := md_modal_scroll m; md_scroll_limit := md_scroll_limit m; md_host_review := md_host_review m; md_host_review_rendered := md_host_review_rendered m; md_hover := x; md_notifications := md_notifications m; md_pending_approvals := md_pending_approvals m; md_completed_approvals := md_completed_approvals m; md_pending_dialogs := md_pending_dialogs m; md_activity := md_activity m; md_autosave_unset_on_paste := md_autosave_unset_on_paste m; md_commit_draft := md_commit_draft m; md_procedures := md_procedures m; md_foreground := md_foreground m; md_flash_on := md_flash_on m; md_flash_since := md_flash_since m; md_spinner_due := md_spinner_due m; md_backend_problem := md_backend_problem m; md_secret_scroll := md_secret_scroll m; md_secret_details := md_secret_details m; md_confirmation_typed := md_confirmation_typed m; md_approval_details := md_approval_details m |}.
Definition m_notifications (x : list Notice) (m : Model) : Model := {| md_view := md_view m; md_mode := md_mode m; md_message := md_message m; md_modal_scroll := md_modal_scroll m; md_scroll_limit := md_scroll_limit m; md_host_review := md_host_review m; md_host_review_rendered := md_host_review_rendered m; md_hover := md_hover m; md_notifications := x; md_pending_approvals := md_pending_approvals m; md_completed_approvals := md_completed_approvals m; md_pending_dialogs := md_pending_dialogs m; md_activity := md_activity m; md_autosave_unset_on_paste := md_autosave_unset_on_paste m; md_commit_draft := md_commit_draft m; md_procedures := md_procedures m; md_foreground := md_foreground m; md_flash_on := md_flash_on m; md_flash_since := md_flash_since m; md_spinner_due := md_spinner_due m; md_backend_problem := md_backend_problem m; md_secret_scroll := md_secret_scroll m; md_secret_details := md_secret_details m; md_confirmation_typed := md_confirmation_typed m; md_approval_details := md_approval_details m |}.
Definition m_pending_approvals (x : list ApprovalRequest) (m : Model) : Model := {| md_view := md_view m; md_mode := md_mode m; md_message := md_message m; md_modal_scroll := md_modal_scroll m; md_scroll_limit := md_scroll_limit m; md_host_review := md_host_review m; md_host_review_rendered := md_host_review_rendered m; md_hover := md_hover m; md_notifications := md_notifications m; md_pending_approvals := x; md_completed_approvals := md_completed_approvals m; md_pending_dialogs := md_pending_dialogs m; md_activity := md_activity m; md_autosave_unset_on_paste := md_autosave_unset_on_paste m; md_commit_draft := md_commit_draft m; md_procedures := md_procedures m; md_foreground := md_foreground m; md_flash_on := md_flash_on m; md_flash_since := md_flash_since m; md_spinner_due := md_spinner_due m; md_backend_problem := md_backend_problem m; md_secret_scroll := md_secret_scroll m; md_secret_details := md_secret_details m; md_confirmation_typed := md_confirmation_typed m; md_approval_details := md_approval_details m |}.
Definition m_completed_approvals (x : list (string * unit)) (m : Model) : Model := {| md_view := md_view m; md_mode := md_mode m; md_message := md_message m; md_modal_scroll := md_modal_scroll m; md_scroll_limit := md_scroll_limit m; md_host_review := md_host_review m; md_host_review_rendered := md_host_review_rendered m; md_hover := md_hover m; md_notifications := md_notifications m; md_pending_approvals := md_pending_approvals m; md_completed_approvals := x; md_pending_dialogs := md_pending_dialogs m; md_activity := md_activity m; md_autosave_unset_on_paste := md_autosave_unset_on_paste m; md_commit_draft := md_commit_draft m; md_procedures := md_procedures m; md_foreground := md_foreground m; md_flash_on := md_flash_on m; md_flash_since := md_flash_since m; md_spinner_due := md_spinner_due m; md_backend_problem := md_backend_problem m; md_secret_scroll := md_secret_scroll m; md_secret_details := md_secret_details m; md_confirmation_typed := md_confirmation_typed m; md_approval_details := md_approval_details m |}.
Definition m_pending_dialogs (x : list Mode) (m : Model) : Model := {| md_view := md_view m; md_mode := md_mode m; md_message := md_message m; md_modal_scroll := md_modal_scroll m; md_scroll_limit := md_scroll_limit m; md_host_review := md_host_review m; md_host_review_rendered := md_host_review_rendered m; md_hover := md_hover m; md_notifications := md_notifications m; md_pending_approvals := md_pending_approvals m; md_completed_approvals := md_completed_approvals m; md_pending_dialogs := x; md_activity := md_activity m; md_autosave_unset_on_paste := md_autosave_unset_on_paste m; md_commit_draft := md_commit_draft m; md_procedures := md_procedures m; md_foreground := md_foreground m; md_flash_on := md_flash_on m; md_flash_since := md_flash_since m; md_spinner_due := md_spinner_due m; md_backend_problem := md_backend_problem m; md_secret_scroll := md_secret_scroll m; md_secret_details := md_secret_details m; md_confirmation_typed := md_confirmation_typed m; md_approval_details := md_approval_details m |}.
Definition m_activity (x : option Activity) (m : Model) : Model := {| md_view := md_view m; md_mode := md_mode m; md_message := md_message m; md_modal_scroll := md_modal_scroll m; md_scroll_limit := md_scroll_limit m; md_host_review := md_host_review m; md_host_review_rendered := md_host_review_rendered m; md_hover := md_hover m; md_notifications := md_notifications m; md_pending_approvals := md_pending_approvals m; md_completed_approvals := md_completed_approvals m; md_pending_dialogs := md_pending_dialogs m; md_activity := x; md_autosave_unset_on_paste := md_autosave_unset_on_paste m; md_commit_draft := md_commit_draft m; md_procedures := md_procedures m; md_foreground := md_foreground m; md_flash_on := md_flash_on m; md_flash_since := md_flash_since m; md_spinner_due := md_spinner_due m; md_backend_problem := md_backend_problem m; md_secret_scroll := md_secret_scroll m; md_secret_details := md_secret_details m; md_confirmation_typed := md_confirmation_typed m; md_approval_details := md_approval_details m |}.
Definition m_autosave_unset_on_paste (x : bool) (m : Model) : Model := {| md_view := md_view m; md_mode := md_mode m; md_message := md_message m; md_modal_scroll := md_modal_scroll m; md_scroll_limit := md_scroll_limit m; md_host_review := md_host_review m; md_host_review_rendered := md_host_review_rendered m; md_hover := md_hover m; md_notifications := md_notifications m; md_pending_approvals := md_pending_approvals m; md_completed_approvals := md_completed_approvals m; md_pending_dialogs := md_pending_dialogs m; md_activity := md_activity m; md_autosave_unset_on_paste := x; md_commit_draft := md_commit_draft m; md_procedures := md_procedures m; md_foreground := md_foreground m; md_flash_on := md_flash_on m; md_flash_since := md_flash_since m; md_spinner_due := md_spinner_due m; md_backend_problem := md_backend_problem m; md_secret_scroll := md_secret_scroll m; md_secret_details := md_secret_details m; md_confirmation_typed := md_confirmation_typed m; md_approval_details := md_approval_details m |}.
Definition m_commit_draft (x : CommitDraft) (m : Model) : Model := {| md_view := md_view m; md_mode := md_mode m; md_message := md_message m; md_modal_scroll := md_modal_scroll m; md_scroll_limit := md_scroll_limit m; md_host_review := md_host_review m; md_host_review_rendered := md_host_review_rendered m; md_hover := md_hover m; md_notifications := md_notifications m; md_pending_approvals := md_pending_approvals m; md_completed_approvals := md_completed_approvals m; md_pending_dialogs := md_pending_dialogs m; md_activity := md_activity m; md_autosave_unset_on_paste := md_autosave_unset_on_paste m; md_commit_draft := x; md_procedures := md_procedures m; md_foreground := md_foreground m; md_flash_on := md_flash_on m; md_flash_since := md_flash_since m; md_spinner_due := md_spinner_due m; md_backend_problem := md_backend_problem m; md_secret_scroll := md_secret_scroll m; md_secret_details := md_secret_details m; md_confirmation_typed := md_confirmation_typed m; md_approval_details := md_approval_details m |}.
Definition m_procedures (x : list Procedure) (m : Model) : Model := {| md_view := md_view m; md_mode := md_mode m; md_message := md_message m; md_modal_scroll := md_modal_scroll m; md_scroll_limit := md_scroll_limit m; md_host_review := md_host_review m; md_host_review_rendered := md_host_review_rendered m; md_hover := md_hover m; md_notifications := md_notifications m; md_pending_approvals := md_pending_approvals m; md_completed_approvals := md_completed_approvals m; md_pending_dialogs := md_pending_dialogs m; md_activity := md_activity m; md_autosave_unset_on_paste := md_autosave_unset_on_paste m; md_commit_draft := md_commit_draft m; md_procedures := x; md_foreground := md_foreground m; md_flash_on := md_flash_on m; md_flash_since := md_flash_since m; md_spinner_due := md_spinner_due m; md_backend_problem := md_backend_problem m; md_secret_scroll := md_secret_scroll m; md_secret_details := md_secret_details m; md_confirmation_typed := md_confirmation_typed m; md_approval_details := md_approval_details m |}.
Definition m_foreground (x : option string) (m : Model) : Model := {| md_view := md_view m; md_mode := md_mode m; md_message := md_message m; md_modal_scroll := md_modal_scroll m; md_scroll_limit := md_scroll_limit m; md_host_review := md_host_review m; md_host_review_rendered := md_host_review_rendered m; md_hover := md_hover m; md_notifications := md_notifications m; md_pending_approvals := md_pending_approvals m; md_completed_approvals := md_completed_approvals m; md_pending_dialogs := md_pending_dialogs m; md_activity := md_activity m; md_autosave_unset_on_paste := md_autosave_unset_on_paste m; md_commit_draft := md_commit_draft m; md_procedures := md_procedures m; md_foreground := x; md_flash_on := md_flash_on m; md_flash_since := md_flash_since m; md_spinner_due := md_spinner_due m; md_backend_problem := md_backend_problem m; md_secret_scroll := md_secret_scroll m; md_secret_details := md_secret_details m; md_confirmation_typed := md_confirmation_typed m; md_approval_details := md_approval_details m |}.
Definition m_flash_on (x : bool) (m : Model) : Model := {| md_view := md_view m; md_mode := md_mode m; md_message := md_message m; md_modal_scroll := md_modal_scroll m; md_scroll_limit := md_scroll_limit m; md_host_review := md_host_review m; md_host_review_rendered := md_host_review_rendered m; md_hover := md_hover m; md_notifications := md_notifications m; md_pending_approvals := md_pending_approvals m; md_completed_approvals := md_completed_approvals m; md_pending_dialogs := md_pending_dialogs m; md_activity := md_activity m; md_autosave_unset_on_paste := md_autosave_unset_on_paste m; md_commit_draft := md_commit_draft m; md_procedures := md_procedures m; md_foreground := md_foreground m; md_flash_on := x; md_flash_since := md_flash_since m; md_spinner_due := md_spinner_due m; md_backend_problem := md_backend_problem m; md_secret_scroll := md_secret_scroll m; md_secret_details := md_secret_details m; md_confirmation_typed := md_confirmation_typed m; md_approval_details := md_approval_details m |}.
Definition m_flash_since (x : Z) (m : Model) : Model := {| md_view := md_view m; md_mode := md_mode m; md_message := md_message m; md_modal_scroll := md_modal_scroll m; md_scroll_limit := md_scroll_limit m; md_host_review := md_host_review m; md_host_review_rendered := md_host_review_rendered m; md_hover := md_hover m; md_notifications := md_notifications m; md_pending_approvals := md_pending_approvals m; md_completed_approvals := md_completed_approvals m; md_pending_dialogs := md_pending_dialogs m; md_activity := md_activity m; md_autosave_unset_on_paste := md_autosave_unset_on_paste m; md_commit_draft := md_commit_draft m; md_procedures := md_procedures m; md_foreground := md_foreground m; md_flash_on := md_flash_on m; md_flash_since := x; md_spinner_due := md_spinner_due m; md_backend_problem := md_backend_problem m; md_secret_scroll := md_secret_scroll m; md_secret_details := md_secret_details m; md_confirmation_typed := md_confirmation_typed m; md_approval_details := md_approval_details m |}.
Definition m_spinner_due (x : Z) (m : Model) : Model := {| md_view := md_view m; md_mode := md_mode m; md_message := md_message m; md_modal_scroll := md_modal_scroll m; md_scroll_limit := md_scroll_limit m; md_host_review := md_host_review m; md_host_review_rendered := md_host_review_rendered m; md_hover := md_hover m; md_notifications := md_notifications m; md_pending_approvals := md_pending_approvals m; md_completed_approvals := md_completed_approvals m; md_pending_dialogs := md_pending_dialogs m; md_activity := md_activity m; md_autosave_unset_on_paste := md_autosave_unset_on_paste m; md_commit_draft := md_commit_draft m; md_procedures := md_procedures m; md_foreground := md_foreground m; md_flash_on := md_flash_on m; md_flash_since := md_flash_since m; md_spinner_due := x; md_backend_problem := md_backend_problem m; md_secret_scroll := md_secret_scroll m; md_secret_details := md_secret_details m; md_confirmation_typed := md_confirmation_typed m; md_approval_details := md_approval_details m |}.
Definition m_backend_problem (x : option string) (m : Model) : Model := {| md_view := md_view m; md_mode := md_mode m; md_message := md_message m; md_modal_scroll := md_modal_scroll m; md_scroll_limit := md_scroll_limit m; md_host_review := md_host_review m; md_host_review_rendered := md_host_review_rendered m; md_hover := md_hover m; md_notifications := md_notifications m; md_pending_approvals := md_pending_approvals m; md_completed_approvals := md_completed_approvals m; md_pending_dialogs := md_pending_dialogs m; md_activity := md_activity m; md_autosave_unset_on_paste := md_autosave_unset_on_paste m; md_commit_draft := md_commit_draft m; md_procedures := md_procedures m; md_foreground := md_foreground m; md_flash_on := md_flash_on m; md_flash_since := md_flash_since m; md_spinner_due := md_spinner_due m; md_backend_problem := x; md_secret_scroll := md_secret_scroll m; md_secret_details := md_secret_details m; md_confirmation_typed := md_confirmation_typed m; md_approval_details := md_approval_details m |}.
Definition m_secret_scroll (x : Z) (m : Model) : Model := {| md_view := md_view m; md_mode := md_mode m; md_message := md_message m; md_modal_scroll := md_modal_scroll m; md_scroll_limit := md_scroll_limit m; md_host_review := md_host_review m; md_host_review_rendered := md_host_review_rendered m; md_hover := md_hover m; md_notifications := md_notifications m; md_pending_approvals := md_pending_approvals m; md_completed_approvals := md_completed_approvals m; md_pending_dialogs := md_pending_dialogs m; md_activity := md_activity m; md_autosave_unset_on_paste := md_autosave_unset_on_paste m; md_commit_draft := md_commit_draft m; md_procedures := md_procedures m; md_foreground := md_foreground m; md_flash_on := md_flash_on m; md_flash_since := md_flash_since m; md_spinner_due := md_spinner_due m; md_backend_problem := md_backend_problem m; md_secret_scroll := x; md_secret_details := md_secret_details m; md_confirmation_typed := md_confirmation_typed m; md_approval_details := md_approval_details m |}.
Definition m_secret_details (x : bool) (m : Model) : Model := {| md_view := md_view m; md_mode := md_mode m; md_message := md_message m; md_modal_scroll := md_modal_scroll m; md_scroll_limit := md_scroll_limit m; md_host_review := md_host_review m; md_host_review_rendered := md_host_review_rendered m; md_hover := md_hover m; md_notifications := md_notifications m; md_pending_approvals := md_pending_approvals m; md_completed_approvals := md_completed_approvals m; md_pending_dialogs := md_pending_dialogs m; md_activity := md_activity m; md_autosave_unset_on_paste := md_autosave_unset_on_paste m; md_commit_draft := md_commit_draft m; md_procedures := md_procedures m; md_foreground := md_foreground m; md_flash_on := md_flash_on m; md_flash_since := md_flash_since m; md_spinner_due := md_spinner_due m; md_backend_problem := md_backend_problem m; md_secret_scroll := md_secret_scroll m; md_secret_details := x; md_confirmation_typed := md_confirmation_typed m; md_approval_details := md_approval_details m |}.
Definition m_confirmation_typed (x : string * string) (m : Model) : Model := {| md_view := md_view m; md_mode := md_mode m; md_message := md_message m; md_modal_scroll := md_modal_scroll m; md_scroll_limit := md_scroll_limit m; md_host_review := md_host_review m; md_host_review_rendered := md_host_review_rendered m; md_hover := md_hover m; md_notifications := md_notifications m; md_pending_approvals := md_pending_approvals m; md_completed_approvals := md_completed_approvals m; md_pending_dialogs := md_pending_dialogs m; md_activity := md_activity m; md_autosave_unset_on_paste := md_autosave_unset_on_paste m; md_commit_draft := md_commit_draft m; md_procedures := md_procedures m; md_foreground := md_foreground m; md_flash_on := md_flash_on m; md_flash_since := md_flash_since m; md_spinner_due := md_spinner_due m; md_backend_problem := md_backend_problem m; md_secret_scroll := md_secret_scroll m; md_secret_details := md_secret_details m; md_confirmation_typed := x; md_approval_details := md_approval_details m |}.
Definition m_approval_details (x : bool) (m : Model) : Model := {| md_view := md_view m; md_mode := md_mode m; md_message := md_message m; md_modal_scroll := md_modal_scroll m; md_scroll_limit := md_scroll_limit m; md_host_review := md_host_review m; md_host_review_rendered := md_host_review_rendered m; md_hover := md_hover m; md_notifications := md_notifications m; md_pending_approvals := md_pending_approvals m; md_completed_approvals := md_completed_approvals m; md_pending_dialogs := md_pending_dialogs m; md_activity := md_activity m; md_autosave_unset_on_paste := md_autosave_unset_on_paste m; md_commit_draft := md_commit_draft m; md_procedures := md_procedures m; md_foreground := md_foreground m; md_flash_on := md_flash_on m; md_flash_since := md_flash_since m; md_spinner_due := md_spinner_due m; md_backend_problem := md_backend_problem m; md_secret_scroll := md_secret_scroll m; md_secret_details := md_secret_details m; md_confirmation_typed := md_confirmation_typed m; md_approval_details := x |}.

Definition model_new (now : Z) (rows : list Row) : Model :=
  {| md_view := view_new rows; md_mode := MBrowse; md_message := None; md_modal_scroll := 0;
     md_scroll_limit := u16_max; md_host_review := None; md_host_review_rendered := None; md_hover := None;
     md_notifications := []; md_pending_approvals := []; md_completed_approvals := []; md_pending_dialogs := [];
     md_activity := None; md_autosave_unset_on_paste := false; md_commit_draft := draft_default;
     md_procedures := []; md_foreground := None; md_flash_on := false; md_flash_since := now;
     md_spinner_due := now; md_backend_problem := None; md_secret_scroll := 0; md_secret_details := false;
     md_confirmation_typed := ("", ""); md_approval_details := false |}.

(** ** Looking at procedures *)
Definition has_id (id : string) (p : Procedure) : bool := bool_decide (pd_id p = id).
Definition procedure (m : Model) (id : string) : option Procedure := List.find (has_id id) (md_procedures m).
(** [f] applied to [procedure_mut(id)]. *)
Definition change_procedure (id : string) (f : Procedure → Procedure) (m : Model) : Model :=
  m_procedures (update_first (has_id id) f (md_procedures m)) m.
(** The procedure whose dialog is not in the task bar. *)
Definition front_procedure (m : Model) : option Procedure :=
  p ← md_foreground m ≫= procedure m; if pd_minimised p then None else Some p.

Definition shown_prompt (m : Model) : option SecretPrompt := p ← front_procedure m; head (pd_prompts p).
Definition between_shown (m : Model) : option Procedure :=
  if is_browse (md_mode m) then
    p ← front_procedure m;
    if bool_decide (length (pd_prompts p) = 0%nat) && is_some (pd_between p) then Some p else None
  else None.
Definition foreground_busy (m : Model) : bool :=
  negb (is_browse (md_mode m)) || is_some (shown_prompt m)
  || is_some_and (λ p, negb (has_result true p) || succeeded_with_warnings p) (between_shown m).

Definition approval_of (id : string) (request : ApprovalRequest) : bool :=
  bool_decide (approval_procedure request = id).
(** Whether the deployment dialog of procedure [id] is on screen. *)
Definition approval_open (m : Model) (id : string) : bool :=
  match md_mode m with MApproval request => approval_of id request | _ => false end.
Definition procedure_waiting (m : Model) (p : Procedure) : bool :=
  negb (bool_decide (length (pd_prompts p) = 0%nat)) || needs_acknowledgement p
  || existsb (approval_of (pd_id p)) (md_pending_approvals m) || approval_open m (pd_id p).

(** ** Procedures with nothing left to show *)
Definition over (m : Model) (p : Procedure) : bool :=
  let result_on_screen :=
    bool_decide (md_foreground m = Some (pd_id p)) && negb (pd_minimised p) && is_result p in
  (pd_implicit p || pd_ended p) && negb (procedure_waiting m p) && negb result_on_screen.
Definition tidy_procedures (m : Model) : Model :=
  let finished := pd_id <$> filter (λ p, over m p = true) (md_procedures m) in
  let m := m_procedures (filter (λ p, pd_id p ∉ finished) (md_procedures m)) m in
  if is_some_and (λ id, negb (is_some (procedure m id))) (md_foreground m) then m_foreground None m else m.
Definition reset_scroll (m : Model) : Model := m_secret_details false (m_secret_scroll 0 m).

(** ** Procedures that ask *)
(** Steps only move forward. *)
Definition take_step (step : ProcedureStep) (p : Procedure) : Procedure :=
  if is_none_or (λ known, ps_step known <=? ps_step step) (pd_step p)
  then p_step (Some step) (p_title (ps_title step) p) else p.
Definition ensure_procedure (id title : string) (step : option ProcedureStep) (m : Model) : Model :=
  let m := if is_some (procedure m id) then m
           else m_procedures (md_procedures m
                  ++ [procedure_new id (from_option ps_title title step) (negb (is_some step))]) m in
  match step with Some step => change_procedure id (take_step step) m | None => m end.

Definition to_front (p : Procedure) : Procedure := p_flashing false (p_minimised false p).
Definition to_task_bar (p : Procedure) : Procedure := p_flashing true (p_minimised true p).

(** The procedure exists: both callers ensured it just before. *)
Definition arrive (id : string) (m : Model) : Model :=
  let in_foreground :=
    bool_decide (md_foreground m = Some id) && is_some_and (λ p, negb (pd_minimised p)) (procedure m id) in
  let own_dialog := is_some (shown_prompt m) || approval_open m id in
  if in_foreground && (own_dialog || is_browse (md_mode m)) then m
  else if negb in_foreground && negb (foreground_busy m) then
    tidy_procedures (reset_scroll (change_procedure id to_front (m_foreground (Some id) m)))
  else
    let m := if decide (md_foreground m = Some id) then m_foreground None m else m in
    change_procedure id to_task_bar m.

Definition program_name (process : ProcessInfo) : string :=
  match (match pi_executable process with Some path => Some path | None => head (pi_argv process) end) with
  | Some path => default path (path_file_name (components path))
  | None => "unknown program"
  end.
(** [secret_request::title]. *)
Definition prompt_title (prompt : SecretPrompt) : string :=
  (if is_some (sp_confirmation prompt) then "Confirmation request"
   else if sp_closure_signature prompt then "Closure signing request"
   else if sp_artifact_signature prompt then "Artifact signing request"
   else if sp_ssh_signature prompt then "SSH authentication request"
   else "Secret request")
  +:+ " from " +:+ program_name (sp_requester prompt) +:+ " (pid " +:+ dec (pi_pid (sp_requester prompt)) +:+ ")".

Definition ask (prompt : SecretPrompt) (p : Procedure) : Procedure :=
  let p :=
    match pd_implicit p, sp_procedure prompt with
    | false, Some step =>
        p_between None
          (p_in_flight (pd_in_flight p ++
             [{| if_request := sp_id prompt; if_step := step; if_kind := kind_of prompt; if_denied := false;
                 if_deadline := sp_deadline prompt |}]) p)
    | _, _ => p
    end in
  p_prompts (pd_prompts p ++ [prompt]) p.

Definition offer_prompt (prompt : SecretPrompt) (m : Model) : Model :=
  let id := prompt_procedure prompt in
  let known := is_some (procedure m id) in
  let current := if is_some (sp_confirmation prompt) && known then None else sp_procedure prompt in
  let m := ensure_procedure id (prompt_title prompt) current m in
  let was_waiting := is_some_and (λ p, negb (bool_decide (length (pd_prompts p) = 0%nat))) (procedure m id) in
  let m := change_procedure id (ask prompt) m in
  if was_waiting then m else arrive id m.

(** ** The end of a procedure *)
Definition with_exit (early : bool) (p : Procedure) (exit : string) : string :=
  if early then
    "Ended after step " +:+ dec (reached p) +:+ " of "
      +:+ dec (default (reached p) (pd_step p ≫= ps_steps)) +:+ ". " +:+ exit
  else exit.
Definition nl : string := String (ascii_of_nat 10) "".

(** The result a procedure ends with. *)
Definition end_result (exit_code : option Z) (p : Procedure) : bool * string :=
  let exit := exit_text exit_code in
  let exited := bool_decide (exit_code = Some 0) in
  match pd_between p with
  | Some (BtResult succeeded text) => (succeeded && exited, text +:+ nl +:+ exit)
  | _ =>
      if bool_decide (length (pd_finished p) = 0%nat) && bool_decide (length (pd_in_flight p) = 0%nat)
      then (is_none_or (λ code, code =? 0) exit_code, exit)
      else
        let early := ended_early p in
        let summary := with_exit early p exit in
        (exited && forallb step_succeeded (pd_finished p) && negb early,
         match List.find step_reported_failed (rev (pd_finished p)) with
         | Some reported => failure_text reported +:+ nl +:+ summary
         | None => summary
         end)
  end.

Definition end_procedure (shown : bool) (exit_code : option Z) (p : Procedure) : Procedure :=
  let p := p_exit_code exit_code (p_ended true p) in
  if pd_implicit p || negb (bool_decide (length (pd_prompts p) = 0%nat)) then p
  else
    let '(succeeded, text) := end_result exit_code p in
    let nothing_asked :=
      bool_decide (length (pd_finished p) = 0%nat) && bool_decide (length (pd_in_flight p) = 0%nat) in
    let p := p_between (Some (BtResult succeeded text)) p in
    if nothing_asked && succeeded then p_between None p
    else if (negb succeeded || has_warnings p) && negb shown then to_task_bar p
    else p.

Definition procedure_ended (id : string) (exit_code : option Z) (m : Model) : Model :=
  let shown := is_browse (md_mode m) && bool_decide (md_foreground m = Some id)
               && is_some_and (λ p, negb (pd_minimised p)) (procedure m id) in
  let m := change_procedure id (end_procedure shown exit_code) m in
  let m := if bool_decide (md_foreground m = Some id) && is_some_and pd_minimised (procedure m id)
           then m_foreground None m else m in
  tidy_procedures m.

(** ** Outcomes of steps *)
Definition finish (flight : InFlight) (outcome : StepOutcome) (text : string) : FinishedStep :=
  {| fs_request := if_request flight; fs_step := if_step flight; fs_kind := if_kind flight; fs_text := text;
     fs_outcome := outcome |}.

(** What a step that did not succeed left as the result. *)
Definition failed_text (outcome : StepOutcome) : string :=
  match outcome with
  | SoDenied => "You denied the step."
  | SoTimedOut => "Nobody answered the step in time."
  | _ => "The step failed."
  end.

(** What the dialog shows once nothing of [p] is open or in flight;
    [reported] is a failure its command reported. *)
Definition next_between (now : Z) (outcome : StepOutcome) (reported : option string) (p : Procedure) : Between :=
  if negb (outcome_succeeded outcome && negb (is_some reported))
  then BtResult false (default (failed_text outcome) reported)
  else if last_step_done p then BtResult true "All steps are done."
  else BtWaiting now.

(** The index comes from a search just before; a wrong one would panic. *)
Definition record_step (now : Z) (index : nat) (flight : InFlight) (outcome : StepOutcome) (text : string)
  (m : Model) : Model :=
  let update f m := m_procedures (alter f index (md_procedures m)) m in
  let step := finish flight outcome text in
  let m := update (λ p, p_finished (pd_finished p ++ [step]) p) m in
  match md_procedures m !! index with
  | None => m
  | Some p =>
      let reported := if step_reported_failed step then Some (failure_text step) else None in
      let open := negb (bool_decide (length (pd_prompts p) = 0%nat)) || approval_open m (pd_id p) in
      if pd_ended p then
        match pd_between p with
        | Some (BtResult shown result) =>
            update (p_between (Some (BtResult (shown && outcome_succeeded outcome) result))) m
        | _ => if open then m else procedure_ended (pd_id p) (pd_exit_code p) m
        end
      else if negb open && bool_decide (length (pd_in_flight p) = 0%nat) && negb (failed p) then
        let reported := match reported with Some text => Some text | None => pd_reported_failure p end in
        let shown := bool_decide (md_foreground m = Some (pd_id p)) && negb (pd_minimised p) in
        update (λ p,
          let p := p_between (Some (next_between now outcome reported p)) (p_reported_failure None p) in
          if negb (outcome_succeeded outcome && negb (is_some reported)) && negb shown then to_task_bar p else p) m
      else
        match reported with
        | Some text =>
            if failed p then m
            else update (λ p, (if pd_minimised p then p_flashing true else id) (p_reported_failure (Some text) p)) m
        | None => m
        end
  end.

(** A later report of the same step replaces its reason, in the list and
    wherever its result shows. *)
Definition replace_start (old new text : string) : string :=
  match Text.strip_prefix old text with Some rest => new +:+ rest | None => text end.
Definition correct_step (step : ProcedureStep) (reason : string) (known : FinishedStep) : FinishedStep :=
  {| fs_request := fs_request known; fs_step := step; fs_kind := fs_kind known; fs_text := reason;
     fs_outcome := fs_outcome known |}.
Definition correct_report (request : string) (step : ProcedureStep) (outcome : StepOutcome) (reason : string)
  (known : FinishedStep) (p : Procedure) : Procedure :=
  let is_it := λ finished, bool_decide (fs_request finished = request) in
  let p := p_finished (update_first is_it (correct_step step reason) (pd_finished p)) p in
  if decide (outcome = SoWarning) then p
  else
    let correct := replace_start (failure_text known) (failure_text (correct_step step reason known)) in
    let p := match pd_between p with
             | Some (BtResult succeeded text) => p_between (Some (BtResult succeeded (correct text))) p
             | _ => p
             end in
    p_reported_failure (correct <$> pd_reported_failure p) p.

Definition step_reported (now : Z) (step : ProcedureStep) (outcome : StepOutcome) (reason : string) (m : Model)
  : Model :=
  match find_position (has_id (ps_id step)) (md_procedures m) with
  | None => m
  | Some index =>
      let kind := if decide (outcome = SoWarning) then "warning" else "failed" in
      let request := kind +:+ ":" +:+ ps_id step +:+ ":" +:+ dec (ps_step step) in
      match p ← md_procedures m !! index;
            List.find (λ finished, bool_decide (fs_request finished = request)) (pd_finished p) with
      | Some known =>
          m_procedures (alter (correct_report request step outcome reason known) index (md_procedures m)) m
      | None =>
          let flight := {| if_request := request; if_step := step; if_kind := SkReported; if_denied := false;
                           if_deadline := None |} in
          tidy_procedures (record_step now index flight outcome reason m)
      end
  end.

Definition procedure_step (now : Z) (step : ProcedureStep) (m : Model) : Model :=
  let m := ensure_procedure (ps_id step) "" (Some step) m in
  let m := if ps_deployment step then change_procedure (ps_id step) (p_awaiting_deployment true) m else m in
  let m := match ps_warning step with Some warning => step_reported now step SoWarning warning m | None => m end in
  match ps_failure step with Some failure => step_reported now step SoFailed failure m | None => m end.

(** [step_answered]. *)
Definition answer_step (now : Z) (p : Procedure) : Procedure :=
  if negb (pd_implicit p) && bool_decide (length (pd_prompts p) = 0%nat)
  then p_between (Some (BtWorking now)) p else p.

Definition answer_deployment (now : Z) (id : string) (step : ProcedureStep) (p : Procedure) : Procedure :=
  if pd_implicit p then p
  else
    let known := existsb (λ flight, bool_decide (if_request flight = id)) (pd_in_flight p) in
    let p := if known then p
             else p_in_flight (pd_in_flight p ++
                    [{| if_request := id; if_step := step; if_kind := SkDeployment; if_denied := false;
                        if_deadline := None |}]) p in
    answer_step now p.

Definition deployment_answered (now : Z) (request : ApprovalRequest) (m : Model) : Model :=
  let keep := λ flight, negb (bool_decide (if_kind flight = SkDeployment))
                        || bool_decide (if_request flight = ar_id request) in
  let m := m_procedures
             ((λ p, p_in_flight (filter (λ flight, keep flight = true) (pd_in_flight p)) p) <$> md_procedures m) m in
  match ar_procedure request with
  | Some step => change_procedure (ps_id step) (answer_deployment now (ar_id request) step) m
  | None => m
  end.

Definition deployment_in_flight (m : Model) : option string :=
  head (omap (λ p, if_request <$> List.find (λ flight, bool_decide (if_kind flight = SkDeployment)) (pd_in_flight p))
          (md_procedures m)).

(** The first step in flight that [request] asked, and the rest. *)
Fixpoint take_flight (request : string) (flights : list InFlight) : option (InFlight * list InFlight) :=
  match flights with
  | [] => None
  | flight :: flights =>
      if bool_decide (if_request flight = request) then Some (flight, flights)
      else prod_map id (cons flight) <$> take_flight request flights
  end.
Fixpoint take_in_flight_from (request : string) (index : nat) (procedures : list Procedure)
  : option (nat * InFlight * list Procedure) :=
  match procedures with
  | [] => None
  | p :: procedures =>
      match take_flight request (pd_in_flight p) with
      | Some (flight, rest) => Some (index, flight, p_in_flight rest p :: procedures)
      | None => prod_map id (cons p) <$> take_in_flight_from request (S index) procedures
      end
  end.
Definition take_in_flight (request : string) (m : Model) : option (nat * InFlight) * Model :=
  match take_in_flight_from request 0 (md_procedures m) with
  | Some (found, procedures) => (Some found, m_procedures procedures m)
  | None => (None, m)
  end.

(** How the answer to a step is listed. *)
Definition classify (now : Z) (flight : InFlight) (outcome : result string (option string))
  : StepOutcome * string :=
  match outcome with
  | Ok text =>
      (if decide (if_kind flight = SkConfirmation) then SoWarning else SoDone,
       default (kind_done (if_kind flight)) text)
  | Err error =>
      (if if_denied flight then SoDenied
       else if is_some_and (λ deadline, deadline <=? now + DEADLINE_SLACK) (if_deadline flight) then SoTimedOut
       else SoFailed, error)
  end.

Definition step_finished (now : Z) (request : string) (outcome : result string (option string)) (m : Model)
  : bool * Model :=
  match take_in_flight request m with
  | (None, m) =>
      (existsb (λ p, existsb (λ step, bool_decide (fs_request step = request)) (pd_finished p)) (md_procedures m), m)
  | (Some (index, flight), m) =>
      let '(outcome, text) := classify now flight outcome in
      (true, tidy_procedures (record_step now index flight outcome text m))
  end.

(** ** Prompts that close *)
Definition dismiss_result (m : Model) : Model :=
  match between_shown m with
  | None => m
  | Some p => tidy_procedures (change_procedure (pd_id p) (λ p, if is_result p then p_between None p else p) m)
  end.

Definition spinner_tick (now : Z) (m : Model) : bool * Model :=
  let spinning := is_some_and (λ p, negb (is_result p)) (between_shown m) in
  if negb spinning || (now <? md_spinner_due m) then (false, m)
  else (true, m_spinner_due (now + SPINNER_PERIOD) m).

Definition is_prompt (prompt_id : string) (prompt : SecretPrompt) : bool := bool_decide (sp_id prompt = prompt_id).
Definition drop_prompt (prompt_id : string) (m : Model) : bool * Model :=
  let shown := is_some_and (is_prompt prompt_id) (shown_prompt m) in
  let removed := existsb (λ p, existsb (is_prompt prompt_id) (pd_prompts p)) (md_procedures m) in
  let m := m_procedures
             ((λ p, p_prompts (filter (λ prompt, is_prompt prompt_id prompt = false) (pd_prompts p)) p)
              <$> md_procedures m) m in
  (removed, if shown then reset_scroll m else m).

Definition remove_prompt (prompt_id : string) (m : Model) : bool * Model :=
  prod_map id tidy_procedures (drop_prompt prompt_id m).

Definition prompt_missed (now : Z) (prompt_id : string) (outcome : StepOutcome) (text : string) (m : Model)
  : bool * Model :=
  let '(removed, m) := drop_prompt prompt_id m in
  let m := match take_in_flight prompt_id m with
           | (Some (index, flight), m) => record_step now index flight outcome text m
           | (None, m) => m
           end in
  (removed, tidy_procedures m).

Definition withdraw_prompt (now : Z) (prompt_id : string) (m : Model) : bool * Model :=
  prompt_missed now prompt_id SoFailed "withdrawn: its requester left" m.

Definition mark_denied (prompt_id : string) (approved : bool) (flight : InFlight) : InFlight :=
  {| if_request := if_request flight; if_step := if_step flight; if_kind := if_kind flight;
     if_denied := negb approved; if_deadline := if_deadline flight |}.
Definition answer_shown (now : Z) (prompt : SecretPrompt) (approved : bool) (p : Procedure) : Procedure :=
  let p := p_prompts (tail (pd_prompts p)) p in
  let p := p_in_flight (update_first (λ flight, bool_decide (if_request flight = sp_id prompt))
                          (mark_denied (sp_id prompt) approved) (pd_in_flight p)) p in
  answer_step now p.
Definition take_shown_prompt (now : Z) (approved : bool) (m : Model) : option SecretPrompt * Model :=
  match md_foreground m, shown_prompt m with
  | Some id, Some prompt =>
      (Some prompt,
       tidy_procedures (change_procedure id (answer_shown now prompt approved) (reset_scroll m)))
  | _, _ => (None, m)
  end.

Definition expired (now : Z) (prompt : SecretPrompt) : bool :=
  is_some_and (λ deadline, deadline <=? now) (sp_deadline prompt).
Definition expire_prompts (now : Z) (m : Model) : bool * Model :=
  let ids := sp_id <$> filter (λ prompt, expired now prompt = true) (mjoin (pd_prompts <$> md_procedures m)) in
  (negb (bool_decide (ids = [])),
   foldl (λ m id, (prompt_missed now id SoTimedOut
                     ("no answer within " +:+ dec (as_secs DECISION_TIMEOUT) +:+ " s") m).2) m ids).

Definition without_deadline (prompt : SecretPrompt) : SecretPrompt :=
  {| sp_id := sp_id prompt; sp_values := sp_values prompt; sp_identity := sp_identity prompt;
     sp_requester := sp_requester prompt; sp_parent := sp_parent prompt; sp_reason := sp_reason prompt;
     sp_ssh_signature := sp_ssh_signature prompt; sp_ssh_login := sp_ssh_login prompt;
     sp_artifact_signature := sp_artifact_signature prompt; sp_closure_signature := sp_closure_signature prompt;
     sp_deadline := None; sp_procedure := sp_procedure prompt; sp_confirmation := sp_confirmation prompt |}.
Definition flight_without_deadline (request : string) (flight : InFlight) : InFlight :=
  if bool_decide (if_request flight = request)
  then {| if_request := if_request flight; if_step := if_step flight; if_kind := if_kind flight;
          if_denied := if_denied flight; if_deadline := None |}
  else flight.
Definition stop_countdown (request : string) (p : Procedure) : Procedure :=
  let prompts := match pd_prompts p with
                 | prompt :: prompts => without_deadline prompt :: prompts
                 | [] => []
                 end in
  p_in_flight (flight_without_deadline request <$> pd_in_flight p) (p_prompts prompts p).
(** [Model::cancel_countdown]. *)
Definition cancel_countdown (m : Model) : option string * Model :=
  match md_foreground m, shown_prompt m with
  | Some id, Some prompt =>
      if is_some (sp_deadline prompt)
      then (Some (sp_id prompt), change_procedure id (stop_countdown (sp_id prompt)) m)
      else (None, m)
  | _, _ => (None, m)
  end.

(** ** The task bar *)
Definition park (p : Procedure) : Procedure :=
  let p := p_flashing false (p_minimised true p) in
  if has_result true p && negb (succeeded_with_warnings p) then p_between None p else p.

(** An unfinished review of host changes starts again once restored. *)
Definition forget_unseen (request : ApprovalRequest) (m : Model) : Model :=
  match md_host_review m with
  | Some (token, seen) =>
      if negb seen && bool_decide (ar_host_mutation_token request = Some token) then m_host_review None m else m
  | None => m
  end.
Definition park_approval (id : string) (m : Model) : Model :=
  match md_mode m with
  | MApproval request =>
      if approval_of id request then
        let m := forget_unseen request (m_mode MBrowse m) in
        m_pending_approvals (request :: md_pending_approvals m) m
      else m
  | _ => m
  end.

Definition minimise (m : Model) : bool * Model :=
  let m :=
    match md_foreground m, md_mode m with
    | None, MApproval request =>
        let id := approval_procedure request in
        m_foreground (Some id) (ensure_procedure id ("Deploy " +:+ ar_target request) (ar_procedure request) m)
    | _, _ => m
    end in
  match md_foreground m with
  | None => (false, m)
  | Some id =>
      if negb (is_some (shown_prompt m)) && negb (approval_open m id) && negb (is_some (between_shown m))
      then (false, m)
      else
        let m := change_procedure id park (park_approval id m) in
        (true, tidy_procedures (m_modal_scroll 0 (reset_scroll (m_foreground None m))))
  end.

(** ** Notices and approvals *)
Definition push_notice (text : string) (severity : NoticeSeverity) (m : Model) : Model :=
  let notice := {| nt_text := text; nt_severity := severity |} in
  let queue := m_notifications (md_notifications m ++ [notice]) m in
  if bool_decide (md_message m = Some notice) || bool_decide (last (md_notifications m) = Some notice) then m
  else
    let typing := bool_decide (severity = NsInfo) && match md_mode m with MEdit _ _ => true | _ => false end in
    match md_message m with
    | Some displaced =>
        if is_browse (md_mode m) && bool_decide (severity = NsFailure)
           && bool_decide (nt_severity displaced = NsInfo)
        then m_message (Some notice) (m_notifications (displaced :: md_notifications m) m)
        else queue
    | None => if negb (is_approval (md_mode m)) && negb typing then m_message (Some notice) m else queue
    end.
Definition inform (text : string) (m : Model) : Model := push_notice text NsInfo m.
(** [Model::fail]. *)
Definition report_failure (text : string) (m : Model) : Model := push_notice text NsFailure m.

(** [VecDeque::pop_front] of the notices. *)
Definition next_notice (m : Model) : Model :=
  match md_notifications m with
  | notice :: rest => m_message (Some notice) (m_notifications rest m)
  | [] => m_message None m
  end.

(** The first approval of the procedure in the foreground, and the others. *)
Fixpoint take_approval (id : string) (requests : list ApprovalRequest)
  : option (ApprovalRequest * list ApprovalRequest) :=
  match requests with
  | [] => None
  | request :: requests =>
      if approval_of id request then Some (request, requests)
      else '(found, others) ← take_approval id requests; Some (found, request :: others)
  end.
Definition foreground_approval (m : Model) : option (ApprovalRequest * list ApprovalRequest) :=
  p ← front_procedure m; take_approval (pd_id p) (md_pending_approvals m).

Definition hide_notice (m : Model) : Model :=
  match md_message m with
  | Some notice => m_notifications (notice :: md_notifications m) (m_message None m)
  | None => m
  end.
Definition show_pending_approval (m : Model) : Model :=
  let m := tidy_procedures m in
  if negb (is_browse (md_mode m)) then m
  else
    match md_pending_dialogs m, foreground_approval m with
    | dialog :: dialogs, _ => m_mode dialog (m_pending_dialogs dialogs (hide_notice m))
    | [], Some (request, others) => m_mode (MApproval request) (m_pending_approvals others (hide_notice m))
    | [], None => if is_some (md_message m) then m else next_notice m
    end.

Definition acknowledge (m : Model) : Model := show_pending_approval (m_modal_scroll 0 (next_notice m)).

Definition apply_task_status (request : ApprovalRequest) (v : View) : View :=
  foldl (λ v task,
    with_rows (update_first (λ row, bool_decide (rw_path row = Some (ta_identifier task)))
                 (λ row, mark_output (ta_output_is_set task) (mark (ta_input_is_set task) row)) (vw_rows v)) v)
    v (ar_tasks request).

Definition same_request (a b : ApprovalRequest) : bool := bool_decide (ar_id a = ar_id b).
(** A stale trust stage must not replace an already advanced final stage. *)
Definition advance_queued (request queued : ApprovalRequest) : ApprovalRequest :=
  if (approval_stage queued <? approval_stage request)
     || ((approval_stage request =? approval_stage queued)
         && bool_decide (ar_host_mutation_token request = ar_host_mutation_token queued))
  then request else queued.
Definition enqueue_approval (request : ApprovalRequest) (m : Model) : Model :=
  show_pending_approval
    (arrive (approval_procedure request) (m_pending_approvals (md_pending_approvals m ++ [request]) m)).

Definition offer_approval (request : ApprovalRequest) (m : Model) : Model :=
  if bt_contains (ar_id request) (md_completed_approvals m) then m
  else
    let m := m_view (apply_task_status request (md_view m)) m in
    let id := approval_procedure request in
    let m := ensure_procedure id ("Deploy " +:+ ar_target request) (ar_procedure request) m in
    let m := change_procedure id (λ p, p_between None (p_awaiting_deployment false p)) m in
    if existsb (same_request request) (md_pending_approvals m)
    then show_pending_approval
           (m_pending_approvals
              (update_first (same_request request) (advance_queued request) (md_pending_approvals m)) m)
    else
      match md_mode m with
      | MApproval current =>
          if same_request request current
          then if approval_stage current <? approval_stage request then m_mode (MApproval request) m else m
          else enqueue_approval request m
      | _ => enqueue_approval request m
      end.

Definition finish_approval (request : string) (m : Model) : Model :=
  let m := m_completed_approvals (bs_insert request (md_completed_approvals m)) m in
  let m := m_pending_approvals (filter (λ r, ar_id r ≠ request) (md_pending_approvals m)) m in
  let m := match md_mode m with
           | MApproval open => if bool_decide (ar_id open = request) then m_mode MBrowse m else m
           | _ => m
           end in
  tidy_procedures m.

(** ** Restoring *)
Definition is_procedure_dialog (m : Model) : bool :=
  is_some (shown_prompt m) || is_some (between_shown m) || is_approval (md_mode m).

(** [stE] with the refusal as its error: what [minimise] did before it stays. *)
Definition restore (id : string) (m : Model) : result string unit * Model :=
  if negb (is_some (procedure m id)) then (Err "that procedure has finished", m)
  else if negb (is_browse (md_mode m)) && negb (is_approval (md_mode m)) && negb (is_procedure_dialog m)
  then (Err "close the open dialog before restoring a procedure", m)
  else
    let other := negb (bool_decide (md_foreground m = Some id)) in
    let m := if other then (minimise m).2 else m in
    if other && is_approval (md_mode m) then (Err "answer the open deployment request first", m)
    else if other && negb (is_some (procedure m id)) then (Err "that procedure has finished", m)
    else
      let m := change_procedure id to_front (m_foreground (Some id) m) in
      let m := m_modal_scroll 0 (reset_scroll m) in
      (Ok tt, if is_some (shown_prompt m) then m else show_pending_approval m).

(** The positions [restore_next] looks at, the current one last. *)
Definition restore_order (current : option nat) (count : nat) : list nat :=
  (λ offset, (default (count - 1)%nat current + offset) mod Nat.max count 1)%nat <$> seq 1 count.
Definition restore_next (m : Model) : result string unit * Model :=
  let current := id ← md_foreground m; find_position (has_id id) (md_procedures m) in
  let waiting := λ index, is_some_and (procedure_waiting m) (md_procedures m !! index) in
  let candidates :=
    filter (λ index, negb (bool_decide (Some index = current)) && waiting index = true)
      (restore_order current (length (md_procedures m))) in
  let flashes := λ index, is_some_and pd_flashing (md_procedures m !! index) in
  let next := match List.find flashes candidates with Some index => Some index | None => head candidates end in
  match index ← next; md_procedures m !! index with
  | Some p => restore (pd_id p) m
  | None => (Err "no other procedure waits for you", m)
  end.

(** ** The connection *)
Definition connection_lost (m : Model) : Model :=
  let drop p := p_in_flight (filter (λ flight, if_kind flight = SkDeployment) (pd_in_flight p)) (p_prompts [] p) in
  tidy_procedures (reset_scroll (m_procedures (drop <$> md_procedures m) m)).

Definition procedures_synced (live : list string) (m : Model) : Model :=
  let gone := pd_id <$> filter (λ p, negb (pd_implicit p) && negb (pd_ended p)
                                      && negb (bool_decide (pd_id p ∈ live)) = true) (md_procedures m) in
  tidy_procedures (foldl (λ m id, procedure_ended id None m) m gone).

Definition flash_tick (now : Z) (m : Model) : bool * Model :=
  if sat_sub now (md_flash_since m) <? FLASH_PERIOD then (false, m)
  else
    let m := m_flash_on (negb (md_flash_on m)) (m_flash_since now m) in
    (existsb pd_flashing (md_procedures m), m).

(** ** Scrolling and reading *)
Definition scrolled (m : Model) (scroll : Z) (down : bool) : Z :=
  let limit := md_scroll_limit m in
  let scroll := Z.min scroll limit in
  if down then Z.min (Z.min u16_max (scroll + 1)) limit else sat_sub scroll 1.

Definition host_review_at_end (m : Model) (batch : string) : bool :=
  let limit := md_scroll_limit m in
  let scroll := match md_host_review m with
                | Some (token, _) => if bool_decide (token = batch) then md_modal_scroll m else 0
                | None => 0
                end in
  bool_decide (md_host_review_rendered m = Some batch) && negb (limit =? u16_max) && (limit <=? scroll).
Definition host_review_seen (m : Model) (batch : string) : bool :=
  bool_decide (md_host_review m = Some (batch, true)) || host_review_at_end m batch.

(** ** Values *)
Definition begin_value (value : list Z) (m : Model) : Model :=
  match row ← selected (md_view m); rw_path row with
  | Some path => m_mode (MEdit path value) m
  | None => m
  end.
Definition mark_saved (path : string) (m : Model) : Model :=
  inform ("saved " +:+ path) (m_mode MBrowse (m_view (set_row path true (md_view m)) m)).
Definition mark_deleted (path : string) (m : Model) : Model :=
  inform ("deleted " +:+ path) (m_mode MBrowse (m_view (set_row path false (md_view m)) m)).

Definition open_deploy_picker (m : Model) : Model :=
  let hosts := deploy_hosts (md_view m) in
  if bool_decide (hosts = []) then inform "the evaluated schema has no hosts to deploy" m
  else
    let selected := host ← selected_host (md_view m); find_position (λ h, bool_decide (h = host)) hosts in
    m_mode (MDeployHost (default 0%nat selected)) m.
