(* ===== verification/TuiFacts.v ===== *)
(** * What the TUI keeps

    Over every sequence of operations of Tui.v: procedures are told apart by
    their ids, the one in front exists and is not in the task bar, prompts and
    approvals are neither lost nor multiplied, what is on screen is not replaced
    by what arrives, and failures stay until they are acknowledged. *)
From S2P Require Import Prelude BTree Text Paths Schema Procedure Requests Store Git Profiles Rows Tui.
#[local] Open Scope Z_scope.

(** ** Lists of procedures *)
Definition ids (l : list Procedure) : list string := pd_id <$> l.
(** [f] applied to the procedure [id]. *)
Definition on (id : string) (f : Procedure → Procedure) (p : Procedure) : Procedure :=
  if bool_decide (pd_id p = id) then f p else p.

Class KeepsId (f : Procedure → Procedure) : Prop := keeps_id : ∀ p, pd_id (f p) = pd_id p.

Lemma update_first_absent {A} (p : A → bool) f l :
  (∀ x, x ∈ l → p x = false) → update_first p f l = l.
Proof.
  induction l as [|x l IH]; intros H; [done|]. cbn. rewrite (H x) by left.
  f_equal. apply IH. intros y Hy. apply H. by right.
Qed.

Lemma update_first_on id f l : NoDup (ids l) → update_first (has_id id) f l = on id f <$> l.
Proof.
  induction l as [|p l IH]; [done|]. intros [Hp Hl]%NoDup_cons.
  cbn [update_first fmap list_fmap]. unfold has_id at 1, on at 1. case_bool_decide as E.
  - f_equal. subst id. clear IH Hl. induction l as [|q l IH]; [done|].
    cbn [fmap list_fmap ids] in *. rewrite not_elem_of_cons in Hp. destruct Hp as [Hq Hp].
    unfold on at 1. rewrite bool_decide_false by done. f_equal. by apply IH.
  - f_equal. by apply IH.
Qed.

Lemma alter_on i f l p : NoDup (ids l) → l !! i = Some p → alter f i l = on (pd_id p) f <$> l.
Proof.
  intros Hn Hi. apply list_eq. intros j. rewrite list_lookup_fmap. destruct (decide (i = j)) as [<-|Hne].
  - rewrite list_lookup_alter_eq, Hi. change (Some (f p) = Some (on (pd_id p) f p)).
    unfold on. by rewrite bool_decide_eq_true_2.
  - rewrite list_lookup_alter_ne by done. destruct (l !! j) as [q|] eqn:Ej; [|done]. cbn. unfold on.
    rewrite bool_decide_false; [done|]. intros Eq. apply Hne.
    eapply (NoDup_lookup (ids l)); [done|..]; unfold ids; rewrite list_lookup_fmap; [by rewrite Hi|].
    rewrite Ej. cbn. by rewrite Eq.
Qed.

Lemma ids_on id f l `{!KeepsId f} : ids (on id f <$> l) = ids l.
Proof.
  unfold ids. rewrite <- list_fmap_compose. apply list_fmap_ext. intros i p _. unfold compose, on.
  case_bool_decide; [apply keeps_id|done].
Qed.

Lemma on_same id f p : pd_id p = id → on id f p = f p.
Proof. intros <-. unfold on. by rewrite bool_decide_eq_true_2. Qed.
Lemma on_other id f p : pd_id p ≠ id → on id f p = p.
Proof. intros H. unfold on. by rewrite bool_decide_eq_false_2. Qed.
Lemma on_on id f g (l : list Procedure) `{!KeepsId f} : on id g <$> (on id f <$> l) = on id (g ∘ f) <$> l.
Proof.
  rewrite <- list_fmap_compose. apply list_fmap_ext. intros i p _. unfold compose.
  destruct (decide (pd_id p = id)) as [E|E].
  - rewrite (on_same id f p), (on_same id (λ p, g (f p)) p) by done. apply on_same. by rewrite keeps_id.
  - by rewrite !on_other by (rewrite ?on_other by done; done).
Qed.

Lemma find_elem {A} (p : A → bool) l x : List.find p l = Some x → x ∈ l ∧ p x = true.
Proof. intros [Hx Hp]%List.find_some. split; [by apply list_elem_of_In|done]. Qed.
Lemma find_None {A} (p : A → bool) l : List.find p l = None ↔ ∀ x, x ∈ l → p x = false.
Proof.
  split.
  - intros H x Hx. apply list_elem_of_In in Hx. by apply (List.find_none p l H).
  - intros H. destruct (List.find p l) as [x|] eqn:E; [|done].
    apply find_elem in E as [Hx Hp]. by rewrite (H x Hx) in Hp.
Qed.

Lemma same_id l p q : NoDup (ids l) → p ∈ l → q ∈ l → pd_id p = pd_id q → p = q.
Proof.
  intros Hn [i Hi]%list_elem_of_lookup [j Hj]%list_elem_of_lookup E.
  assert (i = j) as <-; [|congruence].
  apply (NoDup_lookup (ids l) i j (pd_id p)); [done|..]; unfold ids; rewrite list_lookup_fmap.
  - by rewrite Hi.
  - rewrite Hj. cbn. by rewrite E.
Qed.

Lemma procedure_Some m id p :
  NoDup (ids (md_procedures m)) → procedure m id = Some p ↔ p ∈ md_procedures m ∧ pd_id p = id.
Proof.
  intros Hn. unfold procedure. split.
  - intros [Hp Hi]%find_elem. unfold has_id in Hi. bool_prop. done.
  - intros [Hp <-]. destruct (List.find _ _) as [q|] eqn:E.
    + apply find_elem in E as [Hq Hi]. unfold has_id in Hi. bool_prop. f_equal.
      apply (same_id (md_procedures m)); congruence.
    + rewrite find_None in E. specialize (E p Hp). unfold has_id in E. by bool_prop.
Qed.

(** Reads fields of a model or a procedure that was just written. *)
Ltac fields := cbn [m_view m_mode m_message m_modal_scroll m_scroll_limit m_host_review m_host_review_rendered m_hover m_notifications m_pending_approvals m_completed_approvals m_pending_dialogs m_activity m_autosave_unset_on_paste m_commit_draft m_procedures m_foreground m_flash_on m_flash_since m_spinner_due m_backend_problem m_secret_scroll m_secret_details m_confirmation_typed m_approval_details md_view md_mode md_message md_modal_scroll md_scroll_limit md_host_review md_host_review_rendered md_hover md_notifications md_pending_approvals md_completed_approvals md_pending_dialogs md_activity md_autosave_unset_on_paste md_commit_draft md_procedures md_foreground md_flash_on md_flash_since md_spinner_due md_backend_problem md_secret_scroll md_secret_details md_confirmation_typed md_approval_details p_id p_title p_step p_prompts p_minimised p_flashing p_implicit p_ended p_awaiting_deployment p_in_flight p_finished p_between p_exit_code p_reported_failure pd_id pd_title pd_step pd_prompts pd_minimised pd_flashing pd_implicit pd_ended pd_awaiting_deployment pd_in_flight pd_finished pd_between pd_exit_code pd_reported_failure] in *.

Lemma change_procedure_on id f m :
  NoDup (ids (md_procedures m)) → change_procedure id f m = m_procedures (on id f <$> md_procedures m) m.
Proof. intros H. unfold change_procedure. by rewrite update_first_on. Qed.

Lemma elem_on id f (l : list Procedure) (q : Procedure) : q ∈ on id f <$> l ↔ ∃ p, p ∈ l ∧ q = on id f p.
Proof. rewrite list_elem_of_fmap. naive_solver. Qed.

(** ** The invariant *)
Record tui_ok (m : Model) : Prop := {
  ok_ids : NoDup (ids (md_procedures m));
  ok_front : ∀ id, md_foreground m = Some id →
    ∃ p, p ∈ md_procedures m ∧ pd_id p = id ∧ pd_minimised p = false;
  ok_pending : ∀ r, r ∈ md_pending_approvals m → approval_procedure r ∈ ids (md_procedures m);
  ok_prompts : ∀ p x, p ∈ md_procedures m → x ∈ pd_prompts p → prompt_procedure x = pd_id p
}.

Lemma ok_same m m' :
  md_procedures m' = md_procedures m → md_foreground m' = md_foreground m →
  md_pending_approvals m' = md_pending_approvals m → tui_ok m → tui_ok m'.
Proof. intros Hp Hf Ha [H1 H2 H3 H4]. split; rewrite ?Hp, ?Hf, ?Ha; done. Qed.

Lemma ok_new now rows : tui_ok (model_new now rows).
Proof. split; cbn; [constructor|done|..]; intros; set_solver. Qed.

Lemma ids_map (g : Procedure → Procedure) l `{!KeepsId g} : ids (g <$> l) = ids l.
Proof.
  unfold ids. rewrite <- list_fmap_compose. apply list_fmap_ext. intros i p _. apply keeps_id.
Qed.

Lemma ok_map (g : Procedure → Procedure) `{!KeepsId g} m :
  (∀ p, p ∈ md_procedures m → md_foreground m = Some (pd_id p) → pd_minimised p = false →
        pd_minimised (g p) = false) →
  (∀ p x, p ∈ md_procedures m → x ∈ pd_prompts (g p) → x ∈ pd_prompts p ∨ prompt_procedure x = pd_id p) →
  tui_ok m → tui_ok (m_procedures (g <$> md_procedures m) m).
Proof.
  intros Hm Hx [H1 H2 H3 H4]. split; fields.
  - by rewrite ids_map.
  - intros id Hid. destruct (H2 id Hid) as (p & Hp & <- & Hmin). exists (g p).
    split; [by apply list_elem_of_fmap_2|]. split; [apply keeps_id|by apply Hm].
  - rewrite ids_map by done. apply H3.
  - intros q x (p & -> & Hp)%list_elem_of_fmap Hq. rewrite keeps_id.
    destruct (Hx p x Hp Hq) as [?|?]; [by eapply H4|done].
Qed.

Lemma tui_ok_change id f `{!KeepsId f} m :
  (∀ p, p ∈ md_procedures m → md_foreground m = Some id → pd_id p = id → pd_minimised p = false →
        pd_minimised (f p) = false) →
  (∀ p x, p ∈ md_procedures m → pd_id p = id → x ∈ pd_prompts (f p) →
          x ∈ pd_prompts p ∨ prompt_procedure x = id) →
  tui_ok m → tui_ok (change_procedure id f m).
Proof.
  intros Hm Hx Hok. rewrite change_procedure_on by apply Hok. apply ok_map; [|..|done].
  - intros p. unfold on. case_bool_decide; [apply keeps_id|done].
  - intros p Hp Hf Hmin. unfold on. case_bool_decide as E; [|done]. subst id. by apply Hm.
  - intros p x Hp. unfold on. case_bool_decide as E; [|by left]. intros Hin. subst id. by apply Hx.
Qed.

(** A change that leaves prompts alone and does not fill the task bar. *)
Class Quiet (f : Procedure → Procedure) : Prop := {
  #[global] quiet_id :: KeepsId f;
  quiet_minimised : ∀ p, pd_minimised p = false → pd_minimised (f p) = false;
  quiet_prompts : ∀ p, pd_prompts (f p) = pd_prompts p
}.
Lemma ok_quiet id f `{!Quiet f} m : tui_ok m → tui_ok (change_procedure id f m).
Proof.
  apply tui_ok_change; [apply quiet_id|intros; by apply quiet_minimised|].
  intros p x _ _. rewrite quiet_prompts. by left.
Qed.
Lemma ok_quiet_map g `{!Quiet g} m : tui_ok m → tui_ok (m_procedures (g <$> md_procedures m) m).
Proof.
  apply ok_map; [apply quiet_id|intros; by apply quiet_minimised|].
  intros p x _. rewrite quiet_prompts. by left.
Qed.

(** ** Tidying *)
Definition gone (m : Model) : list string := pd_id <$> filter (λ p, over m p = true) (md_procedures m).
Lemma tidy_procs m : md_procedures (tidy_procedures m) = filter (λ p, pd_id p ∉ gone m) (md_procedures m).
Proof. unfold tidy_procedures. case_match; reflexivity. Qed.

Lemma tidy_elem m p :
  NoDup (ids (md_procedures m)) →
  p ∈ md_procedures (tidy_procedures m) ↔ p ∈ md_procedures m ∧ over m p = false.
Proof.
  intros Hn. rewrite tidy_procs, list_elem_of_filter. unfold gone. rewrite list_elem_of_fmap.
  setoid_rewrite list_elem_of_filter. split.
  - intros [Hg Hp]. split; [done|]. apply not_true_is_false. intros Ho. apply Hg. by exists p.
  - intros [Hp Ho]. split; [|done]. intros (q & E & Hoq & Hq).
    rewrite (same_id _ p q Hn Hp Hq E) in Ho. congruence.
Qed.

Lemma tidy_ids m id : id ∈ ids (md_procedures (tidy_procedures m)) → id ∈ ids (md_procedures m).
Proof.
  unfold ids. rewrite tidy_procs, !list_elem_of_fmap. intros (p & -> & [_ Hp]%list_elem_of_filter). by exists p.
Qed.
Lemma tidy_nodup m : NoDup (ids (md_procedures m)) → NoDup (ids (md_procedures (tidy_procedures m))).
Proof.
  intros Hn. rewrite tidy_procs. unfold ids in *. eapply sublist_NoDup; [done|].
  apply fmap_sublist, sublist_filter.
Qed.

Lemma over_not_waiting m p : over m p = true → procedure_waiting m p = false.
Proof. unfold over. intros H. bool_prop. tauto. Qed.
Lemma waiting_approval m p r :
  r ∈ md_pending_approvals m → approval_procedure r = pd_id p → procedure_waiting m p = true.
Proof.
  intros Hr E. unfold procedure_waiting. bool_prop. left. right. apply existsb_exists.
  exists r. split; [by apply list_elem_of_In|]. unfold approval_of. by bool_prop.
Qed.

Lemma tidy_front m id : md_foreground (tidy_procedures m) = Some id →
  md_foreground m = Some id ∧ id ∈ ids (md_procedures (tidy_procedures m)).
Proof.
  intros H. rewrite tidy_procs. unfold tidy_procedures in H. fold (gone m) in H. fields.
  case_match eqn:E; fields; [done|]. split; [done|].
  rewrite H in E. cbn in E. bool_prop. unfold is_some in E. case_match eqn:Ep; [|done].
  unfold procedure in Ep. fields. apply find_elem in Ep as [Hp Hi]. unfold has_id in Hi. bool_prop.
  subst id. by apply list_elem_of_fmap_2.
Qed.

Lemma ok_tidy m : tui_ok m → tui_ok (tidy_procedures m).
Proof.
  intros [H1 H2 H3 H4]. split.
  - by apply tidy_nodup.
  - intros id [Hf Hid]%tidy_front. destruct (H2 id Hf) as (p & Hp & <- & Hmin).
    unfold ids in Hid. apply list_elem_of_fmap in Hid as (q & E & Hq).
    exists q. rewrite tidy_elem in Hq by done. destruct Hq as [Hq Ho].
    rewrite (same_id _ p q H1 Hp Hq E) in *. by rewrite tidy_elem.
  - intros r Hr. assert (r ∈ md_pending_approvals m) as Hr'.
    { unfold tidy_procedures in Hr. by case_match. }
    pose proof (H3 r Hr') as (p & E & Hp)%list_elem_of_fmap. rewrite E. apply list_elem_of_fmap_2.
    rewrite tidy_elem by done. split; [done|]. apply not_true_is_false. intros Ho%over_not_waiting.
    by rewrite (waiting_approval m p r) in Ho.
  - intros p x Hp. rewrite tidy_elem in Hp by done. destruct Hp as [Hp _]. by apply H4.
Qed.

(** ** Asking *)
#[export] Instance take_step_quiet step : Quiet (take_step step).
Proof. split; intros p; unfold take_step; by case_match. Qed.

Lemma ok_append p m :
  tui_ok m → pd_id p ∉ ids (md_procedures m) → pd_prompts p = [] →
  tui_ok (m_procedures (md_procedures m ++ [p]) m).
Proof.
  intros [H1 H2 H3 H4] Hn Hp. split; fields; unfold ids in *; rewrite ?fmap_app.
  - apply NoDup_app. repeat split; [done|set_solver|apply NoDup_singleton].
  - intros id Hid. destruct (H2 id Hid) as (q & Hq & ?). exists q. set_solver.
  - intros r Hr. specialize (H3 r Hr). set_solver.
  - intros q x [Hq|Hq%list_elem_of_singleton]%elem_of_app; [by apply H4|]. subst q. rewrite Hp. set_solver.
Qed.

Lemma procedure_None m id : procedure m id = None ↔ id ∉ ids (md_procedures m).
Proof.
  unfold procedure. rewrite find_None. unfold has_id, ids. rewrite list_elem_of_fmap. split.
  - intros H (p & -> & Hp). specialize (H p Hp). by bool_prop.
  - intros H p Hp. apply bool_decide_eq_false. intros <-. apply H. by exists p.
Qed.
Lemma procedure_is_Some m id : is_some (procedure m id) = true ↔ id ∈ ids (md_procedures m).
Proof.
  destruct (procedure m id) as [p|] eqn:E; cbn.
  - split; [intros _|done]. unfold procedure in E. apply find_elem in E as [Hp Hi].
    unfold has_id in Hi. bool_prop. subst id. by apply list_elem_of_fmap_2.
  - apply procedure_None in E. split; [done|]. intros ?. done.
Qed.

(** The procedures after [ensure_procedure], with the new one if there is one. *)
Definition ensured (id title : string) (step : option ProcedureStep) (m : Model) : list Procedure :=
  md_procedures m ++
  (if is_some (procedure m id) then []
   else [procedure_new id (from_option ps_title title step) (negb (is_some step))]).

Lemma ensured_id id title step m : id ∈ ids (ensured id title step m).
Proof.
  unfold ensured, ids. rewrite fmap_app, elem_of_app.
  destruct (is_some (procedure m id)) eqn:E; [left; by apply procedure_is_Some in E|]. right. cbn. set_solver.
Qed.
Lemma ok_ensured id title step m : tui_ok m → tui_ok (m_procedures (ensured id title step m) m).
Proof.
  intros Hok. unfold ensured. destruct (is_some (procedure m id)) eqn:E.
  - eapply ok_same; [..|exact Hok]; [|done|done]. fields. by rewrite app_nil_r.
  - apply ok_append; [done| |done]. cbn. apply procedure_None. by destruct (procedure m id).
Qed.
Lemma ensure_procs id title step m : tui_ok m →
  md_procedures (ensure_procedure id title step m) =
  (match step with Some step => on id (take_step step) | None => λ p, p end) <$> ensured id title step m.
Proof.
  intros Hok. unfold ensure_procedure.
  assert (Hm : (if is_some (procedure m id) then m
           else m_procedures (md_procedures m
                  ++ [procedure_new id (from_option ps_title title step) (negb (is_some step))]) m)
    = m_procedures (ensured id title step m) m).
  { unfold ensured. case_match; [|done]. rewrite app_nil_r. by destruct m. }
  rewrite Hm. destruct step as [step|].
  - rewrite change_procedure_on by apply (ok_ensured id title (Some step) m Hok). done.
  - fields. by rewrite list_fmap_id.
Qed.
Lemma ensure_ids id title step m : tui_ok m →
  ids (md_procedures (ensure_procedure id title step m)) = ids (ensured id title step m).
Proof.
  intros Hok. rewrite ensure_procs by done. destruct step; [apply ids_on, _|]. by rewrite list_fmap_id.
Qed.
Lemma ensure_frame id title step m :
  ∃ l, ensure_procedure id title step m = m_procedures l m.
Proof.
  exists (md_procedures (ensure_procedure id title step m)).
  unfold ensure_procedure, change_procedure. destruct m. by repeat case_match.
Qed.
Lemma ok_ensure id title step m : tui_ok m → tui_ok (ensure_procedure id title step m).
Proof.
  intros Hok. unfold ensure_procedure.
  destruct (is_some (procedure m id)) eqn:E.
  - case_match; [apply ok_quiet; [apply _|done]|done].
  - assert (tui_ok (m_procedures (md_procedures m
       ++ [procedure_new id (from_option ps_title title step) (negb (is_some step))]) m)) as H.
    { apply ok_append; [done| |done]. cbn. apply procedure_None. by destruct (procedure m id). }
    case_match; [apply ok_quiet; [apply _|done]|done].
Qed.

Lemma ok_to_front id m :
  id ∈ ids (md_procedures m) → tui_ok m →
  tui_ok (change_procedure id to_front (m_foreground (Some id) m)).
Proof.
  intros Hid [H1 H2 H3 H4]. rewrite change_procedure_on by done. fields.
  assert (KeepsId to_front) by done. split; fields.
  - by rewrite ids_on by done.
  - intros ? [= <-]. unfold ids in Hid. apply list_elem_of_fmap in Hid as (p & -> & Hp).
    exists (on (pd_id p) to_front p). split; [by apply list_elem_of_fmap_2|].
    unfold on. by rewrite bool_decide_eq_true_2.
  - rewrite ids_on by done. done.
  - intros q x (p & Hp & ->)%elem_on. unfold on. case_bool_decide; cbn; by apply H4.
Qed.

Lemma ok_to_task_bar id m :
  md_foreground m ≠ Some id → tui_ok m → tui_ok (change_procedure id to_task_bar m).
Proof. intros Hf. apply tui_ok_change; [done|done|]. intros p x _ _. by left. Qed.

Lemma ok_no_front m : tui_ok m → tui_ok (m_foreground None m).
Proof. intros [H1 H2 H3 H4]. by split. Qed.

Lemma ok_reset m : tui_ok m → tui_ok (reset_scroll m).
Proof. by apply ok_same. Qed.

Lemma ok_arrive id m : id ∈ ids (md_procedures m) → tui_ok m → tui_ok (arrive id m).
Proof.
  intros Hid Hok. unfold arrive. cbv zeta. case_match; [done|]. case_match.
  - apply ok_tidy, ok_reset. by apply ok_to_front.
  - case_decide as Hf.
    + apply ok_to_task_bar; [done|]. by apply ok_no_front.
    + by apply ok_to_task_bar.
Qed.

Lemma change_ids id f m `{!KeepsId f} :
  NoDup (ids (md_procedures m)) → ids (md_procedures (change_procedure id f m)) = ids (md_procedures m).
Proof. intros Hn. rewrite change_procedure_on by done. fields. by apply ids_on. Qed.

#[export] Instance ask_keeps prompt : KeepsId (ask prompt).
Proof. intros p. unfold ask. by repeat case_match. Qed.
Lemma ask_prompts prompt p : pd_prompts (ask prompt p) = pd_prompts p ++ [prompt].
Proof. unfold ask. by repeat case_match. Qed.
Lemma ask_minimised prompt p : pd_minimised (ask prompt p) = pd_minimised p.
Proof. unfold ask. by repeat case_match. Qed.

Lemma ok_offer_prompt prompt m : tui_ok m → tui_ok (offer_prompt prompt m).
Proof.
  intros Hok. unfold offer_prompt. cbv zeta.
  set (step := if is_some (sp_confirmation prompt) && _ then None else _).
  set (m1 := ensure_procedure _ _ step m). assert (tui_ok m1) as Hok1 by by apply ok_ensure.
  assert (tui_ok (change_procedure (prompt_procedure prompt) (ask prompt) m1)) as Hok2.
  { apply tui_ok_change; [..|done].
    - apply _.
    - intros p _ _ _. by rewrite ask_minimised.
    - intros p x _ _. rewrite ask_prompts. rewrite elem_of_app, list_elem_of_singleton. intros [?| ->]; auto. }
  case_match; [done|]. apply ok_arrive; [|done]. rewrite change_ids; [|apply _|apply Hok1].
  unfold m1. rewrite ensure_ids by done. apply ensured_id.
Qed.

(** ** Ends and outcomes *)
#[export] Instance end_keeps shown code : KeepsId (end_procedure shown code).
Proof. intros p. unfold end_procedure. by repeat case_match. Qed.
Lemma end_prompts shown code p : pd_prompts (end_procedure shown code p) = pd_prompts p.
Proof. unfold end_procedure. by repeat case_match. Qed.

(** The front after a procedure may have gone to the task bar. *)
Lemma ok_front_checked id f m `{!KeepsId f} :
  (∀ p, pd_prompts (f p) = pd_prompts p) → tui_ok m →
  let m1 := change_procedure id f m in
  tui_ok (if bool_decide (md_foreground m1 = Some id) && is_some_and pd_minimised (procedure m1 id)
          then m_foreground None m1 else m1).
Proof.
  intros Hx Hok m1.
  assert (NoDup (ids (md_procedures m1))) as Hn by (unfold m1; rewrite change_ids; [apply Hok|done|apply Hok]).
  assert (md_procedures m1 = on id f <$> md_procedures m) as E
    by (unfold m1; rewrite change_procedure_on by apply Hok; done).
  assert (tui_ok (m_foreground None m1)) as Hnone.
  { unfold m1. assert (tui_ok (m_foreground None m)) as Hok' by by apply ok_no_front.
    eapply ok_same; [..|apply (tui_ok_change id f (m_foreground None m))]; [done..|by intros|by intros; left; rewrite <- Hx|done]. }
  case_match eqn:Ef; [done|]. destruct Hok as [H1 H2 H3 H4]. destruct Hnone as [_ _ N3 N4].
  split; [done| |apply N3|apply N4].
  intros id' Hid'. destruct (H2 id' Hid') as (p & Hp & <- & Hmin). exists (on id f p).
  split; [rewrite E; by apply list_elem_of_fmap_2|].
  unfold on. destruct (decide (pd_id p = id)) as [Eid|Eid]; [rewrite bool_decide_eq_true_2 by done|by rewrite bool_decide_eq_false_2]. split; [apply keeps_id|].
  change (md_foreground m1 = Some (pd_id p)) in Hid'. rewrite Hid', Eid in Ef.
  rewrite bool_decide_eq_true_2 in Ef by done. rewrite andb_true_l in Ef.
  assert (procedure m1 id = Some (f p)) as Ep.
  { rewrite procedure_Some by done. rewrite E. split; [|by rewrite keeps_id].
    apply elem_on. exists p. split; [done|]. unfold on. by rewrite bool_decide_eq_true_2. }
  rewrite Ep in Ef. exact Ef.
Qed.

Lemma ok_procedure_ended id code m : tui_ok m → tui_ok (procedure_ended id code m).
Proof.
  intros Hok. unfold procedure_ended. cbv zeta. apply ok_tidy. apply ok_front_checked; [apply _|apply end_prompts|done].
Qed.

(** What [record_step] makes of the procedure [p] of its index, unless that
    ended and shows its result now. *)
Lemma record_step_cases now index flight outcome text m p :
  NoDup (ids (md_procedures m)) → md_procedures m !! index = Some p →
  (∃ g, record_step now index flight outcome text m = m_procedures (on (pd_id p) g <$> md_procedures m) m
        ∧ (∀ q, pd_id (g q) = pd_id q ∧ pd_prompts (g q) = pd_prompts q)
        ∧ (md_foreground m = Some (pd_id p) → pd_minimised p = false → pd_minimised (g p) = false))
  ∨ record_step now index flight outcome text m
    = procedure_ended (pd_id p) (pd_exit_code p)
        (m_procedures (on (pd_id p) (λ p, p_finished (pd_finished p ++ [finish flight outcome text]) p)
                         <$> md_procedures m) m).
Proof.
  intros Hn Hp. unfold record_step. cbv zeta. fields.
  set (push := λ p, p_finished (pd_finished p ++ [finish flight outcome text]) p).
  rewrite list_lookup_alter_eq, Hp. cbn [fmap option_fmap option_map].
  assert (KeepsId push) as Kpush by done.
  assert (alter push index (md_procedures m) = on (pd_id p) push <$> md_procedures m) as -> by by apply alter_on.
  assert (∀ g l, NoDup (ids l) → l !! index = Some (push p) → alter g index l = on (pd_id p) g <$> l) as Halter.
  { intros g l Hl Hi. by rewrite (alter_on index g l (push p)). }
  assert (NoDup (ids (on (pd_id p) push <$> md_procedures m))) as Hn' by by rewrite ids_on.
  assert ((on (pd_id p) push <$> md_procedures m) !! index = Some (push p)) as Hi'.
  { rewrite list_lookup_fmap, Hp. cbn. unfold on. by rewrite bool_decide_eq_true_2. }
  assert (∀ g, (∀ q, pd_id (g q) = pd_id q ∧ pd_prompts (g q) = pd_prompts q) →
     (md_foreground m = Some (pd_id p) → pd_minimised p = false → pd_minimised (g (push p)) = false) →
     ∃ g', m_procedures (alter g index (on (pd_id p) push <$> md_procedures m))
             (m_procedures (on (pd_id p) push <$> md_procedures m) m)
           = m_procedures (on (pd_id p) g' <$> md_procedures m) m
        ∧ (∀ q, pd_id (g' q) = pd_id q ∧ pd_prompts (g' q) = pd_prompts q)
        ∧ (md_foreground m = Some (pd_id p) → pd_minimised p = false → pd_minimised (g' p) = false)) as Hone.
  { intros g Hg Hm. exists (g ∘ push). rewrite Halter by done. rewrite on_on by done. split; [by destruct m|].
    split; [|done]. intros q. unfold compose. by rewrite !(proj1 (Hg _)), !(proj2 (Hg _)). }
  assert (∃ g', m_procedures (on (pd_id p) push <$> md_procedures m) m
           = m_procedures (on (pd_id p) g' <$> md_procedures m) m
        ∧ (∀ q, pd_id (g' q) = pd_id q ∧ pd_prompts (g' q) = pd_prompts q)
        ∧ (md_foreground m = Some (pd_id p) → pd_minimised p = false → pd_minimised (g' p) = false)) as Hzero.
  { exists push. by repeat split. }
  change (pd_ended (push p)) with (pd_ended p). change (pd_between (push p)) with (pd_between p).
  destruct (pd_ended p).
  { destruct (pd_between p) as [[| |shown result]|]; [| |left; by apply Hone|];
      (case_match; [left; exact Hzero|by right]). }
  case_match; [left; apply Hone|].
  - intros q. by case_match.
  - intros Hf Hm. case_match eqn:E; [|done]. exfalso.
    change (pd_id (push p)) with (pd_id p) in E. change (pd_minimised (push p)) with (pd_minimised p) in E.
    rewrite (bool_decide_eq_true_2 _ Hf), Hm in E. by rewrite andb_false_r in E.
  - destruct (step_reported_failed _); [|left; exact Hzero].
    destruct (failed _); left; [exact Hzero|]. apply Hone.
    + intros q. by case_match.
    + intros _ Hm. by case_match.
Qed.

Lemma record_step_absent now index flight outcome text m :
  md_procedures m !! index = None → record_step now index flight outcome text m = m.
Proof.
  intros H. unfold record_step. cbv zeta. fields. rewrite list_lookup_alter_eq, H. cbn.
  assert (∀ f, alter f index (md_procedures m) = md_procedures m) as ->; [|by destruct m].
  intros f. apply list_eq. intros j. destruct (decide (index = j)) as [<-|Hne].
  - by rewrite list_lookup_alter_eq, H.
  - by rewrite list_lookup_alter_ne.
Qed.

Lemma ok_on id g m :
  (∀ q, pd_id (g q) = pd_id q ∧ pd_prompts (g q) = pd_prompts q) →
  (∀ p, p ∈ md_procedures m → md_foreground m = Some (pd_id p) → pd_id p = id → pd_minimised p = false →
        pd_minimised (g p) = false) →
  tui_ok m → tui_ok (m_procedures (on id g <$> md_procedures m) m).
Proof.
  intros Hg Hm Hok. assert (KeepsId g) as Kg by (intros q; apply Hg).
  rewrite <- change_procedure_on by apply Hok. apply tui_ok_change; [done| | |done].
  - intros p Hp Hf <-. by apply Hm.
  - intros p x _ _. rewrite (proj2 (Hg p)). by left.
Qed.

Lemma ok_record_step now index flight outcome text m :
  tui_ok m → tui_ok (record_step now index flight outcome text m).
Proof.
  intros Hok. destruct (md_procedures m !! index) as [p|] eqn:Hp; [|by rewrite record_step_absent].
  destruct (record_step_cases now index flight outcome text m p (ok_ids _ Hok) Hp) as [(g & -> & Hg & Hm)| ->].
  - apply ok_on; [done| |done]. intros q Hq Hf E Hmin.
    assert (q = p) as ->; [|by apply Hm].
    apply (same_id (md_procedures m)); [apply Hok|done|by eapply list_elem_of_lookup_2|done].
  - apply ok_procedure_ended. by apply ok_on.
Qed.

#[export] Instance correct_report_quiet request step outcome reason known :
  Quiet (correct_report request step outcome reason known).
Proof. split; intros p; unfold correct_report; cbv zeta; by repeat case_match. Qed.

Lemma ok_step_reported now step outcome reason m : tui_ok m → tui_ok (step_reported now step outcome reason m).
Proof.
  intros Hok. unfold step_reported. case_match eqn:Ei; [|done]. cbv zeta. case_match.
  - destruct (md_procedures m !! n) as [p|] eqn:Hp; [|by cbn in *].
    rewrite (alter_on _ _ _ p) by (done || apply Hok). rewrite <- change_procedure_on by apply Hok.
    by apply ok_quiet; [apply _|].
  - by apply ok_tidy, ok_record_step.
Qed.

Lemma ok_procedure_step now step m : tui_ok m → tui_ok (procedure_step now step m).
Proof.
  intros Hok. unfold procedure_step. cbv zeta.
  apply ok_ensure with (id := ps_id step) (title := "") (step := Some step) in Hok.
  revert Hok. generalize (ensure_procedure (ps_id step) "" (Some step) m). clear m. intros m Hok.
  assert (tui_ok (if ps_deployment step then change_procedure (ps_id step) (p_awaiting_deployment true) m else m)) as H.
  { case_match; [|done]. apply ok_quiet; [|done]. by split. }
  revert H. generalize (if ps_deployment step then change_procedure (ps_id step) (p_awaiting_deployment true) m else m).
  clear m Hok. intros m Hok.
  assert (tui_ok match ps_warning step with Some warning => step_reported now step SoWarning warning m | None => m end).
  { destruct (ps_warning step); [by apply ok_step_reported|done]. }
  destruct (ps_failure step); [by apply ok_step_reported|done].
Qed.

Lemma take_flight_quiet request flights flight rest :
  take_flight request flights = Some (flight, rest) → if_request flight = request.
Proof.
  revert rest. induction flights as [|f fs IH]; intros rest H; [done|]. cbn in H. case_bool_decide; [by simplify_eq|].
  destruct (take_flight request fs) as [[f' r']|] eqn:E; [|done]. cbn in H. injection H as -> <-. by eapply IH.
Qed.

(** Taking a step out of flight changes nothing but the flights of one procedure. *)
Lemma take_in_flight_spec request m found m' :
  take_in_flight request m = (found, m') →
  m' = m_procedures (md_procedures m') m
  ∧ Forall2 (λ p q, q = p_in_flight (pd_in_flight q) p) (md_procedures m) (md_procedures m').
Proof.
  assert (∀ l n, match take_in_flight_from request n l with
                 | Some (_, l') => Forall2 (λ p q, q = p_in_flight (pd_in_flight q) p) l l'
                 | None => True
                 end) as Hl.
  { assert (∀ l, Forall2 (λ p q, q = p_in_flight (pd_in_flight q) p) l l) as Hrefl.
    { intros l. apply Forall_Forall2_diag, Forall_forall. by intros [] _. }
    induction l as [|p l IH]; intros n; cbn; [done|].
    destruct (take_flight request (pd_in_flight p)) as [[flight rest]|]; [by constructor|].
    specialize (IH (S n)). destruct (take_in_flight_from request (S n) l) as [[[i f] l']|]; cbn; [|done].
    constructor; [by destruct p|done]. }
  unfold take_in_flight. specialize (Hl (md_procedures m) 0%nat).
  destruct (take_in_flight_from request 0 (md_procedures m)) as [[found' l']|]; intros [= <- <-]; fields.
  - done.
  - split; [by destruct m|]. apply Forall_Forall2_diag, Forall_forall. by intros [] _.
Qed.

Lemma take_in_flight_as_map request m found m' :
  take_in_flight request m = (found, m') →
  (pd_id <$> md_procedures m') = pd_id <$> md_procedures m
  ∧ (pd_prompts <$> md_procedures m') = pd_prompts <$> md_procedures m
  ∧ (pd_minimised <$> md_procedures m') = pd_minimised <$> md_procedures m.
Proof.
  intros [_ H]%take_in_flight_spec. induction H as [|p q l k E H IH]; [done|]. cbn.
  destruct IH as (-> & -> & ->). rewrite E. by destruct p.
Qed.

Lemma ok_take_in_flight request m found m' : take_in_flight request m = (found, m') → tui_ok m → tui_ok m'.
Proof.
  intros H [H1 H2 H3 H4]. pose proof (take_in_flight_as_map _ _ _ _ H) as (Hi & _ & _).
  apply take_in_flight_spec in H as [Em Hl].
  assert (∀ q, q ∈ md_procedures m' → ∃ p, p ∈ md_procedures m ∧ q = p_in_flight (pd_in_flight q) p) as Hback.
  { intros q Hq. apply list_elem_of_lookup in Hq as [i Hi']. eapply Forall2_lookup_r in Hl as (p & Hp & E); [|done].
    exists p. split; [by eapply list_elem_of_lookup_2|done]. }
  assert (∀ p, p ∈ md_procedures m → ∃ q, q ∈ md_procedures m' ∧ q = p_in_flight (pd_in_flight q) p) as Hforth.
  { intros p Hp. apply list_elem_of_lookup in Hp as [i Hi']. eapply Forall2_lookup_l in Hl as (q & Hq & E); [|done].
    exists q. split; [by eapply list_elem_of_lookup_2|done]. }
  rewrite Em. split; fields; unfold ids in *; rewrite ?Hi; [done| |done|].
  - intros id Hid. destruct (H2 id Hid) as (p & Hp & <- & Hmin). destruct (Hforth p Hp) as (q & Hq & E).
    exists q. split; [done|]. rewrite E. by destruct p.
  - intros q x Hq. destruct (Hback q Hq) as (p & Hp & E). rewrite E. destruct p; fields. by apply (H4 _ x Hp).
Qed.

Lemma ok_step_finished now request outcome m : tui_ok m → tui_ok (step_finished now request outcome m).2.
Proof.
  intros Hok. unfold step_finished. destruct (take_in_flight request m) as [[[index flight]|] m'] eqn:E;
    apply ok_take_in_flight in E; [|done| |done]; [|done].
  destruct (classify now flight outcome). cbn. by apply ok_tidy, ok_record_step.
Qed.

(** ** Prompts that close *)
Lemma ok_dismiss m : tui_ok m → tui_ok (dismiss_result m).
Proof.
  intros Hok. unfold dismiss_result. case_match; [|done]. apply ok_tidy. apply ok_quiet; [|done].
  split; intros q; by case_match.
Qed.

Lemma ok_map_prompts (g : Procedure → Procedure) `{!KeepsId g} m :
  (∀ p, pd_minimised (g p) = pd_minimised p) →
  (∀ p x, x ∈ pd_prompts (g p) → ∃ y, y ∈ pd_prompts p ∧ prompt_procedure x = prompt_procedure y) →
  tui_ok m → tui_ok (m_procedures (g <$> md_procedures m) m).
Proof.
  intros Hm Hx Hok. apply ok_map; [done| |intros p x Hp Hq; right|done].
  - intros p _ _. by rewrite Hm.
  - destruct (Hx p x Hq) as (y & Hy & ->). by apply (ok_prompts m Hok).
Qed.

Lemma ok_drop_prompt id m : tui_ok m → tui_ok (drop_prompt id m).2.
Proof.
  intros Hok. unfold drop_prompt. cbn [snd].
  assert (tui_ok (m_procedures
    ((λ p, p_prompts (filter (λ prompt, is_prompt id prompt = false) (pd_prompts p)) p) <$> md_procedures m) m)) as H.
  { apply ok_map_prompts; [done|done| |done]. intros p x. fields. intros [_ Hx]%list_elem_of_filter. by exists x. }
  case_match; [by apply ok_reset|done].
Qed.

Lemma ok_remove_prompt id m : tui_ok m → tui_ok (remove_prompt id m).2.
Proof.
  intros Hok. unfold remove_prompt. pose proof (ok_drop_prompt id m Hok) as H.
  destruct (drop_prompt id m). by apply ok_tidy.
Qed.

Lemma ok_prompt_missed now id outcome text m : tui_ok m → tui_ok (prompt_missed now id outcome text m).2.
Proof.
  intros Hok. unfold prompt_missed. pose proof (ok_drop_prompt id m Hok) as H.
  destruct (drop_prompt id m) as [removed m1]. cbn in H |- *. apply ok_tidy.
  destruct (take_in_flight id m1) as [[[index flight]|] m2] eqn:E; [|by eapply ok_take_in_flight].
  apply ok_record_step. by eapply ok_take_in_flight.
Qed.

Lemma ok_expire now m : tui_ok m → tui_ok (expire_prompts now m).2.
Proof.
  intros Hok. unfold expire_prompts. cbn [snd]. apply (foldl_inv tui_ok); [done|].
  intros m' id Hm'. by apply ok_prompt_missed.
Qed.

Lemma answer_step_fields now p :
  pd_id (answer_step now p) = pd_id p ∧ pd_minimised (answer_step now p) = pd_minimised p
  ∧ pd_prompts (answer_step now p) = pd_prompts p.
Proof. unfold answer_step. by case_match. Qed.
#[export] Instance answer_shown_keeps now prompt approved : KeepsId (answer_shown now prompt approved).
Proof. intros p. unfold answer_shown. cbv zeta. by rewrite (proj1 (answer_step_fields now _)). Qed.
Lemma answer_shown_prompts now prompt approved p :
  pd_prompts (answer_shown now prompt approved p) = tail (pd_prompts p).
Proof. unfold answer_shown. cbv zeta. by rewrite (proj2 (proj2 (answer_step_fields now _))). Qed.
Lemma answer_shown_minimised now prompt approved p :
  pd_minimised (answer_shown now prompt approved p) = pd_minimised p.
Proof. unfold answer_shown. cbv zeta. by rewrite (proj1 (proj2 (answer_step_fields now _))). Qed.

Lemma ok_take_shown now approved m : tui_ok m → tui_ok (take_shown_prompt now approved m).2.
Proof.
  intros Hok. unfold take_shown_prompt. repeat case_match; [|done..]. cbn. apply ok_tidy.
  apply tui_ok_change; [apply _|..|by apply ok_reset].
  - intros p _ _ _. by rewrite answer_shown_minimised.
  - intros p x _ _. rewrite answer_shown_prompts. destruct (pd_prompts p); cbn; intros Hx; left; [done|by right].
Qed.

Lemma prompt_procedure_stop prompt : prompt_procedure (without_deadline prompt) = prompt_procedure prompt.
Proof. done. Qed.
Lemma ok_cancel_countdown m : tui_ok m → tui_ok (cancel_countdown m).2.
Proof.
  intros Hok. unfold cancel_countdown. destruct (md_foreground m) as [id|]; [|done].
  destruct (shown_prompt m) as [prompt|]; [|done]. case_match; [|done]. cbn.
  rewrite change_procedure_on by apply Hok. apply ok_map_prompts; [..|done].
  - intros p. unfold on. by case_match.
  - intros p. unfold on. by case_match.
  - intros p x. unfold on. case_bool_decide; [|intros; by exists x]. unfold stop_countdown. fields.
    destruct (pd_prompts p) as [|y ys]; [by intros ?%elem_of_nil|].
    rewrite elem_of_cons. intros [->|Hx]; [exists y|exists x]; (split; [(by left) || by right|done]).
Qed.

(** ** The task bar and approvals *)
#[export] Instance park_keeps : KeepsId park.
Proof. intros p. unfold park. cbv zeta. by case_match. Qed.
Lemma park_prompts p : pd_prompts (park p) = pd_prompts p.
Proof. unfold park. cbv zeta. by case_match. Qed.

Lemma forget_unseen_frame request m :
  md_procedures (forget_unseen request m) = md_procedures m
  ∧ md_foreground (forget_unseen request m) = md_foreground m
  ∧ md_pending_approvals (forget_unseen request m) = md_pending_approvals m
  ∧ md_pending_dialogs (forget_unseen request m) = md_pending_dialogs m
  ∧ md_mode (forget_unseen request m) = md_mode m.
Proof. unfold forget_unseen. by repeat case_match. Qed.

Lemma approval_of_true id request : approval_of id request = true ↔ approval_procedure request = id.
Proof. unfold approval_of. by rewrite bool_decide_eq_true. Qed.

Lemma ok_park_approval id m :
  id ∈ ids (md_procedures m) → tui_ok m → tui_ok (park_approval id m).
Proof.
  intros Hid Hok. unfold park_approval. destruct (md_mode m); try done. case_match eqn:E; [|done].
  apply approval_of_true in E. cbv zeta.
  destruct (forget_unseen_frame request (m_mode MBrowse m)) as (Hp & Hf & Ha & _).
  destruct Hok as [H1 H2 H3 H4]. split; fields; rewrite ?Hp, ?Hf, ?Ha; fields; [done|done| |done].
  intros r. rewrite elem_of_cons. intros [->|Hr]; [by rewrite E|by apply H3].
Qed.

(** [minimise] opens the procedure of a deployment dialog that has none in front. *)
Definition claim_dialog (m : Model) : Model :=
  match md_foreground m, md_mode m with
  | None, MApproval request =>
      m_foreground (Some (approval_procedure request))
        (ensure_procedure (approval_procedure request) ("Deploy " +:+ ar_target request) (ar_procedure request) m)
  | _, _ => m
  end.
Lemma minimise_eq m :
  minimise m =
  match md_foreground (claim_dialog m) with
  | None => (false, claim_dialog m)
  | Some id =>
      if negb (is_some (shown_prompt (claim_dialog m))) && negb (approval_open (claim_dialog m) id)
         && negb (is_some (between_shown (claim_dialog m)))
      then (false, claim_dialog m)
      else (true, tidy_procedures (m_modal_scroll 0 (reset_scroll (m_foreground None
                    (change_procedure id park (park_approval id (claim_dialog m)))))))
  end.
Proof. reflexivity. Qed.

(** All of the invariant but that the front is not in the task bar. *)
Lemma ok_parked id m :
  id ∈ ids (md_procedures m) → tui_ok (m_foreground None m) →
  tui_ok (m_modal_scroll 0 (reset_scroll (m_foreground None (change_procedure id park (park_approval id m))))).
Proof.
  intros Hid Hok.
  assert (tui_ok (park_approval id (m_foreground None m))) as Hp by by apply ok_park_approval.
  assert (park_approval id (m_foreground None m) = m_foreground None (park_approval id m)) as E.
  { unfold park_approval. fields. destruct (md_mode m); try done. case_match; [|done]. cbv zeta.
    unfold forget_unseen. fields. by repeat case_match. }
  rewrite E in Hp. apply (ok_same (change_procedure id park (m_foreground None (park_approval id m)))); [done|done|done|].
  apply tui_ok_change; [apply _|done| |exact Hp].
  intros p x _ _. rewrite park_prompts. by left.
Qed.

Lemma claim_dialog_cases m : tui_ok m →
  claim_dialog m = m
  ∨ (∃ request, md_foreground m = None ∧ md_mode m = MApproval request
       ∧ md_foreground (claim_dialog m) = Some (approval_procedure request)
       ∧ approval_open (claim_dialog m) (approval_procedure request) = true
       ∧ approval_procedure request ∈ ids (md_procedures (claim_dialog m))
       ∧ tui_ok (m_foreground None (claim_dialog m))
       ∧ md_pending_approvals (claim_dialog m) = md_pending_approvals m).
Proof.
  intros Hok. unfold claim_dialog. destruct (md_foreground m) eqn:Ef; [by left|].
  destruct (md_mode m) as [| | | | | | | | | | | | | | | | | | | | | |request| | |] eqn:Em; try by left.
  right. exists request.
  pose proof (ok_ensure (approval_procedure request) ("Deploy " +:+ ar_target request) (ar_procedure request) m Hok) as He.
  pose proof (ensure_ids (approval_procedure request) ("Deploy " +:+ ar_target request) (ar_procedure request) m Hok) as Hi.
  destruct (ensure_frame (approval_procedure request) ("Deploy " +:+ ar_target request) (ar_procedure request) m)
    as [l El].
  repeat split; fields.
  - unfold approval_open. fields. rewrite El. fields. rewrite Em. by apply approval_of_true.
  - rewrite Hi. apply ensured_id.
  - apply He.
  - done.
  - apply He.
  - apply He.
  - by rewrite El.
Qed.

Lemma ok_minimise m : tui_ok m → tui_ok (minimise m).2.
Proof.
  intros Hok. rewrite minimise_eq.
  destruct (claim_dialog_cases m Hok) as [->|(request & Ef & Em & Hf & Hopen & Hid & Hnone & _)].
  - destruct (md_foreground m) as [id|] eqn:Ef; [|done]. case_match; [done|]. cbn [snd].
    apply ok_tidy, ok_parked; [|by apply ok_no_front].
    destruct (ok_front m Hok id Ef) as (p & Hp & <- & _). by apply list_elem_of_fmap_2.
  - rewrite Hf, Hopen. rewrite andb_false_r. cbn [snd]. by apply ok_tidy, ok_parked.
Qed.

Lemma ok_quiet_mode mode m : tui_ok m → tui_ok (m_mode mode m).
Proof. by apply ok_same. Qed.

Lemma take_approval_spec id requests request rest :
  take_approval id requests = Some (request, rest) →
  approval_procedure request = id ∧ requests ≡ₚ request :: rest.
Proof.
  revert rest. induction requests as [|r rs IH]; intros rest H; [done|]. cbn in H. case_match eqn:E.
  - injection H as -> ->. by apply approval_of_true in E.
  - destruct (take_approval id rs) as [[found others]|] eqn:Et; [|done]. cbn in H. injection H as -> <-.
    destruct (IH others eq_refl) as [E' Hp]. split; [done|]. rewrite Hp. constructor.
Qed.

Lemma hide_notice_frame m :
  md_procedures (hide_notice m) = md_procedures m ∧ md_foreground (hide_notice m) = md_foreground m
  ∧ md_pending_approvals (hide_notice m) = md_pending_approvals m ∧ md_mode (hide_notice m) = md_mode m
  ∧ md_pending_dialogs (hide_notice m) = md_pending_dialogs m.
Proof. unfold hide_notice. by case_match. Qed.
Lemma next_notice_frame m :
  md_procedures (next_notice m) = md_procedures m ∧ md_foreground (next_notice m) = md_foreground m
  ∧ md_pending_approvals (next_notice m) = md_pending_approvals m ∧ md_mode (next_notice m) = md_mode m
  ∧ md_pending_dialogs (next_notice m) = md_pending_dialogs m.
Proof. unfold next_notice. by case_match. Qed.

Lemma ok_show_pending m : tui_ok m → tui_ok (show_pending_approval m).
Proof.
  intros Hok. unfold show_pending_approval. cbv zeta. apply ok_tidy in Hok. revert Hok.
  generalize (tidy_procedures m). clear m. intros m Hok. case_match; [done|].
  destruct (hide_notice_frame m) as (Hp & Hf & Ha & _). destruct (next_notice_frame m) as (Np & Nf & Na & _).
  destruct (md_pending_dialogs m) as [|dialog dialogs].
  - destruct (foreground_approval m) as [[request others]|] eqn:E.
    + unfold foreground_approval in E. destruct (front_procedure m) as [p|]; [|done]. cbn in E.
      apply take_approval_spec in E as [_ Hperm]. destruct Hok as [H1 H2 H3 H4].
      split; fields; rewrite ?Hp, ?Hf; [done|done| |done].
      intros r Hr. apply H3. rewrite Hperm. by right.
    + case_match; [done|]. by eapply ok_same.
  - eapply ok_same; [..|exact Hok]; done.
Qed.

Lemma ok_restore id m : tui_ok m → tui_ok (restore id m).2.
Proof.
  intros Hok. unfold restore. case_match eqn:E; [done|]. case_match; [done|]. cbv zeta.
  set (m1 := if negb (bool_decide (md_foreground m = Some id)) then (minimise m).2 else m).
  assert (tui_ok m1) as Hok1 by (unfold m1; case_match; [by apply ok_minimise|done]).
  case_match; [done|]. case_match eqn:Eg; [done|]. cbn [snd].
  assert (id ∈ ids (md_procedures m1)) as Hid.
  { apply procedure_is_Some. destruct (bool_decide (md_foreground m = Some id)) eqn:Ed.
    - unfold m1. cbn [negb]. by destruct (procedure m id).
    - cbn [negb andb] in Eg. by destruct (procedure m1 id). }
  assert (tui_ok (m_modal_scroll 0 (reset_scroll (change_procedure id to_front (m_foreground (Some id) m1))))) as H2.
  { eapply ok_same; [..|by apply (ok_to_front id m1)]; done. }
  case_match; [done|]. by apply ok_show_pending.
Qed.

Lemma ok_restore_next m : tui_ok m → tui_ok (restore_next m).2.
Proof. intros Hok. unfold restore_next. cbv zeta. case_match; [by apply ok_restore|done]. Qed.

Lemma ok_enqueue request m :
  approval_procedure request ∈ ids (md_procedures m) → tui_ok m → tui_ok (enqueue_approval request m).
Proof.
  intros Hid Hok. unfold enqueue_approval. apply ok_show_pending, ok_arrive; [done|].
  destruct Hok as [H1 H2 H3 H4]. split; fields; [done|done| |done].
  intros r. rewrite elem_of_app, list_elem_of_singleton. intros [Hr| ->]; [by apply H3|done].
Qed.

Lemma update_first_elem {A} (p : A → bool) f l y :
  y ∈ update_first p f l → y ∈ l ∨ ∃ x, x ∈ l ∧ p x = true ∧ y = f x.
Proof.
  induction l as [|x l IH]; cbn; [set_solver|]. destruct (p x) eqn:E.
  - rewrite elem_of_cons. intros [->|H]; [right; exists x; split_and!; [by left|done|done]|left; by right].
  - rewrite elem_of_cons. intros [->|H]; [left; by left|]. destruct (IH H) as [?|(z & Hz & Hp & ->)]; [left; by right|].
    right. exists z. split_and!; [by right|done|done].
Qed.

Lemma ok_offer_approval request m : tui_ok m → tui_ok (offer_approval request m).
Proof.
  intros Hok. unfold offer_approval. case_match; [done|]. cbv zeta.
  set (mv := m_view _ m). assert (tui_ok mv) as Hv by by apply (ok_same m).
  set (m1 := ensure_procedure _ _ _ mv).
  assert (tui_ok m1) as Hok1 by by apply ok_ensure.
  assert (approval_procedure request ∈ ids (md_procedures m1)) as Hid.
  { unfold m1. rewrite ensure_ids by done. apply ensured_id. }
  set (m2 := change_procedure _ _ m1).
  assert (KeepsId (λ p, p_between None (p_awaiting_deployment false p))) as Kb by done.
  assert (tui_ok m2) as Hok2 by (apply ok_quiet; [by split|done]).
  assert (approval_procedure request ∈ ids (md_procedures m2)) as Hid2.
  { unfold m2. rewrite change_ids; [done|done|apply Hok1]. }
  case_match.
  - apply ok_show_pending. destruct Hok2 as [H1 H2 H3 H4]. split; fields; [done|done| |done].
    intros r [Hr|(x & Hx & _ & ->)]%update_first_elem; [by apply H3|].
    unfold advance_queued. case_match; [done|by apply H3].
  - destruct (md_mode m2); try by apply ok_enqueue.
    case_match; [|by apply ok_enqueue]. case_match; [by apply ok_quiet_mode|done].
Qed.

Lemma ok_finish_approval id m : tui_ok m → tui_ok (finish_approval id m).
Proof.
  intros [H1 H2 H3 H4]. unfold finish_approval. cbv zeta. apply ok_tidy.
  match goal with |- tui_ok (match _ with _ => _ end) => idtac | |- _ => idtac end.
  assert (tui_ok (m_pending_approvals (filter (λ r, ar_id r ≠ id) (md_pending_approvals m))
                    (m_completed_approvals (bs_insert id (md_completed_approvals m)) m))) as H.
  { split; fields; [done|done| |done]. intros r [_ Hr]%list_elem_of_filter. by apply H3. }
  fields. destruct (md_mode m); try exact H. case_match; [|exact H]. by apply ok_quiet_mode.
Qed.

(** ** The connection and deployments *)
Lemma ok_connection_lost m : tui_ok m → tui_ok (connection_lost m).
Proof.
  intros Hok. unfold connection_lost. cbv zeta. apply ok_tidy, ok_reset. apply ok_map_prompts; [done|done| |done].
  intros p x. fields. by intros ?%elem_of_nil.
Qed.

Lemma ok_synced live m : tui_ok m → tui_ok (procedures_synced live m).
Proof.
  intros Hok. unfold procedures_synced. cbv zeta. apply ok_tidy. apply (foldl_inv tui_ok); [done|].
  intros. by apply ok_procedure_ended.
Qed.

Lemma ok_deployment_answered now request m : tui_ok m → tui_ok (deployment_answered now request m).
Proof.
  intros Hok. unfold deployment_answered. cbv zeta.
  set (m1 := m_procedures _ m). assert (tui_ok m1) as H1 by (apply ok_quiet_map; [by split|done]).
  destruct (ar_procedure request) as [step|]; [|done]. apply ok_quiet; [|done].
  split; [intros p|intros p|intros p]; unfold answer_deployment; case_match; try done; cbv zeta;
    rewrite ?(proj1 (answer_step_fields now _)), ?(proj1 (proj2 (answer_step_fields now _))),
      ?(proj2 (proj2 (answer_step_fields now _))); by case_match.
Qed.

Lemma ok_notice text severity m : tui_ok m → tui_ok (push_notice text severity m).
Proof. unfold push_notice. cbv zeta. apply ok_same; by repeat case_match. Qed.

(** ** Everything that can happen *)
Inductive TuiEvent :=
(* from the backend and the operator channel *)
| EvPrompt (prompt : SecretPrompt)
| EvStep (step : ProcedureStep)
| EvEnded (id : string) (exit_code : option Z)
| EvWithdrawn (prompt_id : string)
| EvRemoved (prompt_id : string)
| EvOutcome (request : string) (outcome : result string (option string))
| EvApproval (request : ApprovalRequest)
| EvApprovalFinished (id : string)
| EvDisconnected
| EvSynced (live : list string)
| EvNotice (text : string) (severity : NoticeSeverity)
(* from the clock *)
| EvExpire
| EvFlash
| EvSpin
(* from the operator *)
| EvAnswer (approved : bool)
| EvCancelCountdown
| EvDeploymentAnswered (request : ApprovalRequest)
| EvDismiss
| EvAcknowledge
| EvMinimise
| EvRestore (id : string)
| EvRestoreNext
| EvDialog (mode : Mode)
| EvShowPending.

Definition tui_step (now : Z) (event : TuiEvent) (m : Model) : Model :=
  match event with
  | EvPrompt prompt => offer_prompt prompt m
  | EvStep step => procedure_step now step m
  | EvEnded id code => procedure_ended id code m
  | EvWithdrawn id => (withdraw_prompt now id m).2
  | EvRemoved id => (remove_prompt id m).2
  | EvOutcome request outcome => (step_finished now request outcome m).2
  | EvApproval request => offer_approval request m
  | EvApprovalFinished id => finish_approval id m
  | EvDisconnected => connection_lost m
  | EvSynced live => procedures_synced live m
  | EvNotice text severity => push_notice text severity m
  | EvExpire => (expire_prompts now m).2
  | EvFlash => (flash_tick now m).2
  | EvSpin => (spinner_tick now m).2
  | EvAnswer approved => (take_shown_prompt now approved m).2
  | EvCancelCountdown => (cancel_countdown m).2
  | EvDeploymentAnswered request => deployment_answered now request m
  | EvDismiss => dismiss_result m
  | EvAcknowledge => acknowledge m
  | EvMinimise => (minimise m).2
  | EvRestore id => (restore id m).2
  | EvRestoreNext => (restore_next m).2
  | EvDialog mode => m_mode mode m
  | EvShowPending => show_pending_approval m
  end.
Definition tui_run (events : list (Z * TuiEvent)) (m : Model) : Model :=
  foldl (λ m event, tui_step event.1 event.2 m) m events.

Lemma ok_step now event m : tui_ok m → tui_ok (tui_step now event m).
Proof.
  intros Hok. destruct event; cbn [tui_step].
  - by apply ok_offer_prompt.
  - by apply ok_procedure_step.
  - by apply ok_procedure_ended.
  - by apply ok_prompt_missed.
  - by apply ok_remove_prompt.
  - by apply ok_step_finished.
  - by apply ok_offer_approval.
  - by apply ok_finish_approval.
  - by apply ok_connection_lost.
  - by apply ok_synced.
  - by apply ok_notice.
  - by apply ok_expire.
  - unfold flash_tick. case_match; [done|]. by apply (ok_same m).
  - unfold spinner_tick. cbv zeta. case_match; [done|]. by apply (ok_same m).
  - by apply ok_take_shown.
  - by apply ok_cancel_countdown.
  - by apply ok_deployment_answered.
  - by apply ok_dismiss.
  - unfold acknowledge. apply ok_show_pending. destruct (next_notice_frame m) as (Hp & Hf & Ha & _).
    by apply (ok_same m).
  - by apply ok_minimise.
  - by apply ok_restore.
  - by apply ok_restore_next.
  - by apply ok_quiet_mode.
  - by apply ok_show_pending.
Qed.

Lemma tui_run_ok now rows events : tui_ok (tui_run events (model_new now rows)).
Proof.
  unfold tui_run. apply (foldl_inv tui_ok); [apply ok_new|]. intros m event Hm. by apply ok_step.
Qed.

(** In every state the TUI can reach, whatever arrives and whatever the operator does, procedures have
    distinct ids, the procedure in front is listed and not in the task bar, every parked deployment approval has
    a procedure to restore it by, and every prompt is in the procedure it belongs to. *)
Theorem tui_invariant now rows events : tui_ok (tui_run events (model_new now rows)).
Proof. apply tui_run_ok. Qed.

(** ** Prompts are neither lost nor multiplied *)
Definition asked (m : Model) : list SecretPrompt := mjoin (pd_prompts <$> md_procedures m).

Lemma join_filter {A} (P : Procedure → Prop) `{!∀ p, Decision (P p)} (f : Procedure → list A) l :
  (∀ p, p ∈ l → ¬ P p → f p = []) → mjoin (f <$> filter P l) = mjoin (f <$> l).
Proof.
  induction l as [|p l IH]; intros Hf; [done|]. rewrite filter_cons. case_decide as Hp; cbn.
  - f_equal. apply IH. intros q Hq. apply Hf. by right.
  - rewrite (Hf p) by (done || by left). apply IH. intros q Hq. apply Hf. by right.
Qed.

Lemma waiting_prompts m p : procedure_waiting m p = false → pd_prompts p = [].
Proof. unfold procedure_waiting. intros H. bool_prop. destruct H as [[[H1 _] _] _]. by destruct (pd_prompts p). Qed.

Lemma asked_tidy m : tui_ok m → asked (tidy_procedures m) = asked m.
Proof.
  intros Hok. unfold asked. rewrite tidy_procs. apply join_filter. intros p Hp Hgone.
  unfold gone in Hgone. apply dec_stable in Hgone. apply list_elem_of_fmap in Hgone as (q & E & [Hq Hin]%list_elem_of_filter).
  rewrite (same_id _ p q (ok_ids m Hok) Hp Hin E). by eapply waiting_prompts, over_not_waiting.
Qed.

Lemma asked_map (g : Procedure → Procedure) m :
  (∀ p, p ∈ md_procedures m → pd_prompts (g p) = pd_prompts p) →
  asked (m_procedures (g <$> md_procedures m) m) = asked m.
Proof.
  intros H. unfold asked. fields. f_equal. rewrite <- list_fmap_compose. apply list_fmap_ext.
  intros i p Hp. apply H. by eapply list_elem_of_lookup_2.
Qed.
Lemma asked_procs m m' : md_procedures m' = md_procedures m → asked m' = asked m.
Proof. unfold asked. by intros ->. Qed.
Lemma asked_change id f m :
  NoDup (ids (md_procedures m)) → (∀ p, pd_prompts (f p) = pd_prompts p) → asked (change_procedure id f m) = asked m.
Proof.
  intros Hn H. rewrite change_procedure_on by done. apply asked_map. intros p _. unfold on. by case_match.
Qed.

Lemma asked_procedure_ended id code m : tui_ok m → asked (procedure_ended id code m) = asked m.
Proof.
  intros Hok. unfold procedure_ended. cbv zeta. rewrite asked_tidy.
  - rewrite <- (asked_change id (end_procedure (is_browse (md_mode m) && bool_decide (md_foreground m = Some id)
      && is_some_and (λ p, negb (pd_minimised p)) (procedure m id)) code) m) by (apply Hok || apply end_prompts).
    by case_match.
  - apply ok_front_checked; [apply _|apply end_prompts|done].
Qed.

Lemma asked_on id g m :
  (∀ q, pd_id (g q) = pd_id q ∧ pd_prompts (g q) = pd_prompts q) →
  asked (m_procedures (on id g <$> md_procedures m) m) = asked m.
Proof. intros Hg. apply asked_map. intros p _. unfold on. case_match; [apply Hg|done]. Qed.

Lemma asked_record_step now index flight outcome text m :
  tui_ok m → asked (record_step now index flight outcome text m) = asked m.
Proof.
  intros Hok. destruct (md_procedures m !! index) as [p|] eqn:Hp; [|by rewrite record_step_absent].
  destruct (record_step_cases now index flight outcome text m p (ok_ids _ Hok) Hp) as [(g & -> & Hg & Hm)| ->].
  - by apply asked_on.
  - rewrite asked_procedure_ended by by apply ok_on. by apply asked_on.
Qed.

Lemma asked_step_reported now step outcome reason m :
  tui_ok m → asked (step_reported now step outcome reason m) = asked m.
Proof.
  intros Hok. unfold step_reported. case_match eqn:Ei; [|done]. cbv zeta. case_match.
  - destruct (md_procedures m !! n) as [p|] eqn:Hp; [|by cbn in *].
    rewrite (alter_on _ _ _ p) by (done || apply Hok). apply asked_on. intros q.
    split; [apply keeps_id|apply quiet_prompts].
  - rewrite asked_tidy by by apply ok_record_step. by apply asked_record_step.
Qed.

Lemma asked_ensure id title step m : tui_ok m → asked (ensure_procedure id title step m) = asked m.
Proof.
  intros Hok. unfold asked. rewrite ensure_procs by done.
  assert (∀ l, pd_prompts <$> ((match step with Some step => on id (take_step step) | None => λ p, p end) <$> l)
               = pd_prompts <$> l) as ->.
  { intros l. rewrite <- list_fmap_compose. apply list_fmap_ext. intros i p _. unfold compose.
    destruct step; [|done]. unfold on. case_match; [apply quiet_prompts|done]. }
  unfold ensured. rewrite fmap_app, join_app. case_match; cbn; by rewrite app_nil_r.
Qed.

Lemma asked_procedure_step now step m : tui_ok m → asked (procedure_step now step m) = asked m.
Proof.
  intros Hok. unfold procedure_step. cbv zeta. rewrite <- (asked_ensure (ps_id step) "" (Some step) m) by done.
  apply ok_ensure with (id := ps_id step) (title := "") (step := Some step) in Hok.
  revert Hok. generalize (ensure_procedure (ps_id step) "" (Some step) m). clear m. intros m Hok.
  set (m1 := if ps_deployment step then _ else m).
  assert (tui_ok m1) as H1 by (unfold m1; case_match; [apply ok_quiet; [by split|done]|done]).
  assert (asked m1 = asked m) as <-.
  { unfold m1. case_match; [|done]. apply asked_change; [apply Hok|done]. }
  set (m2 := match ps_warning step with Some _ => _ | None => m1 end).
  assert (tui_ok m2) as H2 by (unfold m2; destruct (ps_warning step); [by apply ok_step_reported|done]).
  assert (asked m2 = asked m1) as <-.
  { unfold m2. destruct (ps_warning step); [by apply asked_step_reported|done]. }
  destruct (ps_failure step); [by apply asked_step_reported|done].
Qed.

Lemma asked_take_in_flight request m found m' : take_in_flight request m = (found, m') → asked m' = asked m.
Proof. intros (_ & H & _)%take_in_flight_as_map. unfold asked. by rewrite H. Qed.

Lemma asked_step_finished now request outcome m : tui_ok m → asked (step_finished now request outcome m).2 = asked m.
Proof.
  intros Hok. unfold step_finished. destruct (take_in_flight request m) as [[[index flight]|] m'] eqn:E.
  - pose proof (asked_take_in_flight _ _ _ _ E) as Ha. apply ok_take_in_flight in E; [|done].
    destruct (classify now flight outcome). cbn. rewrite asked_tidy by by apply ok_record_step.
    by rewrite asked_record_step.
  - by apply asked_take_in_flight in E.
Qed.

Lemma asked_drop id m :
  asked (drop_prompt id m).2 = filter (λ prompt, is_prompt id prompt = false) (asked m).
Proof.
  unfold drop_prompt. cbn [snd]. unfold asked.
  transitivity (mjoin (pd_prompts <$>
    ((λ p, p_prompts (filter (λ prompt, is_prompt id prompt = false) (pd_prompts p)) p) <$> md_procedures m))).
  { by case_match. }
  induction (md_procedures m) as [|p l IH]; [done|]. cbn. rewrite filter_app. f_equal. exact IH.
Qed.

Lemma asked_remove id m : tui_ok m →
  asked (remove_prompt id m).2 = filter (λ prompt, is_prompt id prompt = false) (asked m).
Proof.
  intros Hok. unfold remove_prompt. pose proof (ok_drop_prompt id m Hok) as H. pose proof (asked_drop id m) as Ha.
  destruct (drop_prompt id m). cbn in *. by rewrite asked_tidy.
Qed.

Lemma asked_missed now id outcome text m : tui_ok m →
  asked (prompt_missed now id outcome text m).2 = filter (λ prompt, is_prompt id prompt = false) (asked m).
Proof.
  intros Hok. unfold prompt_missed. pose proof (ok_drop_prompt id m Hok) as H. pose proof (asked_drop id m) as Ha.
  destruct (drop_prompt id m) as [removed m1]. cbn [snd] in *. cbn [fst].
  destruct (take_in_flight id m1) as [[[index flight]|] m2] eqn:E;
    pose proof (asked_take_in_flight _ _ _ _ E) as Ht; apply ok_take_in_flight in E; try done.
  - rewrite asked_tidy by by apply ok_record_step. rewrite asked_record_step by done. congruence.
  - rewrite asked_tidy by done. congruence.
Qed.

Lemma asked_expire now m : tui_ok m →
  asked (expire_prompts now m).2
  = filter (λ prompt, sp_id prompt ∉ (sp_id <$> filter (λ x, expired now x = true) (asked m))) (asked m).
Proof.
  intros Hok. unfold expire_prompts. cbn [snd]. fold (asked m).
  generalize (sp_id <$> filter (λ x, expired now x = true) (asked m)). intros gone_ids.
  revert m Hok. induction gone_ids as [|id gone_ids IH]; intros m Hok; cbn [foldl].
  - induction (asked m) as [|x l IH]; [done|]. rewrite filter_cons, decide_True by apply not_elem_of_nil.
    by rewrite <- IH.
  - rewrite IH by by apply ok_prompt_missed. rewrite asked_missed by done. rewrite list_filter_filter.
    apply list_filter_iff. intros x. rewrite not_elem_of_cons. unfold is_prompt. rewrite bool_decide_eq_false. tauto.
Qed.

Lemma asked_deployment now request m : tui_ok m → asked (deployment_answered now request m) = asked m.
Proof.
  intros Hok. unfold deployment_answered. cbv zeta.
  set (m1 := m_procedures _ m). assert (tui_ok m1) as H1 by (apply ok_quiet_map; [by split|done]).
  assert (asked m1 = asked m) as <- by by apply asked_map.
  destruct (ar_procedure request) as [step|]; [|done]. apply asked_change; [apply H1|]. intros p.
  unfold answer_deployment. case_match; [done|]. cbv zeta.
  rewrite (proj2 (proj2 (answer_step_fields now _))). by case_match.
Qed.

Lemma asked_dismiss m : tui_ok m → asked (dismiss_result m) = asked m.
Proof.
  intros Hok. unfold dismiss_result. case_match; [|done].
  rewrite asked_tidy by (apply ok_quiet; [split; intros q; by case_match|done]).
  apply asked_change; [apply Hok|]. intros q. by case_match.
Qed.

Lemma asked_show_pending m : tui_ok m → asked (show_pending_approval m) = asked m.
Proof.
  intros Hok. rewrite <- (asked_tidy m) by done. unfold show_pending_approval. cbv zeta.
  generalize (tidy_procedures m). clear m Hok. intros m. apply asked_procs. case_match; [done|].
  destruct (hide_notice_frame m) as (Hp & _). destruct (next_notice_frame m) as (Np & _).
  destruct (md_pending_dialogs m); [|done]. destruct (foreground_approval m) as [[]|]; [done|]. by case_match.
Qed.

Lemma asked_arrive id m : id ∈ ids (md_procedures m) → tui_ok m → asked (arrive id m) = asked m.
Proof.
  intros Hid Hok. unfold arrive. cbv zeta. case_match; [done|]. case_match.
  - rewrite asked_tidy by by apply ok_reset, ok_to_front.
    apply (asked_change id to_front (m_foreground (Some id) m)); [apply Hok|done].
  - case_decide; by rewrite asked_change by (done || apply Hok).
Qed.

Lemma asked_offer_prompt prompt m : tui_ok m → asked (offer_prompt prompt m) ≡ₚ prompt :: asked m.
Proof.
  intros Hok. unfold offer_prompt. cbv zeta.
  set (step := if is_some (sp_confirmation prompt) && _ then None else _).
  rewrite <- (asked_ensure (prompt_procedure prompt) (prompt_title prompt) step m) by done.
  set (m1 := ensure_procedure _ _ step m). assert (tui_ok m1) as Hok1 by by apply ok_ensure.
  assert (prompt_procedure prompt ∈ ids (md_procedures m1)) as Hid.
  { unfold m1. rewrite ensure_ids by done. apply ensured_id. }
  set (m2 := change_procedure _ _ m1).
  assert (asked m2 ≡ₚ prompt :: asked m1) as H2.
  { unfold m2. rewrite change_procedure_on by apply Hok1. unfold asked. fields.
    pose proof (ok_ids m1 Hok1) as Hn. revert Hid Hn. generalize (md_procedures m1).
    induction l as [|p l IH]; cbn; [by intros ?%elem_of_nil|].
    rewrite elem_of_cons, NoDup_cons. intros Hid [Hp Hl].
    destruct (decide (pd_id p = prompt_procedure prompt)) as [E|E].
    - rewrite on_same by done. rewrite ask_prompts.
      assert (on (prompt_procedure prompt) (ask prompt) <$> l = l) as ->.
      { rewrite <- (list_fmap_id l) at 2. apply list_fmap_ext. intros i q Hq. apply on_other. intros E'.
        apply Hp. rewrite E, <- E'. apply list_elem_of_fmap_2. by eapply list_elem_of_lookup_2. }
      rewrite <- app_assoc. symmetry. apply Permutation_middle.
    - rewrite on_other by done. destruct Hid as [?|Hid]; [done|]. rewrite (IH Hid Hl).
      symmetry. apply Permutation_middle. }
  assert (tui_ok m2) as Hok2.
  { apply tui_ok_change; [apply _|..|done].
    - intros p _ _ _. by rewrite ask_minimised.
    - intros p x _ _. rewrite ask_prompts, elem_of_app, list_elem_of_singleton. intros [?| ->]; auto. }
  case_match; [done|]. rewrite asked_arrive; [done| |done].
  unfold m2. rewrite change_ids; [done|apply _|apply Hok1].
Qed.

Lemma asked_stop m : tui_ok m → without_deadline <$> asked (cancel_countdown m).2 = without_deadline <$> asked m.
Proof.
  intros Hok. unfold cancel_countdown. destruct (md_foreground m) as [id|]; [|done].
  destruct (shown_prompt m) as [prompt|]; [|done]. case_match; [|done]. cbn [snd].
  rewrite change_procedure_on by apply Hok. unfold asked. fields.
  assert (∀ p l, mjoin (pd_prompts <$> p :: l) = pd_prompts p ++ mjoin (pd_prompts <$> l)) as Hcons by done.
  induction (md_procedures m) as [|p l IH]; [done|]. rewrite fmap_cons, !Hcons, !fmap_app, IH. f_equal.
  unfold on. case_match; [|done]. unfold stop_countdown. fields. by destruct (pd_prompts p).
Qed.

Lemma front_procedure_Some m p : tui_ok m →
  front_procedure m = Some p ↔ p ∈ md_procedures m ∧ md_foreground m = Some (pd_id p) ∧ pd_minimised p = false.
Proof.
  intros Hok. unfold front_procedure. split.
  - destruct (md_foreground m) as [id|]; [|done]. cbn. destruct (procedure m id) as [q|] eqn:E; [|done]. cbn.
    apply procedure_Some in E as [Hq <-]; [|apply Hok]. case_match eqn:Em; [done|]. intros [= ->]. done.
  - intros (Hp & -> & Hm). cbn.
    assert (procedure m (pd_id p) = Some p) as -> by (apply procedure_Some; [apply Hok|done]). cbn. by rewrite Hm.
Qed.

Lemma asked_take_shown now approved m : tui_ok m →
  asked m ≡ₚ option_list (take_shown_prompt now approved m).1 ++ asked (take_shown_prompt now approved m).2
  ∧ (take_shown_prompt now approved m).1 = shown_prompt m.
Proof.
  intros Hok. unfold take_shown_prompt.
  destruct (md_foreground m) as [id|] eqn:Ef; [|by unfold shown_prompt, front_procedure; rewrite Ef].
  destruct (shown_prompt m) as [prompt|] eqn:Es; [|done]. cbn [fst snd option_list]. split; [|done].
  assert (tui_ok (change_procedure id (answer_shown now prompt approved) (reset_scroll m))) as Hc.
  { apply tui_ok_change; [apply _|..|by apply ok_reset].
    - intros p _ _ _. by rewrite answer_shown_minimised.
    - intros p x _ _. rewrite answer_shown_prompts. destruct (pd_prompts p); cbn; intros Hx; left; [done|by right]. }
  rewrite asked_tidy by done. rewrite change_procedure_on by apply Hok. unfold asked. fields.
  unfold shown_prompt in Es. destruct (front_procedure m) as [p|] eqn:Ep; [|done]. cbn in Es.
  apply front_procedure_Some in Ep as (Hp & Hfp & _); [|done]. rewrite Ef in Hfp. injection Hfp as ->.
  pose proof (ok_ids m Hok) as Hn. change (md_procedures (reset_scroll m)) with (md_procedures m).
  revert Hp Hn. induction (md_procedures m) as [|q l IH]; [by intros ?%elem_of_nil|].
  rewrite elem_of_cons. cbn. rewrite NoDup_cons. intros Hp [Hq Hl]. destruct Hp as [<-|Hp].
  - rewrite on_same by done. rewrite answer_shown_prompts. destruct (pd_prompts p) as [|x xs]; [done|].
    injection Es as ->. cbn [app option_list tail].
    assert (on (pd_id p) (answer_shown now prompt approved) <$> l = l) as ->; [|done].
    rewrite <- (list_fmap_id l) at 2. apply list_fmap_ext. intros i q' Hq'. apply on_other.
    intros E'. apply Hq. rewrite <- E'. apply list_elem_of_fmap_2. by eapply list_elem_of_lookup_2.
  - rewrite on_other.
    + rewrite (IH Hp Hl). symmetry. apply Permutation_middle.
    + intros E. apply Hq. rewrite E. by apply list_elem_of_fmap_2.
Qed.

Lemma asked_enqueue request m :
  approval_procedure request ∈ ids (md_procedures m) → tui_ok m → asked (enqueue_approval request m) = asked m.
Proof.
  intros Hid Hok. unfold enqueue_approval.
  assert (tui_ok (m_pending_approvals (md_pending_approvals m ++ [request]) m)) as H.
  { destruct Hok as [H1 H2 H3 H4]. split; fields; [done|done| |done].
    intros r. rewrite elem_of_app, list_elem_of_singleton. intros [Hr| ->]; [by apply H3|done]. }
  rewrite asked_show_pending by by apply ok_arrive. by rewrite asked_arrive.
Qed.

Lemma asked_offer_approval request m : tui_ok m → asked (offer_approval request m) = asked m.
Proof.
  intros Hok. unfold offer_approval. case_match; [done|]. cbv zeta.
  set (mv := m_view _ m). assert (tui_ok mv) as Hv by by apply (ok_same m).
  rewrite <- (asked_procs m mv) by done.
  rewrite <- (asked_ensure (approval_procedure request) ("Deploy " +:+ ar_target request) (ar_procedure request) mv)
    by done.
  set (m1 := ensure_procedure _ _ _ mv).
  assert (tui_ok m1) as Hok1 by by apply ok_ensure.
  assert (approval_procedure request ∈ ids (md_procedures m1)) as Hid.
  { unfold m1. rewrite ensure_ids by done. apply ensured_id. }
  set (m2 := change_procedure _ _ m1).
  assert (KeepsId (λ p, p_between None (p_awaiting_deployment false p))) as Kb by done.
  assert (tui_ok m2) as Hok2 by (apply ok_quiet; [by split|done]).
  assert (asked m2 = asked m1) as <- by (apply asked_change; [apply Hok1|done]).
  assert (approval_procedure request ∈ ids (md_procedures m2)) as Hid2.
  { unfold m2. rewrite change_ids; [done|done|apply Hok1]. }
  case_match.
  - rewrite asked_show_pending; [done|]. destruct Hok2 as [H1 H2 H3 H4]. split; fields; [done|done| |done].
    intros r [Hr|(x & Hx & _ & ->)]%update_first_elem; [by apply H3|].
    unfold advance_queued. case_match; [done|by apply H3].
  - destruct (md_mode m2); try by apply asked_enqueue.
    case_match; [|by apply asked_enqueue]. by case_match.
Qed.

Lemma asked_finish_approval id m : tui_ok m → asked (finish_approval id m) = asked m.
Proof.
  intros [H1 H2 H3 H4]. unfold finish_approval. cbv zeta.
  set (m1 := m_pending_approvals _ _).
  assert (tui_ok m1) as Hm1.
  { split; unfold m1; fields; [done|done| |done]. intros r [_ Hr]%list_elem_of_filter. by apply H3. }
  rewrite asked_tidy; [by destruct (md_mode m1); try done; case_match|].
  destruct (md_mode m1); try done. case_match; [by apply ok_quiet_mode|done].
Qed.

Lemma asked_disconnected m : tui_ok m → asked (connection_lost m) = [].
Proof.
  intros Hok. unfold connection_lost. cbv zeta. rewrite asked_tidy.
  - unfold asked, reset_scroll. fields. by induction (md_procedures m).
  - apply ok_reset. apply ok_map_prompts; [done|done| |done]. intros p x. fields. by intros ?%elem_of_nil.
Qed.

Lemma asked_synced live m : tui_ok m → asked (procedures_synced live m) = asked m.
Proof.
  intros Hok. unfold procedures_synced. cbv zeta. generalize (pd_id <$> filter (λ p, negb (pd_implicit p)
    && negb (pd_ended p) && negb (bool_decide (pd_id p ∈ live)) = true) (md_procedures m)). intros l.
  assert (tui_ok (foldl (λ m id, procedure_ended id None m) m l)
          ∧ asked (foldl (λ m id, procedure_ended id None m) m l) = asked m) as [H1 H2].
  { revert m Hok. induction l as [|id l IH]; intros m Hok; [done|]. cbn [foldl].
    destruct (IH _ (ok_procedure_ended id None m Hok)) as [Ho Ha]. split; [exact Ho|].
    rewrite Ha. by apply asked_procedure_ended. }
  by rewrite asked_tidy.
Qed.

Lemma asked_claim m : tui_ok m → asked (claim_dialog m) = asked m.
Proof.
  intros Hok. unfold claim_dialog. destruct (md_foreground m); [done|]. destruct (md_mode m); try done.
  rewrite (asked_procs (ensure_procedure (approval_procedure request) ("Deploy " +:+ ar_target request)
    (ar_procedure request) m)) by done. by apply asked_ensure.
Qed.

Lemma asked_park_approval id m : asked (park_approval id m) = asked m.
Proof.
  apply asked_procs. unfold park_approval. destruct (md_mode m); try done. case_match; [|done]. cbv zeta. fields.
  by destruct (forget_unseen_frame request (m_mode MBrowse m)) as (-> & _).
Qed.

Lemma asked_parked id m : tui_ok (m_foreground None m) → id ∈ ids (md_procedures m) →
  asked (tidy_procedures (m_modal_scroll 0 (reset_scroll (m_foreground None
    (change_procedure id park (park_approval id m)))))) = asked m.
Proof.
  intros Hok Hid. rewrite asked_tidy by by apply ok_parked. rewrite <- (asked_park_approval id m).
  apply (asked_change id park (park_approval id m)); [|apply park_prompts].
  assert (md_procedures (park_approval id m) = md_procedures m) as ->; [|apply Hok].
  unfold park_approval. destruct (md_mode m); try done. case_match; [|done]. cbv zeta. fields.
  by destruct (forget_unseen_frame request (m_mode MBrowse m)) as (-> & _).
Qed.

Lemma asked_minimise m : tui_ok m → asked (minimise m).2 = asked m.
Proof.
  intros Hok. rewrite minimise_eq. rewrite <- (asked_claim m) by done.
  destruct (claim_dialog_cases m Hok) as [->|(request & Ef & Em & Hf & Hopen & Hid & Hnone & _)].
  - destruct (md_foreground m) as [id|] eqn:Ef; [|done]. case_match; [done|]. cbn [snd].
    apply asked_parked; [by apply ok_no_front|].
    destruct (ok_front m Hok id Ef) as (p & Hp & <- & _). by apply list_elem_of_fmap_2.
  - rewrite Hf, Hopen. rewrite andb_false_r. cbn [snd]. by apply asked_parked.
Qed.

Lemma asked_restore id m : tui_ok m → asked (restore id m).2 = asked m.
Proof.
  intros Hok. unfold restore. case_match eqn:E; [done|]. case_match; [done|]. cbv zeta.
  set (m1 := if negb (bool_decide (md_foreground m = Some id)) then (minimise m).2 else m).
  assert (tui_ok m1 ∧ asked m1 = asked m) as [Hok1 <-].
  { unfold m1. case_match; [split; [by apply ok_minimise|by apply asked_minimise]|done]. }
  case_match; [done|]. case_match eqn:Eg; [done|]. cbn [snd].
  assert (id ∈ ids (md_procedures m1)) as Hid.
  { apply procedure_is_Some. destruct (bool_decide (md_foreground m = Some id)) eqn:Ed.
    - unfold m1. cbn [negb]. by destruct (procedure m id).
    - cbn [negb andb] in Eg. by destruct (procedure m1 id). }
  set (m2 := change_procedure id to_front (m_foreground (Some id) m1)).
  assert (tui_ok (m_modal_scroll 0 (reset_scroll m2)) ∧ asked (m_modal_scroll 0 (reset_scroll m2)) = asked m1)
    as [H2 <-].
  { split; [by apply (ok_same m2); [..|apply ok_to_front]|].
    apply (asked_change id to_front (m_foreground (Some id) m1)); [apply Hok1|done]. }
  case_match; [done|]. by apply asked_show_pending.
Qed.

(** What an event leaves of the prompts [before]. *)
Definition prompts_after (now : Z) (event : TuiEvent) (shown : option SecretPrompt)
  (before after : list SecretPrompt) : Prop :=
  match event with
  | EvPrompt prompt => after ≡ₚ prompt :: before
  | EvAnswer _ => before ≡ₚ option_list shown ++ after
  | EvWithdrawn id | EvRemoved id => after = filter (λ prompt, is_prompt id prompt = false) before
  | EvExpire =>
      after = filter (λ prompt, sp_id prompt ∉ (sp_id <$> filter (λ x, expired now x = true) before)) before
  | EvCancelCountdown => without_deadline <$> after = without_deadline <$> before
  | EvDisconnected => after = []
  | _ => after = before
  end.

(** C16: Requests for approval are neither lost nor multiplied: in every state the TUI can reach, an arriving
    request is added once, an answer removes exactly the one on screen, a withdrawal, an expiry and a loss of the
    connection remove exactly the requests they are about, and nothing else that happens, such as minimising,
    restoring, ends and outcomes of procedures or deployments, changes what waits. *)
Theorem prompts_exact start rows events now event :
  let m := tui_run events (model_new start rows) in
  prompts_after now event (shown_prompt m) (asked m) (asked (tui_step now event m)).
Proof.
  intros m. assert (tui_ok m) as Hok by apply tui_run_ok. revert Hok. generalize m. clear m. intros m Hok.
  destruct event; cbn [prompts_after tui_step].
  - by apply asked_offer_prompt.
  - by apply asked_procedure_step.
  - by apply asked_procedure_ended.
  - by apply asked_missed.
  - by apply asked_remove.
  - by apply asked_step_finished.
  - by apply asked_offer_approval.
  - by apply asked_finish_approval.
  - by apply asked_disconnected.
  - by apply asked_synced.
  - apply asked_procs. unfold push_notice. cbv zeta. by repeat case_match.
  - by apply asked_expire.
  - unfold flash_tick. by case_match.
  - unfold spinner_tick. cbv zeta. by case_match.
  - destruct (asked_take_shown now approved m Hok) as [H <-]. exact H.
  - by apply asked_stop.
  - by apply asked_deployment.
  - by apply asked_dismiss.
  - unfold acknowledge. destruct (next_notice_frame m) as (Hp & Hf & Ha & _).
    rewrite asked_show_pending; [by apply asked_procs|by apply (ok_same m)].
  - by apply asked_minimise.
  - by apply asked_restore.
  - unfold restore_next. cbv zeta. case_match; [by apply asked_restore|done].
  - done.
  - by apply asked_show_pending.
Qed.
