(* ===== verification/TuiScreen.v ===== *)
(** * What is on screen

    What arrives never replaces the request on screen or the dialog the
    operator is in, failures stay listed until they were seen, and everything
    that waits in the task bar can be brought back. *)
From S2P Require Import Prelude BTree Text Paths Schema Procedure Requests Store Git Profiles Rows Tui TuiFacts.
#[local] Open Scope Z_scope.

(** ** The request on screen *)
Definition showing (m : Model) (id : string) (x : SecretPrompt) : Prop :=
  md_foreground m = Some id
  ∧ ∃ p, p ∈ md_procedures m ∧ pd_id p = id ∧ pd_minimised p = false ∧ head (pd_prompts p) = Some x.

Lemma shown_showing m x : tui_ok m → shown_prompt m = Some x ↔ ∃ id, showing m id x.
Proof.
  intros Hok. unfold shown_prompt, showing. split.
  - destruct (front_procedure m) as [p|] eqn:E; [|done]. cbn. intros Hx.
    apply front_procedure_Some in E as (Hp & Hf & Hm); [|done]. exists (pd_id p). split; [done|]. by exists p.
  - intros (id & Hf & p & Hp & <- & Hm & Hx).
    assert (front_procedure m = Some p) as -> by by apply front_procedure_Some. done.
Qed.

Lemma showing_waiting m p x : head (pd_prompts p) = Some x → procedure_waiting m p = true.
Proof. unfold procedure_waiting. by destruct (pd_prompts p). Qed.

Lemma tidy_keeps m p : tui_ok m → p ∈ md_procedures m → procedure_waiting m p = true →
  p ∈ md_procedures (tidy_procedures m).
Proof.
  intros Hok Hp Hw. rewrite tidy_elem by apply Hok. split; [done|]. apply not_true_is_false.
  intros Ho%over_not_waiting. congruence.
Qed.
Lemma tidy_foreground m id :
  md_foreground m = Some id → id ∈ ids (md_procedures (tidy_procedures m)) →
  md_foreground (tidy_procedures m) = Some id.
Proof.
  intros Hf Hid. rewrite tidy_procs in Hid. unfold tidy_procedures. fold (gone m). cbv zeta. fields. rewrite Hf. cbn [is_some_and].
  assert (is_some (procedure (m_procedures (filter (λ p, pd_id p ∉ gone m) (md_procedures m)) m) id) = true) as ->.
  { by apply procedure_is_Some. }
  done.
Qed.

Lemma showing_tidy m id x : tui_ok m → showing m id x → showing (tidy_procedures m) id x.
Proof.
  intros Hok (Hf & p & Hp & <- & Hm & Hx).
  assert (p ∈ md_procedures (tidy_procedures m)) as Hp' by (apply tidy_keeps; [done..|by eapply showing_waiting]).
  split; [|by exists p]. apply tidy_foreground; [done|]. by apply list_elem_of_fmap_2.
Qed.

Lemma showing_map (g : Procedure → Procedure) m id x :
  (∀ p, p ∈ md_procedures m → pd_id p = id → md_foreground m = Some id → pd_minimised p = false →
     head (pd_prompts p) = Some x →
     pd_id (g p) = id ∧ pd_minimised (g p) = false ∧ head (pd_prompts (g p)) = Some x) →
  showing m id x → showing (m_procedures (g <$> md_procedures m) m) id x.
Proof.
  intros Hg (Hf & p & Hp & Hid & Hm & Hx). split; [done|]. exists (g p). fields.
  split; [by apply list_elem_of_fmap_2|]. by apply Hg.
Qed.
Lemma showing_change id' f m id x :
  NoDup (ids (md_procedures m)) →
  (∀ p, pd_id p = id' → id' = id → pd_minimised p = false → head (pd_prompts p) = Some x →
     pd_id (f p) = id ∧ pd_minimised (f p) = false ∧ head (pd_prompts (f p)) = Some x) →
  showing m id x → showing (change_procedure id' f m) id x.
Proof.
  intros Hn Hg. rewrite change_procedure_on by done. apply showing_map. intros p Hp Hid _ Hm Hx. unfold on.
  case_bool_decide as E; [|done]. apply Hg; congruence.
Qed.
Lemma showing_quiet id' f `{!Quiet f} m id x :
  NoDup (ids (md_procedures m)) → showing m id x → showing (change_procedure id' f m) id x.
Proof.
  intros Hn. apply showing_change; [done|]. intros p <- <- Hm Hx.
  rewrite keeps_id, quiet_prompts. split_and!; [done|by apply quiet_minimised|done].
Qed.
Lemma showing_same m m' id x :
  md_procedures m' = md_procedures m → md_foreground m' = md_foreground m → showing m id x → showing m' id x.
Proof. unfold showing. by intros -> ->. Qed.

Lemma showing_ensure id' title step m id x :
  tui_ok m → showing m id x → showing (ensure_procedure id' title step m) id x.
Proof.
  intros Hok (Hf & p & Hp & Hid & Hm & Hx).
  destruct (ensure_frame id' title step m) as [l El]. split; [by rewrite El|].
  rewrite ensure_procs by done.
  assert (p ∈ ensured id' title step m) as Hp' by (unfold ensured; set_solver).
  destruct step as [step|]; [|rewrite list_fmap_id; by exists p].
  exists (on id' (take_step step) p). split; [by apply list_elem_of_fmap_2|].
  unfold on. case_match; [|done]. rewrite keeps_id, quiet_prompts. split_and!; [done|by apply quiet_minimised|done].
Qed.

Lemma showing_busy m id x : tui_ok m → showing m id x → foreground_busy m = true.
Proof.
  intros Hok H. unfold foreground_busy.
  assert (shown_prompt m = Some x) as -> by (apply shown_showing; [done|by exists id]).
  cbn. by rewrite orb_true_r.
Qed.

Lemma showing_arrive id' m id x : tui_ok m → showing m id x → showing (arrive id' m) id x.
Proof.
  intros Hok H. unfold arrive. cbv zeta. rewrite (showing_busy m id x Hok H).
  pose proof H as (Hf & p & Hp & Hid & Hm & Hx).
  assert (shown_prompt m = Some x) as Hs by (apply shown_showing; [done|by exists id]).
  rewrite Hs. cbn [is_some orb negb]. rewrite andb_false_r, andb_true_r.
  case_match eqn:E; [done|]. rewrite Hf in E |- *.
  assert (id ≠ id') as Hne.
  { intros <-. rewrite bool_decide_eq_true_2 in E by done. cbn in E.
    assert (procedure m id = Some p) as Ep by (apply procedure_Some; [apply Hok|done]). rewrite Ep in E. cbn in E.
    by rewrite Hm in E. }
  rewrite decide_False by congruence. apply showing_change; [apply Hok| |done]. intros q _ ->. done.
Qed.

Lemma showing_offer_prompt prompt m id x : tui_ok m → showing m id x → showing (offer_prompt prompt m) id x.
Proof.
  intros Hok H. unfold offer_prompt. cbv zeta.
  set (step := if is_some (sp_confirmation prompt) && _ then None else _).
  set (m1 := ensure_procedure _ _ step m). assert (tui_ok m1) as Hok1 by by apply ok_ensure.
  assert (showing m1 id x) as H1 by by apply showing_ensure.
  assert (tui_ok (change_procedure (prompt_procedure prompt) (ask prompt) m1)) as Hok2.
  { apply tui_ok_change; [..|done].
    - apply _.
    - intros p _ _ _. by rewrite ask_minimised.
    - intros p y _ _. rewrite ask_prompts. rewrite elem_of_app, list_elem_of_singleton. intros [?| ->]; auto. }
  assert (showing (change_procedure (prompt_procedure prompt) (ask prompt) m1) id x) as H2.
  { apply showing_change; [apply Hok1| |done]. intros p <- <- Hm Hx. rewrite keeps_id, ask_minimised, ask_prompts.
    split_and!; [done|done|]. by destruct (pd_prompts p). }
  case_match; [done|]. by apply showing_arrive.
Qed.

Lemma end_with_prompts shown code p x :
  head (pd_prompts p) = Some x → pd_minimised (end_procedure shown code p) = pd_minimised p.
Proof. unfold end_procedure. destruct (pd_prompts p) eqn:E; [done|]. intros _. fields. rewrite E. by rewrite orb_true_r. Qed.

Lemma showing_procedure_ended id' code m id x :
  tui_ok m → showing m id x → showing (procedure_ended id' code m) id x.
Proof.
  intros Hok H. unfold procedure_ended. cbv zeta. apply showing_tidy; [by apply ok_front_checked; [apply _|apply end_prompts|]|].
  set (f := end_procedure _ code). set (m1 := change_procedure id' f m).
  assert (showing m1 id x) as H1.
  { apply showing_change; [apply Hok| |done]. intros p <- <- Hm Hx.
    rewrite keeps_id. unfold f. rewrite (end_with_prompts _ _ p x Hx), end_prompts. done. }
  assert (NoDup (ids (md_procedures m1))) as Hn by (unfold m1; rewrite change_ids; [apply Hok|apply _|apply Hok]).
  case_match eqn:E; [|done]. exfalso. destruct H1 as (Hf & p & Hp & Hid & Hm & Hx). rewrite Hf in E.
  case_bool_decide as Eid; [|done]. injection Eid as <-.
  assert (procedure m1 id = Some p) as Ep by (apply procedure_Some; done). rewrite Ep in E. cbn in E. congruence.
Qed.

Lemma showing_on id' g m id x :
  tui_ok m →
  (∀ q, pd_id (g q) = pd_id q ∧ pd_prompts (g q) = pd_prompts q) →
  (∀ p, p ∈ md_procedures m → md_foreground m = Some (pd_id p) → pd_id p = id' → pd_minimised p = false →
        pd_minimised (g p) = false) →
  showing m id x → showing (m_procedures (on id' g <$> md_procedures m) m) id x.
Proof.
  intros Hok Hg Hm. apply showing_map. intros p Hp <- Hf Hmin Hx. unfold on. case_bool_decide as E; [|done].
  rewrite (proj1 (Hg p)), (proj2 (Hg p)). split_and!; [done|by apply Hm|done].
Qed.

Lemma showing_record_step now index flight outcome text m id x :
  tui_ok m → showing m id x → showing (record_step now index flight outcome text m) id x.
Proof.
  intros Hok H. destruct (md_procedures m !! index) as [p|] eqn:Hp; [|by rewrite record_step_absent].
  destruct (record_step_cases now index flight outcome text m p (ok_ids _ Hok) Hp) as [(g & -> & Hg & Hm)| ->].
  - apply showing_on; [done..| |done]. intros q Hq Hf E Hmin.
    assert (q = p) as ->; [|by apply Hm].
    apply (same_id (md_procedures m)); [apply Hok|done|by eapply list_elem_of_lookup_2|done].
  - apply showing_procedure_ended; [by apply ok_on|]. by apply showing_on.
Qed.

Lemma showing_step_reported now step outcome reason m id x :
  tui_ok m → showing m id x → showing (step_reported now step outcome reason m) id x.
Proof.
  intros Hok H. unfold step_reported. case_match eqn:Ei; [|done]. cbv zeta. case_match.
  - destruct (md_procedures m !! n) as [p|] eqn:Hp; [|by cbn in *].
    rewrite (alter_on _ _ _ p) by (done || apply Hok).
    rewrite <- change_procedure_on by apply Hok. apply showing_quiet; [apply _|apply Hok|done].
  - apply showing_tidy; [by apply ok_record_step|]. by apply showing_record_step.
Qed.

Lemma showing_procedure_step now step m id x : tui_ok m → showing m id x → showing (procedure_step now step m) id x.
Proof.
  intros Hok H. unfold procedure_step. cbv zeta.
  apply showing_ensure with (id' := ps_id step) (title := "") (step := Some step) in H; [|done].
  apply ok_ensure with (id := ps_id step) (title := "") (step := Some step) in Hok.
  revert Hok H. generalize (ensure_procedure (ps_id step) "" (Some step) m). clear m. intros m Hok H.
  set (m1 := if ps_deployment step then _ else m).
  assert (tui_ok m1 ∧ showing m1 id x) as [H1 S1].
  { unfold m1. case_match; [|done]. split; [apply ok_quiet; [by split|done]|].
    apply showing_quiet; [by split|apply Hok|done]. }
  set (m2 := match ps_warning step with Some _ => _ | None => m1 end).
  assert (tui_ok m2 ∧ showing m2 id x) as [H2 S2].
  { unfold m2. destruct (ps_warning step); [|done].
    split; [by apply ok_step_reported|by apply showing_step_reported]. }
  destruct (ps_failure step); [by apply showing_step_reported|done].
Qed.

Lemma showing_take_in_flight request m found m' id x :
  take_in_flight request m = (found, m') → showing m id x → showing m' id x.
Proof.
  intros [Em Hl]%take_in_flight_spec (Hf & p & Hp & Hid & Hm & Hx). split; [by rewrite Em|].
  apply list_elem_of_lookup in Hp as [i Hi]. eapply Forall2_lookup_l in Hl as (q & Hq & E); [|done].
  exists q. split; [by eapply list_elem_of_lookup_2|]. rewrite E. by destruct p.
Qed.

Lemma showing_step_finished now request outcome m id x :
  tui_ok m → showing m id x → showing (step_finished now request outcome m).2 id x.
Proof.
  intros Hok H. unfold step_finished. destruct (take_in_flight request m) as [[[index flight]|] m'] eqn:E.
  - pose proof (showing_take_in_flight _ _ _ _ _ _ E H) as H'. apply ok_take_in_flight in E; [|done].
    destruct (classify now flight outcome). cbn. apply showing_tidy; [by apply ok_record_step|].
    by apply showing_record_step.
  - by apply (showing_take_in_flight _ _ _ _ _ _ E).
Qed.

Lemma showing_drop prompt_id m id x :
  is_prompt prompt_id x = false → showing m id x → showing (drop_prompt prompt_id m).2 id x.
Proof.
  intros Hne H. unfold drop_prompt. cbn [snd].
  assert (showing (m_procedures
    ((λ p, p_prompts (filter (λ prompt, is_prompt prompt_id prompt = false) (pd_prompts p)) p) <$> md_procedures m) m)
    id x) as H'.
  { apply showing_map; [|done]. intros p _ <- _ Hm Hx. split_and!; [done|done|]. fields.
    destruct (pd_prompts p) as [|y ys]; [done|]. injection Hx as ->. by rewrite filter_cons, decide_True. }
  case_match; [by eapply showing_same|done].
Qed.
Lemma showing_remove prompt_id m id x : tui_ok m →
  is_prompt prompt_id x = false → showing m id x → showing (remove_prompt prompt_id m).2 id x.
Proof.
  intros Hok Hne H. unfold remove_prompt. pose proof (ok_drop_prompt prompt_id m Hok) as Ho.
  pose proof (showing_drop prompt_id m id x Hne H) as Hs. destruct (drop_prompt prompt_id m). by apply showing_tidy.
Qed.
Lemma showing_missed now prompt_id outcome text m id x : tui_ok m →
  is_prompt prompt_id x = false → showing m id x → showing (prompt_missed now prompt_id outcome text m).2 id x.
Proof.
  intros Hok Hne H. unfold prompt_missed. pose proof (ok_drop_prompt prompt_id m Hok) as Ho.
  pose proof (showing_drop prompt_id m id x Hne H) as Hs.
  destruct (drop_prompt prompt_id m) as [removed m1]. cbn [snd] in *. cbn [fst].
  destruct (take_in_flight prompt_id m1) as [[[index flight]|] m2] eqn:E;
    pose proof (showing_take_in_flight _ _ _ _ _ _ E Hs) as Ht; apply ok_take_in_flight in E; try done.
  - apply showing_tidy; [by apply ok_record_step|]. by apply showing_record_step.
  - by apply showing_tidy.
Qed.
Lemma showing_expire now m id x : tui_ok m →
  sp_id x ∉ (sp_id <$> filter (λ x, expired now x = true) (asked m)) →
  showing m id x → showing (expire_prompts now m).2 id x.
Proof.
  intros Hok. unfold expire_prompts. cbn [snd]. fold (asked m).
  generalize (sp_id <$> filter (λ x, expired now x = true) (asked m)). intros gone_ids.
  revert m Hok. induction gone_ids as [|i gone_ids IH]; intros m Hok; cbn [foldl]; [done|].
  rewrite not_elem_of_cons. intros [Hi Hg] H. apply IH; [by apply ok_prompt_missed|done|].
  apply showing_missed; [done| |done]. unfold is_prompt. by apply bool_decide_eq_false.
Qed.

Lemma showing_show_pending m id x : tui_ok m → showing m id x → showing (show_pending_approval m) id x.
Proof.
  intros Hok H. apply showing_tidy in H; [|done]. unfold show_pending_approval. cbv zeta. revert H.
  generalize (tidy_procedures m). clear m Hok. intros m. apply showing_same; (case_match; [done|]).
  all: destruct (hide_notice_frame m) as (Hp & Hf & _); destruct (next_notice_frame m) as (Np & Nf & _).
  all: destruct (md_pending_dialogs m); [|done]; destruct (foreground_approval m) as [[]|]; [done|]; by case_match.
Qed.

Lemma showing_enqueue request m id x :
  approval_procedure request ∈ ids (md_procedures m) → tui_ok m → showing m id x →
  showing (enqueue_approval request m) id x.
Proof.
  intros Hid Hok H. unfold enqueue_approval.
  assert (tui_ok (m_pending_approvals (md_pending_approvals m ++ [request]) m)) as Ho.
  { destruct Hok as [H1 H2 H3 H4]. split; fields; [done|done| |done].
    intros r. rewrite elem_of_app, list_elem_of_singleton. intros [Hr| ->]; [by apply H3|done]. }
  apply showing_show_pending; [by apply ok_arrive|]. by apply showing_arrive.
Qed.

Lemma showing_offer_approval request m id x : tui_ok m → showing m id x → showing (offer_approval request m) id x.
Proof.
  intros Hok H. unfold offer_approval. case_match; [done|]. cbv zeta.
  set (mv := m_view _ m). assert (tui_ok mv) as Hv by by apply (ok_same m).
  assert (showing mv id x) as Sv by done.
  set (m1 := ensure_procedure _ _ _ mv).
  assert (tui_ok m1) as Hok1 by by apply ok_ensure.
  assert (showing m1 id x) as S1 by by apply showing_ensure.
  assert (approval_procedure request ∈ ids (md_procedures m1)) as Hid.
  { unfold m1. rewrite ensure_ids by done. apply ensured_id. }
  set (m2 := change_procedure _ _ m1).
  assert (KeepsId (λ p, p_between None (p_awaiting_deployment false p))) as Kb by done.
  assert (Quiet (λ p, p_between None (p_awaiting_deployment false p))) as Qb by by split.
  assert (tui_ok m2) as Hok2 by (by apply ok_quiet).
  assert (showing m2 id x) as S2 by (apply showing_quiet; [done|apply Hok1|done]).
  assert (approval_procedure request ∈ ids (md_procedures m2)) as Hid2.
  { unfold m2. rewrite change_ids; [done|done|apply Hok1]. }
  case_match.
  - apply showing_show_pending; [|by eapply showing_same]. destruct Hok2 as [K1 K2 K3 K4].
    split; fields; [done|done| |done].
    intros r [Hr|(y & Hy & _ & ->)]%update_first_elem; [by apply K3|].
    unfold advance_queued. case_match; [done|by apply K3].
  - destruct (md_mode m2); try by apply showing_enqueue.
    case_match; [|by apply showing_enqueue]. case_match; [by eapply showing_same|done].
Qed.

Lemma showing_finish_approval r m id x : tui_ok m → showing m id x → showing (finish_approval r m) id x.
Proof.
  intros [H1 H2 H3 H4] H. unfold finish_approval. cbv zeta.
  set (m1 := m_pending_approvals _ _).
  assert (tui_ok m1) as Hm1.
  { split; unfold m1; fields; [done|done| |done]. intros q [_ Hr]%list_elem_of_filter. by apply H3. }
  apply showing_tidy.
  - destruct (md_mode m1); try done. case_match; [by apply ok_quiet_mode|done].
  - assert (showing m1 id x) as S1 by by eapply showing_same. destruct (md_mode m1); try done. by case_match.
Qed.

Lemma showing_synced live m id x : tui_ok m → showing m id x → showing (procedures_synced live m) id x.
Proof.
  intros Hok H. unfold procedures_synced. cbv zeta. generalize (pd_id <$> filter (λ p, negb (pd_implicit p)
    && negb (pd_ended p) && negb (bool_decide (pd_id p ∈ live)) = true) (md_procedures m)). intros l.
  assert (tui_ok (foldl (λ m id, procedure_ended id None m) m l)
          ∧ showing (foldl (λ m id, procedure_ended id None m) m l) id x) as [H1 H2].
  { revert m Hok H. induction l as [|i l IH]; intros m Hok H; [done|]. cbn [foldl].
    apply IH; [by apply ok_procedure_ended|by apply showing_procedure_ended]. }
  by apply showing_tidy.
Qed.

Lemma showing_notice text severity m id x : showing m id x → showing (push_notice text severity m) id x.
Proof. apply showing_same; unfold push_notice; cbv zeta; by repeat case_match. Qed.

(** ** Nothing opens over what is on screen *)
Definition bare (m : Model) : Prop :=
  ∀ p, p ∈ md_procedures m → md_foreground m = Some (pd_id p) → pd_prompts p = [].
Lemma bare_shown m : tui_ok m → bare m ↔ shown_prompt m = None.
Proof.
  intros Hok. unfold shown_prompt. split.
  - intros Hb. destruct (front_procedure m) as [p|] eqn:E; [|done]. cbn.
    apply front_procedure_Some in E as (Hp & Hf & _); [|done]. by rewrite (Hb p Hp Hf).
  - intros Hs p Hp Hf. destruct (ok_front m Hok _ Hf) as (q & Hq & E & Hm).
    rewrite (same_id _ p q (ok_ids m Hok) Hp Hq (eq_sym E)) in *.
    assert (front_procedure m = Some q) as Ef by by apply front_procedure_Some. rewrite Ef in Hs. cbn in Hs.
    by destruct (pd_prompts q).
Qed.

(** [m'] has nothing in front, or in prompts, that [m] has not. *)
Definition below (m m' : Model) : Prop :=
  (md_foreground m' = md_foreground m ∨ md_foreground m' = None)
  ∧ ∀ q, q ∈ md_procedures m' →
      pd_prompts q = [] ∨ ∃ p, p ∈ md_procedures m ∧ pd_id p = pd_id q ∧ (pd_prompts p = [] → pd_prompts q = []).
Lemma below_bare m m' : below m m' → bare m → bare m'.
Proof.
  intros [Hf Hp] Hb q Hq Hid. destruct (Hp q Hq) as [?|(p & Hpp & E & H)]; [done|]. apply H, Hb; [done|].
  destruct Hf as [Hf|Hf]; congruence.
Qed.
Lemma below_refl m : below m m.
Proof. split; [by left|]. intros q Hq. right. by exists q. Qed.
Lemma below_trans m1 m2 m3 : below m1 m2 → below m2 m3 → below m1 m3.
Proof.
  intros [Hf1 H1] [Hf2 H2]. split.
  - destruct Hf2 as [->| ->]; [done|by right].
  - intros q Hq. destruct (H2 q Hq) as [?|(p & Hp & E & H)]; [by left|].
    destruct (H1 p Hp) as [?|(p' & Hp' & E' & H')]; [left; auto|]. right. exists p'.
    split_and!; [done|congruence|auto].
Qed.
Lemma below_same m m' :
  md_procedures m' = md_procedures m → md_foreground m' = md_foreground m ∨ md_foreground m' = None → below m m'.
Proof. intros Hp Hf. split; [done|]. rewrite Hp. intros q Hq. right. by exists q. Qed.
Lemma below_map (g : Procedure → Procedure) m :
  (∀ p, pd_id (g p) = pd_id p ∧ (pd_prompts p = [] → pd_prompts (g p) = [])) →
  below m (m_procedures (g <$> md_procedures m) m).
Proof.
  intros Hg. split; [by left|]. fields. intros q (p & -> & Hp)%list_elem_of_fmap. right. exists p.
  split_and!; [done|symmetry; apply Hg|apply Hg].
Qed.
Lemma below_change id f m :
  NoDup (ids (md_procedures m)) → (∀ p, pd_id (f p) = pd_id p ∧ (pd_prompts p = [] → pd_prompts (f p) = [])) →
  below m (change_procedure id f m).
Proof.
  intros Hn Hg. rewrite change_procedure_on by done. apply below_map. intros p. unfold on. case_match; [apply Hg|done].
Qed.
Lemma below_tidy m : below m (tidy_procedures m).
Proof.
  split.
  - unfold tidy_procedures. cbv zeta. case_match; [by right|by left].
  - rewrite tidy_procs. intros q [_ Hq]%list_elem_of_filter. right. by exists q.
Qed.
Lemma below_ensure id title step m : tui_ok m → below m (ensure_procedure id title step m).
Proof.
  intros Hok. destruct (ensure_frame id title step m) as [l El]. split; [left; by rewrite El|].
  rewrite ensure_procs by done. intros q (p & -> & Hp)%list_elem_of_fmap.
  assert (pd_id (match step with Some step => on id (take_step step) | None => λ p, p end p) = pd_id p
     ∧ pd_prompts (match step with Some step => on id (take_step step) | None => λ p, p end p) = pd_prompts p) as [E1 E2].
  { destruct step as [step|]; [|done]. unfold on. case_match; [|done].
    split; [apply keeps_id|apply quiet_prompts]. }
  rewrite E1, E2. unfold ensured in Hp. apply elem_of_app in Hp as [Hp|Hp]; [right; by exists p|left].
  destruct (is_some (procedure m id)); [by apply elem_of_nil in Hp|]. by apply list_elem_of_singleton in Hp as ->.
Qed.

Lemma below_procedure_ended id code m : tui_ok m → below m (procedure_ended id code m).
Proof.
  intros Hok. unfold procedure_ended. cbv zeta. eapply below_trans; [|apply below_tidy].
  set (f := end_procedure _ code). set (m1 := change_procedure id f m).
  assert (below m m1) as H1.
  { apply below_change; [apply Hok|]. intros p. unfold f. rewrite end_prompts. split; [apply keeps_id|done]. }
  eapply below_trans; [exact H1|]. case_match; [apply below_same; [done|by right]|apply below_refl].
Qed.
Lemma below_on id g m :
  (∀ q, pd_id (g q) = pd_id q ∧ pd_prompts (g q) = pd_prompts q) →
  below m (m_procedures (on id g <$> md_procedures m) m).
Proof.
  intros Hg. apply below_map. intros p. unfold on. case_match; [|done].
  rewrite (proj1 (Hg p)), (proj2 (Hg p)). done.
Qed.
Lemma below_record_step now index flight outcome text m :
  tui_ok m → below m (record_step now index flight outcome text m).
Proof.
  intros Hok. destruct (md_procedures m !! index) as [p|] eqn:Hp; [|rewrite record_step_absent by done; apply below_refl].
  destruct (record_step_cases now index flight outcome text m p (ok_ids _ Hok) Hp) as [(g & -> & Hg & Hm)| ->].
  - by apply below_on.
  - eapply below_trans; [|apply below_procedure_ended; by apply ok_on]. by apply below_on.
Qed.
Lemma below_step_reported now step outcome reason m : tui_ok m → below m (step_reported now step outcome reason m).
Proof.
  intros Hok. unfold step_reported. case_match eqn:Ei; [|apply below_refl]. cbv zeta. case_match.
  - destruct (md_procedures m !! n) as [p|] eqn:Hp; [|by cbn in *].
    rewrite (alter_on _ _ _ p) by (done || apply Hok). apply below_on. intros q.
    split; [apply keeps_id|apply quiet_prompts].
  - eapply below_trans; [by apply below_record_step|apply below_tidy].
Qed.
Lemma below_procedure_step now step m : tui_ok m → below m (procedure_step now step m).
Proof.
  intros Hok. unfold procedure_step. cbv zeta.
  eapply below_trans; [by apply (below_ensure (ps_id step) "" (Some step))|].
  apply ok_ensure with (id := ps_id step) (title := "") (step := Some step) in Hok.
  revert Hok. generalize (ensure_procedure (ps_id step) "" (Some step) m). clear m. intros m Hok.
  set (m1 := if ps_deployment step then _ else m).
  assert (tui_ok m1 ∧ below m m1) as [H1 S1].
  { unfold m1. case_match; [|split; [done|apply below_refl]]. split; [apply ok_quiet; [by split|done]|].
    apply below_change; [apply Hok|done]. }
  eapply below_trans; [exact S1|].
  set (m2 := match ps_warning step with Some _ => _ | None => m1 end).
  assert (tui_ok m2 ∧ below m1 m2) as [H2 S2].
  { unfold m2. destruct (ps_warning step); [|split; [done|apply below_refl]].
    split; [by apply ok_step_reported|by apply below_step_reported]. }
  eapply below_trans; [exact S2|].
  destruct (ps_failure step); [by apply below_step_reported|apply below_refl].
Qed.
Lemma below_take_in_flight request m found m' : take_in_flight request m = (found, m') → below m m'.
Proof.
  intros [Em Hl]%take_in_flight_spec. split; [left; by rewrite Em|]. intros q Hq.
  apply list_elem_of_lookup in Hq as [i Hi]. eapply Forall2_lookup_r in Hl as (p & Hp & E); [|done].
  right. exists p. split; [by eapply list_elem_of_lookup_2|]. rewrite E. by destruct p.
Qed.
Lemma below_step_finished now request outcome m : tui_ok m → below m (step_finished now request outcome m).2.
Proof.
  intros Hok. unfold step_finished. destruct (take_in_flight request m) as [[[index flight]|] m'] eqn:E.
  - pose proof (below_take_in_flight _ _ _ _ E) as H'. apply ok_take_in_flight in E; [|done].
    destruct (classify now flight outcome). cbn. eapply below_trans; [exact H'|].
    eapply below_trans; [by apply below_record_step|apply below_tidy].
  - by apply below_take_in_flight in E.
Qed.

Lemma below_drop prompt_id m : below m (drop_prompt prompt_id m).2.
Proof.
  unfold drop_prompt. cbn [snd].
  assert (below m (m_procedures
    ((λ p, p_prompts (filter (λ prompt, is_prompt prompt_id prompt = false) (pd_prompts p)) p) <$> md_procedures m) m))
    as H.
  { apply below_map. intros p. split; [done|]. fields. by intros ->. }
  case_match; [|done]. eapply below_trans; [exact H|]. apply below_same; [done|by left].
Qed.
Lemma below_remove prompt_id m : below m (remove_prompt prompt_id m).2.
Proof.
  unfold remove_prompt. pose proof (below_drop prompt_id m) as H. destruct (drop_prompt prompt_id m).
  eapply below_trans; [exact H|apply below_tidy].
Qed.
Lemma below_missed now prompt_id outcome text m : tui_ok m → below m (prompt_missed now prompt_id outcome text m).2.
Proof.
  intros Hok. unfold prompt_missed. pose proof (ok_drop_prompt prompt_id m Hok) as Ho.
  pose proof (below_drop prompt_id m) as Hs.
  destruct (drop_prompt prompt_id m) as [removed m1]. cbn [snd] in *. cbn [fst]. eapply below_trans; [exact Hs|].
  destruct (take_in_flight prompt_id m1) as [[[index flight]|] m2] eqn:E;
    (eapply below_trans; [by eapply below_take_in_flight|]); apply ok_take_in_flight in E; try done.
  - eapply below_trans; [by apply below_record_step|apply below_tidy].
  - apply below_tidy.
Qed.
Lemma below_expire now m : tui_ok m → below m (expire_prompts now m).2.
Proof.
  intros Hok. unfold expire_prompts. cbn [snd].
  generalize (sp_id <$> filter (λ x, expired now x = true) (mjoin (pd_prompts <$> md_procedures m))). intros l.
  revert m Hok. induction l as [|i l IH]; intros m Hok; cbn [foldl]; [apply below_refl|].
  eapply below_trans; [by apply below_missed|]. apply IH. by apply ok_prompt_missed.
Qed.
Lemma below_synced live m : tui_ok m → below m (procedures_synced live m).
Proof.
  intros Hok. unfold procedures_synced. cbv zeta. generalize (pd_id <$> filter (λ p, negb (pd_implicit p)
    && negb (pd_ended p) && negb (bool_decide (pd_id p ∈ live)) = true) (md_procedures m)). intros l.
  eapply below_trans; [|apply below_tidy].
  revert m Hok. induction l as [|i l IH]; intros m Hok; cbn [foldl]; [apply below_refl|].
  eapply below_trans; [by apply below_procedure_ended|]. apply IH. by apply ok_procedure_ended.
Qed.
Lemma below_show_pending m : below m (show_pending_approval m).
Proof.
  eapply below_trans; [apply below_tidy|]. unfold show_pending_approval. cbv zeta.
  generalize (tidy_procedures m). clear m. intros m.
  apply below_same; [|left]; (case_match; [done|]).
  all: destruct (hide_notice_frame m) as (Hp & Hf & _); destruct (next_notice_frame m) as (Np & Nf & _).
  all: destruct (md_pending_dialogs m); [|done]; destruct (foreground_approval m) as [[]|]; [done|]; by case_match.
Qed.
Lemma below_finish_approval r m : below m (finish_approval r m).
Proof.
  unfold finish_approval. cbv zeta. eapply below_trans; [|apply below_tidy].
  set (m1 := m_pending_approvals _ _).
  assert (below m m1) as H1 by (apply below_same; [done|by left]).
  destruct (md_mode m1); try exact H1. case_match; [|exact H1]. eapply below_trans; [exact H1|].
  apply below_same; [done|by left].
Qed.

(** What is on screen depends on the procedure in front only. *)
Lemma procedure_change id' f m id : NoDup (ids (md_procedures m)) → KeepsId f → id ≠ id' →
  procedure (change_procedure id' f m) id = procedure m id.
Proof.
  intros Hn Hk Hne. destruct (procedure m id) as [p|] eqn:E.
  - apply procedure_Some in E as [Hp <-]; [|done].
    apply procedure_Some; [rewrite change_ids; done|]. split; [|done].
    rewrite change_procedure_on by done. apply elem_on. exists p. by rewrite on_other.
  - apply procedure_None. rewrite change_ids by done. by apply procedure_None.
Qed.
Lemma procedure_ensure id' title step m id : tui_ok m → id ≠ id' →
  procedure (ensure_procedure id' title step m) id = procedure m id.
Proof.
  intros Hok Hne. pose proof (ok_ensure id' title step m Hok) as He.
  destruct (procedure m id) as [p|] eqn:E.
  - apply procedure_Some in E as [Hp <-]; [|apply Hok]. apply procedure_Some; [apply He|]. split; [|done].
    rewrite ensure_procs by done. apply list_elem_of_fmap. exists p. split; [|unfold ensured; set_solver].
    destruct step; [|done]. by rewrite on_other.
  - apply procedure_None in E. apply procedure_None. rewrite ensure_ids by done. unfold ensured, ids in *.
    rewrite fmap_app, elem_of_app. intros [?|H]; [done|].
    destruct (is_some (procedure m id')); [by apply elem_of_nil in H|]. cbn in H.
    by apply list_elem_of_singleton in H.
Qed.
Lemma busy_same m m' : md_mode m' = md_mode m → front_procedure m' = front_procedure m →
  foreground_busy m' = foreground_busy m.
Proof. unfold foreground_busy, shown_prompt, between_shown. by intros -> ->. Qed.
Lemma front_same m m' :
  md_foreground m' = md_foreground m →
  (∀ id, md_foreground m = Some id → procedure m' id = procedure m id) → front_procedure m' = front_procedure m.
Proof.
  unfold front_procedure. intros -> H. destruct (md_foreground m) as [id|] eqn:E; [|done]. cbn. by rewrite H.
Qed.

(** A procedure that is not in front, or in front already, opens nothing. *)
Lemma below_arrive id m : tui_ok m → foreground_busy m = true ∨ md_foreground m = Some id → below m (arrive id m).
Proof.
  intros Hok Hb. unfold arrive. cbv zeta. case_match; [apply below_refl|]. case_match eqn:E2.
  - exfalso. destruct Hb as [Hb|Hf]; [rewrite Hb in E2; by rewrite andb_false_r in E2|].
    destruct (ok_front m Hok id Hf) as (p & Hp & Hid & Hm).
    assert (procedure m id = Some p) as Ep by (apply procedure_Some; [apply Hok|done]).
    rewrite Ep in E2. cbn [is_some_and] in E2. rewrite Hm, bool_decide_eq_true_2 in E2 by done. done.
  - case_decide.
    + eapply below_trans; [apply (below_same m (m_foreground None m)); [done|by right]|].
      apply below_change; [apply Hok|done].
    + apply below_change; [apply Hok|done].
Qed.

Lemma busy_other id title step f m :
  tui_ok m → KeepsId f → md_foreground m ≠ Some id →
  foreground_busy (change_procedure id f (ensure_procedure id title step m)) = foreground_busy m.
Proof.
  intros Hok Hk Hne. destruct (ensure_frame id title step m) as [l El].
  pose proof (ok_ensure id title step m Hok) as He.
  apply busy_same; [unfold change_procedure; by rewrite El|]. apply front_same; [unfold change_procedure; by rewrite El|].
  intros i Hi. rewrite procedure_change; [|apply He|done|congruence].
  apply procedure_ensure; [done|congruence].
Qed.

Lemma bare_offer_prompt prompt m : tui_ok m →
  md_foreground m ≠ Some (prompt_procedure prompt) → foreground_busy m = true → bare m → bare (offer_prompt prompt m).
Proof.
  intros Hok Hne Hb Hbare. unfold offer_prompt. cbv zeta.
  set (step := if is_some (sp_confirmation prompt) && _ then None else _).
  set (m1 := ensure_procedure _ _ step m). assert (tui_ok m1) as Hok1 by by apply ok_ensure.
  set (m2 := change_procedure _ _ m1).
  assert (tui_ok m2) as Hok2.
  { apply tui_ok_change; [apply _|..|done].
    - intros p _ _ _. by rewrite ask_minimised.
    - intros p y _ _. rewrite ask_prompts, elem_of_app, list_elem_of_singleton. intros [?| ->]; auto. }
  assert (foreground_busy m2 = true) as Hb2 by (unfold m2, m1; rewrite busy_other by (done || apply _); done).
  assert (bare m2) as Hbare2.
  { pose proof (below_ensure (prompt_procedure prompt) (prompt_title prompt) step m Hok) as Hbel.
    apply below_bare in Hbel; [|done]. intros q Hq Hf.
    destruct (ensure_frame (prompt_procedure prompt) (prompt_title prompt) step m) as [l El].
    unfold m2 in Hq, Hf. rewrite change_procedure_on in Hq by apply Hok1.
    apply elem_on in Hq as (p & Hp & ->).
    assert (md_foreground m1 = Some (pd_id (on (prompt_procedure prompt) (ask prompt) p))) as Hf1 by exact Hf.
    assert (pd_id p ≠ prompt_procedure prompt) as Hpne.
    { intros E. rewrite on_same in Hf1 by done. rewrite keeps_id in Hf1. unfold m1 in Hf1. rewrite El in Hf1.
      cbn in Hf1. congruence. }
    rewrite on_other in Hf1 |- * by done. by apply Hbel. }
  case_match; [done|]. eapply below_bare; [|done]. apply below_arrive; [done|by left].
Qed.

Lemma below_enqueue request m : tui_ok m →
  approval_procedure request ∈ ids (md_procedures m) →
  foreground_busy m = true ∨ md_foreground m = Some (approval_procedure request) → below m (enqueue_approval request m).
Proof.
  intros Hok Hid Hb. unfold enqueue_approval.
  set (m1 := m_pending_approvals _ m).
  assert (tui_ok m1) as Ho.
  { destruct Hok as [H1 H2 H3 H4]. split; unfold m1; fields; [done|done| |done].
    intros r. rewrite elem_of_app, list_elem_of_singleton. intros [Hr| ->]; [by apply H3|done]. }
  eapply below_trans; [apply (below_same m m1); [done|by left]|].
  eapply below_trans; [|apply below_show_pending]. apply below_arrive; [done|].
  destruct Hb as [Hb|Hf]; [left|by right]. by rewrite <- Hb; apply busy_same.
Qed.

Lemma below_offer_approval request m : tui_ok m → foreground_busy m = true → below m (offer_approval request m).
Proof.
  intros Hok Hb. unfold offer_approval. case_match; [apply below_refl|]. cbv zeta.
  set (mv := m_view _ m). assert (tui_ok mv) as Hv by by apply (ok_same m).
  assert (below m mv) as Bv by (apply below_same; [done|by left]).
  set (m1 := ensure_procedure _ _ _ mv).
  assert (tui_ok m1) as Hok1 by by apply ok_ensure.
  assert (below mv m1) as B1 by by apply below_ensure.
  assert (approval_procedure request ∈ ids (md_procedures m1)) as Hid.
  { unfold m1. rewrite ensure_ids by done. apply ensured_id. }
  set (m2 := change_procedure _ _ m1).
  assert (KeepsId (λ p, p_between None (p_awaiting_deployment false p))) as Kb by done.
  assert (tui_ok m2) as Hok2 by (apply ok_quiet; [by split|done]).
  assert (below m1 m2) as B2 by (apply below_change; [apply Hok1|done]).
  assert (below m m2) as B by (eapply below_trans; [exact Bv|]; by eapply below_trans).
  assert (approval_procedure request ∈ ids (md_procedures m2)) as Hid2.
  { unfold m2. rewrite change_ids; [done|done|apply Hok1]. }
  assert (foreground_busy m2 = true ∨ md_foreground m2 = Some (approval_procedure request)) as Hb2.
  { destruct (decide (md_foreground m = Some (approval_procedure request))) as [Hf|Hf].
    - right. unfold m2, m1. destruct (ensure_frame (approval_procedure request) ("Deploy " +:+ ar_target request)
        (ar_procedure request) mv) as [l El]. by rewrite El.
    - left. unfold m2, m1. rewrite busy_other by done. by rewrite <- Hb; apply busy_same. }
  case_match.
  - eapply below_trans; [exact B|]. eapply below_trans; [|apply below_show_pending]. apply below_same; [done|by left].
  - destruct (md_mode m2); try (eapply below_trans; [exact B|by apply below_enqueue]).
    case_match; [|eapply below_trans; [exact B|by apply below_enqueue]].
    case_match; [|exact B]. eapply below_trans; [exact B|]. apply below_same; [done|by left].
Qed.

(** ** The open dialog *)
Lemma mode_tidy m : md_mode (tidy_procedures m) = md_mode m.
Proof. unfold tidy_procedures. cbv zeta. by case_match. Qed.
Lemma mode_ensure id title step m : md_mode (ensure_procedure id title step m) = md_mode m.
Proof. by destruct (ensure_frame id title step m) as [l ->]. Qed.
Lemma mode_arrive id m : md_mode (arrive id m) = md_mode m.
Proof. unfold arrive. cbv zeta. case_match; [done|]. case_match; [by rewrite mode_tidy|]. by case_decide. Qed.
Lemma mode_offer_prompt prompt m : md_mode (offer_prompt prompt m) = md_mode m.
Proof. unfold offer_prompt. cbv zeta. case_match; rewrite ?mode_arrive; apply mode_ensure. Qed.
Lemma mode_procedure_ended id code m : md_mode (procedure_ended id code m) = md_mode m.
Proof. unfold procedure_ended. cbv zeta. rewrite mode_tidy. by case_match. Qed.
Lemma mode_record_step now index flight outcome text m :
  md_mode (record_step now index flight outcome text m) = md_mode m.
Proof.
  unfold record_step. cbv zeta. case_match; [|done]. case_match.
  - case_match; [case_match|]; try done; case_match; try done; by rewrite mode_procedure_ended.
  - case_match; [done|]. destruct (step_reported_failed _); [|done]. by case_match.
Qed.
Lemma mode_step_reported now step outcome reason m : md_mode (step_reported now step outcome reason m) = md_mode m.
Proof.
  unfold step_reported. case_match; [|done]. cbv zeta. case_match; [done|]. by rewrite mode_tidy, mode_record_step.
Qed.
Lemma mode_procedure_step now step m : md_mode (procedure_step now step m) = md_mode m.
Proof.
  unfold procedure_step. cbv zeta. rewrite <- (mode_ensure (ps_id step) "" (Some step) m).
  generalize (ensure_procedure (ps_id step) "" (Some step) m). clear m. intros m.
  set (m1 := if ps_deployment step then _ else m). assert (md_mode m1 = md_mode m) as <- by (unfold m1; by case_match).
  set (m2 := match ps_warning step with Some _ => _ | None => m1 end).
  assert (md_mode m2 = md_mode m1) as <- by (unfold m2; destruct (ps_warning step); [apply mode_step_reported|done]).
  destruct (ps_failure step); [apply mode_step_reported|done].
Qed.
Lemma mode_take_in_flight request m found m' : take_in_flight request m = (found, m') → md_mode m' = md_mode m.
Proof. by intros [-> _]%take_in_flight_spec. Qed.
Lemma mode_step_finished now request outcome m : md_mode (step_finished now request outcome m).2 = md_mode m.
Proof.
  unfold step_finished. destruct (take_in_flight request m) as [[[index flight]|] m'] eqn:E;
    apply mode_take_in_flight in E; [|done]. destruct (classify now flight outcome). cbn.
  by rewrite mode_tidy, mode_record_step.
Qed.
Lemma mode_drop prompt_id m : md_mode (drop_prompt prompt_id m).2 = md_mode m.
Proof. unfold drop_prompt. cbn [snd]. by case_match. Qed.
Lemma mode_remove prompt_id m : md_mode (remove_prompt prompt_id m).2 = md_mode m.
Proof.
  unfold remove_prompt. pose proof (mode_drop prompt_id m) as H. destruct (drop_prompt prompt_id m). cbn in *.
  by rewrite mode_tidy.
Qed.
Lemma mode_missed now prompt_id outcome text m : md_mode (prompt_missed now prompt_id outcome text m).2 = md_mode m.
Proof.
  unfold prompt_missed. pose proof (mode_drop prompt_id m) as Hs.
  destruct (drop_prompt prompt_id m) as [removed m1]. cbn [snd] in *. cbn [fst].
  destruct (take_in_flight prompt_id m1) as [[[index flight]|] m2] eqn:E; apply mode_take_in_flight in E;
    rewrite mode_tidy, ?mode_record_step; congruence.
Qed.
Lemma mode_expire now m : md_mode (expire_prompts now m).2 = md_mode m.
Proof.
  unfold expire_prompts. cbn [snd].
  generalize (sp_id <$> filter (λ x, expired now x = true) (mjoin (pd_prompts <$> md_procedures m))). intros l.
  revert m. induction l as [|i l IH]; intros m; cbn [foldl]; [done|]. by rewrite IH, mode_missed.
Qed.
Lemma mode_synced live m : md_mode (procedures_synced live m) = md_mode m.
Proof.
  unfold procedures_synced. cbv zeta. generalize (pd_id <$> filter (λ p, negb (pd_implicit p)
    && negb (pd_ended p) && negb (bool_decide (pd_id p ∈ live)) = true) (md_procedures m)). intros l.
  rewrite mode_tidy. revert m. induction l as [|i l IH]; intros m; cbn [foldl]; [done|].
  by rewrite IH, mode_procedure_ended.
Qed.
Lemma mode_show_pending m : is_browse (md_mode m) = false → md_mode (show_pending_approval m) = md_mode m.
Proof. unfold show_pending_approval. cbv zeta. rewrite mode_tidy. intros ->. cbn. apply mode_tidy. Qed.
Lemma mode_enqueue request m : is_browse (md_mode m) = false → md_mode (enqueue_approval request m) = md_mode m.
Proof. intros H. unfold enqueue_approval. by rewrite mode_show_pending; rewrite mode_arrive. Qed.
Lemma mode_finish_approval id m :
  md_mode (finish_approval id m) = md_mode m
  ∨ ∃ r, md_mode m = MApproval r ∧ ar_id r = id ∧ md_mode (finish_approval id m) = MBrowse.
Proof.
  unfold finish_approval. cbv zeta. rewrite mode_tidy. fields.
  destruct (md_mode m) eqn:E; fields; try (by left). case_bool_decide; [right; by eexists|by left].
Qed.
Lemma mode_offer_approval request m : is_browse (md_mode m) = false →
  md_mode (offer_approval request m) = md_mode m
  ∨ ∃ r, md_mode m = MApproval r ∧ ar_id r = ar_id request ∧ approval_stage r < approval_stage request
         ∧ md_mode (offer_approval request m) = MApproval request.
Proof.
  intros Hb. unfold offer_approval. case_match; [by left|]. cbv zeta.
  set (m1 := ensure_procedure _ _ _ (m_view _ m)).
  assert (md_mode m1 = md_mode m) as E1 by (unfold m1; by rewrite mode_ensure).
  set (m2 := change_procedure _ _ m1). assert (md_mode m2 = md_mode m) as E2 by done. rewrite <- E2 in Hb |- *.
  generalize dependent m2. clear E1. clearbody m1. clear m1. intros m2 Hb E2.
  case_match; [left; by rewrite mode_show_pending|].
  destruct (md_mode m2) as [| | | | | | | | | | | | | | | | | | | | | |current| | |] eqn:Em; try done;
    try (by left; rewrite mode_enqueue; rewrite Em).
  unfold same_request. case_bool_decide as Hs; [|left; by rewrite mode_enqueue; rewrite Em].
  case_match eqn:Hc; [|by left]. right. exists current. apply Z.ltb_lt in Hc. by split_and!.
Qed.

(** ** Arrivals *)
(** What comes from the backend, from other programs or with time, except for a lost connection, which withdraws
    every prompt. *)
Definition arrives (event : TuiEvent) : bool :=
  match event with
  | EvPrompt _ | EvStep _ | EvEnded _ _ | EvWithdrawn _ | EvRemoved _ | EvOutcome _ _ | EvApproval _
  | EvApprovalFinished _ | EvSynced _ | EvNotice _ _ | EvExpire | EvFlash | EvSpin => true
  | _ => false
  end.
(** The event takes the request [x] itself away. *)
Definition takes_away (now : Z) (event : TuiEvent) (m : Model) (x : SecretPrompt) : Prop :=
  match event with
  | EvWithdrawn id | EvRemoved id => sp_id x = id
  | EvExpire => ∃ y, y ∈ asked m ∧ expired now y = true ∧ sp_id y = sp_id x
  | _ => False
  end.
(** The procedure in front asks. *)
Definition asks_in_front (event : TuiEvent) (m : Model) : Prop :=
  match event with EvPrompt prompt => md_foreground m = Some (prompt_procedure prompt) | _ => False end.
(** How the event may change an open dialog: only that of the deployment it is about. *)
Definition dialog_after (event : TuiEvent) (mode mode' : Mode) : Prop :=
  mode' = mode
  ∨ ∃ open, mode = MApproval open ∧
      match event with
      | EvApproval request =>
          ar_id open = ar_id request ∧ approval_stage open < approval_stage request ∧ mode' = MApproval request
      | EvApprovalFinished id => ar_id open = id ∧ mode' = MBrowse
      | _ => False
      end.

Lemma showing_arrival now event m id x : tui_ok m → arrives event = true → ¬ takes_away now event m x →
  showing m id x → showing (tui_step now event m) id x.
Proof.
  intros Hok He Ht H. destruct event; try done; cbn [tui_step takes_away] in *.
  - by apply showing_offer_prompt.
  - by apply showing_procedure_step.
  - by apply showing_procedure_ended.
  - unfold withdraw_prompt. apply showing_missed; [done|by apply bool_decide_eq_false|done].
  - apply showing_remove; [done|by apply bool_decide_eq_false|done].
  - by apply showing_step_finished.
  - by apply showing_offer_approval.
  - by apply showing_finish_approval.
  - by apply showing_synced.
  - by apply showing_notice.
  - apply showing_expire; [done| |done]. intros (y & E & [Hy Hin]%list_elem_of_filter)%list_elem_of_fmap.
    apply Ht. by exists y.
  - unfold flash_tick. by case_match.
  - unfold spinner_tick. cbv zeta. by case_match.
Qed.
Lemma bare_arrival now event m : tui_ok m → arrives event = true → ¬ asks_in_front event m →
  foreground_busy m = true → bare m → bare (tui_step now event m).
Proof.
  intros Hok He Ha Hb Hbare. destruct event; try done; cbn [tui_step asks_in_front] in *.
  - by apply bare_offer_prompt.
  - by eapply below_bare, Hbare; apply below_procedure_step.
  - by eapply below_bare, Hbare; apply below_procedure_ended.
  - by eapply below_bare, Hbare; apply below_missed.
  - by eapply below_bare, Hbare; apply below_remove.
  - by eapply below_bare, Hbare; apply below_step_finished.
  - by eapply below_bare, Hbare; apply below_offer_approval.
  - by eapply below_bare, Hbare; apply below_finish_approval.
  - by eapply below_bare, Hbare; apply below_synced.
  - unfold push_notice. cbv zeta. by repeat case_match.
  - by eapply below_bare, Hbare; apply below_expire.
  - unfold flash_tick. by case_match.
  - unfold spinner_tick. cbv zeta. by case_match.
Qed.
Lemma dialog_arrival now event m : arrives event = true → is_browse (md_mode m) = false →
  dialog_after event (md_mode m) (md_mode (tui_step now event m)).
Proof.
  intros He Hb. unfold dialog_after. destruct event; try done; cbn [tui_step].
  - left. apply mode_offer_prompt.
  - left. apply mode_procedure_step.
  - left. apply mode_procedure_ended.
  - left. apply mode_missed.
  - left. apply mode_remove.
  - left. apply mode_step_finished.
  - destruct (mode_offer_approval request m Hb) as [?|(r & ?)]; [by left|right; by exists r].
  - destruct (mode_finish_approval id m) as [?|(r & ?)]; [by left|right; by exists r].
  - left. apply mode_synced.
  - left. unfold push_notice. cbv zeta. by repeat case_match.
  - left. apply mode_expire.
  - left. unfold flash_tick. by case_match.
  - left. unfold spinner_tick. cbv zeta. by case_match.
Qed.


(** ** Bringing back what waits *)
Lemma tidy_frame m :
  md_mode (tidy_procedures m) = md_mode m ∧ md_pending_approvals (tidy_procedures m) = md_pending_approvals m
  ∧ md_pending_dialogs (tidy_procedures m) = md_pending_dialogs m.
Proof. unfold tidy_procedures. cbv zeta. by case_match. Qed.
Lemma waiting_same m m' p : md_mode m' = md_mode m → md_pending_approvals m' = md_pending_approvals m →
  procedure_waiting m' p = procedure_waiting m p.
Proof. unfold procedure_waiting, approval_open. by intros -> ->. Qed.

Lemma minimise_browse m p :
  tui_ok m → md_mode m = MBrowse → p ∈ md_procedures m → procedure_waiting m p = true →
  md_foreground m ≠ Some (pd_id p) →
  p ∈ md_procedures (minimise m).2 ∧ md_mode (minimise m).2 = MBrowse
  ∧ md_pending_approvals (minimise m).2 = md_pending_approvals m
  ∧ md_pending_dialogs (minimise m).2 = md_pending_dialogs m.
Proof.
  intros Hok Hb Hp Hw Hf. rewrite minimise_eq.
  assert (claim_dialog m = m) as -> by (unfold claim_dialog; rewrite Hb; by case_match).
  destruct (md_foreground m) as [id|] eqn:Ef; [|done]. case_match; [done|]. cbn [snd].
  assert (park_approval id m = m) as -> by (unfold park_approval; by rewrite Hb).
  set (m1 := m_modal_scroll 0 _).
  assert (tui_ok m1) as Hok1.
  { pose proof (ok_parked id m) as H1. unfold park_approval in H1. rewrite Hb in H1. apply H1; [|by apply ok_no_front].
    destruct (ok_front m Hok id Ef) as (q & Hq & <- & _). by apply list_elem_of_fmap_2. }
  destruct (tidy_frame m1) as (-> & -> & ->). split_and!; [|done..].
  apply tidy_keeps; [done| |by rewrite (waiting_same m)]. unfold m1. fields.
  rewrite change_procedure_on by apply Hok. apply elem_on. exists p. rewrite on_other by congruence. done.
Qed.

(** What the operator sees of a waiting procedure that is brought back: its first request, or else a dialog left
    open before, its deployment approval, or its result. *)
Definition brought_back (m m' : Model) (p : Procedure) : Prop :=
  match pd_prompts p, md_pending_dialogs m, List.find (approval_of (pd_id p)) (md_pending_approvals m) with
  | prompt :: _, _, _ => shown_prompt m' = Some prompt
  | [], dialog :: _, _ => md_mode m' = dialog
  | [], [], Some request => md_mode m' = MApproval request
  | [], [], None => needs_acknowledgement p = true ∧ between_shown m' = Some (to_front p)
  end.

Lemma take_approval_find id requests :
  fst <$> take_approval id requests = List.find (approval_of id) requests.
Proof.
  induction requests as [|r rs IH]; [done|]. cbn. case_match; [done|]. rewrite <- IH.
  by destruct (take_approval id rs) as [[]|].
Qed.
Lemma find_existsb {A} (f : A → bool) l : is_some (List.find f l) = existsb f l.
Proof. induction l as [|x l IH]; [done|]. cbn. by destruct (f x). Qed.

(** The procedure is put in front of an empty screen. *)
Definition put_in_front (id : string) (m : Model) : Model :=
  m_modal_scroll 0 (reset_scroll (change_procedure id to_front (m_foreground (Some id) m))).
Lemma ok_put_in_front m p : tui_ok m → p ∈ md_procedures m → tui_ok (put_in_front (pd_id p) m).
Proof.
  intros Hok Hp. apply (ok_same (change_procedure (pd_id p) to_front (m_foreground (Some (pd_id p)) m))); [done..|].
  destruct Hok as [H1 H2 H3 H4]. rewrite change_procedure_on by done. split; fields.
  - by rewrite ids_on.
  - intros id [= <-]. exists (to_front p). split; [|done]. apply elem_on. exists p. by rewrite on_same.
  - by rewrite ids_on.
  - intros q x (r & Hr & ->)%elem_on. unfold on. case_bool_decide; fields; apply (H4 r x Hr).
Qed.
Lemma front_put_in_front m p : tui_ok m → p ∈ md_procedures m →
  front_procedure (put_in_front (pd_id p) m) = Some (to_front p).
Proof.
  intros Hok Hp. apply front_procedure_Some; [by apply ok_put_in_front|].
  unfold put_in_front. rewrite change_procedure_on by apply Hok. split; [|done].
  fields. apply elem_on. exists p. by rewrite on_same.
Qed.

Lemma brought_back_screen m p :
  tui_ok m → md_mode m = MBrowse → p ∈ md_procedures m → procedure_waiting m p = true →
  let m2 := put_in_front (pd_id p) m in
  let m' := if is_some (shown_prompt m2) then m2 else show_pending_approval m2 in
  md_foreground m' = Some (pd_id p) ∧ brought_back m m' p.
Proof.
  intros Hok Hb Hp Hw m2. pose proof (ok_put_in_front m p Hok Hp) as Hok2.
  pose proof (front_put_in_front m p Hok Hp) as Hfront. fold m2 in Hok2, Hfront.
  assert (shown_prompt m2 = head (pd_prompts p)) as Hs by (unfold shown_prompt; by rewrite Hfront).
  rewrite Hs. cbv zeta. unfold brought_back. destruct (pd_prompts p) as [|x xs] eqn:Ep; [|done].
  cbn [head is_some]. unfold show_pending_approval. cbv zeta.
  assert (front_procedure (tidy_procedures m2) = Some (to_front p)) as Ht.
  { apply front_procedure_Some; [by apply ok_tidy|]. apply front_procedure_Some in Hfront as (H1 & H2 & H3); [|done].
    assert (to_front p ∈ md_procedures (tidy_procedures m2)) as H1'.
    { apply tidy_keeps; [done..|]. rewrite (waiting_same m) by done. exact Hw. }
    split_and!; [done| |done]. apply tidy_foreground; [done|]. by apply list_elem_of_fmap_2. }
  assert (md_foreground (tidy_procedures m2) = Some (pd_id p)) as Hf
    by by apply front_procedure_Some in Ht as (_ & -> & _); [|apply ok_tidy].
  destruct (tidy_frame m2) as (Em & Ea & Ed). revert Ht Hf Em Ea Ed. generalize (tidy_procedures m2).
  intros m3 Ht Hf Em Ea Ed. rewrite Em. change (md_mode m2) with (md_mode m). rewrite Hb. cbn [is_browse negb].
  rewrite Ed. change (md_pending_dialogs m2) with (md_pending_dialogs m).
  destruct (hide_notice_frame m3) as (_ & Hhf & _). destruct (next_notice_frame m3) as (Np & Nf & _ & Nm & _).
  destruct (md_pending_dialogs m) as [|dialog dialogs]; [|split; [by fields; rewrite Hhf|done]].
  pose proof (take_approval_find (pd_id p) (md_pending_approvals m)) as Hta.
  unfold foreground_approval. rewrite Ht. cbn [mbind option_bind].
  change (pd_id (to_front p)) with (pd_id p). rewrite Ea. change (md_pending_approvals m2) with (md_pending_approvals m).
  destruct (take_approval (pd_id p) (md_pending_approvals m)) as [[request others]|]; cbn in Hta; rewrite <- Hta.
  - split; [by fields; rewrite Hhf|done].
  - assert (needs_acknowledgement p = true) as Hn.
    { unfold procedure_waiting, approval_open in Hw. rewrite Ep, Hb, <- find_existsb, <- Hta in Hw. cbn in Hw.
      by rewrite !orb_false_r in Hw. }
    assert (∀ m', md_mode m' = MBrowse → front_procedure m' = Some (to_front p) →
      between_shown m' = Some (to_front p)) as Hbet.
    { intros m' E1 E2. unfold between_shown. rewrite E1, E2. cbn [mbind option_bind is_browse].
      change (pd_prompts (to_front p)) with (pd_prompts p). change (pd_between (to_front p)) with (pd_between p).
      rewrite Ep. unfold needs_acknowledgement, succeeded_with_warnings, failed, has_result in Hn.
      destruct (pd_between p) as [b|] eqn:Eb; [|done]. done. }
    change (md_mode m2) with (md_mode m) in Em. rewrite Hb in Em. case_match.
    + split_and!; [done..|]. by apply Hbet.
    + split_and!; [by rewrite Nf|done|]. apply Hbet; [congruence|]. rewrite <- Ht. unfold front_procedure.
      rewrite Nf. unfold procedure. by rewrite Np.
Qed.

Lemma restore_brings m p :
  tui_ok m → md_mode m = MBrowse → p ∈ md_procedures m → procedure_waiting m p = true →
  ∃ m', restore (pd_id p) m = (Ok tt, m') ∧ md_foreground m' = Some (pd_id p) ∧ brought_back m m' p.
Proof.
  intros Hok Hb Hp Hw. unfold restore. rewrite Hb. cbn [is_browse is_approval negb andb].
  assert (∀ m, tui_ok m → p ∈ md_procedures m → is_some (procedure m (pd_id p)) = true) as Hthere.
  { intros m0 H0 Hp0. assert (procedure m0 (pd_id p) = Some p) as -> by (apply procedure_Some; [apply H0|done]). done. }
  rewrite Hthere by done. cbn [negb]. cbv zeta. case_bool_decide as Ef; cbn [negb andb].
  - eexists. split; [reflexivity|]. by apply brought_back_screen.
  - destruct (minimise_browse m p Hok Hb Hp Hw Ef) as (Hp' & Hb' & Ha & Hd).
    pose proof (ok_minimise m Hok) as Hok'. rewrite Hb', Hthere by done. cbn [is_approval negb].
    eexists. split; [reflexivity|].
    destruct (brought_back_screen (minimise m).2 p Hok' Hb' Hp') as [H1 H2]; [rewrite (waiting_same m); [done|congruence|done]|].
    split; [done|]. unfold brought_back in *. by rewrite Ha, Hd in H2.
Qed.

Lemma restore_order_all current count index :
  (∀ c, current = Some c → (c < count)%nat) → (index < count)%nat → index ∈ restore_order current count.
Proof.
  intros Hc Hi. unfold restore_order. apply list_elem_of_fmap.
  assert (∃ c, default (count - 1)%nat current = c ∧ (c < count)%nat) as (c & -> & Hlt).
  { exists (default (count - 1)%nat current). split; [done|]. destruct current as [c|]; cbn; [by apply Hc|lia]. }
  rewrite Nat.max_l by lia. destruct (decide (c < index)%nat).
  - exists (index - c)%nat. split; [|apply elem_of_seq; lia]. rewrite Nat.mod_small; lia.
  - exists (index + count - c)%nat. split; [|apply elem_of_seq; lia].
    replace (c + (index + count - c))%nat with (index + 1 * count)%nat by lia.
    rewrite Nat.Div0.mod_add. by rewrite Nat.mod_small.
Qed.
Lemma find_position_Some {A} (f : A → bool) l i : find_position f l = Some i → ∃ x, l !! i = Some x ∧ f x = true.
Proof.
  revert i. induction l as [|x l IH]; intros i H; [done|]. cbn in H. destruct (f x) eqn:E.
  - injection H as <-. by exists x.
  - destruct (find_position f l) as [j|] eqn:Ej; [|done]. injection H as <-. by apply IH.
Qed.

(** [restore_next] picks a procedure that waits and is not in front, a flashing one if there is one. *)
Lemma restore_next_picks m p :
  tui_ok m → p ∈ md_procedures m → procedure_waiting m p = true → md_foreground m ≠ Some (pd_id p) →
  ∃ q, q ∈ md_procedures m ∧ procedure_waiting m q = true ∧ (pd_flashing p = true → pd_flashing q = true)
       ∧ restore_next m = restore (pd_id q) m.
Proof.
  intros Hok Hp Hw Hf. unfold restore_next. cbv zeta. set (current := id ← md_foreground m; _).
  set (waiting := λ index, is_some_and (procedure_waiting m) (md_procedures m !! index)).
  set (candidates := filter _ _). set (flashes := λ index, is_some_and pd_flashing (md_procedures m !! index)).
  assert (∀ i, i ∈ candidates → ∃ q, md_procedures m !! i = Some q ∧ procedure_waiting m q = true) as Hsound.
  { intros i [Hi _]%list_elem_of_filter. bool_prop. destruct Hi as [_ Hi]. unfold waiting in Hi.
    destruct (md_procedures m !! i) as [q|]; [|done]. by exists q. }
  apply list_elem_of_lookup in Hp as [i Hi].
  assert (i ∈ candidates) as Hin.
  { unfold candidates. apply list_elem_of_filter. split.
    - unfold waiting. rewrite Hi. cbn. rewrite Hw, andb_true_r. apply negb_true_iff, bool_decide_eq_false. intros E.
      unfold current in E. destruct (md_foreground m) as [id|]; [|done]. cbn in E. symmetry in E.
      apply find_position_Some in E as (q & Hq & E). rewrite Hi in Hq. injection Hq as <-. unfold has_id in E.
      bool_prop. congruence.
    - apply restore_order_all; [|by eapply lookup_lt_Some]. intros c E. unfold current in E.
      destruct (md_foreground m) as [id|]; [|done]. cbn in E. apply find_position_Some in E as (q & Hq & _).
      by eapply lookup_lt_Some. }
  destruct (List.find flashes candidates) as [j|] eqn:Ej.
  - apply List.find_some in Ej as [Hj Hfl]. apply list_elem_of_In in Hj. destruct (Hsound j Hj) as (q & Hq & Hwq).
    exists q. split_and!; [by eapply list_elem_of_lookup_2|done| |].
    + intros _. unfold flashes in Hfl. by rewrite Hq in Hfl.
    + cbn [mbind option_bind]. by rewrite Hq.
  - assert (pd_flashing p = false) as Hnf.
    { apply list_elem_of_In in Hin. pose proof (List.find_none _ _ Ej i Hin) as E. unfold flashes in E.
      by rewrite Hi in E. }
    destruct candidates as [|j js] eqn:Ec; [by apply elem_of_nil in Hin|].
    destruct (Hsound j) as (q & Hq & Hwq); [by left|]. exists q. cbn [head mbind option_bind]. rewrite Hq.
    split_and!; [by eapply list_elem_of_lookup_2|done|congruence|done].
Qed.

(** C18: Whatever waits for the operator can be brought back: in every state the TUI can reach, with no dialog
    open, restoring a waiting procedure succeeds and puts its request, its approval or its result on screen, and
    the key that restores the next one does so for some waiting procedure, flashing ones first. *)
Theorem waiting_reachable start rows events p :
  let m := tui_run events (model_new start rows) in
  md_mode m = MBrowse → p ∈ md_procedures m → procedure_waiting m p = true →
  (∃ m', restore (pd_id p) m = (Ok tt, m') ∧ md_foreground m' = Some (pd_id p) ∧ brought_back m m' p)
  ∧ (md_foreground m ≠ Some (pd_id p) →
     ∃ q m', q ∈ md_procedures m ∧ procedure_waiting m q = true ∧ (pd_flashing p = true → pd_flashing q = true)
       ∧ restore_next m = (Ok tt, m') ∧ md_foreground m' = Some (pd_id q) ∧ brought_back m m' q).
Proof.
  intros m Hb Hp Hw. assert (tui_ok m) as Hok by apply tui_run_ok. split; [by apply restore_brings|].
  intros Hf. destruct (restore_next_picks m p Hok Hp Hw Hf) as (q & Hq & Hwq & Hfl & ->).
  destruct (restore_brings m q Hok Hb Hq Hwq) as (m' & H). by exists q, m'.
Qed.
