(* ===== verification/Ui.v ===== *)
(** * Input in the TUI

    [crates/manager/src/ui/]: [types.rs], [prelude.rs], [secret_request.rs],
    [approval.rs], [edit.rs], [generated.rs], [facets.rs], [profiles.rs],
    [deploy_host.rs], [provider_failure.rs], [commit.rs], [mouse.rs] and
    [reducer.rs]: what a key or a click does to the model, and what it asks the
    writer (the backend's side of the TUI) to do.  The writer is an argument: it
    answers each call depending on all calls before it, and the calls are kept
    in order, so that theorems can speak about them.  A panic is the error of
    the computation. *)
From S2P Require Import Prelude BTree Text Paths Schema Procedure Requests Store Git Profiles Rows Tui.
#[local] Open Scope Z_scope.

Definition OPERATION_QUEUED : string := "nix-secrets:operation-queued".

(** ** Events and calls ([types.rs]) *)
(** A character is the text of one [char]. *)
Inductive UiEvent :=
| UiUp | UiDown | UiEnter | UiEscape
| UiCharacter (character : string)
| UiBackspace
| UiPaste (value : list Z)
| UiPasteRequest | UiTab | UiConfirmLoss | UiRevealCurrent | UiSubmit | UiToggleSignoff | UiOpenEditor
| UiEdited (message : result string string)
| UiApproval (request : ApprovalRequest)
| UiRefresh | UiTick
| UiHover (target : option MouseTarget)
| UiClick (target : MouseTarget).

Inductive Action := AContinue | AQuit | ASaved (path : string) | AQueued | AApproved | ARejected.
#[export] Instance Action_eq_dec : EqDecision Action.
Proof. solve_decision. Defined.
Inductive GenerateKind := GkPassword | GkPassphrase.

(** The methods of [SecretWriter] the reducer calls. *)
Inductive WriterCall :=
| WSaveProfile (name : string) (profile : ViewProfile) (revision : Z)
| WDeleteProfile (name : string) (revision : Z)
| WWrite (path : string) (value : list Z)
| WApproval (accepted : bool)
| WApprovalWith (accepted : bool) (unchecked : list (string * unit))
| WHostMutations (accepted : bool) (token : string)
| WRequestDeployment (host : string)
| WDelete (path : string)
| WReveal (path : string)
| WCopyPublic (path : string)
| WGenerateFor (path : string) (kind : GenerateKind) (replacing : bool)
| WGenerateKeypair (path : string)
| WGenerateMissing (paths : list string) (kind : GenerateKind)
| WCopy (value : list Z)
| WPasteClipboard
| WCommitState (path : string)
| WCommitSummary
| WCommit (options : CommitOptions)
| WCancelCountdown (id : string)
| WAnswerSecret (id : string) (approved : bool) (count : nat).

Definition Reply (call : WriterCall) : Type :=
  match call with
  | WSaveProfile _ _ _ | WDeleteProfile _ _ => result string ProfileSnapshot
  | WWrite _ _ => result (string * list Z) Action
  | WApproval _ | WApprovalWith _ _ | WHostMutations _ _ => result string (option ApprovalRequest)
  | WReveal _ | WGenerateFor _ _ _ | WPasteClipboard => result string (list Z)
  | WCommitState _ => CommitState
  | WCommitSummary => result string CommitSummary
  | WCommit _ => result string CommitResult
  | _ => result string unit
  end.

(** What a writer answers, given the calls before. *)
Class SecretWriter := reply : list WriterCall → ∀ call, Reply call.

Record Screen := { sc_model : Model; sc_calls : list WriterCall }.
Definition Ui (A : Type) : Type := stE Screen string A.

Definition the_model : Ui Model := λ s, (Ok (sc_model s), s).
Definition change (f : Model → Model) : Ui unit :=
  λ s, (Ok tt, {| sc_model := f (sc_model s); sc_calls := sc_calls s |}).
Definition request `{SecretWriter} (call : WriterCall) : Ui (Reply call) :=
  λ s, (Ok (reply (sc_calls s) call), {| sc_model := sc_model s; sc_calls := sc_calls s ++ [call] |}).
Definition panic {A} (message : string) : Ui A := λ s, (Err message, s).

(** ** Reading events *)
Definition char_in (characters : list string) (event : UiEvent) : bool :=
  match event with UiCharacter c => bool_decide (c ∈ characters) | _ => false end.
Definition clicked_char (character : string) (event : UiEvent) : bool :=
  match event with UiClick (MtShortcut (ScCharacter c)) => bool_decide (c = character) | _ => false end.
(** The key [character], or its button. *)
Definition key (character : string) (event : UiEvent) : bool :=
  char_in [character] event || clicked_char character event.

(** ** Reporting ([ui.rs]) *)
Definition fail_unless_queued (error : string) : Ui unit :=
  if decide (error = OPERATION_QUEUED) then mret tt else change (report_failure error).
Definition report (outcome : result string string) : Ui unit :=
  match outcome with Ok message => change (inform message) | Err error => fail_unless_queued error end.

(** [u16] saturates, [usize] of positions does not get near its end. *)
Definition scroll_up (m : Model) : Model := m_modal_scroll (scrolled m (md_modal_scroll m) false) m.
Definition scroll_down (m : Model) : Model := m_modal_scroll (scrolled m (md_modal_scroll m) true) m.
Definition secret_scrolled (down : bool) (m : Model) : Model :=
  m_secret_scroll (scrolled m (md_secret_scroll m) down) m.
Definition change_view (f : View → View) (m : Model) : Model := m_view (f (md_view m)) m.

Section Ui.
Context `{SecretWriter} (now : Z).

(** ** Secret requests ([secret_request.rs]) *)
Definition try_restore (f : Model → result string unit * Model) : Ui unit :=
  m ← the_model;
  let '(outcome, m') := f m in
  _ ← change (λ _, m');
  match outcome with Ok _ => mret tt | Err reason => change (inform reason) end.
(** [secret_request::restore]. *)
Definition restore_entry (index : nat) : Ui unit :=
  m ← the_model;
  match md_procedures m !! index with
  | Some p => try_restore (restore (pd_id p))
  | None => mret tt
  end.

(** What the operator decided on the request shown, which is taken from the screen. *)
Definition decide_prompt (decision : bool) (count : nat) : Ui unit :=
  m ← the_model;
  let '(taken, m') := take_shown_prompt now decision m in
  _ ← change (λ _, m');
  match taken with
  | None => panic "a prompt is shown"
  | Some prompt =>
      answer ← request (WAnswerSecret (sp_id prompt) decision count);
      match answer with Ok _ => mret tt | Err error => change (report_failure error) end
  end.

Definition CONFIRMATION_WORD : string := "yes".
Definition typed_for (id : string) (m : Model) : Model :=
  if bool_decide ((md_confirmation_typed m).1 = id) then m else m_confirmation_typed (id, "") m.
Definition type_character (character : string) (m : Model) : Model :=
  let '(id, typed) := md_confirmation_typed m in
  if slen typed <? slen CONFIRMATION_WORD then m_confirmation_typed (id, typed +:+ character) m else m.
(** [String::pop]. *)
Definition pop_char (text : string) : string := of_chars (removelast (chars text)).
Definition untype_character (m : Model) : Model :=
  let '(id, typed) := md_confirmation_typed m in m_confirmation_typed (id, pop_char typed) m.

Definition is_enter (event : UiEvent) : bool :=
  match event with UiEnter | UiClick (MtShortcut ScEnter) => true | _ => false end.
Definition is_escape (event : UiEvent) : bool :=
  match event with UiEscape | UiClick (MtShortcut ScEscape) => true | _ => false end.
Definition is_confirm_loss (event : UiEvent) : bool :=
  match event with UiConfirmLoss | UiClick MtConfirmLoss => true | _ => false end.

(** The arms [intercept] and [confirmation] share; [None] when none of them applies. *)
Definition window_input (event : UiEvent) : option (Ui unit) :=
  match event with
  | UiHover target => Some (change (m_hover target))
  | UiApproval request => Some (change (offer_approval request))
  | UiUp => Some (change (secret_scrolled false))
  | UiDown => Some (change (secret_scrolled true))
  | UiClick (MtProcedure index) => Some (restore_entry index)
  | _ =>
      if key "m" event then Some (change (λ m, (minimise m).2))
      else if char_in ["M"] event then Some (try_restore restore_next)
      else None
  end.

Definition confirmation (prompt : SecretPrompt) (event : UiEvent) : Ui unit :=
  _ ← change (typed_for (sp_id prompt));
  match window_input event with
  | Some reaction => reaction
  | None =>
      match event with
      | UiBackspace => change untype_character
      | _ =>
          if char_in ["y"; "e"; "s"] event
          then change (type_character (match event with UiCharacter c => c | _ => "" end))
          else if is_enter event then
            m ← the_model;
            if bool_decide ((md_confirmation_typed m).2 = CONFIRMATION_WORD) then decide_prompt true 0 else mret tt
          else if key "n" event || is_escape event then decide_prompt false 0
          else mret tt
      end
  end.

Definition value_count (prompt : SecretPrompt) : nat :=
  if sp_ssh_signature prompt || sp_artifact_signature prompt || sp_closure_signature prompt then 0%nat
  else length (sp_values prompt).
Definition toggle_details (m : Model) : Model := m_secret_scroll 0 (m_secret_details (negb (md_secret_details m)) m).

(** [intercept] while a request other than a confirmation is shown. *)
Definition prompt_input (prompt : SecretPrompt) (event : UiEvent) : Ui unit :=
  match window_input event with
  | Some reaction => reaction
  | None =>
      if key "d" event then change toggle_details
      else if key "c" event then
        m ← the_model;
        let '(cancelled, m') := cancel_countdown m in
        _ ← change (λ _, m');
        match cancelled with
        | Some id =>
            answer ← request (WCancelCountdown id);
            match answer with Ok _ => mret tt | Err error => change (report_failure error) end
        | None => mret tt
        end
      else if is_confirm_loss event then decide_prompt true (value_count prompt)
      else if key "n" event || is_escape event || is_enter event then decide_prompt false (value_count prompt)
      else mret tt
  end.

(** The boolean says whether the event was consumed. *)
Definition between (event : UiEvent) : Ui bool :=
  m ← the_model;
  if is_some (md_message m) then mret false
  else
    match between_shown m with
    | None => mret false
    | Some p =>
        let result := match pd_between p with
                      | Some (BtResult succeeded _) => Some (succeeded && negb (succeeded_with_warnings p))
                      | _ => None
                      end in
        match event with
        | UiRefresh | UiTick => mret false
        | _ =>
            _ ← match event with
                | UiHover target => change (m_hover target)
                | UiApproval request => change (offer_approval request)
                | UiClick (MtProcedure index) => restore_entry index
                | _ =>
                    if char_in ["M"] event then
                      let seen := bool_decide (result = Some true) in
                      _ ← (if seen then change dismiss_result else mret tt);
                      m ← the_model;
                      let '(outcome, m') := restore_next m in
                      _ ← change (λ _, m');
                      match outcome with
                      | Err reason => if seen then mret tt else change (inform reason)
                      | Ok _ => mret tt
                      end
                    else if key "m" event then change (λ m, (minimise m).2)
                    else if match event with UiEscape => true | _ => false end && negb (is_some result)
                    then change (λ m, (minimise m).2)
                    else if is_enter event && bool_decide (result = Some false) then change dismiss_result
                    else if bool_decide (result = Some true) then change dismiss_result
                    else mret tt
                end;
            mret true
        end
    end.

Definition intercept (event : UiEvent) : Ui bool :=
  m ← the_model;
  match shown_prompt m with
  | None => between event
  | Some prompt =>
      _ ← (if is_some (sp_confirmation prompt) then confirmation prompt event else prompt_input prompt event);
      mret true
  end.

(** ** Deployment approvals ([approval.rs]) *)
(** [request.toggle(..)], [toggle_section(..)] and [cursor = ..] on the request of the dialog. *)
Definition show_approval (r : ApprovalRequest) : Ui unit := change (m_mode (MApproval r)).

Definition host_mutations (r : ApprovalRequest) (event : UiEvent) : Ui Action :=
  let batch := default "" (ar_host_mutation_token r) in
  _ ← change (λ m,
        if bool_decide (fst <$> md_host_review m = Some batch) then m
        else m_modal_scroll 0 (m_host_review (Some (batch, false)) m));
  _ ← match event with
      | UiUp => change scroll_up
      | UiDown => change scroll_down
      | _ => mret tt
      end;
  _ ← change (λ m, if host_review_at_end m batch then m_host_review (Some (batch, true)) m else m);
  m ← the_model;
  let accepted :=
    if char_in ["y"] event then if host_review_seen m batch then Some true else None
    else if char_in ["n"] event then Some false
    else match event with UiEscape => Some false | _ => None end in
  match accepted with
  | None => _ ← show_approval r; mret AContinue
  | Some accepted =>
      if bool_decide (batch = "") then
        _ ← change (report_failure
              "This replacement review has no batch identifier; no values were changed.");
        _ ← show_approval r; mret AContinue
      else
        _ ← change (deployment_answered now r);
        answer ← request (WHostMutations accepted batch);
        match answer with
        | Ok (Some next) => _ ← show_approval next; mret AContinue
        | Ok None => mret (if accepted then AApproved else ARejected)
        | Err message =>
            _ ← fail_unless_queued message;
            _ ← (if bool_decide (message = OPERATION_QUEUED) then mret tt else show_approval r);
            mret AContinue
        end
  end.

Definition approval_reduce (r : ApprovalRequest) (event : UiEvent) : Ui Action :=
  if negb (bool_decide (ar_host_mutations r = [])) then host_mutations r event
  else
    let rows := deploy_rows r in
    let row_keys := negb (is_some (ar_host_key r)) in
    let stay r := _ ← show_approval r; mret AContinue in
    match event with
    | UiClick (MtDeployRow index) =>
        match rows !! index with
        | Some row => stay (toggle_row (dr_identifier row) (with_cursor index r))
        | None => stay r
        end
    | UiUp | UiDown =>
        if row_keys && negb (bool_decide (rows = [])) then
          let cursor := match event with
                        | UiUp => (ar_cursor r - 1)%nat
                        | _ => Nat.min (ar_cursor r + 1) (length rows - 1)
                        end in
          _ ← change (m_modal_scroll (sat_sub (Z.of_nat cursor mod 2 ^ 16) 3));
          stay (with_cursor cursor r)
        else stay r
    | _ =>
        if char_in ["d"] event then
          _ ← change (λ m, m_approval_details (negb (md_approval_details m)) m); stay r
        else if char_in [" "] event && row_keys then
          stay (match rows !! ar_cursor r with Some row => toggle_row (dr_identifier row) r | None => r end)
        else if char_in ["a"] event && row_keys then
          stay (match rows !! ar_cursor r with Some row => toggle_section (dr_section row) r | None => r end)
        else if char_in ["y"] event && (is_some (ar_host_key r) || request_deployable r) then
          _ ← change (deployment_answered now r);
          answer ← request (WApprovalWith true (ar_unchecked r));
          match answer with
          | Ok (Some next) => stay (with_unchecked (ar_unchecked r) next)
          | Ok None => mret AApproved
          | Err message => _ ← fail_unless_queued message; mret AContinue
          end
        else if char_in ["n"] event || match event with UiEscape => true | _ => false end then
          _ ← change (deployment_answered now r);
          answer ← request (WApproval false);
          match answer with
          | Ok _ => mret ARejected
          | Err message => _ ← fail_unless_queued message; stay r
          end
        else stay r
    end.

(** ** Entering values ([edit.rs]) *)
Definition submit (path : string) (value : list Z) : Ui unit :=
  answer ← request (WWrite path value);
  match answer with
  | Ok (ASaved saved) => change (mark_saved saved)
  | Ok AQueued => mret tt
  | Ok _ => change (m_mode MBrowse)
  | Err (message, value) => change (m_mode (MProviderFailure message path value))
  end.
Definition submit_if_edit : Ui unit :=
  m ← the_model;
  match md_mode m with
  | MEdit path value => _ ← change (m_mode MBrowse); submit path value
  | _ => mret tt
  end.
Definition truncate_character (value : list Z) : list Z :=
  match from_utf8 value with
  | Some text => bytes (pop_char text)
  | None => removelast value
  end.
Definition submit_entry (path : string) (value : list Z) : Ui unit :=
  m ← the_model;
  if is_set path (md_view m) then
    commit ← request (WCommitState path);
    change (m_mode (MReplace path value commit))
  else submit path value.

(** ** Generating values ([generated.rs]) *)
Definition generate_begin (m : Model) : Model :=
  match selected (md_view m) ≫= λ row, path ← rw_path row; Some (row, path) with
  | Some (row, path) =>
      if rw_can_generate row
      then m_mode (if decide (rw_category row = CtOperator) then MKeypairConfirm path (rw_is_set row)
                   else MGenerateChoice path (rw_is_set row)) m
      else inform "select a password leaf" m
  | None => inform "select a password leaf" m
  end.
Definition generate_choose (path : string) (replacing : bool) (event : UiEvent) : Ui Action :=
  let choose kind :=
    answer ← request (WGenerateFor path kind replacing);
    _ ← match answer with
        | Ok value => change (m_mode (MGeneratedPreview path value false replacing))
        | Err message => fail_unless_queued message
        end;
    mret AContinue in
  if char_in ["p"] event then choose GkPassword
  else if char_in ["w"] event then choose GkPassphrase
  else match event with
       | UiEscape => mret AContinue
       | _ => _ ← change (m_mode (MGenerateChoice path replacing)); mret AContinue
       end.
Definition preview_reduce (path : string) (value : list Z) (revealed replacing : bool) (event : UiEvent)
  : Ui Action :=
  let stay revealed := change (m_mode (MGeneratedPreview path value revealed replacing)) in
  _ ← (if char_in ["r"] event then stay (negb revealed)
       else if char_in ["c"] event then
         answer ← request (WCopy value);
         _ ← report (match answer with Ok _ => Ok "generated value copied" | Err error => Err error end);
         stay revealed
       else match event with
            | UiEnter => submit_entry path value
            | UiEscape => mret tt
            | _ => stay revealed
            end);
  mret AContinue.

(** ** Failed saves ([provider_failure.rs]) and hosts to deploy ([deploy_host.rs]) *)
Definition failure_reduce (message path : string) (value : list Z) (event : UiEvent) : Ui unit :=
  if char_in ["r"] event || match event with UiEnter => true | _ => false end then submit path value
  else match event with
       | UiEscape => change (m_mode (MEdit path value))
       | _ => change (m_mode (MProviderFailure message path value))
       end.
Definition deploy_host_reduce (chosen : nat) (event : UiEvent) : Ui unit :=
  m ← the_model;
  let hosts := deploy_hosts (md_view m) in
  match event with
  | UiUp => change (m_mode (MDeployHost (chosen - 1)))
  | UiDown => change (m_mode (MDeployHost (Nat.min (chosen + 1) (length hosts - 1))))
  | _ =>
      if char_in ["y"] event || match event with UiEnter => true | _ => false end then
        match hosts !! chosen with
        | Some host =>
            answer ← request (WRequestDeployment host);
            match answer with Ok _ => mret tt | Err error => fail_unless_queued error end
        | None => change (inform "the evaluated schema has no hosts to deploy")
        end
      else if char_in ["n"] event || match event with UiEscape => true | _ => false end then mret tt
      else change (m_mode (MDeployHost chosen))
  end.

(** ** Facets and the tree order ([facets.rs]) *)
Definition moved (current : nat) (event : UiEvent) (count : nat) : nat :=
  match event with
  | UiUp => (current - 1)%nat
  | UiDown => Nat.min (current + 1) (count - 1)
  | _ => Nat.min current (count - 1)
  end.
(** The position of [attribute] in [attributes], else the first. *)
Definition attribute_position (attribute : Attribute) (attributes : list Attribute) : nat :=
  default 0%nat (find_position (λ item, bool_decide (item = attribute)) attributes).

Definition facet_categories (chosen : nat) (event : UiEvent) : Ui unit :=
  let chosen := moved chosen event (length GROUPING) in
  match event with
  | UiEnter =>
      match GROUPING !! chosen with
      | Some attribute => change (m_mode (MFacetValues attribute 0))
      | None => panic "index out of bounds"
      end
  | UiEscape => change (m_mode MBrowse)
  | _ => change (m_mode (MFacetCategories chosen))
  end.

Definition facet_values_reduce (attribute : Attribute) (chosen : nat) (event : UiEvent) : Ui unit :=
  m ← the_model;
  let values := facet_values attribute (md_view m) in
  let chosen := moved chosen event (length values + 3) in
  let facet := facet attribute (md_view m) in
  let stay := m_mode (MFacetValues attribute chosen) in
  match event with
  | UiEnter =>
      if (chosen <? 3)%nat then
        let mode := match chosen with 0%nat => FmAll | 1%nat => FmWhitelist | _ => FmBlacklist end in
        change (λ m, stay (change_view (set_facet attribute (facet_set_mode mode values facet)) m))
      else
        match values !! (chosen - 3)%nat with
        | Some (value, _) =>
            if decide (fc_mode facet = FmAll) then change (m_mode (MFacetFirstChoice attribute value))
            else change (λ m, stay (change_view (set_facet attribute (facet_toggle value facet)) m))
        | None => change stay
        end
  | UiEscape => change (m_mode (MFacetCategories (attribute_position attribute GROUPING)))
  | _ => change stay
  end.

(** The facet a first choice makes of [value] and the other values there are. *)
Definition first_choice (choice value : string) (universe : list (string * unit)) : option Facet :=
  let others := filter (λ item, item.1 ≠ value) universe in
  if bool_decide (choice = "1") then Some {| fc_mode := FmWhitelist; fc_selected := [(value, tt)] |}
  else if bool_decide (choice = "2") then Some {| fc_mode := FmBlacklist; fc_selected := [(value, tt)] |}
  else if bool_decide (choice = "3") then Some {| fc_mode := FmWhitelist; fc_selected := others |}
  else if bool_decide (choice = "4") then Some {| fc_mode := FmBlacklist; fc_selected := others |}
  else None.
Definition facet_first_choice (attribute : Attribute) (value : string) (event : UiEvent) : Ui unit :=
  m ← the_model;
  match match event with
        | UiCharacter c => first_choice c value (facet_values attribute (md_view m))
        | _ => None
        end with
  | Some facet => change (λ m, m_mode (MFacetValues attribute 0) (change_view (set_facet attribute facet) m))
  | None =>
      match event with
      | UiEscape => change (m_mode (MFacetValues attribute 0))
      | _ => change (m_mode (MFacetFirstChoice attribute value))
      end
  end.

(** [Vec::swap]. *)
Definition swap {A} (i j : nat) (l : list A) : list A :=
  match l !! i, l !! j with Some x, Some y => <[j:=x]> (<[i:=y]> l) | _, _ => l end.
Definition toggle_order (attribute : Attribute) (v : View) : View :=
  let order := vw_tree_order v in
  rebuild_tree (with_tree_order
    match find_position (λ item, bool_decide (item = attribute)) order with
    | Some position => delete position order
    | None => order ++ [attribute]
    end v).
Definition move_order (attribute : Attribute) (up : bool) (v : View) : View :=
  let order := vw_tree_order v in
  match find_position (λ item, bool_decide (item = attribute)) order with
  | Some position =>
      let next := if up then (position - 1)%nat else Nat.min (position + 1) (length order - 1) in
      rebuild_tree (with_tree_order (swap position next order) v)
  | None => v
  end.
Definition tree_order_reduce (chosen : nat) (event : UiEvent) : Ui unit :=
  m ← the_model;
  let attributes := tree_editor_attributes (md_view m) in
  let chosen := moved chosen event (length attributes) in
  let edit f :=
    match attributes !! chosen with
    | Some attribute =>
        change (λ m, let m := change_view (f attribute) m in
                     m_mode (MTreeOrder (attribute_position attribute (tree_editor_attributes (md_view m)))) m)
    | None => panic "index out of bounds"
    end in
  if char_in [" "] event then edit toggle_order
  else if char_in ["["] event then edit (λ attribute, move_order attribute true)
  else if char_in ["]"] event then edit (λ attribute, move_order attribute false)
  else match event with
       | UiEscape | UiEnter => change (m_mode MBrowse)
       | _ => change (m_mode (MTreeOrder chosen))
       end.

(** ** View profiles ([ui/profiles.rs]) *)
Definition save_profile_as (name : string) : Ui unit :=
  m ← the_model;
  answer ← request (WSaveProfile name (capture_profile (md_view m)) (sn_revision (vw_profiles (md_view m))));
  _ ← match answer with
      | Ok snapshot =>
          change (λ m, inform ("saved view profile " +:+ name)
                         (change_view (λ v, with_active_profile (Some name) (with_profiles snapshot v)) m))
      | Err error => fail_unless_queued error
      end;
  change (m_mode MBrowse).

Definition profiles_list (chosen : nat) (event : UiEvent) : Ui unit :=
  m ← the_model;
  let names := (sn_profiles (vw_profiles (md_view m))).*1 in
  let chosen := match event with
                | UiUp => (chosen - 1)%nat
                | UiDown => Nat.min (chosen + 1) (length names)
                | _ => chosen
                end in
  (** [names[selected - 1]] *)
  let named f := match names !! (chosen - 1)%nat with
                 | Some name => change (m_mode (f name))
                 | None => panic "index out of bounds"
                 end in
  match event with
  | UiEscape => change (m_mode MBrowse)
  | UiEnter =>
      if (chosen =? 0)%nat then change (m_mode (MProfileSave ""))
      else
        _ ← match names !! (chosen - 1)%nat with
            | Some name =>
                match load_profile name (md_view m) with
                | (Ok _, v) => change (λ m, inform ("loaded view profile " +:+ name) (m_view v m))
                | (Err error, v) => change (λ m, report_failure error (m_view v m))
                end
            | None => mret tt
            end;
        change (m_mode MBrowse)
  | _ =>
      if char_in ["n"] event then change (m_mode (MProfileSave ""))
      else if char_in ["s"] event && (0 <? chosen)%nat then named MProfileOverwrite
      else if char_in ["d"] event && (0 <? chosen)%nat then named MProfileDelete
      else change (m_mode (MProfiles chosen))
  end.

Definition profile_save (name : string) (event : UiEvent) : Ui unit :=
  let stay name := change (m_mode (MProfileSave name)) in
  match event with
  | UiEscape => change (m_mode (MProfiles 0))
  | UiBackspace => stay (pop_char name)
  | UiCharacter c => stay (if slen name <? 64 then name +:+ c else name)
  | UiPaste bytes => stay (name +:+ default "" (from_utf8 bytes))
  | UiEnter =>
      if bool_decide (name = "") then _ ← change (inform "enter a profile name"); stay name
      else
        m ← the_model;
        if bt_contains name (sn_profiles (vw_profiles (md_view m))) then change (m_mode (MProfileOverwrite name))
        else save_profile_as name
  | _ => stay name
  end.

Definition profile_overwrite (name : string) (event : UiEvent) : Ui unit :=
  if char_in ["y"] event then save_profile_as name
  else if char_in ["n"] event || match event with UiEscape => true | _ => false end
  then change (m_mode (MProfiles 0))
  else change (m_mode (MProfileOverwrite name)).

Definition profile_delete (name : string) (event : UiEvent) : Ui unit :=
  if char_in ["y"] event then
    m ← the_model;
    answer ← request (WDeleteProfile name (sn_revision (vw_profiles (md_view m))));
    _ ← match answer with
        | Ok snapshot =>
            change (λ m, inform ("deleted view profile " +:+ name) (change_view (with_profiles snapshot) m))
        | Err error => fail_unless_queued error
        end;
    change (m_mode MBrowse)
  else if char_in ["n"] event || match event with UiEscape => true | _ => false end
  then change (m_mode (MProfiles 0))
  else change (m_mode (MProfileDelete name)).

(** ** Commits ([commit.rs]) *)
Definition prefill_amend (summary : CommitSummary) (draft : CommitDraft) : CommitDraft :=
  if cd_amend draft && bool_decide (trim (cd_message draft) = "") then
    match cs_head_message summary with
    | Some message => {| cd_message := message; cd_amend := cd_amend draft; cd_signoff := cd_signoff draft |}
    | None => draft
    end
  else draft.
Definition commit_show (summary : CommitSummary) (m : Model) : Model :=
  m_mode (MCommit (prefill_amend summary (md_commit_draft m)) summary false) m.
Definition commit_open : Ui unit :=
  answer ← request WCommitSummary;
  match answer with Ok summary => change (commit_show summary) | Err error => fail_unless_queued error end.
Definition committed (outcome : CommitResult) (m : Model) : Model :=
  let m := m_commit_draft draft_default m in
  let m := match md_mode m with MCommit _ _ _ => m_mode MBrowse m | _ => m end in
  inform ("committed " +:+ cr_hash outcome +:+ nl +:+ cr_output outcome) m.

Definition commit_refusal (draft : CommitDraft) (summary : CommitSummary) : option string :=
  if bool_decide (trim (cd_message draft) = "") && negb (cd_amend draft) then Some "enter a commit message first"
  else if negb (bool_decide (cs_foreign_staged summary = [])) then
    Some ("other changes are staged; unstage them first, since only nix-secrets files are committed here: "
          +:+ Text.join ", " (cs_foreign_staged summary))
  else None.

(** [replace("\r\n", "\n")]. *)
Fixpoint unix_lines (text : string) : string :=
  match text with
  | String a rest =>
      match rest with
      | String b _ =>
          if Ascii.eqb a (ascii_of_nat 13) && Ascii.eqb b (ascii_of_nat 10) then unix_lines rest
          else String a (unix_lines rest)
      | EmptyString => text
      end
  | EmptyString => text
  end.
Definition with_message (f : string → string) (draft : CommitDraft) : CommitDraft :=
  {| cd_message := f (cd_message draft); cd_amend := cd_amend draft; cd_signoff := cd_signoff draft |}.

Definition commit_reduce (draft : CommitDraft) (summary : CommitSummary) (editing : bool) (event : UiEvent)
  : Ui unit :=
  let keep draft editing := change (λ m, m_mode (MCommit draft summary editing) (m_commit_draft draft m)) in
  match event with
  | UiCharacter c => keep (with_message (λ text, text +:+ c) draft) editing
  | UiPaste pasted => keep (with_message (λ text, text +:+ unix_lines (lossy pasted)) draft) editing
  | UiEnter => keep (with_message (λ text, text +:+ nl) draft) editing
  | UiBackspace => keep (with_message pop_char draft) editing
  | UiTab =>
      keep (prefill_amend summary
              {| cd_message := cd_message draft; cd_amend := negb (cd_amend draft); cd_signoff := cd_signoff draft |})
        editing
  | UiToggleSignoff =>
      keep {| cd_message := cd_message draft; cd_amend := cd_amend draft; cd_signoff := negb (cd_signoff draft) |}
        editing
  | UiOpenEditor => keep draft true
  | UiEdited (Ok message) => keep (with_message (λ _, message) draft) editing
  | UiEdited (Err error) => _ ← change (report_failure error); keep draft editing
  | UiEscape => change (m_commit_draft draft)
  | UiSubmit =>
      match commit_refusal draft summary with
      | Some problem => _ ← change (report_failure problem); keep draft editing
      | None =>
          _ ← change (m_commit_draft draft);
          answer ← request (WCommit {| co_message := cd_message draft; co_amend := cd_amend draft;
                                       co_signoff := cd_signoff draft |});
          match answer with
          | Ok outcome => change (committed outcome)
          | Err error => _ ← fail_unless_queued error; keep draft editing
          end
      end
  | _ => keep draft editing
  end.

(** ** The dispatch ([reducer.rs]) *)
(** What most arms do after their own work. *)
Definition done : Ui Action := _ ← change show_pending_approval; mret AContinue.
Definition goto (mode : Mode) : Ui unit := change (m_mode mode).

(** The selected row, if it is a value and set, with its path. *)
Definition selected_set (v : View) : option string :=
  match selected v with
  | Some row => if is_secret row && rw_is_set row then rw_path row else None
  | None => None
  end.
Definition missing_passwords (v : View) : list string :=
  omap rw_path
    (filter (λ row, bool_decide (rw_category row = CtPassword) && is_secret row && negb (rw_is_set row)
                    && rw_can_generate row = true) (vw_rows v)).

Definition browse_restore_next : Ui Action := _ ← try_restore restore_next; done.

Definition browse_delete : Ui unit :=
  m ← the_model;
  match selected_set (md_view m) with
  | Some path => commit ← request (WCommitState path); goto (MDeleteConfirm path commit)
  | None => change (inform "select a set secret to delete")
  end.
Definition browse_reveal : Ui unit :=
  m ← the_model;
  match selected_set (md_view m) with
  | Some path =>
      answer ← request (WReveal path);
      match answer with Ok value => goto (MReveal path value 0 None) | Err error => fail_unless_queued error end
  | None => change (inform "select a set secret to reveal")
  end.
Definition browse_copy : Ui unit :=
  m ← the_model;
  match selected_set (md_view m) with
  | Some path =>
      revealed ← request (WReveal path);
      copied ← match revealed with Ok value => request (WCopy value) | Err error => mret (Err error) end;
      report (match copied with Ok _ => Ok ("copied " +:+ path) | Err error => Err error end)
  | None => change (inform "select a set secret to copy")
  end.
Definition browse_copy_public : Ui unit :=
  m ← the_model;
  match selected_set (md_view m) with
  | Some path =>
      copied ← request (WCopyPublic path);
      report (match copied with Ok _ => Ok ("copied public key for " +:+ path) | Err error => Err error end)
  | None => change (inform "select a set OpenSSH private key")
  end.
Definition browse_paste (value : list Z) : Ui unit :=
  m ← the_model;
  let set := is_some_and rw_is_set (selected (md_view m)) in
  _ ← change (begin_value value);
  if set then mret tt else submit_if_edit.

(** A character in the tree. *)
Definition browse_key (c : string) : Ui unit :=
  let view f := change (change_view f) in
  if bool_decide (c = "f") then view cycle_filter
  else if bool_decide (c = " ") then view (λ v, (toggle_selected_group v).2)
  else if bool_decide (c = "-") then view collapse_all
  else if bool_decide (c = "+") then view expand_all
  else if bool_decide (c = "F")
  then _ ← view (λ v, set_human_only false (set_filter FAll v)); goto (MFacetCategories 0)
  else if bool_decide (c = "T") then goto (MTreeOrder 0)
  else if bool_decide (c = "C") then commit_open
  else if bool_decide (c = "D") then change open_deploy_picker
  else if bool_decide (c = "S") then goto (MProfiles 0)
  else if bool_decide (c = "h") then view toggle_human
  else if bool_decide (c = "1") then view (set_filter FRequired)
  else if bool_decide (c = "2") then view (set_filter FAll)
  else if bool_decide (c = "3") then view (set_filter FKeys)
  else if bool_decide (c = "4") then view (set_filter FPasswords)
  else if bool_decide (c = "5") then view (set_filter FPublicInfo)
  else if bool_decide (c = "6") then view (set_human_only false)
  else if bool_decide (c = "7") then view (set_human_only true)
  else if bool_decide (c = "G") then change (λ m, m_mode (MBulkGenerateConfirm (missing_passwords (md_view m))) m)
  else if bool_decide (c = "?") then goto (MHelp 0)
  else if bool_decide (c = "P")
  then m ← the_model; if is_some_and is_secret (selected (md_view m)) then goto (MProperties 0) else mret tt
  else if bool_decide (c = "/") then change (λ m, m_mode (MSearch (vw_search (md_view m))) m)
  else if bool_decide (c = "g") then change generate_begin
  else if bool_decide (c = "d") then browse_delete
  else if bool_decide (c = "r") then browse_reveal
  else if bool_decide (c = "c") then browse_copy
  else if bool_decide (c = "p") then browse_copy_public
  else if bool_decide (c = "O") then goto (MSettings 0)
  else mret tt.

Definition browse (event : UiEvent) : Ui Action :=
  match event with
  | UiEscape => mret AQuit
  | UiUp => _ ← change (change_view (move_by (-1))); done
  | UiDown => _ ← change (change_view (move_by 1)); done
  | UiEnter => _ ← change (begin_value []); done
  | UiPaste value => _ ← browse_paste value; done
  | UiCharacter c => if bool_decide (c = "M") then browse_restore_next else _ ← browse_key c; done
  | _ => done
  end.

Definition bulk_confirm (paths : list string) (event : UiEvent) : Ui unit :=
  if char_in ["p"; "w"] event then
    let kind := if char_in ["p"] event then GkPassword else GkPassphrase in
    if bool_decide (paths = []) then change (inform "No missing passwords to generate")
    else
      answer ← request (WGenerateMissing paths kind);
      match answer with
      | Ok _ => goto (MBulkProgress (length paths) 0)
      | Err error => change (report_failure error)
      end
  else match event with UiEscape => mret tt | _ => goto (MBulkGenerateConfirm paths) end.

(** Help and Properties: a text that scrolls until [closes]. *)
Definition scroll_dialog (shown : Z → Mode) (closes : bool) (scroll : Z) (event : UiEvent) : Ui unit :=
  match event with
  | UiUp => change (λ m, m_mode (shown (scrolled m scroll false)) m)
  | UiDown => change (λ m, m_mode (shown (scrolled m scroll true)) m)
  | _ => if closes then mret tt else goto (shown scroll)
  end.

Definition search (query : string) (event : UiEvent) : Ui unit :=
  let look query := change (λ m, m_mode (MSearch query) (change_view (set_search query) m)) in
  match event with
  | UiCharacter c => look (query +:+ c)
  | UiBackspace => look (pop_char query)
  | UiEnter => mret tt
  | UiEscape => change (change_view (set_search ""))
  | UiPaste pasted => look (query +:+ lossy pasted)
  | _ => goto (MSearch query)
  end.

Definition keypair_confirm (path : string) (replacing : bool) (event : UiEvent) : Ui unit :=
  if char_in ["y"] event then
    answer ← request (WGenerateKeypair path);
    match answer with
    | Ok _ => change (inform ("generated keypair for " +:+ path))
    | Err message => fail_unless_queued message
    end
  else match event with UiEscape => mret tt | _ => goto (MKeypairConfirm path replacing) end.

(** Ctrl+R over the entry, replace or delete dialog of [path]. *)
Definition reveal_over (dialog : Mode) (path : string) : Ui Action :=
  m ← the_model;
  if negb (is_set path (md_view m)) then
    _ ← goto dialog;
    _ ← change (inform "this value is not set yet; there is nothing to reveal");
    mret AContinue
  else
    answer ← request (WReveal path);
    match answer with
    | Ok value => _ ← goto (MReveal path value 0 (Some dialog)); done
    | Err error => _ ← goto dialog; _ ← fail_unless_queued error; done
    end.
Definition is_reveal_current (event : UiEvent) : bool :=
  match event with UiRevealCurrent => true | _ => false end.

Definition delete_confirm (path : string) (commit : CommitState) (event : UiEvent) : Ui Action :=
  if (char_in ["y"] event && match commit with Committed | Unset => true | _ => false end)
     || match event with UiConfirmLoss => true | _ => false end
  then
    answer ← request (WDelete path);
    _ ← match answer with Ok _ => change (mark_deleted path) | Err error => fail_unless_queued error end;
    done
  else if char_in ["n"; " "] event || match event with UiEscape | UiEnter => true | _ => false end then done
  else if is_reveal_current event then reveal_over (MDeleteConfirm path commit) path
  else _ ← goto (MDeleteConfirm path commit); done.

Definition reveal_dialog (path : string) (value : list Z) (scroll : Z) (underneath : option Mode) (event : UiEvent)
  : Ui Action :=
  let close := _ ← match underneath with Some dialog => goto dialog | None => mret tt end; mret AContinue in
  let stay scroll := _ ← goto (MReveal path value scroll underneath); done in
  match event with
  | UiUp => m ← the_model; stay (scrolled m scroll false)
  | UiDown => m ← the_model; stay (scrolled m scroll true)
  | UiEscape => close
  | _ =>
      if char_in ["c"] event || match event with UiEnter => true | _ => false end then
        answer ← request (WCopy value);
        let accepted := match answer with Ok _ => true | Err error => bool_decide (error = OPERATION_QUEUED) end in
        _ ← report (match answer with Ok _ => Ok "value copied" | Err error => Err error end);
        if match event with UiEnter => true | _ => false end && accepted then close else stay scroll
      else stay scroll
  end.

Definition edit_dialog (path : string) (value : list Z) (event : UiEvent) : Ui Action :=
  let stay value := _ ← goto (MEdit path value); done in
  match event with
  | UiRevealCurrent => reveal_over (MEdit path value) path
  | UiCharacter c => stay (value ++ bytes c)
  | UiPaste pasted =>
      m ← the_model;
      let autosave := md_autosave_unset_on_paste m && negb (is_set path (md_view m)) && bool_decide (value = [])
                      && negb (bool_decide (pasted = [])) && negb (bool_decide (10 ∈ pasted)) in
      if autosave then _ ← submit path (value ++ pasted); done else stay (value ++ pasted)
  | UiTab =>
      _ ← change (λ m, m_autosave_unset_on_paste (negb (md_autosave_unset_on_paste m)) m);
      stay value
  | UiBackspace => stay (truncate_character value)
  | UiEnter => if bool_decide (value = []) then stay value else _ ← submit_entry path value; done
  | UiEscape => done
  | _ => stay value
  end.

Definition replace_dialog (path : string) (value : list Z) (commit : CommitState) (event : UiEvent) : Ui Action :=
  if is_reveal_current event then reveal_over (MReplace path value commit) path
  else if (char_in ["y"] event && match commit with Committed => true | _ => false end)
          || match event with UiConfirmLoss => true | _ => false end
  then _ ← submit path value; done
  else if char_in ["n"; " "] event || match event with UiEscape | UiEnter => true | _ => false end
  then _ ← goto (MEdit path value); done
  else _ ← goto (MReplace path value commit); done.

(** [Settings::ITEMS] has one setting. *)
Definition settings (chosen : nat) (event : UiEvent) : Ui unit :=
  let stay chosen := goto (MSettings chosen) in
  if match event with UiEnter => true | _ => false end || char_in [" "] event then
    if (chosen <? 1)%nat then
      _ ← change (λ m, m_autosave_unset_on_paste (negb (md_autosave_unset_on_paste m)) m); stay chosen
    else panic "index out of bounds"
  else if char_in ["O"] event then mret tt
  else match event with
       | UiUp => stay (chosen - 1)%nat
       | UiDown => stay (Nat.min (chosen + 1) 0)
       | UiEscape => mret tt
       | _ => stay chosen
       end.

Definition approval_dialog (r : ApprovalRequest) (event : UiEvent) : Ui Action :=
  if char_in ["m"] event then _ ← show_approval r; _ ← change (λ m, (minimise m).2); done
  else if char_in ["M"] event then _ ← show_approval r; browse_restore_next
  else
    action ← approval_reduce r event;
    _ ← change show_pending_approval;
    mret action.

(** The [match] on the mode, which was replaced by [Browse], and the event. *)
Definition dispatch (mode : Mode) (event : UiEvent) : Ui Action :=
  let then_done act := _ ← act; done in
  match mode with
  | MBrowse => browse event
  | MApproval r => approval_dialog r event
  | MDeployHost chosen => then_done (deploy_host_reduce chosen event)
  | MCommit draft summary editing => then_done (commit_reduce draft summary editing event)
  | MProfiles chosen => then_done (profiles_list chosen event)
  | MProfileSave name => then_done (profile_save name event)
  | MProfileOverwrite name => then_done (profile_overwrite name event)
  | MProfileDelete name => then_done (profile_delete name event)
  | MFacetCategories chosen => then_done (facet_categories chosen event)
  | MFacetValues attribute chosen => then_done (facet_values_reduce attribute chosen event)
  | MFacetFirstChoice attribute value => then_done (facet_first_choice attribute value event)
  | MTreeOrder chosen => then_done (tree_order_reduce chosen event)
  | MBulkGenerateConfirm paths => then_done (bulk_confirm paths event)
  | MBulkProgress total made =>
      match event with UiEscape => done | _ => then_done (goto (MBulkProgress total made)) end
  | MProperties scroll =>
      then_done (scroll_dialog MProperties (match event with UiEscape | UiEnter => true | _ => false end) scroll event)
  | MHelp scroll =>
      then_done (scroll_dialog MHelp (match event with UiEscape => true | _ => char_in ["?"] event end) scroll event)
  | MSearch query => then_done (search query event)
  | MGenerateChoice path replacing => generate_choose path replacing event
  | MKeypairConfirm path replacing => then_done (keypair_confirm path replacing event)
  | MDeleteConfirm path commit => delete_confirm path commit event
  | MReveal path value scroll underneath => reveal_dialog path value scroll underneath event
  | MEdit path value => edit_dialog path value event
  | MReplace path value commit => replace_dialog path value commit event
  | MSettings chosen => then_done (settings chosen event)
  | MGeneratedPreview path value revealed replacing => preview_reduce path value revealed replacing event
  | MProviderFailure message path value => then_done (failure_reduce message path value event)
  end.

(** From [PasteRequest] on: Ctrl+V reads the clipboard and acts like a paste. *)
Definition mode_input (event : UiEvent) : Ui Action :=
  let act event :=
    m ← the_model;
    _ ← goto MBrowse;
    dispatch (md_mode m) event in
  match event with
  | UiPasteRequest =>
      answer ← request WPasteClipboard;
      match answer with
      | Ok value => act (UiPaste value)
      | Err error => _ ← change (report_failure error); mret AContinue
      end
  | _ => act event
  end.

(** ** Clicks ([mouse.rs], [commit.rs]) and notices ([prelude.rs]) *)
Definition click_tree (index : nat) : Ui Action :=
  m ← the_model;
  if (length (visible_rows (md_view m)) <=? index)%nat then mret AContinue
  else
    _ ← change (change_view (with_selected index));
    m ← the_model;
    let '(group, v) := toggle_selected_group (md_view m) in
    _ ← change (m_view v);
    if group then mret AContinue
    else
      m ← the_model;
      _ ← (if is_some_and (λ row, is_secret row && negb (rw_is_set row) && rw_external_input_required row)
                (selected (md_view m))
           then change (begin_value []) else mret tt);
      mret AContinue.

(** The dialog with the item at [index] chosen, of the dialogs where a click also confirms it. *)
Definition choose_item (index : nat) (mode : Mode) : option Mode :=
  match mode with
  | MFacetCategories _ => Some (MFacetCategories index)
  | MFacetValues attribute _ => Some (MFacetValues attribute index)
  | MProfiles _ => Some (MProfiles index)
  | MSettings _ => Some (MSettings index)
  | MDeployHost _ => Some (MDeployHost index)
  | _ => None
  end.
Definition commit_control (target : MouseTarget) : option UiEvent :=
  match target with
  | MtCommitAmend => Some UiTab
  | MtCommitSignoff => Some UiToggleSignoff
  | MtCommitEditor => Some UiOpenEditor
  | MtCommitSubmit => Some UiSubmit
  | _ => None
  end.
Definition shortcut_event (shortcut : Shortcut) : UiEvent :=
  match shortcut with ScEnter => UiEnter | ScEscape => UiEscape | ScCharacter c => UiCharacter c end.

(** [reduce] is what the click is turned into is handed to. *)
Definition click (reduce : UiEvent → Ui Action) (target : MouseTarget) : Ui Action :=
  m ← the_model;
  let tree := negb (is_some (md_message m)) && is_browse (md_mode m) in
  match target with
  | MtFilter number =>
      if tree && (number <? 10)%nat then reduce (UiCharacter (dec (Z.of_nat number))) else mret AContinue
  | MtTree index => if tree then click_tree index else mret AContinue
  | MtCommitAmend | MtCommitSignoff | MtCommitEditor | MtCommitSubmit =>
      match md_mode m, commit_control target with
      | MCommit _ _ _, Some event => reduce event
      | _, _ => mret AContinue
      end
  | MtDeployRow _ =>
      match md_mode m with
      | MApproval r => _ ← goto MBrowse; approval_reduce r (UiClick target)
      | _ => mret AContinue
      end
  | MtProcedure index => _ ← restore_entry index; mret AContinue
  | MtConfirmLoss => reduce UiConfirmLoss
  | MtAutosaveToggle => reduce UiTab
  | MtRevealCurrent => reduce UiRevealCurrent
  | MtShortcut shortcut => reduce (shortcut_event shortcut)
  | MtModalItem index =>
      match choose_item index (md_mode m) with
      | Some mode => _ ← goto mode; reduce UiEnter
      | None =>
          match md_mode m with
          | MTreeOrder _ => _ ← goto (MTreeOrder index); mret AContinue
          | MFacetFirstChoice _ _ =>
              if (index <? 4)%nat then reduce (UiCharacter (dec (Z.of_nat index + 1))) else mret AContinue
          | _ => mret AContinue
          end
      end
  | MtNotice | MtBusy => mret AContinue
  end.

(** Modes that keep a key that dismissed a notice, and those that keep a paste. *)
Definition passes_through (mode : Mode) : bool :=
  match mode with
  | MBrowse | MHelp _ | MProperties _ | MReveal _ _ _ _ | MSearch _ | MFacetCategories _ | MFacetValues _ _
  | MFacetFirstChoice _ _ | MTreeOrder _ | MProfiles _ | MBulkProgress _ _ => true
  | _ => false
  end.
Definition takes_paste (mode : Mode) : bool :=
  match mode with MEdit _ _ | MSearch _ | MProfileSave _ | MCommit _ _ _ => true | _ => false end.

Definition notice_input (reduce : UiEvent → Ui Action) (severity : NoticeSeverity) (event : UiEvent) : Ui Action :=
  (** A key that closed the last notice acts where [keeps] allows it. *)
  let close keeps :=
    _ ← change acknowledge;
    m ← the_model;
    if negb (is_some (md_message m)) && keeps (md_mode m) then reduce event else mret AContinue in
  let stop act := _ ← act; mret AContinue in
  match event with
  | UiRefresh | UiTick => mret AContinue
  | _ =>
      match severity with
      | NsFailure =>
          stop (if is_enter event then change acknowledge
                else match event with
                     | UiUp => change scroll_up
                     | UiDown => change scroll_down
                     | _ => mret tt
                     end)
      | NsInfo =>
          match event with
          | UiClick MtNotice | UiEscape => stop (change acknowledge)
          | UiPaste _ | UiPasteRequest => close takes_paste
          | _ => close passes_through
          end
      end
  end.

(** Modes that use Up and Down themselves. *)
Definition moves_itself (mode : Mode) : bool :=
  match mode with
  | MBrowse | MHelp _ | MProperties _ | MReveal _ _ _ _ | MEdit _ _ | MSearch _ | MFacetCategories _
  | MFacetValues _ _ | MFacetFirstChoice _ _ | MTreeOrder _ | MProfiles _ | MProfileSave _ | MDeployHost _
  | MApproval _ => true
  | _ => false
  end.

(** [prelude::handle], then the rest of [reduce]. *)
Definition handle (reduce : UiEvent → Ui Action) (event : UiEvent) : Ui Action :=
  match event with
  | UiHover target => _ ← change (m_hover target); mret AContinue
  | UiApproval request => _ ← change (offer_approval request); mret AContinue
  | _ =>
      m ← the_model;
      match md_message m with
      | Some notice => notice_input reduce (nt_severity notice) event
      | None =>
          match event with
          | UiClick target => click reduce target
          | UiUp =>
              if moves_itself (md_mode m) then mode_input event else _ ← change scroll_up; mret AContinue
          | UiDown =>
              if moves_itself (md_mode m) then mode_input event else _ ← change scroll_down; mret AContinue
          | _ => mode_input event
          end
      end
  end.

(** [reduce] calls itself for a click and for a key that closed a notice; [fuel] bounds how often. *)
Fixpoint reduce_within (fuel : nat) (event : UiEvent) : Ui Action :=
  match fuel with
  | O => panic "fuel"
  | S fuel =>
      consumed ← intercept event;
      if consumed : bool then mret AContinue else handle (reduce_within fuel) event
  end.
Definition reduce (event : UiEvent) : Ui Action := reduce_within 3 event.
End Ui.
