(* ===== verification/Drive.v ===== *)
(** * The TUI's loop

    [crates/manager/src/ui/drive.rs] and the [tick] and [finished] of
    [ui/secret_request.rs]: what the writer reports is applied on a tick, and
    everything else the frontend reads goes to the reducer.  What a tick polls
    and what the editor and the frontend answer are arguments; drawing is the
    frontend's and not modelled. *)
From S2P Require Import Prelude BTree Text Schema Procedure Requests Store Git Profiles Rows Tui Ui.
#[local] Open Scope Z_scope.

(** ** What the writer reports ([types.rs]) *)
Inductive ProcedureEvent :=
| PeStep (step : ProcedureStep)
| PeEnded (id : string) (exit_code : option Z)
| PeWithdrawn (id : string)
| PeDisconnected
| PeReconnected
| PeSynced (ids : list string).

Record DeploySummary := {
  su_target : string;
  su_sent : nat;
  su_generated : nat;
  su_left_out : list string;
  su_missing : list string;
  su_quarantined : list string
}.

Inductive Completion :=
| CpApprovalTerminated (id : string)
| CpSaved (path : string)
| CpSaveFailed (path : string) (value : list Z) (message : string)
| CpDeleted (path : string)
| CpRevealed (path : string) (value : list Z)
| CpCopied (message : string)
| CpKeypairGenerated (path : string)
| CpGenerated (path : string) (value : list Z) (replacing : bool)
| CpBulkGenerated (saved : nat) (failed : list string)
| CpBulkProgress (made total : nat)
| CpApprovalDone (next : option ApprovalRequest)
| CpHostMutationsDeclined (before_deploy : bool)
| CpDeployed (generated skipped : list string) (summary : option DeploySummary)
| CpDeploymentRequested (host : string)
| CpApprovalLost (message : string)
| CpFailed (message : string)
| CpProfileSaved (name : string) (snapshot : ProfileSnapshot)
| CpProfileDeleted (name : string) (snapshot : ProfileSnapshot)
| CpCommitSummary (summary : CommitSummary)
| CpCommitted (outcome : CommitResult)
| CpSecretRequestFinished (id requester : string) (outcome : result string nat)
| CpSshSignatureFinished (id requester : string) (outcome : result string unit)
| CpArtifactSignatureFinished (id requester : string) (outcome : result string unit)
| CpConfirmationFinished (id requester : string) (outcome : result string unit)
| CpCommitFailed (message : string).

Definition plural (n : nat) : string := if (n =? 1)%nat then "" else "s".
Definition count (n : nat) : string := dec (Z.of_nat n).

(** ** The texts *)
Definition deployed_notice (generated skipped : list string) : string :=
  (if bool_decide (generated = []) then "deployment request finished"
   else "Deployment finished. The target generated and the store now holds " +:+ count (length generated)
        +:+ " value" +:+ plural (length generated) +:+ ":" +:+ nl +:+ Text.join nl generated)
  +:+ (if bool_decide (skipped = []) then ""
       else nl +:+ nl +:+ "Not deployed (" +:+ count (length skipped)
            +:+ "); missing required values hold only their own services:" +:+ nl +:+ Text.join nl skipped).
Definition counted (s : DeploySummary) : string :=
  count (su_sent s) +:+ " sent · " +:+ count (su_generated s) +:+ " generated · "
  +:+ count (length (su_left_out s)) +:+ " left out · " +:+ count (length (su_missing s)) +:+ " missing".
Definition summary_line (s : DeploySummary) : string :=
  "Deploy " +:+ su_target s +:+ " · step 3/3 done: " +:+ counted s
  +:+ (if bool_decide (su_left_out s = []) then ""
       else nl +:+ "Left out by you: " +:+ Text.join ", " (su_left_out s)).
Definition quarantine_text (quarantined : list string) : string :=
  nl +:+ nl +:+ "QUARANTINED (" +:+ count (length quarantined)
  +:+ "): values the host returned that this schema does not accept. They are kept, never deployed, and wait for you: `nix-secrets quarantine list`, then `adopt ID` or `discard ID`."
  +:+ nl +:+ Text.join nl quarantined.

Definition close_approval (m : Model) : Model := if is_approval (md_mode m) then m_mode MBrowse m else m.
Definition is_mode (f : Mode → bool) (m : Model) : bool := f (md_mode m).

(** ** Outcomes of procedure steps *)
Definition without_text (outcome : result string unit) : result string (option string) :=
  match outcome with Ok _ => Ok None | Err error => Err error end.
Definition with_text (text : string) (outcome : result string unit) : result string (option string) :=
  match outcome with Ok _ => Ok (Some text) | Err error => Err error end.

(** What the end of a deployment says of the step in flight. *)
Definition deployment_outcome (completion : Completion) : option (result string (option string)) :=
  match completion with
  | CpDeployed generated skipped summary =>
      let text := match summary with
                  | Some s => "secrets deployed to " +:+ su_target s +:+ ": " +:+ counted s
                  | None => "secrets deployed"
                  end in
      Some (Ok (Some
        (if bool_decide (generated = []) && bool_decide (skipped = []) then text
         else text +:+ nl +:+ deployed_notice generated skipped)))
  | CpHostMutationsDeclined false => Some (Ok (Some "secrets deployed; you rejected the host-provided changes"))
  | CpHostMutationsDeclined true => Some (Err "you rejected the host-provided changes; nothing was deployed")
  | CpApprovalLost message => Some (Err message)
  | CpApprovalDone None => Some (Err "you rejected the deployment")
  | _ => None
  end.
Definition is_lost (completion : Completion) : bool :=
  match completion with CpApprovalLost _ => true | _ => false end.

(** The request and how its step ended; a deployment's dialog is closed. *)
Definition step_outcome (completion : Completion) (m : Model)
  : option (string * result string (option string)) * Model :=
  match completion with
  | CpSecretRequestFinished id _ outcome =>
      (Some (id, match outcome with
                 | Ok n => Ok (Some (count n +:+ " secret value" +:+ plural n +:+ " sent"))
                 | Err error => Err error
                 end), m)
  | CpSshSignatureFinished id _ outcome | CpArtifactSignatureFinished id _ outcome =>
      (Some (id, without_text outcome), m)
  | CpConfirmationFinished id _ outcome => (Some (id, with_text "confirmed" outcome), m)
  | _ =>
      match deployment_outcome completion, deployment_in_flight m with
      | Some outcome, Some id =>
          let m := close_approval m in
          (Some (id, outcome), if is_lost completion then m_pending_approvals [] m else m)
      | _, _ => (None, m)
      end
  end.

(** The boolean says whether the completion ended there. *)
Definition procedure_outcome (now : Z) (completion : Completion) (m : Model) : bool * Model :=
  match step_outcome completion m with
  | (None, m) => (false, m)
  | (Some (id, outcome), m) =>
      let m := match outcome with Err _ => (remove_prompt id m).2 | Ok _ => m end in
      step_finished now id outcome m
  end.

(** ** Completions *)
Definition dialog_path (mode : Mode) : option string :=
  match mode with MEdit path _ | MReplace path _ _ | MDeleteConfirm path _ => Some path | _ => None end.
Definition selects (path : string) (m : Model) : bool :=
  bool_decide ((row ← selected (md_view m); rw_path row) = Some path).

Definition show_revealed (path : string) (value : list Z) (m : Model) : Model :=
  let reveal underneath := m_mode (MReveal path value 0 underneath) m in
  match md_mode m with
  | MBrowse => if selects path m then reveal None else m
  | dialog => if bool_decide (dialog_path dialog = Some path) then reveal (Some dialog) else m
  end.
Definition save_failed (path : string) (value : list Z) (message : string) (m : Model) : Model :=
  let dialog := MProviderFailure message path value in
  if is_browse (md_mode m) then m_mode dialog m else m_pending_dialogs (md_pending_dialogs m ++ [dialog]) m.
Definition deployed (generated skipped : list string) (summary : option DeploySummary) (m : Model) : Model :=
  let notice := from_option (λ s, summary_line s +:+ nl +:+ nl) "" summary +:+ deployed_notice generated skipped in
  let quarantined := from_option su_quarantined [] summary in
  let m := close_approval m in
  if bool_decide (quarantined = []) then inform notice m
  else report_failure (notice +:+ quarantine_text quarantined) m.
Definition bulk_text (saved : nat) : string := "Generated and saved " +:+ count saved +:+ " missing passwords.".
Definition is_bulk (mode : Mode) : bool := match mode with MBulkProgress _ _ => true | _ => false end.
(** An answer that reached no step's dialog: a notice. *)
Definition request_finished (id : string) (outcome : result string string) (m : Model) : Model :=
  match outcome with
  | Ok text => inform text m
  | Err text => report_failure text (remove_prompt id m).2
  end.
Definition worded (sent failed : string) (outcome : result string unit) : result string string :=
  match outcome with Ok _ => Ok sent | Err error => Err (failed +:+ error) end.

Definition set_stored (path : string) (set : bool) (m : Model) : Model := m_view (set_row path set (md_view m)) m.

Definition completed (completion : Completion) (m : Model) : Model :=
  match completion with
  | CpSaved path => inform ("saved " +:+ path) (set_stored path true m)
  | CpSaveFailed path value message => save_failed path value message m
  | CpDeleted path => inform ("deleted " +:+ path) (set_stored path false m)
  | CpRevealed path value => show_revealed path value m
  | CpCopied message => inform message m
  | CpKeypairGenerated path =>
      inform ("Generated keypair for " +:+ path +:+ ". p copies its public key.") (set_stored path true m)
  | CpFailed message => report_failure message m
  | CpGenerated path value replacing =>
      if is_browse (md_mode m) && selects path m then m_mode (MGeneratedPreview path value false replacing) m else m
  | CpBulkGenerated saved failed =>
      let m := if is_mode is_bulk m then m_mode MBrowse m else m in
      if bool_decide (failed = []) then inform (bulk_text saved) m
      else report_failure (bulk_text saved +:+ " " +:+ count (length failed) +:+ " failed:" +:+ nl
                           +:+ Text.join nl failed) m
  | CpBulkProgress made total => if is_mode is_bulk m then m_mode (MBulkProgress total made) m else m
  | CpApprovalTerminated id => finish_approval id m
  | CpApprovalDone (Some request) => offer_approval request (close_approval m)
  | CpHostMutationsDeclined before_deploy =>
      inform (if before_deploy
              then "Host-provided changes rejected; existing values were kept and deployment was cancelled."
              else "Host-provided changes rejected; existing values were kept. The target deployment already completed.")
        (close_approval m)
  | CpApprovalDone None => inform "deployment request finished" (close_approval m)
  | CpDeployed generated skipped summary => deployed generated skipped summary m
  | CpDeploymentRequested host =>
      inform ("Requested a deployment of " +:+ host +:+ "; its approval opens next.") m
  | CpApprovalLost message => report_failure message (m_pending_approvals [] (close_approval m))
  | CpProfileSaved name snapshot =>
      inform ("saved view profile " +:+ name)
        (change_view (λ v, with_active_profile (Some name) (with_profiles snapshot v)) m)
  | CpProfileDeleted name snapshot =>
      inform ("deleted view profile " +:+ name)
        (change_view (λ v, let v := with_profiles snapshot v in
                           if bool_decide (vw_active_profile v = Some name) then with_active_profile None v else v) m)
  | CpCommitSummary summary => if is_browse (md_mode m) then commit_show summary m else m
  | CpCommitted outcome => committed outcome m
  | CpCommitFailed error => report_failure ("git commit failed:" +:+ nl +:+ error) m
  | CpSecretRequestFinished id requester outcome =>
      request_finished id
        (match outcome with
         | Ok n => Ok ("Sent " +:+ count n +:+ " secret value" +:+ plural n +:+ " to " +:+ requester +:+ ".")
         | Err reason => Err ("Secret request from " +:+ requester +:+ " failed: " +:+ reason)
         end) m
  | CpSshSignatureFinished id requester outcome =>
      request_finished id
        (worded ("Approved SSH authentication for " +:+ requester +:+ "; the private key stayed on this client.")
           ("SSH authentication for " +:+ requester +:+ " failed: ") outcome) m
  | CpArtifactSignatureFinished id requester outcome =>
      request_finished id
        (worded ("Returned detached signatures to " +:+ requester +:+ "; the private key stayed on this client.")
           ("Signing for " +:+ requester +:+ " failed: ") outcome) m
  | CpConfirmationFinished id requester outcome =>
      request_finished id
        (worded ("You confirmed the step " +:+ requester +:+ " asked about.")
           ("The step " +:+ requester +:+ " asked about was not confirmed: ") outcome) m
  end.
Definition apply_completion (now : Z) (completion : Completion) (m : Model) : Model :=
  let '(ended, m) := procedure_outcome now completion m in
  show_pending_approval (if ended then m else completed completion m).

(** ** A tick *)
Definition procedure_event (now : Z) (event : ProcedureEvent) (m : Model) : Model :=
  match event with
  | PeStep step => procedure_step now step m
  | PeEnded id exit_code => procedure_ended id exit_code m
  | PeWithdrawn id => (withdraw_prompt now id m).2
  | PeDisconnected => connection_lost m
  | PeReconnected => inform "Reconnected to the backend. Requests that still wait are shown again from the start." m
  | PeSynced ids => procedures_synced ids m
  end.
Definition request_tick (now : Z) (events : list ProcedureEvent) (prompts : list SecretPrompt) (m : Model) : Model :=
  let m := foldl (λ m event, procedure_event now event m) m events in
  let m := foldl (λ m prompt, offer_prompt prompt m) m prompts in
  let '(expired, m) := expire_prompts now m in
  let '(flashed, m) := flash_tick now m in
  let '(spun, m) := spinner_tick now m in
  let polled := negb (bool_decide (events = [] ∧ prompts = [])) in
  if polled || expired || flashed || spun then show_pending_approval m else m.

(** What one tick polls. *)
Record Polled := {
  po_events : list ProcedureEvent;
  po_prompts : list SecretPrompt;
  po_completions : list Completion;
  po_activity : option Activity;
  po_problem : option string;
  po_profiles : result string (option ProfileSnapshot);
  po_rows : result string (option (list Row));
  po_approval : result string (option ApprovalRequest)
}.
Definition polled_or_failed {A} (apply : A → Model → Model) (polled : result string (option A)) (m : Model) : Model :=
  match polled with Ok (Some x) => apply x m | Ok None => m | Err error => report_failure error m end.

Definition tick (now : Z) (polled : Polled) (m : Model) : Model :=
  let m := request_tick now (po_events polled) (po_prompts polled) m in
  let m := foldl (λ m completion, apply_completion now completion m) m (po_completions polled) in
  let m := m_backend_problem (po_problem polled) (m_activity (po_activity polled) m) in
  let m := polled_or_failed (λ snapshot, change_view (with_profiles snapshot)) (po_profiles polled) m in
  let m := if is_browse (md_mode m)
           then polled_or_failed (λ rows, change_view (update_rows rows)) (po_rows polled) m else m in
  match po_approval polled with
  | Ok (Some request) => offer_approval request m
  | Ok None => m
  | Err message => report_failure message (close_approval m)
  end.

(** ** The loop *)
Section Drive.
Context `{SecretWriter}.

(** Ctrl+E in the commit dialog: [edit] is the frontend's editor. *)
Definition run_editor (now : Z) (edit : string → result string string) : Ui unit :=
  m ← the_model;
  match md_mode m with
  | MCommit draft summary true =>
      _ ← change (m_mode (MCommit draft summary false));
      _ ← reduce now (UiEdited (edit (cd_message draft)));
      mret tt
  | _ => mret tt
  end.

(** The boolean says whether the loop goes on; [busy] is whether the writer has an operation under way. *)
Definition input (now : Z) (edit : string → result string string) (busy : bool) (event : UiEvent) : Ui bool :=
  m ← the_model;
  if match event with UiHover target => bool_decide (md_hover m = target) | _ => false end then mret true
  else
    action ← reduce now event;
    _ ← run_editor now edit;
    _ ← change show_pending_approval;
    match action with
    | AQuit =>
        if busy then
          _ ← change (report_failure
                "Wait for pending operations to finish before quitting; submitted values are still being saved");
          mret true
        else mret false
    | _ => mret true
    end.

Inductive Turn :=
| Ticks (polled : Polled)
| Reads (event : UiEvent) (edit : string → result string string) (busy : bool)
(** The frontend drew a dialog of this height, and this review if it is one. *)
| Draws (limit : Z) (review : option string).

Definition turn (now : Z) (what : Turn) : Ui bool :=
  match what with
  | Ticks polled => _ ← change (tick now polled); mret true
  | Reads event edit busy => input now edit busy event
  | Draws limit review =>
      _ ← change (λ m, m_host_review_rendered (match review with Some _ => review | None => md_host_review_rendered m end)
                         (m_scroll_limit limit m));
      mret true
  end.

(** [drive]: it ends when the operator quits. *)
Fixpoint drive (turns : list (Z * Turn)) : Ui unit :=
  match turns with
  | [] => mret tt
  | (now, what) :: turns => goes_on ← turn now what; if goes_on : bool then drive turns else mret tt
  end.
End Drive.
