(* ===== verification/UiFacts.v ===== *)
(** * What the operator's input can do

    Over every state of the TUI and whatever the writer answers: the reducer
    keeps the invariant of TuiFacts.v, asks the writer to act only on what the
    operator saw and confirmed, and ends. *)
From S2P Require Import Prelude BTree Text Schema Procedure Requests Store Git Profiles Rows Tui TuiFacts TuiScreen Ui Drive.
#[local] Open Scope Z_scope.

(** ** Reasoning about computations
    [wp P E act Q m]: from [m], whatever was called before, [act] makes only calls
    in [P] and either returns in [Q] or panics in [E]. *)
Definition screen_at (m : Model) (calls : list WriterCall) : Screen := {| sc_model := m; sc_calls := calls |}.
Definition wp {A} (P : WriterCall → Prop) (E : string → Model → Prop) (act : Ui A) (Q : A → Model → Prop)
    (m : Model) : Prop :=
  ∀ calls, ∃ made, sc_calls (act (screen_at m calls)).2 = calls ++ made ∧ Forall P made
    ∧ match (act (screen_at m calls)).1 with
      | Ok a => Q a (sc_model (act (screen_at m calls)).2)
      | Err e => E e (sc_model (act (screen_at m calls)).2)
      end.

Section Rules.
Context (P : WriterCall → Prop) (E : string → Model → Prop).

Lemma wp_ret {A} (a : A) Q m : Q a m → wp P E (mret a) Q m.
Proof. intros H calls. exists []. cbn. rewrite app_nil_r. done. Qed.
Lemma wp_bind {A B} (act : Ui A) (k : A → Ui B) Q m :
  wp P E act (λ a m', wp P E (k a) Q m') m → wp P E (mbind k act) Q m.
Proof.
  intros H calls. destruct (H calls) as (made & Hc & HP & HQ).
  unfold mbind, stE_bind. destruct (act (screen_at m calls)) as [[a|e] [m' calls']]; cbn in *; [|by exists made].
  subst calls'. destruct (HQ (calls ++ made)) as (more & Hc' & HP' & HQ'). exists (made ++ more).
  rewrite app_assoc. split_and!; [done|by apply Forall_app|done].
Qed.
Lemma wp_change f Q m : Q tt (f m) → wp P E (change f) Q m.
Proof. intros H calls. exists []. cbn. rewrite app_nil_r. done. Qed.
Lemma wp_model Q m : Q m m → wp P E the_model Q m.
Proof. intros H calls. exists []. cbn. rewrite app_nil_r. done. Qed.
Lemma wp_request `{SecretWriter} call Q m : P call → (∀ calls, Q (reply calls call) m) → wp P E (request call) Q m.
Proof. intros Hc HQ calls. exists [call]. cbn. split_and!; [done|by constructor|apply HQ]. Qed.
Lemma wp_panic {A} reason Q m : E reason m → wp (A := A) P E (panic reason) Q m.
Proof. intros H calls. exists []. cbn. rewrite app_nil_r. done. Qed.
End Rules.

Lemma wp_mono {A} (P P' : WriterCall → Prop) (E E' : string → Model → Prop) (act : Ui A) Q Q' m :
  wp P E act Q m → (∀ call, P call → P' call) → (∀ e m', E e m' → E' e m') → (∀ a m', Q a m' → Q' a m') →
  wp P' E' act Q' m.
Proof.
  intros H HP HE HQ calls. destruct (H calls) as (made & Hc & Hall & Hr). exists made.
  split_and!; [done|by eapply Forall_impl|]. destruct (act _) as [[?|?] ?]; cbn in *; auto.
Qed.
Lemma wp_run {A} P E (act : Ui A) Q s : wp P E act Q (sc_model s) →
  ∃ made, sc_calls (act s).2 = sc_calls s ++ made ∧ Forall P made
    ∧ match (act s).1 with Ok a => Q a (sc_model (act s).2) | Err e => E e (sc_model (act s).2) end.
Proof. intros H. destruct s as [m calls]. exact (H calls). Qed.

(** Walks through a computation; what is left are the calls and the ends. *)
Ltac wp_split :=
  match goal with
  | |- wp _ _ (match ?x with _ => _ end) _ _ => destruct x eqn:?; try discriminate
  | |- wp _ _ (let '(_, _) := ?x in _) _ _ => destruct x eqn:?
  end.
Ltac wp_one :=
  cbv beta zeta;
  lazymatch goal with
  | |- wp _ _ (mbind _ _) _ _ => apply wp_bind
  | |- wp _ _ (mret _) _ _ => apply wp_ret
  | |- wp _ _ (change _) _ _ => apply wp_change
  | |- wp _ _ the_model _ _ => apply wp_model
  | |- wp _ _ (request _) _ _ => apply wp_request; [|intros ?]
  | |- wp _ _ (panic _) _ _ => apply wp_panic
  | |- wp _ _ (match _ with _ => _ end) _ _ => wp_split
  | |- wp _ _ (goto _) _ _ => unfold goto
  | |- wp _ _ (show_approval _) _ _ => unfold show_approval
  | |- wp _ _ done _ _ => unfold done
  | |- wp _ _ (fail_unless_queued _) _ _ => unfold fail_unless_queued
  | |- wp _ _ (report _) _ _ => unfold report
  end.
Ltac wp_walk := repeat wp_one.

(** ** The invariant *)
(** [tui_ok] of a model that differs from one known only in fields it does not read. *)
Ltac ok_same_known :=
  match goal with H : tui_ok ?m |- tui_ok _ => apply (ok_same m); [reflexivity|reflexivity|reflexivity|exact H] end.
Lemma ok_acknowledge m : tui_ok m → tui_ok (acknowledge m).
Proof. apply (ok_step 0 EvAcknowledge). Qed.
Lemma ok_shown_pending_mode mode m : tui_ok m → tui_ok (show_pending_approval (m_mode mode m)).
Proof. intros. by apply ok_show_pending, ok_quiet_mode. Qed.

Ltac ok :=
  cbv beta zeta;
  lazymatch goal with
  | |- tui_ok (show_pending_approval _) => apply ok_show_pending; ok
  | |- tui_ok (m_mode _ _) => apply ok_quiet_mode; ok
  | |- tui_ok (inform _ _) => apply ok_notice; ok
  | |- tui_ok (report_failure _ _) => apply ok_notice; ok
  | |- tui_ok (mark_saved _ _) => unfold mark_saved; ok
  | |- tui_ok (mark_deleted _ _) => unfold mark_deleted; ok
  | |- tui_ok (open_deploy_picker _) => unfold open_deploy_picker; ok
  | |- tui_ok (committed _ _) => unfold committed; ok
  | |- tui_ok (generate_begin _) => unfold generate_begin; ok
  | |- tui_ok (begin_value _ _) => unfold begin_value; ok
  | |- tui_ok (dismiss_result _) => apply ok_dismiss; ok
  | |- tui_ok (minimise _).2 => apply ok_minimise; ok
  | |- tui_ok (deployment_answered _ _ _) => apply ok_deployment_answered; ok
  | |- tui_ok (offer_approval _ _) => apply ok_offer_approval; ok
  | |- tui_ok (acknowledge _) => apply ok_acknowledge; ok
  | |- tui_ok (remove_prompt _ _).2 => apply ok_remove_prompt; ok
  | |- tui_ok (finish_approval _ _) => apply ok_finish_approval; ok
  | |- tui_ok (if ?b then _ else _) => destruct b eqn:?; ok
  | |- tui_ok (match ?x with _ => _ end) => destruct x eqn:?; ok
  | |- tui_ok (?f ?m) => first [assumption | ok_same_known | apply (ok_same m); [reflexivity..|]; ok]
  | |- _ => assumption
  end.

(** ** Calls that need the operator's consent *)
(** The key a button stands for. *)
Definition meant (event : UiEvent) : UiEvent :=
  match event with
  | UiClick (MtShortcut shortcut) => shortcut_event shortcut
  | UiClick MtConfirmLoss => UiConfirmLoss
  | UiClick MtAutosaveToggle => UiTab
  | UiClick MtRevealCurrent => UiRevealCurrent
  | UiClick target => default event (commit_control target)
  | _ => event
  end.
Definition types (c : string) (event : UiEvent) : Prop := meant event = UiCharacter c.
Definition refuses (event : UiEvent) : Prop := types "n" event ∨ meant event = UiEscape.

(** The operator agrees to the request [x] on screen: Ctrl+Shift+Y, or Enter on the word typed for it. *)
Definition approves (x : SecretPrompt) (m : Model) (event : UiEvent) : Prop :=
  if is_some (sp_confirmation x)
  then meant event = UiEnter ∧ md_confirmation_typed m = (sp_id x, CONFIRMATION_WORD)
  else meant event = UiConfirmLoss.
Definition declines (x : SecretPrompt) (event : UiEvent) : Prop :=
  refuses event ∨ (sp_confirmation x = None ∧ meant event = UiEnter).
Definition values_sent (x : SecretPrompt) : nat := if is_some (sp_confirmation x) then 0%nat else value_count x.

(** The dialog an event reaches: a key may first close a notice on top of it. *)
Definition dialog_reached (m : Model) : Mode := if is_some (md_message m) then md_mode (acknowledge m) else md_mode m.

Section Consent.
Context `{SecretWriter}.
(** [value] is what was pasted; Ctrl+V reads the clipboard. *)
Definition pasted (event : UiEvent) (value : list Z) : Prop :=
  match meant event with
  | UiPaste text => value = text
  | UiPasteRequest => ∃ calls, reply calls WPasteClipboard = Ok value
  | _ => False
  end.
(** The operator entered, generated or pasted [value] for [path], where nothing is stored, or just agreed to lose
    what is, or writes again what could not be written. *)
Definition may_write (m : Model) (event : UiEvent) (path : string) (value : list Z) : Prop :=
  (is_set path (md_view m) = false
   ∧ ((dialog_reached m = MEdit path value ∧ meant event = UiEnter)
      ∨ (dialog_reached m = MEdit path [] ∧ pasted event value)
      ∨ (∃ revealed replacing, dialog_reached m = MGeneratedPreview path value revealed replacing ∧ meant event = UiEnter)))
  ∨ (dialog_reached m = MBrowse ∧ pasted event value
     ∧ ∃ row, selected (md_view m) = Some row ∧ rw_path row = Some path ∧ rw_is_set row = false)
  ∨ (∃ commit, dialog_reached m = MReplace path value commit
       ∧ (meant event = UiConfirmLoss ∨ (commit = Committed ∧ types "y" event)))
  ∨ (∃ message, dialog_reached m = MProviderFailure message path value ∧ (types "r" event ∨ meant event = UiEnter)).

(** What must be on screen and pressed for [call]. *)
Definition confirmed_call (m : Model) (event : UiEvent) (call : WriterCall) : Prop :=
  match call with
  | WWrite path value => may_write m event path value
  | WDelete path =>
      ∃ commit, md_mode m = MDeleteConfirm path commit
        ∧ (meant event = UiConfirmLoss ∨ ((commit = Committed ∨ commit = Unset) ∧ types "y" event))
  | WApproval accepted =>
      accepted = false ∧ ∃ r, md_mode m = MApproval r ∧ ar_host_mutations r = [] ∧ refuses event
  | WApprovalWith accepted unchecked =>
      accepted = true ∧ ∃ r, md_mode m = MApproval r ∧ ar_host_mutations r = [] ∧ types "y" event
        ∧ unchecked = ar_unchecked r ∧ is_some (ar_host_key r) || request_deployable r = true
  | WHostMutations accepted token =>
      ∃ r, md_mode m = MApproval r ∧ ar_host_mutations r ≠ [] ∧ ar_host_mutation_token r = Some token
        ∧ (if accepted then types "y" event ∧ host_review_seen m token = true else refuses event)
  | WCommit options =>
      ∃ draft summary editing, md_mode m = MCommit draft summary editing ∧ meant event = UiSubmit
        ∧ commit_refusal draft summary = None
        ∧ options = {| co_message := cd_message draft; co_amend := cd_amend draft; co_signoff := cd_signoff draft |}
  | WGenerateKeypair path => ∃ replacing, md_mode m = MKeypairConfirm path replacing ∧ types "y" event
  | WGenerateMissing paths kind =>
      md_mode m = MBulkGenerateConfirm paths ∧ types (match kind with GkPassword => "p" | GkPassphrase => "w" end) event
  | WDeleteProfile name _ => md_mode m = MProfileDelete name ∧ types "y" event
  | WSaveProfile name profile _ =>
      profile = capture_profile (md_view m)
      ∧ ((md_mode m = MProfileSave name ∧ meant event = UiEnter
          ∧ bt_contains name (sn_profiles (vw_profiles (md_view m))) = false)
         ∨ (md_mode m = MProfileOverwrite name ∧ types "y" event))
  | WAnswerSecret _ _ _ | WCancelCountdown _ => False
  | _ => True
  end.
Definition warranted (m : Model) (event : UiEvent) (call : WriterCall) : Prop :=
  match call with
  | WAnswerSecret id approved count =>
      ∃ x, shown_prompt m = Some x ∧ sp_id x = id ∧ count = values_sent x
        ∧ (if approved then approves x m event else declines x event)
  | WCancelCountdown id =>
      ∃ x, shown_prompt m = Some x ∧ sp_id x = id ∧ is_some (sp_deadline x) = true
        ∧ sp_confirmation x = None ∧ types "c" event
  | _ => shown_prompt m = None ∧ confirmed_call m event call
  end.
End Consent.
(** Calls that change nothing stored and answer nobody. *)
Definition harmless (call : WriterCall) : bool :=
  match call with
  | WRequestDeployment _ | WReveal _ | WCopyPublic _ | WGenerateFor _ _ _ | WCopy _
  | WPasteClipboard | WCommitState _ | WCommitSummary => true
  | _ => false
  end.
Lemma harmless_warranted `{SecretWriter} m event call : shown_prompt m = None → harmless call = true → warranted m event call.
Proof. destruct call; cbn; done. Qed.

(** ** The dialogs *)
Lemma typed_key c event : char_in [c] event = true → types c event.
Proof. destruct event; cbn; try done. intros H. bool_prop. apply list_elem_of_singleton in H. by subst. Qed.
Lemma typed_keys a b event : char_in [a; b] event = true → types a event ∨ types b event.
Proof. destruct event; cbn; try done. intros H. bool_prop. unfold types. cbn. set_solver. Qed.
Lemma refusing_key event :
  char_in ["n"] event || match event with UiEscape => true | _ => false end = true → refuses event.
Proof. rewrite orb_true_iff. intros [Hn|He]; [left; by apply typed_key|]. destruct event; try done. by right. Qed.

Section Dialogs.
Context `{SecretWriter} (now : Z) (P : WriterCall → Prop) (E : string → Model → Prop).
Context (lets : ∀ call, harmless call = true → P call).
Notation safe act m := (wp P E act (λ _, tui_ok) m).

Ltac walk := repeat wp_one; try (apply lets; reflexivity); try ok.

Lemma safe_then {A} (act : Ui A) m : safe act m → safe (_ ← act; done) m.
Proof. intros Hact. apply wp_bind. eapply wp_mono; [exact Hact|done|done|]. intros. walk. Qed.
Lemma safe_submit path value m : tui_ok m → P (WWrite path value) → safe (submit path value) m.
Proof. intros. unfold submit. walk.
Qed.
Lemma safe_submit_entry path value m :
  tui_ok m → (is_set path (md_view m) = false → P (WWrite path value)) → safe (submit_entry path value) m.
Proof. intros. unfold submit_entry. walk. apply safe_submit; auto. Qed.

Lemma dialog_reached_mode mode m : md_message m = None → dialog_reached (m_mode mode m) = mode.
Proof. unfold dialog_reached. cbn [m_mode md_message]. by intros ->. Qed.

(** The calls [mode] may make on [event], when it is taken from the screen of [m]. *)
Definition granted (mode : Mode) (event : UiEvent) (m : Model) : Prop :=
  ∀ call, confirmed_call (m_mode mode m) event call → P call.

(** Ends an obligation [P call] from [granted]. *)
Ltac grant :=
  match goal with
  | Hg : granted _ _ _ |- P _ =>
      apply Hg; cbn [confirmed_call]; unfold may_write; rewrite ?dialog_reached_mode by done; cbn [md_mode m_mode md_view]
  end.
Ltac keys :=
  repeat match goal with
  | Hk : _ && _ = true |- _ => apply andb_true_iff in Hk as [? ?]
  | Hk : char_in [_] _ = true |- _ => apply typed_key in Hk
  | Hk : char_in [_; _] _ = true |- _ => apply typed_keys in Hk
  end.

Lemma review_seen_reset m r batch :
  ar_host_mutation_token r = Some batch →
  let m1 := if bool_decide (fst <$> md_host_review m = Some batch) then m
            else m_modal_scroll 0 (m_host_review (Some (batch, false)) m) in
  host_review_seen (if host_review_at_end m1 batch then m_host_review (Some (batch, true)) m1 else m1) batch = true →
  host_review_seen m batch = true.
Proof.
  intros _ m1 Hs.
  assert (host_review_at_end m1 batch = host_review_at_end m batch) as He.
  { unfold m1, host_review_at_end. destruct (bool_decide (fst <$> md_host_review m = Some batch)) eqn:Hb; [done|].
    bool_prop.
    cbn [md_host_review md_modal_scroll m_modal_scroll m_host_review md_scroll_limit md_host_review_rendered].
    f_equal. f_equal. replace (if bool_decide (batch = batch) then 0 else 0) with 0 by by destruct (bool_decide _).
    destruct (md_host_review m) as [[token seen]|]; [|done].
    rewrite (bool_decide_eq_false_2 (token = batch)); [done|]. intros ->. by apply Hb. }
  rewrite He in Hs. unfold host_review_seen. destruct (host_review_at_end m batch) eqn:Ee; [by rewrite orb_true_r|].
  rewrite orb_false_r. unfold host_review_seen in Hs. rewrite He, orb_false_r in Hs. unfold m1 in Hs.
  destruct (bool_decide (fst <$> md_host_review m = Some batch)); [done|]. cbn in Hs. by bool_prop.
Qed.

(** Reading the review: a key other than Up and Down does not scroll it. *)
Lemma safe_review_scroll event m :
  tui_ok m →
  wp P E (match event with UiUp => change scroll_up | UiDown => change scroll_down | _ => mret tt end)
    (λ _ m', tui_ok m' ∧ (char_in ["y"] event = true → m' = m)) m.
Proof. intros. repeat wp_one; by (split; [ok|]). Qed.

Lemma safe_host_mutations m r event :
  tui_ok m → ar_host_mutations r ≠ [] → granted (MApproval r) event m → safe (host_mutations now r event) m.
Proof.
  intros Hok Hr Hg. unfold host_mutations. set (batch := default "" (ar_host_mutation_token r)). cbv zeta.
  do 2 apply wp_bind || apply wp_change. set (m1 := if bool_decide _ then m else _).
  assert (tui_ok m1) as Hok1 by (unfold m1; ok).
  apply wp_bind. eapply wp_mono; [by apply safe_review_scroll|done|done|]. cbv beta. intros _ m2 [Hok2 Hy].
  do 2 apply wp_bind || apply wp_change. set (m3 := if host_review_at_end m2 batch then _ else _).
  assert (tui_ok m3) as Hok3 by (unfold m3; ok).
  assert (batch ≠ "" → ar_host_mutation_token r = Some batch) as Hbatch.
  { unfold batch. destruct (ar_host_mutation_token r); [done|]. intros Hb. by exfalso. }
  apply wp_bind, wp_model. destruct (if char_in ["y"] event then _ else _) as [accepted|] eqn:Ha.
  - case_bool_decide as Hb; [repeat wp_one; ok|].
    do 2 apply wp_bind || apply wp_change. apply wp_bind, wp_request; [|intros answer; repeat wp_one; ok].
    apply Hg. cbn [confirmed_call]. exists r. split_and!; [done|done|by apply Hbatch|].
    destruct (char_in ["y"] event) eqn:Ey.
    + destruct (host_review_seen m3 batch) eqn:Es; [|done]. injection Ha as <-. split; [by apply typed_key|].
      unfold m3 in Es. rewrite Hy in Es by done. by apply (review_seen_reset m r batch (Hbatch Hb)).
    + destruct (char_in ["n"] event) eqn:En; [injection Ha as <-; left; by apply typed_key|].
      destruct event; try done. injection Ha as <-. by right.
  - repeat wp_one; ok.
Qed.

(** Deployments: [r] is the request of the dialog, taken from the screen. *)
Lemma safe_approval m r event :
  tui_ok m → granted (MApproval r) event m → safe (approval_reduce now r event) m.
Proof.
  intros Hok Hg. unfold approval_reduce.
  destruct (negb (bool_decide (ar_host_mutations r = []))) eqn:Hr; bool_prop; [by apply safe_host_mutations|].
  walk; grant; (split; [done|]); exists r; keys; split_and!; try done.
  all: by apply refusing_key.
Qed.

(** Entering and generating values. *)
Lemma safe_submit_if_edit path value m :
  tui_ok m → P (WWrite path value) → md_mode m = MEdit path value → safe submit_if_edit m.
Proof. intros Hok HP Hm. unfold submit_if_edit. walk. all: simplify_eq. apply safe_submit; [ok|done]. Qed.

Lemma safe_generate_choose path replacing event m : tui_ok m → safe (generate_choose path replacing event) m.
Proof. intros. unfold generate_choose. walk. Qed.
Lemma safe_preview path value revealed replacing event m :
  tui_ok m → md_message m = None → granted (MGeneratedPreview path value revealed replacing) event m →
  safe (preview_reduce path value revealed replacing event) m.
Proof.
  intros Hok Hm Hg. unfold preview_reduce. walk. eapply wp_mono; [apply safe_submit_entry|..]; try done.
  - intros Hs. grant. left. split; [done|]. right. right. by exists revealed, replacing.
  - intros. walk.
Qed.
Lemma safe_failure message path value event m :
  tui_ok m → md_message m = None → granted (MProviderFailure message path value) event m →
  safe (failure_reduce message path value event) m.
Proof.
  intros Hok Hm Hg. unfold failure_reduce. walk. apply safe_submit; [done|]. grant. do 3 right. exists message.
  split; [done|]. match goal with Hk : _ || _ = true |- _ => apply orb_true_iff in Hk as [Hk|Hk] end; keys; [by left|].
  destruct event; try done. by right.
Qed.
Lemma safe_deploy_host chosen event m : tui_ok m → safe (deploy_host_reduce chosen event) m.
Proof. intros. unfold deploy_host_reduce. walk. Qed.

(** Lists that move a cursor. *)
Lemma moved_bound current event n : event ≠ UiUp → (0 < n → moved current event n < n)%nat.
Proof. intros. unfold moved. case_match; [done|lia..]. Qed.
Lemma editor_attributes_some v : (0 < length (tree_editor_attributes v))%nat.
Proof.
  unfold tree_editor_attributes. rewrite length_app.
  destruct (vw_tree_order v) as [|a order]; cbn [length]; [|lia].
  assert (filter (λ attribute, attribute ∉ []) GROUPING = GROUPING) as ->; [|cbn; lia].
  by vm_compute.
Qed.
Lemma lookup_within {A} (l : list A) i : (i < length l)%nat → is_Some (l !! i).
Proof. apply lookup_lt_is_Some. Qed.

Lemma safe_facet_categories chosen event m : tui_ok m → safe (facet_categories chosen event) m.
Proof.
  intros. unfold facet_categories. walk. exfalso.
  destruct (lookup_within GROUPING (moved chosen UiEnter (length GROUPING))) as [x Hx]; [|congruence].
  apply moved_bound; [done|]. vm_compute. lia.
Qed.
Lemma safe_facet_values attribute chosen event m : tui_ok m → safe (facet_values_reduce attribute chosen event) m.
Proof. intros. unfold facet_values_reduce. walk. Qed.
Lemma safe_first_choice attribute value event m : tui_ok m → safe (facet_first_choice attribute value event) m.
Proof. intros. unfold facet_first_choice. walk. Qed.
Lemma safe_tree_order chosen event m : tui_ok m → safe (tree_order_reduce chosen event) m.
Proof.
  intros. unfold tree_order_reduce. walk.
  all: exfalso; destruct (lookup_within (tree_editor_attributes (md_view m))
         (moved chosen event (length (tree_editor_attributes (md_view m))))) as [x Hx]; [|congruence].
  all: apply moved_bound, editor_attributes_some; by intros ->.
Qed.

(** Profiles: a chosen position past the end of the list is the one way to panic. *)
Lemma safe_profiles chosen event m :
  tui_ok m →
  (types "s" event ∨ types "d" event → (length (sn_profiles (vw_profiles (md_view m))) < chosen)%nat →
   ∀ m', E "index out of bounds" m') →
  safe (profiles_list chosen event) m.
Proof.
  intros Hok HE. unfold profiles_list. walk.
  all: keys; apply HE; bool_prop; [tauto|].
  all: match goal with Hn : _ !! _ = None |- _ => apply lookup_ge_None in Hn; rewrite length_fmap in Hn end; rewrite Nat.ltb_lt in *; lia.
Qed.
Lemma safe_save_profile_as name m :
  tui_ok m →
  P (WSaveProfile name (capture_profile (md_view m)) (sn_revision (vw_profiles (md_view m)))) →
  safe (save_profile_as name) m.
Proof. intros. unfold save_profile_as. walk. Qed.
Lemma safe_profile_save name event m :
  tui_ok m → granted (MProfileSave name) event m → safe (profile_save name event) m.
Proof.
  intros Hok Hg. unfold profile_save. walk. apply safe_save_profile_as; [done|]. grant. split; [done|]. by left.
Qed.
Lemma safe_profile_overwrite name event m :
  tui_ok m → granted (MProfileOverwrite name) event m → safe (profile_overwrite name event) m.
Proof.
  intros Hok Hg. unfold profile_overwrite. walk. apply safe_save_profile_as; [done|]. keys.
  grant. split; [done|]. by right.
Qed.
Lemma safe_profile_delete name event m :
  tui_ok m → granted (MProfileDelete name) event m → safe (profile_delete name event) m.
Proof. intros Hok Hg. unfold profile_delete. walk. keys. by grant. Qed.

(** Commits. *)
Lemma safe_commit_open m : tui_ok m → safe commit_open m.
Proof. intros. unfold commit_open, commit_show. walk. Qed.
Lemma safe_commit draft summary editing event m :
  tui_ok m → granted (MCommit draft summary editing) event m → safe (commit_reduce draft summary editing event) m.
Proof.
  intros Hok Hg. unfold commit_reduce. walk. grant. by exists draft, summary, editing.
Qed.

(** The tree. *)
Lemma safe_browse_delete m : tui_ok m → safe browse_delete m.
Proof. intros. unfold browse_delete. walk. Qed.
Lemma safe_browse_reveal m : tui_ok m → safe browse_reveal m.
Proof. intros. unfold browse_reveal. walk. Qed.
Lemma safe_browse_copy m : tui_ok m → safe browse_copy m.
Proof. intros. unfold browse_copy. walk. Qed.
Lemma safe_browse_copy_public m : tui_ok m → safe browse_copy_public m.
Proof. intros. unfold browse_copy_public. walk. Qed.
Lemma safe_restore_next m : tui_ok m → safe (try_restore restore_next) m.
Proof.
  intros Hok. unfold try_restore. pose proof (ok_restore_next m Hok) as Hr. repeat wp_one.
  all: destruct (restore_next m); simplify_eq; ok.
Qed.
Lemma safe_restore_entry index m : tui_ok m → safe (restore_entry index) m.
Proof.
  intros Hok. unfold restore_entry, try_restore. repeat wp_one; try done.
  all: match goal with Hr : restore ?id ?m = _ |- _ => pose proof (ok_restore id m Hok); destruct (restore id m) end.
  all: simplify_eq; ok.
Qed.
Lemma safe_browse_paste value m :
  tui_ok m → md_message m = None → granted MBrowse (UiPaste value) m → md_mode m = MBrowse → safe (browse_paste value) m.
Proof.
  intros Hok Hn Hg Hm. unfold browse_paste. apply wp_bind, wp_model, wp_bind, wp_change.
  destruct (is_some_and rw_is_set (selected (md_view m))) eqn:Hs; [walk|].
  unfold begin_value, submit_if_edit. destruct (selected (md_view m)) as [row|] eqn:Er; [|walk; cbn in *; congruence].
  cbn [mbind option_bind]. destruct (rw_path row) as [path|] eqn:Ep; [|walk; cbn in *; congruence].
  apply wp_bind, wp_model. cbn [md_mode m_mode]. do 2 apply wp_bind || apply wp_change.
  apply safe_submit; [ok|]. grant. right. left. split_and!; [done|done|]. by exists row.
Qed.
Lemma safe_browse event m :
  tui_ok m → md_message m = None → granted MBrowse event m → md_mode m = MBrowse → safe (browse event) m.
Proof.
  intros Hok Hn Hg Hm. unfold browse. destruct event; try (walk; done).
  - case_bool_decide.
    + unfold browse_restore_next. by apply safe_then, safe_restore_next.
    + apply safe_then. unfold browse_key. repeat wp_split; try (walk; done).
      * by apply safe_commit_open.
      * by apply safe_browse_delete.
      * by apply safe_browse_reveal.
      * by apply safe_browse_copy.
      * by apply safe_browse_copy_public.
  - apply safe_then. by apply safe_browse_paste.
Qed.

(** The other dialogs. *)
Lemma safe_bulk_confirm paths event m :
  tui_ok m → granted (MBulkGenerateConfirm paths) event m → safe (bulk_confirm paths event) m.
Proof.
  intros Hok Hg. unfold bulk_confirm. walk. grant. split; [done|].
  destruct (char_in ["p"] event) eqn:Hp; [by apply typed_key|].
  assert (char_in ["w"] event = true) as Hw; [|by apply typed_key].
  destruct event; try done. cbn in *. bool_prop. set_solver.
Qed.
Lemma safe_scroll shown closes scroll event m : tui_ok m → safe (scroll_dialog shown closes scroll event) m.
Proof. intros. unfold scroll_dialog. walk. Qed.
Lemma safe_search query event m : tui_ok m → safe (search query event) m.
Proof. intros. unfold search. walk. Qed.
Lemma safe_keypair path replacing event m :
  tui_ok m → granted (MKeypairConfirm path replacing) event m → safe (keypair_confirm path replacing event) m.
Proof. intros Hok Hg. unfold keypair_confirm. walk. keys. grant. by exists replacing. Qed.
Lemma safe_reveal_over dialog path m : tui_ok m → safe (reveal_over dialog path) m.
Proof. intros. unfold reveal_over. walk. Qed.
Lemma safe_delete path commit event m :
  tui_ok m → granted (MDeleteConfirm path commit) event m → safe (delete_confirm path commit event) m.
Proof.
  intros Hok Hg. unfold delete_confirm.
  destruct (_ || _) eqn:Ha; [|walk; by apply safe_reveal_over]. walk. grant. exists commit. split; [done|].
  apply orb_true_iff in Ha as [Ha|Ha]; keys; [|by left; destruct event]. right. split; [|done].
  destruct commit; try done; [by right|by left].
Qed.
Lemma safe_reveal path value scroll underneath event m :
  tui_ok m → safe (reveal_dialog path value scroll underneath event) m.
Proof. intros. unfold reveal_dialog. walk. Qed.
Lemma safe_edit path value event m :
  tui_ok m → md_message m = None → granted (MEdit path value) event m → safe (edit_dialog path value event) m.
Proof.
  intros Hok Hm Hg. unfold edit_dialog. walk; [..|by apply safe_reveal_over].
  - eapply wp_mono; [apply safe_submit_entry|..]; try done; [|intros; walk]. intros Hs. grant. left. split; [done|]. by left.
  - eapply wp_mono; [apply safe_submit|..]; try done; [|intros; walk]. grant. left. bool_prop. split; [tauto|].
    right. left. destruct_and!. subst. done.
Qed.
Lemma safe_replace path value commit event m :
  tui_ok m → md_message m = None → granted (MReplace path value commit) event m →
  safe (replace_dialog path value commit event) m.
Proof.
  intros Hok Hm Hg. unfold replace_dialog.
  destruct (is_reveal_current event); [by apply safe_reveal_over|].
  destruct (char_in ["y"] event && _ || _) eqn:Ha; [|walk].
  apply safe_then, safe_submit; [done|]. grant. do 2 right. left. exists commit. split; [done|].
  apply orb_true_iff in Ha as [Ha|Ha]; keys; [|by left; destruct event]. right. by destruct commit.
Qed.
Lemma safe_settings chosen event m :
  tui_ok m → ((1 ≤ chosen)%nat → ∀ m', E "index out of bounds" m') → safe (settings chosen event) m.
Proof. intros Hok HE. unfold settings. walk. all: apply HE; bool_prop; rewrite Nat.ltb_ge in *; lia. Qed.
Lemma safe_approval_dialog r event m :
  tui_ok m → granted (MApproval r) event m → safe (approval_dialog now r event) m.
Proof.
  intros Hok Hg. unfold approval_dialog. walk.
  - unfold browse_restore_next. apply safe_then, safe_restore_next. ok.
  - eapply wp_mono; [by apply safe_approval|done|done|]. intros. walk.
Qed.

(** A key is for the item chosen of a list or of the settings, which has none there. *)
Definition astray (mode : Mode) (event : UiEvent) (v : View) : Prop :=
  match mode with
  | MProfiles chosen =>
      (types "s" event ∨ types "d" event) ∧ (length (sn_profiles (vw_profiles v)) < chosen)%nat
  | MSettings chosen => (1 ≤ chosen)%nat
  | _ => False
  end.
Lemma safe_dispatch mode event m :
  tui_ok m → md_message m = None → md_mode m = MBrowse → granted mode event m →
  (astray mode event (md_view m) → ∀ m', E "index out of bounds" m') →
  safe (dispatch now mode event) m.
Proof.
  intros Hok Hn Hm Hg HE. unfold dispatch. cbv zeta. destruct mode; try apply safe_then.
  - by apply safe_browse.
  - by apply safe_settings.
  - by apply safe_scroll.
  - by apply safe_facet_categories.
  - by apply safe_facet_values.
  - by apply safe_first_choice.
  - by apply safe_tree_order.
  - apply safe_profiles; [done|]. intros. by apply HE.
  - by apply safe_profile_save.
  - by apply safe_profile_overwrite.
  - by apply safe_profile_delete.
  - by apply safe_scroll.
  - by apply safe_search.
  - by apply safe_delete.
  - by apply safe_reveal.
  - by apply safe_edit.
  - by apply safe_replace.
  - by apply safe_generate_choose.
  - by apply safe_keypair.
  - by apply safe_bulk_confirm.
  - walk.
  - by apply safe_preview.
  - by apply safe_approval_dialog.
  - by apply safe_deploy_host.
  - by apply safe_commit.
  - by apply safe_failure.
Qed.

(** ** Requests *)
Lemma shown_foreground m x : shown_prompt m = Some x → ∃ id, md_foreground m = Some id.
Proof. unfold shown_prompt, front_procedure. destruct (md_foreground m) as [id|]; [by exists id|done]. Qed.

Lemma safe_decide decision count m x :
  tui_ok m → shown_prompt m = Some x → P (WAnswerSecret (sp_id x) decision count) →
  safe (decide_prompt now decision count) m.
Proof.
  intros Hok Hx HP. unfold decide_prompt. apply wp_bind, wp_model.
  pose proof (ok_take_shown now decision m Hok) as Hok'. destruct (asked_take_shown now decision m Hok) as [_ Ht].
  destruct (take_shown_prompt now decision m) as [taken m']; cbn [fst snd] in *.
  rewrite Hx in Ht. subst taken. walk.
Qed.
Lemma safe_window event act m : window_input event = Some act → tui_ok m → safe act m.
Proof.
  intros Hw Hok. unfold window_input in Hw.
  assert (∀ act', (if key "m" event then Some (change (λ m, (minimise m).2))
                   else if char_in ["M"] event then Some (try_restore restore_next) else None) = Some act' →
            safe act' m) as Hkeys.
  { intros act'. destruct (key "m" event); [intros [= <-]; walk|].
    destruct (char_in ["M"] event); [intros [= <-]; by apply safe_restore_next|done]. }
  destruct event; try (by apply Hkeys); try (injection Hw as <-; walk).
  destruct target; try (by apply Hkeys). injection Hw as <-. by apply safe_restore_entry.
Qed.
End Dialogs.

Lemma key_meant c event : key c event = true → types c event.
Proof.
  unfold key. intros [Hk|Hk]%orb_true_iff; [by apply typed_key|]. destruct event; try done.
  destruct target; try done. destruct shortcut; try done. cbn in Hk. bool_prop. by subst.
Qed.
Lemma enter_meant event : is_enter event = true → meant event = UiEnter.
Proof. destruct event; try done. by destruct target as [| | |[]| | | | | | | | | | |]. Qed.
Lemma escape_meant event : is_escape event = true → meant event = UiEscape.
Proof. destruct event; try done. by destruct target as [| | |[]| | | | | | | | | | |]. Qed.
Lemma confirm_loss_meant event : is_confirm_loss event = true → meant event = UiConfirmLoss.
Proof. destruct event; try done. by destruct target. Qed.

Section Requests.
Context `{SecretWriter} (now : Z) (E : string → Model → Prop).

Lemma safe_confirmation prompt event m :
  tui_ok m → shown_prompt m = Some prompt → is_some (sp_confirmation prompt) = true →
  wp (warranted m event) E (confirmation now prompt event) (λ _, tui_ok) m.
Proof.
  intros Hok Hs Hc. unfold confirmation. do 2 apply wp_bind || apply wp_change.
  assert (tui_ok (typed_for (sp_id prompt) m)) as Hok1 by (unfold typed_for; ok).
  assert (shown_prompt (typed_for (sp_id prompt) m) = Some prompt) as Hs1
    by (unfold typed_for; by destruct (bool_decide _)).
  assert (md_confirmation_typed (typed_for (sp_id prompt) m) = md_confirmation_typed m
          ∨ md_confirmation_typed (typed_for (sp_id prompt) m) = (sp_id prompt, "")) as Ht
    by (unfold typed_for; destruct (bool_decide _); auto).
  assert ((md_confirmation_typed (typed_for (sp_id prompt) m)).1 = sp_id prompt) as Hid.
  { unfold typed_for. case_bool_decide; done. }
  revert Hok1 Hs1 Ht Hid. generalize (typed_for (sp_id prompt) m). intros m1 Hok1 Hs1 Ht Hid.
  destruct (window_input event) as [act|] eqn:Hw; [by eapply safe_window|].
  assert (∀ decision : bool, (if decision then approves prompt m event else declines prompt event) →
            wp (warranted m event) E (decide_prompt now decision 0) (λ _, tui_ok) m1) as Hdecide.
  { intros decision Hd. eapply safe_decide; [done..|]. cbn [warranted]. exists prompt. unfold values_sent.
    by rewrite Hc. }
  assert (wp (warranted m event) E
            (if char_in ["y"; "e"; "s"] event
             then change (type_character (match event with UiCharacter c => c | _ => "" end))
             else if is_enter event then
               m ← the_model;
               if bool_decide ((md_confirmation_typed m).2 = CONFIRMATION_WORD)
               then decide_prompt now true 0 else mret tt
             else if key "n" event || is_escape event then decide_prompt now false 0
             else mret tt) (λ _, tui_ok) m1) as Hkeys.
  { repeat wp_one; try ok.
    - unfold type_character. ok.
    - apply Hdecide. unfold approves. rewrite Hc. split; [by apply enter_meant|]. bool_prop.
      destruct Ht as [Ht|Ht]; [|by rewrite Ht in *]. rewrite <- Ht. by rewrite <- Hid, <- Heqb1, <- surjective_pairing.
    - apply Hdecide. left. match goal with Hk : _ || _ = true |- _ => apply orb_true_iff in Hk as [Hk|Hk] end.
      + left. by apply key_meant.
      + right. by apply escape_meant. }
  destruct event; try exact Hkeys. apply wp_change. unfold untype_character. ok.
Qed.

Lemma safe_prompt_input prompt event m :
  tui_ok m → shown_prompt m = Some prompt → sp_confirmation prompt = None →
  wp (warranted m event) E (prompt_input now prompt event) (λ _, tui_ok) m.
Proof.
  intros Hok Hs Hc. unfold prompt_input.
  destruct (window_input event) as [act|] eqn:Hw; [by eapply safe_window|].
  assert (values_sent prompt = value_count prompt) as Hv by (unfold values_sent; by rewrite Hc).
  pose proof (ok_cancel_countdown m Hok) as Hcancel.
  repeat wp_one; try ok.
  - unfold cancel_countdown in *. rewrite Hs in *. destruct (md_foreground m); [|done].
    destruct (is_some (sp_deadline prompt)) eqn:Hd; simplify_eq/=. exists prompt. split_and!; try done.
    by apply key_meant.
  - eapply safe_decide; [done..|]. exists prompt. split_and!; [done..|]. unfold approves. rewrite Hc.
    by apply confirm_loss_meant.
  - eapply safe_decide; [done..|]. exists prompt. split_and!; [done..|]. rewrite !orb_true_iff in *.
    unfold declines, refuses. destruct Heqb2 as [[?|?]|?].
    + left. left. by apply key_meant.
    + left. right. by apply escape_meant.
    + right. split; [done|]. by apply enter_meant.
Qed.

Lemma safe_between event m :
  tui_ok m →
  wp (warranted m event) E (between event) (λ consumed m', tui_ok m' ∧ (consumed = false → m' = m)) m.
Proof.
  intros Hok. unfold between. apply wp_bind, wp_model. destruct (is_some (md_message m)); [by apply wp_ret|].
  destruct (between_shown m) as [p|]; [|by apply wp_ret]. cbv zeta.
  set (result := match pd_between p with Some (BtResult succeeded _) => _ | _ => None end).
  assert (∀ act : Ui unit, wp (warranted m event) E act (λ _, tui_ok) m →
            wp (warranted m event) E (_ ← act; mret true) (λ consumed m', tui_ok m' ∧ (consumed = false → m' = m)) m)
    as Hact.
  { intros act Ha. apply wp_bind. eapply wp_mono; [exact Ha|done|done|]. intros. by apply wp_ret. }
  assert (∀ r (m1 m2 : Model), restore_next m1 = (r, m2) → tui_ok m1 → tui_ok m2) as Hnext.
  { intros r m1 m2 Hr Hm. pose proof (ok_restore_next m1 Hm) as Hr'. by rewrite Hr in Hr'. }
  destruct event; try (by apply wp_ret); apply Hact; repeat wp_one; try ok.
  all: try (match goal with Hr : restore_next _ = _ |- _ => apply Hnext in Hr; ok end).
  by apply safe_restore_entry.
Qed.

Lemma safe_intercept event m :
  tui_ok m →
  wp (warranted m event) E (intercept now event)
    (λ consumed m', tui_ok m' ∧ (consumed = false → m' = m ∧ shown_prompt m = None)) m.
Proof.
  intros Hok. unfold intercept. apply wp_bind, wp_model. destruct (shown_prompt m) as [prompt|] eqn:Hs.
  - apply wp_bind. eapply wp_mono with (Q := λ _, tui_ok); [|done|done|intros; by apply wp_ret].
    destruct (sp_confirmation prompt) eqn:Hc; cbn [is_some].
    + apply safe_confirmation; [done..|]. by rewrite Hc.
    + by apply safe_prompt_input.
  - eapply wp_mono; [by apply safe_between|done|done|]. intros consumed m' [Hm Hf]. split; [done|]. by split; [apply Hf|].
Qed.
End Requests.

(** ** The reducer *)
(** [reduce] panics only for an item a list or the settings have not: one that a
    refresh took from the profiles, or a click on an item that is not drawn. *)
Definition panics (m : Model) (event : UiEvent) (reason : string) : Prop :=
  reason = "index out of bounds"
  ∧ ((∃ mode, (mode = md_mode m ∨ mode ∈ md_pending_dialogs m) ∧ astray mode event (md_view m))
     ∨ ∃ index chosen, event = UiClick (MtModalItem index) ∧ md_mode m = MSettings chosen ∧ (1 ≤ index)%nat).
Definition good `{SecretWriter} (act : UiEvent → Ui Action) (event : UiEvent) (m : Model) : Prop :=
  wp (warranted m event) (λ reason _, panics m event reason) (act event) (λ _, tui_ok) m.

Definition is_click (event : UiEvent) : bool := match event with UiClick _ => true | _ => false end.
(** Modes where no key asks the writer for more than they show. *)
Definition plain_mode (mode : Mode) : bool :=
  match mode with
  | MEdit _ _ | MGeneratedPreview _ _ _ _ | MReplace _ _ _ | MProviderFailure _ _ _ | MDeleteConfirm _ _ | MApproval _
  | MCommit _ _ _ | MKeypairConfirm _ _ | MBulkGenerateConfirm _ | MProfileDelete _ | MProfileSave _
  | MProfileOverwrite _ => false
  | _ => true
  end.
Definition is_paste (event : UiEvent) : bool :=
  match event with UiPaste _ | UiPasteRequest => true | _ => false end.

Section Screens.
Context `{SecretWriter}.

Lemma warranted_meant m event event' call :
  meant event = meant event' → warranted m event call → warranted m event' call.
Proof.
  intros Hm Hw. unfold warranted, confirmed_call, may_write, pasted, approves, declines, refuses, types in *.
  by rewrite <- !Hm.
Qed.
(** Only a paste and the dialogs of values write. *)
Lemma may_write_from m event path value :
  may_write m event path value → plain_mode (dialog_reached m) = false ∨ is_paste event = true.
Proof.
  unfold may_write, pasted.
  intros [[_ [[-> _]|[[-> _]|(? & ? & -> & _)]]]|[(_ & Hp & _)|[(? & -> & _)|(? & -> & _)]]]; try by left.
  right. destruct event as [| | | | | | | | | | | | | | | | | | |[| | |[]| | | | | | | | | | |]]; done.
Qed.
Lemma may_write_same m m' event path value :
  dialog_reached m' = dialog_reached m → md_view m' = md_view m → may_write m event path value → may_write m' event path value.
Proof. intros Hr Hv. unfold may_write. by rewrite Hr, Hv. Qed.
Lemma warranted_plain m m' event event' call :
  plain_mode (md_mode m) = true ∨ is_paste event = true →
  shown_prompt m = None → shown_prompt m' = None →
  (∀ path value, may_write m event path value → may_write m' event' path value) →
  warranted m event call → warranted m' event' call.
Proof.
  intros Hp Hs Hs' Hwrite. unfold warranted. rewrite Hs, Hs'. destruct call; try (by intros (? & ? & _)); intros [_ Hc].
  all: split; [done|].
  all: unfold confirmed_call, refuses, types in *; try done; try (by apply Hwrite).
  all: destruct Hp as [Hp|Hp]; [destruct (md_mode m); try done; naive_solver|].
  all: destruct event; try done; destruct_and?; cbn [meant] in *; try naive_solver.
  all: try (by destruct accepted; naive_solver); by destruct kind.
Qed.

(** What Ctrl+V read is pasted. *)
Lemma confirmed_as_paste m calls value call :
  reply calls WPasteClipboard = Ok value →
  confirmed_call m (UiPaste value) call → confirmed_call m UiPasteRequest call.
Proof.
  intros Hr. destruct call; unfold confirmed_call, refuses, types; cbn [meant]; try done; try naive_solver.
  - unfold may_write, pasted, types. cbn [meant]. intros Hw.
    assert (∀ v, v = value → ∃ calls, reply calls WPasteClipboard = Ok v) as Hv by (intros v ->; by exists calls).
    naive_solver.
  - by destruct accepted; naive_solver.
Qed.

Lemma confirmed_warranted m event call : shown_prompt m = None → confirmed_call m event call → warranted m event call.
Proof. intros Hs. unfold warranted. destruct call; done. Qed.
End Screens.
Lemma same_screen m : m_mode (md_mode m) (m_mode MBrowse m) = m.
Proof. by destruct m. Qed.

Lemma acknowledge_screen m :
  md_view (acknowledge m) = md_view m
  ∧ (md_mode (acknowledge m) = md_mode m ∨ md_mode (acknowledge m) ∈ md_pending_dialogs m
     ∨ ∃ r, md_mode (acknowledge m) = MApproval r)
  ∧ (∀ dialog, dialog ∈ md_pending_dialogs (acknowledge m) → dialog ∈ md_pending_dialogs m).
Proof.
  unfold acknowledge, show_pending_approval. cbv zeta.
  set (m1 := tidy_procedures (m_modal_scroll 0 (next_notice m))).
  assert (md_view m1 = md_view m ∧ md_mode m1 = md_mode m ∧ md_pending_dialogs m1 = md_pending_dialogs m)
    as (Hv & Hm & Hd).
  { unfold m1, tidy_procedures, next_notice. cbv zeta. split_and!; by repeat case_match. }
  clearbody m1. destruct (negb (is_browse (md_mode m1))); [rewrite Hv, Hm, Hd; auto|].
  assert (∀ m2, md_view (hide_notice m2) = md_view m2) as Hh by (intros m2; unfold hide_notice; by case_match).
  assert (∀ m2, md_view (next_notice m2) = md_view m2) as Hn by (intros m2; unfold next_notice; by case_match).
  destruct (hide_notice_frame m1) as (_ & _ & _ & _ & Hhd). destruct (next_notice_frame m1) as (_ & _ & _ & Hnm & Hnd).
  rewrite <- Hd, <- Hv. destruct (md_pending_dialogs m1) as [|dialog dialogs] eqn:Ed.
  - destruct (foreground_approval m1) as [[r others]|]; fields.
    + rewrite Hh, Hhd. split_and!; [done|by right; right; exists r|done].
    + case_match; [rewrite Hm, ?Ed; split_and!; [done|by left|done]|].
      rewrite Hn, Hnm, Hnd, Hm, ?Ed. split_and!; [done|by left|done].
  - fields. rewrite Hh. split_and!; [done|right; left; by left|by right].
Qed.
Lemma acknowledge_shown m : tui_ok m → shown_prompt m = None → shown_prompt (acknowledge m) = None.
Proof.
  intros Hok Hs. apply bare_shown; [by apply ok_acknowledge|]. apply bare_shown in Hs; [|done].
  eapply below_bare, Hs. unfold acknowledge. eapply below_trans, below_show_pending. apply below_same; fields.
  - apply next_notice_frame.
  - left. apply next_notice_frame.
Qed.

Section Reducer.
Context `{SecretWriter} (now : Z).

Lemma good_mode_input event m :
  tui_ok m → md_message m = None → shown_prompt m = None → good (mode_input now) event m.
Proof.
  intros Hok Hm Hs. unfold good.
  assert (∀ event', (∀ call, confirmed_call m event' call → confirmed_call m event call) →
            (∀ mode, astray mode event' (md_view m) → astray mode event (md_view m)) →
            wp (warranted m event) (λ reason _, panics m event reason)
              (m ← the_model; _ ← goto MBrowse; dispatch now (md_mode m) event') (λ _, tui_ok) m) as Hact.
  { intros event' Hcalls Hastray. apply wp_bind, wp_model. unfold goto. do 2 apply wp_bind || apply wp_change.
    apply safe_dispatch; [|ok|done|done| |].
    - intros call. by apply harmless_warranted.
    - intros call Hc. rewrite same_screen in Hc. apply confirmed_warranted; auto.
    - intros Ha m'. split; [done|]. left. exists (md_mode m). auto. }
  unfold mode_input. destruct event; try (apply Hact; done).
  apply wp_bind, wp_request; [by apply harmless_warranted|]. intros calls.
  destruct (reply calls WPasteClipboard) as [value|error] eqn:Hr; [|repeat wp_one; ok].
  apply Hact.
  - intros call. apply (confirmed_as_paste m calls value call Hr).
  - intros mode Ha. unfold astray, types in *. cbn [meant] in *. destruct mode; naive_solver.
Qed.

(** What [reduce] does once no request and no result took the event. *)
Lemma good_step fuel event m :
  tui_ok m → (shown_prompt m = None → good (handle now (reduce_within now fuel)) event m) →
  good (reduce_within now (S fuel)) event m.
Proof.
  intros Hok Hh. unfold good. cbn [reduce_within]. apply wp_bind.
  eapply wp_mono; [by apply (safe_intercept now (λ reason _, panics m event reason))|done|done|]. intros consumed m' [Hok' Hf]. cbv beta.
  destruct consumed; [by apply wp_ret|]. destruct (Hf eq_refl) as [-> Hs]. by apply Hh.
Qed.
Lemma good_returns {A} (act : Ui A) event m :
  wp (warranted m event) (λ reason _, panics m event reason) act (λ _, tui_ok) m →
  wp (warranted m event) (λ reason _, panics m event reason) (_ ← act; mret AContinue) (λ _, tui_ok) m.
Proof. intros Ha. apply wp_bind. eapply wp_mono; [exact Ha|done|done|]. intros. by apply wp_ret. Qed.

(** A key, with no notice on screen. *)
Lemma good_key fuel event m :
  tui_ok m → md_message m = None → is_click event = false → good (reduce_within now (S fuel)) event m.
Proof.
  intros Hok Hm Hc. apply good_step; [done|]. intros Hs. unfold good, handle.
  pose proof (good_mode_input event m Hok Hm Hs) as Hi. unfold good in Hi.
  destruct event; try done; repeat (apply wp_bind, wp_model; rewrite Hm); try exact Hi.
  all: try (case_match; [exact Hi|]); repeat wp_one; ok.
Qed.

(** A click is one of these: a key on the same screen, an item of a list, or handled at once. *)
Lemma good_as_key fuel event event' m :
  tui_ok m → md_message m = None → is_click event' = false → meant event' = meant event →
  good (λ _, reduce_within now (S fuel) event') event m.
Proof.
  intros Hok Hm Hc He. eapply wp_mono; [by apply (good_key fuel event')|..].
  - intros call. by apply warranted_meant.
  - intros reason _ [-> Hp]. split; [done|]. left. destruct Hp as [(mode & Hin & Ha)|(? & ? & -> & _)]; [|done].
    exists mode. split; [done|]. unfold astray, types in *. by rewrite <- He.
  - done.
Qed.
Lemma good_plain_key fuel event event' m mode :
  tui_ok m → md_message m = None → shown_prompt m = None → is_click event' = false → plain_mode mode = true →
  is_paste event' = false →
  (astray mode event' (md_view m) →
   ∃ index chosen, event = UiClick (MtModalItem index) ∧ md_mode m = MSettings chosen ∧ (1 ≤ index)%nat) →
  (∀ dialog, astray dialog event' (md_view m) → astray dialog event (md_view m)) →
  wp (warranted m event) (λ reason _, panics m event reason) (reduce_within now (S fuel) event') (λ _, tui_ok)
    (m_mode mode m).
Proof.
  intros Hok Hm Hs Hc Hp Hn Ha Hd. eapply wp_mono; [apply (good_key fuel event'); [ok|done|done]|..].
  - intros call. apply warranted_plain; [by left|done|done|]. intros path value [Hw|Hw]%may_write_from.
    + rewrite dialog_reached_mode in Hw by done. congruence.
    + congruence.
  - intros reason m' [-> Hr]. split; [done|]. destruct Hr as [(dialog & [->|Hin] & Hr)|(? & ? & -> & _)]; [|..|done].
    + right. by apply Ha.
    + left. exists dialog. split; [by right|by apply Hd].
  - done.
Qed.
Lemma good_same_mode {A} P E (act : Ui A) Q m mode :
  md_mode m = mode → wp P E act Q (m_mode mode m) → wp P E act Q m.
Proof. intros <-. by destruct m. Qed.
(** Keys that no list or setting reacts to leave nothing astray but what was. *)
Lemma astray_key event event' v :
  ¬ (types "s" event' ∨ types "d" event') → ∀ dialog, astray dialog event' v → astray dialog event v.
Proof. intros Hn dialog. unfold astray. destruct dialog; try done. by intros [? _]. Qed.
Lemma digit_key n : 0 ≤ n < 10 → ¬ (types "s" (UiCharacter (dec n)) ∨ types "d" (UiCharacter (dec n))).
Proof.
  intros Hn. assert (n ∈ seqZ 0 10) as Hin by (apply elem_of_seqZ; lia). clear Hn. revert n Hin.
  apply Forall_forall. unfold types. cbn [meant]. vm_compute seqZ. repeat constructor; by intros [?|?].
Qed.

Lemma good_item fuel index m :
  tui_ok m → md_message m = None → shown_prompt m = None →
  wp (warranted m (UiClick (MtModalItem index))) (λ reason _, panics m (UiClick (MtModalItem index)) reason)
    (match choose_item index (md_mode m) with
     | Some mode => _ ← goto mode; reduce_within now (S fuel) UiEnter
     | None =>
         match md_mode m with
         | MTreeOrder _ => _ ← goto (MTreeOrder index); mret AContinue
         | MFacetFirstChoice _ _ =>
             if (index <? 4)%nat then reduce_within now (S fuel) (UiCharacter (dec (Z.of_nat index + 1)))
             else mret AContinue
         | _ => mret AContinue
         end
     end) (λ _, tui_ok) m.
Proof.
  intros Hok Hm Hs. destruct (choose_item index (md_mode m)) as [mode|] eqn:Hc.
  - unfold goto. do 2 apply wp_bind || apply wp_change. apply good_plain_key; try done.
    + by destruct (md_mode m); simplify_eq/=.
    + intros Ha. exists index. destruct (md_mode m); simplify_eq/=; unfold types in Ha; cbn in Ha; naive_solver.
    + apply astray_key. unfold types. cbn. naive_solver.
  - clear Hc. destruct (md_mode m) eqn:Hmode; try (by apply wp_ret); [|unfold goto; repeat wp_one; ok].
    destruct (index <? 4)%nat eqn:Hi; [|by apply wp_ret]. rewrite Nat.ltb_lt in Hi.
    eapply good_same_mode; [exact Hmode|]. apply good_plain_key; try done. apply astray_key, digit_key. lia.
Qed.

Lemma good_click fuel target m :
  tui_ok m → md_message m = None → good (reduce_within now (S (S fuel))) (UiClick target) m.
Proof.
  intros Hok Hm. apply good_step; [done|]. intros Hs. unfold good, handle.
  apply wp_bind, wp_model. rewrite Hm. unfold click. apply wp_bind, wp_model. rewrite Hm. cbn [is_some negb andb].
  destruct target; try (apply good_as_key; done); try (by apply wp_ret).
  - destruct (is_browse (md_mode m) && _) eqn:Hb; [|by apply wp_ret].
    apply andb_true_iff in Hb as [Hb Hn%Nat.ltb_lt]. destruct (md_mode m) eqn:Hmode; try done.
    eapply good_same_mode; [exact Hmode|]. apply good_plain_key; try done. apply astray_key, digit_key. lia.
  - destruct (is_browse (md_mode m)); [|by apply wp_ret]. unfold click_tree. repeat wp_one; try ok.
  - by apply good_item.
  - apply good_as_key; try done; by destruct shortcut.
  - destruct (md_mode m); try (by apply wp_ret). by apply good_as_key.
  - destruct (md_mode m); try (by apply wp_ret). by apply good_as_key.
  - destruct (md_mode m); try (by apply wp_ret). by apply good_as_key.
  - destruct (md_mode m); try (by apply wp_ret). by apply good_as_key.
  - destruct (md_mode m) eqn:Hmode; try (by apply wp_ret). unfold goto. do 2 apply wp_bind || apply wp_change.
    apply safe_approval; [ok|]. intros call Hc. rewrite <- Hmode, same_screen in Hc. by apply confirmed_warranted.
  - apply good_returns. by apply safe_restore_entry.
Qed.

(** A notice on screen: it goes first, and what then acts is on the next screen. *)
Lemma good_close fuel event (keeps : Mode → bool) m :
  tui_ok m → shown_prompt m = None → is_some (md_message m) = true →
  (∀ mode, keeps mode = true → plain_mode mode = true ∨ is_paste event = true) →
  (∀ chosen, keeps (MSettings chosen) = false) →
  wp (warranted m event) (λ reason _, panics m event reason)
    (_ ← change acknowledge;
     m ← the_model;
     if negb (is_some (md_message m)) && keeps (md_mode m) then reduce_within now (S (S fuel)) event
     else mret AContinue) (λ _, tui_ok) m.
Proof.
  intros Hok Hs Hmessage Hk Hset. do 2 apply wp_bind || apply wp_change. apply wp_bind, wp_model.
  assert (dialog_reached m = md_mode (acknowledge m)) as Hreached by (unfold dialog_reached; by rewrite Hmessage).
  destruct (acknowledge_screen m) as (Hv & Hmode & Hdialogs). pose proof (acknowledge_shown m Hok Hs) as Hs'.
  pose proof (ok_acknowledge m Hok) as Hok'. destruct (negb _ && _) eqn:Hb; [|by apply wp_ret].
  apply andb_true_iff in Hb as [Hm Hb]. revert Hv Hmode Hdialogs Hs' Hok' Hm Hb Hreached. generalize (acknowledge m).
  intros m' Hv Hmode Hdialogs Hs' Hok' Hm Hb Hreached.
  assert (good (reduce_within now (S (S fuel))) event m') as Hg.
  { destruct (md_message m') eqn:Hm'; [done|]. destruct (is_click event) eqn:Hc; [|by apply good_key].
    destruct event; try done. by apply good_click. }
  eapply wp_mono; [exact Hg|..]; [|intros reason m2|done].
  - intros call. apply warranted_plain; [by apply Hk|done|done|]. intros path value. apply may_write_same; [|done].
    rewrite Hreached. unfold dialog_reached. by destruct (md_message m').
  - intros [-> Hp]. split; [done|]. left. rewrite Hv in Hp.
    destruct Hp as [(mode & Hin & Ha)|(index & chosen & -> & Hset' & _)].
    2:{ specialize (Hset chosen). rewrite <- Hset' in Hset. congruence. }
    destruct Hin as [->|Hin]; [|exists mode; auto].
    destruct Hmode as [Hm1|[Hm1|[r Hr]]].
    + rewrite Hm1 in Ha. exists (md_mode m). auto.
    + exists (md_mode m'). auto.
    + by rewrite Hr in Ha.
Qed.

Lemma good_notice fuel severity event m :
  tui_ok m → shown_prompt m = None → is_some (md_message m) = true →
  wp (warranted m event) (λ reason _, panics m event reason)
    (notice_input (reduce_within now (S (S fuel))) severity event) (λ _, tui_ok) m.
Proof.
  intros Hok Hs Hmessage. unfold notice_input. cbv zeta.
  assert (∀ act : Ui unit, wp (warranted m event) (λ reason _, panics m event reason) act (λ _, tui_ok) m →
            wp (warranted m event) (λ reason _, panics m event reason) (_ ← act; mret AContinue) (λ _, tui_ok) m) as Hstop.
  { intros act. apply good_returns. }
  assert (wp (warranted m event) (λ reason _, panics m event reason)
            (if is_enter event then change acknowledge
             else match event with UiUp => change scroll_up | UiDown => change scroll_down | _ => mret tt end)
            (λ _, tui_ok) m) as Hfail.
  { repeat wp_one; ok. }
  assert (∀ mode, passes_through mode = true → plain_mode mode = true ∨ is_paste event = true) as Hkeys
    by (intros mode; destruct mode; by auto).
  destruct event, severity; try (by apply wp_ret); try (by apply Hstop).
  all: try (apply good_close; [done..|by intros]).
  all: try (apply good_close; [done|done|done|by right|by intros]).
  all: try (apply Hstop; repeat wp_one; ok).
  destruct target; try (apply good_close; [done|done|done|by auto|by intros]).
  apply Hstop. repeat wp_one; ok.
Qed.

(** Three calls are enough: a key that closed a notice is no longer one, and a click becomes a key. *)
Lemma good_reduce event m : tui_ok m → good (reduce now) event m.
Proof.
  intros Hok. unfold reduce. destruct (md_message m) as [notice|] eqn:Hm.
  - apply good_step; [done|]. intros Hs. pose proof (good_notice 0 (nt_severity notice) event m Hok Hs ltac:(by rewrite Hm)) as Hn.
    unfold good, handle. destruct event; try (apply wp_bind, wp_model; rewrite Hm; exact Hn); repeat wp_one; ok.
  - destruct event; try (by apply (good_key 2)). by apply (good_click 1).
Qed.
End Reducer.

(** ** The loop *)
Lemma ok_close_approval m : tui_ok m → tui_ok (close_approval m).
Proof. intros. unfold close_approval. ok. Qed.
Lemma ok_no_pending m : tui_ok m → tui_ok (m_pending_approvals [] m).
Proof. intros [H1 H2 _ H4]. split; [done|done| |done]. by intros r ?%elem_of_nil. Qed.

Lemma ok_step_outcome completion m : tui_ok m → tui_ok (step_outcome completion m).2.
Proof.
  intros Hok. unfold step_outcome. pose proof (ok_close_approval m Hok) as Hc.
  pose proof (ok_no_pending _ Hc) as Hn.
  destruct completion; cbn [snd]; try done; destruct (deployment_outcome _), (deployment_in_flight m); try done;
    cbn [snd]; by destruct (is_lost _).
Qed.
Lemma ok_procedure_outcome now completion m : tui_ok m → tui_ok (procedure_outcome now completion m).2.
Proof.
  intros Hok. unfold procedure_outcome. pose proof (ok_step_outcome completion m Hok) as Hs.
  destruct (step_outcome completion m) as [[[id outcome]|] m']; [|done]. cbv zeta. apply ok_step_finished.
  destruct outcome; [done|by apply ok_remove_prompt].
Qed.
Lemma ok_completed completion m : tui_ok m → tui_ok (completed completion m).
Proof.
  intros Hok. pose proof (ok_close_approval m Hok) as Hc. pose proof (ok_no_pending _ Hc) as Hn.
  destruct completion; cbn [completed]; unfold set_stored, save_failed, show_revealed, deployed, commit_show, request_finished; ok.
Qed.
Lemma ok_apply_completion now completion m : tui_ok m → tui_ok (apply_completion now completion m).
Proof.
  intros Hok. unfold apply_completion. pose proof (ok_procedure_outcome now completion m Hok) as Ho.
  destruct (procedure_outcome now completion m) as [[] m']; apply ok_show_pending; [done|by apply ok_completed].
Qed.

Lemma ok_procedure_event now event m : tui_ok m → tui_ok (procedure_event now event m).
Proof.
  intros Hok. destruct event; cbn [procedure_event].
  - by apply ok_procedure_step.
  - by apply ok_procedure_ended.
  - by apply ok_prompt_missed.
  - by apply ok_connection_lost.
  - ok.
  - by apply ok_synced.
Qed.
Lemma ok_request_tick now events prompts m : tui_ok m → tui_ok (request_tick now events prompts m).
Proof.
  intros Hok. unfold request_tick. cbv zeta.
  set (m1 := foldl _ (foldl _ m events) prompts).
  assert (tui_ok m1) as H1.
  { apply (foldl_inv tui_ok); [|intros; by apply ok_offer_prompt].
    apply (foldl_inv tui_ok); [done|intros; by apply ok_procedure_event]. }
  clearbody m1. pose proof (ok_step now EvExpire m1 H1) as H2. cbn [tui_step] in H2.
  destruct (expire_prompts now m1) as [expired m2]. pose proof (ok_step now EvFlash m2 H2) as H3. cbn [tui_step] in H3.
  destruct (flash_tick now m2) as [flashed m3]. pose proof (ok_step now EvSpin m3 H3) as H4. cbn [tui_step] in H4.
  destruct (spinner_tick now m3) as [spun m4]. cbn [snd] in H4. case_match; [by apply ok_show_pending|done].
Qed.
Lemma ok_tick now polled m : tui_ok m → tui_ok (tick now polled m).
Proof.
  intros Hok. unfold tick. cbv zeta. pose proof (ok_request_tick now (po_events polled) (po_prompts polled) m Hok) as H1.
  set (m2 := foldl _ _ (po_completions polled)).
  assert (tui_ok m2) as H2 by (apply (foldl_inv tui_ok); [done|intros; by apply ok_apply_completion]).
  clearbody m2. clear H1.
  set (m3 := polled_or_failed _ (po_profiles polled) _). assert (tui_ok m3) as H3 by (unfold m3, polled_or_failed; ok).
  clearbody m3. set (m4 := if is_browse _ then _ else _).
  assert (tui_ok m4) as H4 by (unfold m4, polled_or_failed; ok). clearbody m4.
  destruct (po_approval polled) as [[request|]|message]; [ok|done|]. apply ok_notice. by apply ok_close_approval.
Qed.

(** ** Answers *)
Section Answers.
Context `{SecretWriter} (now : Z).

(** The calls [act] makes from [m]. *)
Definition calls_made {A} (act : Ui A) (m : Model) (made : list WriterCall) : Prop :=
  ∀ calls, sc_calls (act (screen_at m calls)).2 = calls ++ made.

Lemma decide_calls decision count m x :
  tui_ok m → shown_prompt m = Some x →
  calls_made (decide_prompt now decision count) m [WAnswerSecret (sp_id x) decision count].
Proof.
  intros Hok Hx calls. unfold decide_prompt. destruct (asked_take_shown now decision m Hok) as [_ Ht].
  destruct (take_shown_prompt now decision m) as [taken m'] eqn:E. cbn [fst] in Ht. rewrite Hx in Ht. subst taken.
  unfold the_model, change, request, mbind, stE_bind, mret, stE_ret. cbn [screen_at sc_model sc_calls]. rewrite E.
  cbn [sc_calls sc_model]. by destruct (reply _ _).
Qed.
Lemma typed_shown x m : shown_prompt m = Some x → shown_prompt (typed_for (sp_id x) m) = Some x.
Proof. unfold typed_for. by case_bool_decide. Qed.
Lemma typed_ok id m : tui_ok m → tui_ok (typed_for id m).
Proof. intros. unfold typed_for. ok. Qed.

(** What the events that answer a request are. *)
Lemma meant_enter event : meant event = UiEnter → event = UiEnter ∨ event = UiClick (MtShortcut ScEnter).
Proof. destruct event as [| | | | | | | | | | | | | | | | | | |[| | |[]| | | | | | | | | | |]]; cbn; intros [=]; auto. Qed.
Lemma meant_escape event : meant event = UiEscape → event = UiEscape ∨ event = UiClick (MtShortcut ScEscape).
Proof. destruct event as [| | | | | | | | | | | | | | | | | | |[| | |[]| | | | | | | | | | |]]; cbn; intros [=]; auto. Qed.
Lemma meant_confirm_loss event : meant event = UiConfirmLoss → event = UiConfirmLoss ∨ event = UiClick MtConfirmLoss.
Proof. destruct event as [| | | | | | | | | | | | | | | | | | |[| | |[]| | | | | | | | | | |]]; cbn; intros [=]; auto. Qed.
Lemma meant_key c event :
  types c event → event = UiCharacter c ∨ event = UiClick (MtShortcut (ScCharacter c)).
Proof.
  unfold types. destruct event as [| | | | | | | | | | | | | | | | | | |[| | |[]| | | | | | | | | | |]]; cbn;
    intros [=]; subst; auto.
Qed.

Lemma reduce_intercepted event m x calls :
  shown_prompt m = Some x →
  sc_calls (reduce now event (screen_at m calls)).2
  = sc_calls ((if is_some (sp_confirmation x) then confirmation now x event else prompt_input now x event)
                (screen_at m calls)).2.
Proof.
  intros Hx. unfold reduce. cbn [reduce_within]. unfold intercept, the_model, mbind, stE_bind, mret, stE_ret.
  cbn [screen_at sc_model]. rewrite Hx. by destruct (_ (screen_at m calls)) as [[[]|] ?].
Qed.
Lemma reduce_answer event m x decision :
  tui_ok m → shown_prompt m = Some x → (if decision : bool then approves x m event else declines x event) →
  calls_made (reduce now event) m [WAnswerSecret (sp_id x) decision (values_sent x)].
Proof.
  intros Hok Hx Hd calls. rewrite (reduce_intercepted event m x calls Hx).
  pose proof (λ d n, decide_calls d n _ _ (typed_ok (sp_id x) m Hok) (typed_shown x m Hx)) as Htyped.
  unfold calls_made, approves, declines, refuses, values_sent in *. destruct (sp_confirmation x); cbn [is_some] in *.
  - destruct decision.
    + destruct Hd as [[->| ->]%meant_enter Hw]; unfold confirmation; cbn [window_input];
        unfold the_model, change, mbind, stE_bind; cbn [screen_at sc_model sc_calls];
        (assert (md_confirmation_typed (typed_for (sp_id x) m) = (sp_id x, CONFIRMATION_WORD)) as Ht
          by (unfold typed_for; rewrite Hw; by rewrite bool_decide_eq_true_2));
        cbn; rewrite Ht; apply Htyped.
    + assert (refuses event) as Hr by (destruct Hd as [?|[? _]]; done).
      destruct Hr as [[->| ->]%meant_key|[->| ->]%meant_escape]; apply Htyped.
  - pose proof (λ d n, decide_calls d n _ _ Hok Hx) as Hplain. unfold calls_made in Hplain. destruct decision.
    + destruct (meant_confirm_loss event Hd) as [->| ->]; apply Hplain.
    + destruct Hd as [[[->| ->]%meant_key|[->| ->]%meant_escape]|[_ [->| ->]%meant_enter]]; apply Hplain.
Qed.
End Answers.

(** ** Sessions *)
Section Sessions.
Context `{SecretWriter}.
Notation lives act m := (wp (λ _, True) (λ reason _, reason = "index out of bounds") act (λ _, tui_ok) m).

Lemma reduce_lives now event m : tui_ok m → lives (reduce now event) m.
Proof. intros Hok. eapply wp_mono; [by apply good_reduce|done|by intros reason m' [-> _]|done]. Qed.
Lemma editor_lives now edit m : tui_ok m → lives (run_editor now edit) m.
Proof.
  intros Hok. unfold run_editor. wp_walk; try done. eapply wp_mono; [apply reduce_lives; ok|done|done|].
  cbv beta. intros ? m2 ?. by apply wp_ret.
Qed.
Lemma turn_lives now what m : tui_ok m → lives (turn now what) m.
Proof.
  intros Hok. destruct what as [polled|event edit busy|limit review]; cbn [turn].
  - wp_walk. by apply ok_tick.
  - unfold input. apply wp_bind, wp_model. wp_split; [by apply wp_ret|]. apply wp_bind.
    eapply wp_mono; [by apply reduce_lives|done|done|]. intros action m1 Hok1. apply wp_bind.
    eapply wp_mono; [by apply editor_lives|done|done|]. cbv beta. intros ? m2 Hok2. wp_walk;
      repeat first [done | apply ok_notice | apply ok_show_pending].
  - wp_walk. ok.
Qed.
Lemma drive_lives turns m : tui_ok m → lives (drive turns) m.
Proof.
  revert m. induction turns as [|[now what] turns IH]; intros m Hok; cbn [drive]; [by apply wp_ret|].
  apply wp_bind. eapply wp_mono; [by apply turn_lives|done|done|]. intros goes_on m' Hok'.
  destruct goes_on; [by apply IH|by apply wp_ret].
Qed.
End Sessions.

(** ** Properties *)
(** What must be on screen and pressed for a call that changes the store, the view profiles or the repository. *)
Definition alters_store (call : WriterCall) : bool :=
  match call with
  | WWrite _ _ | WDelete _ | WGenerateKeypair _ | WGenerateMissing _ _ | WSaveProfile _ _ _ | WDeleteProfile _ _ | WCommit _ => true
  | _ => false
  end.

(** C13: Requests are answered exactly as the operator says.  Whatever the TUI shows,
    whatever is pressed or clicked and whatever the writer answers: when a request
    is on screen and the operator approves it, which takes Ctrl+Shift+Y (or its
    button) or, for a confirmation, Enter with the word typed for this very
    request, or declines it, then exactly this answer is sent, for this request and
    with its number of values.  No other event answers a request or stops its
    countdown, a request that is not on screen is never answered, and while one is
    on screen the input reaches nothing else. *)
Theorem requests_answered_exactly `{SecretWriter} now event m calls :
  tui_ok m →
  ∃ made, sc_calls (reduce now event (screen_at m calls)).2 = calls ++ made
  ∧ (∀ x (decision : bool), shown_prompt m = Some x → (if decision then approves x m event else declines x event) →
       made = [WAnswerSecret (sp_id x) decision (values_sent x)])
  ∧ ∀ call, call ∈ made →
      match call with
      | WAnswerSecret id decision count =>
          ∃ x, shown_prompt m = Some x ∧ id = sp_id x ∧ count = values_sent x
            ∧ if decision then approves x m event else declines x event
      | WCancelCountdown id =>
          ∃ x, shown_prompt m = Some x ∧ id = sp_id x ∧ is_some (sp_deadline x) = true
            ∧ sp_confirmation x = None ∧ types "c" event
      | _ => shown_prompt m = None
      end.
Proof.
  intros Hok. destruct (good_reduce now event m Hok calls) as (made & Hc & Hw & _). exists made.
  split; [done|]. split.
  - intros x decision Hx Hd. pose proof (reduce_answer now event m x decision Hok Hx Hd calls) as Hr.
    rewrite Hc in Hr. by apply app_inv_head in Hr.
  - intros call Hin. rewrite Forall_forall in Hw. specialize (Hw call Hin).
    destruct call; cbn in Hw |- *; try (by destruct Hw); naive_solver.
Qed.

(** C14: Nothing stored changes without the operator's confirmation on screen.
    Whatever the TUI shows, whatever is pressed or clicked and whatever the writer
    answers: a call that writes or deletes a value, generates a keypair or the missing
    passwords, saves or deletes a view profile or commits is made only with no request
    on screen, and only from the dialog that names exactly this value, these
    paths, this profile or this commit, with the key that confirms it.  A value is written
    where nothing is stored only as it was entered or generated in the dialog of
    its path, or pasted there or on its row; where something is stored, only once the
    overwrite is confirmed, with Ctrl+Shift+Y unless the stored value is known to
    be committed, as for a deletion (but for a value that is not set); and again when the
    operator retries a write that failed.  A view profile of that name is overwritten
    only from its own confirmation; a commit needs a message and no foreign staged
    changes. *)
Theorem stored_values_confirmed `{SecretWriter} now event m calls :
  tui_ok m →
  ∃ made, sc_calls (reduce now event (screen_at m calls)).2 = calls ++ made
  ∧ ∀ call, call ∈ made → alters_store call = true → shown_prompt m = None ∧ confirmed_call m event call.
Proof.
  intros Hok. destruct (good_reduce now event m Hok calls) as (made & Hc & Hw & _). exists made.
  split; [done|]. intros call Hin Ha. rewrite Forall_forall in Hw. specialize (Hw call Hin). by destruct call.
Qed.

(** C15: A deployment is approved only as it was shown.  A call that accepts a
    deployment is made only from its own dialog, on "y", with exactly the values
    the operator left unchecked there and something left to deploy, and only when
    the host asked for no changes of its own; host-provided changes are accepted
    only on "y" after the review of exactly this batch was scrolled to its end;
    and a refusal, of the one or the other, only on "n" or Escape in that dialog. *)
Theorem approvals_as_shown `{SecretWriter} now event m calls :
  tui_ok m →
  ∃ made, sc_calls (reduce now event (screen_at m calls)).2 = calls ++ made
  ∧ ∀ call, call ∈ made →
      match call with
      | WApproval accepted =>
          accepted = false ∧ shown_prompt m = None
          ∧ ∃ r, md_mode m = MApproval r ∧ ar_host_mutations r = [] ∧ refuses event
      | WApprovalWith accepted unchecked =>
          accepted = true ∧ shown_prompt m = None
          ∧ ∃ r, md_mode m = MApproval r ∧ ar_host_mutations r = [] ∧ types "y" event
              ∧ unchecked = ar_unchecked r ∧ is_some (ar_host_key r) || request_deployable r = true
      | WHostMutations accepted token =>
          shown_prompt m = None
          ∧ ∃ r, md_mode m = MApproval r ∧ ar_host_mutations r ≠ [] ∧ ar_host_mutation_token r = Some token
              ∧ if accepted then types "y" event ∧ host_review_seen m token = true else refuses event
      | _ => True
      end.
Proof.
  intros Hok. destruct (good_reduce now event m Hok calls) as (made & Hc & Hw & _). exists made.
  split; [done|]. intros call Hin. rewrite Forall_forall in Hw. specialize (Hw call Hin).
  destruct call; cbn in Hw |- *; naive_solver.
Qed.

(** C19: Every input ends, and keeps the TUI in order.  From a state in order, whatever
    is pressed or clicked and whatever the writer answers, the reducer returns
    (its calls of itself, for a click and for a key that closed a notice, are at most three
    deep) in a state in order, or it panics, with an index that is out
    of bounds, which takes a list of view profiles that shrank under the cursor or
    a click on a setting that does not exist.  So does the loop over any session of
    ticks, with whatever they poll, of input and of drawing. *)
Theorem input_ends `{SecretWriter} :
  (∀ now event s, tui_ok (sc_model s) →
     ((reduce now event s).1 = Err "index out of bounds" ∧ panics (sc_model s) event "index out of bounds")
     ∨ is_ok (reduce now event s).1 = true ∧ tui_ok (sc_model (reduce now event s).2))
  ∧ ∀ turns start rows,
      let '(r, s) := drive turns (screen_at (model_new start rows) []) in
      r = Err "index out of bounds" ∨ r = Ok tt ∧ tui_ok (sc_model s).
Proof.
  split.
  - intros now event s Hok. destruct (wp_run _ _ _ _ s (good_reduce now event (sc_model s) Hok)) as (made & _ & _ & Hr).
    destruct (reduce now event s).1; [by right|]. left. by destruct Hr as [-> Hr].
  - intros turns start rows.
    destruct (wp_run _ _ _ _ (screen_at _ []) (drive_lives turns _ (ok_new start rows))) as (made & _ & _ & Hr).
    destruct (drive turns _) as [[[]|reason] s]; cbn in Hr; [by right|left; by subst].
Qed.
