(* ===== verification/TuiSample.v ===== *)
(** * The TUI's procedures, evaluated

    Two programs ask at once; a procedure asks again after a failed step; the
    operator answers a request, overwrites a value and approves a deployment. *)
From S2P Require Import Prelude BTree Text Paths Schema Procedure Requests Store Git Profiles Rows Tui TuiFacts TuiScreen Ui Drive UiFacts.
#[local] Open Scope Z_scope.

Definition backup_tool : ProcessInfo :=
  {| pi_pid := 4242; pi_executable := Some "/bin/backup"; pi_argv := ["backup"]; pi_cwd := None |}.
Definition backup_step (n : Z) : ProcedureStep :=
  {| ps_id := "backup"; ps_title := "Back up"; ps_step := n; ps_steps := Some 3; ps_label := "unlock";
     ps_deployment := false; ps_failure := None; ps_warning := None; ps_progress := None |}.
Definition prompt_of (name : string) (step : option ProcedureStep) : SecretPrompt :=
  {| sp_id := name; sp_values := []; sp_identity := "web"; sp_requester := backup_tool; sp_parent := None;
     sp_reason := None; sp_ssh_signature := false; sp_ssh_login := false; sp_artifact_signature := false;
     sp_closure_signature := false; sp_deadline := None; sp_procedure := step; sp_confirmation := None |}.

Definition first_ask : list (Z * TuiEvent) := [(0, EvPrompt (prompt_of "one" None))].

(** The second request waits in the task bar; it is brought back once the first was answered. *)
Definition both_ask : list (Z * TuiEvent) :=
  first_ask ++ [(0, EvPrompt (prompt_of "two" None)); (0, EvAnswer true)].
Definition second_waiting : Procedure :=
  default (procedure_new "" "" true) (procedure (tui_run both_ask (model_new 0 [])) "request:two").
Lemma waiting_reachable_witness :
  md_mode (tui_run both_ask (model_new 0 [])) = MBrowse
  ∧ ∃ m', restore "request:two" (tui_run both_ask (model_new 0 [])) = (Ok tt, m')
      ∧ shown_prompt m' = Some (prompt_of "two" None).
Proof.
  split; [vm_compute; reflexivity|].
  destruct (waiting_reachable 0 [] both_ask second_waiting) as [(m' & H & _ & Hb) _].
  - vm_compute. reflexivity.
  - apply (list_elem_of_lookup_2 _ 0%nat). vm_compute. reflexivity.
  - vm_compute. reflexivity.
  - exists m'. split; [exact H|exact Hb].
Defined.

(** ** A procedure that asks again covers an open dialog *)
(** Its first step failed and the operator saw it, and opened the dialog that enters a value. *)
Definition typing_after_failure : list (Z * TuiEvent) :=
  [(0, EvPrompt (prompt_of "one" (Some (backup_step 1)))); (0, EvAnswer true); (0, EvOutcome "one" (Err "refused"));
   (0, EvDismiss); (0, EvDialog (MEdit "web.services.mail.password" []))].
(** A procedure whose failed step was dismissed takes the screen from the dialog the operator opened since,
    when it asks again. *)
Theorem arrival_covers_entry_dialog :
  let m := tui_run typing_after_failure (model_new 0 []) in
  let m' := tui_step 0 (EvPrompt (prompt_of "two" (Some (backup_step 2)))) m in
  shown_prompt m = None ∧ foreground_busy m = true
  ∧ md_mode m' = MEdit "web.services.mail.password" []
  ∧ shown_prompt m' = Some (prompt_of "two" (Some (backup_step 2))).
Proof. vm_compute. by repeat split. Qed.

(** ** A failed step that is forgotten *)
(** Both steps were asked at once; the first was denied while the second was still open. *)
Definition last_of_two (n : Z) : ProcedureStep :=
  {| ps_id := "backup"; ps_title := "Back up"; ps_step := n; ps_steps := Some 2; ps_label := "unlock";
     ps_deployment := false; ps_failure := None; ps_warning := None; ps_progress := None |}.
Definition denied_first : list (Z * TuiEvent) :=
  [(0, EvPrompt (prompt_of "one" (Some (last_of_two 1)))); (0, EvPrompt (prompt_of "two" (Some (last_of_two 2))));
   (0, EvAnswer false); (0, EvOutcome "one" (Err "the operator denied the request"));
   (0, EvAnswer true); (0, EvOutcome "two" (Ok None)); (0, EvEnded "backup" (Some 0))].
(** The procedure then counts as done, although it lists a step that was denied. *)
Theorem denied_step_succeeds :
  match procedure (tui_run denied_first (model_new 0 [])) "backup" with
  | Some p =>
      has_result true p = true ∧ fs_outcome <$> pd_finished p = [SoDenied; SoDone]
      ∧ between_title p = Some "Back up · done"
  | None => False
  end.
Proof. vm_compute. by repeat split. Qed.

(** ** Input *)
(** A writer that queues everything. *)
Definition queueing : SecretWriter := λ calls call,
  match call with
  | WCommitState _ => Uncommitted
  | WWrite _ _ => Ok AQueued
  | WSaveProfile _ _ _ | WDeleteProfile _ _ | WApproval _ | WApprovalWith _ _ | WHostMutations _ _ | WReveal _
  | WGenerateFor _ _ _ | WPasteClipboard | WCommitSummary | WCommit _ => Err OPERATION_QUEUED
  | _ => Ok tt
  end.
Definition asked_once : Model := tui_run first_ask (model_new 0 []).

(** The button that confirms sends the answer to the request on screen. *)
Lemma requests_answered_exactly_witness :
  tui_ok asked_once
  ∧ ∃ made, sc_calls (reduce (H := queueing) 0 (UiClick MtConfirmLoss) (screen_at asked_once [])).2 = made
      ∧ made = [WAnswerSecret "one" true 0].
Proof.
  assert (tui_ok asked_once) as Hok by apply tui_run_ok. split; [exact Hok|].
  destruct (requests_answered_exactly (H := queueing) 0 (UiClick MtConfirmLoss) asked_once [] Hok) as (made & Hc & Hex & _).
  exists made. split; [exact Hc|]. apply (Hex (prompt_of "one" None) true); vm_compute; reflexivity.
Defined.

(** The dialog that replaces a value that is not known to be committed. *)
Definition replacing : Model := m_mode (MReplace "web.services.app.key" [7] Uncommitted) (model_new 0 []).
Lemma replacing_ok : tui_ok replacing.
Proof. apply ok_quiet_mode, ok_new. Qed.
Lemma stored_values_confirmed_witness :
  sc_calls (reduce (H := queueing) 0 (UiCharacter "y") (screen_at replacing [])).2 = []
  ∧ ∃ made, sc_calls (reduce (H := queueing) 0 UiConfirmLoss (screen_at replacing [])).2 = made
      ∧ WWrite "web.services.app.key" [7] ∈ made
      ∧ confirmed_call (H := queueing) replacing UiConfirmLoss (WWrite "web.services.app.key" [7]).
Proof.
  split; [vm_compute; reflexivity|].
  destruct (stored_values_confirmed (H := queueing) 0 UiConfirmLoss replacing [] replacing_ok) as (made & Hc & Hall).
  exists made. split; [exact Hc|].
  assert (WWrite "web.services.app.key" [7] ∈ made) as Hin.
  { rewrite <- (app_nil_l made), <- Hc. vm_compute. left. }
  split; [exact Hin|]. by apply (Hall _ Hin).
Defined.

(** A deployment with one value, which the host does not change. *)
Definition one_deployment : ApprovalRequest :=
  {| ar_id := "deploy-1"; ar_target := "web"; ar_quarantined := []; ar_host_mutations := [];
     ar_host_mutations_before_deploy := false; ar_connection_warnings := []; ar_host_mutation_token := None;
     ar_create := ["web.services.app.key"]; ar_replace := []; ar_recipient_keys := ["web"]; ar_host_key := None;
     ar_host_key_known := true; ar_tasks := []; ar_generate := []; ar_missing := []; ar_derived := [];
     ar_skippable := []; ar_missing_kinds := []; ar_host_default := []; ar_allow_partial := false;
     ar_login_key := None; ar_unchecked := []; ar_cursor := 0; ar_procedure := None |}.
Definition approving : Model := tui_run [(0, EvApproval one_deployment); (0, EvShowPending)] (model_new 0 []).
Lemma approvals_as_shown_witness :
  ∃ made, sc_calls (reduce (H := queueing) 0 (UiCharacter "y") (screen_at approving [])).2 = made
    ∧ WApprovalWith true [] ∈ made
    ∧ ∃ r, md_mode approving = MApproval r ∧ ar_host_mutations r = [] ∧ [] = ar_unchecked r.
Proof.
  assert (tui_ok approving) as Hok by apply tui_run_ok.
  destruct (approvals_as_shown (H := queueing) 0 (UiCharacter "y") approving [] Hok) as (made & Hc & Hall).
  exists made. split; [exact Hc|].
  assert (WApprovalWith true [] ∈ made) as Hin.
  { rewrite <- (app_nil_l made), <- Hc. vm_compute. left. }
  split; [exact Hin|]. destruct (Hall _ Hin) as (_ & _ & r & Hm & Hr & _ & Hu & _). exists r. auto.
Defined.

(** A session: a request arrives on a tick and the operator declines it. *)
Definition quiet (prompts : list SecretPrompt) : Polled :=
  {| po_events := []; po_prompts := prompts; po_completions := []; po_activity := None; po_problem := None;
     po_profiles := Ok None; po_rows := Ok None; po_approval := Ok None |}.
Definition one_session : list (Z * Turn) :=
  [(0, Ticks (quiet [prompt_of "one" None])); (1, Draws 5 None); (2, Reads UiEscape (λ text, Ok text) false)].
Lemma input_ends_witness :
  sc_calls (drive (H := queueing) one_session (screen_at (model_new 0 []) [])).2 = [WAnswerSecret "one" false 0]
  ∧ tui_ok (sc_model (drive (H := queueing) one_session (screen_at (model_new 0 []) [])).2).
Proof.
  split; [vm_compute; reflexivity|].
  pose proof (proj2 (input_ends (H := queueing)) one_session 0 []) as Hd.
  destruct (drive one_session (screen_at (model_new 0 []) [])) as [r s] eqn:E. cbn [snd].
  destruct Hd as [Hr|[_ Hok]]; [|exact Hok]. exfalso.
  assert ((drive (H := queueing) one_session (screen_at (model_new 0 []) [])).1 = Ok tt) as Hok by (vm_compute; reflexivity).
  rewrite E in Hok. cbn in Hok. congruence.
Defined.
