(* ===== verification/Wire.v ===== *)
(** * Deployment messages and relay frames

    [crates/transport/src/deployment/types.rs], [deployment.rs] and
    [protocol.rs]: what the operator's machine and a target say to each other,
    and the frames that carry it through the SSH connection. *)
From S2P Require Import Prelude BTree Text Framing.
#[local] Open Scope Z_scope.

(** ** Versions and limits *)
Definition DEPLOYMENT_PROTOCOL_VERSION : Z := 5.
Definition HOST_DECIDES_PROTOCOL_VERSION : Z := 5.
Definition NOT_DEPLOYED_PROTOCOL_VERSION : Z := 4.
Definition GENERATION_PROTOCOL_VERSION : Z := 2.
Definition SHARED_SOURCE_PROTOCOL_VERSION : Z := 3.
Definition LEGACY_DEPLOYMENT_PROTOCOL_VERSION : Z := 1.
Definition MAX_DEPLOYMENT_JSON : Z := 64 * 1024 * 1024.
Definition STORAGE_BOX_SSH_KEY : string := "storage-box-ssh-key".
Definition LOCAL_SSH_KEY : string := "local-ssh-key".

(** ** Messages *)
Record WireDestination := {
  wd_path : string;
  wd_category : string;
  wd_owner : string;
  wd_group : string;
  wd_mode : string;
  wd_consumer_units : list string
}.

Record WireBootstrap := {
  wb_host : string;
  wb_port : Z;
  wb_user : string;
  wb_host_public_keys : list string;
  wb_known_hosts_file : option string
}.

Record PublicInfoAttestation := {
  pa_shared_id : string;
  pa_expected_ssh_host : string;
  pa_expected_ssh_port : Z;
  pa_expected_ssh_hosts : list string
}.

Record TargetSecret := {
  ts_identifier : string;
  ts_recipient_ids : list string;
  ts_destination : WireDestination;
  ts_public_info : option PublicInfoAttestation;
  ts_current_version_id : option string;
  ts_generator : option string;
  ts_derived : option string
}.

Record TargetTask := {
  tt_identifier : string;
  tt_task_type : string;
  tt_recipient_ids : list string;
  tt_output : WireDestination;
  tt_bootstrap : option WireBootstrap;
  tt_current_version_id : option string
}.

Record TargetState := {
  st_protocol_version : Z;
  st_hostname : string;
  st_secrets : list TargetSecret;
  st_tasks : list TargetTask;
  st_absent : list string;
  st_unselected : list string
}.

Record LeftOut := { lo_identifier : string; lo_absent : bool; lo_reason : string }.

Record ExpectedSecret := {
  xs_identifier : string;
  xs_recipient_ids : list string;
  xs_destination : WireDestination;
  xs_public_info : option PublicInfoAttestation;
  xs_generator : option string;
  xs_derived : option string
}.

Record ExpectedTask := {
  xt_identifier : string;
  xt_task_type : string;
  xt_recipient_ids : list string;
  xt_output : WireDestination;
  xt_bootstrap : option WireBootstrap
}.

Record ExpectedTarget := {
  xp_hostname : string;
  xp_secrets : list ExpectedSecret;
  xp_tasks : list ExpectedTask
}.

Record DeploymentSelection := {
  sl_identifiers : list string;
  sl_task_identifiers : list string
}.

Record DeployEntry := {
  en_identifier : string;
  en_version_id : string;
  en_contents_base64 : string
}.

Record TaskEntry := {
  te_identifier : string;
  te_version_id : string;
  te_password_base64 : string;
  te_client_contribution_base64 : string
}.

Record SharedSource := {
  sh_generator : string;
  sh_recipient_ids : list string;
  sh_recipient_public_keys : list string
}.

Record GenerateEntry := {
  ge_identifier : string;
  ge_client_contribution_base64 : string;
  ge_shared : option SharedSource
}.

(** The transport's [DeploymentBatch]. *)
Record WireBatch := {
  wt_version : Z;
  wt_requested_identifiers : list string;
  wt_entries : list DeployEntry;
  wt_requested_tasks : list string;
  wt_tasks : list TaskEntry;
  wt_generate : list GenerateEntry;
  wt_derive : list string
}.

Record TargetRecord := {
  gr_format_version : Z;
  gr_version_id_base64 : string;
  gr_recipient_ids : list string;
  gr_age_ciphertext_base64 : string;
  gr_adopted : bool
}.

(** [AppliedOutput], and the fields of [DeploymentResult::Applied]. *)
Record AppliedOutput := {
  ao_versions : list (string * string);
  ao_generated_public_keys : list (string * string);
  ao_generated_records : list (string * TargetRecord);
  ao_not_deployed : list (string * string)
}.

Inductive DeploymentResult :=
| Applied (output : AppliedOutput)
| Rejected (message : string).

(** ** Frames *)
Definition MAGIC : list Z := bytes "NSF1".
Definition MAX_FRAME_BYTES : Z := 16 * 1024 * 1024.

Inductive FrameKind := OpenManager | OpenDeployer | Data | Close | Failure.
#[export] Instance frame_kind_eq_dec : EqDecision FrameKind.
Proof. solve_decision. Defined.

(** [kind as u8]. *)
Definition kind_byte (kind : FrameKind) : Z :=
  match kind with
  | OpenManager => 1 | OpenDeployer => 2 | Data => 3 | Close => 4 | Failure => 5
  end.

Record Frame := { fr_kind : FrameKind; fr_payload : list Z }.

Inductive FrameError :=
| FrameIo (error : IoError)
| FrameInvalid (message : string)
| TooLarge.

Definition kind_of (value : Z) : result FrameError FrameKind :=
  if value =? 1 then Ok OpenManager
  else if value =? 2 then Ok OpenDeployer
  else if value =? 3 then Ok Data
  else if value =? 4 then Ok Close
  else if value =? 5 then Ok Failure
  else Err (FrameInvalid "unknown frame kind").

(** [read_exact(..)?]. *)
Definition read_bytes (n : Z) : stE Reader FrameError (list Z) := λ r,
  let '(read, r) := read_exact n r in (map_err FrameIo read, r).

Definition read_from : stE Reader FrameError Frame :=
  header ← read_bytes 9;
  _ ← st_guard (bool_decide (take 4 header = MAGIC)) (FrameInvalid "invalid frame magic");
  kind ← st_lift (kind_of (nth 4 header 0));
  let length := be_value (drop 5 header) in
  _ ← st_guard (length <=? MAX_FRAME_BYTES) TooLarge;
  payload ← read_bytes length;
  mret {| fr_kind := kind; fr_payload := payload |}.

(** The bytes [write_to] hands to the writer. *)
Definition write_to (f : Frame) : result FrameError (list Z) :=
  if MAX_FRAME_BYTES <? zlen (fr_payload f) then Err TooLarge
  else Ok (MAGIC ++ [kind_byte (fr_kind f)] ++ be_bytes 4 (zlen (fr_payload f)) ++ fr_payload f).

(** ** Errors of a session and of a deployment *)
(** [SshError] of [openssh.rs]; a host-key error is printed. *)
Inductive SshError :=
| SshHostKey (message : string)
| SshIo (error : IoError)
| SshProtocol (error : FrameError)
| MissingPipe
| Disconnected (destination stderr : string).

Inductive DeploymentError :=
| DSsh (error : SshError)
| DProtocol (error : FrameError)
| DJson (message : string)
| DIo (error : IoError)
| DInvalid (message : string)
| DRejected (message : string)
| DMismatch (message : string)
| DTruncated (received expected : Z).

(** [PublicInfoAttestation::hosts]: sorted, without repetition. *)
Definition attested_hosts (p : PublicInfoAttestation) : list string :=
  bt_keys (bs_of_list (pa_expected_ssh_host p :: pa_expected_ssh_hosts p)).

(** ** Lemmas *)
Lemma read_bytes_app n (l rest : list Z) e :
  zlen l = n →
  read_bytes n {| rd_bytes := l ++ rest; rd_end := e |} = (Ok l, {| rd_bytes := rest; rd_end := e |}).
Proof. intros H. unfold read_bytes. by rewrite read_exact_app. Qed.

Lemma kind_round_trip kind : kind_of (kind_byte kind) = Ok kind.
Proof. by destruct kind. Qed.

Lemma kind_of_byte b kind : kind_of b = Ok kind → b = kind_byte kind.
Proof.
  unfold kind_of.
  repeat match goal with |- context [b =? ?n] => destruct (Z.eqb_spec b n) as [->|]; [by intros [= <-]|] end.
  done.
Qed.

(** What was written as a frame is read back as that frame, and the rest of
    the stream is left alone. *)
Lemma frame_read_back f wire rest e :
  write_to f = Ok wire →
  read_from {| rd_bytes := wire ++ rest; rd_end := e |} =
    (Ok f, {| rd_bytes := rest; rd_end := e |}).
Proof.
  unfold write_to. destruct (MAX_FRAME_BYTES <? _) eqn:El; [done|]. intros Hw.
  bool_prop. pose proof (zlen_nonneg (fr_payload f)) as Hp.
  set (header := MAGIC ++ [kind_byte (fr_kind f)] ++ be_bytes 4 (zlen (fr_payload f))).
  assert (zlen header = 9) as Hh.
  { unfold header, zlen. by rewrite !length_app, length_be_bytes. }
  assert (wire = header ++ fr_payload f) as ->.
  { unfold header. rewrite <- !(assoc app). by injection Hw. }
  rewrite <- (assoc app).
  unfold read_from, mbind, stE_bind. rewrite read_bytes_app by done.
  assert (take 4 header = MAGIC) as -> by done.
  assert (nth 4 header 0 = kind_byte (fr_kind f)) as -> by done.
  assert (drop 5 header = be_bytes 4 (zlen (fr_payload f))) as -> by done.
  rewrite bool_decide_true by done. cbn [st_guard st_lift guard_err]. rewrite kind_round_trip.
  unfold st_lift. rewrite be_value_bytes_id by (unfold MAX_FRAME_BYTES in El; lia).
  unfold st_guard, st_lift, guard_err. rewrite (proj2 (Z.leb_le _ _)) by done.
  rewrite read_bytes_app by done. by destruct f.
Qed.
