(* ===== verification/Handshake.v ===== *)
(** * What a target and an operator accept of each other

    [crates/transport/src/deployment/validation.rs] and [task_schema.rs]: the
    target's state, the operator's selection of it, the comparison with what
    the operator's schema expects, and the checks of a batch that both sides
    make.  Base64, JSON and [Debug] printing are arguments. *)
From S2P Require Import Prelude BTree Text Framing Wire.
#[local] Open Scope Z_scope.

Definition MAX_PASSWORD_BYTES : Z := 64 * 1024.

#[export] Instance wire_destination_eq_dec : EqDecision WireDestination.
Proof. solve_decision. Defined.
#[export] Instance wire_bootstrap_eq_dec : EqDecision WireBootstrap.
Proof. solve_decision. Defined.
#[export] Instance public_info_eq_dec : EqDecision PublicInfoAttestation.
Proof. solve_decision. Defined.

(** [a, b..=c] over protocol versions. *)
Definition supported_version (v : Z) : bool :=
  (LEGACY_DEPLOYMENT_PROTOCOL_VERSION <=? v) && (v <=? DEPLOYMENT_PROTOCOL_VERSION).

(** ** Identifiers *)
Definition validate_identifier (value : string) : result DeploymentError unit :=
  guard_err
    (negb (bool_decide (value = "") || (4096 <? slen value)
           || existsb (λ part, bool_decide (part = "") || bool_decide (part = ".") || bool_decide (part = ".."))
                (split "." value)))
    (DInvalid "invalid secret identifier").

Definition valid_version (value : string) : bool :=
  bool_decide (value ≠ "") && (slen value <=? 256).

Definition unique_identifiers (duplicate : string) (values : list string)
  : result DeploymentError (list (string * unit)) :=
  try_fold (λ result value,
    _ ← validate_identifier value;
    _ ← guard_err (negb (bt_contains value result)) (DInvalid duplicate);
    mret (bs_insert value result)) [] values.

Definition map_unique {T V : Type} (item : T → string * V) (items : list T)
  : result DeploymentError (list (string * V)) :=
  try_fold (λ result value,
    let '(identifier, spec) := item value in
    _ ← validate_identifier identifier;
    _ ← guard_err (negb (bt_contains identifier result)) (DInvalid "duplicate target identifier");
    mret (bt_insert identifier spec result)) [] items.

(** ** Sets of identifiers *)
Definition is_subset (s t : list (string * unit)) : bool :=
  forallb (λ k, bt_contains k t) (bt_keys s).

Definition require_same_set (left right : list string) (message : string)
  : result DeploymentError unit :=
  guard_err (bool_decide (bs_of_list left = bs_of_list right)) (DInvalid message).

(** [right.iter().all(|item| left.contains(item) && seen.insert(item))]. *)
Fixpoint all_once (left seen : list (string * unit)) (right : list string) : bool :=
  match right with
  | [] => true
  | item :: rest =>
      bt_contains item left && negb (bt_contains item seen)
      && all_once left (bs_insert item seen) rest
  end.

Definition require_subset (left right : list string) (message : string)
  : result DeploymentError unit :=
  guard_err (all_once (bs_of_list left) [] right) (DInvalid message).

Definition validate_supplied (requested supplied available : list string)
  : result DeploymentError unit :=
  requested ← unique_identifiers "duplicate requested identifier" requested;
  let supplied := bs_of_list supplied in
  let available := bs_of_list available in
  _ ← guard_err ((zlen supplied =? zlen requested) && bool_decide (supplied = requested))
        (DInvalid "entries do not match requested subset");
  guard_err (is_subset requested available)
    (DInvalid "requested identifier is absent from target schema").

(** ** The selection *)
Definition validate_selection (selection : DeploymentSelection) : result DeploymentError unit :=
  _ ← guard_err (negb (bool_decide (sl_identifiers selection = [])
                       && bool_decide (sl_task_identifiers selection = [])))
        (DInvalid "deployment subset is empty");
  _ ← unique_identifiers "duplicate selected secret" (sl_identifiers selection);
  _ ← unique_identifiers "duplicate selected task" (sl_task_identifiers selection);
  mret tt.

(** What is selected, and [absent] extended. *)
Definition select {T : Type} (available : list T) (identifiers : list string) (identifier : T → string)
    (absent : list string) : list T * list string :=
  let wanted := bs_of_list identifiers in
  let selected := List.filter (λ item, bt_contains (identifier item) wanted) available in
  (selected,
   absent ++ List.filter (λ w, negb (existsb (λ item, bool_decide (identifier item = w)) selected)) identifiers).

Definition select_state (state : TargetState) (selection : DeploymentSelection)
  : result DeploymentError TargetState :=
  _ ← validate_selection selection;
  let '(secrets, absent) := select (st_secrets state) (sl_identifiers selection) ts_identifier [] in
  let '(tasks, absent) := select (st_tasks state) (sl_task_identifiers selection) tt_identifier absent in
  let selected := bs_of_list (sl_identifiers selection ++ sl_task_identifiers selection) in
  mret {| st_protocol_version := st_protocol_version state;
          st_hostname := st_hostname state;
          st_secrets := secrets;
          st_tasks := tasks;
          st_absent := absent;
          st_unselected :=
            List.filter (λ identifier, negb (bt_contains identifier selected))
              ((ts_identifier <$> st_secrets state) ++ (tt_identifier <$> st_tasks state)) |}.

Section Keys.
(** [STANDARD.decode]. *)
Context (b64_decode : string → option (list Z)).

(** ** Task specifications *)
Definition host_key_algorithms : list string :=
  ["ssh-ed25519"; "ssh-rsa"; "ecdsa-sha2-nistp256"; "ecdsa-sha2-nistp384"; "ecdsa-sha2-nistp521"].

Definition valid_host_key (key : string) : bool :=
  if contains_byte 10 key || contains_byte 13 key then false
  else
    let parts := split_whitespace key in
    if negb (is_some_and (λ a, bool_decide (a ∈ host_key_algorithms)) (parts !! 0%nat)) then false
    else is_some_and (λ blob, bool_decide (blob ≠ []))
           (encoded ← parts !! 1%nat; b64_decode encoded).

Definition validate_output (identifier : string) (output : WireDestination)
  : result DeploymentError unit :=
  service ← ok_or (DInvalid "invalid task identifier") (split "." identifier !! 2%nat);
  let parts := split "/" (wd_path output) in
  let valid_path :=
    bool_decide (length parts = 6%nat)
    && bool_decide (take 3 parts = [""; "persistent"; "secrets"])
    && bool_decide (parts !! 3%nat = Some service)
    && bool_decide (parts !! 4%nat = Some (wd_category output))
    && is_some_and (λ p, bool_decide (p ≠ "")) (parts !! 5%nat) in
  guard_err
    (valid_path
     && bool_decide (wd_category output ∈ ["setup"; "service"; "backup"])
     && bool_decide (wd_mode output ∈ ["0400"; "0440"])
     && bool_decide (wd_owner output ≠ "") && bool_decide (wd_group output ≠ ""))
    (DInvalid "invalid generated task output").

(** [keys.iter().any(|key| !valid_host_key(key) || !unique.insert(key))]. *)
Fixpoint bad_host_keys (unique : list (string * unit)) (keys : list string) : bool :=
  match keys with
  | [] => false
  | key :: keys =>
      negb (valid_host_key key) || bt_contains key unique
      || bad_host_keys (bs_insert key unique) keys
  end.

Definition validate_task_spec (identifier kind : string) (output : WireDestination)
    (bootstrap : option WireBootstrap) : result DeploymentError unit :=
  if bool_decide (kind = LOCAL_SSH_KEY) then
    _ ← guard_err (negb (is_some bootstrap || bool_decide (wd_category output ≠ "service")))
          (DInvalid "invalid local SSH key task");
    validate_output identifier output
  else
    _ ← guard_err (bool_decide (kind = STORAGE_BOX_SSH_KEY)) (DInvalid "unsupported generated task type");
    bootstrap ← ok_or (DInvalid "missing storage box bootstrap") bootstrap;
    _ ← guard_err (negb (negb (wb_port bootstrap =? 23) || bool_decide (wb_host bootstrap = "")
                         || bool_decide (wb_user bootstrap = "")))
          (DInvalid "invalid storage box endpoint");
    _ ← guard_err (negb (Bool.eqb (bool_decide (wb_host_public_keys bootstrap = []))
                             (negb (is_some (wb_known_hosts_file bootstrap)))
                         || bad_host_keys [] (wb_host_public_keys bootstrap)))
          (DInvalid "invalid pinned storage box host key");
    _ ← guard_err (negb (is_some_and
            (λ path, negb (starts_with "/persistent/public-info/" path) || contains_str ".." path)
            (wb_known_hosts_file bootstrap)))
          (DInvalid "invalid knownHostsFile path");
    validate_output identifier output.

(** ** The specifications that are compared *)
Definition WireSecretSpec : Type :=
  list string * WireDestination * option PublicInfoAttestation * option string.
Definition WireTaskSpec : Type := string * list string * WireDestination * option WireBootstrap.

Definition map_target_secrets (items : list TargetSecret)
  : result DeploymentError (list (string * WireSecretSpec)) :=
  map_unique (λ item, (ts_identifier item,
    (ts_recipient_ids item, ts_destination item, ts_public_info item, ts_derived item))) items.

Definition map_expected_secrets (items : list ExpectedSecret)
  : result DeploymentError (list (string * WireSecretSpec)) :=
  map_unique (λ item, (xs_identifier item,
    (xs_recipient_ids item, xs_destination item, xs_public_info item, xs_derived item))) items.

Definition task_spec (kind : string) (recipients : list string) (output : WireDestination)
    (bootstrap : option WireBootstrap) : WireTaskSpec := (kind, recipients, output, bootstrap).

Definition map_target_tasks (items : list TargetTask)
  : result DeploymentError (list (string * WireTaskSpec)) :=
  _ ← try_each (λ item, validate_task_spec (tt_identifier item) (tt_task_type item) (tt_output item)
                          (tt_bootstrap item)) items;
  map_unique (λ item, (tt_identifier item,
    task_spec (tt_task_type item) (tt_recipient_ids item) (tt_output item) (tt_bootstrap item))) items.

Definition map_expected_tasks (items : list ExpectedTask)
  : result DeploymentError (list (string * WireTaskSpec)) :=
  _ ← try_each (λ item, validate_task_spec (xt_identifier item) (xt_task_type item) (xt_output item)
                          (xt_bootstrap item)) items;
  map_unique (λ item, (xt_identifier item,
    task_spec (xt_task_type item) (xt_recipient_ids item) (xt_output item) (xt_bootstrap item))) items.

Definition validate_server_state (state : TargetState) : result DeploymentError unit :=
  _ ← guard_err (negb (negb (st_protocol_version state =? DEPLOYMENT_PROTOCOL_VERSION)
                       || bool_decide (st_hostname state = "")))
        (DInvalid "invalid target state");
  _ ← map_target_secrets (st_secrets state);
  _ ← map_target_tasks (st_tasks state);
  mret tt.

(** ** The comparison with the operator's schema *)
Section Comparison.
(** [{:?}] of the compared fields. *)
Record Debug := {
  db_string : string → string;
  db_strings : list string → string;
  db_option_string : option string → string;
  db_public_info : option PublicInfoAttestation → string;
  db_bootstrap : option WireBootstrap → string
}.
Context (debug : Debug).

Definition differs {T : Type} `{EqDecision T} (show : T → string) (out : list string) (what : string)
    (have want : T) : list string :=
  if bool_decide (have ≠ want)
  then out ++ [what +:+ " " +:+ show have +:+ " on the host, " +:+ show want +:+ " here"]
  else out.

Definition destination_difference (out : list string) (have want : WireDestination) : list string :=
  let out := differs (db_string debug) out "path" (wd_path have) (wd_path want) in
  let out := differs (db_string debug) out "category" (wd_category have) (wd_category want) in
  let out := differs (db_string debug) out "owner" (wd_owner have) (wd_owner want) in
  let out := differs (db_string debug) out "group" (wd_group have) (wd_group want) in
  let out := differs (db_string debug) out "mode" (wd_mode have) (wd_mode want) in
  differs (db_strings debug) out "consumer units" (wd_consumer_units have) (wd_consumer_units want).

Definition secret_difference (have want : WireSecretSpec) : string :=
  let '(recipients, destination, public_info, derived) := have in
  let '(recipients', destination', public_info', derived') := want in
  let out := differs (db_strings debug) [] "recipients" recipients recipients' in
  let out := destination_difference out destination destination' in
  let out := differs (db_public_info debug) out "public-info attestation" public_info public_info' in
  let out := differs (db_option_string debug) out "derivation" derived derived' in
  join "; " out.

Definition task_difference (have want : WireTaskSpec) : string :=
  let '(kind, recipients, output, bootstrap) := have in
  let '(kind', recipients', output', bootstrap') := want in
  let out := differs (db_string debug) [] "task type" kind kind' in
  let out := differs (db_strings debug) out "recipients" recipients recipients' in
  let out := destination_difference out output output' in
  let out := differs (db_bootstrap debug) out "Storage Box bootstrap" bootstrap bootstrap' in
  join "; " out.

Definition compare {V : Type} (target : list (string * V)) (absent : list string)
    (expected : list (string * V)) (difference : V → V → string) (left_out : list LeftOut)
  : result DeploymentError (list LeftOut) :=
  try_fold (λ left_out '(identifier, want),
    match bt_get identifier target with
    | None =>
        if negb (bool_decide (identifier ∈ absent))
        then Err (DMismatch ("target omitted " +:+ identifier +:+ " without listing it as absent"))
        else Ok (left_out ++ [{| lo_identifier := identifier; lo_absent := true;
                                 lo_reason := "the host's current activation does not declare it" |}])
    | Some have =>
        let difference := difference have want in
        if bool_decide (difference ≠ "")
        then Ok (left_out ++ [{| lo_identifier := identifier; lo_absent := false;
                                 lo_reason := "the host's current activation declares it differently: "
                                                +:+ difference |}])
        else Ok left_out
    end) left_out expected.

(** What the operator expects, and what the target answers for. *)
Definition wanted_identifiers (expected : ExpectedTarget) : list string :=
  (xs_identifier <$> xp_secrets expected) ++ (xt_identifier <$> xp_tasks expected).
Definition answered_identifiers (state : TargetState) : list string :=
  (ts_identifier <$> st_secrets state) ++ (tt_identifier <$> st_tasks state) ++ st_absent state.

Definition compare_target (state : TargetState) (expected : ExpectedTarget)
  : result DeploymentError (list LeftOut) :=
  _ ← guard_err (supported_version (st_protocol_version state))
        (DInvalid "unsupported deployment protocol");
  _ ← guard_err (bool_decide (st_hostname state = xp_hostname expected))
        (DInvalid "target hostname mismatch");
  have ← map_target_secrets (st_secrets state);
  want ← map_expected_secrets (xp_secrets expected);
  left_out ← compare have (st_absent state) want secret_difference [];
  have ← map_target_tasks (st_tasks state);
  want ← map_expected_tasks (xp_tasks expected);
  left_out ← compare have (st_absent state) want task_difference left_out;
  let wanted := bs_of_list (wanted_identifiers expected) in
  match List.find (λ identifier, negb (bt_contains identifier wanted)) (answered_identifiers state) with
  | Some extra =>
      Err (DMismatch ("the target answered for " +:+ extra +:+ ", which was not selected"))
  | None => mret left_out
  end.

Definition validate_target (state : TargetState) (expected : ExpectedTarget)
  : result DeploymentError unit :=
  left_out ← compare_target state expected;
  match left_out with
  | [] => mret tt
  | item :: _ => Err (DMismatch (lo_identifier item +:+ ": " +:+ lo_reason item))
  end.
End Comparison.

(** ** Batches *)
Section Batches.
(** [from_str::<Value>(text)?["identifier"].as_str()]. *)
Context (json_identifier : string → option string).

Definition check_contribution (encoded : string) : result DeploymentError unit :=
  contribution ← ok_or (DInvalid "invalid client contribution encoding") (b64_decode encoded);
  guard_err (zlen contribution =? 32) (DInvalid "client contribution must be exactly 32 bytes").

Definition find_secret (identifier : string) (available : list TargetSecret) : option TargetSecret :=
  List.find (λ secret, bool_decide (ts_identifier secret = identifier)) available.

Definition check_generate (supplied : list (string * unit)) (available : list TargetSecret)
    (item : GenerateEntry) : result DeploymentError unit :=
  match ge_shared item with
  | Some shared =>
      _ ← validate_identifier (ge_identifier item);
      _ ← guard_err (negb (is_some (find_secret (ge_identifier item) available)))
            (DInvalid "a shared source is a value of this target");
      _ ← guard_err (negb (bool_decide (sh_generator shared = "")
                           || bool_decide (sh_recipient_ids shared = [])
                           || negb (zlen (sh_recipient_ids shared) =? zlen (sh_recipient_public_keys shared))))
            (DInvalid "invalid shared source");
      check_contribution (ge_client_contribution_base64 item)
  | None =>
      _ ← guard_err (negb (bt_contains (ge_identifier item) supplied))
            (DInvalid "a value is both supplied and generated");
      target ← ok_or (DInvalid "generated identifier is absent from target schema")
                 (find_secret (ge_identifier item) available);
      _ ← guard_err (negb (negb (is_some (ts_generator target)) || is_some (ts_public_info target)))
            (DInvalid "target cannot generate this value");
      check_contribution (ge_client_contribution_base64 item)
  end.

Definition check_derive (supplied generated : list (string * unit)) (available : list TargetSecret)
    (identifier : string) : result DeploymentError unit :=
  _ ← guard_err (negb (bt_contains identifier supplied || bt_contains identifier generated))
        (DInvalid "a derived value is also supplied or generated");
  source ← ok_or (DInvalid "target declares no derivation for a derived value")
             (secret ← find_secret identifier available;
              derived ← ts_derived secret;
              json_identifier derived);
  guard_err (bt_contains source generated)
    (DInvalid "a target-derived value needs its source generated in the same batch").

(** The generated values the target owns. *)
Definition owned (generate : list GenerateEntry) : list string :=
  ge_identifier <$> List.filter (λ item, negb (is_some (ge_shared item))) generate.

Definition validate_entries (batch : WireBatch) (available : list TargetSecret)
  : result DeploymentError unit :=
  supplied ← unique_identifiers "duplicate supplied identifier" (en_identifier <$> wt_entries batch);
  _ ← guard_err (negb ((wt_version batch <? SHARED_SOURCE_PROTOCOL_VERSION)
                       && existsb (λ item, is_some (ge_shared item)) (wt_generate batch)))
        (DInvalid "shared sources need deployment protocol 3");
  _ ← try_each (check_generate supplied available) (wt_generate batch);
  let generated := bs_of_list (ge_identifier <$> wt_generate batch) in
  _ ← try_each (check_derive supplied generated available) (wt_derive batch);
  _ ← validate_supplied (wt_requested_identifiers batch)
        ((en_identifier <$> wt_entries batch) ++ owned (wt_generate batch) ++ wt_derive batch)
        (ts_identifier <$> available);
  guard_err (negb (existsb (λ item, negb (valid_version (en_version_id item))
                                     || bool_decide (en_contents_base64 item = "")) (wt_entries batch)))
    (DInvalid "invalid deployment entry").

Definition check_task (available : list TargetTask) (entry : TaskEntry) : result DeploymentError unit :=
  _ ← guard_err (valid_version (te_version_id entry)) (DInvalid "invalid task version");
  password ← ok_or (DInvalid "invalid task password encoding") (b64_decode (te_password_base64 entry));
  let local_key := existsb (λ task, bool_decide (tt_identifier task = te_identifier entry)
                                    && bool_decide (tt_task_type task = LOCAL_SSH_KEY)) available in
  _ ← guard_err (negb ((negb local_key && bool_decide (password = []))
                       || (local_key && negb (bool_decide (password = [])))
                       || (MAX_PASSWORD_BYTES <? zlen password)))
        (DInvalid "invalid task password length");
  check_contribution (te_client_contribution_base64 entry).

Definition validate_tasks (entries : list TaskEntry) (requested : list string) (available : list TargetTask)
  : result DeploymentError unit :=
  _ ← validate_supplied requested (te_identifier <$> entries) (tt_identifier <$> available);
  try_each (check_task available) entries.

Definition validate_batch (batch : WireBatch) (state : TargetState) : result DeploymentError unit :=
  _ ← guard_err (negb ((st_protocol_version state <? wt_version batch)
                       || (wt_version batch <? LEGACY_DEPLOYMENT_PROTOCOL_VERSION)))
        (DInvalid "batch version is not supported by the target");
  _ ← guard_err (negb ((wt_version batch =? LEGACY_DEPLOYMENT_PROTOCOL_VERSION)
                       && (negb (bool_decide (wt_generate batch = []))
                           || negb (bool_decide (wt_derive batch = [])))))
        (DInvalid "deployment protocol 1 cannot generate values");
  _ ← validate_entries batch (st_secrets state);
  validate_tasks (wt_tasks batch) (wt_requested_tasks batch) (st_tasks state).
End Batches.
End Keys.

(** ** Generators *)
Definition verify_generator (state : TargetState) (expected : ExpectedTarget) (identifier : string)
  : result DeploymentError unit :=
  want ← ok_or (DInvalid "operator schema cannot generate a requested value")
    (item ← List.find (λ item, bool_decide (xs_identifier item = identifier)) (xp_secrets expected);
     xs_generator item);
  have ← ok_or (DInvalid "target cannot generate a requested value; rebuild it with this schema")
    (item ← List.find (λ item, bool_decide (ts_identifier item = identifier)) (st_secrets state);
     ts_generator item);
  guard_err (bool_decide (want = have))
    (DInvalid "target would generate a value in another format; rebuild it with this schema").

Definition verify_generators (state : TargetState) (expected : ExpectedTarget) (identifiers : list string)
  : result DeploymentError unit :=
  try_each (verify_generator state expected) identifiers.

(** ** What the operator sends *)
Definition selection (expected : ExpectedTarget) : DeploymentSelection :=
  {| sl_identifiers := xs_identifier <$> xp_secrets expected;
     sl_task_identifiers := xt_identifier <$> xp_tasks expected |}.

Definition batch (version : Z) (entries : list DeployEntry) (tasks : list TaskEntry)
    (generate : list GenerateEntry) (derive : list string) : WireBatch :=
  {| wt_version := version;
     wt_requested_identifiers := (en_identifier <$> entries) ++ owned generate ++ derive;
     wt_requested_tasks := te_identifier <$> tasks;
     wt_entries := entries; wt_tasks := tasks; wt_generate := generate; wt_derive := derive |}.

Definition reject_or_return (result : DeploymentResult) : Prelude.result DeploymentError DeploymentResult :=
  match result with
  | Rejected message => Err (DRejected message)
  | Applied _ => Ok result
  end.
