(* ===== verification/HandshakeFacts.v ===== *)
(** * What the checks of a deployment promise *)
From S2P Require Import Prelude BTree Text Framing Wire Handshake.
#[local] Open Scope Z_scope.

(** ** Maps built one key at a time *)
Lemma contains_keys `{OrdKey K} {V} k (m : list (K * V)) : bt_contains k m = true ↔ k ∈ bt_keys m.
Proof. unfold bt_contains. rewrite <- bt_get_Some_keys. destruct (bt_get k m); cbn; naive_solver. Qed.

Lemma not_contains_keys `{OrdKey K} {V} k (m : list (K * V)) :
  negb (bt_contains k m) = true ↔ k ∉ bt_keys m.
Proof. rewrite negb_true_iff, <- not_true_iff_false. by rewrite contains_keys. Qed.

Lemma contains_set `{OrdKey K} k (l : list K) : bt_contains k (bs_of_list l) = true ↔ k ∈ l.
Proof. by rewrite contains_keys, bs_of_list_elem. Qed.

(** The loop that checks an identifier, refuses it a second time and inserts
    what belongs to it. *)
Section Unique.
Context {T V : Type} (item : T → string * V) (duplicate : string).

Definition insert_new (result : list (string * V)) (value : T) :=
  _ ← validate_identifier (item value).1;
  _ ← guard_err (negb (bt_contains (item value).1 result)) (DInvalid duplicate);
  mret (bt_insert (item value).1 (item value).2 result).

Definition insert_all (m : list (string * V)) (items : list T) : list (string * V) :=
  foldl (λ m value, bt_insert (item value).1 (item value).2 m) m items.

Lemma insert_new_ok m value m' :
  insert_new m value = Ok m' ↔
  validate_identifier (item value).1 = Ok tt ∧ (item value).1 ∉ bt_keys m
  ∧ m' = bt_insert (item value).1 (item value).2 m.
Proof.
  unfold insert_new. rewrite bind_ok. split.
  - intros ([] & Hv & H). apply guard_bind_ok in H as [Hn [= <-]].
    by apply not_contains_keys in Hn.
  - intros (Hv & Hn & ->). exists tt. split; [done|]. apply guard_bind_ok.
    by rewrite not_contains_keys.
Qed.

Lemma insert_new_all m items m' :
  try_fold insert_new m items = Ok m' ↔
  Forall (λ v, validate_identifier (item v).1 = Ok tt) items
  ∧ NoDup ((λ v, (item v).1) <$> items)
  ∧ (∀ v, v ∈ items → (item v).1 ∉ bt_keys m)
  ∧ m' = insert_all m items.
Proof.
  revert m. induction items as [|v items IH]; intros m; cbn [try_fold insert_all foldl].
  { split; [intros [= <-]; repeat split; [constructor|constructor|set_solver]|]. by intros (_ & _ & _ & ->). }
  rewrite Forall_cons, fmap_cons, NoDup_cons. destruct (insert_new m v) as [m1|e] eqn:E.
  - apply insert_new_ok in E as (Hv & Hn & ->). rewrite IH. fold (insert_all m items).
    setoid_rewrite bt_keys_insert. rewrite (list_elem_of_fmap (λ v, (item v).1)). unfold insert_all.
    split.
    + intros (Hf & Hd & Hm & ->). repeat split; try done.
      * intros (w & Hw & Hin). apply (Hm w Hin). by left.
      * intros w [->|Hin]%elem_of_cons; [done|]. intros Hk. apply (Hm w Hin). by right.
    + intros ([_ Hf] & [Hnot Hd] & Hm & ->). repeat split; try done.
      intros w Hin [Heq|Hk]; [apply Hnot; by exists w|]. eapply Hm; [by apply elem_of_cons; right|done].
  - split; [done|]. intros ([Hv _] & _ & Hm & _).
    assert (insert_new m v = Ok (bt_insert (item v).1 (item v).2 m)) as E'; [|by rewrite E in E'].
    apply insert_new_ok. repeat split; [done|]. apply Hm. by left.
Qed.

Lemma insert_all_wf m items : bt_wf m → bt_wf (insert_all m items).
Proof.
  intros Hm. unfold insert_all. apply (foldl_inv bt_wf); [done|]. intros. by apply bt_wf_insert.
Qed.

Lemma insert_all_keys m items k :
  k ∈ bt_keys (insert_all m items) ↔ k ∈ ((λ v, (item v).1) <$> items) ∨ k ∈ bt_keys m.
Proof.
  revert m. induction items as [|v items IH]; intros m; cbn [insert_all foldl].
  - set_solver.
  - fold (insert_all (bt_insert (item v).1 (item v).2 m) items).
    rewrite IH, bt_keys_insert, fmap_cons, elem_of_cons. naive_solver.
Qed.

Lemma insert_all_get m items k x :
  NoDup ((λ v, (item v).1) <$> items) → (∀ v, v ∈ items → (item v).1 ∉ bt_keys m) →
  bt_get k (insert_all m items) = Some x ↔ (k, x) ∈ (item <$> items) ∨ bt_get k m = Some x.
Proof.
  revert m. induction items as [|v items IH]; intros m Hd Hm; cbn [insert_all foldl].
  { cbn. set_solver. }
  fold (insert_all (bt_insert (item v).1 (item v).2 m) items).
  rewrite fmap_cons in Hd. apply NoDup_cons in Hd as [Hnot Hd].
  rewrite list_elem_of_fmap in Hnot.
  rewrite IH; [|done|].
  2:{ intros w Hw. rewrite bt_keys_insert. intros [Heq|Hk]; [apply Hnot; by exists w|].
      eapply Hm; [by apply elem_of_cons; right|done]. }
  rewrite fmap_cons, elem_of_cons. destruct (decide (k = (item v).1)) as [->|Hne].
  - rewrite bt_get_insert_eq.
    assert (bt_get (item v).1 m = None) as Hnone.
    { apply bt_get_None_keys. apply Hm. by left. }
    rewrite Hnone. destruct (item v) as [a b]; cbn in *.
    split; [intros [H|[= ->]]; auto|]. intros [[[= <-]|H]|[=]]; auto.
  - rewrite bt_get_insert_ne by done. destruct (item v) as [a b]; cbn in *.
    split; [naive_solver|]. intros [[[= -> ->]|H]|H]; naive_solver.
Qed.
End Unique.

(** The identifiers of a list are valid and occur once. *)
Definition proper (l : list string) : Prop :=
  Forall (λ i, validate_identifier i = Ok tt) l ∧ NoDup l.

Lemma insert_all_set l : insert_all (λ i : string, (i, tt)) [] l = bs_of_list l.
Proof. done. Qed.

Lemma unique_identifiers_ok duplicate l s :
  unique_identifiers duplicate l = Ok s ↔ proper l ∧ s = bs_of_list l.
Proof.
  change (unique_identifiers duplicate l)
    with (try_fold (insert_new (λ i : string, (i, tt)) duplicate) [] l).
  rewrite insert_new_all, insert_all_set. cbn [fst]. unfold proper.
  rewrite list_fmap_id. split; [naive_solver|].
  intros [[Hf Hd] ->]. repeat split; try done. intros v _ Hin. by apply not_elem_of_nil in Hin.
Qed.

Lemma map_unique_ok {T V} (item : T → string * V) items m :
  map_unique item items = Ok m ↔
  proper ((λ v, (item v).1) <$> items) ∧ m = insert_all item [] items.
Proof.
  unfold map_unique.
  rewrite (try_fold_ext _ (insert_new item "duplicate target identifier")).
  2:{ intros b a _. unfold insert_new. by destruct (item a). }
  rewrite insert_new_all. unfold proper. rewrite Forall_fmap. unfold compose.
  split; [naive_solver|].
  intros [[Hf Hd] ->]. repeat split; try done. intros v _ Hin. by apply not_elem_of_nil in Hin.
Qed.

Lemma insert_all_spec {T V} (item : T → string * V) items :
  NoDup ((λ v, (item v).1) <$> items) →
  (∀ k x, bt_get k (insert_all item [] items) = Some x ↔ (k, x) ∈ (item <$> items))
  ∧ (∀ k x, (k, x) ∈ insert_all item [] items ↔ (k, x) ∈ (item <$> items)).
Proof.
  intros Hd.
  assert (∀ k x, bt_get k (insert_all item [] items) = Some x ↔ (k, x) ∈ (item <$> items)) as Hg.
  { intros k x. rewrite insert_all_get; [|done|].
    - cbn. naive_solver.
    - intros v _ Hin. by apply not_elem_of_nil in Hin. }
  split; [done|]. intros k x. rewrite <- Hg. split; [|apply bt_get_elem].
  apply bt_elem_get. apply insert_all_wf, bt_wf_nil.
Qed.

(** ** Sets *)
Lemma same_set_ok left right message :
  require_same_set left right message = Ok tt ↔ ∀ i, i ∈ left ↔ i ∈ right.
Proof.
  unfold require_same_set. rewrite guard_ok, bool_decide_eq_true. split.
  - intros H i. by rewrite <- (bs_of_list_elem left), H, bs_of_list_elem.
  - intros H. apply bs_ext; [apply bs_of_list_wf..|]. intros k. by rewrite !bs_of_list_elem.
Qed.

Lemma all_once_ok left seen right :
  all_once left seen right = true ↔
  NoDup right ∧ ∀ i, i ∈ right → i ∈ bt_keys left ∧ i ∉ bt_keys seen.
Proof.
  revert seen. induction right as [|i right IH]; intros seen; cbn [all_once].
  { split; [|done]. intros _. split; [constructor|]. intros i Hi. by apply not_elem_of_nil in Hi. }
  rewrite !andb_true_iff, contains_keys, not_contains_keys, IH, NoDup_cons.
  unfold bs_insert. setoid_rewrite bt_keys_insert. split.
  - intros [[Hl Hs] [Hd Hr]]. repeat split; try done.
    + intros Hin. apply (Hr i Hin). by left.
    + apply elem_of_cons in H as [->|Hin]; [done|]. by apply Hr.
    + intros Hk. apply elem_of_cons in H as [->|Hin]; [done|]. apply (Hr i0 Hin). by right.
  - intros [[Hn Hd] Hr]. split; [apply Hr; by left|]. split; [done|].
    intros j Hj. split; [apply Hr; by right|]. intros [->|Hk]; [done|].
    eapply Hr; [by right|done].
Qed.

Lemma require_subset_ok left right message :
  require_subset left right message = Ok tt ↔ NoDup right ∧ ∀ i, i ∈ right → i ∈ left.
Proof.
  unfold require_subset. rewrite guard_ok, all_once_ok. setoid_rewrite bs_of_list_elem.
  split; [naive_solver|]. intros [Hd H]. split; [done|]. intros i Hi. split; [by apply H|].
  by apply not_elem_of_nil.
Qed.

Lemma validate_supplied_ok requested supplied available :
  validate_supplied requested supplied available = Ok tt ↔
  proper requested ∧ (∀ i, i ∈ supplied ↔ i ∈ requested) ∧ (∀ i, i ∈ requested → i ∈ available).
Proof.
  unfold validate_supplied. rewrite bind_ok. setoid_rewrite unique_identifiers_ok.
  setoid_rewrite guard_bind_ok. setoid_rewrite guard_ok. unfold is_subset.
  setoid_rewrite andb_true_iff. setoid_rewrite bool_decide_eq_true. setoid_rewrite Z.eqb_eq.
  split.
  - intros (s & [Hp ->] & [[_ Heq] Hs]). split; [done|]. split.
    + intros i. by rewrite <- (bs_of_list_elem supplied), Heq, bs_of_list_elem.
    + intros i Hi. apply forallb_Forall, Forall_forall with (x := i) in Hs.
      * by apply contains_set.
      * by apply bs_of_list_elem.
  - intros (Hp & Hs & Ha). exists (bs_of_list requested).
    assert (bs_of_list supplied = bs_of_list requested) as ->.
    { apply bs_ext; [apply bs_of_list_wf..|]. intros k. by rewrite !bs_of_list_elem. }
    split; [done|]. split; [done|]. apply forallb_Forall, Forall_forall.
    intros i Hi. apply contains_set, Ha. by apply bs_of_list_elem.
Qed.

(** ** The comparison *)
Lemma join_empty parts : join "; " parts = "" → Forall (λ p, p ≠ "") parts → parts = [].
Proof.
  destruct parts as [|p [|q parts]]; [done| |].
  - cbn. intros -> H. by inversion H.
  - cbn [join]. intros H Hf. exfalso.
    apply (f_equal String.length) in H. rewrite !length_sapp in H. cbn in H. lia.
Qed.

Section Difference.
Context (debug : Debug).

Lemma differs_nonempty {T} `{EqDecision T} (show : T → string) out what have want :
  what ≠ "" → Forall (λ p, p ≠ "") out → Forall (λ p, p ≠ "") (differs show out what have want).
Proof.
  intros Hw Ho. unfold differs. case_bool_decide; [|done]. apply Forall_app. split; [done|].
  constructor; [|constructor]. intros E. apply Hw. by destruct what.
Qed.

Lemma differs_nil {T} `{EqDecision T} (show : T → string) out what have want :
  differs show out what have want = [] ↔ out = [] ∧ have = want.
Proof.
  unfold differs. case_bool_decide as E.
  - split; [|naive_solver]. by intros [_ [=]]%app_nil.
  - naive_solver.
Qed.

Lemma destination_difference_nonempty out have want :
  Forall (λ p, p ≠ "") out → Forall (λ p, p ≠ "") (destination_difference debug out have want).
Proof. intros H. unfold destination_difference. by repeat (apply differs_nonempty; [done|]). Qed.

Lemma destination_difference_nil out have want :
  destination_difference debug out have want = [] ↔ out = [] ∧ have = want.
Proof.
  unfold destination_difference. rewrite !differs_nil. destruct have, want; cbn. naive_solver.
Qed.

Lemma secret_difference_empty have want : secret_difference debug have want = "" ↔ have = want.
Proof.
  destruct have as [[[r d] p] v], want as [[[r' d'] p'] v']. unfold secret_difference.
  set (out := differs _ _ "derivation" _ _).
  assert (out = [] ↔ (r, d, p, v) = (r', d', p', v')) as <-.
  { unfold out. rewrite !differs_nil, destination_difference_nil, differs_nil. naive_solver. }
  assert (Forall (λ p, p ≠ "") out).
  { unfold out. do 2 (apply differs_nonempty; [done|]). apply destination_difference_nonempty.
    apply differs_nonempty; [done|constructor]. }
  split; [intros Hj; by apply join_empty|by intros ->].
Qed.

Lemma task_difference_empty have want : task_difference debug have want = "" ↔ have = want.
Proof.
  destruct have as [[[k r] d] b], want as [[[k' r'] d'] b']. unfold task_difference.
  set (out := differs _ _ "Storage Box bootstrap" _ _).
  assert (out = [] ↔ (k, r, d, b) = (k', r', d', b')) as <-.
  { unfold out. rewrite !differs_nil, destination_difference_nil, !differs_nil. naive_solver. }
  assert (Forall (λ p, p ≠ "") out).
  { unfold out. apply differs_nonempty; [done|]. apply destination_difference_nonempty.
    do 2 (apply differs_nonempty; [done|]). constructor. }
  split; [intros Hj; by apply join_empty|by intros ->].
Qed.

(** What one expected value adds to the values left out. *)
Definition left_out_entry {V} (target : list (string * V)) (difference : V → V → string)
    (expected : string * V) : option LeftOut :=
  match bt_get expected.1 target with
  | None => Some {| lo_identifier := expected.1; lo_absent := true;
                    lo_reason := "the host's current activation does not declare it" |}
  | Some have =>
      if bool_decide (difference have expected.2 ≠ "")
      then Some {| lo_identifier := expected.1; lo_absent := false;
                   lo_reason := "the host's current activation declares it differently: "
                                  +:+ difference have expected.2 |}
      else None
  end.

Lemma compare_ok {V} (target : list (string * V)) absent expected difference lo lo' :
  compare target absent expected difference lo = Ok lo' ↔
  Forall (λ x, x.1 ∈ bt_keys target ∨ x.1 ∈ absent) expected
  ∧ lo' = lo ++ omap (left_out_entry target difference) expected.
Proof.
  unfold compare. revert lo. induction expected as [|[i want] expected IH]; intros lo; cbn [try_fold].
  { rewrite app_nil_r. split; [intros [= <-]; by split; [constructor|]|]. by intros [_ ->]. }
  rewrite Forall_cons. cbn [omap list_omap]. unfold left_out_entry at 1. cbn [fst snd].
  rewrite <- bt_get_Some_keys. destruct (bt_get i target) as [have|].
  - assert (is_Some (Some have)) by eauto.
    case_bool_decide; rewrite IH; [rewrite <- (assoc app)|]; cbn; naive_solver.
  - assert (¬ is_Some (@None V)) by (by intros [? [=]]).
    case_bool_decide; cbn [negb]; [|naive_solver].
    rewrite IH, <- (assoc app). cbn. naive_solver.
Qed.
End Difference.

(** A value that is left out: the target does not declare it as expected, the
    entry says whether it declares it at all, and a value it does not declare
    is one it said is absent. *)
Definition left_out_of {V} (declared : list (string * V)) (absent : list string) (want : string * V)
    (e : LeftOut) : Prop :=
  lo_identifier e = want.1 ∧ want ∉ declared
  ∧ (lo_absent e = true ↔ want.1 ∉ declared.*1)
  ∧ (lo_absent e = true → want.1 ∈ absent).

Section Compared.
Context {T X V : Type} (have : T → string * V) (want : X → string * V).
Context (difference : V → V → string) (Hdiff : ∀ a b, difference a b = "" ↔ a = b).

Lemma left_out_entry_of ts m absent x :
  map_unique have ts = Ok m → x.1 ∈ bt_keys m ∨ x.1 ∈ absent →
  match left_out_entry m difference x with
  | Some e => left_out_of (have <$> ts) absent x e
  | None => x ∈ have <$> ts
  end.
Proof.
  intros [[_ Hd] ->]%map_unique_ok Hx. destruct (insert_all_spec have ts Hd) as [Hget _].
  assert (∀ k, k ∈ (have <$> ts).*1 ↔ ∃ v, bt_get k (insert_all have [] ts) = Some v) as Hkey.
  { intros k. rewrite list_elem_of_fmap. setoid_rewrite Hget. split; [intros ([? v] & -> & ?); by exists v|].
    intros [v ?]. by exists (k, v). }
  destruct x as [i v]. unfold left_out_entry. cbn [fst snd] in *.
  destruct (bt_get i _) as [v'|] eqn:E.
  - case_bool_decide as Hne.
    + assert (v' ≠ v) by (intros ->; by apply Hne, Hdiff).
      assert ((i, v) ∉ have <$> ts) by (rewrite <- Hget, E; congruence).
      repeat split; cbn; try done. rewrite Hkey. intros H1. exfalso. apply H1. by exists v'.
    + apply Hget. rewrite E. f_equal. by apply Hdiff.
  - assert ((i, v) ∉ have <$> ts) by (rewrite <- Hget, E; congruence).
    repeat split; cbn; try done.
    + intros _. rewrite Hkey. intros [? H1]. by rewrite E in H1.
    + intros _. destruct Hx as [Hx|Hx]; [|done]. apply bt_get_Some_keys in Hx as [? Hx].
      by rewrite E in Hx.
Qed.

Lemma compare_items ts xs absent lo lo' m m' :
  map_unique have ts = Ok m → map_unique want xs = Ok m' →
  compare m absent m' difference lo = Ok lo' →
  ∃ new, lo' = lo ++ new
  ∧ (∀ e, e ∈ new → ∃ x, x ∈ want <$> xs ∧ left_out_of (have <$> ts) absent x e)
  ∧ (∀ x, x ∈ want <$> xs → x ∉ have <$> ts → ∃ e, e ∈ new ∧ left_out_of (have <$> ts) absent x e).
Proof.
  intros Hm [[_ Hd] ->]%map_unique_ok [Hcov ->]%compare_ok.
  destruct (insert_all_spec want xs Hd) as [_ Hin]. rewrite Forall_forall in Hcov.
  eexists. split; [done|]. split.
  - intros e ([i v] & Hx & He)%list_elem_of_omap. exists (i, v). split; [by apply Hin|].
    pose proof (left_out_entry_of ts m absent (i, v) Hm (Hcov _ Hx)) as H. by rewrite He in H.
  - intros [i v] Hx Hnot. apply Hin in Hx.
    pose proof (left_out_entry_of ts m absent (i, v) Hm (Hcov _ Hx)) as H.
    destruct (left_out_entry m difference (i, v)) as [e|] eqn:He; [|done].
    exists e. split; [|done]. apply list_elem_of_omap. by exists (i, v).
Qed.
End Compared.

Definition target_secret (t : TargetSecret) : string * WireSecretSpec :=
  (ts_identifier t, (ts_recipient_ids t, ts_destination t, ts_public_info t, ts_derived t)).
Definition expected_secret (x : ExpectedSecret) : string * WireSecretSpec :=
  (xs_identifier x, (xs_recipient_ids x, xs_destination x, xs_public_info x, xs_derived x)).
Definition target_task (t : TargetTask) : string * WireTaskSpec :=
  (tt_identifier t, task_spec (tt_task_type t) (tt_recipient_ids t) (tt_output t) (tt_bootstrap t)).
Definition expected_task (x : ExpectedTask) : string * WireTaskSpec :=
  (xt_identifier x, task_spec (xt_task_type x) (xt_recipient_ids x) (xt_output x) (xt_bootstrap x)).

(** [e] is left out of what the operator expects. *)
Definition left_out_of_target (state : TargetState) (expected : ExpectedTarget) (e : LeftOut) : Prop :=
  (∃ x, x ∈ expected_secret <$> xp_secrets expected
        ∧ left_out_of (target_secret <$> st_secrets state) (st_absent state) x e)
  ∨ (∃ x, x ∈ expected_task <$> xp_tasks expected
        ∧ left_out_of (target_task <$> st_tasks state) (st_absent state) x e).

(** C29: The operator's comparison of a target with its own schema is exact: a
    target it lets through is the expected host, answers only for selected
    values, and every value it does not declare as the schema does is left
    out (and only such values are), marked absent exactly when the target
    does not declare it at all and then only if the target says so itself. *)
Theorem compare_target_exact b64_decode debug state expected left_out :
  compare_target b64_decode debug state expected = Ok left_out →
  st_hostname state = xp_hostname expected
  ∧ supported_version (st_protocol_version state) = true
  ∧ (∀ i, i ∈ answered_identifiers state → i ∈ wanted_identifiers expected)
  ∧ (∀ e, e ∈ left_out → left_out_of_target state expected e)
  ∧ (∀ x, x ∈ expected_secret <$> xp_secrets expected → x ∉ target_secret <$> st_secrets state →
       x.1 ∈ lo_identifier <$> left_out)
  ∧ (∀ x, x ∈ expected_task <$> xp_tasks expected → x ∉ target_task <$> st_tasks state →
       x.1 ∈ lo_identifier <$> left_out).
Proof.
  unfold compare_target. intros H.
  apply guard_bind_ok in H as [Hv H]. apply guard_bind_ok in H as [Hh H]. bool_prop.
  apply bind_ok in H as (sh & Hsh & H). apply bind_ok in H as (sw & Hsw & H).
  apply bind_ok in H as (lo1 & Hc1 & H).
  apply bind_ok in H as (th & Hth & H). apply bind_ok in H as (tw & Htw & H).
  apply bind_ok in H as (lo2 & Hc2 & H).
  apply bind_ok in Hth as ([] & _ & Hth). apply bind_ok in Htw as ([] & _ & Htw).
  destruct (List.find _ _) eqn:Ef; [done|]. injection H as <-.
  destruct (compare_items target_secret expected_secret _ (secret_difference_empty debug)
              _ _ _ _ _ _ _ Hsh Hsw Hc1) as (new1 & -> & Hs1 & Hs2).
  destruct (compare_items target_task expected_task _ (task_difference_empty debug)
              _ _ _ _ _ _ _ Hth Htw Hc2) as (new2 & -> & Ht1 & Ht2).
  split; [done|]. split; [done|]. split.
  { intros i Hi. apply list_elem_of_In in Hi.
    pose proof (List.find_none _ _ Ef i Hi) as Hn. cbn in Hn.
    apply negb_false_iff in Hn. by apply contains_set. }
  split; [intros e [[Hx|He]%elem_of_app|He]%elem_of_app|split].
  - by apply not_elem_of_nil in Hx.
  - left. by apply Hs1.
  - right. by apply Ht1.
  - intros x Hx Hn. destruct (Hs2 x Hx Hn) as (e & He & <- & _). apply list_elem_of_fmap. exists e.
    split; [done|]. apply elem_of_app. left. apply elem_of_app. by right.
  - intros x Hx Hn. destruct (Ht2 x Hx Hn) as (e & He & <- & _). apply list_elem_of_fmap. exists e.
    split; [done|]. apply elem_of_app. by right.
Qed.

(** ** Batches *)
Section Batches.
Context (b64_decode : string → option (list Z)) (json_identifier : string → option string).

Definition contribution_ok (encoded : string) : Prop :=
  ∃ bytes, b64_decode encoded = Some bytes ∧ zlen bytes = 32.

Definition generate_ok (supplied : list string) (available : list TargetSecret) (g : GenerateEntry) : Prop :=
  contribution_ok (ge_client_contribution_base64 g)
  ∧ match ge_shared g with
    | Some shared =>
        validate_identifier (ge_identifier g) = Ok tt
        ∧ find_secret (ge_identifier g) available = None
        ∧ sh_generator shared ≠ "" ∧ sh_recipient_ids shared ≠ []
        ∧ zlen (sh_recipient_ids shared) = zlen (sh_recipient_public_keys shared)
    | None =>
        ge_identifier g ∉ supplied
        ∧ ∃ t, find_secret (ge_identifier g) available = Some t
               ∧ is_Some (ts_generator t) ∧ ts_public_info t = None
    end.

Definition derive_ok (supplied generated : list string) (available : list TargetSecret) (i : string) : Prop :=
  i ∉ supplied ∧ i ∉ generated
  ∧ ∃ t derived source, find_secret i available = Some t ∧ ts_derived t = Some derived
      ∧ json_identifier derived = Some source ∧ source ∈ generated.

Definition task_ok (available : list TargetTask) (e : TaskEntry) : Prop :=
  valid_version (te_version_id e) = true
  ∧ contribution_ok (te_client_contribution_base64 e)
  ∧ ∃ password, b64_decode (te_password_base64 e) = Some password ∧ zlen password ≤ MAX_PASSWORD_BYTES
      ∧ (password = [] ↔ ∃ t, t ∈ available ∧ tt_identifier t = te_identifier e ∧ tt_task_type t = LOCAL_SSH_KEY).

(** A batch a target can apply. *)
Record valid_batch (b : WireBatch) (state : TargetState) : Prop := {
  vb_version : LEGACY_DEPLOYMENT_PROTOCOL_VERSION ≤ wt_version b ≤ st_protocol_version state;
  vb_legacy : wt_version b = LEGACY_DEPLOYMENT_PROTOCOL_VERSION → wt_generate b = [] ∧ wt_derive b = [];
  vb_sources : wt_version b < SHARED_SOURCE_PROTOCOL_VERSION →
    ∀ g, g ∈ wt_generate b → ge_shared g = None;
  vb_supplied : proper (en_identifier <$> wt_entries b);
  vb_requested : proper (wt_requested_identifiers b);
  vb_exactly : ∀ i, i ∈ wt_requested_identifiers b ↔
    i ∈ en_identifier <$> wt_entries b ∨ i ∈ owned (wt_generate b) ∨ i ∈ wt_derive b;
  vb_declared : ∀ i, i ∈ wt_requested_identifiers b → i ∈ ts_identifier <$> st_secrets state;
  vb_entries : ∀ e, e ∈ wt_entries b → valid_version (en_version_id e) = true ∧ en_contents_base64 e ≠ "";
  vb_generate : ∀ g, g ∈ wt_generate b →
    generate_ok (en_identifier <$> wt_entries b) (st_secrets state) g;
  vb_derive : ∀ i, i ∈ wt_derive b →
    derive_ok (en_identifier <$> wt_entries b) (ge_identifier <$> wt_generate b) (st_secrets state) i;
  vb_requested_tasks : proper (wt_requested_tasks b);
  vb_exactly_tasks : ∀ i, i ∈ wt_requested_tasks b ↔ i ∈ te_identifier <$> wt_tasks b;
  vb_declared_tasks : ∀ i, i ∈ wt_requested_tasks b → i ∈ tt_identifier <$> st_tasks state;
  vb_tasks : ∀ e, e ∈ wt_tasks b → task_ok (st_tasks state) e
}.

Lemma check_contribution_ok encoded : check_contribution b64_decode encoded = Ok tt ↔ contribution_ok encoded.
Proof.
  unfold check_contribution, contribution_ok. destruct (b64_decode encoded) as [l|]; cbn; [|naive_solver].
  rewrite guard_ok, Z.eqb_eq. naive_solver.
Qed.

Lemma check_generate_ok supplied available g :
  check_generate b64_decode (bs_of_list supplied) available g = Ok tt ↔ generate_ok supplied available g.
Proof.
  unfold check_generate, generate_ok. destruct (ge_shared g) as [s|].
  - rewrite then_ok, !guard_bind_ok, check_contribution_ok.
    rewrite !negb_true_iff, !orb_false_iff, !bool_decide_eq_false, negb_false_iff, Z.eqb_eq.
    destruct (find_secret _ _); cbn; naive_solver.
  - rewrite guard_bind_ok, not_contains_keys, bs_of_list_elem.
    destruct (find_secret _ _) as [t|]; cbn; [|naive_solver].
    rewrite guard_bind_ok, check_contribution_ok, negb_true_iff, orb_false_iff, negb_false_iff.
    rewrite is_some_true, is_some_false. split.
    + intros (? & [? ?] & ?). repeat split; [done..|]. by exists t.
    + intros (? & ? & t' & [= <-] & ? & ?). done.
Qed.

Lemma check_derive_ok supplied generated available i :
  check_derive json_identifier (bs_of_list supplied) (bs_of_list generated) available i = Ok tt ↔
  derive_ok supplied generated available i.
Proof.
  unfold check_derive, derive_ok. rewrite guard_bind_ok, negb_true_iff, orb_false_iff, bind_ok.
  rewrite <- !not_true_iff_false, !contains_set. setoid_rewrite guard_ok.
  split.
  - intros [[? ?] (source & Hs & Hg)]. apply contains_set in Hg. repeat split; [done..|].
    destruct (find_secret i available) as [t|]; [|done]. cbn in Hs.
    destruct (ts_derived t) as [d|] eqn:Ed; [|done]. cbn in Hs.
    destruct (json_identifier d) eqn:Ej; [|done]. injection Hs as ->. by exists t, d, source.
  - intros (? & ? & t & d & source & -> & Hd & Hj & Hg). repeat split; [done..|].
    exists source. rewrite contains_set. cbn. rewrite Hd. cbn. by rewrite Hj.
Qed.

Lemma is_local_ok available e :
  existsb (λ task, bool_decide (tt_identifier task = te_identifier e)
                   && bool_decide (tt_task_type task = LOCAL_SSH_KEY)) available = true ↔
  ∃ t, t ∈ available ∧ tt_identifier t = te_identifier e ∧ tt_task_type t = LOCAL_SSH_KEY.
Proof.
  rewrite existsb_exists. split.
  - intros (t & Ht & H). bool_prop. exists t. split; [by apply list_elem_of_In|done].
  - intros (t & Ht & H). exists t. split; [by apply list_elem_of_In|]. by bool_prop.
Qed.

Lemma check_task_ok available e : check_task b64_decode available e = Ok tt ↔ task_ok available e.
Proof.
  unfold check_task, task_ok. rewrite guard_bind_ok, bind_ok. setoid_rewrite <- is_local_ok.
  set (l := existsb _ available).
  assert (∀ p, ok_or (DInvalid "invalid task password encoding") (b64_decode (te_password_base64 e)) = Ok p
               ↔ b64_decode (te_password_base64 e) = Some p) as Hp.
  { intros p. destruct (b64_decode (te_password_base64 e)); cbn; naive_solver. }
  setoid_rewrite Hp. setoid_rewrite guard_bind_ok. setoid_rewrite check_contribution_ok.
  setoid_rewrite negb_true_iff. setoid_rewrite orb_false_iff. setoid_rewrite orb_false_iff.
  setoid_rewrite Z.ltb_ge. clearbody l.
  split.
  - intros (? & p & ? & [[H1 H2] ?] & ?). repeat split; [done..|]. exists p. repeat split; [done..| |].
    + intros ->. by destruct l.
    + intros ->. by case_bool_decide.
  - intros (? & ? & p & ? & ? & H). split; [done|]. exists p. repeat split; [done|..|done|done].
    + destruct l; [done|]. case_bool_decide; [|done]. intuition done.
    + destruct l; [|done]. rewrite bool_decide_true by (by apply H). done.
Qed.

Lemma validate_entries_ok b available :
  validate_entries b64_decode json_identifier b available = Ok tt ↔
  (wt_version b < SHARED_SOURCE_PROTOCOL_VERSION → ∀ g, g ∈ wt_generate b → ge_shared g = None)
  ∧ proper (en_identifier <$> wt_entries b)
  ∧ proper (wt_requested_identifiers b)
  ∧ (∀ i, i ∈ wt_requested_identifiers b ↔
       i ∈ en_identifier <$> wt_entries b ∨ i ∈ owned (wt_generate b) ∨ i ∈ wt_derive b)
  ∧ (∀ i, i ∈ wt_requested_identifiers b → i ∈ ts_identifier <$> available)
  ∧ (∀ e, e ∈ wt_entries b → valid_version (en_version_id e) = true ∧ en_contents_base64 e ≠ "")
  ∧ (∀ g, g ∈ wt_generate b → generate_ok (en_identifier <$> wt_entries b) available g)
  ∧ (∀ i, i ∈ wt_derive b →
       derive_ok (en_identifier <$> wt_entries b) (ge_identifier <$> wt_generate b) available i).
Proof.
  unfold validate_entries. rewrite bind_ok. setoid_rewrite unique_identifiers_ok.
  assert (∀ P : list (string * unit) → Prop,
    (∃ s, (proper (en_identifier <$> wt_entries b) ∧ s = bs_of_list (en_identifier <$> wt_entries b)) ∧ P s)
    ↔ proper (en_identifier <$> wt_entries b) ∧ P (bs_of_list (en_identifier <$> wt_entries b))) as ->
    by naive_solver.
  rewrite guard_bind_ok, !then_ok, guard_ok, validate_supplied_ok, !try_each_ok, !Forall_forall.
  setoid_rewrite check_generate_ok. setoid_rewrite check_derive_ok. setoid_rewrite elem_of_app.
  setoid_rewrite elem_of_app.
  assert (negb ((wt_version b <? SHARED_SOURCE_PROTOCOL_VERSION)
                && existsb (λ item, is_some (ge_shared item)) (wt_generate b)) = true ↔
    (wt_version b < SHARED_SOURCE_PROTOCOL_VERSION → ∀ g, g ∈ wt_generate b → ge_shared g = None)) as ->.
  { rewrite negb_true_iff, <- not_true_iff_false, andb_true_iff, Z.ltb_lt, existsb_exists.
    setoid_rewrite is_some_true. setoid_rewrite list_elem_of_In. split.
    - intros H Hv g Hg. apply eq_None_not_Some. intros Hs. apply H. split; [done|]. by exists g.
    - intros H [Hv (g & Hg & Hs)]. rewrite (H Hv g Hg) in Hs. by destruct Hs. }
  assert (negb (existsb (λ item, negb (valid_version (en_version_id item))
                                 || bool_decide (en_contents_base64 item = "")) (wt_entries b)) = true ↔
    (∀ e, e ∈ wt_entries b → valid_version (en_version_id e) = true ∧ en_contents_base64 e ≠ "")) as ->.
  { rewrite negb_true_iff, <- not_true_iff_false, existsb_exists. setoid_rewrite list_elem_of_In. split.
    - intros H e He. apply dec_stable. intros Hn. apply H. exists e. split; [done|].
      apply orb_true_iff. rewrite negb_true_iff, bool_decide_eq_true.
      destruct (valid_version (en_version_id e)); [right|by left]. apply dec_stable. naive_solver.
    - intros H (e & He & Hb). destruct (H e He) as [Hv Hc]. rewrite Hv in Hb. by apply bool_decide_eq_true in Hb. }
  split.
  - intros (? & ? & ? & ? & (? & Hx & ?) & ?). do 3 (split; [done|]).
    split; [intros i; by rewrite <- Hx|]. by repeat (split; [done|]).
  - intros (? & ? & ? & Hx & ? & ? & ? & ?). do 4 (split; [done|]).
    split; [|done]. split; [done|]. split; [intros i; by rewrite Hx|done].
Qed.

Lemma validate_batch_ok b state :
  validate_batch b64_decode json_identifier b state = Ok tt ↔ valid_batch b state.
Proof.
  unfold validate_batch, validate_tasks.
  rewrite !guard_bind_ok, !then_ok, validate_entries_ok, validate_supplied_ok, try_each_ok, Forall_forall.
  setoid_rewrite check_task_ok.
  rewrite !negb_true_iff, orb_false_iff, !Z.ltb_ge, <- (not_true_iff_false (_ && _)), andb_true_iff, Z.eqb_eq.
  assert (negb (bool_decide (wt_generate b = [])) || negb (bool_decide (wt_derive b = [])) = true ↔
    ¬ (wt_generate b = [] ∧ wt_derive b = [])) as ->.
  { rewrite orb_true_iff, !negb_true_iff, !bool_decide_eq_false.
    destruct (wt_generate b), (wt_derive b); naive_solver. }
  assert (Decision (wt_generate b = [] ∧ wt_derive b = [])) as Hdec.
  { destruct (wt_generate b), (wt_derive b); (left; by split) || (right; by intros [??]). }
  split.
  - intros ([? ?] & Hl & (? & ? & ? & ? & ? & ? & ? & ?) & (? & Hx & ?) & ?).
    constructor; try done.
    intros Hv. destruct Hdec as [?|Hn]; [done|]. exfalso. by apply Hl.
  - intros []. split; [lia|]. split; [intros [Hv Hn]; by apply Hn, vb_legacy0|].
    split; [by do 7 (split; [done|])|]. split; [|done]. split; [done|]. split; [|done].
    intros i. by rewrite vb_exactly_tasks0.
Qed.

(** What the target makes is not supplied, and what is derived is neither. *)
Lemma owned_not_supplied b state i :
  valid_batch b state → i ∈ owned (wt_generate b) → i ∉ en_identifier <$> wt_entries b.
Proof.
  intros Hok (g & -> & Hin)%list_elem_of_fmap. apply list_elem_of_In, filter_In in Hin as [Hin Hs].
  apply list_elem_of_In in Hin. apply negb_true_iff, is_some_false in Hs.
  apply (vb_generate _ _ Hok) in Hin as [_ Hin]. rewrite Hs in Hin. by destruct Hin.
Qed.

Lemma derived_apart b state i :
  valid_batch b state → i ∈ wt_derive b →
  i ∉ en_identifier <$> wt_entries b ∧ i ∉ owned (wt_generate b).
Proof.
  intros Hok (Hn & Hn' & _)%(vb_derive _ _ Hok). split; [done|]. intros Ho. apply Hn'.
  apply list_elem_of_fmap in Ho as (g & -> & Hin). apply list_elem_of_fmap. exists g. split; [done|].
  apply list_elem_of_In, filter_In in Hin as [Hin _]. by apply list_elem_of_In.
Qed.

(** C30: A batch passes the checks, the operator's and the target's, exactly when
    it is one the target can apply: its requested values are declared by the
    target, the generated ones with a generator and a full contribution, the
    derived ones with their source generated in the batch, and it uses only
    what its protocol version knows.  Every requested value then comes exactly
    one way: supplied, generated by the target, or derived. *)
Theorem validate_batch_exact b state :
  (validate_batch b64_decode json_identifier b state = Ok tt ↔ valid_batch b state)
  ∧ (validate_batch b64_decode json_identifier b state = Ok tt → ∀ i, i ∈ wt_requested_identifiers b →
       let supplied := i ∈ en_identifier <$> wt_entries b in
       let generated := i ∈ owned (wt_generate b) in
       let derived := i ∈ wt_derive b in
       (supplied ∧ ¬ generated ∧ ¬ derived) ∨ (¬ supplied ∧ generated ∧ ¬ derived)
       ∨ (¬ supplied ∧ ¬ generated ∧ derived)).
Proof.
  split; [apply validate_batch_ok|]. intros Hok%validate_batch_ok i Hi. cbn zeta.
  pose proof (owned_not_supplied b state i Hok) as Hg. pose proof (derived_apart b state i Hok) as Hd.
  apply (vb_exactly _ _ Hok) in Hi as [Hs|[Hs|Hs]]; [left|right; left|right; right]; tauto.
Qed.
End Batches.
