(* ===== verification/Exchange.v ===== *)
(** * One deployment between operator and target

    [crates/transport/src/deployment/server.rs] and [client.rs], the session
    of [openssh.rs] and the relay of [receiver.rs]: length-prefixed messages,
    the frames that carry them through the SSH connection, the target's
    transaction and the operator's side of it. *)
From S2P Require Import Prelude BTree Text Framing Wire Handshake.
#[local] Open Scope Z_scope.

(** [serde_json::to_vec] and [serde_json::from_slice] at a type. *)
Class Json (T : Type) := {
  to_vec : T → result string (list Z);
  from_slice : list Z → result string T
}.

(** ** Streams *)
(** What one [read] call of a stream gives; an exhausted stream is at its end. *)
Inductive ReadEvent :=
| Arrives (l : list Z)
| IsInterrupted
| Breaks (message : string).

(** [received] is the part of the buffer that is filled. *)
Fixpoint read_whole (size expected : Z) (received : list Z) (s : list ReadEvent)
  : result DeploymentError (list Z) * list ReadEvent :=
  if size <=? zlen received then (Ok received, s)
  else
    match s with
    | [] | Arrives [] :: _ => (Err (DTruncated (zlen received) expected), tail s)
    | Arrives l :: s' =>
        let room := size - zlen received in
        if zlen l <=? room then read_whole size expected (received ++ l) s'
        else (Ok (received ++ take (Z.to_nat room) l), Arrives (drop (Z.to_nat room) l) :: s')
    | IsInterrupted :: s' => read_whole size expected received s'
    | Breaks message :: s' => (Err (DIo (OtherIo message)), s')
    end.

(** A writer and the bytes it takes before it breaks. *)
Definition BROKEN_PIPE : string := "broken pipe".
Record Writer := { wr_bytes : list Z; wr_room : option Z }.

Definition write_all (bytes : list Z) : stE Writer IoError unit := λ w,
  match wr_room w with
  | None => (Ok tt, {| wr_bytes := wr_bytes w ++ bytes; wr_room := None |})
  | Some room =>
      if zlen bytes <=? room
      then (Ok tt, {| wr_bytes := wr_bytes w ++ bytes; wr_room := Some (room - zlen bytes) |})
      else (Err (OtherIo BROKEN_PIPE),
            {| wr_bytes := wr_bytes w ++ take (Z.to_nat room) bytes; wr_room := Some 0 |})
  end.

(** Runs a step on one part of a state. *)
Definition on {S T E A : Type} (get : S → T) (set : T → S → S) (m : stE T E A) : stE S E A := λ s,
  let '(r, t) := m (get s) in (r, set t s).

Definition map_st_err {S E F A : Type} (f : E → F) (m : stE S E A) : stE S F A := λ s,
  let '(r, s) := m s in (map_err f r, s).

(** ** Messages *)
Section Messages.
Context {T : Type} `{Json T}.

Definition encode_json (value : T) : result DeploymentError (list Z) :=
  body ← map_err DJson (to_vec value);
  _ ← guard_err (zlen body <=? MAX_DEPLOYMENT_JSON) (DInvalid "deployment message too large");
  mret (be_bytes 4 (zlen body) ++ body).

Definition read_wire_json : stE (list ReadEvent) DeploymentError T :=
  prefix ← read_whole 4 4 [];
  let length := be_value prefix in
  _ ← st_guard (length <=? MAX_DEPLOYMENT_JSON) (DInvalid "deployment message too large");
  body ← map_st_err (λ error, match error with
                              | DTruncated received expected => DTruncated (received + 4) expected
                              | error => error
                              end) (read_whole length (length + 4) []);
  st_lift (map_err DJson (from_slice body)).

Definition write_wire_json (value : T) : stE Writer DeploymentError unit :=
  wire ← st_lift (encode_json value);
  map_st_err DIo (write_all wire).
End Messages.

(** ** The target's side *)
Section Serve.
Context `{Json DeploymentSelection, Json TargetState, Json WireBatch, Json DeploymentResult}.
Context (b64_decode : string → option (list Z)) (json_identifier : string → option string).
(** The caller's [apply], and the machine it changes. *)
Context {W : Type} (apply : WireBatch → stE W string AppliedOutput).

Record Served := { sv_input : list ReadEvent; sv_output : Writer; sv_world : W }.

Definition input {A} (m : stE (list ReadEvent) DeploymentError A) : stE Served DeploymentError A :=
  on sv_input (λ t s, {| sv_input := t; sv_output := sv_output s; sv_world := sv_world s |}) m.
Definition output {A} (m : stE Writer DeploymentError A) : stE Served DeploymentError A :=
  on sv_output (λ t s, {| sv_input := sv_input s; sv_output := t; sv_world := sv_world s |}) m.
Definition world {E A} (m : stE W E A) : stE Served E A :=
  on sv_world (λ t s, {| sv_input := sv_input s; sv_output := sv_output s; sv_world := t |}) m.

Definition with_version (version : Z) (state : TargetState) : TargetState :=
  {| st_protocol_version := version; st_hostname := st_hostname state; st_secrets := st_secrets state;
     st_tasks := st_tasks state; st_absent := st_absent state; st_unselected := st_unselected state |}.

(** What is checked of a batch before it is applied. *)
Definition check_batch (selection : DeploymentSelection) (selected_state : TargetState) (batch : WireBatch)
  : result DeploymentError unit :=
  _ ← guard_err (supported_version (wt_version batch))
        (DInvalid "unsupported deployment batch version");
  let check := if NOT_DEPLOYED_PROTOCOL_VERSION <=? wt_version batch
               then require_subset else require_same_set in
  _ ← check (sl_identifiers selection) (wt_requested_identifiers batch)
        "batch secret subset differs from selection";
  _ ← check (sl_task_identifiers selection) (wt_requested_tasks batch)
        "batch task subset differs from selection";
  validate_batch b64_decode json_identifier batch (with_version (wt_version batch) selected_state).

(** The answer to a batch that was applied. *)
Definition applied_result (generate : list string) (applied : result string AppliedOutput)
  : DeploymentResult :=
  match applied with
  | Ok output =>
      if existsb (λ id, negb (bt_contains id (ao_generated_records output))) generate
      then Rejected "target did not return exactly the generated records"
      else Applied output
  | Err message => Rejected message
  end.

Definition serve_deployment (state : TargetState) : stE Served DeploymentError unit :=
  _ ← st_lift (validate_server_state b64_decode state);
  selection ← input read_wire_json;
  selected_state ← st_lift (select_state state selection);
  _ ← output (write_wire_json selected_state);
  batch ← input read_wire_json;
  _ ← st_lift (check_batch selection selected_state batch);
  let generate := ge_identifier <$> wt_generate batch in
  result ← (λ s, let '(applied, w) := apply batch (sv_world s) in
                 (Ok (applied_result generate applied),
                  {| sv_input := sv_input s; sv_output := sv_output s; sv_world := w |}));
  output (write_wire_json result).
End Serve.

(** ** Sessions *)
(** What a deployment needs of its transport. *)
Class FrameIo (S : Type) := {
  send_frame : Frame → stE S DeploymentError unit;
  receive_frame : stE S DeploymentError Frame
}.

(** The pipes of a running ssh, and what it wrote to its standard error. *)
Record SshSession := {
  sn_input : Writer;
  sn_output : Reader;
  sn_stderr : string;
  sn_destination : string
}.

(** An I/O failure on ssh's pipes becomes what ssh reported. *)
Definition explain (s : SshSession) (error : FrameError) : SshError :=
  let broken := match error with
                | Wire.FrameIo UnexpectedEof => true
                | Wire.FrameIo (OtherIo message) => bool_decide (message = BROKEN_PIPE)
                | _ => false
                end in
  if broken then Disconnected (sn_destination s) (sn_stderr s) else SshProtocol error.

(** [SshError::Disconnected]'s [Display]. *)
Definition disconnected_cause (stderr : string) : string :=
  let has := λ text, contains_str text stderr in
  if has "agent refused operation" || has "signing failed" then
    "the SSH agent refused to sign with the forwarder key; approve it in 1Password (or your agent) when nix-secrets asks"
  else if has "Too many authentication failures" || has "Permission denied" then
    "authentication failed: the server did not accept the offered key. Check that the forwarder key is authorized for this account on the target"
  else if has "Connection refused" || has "Connection timed out" || has "No route to host"
          || has "Could not resolve" then
    "the target could not be reached"
  else if has "Host key verification failed" then
    "the host key did not match the one approved"
  else "the connection closed before the receiver answered".

Definition disconnected_show (destination stderr : string) : string :=
  "SSH to " +:+ destination +:+ " failed: " +:+ disconnected_cause stderr +:+ "."
    +:+ (if bool_decide (trim stderr = "") then "" else " ssh said: " +:+ trim stderr).

Definition write_frame (f : Frame) : stE Writer FrameError unit :=
  wire ← st_lift (write_to f);
  map_st_err Wire.FrameIo (write_all wire).

Definition session_write (f : Frame) : stE SshSession SshError unit := λ s,
  let '(r, w) := write_frame f (sn_input s) in
  (map_err (explain s) r, {| sn_input := w; sn_output := sn_output s;
                             sn_stderr := sn_stderr s; sn_destination := sn_destination s |}).
Definition session_receive : stE SshSession SshError Frame := λ s,
  let '(r, o) := read_from (sn_output s) in
  (map_err (explain s) r, {| sn_input := sn_input s; sn_output := o;
                             sn_stderr := sn_stderr s; sn_destination := sn_destination s |}).

Definition session_open (kind : FrameKind) : stE SshSession SshError unit :=
  _ ← st_guard (bool_decide (kind = OpenManager) || bool_decide (kind = OpenDeployer))
        (SshProtocol (FrameInvalid "invalid open mode"));
  _ ← session_write {| fr_kind := kind; fr_payload := [] |};
  response ← session_receive;
  st_guard (bool_decide (fr_kind response = Data) && bool_decide (fr_payload response = []))
    (SshProtocol (FrameInvalid "receiver rejected open")).

Definition session_send (bytes : list Z) : stE SshSession SshError unit :=
  session_write {| fr_kind := Data; fr_payload := bytes |}.
Definition session_close_write : stE SshSession SshError unit :=
  session_write {| fr_kind := Close; fr_payload := [] |}.

#[export] Instance session_frame_io : FrameIo SshSession := {
  send_frame f :=
    _ ← st_guard (bool_decide (fr_kind f = Data)) (DInvalid "deployment uses data frames");
    map_st_err DSsh (session_send (fr_payload f));
  receive_frame := map_st_err DSsh session_receive
}.

Section Transport.
Context {S : Type} `{FrameIo S} {T : Type} `{Json T}.

(** [wire.chunks(size)]. *)
Fixpoint chunks (fuel : nat) (size : nat) (l : list Z) : list (list Z) :=
  match fuel with
  | O => []
  | Datatypes.S fuel =>
      match l with [] => [] | _ => take size l :: chunks fuel size (drop size l) end
  end.

Fixpoint send_each (parts : list (list Z)) : stE S DeploymentError unit :=
  match parts with
  | [] => mret tt
  | part :: parts =>
      _ ← send_frame {| fr_kind := Data; fr_payload := part |};
      send_each parts
  end.

Definition send_transport_json (value : T) : stE S DeploymentError unit :=
  wire ← st_lift (encode_json value);
  send_each (chunks (length wire) (Z.to_nat MAX_FRAME_BYTES) wire).

(** One turn of the loop that collects a message: [None] asks for more. *)
Definition collect_frame (wire : list Z) (frame : Frame)
  : result DeploymentError (list Z * option T) :=
  _ ← guard_err (bool_decide (fr_kind frame = Data)) (DInvalid "expected deployment data frame");
  _ ← guard_err (Z.min usize_max (zlen wire + zlen (fr_payload frame)) <=? MAX_DEPLOYMENT_JSON + 4)
        (DInvalid "deployment message too large");
  let wire := wire ++ fr_payload frame in
  if 4 <=? zlen wire then
    let length := be_value (take 4 wire) in
    _ ← guard_err (length <=? MAX_DEPLOYMENT_JSON) (DInvalid "deployment message too large");
    if zlen wire =? length + 4 then
      value ← map_err DJson (from_slice (drop 4 wire));
      mret (wire, Some value)
    else
      _ ← guard_err (negb (length + 4 <? zlen wire))
            (DInvalid "multiple deployment messages in frame stream");
      mret (wire, None)
  else mret (wire, None).

(** [None]: [fuel] frames did not complete the message. *)
Fixpoint receive_loop (fuel : nat) (wire : list Z) : stE S DeploymentError (option T) :=
  match fuel with
  | O => mret None
  | Datatypes.S fuel =>
      frame ← receive_frame;
      '(wire, value) ← st_lift (collect_frame wire frame);
      match value with
      | Some value => mret (Some value)
      | None => receive_loop fuel wire
      end
  end.

Definition receive_transport_json (fuel : nat) : stE S DeploymentError (option T) := receive_loop fuel [].
End Transport.

(** ** The operator's side *)
Section Prepared.
Context `{Json DeploymentSelection, Json TargetState, Json WireBatch, Json DeploymentResult}.
Context (b64_decode : string → option (list Z)) (json_identifier : string → option string).
Context (debug : Debug).

Record PreparedDeployment := {
  pd_state : TargetState;
  pd_expected : ExpectedTarget;
  pd_left_out : list LeftOut
}.

(** The rest of a computation after a message that must have arrived. *)
Definition and_then {A B : Type} (m : stE SshSession DeploymentError (option A))
    (k : A → stE SshSession DeploymentError (option B)) : stE SshSession DeploymentError (option B) :=
  value ← m;
  match value with Some value => k value | None => mret None end.

Definition prepared_open (fuel : nat) (expected : ExpectedTarget)
  : stE SshSession DeploymentError (option PreparedDeployment) :=
  _ ← map_st_err DSsh (session_open OpenDeployer);
  let selected := selection expected in
  _ ← st_lift (validate_selection selected);
  _ ← send_transport_json selected;
  and_then (receive_transport_json fuel) (λ state,
    left_out ← st_lift (compare_target b64_decode debug state expected);
    _ ← (if st_protocol_version state <? NOT_DEPLOYED_PROTOCOL_VERSION
         then st_lift (validate_target b64_decode debug state expected) else mret tt);
    mret (Some {| pd_state := state; pd_expected := expected; pd_left_out := left_out |})).

Definition supports_generation (p : PreparedDeployment) : bool :=
  GENERATION_PROTOCOL_VERSION <=? st_protocol_version (pd_state p).
Definition supports_shared_sources (p : PreparedDeployment) : bool :=
  SHARED_SOURCE_PROTOCOL_VERSION <=? st_protocol_version (pd_state p).

(** The checks of [deploy_with_generation], and the batch it sends. *)
Definition prepared_batch (p : PreparedDeployment) (entries : list DeployEntry) (tasks : list TaskEntry)
    (generate : list GenerateEntry) (derive : list string) : result DeploymentError WireBatch :=
  _ ← guard_err (negb ((negb (bool_decide (generate = [])) || negb (bool_decide (derive = [])))
                       && negb (supports_generation p)))
        (DInvalid "target runs deployment protocol 1 and cannot generate values; rebuild it first");
  _ ← guard_err (negb (existsb (λ item, is_some (ge_shared item)) generate
                       && negb (supports_shared_sources p)))
        (DInvalid "target runs deployment protocol 2 and cannot generate a shared source; rebuild it first");
  _ ← verify_generators (pd_state p) (pd_expected p) (owned generate);
  let batch := batch (st_protocol_version (pd_state p)) entries tasks generate derive in
  _ ← validate_batch b64_decode json_identifier batch (pd_state p);
  mret batch.

Definition deploy_with_generation (fuel : nat) (p : PreparedDeployment) (entries : list DeployEntry)
    (tasks : list TaskEntry) (generate : list GenerateEntry) (derive : list string)
  : stE SshSession DeploymentError (option DeploymentResult) :=
  batch ← st_lift (prepared_batch p entries tasks generate derive);
  _ ← send_transport_json batch;
  and_then (receive_transport_json fuel) (λ result,
    _ ← map_st_err DSsh (session_close_write);
    result ← st_lift (reject_or_return result);
    mret (Some result)).

Definition deploy_with_tasks (fuel : nat) (p : PreparedDeployment) (entries : list DeployEntry)
    (tasks : list TaskEntry) := deploy_with_generation fuel p entries tasks [] [].
Definition prepared_deploy (fuel : nat) (p : PreparedDeployment) (entries : list DeployEntry) :=
  deploy_with_tasks fuel p entries [].

(** [DeploymentClient::receive_and_validate] and [deploy_with_tasks], on a
    session that is open; [state] is the client's. *)
Definition receive_and_validate (fuel : nat) (expected : ExpectedTarget)
  : stE SshSession DeploymentError (option TargetState) :=
  let selected := selection expected in
  _ ← st_lift (validate_selection selected);
  _ ← send_transport_json selected;
  and_then (receive_transport_json fuel) (λ state,
    _ ← st_lift (validate_target b64_decode debug state expected);
    mret (Some state)).

Definition client_deploy_with_tasks (fuel : nat) (state : option TargetState) (entries : list DeployEntry)
    (tasks : list TaskEntry) : stE SshSession DeploymentError (option DeploymentResult) :=
  state ← st_lift (ok_or (DInvalid "target state was not validated") state);
  let batch := batch (st_protocol_version state) entries tasks [] [] in
  _ ← st_lift (validate_batch b64_decode json_identifier batch state);
  _ ← send_transport_json batch;
  and_then (receive_transport_json fuel) (λ result,
    result ← st_lift (reject_or_return result);
    mret (Some result)).
End Prepared.
