(* ===== verification/Relay.v ===== *)
(** * The forced command of a deployment connection

    [crates/transport/src/receiver.rs]: what the login shell of the forwarding
    account accepts, which socket it connects, and the two directions of the
    relay between the SSH connection and the deployer's socket. *)
From S2P Require Import Prelude BTree Text Framing Wire Handshake Exchange.
#[local] Open Scope Z_scope.

Definition DEPLOYER_SOCKET : string := "/run/nix-secrets/deployer.sock".
Definition MANAGER_SOCKET : string := "/run/nix-secrets/manager.sock".

Inductive ReceiverError :=
| Arguments (message : string)
| RProtocol (error : FrameError)
| RIo (error : IoError)
| Disabled.

Record AllowedSockets := { as_manager : option string; as_deployer : option string }.

Definition login_shell_arguments (arguments : list string) (original_command : option string)
  : result ReceiverError (list string) :=
  if is_some_and (λ value, bool_decide (value = "-c")) (head arguments) then
    _ ← guard_err (negb (is_some_and (λ value, bool_decide (value ≠ "")) original_command))
          (Arguments "remote commands are forbidden");
    if bool_decide (arguments = ["-c"; "nix-secrets-forward-deployer"])
    then Ok ["--deployer-socket"; DEPLOYER_SOCKET]
    else if bool_decide (arguments = ["-c"; "nix-secrets-forward-manager"])
    then Ok ["--manager-socket"; MANAGER_SOCKET]
    else Err (Arguments "invalid forced-command token")
  else Ok arguments.

(** [is_absolute] and no [..] among the components. *)
Definition validate_socket_path (path : string) : result ReceiverError unit :=
  guard_err (negb (negb (starts_with "/" path) || bool_decide (".." ∈ split "/" path)))
    (Arguments "socket path must be absolute and normalized").

Fixpoint parse_loop (values : list string) (allowed : AllowedSockets) : result ReceiverError AllowedSockets :=
  match values with
  | [] => Ok allowed
  | option :: values =>
      let manager := bool_decide (option = "--manager-socket") in
      _ ← guard_err (manager || bool_decide (option = "--deployer-socket"))
            (Arguments "unknown receiver argument");
      match values with
      | [] => Err (Arguments "socket option requires a path")
      | path :: values =>
          _ ← validate_socket_path path;
          _ ← guard_err (negb (is_some (if manager then as_manager allowed else as_deployer allowed)))
                (Arguments "duplicate socket option");
          parse_loop values
            (if manager
             then {| as_manager := Some path; as_deployer := as_deployer allowed |}
             else {| as_manager := as_manager allowed; as_deployer := Some path |})
      end
  end.

Definition parse_arguments (values : list string) : result ReceiverError AllowedSockets :=
  allowed ← parse_loop values {| as_manager := None; as_deployer := None |};
  _ ← guard_err (negb (negb (is_some (as_manager allowed)) && negb (is_some (as_deployer allowed))))
        (Arguments "at least one forwarding mode must be enabled");
  mret allowed.

(** The socket the first frame selects. *)
Definition select_socket (allowed : AllowedSockets) (open : Frame) : result ReceiverError string :=
  _ ← guard_err (bool_decide (fr_payload open = [])) (Arguments "open frame payload must be empty");
  path ← match fr_kind open with
         | OpenManager => Ok (as_manager allowed)
         | OpenDeployer => Ok (as_deployer allowed)
         | _ => Err (Arguments "first frame must select a forwarding mode")
         end;
  ok_or Disabled path.

(** The path that is connected, and the rest of the input. *)
Definition open_receiver (arguments : list string) : stE Reader ReceiverError string :=
  allowed ← st_lift (parse_arguments arguments);
  open ← map_st_err RProtocol read_from;
  st_lift (select_socket allowed open).

(** ** From the operator to the socket *)
(** [None]: [fuel] frames did not end the relay. *)
Fixpoint relay_requests (fuel : nat) : stE (Reader * Writer) ReceiverError (option unit) :=
  match fuel with
  | O => mret None
  | S fuel =>
      frame ← on fst (λ r s, (r, s.2)) (map_st_err RProtocol read_from);
      match fr_kind frame with
      | Data =>
          _ ← on snd (λ w s, (s.1, w)) (map_st_err RIo (write_all (fr_payload frame)));
          relay_requests fuel
      | Close =>
          _ ← st_guard (bool_decide (fr_payload frame = [])) (Arguments "invalid relay frame");
          mret (Some tt)
      | _ => st_lift (Err (Arguments "invalid relay frame"))
      end
  end.

(** ** From the socket to the operator *)
Definition BUFFER : nat := Z.to_nat (64 * 1024).

Fixpoint write_frames (parts : list (list Z)) : stE Writer ReceiverError unit :=
  match parts with
  | [] => mret tt
  | part :: parts =>
      _ ← map_st_err RProtocol (write_frame {| fr_kind := Data; fr_payload := part |});
      write_frames parts
  end.

(** The empty frame that says the socket is connected. *)
Definition acknowledge : stE Writer ReceiverError unit :=
  map_st_err RProtocol (write_frame {| fr_kind := Data; fr_payload := [] |}).

(** What arrives at once is read a buffer at a time; a [read] that fails in
    any way ends the thread. *)
Fixpoint relay_responses (s : list ReadEvent) : stE Writer ReceiverError unit :=
  match s with
  | [] | Arrives [] :: _ =>
      map_st_err RProtocol (write_frame {| fr_kind := Close; fr_payload := [] |})
  | Arrives l :: s =>
      _ ← write_frames (chunks (length l) BUFFER l);
      relay_responses s
  | IsInterrupted :: _ => st_lift (Err (RIo (OtherIo "interrupted")))
  | Breaks message :: _ => st_lift (Err (RIo (OtherIo message)))
  end.

(** How the deployer's socket is shut down when the requests end. *)
Inductive Shutdown := ShutdownWrite | ShutdownBoth.
Definition close_request (requests : result ReceiverError (option unit)) : Shutdown :=
  match requests with Ok _ => ShutdownWrite | Err _ => ShutdownBoth end.

(** What [relay_streams] returns, from what its two halves and the shutdown gave. *)
Definition relay_result (requests : result ReceiverError unit) (closed : result IoError unit)
    (response : result ReceiverError unit) : result ReceiverError unit :=
  _ ← requests;
  _ ← map_err RIo closed;
  response.
