(* ===== verification/ExchangeFacts.v ===== *)
(** * What a deployment exchange delivers *)
From S2P Require Import Prelude BTree Text Framing Wire Handshake HandshakeFacts Exchange Relay.
#[local] Open Scope Z_scope.

(** What the code relies on of [serde_json]: what it printed it parses back. *)
Class JsonOk (T : Type) `{Json T} := {
  json_round : ∀ value body, to_vec value = Ok body → from_slice body = Ok value;
  json_bytes : ∀ value body, to_vec value = Ok body → forallb is_byte body = true
}.

(** ** Streams *)
(** The bytes that arrive before a stream ends or breaks. *)
Fixpoint arrived (s : list ReadEvent) : list Z :=
  match s with
  | [] | Arrives [] :: _ | Breaks _ :: _ => []
  | Arrives l :: s => l ++ arrived s
  | IsInterrupted :: s => arrived s
  end.

(** How it ends: its end, or an error. *)
Fixpoint breaks (s : list ReadEvent) : option string :=
  match s with
  | [] | Arrives [] :: _ => None
  | Breaks message :: _ => Some message
  | Arrives _ :: s | IsInterrupted :: s => breaks s
  end.

Definition read_failure (received expected : Z) (s : list ReadEvent) : DeploymentError :=
  match breaks s with
  | None => DTruncated received expected
  | Some message => DIo (OtherIo message)
  end.

Lemma arrived_rest l s n :
  (n < length l)%nat → arrived (Arrives (drop n l) :: s) = drop n l ++ arrived s.
Proof.
  intros H. assert (length (drop n l) ≠ 0%nat) by (rewrite length_drop; lia).
  by destruct (drop n l) eqn:E.
Qed.

Lemma read_whole_enough size expected received s :
  zlen received ≤ size → size ≤ zlen received + zlen (arrived s) →
  ∃ s', read_whole size expected received s
        = (Ok (received ++ take (Z.to_nat (size - zlen received)) (arrived s)), s')
        ∧ arrived s' = drop (Z.to_nat (size - zlen received)) (arrived s).
Proof.
  revert received. induction s as [|e s IH]; intros received Hr Hs.
  { cbn [read_whole arrived] in *. unfold zlen in *. cbn in Hs.
    rewrite (proj2 (Z.leb_le _ _)) by lia. exists [].
    by rewrite take_nil, drop_nil, app_nil_r. }
  cbn [read_whole]. destruct (size <=? zlen received) eqn:El; bool_prop.
  { exists (e :: s). replace (size - zlen received) with 0 by lia. cbn [Z.to_nat].
    by rewrite take_0, drop_0, app_nil_r. }
  destruct e as [[|c l]| |message]; cbn [arrived] in *.
  - unfold zlen in *. cbn in Hs. lia.
  - rewrite zlen_app in Hs. set (k := c :: l) in *.
    assert (Hk := zlen_nonneg k). destruct (zlen k <=? size - zlen received) eqn:E; bool_prop.
    + destruct (IH (received ++ k)) as (s' & -> & Hs'); rewrite ?zlen_app; [lia..|].
      exists s'. rewrite Hs', zlen_app.
      assert (Z.to_nat (size - zlen received) = (length k + Z.to_nat (size - (zlen received + zlen k)))%nat) as ->
        by (unfold zlen in *; lia).
      rewrite take_app_add, drop_app_add. by rewrite <- (assoc app).
    + assert (Z.to_nat (size - zlen received) < length k)%nat by (unfold zlen in *; lia).
      eexists. rewrite take_app_le, drop_app_le by lia. split; [done|]. by apply arrived_rest.
  - by apply IH.
  - unfold zlen in *. cbn in Hs. lia.
Qed.

Lemma read_whole_short size expected received s :
  zlen received ≤ size → zlen received + zlen (arrived s) < size →
  (read_whole size expected received s).1 = Err (read_failure (zlen received + zlen (arrived s)) expected s).
Proof.
  unfold read_failure. revert received. induction s as [|e s IH]; intros received Hr Hs.
  { cbn [read_whole arrived breaks] in *. unfold zlen in *. cbn in *.
    rewrite (proj2 (Z.leb_gt _ _)) by lia. cbn. do 3 f_equal. lia. }
  cbn [read_whole]. assert (Ha := zlen_nonneg (arrived (e :: s))).
  rewrite (proj2 (Z.leb_gt _ _)) by lia.
  destruct e as [[|c l]| |message]; cbn [arrived breaks] in *.
  - cbn. do 3 f_equal. unfold zlen. cbn. lia.
  - rewrite zlen_app in *. set (k := c :: l) in *. assert (Hk := zlen_nonneg (arrived s)).
    rewrite (proj2 (Z.leb_le _ _)) by lia.
    rewrite IH; rewrite ?zlen_app; [|lia..]. by replace (zlen received + zlen k + zlen (arrived s))
      with (zlen received + (zlen k + zlen (arrived s))) by lia.
  - by apply IH.
  - done.
Qed.

Lemma zlen_be_bytes n z : zlen (be_bytes n z) = Z.of_nat n.
Proof. unfold zlen. by rewrite length_be_bytes. Qed.

(** ** Messages *)
Section Messages.
Context {T : Type} `{Json T} `{!JsonOk T}.

Lemma encode_json_parts (value : T) wire :
  encode_json value = Ok wire →
  ∃ body, wire = be_bytes 4 (zlen body) ++ body ∧ from_slice body = Ok value
          ∧ zlen body ≤ MAX_DEPLOYMENT_JSON ∧ be_value (be_bytes 4 (zlen body)) = zlen body
          ∧ zlen wire = zlen body + 4.
Proof.
  unfold encode_json. intros (body & Hb & Hg)%bind_ok. apply guard_bind_ok in Hg as [Hl Hw].
  assert (wire = be_bytes 4 (zlen body) ++ body) as -> by (by injection Hw). clear Hw.
  exists body. destruct (to_vec value) eqn:Ev; [|done]. injection Hb as ->. bool_prop.
  assert (Hn := zlen_nonneg body). rewrite zlen_app, zlen_be_bytes.
  repeat split; [by apply json_round|done| |lia].
  apply be_value_bytes_id. unfold MAX_DEPLOYMENT_JSON in Hl. cbn. lia.
Qed.

Lemma read_wire_json_ok (value : T) wire s rest :
  encode_json value = Ok wire → arrived s = wire ++ rest →
  ∃ s', read_wire_json s = (Ok value, s') ∧ arrived s' = rest.
Proof.
  intros (body & -> & Hf & Hl & Hv & _)%encode_json_parts Hs.
  assert (Hn := zlen_nonneg body).
  destruct (read_whole_enough 4 4 [] s) as (s1 & H1 & Ha1).
  { unfold zlen. cbn. lia. } { rewrite Hs, !zlen_app, zlen_be_bytes. assert (Hr := zlen_nonneg rest). unfold zlen at 1. cbn [length]. lia. }
  change (Z.to_nat (4 - zlen (@nil Z))) with 4%nat in H1, Ha1. cbn [app] in H1.
  rewrite Hs, <- (assoc app), take_app_length' in H1 by (by rewrite length_be_bytes).
  rewrite Hs, <- (assoc app), drop_app_length' in Ha1 by (by rewrite length_be_bytes).
  destruct (read_whole_enough (zlen body) (zlen body + 4) [] s1) as (s2 & H2 & Ha2).
  { done. } { rewrite Ha1, zlen_app. assert (Hr := zlen_nonneg rest). unfold zlen in *. cbn. lia. }
  assert (Z.to_nat (zlen body - zlen (@nil Z)) = length body) as Hlen by (unfold zlen; cbn [length]; lia).
  rewrite Hlen, Ha1 in H2, Ha2. cbn [app] in H2.
  rewrite take_app_length in H2. rewrite drop_app_length in Ha2.
  exists s2. split; [|done]. unfold read_wire_json, mbind, stE_bind, map_st_err, st_guard, st_lift.
  rewrite H1, Hv. rewrite (proj2 (Z.leb_le _ _)) by done. cbn [guard_err]. rewrite H2.
  cbn [map_err]. by rewrite Hf.
Qed.

(** The length the first four bytes of a message announce. *)
Definition announced (l : list Z) : Z := be_value (take 4 l).

(** A message that the stream ends in is refused with exactly the bytes of it
    that arrived and the bytes it should have had, and it never parses. *)
Lemma read_wire_json_truncated s received expected :
  (read_wire_json (T:=T) s).1 = Err (DTruncated received expected) →
  received = zlen (arrived s) ∧ received < expected
  ∧ (expected = 4 ∨ 4 ≤ received ∧ expected = announced (arrived s) + 4).
Proof.
  unfold read_wire_json, mbind, stE_bind, map_st_err, st_guard, st_lift.
  assert (zlen (@nil Z) = 0) as Hz by done. assert (Ha := zlen_nonneg (arrived s)).
  destruct (decide (4 ≤ zlen (arrived s))) as [H4|H4].
  - destruct (read_whole_enough 4 4 [] s) as (s1 & -> & Ha1); [rewrite Hz; lia..|].
    change (Z.to_nat (4 - zlen (@nil Z))) with 4%nat in *. cbn [app].
    destruct (be_value _ <=? _) eqn:El; cbn [guard_err]; [|done].
    assert (zlen (arrived s1) = zlen (arrived s) - 4) as Hl1.
    { rewrite Ha1. unfold zlen in *. rewrite length_drop. lia. }
    fold (announced (arrived s)) in *. set (n := announced (arrived s)) in *. clearbody n.
    assert (zlen (@nil Z) ≤ n ∨ n < 0) as [Hn|Hn] by (rewrite Hz; lia).
    + destruct (decide (n ≤ zlen (@nil Z) + zlen (arrived s1))) as [Hle|Hgt].
      * destruct (read_whole_enough n (n + 4) [] s1) as (s2 & -> & _); [done..|]. cbn [map_err].
        by destruct (from_slice _).
      * assert (Hsh := read_whole_short n (n + 4) [] s1 Hn ltac:(lia)).
        destruct (read_whole n (n + 4) [] s1) as [r s2]. cbn in Hsh. subst r. cbn [map_err fst].
        unfold read_failure. rewrite Hz in *. destruct (breaks s1); [done|]. intros [= <- <-]. lia.
    + destruct s1; cbn [read_whole]; rewrite (proj2 (Z.leb_le _ _)) by lia; cbn [map_err];
        by destruct (from_slice _).
  - assert (Hsh := read_whole_short 4 4 [] s ltac:(lia) ltac:(lia)).
    destruct (read_whole 4 4 [] s) as [r s2]. cbn in Hsh. subst r. cbn [fst].
    unfold read_failure. rewrite Hz. destruct (breaks s); [done|]. intros [= <- <-]. lia.
Qed.
End Messages.

(** ** Frames *)
Definition wire_of (f : Frame) : list Z :=
  MAGIC ++ [kind_byte (fr_kind f)] ++ be_bytes 4 (zlen (fr_payload f)) ++ fr_payload f.
Definition data (payload : list Z) : Frame := {| fr_kind := Data; fr_payload := payload |}.
Definition data_bytes (parts : list (list Z)) : list Z := mjoin ((λ p, wire_of (data p)) <$> parts).

(** Payloads a frame can carry, none of them empty. *)
Definition pieces (parts : list (list Z)) : Prop :=
  Forall (λ p, p ≠ [] ∧ zlen p ≤ MAX_FRAME_BYTES) parts.

Lemma write_to_ok f : zlen (fr_payload f) ≤ MAX_FRAME_BYTES → write_to f = Ok (wire_of f).
Proof. intros H. unfold write_to. by rewrite (proj2 (Z.ltb_ge _ _)). Qed.

Lemma read_frame f rest e :
  zlen (fr_payload f) ≤ MAX_FRAME_BYTES →
  read_from {| rd_bytes := wire_of f ++ rest; rd_end := e |} =
    (Ok f, {| rd_bytes := rest; rd_end := e |}).
Proof. intros H. apply frame_read_back. by apply write_to_ok. Qed.

Lemma chunks_spec fuel size l :
  (0 < size)%nat → (length l ≤ fuel)%nat →
  mjoin (chunks fuel size l) = l
  ∧ Forall (λ p, p ≠ [] ∧ (length p ≤ size)%nat) (chunks fuel size l).
Proof.
  intros Hs. revert l. induction fuel as [|fuel IH]; intros l Hl.
  { destruct l; [|cbn in Hl; lia]. by split; [|constructor]. }
  cbn [chunks]. destruct l as [|c l]; [by split; [|constructor]|].
  destruct size as [|size]; [lia|].
  destruct (IH (drop (S size) (c :: l))) as [Hj Hf].
  { rewrite length_drop. cbn in *. lia. }
  split.
  - change (take (S size) (c :: l) ++ mjoin (chunks fuel (S size) (drop (S size) (c :: l))) = c :: l).
    rewrite Hj. apply take_drop.
  - constructor; [|done]. split; [done|]. rewrite length_take. lia.
Qed.

Lemma chunks_pieces size l :
  (0 < size)%nat → Z.of_nat size ≤ MAX_FRAME_BYTES →
  pieces (chunks (length l) size l) ∧ mjoin (chunks (length l) size l) = l.
Proof.
  intros Hs Hm. destruct (chunks_spec (length l) size l Hs) as [Hj Hf]; [done|]. split; [|done].
  eapply Forall_impl; [exact Hf|]. intros p [? ?]. split; [done|]. unfold zlen. lia.
Qed.

(** ** Sessions *)
Definition open_writer (out : list Z) : Writer := {| wr_bytes := out; wr_room := None |}.
Definition session (stderr destination : string) (fin : option string) (out inp : list Z) : SshSession :=
  {| sn_input := open_writer out; sn_output := {| rd_bytes := inp; rd_end := fin |};
     sn_stderr := stderr; sn_destination := destination |}.

Lemma write_frame_ok f out :
  zlen (fr_payload f) ≤ MAX_FRAME_BYTES →
  write_frame f (open_writer out) = (Ok tt, open_writer (out ++ wire_of f)).
Proof.
  intros H. unfold write_frame, mbind, stE_bind, st_lift. by rewrite write_to_ok.
Qed.

Section Session.
Context (stderr destination : string) (fin : option string).
#[local] Notation sn := (session stderr destination fin).

Lemma session_write_ok f out inp :
  zlen (fr_payload f) ≤ MAX_FRAME_BYTES →
  session_write f (sn out inp) = (Ok tt, sn (out ++ wire_of f) inp).
Proof.
  intros H. unfold session_write. change (sn_input (sn out inp)) with (open_writer out).
  by rewrite write_frame_ok.
Qed.

Lemma session_receive_ok f out inp :
  zlen (fr_payload f) ≤ MAX_FRAME_BYTES →
  session_receive (sn out (wire_of f ++ inp)) = (Ok f, sn out inp).
Proof.
  intros H. unfold session_receive.
  change (sn_output (sn out (wire_of f ++ inp)))
    with {| rd_bytes := wire_of f ++ inp; rd_end := fin |}.
  by rewrite read_frame.
Qed.

Lemma send_each_ok parts out inp :
  pieces parts → send_each parts (sn out inp) = (Ok tt, sn (out ++ data_bytes parts) inp).
Proof.
  intros Hp. revert out. induction Hp as [|p parts [_ Hp] _ IH]; intros out.
  { unfold data_bytes. cbn. by rewrite app_nil_r. }
  cbn [send_each]. unfold mbind at 1, stE_bind at 1, send_frame at 1, session_frame_io.
  unfold mbind, stE_bind, st_guard, st_lift, map_st_err, session_send. rewrite bool_decide_true by done.
  cbn [guard_err]. change {| fr_kind := Data; fr_payload := p |} with (data p).
  rewrite session_write_ok by done. cbn [map_err]. rewrite IH, <- (assoc app). done.
Qed.

Lemma receive_frame_ok p out inp :
  zlen p ≤ MAX_FRAME_BYTES →
  receive_frame (sn out (wire_of (data p) ++ inp)) = (Ok (data p), sn out inp).
Proof.
  intros H. unfold receive_frame, session_frame_io, map_st_err.
  by rewrite (session_receive_ok (data p)).
Qed.

Section Transport.
Context {T : Type} `{Json T} `{!JsonOk T}.

Definition sent (wire : list Z) : list Z :=
  data_bytes (chunks (length wire) (Z.to_nat MAX_FRAME_BYTES) wire).

Lemma send_transport_ok (value : T) wire out inp :
  encode_json value = Ok wire →
  send_transport_json value (sn out inp) = (Ok tt, sn (out ++ sent wire) inp).
Proof.
  intros Hw. unfold send_transport_json, mbind, stE_bind, st_lift. rewrite Hw.
  apply send_each_ok. apply chunks_pieces; unfold MAX_FRAME_BYTES; lia.
Qed.

(** A part of a message: more is asked for until it is all there. *)
Lemma collect_frame_part (value : T) wire got p rest :
  encode_json value = Ok wire → wire = got ++ p ++ rest →
  collect_frame got (data p) =
    Ok (got ++ p, if bool_decide (rest = []) then Some value else None).
Proof.
  intros (body & -> & Hf & Hl & Hv & Hlen)%encode_json_parts Hw.
  assert (Hn := zlen_nonneg rest). assert (Hm := zlen_nonneg body).
  assert (zlen (got ++ p) + zlen rest = zlen body + 4) as Htotal.
  { rewrite <- Hlen, Hw. rewrite (assoc app), (zlen_app _ rest). done. }
  unfold collect_frame. cbn [data fr_kind fr_payload]. rewrite bool_decide_true by done.
  cbn [guard_err mbind result_bind]. rewrite <- zlen_app.
  assert (usize_max `min` zlen (got ++ p) <=? MAX_DEPLOYMENT_JSON + 4 = true) as ->.
  { apply Z.leb_le, Z.min_le_iff. right. lia. }
  cbn [guard_err mbind result_bind].
  destruct (4 <=? zlen (got ++ p)) eqn:E4; bool_prop.
  2:{ rewrite bool_decide_false; [done|]. intros ->. unfold zlen in *. cbn in *. lia. }
  assert (got ++ p = be_bytes 4 (zlen body) ++ drop 4 (got ++ p)) as Hsplit.
  { rewrite <- (take_drop 4 (got ++ p)) at 1. f_equal.
    assert (take 4 (got ++ p ++ rest) = take 4 (got ++ p)) as <-.
    { rewrite (assoc app). apply take_app_le. unfold zlen in *. lia. }
    rewrite <- Hw. apply take_app_length'. by rewrite length_be_bytes. }
  assert (take 4 (got ++ p) = be_bytes 4 (zlen body)) as ->.
  { rewrite Hsplit. apply take_app_length'. by rewrite length_be_bytes. }
  rewrite Hv, (proj2 (Z.leb_le _ _)) by done. cbn [guard_err mbind result_bind].
  destruct (zlen (got ++ p) =? zlen body + 4) eqn:Ee; bool_prop.
  - assert (rest = []) as ->.
    { destruct rest; [done|]. rewrite zlen_cons in *. assert (Hr := zlen_nonneg rest). lia. }
    rewrite app_nil_r in Hw. rewrite <- Hw, drop_app_length' by (by rewrite length_be_bytes).
    by rewrite Hf.
  - rewrite bool_decide_false by (intros ->; unfold zlen in *; cbn in *; lia).
    rewrite (proj2 (Z.ltb_ge _ _)) by lia. done.
Qed.

Lemma receive_loop_ok (value : T) wire parts got fuel out inp :
  encode_json value = Ok wire → pieces parts → parts ≠ [] → got ++ mjoin parts = wire →
  (length parts ≤ fuel)%nat →
  receive_loop fuel got (sn out (data_bytes parts ++ inp)) = (Ok (Some value), sn out inp).
Proof.
  intros Hw Hp. revert got fuel. induction Hp as [|p parts [_ Hp] Hps IH]; intros got fuel Hne Hg Hf; [done|].
  destruct fuel as [|fuel]; [cbn in Hf; lia|]. cbn [receive_loop].
  unfold mbind, stE_bind. change (data_bytes (p :: parts)) with (wire_of (data p) ++ data_bytes parts).
  rewrite <- (assoc app), receive_frame_ok by done. unfold st_lift.
  rewrite (collect_frame_part value wire got p (mjoin parts)) by done.
  case_bool_decide as Er.
  - assert (parts = []) as ->; [|done]. destruct Hps as [|q qs [Hq _] _]; [done|].
    exfalso. by destruct q.
  - apply IH; [by intros ->|by rewrite <- (assoc app)|cbn in Hf; lia].
Qed.

Lemma receive_transport_ok (value : T) wire parts fuel out inp :
  encode_json value = Ok wire → pieces parts → mjoin parts = wire → (length parts ≤ fuel)%nat →
  receive_transport_json fuel (sn out (data_bytes parts ++ inp)) = (Ok (Some value), sn out inp).
Proof.
  intros Hw Hp Hj Hf. apply (receive_loop_ok value wire); try done.
  intros ->. apply encode_json_parts in Hw as (? & _ & _ & _ & _ & Hlen). rewrite <- Hj in Hlen.
  assert (Hx := zlen_nonneg x). unfold zlen in *. cbn in *. lia.
Qed.
End Transport.
End Session.

Lemma write_wire_json_ok {T} `{Json T} (value : T) wire out :
  encode_json value = Ok wire →
  write_wire_json value (open_writer out) = (Ok tt, open_writer (out ++ wire)).
Proof. intros Hw. unfold write_wire_json, mbind, stE_bind, st_lift. by rewrite Hw. Qed.

(** ** The target's side *)
Section Serve.
Context `{Json DeploymentSelection, Json TargetState, Json WireBatch, Json DeploymentResult}.
Context (b64_decode : string → option (list Z)) (json_identifier : string → option string).
Context {W : Type} (apply : WireBatch → stE W string AppliedOutput).

Notation served i o w := {| sv_input := i; sv_output := o; sv_world := w |}.

(** What the target's part of a deployment may do to the machine, whatever
    arrives and whatever breaks: nothing, or one application of one batch
    that passed every check against the state that was selected from its own
    by the selection that arrived before it. *)
Inductive target_transaction (state : TargetState) (w : W) : W → Prop :=
| nothing_applied : target_transaction state w w
| one_applied selection selected batch :
    validate_server_state b64_decode state = Ok tt →
    select_state state selection = Ok selected →
    check_batch b64_decode json_identifier selection selected batch = Ok tt →
    target_transaction state w (apply batch w).2.

Lemma input_world {A} (m : stE (list ReadEvent) DeploymentError A) (s : @Served W) :
  sv_world (input m s).2 = sv_world s.
Proof. unfold input, on. by destruct (m (sv_input s)). Qed.

Lemma output_world (m : stE Writer DeploymentError unit) (s : @Served W) :
  sv_world (output m s).2 = sv_world s.
Proof. unfold output, on. by destruct (m (sv_output s)). Qed.

Lemma write_not_truncated {T} `{Json T} (value : T) out received expected :
  (write_wire_json value out).1 ≠ Err (DTruncated received expected).
Proof.
  unfold write_wire_json, encode_json, mbind, stE_bind, st_lift, map_st_err, result_bind, guard_err, map_err.
  destruct (to_vec value) as [body|]; [|done]. destruct (_ <=? _); [|done]. cbn [mret result_ret].
  destruct (write_all _ out) as [[[]|] ?]; done.
Qed.


Context `{!JsonOk DeploymentSelection, !JsonOk WireBatch}.

(** The target's part of a deployment that is not interrupted. *)
Lemma serve_ok state selection selected batch m1 m2 m3 m4 events out w :
  validate_server_state b64_decode state = Ok tt →
  select_state state selection = Ok selected →
  check_batch b64_decode json_identifier selection selected batch = Ok tt →
  encode_json selection = Ok m1 → encode_json selected = Ok m2 → encode_json batch = Ok m3 →
  encode_json (applied_result (ge_identifier <$> wt_generate batch) (apply batch w).1) = Ok m4 →
  arrived events = m1 ++ m3 →
  ∃ rest, serve_deployment b64_decode json_identifier apply state (served events (open_writer out) w)
    = (Ok tt, served rest (open_writer (out ++ m2 ++ m4)) (apply batch w).2).
Proof.
  intros Hv Hs Hc Hm1 Hm2 Hm3 Hm4 He.
  destruct (read_wire_json_ok selection m1 events m3 Hm1 He) as (s1 & Hr1 & Ha1).
  rewrite <- (app_nil_r m3) in Ha1.
  destruct (read_wire_json_ok batch m3 s1 [] Hm3 Ha1) as (s2 & Hr2 & _).
  exists s2. unfold serve_deployment, mbind, stE_bind, st_lift. rewrite Hv.
  unfold input, output, on. cbn [sv_input sv_output sv_world]. rewrite Hr1. cbn [sv_input sv_output sv_world].
  rewrite Hs, (write_wire_json_ok selected m2) by done. cbn [sv_input sv_output sv_world].
  rewrite Hr2, Hc. cbn [sv_input sv_output sv_world].
  destruct (apply batch w) as [applied w'] eqn:Ea. cbn [fst snd] in *. cbn [sv_input sv_output sv_world].
  by rewrite (write_wire_json_ok _ m4), <- (assoc app).
Qed.
End Serve.

(** ** The operator's batch passes the target's checks *)
Lemma select_elem {T} available identifiers (identifier : T → string) absent item :
  item ∈ (select available identifiers identifier absent).1 ↔
  item ∈ available ∧ identifier item ∈ identifiers.
Proof. cbn. by rewrite list_elem_of_In, filter_In, contains_set, <- list_elem_of_In. Qed.

Lemma select_state_ok state selection selected :
  select_state state selection = Ok selected →
  validate_selection selection = Ok tt
  ∧ st_protocol_version selected = st_protocol_version state
  ∧ (∀ t, t ∈ st_secrets selected ↔ t ∈ st_secrets state ∧ ts_identifier t ∈ sl_identifiers selection)
  ∧ (∀ t, t ∈ st_tasks selected ↔ t ∈ st_tasks state ∧ tt_identifier t ∈ sl_task_identifiers selection).
Proof.
  unfold select_state. intros [Hv H]%then_ok.
  destruct (select (st_secrets state) _ _ _) as [secrets absent] eqn:Es.
  destruct (select (st_tasks state) _ _ _) as [tasks absent'] eqn:Et.
  injection H as <-. cbn. repeat (split; [done|]). split; intros t.
  - rewrite <- (select_elem (st_secrets state) (sl_identifiers selection) ts_identifier []).
    by rewrite Es.
  - rewrite <- (select_elem (st_tasks state) (sl_task_identifiers selection) tt_identifier absent).
    by rewrite Et.
Qed.

Lemma server_version b64_decode state :
  validate_server_state b64_decode state = Ok tt → st_protocol_version state = DEPLOYMENT_PROTOCOL_VERSION.
Proof. unfold validate_server_state. intros [Hg _]%guard_bind_ok. bool_prop. by destruct Hg. Qed.

Section Accepted.
Context (b64_decode : string → option (list Z)) (json_identifier : string → option string).

Lemma prepared_batch_ok p entries tasks generate derive b :
  prepared_batch b64_decode json_identifier p entries tasks generate derive = Ok b →
  b = batch (st_protocol_version (pd_state p)) entries tasks generate derive
  ∧ valid_batch b64_decode json_identifier b (pd_state p)
  ∧ verify_generators (pd_state p) (pd_expected p) (owned generate) = Ok tt.
Proof.
  unfold prepared_batch. intros [_ H]%guard_bind_ok. apply guard_bind_ok in H as [_ H].
  apply then_ok in H as [Hg H]. apply then_ok in H as [Hv [= <-]].
  split; [done|]. split; [by apply validate_batch_ok|done].
Qed.

Lemma prepared_batch_passes target expected selected left_out entries tasks generate derive b :
  validate_server_state b64_decode target = Ok tt →
  select_state target (selection expected) = Ok selected →
  prepared_batch b64_decode json_identifier
    {| pd_state := selected; pd_expected := expected; pd_left_out := left_out |}
    entries tasks generate derive = Ok b →
  check_batch b64_decode json_identifier (selection expected) selected b = Ok tt.
Proof.
  intros Hs Hsel Hb. apply server_version in Hs.
  apply select_state_ok in Hsel as (_ & Hv & Hsec & Htask). rewrite Hs in Hv.
  apply prepared_batch_ok in Hb as (Hb & Hok & _). cbn [pd_state] in *.
  assert (wt_version b = DEPLOYMENT_PROTOCOL_VERSION) as Hbv by (by rewrite Hb).
  unfold check_batch. rewrite Hbv. cbn [guard_err mbind result_bind]. apply then_ok.
  split; [by cbn|]. cbn [Z.leb]. apply then_ok. split.
  { apply require_subset_ok. split; [apply (vb_requested _ _ _ _ Hok)|].
    intros i Hi. apply (vb_declared _ _ _ _ Hok) in Hi.
    apply list_elem_of_fmap in Hi as (t & -> & Ht). by apply Hsec in Ht as [_ ?]. }
  apply then_ok. split.
  { apply require_subset_ok. split; [apply (vb_requested_tasks _ _ _ _ Hok)|].
    intros i Hi. apply (vb_declared_tasks _ _ _ _ Hok) in Hi.
    apply list_elem_of_fmap in Hi as (t & -> & Ht). by apply Htask in Ht as [_ ?]. }
  apply validate_batch_ok.
  assert (with_version DEPLOYMENT_PROTOCOL_VERSION selected = selected) as ->; [|done].
  rewrite <- Hv. by destruct selected.
Qed.
End Accepted.

(** ** The relay *)
Definition open_frame : Frame := {| fr_kind := OpenDeployer; fr_payload := [] |}.
Definition close_frame : Frame := {| fr_kind := Close; fr_payload := [] |}.

(** A stream the relay can read to its end. *)
Definition quiet (events : list ReadEvent) : Prop := Forall (λ e, ∃ l, l ≠ [] ∧ e = Arrives l) events.

Lemma data_bytes_app parts parts' : data_bytes (parts ++ parts') = data_bytes parts ++ data_bytes parts'.
Proof. unfold data_bytes. by rewrite fmap_app, join_app. Qed.

Lemma relay_requests_ok parts fuel rest fin out :
  pieces parts → (length parts < fuel)%nat →
  relay_requests fuel ({| rd_bytes := data_bytes parts ++ wire_of close_frame ++ rest; rd_end := fin |},
                       open_writer out)
    = (Ok (Some tt), ({| rd_bytes := rest; rd_end := fin |}, open_writer (out ++ mjoin parts))).
Proof.
  intros Hp. revert fuel out. induction Hp as [|p parts [_ Hp] _ IH]; intros [|fuel] out Hf; cbn in Hf; try lia.
  - unfold data_bytes. cbn [fmap list_fmap mjoin list_join app relay_requests].
    unfold mbind, stE_bind, on, map_st_err. cbn [fst snd]. rewrite read_frame by done.
    cbn [map_err fr_kind close_frame]. unfold st_guard, st_lift. rewrite bool_decide_true by done.
    cbn [guard_err snd]. by rewrite app_nil_r.
  - cbn [relay_requests]. unfold mbind at 1, stE_bind at 1, on, map_st_err. cbn [fst snd].
    change (data_bytes (p :: parts)) with (wire_of (data p) ++ data_bytes parts).
    rewrite <- (assoc app), read_frame by done. cbn [map_err data fr_kind fr_payload].
    unfold mbind, stE_bind. cbn [snd open_writer write_all wr_room wr_bytes map_err fst].
    change {| wr_bytes := out ++ p; wr_room := None |} with (open_writer (out ++ p)).
    rewrite IH by lia. by rewrite <- (assoc app).
Qed.

Lemma write_frames_ok parts out :
  pieces parts → write_frames parts (open_writer out) = (Ok tt, open_writer (out ++ data_bytes parts)).
Proof.
  intros Hp. revert out. induction Hp as [|p parts [_ Hp] _ IH]; intros out.
  - unfold data_bytes. cbn. by rewrite app_nil_r.
  - cbn [write_frames]. unfold mbind, stE_bind, map_st_err. change {| fr_kind := Data; fr_payload := p |} with (data p).
    rewrite write_frame_ok by done. cbn [map_err]. rewrite IH, <- (assoc app). done.
Qed.

Lemma data_bytes_length parts : (length parts ≤ length (data_bytes parts))%nat.
Proof.
  induction parts as [|p parts IH]; [done|].
  change (data_bytes (p :: parts)) with (wire_of (data p) ++ data_bytes parts).
  rewrite length_app. unfold wire_of. rewrite !length_app. cbn. lia.
Qed.

Lemma pieces_length parts : pieces parts → (length parts ≤ length (mjoin parts))%nat.
Proof.
  induction 1 as [|p parts [Hp _] _ IH]; [done|].
  change (mjoin (p :: parts)) with (p ++ mjoin parts). rewrite length_app.
  destruct p; [done|]. cbn. lia.
Qed.

(** The pieces the relay makes of what it reads. *)
Definition relayed (events : list ReadEvent) : list (list Z) :=
  mjoin ((λ e, match e with Arrives l => chunks (length l) BUFFER l | _ => [] end) <$> events).

Lemma relayed_ok events :
  quiet events → pieces (relayed events) ∧ mjoin (relayed events) = arrived events.
Proof.
  intros Hq. induction Hq as [|e events (l & Hl & ->) _ [IH1 IH2]]; [by split; [constructor|]|].
  change (relayed (Arrives l :: events)) with (chunks (length l) BUFFER l ++ relayed events).
  destruct (chunks_pieces BUFFER l) as [Hp Hj]; [unfold BUFFER; lia|unfold BUFFER, MAX_FRAME_BYTES; lia|].
  split; [by apply Forall_app|]. rewrite join_app, Hj, IH2. by destruct l.
Qed.

Lemma relay_responses_ok events out :
  quiet events →
  relay_responses events (open_writer out)
    = (Ok tt, open_writer (out ++ data_bytes (relayed events) ++ wire_of close_frame)).
Proof.
  intros Hq. revert out. induction Hq as [|e events (l & Hl & ->) _ IH]; intros out.
  - cbn [relay_responses]. unfold map_st_err. fold close_frame. by rewrite write_frame_ok.
  - change (relayed (Arrives l :: events)) with (chunks (length l) BUFFER l ++ relayed events).
    destruct (chunks_pieces BUFFER l) as [Hp _]; [unfold BUFFER; lia|unfold BUFFER, MAX_FRAME_BYTES; lia|].
    assert (relay_responses (Arrives l :: events) =
      (_ ← write_frames (chunks (length l) BUFFER l); relay_responses events)) as -> by (by destruct l).
    unfold mbind, stE_bind. rewrite write_frames_ok by done. rewrite IH, data_bytes_app.
    by rewrite <- !(assoc app).
Qed.

(** ** The operator's side *)
Section Operator.
Context `{Json DeploymentSelection, Json TargetState, Json WireBatch, Json DeploymentResult}.
Context `{!JsonOk DeploymentSelection, !JsonOk TargetState, !JsonOk WireBatch, !JsonOk DeploymentResult}.
Context (b64_decode : string → option (list Z)) (json_identifier : string → option string).
Context (debug : Debug).

(** What the operator is told of the target's answer. *)
Definition outcome (result : DeploymentResult) : Prelude.result DeploymentError (option DeploymentResult) :=
  match result with Rejected message => Err (DRejected message) | Applied _ => Ok (Some result) end.

(** One deployment: open, compare, send. *)
Definition run_operator (fuel : nat) (expected : ExpectedTarget) (entries : list DeployEntry)
    (tasks : list TaskEntry) (generate : list GenerateEntry) (derive : list string) :=
  and_then (prepared_open b64_decode debug fuel expected) (λ p,
    deploy_with_generation b64_decode json_identifier fuel p entries tasks generate derive).

Section Run.
Context (stderr destination : string) (fin : option string).
#[local] Notation sn := (session stderr destination fin).

Lemma prepared_open_ok expected state left_out m1 m2 parts fuel out inp :
  validate_selection (selection expected) = Ok tt →
  NOT_DEPLOYED_PROTOCOL_VERSION ≤ st_protocol_version state →
  compare_target b64_decode debug state expected = Ok left_out →
  encode_json (selection expected) = Ok m1 → encode_json state = Ok m2 →
  pieces parts → mjoin parts = m2 → (length parts ≤ fuel)%nat →
  prepared_open b64_decode debug fuel expected
      (sn out (wire_of (data []) ++ data_bytes parts ++ inp))
    = (Ok (Some {| pd_state := state; pd_expected := expected; pd_left_out := left_out |}),
       sn (out ++ wire_of open_frame ++ sent m1) inp).
Proof.
  intros Hs Hv Hc Hm1 Hm2 Hp Hj Hf.
  assert (session_open OpenDeployer (sn out (wire_of (data []) ++ data_bytes parts ++ inp))
          = (Ok tt, sn (out ++ wire_of open_frame) (data_bytes parts ++ inp))) as Hopen.
  { unfold session_open, mbind, stE_bind, st_guard, st_lift. rewrite bool_decide_false, bool_decide_true by done.
    cbn [orb guard_err]. fold open_frame. rewrite session_write_ok by done.
    rewrite session_receive_ok by done. by rewrite !bool_decide_true. }
  unfold prepared_open, and_then. unfold mbind at 1, stE_bind at 1, map_st_err at 1.
  rewrite Hopen. cbn [map_err]. unfold mbind at 1, stE_bind at 1, st_lift at 1. rewrite Hs.
  unfold mbind at 1, stE_bind at 1. rewrite (send_transport_ok _ _ _ _ m1) by done.
  unfold mbind at 1, stE_bind at 1.
  rewrite (receive_transport_ok _ _ _ state m2) by done.
  unfold mbind, stE_bind, st_lift. rewrite Hc. rewrite (proj2 (Z.ltb_ge _ _)) by done.
  by rewrite <- (assoc app).
Qed.

Lemma deploy_ok p entries tasks generate derive b m3 m4 result parts fuel out inp :
  prepared_batch b64_decode json_identifier p entries tasks generate derive = Ok b →
  encode_json b = Ok m3 → encode_json result = Ok m4 →
  pieces parts → mjoin parts = m4 → (length parts ≤ fuel)%nat →
  deploy_with_generation b64_decode json_identifier fuel p entries tasks generate derive
      (sn out (data_bytes parts ++ inp))
    = (outcome result, sn (out ++ sent m3 ++ wire_of close_frame) inp).
Proof.
  intros Hb Hm3 Hm4 Hp Hj Hf. unfold deploy_with_generation, and_then.
  unfold mbind at 1, stE_bind at 1, st_lift at 1. rewrite Hb.
  unfold mbind at 1, stE_bind at 1. rewrite (send_transport_ok _ _ _ _ m3) by done.
  unfold mbind at 1, stE_bind at 1. rewrite (receive_transport_ok _ _ _ result m4) by done.
  unfold mbind, stE_bind, st_lift, map_st_err, session_close_write. fold close_frame.
  rewrite session_write_ok by done. cbn [map_err].
  rewrite (assoc app). by destruct result.
Qed.
End Run.

(** C5: The three parties of a deployment together.  When the target's state is
    one it serves, the operator accepts what the target selects of it and has
    a batch for it, then whatever pieces the streams arrive in: the relay
    hands the target exactly the selection and the batch; the target answers
    with the selected state and with the result of applying that very batch
    once; and the operator, reading the relay's frames, is told that result
    and has sent exactly those frames.  So the exchange is one application of
    the operator's batch at the target. *)
Theorem exchange_refines_apply {W : Type} (apply : WireBatch → stE W string AppliedOutput)
    target expected selected left_out entries tasks generate derive b m1 m2 m3 m4 w fuel
    (first second : list ReadEvent) stderr destination fin :
  let result := applied_result (ge_identifier <$> wt_generate b) (apply b w).1 in
  let requests := sent m1 ++ sent m3 ++ wire_of close_frame in
  validate_server_state b64_decode target = Ok tt →
  select_state target (selection expected) = Ok selected →
  compare_target b64_decode debug selected expected = Ok left_out →
  prepared_batch b64_decode json_identifier
    {| pd_state := selected; pd_expected := expected; pd_left_out := left_out |}
    entries tasks generate derive = Ok b →
  encode_json (selection expected) = Ok m1 → encode_json selected = Ok m2 →
  encode_json b = Ok m3 → encode_json result = Ok m4 →
  quiet first → arrived first = m2 → quiet second → arrived second = m4 →
  (length requests < fuel)%nat → (length (m2 ++ m4) ≤ fuel)%nat →
  (* the relay, towards the target *)
  (∃ r, relay_requests fuel ({| rd_bytes := requests; rd_end := fin |}, open_writer [])
        = (Ok (Some tt), (r, open_writer (m1 ++ m3))))
  (* the target *)
  ∧ (∀ events, arrived events = m1 ++ m3 →
       ∃ rest, serve_deployment b64_decode json_identifier apply target
                 {| sv_input := events; sv_output := open_writer []; sv_world := w |}
               = (Ok tt, {| sv_input := rest; sv_output := open_writer (m2 ++ m4);
                            sv_world := (apply b w).2 |}))
  (* the relay and the operator *)
  ∧ (∃ answers closed, relay_responses (first ++ second) (open_writer (wire_of (data [])))
                = (Ok tt, open_writer answers)
     ∧ run_operator fuel expected entries tasks generate derive
         (session stderr destination fin [] answers)
       = (outcome result, session stderr destination fin (wire_of open_frame ++ requests) closed)).
Proof.
  intros result requests Hv Hsel Hcmp Hb Hm1 Hm2 Hm3 Hm4 Hq1 Ha1 Hq2 Ha2 Hf Hf2.
  assert (∀ m, pieces (chunks (length m) (Z.to_nat MAX_FRAME_BYTES) m)
               ∧ mjoin (chunks (length m) (Z.to_nat MAX_FRAME_BYTES) m) = m) as Hpieces.
  { intros m. apply chunks_pieces; unfold MAX_FRAME_BYTES; lia. }
  destruct (Hpieces m1) as [Hp1 Hj1], (Hpieces m3) as [Hp3 Hj3].
  split; [|split].
  - set (parts := chunks (length m1) (Z.to_nat MAX_FRAME_BYTES) m1
                   ++ chunks (length m3) (Z.to_nat MAX_FRAME_BYTES) m3).
    assert (requests = data_bytes parts ++ wire_of close_frame ++ []) as Hreq.
    { unfold requests, sent, parts. by rewrite data_bytes_app, app_nil_r, <- app_assoc. }
    assert (Hlp := data_bytes_length parts).
    rewrite Hreq in Hf |- *. rewrite length_app in Hf.
    eexists. rewrite relay_requests_ok; [|by apply Forall_app|lia].
    unfold parts. by rewrite join_app, Hj1, Hj3.
  - intros events He.
    apply (serve_ok _ _ _ target (selection expected) selected b m1 m2 m3 m4 events [] w); try done.
    by eapply prepared_batch_passes.
  - pose proof (relayed_ok first Hq1) as [Hr1 Hrj1]. pose proof (relayed_ok second Hq2) as [Hr2 Hrj2].
    pose proof (select_state_ok _ _ _ Hsel) as (Hvs & Hver & _). pose proof (server_version _ _ Hv) as Hsv.
    assert (Hall := relay_responses_ok (first ++ second) (wire_of (data []))
                      ltac:(by apply Forall_app)).
    eexists _, (wire_of close_frame). split; [exact Hall|].
    assert (relayed (first ++ second) = relayed first ++ relayed second) as ->.
    { unfold relayed. by rewrite fmap_app, join_app. }
    assert (∀ parts m, pieces parts → mjoin parts = m → (length m ≤ fuel)%nat → (length parts ≤ fuel)%nat) as Hlen.
    { intros parts m Hp <- Hm. etrans; [by apply pieces_length|done]. }
    rewrite length_app in Hf2.
    rewrite data_bytes_app, <- (assoc app). unfold run_operator, and_then at 1, mbind at 1, stE_bind at 1.
    rewrite (prepared_open_ok _ _ _ expected selected left_out m1 m2 (relayed first)); try done.
    2:{ rewrite Hver, Hsv. done. } 2:{ by rewrite Hrj1. }
    2:{ eapply Hlen; [done|by rewrite Hrj1|lia]. }
    cbn [app]. rewrite (deploy_ok _ _ _ _ _ _ _ _ b m3 m4 result); try done.
    + by rewrite Hrj2.
    + eapply Hlen; [done|by rewrite Hrj2|lia].
Qed.
End Operator.

(** ** The loops end *)
Lemma read_bytes_shrinks n r l r' :
  read_bytes n r = (Ok l, r') →
  (length (rd_bytes r') = length (rd_bytes r) - Z.to_nat n)%nat ∧ (Z.to_nat n ≤ length (rd_bytes r))%nat.
Proof.
  unfold read_bytes, read_exact. destruct (n <=? zlen (rd_bytes r)) eqn:E; cbn; [|done].
  intros [= _ <-]. cbn. rewrite length_drop. bool_prop. unfold zlen in *. lia.
Qed.

Lemma read_from_shrinks r f r' :
  read_from r = (Ok f, r') → (length (rd_bytes r') < length (rd_bytes r))%nat.
Proof.
  unfold read_from, mbind, stE_bind, st_guard, st_lift.
  destruct (read_bytes 9 r) as [[header|] r1] eqn:E1; [|done].
  apply read_bytes_shrinks in E1 as [H1 H1']. change (Z.to_nat 9) with 9%nat in *.
  destruct (guard_err _ _) as [[]|]; [|done]. destruct (kind_of _) as [kind|]; [|done].
  destruct (guard_err _ _) as [[]|]; [|done].
  destruct (read_bytes _ r1) as [[payload|] r2] eqn:E2; [|done].
  apply read_bytes_shrinks in E2 as [H2 _]. intros [= _ <-]. lia.
Qed.

Lemma receive_frame_shrinks sn f sn' :
  receive_frame sn = (Ok f, sn') →
  (length (rd_bytes (sn_output sn')) < length (rd_bytes (sn_output sn)))%nat.
Proof.
  unfold receive_frame, session_frame_io, map_st_err, session_receive.
  destruct (read_from (sn_output sn)) as [[g|] o] eqn:E; cbn; [|done]. intros [= _ <-]. cbn.
  by eapply read_from_shrinks.
Qed.

(** Neither loop that reads frames runs for ever: with more fuel than bytes
    that can still arrive, the operator's receiving and the relay's forwarding
    both end with a value or an error, however the peer frames them. *)
Theorem frame_loops_terminate {T : Type} `{Json T} fuel :
  (∀ sn, (length (rd_bytes (sn_output sn)) < fuel)%nat →
     ∀ wire, (receive_loop (T:=T) fuel wire sn).1 ≠ Ok None)
  ∧ (∀ r socket, (length (rd_bytes r) < fuel)%nat → (relay_requests fuel (r, socket)).1 ≠ Ok None).
Proof.
  split.
  - induction fuel as [|fuel IH]; intros sn Hf wire; [lia|]. cbn [receive_loop].
    unfold mbind, stE_bind, st_lift. destruct (receive_frame sn) as [[f|] sn'] eqn:E; [|done].
    apply receive_frame_shrinks in E. destruct (collect_frame wire f) as [[wire' [v|]]|]; [done| |done].
    apply IH. lia.
  - induction fuel as [|fuel IH]; intros r socket Hf; [lia|]. cbn [relay_requests].
    unfold mbind at 1, stE_bind at 1, on, map_st_err. cbn [fst snd].
    destruct (read_from r) as [[f|] r'] eqn:E; cbn [map_err]; [|done]. apply read_from_shrinks in E.
    destruct (fr_kind f); try done.
    + unfold mbind, stE_bind. destruct (write_all _ _) as [[[]|] w]; cbn; [|done]. apply IH. lia.
    + unfold mbind, stE_bind, st_guard, st_lift. by destruct (guard_err _ _) as [[]|].
Qed.
