(* ===== verification/ExchangeSample.v ===== *)
(** * A deployment of one value, evaluated *)
From S2P Require Import Prelude BTree Text Framing Wire Handshake HandshakeFacts Exchange Relay.
From S2P Require Import ExchangeFacts.
#[local] Open Scope Z_scope.

#[local] Instance target_secret_dec : EqDecision TargetSecret.
Proof. solve_decision. Defined.
#[local] Instance target_task_dec : EqDecision TargetTask.
Proof. solve_decision. Defined.
#[local] Instance target_state_dec : EqDecision TargetState.
Proof. solve_decision. Defined.
#[local] Instance selection_dec : EqDecision DeploymentSelection.
Proof. solve_decision. Defined.
#[local] Instance deploy_entry_dec : EqDecision DeployEntry.
Proof. solve_decision. Defined.
#[local] Instance task_entry_dec : EqDecision TaskEntry.
Proof. solve_decision. Defined.
#[local] Instance shared_source_dec : EqDecision SharedSource.
Proof. solve_decision. Defined.
#[local] Instance generate_entry_dec : EqDecision GenerateEntry.
Proof. solve_decision. Defined.
#[local] Instance wire_batch_dec : EqDecision WireBatch.
Proof. solve_decision. Defined.
#[local] Instance target_record_dec : EqDecision TargetRecord.
Proof. solve_decision. Defined.
#[local] Instance applied_output_dec : EqDecision AppliedOutput.
Proof. solve_decision. Defined.
#[local] Instance deployment_result_dec : EqDecision DeploymentResult.
Proof. solve_decision. Defined.

(** A codec of one value. *)
Definition one_value {T} `{EqDecision T} (value : T) (text : string) : Json T := {|
  to_vec v := if bool_decide (v = value) then Ok (bytes text) else Err "another value";
  from_slice l := if bool_decide (l = bytes text) then Ok value else Err "another text"
|}.

Lemma one_value_ok {T} `{EqDecision T} (value : T) text : @JsonOk T (one_value value text).
Proof.
  split; cbn; intros v body; case_bool_decide; try done; intros [= <-].
  - subst v. by rewrite bool_decide_true.
  - apply bytes_is_byte.
Qed.

(** ** The deployment *)
Definition file : WireDestination := {|
  wd_path := "/persistent/secrets/web/service/key"; wd_category := "service"; wd_owner := "web";
  wd_group := "web"; wd_mode := "0400"; wd_consumer_units := [] |}.
Definition declared (identifier owner : string) : TargetSecret := {|
  ts_identifier := identifier; ts_recipient_ids := ["admin"];
  ts_destination := {| wd_path := wd_path file; wd_category := wd_category file; wd_owner := owner;
                       wd_group := wd_group file; wd_mode := wd_mode file; wd_consumer_units := [] |};
  ts_public_info := None; ts_current_version_id := None; ts_generator := None; ts_derived := None |}.
Definition wanted (identifier : string) : ExpectedSecret := {|
  xs_identifier := identifier; xs_recipient_ids := ["admin"]; xs_destination := file;
  xs_public_info := None; xs_generator := None; xs_derived := None |}.

(** The host declares one value as expected, one otherwise, one the operator
    did not select, and one selected value not at all. *)
Definition host : TargetState := {|
  st_protocol_version := 5; st_hostname := "web1";
  st_secrets := [declared "web.api.key" "web"; declared "web.api.token" "root"; declared "web.api.other" "web"];
  st_tasks := []; st_absent := []; st_unselected := [] |}.
Definition operator : ExpectedTarget := {|
  xp_hostname := "web1"; xp_secrets := [wanted "web.api.key"; wanted "web.api.token"; wanted "web.api.gone"];
  xp_tasks := [] |}.
Definition chosen : TargetState := {|
  st_protocol_version := 5; st_hostname := "web1";
  st_secrets := [declared "web.api.key" "web"; declared "web.api.token" "root"];
  st_tasks := []; st_absent := ["web.api.gone"]; st_unselected := ["web.api.other"] |}.

Definition no_debug : Debug := {|
  db_string := id; db_strings := join ","; db_option_string := default "None";
  db_public_info := λ _, ""; db_bootstrap := λ _, "" |}.

Definition apart_from : list LeftOut := [
  {| lo_identifier := "web.api.gone"; lo_absent := true;
     lo_reason := "the host's current activation does not declare it" |};
  {| lo_identifier := "web.api.token"; lo_absent := false;
     lo_reason := "the host's current activation declares it differently: owner root on the host, web here" |}].

Definition entry : DeployEntry := {|
  en_identifier := "web.api.key"; en_version_id := "v1"; en_contents_base64 := "c2VjcmV0" |}.
Definition sent_batch : WireBatch := batch 5 [entry] [] [] [].
Definition decode (text : string) : option (list Z) := None.
Definition no_json (text : string) : option string := None.

(** The machine counts the batches it applied. *)
Definition count (b : WireBatch) : stE nat string AppliedOutput := λ n,
  (Ok {| ao_versions := [("web.api.key", "v1")]; ao_generated_public_keys := [];
         ao_generated_records := []; ao_not_deployed := [] |}, S n).
Definition answer : DeploymentResult :=
  applied_result (ge_identifier <$> wt_generate sent_batch) (count sent_batch 0%nat).1.

#[local] Instance selection_json : Json DeploymentSelection := one_value (selection operator) "selection".
#[local] Instance state_json : Json TargetState := one_value chosen "state".
#[local] Instance batch_json : Json WireBatch := one_value sent_batch "batch".
#[local] Instance result_json : Json DeploymentResult := one_value answer "result".
#[local] Existing Instance one_value_ok.
Definition message (text : string) : list Z := be_bytes 4 (zlen (bytes text)) ++ bytes text.

Lemma compare_target_exact_witness :
  compare_target decode no_debug chosen operator = Ok apart_from
  ∧ ∀ i, i ∈ answered_identifiers chosen → i ∈ wanted_identifiers operator.
Proof.
  split; [vm_compute; reflexivity|].
  refine (proj1 (proj2 (proj2 (compare_target_exact decode no_debug chosen operator apart_from _)))).
  vm_compute; reflexivity.
Defined.

Lemma exchange_refines_apply_witness :
  ∃ rest, serve_deployment decode no_json count host
      {| sv_input := [Arrives (message "selection"); IsInterrupted; Arrives (message "batch")];
         sv_output := open_writer []; sv_world := 0%nat |}
    = (Ok tt, {| sv_input := rest; sv_output := open_writer (message "state" ++ message "result");
                 sv_world := 1%nat |}).
Proof.
  refine (proj1 (proj2 (exchange_refines_apply decode no_json no_debug count host operator chosen apart_from
    [entry] [] [] [] sent_batch (message "selection") (message "state") (message "batch") (message "result")
    0%nat (S (length (sent (message "selection") ++ sent (message "batch") ++ wire_of close_frame)
              + length (message "state" ++ message "result")))
    [Arrives (message "state")] [Arrives (message "result")] "" "" None
    _ _ _ _ _ _ _ _ _ _ _ _ _ _)) _ _).
  9,11: by (repeat constructor; eexists; split; [|reflexivity]; discriminate).
  11,12: lia.
  all: vm_compute; reflexivity.
Defined.

(** The connection ends five bytes into a message of thirteen. *)
Lemma read_wire_json_truncated_witness :
  let s := [Arrives (take 2 (message "selection")); Arrives (take 3 (drop 2 (message "selection")))] in
  (read_wire_json (T:=DeploymentSelection) s).1 = Err (DTruncated 5 13)
  ∧ 5 = zlen (arrived s).
Proof.
  split; [vm_compute; reflexivity|].
  refine (proj1 (read_wire_json_truncated (T:=DeploymentSelection) _ 5 13 _)). vm_compute; reflexivity.
Defined.
