(* ===== verification/HostKey.v ===== *)
(** * SSH host keys

    [crates/transport/src/hostkey.rs], [hostkey/persist.rs] and the pinning
    part of [openssh.rs]: which keys of a target are looked for, when they are
    believed, what an approval pins and what is recorded.  The SSH tools, the
    clock and the network are an environment ([Runner]) with a state of its
    own; durations are nanoseconds. *)
From S2P Require Import Prelude BTree Text.
#[local] Open Scope Z_scope.

Definition MAX_DISCOVERY_ATTEMPTS : nat := 6.
Definition DISCOVERY_BUDGET : Z := secs 60.
Definition DISCOVERY_DELAY : Z := secs 2.

(** ** Keys *)
Record PresentedKey := { pk_algorithm : string; pk_encoded : string }.
#[export] Instance presented_key_eq_dec : EqDecision PresentedKey.
Proof. solve_decision. Defined.

Record KnownKey := { kn_file : string; kn_line : option Z; kn_key : PresentedKey }.
Record ChangedHostKey := {
  ch_host : string;
  ch_port : Z;
  ch_expected : list KnownKey;
  ch_offered : list PresentedKey
}.
Record HostIdentity := {
  hi_host : string;
  hi_port : Z;
  hi_keys : list PresentedKey;
  hi_other_names_with_keys : list string
}.

Inductive HostDecision := Accept | Reject.
Inductive HostKeyStatus := Known | Unknown.
#[export] Instance host_decision_eq_dec : EqDecision HostDecision.
Proof. solve_decision. Defined.
#[export] Instance status_eq_dec : EqDecision HostKeyStatus.
Proof. solve_decision. Defined.

Record HostKeyPreflight := {
  pf_identity : HostIdentity;
  pf_status : HostKeyStatus;
  pf_connection_warnings : list string;
  pf_known : list KnownKey;
  pf_known_host_lines : list string
}.

Inductive HostKeyError :=
| HkIo (message : string)
| Tool (message : string)
| NoKeys
| Changed (changed : ChangedHostKey)
| UnknownRejected.

Record KeyLine := { kl_hosts : string; kl_algorithm : string; kl_encoded : string }.

Definition same_key (k other : KeyLine) : bool :=
  bool_decide (kl_algorithm k = kl_algorithm other) && bool_decide (kl_encoded k = kl_encoded other).
Definition presented (k : KeyLine) : PresentedKey :=
  {| pk_algorithm := kl_algorithm k; pk_encoded := kl_encoded k |}.
Definition for_host (k : KeyLine) (host : string) : string :=
  host +:+ " " +:+ kl_algorithm k +:+ " " +:+ kl_encoded k.

(** The name [ssh-keygen -F] looks for. *)
Definition lookup_name (host : string) (port : Z) : string :=
  if port =? 22 then host else "[" +:+ host +:+ "]:" +:+ dec port.

(** ** Parsing what the tools print *)
Definition parse_key_line (line : string) : option KeyLine :=
  if starts_with "#" line then None
  else
    match split_whitespace line with
    | hosts :: rest =>
        if starts_with "@" hosts then None
        else match rest with
             | algorithm :: encoded :: _ =>
                 Some {| kl_hosts := hosts; kl_algorithm := algorithm; kl_encoded := encoded |}
             | _ => None
             end
    | [] => None
    end.

Definition parse_key_lines (l : list Z) : list KeyLine := omap parse_key_line (str_lines (lossy l)).

(** [rest.rsplit_once(sep)]: after the last occurrence. *)
Fixpoint after_last (sep s : string) : option string :=
  match s with
  | EmptyString => strip_prefix sep ""
  | String _ s' => match after_last sep s' with Some r => Some r | None => strip_prefix sep s end
  end.

(** [trim().parse::<usize>().ok()]. *)
Definition parse_usize (s : string) : option Z := parse_unsigned usize_max (trim_chars (chars s)).

Definition found_lines (l : list Z) : list Z :=
  omap (λ line, rest ← strip_prefix "# Host " line;
                number ← after_last "found: line " rest;
                parse_usize number) (str_lines (lossy l)).

(** ** Key types *)
Definition UNKNOWN_SCAN_TYPES : list string :=
  ["ed25519"; "ecdsa"; "rsa"; "ed25519-sk"; "ecdsa-sk"; "mldsa44-ed25519"].

(** The name of [ssh-keyscan -t] for a key algorithm. *)
Definition scan_type (algorithm : string) : option string :=
  if bool_decide (algorithm = "ssh-ed25519") then Some "ed25519"
  else if bool_decide (algorithm ∈ ["ssh-rsa"; "rsa-sha2-256"; "rsa-sha2-512"]) then Some "rsa"
  else if bool_decide (algorithm ∈ ["ecdsa-sha2-nistp256"; "ecdsa-sha2-nistp384"; "ecdsa-sha2-nistp521"])
       then Some "ecdsa"
  else if bool_decide (algorithm = "sk-ssh-ed25519@openssh.com") then Some "ed25519-sk"
  else if bool_decide (algorithm = "sk-ecdsa-sha2-nistp256@openssh.com") then Some "ecdsa-sk"
  else if bool_decide (algorithm = "ssh-mldsa44-ed25519@openssh.com") then Some "mldsa44-ed25519"
  else None.

Definition scan_types (algorithms : list string) : result HostKeyError (list string) :=
  types ← try_fold (λ types algorithm,
            key_type ← ok_or (Tool ("unsupported recorded SSH host-key algorithm: " +:+ algorithm))
                         (scan_type algorithm);
            mret (bs_insert key_type types)) [] algorithms;
  mret (bt_keys types).

(** ** The environment *)
Record Output := { ot_success : bool; ot_stdout : list Z; ot_diagnostic : string }.

Class Runner (S : Type) := {
  run : string → list string → stE S HostKeyError Output;
  run_bounded : string → list string → Z → stE S HostKeyError Output;
  (** The addresses of a name: whether each is IPv4, and its text. *)
  resolve : string → Z → S → option (list (bool * string));
  pause : Z → S → S;
  now : S → Z
}.
(** The files of the client: [Path::exists] and [fs::read], where [None] is an absent file. *)
Class KnownFiles := {
  file_exists : string → bool;
  file_read : string → result string (option (list Z))
}.

Definition aliases `{KnownFiles} (paths : list string) (keys : list KeyLine)
  : result HostKeyError (list string) :=
  names ← try_fold (λ names path,
    match file_read path with
    | Err message => Err (HkIo message)
    | Ok None => Ok names
    | Ok (Some contents) =>
        Ok (foldl (λ names line,
              if existsb (λ key, same_key key line) keys
              then foldl (λ names name, if starts_with "|" name then names else bs_insert name names)
                     names (split "," (kl_hosts line))
              else names) names (parse_key_lines contents))
    end) [] paths;
  mret (bt_keys names).

(** [sort_by(algorithm, encoded)], stable, and [dedup_by(same_key)]. *)
Definition key_order (k : KeyLine) : string * string := (kl_algorithm k, kl_encoded k).
Fixpoint insert_key (k : KeyLine) (l : list KeyLine) : list KeyLine :=
  match l with
  | [] => [k]
  | x :: l' => match kcmp (key_order k) (key_order x) with Lt => k :: l | _ => x :: insert_key k l' end
  end.
Definition sort_keys (l : list KeyLine) : list KeyLine := foldl (λ sorted k, insert_key k sorted) [] l.
Fixpoint dedup_keys (l : list KeyLine) : list KeyLine :=
  match l with
  | [] => []
  | k :: l =>
      match dedup_keys l with
      | x :: l' => if same_key k x then k :: l' else k :: x :: l'
      | [] => [k]
      end
  end.

(** [hv_route] is the endpoint of the backend route, when there is one. *)
Record HostKeyVerifier (S : Type) := {
  hv_known_hosts : list string;
  hv_ssh_keyscan : string;
  hv_ssh_keygen : string;
  hv_route : option (string → Z → stE S HostKeyError (string * Z))
}.
Arguments hv_known_hosts {S}.
Arguments hv_ssh_keyscan {S}.
Arguments hv_ssh_keygen {S}.
Arguments hv_route {S}.

Section Verifier.
Context {S : Type} `{Runner S} `{KnownFiles}.
Context (v : HostKeyVerifier S).

(** ** What is recorded *)
Definition recorded_keys (path : string) (lines : list KeyLine) (numbers : list Z) : list KnownKey :=
  imap (λ index line, {| kn_file := path; kn_line := numbers !! index; kn_key := presented line |}) lines.

Fixpoint read_recorded (lookup : string) (paths : list string) (known : list KeyLine)
    (recorded : list KnownKey) : stE S HostKeyError (list KeyLine * list KnownKey) :=
  match paths with
  | [] => mret (known, recorded)
  | path :: paths =>
      if negb (file_exists path) then read_recorded lookup paths known recorded
      else
        output ← run (hv_ssh_keygen v) ["-F"; lookup; "-f"; path];
        if ot_success output then
          let lines := parse_key_lines (ot_stdout output) in
          let numbers := found_lines (ot_stdout output) in
          read_recorded lookup paths (known ++ lines) (recorded ++ recorded_keys path lines numbers)
        else read_recorded lookup paths known recorded
  end.

(** ** Discovery *)
(** [n] attempts are left. *)
Fixpoint discover (n attempts : nat) (requested : list string) (scan_host : string) (scan_port : Z)
    (started : Z) (diagnostic : string) : stE S HostKeyError (list KeyLine) := λ s,
  let remaining := sat_sub DISCOVERY_BUDGET (now s - started) in
  let failed : result HostKeyError (list KeyLine) * S :=
    (Err (Tool ("ssh-keyscan failed after " +:+ dec (Z.of_nat attempts)
                +:+ " attempts within the 60-second discovery budget: " +:+ diagnostic)), s) in
  match n with
  | O => failed
  | Datatypes.S n =>
      if remaining <? secs 2 then failed
      else
        let key_types := if bool_decide (requested = [])
                         then nth (attempts mod length UNKNOWN_SCAN_TYPES) UNKNOWN_SCAN_TYPES ""
                         else join "," requested in
        let timeout := Z.min remaining (secs 10) in
        match run_bounded (hv_ssh_keyscan v)
                ["-T"; dec (as_secs timeout - 1); "-p"; dec scan_port; "-t"; key_types; "--"; scan_host]
                timeout s with
        | (Err error, s) => (Err error, s)
        | (Ok scan, s) =>
            let scanned := parse_key_lines (ot_stdout scan) in
            if bool_decide (scanned ≠ []) then (Ok scanned, s)
            else
              let diagnostic := if ot_success scan then "successful ssh-keyscan produced no host keys"
                                else ot_diagnostic scan in
              let delay := Z.min DISCOVERY_DELAY (sat_sub DISCOVERY_BUDGET (now s - started)) in
              let s := if bool_decide (n ≠ O) && negb (delay =? 0) then pause delay s else s in
              discover n (Datatypes.S attempts) requested scan_host scan_port started diagnostic s
        end
  end.

(** ** The direct route *)
Record Probes := { pr_observed : list bool; pr_direct : list KeyLine; pr_complete : bool }.

(** The probes of one list of key types; [done] are the flags before [targets]. *)
Fixpoint probe_targets (host : string) (port : Z) (tunneled : list KeyLine) (types : string)
    (per_probe total started : Z) (targets : list (string * string * bool)) (done : list bool)
    (direct : list KeyLine) (complete : bool) : stE S HostKeyError Probes := λ s,
  match targets with
  | [] => (Ok {| pr_observed := done; pr_direct := direct; pr_complete := complete |}, s)
  | (family, target, observed) :: rest =>
      let skip := probe_targets host port tunneled types per_probe total started rest
                    (done ++ [observed]) direct complete in
      if observed : bool then skip s
      else
        let remaining := sat_sub total (now s - started) in
        if remaining =? 0
        then (Ok {| pr_observed := done ++ (snd <$> targets); pr_direct := direct; pr_complete := complete |}, s)
        else
          let timeout := Z.min remaining per_probe in
          match run_bounded (hv_ssh_keyscan v)
                  [family; "-T"; dec (Z.max 1 (as_secs timeout)); "-p"; dec port; "-t"; types; "--"; target]
                  timeout s with
          | (Err _, s) => skip s
          | (Ok output, s) =>
              let keys := parse_key_lines (ot_stdout output) in
              if bool_decide (keys = []) then skip s
              else
                match List.find (λ key, negb (existsb (λ other, same_key other key) tunneled)) keys with
                | Some key =>
                    (Err (Tool ("SSH HOST KEY ROUTE MISMATCH for " +:+ host +:+ ":" +:+ dec port
                       +:+ ": direct and backend-tunneled " +:+ kl_algorithm key
                       +:+ " keys differ; no authenticated target connection was opened")), s)
                | None =>
                    probe_targets host port tunneled types per_probe total started rest (done ++ [true])
                      (direct ++ keys) (complete || ot_success output) s
                end
          end
  end.

Fixpoint probe_rounds (host : string) (port : Z) (tunneled : list KeyLine) (total started : Z)
    (targets : list (string * string)) (rounds : list (string * Z)) (observed : list bool)
    (direct : list KeyLine) (complete : bool) : stE S HostKeyError Probes :=
  match rounds with
  | [] => mret {| pr_observed := observed; pr_direct := direct; pr_complete := complete |}
  | (types, per_probe) :: rounds =>
      p ← probe_targets host port tunneled types per_probe total started (zip targets observed) []
            direct complete;
      probe_rounds host port tunneled total started targets rounds (pr_observed p) (pr_direct p) (pr_complete p)
  end.

Definition UNAVAILABLE : string :=
  "Direct client host-key probe unavailable; discovery and deployment use the existing backend tunnel.".
Definition PARTIAL : string :=
  "Direct client host-key probe was partial; observed keys match the tunnel, and deployment uses the existing backend tunnel.".

(** The targets, the total budget and the budget of each round. *)
Definition probe_plan (host : string) (addresses : option (list (bool * string)))
  : list (string * string) * Z * list Z :=
  match addresses with
  | Some addresses =>
      ((λ '(ipv4, text), (if ipv4 : bool then "-4" else "-6", text)) <$> addresses,
       secs 10, [millis 3000; millis 2000; millis 1000; millis 1000])
  | None => ([("-4", host); ("-6", host)], secs 3, [millis 750; millis 500; millis 125; millis 125])
  end.

Definition probe (host : string) (port : Z) (tunneled : list KeyLine) (selected : list string)
  : stE S HostKeyError Probes := λ s,
  let '(targets, total, budgets) := probe_plan host (resolve host port s) in
  probe_rounds host port tunneled total (now s) targets
    (zip [join "," selected; "ed25519,ecdsa,rsa"; "ed25519-sk,ecdsa-sk"; "mldsa44-ed25519"] budgets)
    (const false <$> targets) [] false s.

Definition compare_direct (host : string) (port : Z) (tunneled : list KeyLine)
  : stE S HostKeyError (list string) :=
  selected ← st_lift (scan_types (kl_algorithm <$> tunneled));
  p ← probe host port tunneled selected;
  mret (if bool_decide (pr_direct p = []) then [UNAVAILABLE]
        else if pr_complete p && forallb (λ key, existsb (λ other, same_key other key) (pr_direct p)) tunneled
             then [] else [PARTIAL]).

(** ** The decision *)
(** What is accepted of a scan, given what known_hosts records. *)
Definition judge (host : string) (port : Z) (lookup : string) (known : list KeyLine)
    (recorded : list KnownKey) (scanned : list KeyLine) (approved : bool) (warnings : list string)
  : result HostKeyError HostKeyPreflight :=
  let matching := List.filter (λ candidate, existsb (λ entry, same_key entry candidate) known) scanned in
  if bool_decide (known ≠ []) && bool_decide (matching = []) then
    Err (Changed {| ch_host := host; ch_port := port; ch_expected := recorded;
                    ch_offered := presented <$> dedup_keys (sort_keys scanned) |})
  else
    let accepted := dedup_keys (sort_keys
      (if bool_decide (known = []) || approved then scanned else matching)) in
    names ← aliases (hv_known_hosts v) accepted;
    mret {| pf_identity := {| hi_host := host; hi_port := port; hi_keys := presented <$> accepted;
                              hi_other_names_with_keys := names |};
            pf_status := if bool_decide (known = []) then Unknown else Known;
            pf_known := List.filter (λ entry, existsb (λ key,
                bool_decide (kl_algorithm key = pk_algorithm (kn_key entry))
                && bool_decide (kl_encoded key = pk_encoded (kn_key entry))) accepted) recorded;
            pf_connection_warnings := warnings;
            pf_known_host_lines := (λ key, for_host key lookup) <$> accepted |}.

(** What is scanned: the recorded keys, the types asked for and the endpoint
    decide it. *)
Definition endpoint_of (host : string) (port : Z) : stE S HostKeyError (string * Z) :=
  match hv_route v with Some endpoint => endpoint host port | None => mret (host, port) end.

Definition discover_from (requested : list string) (scan_host : string) (scan_port : Z)
  : stE S HostKeyError (list KeyLine) := λ s,
  discover MAX_DISCOVERY_ATTEMPTS 0 requested scan_host scan_port (now s) "no scan completed" s.

Definition scan (host : string) (port : Z) (requested : list string) : stE S HostKeyError (list KeyLine) :=
  '(scan_host, scan_port) ← endpoint_of host port;
  discover_from requested scan_host scan_port.

Definition preflight_selected_with (host : string) (port : Z) (approved : option (list PresentedKey))
  : stE S HostKeyError HostKeyPreflight :=
  let lookup := lookup_name host port in
  '(known, recorded) ← read_recorded lookup (hv_known_hosts v) [] [];
  requested ← st_lift (scan_types match approved with
                                  | Some keys => pk_algorithm <$> keys
                                  | None => kl_algorithm <$> known
                                  end);
  scanned ← scan host port requested;
  warnings ← (if is_some (hv_route v) then compare_direct host port scanned else mret []);
  st_lift (judge host port lookup known recorded scanned (is_some approved) warnings).

Definition preflight_with (host : string) (port : Z) : stE S HostKeyError HostKeyPreflight :=
  preflight_selected_with host port None.

(** [HostKeyDecision::accept_unknown] is the operator. *)
Definition verify_with (host : string) (port : Z) (accept_unknown : HostIdentity → HostDecision)
  : stE S HostKeyError (list string) :=
  preflight ← preflight_with host port;
  _ ← st_guard (negb (bool_decide (pf_status preflight = Unknown)
                      && bool_decide (accept_unknown (pf_identity preflight) = Reject)))
        UnknownRejected;
  mret (pf_known_host_lines preflight).

(** ** Scanning for approved keys *)
Section Approved.
(** [PresentedKey::describe]. *)
Context (describe : PresentedKey → string).
Context (host : string) (port : Z) (approved : HostIdentity).

Definition is_approved (key : PresentedKey) : bool := bool_decide (key ∈ hi_keys approved).

Definition pinned (current : HostKeyPreflight) : HostKeyPreflight :=
  let lookup := lookup_name host port in
  {| pf_identity := approved;
     pf_status := pf_status current;
     pf_connection_warnings := pf_connection_warnings current;
     pf_known := List.filter (λ entry, is_approved (kn_key entry)) (pf_known current);
     pf_known_host_lines :=
       (λ key, lookup +:+ " " +:+ pk_algorithm key +:+ " " +:+ pk_encoded key) <$> hi_keys approved |}.

(** The approved keys of a scan that were not observed before. *)
Definition observe (observed : list PresentedKey) (keys : list PresentedKey) : list PresentedKey :=
  foldl (λ observed key,
    if is_approved key && negb (bool_decide (key ∈ observed)) then observed ++ [key] else observed)
    observed keys.

(** [n] attempts are left after this one. *)
Fixpoint approved_attempts (n : nat) (observed : list PresentedKey) : stE S HostKeyError HostKeyPreflight :=
  current ← preflight_selected_with host port (Some (hi_keys approved));
  let keys := hi_keys (pf_identity current) in
  let complete_scan := forallb (λ key, bool_decide (key ∈ keys)) (hi_keys approved) in
  _ ← st_guard (negb (negb complete_scan && existsb (λ key, negb (is_approved key)) keys))
        (Tool "SSH host keys changed after approval; an approved key is missing or replaced; no connection was opened");
  let observed := observe observed keys in
  if forallb (λ key, bool_decide (key ∈ observed)) (hi_keys approved) then mret (pinned current)
  else
    match n with
    | O =>
        let missing := List.filter (λ key, negb (bool_decide (key ∈ observed))) (hi_keys approved) in
        st_lift (Err (Tool ("could not read all approved SSH host keys after three scans; no connection was opened; missing approved keys: "
                            +:+ join ", " (describe <$> missing))))
    | Datatypes.S n =>
        _ ← st_modify (pause (secs 1));
        approved_attempts n observed
    end.

Definition preflight_approved_with : stE S HostKeyError HostKeyPreflight :=
  _ ← st_guard (negb (negb (bool_decide (hi_host approved = host)) || negb (hi_port approved =? port)))
        (Tool "approved host-key target mismatch");
  _ ← st_guard (negb (bool_decide (hi_keys approved = []))) NoKeys;
  approved_attempts 2 [].
End Approved.
End Verifier.

(** ** Fingerprints and messages *)
Section Describe.
(** [STANDARD.decode], [STANDARD_NO_PAD.encode] and SHA-256. *)
Context (b64_decode : string → option (list Z)) (b64_nopad : list Z → string) (sha256 : list Z → list Z).

Definition key_fingerprint (encoded : string) : string :=
  match b64_decode encoded with
  | Some blob => "SHA256:" +:+ b64_nopad (sha256 blob)
  | None => "(undecodable key " +:+ encoded +:+ ")"
  end.
Definition describe (key : PresentedKey) : string :=
  pk_algorithm key +:+ " " +:+ key_fingerprint (pk_encoded key).
End Describe.

(** ** Connecting with what was verified *)
(** The key type of a known_hosts line. *)
Definition line_key_type (line : string) : string := default "" (split_whitespace line !! 1%nat).

Definition supported_algorithms (key_type : string) : option (list string) :=
  if bool_decide (key_type = "ssh-rsa") then Some ["rsa-sha2-512"; "rsa-sha2-256"]
  else if bool_decide (key_type ∈ ["ssh-ed25519"; "ecdsa-sha2-nistp256"; "ecdsa-sha2-nistp384";
         "ecdsa-sha2-nistp521"; "sk-ssh-ed25519@openssh.com"; "sk-ecdsa-sha2-nistp256@openssh.com"])
       then Some [key_type]
  else None.

Definition pinned_host_key_algorithms (lines : list string) : result HostKeyError (list string) :=
  algorithms ← try_fold (λ algorithms line,
    supported ← ok_or (Tool ("unsupported approved SSH host-key algorithm: " +:+ line_key_type line))
                  (supported_algorithms (line_key_type line));
    mret (foldl (λ algorithms a, if bool_decide (a ∈ algorithms) then algorithms else algorithms ++ [a])
            algorithms supported)) [] lines;
  _ ← guard_err (negb (bool_decide (algorithms = []))) NoKeys;
  mret algorithms.

(** The checks of [OpenSsh::connect_preflight]: the lines that are pinned. *)
Definition connect_preflight (host : string) (port : Z) (preflight : HostKeyPreflight) (unknown : HostDecision)
  : result HostKeyError (list string) :=
  _ ← guard_err (negb (negb (bool_decide (hi_host (pf_identity preflight) = host))
                       || negb (hi_port (pf_identity preflight) =? port)))
        (Tool "host-key preflight target mismatch");
  _ ← guard_err (negb (bool_decide (pf_status preflight = Unknown) && bool_decide (unknown = Reject)))
        UnknownRejected;
  _ ← pinned_host_key_algorithms (pf_known_host_lines preflight);
  mret (pf_known_host_lines preflight).

(** ** Recording what was accepted *)
Definition LIMIT : Z := 4 * 1024 * 1024.
Definition refusal (message : string) : HostKeyError :=
  Tool ("cannot save accepted SSH host key: " +:+ message).

Definition persistable_algorithms : list string :=
  ["ssh-ed25519"; "ssh-rsa"; "ecdsa-sha2-nistp256"; "ecdsa-sha2-nistp384"; "ecdsa-sha2-nistp521";
   "sk-ssh-ed25519@openssh.com"; "sk-ecdsa-sha2-nistp256@openssh.com"; "ssh-mldsa-44"].

Definition is_ascii_space (b : Z) : bool := existsb (Z.eqb b) [9; 10; 12; 13; 32].

(** The identity may be written into a known_hosts line. *)
Definition check_identity (identity : HostIdentity) : result HostKeyError unit :=
  _ ← guard_err (negb (bool_decide (hi_keys identity = []) || bool_decide (hi_host identity = "")
                       || existsb (λ b, is_ascii_space b || (b =? 0) || byte_of ",*?!|" b)
                            (bytes (hi_host identity))))
        (refusal "invalid approved host identity");
  try_each (λ key,
    guard_err (bool_decide (pk_algorithm key ∈ persistable_algorithms)
               && bool_decide (pk_encoded key ≠ "")
               && all_bytes (λ b, is_ascii_alphanumeric b || byte_of "+/=" b) (pk_encoded key))
      (refusal "invalid approved public key")) (hi_keys identity).

(** What [ssh-keygen -F] printed for one configured file; the keys it records. *)
Definition check_recorded (identity : HostIdentity) (output : Output) : result HostKeyError (list PresentedKey) :=
  if ot_success output then
    text ← ok_or (refusal "known_hosts output is not UTF-8") (from_utf8 (ot_stdout output));
    _ ← guard_err (negb (existsb (starts_with "@") (str_lines text)))
          (refusal "host has a revoked or certificate-authority entry; refusing to alter trust");
    let lines := parse_key_lines (ot_stdout output) in
    _ ← guard_err (negb (bool_decide (lines = []))) (refusal "matching known_hosts entry could not be validated");
    _ ← guard_err (forallb (λ line, bool_decide (presented line ∈ hi_keys identity)) lines)
          (refusal "a different host key is already recorded; refusing to replace it");
    mret (presented <$> lines)
  else if bool_decide (ot_diagnostic output = "exit status: 1") then Ok []
  else Err (refusal "cannot inspect existing host trust").

(** [addition.push_str(..)] for each key. *)
Definition addition_text (lookup : string) (keys : list PresentedKey) : string :=
  foldr (λ key text, lookup +:+ " " +:+ pk_algorithm key +:+ " " +:+ pk_encoded key
                       +:+ String (zb 10) text) "" keys.

(** The text appended to a file that holds [original]. *)
Definition addition (identity : HostIdentity) (recorded : list PresentedKey) (original : list Z)
  : result HostKeyError (list Z) :=
  original ← ok_or (refusal "known_hosts is not bounded UTF-8")
               (from_utf8 (take (Z.to_nat (LIMIT + 1)) original));
  _ ← guard_err (slen original <=? LIMIT) (refusal "known_hosts exceeds size limit");
  let lookup := lookup_name (hi_host identity) (hi_port identity) in
  let text := addition_text lookup (List.filter (λ key, negb (bool_decide (key ∈ recorded))) (hi_keys identity)) in
  if bool_decide (text = "") then Ok []
  else
    let text := if bool_decide (original ≠ "") && negb (ends_with (String (zb 10) "") original)
                then String (zb 10) text else text in
    _ ← guard_err (slen original + slen text <=? LIMIT) (refusal "known_hosts exceeds size limit");
    mret (bytes text).

(** [persist_accepted] once the files are open and found safe: what each
    configured file was found to record, and the bytes appended to the first. *)
Definition persist_accepted (identity : HostIdentity) (outputs : list Output) (original : list Z)
  : result HostKeyError (list Z) :=
  _ ← check_identity identity;
  recorded ← try_fold (λ recorded output, new ← check_recorded identity output; mret (recorded ++ new))
               [] outputs;
  addition identity recorded original.
