(* ===== verification/HostKeyFacts.v ===== *)
(** * What a verified host key means *)
From S2P Require Import Prelude BTree Text HostKey.
#[local] Open Scope Z_scope.

(** ** Sorting and deduplication keep the keys *)
Lemma same_key_presented k x : same_key k x = true ↔ presented k = presented x.
Proof.
  unfold same_key, presented. rewrite andb_true_iff, !bool_decide_eq_true. split; [intros [-> ->]; done|].
  by intros [= -> ->].
Qed.

Lemma insert_key_elem k l x : x ∈ insert_key k l ↔ x = k ∨ x ∈ l.
Proof.
  induction l as [|y l IH]; cbn [insert_key]; [set_solver|].
  destruct (kcmp _ _); rewrite !elem_of_cons, ?IH; naive_solver.
Qed.

Lemma sort_keys_elem l x : x ∈ sort_keys l ↔ x ∈ l.
Proof.
  unfold sort_keys. assert (∀ acc, x ∈ foldl (λ sorted k, insert_key k sorted) acc l ↔ x ∈ acc ∨ x ∈ l) as H.
  { induction l as [|k l IH]; intros acc; cbn [foldl]; [set_solver|].
    rewrite IH, insert_key_elem, elem_of_cons. naive_solver. }
  rewrite H. set_solver.
Qed.

Lemma dedup_keys_elem l p : p ∈ presented <$> dedup_keys l ↔ p ∈ presented <$> l.
Proof.
  induction l as [|k l IH]; [done|]. cbn [dedup_keys]. rewrite (fmap_cons presented k l), elem_of_cons, <- IH.
  destruct (dedup_keys l) as [|x l']; [by rewrite fmap_cons, elem_of_cons|].
  destruct (same_key k x) eqn:E; rewrite !fmap_cons, !elem_of_cons; [|done].
  apply same_key_presented in E. rewrite E. tauto.
Qed.

(** A list in which no key stands before an equal or smaller one. *)
Definition in_order (l : list KeyLine) : Prop :=
  StronglySorted (λ a b, kcmp (key_order a) (key_order b) ≠ Gt) l.

Lemma key_order_not_gt k y : kcmp (key_order k) (key_order y) ≠ Lt → kcmp (key_order y) (key_order k) ≠ Gt.
Proof. rewrite (kcmp_opp (key_order y) (key_order k)). by destruct (kcmp _ _). Qed.

Lemma insert_key_sorted k l : in_order l → in_order (insert_key k l).
Proof.
  intros Hl. induction Hl as [|y l Hl IH Hy]; cbn [insert_key]; [by repeat constructor|].
  destruct (kcmp (key_order k) (key_order y)) eqn:E.
  - constructor; [done|]. apply Forall_forall. intros x [->|Hx]%insert_key_elem.
    + apply key_order_not_gt. by rewrite E.
    + by eapply Forall_forall in Hy.
  - constructor; [by constructor|]. apply Forall_cons. split; [by rewrite E|].
    eapply Forall_impl; [exact Hy|]. cbv beta. intros x Hx Hgt.
    destruct (kcmp_spec (key_order y) (key_order x)) as [Heq|Hlt|Hgt']; try done.
    + rewrite <- Heq in Hgt. by rewrite E in Hgt.
    + assert (klt (key_order k) (key_order x)) as Hk by (by eapply kcmp_trans).
      unfold klt in Hk. by rewrite Hk in Hgt.
  - constructor; [done|]. apply Forall_forall. intros x [->|Hx]%insert_key_elem.
    + apply key_order_not_gt. by rewrite E.
    + by eapply Forall_forall in Hy.
Qed.

Lemma sort_keys_sorted l : in_order (sort_keys l).
Proof.
  unfold sort_keys. apply (foldl_inv in_order); [constructor|]. intros sorted k _. apply insert_key_sorted.
Qed.

Lemma dedup_keys_elem_sub l x : x ∈ dedup_keys l → x ∈ l.
Proof.
  revert x. induction l as [|k l IH]; intros x; [done|]. cbn [dedup_keys].
  destruct (dedup_keys l) as [|y l']; [by intros ->%list_elem_of_singleton; left|].
  destruct (same_key k y); rewrite !elem_of_cons.
  - intros [->|Hx]; [by left|right]. apply IH. by right.
  - intros [->|Hx]; [by left|right]. apply IH. by apply elem_of_cons.
Qed.

Lemma key_order_presented a b : key_order a = key_order b ↔ presented a = presented b.
Proof. unfold key_order, presented. split; intros [= -> ->]; done. Qed.

(** Sorted and without repetitions, a list of keys is strictly increasing. *)
Lemma dedup_keys_strict l : in_order l → StronglySorted klt (key_order <$> dedup_keys l).
Proof.
  induction 1 as [|k l Hl IH Hk]; [constructor|]. cbn [dedup_keys].
  assert (∀ x, x ∈ dedup_keys l → kcmp (key_order k) (key_order x) ≠ Gt) as Hle.
  { intros x Hx%dedup_keys_elem_sub. by eapply Forall_forall in Hk. }
  destruct (dedup_keys l) as [|y l'] eqn:Ed; [by repeat constructor|].
  rewrite fmap_cons in IH. inversion IH as [|? ? Hl' Hy]; subst.
  destruct (same_key k y) eqn:E.
  - apply same_key_presented, key_order_presented in E. rewrite fmap_cons, E. by constructor.
  - rewrite !fmap_cons. constructor; [by constructor|].
    assert (klt (key_order k) (key_order y)) as Hky.
    { destruct (kcmp_spec (key_order k) (key_order y)) as [Heq|Hlt|Hgt]; [|done|].
      - exfalso. apply key_order_presented, same_key_presented in Heq. by rewrite Heq in E.
      - exfalso. apply (Hle y); [by left|]. rewrite kcmp_opp. unfold klt in Hgt. by rewrite Hgt. }
    constructor; [done|]. eapply Forall_impl; [exact Hy|]. intros z Hz. by etrans.
Qed.

Definition canonical (l : list KeyLine) : list PresentedKey := presented <$> dedup_keys (sort_keys l).

Lemma canonical_elem l p : p ∈ canonical l ↔ p ∈ presented <$> l.
Proof.
  unfold canonical. rewrite dedup_keys_elem, !list_elem_of_fmap. by setoid_rewrite sort_keys_elem.
Qed.

Lemma strict_ext (l k : list (string * string)) :
  StronglySorted klt l → StronglySorted klt k → (∀ x, x ∈ l ↔ x ∈ k) → l = k.
Proof.
  intros Hl Hk Hx.
  assert (∀ m : list (string * string), bt_keys ((λ x, (x, tt)) <$> m) = m) as Hkeys.
  { intros m. unfold bt_keys. rewrite <- list_fmap_compose. apply list_fmap_id. }
  assert ((λ x, (x, tt)) <$> l = (λ x, (x, tt)) <$> k) as H.
  { apply bs_ext; unfold bt_wf; rewrite !Hkeys; done. }
  apply (f_equal bt_keys) in H. by rewrite !Hkeys in H.
Qed.

Definition order_of (p : PresentedKey) : string * string := (pk_algorithm p, pk_encoded p).
#[local] Instance order_of_inj : Inj (=) (=) order_of.
Proof. intros [] [] [= -> ->]. done. Qed.

(** Scans that present the same keys, in whatever order and however often,
    give the same identity. *)
Lemma canonical_ext l k : (∀ p, p ∈ presented <$> l ↔ p ∈ presented <$> k) → canonical l = canonical k.
Proof.
  intros H. apply (inj (fmap order_of)).
  assert (∀ m, order_of <$> canonical m = key_order <$> dedup_keys (sort_keys m)) as Ho.
  { intros m. unfold canonical. by rewrite <- list_fmap_compose. }
  apply strict_ext.
  1,2: rewrite Ho; apply dedup_keys_strict, sort_keys_sorted.
  intros x. rewrite !list_elem_of_fmap. setoid_rewrite canonical_elem. by setoid_rewrite H.
Qed.

Lemma canonical_nodup l : NoDup (canonical l).
Proof.
  apply (NoDup_fmap_1 order_of). unfold canonical. rewrite <- list_fmap_compose.
  change (order_of ∘ presented) with key_order.
  assert (Hs := dedup_keys_strict _ (sort_keys_sorted l)). revert Hs.
  generalize (key_order <$> dedup_keys (sort_keys l)). intros m Hs.
  induction Hs as [|x m Hm IH Hx]; constructor; [|done].
  intros Hin. eapply Forall_forall in Hx; [|exact Hin]. by apply klt_irrefl in Hx.
Qed.

(** ** The decision *)
Section Verifier.
Context {S : Type} `{Runner S} `{KnownFiles} (v : HostKeyVerifier S).

Definition pin_line (lookup : string) (key : PresentedKey) : string :=
  lookup +:+ " " +:+ pk_algorithm key +:+ " " +:+ pk_encoded key.

(** What the decision about a scan promises. *)
Lemma judge_ok host port lookup known recorded scanned approved warnings p :
  judge v host port lookup known recorded scanned approved warnings = Ok p →
  hi_host (pf_identity p) = host ∧ hi_port (pf_identity p) = port
  ∧ pf_connection_warnings p = warnings
  ∧ pf_known_host_lines p = pin_line lookup <$> hi_keys (pf_identity p)
  ∧ (pf_status p = Unknown ↔ known = [])
  ∧ NoDup (hi_keys (pf_identity p))
  ∧ (known = [] ∨ approved = true → hi_keys (pf_identity p) = canonical scanned)
  ∧ (∀ k, k ∈ hi_keys (pf_identity p) → k ∈ presented <$> scanned)
  ∧ (known ≠ [] → ∃ k, k ∈ presented <$> scanned ∧ k ∈ presented <$> known)
  ∧ (known ≠ [] → approved = false → ∀ k,
       k ∈ hi_keys (pf_identity p) ↔ k ∈ presented <$> scanned ∧ k ∈ presented <$> known).
Proof.
  unfold judge. set (matching := List.filter _ scanned).
  assert (∀ k, k ∈ presented <$> matching ↔ k ∈ presented <$> scanned ∧ k ∈ presented <$> known) as Hm.
  { intros k. rewrite !list_elem_of_fmap. unfold matching. split.
    - intros (x & -> & Hx). apply list_elem_of_In, filter_In in Hx as [Hx He].
      apply existsb_exists in He as (y & Hy & Hs). apply same_key_presented in Hs.
      split; [exists x|exists y]; (split; [done|by apply list_elem_of_In]).
    - intros [(x & -> & Hx) (y & Hxy & Hy)]. exists x. split; [done|].
      apply list_elem_of_In, filter_In. split; [by apply list_elem_of_In|].
      apply existsb_exists. exists y. split; [by apply list_elem_of_In|]. by apply same_key_presented. }
  destruct (bool_decide (known ≠ []) && bool_decide (matching = [])) eqn:Ec; [done|].
  set (l := if bool_decide (known = []) || approved then scanned else matching).
  intros (names & _ & [= <-])%bind_ok. cbn. fold (canonical l).
  assert (known = [] ∨ approved = true → l = scanned) as Hall.
  { unfold l. intros [->| ->]; [done|]. by rewrite orb_true_r. }
  assert (known ≠ [] → approved = false → l = matching) as Hmatch.
  { unfold l. intros Hk ->. by rewrite bool_decide_false. }
  assert (∀ k, k ∈ presented <$> l → k ∈ presented <$> scanned) as Hsub.
  { unfold l. destruct (bool_decide (known = []) || approved); [done|]. intros k Hk. by apply Hm. }
  refine (conj eq_refl (conj eq_refl (conj eq_refl (conj _ (conj _ (conj (canonical_nodup l)
    (conj _ (conj _ (conj _ _))))))))).
  - unfold canonical. by rewrite <- list_fmap_compose.
  - destruct (bool_decide_reflect (known = [])) as [Hk|Hk]; split; intros Hu; (done || discriminate Hu || contradiction).
  - intros Hk. by rewrite Hall.
  - intros k. rewrite canonical_elem. apply Hsub.
  - intros Hk. rewrite bool_decide_true in Ec by done. cbn in Ec. apply bool_decide_eq_false in Ec.
    destruct matching as [|x m]; [done|]. exists (presented x). apply Hm. by left.
  - intros Hk Ha k. by rewrite canonical_elem, Hmatch.
Qed.

(** A changed key is refused exactly when keys are recorded and none of them
    is offered; the refusal names what was recorded and what was offered. *)
Lemma judge_changed host port lookup known recorded scanned approved warnings :
  known ≠ [] → (∀ k, k ∈ presented <$> scanned → k ∉ presented <$> known) →
  judge v host port lookup known recorded scanned approved warnings =
    Err (Changed {| ch_host := host; ch_port := port; ch_expected := recorded;
                    ch_offered := canonical scanned |}).
Proof.
  intros Hk Hno. unfold judge. rewrite bool_decide_true by done. rewrite bool_decide_true; [done|].
  destruct (List.filter _ scanned) as [|x m] eqn:Ef; [done|]. exfalso.
  assert (x ∈ List.filter (λ candidate, existsb (λ entry, same_key entry candidate) known) scanned) as Hx.
  { rewrite Ef. by left. }
  apply list_elem_of_In, filter_In in Hx as [Hx (y & Hy & Hs)%existsb_exists].
  apply same_key_presented in Hs. apply (Hno (presented x)); apply list_elem_of_fmap.
  - exists x. split; [done|by apply list_elem_of_In].
  - exists y. split; [done|by apply list_elem_of_In].
Qed.

(** ** Verification *)
(** A scan that was really made. *)
Definition scanned_for (host : string) (port : Z) (scanned : list KeyLine) : Prop :=
  ∃ requested s s', scan v host port requested s = (Ok scanned, s').

Lemma preflight_parts host port approved s p s' :
  preflight_selected_with v host port approved s = (Ok p, s') →
  ∃ known recorded s1 scanned warnings,
    read_recorded v (lookup_name host port) (hv_known_hosts v) [] [] s = (Ok (known, recorded), s1)
    ∧ scanned_for host port scanned
    ∧ judge v host port (lookup_name host port) known recorded scanned (is_some approved) warnings = Ok p.
Proof.
  unfold preflight_selected_with. intros ([known recorded] & s1 & Hr & Hp)%stE_bind_ok.
  apply stE_bind_ok in Hp as (requested & s2 & Hq & Hp). apply stE_lift_ok in Hq as [_ ->].
  apply stE_bind_ok in Hp as (scanned & s3 & Hs & Hp).
  apply stE_bind_ok in Hp as (warnings & s4 & _ & Hp). apply stE_lift_ok in Hp as [Hj _].
  exists known, recorded, s1, scanned, warnings. split; [done|]. split; [by exists requested, s1, s3|done].
Qed.

(** C39: Verifying a host pins either keys that known_hosts records for it and the
    host offered in this scan, or, when known_hosts records none, exactly the
    keys it offered, and then only because the operator accepted the identity
    that shows those very keys. *)
Theorem verify_pins_trusted host port accept_unknown s lines s' :
  verify_with v host port accept_unknown s = (Ok lines, s') →
  ∃ known recorded s1 scanned keys,
    read_recorded v (lookup_name host port) (hv_known_hosts v) [] [] s = (Ok (known, recorded), s1)
    ∧ scanned_for host port scanned
    ∧ lines = pin_line (lookup_name host port) <$> keys
    ∧ ((known ≠ [] ∧ keys ≠ []
        ∧ ∀ k, k ∈ keys ↔ k ∈ presented <$> scanned ∧ k ∈ presented <$> known)
       ∨ (known = [] ∧ (∀ k, k ∈ keys ↔ k ∈ presented <$> scanned)
          ∧ ∃ identity, hi_host identity = host ∧ hi_port identity = port ∧ hi_keys identity = keys
                        ∧ accept_unknown identity = Accept)).
Proof.
  unfold verify_with, preflight_with. intros (p & s2 & Hp & Hg)%stE_bind_ok.
  apply stE_bind_ok in Hg as ([] & s3 & Hg & Hl). unfold st_guard in Hg. apply stE_lift_ok in Hg as [Hg _].
  apply guard_ok, negb_true_iff in Hg. injection Hl as <- _.
  apply preflight_parts in Hp as (known & recorded & s1 & scanned & warnings & Hr & Hs & Hj).
  apply judge_ok in Hj as (Hh & Hport & _ & Hlines & Hst & _ & Hall & Hsub & Hsome & Hiff). cbn [is_some] in *.
  exists known, recorded, s1, scanned, (hi_keys (pf_identity p)).
  split; [done|]. split; [done|]. split; [done|].
  assert (known = [] ∨ known ≠ []) as [Hk|Hk] by (destruct known; auto).
  - right. split; [done|]. split; [intros k; rewrite Hall by auto; apply canonical_elem|].
    exists (pf_identity p). repeat split; try done.
    rewrite bool_decide_true in Hg by (by apply Hst). cbn in Hg. apply bool_decide_eq_false in Hg.
    by destruct (accept_unknown (pf_identity p)).
  - left. split; [done|]. split; [|by apply Hiff]. destruct (Hsome Hk) as (k & H1 & H2).
    intros He. assert (k ∈ hi_keys (pf_identity p)) as Hin by (by apply Hiff).
    rewrite He in Hin. by apply not_elem_of_nil in Hin.
Qed.

(** ** Approved keys *)
Section Approved.
Context (describe : PresentedKey → string) (host : string) (port : Z) (approved : HostIdentity).

Lemma observe_elem observed keys k :
  k ∈ observe approved observed keys ↔ k ∈ observed ∨ k ∈ keys ∧ k ∈ hi_keys approved.
Proof.
  unfold observe. revert observed. induction keys as [|x keys IH]; intros observed; cbn [foldl]; [set_solver|].
  rewrite IH, elem_of_cons. unfold is_approved.
  destruct (bool_decide_reflect (x ∈ hi_keys approved)) as [Ha|Ha]; cbn [andb].
  - destruct (bool_decide_reflect (x ∈ observed)) as [Ho|Ho]; cbn [negb].
    + split; [tauto|]. intros [?|[[->|?] ?]]; tauto.
    + rewrite elem_of_app, list_elem_of_singleton. split; [|tauto]. intros [[?| ->]|?]; tauto.
  - split; [tauto|]. intros [?|[[->|?] ?]]; tauto.
Qed.

Lemma forallb_elem {A} `{EqDecision A} (l k : list A) :
  forallb (λ x, bool_decide (x ∈ k)) l = true ↔ ∀ x, x ∈ l → x ∈ k.
Proof.
  rewrite forallb_Forall, Forall_forall. split; intros Hl x Hx.
  - by eapply bool_decide_eq_true, Hl.
  - apply bool_decide_eq_true. by apply Hl.
Qed.

(** A scan shows every approved key, or nothing that is not approved. *)
Definition harmless_scan (scanned : list KeyLine) : Prop :=
  (∀ k, k ∈ hi_keys approved → k ∈ presented <$> scanned)
  ∨ (∀ k, k ∈ presented <$> scanned → k ∈ hi_keys approved).

Lemma approved_attempts_ok n observed s p s' :
  approved_attempts v describe host port approved n observed s = (Ok p, s') →
  ∃ (c : HostKeyPreflight) (scans : list (list KeyLine)),
    p = pinned host port approved c ∧ (0 < length scans ≤ Datatypes.S n)%nat
    ∧ (∀ k, k ∈ hi_keys approved → k ∈ observed ∨ ∃ scanned, scanned ∈ scans ∧ k ∈ presented <$> scanned)
    ∧ (∀ scanned, scanned ∈ scans → harmless_scan scanned ∧ scanned_for host port scanned).
Proof.
  revert observed s. induction n as [|n IH]; intros observed s; cbn [approved_attempts];
    intros (c & s1 & Hc & Hp)%stE_bind_ok; apply stE_bind_ok in Hp as ([] & s2 & Hg & Hp);
    apply stE_guard_ok in Hg as [Hg%negb_true_iff _];
    apply preflight_parts in Hc as (known & recorded & s3 & scanned & warnings & _ & Hs & Hj);
    apply judge_ok in Hj as (_ & _ & _ & _ & _ & _ & Hall & _); specialize (Hall (or_intror eq_refl));
    assert (harmless_scan scanned) as Hh.
  1,3: destruct (forallb _ (hi_keys approved)) eqn:Ef in Hg.
  1,3: left; intros k Hk; rewrite forallb_elem, Hall in Ef; by apply canonical_elem, Ef.
  1,2: right; intros k Hk; cbn in Hg; rewrite Hall in Hg; apply canonical_elem in Hk;
       destruct (bool_decide_reflect (k ∈ hi_keys approved)) as [Hin|Hin]; [done|]; exfalso;
       rewrite <- not_true_iff_false in Hg; apply Hg, existsb_exists; exists k;
       (split; [by apply list_elem_of_In|]); unfold is_approved; by rewrite bool_decide_false.
  all: destruct (forallb _ _) eqn:Ed in Hp.
  1,3: injection Hp as <- _; exists c, [scanned]; split; [done|]; split; [cbn; lia|]; split;
       [|intros ? ->%list_elem_of_singleton; done];
       intros k Hk; rewrite forallb_elem in Ed; apply Ed, observe_elem in Hk as [?|[Hk _]]; [by left|];
       right; exists scanned; split; [by left|]; rewrite Hall in Hk; by apply canonical_elem.
  - done.
  - apply stE_bind_ok in Hp as ([] & s4 & _ & Hp).
    apply IH in Hp as (c' & scans & -> & Hlen & Hcov & Hsafe).
    exists c', (scanned :: scans). split; [done|]. split; [cbn; lia|]. split.
    + intros k Hk. destruct (Hcov k Hk) as [Ho|(sc & Hsc & Hin)].
      * apply observe_elem in Ho as [?|[Ho _]]; [by left|]. right. exists scanned.
        split; [by left|]. rewrite Hall in Ho. by apply canonical_elem.
      * right. exists sc. split; [by right|done].
    + intros sc [->|Hsc]%elem_of_cons; [done|]. by apply Hsafe.
Qed.

(** Scanning for approved keys pins exactly the approved identity, for the
    host it was approved for: every approved key was offered in one of at most
    three scans, and each of those scans showed all approved keys or none that
    is not approved, so a replaced key is never hidden by an earlier scan. *)
Theorem approved_keys_exact s p s' :
  preflight_approved_with v describe host port approved s = (Ok p, s') →
  hi_host approved = host ∧ hi_port approved = port ∧ hi_keys approved ≠ []
  ∧ pf_identity p = approved
  ∧ pf_known_host_lines p = pin_line (lookup_name host port) <$> hi_keys approved
  ∧ (∀ e, e ∈ pf_known p → kn_key e ∈ hi_keys approved)
  ∧ ∃ scans : list (list KeyLine), (0 < length scans ≤ 3)%nat
    ∧ (∀ k, k ∈ hi_keys approved → ∃ scanned, scanned ∈ scans ∧ k ∈ presented <$> scanned)
    ∧ (∀ scanned, scanned ∈ scans → harmless_scan scanned ∧ scanned_for host port scanned).
Proof.
  unfold preflight_approved_with. intros ([] & s1 & Hg & Hp)%stE_bind_ok.
  apply stE_bind_ok in Hp as ([] & s2 & Hn & Hp). unfold st_guard in Hg, Hn.
  apply stE_lift_ok in Hg as [Hg _]. apply stE_lift_ok in Hn as [Hn _]. apply guard_ok in Hg, Hn. bool_prop.
  apply approved_attempts_ok in Hp as (c & scans & -> & Hlen & Hcov & Hsafe).
  destruct Hg as [? ?]. repeat (split; [done|]). split.
  - cbn. intros e He. apply list_elem_of_In, filter_In in He as [_ He]. unfold is_approved in He.
    by apply bool_decide_eq_true in He.
  - exists scans. split; [lia|]. split; [|done]. intros k Hk.
    destruct (Hcov k Hk) as [Ho|?]; [by apply not_elem_of_nil in Ho|done].
Qed.
End Approved.
End Verifier.

(** ** What the scans showed *)
(** A runner that keeps what every bounded run printed, and the time it was given. *)
Section Logged.
Context {S : Type} `{Runner S} `{KnownFiles}.

#[local] Notation Log := (list (Z * list KeyLine)).

#[local] Instance logged : Runner (S * Log) := {
  run program arguments := λ '(s, log), let '(r, s) := run program arguments s in (r, (s, log));
  run_bounded program arguments timeout := λ '(s, log),
    let '(r, s) := run_bounded program arguments timeout s in
    (r, (s, log ++ [(timeout, match r with Ok output => parse_key_lines (ot_stdout output) | Err _ => [] end)]));
  resolve host port := λ '(s, _), resolve host port s;
  pause d := λ '(s, log), (pause d s, log);
  now := λ '(s, _), now s
}.

Context (v : HostKeyVerifier (S * Log)).

Lemma discover_logged n attempts requested host port started diagnostic s log :
  ∃ r s' new,
    discover v n attempts requested host port started diagnostic (s, log) = (r, (s', log ++ new))
    ∧ (length new ≤ n)%nat ∧ (∀ t l, (t, l) ∈ new → secs 2 ≤ t ≤ secs 10)
    ∧ match r with
      | Ok scanned => scanned ≠ [] ∧ ∃ earlier t, new = earlier ++ [(t, scanned)] ∧ ∀ t' l, (t', l) ∈ earlier → l = []
      | Err _ => ∀ t l, (t, l) ∈ new → l = []
      end.
Proof.
  revert attempts diagnostic s log. induction n as [|n IH]; intros attempts diagnostic s log; cbn [discover].
  { eexists _, s, []. rewrite app_nil_r. split; [done|]. split; [cbn; lia|].
    split; intros t l Hin; by apply not_elem_of_nil in Hin. }
  destruct (_ <? secs 2) eqn:Et.
  { eexists _, s, []. rewrite app_nil_r. split; [done|]. split; [cbn; lia|].
    split; intros t l Hin; by apply not_elem_of_nil in Hin. }
  bool_prop. cbn [run_bounded logged].
  set (timeout := Z.min _ (secs 10)). assert (secs 2 ≤ timeout ≤ secs 10) as Ht.
  { subst timeout. unfold secs in *. lia. }
  destruct (run_bounded _ _ _ s) as [[output|error] s1].
  2:{ eexists _, s1, [_]. split; [done|]. split; [cbn; lia|].
      split; intros t l Hin%list_elem_of_singleton; by injection Hin as -> ->. }
  case_bool_decide as Hn.
  { eexists _, s1, [_]. split; [done|]. split; [cbn; lia|]. split.
    - intros t l Hin%list_elem_of_singleton. by injection Hin as -> ->.
    - split; [done|]. exists [], timeout. split; [done|]. intros t l Hin. by apply not_elem_of_nil in Hin. }
  assert (parse_key_lines (ot_stdout output) = []) as Hnil.
  { by destruct (parse_key_lines (ot_stdout output)). }
  rewrite Hnil.
  match goal with |- context [discover v n _ _ _ _ _ _ ?st] =>
    assert (∃ s2, st = (s2, log ++ [(timeout, [])])) as (s2 & Hs2) by (case_match; by eexists); rewrite Hs2
  end.
  match goal with |- context [discover v n _ _ _ _ _ ?d _] =>
    destruct (IH (Datatypes.S attempts) d s2 (log ++ [(timeout, [])])) as (r & s' & new & Hd & Hlen & Hts & Hr)
  end.
  exists r, s', ((timeout, []) :: new). rewrite Hd, <- (assoc app). split; [done|].
  split; [cbn; lia|]. split.
  - intros t l [[= -> ->]|Hin]%elem_of_cons; [done|]. by eapply Hts.
  - destruct r as [scanned|].
    + destruct Hr as (? & earlier & t & -> & He). split; [done|]. exists ((timeout, []) :: earlier), t.
      split; [done|]. intros t' l [[= -> ->]|Hin]%elem_of_cons; [done|]. by eapply He.
    + intros t l [[= -> ->]|Hin]%elem_of_cons; [done|]. by eapply Hr.
Qed.

(** Discovery ends within six scans, each of them given between two and ten
    seconds, and it never retries a key away: what it returns is everything
    the last scan showed, and no earlier scan had shown a key. *)
Theorem discovery_hides_nothing requested host port s :
  ∃ r s' log, discover_from v requested host port (s, []) = (r, (s', log))
    ∧ (length log ≤ 6)%nat ∧ (∀ t l, (t, l) ∈ log → secs 2 ≤ t ≤ secs 10 ∧ 1 ≤ as_secs t - 1)
    ∧ match r with
      | Ok scanned => scanned ≠ [] ∧ ∃ earlier t, log = earlier ++ [(t, scanned)] ∧ ∀ t' l, (t', l) ∈ earlier → l = []
      | Err _ => ∀ t l, (t, l) ∈ log → l = []
      end.
Proof.
  unfold discover_from, MAX_DISCOVERY_ATTEMPTS.
  destruct (discover_logged 6 0 requested host port (now (s, [])) "no scan completed" s [])
    as (r & s' & new & Hd & Hlen & Hts & Hr).
  exists r, s', new. rewrite Hd. repeat (split; [done|]). split; [|done].
  intros t l Hin. split; [by eapply Hts|]. apply Hts in Hin. unfold as_secs, secs in *.
  assert (2 ≤ t / 1000000000) by (apply Z.div_le_lower_bound; lia). lia.
Qed.

(** Every key a direct probe shows is one the tunnel showed too. *)
Definition agree (tunneled : list KeyLine) (log : Log) : Prop :=
  ∀ t l k, (t, l) ∈ log → k ∈ l → presented k ∈ presented <$> tunneled.

Lemma agree_app tunneled log log' : agree tunneled (log ++ log') ↔ agree tunneled log ∧ agree tunneled log'.
Proof.
  unfold agree. setoid_rewrite elem_of_app. split.
  - intros Ha. split; intros t l k Hin Hk; eapply Ha; eauto.
  - intros [H1 H2] t l k [Hin|Hin] Hk; eauto.
Qed.

Lemma agree_none tunneled t : agree tunneled [(t, [])].
Proof. intros t' l k Hin Hk. apply list_elem_of_singleton in Hin. injection Hin as -> ->. by apply not_elem_of_nil in Hk. Qed.

Lemma probe_targets_logged host port tunneled types per_probe total started targets done direct complete s log r s' log' :
  probe_targets v host port tunneled types per_probe total started targets done direct complete (s, log)
    = (r, (s', log')) →
  ∃ new, log' = log ++ new ∧ (is_ok r = true → agree tunneled new).
Proof.
  revert done direct complete s log.
  induction targets as [|[[family target] observed] targets IH]; intros done direct complete s log;
    cbn [probe_targets]; intros Hp.
  { injection Hp as <- <- <-. exists []. rewrite app_nil_r. split; [done|].
    intros _ t l k Hin. by apply not_elem_of_nil in Hin. }
  destruct observed; [by eapply IH|].
  destruct (_ =? 0).
  { injection Hp as <- <- <-. exists []. rewrite app_nil_r. split; [done|].
    intros _ t l k Hin. by apply not_elem_of_nil in Hin. }
  cbn [run_bounded logged] in Hp. destruct (run_bounded _ _ _ s) as [[output|error] s1].
  2:{ apply IH in Hp as (new & -> & Ha). eexists. rewrite <- (assoc app). split; [done|].
      intros Hok. apply agree_app. split; [apply agree_none|by apply Ha]. }
  case_bool_decide as Hnil.
  { apply IH in Hp as (new & -> & Ha). eexists. rewrite <- (assoc app). split; [done|].
    intros Hok. apply agree_app. rewrite Hnil. split; [apply agree_none|by apply Ha]. }
  destruct (List.find _ _) as [key|] eqn:Ef.
  { injection Hp as <- <- <-. eexists. by split. }
  apply IH in Hp as (new & -> & Ha). eexists. rewrite <- (assoc app). split; [done|].
  intros Hok. apply agree_app. split; [|by apply Ha].
  intros t l k Hin Hk. apply list_elem_of_singleton in Hin. injection Hin as -> ->.
  apply list_elem_of_In in Hk. pose proof (List.find_none _ _ Ef k Hk) as He. cbv beta in He.
  apply negb_false_iff, existsb_exists in He as (other & Ho & Hs). apply same_key_presented in Hs.
  apply list_elem_of_fmap. exists other. split; [done|]. by apply list_elem_of_In.
Qed.

Lemma probe_rounds_logged host port tunneled total started targets rounds observed direct complete s log r s' log' :
  probe_rounds v host port tunneled total started targets rounds observed direct complete (s, log)
    = (r, (s', log')) →
  ∃ new, log' = log ++ new ∧ (is_ok r = true → agree tunneled new).
Proof.
  revert observed direct complete s log. induction rounds as [|[types per_probe] rounds IH];
    intros observed direct complete s log; cbn [probe_rounds]; intros Hp.
  { injection Hp as <- <- <-. exists []. rewrite app_nil_r. split; [done|].
    intros _ t l k Hin. by apply not_elem_of_nil in Hin. }
  unfold mbind, stE_bind in Hp.
  destruct (probe_targets _ _ _ _ _ _ _ _ _ _ _ _ (s, log)) as [[p|e] [s1 log1]] eqn:E;
    apply probe_targets_logged in E as (new1 & -> & Ha1).
  - apply IH in Hp as (new2 & -> & Ha2). eexists. rewrite <- (assoc app). split; [done|].
    intros Hok. apply agree_app. split; [by apply Ha1|by apply Ha2].
  - injection Hp as <- <- <-. by exists new1.
Qed.

(** When deployment goes through the backend, the direct probe can only warn
    or refuse: it succeeds only if every key any of its scans showed is one
    the tunnel showed, whatever order, address or round it came in. *)
Theorem direct_route_agrees host port tunneled s warnings s' log :
  compare_direct v host port tunneled (s, []) = (Ok warnings, (s', log)) → agree tunneled log.
Proof.
  unfold compare_direct, probe, mbind, stE_bind, st_lift.
  destruct (scan_types _) as [selected|]; [|done]. destruct (probe_plan _ _) as [[targets total] budgets].
  destruct (probe_rounds _ _ _ _ _ _ _ _ _ _ _ (s, [])) as [[p|e] [s1 log1]] eqn:E; [|done].
  apply probe_rounds_logged in E as (new & -> & Ha). intros [= _ _ <-]. by apply Ha.
Qed.
End Logged.

(** ** What ssh may negotiate *)
Lemma push_new_elem (supported algorithms : list string) a :
  a ∈ foldl (λ algorithms a, if bool_decide (a ∈ algorithms) then algorithms else algorithms ++ [a])
        algorithms supported ↔ a ∈ algorithms ∨ a ∈ supported.
Proof.
  revert algorithms. induction supported as [|x supported IH]; intros algorithms; cbn [foldl]; [set_solver|].
  rewrite IH, elem_of_cons. destruct (bool_decide_reflect (x ∈ algorithms)) as [Hx|Hx].
  - split; [tauto|]. intros [?|[->|?]]; tauto.
  - rewrite elem_of_app, list_elem_of_singleton. tauto.
Qed.

Definition add_algorithms (algorithms : list string) (line : string) :=
  supported ← ok_or (Tool ("unsupported approved SSH host-key algorithm: " +:+ line_key_type line))
                (supported_algorithms (line_key_type line));
  mret (M := result HostKeyError)
    (foldl (λ algorithms a, if bool_decide (a ∈ algorithms) then algorithms else algorithms ++ [a])
       algorithms supported).

Lemma add_algorithms_all lines acc algorithms :
  try_fold add_algorithms acc lines = Ok algorithms →
  (∀ line, line ∈ lines → ∃ supported, supported_algorithms (line_key_type line) = Some supported)
  ∧ ∀ a, a ∈ algorithms ↔ a ∈ acc ∨ ∃ line supported, line ∈ lines
       ∧ supported_algorithms (line_key_type line) = Some supported ∧ a ∈ supported.
Proof.
  revert acc. induction lines as [|line lines IH]; intros acc; cbn [try_fold].
  { intros [= <-]. split; [intros ? Hin; by apply not_elem_of_nil in Hin|]. intros a. split; [auto|].
    intros [?|(? & ? & Hin & _)]; [done|by apply not_elem_of_nil in Hin]. }
  destruct (add_algorithms acc line) as [acc'|] eqn:E; [|done]. intros [Hall Ha]%IH.
  unfold add_algorithms in E. destruct (supported_algorithms (line_key_type line)) as [supported|] eqn:Es; [|done].
  injection E as <-. split.
  - intros l [->|Hl]%elem_of_cons; [by exists supported|by apply Hall].
  - intros a. rewrite Ha, push_new_elem. split.
    + intros [[?|?]|(l & sup & ? & ? & ?)]; [by left| |].
      * right. exists line, supported. split; [by left|done].
      * right. exists l, sup. split; [by right|done].
    + intros [?|(l & sup & [->|?]%elem_of_cons & Hs & ?)]; [by auto| |].
      * left. right. rewrite Es in Hs. by injection Hs as ->.
      * right. by exists l, sup.
Qed.

(** ssh is offered exactly the algorithms of the pinned lines' key types, and
    never SHA-1 RSA signatures; one line of a type it does not know refuses
    the connection. *)
Theorem pinned_algorithms_exact lines algorithms :
  pinned_host_key_algorithms lines = Ok algorithms →
  algorithms ≠ [] ∧ "ssh-rsa" ∉ algorithms
  ∧ (∀ a, a ∈ algorithms ↔ ∃ line supported, line ∈ lines
       ∧ supported_algorithms (line_key_type line) = Some supported ∧ a ∈ supported)
  ∧ (∀ line, line ∈ lines → line_key_type line ≠ "ssh-mldsa44-ed25519@openssh.com").
Proof.
  unfold pinned_host_key_algorithms. intros (algs & Hf & Hn)%bind_ok.
  apply guard_bind_ok in Hn as [Hn [= <-]]. bool_prop.
  apply (add_algorithms_all lines [] algs) in Hf as [Hall Ha].
  assert (∀ a, a ∈ algs ↔ ∃ line supported, line ∈ lines
       ∧ supported_algorithms (line_key_type line) = Some supported ∧ a ∈ supported) as Ha'.
  { intros a. rewrite Ha. split; [intros [Hin|?]; [by apply not_elem_of_nil in Hin|done]|auto]. }
  split; [done|]. split; [|split; [done|]].
  - intros (line & supported & _ & Hs & Hin)%Ha'. unfold supported_algorithms in Hs.
    case_bool_decide; simplify_eq; [by vm_compute in Hin; set_solver|].
    case_bool_decide; simplify_eq. apply list_elem_of_singleton in Hin. congruence.
  - intros line Hl. destruct (Hall line Hl) as (supported & Hs). intros E. rewrite E in Hs. by vm_compute in Hs.
Qed.

(** A host key of the composite algorithm that discovery asks for can neither
    be pinned for a connection nor recorded. *)
Theorem composite_key_unusable :
  let composite := "ssh-mldsa44-ed25519@openssh.com" in
  (∃ t, scan_type composite = Some t ∧ t ∈ UNKNOWN_SCAN_TYPES)
  ∧ (∀ lines line, line ∈ lines → line_key_type line = composite →
       is_ok (pinned_host_key_algorithms lines) = false)
  ∧ (∀ identity key, key ∈ hi_keys identity → pk_algorithm key = composite →
       is_ok (check_identity identity) = false).
Proof.
  cbn zeta. split; [|split].
  - exists "mldsa44-ed25519". split; [done|]. unfold UNKNOWN_SCAN_TYPES. set_solver.
  - intros lines line Hl Ht. destruct (pinned_host_key_algorithms lines) as [algorithms|] eqn:E; [|done].
    exfalso. unfold pinned_host_key_algorithms in E. apply bind_ok in E as (algs & Hf & _).
    apply (add_algorithms_all lines [] algs) in Hf as [Hall _].
    destruct (Hall line Hl) as (supported & Hs). rewrite Ht in Hs. by vm_compute in Hs.
  - intros identity key Hk Ha. destruct (check_identity identity) as [[]|] eqn:E; [|done].
    exfalso. unfold check_identity in E. apply guard_bind_ok in E as [_ E].
    apply try_each_ok in E. eapply Forall_forall in E; [|exact Hk]. apply guard_ok in E.
    rewrite Ha in E. by vm_compute in E.
Qed.

(** ** What is recorded is recognised *)
Definition is_plain (b : Z) : bool := in_range 33 126 b.

Lemma plain_facts b : is_plain b = true → 33 ≤ b ≤ 126.
Proof. unfold is_plain, in_range. intros H. bool_prop. lia. Qed.

Lemma plain_not_space b : is_plain b = true → is_whitespace b = false.
Proof.
  intros H%plain_facts. unfold is_whitespace, in_range.
  repeat (rewrite orb_false_iff; split); try apply andb_false_iff; try (apply Z.eqb_neq; lia);
    (left; apply Z.leb_gt; lia) || (right; apply Z.leb_gt; lia).
Qed.

Lemma words_of_word cur w rest :
  Forall (λ b, is_plain b = true) w →
  words_of cur (w ++ 32 :: rest) =
    (if bool_decide (reverse w ++ cur = []) then [] else [reverse cur ++ w]) ++ words_of [] rest.
Proof.
  intros H. revert cur. induction H as [|b w Hb _ IH]; intros cur.
  - cbn [app words_of]. change (is_whitespace 32) with true. by rewrite reverse_nil, app_nil_r.
  - cbn [app words_of]. rewrite plain_not_space by done. rewrite IH, !reverse_cons.
    by rewrite <- !app_assoc.
Qed.

Lemma words_of_last w cur :
  Forall (λ b, is_plain b = true) w →
  words_of cur w = if bool_decide (reverse w ++ cur = []) then [] else [reverse cur ++ w].
Proof.
  intros H. revert cur. induction H as [|b w Hb _ IH]; intros cur.
  - cbn [words_of]. by rewrite reverse_nil, app_nil_r.
  - cbn [words_of]. rewrite plain_not_space by done. by rewrite IH, !reverse_cons, <- !app_assoc.
Qed.

Definition plain (s : string) : Prop := s ≠ "" ∧ all_bytes is_plain s = true.

Lemma plain_word s : plain s → Forall (λ b, is_plain b = true) (bytes s) ∧ bytes s ≠ [].
Proof.
  intros [Hne Hp]. split; [by apply all_bytes_forall|]. intros H. apply Hne.
  rewrite <- (of_bytes_bytes s), H. done.
Qed.

Lemma pin_line_bytes lookup k :
  bytes (pin_line lookup k) = bytes lookup ++ 32 :: (bytes (pk_algorithm k) ++ 32 :: bytes (pk_encoded k)).
Proof. unfold pin_line. rewrite !bytes_app. done. Qed.

Lemma plain_ascii l : Forall (λ b, is_plain b = true) l → Forall (λ b, 0 ≤ b < 128) l.
Proof. intros H. eapply Forall_impl; [exact H|]. intros b Hb%plain_facts. lia. Qed.

Definition writable (lookup : string) (k : PresentedKey) : Prop :=
  plain lookup ∧ starts_with "#" lookup = false ∧ starts_with "@" lookup = false
  ∧ plain (pk_algorithm k) ∧ plain (pk_encoded k).

Lemma pin_line_ascii lookup k : writable lookup k → Forall (λ b, 0 ≤ b < 128) (bytes (pin_line lookup k)).
Proof.
  intros ([Hl _]%plain_word & _ & _ & [Ha _]%plain_word & [He _]%plain_word).
  rewrite pin_line_bytes. apply Forall_app. split; [by apply plain_ascii|]. constructor; [lia|].
  apply Forall_app. split; [by apply plain_ascii|]. constructor; [lia|by apply plain_ascii].
Qed.

Lemma of_chars_bytes s : Forall (λ b, is_plain b = true) (bytes s) → of_chars (bytes s) = s.
Proof. intros H. rewrite of_chars_ascii by (by apply plain_ascii). apply of_bytes_bytes. Qed.

Lemma pin_line_words lookup k :
  writable lookup k → split_whitespace (pin_line lookup k) = [lookup; pk_algorithm k; pk_encoded k].
Proof.
  intros H. pose proof (pin_line_ascii lookup k H) as Hascii.
  destruct H as ([Hl Hl']%plain_word & _ & _ & [Ha Ha']%plain_word & [He He']%plain_word).
  unfold split_whitespace. rewrite chars_ascii by done. rewrite pin_line_bytes.
  rewrite words_of_word, words_of_word, words_of_last by done.
  assert (∀ w : list Z, w ≠ [] → bool_decide (reverse w ++ [] = []) = false) as Hne.
  { intros w Hw. apply bool_decide_eq_false. rewrite app_nil_r. intros E. apply Hw.
    by rewrite <- (reverse_involutive w), E. }
  rewrite !Hne by done. cbn [reverse rev_append app fmap list_fmap]. by rewrite !of_chars_bytes.
Qed.

Lemma starts_with_hash p c s t : starts_with (String c "") p = false → p ≠ "" →
  starts_with (String c "") (p +:+ String s t) = false.
Proof.
  destruct p as [|d p]; [done|]. intros H _. rewrite scons_app. unfold starts_with in *. cbn in *.
  by destruct (Ascii.eqb c d).
Qed.

Lemma pin_line_parses lookup k :
  writable lookup k →
  parse_key_line (pin_line lookup k)
    = Some {| kl_hosts := lookup; kl_algorithm := pk_algorithm k; kl_encoded := pk_encoded k |}.
Proof.
  intros H. unfold parse_key_line. rewrite (pin_line_words lookup k H).
  destruct H as ([Hne _] & Hh & Hat & _). rewrite Hat.
  unfold pin_line. change (" " +:+ ?s) with (String " " s). by rewrite starts_with_hash.
Qed.

Lemma ascii_no_newline s : Forall (λ b, is_plain b = true ∨ b = 32) (bytes s) →
  contains_byte (bz (zb 10)) s = false ∧ strip_cr s = s.
Proof.
  intros H. split.
  - unfold contains_byte. apply not_true_iff_false. rewrite existsb_exists.
    intros (b & Hb & He). apply list_elem_of_In in Hb. eapply Forall_forall in H; [|exact Hb].
    apply Z.eqb_eq in He. destruct H as [H%plain_facts| ->]; change (bz (zb 10)) with 10 in He; lia.
  - unfold strip_cr. destruct (strip_suffix _ s) as [r|] eqn:E; [|done]. exfalso.
    apply strip_suffix_Some in E as ->. rewrite bytes_app in H. apply Forall_app in H as [_ H].
    inversion H as [|? ? [Hb%plain_facts|Hb] _]; subst; change (bz (zb 13)) with 13 in *; lia.
Qed.

Lemma addition_lines lookup keys :
  Forall (writable lookup) keys →
  str_lines (addition_text lookup keys) = pin_line lookup <$> keys
  ∧ Forall (λ b, 0 ≤ b < 128) (bytes (addition_text lookup keys)).
Proof.
  intros H.
  assert (∀ k, writable lookup k → contains_byte (bz (zb 10)) (pin_line lookup k) = false
                                   ∧ strip_cr (pin_line lookup k) = pin_line lookup k) as Hline.
  { intros k ([Hl _]%plain_word & _ & _ & [Ha _]%plain_word & [He _]%plain_word).
    apply ascii_no_newline. rewrite pin_line_bytes.
    apply Forall_app. split; [eapply Forall_impl; [exact Hl|by left]|]. constructor; [by right|].
    apply Forall_app. split; [eapply Forall_impl; [exact Ha|by left]|]. constructor; [by right|].
    eapply Forall_impl; [exact He|by left]. }
  assert (split (zb 10) (addition_text lookup keys) = (pin_line lookup <$> keys) ++ [""]) as Hsplit.
  { induction H as [|k keys Hk _ IH]; [done|].
    assert (addition_text lookup (k :: keys) = pin_line lookup k +:+ String (zb 10) (addition_text lookup keys)) as ->.
    { unfold addition_text, pin_line. cbn [foldr]. by rewrite !sapp_assoc. }
    rewrite split_app_sep by (by apply Hline). rewrite IH. done. }
  split.
  - unfold str_lines. rewrite Hsplit, reverse_snoc. cbn [String.eqb]. rewrite app_nil_r, reverse_involutive.
    clear Hsplit. induction H as [|k keys Hk _ IH]; [done|]. rewrite !fmap_cons. f_equal; [by apply Hline|].
    by apply IH.
  - clear Hsplit. induction H as [|k keys Hk _ IH]; [constructor|].
    assert (addition_text lookup (k :: keys) = pin_line lookup k +:+ String (zb 10) (addition_text lookup keys)) as ->.
    { unfold addition_text, pin_line. cbn [foldr]. by rewrite !sapp_assoc. }
    rewrite bytes_app, bytes_cons. apply Forall_app. split; [by apply pin_line_ascii|].
    constructor; [done|done].
Qed.

Lemma check_identity_keys identity :
  check_identity identity = Ok tt →
  ∀ k, k ∈ hi_keys identity → plain (pk_algorithm k) ∧ plain (pk_encoded k).
Proof.
  unfold check_identity. intros [_ H]%guard_bind_ok k Hk. apply try_each_ok in H.
  eapply Forall_forall in H; [|exact Hk]. apply guard_ok in H. bool_prop. destruct H as [[Ha He] Hb]. split.
  - unfold persistable_algorithms in Ha.
    repeat (apply elem_of_cons in Ha as [-> |Ha]; [by split|]). by apply not_elem_of_nil in Ha.
  - split; [done|]. eapply all_bytes_impl; [|exact Hb]. intros b Hb'. unfold is_plain, in_range.
    unfold is_ascii_alphanumeric, is_ascii_digit, is_ascii_uppercase, is_ascii_lowercase, in_range in Hb'.
    change (byte_of "+/=" b) with ((b =? 43) || ((b =? 47) || ((b =? 61) || false))) in Hb'.
    bool_prop. lia.
Qed.

Lemma check_recorded_ok identity output new :
  check_recorded identity output = Ok new →
  (∀ k, k ∈ new → k ∈ hi_keys identity)
  ∧ (ot_success output = true → new = presented <$> parse_key_lines (ot_stdout output) ∧ new ≠ [])
  ∧ (ot_success output = false → new = []).
Proof.
  unfold check_recorded. destruct (ot_success output).
  - intros (text & _ & H)%bind_ok. apply guard_bind_ok in H as [_ H]. apply guard_bind_ok in H as [Hn H].
    apply guard_bind_ok in H as [Hall [= <-]]. bool_prop. split; [|split; [|done]].
    + intros k (line & -> & Hl)%list_elem_of_fmap. apply forallb_Forall in Hall.
      eapply Forall_forall in Hall; [|exact Hl]. by apply bool_decide_eq_true in Hall.
    + intros _. split; [done|]. by destruct (parse_key_lines (ot_stdout output)).
  - case_bool_decide; [|done]. intros [= <-]. split; [intros k Hk; by apply not_elem_of_nil in Hk|done].
Qed.

Lemma collect_recorded identity outputs acc recorded :
  try_fold (λ recorded output, new ← check_recorded identity output; mret (recorded ++ new)) acc outputs
    = Ok recorded →
  (∀ output, output ∈ outputs → ∃ new, check_recorded identity output = Ok new)
  ∧ ∀ k, k ∈ recorded ↔ k ∈ acc ∨ ∃ output new, output ∈ outputs ∧ check_recorded identity output = Ok new ∧ k ∈ new.
Proof.
  revert acc. induction outputs as [|output outputs IH]; intros acc; cbn [try_fold].
  { intros [= <-]. split; [intros ? Hin; by apply not_elem_of_nil in Hin|]. intros k. split; [auto|].
    intros [?|(? & ? & Hin & _)]; [done|by apply not_elem_of_nil in Hin]. }
  destruct (check_recorded identity output) as [new|] eqn:E; cbn; [|done]. intros [Hall Hk]%IH. split.
  - intros o [->|Ho]%elem_of_cons; [by exists new|by apply Hall].
  - intros k. rewrite Hk, elem_of_app. split.
    + intros [[?|?]|(o & n & ? & ? & ?)]; [by left| |].
      * right. exists output, new. split; [by left|done].
      * right. exists o, n. split; [by right|done].
    + intros [?|(o & n & [->|?]%elem_of_cons & Hn & ?)]; [by auto| |].
      * left. right. rewrite E in Hn. by injection Hn as ->.
      * right. by exists o, n.
Qed.

Lemma addition_parses lookup keys :
  Forall (writable lookup) keys →
  parse_key_lines (bytes (addition_text lookup keys)) =
    (λ k, {| kl_hosts := lookup; kl_algorithm := pk_algorithm k; kl_encoded := pk_encoded k |}) <$> keys.
Proof.
  intros H. destruct (addition_lines lookup keys H) as [Hlines Hascii].
  unfold parse_key_lines. rewrite lossy_ascii, Hlines by done. clear Hlines Hascii.
  induction H as [|k keys Hk _ IH]; [done|]. rewrite !fmap_cons. cbn [omap list_omap].
  rewrite pin_line_parses by done. by f_equal.
Qed.

(** Recording an accepted identity never replaces a key: every key already
    recorded for the host is one of the accepted ones, and what is appended
    to the file is read back as exactly the accepted keys that were not yet
    recorded, under the host's name. *)
Theorem persisted_keys_recognised identity outputs original added :
  persist_accepted identity outputs original = Ok added →
  let lookup := lookup_name (hi_host identity) (hi_port identity) in
  plain lookup → starts_with "#" lookup = false → starts_with "@" lookup = false →
  (∀ output k, output ∈ outputs → ot_success output = true → k ∈ parse_key_lines (ot_stdout output) →
     presented k ∈ hi_keys identity)
  ∧ ∃ missing newline,
      added = newline ++ bytes (addition_text lookup missing)
      ∧ (newline = [] ∨ newline = [10])
      ∧ parse_key_lines (bytes (addition_text lookup missing)) =
          (λ k, {| kl_hosts := lookup; kl_algorithm := pk_algorithm k; kl_encoded := pk_encoded k |}) <$> missing
      ∧ (∀ k, k ∈ missing ↔ k ∈ hi_keys identity ∧ ∀ output, output ∈ outputs → ot_success output = true →
           k ∉ presented <$> parse_key_lines (ot_stdout output)).
Proof.
  intros H lookup Hp Hh Ha. unfold persist_accepted in H. apply then_ok in H as [Hid H].
  apply bind_ok in H as (recorded & Hr & H). apply collect_recorded in Hr as [Hall Hrec].
  pose proof (check_identity_keys identity Hid) as Hkeys. split.
  { intros output k Ho Hs Hk. destruct (Hall output Ho) as (new & Hn).
    apply check_recorded_ok in Hn as (Hsub & Hnew & _). destruct (Hnew Hs) as [-> _].
    apply Hsub, list_elem_of_fmap. by exists k. }
  unfold addition in H. apply bind_ok in H as (text0 & _ & H). apply guard_bind_ok in H as [_ H].
  fold lookup in H. set (missing := List.filter _ (hi_keys identity)) in H.
  assert (∀ k, k ∈ missing ↔ k ∈ hi_keys identity ∧ k ∉ recorded) as Hm.
  { intros k. unfold missing. rewrite list_elem_of_In, filter_In, <- list_elem_of_In, negb_true_iff, bool_decide_eq_false.
    done. }
  assert (Forall (writable lookup) missing) as Hw.
  { apply Forall_forall. intros k [Hk _]%Hm. destruct (Hkeys k Hk). by refine (conj Hp (conj Hh (conj Ha (conj _ _)))). }
  pose proof (addition_parses lookup missing Hw) as Hparse.
  assert (∀ k, k ∈ missing ↔ k ∈ hi_keys identity ∧ ∀ output, output ∈ outputs → ot_success output = true →
           k ∉ presented <$> parse_key_lines (ot_stdout output)) as Hm'.
  { intros k. rewrite Hm. apply and_iff_compat_l. rewrite Hrec. split.
    - intros Hn output Ho Hs Hin. apply Hn. right. destruct (Hall output Ho) as (new & Hnew).
      exists output, new. split; [done|]. split; [done|]. apply check_recorded_ok in Hnew as (_ & Hnew & _).
      by destruct (Hnew Hs) as [-> _].
    - intros Hn [Hin|(output & new & Ho & Hnew & Hin)]; [by apply not_elem_of_nil in Hin|].
      apply check_recorded_ok in Hnew as (_ & Hs & Hf). destruct (ot_success output) eqn:E.
      + destruct (Hs eq_refl) as [-> _]. by apply (Hn output).
      + rewrite (Hf eq_refl) in Hin. by apply not_elem_of_nil in Hin. }
  case_bool_decide as Ht.
  { injection H as <-. exists missing, []. rewrite Ht. split; [done|]. split; [by left|].
    rewrite <- Ht. by split. }
  apply guard_bind_ok in H as [_ [= <-]].
  destruct (bool_decide (text0 ≠ "") && _).
  - exists missing, [10]. rewrite bytes_cons. split; [done|]. split; [by right|done].
  - exists missing, []. split; [done|]. split; [by left|done].
Qed.
