(* ===== verification/HostKeySample.v ===== *)
(** * Host key verification, evaluated

    The tools are a script: what each call prints, in order; no time passes. *)
From S2P Require Import Prelude BTree Text HostKey HostKeyFacts.
#[local] Open Scope Z_scope.

Definition Script : Type := list Output.
Definition next (s : Script) : result HostKeyError Output * Script :=
  match s with
  | output :: s => (Ok output, s)
  | [] => (Err (Tool "no more output"), [])
  end.
#[local] Instance scripted : Runner Script := {
  run _ _ := next;
  run_bounded _ _ _ := next;
  resolve _ _ _ := Some [(true, "192.0.2.1")];
  pause _ s := s;
  now _ := 0
}.
#[local] Instance client_files : KnownFiles := {
  file_exists _ := true;
  file_read _ := Ok (Some (bytes "ns1.example,old ssh-ed25519 AAAA"))
}.

Definition prints (text : string) : Output :=
  {| ot_success := true; ot_stdout := bytes text; ot_diagnostic := "exit status: 0" |}.
Definition nothing : Output :=
  {| ot_success := false; ot_stdout := []; ot_diagnostic := "exit status: 1" |}.
Definition newline : string := String (zb 10) "".
Definition ED : PresentedKey := {| pk_algorithm := "ssh-ed25519"; pk_encoded := "AAAA" |}.
Definition RSA : PresentedKey := {| pk_algorithm := "ssh-rsa"; pk_encoded := "BBBB" |}.
Definition verifier : HostKeyVerifier Script :=
  {| hv_known_hosts := ["known_hosts"]; hv_ssh_keyscan := "ssh-keyscan"; hv_ssh_keygen := "ssh-keygen";
     hv_route := None |}.
Definition tunnel_verifier : HostKeyVerifier (Script * list (Z * list KeyLine)) :=
  {| hv_known_hosts := []; hv_ssh_keyscan := "ssh-keyscan"; hv_ssh_keygen := "ssh-keygen"; hv_route := None |}.
Definition identity : HostIdentity :=
  {| hi_host := "ns1.example"; hi_port := 22; hi_keys := [ED; RSA]; hi_other_names_with_keys := [] |}.
Definition host_line (k : PresentedKey) : string := pin_line "ns1.example" k +:+ newline.

(** known_hosts records the Ed25519 key; the host offers it and an RSA key. *)
Lemma verify_pins_trusted_witness :
  let script := [prints ("# Host ns1.example found: line 1" +:+ newline +:+ host_line ED);
                 prints (host_line RSA +:+ host_line ED)] in
  verify_with verifier "ns1.example" 22 (const Reject) script = (Ok [pin_line "ns1.example" ED], [])
  ∧ ∃ known recorded s1 scanned keys,
      read_recorded verifier "ns1.example" ["known_hosts"] [] [] script = (Ok (known, recorded), s1)
      ∧ scanned_for verifier "ns1.example" 22 scanned
      ∧ [pin_line "ns1.example" ED] = pin_line "ns1.example" <$> keys
      ∧ ((known ≠ [] ∧ keys ≠ []
          ∧ ∀ k, k ∈ keys ↔ k ∈ presented <$> scanned ∧ k ∈ presented <$> known)
         ∨ (known = [] ∧ (∀ k, k ∈ keys ↔ k ∈ presented <$> scanned)
            ∧ ∃ identity, hi_host identity = "ns1.example" ∧ hi_port identity = 22
                ∧ hi_keys identity = keys ∧ const Reject identity = Accept)).
Proof.
  intros script.
  assert (verify_with verifier "ns1.example" 22 (const Reject) script = (Ok [pin_line "ns1.example" ED], []))
    as H by (vm_compute; reflexivity).
  split; [exact H|]. exact (verify_pins_trusted verifier "ns1.example" 22 (const Reject) script _ [] H).
Defined.

(** The first scan shows only one of the approved keys, the second the other. *)
Lemma approved_keys_exact_witness :
  let script := [nothing; prints (host_line ED); nothing; prints (host_line RSA)] in
  ∃ p, preflight_approved_with verifier pk_algorithm "ns1.example" 22 identity script = (Ok p, [])
       ∧ pf_known_host_lines p = pin_line "ns1.example" <$> [ED; RSA].
Proof.
  intros script.
  destruct (preflight_approved_with verifier pk_algorithm "ns1.example" 22 identity script) as [[p|e] s'] eqn:E;
    [|exfalso; vm_compute in E; discriminate E].
  assert (s' = []) as -> by (vm_compute in E; congruence).
  exists p. split; [reflexivity|].
  exact (proj1 (proj2 (proj2 (proj2 (proj2
    (approved_keys_exact verifier pk_algorithm "ns1.example" 22 identity script p [] E)))))).
Defined.

Lemma direct_route_agrees_witness :
  let tunneled := [{| kl_hosts := "ns1.example"; kl_algorithm := "ssh-ed25519"; kl_encoded := "AAAA" |}] in
  let script := [nothing; prints (host_line ED)] in
  ∃ log, compare_direct (S := Script * list (Z * list KeyLine)) (H := logged) tunnel_verifier "ns1.example" 22
      tunneled (script, []) = (Ok [], ([], log))
    ∧ agree tunneled log.
Proof.
  intros tunneled script.
  destruct (compare_direct (S := Script * list (Z * list KeyLine)) (H := logged) tunnel_verifier "ns1.example" 22
      tunneled (script, [])) as [r [s' log]] eqn:E.
  assert (r = Ok [] ∧ s' = []) as [-> ->] by (vm_compute in E; split; congruence).
  exists log. split; [reflexivity|].
  exact (direct_route_agrees tunnel_verifier "ns1.example" 22 tunneled script [] [] log E).
Defined.

(** The file ends without a line end and already records one of the keys. *)
Lemma persisted_keys_recognised_witness :
  let original := bytes (pin_line "ns1.example" ED) in
  persist_accepted identity [prints (host_line ED)] original
    = Ok (10 :: bytes (pin_line "ns1.example" RSA +:+ newline))
  ∧ (∀ output k, output ∈ [prints (host_line ED)] → ot_success output = true →
       k ∈ parse_key_lines (ot_stdout output) → presented k ∈ hi_keys identity).
Proof.
  intros original.
  assert (persist_accepted identity [prints (host_line ED)] original
          = Ok (10 :: bytes (pin_line "ns1.example" RSA +:+ newline))) as H by (vm_compute; reflexivity).
  split; [exact H|].
  refine (proj1 (persisted_keys_recognised identity [prints (host_line ED)] original _ H _ _ _)).
  - split; [discriminate|vm_compute; reflexivity].
  - reflexivity.
  - reflexivity.
Defined.
