(* ===== verification/Manifest.v ===== *)
(** * The target's manifest

    [crates/deploy/src/manifest.rs] and its parts [flatten], [named_keys] and
    [schema_file]: the schema a host was built with, what it declares to the
    operator, and what a received batch means on this host.

    Accounts, the codecs, the OpenSSH key parsers, the JSON texts of a
    generator and of a derivation, and the files outside the generations are
    arguments. *)
From S2P Require Import Prelude BTree Generator Net Schema SchemaValidation Wire FileSystem FsUtil Deploy Text Paths.
#[local] Open Scope Z_scope.

(** ** Files that are only read *)
Record FileInfo := {
  fi_is_file : bool;
  fi_len : Z;
  fi_uid : Z;
  fi_gid : Z;
  fi_mode : Z;
  fi_contents : list Z
}.
(** [fs::metadata] with [fs::read]; and an open that follows no link. *)
Class HostFiles := {
  follow : string → result IoErr FileInfo;
  nofollow : string → result IoErr FileInfo
}.

Definition MAX_MANIFEST_BYTES : Z := 16 * 1024 * 1024.
Definition load_schema `{HostFiles} (from_json : string → result string Schema) (path : string)
  : result DeployError Schema :=
  _ ← guard_err (is_absolute path) (Invalid "manifest path must be absolute");
  file ← map_err Io (follow path);
  _ ← guard_err (negb (negb (fi_is_file file) || (MAX_MANIFEST_BYTES <? fi_len file)))
        (Invalid "manifest must be a regular file no larger than 16 MiB");
  input ← ok_or (Io (other "stream did not contain valid UTF-8")) (from_utf8 (fi_contents file));
  map_err (λ error, Invalid ("invalid manifest: " +:+ error)) (from_json input).

(** ** Manifest entries *)
Record Expected := {
  ex_service : string;
  ex_class : SecretClass;
  ex_secret : string;
  ex_owner : Z;
  ex_group : Z;
  ex_mode : Z
}.
Record ManifestEntry := {
  me_service : string;
  me_destination : Destination;
  me_public_info : option PublicInfoAttestation
}.
Record TargetLeaves := { tl_secrets : list TargetSecret; tl_tasks : list TargetTask }.

Definition identifier (host namespace service : string) (parents : list string) : string :=
  join "." (host :: namespace :: service :: parents).

Definition attestation (leaf : SecretLeaf) : option PublicInfoAttestation :=
  (λ shared_id,
    {| pa_shared_id := shared_id;
       pa_expected_ssh_host := default "" (lf_expected_ssh_host leaf);
       pa_expected_ssh_port := default 0 (lf_expected_ssh_port leaf);
       pa_expected_ssh_hosts := lf_expected_ssh_hosts leaf |}) <$> lf_shared_public_id leaf.

Definition insert_entry (identifier : string) (spec : ManifestEntry) (output : list (string * ManifestEntry))
  : result DeployError (list (string * ManifestEntry)) :=
  _ ← guard_err (negb (bt_contains identifier output))
        (Invalid ("duplicate manifest identifier: " +:+ identifier));
  Ok (bt_insert identifier spec output).

Fixpoint flatten (hostname namespace service : string) (parents : list string) (node : SecretNode)
    (output : list (string * ManifestEntry)) : result DeployError (list (string * ManifestEntry)) :=
  match node with
  | Operator _ => Ok output
  | Branch children =>
      (fix flatten_children children output :=
         match children with
         | [] => Ok output
         | (name, child) :: children =>
             match flatten hostname namespace service (parents ++ [name]) child output with
             | Ok output => flatten_children children output
             | Err e => Err e
             end
         end) children output
  | Secret leaf =>
      insert_entry (identifier hostname namespace service parents)
        {| me_service := service; me_destination := lf_destination leaf;
           me_public_info := attestation leaf |} output
  | Generated leaf =>
      insert_entry (identifier hostname namespace service parents)
        {| me_service := service; me_destination := gs_output (gl_generated_secret leaf);
           me_public_info := None |} output
  end.

Definition flatten_host (hostname : string) (host : HostSchema)
  : result DeployError (list (string * ManifestEntry)) :=
  try_fold (λ expected '(namespace, services),
    try_fold (λ expected '(service, node), flatten hostname namespace service [] node expected)
      expected services) [] (hs_service_groups host).

Definition no_host (hostname : string) : DeployError := Invalid ("manifest has no host " +:+ hostname).

(** ** What the target declares *)
Definition wire_destination (value : Destination) (consumers : list string) : WireDestination :=
  {| wd_path := ds_path value; wd_category := ds_category value; wd_owner := ds_owner value;
     wd_group := ds_group value; wd_mode := ds_mode value; wd_consumer_units := consumers |}.

Section State.
(** [fingerprint] of a generator and of a derivation: their JSON. *)
Context (generator_json : DeployGenerator → string) (derived_json : DerivedFrom → string).

Definition target_secret (identifier : string) (leaf : SecretLeaf) (versions : list (string * string))
  : TargetSecret :=
  {| ts_identifier := identifier;
     ts_recipient_ids := lf_recipient_ids leaf;
     ts_destination := wire_destination (lf_destination leaf) (lf_consumer_units leaf);
     ts_public_info := attestation leaf;
     ts_current_version_id := bt_get identifier versions;
     ts_generator := match leaf_deployment_generator leaf with
                     | Ok generator => Some (generator_json generator)
                     | Err _ => None
                     end;
     ts_derived := derived_json <$> lf_derived_from leaf |}.

Definition wire_bootstrap (bootstrap : StorageBoxBootstrap) : WireBootstrap :=
  {| wb_host := sb_host bootstrap; wb_port := sb_port bootstrap; wb_user := sb_user bootstrap;
     wb_host_public_keys := sb_host_public_keys bootstrap;
     wb_known_hosts_file := sb_known_hosts_file bootstrap |}.

Definition target_task (identifier : string) (leaf : GeneratedSecretLeaf) (versions : list (string * string))
  : TargetTask :=
  let generated := gl_generated_secret leaf in
  {| tt_identifier := identifier;
     tt_task_type := match gs_secret_type generated with
                     | StorageBoxSshKey => STORAGE_BOX_SSH_KEY
                     | LocalSshKey => LOCAL_SSH_KEY
                     end;
     tt_recipient_ids := gl_recipient_ids leaf;
     tt_output := wire_destination (gs_output generated) (gl_consumer_units leaf);
     tt_bootstrap := wire_bootstrap <$> gs_bootstrap generated;
     tt_current_version_id := bt_get identifier versions |}.

Fixpoint flatten_target (hostname namespace service : string) (parents : list string) (node : SecretNode)
    (versions : list (string * string)) (output : TargetLeaves) : TargetLeaves :=
  match node with
  | Operator _ => output
  | Branch children =>
      (fix go children output :=
         match children with
         | [] => output
         | (name, child) :: children =>
             go children (flatten_target hostname namespace service (parents ++ [name]) child versions output)
         end) children output
  | Secret leaf =>
      {| tl_secrets := tl_secrets output
           ++ [target_secret (identifier hostname namespace service parents) leaf versions];
         tl_tasks := tl_tasks output |}
  | Generated leaf =>
      {| tl_secrets := tl_secrets output;
         tl_tasks := tl_tasks output
           ++ [target_task (identifier hostname namespace service parents) leaf versions] |}
  end.

(** [sort_unstable_by] on the identifiers, which a schema never repeats. *)
Definition sort_by_identifier {T : Type} (key : T → string) (items : list T) : list T :=
  merge_sort (λ a b, kle (key a) (key b)) items.

Definition target_state (schema : Schema) (hostname : string) (versions : list (string * string))
  : result DeployError TargetState :=
  host ← ok_or (no_host hostname) (bt_get hostname schema);
  let leaves := foldl (λ leaves '(namespace, services),
    foldl (λ leaves '(service, node), flatten_target hostname namespace service [] node versions leaves)
      leaves services) {| tl_secrets := []; tl_tasks := [] |} (hs_service_groups host) in
  Ok {| st_protocol_version := DEPLOYMENT_PROTOCOL_VERSION; st_hostname := hostname;
        st_secrets := sort_by_identifier ts_identifier (tl_secrets leaves);
        st_tasks := sort_by_identifier tt_identifier (tl_tasks leaves);
        st_absent := []; st_unselected := [] |}.

Definition load_target_state `{HostFiles} (from_json : string → result string Schema)
    (path hostname : string) (versions : list (string * string)) : result DeployError TargetState :=
  schema ← load_schema from_json path;
  target_state schema hostname versions.
End State.

(** ** Destinations *)
Definition category_class (category : string) : option SecretClass :=
  if bool_decide (category = "setup") then Some Setup
  else if bool_decide (category = "service") then Some Service
  else if bool_decide (category = "backup") then Some Backup
  else if bool_decide (category = "public-info") then Some Deploy.PublicInfo
  else None.

(** [u32::from_str_radix(_, 8)]: a plus sign is allowed. *)
Definition parse_octal (text : string) : option Z :=
  let digits := default text (strip_prefix "+" text) in
  if bool_decide (digits = "") then None else from_str_radix 8 digits.

Section Values.
(** [User::from_name] and [Group::from_name]: an error, no such name, or the id. *)
Context (user_id group_id : string → result string (option Z)).
Context (b64_decode : string → option (list Z)) (from_openssh : string → option Algorithm).
(** Whether an OpenSSH private key is encrypted. *)
Context (private_key : string → option bool).

Definition account (kind name : string) (lookup : result string (option Z)) : result DeployError Z :=
  id ← map_err (λ error, Invalid ("account lookup failed: " +:+ error)) lookup;
  ok_or (Missing ("its " +:+ kind +:+ " " +:+ name +:+ " does not exist on this host")) id.

Definition expected_from_destination (service : string) (destination : Destination)
  : result DeployError Expected :=
  class ← ok_or (Invalid "manifest has invalid secret category") (category_class (ds_category destination));
  let public := bool_decide (class = Deploy.PublicInfo) in
  let root := if public then "/persistent/public-info" else "/persistent/secrets" in
  let path := components (ds_path destination) in
  destination_service ←
    (if public
     then ok_or (Invalid "public-info destination has no service component")
            (parent ← path_parent path; path_file_name parent)
     else Ok service);
  let expected_parent := path_join root destination_service in
  let expected_parent := if public then expected_parent else path_join expected_parent (directory class) in
  _ ← guard_err (bool_decide (path_parent path = Some (components expected_parent)))
        (Invalid ("manifest destination is outside service boundary: " +:+ ds_path destination));
  secret ← ok_or (Invalid "manifest destination has no UTF-8 filename") (path_file_name path);
  _ ← validate_name "secret" secret;
  owner ← account "owner" (ds_owner destination) (user_id (ds_owner destination));
  group ← account "group" (ds_group destination) (group_id (ds_group destination));
  let mode_text := default (ds_mode destination) (strip_prefix "0o" (ds_mode destination)) in
  mode ← ok_or (Invalid ("invalid mode: " +:+ ds_mode destination)) (parse_octal mode_text);
  _ ← (if public then guard_err (mode =? oct [6; 4; 4]) (Invalid "public-info mode must be 0644")
       else validate_mode mode);
  Ok {| ex_service := destination_service; ex_class := class; ex_secret := secret;
        ex_owner := owner; ex_group := group; ex_mode := mode |}.

(** ** Contents *)
Definition is_key_name_byte (b : Z) : bool := is_ascii_alphanumeric b || byte_of "._-" b.

(** One turn of the loop of [validate_named_ssh_keys]. *)
Definition named_key_line (acc : list (string * unit) * Z) (line : string)
  : result DeployError (list (string * unit) * Z) :=
  let '(names, count) := acc in
  if bool_decide (line = "") then Ok (names, count)
  else
    match split_ascii_whitespace line with
    | [name; algorithm; encoded] =>
        _ ← guard_err (negb ((128 <? slen name) || bool_decide (name = "")
                             || negb (all_bytes is_key_name_byte name) || bt_contains name names
                             || negb (bool_decide (algorithm = "ssh-ed25519"))))
              (Invalid "invalid named public key entry");
        blob ← ok_or (Invalid "invalid public key base64") (b64_decode encoded);
        _ ← guard_err (negb (negb (zlen blob =? 51)
                             || negb (bool_decide (take 15 blob = [0; 0; 0; 11] ++ bytes "ssh-ed25519"))
                             || negb (bool_decide (take 4 (drop 15 blob) = [0; 0; 0; 32]))))
              (Invalid "invalid Ed25519 public key");
        Ok (bs_insert name names, count + 1)
    | _ => Err (Invalid "invalid named public key line")
    end.

Definition validate_named_ssh_keys (contents : list Z) : result DeployError unit :=
  text ← ok_or (Invalid "public key inventory is not UTF-8") (from_utf8 contents);
  _ ← guard_err (slen text <=? 128 * 1024) (Invalid "public key inventory is too large");
  '(_, count) ← try_fold named_key_line ([], 0) (str_lines text);
  guard_err (negb ((count =? 0) || (128 <? count))) (Invalid "invalid number of public keys").

(** [error.to_string()]. *)
Definition deploy_error_show (error : DeployError) : string :=
  match error with
  | Invalid message => message
  | Missing message => "not deployed: " +:+ message
  | Io error => io_text error
  | Context step error => step +:+ ": " +:+ io_text error
  | OutOfFuel => ""
  end.

Definition refuse (reason : string) : DeployError := Missing ("this host refuses the value: " +:+ reason).

Definition check_public (public : PublicInfoAttestation) (contents : list Z) : result DeployError unit :=
  text ← ok_or (refuse "public information is not UTF-8") (from_utf8 contents);
  map_err refuse
    (validate_ssh_known_hosts from_openssh text (attested_hosts public) (pa_expected_ssh_port public)).

Definition check_content_type (content_type : option string) (contents : list Z) : result DeployError unit :=
  if bool_decide (content_type = Some "named-ssh-ed25519-public-keys") then
    map_err (λ error, refuse (deploy_error_show error)) (validate_named_ssh_keys contents)
  else if bool_decide (content_type = Some "openssh-private-key") then
    text ← ok_or (refuse "SSH private key is not UTF-8") (from_utf8 contents);
    encrypted ← ok_or (refuse "invalid OpenSSH private key") (private_key text);
    guard_err (negb encrypted) (refuse "OpenSSH private key requires an interactive passphrase")
  else if bool_decide (content_type = Some "openssh-public-key") then
    text ← ok_or (refuse "SSH public key is not UTF-8") (from_utf8 contents);
    _ ← ok_or (refuse "invalid OpenSSH public key") (from_openssh (trim text));
    Ok tt
  else Ok tt.

Definition audit_key_names (content_type : option string) (contents : list Z) : list string :=
  if bool_decide (content_type = Some "named-ssh-ed25519-public-keys")
  then omap (λ line, head (split_ascii_whitespace line)) (str_lines (default "" (from_utf8 contents)))
  else [].

Definition resolve_contents (entry : ManifestEntry) (contents : list Z)
  : result DeployError (Expected * list string) :=
  spec ← expected_from_destination (me_service entry) (me_destination entry);
  _ ← match me_public_info entry with Some public => check_public public contents | None => Ok tt end;
  let content_type := ds_content_type (me_destination entry) in
  _ ← check_content_type content_type contents;
  Ok (spec, audit_key_names content_type contents).

(** ** Batches *)
Record SecretDeployment := { sd_identifier : string; sd_version_id : string; sd_contents_base64 : string }.
Record DeploymentBatch := {
  db_version : Z;
  db_requested_identifiers : list string;
  db_entries : list SecretDeployment
}.

Definition supplied_map (entries : list SecretDeployment)
  : result DeployError (list (string * SecretDeployment)) :=
  try_fold (λ supplied entry,
    _ ← guard_err (negb (bt_contains (sd_identifier entry) supplied))
          (Invalid ("duplicate secret identifier: " +:+ sd_identifier entry));
    Ok (bt_insert (sd_identifier entry) entry supplied)) [] entries.

Record Resolving := {
  rv_expected : list (string * ManifestEntry);
  rv_entries : list ResolvedSecret;
  rv_left_out : list (string * string)
}.

(** One turn of the loop over the requested identifiers. *)
Definition resolve_one (supplied : list (string * SecretDeployment)) (acc : Resolving) (identifier : string)
  : result DeployError Resolving :=
  entry ← ok_or (Invalid ("requested secret is absent from manifest: " +:+ identifier))
            (bt_get identifier (rv_expected acc));
  let expected := bt_remove identifier (rv_expected acc) in
  value ← ok_or (Invalid ("missing secret: " +:+ identifier)) (bt_get identifier supplied);
  _ ← guard_err (negb (bool_decide (sd_version_id value = "") || (256 <? slen (sd_version_id value))))
        (Invalid ("invalid version for " +:+ identifier));
  contents ← ok_or (Invalid ("invalid base64 for " +:+ identifier)) (b64_decode (sd_contents_base64 value));
  _ ← match me_public_info entry with
      | Some public =>
          guard_err (bool_decide (ds_path (me_destination entry)
                                  = "/persistent/public-info/" +:+ pa_shared_id public))
            (Invalid "public-info destination does not match its shared ID")
      | None => Ok tt
      end;
  match resolve_contents entry contents with
  | Ok (spec, names) =>
      Ok {| rv_expected := expected;
            rv_entries := rv_entries acc ++
              [{| rs_identifier := identifier; rs_version_id := sd_version_id value;
                  rs_service := ex_service spec; rs_class := ex_class spec; rs_secret := ex_secret spec;
                  rs_contents := contents; rs_owner := ex_owner spec; rs_group := ex_group spec;
                  rs_mode := ex_mode spec;
                  rs_audit_ssh_user := ds_authorized_for_user (me_destination entry);
                  rs_audit_key_names := names |}];
            rv_left_out := rv_left_out acc |}
  | Err (Missing reason) =>
      Ok {| rv_expected := expected; rv_entries := rv_entries acc;
            rv_left_out := bt_insert identifier reason (rv_left_out acc) |}
  | Err error => Err error
  end.

Definition validate_manifest (schema : Schema) (hostname : string) (batch : DeploymentBatch)
  : result DeployError (list ResolvedSecret * list (string * string)) :=
  let version := if in_range 0 u16_max (db_version batch) then db_version batch else 0 in
  _ ← guard_err (in_range LEGACY_DEPLOYMENT_PROTOCOL_VERSION DEPLOYMENT_PROTOCOL_VERSION version)
        (Invalid "unsupported deployment version");
  host ← ok_or (no_host hostname) (bt_get hostname schema);
  expected ← flatten_host hostname host;
  _ ← guard_err (negb (bool_decide (db_requested_identifiers batch = [])))
        (Invalid "deployment requests no secrets");
  let requested := bs_of_list (db_requested_identifiers batch) in
  _ ← guard_err (zlen requested =? zlen (db_requested_identifiers batch))
        (Invalid "deployment contains duplicate requested identifiers");
  supplied ← supplied_map (db_entries batch);
  _ ← guard_err (negb (negb (zlen supplied =? zlen requested)
                       || existsb (λ identifier, negb (bt_contains identifier requested)) (bt_keys supplied)))
        (Invalid "deployment entries do not exactly match the requested identifiers");
  resolved ← try_fold (resolve_one supplied)
               {| rv_expected := expected; rv_entries := []; rv_left_out := [] |} (bt_keys requested);
  Ok (rv_entries resolved, rv_left_out resolved).

Definition load_and_validate_leaving_out `{HostFiles} (from_json : string → result string Schema)
    (path hostname : string) (batch : DeploymentBatch)
  : result DeployError (list ResolvedSecret * list (string * string)) :=
  _ ← guard_err (is_absolute path) (Invalid "manifest path must be absolute");
  schema ← load_schema from_json path;
  validate_manifest schema hostname batch.

Definition load_and_validate_manifest `{HostFiles} (from_json : string → result string Schema)
    (path hostname : string) (batch : DeploymentBatch) : result DeployError (list ResolvedSecret) :=
  '(resolved, left_out) ← load_and_validate_leaving_out from_json path hostname batch;
  match left_out with
  | [] => Ok resolved
  | (identifier, reason) :: _ => Err (Invalid (identifier +:+ ": " +:+ reason))
  end.
End Values.
