(* ===== verification/ManifestFacts.v ===== *)
(** * What a manifest makes of a batch *)
From S2P Require Import Prelude BTree Generator Net Schema SchemaValidation Wire FileSystem FsUtil Deploy Text Paths Manifest.
#[local] Open Scope Z_scope.

(** ** The entries of a manifest *)
Definition entry_of (path : list string) (node : SecretNode) : option ManifestEntry :=
  match node with
  | Secret leaf =>
      Some {| me_service := nth 2 path ""; me_destination := lf_destination leaf;
              me_public_info := attestation leaf |}
  | Generated leaf =>
      Some {| me_service := nth 2 path ""; me_destination := gs_output (gl_generated_secret leaf);
              me_public_info := None |}
  | _ => None
  end.

Definition flatten_step (output : list (string * ManifestEntry)) (x : list string * SecretNode)
  : result DeployError (list (string * ManifestEntry)) :=
  match entry_of x.1 x.2 with
  | Some entry => insert_entry (path_show x.1) entry output
  | None => Ok output
  end.

Lemma flatten_leaves node host namespace service parents output :
  flatten host namespace service parents node output
    = try_fold flatten_step output (leaves_of (host :: namespace :: service :: parents) node).
Proof.
  revert parents output.
  induction node as [l|l|l|children IH] using SecretNode_ind'; intros parents output.
  1-3: cbn [flatten leaves_of try_fold]; unfold flatten_step; cbn [entry_of fst snd];
       try done; unfold path_show, identifier; by destruct (insert_entry _ _ _).
  rewrite leaves_of_branch, <- try_fold_mjoin. cbn [flatten]. revert output.
  induction IH as [|[name child] children Hc _ IHc]; intros output; [done|]. cbn [try_fold snd] in *.
  rewrite Hc. change ((host :: namespace :: service :: parents) ++ [name])
    with (host :: namespace :: service :: parents ++ [name]).
  destruct (try_fold _ output _); [apply IHc|done].
Qed.

Lemma flatten_host_leaves hostname host :
  flatten_host hostname host = try_fold flatten_step [] (schema_leaves [(hostname, host)]).
Proof. unfold flatten_host. apply (services_leaves flatten_step). intros. apply flatten_leaves. Qed.

Lemma flatten_fold l acc output :
  bt_wf acc → try_fold flatten_step acc l = Ok output →
  bt_wf output ∧
  ∀ id entry, bt_get id output = Some entry ↔
    bt_get id acc = Some entry ∨ ∃ p n, (p, n) ∈ l ∧ id = path_show p ∧ entry_of p n = Some entry.
Proof.
  revert acc. induction l as [|[p n] l IH]; intros acc Hacc; cbn [try_fold].
  { intros [= ->]. split; [done|]. intros id entry. split; [auto|]. intros [?|(? & ? & Hin & _)]; [done|].
    by apply not_elem_of_nil in Hin. }
  destruct (flatten_step acc (p, n)) as [acc'|] eqn:E; [|done]. intros H.
  unfold flatten_step in E. cbn [fst snd] in E. destruct (entry_of p n) as [entry0|] eqn:En.
  - unfold insert_entry in E. apply guard_bind_ok in E as [Hnew [= <-]].
    apply negb_true_iff in Hnew. unfold bt_contains in Hnew. apply is_some_false in Hnew.
    apply IH in H as [Hwf H]; [|by apply bt_wf_insert]. split; [done|]. intros id entry. rewrite H.
    destruct (decide (id = path_show p)) as [->|Hne].
    + rewrite bt_get_insert_eq, Hnew. split.
      * intros [[= <-]|(p' & n' & ? & ? & ?)]; right; [exists p, n; split; [by left|done]|].
        exists p', n'. split; [by right|done].
      * intros [?|(p' & n' & [[= -> ->]|Hin]%elem_of_cons & ? & Hs)]; [done| |].
        -- left. by rewrite En in Hs.
        -- right. by exists p', n'.
    + rewrite bt_get_insert_ne by done. split.
      * intros [?|(p' & n' & ? & ? & ?)]; [by left|right]. exists p', n'. split; [by right|done].
      * intros [?|(p' & n' & [[= -> ->]|Hin]%elem_of_cons & ? & Hs)]; [by left|done|].
        right. by exists p', n'.
  - injection E as <-. apply IH in H as [Hwf H]; [|done]. split; [done|]. intros id entry. rewrite H. split.
    + intros [?|(p' & n' & ? & ? & ?)]; [by left|right]. exists p', n'. split; [by right|done].
    + intros [?|(p' & n' & [[= -> ->]|Hin]%elem_of_cons & ? & Hs)]; [by left|by rewrite En in Hs|].
      right. by exists p', n'.
Qed.

(** What [leaf] says a batch may set, with the service that owns it. *)
Definition spec_entry (spec : LeafSpec) : option ManifestEntry :=
  match spec with
  | Stored spec =>
      Some {| me_service := nth 2 (ss_path spec) ""; me_destination := ss_destination spec;
              me_public_info := (λ shared_id,
                {| pa_shared_id := shared_id;
                   pa_expected_ssh_host := default "" (ss_expected_ssh_host spec);
                   pa_expected_ssh_port := default 0 (ss_expected_ssh_port spec);
                   pa_expected_ssh_hosts := ss_expected_ssh_hosts spec |}) <$> ss_shared_public_id spec |}
  | GeneratedSpec spec =>
      Some {| me_service := nth 2 (gp_path spec) ""; me_destination := gs_output (gp_generated_secret spec);
              me_public_info := None |}
  | OperatorOnly _ => None
  end.

Lemma leaf_spec_entry p n spec : leaf_spec p n = Some spec → spec_entry spec = entry_of p n.
Proof. destruct n; cbn; intros; by simplify_eq. Qed.

(** The map a manifest is flattened into has exactly the leaves a batch may set. *)
Lemma flatten_host_exact schema hostname host expected :
  schema_wf schema → bt_get hostname schema = Some host → flatten_host hostname host = Ok expected →
  bt_wf expected ∧
  ∀ id entry, bt_get id expected = Some entry ↔
    ∃ p spec, id = path_show p ∧ nth 0 p "" = hostname ∧ 3 ≤ zlen p
              ∧ leaf schema p = Ok spec ∧ spec_entry spec = Some entry.
Proof.
  intros Hwf Hh Hf. rewrite flatten_host_leaves in Hf. apply flatten_fold in Hf as [Hb H]; [|constructor].
  split; [done|]. intros id entry. rewrite H. split.
  - intros [?|(p & n & Hin & -> & He)]; [done|]. destruct (host_leaves_len _ _ _ _ Hin) as [Hn Hl].
    destruct (leaf_spec p n) as [spec|] eqn:Es; [|by destruct n].
    exists p, spec. split; [done|]. split; [done|]. split; [done|].
    split; [apply (host_leaves_elem schema hostname host); eauto|]. by rewrite (leaf_spec_entry p n).
  - intros (p & spec & -> & Hn & Hl & Hleaf & Hs). right.
    apply (host_leaves_elem schema hostname host) in Hleaf as (n & Hin & Es); [|done..].
    exists p, n. split; [done|]. split; [done|]. by rewrite <- (leaf_spec_entry p n spec).
Qed.

(** ** Destinations *)
Lemma name_is_plain kind name : validate_name kind name = Ok tt → plain_name name.
Proof.
  unfold validate_name. intros H%guard_ok. bool_prop. destruct H as [[[[H1 _] H2] H3] H4].
  split; [done|]. split; [done|]. split; [done|]. by eapply all_bytes_not_contains.
Qed.

Definition root_of (class : SecretClass) : string :=
  if bool_decide (class = Deploy.PublicInfo) then "/persistent/public-info" else "/persistent/secrets".

Section Values.
Context (user_id group_id : string → result string (option Z)).
Context (b64_decode : string → option (list Z)) (from_openssh : string → option Algorithm).
Context (private_key : string → option bool).

(** What a destination means on this host. *)
Record resolves_to (destination : Destination) (spec : Expected) : Prop := {
  rt_class : category_class (ds_category destination) = Some (ex_class spec);
  rt_path : validate_name "service" (ex_service spec) = Ok tt →
    components (ds_path destination)
      = components (root_of (ex_class spec)) ++ (Normal <$> ex_service spec
          :: (if bool_decide (directory (ex_class spec) = "") then [] else [directory (ex_class spec)])
          ++ [ex_secret spec]);
  rt_secret : validate_name "secret" (ex_secret spec) = Ok tt;
  rt_owner : user_id (ds_owner destination) = Ok (Some (ex_owner spec));
  rt_group : group_id (ds_group destination) = Ok (Some (ex_group spec));
  rt_mode : parse_octal (default (ds_mode destination) (strip_prefix "0o" (ds_mode destination)))
            = Some (ex_mode spec);
  rt_mode_ok : if bool_decide (ex_class spec = Deploy.PublicInfo) then ex_mode spec = oct [6; 4; 4]
               else validate_mode (ex_mode spec) = Ok tt
}.

Lemma account_ok kind name lookup id : account kind name lookup = Ok id → lookup = Ok (Some id).
Proof. unfold account. destruct lookup as [[i|]|]; cbn; by intros [= ->]. Qed.

Lemma expected_from_destination_ok service destination spec :
  expected_from_destination user_id group_id service destination = Ok spec →
  resolves_to destination spec ∧ (ex_class spec ≠ Deploy.PublicInfo → ex_service spec = service).
Proof.
  unfold expected_from_destination. intros (class & Hc & H)%bind_ok.
  apply bind_ok in H as (sv & Hsv & H). apply guard_bind_ok in H as [Hp H]. apply bool_decide_eq_true in Hp.
  apply bind_ok in H as (name & Hn & H). apply then_ok in H as [Hname H].
  apply bind_ok in H as (owner & Ho & H). apply bind_ok in H as (group & Hg & H).
  apply bind_ok in H as (mode & Hm & H). apply then_ok in H as [Hmode [= <-]].
  assert (category_class (ds_category destination) = Some class) as Hc'.
  { destruct (category_class _); cbn in Hc; congruence. }
  split; [|intros Hne; cbn in *; rewrite bool_decide_false in Hsv by done; congruence].
  constructor; cbn; try done.
  - intros Hsvc%name_is_plain.
    assert (path_file_name (components (ds_path destination)) = Some name) as Hfile.
    { destruct (path_file_name _); cbn in Hn; congruence. }
    rewrite (path_parts _ _ _ Hp Hfile). unfold root_of.
    destruct (decide (class = Deploy.PublicInfo)) as [->|Hne].
    + rewrite !bool_decide_true by done. by rewrite components_join, <- app_assoc by done.
    + rewrite !(bool_decide_false (class = Deploy.PublicInfo)) by done.
      rewrite (bool_decide_false (directory class = "")) by (by destruct class).
      destruct (path_join_plain "/persistent/secrets" sv) as [Ha He]; [done..|].
      rewrite components_join, components_join by (done || by destruct class). by rewrite <- !app_assoc.
  - by apply account_ok in Ho.
  - by apply account_ok in Hg.
  - destruct (parse_octal _); cbn in Hm; congruence.
  - destruct (bool_decide (class = Deploy.PublicInfo)); [|done].
    apply guard_ok in Hmode. by apply Z.eqb_eq in Hmode.
Qed.

(** ** Resolving a batch *)
(** What becomes of one requested value. *)
Record considered (expected : list (string * ManifestEntry)) (supplied : list (string * SecretDeployment))
    (id : string) (entry : ManifestEntry) (value : SecretDeployment) (contents : list Z) : Prop := {
  cs_entry : bt_get id expected = Some entry;
  cs_value : bt_get id supplied = Some value;
  cs_version : sd_version_id value ≠ "" ∧ slen (sd_version_id value) ≤ 256;
  cs_contents : b64_decode (sd_contents_base64 value) = Some contents;
  cs_public : ∀ public, me_public_info entry = Some public →
    ds_path (me_destination entry) = "/persistent/public-info/" +:+ pa_shared_id public
}.
Arguments considered : clear implicits.

Definition resolve (entry : ManifestEntry) (contents : list Z) : result DeployError (Expected * list string) :=
  resolve_contents user_id group_id b64_decode from_openssh private_key entry contents.

Definition resolved_secret (id : string) (entry : ManifestEntry) (value : SecretDeployment)
    (contents : list Z) (spec : Expected) (names : list string) : ResolvedSecret :=
  {| rs_identifier := id; rs_version_id := sd_version_id value; rs_service := ex_service spec;
     rs_class := ex_class spec; rs_secret := ex_secret spec; rs_contents := contents;
     rs_owner := ex_owner spec; rs_group := ex_group spec; rs_mode := ex_mode spec;
     rs_audit_ssh_user := ds_authorized_for_user (me_destination entry);
     rs_audit_key_names := names |}.

(** The value is resolved, or left out for a reason. *)
Definition outcome (expected : list (string * ManifestEntry)) (supplied : list (string * SecretDeployment))
    (id : string) (r : ResolvedSecret + string) : Prop :=
  ∃ entry value contents, considered expected supplied id entry value contents
    ∧ match r with
      | inl e => ∃ spec names, resolve entry contents = Ok (spec, names)
                               ∧ e = resolved_secret id entry value contents spec names
      | inr reason => resolve entry contents = Err (Missing reason)
      end.

Definition deployed (r : ResolvedSecret + string) : option ResolvedSecret :=
  match r with inl e => Some e | inr _ => None end.
Definition leave_out (left_out : list (string * string)) (x : string * (ResolvedSecret + string)) :=
  match x.2 with inl _ => left_out | inr reason => bt_insert x.1 reason left_out end.

Lemma resolve_one_ok supplied acc id acc' :
  resolve_one user_id group_id b64_decode from_openssh private_key supplied acc id = Ok acc' →
  rv_expected acc' = bt_remove id (rv_expected acc)
  ∧ ∃ r, outcome (rv_expected acc) supplied id r
      ∧ rv_entries acc' = rv_entries acc ++ option_list (deployed r)
      ∧ rv_left_out acc' = leave_out (rv_left_out acc) (id, r).
Proof.
  unfold resolve_one. intros (entry & He & H)%bind_ok. apply bind_ok in H as (value & Hv & H).
  apply guard_bind_ok in H as [Hver H]. apply bind_ok in H as (contents & Hc & H).
  apply then_ok in H as [Hp H].
  assert (considered (rv_expected acc) supplied id entry value contents) as Hcons.
  { constructor.
    - by destruct (bt_get id (rv_expected acc)); cbn in He; simplify_eq.
    - by destruct (bt_get id supplied); cbn in Hv; simplify_eq.
    - bool_prop. done.
    - by destruct (b64_decode _); cbn in Hc; simplify_eq.
    - intros public Hpub. rewrite Hpub in Hp. apply guard_ok in Hp. by apply bool_decide_eq_true in Hp. }
  destruct (resolve_contents _ _ _ _ _ _ _) as [[spec names]|error] eqn:Er.
  - injection H as <-. split; [done|]. exists (inl (resolved_secret id entry value contents spec names)).
    split; [|done]. exists entry, value, contents. split; [done|]. by exists spec, names.
  - destruct error as [| | |reason|]; try done. injection H as <-. split; [done|].
    exists (inr reason). rewrite app_nil_r. split; [|done]. by exists entry, value, contents.
Qed.

Lemma outcome_mono expected expected' supplied id r :
  (∀ id entry, bt_get id expected = Some entry → bt_get id expected' = Some entry) →
  outcome expected supplied id r → outcome expected' supplied id r.
Proof.
  intros H (entry & value & contents & [H1 H2 H3 H4 H5] & Hr). exists entry, value, contents.
  split; [constructor; auto|done].
Qed.

Lemma resolve_fold expected supplied ids acc acc' :
  try_fold (resolve_one user_id group_id b64_decode from_openssh private_key supplied) acc ids = Ok acc' →
  (∀ id entry, bt_get id (rv_expected acc) = Some entry → bt_get id expected = Some entry) →
  ∃ results : list (string * (ResolvedSecret + string)),
    results.*1 = ids ∧ (∀ id r, (id, r) ∈ results → outcome expected supplied id r)
    ∧ rv_entries acc' = rv_entries acc ++ omap deployed results.*2
    ∧ rv_left_out acc' = foldl leave_out (rv_left_out acc) results.
Proof.
  revert acc. induction ids as [|id ids IH]; intros acc; cbn [try_fold].
  { intros [= <-] _. exists []. rewrite app_nil_r. split; [done|]. split; [|done].
    intros id r Hin. by apply not_elem_of_nil in Hin. }
  destruct (resolve_one _ _ _ _ _ supplied acc id) as [acc1|] eqn:E; [|done]. intros Hf Hsub.
  apply resolve_one_ok in E as (Hexp & r & Hr & Hent & Hlo).
  apply IH in Hf as (results & <- & Hall & Hent' & Hlo');
    [|rewrite Hexp; intros; by eapply Hsub, bt_get_remove_Some].
  exists ((id, r) :: results). split; [done|]. split; [|split].
  - intros id' r' [[= -> ->]|Hin]%elem_of_cons; [by eapply outcome_mono|by apply Hall].
  - rewrite Hent', Hent, <- app_assoc. by destruct r.
  - by rewrite Hlo', Hlo.
Qed.

Lemma foldl_leave_out results left_out id reason :
  NoDup results.*1 → (∀ id, id ∈ results.*1 → bt_get id left_out = None) →
  bt_get id (foldl leave_out left_out results) = Some reason ↔
    bt_get id left_out = Some reason ∨ (id, inr reason) ∈ results.
Proof.
  revert left_out. induction results as [|[id' r] results IH]; intros left_out Hnd Hnone.
  { split; [auto|]. intros [?|Hin]; [done|by apply not_elem_of_nil in Hin]. }
  rewrite fmap_cons in Hnd. apply NoDup_cons in Hnd as [Hni Hnd]. cbn [foldl].
  assert (∀ i, i ∈ results.*1 → i ≠ id') as Hne by (intros i Hin ->; done).
  rewrite IH; [|done|].
  - rewrite elem_of_cons. unfold leave_out at 1. cbn [fst snd]. destruct r as [e|reason'].
    + split; [tauto|]. intros [?|[Heq|?]]; [by left|discriminate Heq|by right].
    + destruct (decide (id = id')) as [->|Hd].
      * rewrite bt_get_insert_eq, (Hnone id') by (rewrite fmap_cons; by left). split.
        -- intros [[= ->]|?]; auto.
        -- intros [?|[[= ->]|?]]; auto; done.
      * rewrite bt_get_insert_ne by done. split; [tauto|].
        intros [?|[[= -> ->]|?]]; [by left|done|by right].
  - intros i Hin. unfold leave_out. cbn [fst snd].
    assert (bt_get i left_out = None) as Hi by (apply Hnone; rewrite fmap_cons; by right).
    destruct r; [done|]. rewrite bt_get_insert_ne; [done|by intros ->; apply (Hne i)].
Qed.

Lemma supplied_map_ok entries supplied :
  supplied_map entries = Ok supplied →
  bt_wf supplied ∧ NoDup (sd_identifier <$> entries)
  ∧ ∀ id value, bt_get id supplied = Some value ↔ value ∈ entries ∧ sd_identifier value = id.
Proof.
  unfold supplied_map. rewrite <- (reverse_involutive entries). generalize (reverse entries). clear entries.
  intros entries. revert supplied. induction entries as [|e entries IH]; intros supplied.
  { intros [= <-]. split; [constructor|]. split; [constructor|]. intros id value. split; [done|].
    intros [Hin _]. by apply not_elem_of_nil in Hin. }
  rewrite reverse_cons, try_fold_app. intros (supplied0 & H0 & H)%bind_ok.
  cbn [try_fold] in H. destruct (negb _) eqn:Ed in H; [|done]. cbn in H. injection H as <-.
  apply negb_true_iff in Ed. unfold bt_contains in Ed. apply is_some_false in Ed.
  apply IH in H0 as (Hwf & Hnd & Hget). split; [by apply bt_wf_insert|]. split.
  - rewrite fmap_app. apply NoDup_app. split; [done|]. split; [|apply NoDup_singleton].
    intros id (v & -> & Hv)%list_elem_of_fmap Hin. apply list_elem_of_singleton in Hin.
    assert (bt_get (sd_identifier v) supplied0 = Some v) as Hs by (by apply Hget).
    rewrite Hin in Hs. congruence.
  - intros id value. rewrite elem_of_app, list_elem_of_singleton.
    destruct (decide (id = sd_identifier e)) as [->|Hne].
    + rewrite bt_get_insert_eq. split; [intros [= <-]; auto|].
      intros [[Hin| ->] Hid]; [|done]. exfalso.
      assert (bt_get (sd_identifier e) supplied0 = Some value) by (by apply Hget). congruence.
    + rewrite bt_get_insert_ne, Hget by done. split; [tauto|]. intros [[?| ->] ?]; [done|congruence].
Qed.

(** ** Batches on this host *)
Lemma omap_deployed_elem results e :
  e ∈ omap deployed results.*2 ↔ ∃ id, (id, inl e) ∈ (results : list (string * (ResolvedSecret + string))).
Proof.
  rewrite list_elem_of_omap. split.
  - intros (r & ([id r'] & -> & Hin)%list_elem_of_fmap & Hr). exists id. cbn in Hr.
    destruct r' as [e'|]; cbn in Hr; by simplify_eq.
  - intros (id & Hin). exists (inl e). split; [|done]. apply list_elem_of_fmap. by exists (id, inl e).
Qed.

Lemma deployed_nodup (results : list (string * (ResolvedSecret + string))) :
  NoDup results.*1 → (∀ id e, (id, inl e) ∈ results → rs_identifier e = id) →
  NoDup (rs_identifier <$> omap deployed results.*2).
Proof.
  induction results as [|[id r] results IH]; [constructor|]. rewrite fmap_cons. intros [Hni Hnd]%NoDup_cons Hid.
  destruct r as [e|reason]; cbn [fmap list_fmap snd omap list_omap deployed];
    [|apply IH; [done|intros; apply Hid; by right]].
  apply NoDup_cons. split; [|apply IH; [done|intros; apply Hid; by right]].
  intros (e' & He & (id' & Hin)%omap_deployed_elem)%list_elem_of_fmap. apply Hni.
  apply list_elem_of_fmap. exists (id', inl e'). split; [|done]. cbn.
  rewrite <- (Hid id' e') by (by right). rewrite <- He. symmetry. apply (Hid id e). by left.
Qed.

(** The value for [id] that the batch brings, resolved against the leaf that
    declares it. *)
Definition declared (schema : Schema) (hostname : string) (batch : DeploymentBatch) (id : string)
    (entry : ManifestEntry) (value : SecretDeployment) (contents : list Z) : Prop :=
  (∃ p spec, path_show p = id ∧ nth 0 p "" = hostname ∧ leaf schema p = Ok spec ∧ spec_entry spec = Some entry)
  ∧ value ∈ db_entries batch ∧ sd_identifier value = id
  ∧ (sd_version_id value ≠ "" ∧ slen (sd_version_id value) ≤ 256)
  ∧ b64_decode (sd_contents_base64 value) = Some contents.

Lemma validate_manifest_parts schema hostname batch entries left_out :
  schema_wf schema →
  validate_manifest user_id group_id b64_decode from_openssh private_key schema hostname batch
    = Ok (entries, left_out) →
  ∃ results : list (string * (ResolvedSecret + string)),
    NoDup (db_requested_identifiers batch) ∧ NoDup results.*1
    ∧ (∀ id, id ∈ db_requested_identifiers batch ↔ id ∈ results.*1)
    ∧ entries = omap deployed results.*2
    ∧ (∀ id reason, bt_get id left_out = Some reason ↔ (id, inr reason) ∈ results)
    ∧ (∀ id r, (id, r) ∈ results → ∃ entry value contents,
         declared schema hostname batch id entry value contents
         ∧ match r with
           | inl e => ∃ spec names, resolve entry contents = Ok (spec, names)
                                    ∧ e = resolved_secret id entry value contents spec names
           | inr reason => resolve entry contents = Err (Missing reason)
           end).
Proof.
  intros Hwf. unfold validate_manifest. intros H%guard_bind_ok. destruct H as [_ H].
  apply bind_ok in H as (host & Hh & H). apply bind_ok in H as (expected & Hexp & H).
  apply guard_bind_ok in H as [_ H]. apply guard_bind_ok in H as [Hnd H].
  apply bind_ok in H as (supplied & Hs & H). apply guard_bind_ok in H as [_ H].
  apply bind_ok in H as (resolved & Hr & [= <- <-]).
  assert (bt_get hostname schema = Some host) as Hhost by (by destruct (bt_get hostname schema); cbn in Hh; simplify_eq).
  apply flatten_host_exact with (schema := schema) in Hexp as [Hewf Hexp]; [|done..].
  apply supplied_map_ok in Hs as (_ & _ & Hsup).
  apply (resolve_fold expected) in Hr as (results & Hids & Hall & -> & ->); [|done].
  cbn [rv_entries rv_left_out app]. exists results.
  assert (NoDup results.*1) as Hnd' by (rewrite Hids; apply bt_wf_nodup, bs_of_list_wf).
  split; [|split; [done|split; [|split; [done|split]]]].
  - apply Z.eqb_eq in Hnd. by apply bs_of_list_nodup.
  - intros id. by rewrite Hids, bs_of_list_elem.
  - intros id reason. rewrite foldl_leave_out by done. cbn. split; [by intros [?|?]|auto].
  - intros id r (entry & value & contents & [H1 H2 H3 H4 H5] & Hcase)%Hall.
    exists entry, value, contents. split; [|done].
    apply Hexp in H1 as (p & spec & -> & Hp & _ & Hleaf & Hentry). apply Hsup in H2 as [Hin Hid].
    split; [by exists p, spec|done].
Qed.

(** A batch is accounted for completely: every requested value is either in
    the resolved batch, once, or left out with the reason this host cannot
    accept it, and never both; nothing else is resolved. *)
Theorem batch_accounted_for schema hostname batch entries left_out :
  schema_wf schema →
  validate_manifest user_id group_id b64_decode from_openssh private_key schema hostname batch
    = Ok (entries, left_out) →
  NoDup (db_requested_identifiers batch) ∧ NoDup (rs_identifier <$> entries)
  ∧ (∀ id, id ∈ db_requested_identifiers batch ↔
       id ∈ rs_identifier <$> entries ∨ is_Some (bt_get id left_out))
  ∧ (∀ id, id ∈ rs_identifier <$> entries → bt_get id left_out = None)
  ∧ (∀ id reason, bt_get id left_out = Some reason → ∃ entry value contents,
       declared schema hostname batch id entry value contents
       ∧ resolve entry contents = Err (Missing reason)).
Proof.
  intros Hwf (results & Hreq & Hnd & Hids & -> & Hleft & Hall)%validate_manifest_parts; [|done].
  assert (∀ id e, (id, inl e) ∈ results → rs_identifier e = id) as Hid.
  { intros id e (entry & value & contents & _ & spec & names & _ & ->)%Hall. done. }
  assert (∀ id, id ∈ rs_identifier <$> omap deployed results.*2 ↔ ∃ e, (id, inl e) ∈ results) as Hin.
  { intros id. rewrite list_elem_of_fmap. setoid_rewrite omap_deployed_elem. split.
    - intros (e & -> & id' & He). exists e. by rewrite (Hid id' e).
    - intros (e & He). exists e. split; [by rewrite (Hid id e)|by exists id]. }
  split; [done|]. split; [by apply deployed_nodup|]. split; [|split].
  - intros id. rewrite Hids, Hin, list_elem_of_fmap. split.
    + intros ([id' [e|reason]] & -> & He); [left; by exists e|right]. exists reason. by apply Hleft.
    + intros [(e & He)|(reason & He%Hleft)]; [by exists (id, inl e)|by exists (id, inr reason)].
  - intros id (e & He)%Hin. destruct (bt_get id left_out) as [reason|] eqn:E; [|done].
    apply Hleft in E. exfalso.
    by pose proof (nodup_fst _ _ _ _ Hnd He E).
  - intros id reason (entry & value & contents & Hd & Hr)%Hleft%Hall. by exists entry, value, contents.
Qed.

(** C38: Every resolved value is the one the batch supplied for a leaf this host
    declares, and the place, the owner, the group and the mode it is
    installed with are exactly those the leaf declares. *)
Theorem values_land_where_declared schema hostname batch entries left_out e :
  schema_wf schema →
  validate_manifest user_id group_id b64_decode from_openssh private_key schema hostname batch
    = Ok (entries, left_out) →
  e ∈ entries →
  ∃ entry value, declared schema hostname batch (rs_identifier e) entry value (rs_contents e)
    ∧ rs_version_id e = sd_version_id value
    ∧ category_class (ds_category (me_destination entry)) = Some (rs_class e)
    ∧ (rs_class e ≠ Deploy.PublicInfo → rs_service e = me_service entry)
    ∧ (validate_name "service" (rs_service e) = Ok tt →
         components (ds_path (me_destination entry))
           = components (root_of (rs_class e)) ++ (Normal <$> relative_path e))
    ∧ user_id (ds_owner (me_destination entry)) = Ok (Some (rs_owner e))
    ∧ group_id (ds_group (me_destination entry)) = Ok (Some (rs_group e))
    ∧ parse_octal (default (ds_mode (me_destination entry)) (strip_prefix "0o" (ds_mode (me_destination entry))))
      = Some (rs_mode e).
Proof.
  intros Hwf (results & _ & _ & _ & -> & _ & Hall)%validate_manifest_parts; [|done].
  intros (id & (entry & value & contents & Hd & spec & names & Hr & ->)%Hall)%omap_deployed_elem.
  unfold resolve, resolve_contents in Hr. apply bind_ok in Hr as (spec' & Hspec & Hr).
  apply then_ok in Hr as [_ Hr]. apply then_ok in Hr as [_ [= -> _]].
  apply expected_from_destination_ok in Hspec as [[H1 H2 _ H4 H5 H6 _] Hs].
  exists entry, value. cbn. repeat (split; [done|]). done.
Qed.
End Values.
