(* ===== verification/ManifestSample.v ===== *)
(** * A manifest, evaluated

    One service declares two passwords, the second with an owner this host
    does not have: the batch deploys the first and leaves the second out. *)
From S2P Require Import Prelude BTree Generator Net Schema SchemaValidation Wire FileSystem FsUtil Deploy Text Paths Manifest ManifestFacts.
#[local] Open Scope Z_scope.

Definition leaf_at (name owner : string) : SecretLeaf :=
  let base := sample_leaf None in
  {| lf_kind := KSecret; lf_shared_public_id := None; lf_expected_ssh_host := None;
     lf_expected_ssh_port := None; lf_expected_ssh_hosts := [];
     lf_install_default_if_missing := false; lf_default_value := None; lf_description := None;
     lf_human_facing := true; lf_external_input_required := false;
     lf_required_for_install := false; lf_optional := false; lf_identity := None;
     lf_presentation := None; lf_recipient_public_keys := lf_recipient_public_keys base;
     lf_recipient_ids := lf_recipient_ids base; lf_recipient_names := [];
     lf_destination := {| ds_path := ds_path (sample_destination "mail" name);
       ds_category := "service"; ds_owner := owner; ds_group := "root"; ds_mode := "0400";
       ds_content_type := None; ds_authorized_for_user := None |};
     lf_consumer_units := []; lf_value_type := Some VtPassword; lf_consumer_constraints := None;
     lf_value_generator := None; lf_generate_on_deploy := true; lf_derived_from := None |}.

Definition mail_host (first second : string) : HostSchema :=
  {| hs_metadata := sample_metadata;
     hs_service_groups := [("services", [("mail",
       Branch [("alias", Secret (leaf_at first "mail")); ("login", Secret (leaf_at second "root"))])])] |}.
Definition mail_schema (first second : string) : Schema := [("web", mail_host first second)].

Lemma single_get {K V} `{OrdKey K} (k k' : K) (v v' : V) : bt_get k [(k', v)] = Some v' → v' = v.
Proof. cbn [bt_get]. destruct (kcmp k k'); naive_solver. Qed.

Lemma mail_schema_wf first second : schema_wf (mail_schema first second).
Proof.
  split.
  - repeat constructor.
  - intros h e ->%single_get. repeat constructor.
  - intros h e ns ss ->%single_get ->%single_get. repeat constructor.
  - intros h e ns ss s n ->%single_get ->%single_get ->%single_get.
    apply wf_branch; [by repeat constructor|]. repeat (constructor; [by apply wf_leaf|]). constructor.
Qed.

Definition accounts (name : string) : result string (option Z) :=
  Ok (if bool_decide (name = "root") then Some 0 else None).
Definition plain_base64 (text : string) : option (list Z) := Some (bytes text).
Definition no_key (text : string) : option Algorithm := None.
Definition no_private_key (text : string) : option bool := None.

Definition value_of (name : string) : SecretDeployment :=
  {| sd_identifier := "web.services.mail." +:+ name; sd_version_id := "v1"; sd_contents_base64 := name |}.
Definition mail_batch : DeploymentBatch :=
  {| db_version := DEPLOYMENT_PROTOCOL_VERSION;
     db_requested_identifiers := ["web.services.mail.login"; "web.services.mail.alias"];
     db_entries := [value_of "alias"; value_of "login"] |}.
Definition login_value : ResolvedSecret :=
  {| rs_identifier := "web.services.mail.login"; rs_version_id := "v1"; rs_service := "mail";
     rs_class := Service; rs_secret := "password"; rs_contents := bytes "login"; rs_owner := 0;
     rs_group := 0; rs_mode := oct [4; 0; 0]; rs_audit_ssh_user := None; rs_audit_key_names := [] |}.
Definition alias_left_out : list (string * string) :=
  [("web.services.mail.alias", "its owner mail does not exist on this host")].
Definition validate_mail (second : string) :=
  validate_manifest accounts accounts plain_base64 no_key no_private_key (mail_schema "alias" second) "web"
    mail_batch.

Lemma validate_mail_result : validate_mail "password" = Ok ([login_value], alias_left_out).
Proof. vm_compute. reflexivity. Qed.

Lemma batch_accounted_for_witness :
  validate_mail "password" = Ok ([login_value], alias_left_out)
  ∧ NoDup (db_requested_identifiers mail_batch) ∧ NoDup (rs_identifier <$> [login_value])
  ∧ (∀ id, id ∈ db_requested_identifiers mail_batch ↔
       id ∈ rs_identifier <$> [login_value] ∨ is_Some (bt_get id alias_left_out))
  ∧ (∀ id, id ∈ rs_identifier <$> [login_value] → bt_get id alias_left_out = None)
  ∧ (∀ id reason, bt_get id alias_left_out = Some reason → ∃ entry value contents,
       declared plain_base64 (mail_schema "alias" "password") "web" mail_batch id entry value contents
       ∧ resolve accounts accounts plain_base64 no_key no_private_key entry contents = Err (Missing reason)).
Proof.
  split; [exact validate_mail_result|].
  exact (batch_accounted_for accounts accounts plain_base64 no_key no_private_key
           (mail_schema "alias" "password") "web" mail_batch [login_value] alias_left_out
           (mail_schema_wf _ _) validate_mail_result).
Defined.

Lemma values_land_where_declared_witness :
  ∃ entry value,
    declared plain_base64 (mail_schema "alias" "password") "web" mail_batch "web.services.mail.login" entry
      value (bytes "login")
    ∧ "v1" = sd_version_id value
    ∧ category_class (ds_category (me_destination entry)) = Some Service
    ∧ (Service ≠ Deploy.PublicInfo → "mail" = me_service entry)
    ∧ (validate_name "service" "mail" = Ok tt →
         components (ds_path (me_destination entry))
           = components (root_of Service) ++ (Normal <$> relative_path login_value))
    ∧ accounts (ds_owner (me_destination entry)) = Ok (Some 0)
    ∧ accounts (ds_group (me_destination entry)) = Ok (Some 0)
    ∧ parse_octal (default (ds_mode (me_destination entry)) (strip_prefix "0o" (ds_mode (me_destination entry))))
      = Some (oct [4; 0; 0]).
Proof.
  exact (values_land_where_declared accounts accounts plain_base64 no_key no_private_key
           (mail_schema "alias" "password") "web" mail_batch [login_value] alias_left_out login_value
           (mail_schema_wf _ _) validate_mail_result ltac:(by left)).
Defined.

(** A schema that [Schema::validate] accepts declares a file name with a
    space: this host refuses the whole batch, not only that value. *)
Theorem spaced_name_refuses_batch :
  schema_validate no_decode no_key (const (Err "")) no_text
    (mail_schema "alias" "pass word") = Ok tt
  ∧ validate_mail "pass word" = Err (Invalid "invalid secret name").
Proof. vm_compute. split; reflexivity. Qed.
