(* ===== verification/Lines.v ===== *)
(** * Substrings, lines and words of texts

    Lemmas on [contains], [lines] and [split_ascii_whitespace] that the
    components which rewrite line-based files share. *)
From S2P Require Import Prelude SchemaValidation Text.
#[local] Open Scope Z_scope.

Definition newline : string := String (zb 10) "".

(** ** Substrings *)
Lemma contains_str_spec p s : contains_str p s = true ↔ ∃ a b, s = a +:+ p +:+ b.
Proof.
  assert (∀ t, starts_with p t = true ↔ ∃ b, t = p +:+ b) as Hs by (intros; apply starts_with_spec).
  induction s as [|c s IH]; cbn [contains_str].
  - rewrite orb_false_r, Hs. split; [intros [b E]; by exists "", b|].
    intros (a & b & E). destruct a; [by exists b|discriminate E].
  - rewrite orb_true_iff, Hs, IH. split.
    + intros [[b E]|(a & b & ->)]; [by exists "", b|by exists (String c a), b].
    + intros (a & b & E). destruct a as [|c' a]; [left; by exists b|].
      right. injection E as <- E. by exists a, b.
Qed.

Lemma contains_byte_app b s t : contains_byte b (s +:+ t) = contains_byte b s || contains_byte b t.
Proof. unfold contains_byte. by rewrite bytes_app, existsb_app. Qed.
Lemma contains_byte_cons b c s : contains_byte b (String c s) = (b =? bz c) || contains_byte b s.
Proof. done. Qed.

(** ** Lines *)
Lemma split_prefix sep a t :
  contains_byte (bz sep) a = false →
  ∃ w ws, split sep t = w :: ws ∧ split sep (a +:+ t) = (a +:+ w) :: ws.
Proof.
  intros Ha. destruct (split sep t) as [|w ws] eqn:E; [by apply split_not_nil in E|].
  exists w, ws. split; [done|]. induction a as [|c a IH]; [done|].
  rewrite contains_byte_cons in Ha. apply orb_false_iff in Ha as [Hc Ha].
  change (String c a +:+ ?x) with (String c (a +:+ x)). cbn [split].
  destruct (Ascii.eqb_spec c sep) as [->|_]; [by rewrite Z.eqb_refl in Hc|]. by rewrite IH.
Qed.

(** The parts have no separator, and no byte the text does not have. *)
Lemma split_parts sep s part :
  part ∈ split sep s →
  contains_byte (bz sep) part = false ∧ ∀ b, contains_byte b s = false → contains_byte b part = false.
Proof.
  revert part. induction s as [|c s IH]; intros part.
  - intros ->%list_elem_of_singleton. done.
  - cbn [split]. destruct (Ascii.eqb_spec c sep) as [->|Hne].
    + intros [->|Hin]%elem_of_cons; [done|]. apply IH in Hin as [H1 H2]. split; [done|].
      intros b. rewrite contains_byte_cons. intros [_ Hb]%orb_false_iff. by apply H2.
    + destruct (split sep s) as [|w ws] eqn:E; [by apply split_not_nil in E|].
      intros [->|Hin]%elem_of_cons.
      * destruct (IH w) as [H1 H2]; [by left|]. split.
        -- rewrite contains_byte_cons, H1, orb_false_r. apply Z.eqb_neq. intros Hb. apply Hne.
           by rewrite <- (zb_bz c), <- (zb_bz sep), Hb.
        -- intros b. rewrite !contains_byte_cons. intros [-> Hb]%orb_false_iff. by apply H2.
      * destruct (IH part) as [H1 H2]; [by right|]. split; [done|].
        intros b. rewrite contains_byte_cons. intros [_ Hb]%orb_false_iff. by apply H2.
Qed.

Lemma strip_cr_id line : contains_byte 13 line = false → strip_cr line = line.
Proof.
  intros H. unfold strip_cr. destruct (strip_suffix _ line) as [l|] eqn:E; [|done].
  apply strip_suffix_Some in E as ->. rewrite contains_byte_app in H.
  apply orb_false_iff in H as [_ H]. discriminate H.
Qed.

(** A line that can be joined to others and read back. *)
Definition plain_line (line : string) : Prop :=
  contains_byte 10 line = false ∧ contains_byte 13 line = false.

(** What every part between newlines has, every line has. *)
Lemma str_lines_forall (P : string → Prop) s :
  contains_byte 13 s = false → Forall P (split (zb 10) s) → Forall P (str_lines s).
Proof.
  intros Hs H. unfold str_lines.
  assert (Forall (λ line, contains_byte 13 line = false) (split (zb 10) s)) as Hcr.
  { apply Forall_forall. intros part [_ Hp]%split_parts. by apply Hp. }
  destruct (reverse (split (zb 10) s)) as [|last rest] eqn:E; [constructor|].
  apply (f_equal reverse) in E. rewrite reverse_involutive in E. rewrite E, reverse_cons in H, Hcr.
  apply Forall_app in H as [Hr Hl]. apply Forall_app in Hcr as [Hcr _]. apply Forall_app. split.
  - apply Forall_fmap. eapply Forall_impl; [apply Forall_and; split; [exact Hr|exact Hcr]|].
    intros line [Hu Hc]. cbn. by rewrite strip_cr_id.
  - by destruct (String.eqb last "").
Qed.

Lemma str_lines_byte b s :
  contains_byte 13 s = false → contains_byte b s = false ∨ b = 10 →
  Forall (λ line, contains_byte b line = false) (str_lines s).
Proof.
  intros Hs Hb. apply str_lines_forall; [done|]. apply Forall_forall.
  intros part [H1 H2]%split_parts. destruct Hb as [Hb| ->]; [by apply H2|exact H1].
Qed.

Lemma str_lines_plain s : contains_byte 13 s = false → Forall plain_line (str_lines s).
Proof.
  intros Hs. apply Forall_and. split; apply str_lines_byte; auto.
Qed.

Definition unlines (lines : list string) : string := join newline lines +:+ newline.

Lemma join_snoc sep lines x : lines ≠ [] → join sep (lines ++ [x]) = join sep lines +:+ sep +:+ x.
Proof.
  induction lines as [|a lines IH]; [done|]. intros _. destruct lines as [|b lines]; [done|].
  change (join sep ((a :: b :: lines) ++ [x])) with (a +:+ sep +:+ join sep ((b :: lines) ++ [x])).
  rewrite IH by done. change (join sep (a :: b :: lines)) with (a +:+ sep +:+ join sep (b :: lines)).
  by rewrite !sapp_assoc.
Qed.

Lemma str_lines_unlines lines :
  Forall plain_line lines → lines ≠ [] → str_lines (unlines lines) = lines.
Proof.
  intros H Hne. unfold unlines, str_lines.
  assert (join newline lines +:+ newline = join newline (lines ++ [""])) as ->
    by (by rewrite join_snoc, sapp_nil_r).
  unfold newline. rewrite split_join.
  - rewrite reverse_snoc. cbn [String.eqb]. rewrite app_nil_r, reverse_involutive.
    clear Hne. induction H as [|line lines [_ Hl] _ IH]; [done|]. rewrite fmap_cons, IH. f_equal.
    by apply strip_cr_id.
  - by destruct lines.
  - apply Forall_app. split; [|by constructor]. eapply Forall_impl; [exact H|]. by intros line [? _].
Qed.

Lemma unlines_byte b lines :
  b ≠ 10 → Forall (λ line, contains_byte b line = false) lines → contains_byte b (unlines lines) = false.
Proof.
  intros Hn%Z.eqb_neq H. unfold unlines. rewrite contains_byte_app, orb_false_iff.
  assert (contains_byte b newline = false) as Hnl.
  { unfold newline. rewrite contains_byte_cons. change (bz (zb 10)) with 10. by rewrite Hn. } split; [|done].
  induction H as [|line lines Hl _ IH]; [done|]. destruct lines as [|l2 lines]; [done|].
  change (join newline (line :: l2 :: lines)) with (line +:+ newline +:+ join newline (l2 :: lines)).
  by rewrite !contains_byte_app, Hl, Hnl, IH.
Qed.

(** ** UTF-8 *)
Definition utf8 (s : string) : Prop := from_utf8 (bytes s) = Some s.

Lemma utf8_chars s : utf8 s ↔ ∃ cs, all_scalar cs ∧ s = of_chars cs.
Proof.
  unfold utf8. split.
  - unfold from_utf8. rewrite of_bytes_bytes. case_bool_decide as H; [|done]. intros _.
    exists (chars s). split; [apply chars_scalar|done].
  - intros (cs & Hcs & ->). unfold of_chars at 1. rewrite bytes_of_bytes by by apply encode_all_bytes.
    by apply from_utf8_encoded.
Qed.

Lemma from_utf8_utf8 l s : from_utf8 l = Some s → utf8 s.
Proof.
  unfold from_utf8. case_bool_decide as H; [|done]. intros [= <-]. apply utf8_chars.
  exists (chars (of_bytes l)). split; [apply chars_scalar|done].
Qed.

Lemma utf8_ascii s : Forall (λ b, 0 ≤ b < 128) (bytes s) → utf8 s.
Proof. apply from_utf8_ascii. Qed.

Lemma of_chars_cons c cs : of_chars (c :: cs) = of_bytes (encode_utf8 c) +:+ of_chars cs.
Proof. unfold of_chars. rewrite fmap_cons. change (mjoin (?a :: ?l)) with (a ++ mjoin l). apply of_bytes_app. Qed.

Lemma utf8_app s t : utf8 s → utf8 t → utf8 (s +:+ t).
Proof.
  rewrite !utf8_chars. intros (cs & Hcs & ->) (ds & Hds & ->). exists (cs ++ ds).
  split; [by apply Forall_app|]. induction cs as [|c cs IH]; [done|].
  apply Forall_cons in Hcs as [_ Hcs]. change ((c :: cs) ++ ds) with (c :: cs ++ ds).
  by rewrite !of_chars_cons, <- IH, sapp_assoc.
Qed.

Lemma utf8_join sep lines : utf8 sep → Forall utf8 lines → utf8 (join sep lines).
Proof.
  intros Hsep H. induction H as [|line lines Hl Hls IH]; [done|]. destruct lines as [|b lines]; [done|].
  change (join sep (line :: b :: lines)) with (line +:+ sep +:+ join sep (b :: lines)).
  apply utf8_app; [done|]. by apply utf8_app.
Qed.

Lemma encode_no_newline c :
  is_scalar c = true → c ≠ 10 → contains_byte 10 (of_bytes (encode_utf8 c)) = false.
Proof.
  intros Hc Hne. unfold contains_byte.
  rewrite bytes_of_bytes by by apply encode_utf8_bytes.
  assert (0 ≤ c) as H0 by (unfold is_scalar, in_range in Hc; bool_prop; lia).
  unfold encode_utf8. repeat case_match; cbn [existsb]; rewrite ?orb_false_r, ?orb_false_iff, ?Z.eqb_neq;
    [lia|repeat split; Z.to_euclidean_division_equations; lia..].
Qed.

(** Lines of UTF-8 text are UTF-8. *)
Lemma split_utf8 s : utf8 s → Forall utf8 (split (zb 10) s).
Proof.
  intros (cs & Hcs & ->)%utf8_chars. induction Hcs as [|c cs Hc Hcs IH]; [by repeat constructor|].
  rewrite of_chars_cons. destruct (decide (c = 10)) as [->|Hne].
  - change (of_bytes (encode_utf8 10) +:+ ?t) with (String (zb 10) t). cbn [split].
    change (Ascii.eqb (zb 10) (zb 10)) with true. cbn iota. by constructor.
  - destruct (split_prefix (zb 10) (of_bytes (encode_utf8 c)) (of_chars cs)) as (w & ws & E & ->).
    { by apply encode_no_newline. }
    rewrite E in IH. apply Forall_cons in IH as [Hw Hws]. constructor; [|done].
    apply utf8_app; [|done]. apply utf8_chars. exists [c]. split; [by constructor|].
    rewrite of_chars_cons. by rewrite sapp_nil_r.
Qed.

Lemma str_lines_utf8 s : utf8 s → contains_byte 13 s = false → Forall utf8 (str_lines s).
Proof. intros H%split_utf8 H13. by apply str_lines_forall. Qed.

(** ** Words *)
Definition word (s : string) : Prop :=
  s ≠ "" ∧ Forall (λ b, is_ascii_whitespace b = false) (bytes s).

Lemma ascii_words_sub w cur l :
  w ∈ ascii_words cur l → ∃ a b, reverse cur ++ l = a ++ w ++ b.
Proof.
  revert cur. induction l as [|x l IH]; intros cur; cbn [ascii_words].
  - case_bool_decide; [intros Hin; by apply not_elem_of_nil in Hin|].
    intros ->%list_elem_of_singleton. exists [], []. by rewrite !app_nil_r.
  - destruct (is_ascii_whitespace x).
    + rewrite elem_of_app. intros [Hin|Hin].
      * case_bool_decide; [by apply not_elem_of_nil in Hin|]. apply list_elem_of_singleton in Hin as ->.
        by exists [], (x :: l).
      * apply IH in Hin as (a & b & E). cbn in E. exists (reverse cur ++ x :: a), b.
        rewrite <- app_assoc. cbn. by rewrite E.
    + intros (a & b & E)%IH. exists a, b. rewrite <- E, reverse_cons, <- app_assoc. done.
Qed.

Lemma words_sub w s : w ∈ split_ascii_whitespace s → ∃ a b, s = a +:+ w +:+ b.
Proof.
  unfold split_ascii_whitespace. intros (l & -> & (a & b & E)%ascii_words_sub)%list_elem_of_fmap.
  cbn in E. exists (of_bytes a), (of_bytes b). by rewrite <- !of_bytes_app, <- E, of_bytes_bytes.
Qed.

Lemma ascii_words_word cur w l :
  Forall (λ b, is_ascii_whitespace b = false) w → ascii_words cur (w ++ l) = ascii_words (reverse w ++ cur) l.
Proof.
  revert cur. induction w as [|b w IH]; intros cur H; [done|]. apply Forall_cons in H as [Hb H].
  cbn [app ascii_words]. rewrite Hb, IH, reverse_cons, <- app_assoc by done. done.
Qed.

Lemma words_one w : word w → split_ascii_whitespace w = [w].
Proof.
  intros [Hne H]. unfold split_ascii_whitespace. rewrite <- (app_nil_r (bytes w)), ascii_words_word by done.
  cbn [ascii_words]. rewrite app_nil_r, bool_decide_false.
  - cbn. by rewrite reverse_involutive, of_bytes_bytes.
  - intros E. apply Hne. apply bytes_inj. cbn. rewrite <- (reverse_involutive (bytes w)), E. done.
Qed.

Lemma words_cons w c s :
  word w → is_ascii_whitespace (bz c) = true →
  split_ascii_whitespace (w +:+ String c s) = w :: split_ascii_whitespace s.
Proof.
  intros [Hne H] Hc. unfold split_ascii_whitespace. rewrite bytes_app, bytes_cons, ascii_words_word by done.
  cbn [ascii_words]. rewrite Hc, app_nil_r, bool_decide_false.
  - cbn [app]. rewrite fmap_cons. by rewrite reverse_involutive, of_bytes_bytes.
  - intros E. apply Hne. apply bytes_inj. cbn. rewrite <- (reverse_involutive (bytes w)), E. done.
Qed.
