(* ===== verification/StorageBox.v ===== *)
(** * Keys on a storage box

    [crates/storagebox-bootstrap/src]: the target makes an SSH key (or keeps
    the one it has), opens a password session on the storage box, and makes
    the key the only one of its task in [.ssh/authorized_keys].

    The SSH key parser, the key generator, the clock, the entropy pool, and
    the SSH and SFTP libraries are arguments; what a session does with them
    is modelled call by call. *)
From S2P Require Import Prelude SchemaValidation Paths Text.
#[local] Open Scope Z_scope.

Inductive BoxError :=
| InvalidTask (message : string)
| InvalidAuthorizedKeys (message : string)
| InvalidPrivateKey
| Ssh (message : string)
| BoxIo (message : string)
| KeyGeneration.

Definition box_error_show (error : BoxError) : string :=
  match error with
  | InvalidTask message => "invalid storage-box bootstrap task: " +:+ message
  | InvalidAuthorizedKeys message => "authorized_keys is invalid: " +:+ message
  | InvalidPrivateKey => "stored private key is invalid"
  | Ssh message => "SSH operation failed: " +:+ message
  | BoxIo message => "I/O operation failed: " +:+ message
  | KeyGeneration => "key generation failed"
  end.
Definition ssh_error (stage error : string) : BoxError := Ssh (stage +:+ ": " +:+ error).

(** ** Tasks *)
Record Output := { ou_path : string; ou_owner : string; ou_group : string; ou_mode : Z }.
Record StorageBoxTask := {
  box_schema_version : Z;
  box_task_id : string;
  box_target_hostname : string;
  box_storage_box_host : string;
  box_storage_box_user : string;
  box_port : Z;
  box_pinned_host_keys : list string;
  box_output : Output
}.

Definition is_token_byte (b : Z) : bool := is_ascii_alphanumeric b || byte_of "._-" b.
Definition token (value field : string) : result BoxError unit :=
  guard_err (negb (bool_decide (value = "") || (128 <? slen value) || negb (all_bytes is_token_byte value)))
    (InvalidTask (field +:+ " contains invalid characters")).

Definition is_task_byte (b : Z) : bool := is_ascii_alphanumeric b || (b =? 45) || (b =? 95).
Definition task_identifier (value : string) : result BoxError unit :=
  let parts := split "." value in
  guard_err (negb ((4096 <? slen value) || (zlen parts <? 4)
                   || existsb (λ part, bool_decide (part = "") || negb (all_bytes is_task_byte part)) parts))
    (InvalidTask "taskId is not a canonical secret identifier").

Definition dns_name (value field : string) : result BoxError unit :=
  _ ← token value field;
  guard_err (negb (starts_with "." value || ends_with "." value || contains_str ".." value))
    (InvalidTask (field +:+ " is not a DNS name")).

Section Task.
(** The SHA-256 fingerprint of an OpenSSH public key line. *)
Context (fingerprint : string → option string).

Definition validate_pin (pin : string) : result BoxError string :=
  _ ← guard_err (2 <=? zlen (split_ascii_whitespace pin))
        (InvalidTask "a pinned host key must be a complete OpenSSH public key line");
  ok_or (InvalidTask "pinned host key is malformed") (fingerprint pin).

(** One turn of the loop over the pins. *)
Definition add_pin (pins : list string) (pin : string) : result BoxError (list string) :=
  fingerprint ← validate_pin pin;
  _ ← guard_err (bool_decide (fingerprint ∉ pins)) (InvalidTask "pinnedHostKeys contains duplicate keys");
  Ok (fingerprint :: pins).

Definition validate_task (task : StorageBoxTask) : result BoxError unit :=
  _ ← guard_err (box_schema_version task =? 1) (InvalidTask "unsupported schemaVersion");
  _ ← task_identifier (box_task_id task);
  _ ← dns_name (box_target_hostname task) "targetHostname";
  _ ← dns_name (box_storage_box_host task) "storageBoxHost";
  _ ← token (box_storage_box_user task) "storageBoxUser";
  _ ← guard_err (box_port task =? 23) (InvalidTask "Storage Box SSH port must be 23");
  _ ← guard_err (negb (bool_decide (box_pinned_host_keys task = []))) (InvalidTask "pinnedHostKeys is empty");
  _ ← try_fold add_pin [] (box_pinned_host_keys task);
  _ ← guard_err (negb (negb (is_absolute (ou_path (box_output task)))
                       || contains_byte 0 (ou_path (box_output task))))
        (InvalidTask "output path must be absolute");
  _ ← token (ou_owner (box_output task)) "output owner";
  _ ← token (ou_group (box_output task)) "output group";
  guard_err (bool_decide (ou_mode (box_output task) ∈ [256; 288]))
    (InvalidTask "output mode must be 0400 or 0440").
End Task.

Definition marker_prefix (task : StorageBoxTask) : string :=
  "nix-secrets:" +:+ box_target_hostname task +:+ ":" +:+ box_task_id task +:+ ":".

(** ** [authorized_keys] *)
Inductive Merge := Unchanged (contents : list Z) | Replaced (contents : list Z).

Definition date_char (i : nat) (b : Z) : bool :=
  if bool_decide (i = 4%nat) || bool_decide (i = 7%nat) then b =? 45 else is_ascii_digit b.
Definition validate_date (value : string) : result BoxError unit :=
  guard_err (negb (negb (slen value =? 10)
                   || negb (forallb (λ '(i, b), date_char i b) (imap pair (bytes value)))))
    (InvalidAuthorizedKeys "marker date is not YYYY-MM-DD").

Definition validate_marked_line (line prefix : string) : result BoxError unit :=
  let malformed := InvalidAuthorizedKeys "malformed task marker entry" in
  match split_ascii_whitespace line with
  | [algorithm; _; marker] =>
      _ ← guard_err (starts_with "ssh-" algorithm) malformed;
      date ← ok_or malformed (strip_prefix prefix marker);
      validate_date date
  | _ => Err malformed
  end.

Record Merging := { mg_lines : list string; mg_marker_count : Z; mg_already_current : bool }.
(** One turn of the loop over the lines. *)
Definition merge_line (marker_prefix public_key : string) (acc : Merging) (line : string)
  : result BoxError Merging :=
  if contains_str marker_prefix line then
    _ ← validate_marked_line line marker_prefix;
    Ok {| mg_lines := mg_lines acc; mg_marker_count := mg_marker_count acc + 1;
          mg_already_current := bool_decide (join " " (take 2 (split_ascii_whitespace line)) = public_key) |}
  else
    _ ← guard_err (negb (contains_str "nix-secrets:" line
                         && existsb (starts_with marker_prefix) (split_ascii_whitespace line)))
          (InvalidAuthorizedKeys "malformed task marker");
    Ok {| mg_lines := mg_lines acc ++ [line]; mg_marker_count := mg_marker_count acc;
          mg_already_current := mg_already_current acc |}.

Definition merge_authorized_keys (current : list Z) (marker_prefix public_key utc_date : string)
  : result BoxError Merge :=
  _ ← guard_err (negb ((1024 * 1024 <? zlen current) || bool_decide (0 ∈ current) || bool_decide (13 ∈ current)))
        (InvalidAuthorizedKeys "file is too large or contains forbidden bytes");
  _ ← validate_date utc_date;
  text ← ok_or (InvalidAuthorizedKeys "file is not UTF-8") (from_utf8 current);
  merged ← try_fold (merge_line marker_prefix public_key)
             {| mg_lines := []; mg_marker_count := 0; mg_already_current := false |} (str_lines text);
  _ ← guard_err (mg_marker_count merged <=? 1) (InvalidAuthorizedKeys "duplicate task markers");
  if mg_already_current merged then Ok (Unchanged current)
  else
    let desired := public_key +:+ " " +:+ marker_prefix +:+ utc_date in
    Ok (Replaced (bytes (join (String (zb 10) "") (mg_lines merged ++ [desired])) ++ [10])).

(** ** Keys *)
(** What the SSH key library says of a private key: its algorithm, its text
    and its public key's text. *)
Record PrivateKey := {
  pv_algorithm : Algorithm;
  pv_openssh : option string;
  pv_public_openssh : option string
}.
Record GeneratedKey := { gk_private_pem : string; gk_public_key : string }.

Definition from_private_key (key : PrivateKey) : result BoxError GeneratedKey :=
  private_pem ← ok_or KeyGeneration (pv_openssh key);
  public_key ← ok_or KeyGeneration (pv_public_openssh key);
  Ok {| gk_private_pem := private_pem; gk_public_key := public_key |}.

Definition from_private_pem (from_openssh : string → option PrivateKey) (pem : string)
  : result BoxError GeneratedKey :=
  key ← ok_or InvalidPrivateKey (from_openssh pem);
  _ ← guard_err (match pv_algorithm key with AlgEd25519 _ => true | _ => false end) InvalidPrivateKey;
  map_err (const InvalidPrivateKey) (from_private_key key).

(** [KeyGenerator::generate] of the operating system: [random] is the library's key. *)
Definition os_generate {S} (random : stE S BoxError PrivateKey) : stE S BoxError GeneratedKey :=
  key ← random;
  st_lift (from_private_key key).

Definition st_map_err {S A} (f : string → BoxError) (m : stE S string A) : stE S BoxError A :=
  λ s, let '(r, s) := m s in (map_err f r, s).

(** ** The engine *)
Class RemoteSession (S : Type) := {
  read_authorized_keys : stE S BoxError (list Z);
  replace_authorized_keys_atomically : list Z → stE S BoxError unit
}.
Class SshBackend (S : Type) := {
  backend_session :: RemoteSession S;
  connect : StorageBoxTask → list Z → stE S BoxError unit
}.
(** The entropy pool with its I/O errors, key generation and the clock's
    formatted date. *)
Class BoxHost (S : Type) := {
  entropy_open : stE S string unit;
  entropy_write : list Z → stE S string unit;
  entropy_flush : stE S string unit;
  generate_key : stE S BoxError GeneratedKey;
  utc_date : stE S BoxError string
}.

Section Engine.
Context {S : Type} `{SshBackend S} `{BoxHost S}.
Context (fingerprint : string → option string) (from_openssh : string → option PrivateKey).

Definition choose_key (contribution : list Z) (existing_private_key : option string)
  : stE S BoxError GeneratedKey :=
  match existing_private_key with
  | Some value => st_lift (from_private_pem from_openssh value)
  | None =>
      _ ← st_map_err BoxIo (entropy_write contribution);
      _ ← st_map_err BoxIo entropy_flush;
      generate_key
  end.

Definition engine_run (task : StorageBoxTask) (password contribution : list Z)
    (existing_private_key : option string) : stE S BoxError GeneratedKey :=
  _ ← st_lift (validate_task fingerprint task);
  key ← choose_key contribution existing_private_key;
  _ ← connect task password;
  current ← read_authorized_keys;
  date ← utc_date;
  merge ← st_lift (merge_authorized_keys current (marker_prefix task) (gk_public_key key) date);
  _ ← match merge with
      | Unchanged _ => mret tt
      | Replaced contents => replace_authorized_keys_atomically contents
      end;
  mret key.
End Engine.

(** ** The SFTP session *)
(** [try_exists], [symlink_metadata().is_dir()], ..., and the raw
    [posix-rename] request: a status reply, or what arrived instead. *)
Inductive RenameReply := StatusOk | OtherPacket | RequestError (error : string).
Class Sftp (S : Type) := {
  sftp_open : string → Z → string → string → (option string → bool) → stE S string unit;
  sftp_try_exists : string → stE S string bool;
  sftp_is_dir : string → stE S string bool;
  sftp_create_dir : string → stE S string unit;
  sftp_set_permissions : string → Z → stE S string unit;
  sftp_read : string → stE S string (list Z);
  sftp_create : string → stE S string unit;
  sftp_write_all : string → list Z → stE S string unit;
  sftp_flush : string → stE S string unit;
  sftp_sync_all : string → stE S string unit;
  sftp_close : string → stE S string unit;
  sftp_remove_file : string → stE S string unit;
  sftp_posix_rename : list Z → S → RenameReply * S;
  random_u64 : stE S BoxError Z
}.

Definition SSH_DIRECTORY : string := ".ssh".
Definition AUTHORIZED_KEYS : string := ".ssh/authorized_keys".

Definition rename_payload (old new : string) : result BoxError (list Z) :=
  try_fold (λ value path,
    _ ← guard_err (slen path <=? u32_max) (Ssh "remote path too long");
    Ok (value ++ be_bytes 4 (slen path) ++ bytes path)) [] [old; new].

Section Session.
Context {S : Type} `{Sftp S}.

Definition at_stage {A} (stage : string) (m : stE S string A) : stE S BoxError A :=
  st_map_err (ssh_error stage) m.

Definition ensure_ssh_directory : stE S BoxError unit :=
  exists_ ← at_stage "check .ssh existence" (sftp_try_exists SSH_DIRECTORY);
  _ ← (if exists_ : bool then
         is_dir ← at_stage "lstat .ssh" (sftp_is_dir SSH_DIRECTORY);
         st_guard is_dir (Ssh ".ssh is not a real directory")
       else at_stage "create .ssh" (sftp_create_dir SSH_DIRECTORY));
  at_stage "set .ssh permissions" (sftp_set_permissions SSH_DIRECTORY 448).

Definition sftp_read_authorized_keys : stE S BoxError (list Z) :=
  _ ← ensure_ssh_directory;
  exists_ ← at_stage "check authorized_keys existence" (sftp_try_exists AUTHORIZED_KEYS);
  if exists_ : bool then
    value ← at_stage "read authorized_keys" (sftp_read AUTHORIZED_KEYS);
    _ ← st_guard (zlen value <=? 1024 * 1024) (InvalidAuthorizedKeys "file exceeds 1 MiB");
    mret value
  else mret [].

Definition write_staging_file (path : string) (contents : list Z) : stE S BoxError unit :=
  _ ← at_stage "create authorized_keys staging file" (sftp_create path);
  _ ← at_stage "set authorized_keys staging permissions" (sftp_set_permissions path 384);
  _ ← at_stage "write authorized_keys staging file" (sftp_write_all path contents);
  _ ← at_stage "flush authorized_keys staging file" (sftp_flush path);
  _ ← at_stage "sync authorized_keys staging file" (sftp_sync_all path);
  at_stage "close authorized_keys staging file" (sftp_close path).

(** The staging file goes away when [error] is reported. *)
Definition cleaned_up (temporary : string) (failed : string → BoxError) (error : BoxError)
  : stE S BoxError unit :=
  λ s, match sftp_remove_file temporary s with
       | (Ok _, s) => (Err error, s)
       | (Err cleanup, s) => (Err (failed cleanup), s)
       end.

Definition rename_request (temporary : string) (payload : list Z) : stE S BoxError unit :=
  λ s, let '(reply, s) := sftp_posix_rename payload s in
       match reply with
       | StatusOk => (Ok tt, s)
       | _ =>
           let rename := match reply with RequestError error => error | _ => "unexpected response packet" end in
           cleaned_up temporary
             (λ cleanup, Ssh ("atomic authorized_keys rename failed (" +:+ rename
                              +:+ "); staging cleanup failed: " +:+ cleanup))
             (Ssh ("atomic authorized_keys rename failed: " +:+ rename)) s
       end.

Definition rename_staged (temporary : string) : stE S BoxError unit :=
  payload ← st_lift (rename_payload temporary AUTHORIZED_KEYS);
  rename_request temporary payload.

Definition staging_name (random : Z) : string := ".ssh/.authorized_keys.nix-secrets-" +:+ dec random.

Definition stage_and_rename (temporary : string) (contents : list Z) : stE S BoxError unit :=
  λ s, match write_staging_file temporary contents s with
       | (Ok _, s) => rename_staged temporary s
       | (Err error, s) =>
           cleaned_up temporary
             (λ cleanup, Ssh (box_error_show error +:+ "; staging cleanup failed: " +:+ cleanup)) error s
       end.

Definition sftp_replace (contents : list Z) : stE S BoxError unit :=
  random ← random_u64;
  let temporary := staging_name random in
  _ ← ensure_ssh_directory;
  stage_and_rename temporary contents.

(** [check_server_key]: certificates are refused. *)
Definition check_server_key (pins : list string) (presented : option string) : bool :=
  match presented with
  | Some key => bool_decide (key ∈ pins)
  | None => false
  end.

(** [key_data] of a pin: the algorithm and key without the comment. *)
Definition russh_connect (key_data : string → result string string) (task : StorageBoxTask) (password : list Z)
  : stE S BoxError unit :=
  password ← st_lift (ok_or (Ssh "password is not UTF-8") (from_utf8 password));
  pins ← st_lift (try_map (λ pin, map_err (ssh_error "parse pinned host key") (key_data pin))
                    (box_pinned_host_keys task));
  st_map_err Ssh (sftp_open (box_storage_box_host task) (box_port task) (box_storage_box_user task)
                    password (check_server_key pins)).
End Session.

#[export] Instance russh_session {S} `{Sftp S} : RemoteSession S := {
  read_authorized_keys := sftp_read_authorized_keys;
  replace_authorized_keys_atomically := sftp_replace
}.
#[export] Instance russh_backend {S} `{Sftp S} (key_data : string → result string string) : SshBackend S := {
  connect := russh_connect key_data
}.
