(* ===== verification/StorageBoxFacts.v ===== *)
(** * One key per task on the storage box *)
From S2P Require Import Prelude SchemaValidation Paths Text Lines StorageBox.
#[local] Open Scope Z_scope.

(** ** What a merge makes *)
Definition marked (prefix line : string) : bool := contains_str prefix line.
Definition has_key (key line : string) : bool :=
  bool_decide (join " " (take 2 (split_ascii_whitespace line)) = key).
Definition others (prefix : string) (lines : list string) : list string :=
  List.filter (λ line, negb (marked prefix line)) lines.
Definition entry (key prefix date : string) : string := key +:+ " " +:+ prefix +:+ date.

(** The check for a marker at the start of a word never refuses: such a line
    contains the marker. *)
Lemma marked_words prefix line :
  marked prefix line = false →
  existsb (starts_with prefix) (split_ascii_whitespace line) = false.
Proof.
  intros H. apply not_true_iff_false. intros (w & Hin & Hw)%existsb_exists.
  apply list_elem_of_In, words_sub in Hin as (a & b & ->).
  apply starts_with_spec in Hw as [r ->]. apply not_true_iff_false in H. apply H.
  apply contains_str_spec. exists a, (r +:+ b). by rewrite !sapp_assoc.
Qed.

Definition merging (prefix key : string) (acc : Merging) (lines : list string) : Merging :=
  let ms := List.filter (marked prefix) lines in
  {| mg_lines := mg_lines acc ++ others prefix lines;
     mg_marker_count := mg_marker_count acc + zlen ms;
     mg_already_current := match last ms with
                           | Some line => has_key key line
                           | None => mg_already_current acc
                           end |}.

Lemma merge_fold prefix key lines acc acc' :
  try_fold (merge_line prefix key) acc lines = Ok acc' ↔
    Forall (λ line, marked prefix line = true → validate_marked_line line prefix = Ok tt) lines
    ∧ acc' = merging prefix key acc lines.
Proof.
  revert acc. induction lines as [|line lines IH]; intros acc; cbn [try_fold].
  { unfold merging, others. cbn. rewrite app_nil_r, Z.add_0_r. destruct acc.
    split; [intros [= <-]; by split|]. by intros [_ ->]. }
  rewrite Forall_cons. unfold merge_line at 1. destruct (contains_str prefix line) eqn:E.
  - assert (marked prefix line = true) as Hm by done.
    destruct (validate_marked_line line prefix) as [[]|] eqn:Ev; cbn [mbind result_bind].
    + rewrite IH. unfold merging, others. cbn [List.filter mg_lines mg_marker_count mg_already_current].
      rewrite Hm. cbn [negb]. rewrite last_cons, zlen_cons, Z.add_assoc. split.
      * intros [H ->]. split; [by split|]. f_equal. by destruct (last _).
      * intros [[_ H] ->]. split; [done|]. f_equal. by destruct (last _).
    + split; [done|]. intros [[H _] _]. by specialize (H Hm).
  - assert (marked prefix line = false) as Hm by done.
    rewrite marked_words, andb_false_r by done. cbn [negb guard_err mbind result_bind]. rewrite IH.
    unfold merging, others. cbn [List.filter mg_lines mg_marker_count mg_already_current].
    rewrite Hm. cbn [negb]. rewrite <- app_assoc. split.
    + intros [H ->]. split; [|done]. split; [intros Hm2; congruence|done].
    + by intros [[_ H] ->].
Qed.

(** What is asked of the file, and of the lines of this task in it. *)
Record mergeable (current : list Z) (prefix date text : string) : Prop := {
  mb_size : zlen current ≤ 1024 * 1024;
  mb_nul : 0 ∉ current;
  mb_cr : 13 ∉ current;
  mb_date : validate_date date = Ok tt;
  mb_text : from_utf8 current = Some text;
  mb_marked : Forall (λ line, marked prefix line = true → validate_marked_line line prefix = Ok tt)
                (str_lines text);
  mb_once : zlen (List.filter (marked prefix) (str_lines text)) ≤ 1
}.

(** The result of a merge, in one piece. *)
Definition merged (current : list Z) (prefix key date text : string) : Merge :=
  if existsb (has_key key) (List.filter (marked prefix) (str_lines text)) then Unchanged current
  else Replaced (bytes (unlines (others prefix (str_lines text) ++ [entry key prefix date]))).

Lemma merge_ok current prefix key date m :
  merge_authorized_keys current prefix key date = Ok m ↔
    ∃ text, mergeable current prefix date text ∧ m = merged current prefix key date text.
Proof.
  unfold merge_authorized_keys. rewrite guard_bind_ok, then_ok, bind_ok. bool_prop.
  assert (∀ text, existsb (has_key key) (List.filter (marked prefix) (str_lines text))
    = match last (List.filter (marked prefix) (str_lines text)) with Some l => has_key key l | None => false end
    ∨ ¬ zlen (List.filter (marked prefix) (str_lines text)) ≤ 1) as Hlast.
  { intros text. destruct (List.filter _ _) as [|a [|b l]]; [by left|left; cbn; apply orb_false_r|right].
    rewrite !zlen_cons. pose proof (zlen_nonneg l). lia. }
  assert (∀ text, (merged' ← try_fold (merge_line prefix key)
             {| mg_lines := []; mg_marker_count := 0; mg_already_current := false |} (str_lines text);
      _ ← guard_err (mg_marker_count merged' <=? 1) (InvalidAuthorizedKeys "duplicate task markers");
      if mg_already_current merged' then Ok (Unchanged current)
      else Ok (Replaced (bytes (join (String (zb 10) "") (mg_lines merged' ++ [key +:+ " " +:+ prefix +:+ date]))
                         ++ [10]))) = Ok m
    ↔ Forall (λ line, marked prefix line = true → validate_marked_line line prefix = Ok tt) (str_lines text)
      ∧ zlen (List.filter (marked prefix) (str_lines text)) ≤ 1
      ∧ m = merged current prefix key date text) as Hfold.
  { intros text. rewrite bind_ok. setoid_rewrite merge_fold. setoid_rewrite guard_bind_ok.
    setoid_rewrite Z.leb_le. unfold merged. destruct (Hlast text) as [->|Hbig].
    - assert (∀ l, bytes (unlines l) = bytes (join (String (zb 10) "") l) ++ [10]) as Hu.
      { intros l. unfold unlines. by rewrite bytes_app. }
      rewrite Hu. split.
      + intros (? & [Hf ->] & Hc & Hm). split; [done|]. split; [done|]. cbn in Hm.
        destruct (last _) as [l|]; [destruct (has_key key l)|]; by injection Hm as <-.
      + intros (Hf & Hc & ->). eexists. split; [by split|]. split; [done|]. cbn.
        destruct (last _) as [l|]; [destruct (has_key key l)|]; done.
    - split; [|tauto]. intros (? & [_ ->] & Hc & _). by destruct Hbig. }
  split.
  - intros [[[H1 H2] H3] [H4 (text & H5 & H6%Hfold)]]. destruct (from_utf8 current) as [text'|] eqn:Et; [|done].
    injection H5 as ->. destruct H6 as (? & ? & ->). exists text. by split.
  - intros (text & [H1 H2 H3 H4 H5 H6 H7] & ->). split; [done|]. split; [done|].
    exists text. rewrite H5. split; [done|]. by apply Hfold.
Qed.

(** ** Merging again *)
Definition plain_word (w : string) : Prop := w ≠ "" ∧ Forall (λ b, 33 ≤ b ≤ 126) (bytes w).
(** What the key library prints for a public key without a comment. *)
Definition plain_key (key : string) : Prop :=
  ∃ algorithm blob, key = algorithm +:+ " " +:+ blob ∧ starts_with "ssh-" algorithm = true
    ∧ plain_word algorithm ∧ plain_word blob.

Lemma plain_word_word w : plain_word w → word w.
Proof.
  intros [Hne H]. split; [done|]. eapply Forall_impl; [exact H|]. intros b Hb.
  cbn in Hb. unfold is_ascii_whitespace. rewrite !orb_false_iff, !Z.eqb_neq. lia.
Qed.
Lemma plain_word_app v w : plain_word v → plain_word w → plain_word (v +:+ w).
Proof.
  intros [Hv H1] [_ H2]. split; [by destruct v|]. rewrite bytes_app. by apply Forall_app.
Qed.

Lemma date_plain date : validate_date date = Ok tt → plain_word date.
Proof.
  unfold validate_date. intros H%guard_ok. bool_prop. destruct H as [Hl H]. split; [by intros ->|].
  revert H. unfold imap. generalize (bytes date). intros l.
  assert (∀ f : nat → nat, forallb (λ '(i, b), date_char i b) (imap (λ i b, (f i, b)) l) = true →
            Forall (λ b, 33 ≤ b ≤ 126) l) as Hg.
  { induction l as [|b l IH]; intros f; [constructor|]. rewrite imap_cons. cbn [forallb].
    rewrite andb_true_iff. intros [Hb Hr]. constructor; [|by apply (IH (f ∘ S))].
    unfold date_char, is_ascii_digit, in_range in Hb. destruct (_ || _); bool_prop; lia. }
  exact (Hg id).
Qed.

Section Again.
Context (prefix key date : string).
Hypothesis Hprefix : plain_word prefix.
Hypothesis Hkey : plain_key key.
Hypothesis Hdate : validate_date date = Ok tt.

Lemma entry_words :
  ∃ algorithm blob, key = algorithm +:+ " " +:+ blob ∧ starts_with "ssh-" algorithm = true
    ∧ split_ascii_whitespace (entry key prefix date) = [algorithm; blob; prefix +:+ date].
Proof.
  destruct Hkey as (a & b & -> & Ha & Wa & Wb). exists a, b. split; [done|]. split; [done|].
  unfold entry. rewrite !sapp_assoc.
  change (" " +:+ b +:+ " " +:+ prefix +:+ date) with (String " " (b +:+ String " " (prefix +:+ date))).
  rewrite !words_cons by (done || by apply plain_word_word).
  by rewrite words_one by (apply plain_word_word, plain_word_app; [done|by apply date_plain]).
Qed.

Lemma entry_marked : marked prefix (entry key prefix date) = true.
Proof. apply contains_str_spec. exists (key +:+ " "), date. unfold entry. by rewrite sapp_assoc. Qed.

Lemma entry_valid : validate_marked_line (entry key prefix date) prefix = Ok tt.
Proof.
  unfold validate_marked_line. destruct entry_words as (a & b & _ & Ha & ->).
  rewrite Ha, strip_prefix_app. exact Hdate.
Qed.

Lemma entry_key key' : has_key key' (entry key prefix date) = bool_decide (key' = key).
Proof.
  unfold has_key. destruct entry_words as (a & b & -> & _ & ->). apply bool_decide_ext.
  change (join " " (take 2 [a; b; prefix +:+ date])) with (a +:+ " " +:+ b). by split.
Qed.

Lemma entry_ascii : Forall (λ b, 32 ≤ b ≤ 126) (bytes (entry key prefix date)).
Proof.
  assert (∀ w, plain_word w → Forall (λ b, 32 ≤ b ≤ 126) (bytes w)) as Hw.
  { intros w [_ H]. eapply Forall_impl; [exact H|]. cbn. lia. }
  assert (Forall (λ b, 32 ≤ b ≤ 126) (bytes " ")) as Hs by (repeat constructor; done).
  destruct Hkey as (a & b & -> & _ & Wa & Wb). unfold entry. rewrite !bytes_app.
  repeat apply Forall_app_2; auto. by apply Hw, date_plain.
Qed.

Lemma entry_plain :
  (∀ c, c < 32 → contains_byte c (entry key prefix date) = false) ∧ utf8 (entry key prefix date).
Proof.
  pose proof entry_ascii as H.
  assert (∀ c, c < 32 → contains_byte c (entry key prefix date) = false) as Hc.
  { intros c Hlt. unfold contains_byte. apply not_true_iff_false. intros (b & Hin & ->%Z.eqb_eq)%existsb_exists.
    apply list_elem_of_In in Hin. rewrite Forall_forall in H. specialize (H b Hin). lia. }
  split; [intros; by apply Hc|]. apply utf8_ascii. eapply Forall_impl; [exact H|]. cbn. lia.
Qed.
End Again.

Lemma others_forall (P : string → Prop) prefix lines : Forall P lines → Forall P (others prefix lines).
Proof.
  unfold others. intros H. induction H as [|l lines Hl _ IH]; [constructor|].
  cbn [List.filter]. destruct (negb _); [by constructor|done].
Qed.

Lemma filter_marked_others prefix lines : List.filter (marked prefix) (others prefix lines) = [].
Proof.
  unfold others. induction lines as [|l lines IH]; [done|]. cbn [List.filter].
  destruct (marked prefix l) eqn:E; cbn [negb]; [done|]. cbn [List.filter]. by rewrite E.
Qed.
Lemma others_others prefix lines : others prefix (others prefix lines) = others prefix lines.
Proof.
  unfold others. induction lines as [|l lines IH]; [done|]. cbn [List.filter].
  destruct (marked prefix l) eqn:E; cbn [negb]; [done|]. cbn [List.filter]. rewrite E. cbn [negb]. by f_equal.
Qed.

(** The file a merge writes. *)
Lemma rewritten current prefix key date text :
  forallb is_byte current = true → plain_word prefix → plain_key key → mergeable current prefix date text →
  let lines := others prefix (str_lines text) ++ [entry key prefix date] in
  str_lines (unlines lines) = lines ∧ utf8 (unlines lines) ∧ contains_byte 0 (unlines lines) = false
  ∧ contains_byte 13 (unlines lines) = false.
Proof.
  intros Hb Hp Hk [_ H2 H3 H4 H5 _ _] lines.
  destruct (entry_plain prefix key date Hp Hk H4) as [He Hue].
  assert (∀ b, b ∉ current → contains_byte b text = false) as Hno.
  { intros b Hin. unfold contains_byte. rewrite (from_utf8_bytes _ _ Hb H5). apply not_true_iff_false.
    intros (c & Hc & ->%Z.eqb_eq)%existsb_exists. by apply Hin, list_elem_of_In. }
  assert (∀ b, b < 32 → b ∉ current ∨ b = 10 → Forall (λ line, contains_byte b line = false) lines) as Hl.
  { intros b Hlt Hin. apply Forall_app. split; [|by constructor; [apply He|]].
    apply others_forall, str_lines_byte; [by apply Hno|]. destruct Hin; auto. }
  split; [|split; [|split]].
  - apply str_lines_unlines; [|unfold lines; by destruct (others _ _)].
    apply Forall_and. split; apply Hl; auto; lia.
  - apply utf8_app; [apply utf8_join; [done|]|done]. apply Forall_app. split; [|by constructor].
    apply others_forall, str_lines_utf8; [by eapply from_utf8_utf8|by apply Hno].
  - apply unlines_byte; [done|]. apply Hl; auto; lia.
  - apply unlines_byte; [done|]. apply Hl; auto; lia.
Qed.

(** A rewritten file keeps every line of others, in order, and has one line
    of the task; merging the same key again leaves it alone, and merging
    another key replaces that one line. *)
Theorem merge_converges current prefix key date out :
  forallb is_byte current = true → plain_word prefix → plain_key key →
  merge_authorized_keys current prefix key date = Ok (Replaced out) → zlen out ≤ 1024 * 1024 →
  ∃ text, from_utf8 current = Some text
    ∧ (let rest := others prefix (str_lines text) in
       let text' := unlines (rest ++ [entry key prefix date]) in
       from_utf8 out = Some text' ∧ str_lines text' = rest ++ [entry key prefix date]
       ∧ ∀ key' date', validate_date date' = Ok tt →
           merge_authorized_keys out prefix key' date'
             = Ok (if bool_decide (key' = key) then Unchanged out
                   else Replaced (bytes (unlines (rest ++ [entry key' prefix date']))))).
Proof.
  intros Hb Hp Hk (text & Hok & Hm)%merge_ok Hsize. exists text. split; [by apply Hok|]. cbn zeta.
  destruct (rewritten current prefix key date text Hb Hp Hk Hok) as (Hlines & Hutf & H0 & H13).
  unfold merged in Hm. destruct (existsb _ _); [done|]. injection Hm as ->.
  set (rest := others prefix (str_lines text)) in *. set (text' := unlines _) in *.
  split; [exact Hutf|]. split; [exact Hlines|]. intros key' date' Hd'.
  assert (List.filter (marked prefix) (str_lines text') = [entry key prefix date]) as Hf.
  { rewrite Hlines, List.filter_app. unfold rest. rewrite filter_marked_others. cbn.
    by rewrite (entry_marked prefix key date). }
  apply merge_ok. exists text'. split.
  - assert (∀ b, contains_byte b text' = false → b ∉ bytes text') as Hin.
    { intros b Hc Hin. apply not_true_iff_false in Hc. apply Hc. apply existsb_exists. exists b.
      split; [by apply list_elem_of_In|apply Z.eqb_refl]. }
    constructor; try done; [by apply Hin..| |by rewrite Hf].
    apply Forall_forall. intros line Hin' Hmk. assert (line ∈ List.filter (marked prefix) (str_lines text')) as Hl.
    { apply list_elem_of_In, List.filter_In. split; [by apply list_elem_of_In|done]. }
    rewrite Hf in Hl. apply list_elem_of_singleton in Hl as ->. by apply entry_valid; [..|apply Hok].
  - unfold merged. rewrite Hf. cbn [existsb]. rewrite orb_false_r, entry_key by (done || apply Hok).
    case_bool_decide; [done|]. do 3 f_equal. rewrite Hlines. unfold others at 1. rewrite List.filter_app.
    fold (others prefix rest). unfold rest. rewrite others_others. cbn.
    rewrite (entry_marked prefix key date). cbn. by rewrite app_nil_r.
Qed.
