(* ===== verification/StorageBoxSession.v ===== *)
(** * What a bootstrap leaves on the storage box

    The engine over the SFTP session, whatever call fails: [authorized_keys]
    is the file it was, or the complete merged file. *)
From S2P Require Import Prelude SchemaValidation Paths Text StorageBox.
#[local] Open Scope Z_scope.

(** ** What the libraries promise *)
(** [remote s path] is the file at [path] on the box.  A failed call may have
    done its work; a call changes no file but the one it names. *)
Class BoxLaws (S : Type) `{Sftp S} `{BoxHost S} := {
  remote : S → string → option (list Z);
  touches (P : string → Prop) {E A} (m : stE S E A) :=
    ∀ s r s', m s = (r, s') → ∀ p, ¬ P p → remote s' p = remote s p;
  quiet {E A} (m : stE S E A) := touches (λ _, False) m;
  law_open host port user password handler : quiet (sftp_open host port user password handler);
  law_try_exists p : quiet (sftp_try_exists p);
  law_absent p s s' : sftp_try_exists p s = (Ok false, s') → remote s p = None;
  law_is_dir p : quiet (sftp_is_dir p);
  law_create_dir p : quiet (sftp_create_dir p);
  law_set_permissions p mode : quiet (sftp_set_permissions p mode);
  law_read p : quiet (sftp_read p);
  law_read_ok p s v s' : sftp_read p s = (Ok v, s') → remote s p = Some v;
  law_create p : touches (eq p) (sftp_create p);
  law_create_ok p s s' : sftp_create p s = (Ok tt, s') → remote s' p = Some [];
  law_write p l : touches (eq p) (sftp_write_all p l);
  law_write_ok p l s s' c : sftp_write_all p l s = (Ok tt, s') → remote s p = Some c →
    remote s' p = Some (c ++ l);
  law_flush p : quiet (sftp_flush p);
  law_sync p : quiet (sftp_sync_all p);
  law_close p : quiet (sftp_close p);
  law_remove p : touches (eq p) (sftp_remove_file p);
  (** Renaming happens at once or not at all. *)
  law_rename old new payload s reply s' : rename_payload old new = Ok payload →
    sftp_posix_rename payload s = (reply, s') →
    ((∀ p, remote s' p = remote s p) ∧ reply ≠ StatusOk)
    ∨ ∀ p, remote s' p = if bool_decide (p = new) then remote s old
                         else if bool_decide (p = old) then None else remote s p;
  law_random : quiet random_u64;
  law_entropy_open : quiet entropy_open;
  law_entropy_write l : quiet (entropy_write l);
  law_entropy_flush : quiet entropy_flush;
  law_generate : quiet generate_key;
  law_date : quiet utc_date
}.
Arguments touches : simpl never.
Arguments quiet : simpl never.

Create HintDb box.
#[export] Hint Resolve law_open law_try_exists law_is_dir law_create_dir law_set_permissions law_read law_create
  law_write law_flush law_sync law_close law_remove law_random law_entropy_open law_entropy_write law_entropy_flush law_generate
  law_date : box.

Section Session.
Context {S : Type} {Session : Sftp S} {Host : BoxHost S} {Laws : BoxLaws S}.

Lemma touches_weaken (P Q : string → Prop) {E A} (m : stE S E A) :
  touches P m → (∀ p, P p → Q p) → touches Q m.
Proof. intros Hm HPQ s r s' Hs p Hp. apply (Hm s r s' Hs). auto. Qed.

Lemma quiet_touches P {E A} (m : stE S E A) : quiet m → touches P m.
Proof. intros Hm. by apply (touches_weaken (λ _, False)). Qed.

Lemma quiet_eq {E A} (m : stE S E A) s r s' p : quiet m → m s = (r, s') → remote s' p = remote s p.
Proof. intros Hm E1. apply (Hm _ _ _ E1). tauto. Qed.

Lemma touches_ret P {E A} (a : A) : touches P (mret a : stE S E A).
Proof. by intros s r s' [= <- <-]. Qed.
Lemma touches_lift P {E A} (r : result E A) : touches P (st_lift r : stE S E A).
Proof. by intros s r' s' [= <- <-]. Qed.

Lemma touches_bind P {E A B} (m : stE S E A) (k : A → stE S E B) :
  touches P m → (∀ a, touches P (k a)) → touches P (a ← m; k a).
Proof.
  intros Hm Hk s r s'. unfold mbind, stE_bind. destruct (m s) as [[a|e] s1] eqn:E1.
  - intros E2 p Hp. rewrite (Hk a _ _ _ E2 p Hp). by apply (Hm _ _ _ E1).
  - intros [= <- <-]. by apply (Hm _ _ _ E1).
Qed.

Lemma touches_map_err P {A} f (m : stE S string A) : touches P m → touches P (st_map_err f m).
Proof.
  intros Hm s r s'. unfold st_map_err. destruct (m s) as [r1 s1] eqn:E. intros [= <- <-]. by apply (Hm _ _ _ E).
Qed.
Lemma touches_stage P {A} stage (m : stE S string A) : touches P m → touches P (at_stage stage m).
Proof. apply touches_map_err. Qed.
End Session.

Ltac quiet_steps :=
  repeat first
    [ apply touches_bind; [|intros]
    | apply touches_stage | apply touches_map_err
    | apply touches_ret | apply touches_lift
    | solve [auto with box]
    | apply quiet_touches; solve [auto with box]
    | case_match ].

Section Files.
Context {S : Type} {Session : Sftp S} {Host : BoxHost S} {Laws : BoxLaws S}.

Lemma quiet_ensure : quiet ensure_ssh_directory.
Proof. unfold quiet, ensure_ssh_directory. quiet_steps. Qed.
Lemma quiet_read : quiet sftp_read_authorized_keys.
Proof.
  unfold quiet, sftp_read_authorized_keys. apply touches_bind; [apply quiet_ensure|intros]. quiet_steps.
Qed.
Lemma touches_staging path contents : touches (eq path) (write_staging_file path contents).
Proof. unfold write_staging_file. quiet_steps. Qed.

Lemma stage_ok {A} stage (m : stE S string A) s a s' : at_stage stage m s = (Ok a, s') → m s = (Ok a, s').
Proof. unfold at_stage, st_map_err. destruct (m s) as [[b|e] s1]; cbn; congruence. Qed.

(** A file that is read is the file that is there; an absent one is empty. *)
Lemma read_ok s v s' :
  sftp_read_authorized_keys s = (Ok v, s') → v = default [] (remote s AUTHORIZED_KEYS).
Proof.
  unfold sftp_read_authorized_keys. intros (u & s1 & H1 & H2)%stE_bind_ok.
  apply stE_bind_ok in H2 as (b & s2 & Hb%stage_ok & H3).
  assert (remote s1 AUTHORIZED_KEYS = remote s AUTHORIZED_KEYS) as E1 by (eapply quiet_eq; [apply quiet_ensure|exact H1]).
  assert (remote s2 AUTHORIZED_KEYS = remote s1 AUTHORIZED_KEYS) as E2
    by (eapply quiet_eq; [apply law_try_exists|exact Hb]).
  destruct b.
  - apply stE_bind_ok in H3 as (w & s3 & Hw%stage_ok & H4). apply stE_bind_ok in H4 as (? & ? & _ & [= <- _]).
    apply law_read_ok in Hw. by rewrite <- E1, <- E2, Hw.
  - injection H3 as <- _. apply law_absent in Hb. by rewrite <- E1, Hb.
Qed.

(** A staged file is complete before it is renamed. *)
Lemma staging_ok path contents s s' :
  write_staging_file path contents s = (Ok tt, s') → remote s' path = Some contents.
Proof.
  unfold write_staging_file. intros ([] & s1 & H1%stage_ok%law_create_ok & Hr)%stE_bind_ok.
  apply stE_bind_ok in Hr as (? & s2 & H2%stage_ok & Hr). apply stE_bind_ok in Hr as ([] & s3 & H3%stage_ok & Hr).
  apply stE_bind_ok in Hr as (? & s4 & H4%stage_ok & Hr). apply stE_bind_ok in Hr as (? & s5 & H5%stage_ok & H6%stage_ok).
  rewrite (quiet_eq _ _ _ _ _ (law_close _) H6), (quiet_eq _ _ _ _ _ (law_sync _) H5),
    (quiet_eq _ _ _ _ _ (law_flush _) H4).
  rewrite <- (quiet_eq _ _ _ _ path (law_set_permissions _ _) H2) in H1.
  by apply (law_write_ok _ _ _ _ _ H3) in H1.
Qed.

Definition scratch (p : string) : Prop := ∃ n, p = staging_name n.
Lemma keys_not_scratch : ¬ scratch AUTHORIZED_KEYS.
Proof. intros [n E]. discriminate E. Qed.

Lemma cleaned_up_outcome temporary f e s r s' :
  cleaned_up temporary f e s = (r, s') →
  is_ok r = false ∧ ∀ p, p ≠ temporary → remote s' p = remote s p.
Proof.
  unfold cleaned_up. destruct (sftp_remove_file temporary s) as [[[]|c] s1] eqn:E; intros [= <- <-];
    (split; [done|]); intros p Hp; apply (law_remove _ _ _ _ E); congruence.
Qed.

(** Whatever fails, the file is as it was or complete; when the call
    succeeds, it is complete. *)
Lemma replace_outcome contents s r s' :
  sftp_replace contents s = (r, s') →
  (∀ p, p ≠ AUTHORIZED_KEYS → ¬ scratch p → remote s' p = remote s p)
  ∧ ((remote s' AUTHORIZED_KEYS = remote s AUTHORIZED_KEYS ∧ is_ok r = false)
     ∨ remote s' AUTHORIZED_KEYS = Some contents).
Proof.
  unfold sftp_replace, mbind, stE_bind. destruct (random_u64 s) as [[n|e] s1] eqn:E1.
  2:{ intros [= <- <-]. pose proof (λ p, quiet_eq _ _ _ _ p law_random E1) as H01.
      split; [|left; split; [|done]]; intros; apply H01. }
  destruct (ensure_ssh_directory s1) as [[u|e] s2] eqn:E2.
  2:{ intros [= <- <-]. split; [|left; split; [|done]]; intros;
      by rewrite (quiet_eq _ _ _ _ _ quiet_ensure E2), (quiet_eq _ _ _ _ _ law_random E1). }
  set (t := staging_name n). assert (∀ p, ¬ scratch p → p ≠ t) as Ht by (intros p Hp ->; apply Hp; by exists n).
  assert (∀ p, remote s2 p = remote s p) as H02.
  { intros p. by rewrite (quiet_eq _ _ _ _ _ quiet_ensure E2), (quiet_eq _ _ _ _ _ law_random E1). }
  pose proof (Ht _ keys_not_scratch) as Hak.
  unfold stage_and_rename. destruct (write_staging_file t contents s2) as [[[]|e] s3] eqn:E3;
    
    assert (∀ p, p ≠ t → remote s3 p = remote s2 p) as H23
      by (intros p Hp; apply (touches_staging t contents _ _ _ E3); congruence).
  - pose proof (staging_ok _ _ _ _ E3) as Hst. unfold rename_staged, mbind, stE_bind, st_lift.
    destruct (rename_payload t AUTHORIZED_KEYS) as [payload|e] eqn:Ep.
    2:{ intros [= <- <-]. split; [|left; split; [|done]]; intros; rewrite H23, H02; auto. }
    unfold rename_request. destruct (sftp_posix_rename payload s3) as [reply s4] eqn:E4. intros E5.
    assert ((reply = StatusOk ∧ r = Ok tt ∧ s' = s4)
            ∨ (is_ok r = false ∧ ∀ p, p ≠ t → remote s' p = remote s4 p)) as Hend.
    { destruct reply; [left; by injection E5 as <- <-|right; by apply cleaned_up_outcome in E5..]. }
    apply (law_rename _ _ _ _ _ _ Ep) in E4 as [[E4 Hne]|E4].
    + destruct Hend as [(? & _)|[Hr Hend]]; [done|].
      split; [|left; split; [|done]]; intros; rewrite Hend, E4, H23, H02; auto.
    + assert (∀ p, p ≠ t → remote s' p = if bool_decide (p = AUTHORIZED_KEYS) then Some contents else remote s p) as Hf.
      { intros p Hp. assert (remote s' p = remote s4 p) as ->.
        { destruct Hend as [(_ & _ & ->)|[_ Hend]]; [done|by apply Hend]. }
        rewrite E4, Hst. case_bool_decide; [done|]. rewrite bool_decide_false by done. rewrite H23, H02; auto. }
      split; [|right; rewrite Hf by done; by rewrite bool_decide_true].
      intros p Hp Hs. rewrite Hf by auto. by rewrite bool_decide_false.
  - intros [Hr Hend]%cleaned_up_outcome.
    split; [|left; split; [|done]]; intros; rewrite Hend, H23, H02; auto.
Qed.
End Files.

(** ** The engine *)
Section Bootstrap.
Context {S : Type} {Session : Sftp S} {Host : BoxHost S} {Laws : BoxLaws S}.
Context (key_data : string → result string string).
Context (fingerprint : string → option string) (from_openssh : string → option PrivateKey).
#[local] Existing Instance russh_session.
#[local] Instance backend : SshBackend S := russh_backend key_data.

Lemma quiet_choose contribution existing : quiet (choose_key from_openssh contribution existing).
Proof. unfold quiet, choose_key. quiet_steps. Qed.
Lemma quiet_connect task password : quiet (russh_connect key_data task password).
Proof. unfold quiet, russh_connect. quiet_steps. Qed.

(** The file after a merge that says [m]: what was there, or the merged one. *)
Definition left_behind (before : option (list Z)) (m : Merge) : option (list Z) :=
  match m with Unchanged _ => before | Replaced contents => Some contents end.

(** An error before anything was written. *)
Ltac nothing_done := split; [by auto|]; split; [by auto|by intros ? [=]].

(** C24: Whatever fails on the way, the box's [authorized_keys] is what it was or
    the complete result of merging in one key, and no other file but the
    staging file changes. When the bootstrap succeeds the file has been merged
    with the returned key, which is the installed one if there was one. *)
Theorem bootstrap_atomic task password contribution existing s r s' :
  engine_run fingerprint from_openssh task password contribution existing s = (r, s') →
  let before := default [] (remote s AUTHORIZED_KEYS) in
  (∀ p, p ≠ AUTHORIZED_KEYS → ¬ scratch p → remote s' p = remote s p)
  ∧ (remote s' AUTHORIZED_KEYS = remote s AUTHORIZED_KEYS
     ∨ ∃ key date out, merge_authorized_keys before (marker_prefix task) (gk_public_key key) date = Ok (Replaced out)
         ∧ remote s' AUTHORIZED_KEYS = Some out)
  ∧ ∀ key, r = Ok key →
      validate_task fingerprint task = Ok tt
      ∧ (∀ pem, existing = Some pem → from_private_pem from_openssh pem = Ok key)
      ∧ ∃ date m, merge_authorized_keys before (marker_prefix task) (gk_public_key key) date = Ok m
          ∧ remote s' AUTHORIZED_KEYS = left_behind (remote s AUTHORIZED_KEYS) m.
Proof.
  intros E before. unfold engine_run, mbind, stE_bind, st_lift in E.
  destruct (validate_task fingerprint task) as [[]|e] eqn:Ev; [|injection E as <- <-; nothing_done].
  destruct (choose_key from_openssh contribution existing s) as [[key|e] s1] eqn:E1;
    pose proof (λ p, quiet_eq _ _ _ _ p (quiet_choose _ _) E1) as H1;
    [|injection E as <- <-; nothing_done].
  destruct (connect task password s1) as [[u|e] s2] eqn:E2;
    pose proof (λ p, quiet_eq _ _ _ _ p (quiet_connect _ _) E2) as H2; setoid_rewrite H1 in H2;
    [|injection E as <- <-; nothing_done].
  destruct (read_authorized_keys s2) as [[current|e] s3] eqn:E3;
    pose proof (λ p, quiet_eq _ _ _ _ p quiet_read E3) as H3; setoid_rewrite H2 in H3;
    [|injection E as <- <-; nothing_done].
  apply read_ok in E3. rewrite H2 in E3. fold before in E3. subst current.
  destruct (utc_date s3) as [[date|e] s4] eqn:E4;
    pose proof (λ p, quiet_eq _ _ _ _ p law_date E4) as H4; setoid_rewrite H3 in H4;
    [|injection E as <- <-; nothing_done].
  destruct (merge_authorized_keys before (marker_prefix task) (gk_public_key key) date) as [m|e] eqn:Em;
    [|injection E as <- <-; nothing_done].
  assert (∀ pem, existing = Some pem → from_private_pem from_openssh pem = Ok key) as Hpem.
  { intros pem ->. unfold choose_key, st_lift in E1. by simplify_eq. }
  destruct m as [c|out].
  - injection E as <- <-. split; [auto|]. split; [auto|]. intros ? [= <-]. repeat (split; [done|]).
    exists date, (Unchanged c). by rewrite H4.
  - destruct (replace_authorized_keys_atomically out s4) as [r5 s5] eqn:E5.
    apply replace_outcome in E5 as [Hother Hkeys].
    assert (s' = s5 ∧ ∀ k, r = Ok k → k = key ∧ is_ok r5 = true) as [-> Hr].
    { destruct r5; injection E as <- <-; (split; [done|]); [by intros k [= <-]|done]. }
    split; [intros; by rewrite Hother, H4|]. split.
    + destruct Hkeys as [[Hk _]|Hk]; [left; by rewrite Hk, H4|]. right. by exists key, date, out.
    + intros k [-> Hok]%Hr. repeat (split; [done|]). exists date, (Replaced out). split; [done|].
      destruct Hkeys as [[_ Hf]|Hk]; [congruence|done].
Qed.
End Bootstrap.
