(* ===== verification/StorageBoxSample.v ===== *)
(** * A storage box, evaluated

    The box is a map of its files; every call succeeds but those on the
    staging file of another random number. *)
From S2P Require Import Prelude BTree SchemaValidation Paths Text Lines StorageBox StorageBoxFacts StorageBoxSession.
#[local] Open Scope Z_scope.

Definition Box : Type := list (string * list Z).
Definition staged : string := staging_name 7.
Definition is_our_rename (payload : list Z) : bool :=
  match rename_payload staged AUTHORIZED_KEYS with
  | Ok ours => bool_decide (payload = ours)
  | Err _ => false
  end.
Definition box_rename (payload : list Z) (s : Box) : RenameReply * Box :=
  if is_our_rename payload then
    match bt_get staged s with
    | Some contents => (StatusOk, bt_insert AUTHORIZED_KEYS contents (bt_remove staged s))
    | None => (StatusOk, bt_remove AUTHORIZED_KEYS s)
    end
  else (OtherPacket, s).

#[export] Instance box_sftp : Sftp Box := {
  sftp_open _ _ _ _ _ := mret tt;
  sftp_try_exists p s := (Ok (is_some (bt_get p s)), s);
  sftp_is_dir _ := mret true;
  sftp_create_dir _ := mret tt;
  sftp_set_permissions _ _ := mret tt;
  sftp_read p s := (ok_or "no such file" (bt_get p s), s);
  sftp_create p s := (Ok tt, bt_insert p [] s);
  sftp_write_all p l s := (Ok tt, bt_insert p (default [] (bt_get p s) ++ l) s);
  sftp_flush _ := mret tt;
  sftp_sync_all _ := mret tt;
  sftp_close _ := mret tt;
  sftp_remove_file p s := (Ok tt, bt_remove p s);
  sftp_posix_rename := box_rename;
  random_u64 := mret 7
}.
Definition new_key : GeneratedKey :=
  {| gk_private_pem := "new private key"; gk_public_key := "ssh-ed25519 NEW" |}.
#[export] Instance box_host : BoxHost Box := {
  entropy_open := mret tt;
  entropy_write _ := mret tt;
  entropy_flush := mret tt;
  generate_key := mret new_key;
  utc_date := mret "2024-05-06"
}.

Lemma rename_payload_ok old new payload :
  rename_payload old new = Ok payload →
  slen old ≤ u32_max ∧ slen new ≤ u32_max
  ∧ payload = be_bytes 4 (slen old) ++ bytes old ++ be_bytes 4 (slen new) ++ bytes new ++ [].
Proof.
  unfold rename_payload. cbn [try_fold]. rewrite app_nil_r.
  destruct (Z.leb_spec (slen old) u32_max); [|done]. cbn [guard_err mbind result_bind].
  destruct (Z.leb_spec (slen new) u32_max); [|done]. cbn [guard_err mbind result_bind].
  by intros [= <-].
Qed.

Lemma framed_inj s t x y :
  slen s ≤ u32_max → slen t ≤ u32_max →
  be_bytes 4 (slen s) ++ bytes s ++ x = be_bytes 4 (slen t) ++ bytes t ++ y → s = t ∧ x = y.
Proof.
  intros Hs Ht E. apply app_inj_1 in E as [El E]; [|by rewrite !length_be_bytes].
  apply (f_equal be_value) in El. unfold u32_max in *. rewrite slen_bytes in Hs, Ht, El.
  rewrite (slen_bytes t) in El. pose proof (zlen_nonneg (bytes s)). pose proof (zlen_nonneg (bytes t)).
  rewrite !be_value_bytes_id in El by (cbn; rewrite <- ?slen_bytes in *; lia).
  apply app_inj_1 in E as [E ->]; [|unfold zlen in *; lia]. split; [by apply bytes_inj|done].
Qed.

Lemma our_rename old new payload :
  rename_payload old new = Ok payload → is_our_rename payload = true → old = staged ∧ new = AUTHORIZED_KEYS.
Proof.
  unfold is_our_rename. destruct (rename_payload staged AUTHORIZED_KEYS) as [ours|] eqn:E; [|done].
  intros (H1 & H2 & ->)%rename_payload_ok H%bool_decide_eq_true. subst ours.
  apply rename_payload_ok in E as (H3 & H4 & E). apply framed_inj in E as [-> E]; [|done..].
  by apply framed_inj in E as [-> _].
Qed.

#[local] Instance box_laws : BoxLaws Box.
Proof.
  refine {| remote s p := bt_get p s |}; try (intros; match goal with E : _ = (_, ?s') |- bt_get _ ?s' = bt_get _ _ => by inversion E end).
  - intros p s s'. cbn. intros [= E <-]. by destruct (bt_get p s).
  - intros p s v s'. cbn. unfold ok_or. destruct (bt_get p s); naive_solver.
  - intros p s r s'. cbn. intros [= <- <-] q Hq. apply bt_get_insert_ne. congruence.
  - intros p s s'. cbn. intros [= <-]. apply bt_get_insert_eq.
  - intros p l s r s' [= <- <-] q Hq. apply bt_get_insert_ne. congruence.
  - intros p l s s' c. cbn. intros [= <-] Hc. by rewrite bt_get_insert_eq, Hc.
  - intros p s r s' [= <- <-] q Hq. apply bt_get_remove_ne. congruence.
  - intros old new payload s reply s' Hp. cbn. unfold box_rename.
    destruct (is_our_rename payload) eqn:E; [|by intros [= <- <-]; left].
    destruct (our_rename _ _ _ Hp E) as [-> ->]. intros H. right. intros p.
    destruct (bt_get staged s) as [c|] eqn:Ec; injection H as <- <-; case_bool_decide as H1; subst.
    + apply bt_get_insert_eq.
    + rewrite bt_get_insert_ne by done. case_bool_decide as H2; subst; [apply bt_get_remove_eq|].
      by apply bt_get_remove_ne.
    + apply bt_get_remove_eq.
    + rewrite bt_get_remove_ne by done. case_bool_decide; by subst.
Defined.

(** ** A bootstrap *)
Definition task : StorageBoxTask := {|
  box_schema_version := 1; box_task_id := "web.services.backup.key"; box_target_hostname := "web";
  box_storage_box_host := "u1.your-storagebox.de"; box_storage_box_user := "u1"; box_port := 23;
  box_pinned_host_keys := ["ssh-ed25519 PIN"];
  box_output := {| ou_path := "/persistent/secrets/backup/backup/key"; ou_owner := "root"; ou_group := "root";
                   ou_mode := 256 |} |}.
Definition old_file : string :=
  unlines ["ssh-rsa OTHER admin"; "ssh-ed25519 OLD nix-secrets:web:web.services.backup.key:2020-01-02"; ""].
Definition new_file : string :=
  unlines ["ssh-rsa OTHER admin"; ""; "ssh-ed25519 NEW nix-secrets:web:web.services.backup.key:2024-05-06"].
Definition box : Box := [(AUTHORIZED_KEYS, bytes old_file); ("backup/data", [1; 2; 3])].
Definition box_after : Box := [(AUTHORIZED_KEYS, bytes new_file); ("backup/data", [1; 2; 3])].
Definition pin_data (pin : string) : result string string := Ok pin.
Definition pin_fingerprint (pin : string) : option string := Some pin.
Definition no_private (pem : string) : option PrivateKey := None.
#[local] Instance sample_backend : SshBackend Box := russh_backend pin_data.

Lemma bootstrap_atomic_witness :
  engine_run pin_fingerprint no_private task (bytes "password") (repeat 1 32) None box = (Ok new_key, box_after)
  ∧ ∃ date m, merge_authorized_keys (bytes old_file) (marker_prefix task) "ssh-ed25519 NEW" date = Ok m
      ∧ bt_get AUTHORIZED_KEYS box_after = left_behind (Some (bytes old_file)) m.
Proof.
  assert (engine_run pin_fingerprint no_private task (bytes "password") (repeat 1 32) None box
            = (Ok new_key, box_after)) as H by (vm_compute; reflexivity).
  split; [exact H|].
  destruct (bootstrap_atomic pin_data pin_fingerprint no_private task _ _ _ box _ box_after H) as (_ & _ & Hr).
  exact (proj2 (proj2 (Hr new_key eq_refl))).
Defined.

Lemma merge_converges_witness :
  merge_authorized_keys (bytes old_file) (marker_prefix task) "ssh-ed25519 NEW" "2024-05-06"
    = Ok (Replaced (bytes new_file))
  ∧ merge_authorized_keys (bytes new_file) (marker_prefix task) "ssh-ed25519 NEW" "2025-01-01"
    = Ok (Unchanged (bytes new_file)).
Proof.
  assert (merge_authorized_keys (bytes old_file) (marker_prefix task) "ssh-ed25519 NEW" "2024-05-06"
    = Ok (Replaced (bytes new_file))) as H by (vm_compute; reflexivity).
  split; [exact H|].
  assert (plain_word (marker_prefix task)) as Hp.
  { split; [done|]. apply Forall_forall. intros b Hb. vm_compute in Hb.
    repeat (apply elem_of_cons in Hb as [->|Hb]; [lia|]). by apply not_elem_of_nil in Hb. }
  assert (plain_key "ssh-ed25519 NEW") as Hk.
  { exists "ssh-ed25519", "NEW". split; [done|]. split; [done|].
    split; (split; [done|]); apply Forall_forall; intros b Hb; vm_compute in Hb;
      repeat (apply elem_of_cons in Hb as [->|Hb]; [lia|]); by apply not_elem_of_nil in Hb. }
  destruct (merge_converges (bytes old_file) (marker_prefix task) "ssh-ed25519 NEW" "2024-05-06" (bytes new_file)
              (bytes_is_byte _) Hp Hk H) as (text & _ & _ & _ & Hagain); [vm_compute; discriminate|].
  exact (Hagain "ssh-ed25519 NEW" "2025-01-01" eq_refl).
Defined.
