(* ===== verification/Plan.v ===== *)
(** * What a deployment does with unset values

    [crates/manager/src/controller/unset.rs], [preflight.rs], [target.rs] and
    the stale values of [public_info.rs]: before a deployment the operator's
    program classifies every requested value by the schema and the store: sent,
    derived, generated on the target, left to the host's default, or missing
    with a reason.  [plan_unset] and [check] decide before connecting,
    [target_mismatches] and [exclude_mismatches] once the target has answered.

    SSH keys, base64, JSON, the recipient check and random bytes are arguments. *)
From S2P Require Import Prelude BTree Crypto Generator Schema SchemaValidation Store Broker Wire Handshake Text Manifest.
#[local] Open Scope Z_scope.

(** ** The plan ([unset.rs]) *)
Inductive MissingKind :=
| NeedsInput
| Optional
| FilledByAnotherHost
| DerivedFromUnset
| CannotDeploy
| InvalidUnderSchema
| NotDeclaredByHost
| DeclaredDifferently
| UnknownToSchema.

Definition missing_label (kind : MissingKind) : string :=
  match kind with
  | NeedsInput => "Needs input"
  | Optional => "Optional; not provided"
  | FilledByAnotherHost => "Filled by another host"
  | DerivedFromUnset => "Derived from unset source"
  | CannotDeploy => "Cannot deploy"
  | InvalidUnderSchema => "Stored value invalid under the current schema"
  | NotDeclaredByHost => "Not declared by the host's activation"
  | DeclaredDifferently => "Declared differently by the host"
  | UnknownToSchema => "Asked for by the host, unknown to this schema"
  end.

#[export] Instance missing_kind_eq_dec : EqDecision MissingKind.
Proof. solve_decision. Defined.

Record UnsetPlan := {
  up_generate : list (string * string);
  up_missing : list (string * string);
  up_derived : list (string * string);
  up_derived_on_target : list (string * string);
  up_skippable : list string;
  up_reasons : list (string * MissingKind);
  up_host_default : list string;
  up_shared : list (string * string)
}.
Definition plan_default : UnsetPlan :=
  {| up_generate := []; up_missing := []; up_derived := []; up_derived_on_target := [];
     up_skippable := []; up_reasons := []; up_host_default := []; up_shared := [] |}.

(** [retain] of the pairs, and of the values, other than [identifier]. *)
Definition without {T} (identifier : string) (l : list (string * T)) : list (string * T) :=
  List.filter (λ item, negb (bool_decide (item.1 = identifier))) l.
Definition without_id (identifier : string) (l : list string) : list string :=
  List.filter (λ id, negb (bool_decide (id = identifier))) l.
(** [l.iter().any(|(id, _)| id == identifier)]. *)
Definition names {T} (identifier : string) (l : list (string * T)) : bool :=
  existsb (λ item, bool_decide (item.1 = identifier)) l.

(** [push] on one of the lists of a plan. *)
Definition plan_generate (item : string * string) (p : UnsetPlan) : UnsetPlan :=
  {| up_generate := up_generate p ++ [item]; up_missing := up_missing p; up_derived := up_derived p;
     up_derived_on_target := up_derived_on_target p; up_skippable := up_skippable p;
     up_reasons := up_reasons p; up_host_default := up_host_default p; up_shared := up_shared p |}.
Definition plan_derived (item : string * string) (p : UnsetPlan) : UnsetPlan :=
  {| up_generate := up_generate p; up_missing := up_missing p; up_derived := up_derived p ++ [item];
     up_derived_on_target := up_derived_on_target p; up_skippable := up_skippable p;
     up_reasons := up_reasons p; up_host_default := up_host_default p; up_shared := up_shared p |}.
Definition plan_on_target (item : string * string) (p : UnsetPlan) : UnsetPlan :=
  {| up_generate := up_generate p; up_missing := up_missing p; up_derived := up_derived p;
     up_derived_on_target := up_derived_on_target p ++ [item]; up_skippable := up_skippable p;
     up_reasons := up_reasons p; up_host_default := up_host_default p; up_shared := up_shared p |}.
Definition plan_shared (item : string * string) (p : UnsetPlan) : UnsetPlan :=
  {| up_generate := up_generate p; up_missing := up_missing p; up_derived := up_derived p;
     up_derived_on_target := up_derived_on_target p; up_skippable := up_skippable p;
     up_reasons := up_reasons p; up_host_default := up_host_default p; up_shared := up_shared p ++ [item] |}.
Definition plan_host_default (identifier : string) (p : UnsetPlan) : UnsetPlan :=
  {| up_generate := up_generate p; up_missing := up_missing p; up_derived := up_derived p;
     up_derived_on_target := up_derived_on_target p; up_skippable := up_skippable p;
     up_reasons := up_reasons p; up_host_default := up_host_default p ++ [identifier];
     up_shared := up_shared p |}.
Definition set_generate (generate : list (string * string)) (p : UnsetPlan) : UnsetPlan :=
  {| up_generate := generate; up_missing := up_missing p; up_derived := up_derived p;
     up_derived_on_target := up_derived_on_target p; up_skippable := up_skippable p;
     up_reasons := up_reasons p; up_host_default := up_host_default p; up_shared := up_shared p |}.
Definition set_on_target (derived : list (string * string)) (p : UnsetPlan) : UnsetPlan :=
  {| up_generate := up_generate p; up_missing := up_missing p; up_derived := up_derived p;
     up_derived_on_target := derived; up_skippable := up_skippable p;
     up_reasons := up_reasons p; up_host_default := up_host_default p; up_shared := up_shared p |}.

Definition miss (identifier : string) (kind : MissingKind) (reason : string) (p : UnsetPlan) : UnsetPlan :=
  {| up_generate := up_generate p; up_missing := up_missing p ++ [(identifier, reason)];
     up_derived := up_derived p; up_derived_on_target := up_derived_on_target p;
     up_skippable := up_skippable p ++ [identifier];
     up_reasons := bt_insert identifier kind (up_reasons p);
     up_host_default := up_host_default p; up_shared := up_shared p |}.

Definition partial_possible (p : UnsetPlan) : bool :=
  negb (bool_decide (up_missing p = []))
  && forallb (λ item, bool_decide (item.1 ∈ up_skippable p)) (up_missing p).

Definition refusal_text (required : list (string * string)) : string :=
  "Missing values that must be entered: "
    +:+ join ", " ((λ '(id, reason), id +:+ " (" +:+ reason +:+ ")") <$> required)
    +:+ ". Nothing was generated or written.".

Definition refusal (p : UnsetPlan) : option string :=
  let required :=
    List.filter (λ item, negb (bool_decide (bt_get item.1 (up_reasons p) = Some Optional))) (up_missing p) in
  if bool_decide (required = []) then None else Some (refusal_text required).

Definition refusal_for (allow_partial : bool) (p : UnsetPlan) : option string :=
  if allow_partial && partial_possible p then None else refusal p.

(** Everything the plan says about one value, forgotten. *)
Definition forget (identifier : string) (p : UnsetPlan) : UnsetPlan :=
  {| up_generate := without identifier (up_generate p);
     up_missing := without identifier (up_missing p);
     up_derived := without identifier (up_derived p);
     up_derived_on_target := without identifier (up_derived_on_target p);
     up_skippable := without_id identifier (up_skippable p);
     up_reasons := up_reasons p;
     up_host_default := without_id identifier (up_host_default p);
     up_shared := without identifier (up_shared p) |}.

(** The values to derive on the target whose source it does not generate. *)
Definition waiting_on_source (p : UnsetPlan) : list (string * string) :=
  List.filter (λ item, negb (names item.2 (up_generate p ++ up_shared p))) (up_derived_on_target p).

Definition exclude_mismatches (mismatches : list (string * MissingKind * string)) (p : UnsetPlan) : UnsetPlan :=
  let p := foldl (λ p '(identifier, kind, reason), miss identifier kind reason (forget identifier p))
             p mismatches in
  foldl (λ p '(identifier, source),
    miss identifier CannotDeploy ("its source " +:+ source +:+ " is left out of this deployment")
      (set_on_target (without identifier (up_derived_on_target p)) p))
    p (waiting_on_source p).

(** [identifier.split('.').next().unwrap_or("")]. *)
Definition host_of (identifier : string) : string := default "" (head (split "." identifier)).
(** [hosts.dedup()]. *)
Fixpoint dedup (l : list string) : list string :=
  match l with
  | a :: (b :: _) as rest => if bool_decide (a = b) then dedup rest else a :: dedup rest
  | _ => l
  end.

Definition NAMED_KEYS : string := "named-ssh-ed25519-public-keys".
Definition is_local_key (t : GeneratedSecretType) : bool :=
  match t with LocalSshKey => true | StorageBoxSshKey => false end.
Definition leaf_optional (leaf : LeafSpec) : bool :=
  match leaf with
  | Stored spec => ss_optional spec
  | GeneratedSpec spec => gp_optional spec
  | OperatorOnly _ => false
  end.

Section Plan.
Context (schema_error : SchemaError → string) (deployment_error : DeploymentError → string).
Context (from_openssh : string → option Algorithm).

Section Planning.
Context (schema : Schema) (set : list (string * unit)) (stale : list (string * string)).

(** Whether the value itself, or the source it is derived from, is stored. *)
Definition provided (identifier : string) (leaf : LeafSpec) : bool :=
  match leaf with
  | Stored spec =>
      match ss_derived_from spec with
      | Some source => bt_contains (df_identifier source) set
      | None => bt_contains identifier set
      end
  | _ => bt_contains identifier set
  end.

(** An unset stored value that is not derived. *)
Definition classify_unset (identifier : string) (spec : SecretSpec) (p : UnsetPlan) : UnsetPlan :=
  match ss_kind spec with
  | KPublicInfo =>
      if ss_install_default_if_missing spec then plan_host_default identifier p
      else miss identifier NeedsInput "public information is unset; enter it first" p
  | KSecret =>
      let producers := registration_producers schema identifier in
      if bool_decide (producers = []) && bool_decide (ds_content_type (ss_destination spec) = Some NAMED_KEYS)
      then miss identifier FilledByAnotherHost
             "no reporting-key producers configured; inventory has no registered senders" p
      else if negb (bool_decide (producers = [])) then
        miss identifier FilledByAnotherHost
          ("filled when " +:+ join ", " (dedup (host_of <$> producers)) +:+ " deploy") p
      else
        match deployment_generator spec with
        | Ok generator => plan_generate (identifier, generator_label generator) p
        | Err reason => miss identifier NeedsInput (not_generatable_reason reason) p
        end
  end.

(** One turn of the first loop: the plan, and the derived values whose source
    is unset. *)
Definition classify (acc : UnsetPlan * list (string * string)) (identifier : string)
  : result string (UnsetPlan * list (string * string)) :=
  let '(p, waiting) := acc in
  match bt_get identifier stale with
  | Some reason => Ok (miss identifier InvalidUnderSchema reason p, waiting)
  | None =>
      path ← map_err schema_error (path_parse identifier);
      leaf ← map_err schema_error (leaf schema path);
      if leaf_optional leaf && negb (provided identifier leaf) then
        Ok (miss identifier Optional "optional; not provided" p, waiting)
      else
        match leaf with
        | Stored spec =>
            match ss_derived_from spec with
            | Some derived =>
                let source := df_identifier derived in
                if bt_contains source set then Ok (plan_derived (identifier, source) p, waiting)
                else Ok (p, waiting ++ [(identifier, source)])
            | None =>
                if bt_contains identifier set then Ok (p, waiting)
                else Ok (classify_unset identifier spec p, waiting)
            end
        | OperatorOnly _ => Ok (p, waiting)
        | GeneratedSpec task =>
            if bt_contains identifier set || is_local_key (gs_secret_type (gp_generated_secret task))
            then Ok (p, waiting)
            else Ok (miss identifier NeedsInput "task input" p, waiting)
        end
  end.

Definition shared_generator (source : string) : option DeployGenerator :=
  match path_parse source with
  | Err _ => None
  | Ok path =>
      match leaf schema path with
      | Ok (Stored spec) =>
          if is_some (ds_content_type (ss_destination spec)) || bool_decide (ss_kind spec = KPublicInfo)
          then None
          else match deployment_generator spec with Ok generator => Some generator | Err _ => None end
      | _ => None
      end
  end.

Definition source_first (source : string) : string :=
  let generatable :=
    match path_parse source with
    | Ok path => match leaf schema path with
                 | Ok (Stored spec) => is_ok (deployment_generator spec)
                 | _ => false
                 end
    | Err _ => false
    end in
  let host := host_of source in
  if generatable
  then "derived from unset " +:+ source +:+ "; deploy " +:+ host +:+ " first, which generates it"
  else "derived from unset " +:+ source +:+ "; enter " +:+ source +:+ " first".

(** One turn of the second loop. *)
Definition place_waiting (p : UnsetPlan) (item : string * string) : UnsetPlan :=
  let '(identifier, source) := item in
  let same_host := bool_decide (host_of source = host_of identifier) in
  if names source (up_generate p ++ up_shared p) then plan_on_target item p
  else
    match (if same_host then None else shared_generator source) with
    | Some generator => plan_on_target item (plan_shared (source, generator_label generator) p)
    | None => miss identifier DerivedFromUnset (source_first source) p
    end.

(** ** Before connecting ([preflight.rs]) *)
(** [walk] of [attesting_leaf]: the first public leaf at [file] that attests
    [server] on [port]. *)
Fixpoint attesting_walk (file server : string) (port : Z) (prefix : string) (node : SecretNode)
  : option (string * SecretLeaf) :=
  match node with
  | Secret leaf =>
      if bool_decide (lf_kind leaf = KPublicInfo) && bool_decide (ds_path (lf_destination leaf) = file)
         && bool_decide (server ∈ leaf_ssh_hosts leaf) && bool_decide (lf_expected_ssh_port leaf = Some port)
      then Some (prefix, leaf) else None
  | Branch children =>
      (fix find_map children :=
         match children with
         | [] => None
         | (name, child) :: children =>
             match attesting_walk file server port (prefix +:+ "." +:+ name) child with
             | Some found => Some found
             | None => find_map children
             end
         end) children
  | _ => None
  end.
Definition find_map {A B} (f : A → option B) (l : list A) : option B := head (omap f l).
Definition attesting_leaf (host : HostSchema) (hostname file server : string) (port : Z)
  : option (string * SecretLeaf) :=
  find_map (λ '(namespace, services),
    find_map (λ '(service, node),
      attesting_walk file server port (hostname +:+ "." +:+ namespace +:+ "." +:+ service) node) services)
    (hs_service_groups host).

Definition at_port (host : string) (port : Z) : string := "[" +:+ host +:+ "]:" +:+ dec port.

(** Why the server of a storage box task cannot be checked on the host. *)
Definition task_problem (host : HostSchema) (identifiers : list string) (stale : list (string * unit))
    (task : GeneratedSecretSpec) : option string :=
  bootstrap ← gs_bootstrap (gp_generated_secret task);
  file ← sb_known_hosts_file bootstrap;
  hostname ← head (gp_path task);
  let server := sb_host bootstrap in
  let port := sb_port bootstrap in
  match attesting_leaf host hostname file server port with
  | None =>
      Some ("its knownHostsFile " +:+ file +:+ " is not public information of " +:+ hostname +:+ " for "
            +:+ at_port server port +:+ "; declare it with expectedSshHost or expectedSshHosts")
  | Some (identifier, leaf) =>
      if bt_contains identifier stale then None
      else
        let value := lf_default_value leaf in
        let supplied := bt_contains identifier set && bool_decide (identifier ∈ identifiers) in
        let installed_by_host := lf_install_default_if_missing leaf && is_some value in
        if negb supplied && negb installed_by_host then
          Some (file +:+ " is absent: " +:+ identifier +:+ " has no stored value and no defaultValue; "
                +:+ "enter it, or set defaultValue in the host's configuration")
        else
          value ← value;
          match known_hosts_keys from_openssh value (leaf_ssh_hosts leaf) port server with
          | Ok [] => Some ("the default of " +:+ identifier +:+ " holds no key for " +:+ at_port server port)
          | Err error => Some ("the default of " +:+ identifier +:+ " is invalid: " +:+ error)
          | Ok _ => None
          end
  end.

Definition trim_newlines (value : string) : string :=
  of_bytes (reverse ((fix drop l := match l with 10 :: l => drop l | _ => l end) (reverse (bytes value)))).
Definition multi_line (spec : SecretSpec) : bool :=
  is_some_and (λ value, contains_byte 10 (trim_newlines value)) (ss_default_value spec).

Definition needs (protocol version : Z) (feature : string) : option string :=
  if protocol <? version
  then Some ("the host's receiver speaks deployment protocol " +:+ dec protocol +:+ ", and " +:+ feature
             +:+ " needs " +:+ dec version +:+ "; update the host first")
  else None.
(** [if condition { if let Some(reason) = needs(..) { return Some(reason) } }]. *)
Definition needs_if (condition : bool) (protocol version : Z) (feature : string) : option string :=
  if condition then needs protocol version feature else None.
Definition or_else {A} (o : option A) (rest : option A) : option A :=
  match o with Some a => Some a | None => rest end.

Definition from_shared (p : UnsetPlan) (identifier : string) : bool :=
  match List.find (λ item, bool_decide (item.1 = identifier)) (up_derived_on_target p) with
  | Some (_, source) => names source (up_shared p)
  | None => false
  end.

Definition stored_problem (spec : SecretSpec) (p : UnsetPlan) (identifier : string) (protocol : option Z)
  : option string :=
  protocol ← protocol;
  or_else (needs_if (names identifier (up_generate p) || names identifier (up_derived_on_target p))
             protocol GENERATION_PROTOCOL_VERSION "generating a value on the target")
 (or_else (needs_if (from_shared p identifier)
             protocol SHARED_SOURCE_PROTOCOL_VERSION "generating another host's shared secret")
 (or_else (needs_if (is_some_and (λ derived, negb (bool_decide (df_toml_path derived = []))) (ss_derived_from spec))
             protocol SHARED_SOURCE_PROTOCOL_VERSION "derivedFrom.tomlPath")
          (needs_if (bool_decide (ss_kind spec = KPublicInfo)
                     && ((1 <? zlen (spec_ssh_hosts spec)) || multi_line spec))
             protocol NOT_DEPLOYED_PROTOCOL_VERSION "public information with several hosts or key lines"))).

Definition leaf_problem (host : HostSchema) (identifiers : list string) (stale : list (string * unit))
    (p : UnsetPlan) (identifier : string) (leaf : LeafSpec) : option string :=
  match leaf with
  | GeneratedSpec task => task_problem host identifiers stale task
  | Stored spec => stored_problem spec p identifier (dm_protocol_version (hm_deployment (hs_metadata host)))
  | OperatorOnly _ => None
  end.

(** One turn of the loop over the requested values. *)
Definition check_one (host : HostSchema) (identifiers : list string) (stale : list (string * unit))
    (p : UnsetPlan) (identifier : string) : UnsetPlan :=
  if names identifier (up_missing p) then p
  else
    match path_parse identifier with
    | Err _ => p
    | Ok path =>
        match leaf schema path with
        | Err _ => p
        | Ok leaf =>
            match leaf_problem host identifiers stale p identifier leaf with
            | Some reason => miss identifier CannotDeploy reason p
            | None => p
            end
        end
    end.

(** A derived value that waits with its source. *)
Definition wait_with_source (p : UnsetPlan) (item : string * string) : UnsetPlan :=
  let '(identifier, source) := item in
  let p := set_on_target (without identifier (up_derived_on_target p)) p in
  if names identifier (up_missing p) then p
  else miss identifier CannotDeploy
         ("its source " +:+ source +:+ " cannot be generated in this deployment") p.

Definition check (identifiers : list string) (p : UnsetPlan) : UnsetPlan :=
  match head identifiers with
  | None => p
  | Some first =>
      match bt_get (host_of first) schema with
      | None => p
      | Some host =>
          let stale := bs_of_list
            (List.filter (λ item, bool_decide (item.2 = InvalidUnderSchema)) (up_reasons p)).*1 in
          let p := foldl (check_one host identifiers stale) p identifiers in
          let p := set_generate
            (List.filter (λ item, negb (names item.1 (up_missing p))) (up_generate p)) p in
          foldl wait_with_source p (waiting_on_source p)
      end
  end.

Definition plan_unset (identifiers : list string) : result string UnsetPlan :=
  '(p, waiting) ← try_fold classify (plan_default, []) identifiers;
  Ok (check identifiers (foldl place_waiting p waiting)).
End Planning.

Definition preflight_refusal (schema : Schema) (target : string) : option string :=
  host ← bt_get target schema;
  let keys := dm_identity_public_keys (hm_deployment (hs_metadata host)) in
  if bool_decide (keys = []) then None
  else
    let invalid := List.filter (λ key, negb (is_some (from_openssh key))) keys in
    if bool_decide (invalid = []) then None
    else Some (target +:+ ": cannot deploy: its forwarder key is not an OpenSSH public key: "
               +:+ join ", " invalid).

(** ** What the target must declare ([target.rs]) *)
Section Target.
Context (generator_json : DeployGenerator → string) (derived_json : DerivedFrom → string).
Context (debug : Debug).
Context (b64_encode : list Z → string) (b64_decode : string → option (list Z)).
Context (b64_nopad : list Z → string) (sha256 : list Z → list Z).

Definition expected_generator (spec : SecretSpec) : option string :=
  match deployment_generator spec with
  | Ok generator => Some (generator_json generator)
  | Err _ => None
  end.

Definition expected_secret (identifier : string) (spec : SecretSpec) : ExpectedSecret :=
  {| xs_identifier := identifier;
     xs_recipient_ids := ss_recipient_ids spec;
     xs_destination := wire_destination (ss_destination spec) (ss_consumer_units spec);
     xs_public_info :=
       (λ shared_id, {| pa_shared_id := shared_id;
                        pa_expected_ssh_host := default "" (ss_expected_ssh_host spec);
                        pa_expected_ssh_port := default 0 (ss_expected_ssh_port spec);
                        pa_expected_ssh_hosts := ss_expected_ssh_hosts spec |}) <$> ss_shared_public_id spec;
     xs_generator := expected_generator spec;
     xs_derived := derived_json <$> ss_derived_from spec |}.

Definition expected_task (identifier : string) (spec : GeneratedSecretSpec) : ExpectedTask :=
  let generated := gp_generated_secret spec in
  {| xt_identifier := identifier;
     xt_task_type := match gs_secret_type generated with
                     | StorageBoxSshKey => STORAGE_BOX_SSH_KEY
                     | LocalSshKey => LOCAL_SSH_KEY
                     end;
     xt_recipient_ids := gp_recipient_ids spec;
     xt_output := wire_destination (gs_output generated) (gp_consumer_units spec);
     xt_bootstrap := wire_bootstrap <$> gs_bootstrap generated |}.

Definition operator_only (identifier : string) : string :=
  identifier +:+ " is operator-only and is never deployed".

Definition add_expected (schema : Schema) (acc : list ExpectedSecret * list ExpectedTask) (identifier : string)
  : result string (list ExpectedSecret * list ExpectedTask) :=
  let '(secrets, tasks) := acc in
  path ← map_err schema_error (path_parse identifier);
  spec ← map_err schema_error (leaf schema path);
  match spec with
  | OperatorOnly _ => Err (operator_only identifier)
  | Stored spec => Ok (secrets ++ [expected_secret identifier spec], tasks)
  | GeneratedSpec spec => Ok (secrets, tasks ++ [expected_task identifier spec])
  end.

Definition expected_target (schema : Schema) (target : string) (identifiers : list string)
  : result string ExpectedTarget :=
  '(secrets, tasks) ← try_fold (add_expected schema) ([], []) identifiers;
  Ok {| xp_hostname := target; xp_secrets := secrets; xp_tasks := tasks |}.

Definition target_has_version (state : TargetState) (identifier : string) : result string bool :=
  ok_or ("target omitted " +:+ identifier)
    ((λ secret, is_some (ts_current_version_id secret)) <$>
       List.find (λ secret, bool_decide (ts_identifier secret = identifier)) (st_secrets state)).
Definition target_task_has_version (state : TargetState) (identifier : string) : result string bool :=
  ok_or ("target omitted task " +:+ identifier)
    ((λ task, is_some (tt_current_version_id task)) <$>
       List.find (λ task, bool_decide (tt_identifier task = identifier)) (st_tasks state)).

Definition known_to (schema : Schema) (identifier : string) : bool :=
  match path_parse identifier with Ok path => is_ok (leaf schema path) | Err _ => false end.

Definition unknown_to_schema : string :=
  "the host's current activation asks for it, but this schema does not declare it; nothing is sent for it".

Definition target_mismatches (schema : Schema) (state : TargetState) (expected : ExpectedTarget)
  : result string (list (string * MissingKind * string)) :=
  found ← map_err deployment_error (compare_target b64_decode debug state expected);
  Ok (((λ left, (lo_identifier left,
                 if lo_absent left then NotDeclaredByHost else DeclaredDifferently, lo_reason left)) <$> found)
      ++ ((λ identifier, (identifier, UnknownToSchema, unknown_to_schema)) <$>
            List.filter (λ identifier, negb (known_to schema identifier)) (st_unselected state))).

(** ** What the target is asked to generate ([unset.rs]) *)
Context {S : Type} (fresh_contribution : stE S string (list Z)).

Definition CONTRIBUTION_BYTES : Z := 32.
(** A fresh contribution, encoded; the error is the one of [getrandom]. *)
Definition contribution : stE S string string := λ s,
  match fresh_contribution s with
  | (Ok raw, s) => (Ok (b64_encode raw), s)
  | (Err error, s) => (Err ("OS randomness failed: " +:+ error), s)
  end.

Definition shared_source (schema : Schema) (identifier : string) : result string SharedSource :=
  path ← map_err schema_error (path_parse identifier);
  spec ← map_err schema_error (leaf schema path);
  match spec with
  | Stored spec =>
      generator ← ok_or (identifier +:+ " cannot be generated on another host") (shared_generator schema identifier);
      Ok {| sh_generator := generator_json generator; sh_recipient_ids := ss_recipient_ids spec;
            sh_recipient_public_keys := ss_recipient_public_keys spec |}
  | _ => Err (identifier +:+ " is not a stored value")
  end.

Fixpoint generate_entries_from (items : list (result string (string * option SharedSource)))
  : stE S string (list GenerateEntry) :=
  match items with
  | [] => mret []
  | item :: items =>
      '(identifier, shared) ← st_lift item;
      encoded ← contribution;
      entries ← generate_entries_from items;
      mret ({| ge_identifier := identifier; ge_client_contribution_base64 := encoded;
               ge_shared := shared |} :: entries)
  end.
Definition generate_entries (schema : Schema) (p : UnsetPlan) : stE S string (list GenerateEntry) :=
  generate_entries_from
    (((λ item, Ok (item.1, None)) <$> up_generate p)
     ++ ((λ item, shared ← shared_source schema item.1; Ok (item.1, Some shared)) <$> up_shared p)).

(** A returned record, checked against the schema without decrypting it. *)
Definition record_envelope (schema : Schema) (identifier : string) (record : TargetRecord)
  : result string EncryptedSecret :=
  path ← map_err schema_error (path_parse identifier);
  spec ← map_err schema_error (leaf schema path);
  match spec with
  | Stored spec =>
      let fail message := identifier +:+ ": target record " +:+ message in
      _ ← guard_err (gr_format_version record =? 1) (fail "has an unsupported format version");
      _ ← guard_err (bool_decide (gr_recipient_ids record = ss_recipient_ids spec))
            (fail "names different recipients");
      version_id ← ok_or (fail "has an invalid version") (b64_decode (gr_version_id_base64 record));
      _ ← guard_err (zlen version_id =? VERSION_ID_SIZE) (fail "has an invalid version length");
      ciphertext ← ok_or (fail "has invalid ciphertext encoding") (b64_decode (gr_age_ciphertext_base64 record));
      _ ← map_err (λ error, fail ("failed its recipient check: " +:+ crypto_error_show error))
            (verify_ssh_recipient_header sha256 b64_decode b64_nopad ciphertext (ss_recipient_public_keys spec));
      Ok {| es_format_version := gr_format_version record; es_version_id := version_id;
            es_recipient_ids := gr_recipient_ids record; es_recipient_refs := [];
            es_age_ciphertext := ciphertext; es_public_key := None |}
  | _ => Err (identifier +:+ ": target returned a record for a task")
  end.
End Target.

(** ** Stored public information the schema no longer accepts ([public_info.rs]) *)
Definition published_by (schema : Schema) (id : string) (host : HostSchema) : bool :=
  match dm_publish_host_identity_to (hm_deployment (hs_metadata host)) with
  | None => false
  | Some text =>
      match path_parse text with
      | Err _ => false
      | Ok path => match secret schema path with
                   | Ok spec => bool_decide (ss_shared_public_id spec = Some id)
                   | Err _ => false
                   end
      end
  end.

Definition stale_reason (schema : Schema) (id error : string) : string :=
  let producers := (List.filter (λ entry, published_by schema id entry.2) schema).*1 in
  let repair := if bool_decide (producers = []) then "enter it again"
                else "deploy " +:+ join ", " producers +:+ " to republish it" in
  "the stored value of " +:+ id +:+ " is invalid under the current schema: " +:+ error
    +:+ ". It stays stored and is not deployed; " +:+ repair.

Definition add_stale (schema : Schema) (public : list (string * PublicInfoRecord))
    (stale : list (string * string)) (identifier : string) : list (string * string) :=
  match path_parse identifier with
  | Err _ => stale
  | Ok path =>
      match leaf schema path with
      | Ok (Stored spec) =>
          match ss_kind spec, ss_shared_public_id spec, ss_expected_ssh_port spec with
          | KPublicInfo, Some id, Some port =>
              match bt_get id public with
              | None => stale
              | Some record =>
                  match validate_ssh_known_hosts from_openssh (pi_value record) (spec_ssh_hosts spec) port with
                  | Ok _ => stale
                  | Err error => bt_insert identifier (stale_reason schema id error) stale
                  end
              end
          | _, _, _ => stale
          end
      | _ => stale
      end
  end.
Definition stale_public_info (schema : Schema) (identifiers : list string)
    (public : list (string * PublicInfoRecord)) : list (string * string) :=
  foldl (add_stale schema public) [] identifiers.
End Plan.
