(* ===== verification/PlanFacts.v ===== *)
(** * Plans: what they cover

    Proofs about Plan.v: missing values never refuse a deployment, derived
    values are only framed on a target that generates their source, and every
    requested value that is not left out has where its contents come from. *)
From S2P Require Import Prelude BTree Generator Schema SchemaValidation Store Wire Handshake Text Manifest Plan.
#[local] Open Scope Z_scope.
#[local] Arguments names : simpl never.

(** ** Lists of a plan *)
Lemma names_elem {T} id (l : list (string * T)) : names id l = true ↔ id ∈ l.*1.
Proof.
  unfold names. rewrite existsb_exists, list_elem_of_fmap. setoid_rewrite <- list_elem_of_In.
  split; intros (x & H1 & H2); bool_prop; exists x; split; try done. by apply bool_decide_eq_true.
Qed.
Lemma names_false {T} id (l : list (string * T)) : names id l = false ↔ id ∉ l.*1.
Proof. rewrite <- names_elem. by destruct (names id l). Qed.
Lemma elem_without {T} id (x : string * T) l : x ∈ without id l ↔ x.1 ≠ id ∧ x ∈ l.
Proof.
  unfold without. rewrite !list_elem_of_In, filter_In. split; intros [H1 H2].
  - apply negb_true_iff, bool_decide_eq_false in H2. done.
  - split; [done|]. by apply negb_true_iff, bool_decide_eq_false.
Qed.
Lemma without_fst {T} id (l : list (string * T)) : (without id l).*1 = without_id id l.*1.
Proof.
  unfold without, without_id. induction l as [|x l IH]; cbn; [done|]. case_bool_decide; cbn; by rewrite ?IH.
Qed.
Lemma elem_without_id id x l : x ∈ without_id id l ↔ x ≠ id ∧ x ∈ l.
Proof.
  unfold without_id. rewrite !list_elem_of_In, filter_In. split; intros [H1 H2].
  - apply negb_true_iff, bool_decide_eq_false in H2. done.
  - split; [done|]. by apply negb_true_iff, bool_decide_eq_false.
Qed.
Lemma waiting_elem x p :
  x ∈ waiting_on_source p ↔ x ∈ up_derived_on_target p ∧ x.2 ∉ (up_generate p ++ up_shared p).*1.
Proof.
  unfold waiting_on_source.
  by rewrite list_elem_of_In, filter_In, negb_true_iff, names_false, <- list_elem_of_In.
Qed.

(** ** What every plan keeps *)
(** Each missing value is named as skippable and has its kind. *)
Record listed (p : UnsetPlan) : Prop := {
  li_skippable : up_skippable p = (up_missing p).*1;
  li_reasons : ∀ id, id ∈ (up_missing p).*1 → is_Some (bt_get id (up_reasons p))
}.
Record coherent (p : UnsetPlan) : Prop := {
  co_listed : listed p;
  co_sources : ∀ id source, (id, source) ∈ up_derived_on_target p → source ∈ (up_generate p ++ up_shared p).*1
}.

Lemma miss_listed id kind reason p : listed p → listed (miss id kind reason p).
Proof.
  intros [H1 H2]. split; cbn; [by rewrite H1, fmap_app|].
  intros x Hx. rewrite fmap_app, elem_of_app in Hx.
  destruct (decide (x = id)) as [->|Hne]; [rewrite bt_get_insert_eq; eauto|].
  rewrite bt_get_insert_ne by done. destruct Hx as [Hx|Hx]; [auto|].
  cbn in Hx. apply list_elem_of_singleton in Hx. done.
Qed.
Lemma forget_listed id p : listed p → listed (forget id p).
Proof.
  intros [H1 H2]. split; cbn; [by rewrite without_fst, H1|].
  rewrite without_fst. intros x Hx. apply elem_without_id in Hx as [_ Hx]. auto.
Qed.
Lemma foldl_listed {A} (f : UnsetPlan → A → UnsetPlan) p l :
  (∀ p a, listed p → listed (f p a)) → listed p → listed (foldl f p l).
Proof. intros Hf Hp. apply foldl_inv; auto. Qed.

(** A partial deployment is always possible: nothing missing refuses it. *)
Lemma listed_allows p : listed p → refusal_for true p = None.
Proof.
  intros [Hs _]. unfold refusal_for, partial_possible, refusal. cbn.
  destruct (decide (up_missing p = [])) as [Hn|Hn].
  - rewrite bool_decide_eq_true_2 by done. cbn. rewrite Hn. done.
  - rewrite bool_decide_eq_false_2 by done. cbn.
    assert (forallb (λ item, bool_decide (item.1 ∈ up_skippable p)) (up_missing p) = true) as ->; [|done].
    apply forallb_forall. intros x Hx. apply bool_decide_eq_true. rewrite Hs.
    apply list_elem_of_fmap_2, list_elem_of_In. done.
Qed.

(** Taking the waiting values off leaves those whose source is generated. *)
Lemma settle_sources (f : UnsetPlan → string * string → UnsetPlan) p :
  (∀ p x, up_derived_on_target (f p x) = without x.1 (up_derived_on_target p)
     ∧ up_generate (f p x) = up_generate p ∧ up_shared (f p x) = up_shared p) →
  let q := foldl f p (waiting_on_source p) in
  up_generate q = up_generate p ∧ up_shared q = up_shared p
  ∧ (∀ x, x ∈ up_derived_on_target q ↔
       x ∈ up_derived_on_target p ∧ x.1 ∉ (waiting_on_source p).*1)
  ∧ ∀ id source, (id, source) ∈ up_derived_on_target q → source ∈ (up_generate q ++ up_shared q).*1.
Proof.
  intros Hf.
  assert (∀ l p, up_generate (foldl f p l) = up_generate p ∧ up_shared (foldl f p l) = up_shared p
            ∧ ∀ x, x ∈ up_derived_on_target (foldl f p l) ↔ x ∈ up_derived_on_target p ∧ x.1 ∉ l.*1) as H.
  { induction l as [|y l IH]; intros p0; cbn.
    - split_and!; [done..|]. intros x. split; [intros; split; [done|apply not_elem_of_nil]|tauto].
    - destruct (Hf p0 y) as (H1 & H2 & H3). destruct (IH (f p0 y)) as (I1 & I2 & I3).
      rewrite I1, I2, H2, H3. split_and!; [done..|]. intros x. rewrite I3, H1, elem_without, not_elem_of_cons. tauto. }
  destruct (H (waiting_on_source p) p) as (H1 & H2 & H3). cbn. split_and!; [done..|].
  intros id source Hx. rewrite H1, H2. apply H3 in Hx as [Hx Hw].
  destruct (decide (source ∈ (up_generate p ++ up_shared p).*1)) as [|Hn]; [done|].
  exfalso. apply Hw. apply list_elem_of_fmap. exists (id, source). split; [done|]. by apply waiting_elem.
Qed.

Lemma exclude_coherent mismatches p : listed p → coherent (exclude_mismatches mismatches p).
Proof.
  intros Hp. unfold exclude_mismatches.
  set (q := foldl _ p mismatches).
  assert (listed q) as Hq.
  { apply foldl_listed; [|done]. intros p' [[id kind] reason] Hp'. by apply miss_listed, forget_listed. }
  split.
  - apply foldl_listed; [|done]. intros p' [id source] Hp'. apply miss_listed. destruct Hp' as [H1 H2]. by split.
  - apply settle_sources. by intros p' [id source].
Qed.

(** ** [plan_unset] *)
Section Planned.
Context (schema_error : SchemaError → string) (from_openssh : string → option Algorithm).
Context (schema : Schema) (set : list (string * unit)) (stale : list (string * string)).
#[local] Notation classify := (classify schema_error schema set stale).
#[local] Notation place_waiting := (place_waiting schema).
#[local] Notation check := (check from_openssh schema set).
#[local] Notation plan_unset := (plan_unset schema_error from_openssh schema set stale).
#[local] Notation provided := (provided set).

Lemma unset_listed id spec p : listed p → listed (classify_unset schema id spec p).
Proof.
  intros Hp. assert (∀ k r, listed (miss id k r p)) as Hm by (intros; by apply miss_listed).
  unfold classify_unset. destruct (ss_kind spec).
  - destruct (_ && _); [done|]. destruct (negb _); [done|].
    destruct (deployment_generator spec); [|done]. destruct Hp. by split.
  - destruct (ss_install_default_if_missing spec); [|done]. destruct Hp. by split.
Qed.

Lemma classify_listed acc id acc' : listed acc.1 → classify acc id = Ok acc' → listed acc'.1.
Proof.
  destruct acc as [p waiting]. cbn. intros Hp H. unfold Plan.classify in H.
  assert (∀ k r, listed (miss id k r p)) as Hm by (intros; by apply miss_listed).
  destruct (bt_get id stale); [simplify_eq; apply Hm|].
  apply bind_ok in H as (path & _ & H). apply bind_ok in H as (leaf & _ & H).
  destruct (_ && _); [simplify_eq; apply Hm|].
  destruct leaf as [spec|task|spec]; cbn in H.
  - destruct (ss_derived_from spec) as [d|].
    + destruct (bt_contains _ set); simplify_eq; [|done]. destruct Hp. by split.
    + destruct (bt_contains id set); simplify_eq; [done|]. by apply unset_listed.
  - destruct (_ || _); simplify_eq; [done|]. apply Hm.
  - by simplify_eq.
Qed.

Lemma place_listed p item : listed p → listed (place_waiting p item).
Proof.
  destruct item as [id source]. intros Hp. unfold Plan.place_waiting.
  destruct (names _ _); [destruct Hp; by split|].
  destruct (if bool_decide _ then _ else _); [|by apply miss_listed]. destruct Hp. by split.
Qed.

(** [check] only adds missing values, and takes from what is generated or
    derived on the target. *)
Lemma check_one_cases host ids st p id :
  let q := check_one from_openssh schema set host ids st p id in
  q = p ∨ ∃ reason, q = miss id CannotDeploy reason p ∧ id ∉ (up_missing p).*1.
Proof.
  unfold check_one. destruct (names id (up_missing p)) eqn:En; [by left|]. apply names_false in En.
  destruct (path_parse id) as [path|]; [|by left]. destruct (leaf schema path) as [spec|]; [|by left].
  destruct (leaf_problem _ _ _ _ _ _ _ _) as [reason|]; [|by left]. right. by exists reason.
Qed.

(** What a run of [check_one] leaves. *)
Definition only_missed (p q : UnsetPlan) : Prop :=
  up_generate q = up_generate p ∧ up_derived q = up_derived p
  ∧ up_derived_on_target q = up_derived_on_target p ∧ up_host_default q = up_host_default p
  ∧ up_shared q = up_shared p ∧ (listed p → listed q)
  ∧ (∀ id, id ∈ (up_missing p).*1 → id ∈ (up_missing q).*1).
Lemma only_missed_refl p : only_missed p p.
Proof. unfold only_missed. split_and!; auto. Qed.
Lemma only_missed_trans p q r : only_missed p q → only_missed q r → only_missed p r.
Proof. unfold only_missed. intros (?&?&?&?&?&?&?) (?&?&?&?&?&?&?). split_and!; try congruence; auto. Qed.
Lemma miss_only_missed id kind reason p : only_missed p (miss id kind reason p).
Proof.
  unfold only_missed. cbn. split_and!; try done; [apply miss_listed|].
  intros x Hx. rewrite fmap_app. apply elem_of_app. by left.
Qed.
Lemma check_loop_missed host ids st p l :
  only_missed p (foldl (check_one from_openssh schema set host ids st) p l).
Proof.
  revert p. induction l as [|id l IH]; intros p; cbn; [apply only_missed_refl|].
  eapply only_missed_trans; [|apply IH].
  destruct (check_one_cases host ids st p id) as [H|(reason & H & _)]; cbn in H; rewrite H.
  - apply only_missed_refl.
  - apply miss_only_missed.
Qed.

Lemma wait_with_source_missed p x :
  let q := wait_with_source p x in
  up_derived_on_target q = without x.1 (up_derived_on_target p)
  ∧ up_generate q = up_generate p ∧ up_shared q = up_shared p
  ∧ up_derived q = up_derived p ∧ up_host_default q = up_host_default p
  ∧ (listed p → listed q)
  ∧ (∀ id, id ∈ (up_missing q).*1 ↔ id ∈ (up_missing p).*1 ∨ id = x.1).
Proof.
  destruct x as [id source]. unfold wait_with_source. cbn.
  destruct (names id (up_missing p)) eqn:En; cbn.
  - apply names_elem in En. split_and!; try done; [intros [H1 H2]; by split|].
    intros x. split; [tauto|]. intros [?| ->]; done.
  - split_and!; try done.
    + intros Hp. change (listed (miss id CannotDeploy ("its source " +:+ source
        +:+ " cannot be generated in this deployment") (set_on_target (without id (up_derived_on_target p)) p))).
      apply miss_listed. destruct Hp. by split.
    + intros x. rewrite fmap_app, elem_of_app. cbn. rewrite list_elem_of_singleton. done.
Qed.

Lemma check_coherent ids p :
  listed p → (∀ id source, (id, source) ∈ up_derived_on_target p → source ∈ (up_generate p ++ up_shared p).*1) →
  coherent (check ids p).
Proof.
  intros Hp Hs. unfold Plan.check. destruct (head ids) as [first|]; [|by split].
  destruct (bt_get (host_of first) schema) as [host|]; [|by split].
  set (st := bs_of_list _). set (q := foldl (check_one _ _ _ host ids st) p ids).
  set (r := set_generate _ q).
  assert (listed r) as Hr.
  { destruct (check_loop_missed host ids st p ids) as (_ & _ & _ & _ & _ & Hl & _).
    fold q in Hl. destruct (Hl Hp). by split. }
  split.
  - apply foldl_listed; [|done]. intros p' x. apply wait_with_source_missed.
  - apply settle_sources. intros p' x. by destruct (wait_with_source_missed p' x) as (? & ? & ? & _).
Qed.

Lemma classify_no_target acc id acc' :
  up_derived_on_target acc.1 = [] ∧ up_shared acc.1 = [] → classify acc id = Ok acc' →
  up_derived_on_target acc'.1 = [] ∧ up_shared acc'.1 = [].
Proof.
  destruct acc as [p waiting]. cbn. intros Hp H. unfold Plan.classify in H.
  destruct (bt_get id stale); [by simplify_eq|].
  apply bind_ok in H as (path & _ & H). apply bind_ok in H as (leaf & _ & H).
  destruct (_ && _); [by simplify_eq|]. destruct leaf as [spec|task|spec]; cbn in H.
  - destruct (ss_derived_from spec) as [d|]; [destruct (bt_contains _ set); by simplify_eq|].
    destruct (bt_contains id set); simplify_eq; [done|]. cbn. unfold classify_unset.
    destruct (ss_kind spec); [|by destruct (ss_install_default_if_missing spec)].
    destruct (_ && _); [done|]. destruct (negb _); [done|]. by destruct (deployment_generator spec).
  - destruct (_ || _); by simplify_eq.
  - by simplify_eq.
Qed.

(** *** Where the contents of a value come from *)
Definition leaf_at (id : string) (spec : LeafSpec) : Prop :=
  ∃ path, path_parse id = Ok path ∧ leaf schema path = Ok spec.
(** A value this target generates. *)
Definition generated_here (id label : string) : Prop :=
  ∃ spec g, leaf_at id (Stored spec) ∧ ss_derived_from spec = None ∧ ss_kind spec = KSecret
    ∧ deployment_generator spec = Ok g ∧ label = generator_label g ∧ bt_contains id set = false
    ∧ registration_producers schema id = [].
Definition derived_from (id source : string) : Prop :=
  ∃ spec d, leaf_at id (Stored spec) ∧ ss_derived_from spec = Some d ∧ df_identifier d = source.
Definition host_installs (id : string) : Prop :=
  ∃ spec, leaf_at id (Stored spec) ∧ ss_kind spec = KPublicInfo ∧ ss_install_default_if_missing spec = true
    ∧ bt_contains id set = false.
(** Kept in the store, made by the target as a key of its own, or refused
    when the request is inspected. *)
Definition at_hand (id : string) : Prop :=
  bt_contains id set = true
  ∨ (∃ task, leaf_at id (GeneratedSpec task) ∧ gs_secret_type (gp_generated_secret task) = LocalSshKey)
  ∨ ∃ spec, leaf_at id (OperatorOnly spec).

Record facts (ids : list string) (p : UnsetPlan) (waiting : list (string * string)) : Prop := {
  fa_generate : Forall (λ x, x.1 ∈ ids ∧ generated_here x.1 x.2) (up_generate p);
  fa_derived : Forall (λ x, x.1 ∈ ids ∧ derived_from x.1 x.2 ∧ bt_contains x.2 set = true) (up_derived p);
  fa_on_target : Forall (λ x, x.1 ∈ ids ∧ derived_from x.1 x.2 ∧ bt_contains x.2 set = false)
                   (up_derived_on_target p ++ waiting);
  fa_shared : Forall (λ x, ∃ id g, id ∈ ids ∧ derived_from id x.1 ∧ host_of x.1 ≠ host_of id
                ∧ shared_generator schema x.1 = Some g ∧ x.2 = generator_label g) (up_shared p);
  fa_default : Forall (λ id, id ∈ ids ∧ host_installs id) (up_host_default p)
}.
Definition placed (p : UnsetPlan) (waiting : list (string * string)) (id : string) : Prop :=
  id ∈ (up_missing p).*1 ∨ id ∈ up_host_default p ∨ at_hand id ∨ id ∈ (up_generate p).*1
  ∨ id ∈ (up_derived p).*1 ∨ id ∈ (up_derived_on_target p).*1 ∨ id ∈ waiting.*1.
Definition accounts (ids : list string) (p : UnsetPlan) (waiting : list (string * string)) : Prop :=
  facts ids p waiting ∧ ∀ id, id ∈ ids → placed p waiting id.

Lemma elem_snoc {A} (x y : A) l : x ∈ l ++ [y] ↔ x ∈ l ∨ x = y.
Proof. by rewrite elem_of_app, list_elem_of_singleton. Qed.
Lemma Forall_snoc {A} (P : A → Prop) l x : Forall P l → P x → Forall P (l ++ [x]).
Proof. intros. apply Forall_app. split; [done|]. by constructor. Qed.

Lemma facts_more ids id p w : facts ids p w → facts (ids ++ [id]) p w.
Proof.
  assert (∀ x, x ∈ ids → x ∈ ids ++ [id]) as Hin by (intros; by apply elem_snoc; left).
  intros [H1 H2 H3 H4 H5]. split.
  1-3,5: eapply Forall_impl; [eassumption|]; cbn; naive_solver.
  eapply Forall_impl; [exact H4|]. intros x (y & g & ? & ? & ? & ? & ?). by exists y, g; auto.
Qed.

Ltac in_lists := unfold placed in *; cbn in *; rewrite ?fmap_app, ?elem_of_app in *; cbn in *;
                 rewrite ?list_elem_of_singleton in *.
(** One more value of the request, placed by a step that keeps the others. *)
Lemma account_one ids id p p' w w' :
  accounts ids p w → (facts (ids ++ [id]) p w → facts (ids ++ [id]) p' w') →
  (∀ x, placed p w x → placed p' w' x) → placed p' w' id → accounts (ids ++ [id]) p' w'.
Proof.
  intros [Hf Ho] Hf' Hp Hid. split; [by apply Hf', facts_more|].
  intros x [Hx| ->]%elem_snoc; auto.
Qed.

Lemma account_miss ids id kind reason p w : accounts ids p w → accounts (ids ++ [id]) (miss id kind reason p) w.
Proof. intros H. apply (account_one _ _ _ _ _ _ H); [intros []; by split|intros x|]; in_lists; tauto. Qed.
Lemma account_hand ids id p w : accounts ids p w → at_hand id → accounts (ids ++ [id]) p w.
Proof. intros H Hid. apply (account_one _ _ _ _ _ _ H); [done..|]. in_lists; tauto. Qed.
Lemma account_default ids id p w :
  accounts ids p w → host_installs id → accounts (ids ++ [id]) (plan_host_default id p) w.
Proof.
  intros H Hid. apply (account_one _ _ _ _ _ _ H); [|intros x|]; try (in_lists; tauto).
  intros []. split; try done. cbn. apply Forall_snoc; [done|]. split; [|done]. apply elem_snoc. by right.
Qed.
Lemma account_generate ids id label p w :
  accounts ids p w → generated_here id label → accounts (ids ++ [id]) (plan_generate (id, label) p) w.
Proof.
  intros H Hid. apply (account_one _ _ _ _ _ _ H); [|intros x|]; try (in_lists; tauto).
  intros []. split; try done. cbn. apply Forall_snoc; [done|]. split; [|done]. apply elem_snoc. by right.
Qed.
Lemma account_derived ids id s p w :
  accounts ids p w → derived_from id s → bt_contains s set = true →
  accounts (ids ++ [id]) (plan_derived (id, s) p) w.
Proof.
  intros H Hid Hs. apply (account_one _ _ _ _ _ _ H); [|intros x|]; try (in_lists; tauto).
  intros []. split; try done. cbn. apply Forall_snoc; [done|]. split; [|done]. apply elem_snoc. by right.
Qed.
Lemma account_waiting ids id s p w :
  accounts ids p w → derived_from id s → bt_contains s set = false → accounts (ids ++ [id]) p (w ++ [(id, s)]).
Proof.
  intros H Hid Hs. apply (account_one _ _ _ _ _ _ H); [|intros x|]; try (in_lists; tauto).
  intros []. split; try done. rewrite app_assoc. apply Forall_snoc; [done|]. split; [|done].
  apply elem_snoc. by right.
Qed.

Lemma account_unset ids id spec p w :
  accounts ids p w → leaf_at id (Stored spec) → ss_derived_from spec = None → bt_contains id set = false →
  accounts (ids ++ [id]) (classify_unset schema id spec p) w.
Proof.
  intros H Hl Hd Hs. unfold classify_unset. destruct (ss_kind spec) eqn:Ek.
  - destruct (_ && _); [by apply account_miss|].
    destruct (negb _) eqn:Ep; [by apply account_miss|]. apply negb_false_iff, bool_decide_eq_true in Ep.
    destruct (deployment_generator spec) as [g|] eqn:Eg; [|by apply account_miss].
    apply account_generate; [done|]. exists spec, g. split_and!; try done.
  - destruct (ss_install_default_if_missing spec) eqn:Ei; [|by apply account_miss].
    apply account_default; [done|]. by exists spec.
Qed.

Lemma account_classify ids acc id acc' :
  accounts ids acc.1 acc.2 → classify acc id = Ok acc' → accounts (ids ++ [id]) acc'.1 acc'.2.
Proof.
  destruct acc as [p w]. cbn. intros Ha H. unfold Plan.classify in H.
  destruct (bt_get id stale); [simplify_eq; by apply account_miss|].
  apply bind_ok in H as (path & Hp & H). apply bind_ok in H as (spec & Hl & H).
  assert (leaf_at id spec) as Hat.
  { destruct (path_parse id) as [path'|] eqn:Epp; [|done]. destruct (leaf schema path) eqn:El; [|done].
    cbn in *. simplify_eq. by exists path. }
  destruct (_ && _); [simplify_eq; by apply account_miss|].
  destruct spec as [spec|task|spec]; cbn in H.
  - destruct (ss_derived_from spec) as [d|] eqn:Ed.
    + assert (derived_from id (df_identifier d)) by (by exists spec, d).
      destruct (bt_contains (df_identifier d) set) eqn:Es; simplify_eq; [by apply account_derived|].
      by apply account_waiting.
    + destruct (bt_contains id set) eqn:Es; simplify_eq; [|by apply account_unset].
      apply account_hand; [done|by left].
  - destruct (bt_contains id set) eqn:Es; cbn in H; [simplify_eq; apply account_hand; [done|by left]|].
    destruct (gs_secret_type (gp_generated_secret task)) eqn:Et; cbn in H; simplify_eq; [by apply account_miss|].
    apply account_hand; [done|]. right. left. by exists task.
  - simplify_eq. apply account_hand; [done|]. right. right. by exists spec.
Qed.

Lemma account_fold ids acc l acc' :
  accounts ids acc.1 acc.2 → try_fold classify acc l = Ok acc' → accounts (ids ++ l) acc'.1 acc'.2.
Proof.
  revert ids acc. induction l as [|id l IH]; intros ids acc Ha H; cbn in H; [simplify_eq; by rewrite app_nil_r|].
  destruct (classify acc id) as [acc1|] eqn:E; [|done]. apply account_classify with (ids := ids) in E; [|done].
  rewrite cons_middle, app_assoc. by apply IH with acc1.
Qed.

Lemma account_place ids p x w : accounts ids p (x :: w) → accounts ids (place_waiting p x) w.
Proof.
  destruct x as [id s]. intros [[H1 H2 H3 H4 H5] Ho]. unfold Plan.place_waiting.
  assert (∀ p', facts ids p' w → (∀ y, placed p ((id, s) :: w) y → placed p' w y) → accounts ids p' w) as K.
  { intros p' Hf Hp. split; [done|]. auto. }
  apply Forall_app in H3 as [H3 [Hx H3']%Forall_cons].
  destruct (names s _); [|destruct (if bool_decide _ then _ else _) as [g|] eqn:Eg]; apply K.
  - split; cbn; try done. apply Forall_app. split; [by apply Forall_snoc|done].
  - intros y. in_lists. rewrite elem_of_cons. tauto.
  - case_bool_decide as Eh; [done|]. split; cbn; try done.
    + apply Forall_app. split; [by apply Forall_snoc|done].
    + apply Forall_snoc; [done|]. exists id, g. by destruct Hx as (? & ? & ?).
  - intros y. in_lists. rewrite elem_of_cons. tauto.
  - split; cbn; try done. by apply Forall_app.
  - intros y. in_lists. rewrite elem_of_cons. tauto.
Qed.
Lemma account_places ids p w : accounts ids p w → accounts ids (foldl place_waiting p w) [].
Proof. revert p. induction w as [|x w IH]; intros p H; cbn; [done|]. by apply IH, account_place. Qed.

Lemma account_missed ids p q : accounts ids p [] → only_missed p q → accounts ids q [].
Proof.
  intros [[H1 H2 H3 H4 H5] Ho] (E1 & E2 & E3 & E4 & E5 & _ & Hm). split.
  - split; by rewrite ?E1, ?E2, ?E3, ?E4, ?E5.
  - intros id Hid. apply Ho in Hid. unfold placed in *. rewrite E1, E2, E3, E4. naive_solver.
Qed.

Lemma account_drop_generate ids p :
  accounts ids p [] →
  accounts ids (set_generate (List.filter (λ item, negb (names item.1 (up_missing p))) (up_generate p)) p) [].
Proof.
  intros [[H1 H2 H3 H4 H5] Ho]. split.
  - split; cbn; try done. rewrite Forall_forall in H1 |- *. intros x Hx. apply H1.
    by apply list_elem_of_In, filter_In in Hx as [?%list_elem_of_In _].
  - intros id Hid. destruct (Ho id Hid) as [H|[H|[H|[H|H]]]]; unfold placed; cbn; try tauto.
    destruct (names id (up_missing p)) eqn:En; [apply names_elem in En; tauto|].
    do 3 right. left. apply list_elem_of_fmap in H as (x & -> & Hx). apply list_elem_of_fmap_2.
    apply list_elem_of_In, filter_In. split; [by apply list_elem_of_In|]. by rewrite En.
Qed.

Lemma account_wait ids p x : accounts ids p [] → accounts ids (wait_with_source p x) [].
Proof.
  intros [[H1 H2 H3 H4 H5] Ho]. destruct (wait_with_source_missed p x) as (E3 & E1 & E5 & E2 & E4 & _ & Hm).
  split.
  - split; rewrite ?E1, ?E2, ?E3, ?E4, ?E5; try done. rewrite app_nil_r in *. rewrite Forall_forall in *.
    intros y Hy. apply elem_without in Hy as [_ Hy]. auto.
  - intros id Hid. destruct (Ho id Hid) as [H|[H|[H|[H|[H|[H|H]]]]]]; unfold placed;
      rewrite ?E1, ?E2, ?E3, ?E4, ?Hm, ?without_fst; try tauto.
    destruct (decide (id = x.1)) as [->|]; [tauto|]. do 5 right. left. by apply elem_without_id.
Qed.

Lemma account_check ids l p : accounts ids p [] → accounts ids (check l p) [].
Proof.
  intros H. unfold Plan.check. destruct (head l) as [first|]; [|done].
  destruct (bt_get (host_of first) schema) as [host|]; [|done]. cbv zeta.
  apply foldl_inv; [|intros p' x _; apply account_wait].
  apply account_drop_generate. eapply account_missed; [exact H|]. apply check_loop_missed.
Qed.

Lemma plan_default_accounts : accounts [] plan_default [].
Proof. split; [split; constructor|]. intros id H. by apply not_elem_of_nil in H. Qed.

Lemma plan_loops ids p :
  plan_unset ids = Ok p → ∃ q w, accounts ids q w ∧ listed q ∧ up_derived_on_target q = [] ∧ up_shared q = []
    ∧ p = check ids (foldl place_waiting q w).
Proof.
  intros H. unfold Plan.plan_unset in H. apply bind_ok in H as ([q w] & H & [= <-]). exists q, w.
  assert (Ha := account_fold [] (plan_default, []) _ _ plan_default_accounts H).
  split; [done|].
  assert (∀ l acc acc', listed acc.1 → up_derived_on_target acc.1 = [] ∧ up_shared acc.1 = [] →
    try_fold classify acc l = Ok acc' →
    listed acc'.1 ∧ up_derived_on_target acc'.1 = [] ∧ up_shared acc'.1 = []) as K.
  { induction l as [|x l IH]; intros acc acc' Hl Ht E; cbn in E; [by simplify_eq|].
    destruct (classify acc x) as [acc1|] eqn:E1; [|done].
    apply (IH acc1); [by eapply classify_listed|by eapply classify_no_target|done]. }
  destruct (K ids (plan_default, []) (q, w)) as (H1 & H2 & H3); [|done..|done].
  split; [done|]. intros id Hid. by apply not_elem_of_nil in Hid.
Qed.

Definition sources_here (p : UnsetPlan) : Prop :=
  ∀ id source, (id, source) ∈ up_derived_on_target p → source ∈ (up_generate p ++ up_shared p).*1.
Lemma place_sources p x : sources_here p → sources_here (place_waiting p x).
Proof.
  destruct x as [id s]. intros H. unfold Plan.place_waiting.
  destruct (names s _) eqn:En; [|destruct (if bool_decide _ then _ else _) as [g|]].
  - apply names_elem in En. intros id' s' [H'|[= -> ->]]%elem_snoc; [|done]. by apply (H id').
  - intros id' s' [H'|[= -> ->]]%elem_snoc; cbn; rewrite app_assoc, fmap_app, elem_of_app.
    + left. by apply (H id').
    + right. cbn. by apply list_elem_of_singleton.
  - done.
Qed.

Lemma plan_coherent ids p : plan_unset ids = Ok p → coherent p.
Proof.
  intros (q & w & _ & Hl & Ht & _ & ->)%plan_loops. apply check_coherent.
  - apply foldl_inv; [done|]. intros p' x _. apply place_listed.
  - apply (foldl_inv sources_here); [|intros p' x _; apply place_sources].
    intros id source H. rewrite Ht in H. by apply not_elem_of_nil in H.
Qed.
End Planned.

(** What disagrees with the host is missing. *)
Lemma mismatch_missing l p id :
  id ∈ l.*1.*1 ∨ id ∈ (up_missing p).*1 →
  id ∈ (up_missing (foldl (λ p '(identifier, kind, reason), miss identifier kind reason (forget identifier p)) p l)).*1.
Proof.
  revert p. induction l as [|[[x k] r] l IH]; intros p H; cbn.
  - destruct H as [H|H]; [by apply not_elem_of_nil in H|done].
  - apply IH. cbn in *. rewrite fmap_app, elem_of_app, without_fst, elem_without_id. cbn.
    rewrite list_elem_of_singleton. rewrite elem_of_cons in H. destruct (decide (id = x)); tauto.
Qed.
Lemma exclude_missing mismatches p id : id ∈ mismatches.*1.*1 → id ∈ (up_missing (exclude_mismatches mismatches p)).*1.
Proof.
  intros H. unfold exclude_mismatches. set (q := foldl _ p mismatches).
  assert (id ∈ (up_missing q).*1) as Hq by (apply mismatch_missing; by left).
  apply (foldl_inv (λ r, id ∈ (up_missing r).*1)); [done|].
  intros r [x s] _ Hr. cbn. rewrite fmap_app. apply elem_of_app. by left.
Qed.

(** *** The properties of a plan *)
Section Properties.
Context (schema_error : SchemaError → string) (from_openssh : string → option Algorithm).


End Properties.
