(* ===== verification/PlanSample.v ===== *)
(** * Plans, evaluated

    Host [web] derives a value from a password of host [db]; its receiver
    speaks an old deployment protocol. *)
From S2P Require Import Prelude BTree Generator Net Schema SchemaValidation Store Wire Handshake Text Manifest ManifestSample Plan PlanFacts.
#[local] Open Scope Z_scope.

(** A leaf like [alias], derived from [source]. *)
Definition derived_leaf (toml_path : list string) (source : string) : SecretLeaf :=
  let base := ManifestSample.leaf_at "token" "root" in
  {| lf_kind := KSecret; lf_shared_public_id := None; lf_expected_ssh_host := None;
     lf_expected_ssh_port := None; lf_expected_ssh_hosts := []; lf_install_default_if_missing := false;
     lf_default_value := None; lf_description := None; lf_human_facing := true;
     lf_external_input_required := false; lf_required_for_install := false; lf_optional := false;
     lf_identity := None; lf_presentation := None; lf_recipient_public_keys := lf_recipient_public_keys base;
     lf_recipient_ids := lf_recipient_ids base; lf_recipient_names := []; lf_destination := lf_destination base;
     lf_consumer_units := []; lf_value_type := None; lf_consumer_constraints := None;
     lf_value_generator := None; lf_generate_on_deploy := true;
     lf_derived_from := Some {| df_identifier := source; df_prefix := ""; df_suffix := "";
                                df_toml_path := toml_path; df_encoding := None |} |}.
Definition at_protocol (protocol : option Z) : HostMetadata :=
  {| hm_socket_path := "/run/secrets.sock";
     hm_deployment := {| dm_publish_host_identity_to := None; dm_host := "web.example";
       dm_destination := "deploy"; dm_port := 22; dm_identity_public_keys := [];
       dm_protocol_version := protocol |};
     hm_recipient_public_keys := []; hm_service_display_paths := [] |}.
Definition plan_schema (protocol : option Z) (toml_path : list string) (source : string) : Schema :=
  [("db", {| hs_metadata := at_protocol None;
             hs_service_groups := [("services", [("pg",
               Branch [("password", Secret (ManifestSample.leaf_at "password" "root"))])])] |});
   ("web", {| hs_metadata := at_protocol protocol;
              hs_service_groups := [("services", [("app",
                Branch [("login", Secret (ManifestSample.leaf_at "login" "root"));
                        ("token", Secret (derived_leaf toml_path source))])])] |})].

Definition web_values : list string := ["web.services.app.login"; "web.services.app.token"].
Definition plan_of (schema : Schema) : result string UnsetPlan :=
  plan_unset (schema_error_show id) no_key schema [] [] web_values.

Definition shared_plan : UnsetPlan :=
  {| up_generate := [("web.services.app.login", generator_label (DgPassword None))];
     up_missing := []; up_derived := [];
     up_derived_on_target := [("web.services.app.token", "db.services.pg.password")];
     up_skippable := []; up_reasons := []; up_host_default := [];
     up_shared := [("db.services.pg.password", generator_label (DgPassword None))] |}.



(** A receiver that speaks protocol 2 cannot generate the password of another
    host.  [check] says so and lists the value as missing, but leaves it among
    those the target derives, and the password among those it generates. *)
Theorem left_out_still_derived :
  ∃ p, plan_of (plan_schema (Some 2) [] "db.services.pg.password") = Ok p
    ∧ up_skippable p = ["web.services.app.token"]
    ∧ up_derived_on_target p = [("web.services.app.token", "db.services.pg.password")]
    ∧ (up_shared p).*1 = ["db.services.pg.password"].
Proof. eexists. vm_compute. repeat split; reflexivity. Qed.

(** The same for a value that selects from a document the target generates. *)
Theorem left_out_selection_still_derived :
  ∃ p, plan_of (plan_schema (Some 2) ["key"] "web.services.app.login") = Ok p
    ∧ up_skippable p = ["web.services.app.token"]
    ∧ up_derived_on_target p = [("web.services.app.token", "web.services.app.login")]
    ∧ (up_generate p).*1 = ["web.services.app.login"].
Proof. eexists. vm_compute. repeat split; reflexivity. Qed.
