(* ===== verification/Generate.v ===== *)
(** * Values the target generates

    [crates/deploy/src/generate.rs]: the operator asks for values it does not
    have; the target makes them, or keeps those it has installed, and returns
    each encrypted to its recipients. Values derived from them are framed
    here.

    Where values come from is a [GenerationHost]; codecs, hashes and the TOML
    parser are arguments. *)
From S2P Require Import Prelude BTree Generator Schema SchemaValidation Crypto Wire FileSystem FsUtil Deploy Text Paths Manifest.
#[local] Open Scope Z_scope.

(** ** Where generated values come from *)
Class GenerationHost (S : Type) := {
  mix : list Z → stE S DeployError unit;
  host_generate : DeployGenerator → stE S DeployError (list Z);
  fresh_version : stE S DeployError (list Z);
  read_installed : string → stE S DeployError (option (list Z))
}.

(** [read_installed] of the system: the live secret tree. *)
Definition read_installed_file `{HostFiles} (path : string) : result DeployError (option (list Z)) :=
  match nofollow path with
  | Ok file =>
      _ ← guard_err (negb (negb (fi_is_file file) || (MAX_SECRET_SIZE <? fi_len file)))
            (Invalid "installed value is not a bounded regular file");
      Ok (Some (fi_contents file))
  | Err error => match io_kind error with KNotFound => Ok None | _ => Err (Io error) end
  end.

(** The kernel's pool and randomness. *)
Class Randomness (S : Type) := {
  pool_open : stE S IoErr unit;
  pool_write_all : list Z → stE S IoErr unit;
  pool_flush : stE S IoErr unit;
  (** [generate_with(&mut OsRandom)] of Generator.v, on enough fuel. *)
  os_generate_with : DeployGenerator → stE S string (list Z);
  os_fill : Z → stE S unit (list Z)
}.
Definition st_map {S E F A} (f : E → F) (m : stE S E A) : stE S F A :=
  λ s, let '(r, s) := m s in (map_err f r, s).

#[export] Instance system_host {S} `{Randomness S} `{HostFiles} : GenerationHost S := {
  mix contribution :=
    _ ← st_map Io pool_open;
    _ ← st_map Io (pool_write_all contribution);
    st_map Io pool_flush;
  host_generate generator := st_map Invalid (os_generate_with generator);
  fresh_version := st_map (const (Invalid "operating-system randomness failed")) (os_fill VERSION_ID_SIZE);
  read_installed path := st_lift (read_installed_file path)
}.

(** ** Generating *)
Record GeneratedValues := {
  gv_deployments : list SecretDeployment;
  gv_records : list (string * TargetRecord)
}.
(** [produced]: versions and plaintexts by identifier. *)
Record Generating := {
  gn_produced : list (string * (list Z * list Z));
  gn_deployments : list SecretDeployment;
  gn_records : list (string * TargetRecord)
}.

Section Generate.
Context {S : Type} `{GenerationHost S} `{CryptoProvider S}.
Context (schema_error : SchemaError → string).
Context (b64_encode : list Z → string) (b64_decode : string → option (list Z)).
Context (sha256 : list Z → list Z) (toml_parse : string → option (list (string * TomlValue))).
Context (generator_from_json : string → option DeployGenerator).

Definition decode_version (value : string) : option (list Z) :=
  version ← b64_decode value;
  if zlen version =? VERSION_ID_SIZE then Some version else None.

Definition contribution_of (text : string) : result DeployError (list Z) :=
  contribution ← ok_or (Invalid "client contribution is not valid base64") (b64_decode text);
  _ ← guard_err (zlen contribution =? 32) (Invalid "client contribution must be exactly 32 bytes");
  Ok contribution.

Definition recipients_of (ids keys : list string) : list Recipient :=
  zip_with (λ id key, {| rc_id := id; rc_ssh_public_key := key |}) ids keys.

Definition encrypt_for (identifier : string) (version value : list Z) (recipients : list Recipient)
  : stE S DeployError EncryptedSecret :=
  st_map (λ error, Invalid ("cannot encrypt " +:+ identifier +:+ ": " +:+ crypto_error_show error))
    (encrypt_secret_with_version identifier version value recipients).

Definition record_of (encrypted : EncryptedSecret) (version : list Z) (adopted : bool) : TargetRecord :=
  {| gr_format_version := es_format_version encrypted;
     gr_version_id_base64 := b64_encode version;
     gr_recipient_ids := es_recipient_ids encrypted;
     gr_age_ciphertext_base64 := b64_encode (es_age_ciphertext encrypted);
     gr_adopted := adopted |}.

Definition belongs_to (hostname : string) (path : SecretPath) : bool :=
  bool_decide (head path = Some hostname).

(** Whether a requested derived value of this host is framed from [identifier]. *)
Definition frames_from (schema : Schema) (hostname identifier derived : string) : bool :=
  match path_parse derived with
  | Ok path =>
      belongs_to hostname path
      && match leaf schema path with
         | Ok (Stored spec) =>
             is_some_and (λ d, bool_decide (df_identifier d = identifier)) (ss_derived_from spec)
         | _ => false
         end
  | Err _ => false
  end.

Definition generate_shared (schema : Schema) (hostname : string) (derive : list string)
    (entry : GenerateEntry) (shared : SharedSource) : stE S DeployError (list Z * list Z * TargetRecord) :=
  let identifier := ge_identifier entry in
  _ ← st_lift (map_err (λ error, Invalid ("invalid shared source: " +:+ schema_error error))
                 (path_parse identifier));
  _ ← st_guard (existsb (frames_from schema hostname identifier) derive)
        (Invalid (identifier +:+ " is shared, but no requested derived value of this host is framed from it"));
  generator ← st_lift (ok_or (Invalid "invalid shared source generator")
                         (generator_from_json (sh_generator shared)));
  _ ← st_guard (negb (bool_decide (sh_recipient_ids shared = [])
                      || negb (zlen (sh_recipient_ids shared) =? zlen (sh_recipient_public_keys shared))))
        (Invalid "invalid shared source recipients");
  contribution ← st_lift (contribution_of (ge_client_contribution_base64 entry));
  _ ← mix contribution;
  version ← fresh_version;
  value ← host_generate generator;
  encrypted ← encrypt_for identifier version value
                (recipients_of (sh_recipient_ids shared) (sh_recipient_public_keys shared));
  mret (version, value, record_of encrypted version false).

(** The installed value with its version, or a new one. *)
Definition adopt_or_generate (generator : DeployGenerator) (contribution : list Z)
    (installed : option (string * list Z)) : stE S DeployError (list Z * list Z) :=
  match installed with
  | Some (installed_version, value) =>
      version ← match decode_version installed_version with
                | Some version => mret version
                | None => fresh_version
                end;
      mret (version, value)
  | None =>
      _ ← mix contribution;
      version ← fresh_version;
      value ← host_generate generator;
      mret (version, value)
  end.

Definition find_installed (installed_versions : list (string * string)) (identifier path : string)
  : stE S DeployError (option (string * list Z)) :=
  match bt_get identifier installed_versions with
  | Some version =>
      value ← read_installed path;
      mret ((λ value, (version, value)) <$> value)
  | None => mret None
  end.

(** The checks of one entry: its leaf and the generator. *)
Definition generated_leaf (schema : Schema) (hostname identifier : string)
  : result DeployError (SecretSpec * DeployGenerator) :=
  path ← map_err (λ error, Invalid ("invalid generated identifier: " +:+ schema_error error))
           (path_parse identifier);
  _ ← guard_err (belongs_to hostname path) (Invalid "generated value belongs to another host");
  spec ← map_err (λ error, Invalid ("generated value is absent from manifest: " +:+ schema_error error))
           (leaf schema path);
  match spec with
  | Stored spec =>
      generator ← map_err (λ reason, Invalid (identifier +:+ " cannot be generated here: "
                                               +:+ not_generatable_reason reason))
                    (deployment_generator spec);
      Ok (spec, generator)
  | _ => Err (Invalid "target tasks cannot be generated as values")
  end.

(** One turn of the loop over the entries. *)
Definition generate_one (schema : Schema) (hostname : string) (derive : list string)
    (installed_versions : list (string * string)) (acc : Generating) (entry : GenerateEntry)
  : stE S DeployError Generating :=
  let identifier := ge_identifier entry in
  match ge_shared entry with
  | Some shared =>
      '(version, value, record) ← generate_shared schema hostname derive entry shared;
      mret {| gn_produced := bt_insert identifier (version, value) (gn_produced acc);
              gn_deployments := gn_deployments acc;
              gn_records := bt_insert identifier record (gn_records acc) |}
  | None =>
      '(spec, generator) ← st_lift (generated_leaf schema hostname identifier);
      contribution ← st_lift (contribution_of (ge_client_contribution_base64 entry));
      installed ← find_installed installed_versions identifier (ds_path (ss_destination spec));
      '(version, value) ← adopt_or_generate generator contribution installed;
      encrypted ← encrypt_for identifier version value
                    (recipients_of (ss_recipient_ids spec) (ss_recipient_public_keys spec));
      mret {| gn_produced := bt_insert identifier (version, value) (gn_produced acc);
              gn_deployments := gn_deployments acc ++
                [{| sd_identifier := identifier; sd_version_id := b64_encode version;
                    sd_contents_base64 := b64_encode value |}];
              gn_records := bt_insert identifier
                (record_of encrypted version (is_some installed)) (gn_records acc) |}
  end.

Fixpoint generate_all (schema : Schema) (hostname : string) (derive : list string)
    (installed_versions : list (string * string)) (acc : Generating) (entries : list GenerateEntry)
  : stE S DeployError Generating :=
  match entries with
  | [] => mret acc
  | entry :: entries =>
      acc ← generate_one schema hostname derive installed_versions acc entry;
      generate_all schema hostname derive installed_versions acc entries
  end.

(** One derived value, framed from what this deployment produced. *)
Definition derive_one (schema : Schema) (hostname : string)
    (produced : list (string * (list Z * list Z))) (identifier : string) : result DeployError SecretDeployment :=
  path ← map_err (λ error, Invalid ("invalid derived identifier: " +:+ schema_error error))
           (path_parse identifier);
  _ ← guard_err (belongs_to hostname path) (Invalid "derived value belongs to another host");
  spec ← map_err (λ error, Invalid ("derived value is absent from manifest: " +:+ schema_error error))
           (leaf schema path);
  match spec with
  | Stored spec =>
      derived ← ok_or (Invalid (identifier +:+ " declares no derivedFrom")) (ss_derived_from spec);
      '(version, value) ← ok_or
        (Invalid (identifier +:+ ": its source " +:+ df_identifier derived
                  +:+ " is not generated in this deployment"))
        (bt_get (df_identifier derived) produced);
      framed ← map_err Invalid (frame toml_parse derived value);
      Ok {| sd_identifier := identifier; sd_version_id := derived_version sha256 derived version;
            sd_contents_base64 := b64_encode framed |}
  | _ => Err (Invalid "only stored values can be derived")
  end.

Definition generate_values (schema : Schema) (hostname : string) (entries : list GenerateEntry)
    (derive : list string) (installed_versions : list (string * string)) : stE S DeployError GeneratedValues :=
  generated ← generate_all schema hostname derive installed_versions
    {| gn_produced := []; gn_deployments := []; gn_records := [] |} entries;
  derived ← st_lift (try_map (derive_one schema hostname (gn_produced generated)) derive);
  mret {| gv_deployments := gn_deployments generated ++ derived; gv_records := gn_records generated |}.

Definition run_value_generation `{HostFiles} (from_json : string → result string Schema)
    (manifest hostname : string) (entries : list GenerateEntry) (derive : list string)
    (installed_versions : list (string * string)) : stE S DeployError GeneratedValues :=
  schema ← st_lift (load_schema from_json manifest);
  generate_values schema hostname entries derive installed_versions.
End Generate.
