(* ===== verification/GenerateFacts.v ===== *)
(** * What the operator gets back is what the host installs *)
From S2P Require Import Prelude BTree Generator Schema SchemaValidation Crypto CryptoFacts Wire FileSystem FsUtil Deploy Text Paths Manifest Generate.
#[local] Open Scope Z_scope.

(** ** Maps filled in a loop *)
Section Filled.
Context {X V : Type} (key : X → string) (value : X → V).
Definition filled (m : list (string * V)) (l : list X) : list (string * V) :=
  foldl (λ m x, bt_insert (key x) (value x) m) m l.

Lemma filled_other m l k : k ∉ key <$> l → bt_get k (filled m l) = bt_get k m.
Proof.
  revert m. induction l as [|x l IH]; intros m; [done|]. rewrite fmap_cons, not_elem_of_cons.
  intros [Hk Hl]. cbn [filled foldl]. fold (filled (bt_insert (key x) (value x) m) l).
  by rewrite IH, bt_get_insert_ne.
Qed.

Lemma filled_get m l x : NoDup (key <$> l) → x ∈ l → bt_get (key x) (filled m l) = Some (value x).
Proof.
  revert m. induction l as [|y l IH]; intros m; [by intros _ ?%not_elem_of_nil|].
  rewrite fmap_cons. intros [Hy Hnd]%NoDup_cons. cbn [filled foldl].
  fold (filled (bt_insert (key y) (value y) m) l).
  intros [->|Hin]%elem_of_cons; [|by apply IH]. by rewrite filled_other, bt_get_insert_eq.
Qed.

Lemma filled_inv m l k v :
  bt_get k (filled m l) = Some v → bt_get k m = Some v ∨ ∃ x, x ∈ l ∧ key x = k ∧ value x = v.
Proof.
  revert m. induction l as [|x l IH]; intros m; [by left|]. cbn [filled foldl].
  fold (filled (bt_insert (key x) (value x) m) l). intros [H|(y & Hy & ? & ?)]%IH.
  - destruct (decide (k = key x)) as [->|Hne].
    + rewrite bt_get_insert_eq in H. injection H as <-. right. exists x. by split; [left|].
    + rewrite bt_get_insert_ne in H by done. by left.
  - right. exists y. by split; [right|].
Qed.
End Filled.

Lemma st_map_ok {S E F A} (f : E → F) (m : stE S E A) s a s' : st_map f m s = (Ok a, s') ↔ m s = (Ok a, s').
Proof. unfold st_map. destruct (m s) as [[b|e] s1]; cbn; naive_solver. Qed.

(** ** What is deployed *)
Section Deployed.
Context {S : Type} {Host : GenerationHost S} {Provider : CryptoProvider S}.
Context (schema_error : SchemaError → string).
Context (b64_encode : list Z → string) (b64_decode : string → option (list Z)).
Context (sha256 : list Z → list Z) (toml_parse : string → option (list (string * TomlValue))).
Context (generator_from_json : string → option DeployGenerator).

Lemma derive_one_ok schema hostname produced identifier d :
  derive_one schema_error b64_encode sha256 toml_parse schema hostname produced identifier = Ok d →
  sd_identifier d = identifier
  ∧ ∃ path spec derived version value framed, path_parse identifier = Ok path
      ∧ leaf schema path = Ok (Stored spec) ∧ ss_derived_from spec = Some derived
      ∧ bt_get (df_identifier derived) produced = Some (version, value)
      ∧ frame toml_parse derived value = Ok framed
      ∧ d = {| sd_identifier := identifier; sd_version_id := derived_version sha256 derived version;
               sd_contents_base64 := b64_encode framed |}.
Proof.
  unfold derive_one. intros (path & Hp & H)%bind_ok. apply guard_bind_ok in H as [_ H].
  apply bind_ok in H as (l & Hl & H). destruct l as [spec|spec|spec]; try done.
  apply bind_ok in H as (derived & Hd & H). apply bind_ok in H as ([version value] & Hv & H).
  apply bind_ok in H as (framed & Hf & [= <-]). split; [done|].
  exists path, spec, derived, version, value, framed.
  destruct (path_parse identifier); cbn in Hp; [|done]. injection Hp as ->.
  destruct (leaf schema path); cbn in Hl; [|done]. injection Hl as ->.
  destruct (ss_derived_from spec); cbn in Hd; [|done]. injection Hd as ->.
  destruct (bt_get _ produced); cbn in Hv; [|done]. injection Hv as ->.
  destruct (frame toml_parse derived value); cbn in Hf; [|done]. by injection Hf as ->.
Qed.

Lemma derived_ids schema hostname produced derive ds :
  Forall2 (λ id d, derive_one schema_error b64_encode sha256 toml_parse schema hostname produced id = Ok d) derive ds →
  sd_identifier <$> ds = derive.
Proof.
  induction 1 as [|id d derive ds Hid _ IH]; [done|]. rewrite fmap_cons, IH.
  f_equal. by apply derive_one_ok in Hid as [-> _].
Qed.

(** The values the target generates for itself. *)
Definition own_entries (entries : list GenerateEntry) : list string :=
  ge_identifier <$> List.filter (λ entry, negb (is_some (ge_shared entry))) entries.

Lemma generate_one_ids schema hostname derive installed_versions acc entry s acc' s' :
  generate_one schema_error b64_encode b64_decode generator_from_json schema hostname derive installed_versions
    acc entry s = (Ok acc', s') →
  sd_identifier <$> gn_deployments acc' = (sd_identifier <$> gn_deployments acc) ++ own_entries [entry].
Proof.
  unfold generate_one, own_entries. cbn [List.filter]. destruct (ge_shared entry) as [shared|]; intros H.
  - apply stE_bind_ok in H as ([[version value] record] & s1 & _ & H). injection H as <- _. cbn. by rewrite app_nil_r.
  - apply stE_bind_ok in H as ([spec generator] & s1 & _ & H). apply stE_bind_ok in H as (c & s2 & _ & H).
    apply stE_bind_ok in H as (installed & s3 & _ & H). apply stE_bind_ok in H as ([version value] & s4 & _ & H).
    apply stE_bind_ok in H as (encrypted & s5 & _ & H). injection H as <- _.
    cbn [gn_deployments]. by rewrite fmap_app.
Qed.

Lemma generate_all_ids schema hostname derive installed_versions acc entries s acc' s' :
  generate_all schema_error b64_encode b64_decode generator_from_json schema hostname derive installed_versions
    acc entries s = (Ok acc', s') →
  sd_identifier <$> gn_deployments acc' = (sd_identifier <$> gn_deployments acc) ++ own_entries entries.
Proof.
  revert acc s. induction entries as [|entry entries IH]; intros acc s; cbn [generate_all].
  { intros [= <- _]. by rewrite app_nil_r. }
  intros (acc1 & s1 & H1%generate_one_ids & Hr%IH)%stE_bind_ok. rewrite Hr, H1, <- app_assoc.
  f_equal. unfold own_entries. rewrite <- fmap_app. f_equal. cbn [List.filter]. by destruct (negb _).
Qed.

(** Exactly the target's own generated values and the derived ones are deployed. *)
Lemma generate_values_ids schema hostname entries derive installed_versions s values s' :
  generate_values schema_error b64_encode b64_decode sha256 toml_parse generator_from_json schema hostname
    entries derive installed_versions s = (Ok values, s') →
  sd_identifier <$> gv_deployments values = own_entries entries ++ derive.
Proof.
  unfold generate_values. intros (g & s1 & Hd%generate_all_ids & H)%stE_bind_ok.
  apply stE_bind_ok in H as (ds & s2 & [Hds%try_map_ok ->]%stE_lift_ok & H). injection H as <- _.
  cbn [gv_deployments]. rewrite fmap_app, Hd. f_equal. by eapply derived_ids.
Qed.
End Deployed.

Section Generated.
Context {S : Type} {Host : GenerationHost S} {Provider : CryptoProvider S}.
Context (schema_error : SchemaError → string).
Context (b64_encode : list Z → string) (b64_decode : string → option (list Z)).
Context (sha256 : list Z → list Z) (toml_parse : string → option (list (string * TomlValue))).
Context (generator_from_json : string → option DeployGenerator).
(** What the code relies on: age decrypts what it encrypted, base64 and the
    host give bytes, a version is sixteen of them. *)
Context (decrypts : ∀ keys inner s ciphertext s1 s2,
  provider_encrypt keys inner s = (Ok ciphertext, s1) → ∃ s3, provider_decrypt ciphertext s2 = (Ok inner, s3)).
Context (decode_bytes : ∀ text l, b64_decode text = Some l → forallb is_byte l = true).
Context (version_size : ∀ s v s', fresh_version s = (Ok v, s') → zlen v = 16 ∧ forallb is_byte v = true).
Context (generate_bytes : ∀ g s v s', host_generate g s = (Ok v, s') → forallb is_byte v = true).
Context (installed_bytes : ∀ p s v s', read_installed p s = (Ok (Some v), s') → forallb is_byte v = true).

(** The record opens to [value] under [version]. *)
Definition opens (identifier : string) (record : TargetRecord) (version value : list Z) : Prop :=
  gr_version_id_base64 record = b64_encode version
  ∧ ∃ ciphertext, gr_age_ciphertext_base64 record = b64_encode ciphertext
    ∧ ∀ s2, ∃ s3, decrypt_secret identifier
        {| es_format_version := gr_format_version record; es_version_id := version;
           es_recipient_ids := gr_recipient_ids record; es_age_ciphertext := ciphertext |} s2 = (Ok value, s3).

(** Where a value came from: an installed one is kept, with its version when
    the store can use it. *)
Definition origin (installed_versions : list (string * string)) (identifier path : string)
    (version value : list Z) (adopted : bool) : Prop :=
  match bt_get identifier installed_versions with
  | None => adopted = false
  | Some installed_version => ∃ found s1 s2, read_installed path s1 = (Ok found, s2)
      ∧ match found with
        | Some installed => value = installed ∧ adopted = true
            ∧ ∀ v, decode_version b64_decode installed_version = Some v → version = v
        | None => adopted = false
        end
  end.

(** What one entry made. *)
Definition made (schema : Schema) (hostname : string) (derive : list string)
    (installed_versions : list (string * string)) (entry : GenerateEntry)
    (version value : list Z) (record : TargetRecord) : Prop :=
  opens (ge_identifier entry) record version value
  ∧ match ge_shared entry with
    | None => ∃ spec generator,
        generated_leaf schema_error schema hostname (ge_identifier entry) = Ok (spec, generator)
        ∧ gr_recipient_ids record = rc_id <$> recipients_of (ss_recipient_ids spec) (ss_recipient_public_keys spec)
        ∧ origin installed_versions (ge_identifier entry) (ds_path (ss_destination spec)) version value
            (gr_adopted record)
    | Some shared =>
        gr_recipient_ids record = rc_id <$> recipients_of (sh_recipient_ids shared) (sh_recipient_public_keys shared)
        ∧ gr_adopted record = false
        ∧ ∃ d, d ∈ derive ∧ frames_from schema hostname (ge_identifier entry) d = true
    end.

(** A shared value is not installed here. *)
Definition own_deployment (entry : GenerateEntry) (version value : list Z) : list SecretDeployment :=
  match ge_shared entry with
  | None => [{| sd_identifier := ge_identifier entry; sd_version_id := b64_encode version;
                sd_contents_base64 := b64_encode value |}]
  | Some _ => []
  end.

Lemma encrypt_for_opens identifier version value recipients adopted s encrypted s' :
  encrypt_for identifier version value recipients s = (Ok encrypted, s') →
  zlen version = 16 → forallb is_byte version = true → forallb is_byte value = true →
  opens identifier (record_of b64_encode encrypted version adopted) version value
  ∧ es_recipient_ids encrypted = rc_id <$> recipients.
Proof.
  unfold encrypt_for. intros He%st_map_ok Hv Hb Hbv.
  assert (forallb is_byte (version ++ value) = true) as Hbb by (rewrite forallb_app, Hb; done).
  pose proof (decrypt_encrypted decrypts _ _ _ _ _ _ _ He Hv Hbb) as Hd.
  apply encrypt_parts in He as (_ & _ & _ & _ & Hver & Hids & _).
  split; [|done]. split; [done|]. exists (es_age_ciphertext encrypted). split; [done|].
  intros s2. destruct (Hd s2) as [s3 H3]. exists s3. cbn. destruct encrypted as [f v i c]. cbn in *. by subst v.
Qed.

Lemma generate_shared_ok schema hostname derive entry shared s version value record s' :
  generate_shared schema_error b64_encode b64_decode generator_from_json schema hostname derive entry shared s
    = (Ok (version, value, record), s') →
  ge_shared entry = Some shared →
  ∀ installed_versions, made schema hostname derive installed_versions entry version value record.
Proof.
  unfold generate_shared. intros H Hsh installed_versions.
  apply stE_bind_ok in H as (path & s1 & _ & H). apply stE_bind_ok in H as ([] & s2 & [Hused ->]%stE_guard_ok & H).
  apply stE_bind_ok in H as (g & s3 & _ & H). apply stE_bind_ok in H as ([] & s4 & _ & H).
  apply stE_bind_ok in H as (c & s5 & _ & H). apply stE_bind_ok in H as ([] & s6 & _ & H).
  apply stE_bind_ok in H as (v & s7 & Hv%version_size & H).
  apply stE_bind_ok in H as (x & s8 & Hx%generate_bytes & H).
  apply stE_bind_ok in H as (e & s9 & He & H). injection H as <- <- <- _.
  apply (encrypt_for_opens _ _ _ _ false) in He as [Ho Hids]; [|tauto..].
  split; [done|]. rewrite Hsh. split; [done|]. split; [done|].
  apply existsb_exists in Hused as (d & Hd & Hf). exists d. by rewrite list_elem_of_In.
Qed.

Lemma adopt_ok identifier path installed_versions generator contribution s installed s1 version value s' :
  find_installed installed_versions identifier path s = (Ok installed, s1) →
  adopt_or_generate b64_decode generator contribution installed s1 = (Ok (version, value), s') →
  zlen version = 16 ∧ forallb is_byte version = true ∧ forallb is_byte value = true
  ∧ origin installed_versions identifier path version value (is_some installed).
Proof.
  unfold find_installed, origin. intros Hf Ha.
  assert (∀ s s', (_ ← mix contribution; version ← fresh_version; value ← host_generate generator;
            mret (version, value)) s = (Ok (version, value), s') →
          zlen version = 16 ∧ forallb is_byte version = true ∧ forallb is_byte value = true) as Hnew.
  { clear s s1 s' Hf Ha. intros s s' H. apply stE_bind_ok in H as (u & s1 & _ & H).
    apply stE_bind_ok in H as (v & s2 & [Hv Hb]%version_size & H).
    apply stE_bind_ok in H as (x & s3 & Hx%generate_bytes & H). by injection H as <- <- _. }
  destruct (bt_get identifier installed_versions) as [iv|].
  2:{ injection Hf as <- <-. by apply Hnew in Ha as (? & ? & ?). }
  apply stE_bind_ok in Hf as (found & s2 & Hr & Hf). injection Hf as <- <-.
  destruct found as [v|]; cbn [fmap option_fmap option_map adopt_or_generate] in *.
  2:{ apply Hnew in Ha as (? & ? & ?). repeat (split; [done|]). by exists None, s, s2. }
  pose proof (installed_bytes _ _ _ _ Hr) as Hb.
  apply stE_bind_ok in Ha as (ver & s3 & Hver & Ha). injection Ha as <- <- _.
  assert (zlen ver = 16 ∧ forallb is_byte ver = true ∧ ∀ w, decode_version b64_decode iv = Some w → ver = w)
    as (? & ? & ?).
  { destruct (decode_version b64_decode iv) as [w|] eqn:Ed.
    - injection Hver as <- _. unfold decode_version in Ed. destruct (b64_decode iv) as [l|] eqn:El; [|done].
      cbn in Ed. destruct (zlen l =? VERSION_ID_SIZE) eqn:Ez; [|done]. injection Ed as <-.
      split; [by apply Z.eqb_eq in Ez|]. split; [by eapply decode_bytes|]. by intros ? [= ->].
    - apply version_size in Hver as [? ?]. by repeat (split; [done|]). }
  repeat (split; [done|]). by exists (Some v), s, s2.
Qed.

(** What one turn of the loop adds. *)
Definition added (acc : Generating) (entry : GenerateEntry) (version value : list Z) (record : TargetRecord)
  : Generating :=
  {| gn_produced := bt_insert (ge_identifier entry) (version, value) (gn_produced acc);
     gn_deployments := gn_deployments acc ++ own_deployment entry version value;
     gn_records := bt_insert (ge_identifier entry) record (gn_records acc) |}.

Lemma generate_one_ok schema hostname derive installed_versions acc entry s acc' s' :
  generate_one schema_error b64_encode b64_decode generator_from_json schema hostname derive installed_versions
    acc entry s = (Ok acc', s') →
  ∃ version value record, made schema hostname derive installed_versions entry version value record
    ∧ acc' = added acc entry version value record.
Proof.
  unfold generate_one, added, own_deployment. destruct (ge_shared entry) as [shared|] eqn:Esh; intros H.
  - apply stE_bind_ok in H as ([[version value] record] & s1 & Hs & H). injection H as <- _.
    exists version, value, record. split; [by eapply generate_shared_ok|]. by rewrite app_nil_r.
  - apply stE_bind_ok in H as ([spec generator] & s1 & [Hl ->]%stE_lift_ok & H).
    apply stE_bind_ok in H as (contribution & s1 & [_ ->]%stE_lift_ok & H).
    apply stE_bind_ok in H as (installed & s1 & Hf & H).
    apply stE_bind_ok in H as ([version value] & s2 & Ha & H).
    apply stE_bind_ok in H as (encrypted & s3 & He & H). injection H as <- _.
    destruct (adopt_ok _ _ _ _ _ _ _ _ _ _ _ Hf Ha) as (Hv & Hb & Hbv & Ho).
    apply (encrypt_for_opens _ _ _ _ (is_some installed)) in He as [Hop Hids]; [|done..].
    eexists version, value, _. split; [|done]. split; [exact Hop|]. rewrite Esh.
    exists spec, generator. by rewrite <- Hids.
Qed.

(** Everything one entry made. *)
Record Made := { mk_entry : GenerateEntry; mk_version : list Z; mk_value : list Z; mk_record : TargetRecord }.
Definition mk_id (m : Made) : string := ge_identifier (mk_entry m).
Definition mk_deployment (m : Made) : list SecretDeployment :=
  own_deployment (mk_entry m) (mk_version m) (mk_value m).

Lemma generate_all_ok schema hostname derive installed_versions acc entries s acc' s' :
  generate_all schema_error b64_encode b64_decode generator_from_json schema hostname derive installed_versions
    acc entries s = (Ok acc', s') →
  ∃ results : list Made, mk_entry <$> results = entries
    ∧ Forall (λ m, made schema hostname derive installed_versions (mk_entry m) (mk_version m) (mk_value m)
                     (mk_record m)) results
    ∧ gn_deployments acc' = gn_deployments acc ++ mjoin (mk_deployment <$> results)
    ∧ gn_produced acc' = filled mk_id (λ m, (mk_version m, mk_value m)) (gn_produced acc) results
    ∧ gn_records acc' = filled mk_id mk_record (gn_records acc) results.
Proof.
  revert acc s. induction entries as [|entry entries IH]; intros acc s; cbn [generate_all].
  { intros [= <- _]. exists []. split; [done|]. split; [constructor|]. cbn. by rewrite app_nil_r. }
  intros (acc1 & s1 & (version & value & record & Hm & ->)%generate_one_ok & Hr)%stE_bind_ok.
  apply IH in Hr as (results & <- & Hall & Hd & Hp & Hrec).
  exists ({| mk_entry := entry; mk_version := version; mk_value := value; mk_record := record |} :: results).
  split; [done|]. split; [by constructor|]. rewrite Hd, Hp, Hrec. cbn [added gn_deployments gn_produced gn_records].
  by rewrite <- app_assoc.
Qed.

Lemma made_ids results :
  sd_identifier <$> mjoin (mk_deployment <$> results)
    = ge_identifier <$> List.filter (λ entry, negb (is_some (ge_shared entry))) (mk_entry <$> results).
Proof.
  induction results as [|m results IH]; [done|]. rewrite mjoin_fmap_cons, fmap_app, IH, fmap_cons.
  cbn [List.filter]. unfold mk_deployment, own_deployment. by destruct (ge_shared (mk_entry m)).
Qed.

(** The record returned for a value opens, under the version the host
    installs it with, to the value the host installs; an installed value is
    kept and not replaced; a shared value is returned but not installed; and
    every derived value is framed from a value produced here. *)
Theorem generated_values_agree schema hostname entries derive installed_versions s values s' :
  generate_values schema_error b64_encode b64_decode sha256 toml_parse generator_from_json schema hostname
    entries derive installed_versions s = (Ok values, s') →
  NoDup (ge_identifier <$> entries) →
  sd_identifier <$> gv_deployments values
    = (ge_identifier <$> List.filter (λ entry, negb (is_some (ge_shared entry))) entries) ++ derive
  ∧ (∀ id record, bt_get id (gv_records values) = Some record → ∃ entry, entry ∈ entries ∧ ge_identifier entry = id)
  ∧ (∀ entry, entry ∈ entries → ∃ version value record,
       bt_get (ge_identifier entry) (gv_records values) = Some record
       ∧ made schema hostname derive installed_versions entry version value record
       ∧ (ge_shared entry = None →
            {| sd_identifier := ge_identifier entry; sd_version_id := gr_version_id_base64 record;
               sd_contents_base64 := b64_encode value |} ∈ gv_deployments values)
       ∧ ∀ id path spec derived, id ∈ derive → path_parse id = Ok path → leaf schema path = Ok (Stored spec) →
           ss_derived_from spec = Some derived → df_identifier derived = ge_identifier entry →
           ∃ framed, frame toml_parse derived value = Ok framed
             ∧ {| sd_identifier := id; sd_version_id := derived_version sha256 derived version;
                  sd_contents_base64 := b64_encode framed |} ∈ gv_deployments values)
  ∧ (∀ id, id ∈ derive → ∃ path spec derived entry, path_parse id = Ok path ∧ leaf schema path = Ok (Stored spec)
       ∧ ss_derived_from spec = Some derived ∧ entry ∈ entries ∧ ge_identifier entry = df_identifier derived).
Proof.
  intros H Hnd. unfold generate_values in H.
  apply stE_bind_ok in H as (g & s1 & (results & <- & Hall & Hd & Hp & Hr)%generate_all_ok & H).
  apply stE_bind_ok in H as (ds & s2 & [Hds%try_map_ok ->]%stE_lift_ok & H). injection H as <- _.
  cbn [gn_deployments gn_produced gn_records gv_deployments gv_records app] in *.
  assert (NoDup (mk_id <$> results)) as Hnd' by (by rewrite <- list_fmap_compose in Hnd).
  assert (∀ id, id ∈ derive → ∃ d, d ∈ ds
    ∧ derive_one schema_error b64_encode sha256 toml_parse schema hostname (gn_produced g) id = Ok d) as Hder.
  { intros id (i & Hi)%list_elem_of_lookup. destruct (Forall2_lookup_l _ _ _ _ _ Hds Hi) as (d & Hdi & Hok).
    exists d. split; [by eapply list_elem_of_lookup_2|done]. }
  split; [|split; [|split]].
  - rewrite Hd, fmap_app. f_equal; [apply made_ids|by eapply derived_ids].
  - intros id record. rewrite Hr. intros [?|(m & Hm & <- & _)]%filled_inv; [done|].
    exists (mk_entry m). split; [by apply list_elem_of_fmap_2|done].
  - intros entry (m & -> & Hm)%list_elem_of_fmap. exists (mk_version m), (mk_value m), (mk_record m).
    assert (made schema hostname derive installed_versions (mk_entry m) (mk_version m) (mk_value m) (mk_record m))
      as Hmade by (rewrite Forall_forall in Hall; by apply Hall).
    split; [by rewrite Hr; apply (filled_get mk_id mk_record)|]. split; [done|]. split.
    + intros Hsh. apply elem_of_app. left. rewrite Hd. apply list_elem_of_join.
      exists (mk_deployment m). split; [|by apply list_elem_of_fmap_2].
      unfold mk_deployment, own_deployment. rewrite Hsh. destruct Hmade as [[-> _] _]. by left.
    + intros id path spec derived Hid Hpath Hleaf Hdf Hsrc.
      destruct (Hder id Hid) as (d & Hin & (_ & p' & sp' & d' & ver & val & framed & E1 & E2 & E3 & E4 & E5 & ->)%derive_one_ok).
      rewrite Hpath in E1. injection E1 as <-. rewrite Hleaf in E2. injection E2 as <-.
      rewrite Hdf in E3. injection E3 as <-. rewrite Hp, Hsrc in E4.
      pose proof (filled_get mk_id (λ m, (mk_version m, mk_value m)) [] results m Hnd' Hm) as Hg.
      unfold mk_id at 1 in Hg. rewrite Hg in E4. injection E4 as <- <-. exists framed. split; [done|].
      apply elem_of_app. by right.
  - intros id Hid. destruct (Hder id Hid) as (d & Hin & (_ & path & spec & derived & ver & val & framed & E1 & E2 & E3 & E4 & _)%derive_one_ok).
    rewrite Hp in E4. apply filled_inv in E4 as [?|(m & Hm & Hmid & _)]; [done|].
    exists path, spec, derived, (mk_entry m). repeat (split; [done|]). split; [by apply list_elem_of_fmap_2|done].
Qed.
End Generated.
