(* ===== verification/Tasks.v ===== *)
(** * Target tasks

    [crates/deploy/src/tasks.rs]: SSH keys the target makes for itself, for
    local use or for a storage box, before the batch that installs them. A
    task whose known_hosts is not here yet is left out, and nothing else. *)
From S2P Require Import Prelude BTree Generator Schema SchemaValidation Wire FileSystem FsUtil Deploy StorageBox Text Paths Manifest Generate.
#[local] Open Scope Z_scope.

Definition MAX_PASSWORD_BYTES : Z := 64 * 1024.
Definition MAX_PRIVATE_KEY_BYTES : Z := 64 * 1024.

Record GeneratedTasks := {
  gt_deployments : list SecretDeployment;
  gt_public_keys : list (string * string);
  gt_not_deployed : list (string * string)
}.

Definition task_error (error : string) : DeployError := Invalid ("storage box bootstrap failed: " +:+ error).

Definition task_mode (value : string) : result DeployError Z :=
  mode ← ok_or (Invalid "invalid output mode") (parse_octal (default value (strip_prefix "0o" value)));
  _ ← guard_err (bool_decide (mode ∈ [oct [4; 0; 0]; oct [4; 4; 0]]))
        (Invalid "generated output mode must be 0400 or 0440");
  Ok mode.

Section Tasks.
Context {S : Type} {Backend : SshBackend S} {Host : BoxHost S} {Files : HostFiles}.
Context (schema_error : SchemaError → string).
Context (user_id group_id : string → result string (option Z)).
Context (b64_encode : list Z → string) (b64_decode : string → option (list Z)).
Context (from_openssh : string → option Algorithm) (private_key : string → option PrivateKey).
Context (fingerprint : string → option string).
(** The current time as the registered keys are stamped. *)
Context (stamp : stE S string string).

Definition decode_password (value : string) : result DeployError (list Z) :=
  decoded ← ok_or (Invalid "task password is not valid base64") (b64_decode value);
  _ ← guard_err (negb (bool_decide (decoded = []) || (MAX_PASSWORD_BYTES <? zlen decoded)))
        (Invalid "task password has invalid length");
  Ok decoded.

Definition read_existing_key (path : string) : result DeployError (option string) :=
  match nofollow path with
  | Ok file =>
      _ ← guard_err (negb (negb (fi_is_file file) || (MAX_PRIVATE_KEY_BYTES <? fi_len file)))
            (Invalid "existing generated key is not a bounded regular file");
      value ← ok_or (Io (other "stream did not contain valid UTF-8")) (from_utf8 (fi_contents file));
      Ok (Some value)
  | Err error => match io_kind error with KNotFound => Ok None | _ => Err (Io error) end
  end.

Definition existing_account (what : string) (lookup : result string (option Z)) : result DeployError unit :=
  id ← map_err (const (Invalid ("cannot resolve generated output " +:+ what))) lookup;
  _ ← ok_or (Invalid ("generated output " +:+ what +:+ " does not exist")) id;
  Ok tt.

Definition validate_output (identifier : SecretPath) (output : Destination) : result DeployError unit :=
  service ← ok_or (Invalid "task identifier has no service") (identifier !! 2%nat);
  let expected := path_join (path_join "/persistent/secrets" service) (ds_category output) in
  _ ← guard_err (bool_decide (path_parent (components (ds_path output)) = Some (components expected))
                 && bool_decide (ds_category output ∈ ["backup"; "service"]))
        (Invalid "generated task output escapes its backup service boundary");
  _ ← existing_account "owner" (user_id (ds_owner output));
  _ ← existing_account "group" (group_id (ds_group output));
  _ ← task_mode (ds_mode output);
  Ok tt.

(** ** Known hosts *)
(** The leaf that may name the host and port in the file. *)
Fixpoint attesting (file host : string) (port : Z) (node : SecretNode) : option SecretLeaf :=
  match node with
  | Secret leaf =>
      if bool_decide (lf_kind leaf = KPublicInfo) && bool_decide (ds_path (lf_destination leaf) = file)
         && bool_decide (host ∈ leaf_ssh_hosts leaf) && bool_decide (lf_expected_ssh_port leaf = Some port)
      then Some leaf else None
  | Branch children =>
      (fix find children :=
         match children with
         | [] => None
         | (_, child) :: children =>
             match attesting file host port child with
             | Some leaf => Some leaf
             | None => find children
             end
         end) children
  | Generated _ | Operator _ => None
  end.
Definition attesting_leaf (host_schema : HostSchema) (file host : string) (port : Z) : option SecretLeaf :=
  head (omap (attesting file host port)
    (mjoin ((λ services, bt_values services) <$> bt_values (hs_service_groups host_schema)))).

Definition keys_of (what file host value : string) (hosts : list string) (port : Z)
  : result DeployError (list string) :=
  keys ← map_err (λ error, Invalid (what +:+ ": " +:+ error)) (known_hosts_keys from_openssh value hosts port host);
  _ ← guard_err (negb (bool_decide (keys = [])))
        (Missing (file +:+ " holds no key for [" +:+ host +:+ "]:" +:+ dec port));
  Ok keys.

Definition installed_known_hosts_keys (value : string) (hosts : list string) (port : Z) (shared file : string)
  : result DeployError unit :=
  map_err (λ error, Missing ("the installed public information " +:+ shared +:+ " (" +:+ file
      +:+ ") is invalid under this host's schema and must be republished: " +:+ error))
    (validate_ssh_known_hosts from_openssh value hosts port).

(** The installed file, which only root may have written. *)
Definition read_installed_known_hosts (what file : string) : result DeployError string :=
  match nofollow file with
  | Err error =>
      match io_kind error with
      | KNotFound => Err (Missing (file +:+ " is absent: its public information is not installed on this host yet"))
      | _ => Err (Context what error)
      end
  | Ok meta =>
      _ ← guard_err (negb (negb (fi_is_file meta) || negb (fi_uid meta =? 0) || negb (fi_gid meta =? 0)
                           || negb (Z.land (fi_mode meta) (oct [7; 7; 7]) =? oct [6; 4; 4])
                           || (MAX_KNOWN_HOSTS_BYTES <? fi_len meta)))
            (Invalid (what +:+ ": it has invalid ownership, mode, or length"));
      ok_or (Context what (other "stream did not contain valid UTF-8")) (from_utf8 (fi_contents meta))
  end.

Definition read_attested_known_hosts (schema : Schema) (pending : list (string * string))
    (hostname task file host : string) (port : Z) : result DeployError (list string) :=
  host_schema ← ok_or (Invalid "host is absent from manifest") (bt_get hostname schema);
  leaf ← ok_or (Invalid ("task " +:+ task +:+ ": knownHostsFile " +:+ file
                   +:+ " is not a public-info destination attesting [" +:+ host +:+ "]:" +:+ dec port))
           (attesting_leaf host_schema file host port);
  let what := "reading the Storage Box known_hosts " +:+ file +:+ " for task " +:+ task in
  let hosts := leaf_ssh_hosts leaf in
  match bt_get file pending with
  | Some value => keys_of what file host value hosts port
  | None =>
      let shared := default file (lf_shared_public_id leaf) in
      value ← read_installed_known_hosts what file;
      _ ← installed_known_hosts_keys value hosts port shared file;
      keys_of what file host value hosts port
  end.

(** ** One task *)
Definition reading_key (path identifier : string) : result DeployError (option string) :=
  map_err (during ("reading the installed key " +:+ path +:+ " for task " +:+ identifier))
    (read_existing_key path).

Definition local_key (entry : TaskEntry) (path : string) (contribution : list Z)
  : stE S DeployError (GeneratedKey * string) :=
  _ ← st_guard (bool_decide (te_password_base64 entry = ""))
        (Invalid "local SSH key task must not have a bootstrap password");
  _ ← st_map task_error entropy_open;
  _ ← st_map task_error (entropy_write contribution);
  _ ← st_map task_error entropy_flush;
  existing ← st_lift (reading_key path (te_identifier entry));
  key ← st_map (λ error, task_error (box_error_show error))
          (match existing with
           | Some value => st_lift (from_private_pem private_key value)
           | None => generate_key
           end);
  stamp ← st_map task_error stamp;
  mret (key, stamp +:+ " " +:+ gk_public_key key).

(** The keys the box must present. *)
Definition pinned_keys (schema : Schema) (pending : list (string * string)) (hostname identifier : string)
    (bootstrap : StorageBoxBootstrap) : result DeployError (list string) :=
  match sb_known_hosts_file bootstrap with
  | Some file =>
      read_attested_known_hosts schema pending hostname identifier file (sb_host bootstrap) (sb_port bootstrap)
  | None => Ok (sb_host_public_keys bootstrap)
  end.

Definition box_task (hostname : string) (entry : TaskEntry) (bootstrap : StorageBoxBootstrap)
    (pinned_host_keys : list string) (output : Destination) (mode : Z) : StorageBoxTask :=
  {| box_schema_version := 1; box_task_id := te_identifier entry; box_target_hostname := hostname;
     box_storage_box_host := sb_host bootstrap; box_storage_box_user := sb_user bootstrap;
     box_port := sb_port bootstrap; box_pinned_host_keys := pinned_host_keys;
     box_output := {| ou_path := ds_path output; ou_owner := ds_owner output; ou_group := ds_group output;
                      ou_mode := mode |} |}.

Definition box_key (hostname : string) (entry : TaskEntry) (bootstrap : StorageBoxBootstrap)
    (pinned_host_keys : list string) (output : Destination) (mode : Z) (contribution : list Z)
  : stE S DeployError GeneratedKey :=
  password ← st_lift (decode_password (te_password_base64 entry));
  let task := box_task hostname entry bootstrap pinned_host_keys output mode in
  existing ← st_lift (reading_key (ds_path output) (te_identifier entry));
  _ ← st_map task_error entropy_open;
  st_map (λ error, Invalid ("task " +:+ te_identifier entry +:+ ": Storage Box bootstrap on "
                            +:+ sb_host bootstrap +:+ ":" +:+ dec (sb_port bootstrap) +:+ " failed: "
                            +:+ box_error_show error))
    (engine_run fingerprint private_key task password contribution existing).

Definition with_key (acc : GeneratedTasks) (entry : TaskEntry) (key : GeneratedKey) (public_key : string)
  : GeneratedTasks :=
  {| gt_deployments := gt_deployments acc ++
       [{| sd_identifier := te_identifier entry; sd_version_id := te_version_id entry;
           sd_contents_base64 := b64_encode (bytes (gk_private_pem key)) |}];
     gt_public_keys := bt_insert (te_identifier entry) public_key (gt_public_keys acc);
     gt_not_deployed := gt_not_deployed acc |}.
Definition without_key (acc : GeneratedTasks) (entry : TaskEntry) (reason : string) : GeneratedTasks :=
  {| gt_deployments := gt_deployments acc; gt_public_keys := gt_public_keys acc;
     gt_not_deployed := bt_insert (te_identifier entry) reason (gt_not_deployed acc) |}.

(** The checks of one entry: its output, the mode and the contribution. *)
Definition task_leaf (schema : Schema) (hostname : string) (entry : TaskEntry)
  : result DeployError (GeneratedSecret * Z * list Z) :=
  path ← map_err (λ error, Invalid ("invalid task identifier: " +:+ schema_error error))
           (path_parse (te_identifier entry));
  _ ← guard_err (belongs_to hostname path) (Invalid "generated task belongs to another host");
  spec ← map_err (λ error, Invalid ("generated task is absent from manifest: " +:+ schema_error error))
           (generated_secret schema path);
  let generated := gp_generated_secret spec in
  _ ← validate_output path (gs_output generated);
  mode ← task_mode (ds_mode (gs_output generated));
  contribution ← contribution_of b64_decode (te_client_contribution_base64 entry);
  Ok (generated, mode, contribution).

(** One turn of the loop over the entries. *)
Definition run_task (schema : Schema) (pending : list (string * string)) (hostname : string)
    (acc : GeneratedTasks) (entry : TaskEntry) : stE S DeployError GeneratedTasks :=
  '(generated, mode, contribution) ← st_lift (task_leaf schema hostname entry);
  let output := gs_output generated in
  match gs_secret_type generated with
  | LocalSshKey =>
      '(key, public_key) ← local_key entry (ds_path output) contribution;
      mret (with_key acc entry key public_key)
  | StorageBoxSshKey =>
      bootstrap ← st_lift (ok_or (Invalid "storage box bootstrap missing") (gs_bootstrap generated));
      match pinned_keys schema pending hostname (te_identifier entry) bootstrap with
      | Ok keys =>
          key ← box_key hostname entry bootstrap keys output mode contribution;
          mret (with_key acc entry key (gk_public_key key))
      | Err (Missing reason) => mret (without_key acc entry reason)
      | Err error => st_lift (Err error)
      end
  end.

Fixpoint run_tasks (schema : Schema) (pending : list (string * string)) (hostname : string)
    (acc : GeneratedTasks) (entries : list TaskEntry) : stE S DeployError GeneratedTasks :=
  match entries with
  | [] => mret acc
  | entry :: entries =>
      acc ← run_task schema pending hostname acc entry;
      run_tasks schema pending hostname acc entries
  end.

(** Public information the same batch supplies, by destination. *)
Definition pending_public (schema : Schema) (pending : list (string * string)) (item : SecretDeployment)
  : result DeployError (list (string * string)) :=
  match path_parse (sd_identifier item) with
  | Err _ => Ok pending
  | Ok path =>
      match leaf schema path with
      | Ok (Stored spec) =>
          if bool_decide (ss_kind spec = KPublicInfo) then
            value ← ok_or (Invalid (sd_identifier item +:+ " is not UTF-8 base64"))
                      (bytes ← b64_decode (sd_contents_base64 item); from_utf8 bytes);
            Ok (bt_insert (ds_path (ss_destination spec)) value pending)
          else Ok pending
      | _ => Ok pending
      end
  end.

Definition generate_tasks (schema : Schema) (hostname : string) (entries : list TaskEntry)
    (supplied : list SecretDeployment) : stE S DeployError GeneratedTasks :=
  pending ← st_lift (try_fold (pending_public schema) [] supplied);
  run_tasks schema pending hostname {| gt_deployments := []; gt_public_keys := []; gt_not_deployed := [] |} entries.

Definition run_generated_tasks_with (from_json : string → result string Schema) (manifest hostname : string)
    (entries : list TaskEntry) (supplied : list SecretDeployment) : stE S DeployError GeneratedTasks :=
  schema ← st_lift (load_schema from_json manifest);
  generate_tasks schema hostname entries supplied.
Definition run_generated_tasks (from_json : string → result string Schema) (manifest hostname : string)
    (entries : list TaskEntry) : stE S DeployError GeneratedTasks :=
  run_generated_tasks_with from_json manifest hostname entries [].
End Tasks.
