(* ===== verification/TasksFacts.v ===== *)
(** * Every task is done or accounted for *)
From S2P Require Import Prelude BTree Generator Schema SchemaValidation Wire FileSystem FsUtil Deploy StorageBox Text Paths Manifest Generate GenerateFacts Tasks.
#[local] Open Scope Z_scope.

Section TaskFacts.
Context {S : Type} {Backend : SshBackend S} {Host : BoxHost S} {Files : HostFiles}.
Context (schema_error : SchemaError → string).
Context (user_id group_id : string → result string (option Z)).
Context (b64_encode : list Z → string) (b64_decode : string → option (list Z)).
Context (from_openssh : string → option Algorithm) (private_key : string → option PrivateKey).
Context (fingerprint : string → option string) (stamp : stE S string string).

(** A key with the text that is registered for it, or why there is none. *)
Definition TaskResult : Type := GeneratedKey * string + string.

(** What became of one task: a key, the installed one if there is one, or a
    missing known_hosts. *)
Definition task_done (schema : Schema) (pending : list (string * string)) (hostname : string)
    (entry : TaskEntry) (r : TaskResult) : Prop :=
  ∃ generated mode contribution,
    task_leaf schema_error user_id group_id b64_decode schema hostname entry = Ok (generated, mode, contribution)
    ∧ match r with
      | inl (key, public_key) =>
          (∃ prefix, public_key = prefix +:+ gk_public_key key)
          ∧ ∀ pem, read_existing_key (ds_path (gs_output generated)) = Ok (Some pem) →
              from_private_pem private_key pem = Ok key
      | inr reason => gs_secret_type generated = StorageBoxSshKey ∧ ∃ bootstrap,
          gs_bootstrap generated = Some bootstrap
          ∧ pinned_keys from_openssh schema pending hostname (te_identifier entry) bootstrap = Err (Missing reason)
      end.

Definition with_result (acc : GeneratedTasks) (x : TaskEntry * TaskResult) : GeneratedTasks :=
  match x.2 with
  | inl (key, public_key) => with_key b64_encode acc x.1 key public_key
  | inr reason => without_key acc x.1 reason
  end.

Lemma engine_keeps_key task password contribution pem s key s' :
  engine_run fingerprint private_key task password contribution (Some pem) s = (Ok key, s') →
  from_private_pem private_key pem = Ok key.
Proof.
  unfold engine_run. intros (u & s1 & _ & H)%stE_bind_ok.
  apply stE_bind_ok in H as (k & s2 & [Hk ->]%stE_lift_ok & H).
  apply stE_bind_ok in H as (u2 & s3 & _ & H). apply stE_bind_ok in H as (c & s4 & _ & H).
  apply stE_bind_ok in H as (d & s5 & _ & H). apply stE_bind_ok in H as (m & s6 & _ & H).
  apply stE_bind_ok in H as (u3 & s7 & _ & H). by injection H as -> _.
Qed.

Lemma reading_ok path identifier pem found :
  reading_key path identifier = Ok found → read_existing_key path = Ok (Some pem) → found = Some pem.
Proof. unfold reading_key. intros H E. rewrite E in H. by injection H. Qed.

Lemma local_key_ok entry path contribution s key public_key s' :
  local_key private_key stamp entry path contribution s = (Ok (key, public_key), s') →
  (∃ prefix, public_key = prefix +:+ gk_public_key key)
  ∧ ∀ pem, read_existing_key path = Ok (Some pem) → from_private_pem private_key pem = Ok key.
Proof.
  unfold local_key. intros (u & s1 & _ & H)%stE_bind_ok.
  apply stE_bind_ok in H as (u2 & s2 & _ & H). apply stE_bind_ok in H as (u3 & s3 & _ & H).
  apply stE_bind_ok in H as (u4 & s4 & _ & H). apply stE_bind_ok in H as (found & s5 & [Hf ->]%stE_lift_ok & H).
  apply stE_bind_ok in H as (k & s6 & Hk%st_map_ok & H). apply stE_bind_ok in H as (t & s7 & _ & H).
  injection H as <- <- _. split; [exists (t +:+ " "); by rewrite sapp_assoc|].
  intros pem Hp. rewrite (reading_ok _ _ _ _ Hf Hp) in Hk. by apply stE_lift_ok in Hk as [? _].
Qed.

Lemma box_key_ok hostname entry bootstrap keys output mode contribution s key s' :
  box_key b64_decode private_key fingerprint hostname entry bootstrap keys output mode contribution s = (Ok key, s') →
  ∀ pem, read_existing_key (ds_path output) = Ok (Some pem) → from_private_pem private_key pem = Ok key.
Proof.
  unfold box_key. intros (p & s1 & _ & H)%stE_bind_ok pem Hp.
  apply stE_bind_ok in H as (found & s2 & [Hf ->]%stE_lift_ok & H).
  rewrite (reading_ok _ _ _ _ Hf Hp) in H. apply stE_bind_ok in H as (u & s3 & _ & H).
  apply st_map_ok in H. by eapply engine_keeps_key.
Qed.

Lemma run_task_ok schema pending hostname acc entry s acc' s' :
  run_task schema_error user_id group_id b64_encode b64_decode from_openssh private_key fingerprint stamp
    schema pending hostname acc entry s = (Ok acc', s') →
  ∃ r, task_done schema pending hostname entry r ∧ acc' = with_result acc (entry, r).
Proof.
  unfold run_task. intros ([[generated mode] contribution] & s1 & [Hl ->]%stE_lift_ok & H)%stE_bind_ok.
  destruct (gs_secret_type generated) eqn:Et.
  - apply stE_bind_ok in H as (bootstrap & s2 & [Hb ->]%stE_lift_ok & H).
    destruct (gs_bootstrap generated) as [b|] eqn:Eb; cbn in Hb; [|done]. injection Hb as ->.
    destruct (pinned_keys _ _ _ _ _ _) as [keys|error] eqn:Ek.
    + apply stE_bind_ok in H as (key & s3 & Hk & H). injection H as <- _.
      exists (inl (key, gk_public_key key)). split; [|done]. exists generated, mode, contribution. split; [done|].
      split; [by exists ""|]. by eapply box_key_ok.
    + destruct error as [| | |reason|]; try done. injection H as <- _. exists (inr reason). split; [|done].
      exists generated, mode, contribution. split; [done|]. split; [done|]. by exists bootstrap.
  - apply stE_bind_ok in H as ([key public_key] & s2 & Hk & H). injection H as <- _.
    exists (inl (key, public_key)). split; [|done]. exists generated, mode, contribution. split; [done|].
    by eapply local_key_ok.
Qed.

Lemma run_tasks_ok schema pending hostname acc entries s acc' s' :
  run_tasks schema_error user_id group_id b64_encode b64_decode from_openssh private_key fingerprint stamp
    schema pending hostname acc entries s = (Ok acc', s') →
  ∃ results, results.*1 = entries
    ∧ Forall (λ x, task_done schema pending hostname x.1 x.2) results
    ∧ acc' = foldl with_result acc results.
Proof.
  revert acc s. induction entries as [|entry entries IH]; intros acc s; cbn [run_tasks].
  { intros [= <- _]. by exists []. }
  intros (acc1 & s1 & (r & Hr & ->)%run_task_ok & H)%stE_bind_ok.
  apply IH in H as (results & <- & Hall & ->). exists ((entry, r) :: results).
  split; [done|]. split; [by constructor|done].
Qed.

Definition result_id (x : TaskEntry * TaskResult) : string := te_identifier x.1.
Definition key_of (x : TaskEntry * TaskResult) : option (GeneratedKey * string) :=
  match x.2 with inl k => Some k | inr _ => None end.
Definition deployment_of (x : TaskEntry * TaskResult) : option SecretDeployment :=
  '(key, _) ← key_of x;
  Some {| sd_identifier := te_identifier x.1; sd_version_id := te_version_id x.1;
          sd_contents_base64 := b64_encode (bytes (gk_private_pem key)) |}.

Lemma fold_deployments acc results :
  gt_deployments (foldl with_result acc results) = gt_deployments acc ++ omap deployment_of results.
Proof.
  revert acc. induction results as [|[entry r] results IH]; intros acc; [by rewrite app_nil_r|].
  cbn [foldl]. rewrite IH. destruct r as [[k p]|reason]; cbn; [by rewrite <- app_assoc|done].
Qed.

Lemma fold_maps acc results id :
  NoDup (result_id <$> results) →
  (id ∉ result_id <$> results →
     bt_get id (gt_public_keys (foldl with_result acc results)) = bt_get id (gt_public_keys acc)
     ∧ bt_get id (gt_not_deployed (foldl with_result acc results)) = bt_get id (gt_not_deployed acc))
  ∧ ∀ x, x ∈ results → result_id x = id →
      bt_get id (gt_public_keys (foldl with_result acc results))
        = (match x.2 with inl (_, p) => Some p | inr _ => bt_get id (gt_public_keys acc) end)
      ∧ bt_get id (gt_not_deployed (foldl with_result acc results))
        = (match x.2 with inl _ => bt_get id (gt_not_deployed acc) | inr reason => Some reason end).
Proof.
  revert acc. induction results as [|[entry r] results IH]; intros acc.
  { intros _. split; [done|]. by intros x ?%not_elem_of_nil. }
  rewrite fmap_cons. intros [Hn Hnd]%NoDup_cons. cbn [foldl].
  destruct (IH (with_result acc (entry, r)) Hnd) as [IH1 IH2]. split.
  - rewrite not_elem_of_cons. intros [Hne Hni]. destruct (IH1 Hni) as [-> ->].
    destruct r as [[k p]|reason]; cbn; by rewrite bt_get_insert_ne.
  - intros x [->|Hin]%elem_of_cons Hid.
    + cbn in Hid. subst id. destruct (IH1 Hn) as [-> ->].
      destruct r as [[k p]|reason]; cbn; by rewrite bt_get_insert_eq.
    + destruct (IH2 x Hin Hid) as [-> ->].
      assert (id ≠ te_identifier entry) as Hne.
      { intros E. apply Hn. apply list_elem_of_fmap. exists x. by rewrite Hid. }
      destruct x as [e [[k' p']|reason']], r as [[k p]|reason]; cbn; by rewrite ?bt_get_insert_ne by done.
Qed.

(** The outcome of every task, from the results of the loop. *)
Lemma generate_tasks_results schema hostname entries supplied s tasks s' :
  generate_tasks schema_error user_id group_id b64_encode b64_decode from_openssh private_key fingerprint stamp
    schema hostname entries supplied s = (Ok tasks, s') →
  NoDup (te_identifier <$> entries) →
  ∃ pending results, try_fold (pending_public b64_decode schema) [] supplied = Ok pending
    ∧ results.*1 = entries ∧ Forall (λ x, task_done schema pending hostname x.1 x.2) results
    ∧ gt_deployments tasks = omap deployment_of results
    ∧ (∀ id, id ∉ te_identifier <$> entries → bt_get id (gt_not_deployed tasks) = None)
    ∧ ∀ x, x ∈ results →
      bt_get (result_id x) (gt_public_keys tasks) = (match x.2 with inl (_, p) => Some p | inr _ => None end)
      ∧ bt_get (result_id x) (gt_not_deployed tasks)
        = (match x.2 with inl _ => None | inr reason => Some reason end).
Proof.
  unfold generate_tasks. intros (pending & s1 & [Hp ->]%stE_lift_ok & H)%stE_bind_ok Hnd.
  apply run_tasks_ok in H as (results & <- & Hall & ->).
  assert (NoDup (result_id <$> results)) as Hnd' by by rewrite <- list_fmap_compose in Hnd.
  exists pending, results. repeat (split; [done|]). split; [by rewrite fold_deployments|]. split.
  - intros id Hid. rewrite <- list_fmap_compose in Hid.
    exact (proj2 (proj1 (fold_maps _ results id Hnd') Hid)).
  - intros x Hx. exact (proj2 (fold_maps _ results (result_id x) Hnd') x Hx eq_refl).
Qed.

Lemma generate_tasks_ids schema hostname entries supplied s tasks s' :
  generate_tasks schema_error user_id group_id b64_encode b64_decode from_openssh private_key fingerprint stamp
    schema hostname entries supplied s = (Ok tasks, s') →
  NoDup (te_identifier <$> entries) →
  sd_identifier <$> gt_deployments tasks
    = List.filter (λ id, negb (is_some (bt_get id (gt_not_deployed tasks)))) (te_identifier <$> entries)
  ∧ ∀ id, id ∉ te_identifier <$> entries → bt_get id (gt_not_deployed tasks) = None.
Proof.
  intros H Hnd. destruct (generate_tasks_results _ _ _ _ _ _ _ H Hnd) as (pending & results & _ & <- & _ & -> & Hno & Hget).
  split; [|done]. rewrite <- list_fmap_compose. clear H Hnd Hno.
  induction results as [|x results IH]; [done|]. rewrite fmap_cons. cbn [List.filter].
  pose proof (Hget x ltac:(by left)) as [_ Hx]. unfold result_id in Hx. cbn [compose]. rewrite Hx.
  rewrite <- IH by (intros; apply Hget; by right).
  destruct x as [e [[k p]|reason]]; cbn; done.
Qed.

End TaskFacts.
