(* ===== verification/AuditRecord.v ===== *)
(** * The audit record of a deployment

    [crates/deploy/src/audit.rs]: what a deployment changed, and the file it
    is published as, never over another one. *)
From S2P Require Import Prelude BTree FileSystem FsUtil Deploy Text Paths.
#[local] Open Scope Z_scope.

Record Change := {
  cg_identifier : string;
  cg_action : string;
  cg_ssh_user : option string;
  cg_key_names : list string
}.
Record Event := { ev_host : string; ev_submitted_at : string; ev_changes : list Change }.

Definition change_of (previous : list (string * string)) (details : list (string * AuditDetail))
    (identifier : string) : Change :=
  let detail := bt_get identifier details in
  {| cg_identifier := identifier;
     cg_action := if bt_contains identifier previous then "replaced" else "set";
     cg_ssh_user := detail ← detail; ad_ssh_user detail;
     cg_key_names := match detail with Some detail => ad_key_names detail | None => [] end |}.

(** [event]: the clock and JSON are arguments. *)
Definition audit_event {S} (submitted_at : stE S string string) (to_json : Event → result string string)
    (host : string) (identifiers : list string) (previous : list (string * string))
    (details : list (string * AuditDetail)) : stE S string string :=
  _ ← st_guard (negb (bool_decide (identifiers = []) || (512 <? zlen identifiers))) "invalid audit change count";
  at_ ← submitted_at;
  st_lift (to_json {| ev_host := host; ev_submitted_at := at_;
                      ev_changes := change_of previous details <$> identifiers |}).

(** The part after the last dot of a name that does not only start with one. *)
Definition extension (name : string) : option string :=
  match reverse (split "." name) with
  | part :: rest => if bool_decide (rest = []) || bool_decide (rest = [""]) then None else Some part
  | [] => None
  end.

Definition is_audit_byte (b : Z) : bool := is_ascii_alphanumeric b || byte_of "._-" b.
Definition audit_destination (path text : string) : bool :=
  is_absolute path
  && is_some_and (λ name, bool_decide (extension name = Some "json")
                          && negb (starts_with "." name) && (slen name <=? 135)
                          && all_bytes is_audit_byte name) (path_file_name (components path))
  && (slen text <=? 64 * 1024).

Section WriteEvent.
Context (K : Kernel) (fault : nat → option string).
Context (group_id : string → result string (option Z)).

Definition step_error {A} (message : string) (m : stE Fs IoErr A) : stE Fs string A :=
  map_state_err (const message) m.

(** The directories down to the parent, which only root may change. *)
Fixpoint check_ancestry (ancestor : Path) (components : list Component) : stE Fs string Path :=
  match components with
  | [] => mret ancestor
  | (ParentDir | CurDir) :: _ => st_lift (Err "invalid audit ancestry")
  | component :: components =>
      let ancestor := match component with Normal name => ancestor ++ [name] | _ => [] end in
      meta ← step_error "inspect audit ancestry" (symlink_metadata fault ancestor);
      _ ← st_guard (match meta with
                    | EDir m => (m_uid m =? 0) && (Z.land (m_mode m) (oct [0; 2; 2]) =? 0)
                    | _ => false
                    end) "unsafe audit ancestry";
      check_ancestry ancestor components
  end.

(** [chown] of the group alone, and [renameat2] with [RENAME_NOREPLACE]. *)
Definition chgrp (p : Path) (gid : Z) : stE Fs IoErr unit :=
  change fault p (on_meta (λ m, {| m_uid := m_uid m; m_gid := gid; m_mode := m_mode m; m_acl := m_acl m;
                                   m_default_acl := m_default_acl m |})).
Definition rename_noreplace (src dst : Path) : stE Fs IoErr unit :=
  sys fault (λ w, if is_some (w !! dst) then Err already_exists else rename_to src dst w).

Definition publish_event (temporary path parent : Path) (group : Z) (text : string) : stE Fs string unit :=
  _ ← step_error "create audit staging file" (create_new K fault temporary (oct [6; 0; 0]));
  _ ← step_error "write audit" (write_file fault temporary (bytes text));
  _ ← step_error "write audit newline" (write_file fault temporary (bytes text ++ [10]));
  _ ← step_error "set audit group" (chgrp temporary group);
  _ ← step_error "protect audit" (chmod K fault temporary (oct [6; 4; 0]));
  _ ← step_error "sync audit" (sync_path fault temporary);
  _ ← step_error "publish audit without replacement" (rename_noreplace temporary path);
  step_error "sync audit directory" (sync_path fault parent).

(** [nonce] is the random part of the staging name. *)
Definition write_event (nonce : result unit (list Z)) (path group text : string) : stE Fs string unit :=
  _ ← st_guard (audit_destination path text) "invalid audit destination";
  group ← st_lift (group_id group);
  group ← st_lift (ok_or "audit group does not exist" group);
  parent_path ← st_lift (ok_or "audit parent missing" (path_parent (components path)));
  parent ← check_ancestry [] parent_path;
  parent_meta ← step_error "inspect audit parent" (symlink_metadata fault parent);
  _ ← st_guard (match parent_meta with
                | EDir m | EFile m _ => (m_gid m =? group) && (m_mode m =? oct [7; 5; 0])
                | _ => false
                end) "audit parent group or mode mismatch";
  nonce ← st_lift (map_err (const "audit staging randomness unavailable") nonce);
  let temporary := parent ++ [".audit-" +:+ hex_of nonce] in
  let name := default "" (path_file_name (components path)) in
  published ← attempt (publish_event temporary (parent ++ [name]) parent group text);
  _ ← (if is_ok published then mret (Ok tt)
       else attempt (E:=IoErr) (remove_file fault temporary));
  st_lift published.
End WriteEvent.
