(* ===== verification/Apply.v ===== *)
(** * Applying a batch on the target

    [crates/deploy/src/main.rs]: what the receiver does with a batch that
    passed the checks of the exchange. Target tasks and generated values
    first, then everything as one generation, then the audit record and the
    post-deployment program.

    The host's devices are a state [S], the file system is the state of
    FileSystem.v; what is read besides the generations is given by it. *)
From S2P Require Import Prelude BTree Generator Schema SchemaValidation Crypto Wire FileSystem FsUtil Deploy StorageBox Text Paths Manifest Generate Tasks AuditRecord.
#[local] Open Scope Z_scope.

Definition to_local (entry : DeployEntry) : SecretDeployment :=
  {| sd_identifier := en_identifier entry; sd_version_id := en_version_id entry;
     sd_contents_base64 := en_contents_base64 entry |}.
Definition requested_of (batch : WireBatch) : list string :=
  wt_requested_identifiers batch ++ wt_requested_tasks batch.

(** [BTreeMap::extend]. *)
Definition extend {V} (m more : list (string * V)) : list (string * V) :=
  foldl (λ m '(k, v), bt_insert k v m) m more.

(** The batch that is validated against the manifest. *)
Definition local_batch (batch : WireBatch) (tasks : GeneratedTasks) (values : GeneratedValues) : DeploymentBatch :=
  {| db_version := wt_version batch;
     db_requested_identifiers :=
       List.filter (λ identifier, negb (bt_contains identifier (gt_not_deployed tasks))) (requested_of batch);
     db_entries := (to_local <$> wt_entries batch) ++ gt_deployments tasks ++ gv_deployments values |}.

Section Apply.
Context {S : Type} {Host : GenerationHost S} {Provider : CryptoProvider S}.
Context {Backend : SshBackend S} {Box : BoxHost S}.
Context (files : World → HostFiles).
Context (schema_error : SchemaError → string).
Context (b64_encode : list Z → string) (b64_decode : string → option (list Z)).
Context (sha256 : list Z → list Z) (toml_parse : string → option (list (string * TomlValue))).
Context (generator_from_json : string → option DeployGenerator) (schema_from_json : string → result string Schema).
Context (user_id group_id : string → result string (option Z)).
Context (from_openssh : string → option Algorithm) (private_key : string → option PrivateKey).
(** Whether an OpenSSH private key is encrypted. *)
Context (encrypted : string → option bool).
Context (fingerprint : string → option string) (stamp : stE S string string).
Context (K : Kernel) (fault : nat → option string).
Context (to_json : list (string * string) → result string (list Z)).
Context (from_json : list Z → result string (list (string * string))).
Context (hash_order : list string → list string).
(** The clock's generation name and time, random bytes, the event's JSON and
    the post-deployment program. *)
Context (generation : S → string * S) (submitted_at : stE S string string).
Context (audit_json : Event → result string string) (audit_nonce : S → result unit (list Z) * S).
Context (run_program : string → stE S string bool).

Definition on_host {E A} (m : World → stE S E A) : stE (S * Fs) E A :=
  λ '(s, fs), let '(r, s) := m (fs_world fs) s in (r, (s, fs)).
Definition on_files {E A} (m : stE Fs E A) : stE (S * Fs) E A :=
  λ '(s, fs), let '(r, fs) := m fs in (r, (s, fs)).
Definition on_pure {E A} (f : S → A * S) : stE (S * Fs) E A :=
  λ '(s, fs), let '(a, s) := f s in (Ok a, (s, fs)).
Definition naming {T E A} (f : E → string) (m : stE T E A) : stE T string A := st_map f m.

Definition read_versions : stE Fs string (list (string * string)) :=
  versions ← naming (λ error, "reading the installed versions: " +:+ deploy_error_show error)
               (current_versions fault from_json (dp_root persistent));
  public ← naming (λ error, "reading the installed public information: " +:+ deploy_error_show error)
             (current_versions fault from_json (dp_root public_info));
  mret (extend versions public).

Record Receiver := {
  re_manifest : string;
  re_hostname : string;
  re_current : list (string * string);
  re_audit : option (string * string);
  re_post_deploy : option string
}.

Definition run_tasks_of (r : Receiver) (batch : WireBatch) (w : World) : stE S DeployError GeneratedTasks :=
  run_generated_tasks_with (Files := files w) schema_error user_id group_id b64_encode b64_decode from_openssh
    private_key fingerprint stamp schema_from_json (re_manifest r) (re_hostname r) (wt_tasks batch)
    (to_local <$> wt_entries batch).
Definition generate_values_of (r : Receiver) (batch : WireBatch) (w : World) : stE S DeployError GeneratedValues :=
  let _ := files w in
  run_value_generation schema_error b64_encode b64_decode sha256 toml_parse generator_from_json schema_from_json
    (re_manifest r) (re_hostname r) (wt_generate batch) (wt_derive batch) (re_current r).
Definition validate_of (r : Receiver) (local : DeploymentBatch) (w : World)
  : result DeployError (list ResolvedSecret * list (string * string)) :=
  let _ := files w in
  load_and_validate_leaving_out user_id group_id b64_decode from_openssh
    encrypted schema_from_json (re_manifest r) (re_hostname r) local.

Definition publish_both (resolved : list ResolvedSecret) : stE (S * Fs) string (list (string * string)) :=
  let '(secrets, public) := partition resolved in
  if bool_decide (secrets = []) && bool_decide (public = []) then mret []
  else
    id ← on_pure generation;
    naming deploy_error_show
      (on_files (deploy_together K fault to_json from_json hash_order persistent public_info (Some secrets)
                   (Some public) id)).

Definition record_audit (r : Receiver) (deployed : list string) (previous : list (string * string))
    (details : list (string * AuditDetail)) : stE (S * Fs) string unit :=
  audit ← on_host (λ _, audit_event submitted_at audit_json (re_hostname r) deployed previous details);
  match re_audit r with
  | Some (file, group) =>
      nonce ← on_pure audit_nonce;
      on_files (write_event K fault group_id nonce file group audit)
  | None => mret tt
  end.

Definition post_deploy (r : Receiver) : stE (S * Fs) string unit :=
  match re_post_deploy r with
  | Some program =>
      success ← naming (λ error, "secrets published, but post-deployment preparation failed: " +:+ error)
                  (on_host (λ _, run_program program));
      st_guard success "secrets published, but post-deployment preparation failed"
  | None => mret tt
  end.

Definition apply_batch (r : Receiver) (batch : WireBatch) : stE (S * Fs) string AppliedOutput :=
  tasks ← naming (λ error, "running the target tasks: " +:+ deploy_error_show error)
            (on_host (run_tasks_of r batch));
  values ← naming (λ error, "generating values: " +:+ deploy_error_show error)
             (on_host (generate_values_of r batch));
  let local := local_batch batch tasks values in
  let output versions not_deployed :=
    {| ao_versions := versions; ao_generated_public_keys := gt_public_keys tasks;
       ao_generated_records := gv_records values; ao_not_deployed := not_deployed |} in
  if bool_decide (db_requested_identifiers local = []) then
    versions ← on_files read_versions;
    mret (output versions (gt_not_deployed tasks))
  else
    '(resolved, refused) ← naming (λ error, "validating the batch against " +:+ re_manifest r +:+ ": "
                                            +:+ deploy_error_show error)
                             (on_host (λ w, st_lift (validate_of r local w)));
    let not_deployed := extend (gt_not_deployed tasks) refused in
    let deployed := List.filter (λ identifier, negb (bt_contains identifier not_deployed))
                      (db_requested_identifiers local) in
    previous ← publish_both resolved;
    _ ← record_audit r deployed previous (audit_details resolved);
    _ ← post_deploy r;
    versions ← on_files read_versions;
    mret (output versions not_deployed).

(** Before the exchange: recovery, and what the target declares. *)
Definition start (generator_json : DeployGenerator → string) (derived_json : DerivedFrom → string)
    (manifest hostname : string) : stE (S * Fs) DeployError (list (string * string) * TargetState) :=
  _ ← on_files (recover K fault persistent public_info);
  versions ← on_files (current_versions fault from_json (dp_root persistent));
  public ← on_files (current_versions fault from_json (dp_root public_info));
  let current := extend versions public in
  state ← on_host (λ w, let _ := files w in
            st_lift (load_target_state generator_json derived_json schema_from_json manifest hostname current));
  mret (current, state).
End Apply.
