(* ===== verification/ApplyFacts.v ===== *)
(** * What the receiver makes of a checked batch *)
From S2P Require Import Prelude BTree Generator Schema SchemaValidation Crypto Wire FileSystem FsUtil Deploy Handshake HandshakeFacts StorageBox Text Paths Manifest Generate GenerateFacts Tasks TasksFacts AuditRecord Apply.
#[local] Open Scope Z_scope.

Lemma filter_nodup {A} (f : A → bool) l : NoDup l → NoDup (List.filter f l).
Proof.
  induction 1 as [|x l Hx _ IH]; [constructor|]. cbn [List.filter]. destruct (f x); [|done].
  apply NoDup_cons. split; [|done]. intros Hin. apply Hx. apply list_elem_of_In, List.filter_In in Hin as [Hin _].
  by apply list_elem_of_In.
Qed.
Lemma elem_filter {A} (f : A → bool) l x : x ∈ List.filter f l ↔ x ∈ l ∧ f x = true.
Proof. by rewrite list_elem_of_In, List.filter_In, <- list_elem_of_In. Qed.

Lemma nodup_fmap_filter {A B} (g : A → B) (f : A → bool) l : NoDup (g <$> l) → NoDup (g <$> List.filter f l).
Proof.
  induction l as [|x l IH]; [done|]. rewrite fmap_cons. intros [Hx Hl]%NoDup_cons. cbn [List.filter].
  destruct (f x); [|by apply IH]. rewrite fmap_cons. apply NoDup_cons. split; [|by apply IH].
  intros (y & Hy & [Hin _]%elem_filter)%list_elem_of_fmap. apply Hx. apply list_elem_of_fmap. by exists y.
Qed.

Section ApplyFacts.
Context {S : Type} {Host : GenerationHost S} {Provider : CryptoProvider S}.
Context {Backend : SshBackend S} {Box : BoxHost S} {Files : HostFiles}.
Context (schema_error : SchemaError → string).
Context (b64_encode : list Z → string) (b64_decode : string → option (list Z)).
Context (sha256 : list Z → list Z) (toml_parse : string → option (list (string * TomlValue))).
Context (generator_from_json : string → option DeployGenerator).
Context (user_id group_id : string → result string (option Z)).
Context (from_openssh : string → option Algorithm) (private_key : string → option PrivateKey).
Context (fingerprint : string → option string) (stamp : stE S string string).
Context (json_identifier : string → option string).

(** C25: A batch that passed the checks of the exchange, and names nothing twice
    among its tasks, generated and derived values, reaches the manifest with
    exactly one value for everything that is still requested: whatever tasks
    were left out, the check that the entries match the request never
    refuses it, and no value is supplied twice. *)
Theorem applied_batch_matches batch state schema hostname installed_versions s1 tasks s2 s3 values s4 :
  valid_batch b64_decode json_identifier batch state →
  NoDup (te_identifier <$> wt_tasks batch) → NoDup (ge_identifier <$> wt_generate batch) → NoDup (wt_derive batch) →
  (∀ id, id ∈ ts_identifier <$> st_secrets state → id ∉ tt_identifier <$> st_tasks state) →
  generate_tasks schema_error user_id group_id b64_encode b64_decode from_openssh private_key fingerprint stamp
    schema hostname (wt_tasks batch) (to_local <$> wt_entries batch) s1 = (Ok tasks, s2) →
  generate_values schema_error b64_encode b64_decode sha256 toml_parse generator_from_json schema hostname
    (wt_generate batch) (wt_derive batch) installed_versions s3 = (Ok values, s4) →
  let local := local_batch batch tasks values in
  NoDup (sd_identifier <$> db_entries local) ∧ NoDup (db_requested_identifiers local)
  ∧ ∀ id, id ∈ db_requested_identifiers local ↔ id ∈ sd_identifier <$> db_entries local.
Proof.
  intros Hb Hnt Hng Hnd Hapart Ht Hv local.
  apply generate_tasks_ids in Ht as [Ht Hno]; [|done]. apply generate_values_ids in Hv.
  fold (owned (wt_generate batch)) in Hv.
  assert (∀ id, id ∈ wt_requested_identifiers batch → id ∉ te_identifier <$> wt_tasks batch) as Hdis.
  { intros id Hid%(vb_declared _ _ _ _ Hb) Htask. apply (Hapart id Hid).
    by apply (vb_declared_tasks _ _ _ _ Hb), (vb_exactly_tasks _ _ _ _ Hb). }
  assert (∀ id, id ∈ wt_requested_identifiers batch ↔
    id ∈ (en_identifier <$> wt_entries batch) ++ owned (wt_generate batch) ++ wt_derive batch) as Hex.
  { intros id. rewrite !elem_of_app. apply (vb_exactly _ _ _ _ Hb). }
  assert (sd_identifier <$> db_entries local
    = (en_identifier <$> wt_entries batch)
      ++ List.filter (λ id, negb (is_some (bt_get id (gt_not_deployed tasks)))) (te_identifier <$> wt_tasks batch)
      ++ owned (wt_generate batch) ++ wt_derive batch) as ->.
  { unfold local, local_batch. cbn [db_entries]. by rewrite !fmap_app, <- list_fmap_compose, Ht, Hv. }
  assert (∀ id, bt_contains id (gt_not_deployed tasks) = true → id ∈ te_identifier <$> wt_tasks batch) as Hleft.
  { intros id Hc. destruct (decide (id ∈ te_identifier <$> wt_tasks batch)) as [|Hn]; [done|].
    unfold bt_contains in Hc. by rewrite (Hno id Hn) in Hc. }
  assert (NoDup (owned (wt_generate batch))) as Hno' by by apply nodup_fmap_filter.
  split; [|split].
  - apply NoDup_app. split; [apply (vb_supplied _ _ _ _ Hb)|]. split.
    + intros id Hid. rewrite !elem_of_app, elem_filter. intros [[Hin _]|[Hin|Hin]].
      * apply (Hdis id); [|done]. apply Hex. rewrite elem_of_app. by left.
      * exact (owned_not_supplied _ _ _ _ _ Hb Hin Hid).
      * exact (proj1 (derived_apart _ _ _ _ _ Hb Hin) Hid).
    + apply NoDup_app. split; [by apply filter_nodup|]. split.
      * intros id [Hin _]%elem_filter Hin'. apply (Hdis id); [|done]. apply Hex. rewrite elem_of_app. by right.
      * apply NoDup_app. split; [done|]. split; [|done]. intros id Hin Hin'.
        exact (proj2 (derived_apart _ _ _ _ _ Hb Hin') Hin).
  - apply filter_nodup, NoDup_app. split; [apply (vb_requested _ _ _ _ Hb)|].
    split; [|apply (vb_requested_tasks _ _ _ _ Hb)].
    intros id Hin Hin'. by apply (Hdis id Hin), (vb_exactly_tasks _ _ _ _ Hb).
  - intros id. unfold local, local_batch, requested_of. cbn [db_requested_identifiers].
    rewrite elem_filter, !elem_of_app, elem_filter, Hex, !elem_of_app, (vb_exactly_tasks _ _ _ _ Hb).
    assert (bt_contains id (gt_not_deployed tasks) = is_some (bt_get id (gt_not_deployed tasks))) as Hc by done.
    rewrite <- Hc. split; [naive_solver|].
    intros [Hin|[[Hin Hk]|Hin]]; [|naive_solver|]; (split; [naive_solver|]);
      apply negb_true_iff, not_true_iff_false; intros Hk%Hleft; apply (Hdis id); try done;
      apply Hex; rewrite !elem_of_app; tauto.
Qed.
End ApplyFacts.
