(* ===== verification/Together.v ===== *)
(** * Deployments across two roots are atomic

    [deploy_together] of [crates/deploy/src/deploy/recovery.rs]: whatever
    calls fail and wherever a crash stops the program, consumers of the
    secret root and the public-info root are given, once recovery has run,
    both old generations or both new ones.  The new generations are what
    [built] of Deploy.v says; pruning keeps the newest generations and the
    current one. *)
From S2P Require Import Prelude BTree FileSystem FsUtil Text Deploy.
#[local] Open Scope Z_scope.

(** ** Names *)
Lemma valid_generation_plain id : valid_generation id = true → starts_with ".staging-" id = false.
Proof.
  intros H. destruct (starts_with ".staging-" id) eqn:E; [|done].
  unfold starts_with in E. destruct (strip_prefix ".staging-" id) as [x|] eqn:Ex; [|done].
  apply strip_prefix_Some in Ex as ->. by rewrite valid_not_staging in H.
Qed.

(** No service takes one of the deployer's own names. *)
Definition plain (entries : list ValidatedSecret) : Prop :=
  ∀ entry, entry ∈ entries → starts_with "." (rs_service (vs_spec entry)) = false.

(** ** Pruning *)
Definition prune_paths (root : Path) (id : string) (q : Path) : Prop :=
  ∃ name, name ≠ id ∧ under (store root ++ [name]) q.

Lemma keep_newest_keeps keep names x : x ∈ keep → x ∈ keep_newest keep names.
Proof.
  revert keep. induction names as [|name names IH]; intros keep H; cbn; [done|].
  repeat case_bool_decide; [done|by apply IH|]. apply IH. elem.
Qed.

Lemma frames_list_generations fault root id names :
  valid_generation id = true →
  frames (prune_paths root id) (list_generations fault root names).
Proof.
  intros Hv. induction names as [|name names IH]; cbn [list_generations]; [frame|].
  apply frames_bind; [frame|intros _]. apply frames_bind; [frame|intros metadata].
  destruct (starts_with ".staging-" name) eqn:E; [|frame].
  apply frames_bind; [|done]. destruct (is_dir metadata); [|frame].
  apply frames_io, frames_remove_dir_all. intros q Hq. exists name. split; [|done].
  intros ->. by rewrite valid_generation_plain in E.
Qed.

Lemma frames_remove_old fault root id keep names :
  id ∈ keep → frames (prune_paths root id) (remove_old fault root keep names).
Proof.
  intros Hk. induction names as [|name names IH]; cbn [remove_old]; [frame|].
  apply frames_bind; [|done]. case_bool_decide as Hn; [frame|].
  apply frames_io, frames_remove_dir_all. intros q Hq. exists name. split; [|done]. by intros ->.
Qed.

Lemma frames_prune K fault d id :
  valid_generation id = true → frames (prune_paths (dp_root d) id) (prune K fault d id).
Proof.
  intros Hv. unfold prune, prune_generations. apply frames_bind; [frame|intros names].
  apply frames_bind; [by apply frames_list_generations|intros gens]. cbv zeta.
  apply frames_bind; [|intros _; frame].
  apply frames_remove_old, keep_newest_keeps. elem.
Qed.

(** ** The steps of [publish] *)
Section Publish.
Context (K : Kernel) (fault : nat → option string) (HK : kernel_ok K).
Context (to_json : list (string * string) → result string (list Z)).
Context (from_json : list Z → result string (list (string * string))).
Context (hash_order : list string → list string).
Context (Hcodec : codec_ok to_json from_json).
Context (Hhash : ∀ l s, s ∈ hash_order l → s ∈ l).
Context (S P : Path) (Hapart : apart S P).
Context (id : string) (Hid : valid_generation id = true).

Notation keeps_view := (keeps_view S P).
Notation built := (built from_json).

Lemma services_plain entries s :
  plain entries → s ∈ services_of hash_order entries → starts_with "." s = false.
Proof.
  intros Hp Hs. apply Hhash, elem_of_remove_dups, list_elem_of_fmap in Hs as (e & -> & He). auto.
Qed.

(** What [publish] starts from: both roots recovered, and [id] unused. *)
Record rested (w : World) : Prop := {
  re_wf : wf_world w;
  re_secrets : sound S w;
  re_public : sound P w;
  re_fresh_secrets : pointer S w ≠ Some (target id);
  re_fresh_public : pointer P w ≠ Some (target id);
  re_settled : effective S P w = pointer P w;
  re_modes_secrets q : entry_ok (tree_at S (pointer S w) w q);
  re_modes_public q : entry_ok (tree_at P (pointer P w) w q);
}.

(** Both kinds of paths, from the root down. *)
Definition below_root (q : Path) : Prop :=
  q = [".current"] ∨ ∃ x, x ≠ id ∧ valid_generation x = true
    ∧ ((∃ r, q = ".generations" :: x :: r) ∨ q = [".current-" +:+ x]).

Lemma relevant_below w q :
  rested w → relevant S P w q → ∃ root r, (root = S ∨ root = P) ∧ q = root ++ r ∧ below_root r.
Proof.
  assert (∀ root t q, under (root ++ t) q → ∃ r, q = root ++ t ++ r) as Hu.
  { intros root t q' [r ->]%under_spec. exists r. by rewrite app_assoc. }
  intros Hw [->|[->|[(x & Hx & ->)|[(t & Ht & (r & ->)%Hu)|(t & Ht & (r & ->)%Hu)]]]].
  - exists S, [".current"]. split_and!; [by left|done|by left].
  - exists P, [".current"]. split_and!; [by right|done|by left].
  - destruct (re_secrets _ Hw _ Hx) as (y & [= <-] & Hv). exists P, [".current-" +:+ x].
    split_and!; [by right|done|]. right. exists x. split_and!; [|done|by right].
    intros ->. by apply (re_fresh_secrets _ Hw).
  - destruct (re_secrets _ Hw _ Ht) as (x & -> & Hv). eexists S, _.
    split_and!; [by left|done|]. right. exists x. split_and!; [|done|by left; exists r].
    intros ->. by apply (re_fresh_secrets _ Hw).
  - eexists P, _. split_and!; [by right|done|]. right.
    apply effective_cases in Ht as [(x & -> & Hs & _)|[Hs _]]; [| |apply Hw].
    + destruct (re_secrets _ Hw _ Hs) as (y & [= <-] & Hv).
      exists x. split_and!; [|done|by left; exists r]. intros ->. by apply (re_fresh_secrets _ Hw).
    + destruct (re_public _ Hw _ Hs) as (x & -> & Hv).
      exists x. split_and!; [|done|by left; exists r]. intros ->. by apply (re_fresh_public _ Hw).
Qed.

(** The paths of [prepare] from the root down. *)
Definition prepared_tail (r : Path) : Prop :=
  r = [".generations"] ∨ (∃ r', r = ".generations" :: (".staging-" +:+ id) :: r')
  ∨ (∃ r', r = ".generations" :: id :: r') ∨ r = [".current-" +:+ id]
  ∨ (∃ s, starts_with "." s = false ∧ r = [s]).

Lemma prepare_paths_tail root entries q :
  plain entries → prepare_paths root id (services_of hash_order entries) q →
  ∃ r, q = root ++ r ∧ prepared_tail r.
Proof.
  intros Hp Hq.
  assert (∀ t r, under (root ++ t) r → ∃ r', r = root ++ t ++ r') as Hu.
  { intros t q' [r ->]%under_spec. exists r. by rewrite app_assoc. }
  unfold prepared_tail.
  destruct Hq as [->|[(r & ->)%Hu|[(r & ->)%Hu|[->|(s & Hs & ->)]]]];
    (eexists; split; [done|]); cbn; eauto 10.
  do 4 right. exists s. split; [by eapply services_plain|done].
Qed.

Lemma tail_not_below r : prepared_tail r → ¬ below_root r.
Proof.
  intros Hr Hb. destruct Hb as [->|(x & Hx & Hv & Hb)].
  - destruct Hr as [?|[[? ?]|[[? ?]|[?|(s & Hs & [= <-])]]]]; done.
  - destruct Hb as [[r' ->]| ->].
    + destruct Hr as [?|[[? ?]|[[? ?]|[?|(s & Hs & ?)]]]]; by simplify_eq.
    + destruct Hr as [?|[[? ?]|[[? ?]|[E|(s & Hs & [= <-])]]]]; try done.
      injection E as E. exact (Hx E).
Qed.

Lemma apart_ne : S ≠ P.
Proof.
  intros ->. destruct Hapart as [H _]. pose proof (strip_app P []) as Hx.
  rewrite app_nil_r in Hx. congruence.
Qed.

Lemma same_root root root' r r' :
  root = S ∨ root = P → root' = S ∨ root' = P → root ++ r = root' ++ r' → root = root' ∧ r = r'.
Proof.
  intros H H' E. destruct (decide (root = root')) as [->|Hne]; [by apply app_inv_head in E|].
  destruct H as [-> | ->], H' as [-> | ->]; try done; [|symmetry in E];
    by apply (apart_roots S P Hapart) in E.
Qed.

(** Every path the view depends on lies apart from what [prepare] touches. *)
Lemma view_not_prepared root entries w q :
  rested w → root = S ∨ root = P → plain entries →
  relevant S P w q → ¬ prepare_paths root id (services_of hash_order entries) q.
Proof.
  intros Hw Hroot Hpl (root' & r & Hroot' & -> & Hr)%relevant_below (r' & E & Hr')%prepare_paths_tail;
    [|done..].
  apply same_root in E as [-> ->]; [|done..]. by eapply tail_not_below.
Qed.

Lemma tree_at_keeps root t w w' q : keeps root t w w' → tree_at root t w' q = tree_at root t w q.
Proof. unfold tree_at. destruct t as [t|]; [|done]. intros H. by apply H. Qed.

Lemma pointer_current w w' : w' !! current P = w !! current P → pointer P w' = pointer P w.
Proof. intros H. unfold pointer. by rewrite H. Qed.

Lemma rested_keeps w w' : rested w → keeps_view w w' → wf_world w' → rested w'.
Proof.
  intros Hw [(H1 & H2 & H3 & H4) H5%pointer_current] Hwf. rewrite (re_settled _ Hw) in H2, H4.
  constructor; rewrite ?H1, ?H2, ?H5; try apply Hw; [done|intros t..|congruence| |].
  - rewrite H1. apply Hw.
  - rewrite H5. apply Hw.
  - intros q. rewrite (tree_at_keeps _ _ _ _ q H3). apply Hw.
  - intros q. rewrite (tree_at_keeps _ _ _ _ q H4). apply Hw.
Qed.

(** What a successful [prepare] leaves for [switch]. *)
Definition ready (root : Path) (entries : list ValidatedSecret) (w w' : World) : Prop :=
  w' !! pending_pointer root id = Some (ELink (target id))
  ∧ built entries (tree_at root (pointer root w) w) (tree_at root (Some (target id)) w').

Lemma prepare_spec root d entries w :
  root = S ∨ root = P → dp_root d = root → plain entries → destinations_ok entries → rested w →
  spec (keeps_view w) w (prepare K fault to_json from_json hash_order d entries id) (λ r w',
    keeps_view w w' ∧ rested w'
    ∧ step_in (prepare_paths root id (services_of hash_order entries)) w w'
    ∧ ∀ previous, r = Ok previous →
        previous = read_versions from_json (tree_at root (pointer root w) w) ∧ ready root entries w w').
Proof.
  intros Hroot Hd Hpl Hdest Hw.
  assert (sound root w ∧ ∀ q, entry_ok (tree_at root (pointer root w) w q)) as [Hs Hm].
  { destruct Hroot as [-> | ->]; split; apply Hw. }
  assert (∀ w', step_in (prepare_paths root id (services_of hash_order entries)) w w' →
    keeps_view w w') as Hk.
  { intros w'. apply keeps_view_outside. intros q. by apply view_not_prepared. }
  eapply spec_mono; [apply (spec_and _ (λ _, True) _ _ _ _
    (frames_prepare K fault to_json from_json hash_order (prepare_paths root id (services_of hash_order entries))
       d entries id ltac:(by rewrite Hd) w)
    (prepare_ok K fault HK to_json from_json hash_order d entries id w Hcodec (re_wf _ Hw)
       ltac:(by rewrite Hd) ltac:(by rewrite Hd) Hdest))|..].
  - intros w' [Hst _]. auto.
  - intros r w' [Hst Hok]. split_and!; [auto| |done|].
    + apply (rested_keeps w); [done|auto|]. apply Hst, Hw.
    + intros previous Hr. destruct (Hok previous Hr) as (H1 & H2 & H3). rewrite Hd in *.
      split; [done|]. split; [done|]. eapply built_ext; [..|exact H3]; [done|].
      intros q. unfold tree_at, generation, target. by rewrite <- app_assoc.
Qed.

(** ** The new view *)
Definition replaced (root : Path) (entries : option (list ValidatedSecret)) (t0 t1 : option Path)
  (w0 w1 : World) : Prop :=
  match entries with
  | Some entries => t1 = Some (target id) ∧ built entries (tree_at root t0 w0) (tree_at root t1 w1)
  | None => t1 = t0 ∧ ∀ q, tree_at root t0 w1 q = tree_at root t0 w0 q
  end.
Definition new_view (se pe : option (list ValidatedSecret)) (w0 w1 : World) : Prop :=
  replaced S se (pointer S w0) (pointer S w1) w0 w1
  ∧ replaced P pe (effective S P w0) (effective S P w1) w0 w1.

Lemma replaced_after root entries t0 t1 w0 w1 w2 :
  (∀ q, tree_at root t1 w2 q = tree_at root t1 w1 q) →
  replaced root entries t0 t1 w0 w1 → replaced root entries t0 t1 w0 w2.
Proof.
  intros H. destruct entries as [entries|]; cbn.
  - intros [-> Hb]. split; [done|]. by eapply built_ext; [..|exact Hb].
  - intros [-> Hb]. split; [done|]. intros q. by rewrite H.
Qed.

Lemma replaced_before root entries t0 t1 w0 w0' w1 :
  (∀ q, tree_at root t0 w0' q = tree_at root t0 w0 q) →
  replaced root entries t0 t1 w0' w1 → replaced root entries t0 t1 w0 w1.
Proof.
  intros H. destruct entries as [entries|]; cbn.
  - intros [-> Hb]. split; [done|]. by eapply built_ext; [..|exact Hb].
  - intros [-> Hb]. split; [done|]. intros q. by rewrite Hb.
Qed.

Lemma new_view_after se pe w0 w1 w2 :
  new_view se pe w0 w1 → same_view S P w1 w2 → new_view se pe w0 w2.
Proof.
  intros [H1 H2] (HS & HP & KS & KP). split; rewrite ?HS, ?HP;
    (eapply replaced_after; [|done]); intros q; by apply tree_at_keeps.
Qed.

Lemma new_view_before se pe w0 w1 w2 :
  same_view S P w0 w1 → new_view se pe w1 w2 → new_view se pe w0 w2.
Proof.
  intros (HS & HP & KS & KP) [H1 H2]. rewrite HS in H1. rewrite HP in H2.
  split; (eapply replaced_before; [|done]); intros q; by apply tree_at_keeps.
Qed.

(** ** The commit point *)
(** A root after the preparations: only [id] may be pending. *)
Definition prepared (root : Path) (entries : option (list ValidatedSecret)) (w0 w : World) : Prop :=
  (∀ x, w !! pending_pointer root x = None ∨ x = id ∧ is_Some entries)
  ∧ ∀ es, entries = Some es → ready root es w0 w.

Definition switch_paths (root : Path) (q : Path) : Prop :=
  q = pending_pointer root id ∨ q = current root.

Lemma switch_outside root r q :
  root = S ∧ r = P ∨ root = P ∧ r = S → ¬ switch_paths root (r ++ q).
Proof.
  intros Hr [E|E]; unfold pending_pointer, current in E; destruct Hr as [[-> ->]|[-> ->]];
    [symmetry in E| |symmetry in E|]; by apply (apart_roots S P Hapart) in E.
Qed.

Lemma switch_tree root x q : ¬ switch_paths root (root ++ target x ++ q).
Proof. intros [E|E]; apply app_inv_head in E; done. Qed.

Lemma switched root w u w' :
  w !! pending_pointer root id = Some (ELink (target id)) →
  rename_to (pending_pointer root id) (current root) w = Ok (u, w') →
  pointer root w' = Some (target id) ∧ w' !! pending_pointer root id = None
  ∧ step_in (switch_paths root) w w'.
Proof.
  intros Hl H. apply rename_link with (t := target id) in H as [-> Hs];
    [|apply pending_current_apart|done].
  split_and!; [unfold pointer; by rewrite lookup_insert_eq| |done].
  rewrite lookup_insert_ne; [apply lookup_delete_eq|].
  intros E. apply app_inv_head in E. done.
Qed.

Lemma effective_no_pending w : no_pending P w → effective S P w = pointer P w.
Proof.
  intros H. unfold effective. repeat case_match; try done. rewrite H in *. by rewrite andb_false_r in *.
Qed.

Lemma tree_outside_switch root r t w w' :
  sound r w → step_in (switch_paths root) w w' → root = S ∧ r = P ∨ root = P ∧ r = S →
  ∀ q, tree_at r t w' q = tree_at r t w q.
Proof.
  intros _ [Hs _] Hr q. destruct t as [t|]; [|done]. apply Hs. by apply switch_outside.
Qed.

Lemma switch_gone root entries w0 w w' :
  prepared root entries w0 w → w' !! pending_pointer root id = None →
  step_in (switch_paths root) w w' → no_pending root w'.
Proof.
  intros [Hp _] Hn [Hs _] x. destruct (decide (x = id)) as [->|Hne]; [done|].
  rewrite Hs; [by destruct (Hp x) as [|[? _]]|].
  intros [E%pending_inj|E]; [done|]. apply app_inv_head in E. done.
Qed.

Lemma commit_secrets es pe w0 w u w' :
  rested w0 → keeps_view w0 w → prepared S (Some es) w0 w → prepared P pe w0 w →
  rename_to (pending_pointer S id) (current S) w = Ok (u, w') →
  new_view (Some es) pe w0 w' ∧ pointer S w' = Some (target id) ∧ no_pending S w'
  ∧ step_in (switch_paths S) w w'.
Proof.
  intros Hw0 [(HS & HP & KS & KP) Hcp] HpS [HpP HrP] H.
  destruct (proj2 HpS es eq_refl) as [Hl Hb].
  destruct (switched _ _ _ _ Hl H) as (Hptr & Hgone & Hst).
  assert (∀ q, w' !! (P ++ q) = w !! (P ++ q)) as Hout.
  { intros q. apply Hst. apply switch_outside. by left. }
  assert (pointer P w' = pointer P w0) as HptrP.
  { unfold pointer, current in *. by rewrite Hout, Hcp. }
  split_and!; [|done|by eapply switch_gone|done]. split.
  - cbn. split; [done|]. rewrite Hptr. eapply built_ext; [..|exact Hb]; [done|].
    intros q. apply Hst, switch_tree.
  - rewrite (effective_committed _ _ _ _ Hptr), (re_settled _ Hw0).
    assert (w' !! pending_pointer P id = w !! pending_pointer P id) as -> by apply Hout.
    destruct pe as [ps|]; cbn.
    + destruct (HrP ps eq_refl) as [HlP HbP]. rewrite HlP. cbn.
      rewrite bool_decide_eq_true_2 by done. split; [done|].
      eapply built_ext; [..|exact HbP]; [done|]. intros q. apply Hout.
    + destruct (HpP id) as [Hn|[_ [? [=]]]]. rewrite Hn. cbn. split; [by rewrite HptrP|].
      intros q. rewrite (re_settled _ Hw0) in KP.
      rewrite <- (tree_at_keeps _ _ _ _ q KP). unfold tree_at. destruct (pointer P w0); [|done].
      apply Hout.
Qed.

Lemma commit_public ps w0 w u w' :
  rested w0 → keeps_view w0 w → prepared S None w0 w → prepared P (Some ps) w0 w →
  rename_to (pending_pointer P id) (current P) w = Ok (u, w') →
  new_view None (Some ps) w0 w' ∧ no_pending P w' ∧ pointer P w' = Some (target id)
  ∧ step_in (switch_paths P) w w'.
Proof.
  intros Hw0 [(HS & HP & KS & KP) Hcp] HpS HpP H.
  destruct (proj2 HpP ps eq_refl) as [Hl Hb].
  destruct (switched _ _ _ _ Hl H) as (Hptr & Hgone & Hst).
  assert (∀ q, w' !! (S ++ q) = w !! (S ++ q)) as Hout.
  { intros q. apply Hst. apply switch_outside. by right. }
  assert (no_pending P w') as Hnp by (by eapply switch_gone).
  split_and!; [|done|done|done]. split.
  - cbn. rewrite <- HS. split; [unfold pointer, current; by rewrite Hout|].
    intros q. rewrite HS, <- (tree_at_keeps _ _ _ _ q KS). unfold tree_at.
    destruct (pointer S w0); [|done]. apply Hout.
  - cbn. rewrite (effective_no_pending _ Hnp), Hptr, (re_settled _ Hw0). split; [done|].
    eapply built_ext; [..|exact Hb]; [done|]. intros q. apply Hst, switch_tree.
Qed.

(** ** [publish], step by step *)
Context (secrets public : Deployer) (HdS : dp_root secrets = S) (HdP : dp_root public = P).

Lemma spec_switch I w d s (Q : result DeployError () → World → Prop) :
  I w →
  (∀ u w', rename_to (pending_pointer (dp_root d) id) (current (dp_root d)) w = Ok (u, w') →
     I w' ∧ ∀ r, Q r w') →
  (∀ e, Q (Err e) w) →
  spec I w (map_state_err (during s) (switch fault d id)) Q.
Proof.
  intros HI Hok He. apply spec_map_err, spec_bind, spec_map_err, spec_sys.
  - intros [] w' H. destruct (Hok _ _ H) as [H1 H2]. split; [done|]. cbn [map_err].
    eapply spec_mono; [apply (spec_frames_nothing w'); frame|by intros ? ->|].
    intros r w'' ->. apply H2.
  - intros e _. apply He.
Qed.

Lemma prepared_none root w0 w : no_pending root w → prepared root None w0 w.
Proof. intros H. split; [|done]. intros x. left. apply H. Qed.

Lemma prepare_pending root r entries x :
  plain entries → (root = S ∨ root = P) → (r = S ∨ r = P) → x ≠ id ∨ root ≠ r →
  ¬ prepare_paths root id (services_of hash_order entries) (pending_pointer r x).
Proof.
  intros Hpl Hroot Hr Hx (t & E & Ht)%prepare_paths_tail; [|done].
  apply same_root in E as [-> <-]; [|done..]. destruct Hx as [Hx|]; [|done].
  destruct Ht as [?|[[? ?]|[[? ?]|[E|(s & Hs & [= <-])]]]]; try done.
  injection E as E. exact (Hx E).
Qed.

Definition admissible (o : option (list ValidatedSecret)) : Prop :=
  ∀ entries, o = Some entries → plain entries ∧ destinations_ok entries.
Definition versions_at (root : Path) (w : World) : list (string * string) :=
  read_versions from_json (tree_at root (pointer root w) w).

Lemma stage_public w0 pe s :
  rested w0 → no_pending S w0 → no_pending P w0 → admissible pe →
  spec (keeps_view w0) w0
    match pe with
    | Some entries =>
        previous ← map_state_err (during s) (prepare K fault to_json from_json hash_order public entries id);
        mret (extend_versions previous [])
    | None => mret []
    end
    (λ r w, keeps_view w0 w ∧ rested w ∧ ∀ previous, r = Ok previous →
       previous = match pe with Some _ => extend_versions (versions_at P w0) [] | None => [] end
       ∧ no_pending S w ∧ prepared P pe w0 w).
Proof.
  intros Hw HnS HnP Hpe. destruct pe as [ps|].
  - destruct (Hpe ps eq_refl) as [Hpl Hdest].
    apply spec_bind, spec_map_err. eapply spec_mono;
      [eapply (prepare_spec P); [by right|done..]|done|].
    intros r w (Hk & Hr & [Hst _] & Hok). destruct r as [previous|e]; cbn [map_err]; [|by split_and!].
    destruct (Hok previous eq_refl) as [-> Hready]. apply spec_ret.
    do 2 (split; [done|]). intros ? [= <-]. split_and!; [done| |].
    + intros x. rewrite Hst; [done|]. apply prepare_pending; [done|by right|by left|right].
      by apply not_eq_sym, apart_ne.
    + split; [|by intros ? [= <-]]. intros x. destruct (decide (x = id)) as [->|Hx]; [by right|left].
      rewrite Hst; [done|]. apply prepare_pending; auto.
  - apply spec_ret. split; [apply keeps_view_refl|]. split; [done|]. intros ? [= <-].
    split_and!; [done|done|by apply prepared_none].
Qed.

(** The view is the old or the new one, and the pointers are sound. *)
Definition either se pe (w0 w : World) : Prop := same_view S P w0 w ∨ new_view se pe w0 w.
Definition steady (w : World) : Prop := wf_world w ∧ sound S w ∧ sound P w.

Lemma either_old se pe w0 w : keeps_view w0 w → either se pe w0 w.
Proof. intros [H _]. by left. Qed.
Lemma rested_steady w : rested w → steady w.
Proof. intros H. split_and!; apply H. Qed.

(** Where the commit point leaves the roots. *)
Record committed se pe (w0 w : World) : Prop := {
  co_view : new_view se pe w0 w;
  co_steady : steady w;
  co_pointer : pointer S w = Some (target id);
  co_secrets : no_pending S w;
  co_public x : w !! pending_pointer P x = None ∨ x = id ∧ is_Some pe;
  co_link : is_Some pe → w !! pending_pointer P id = Some (ELink (target id));
}.

Lemma switch_steady root w w' :
  step_in (switch_paths root) w w' → steady w → pointer root w' = Some (target id) →
  root = S ∨ root = P → steady w'.
Proof.
  intros Hst (Hwf & HS & HP) Hptr Hroot.
  assert (∀ r t, (r = S ∨ r = P) → pointer r w' = Some t → sound r w →
    ∃ x, t = target x ∧ valid_generation x = true) as Hsound.
  { intros r t Hr Ht Hs. destruct (decide (r = root)) as [->|Hne].
    - rewrite Hptr in Ht. injection Ht as <-. eauto.
    - apply Hs. rewrite <- Ht. symmetry. unfold pointer. destruct Hst as [Hst _]. rewrite Hst; [done|].
      apply switch_outside. destruct Hroot as [-> | ->], Hr as [-> | ->]; tauto. }
  split_and!; [by apply Hst|intros t Ht..]; [apply (Hsound S)|apply (Hsound P)]; auto.
Qed.

Lemma stage_secrets w0 w es pe previous s s' :
  rested w0 → admissible (Some es) → keeps_view w0 w → rested w → no_pending S w →
  prepared P pe w0 w →
  spec (either (Some es) pe w0) w
    (new ← map_state_err (during s) (prepare K fault to_json from_json hash_order secrets es id);
     _ ← map_state_err (during s') (switch fault secrets id);
     mret (extend_versions new previous))
    (λ r w', either (Some es) pe w0 w' ∧ steady w' ∧ ∀ v, r = Ok v →
       v = extend_versions (versions_at S w0) previous ∧ committed (Some es) pe w0 w').
Proof.
  intros Hw0 Hes Hk Hw HnS HpP. destruct (Hes es eq_refl) as [Hpl Hdest].
  assert (∀ w', keeps_view w w' → either (Some es) pe w0 w') as Hold.
  { intros w' H. eapply either_old, keeps_view_trans; done. }
  apply spec_bind, spec_map_err. eapply spec_mono;
    [eapply (prepare_spec S); [by left|done..]|done|].
  intros r w1 (Hk1 & Hw1 & [Hst _] & Hok). pose proof (Hold _ Hk1) as He1.
  destruct r as [new|e]; cbn [map_err]; [|split_and!; [done|by apply rested_steady|done]].
  destruct (Hok new eq_refl) as [-> Hready].
  assert (keeps_view w0 w1) as Hk01 by (eapply keeps_view_trans; done).
  assert (∀ q, tree_at S (pointer S w0) w q = tree_at S (pointer S w0) w0 q) as Htree.
  { intros q. apply tree_at_keeps. apply Hk. }
  assert (pointer S w = pointer S w0) as HpS by apply Hk.
  assert (prepared S (Some es) w0 w1) as HprS.
  { split.
    - intros x. destruct (decide (x = id)) as [->|Hx]; [by right|left].
      rewrite Hst; [done|]. apply prepare_pending; auto.
    - intros ? [= <-]. destruct Hready as [Hl Hb]. split; [done|]. rewrite HpS in Hb.
      by eapply built_ext; [..|exact Hb]. }
  assert (∀ q, w1 !! pending_pointer P q = w !! pending_pointer P q) as HpendP.
  { intros x. apply Hst. apply prepare_pending; [done|by left|by right|right]. by apply apart_ne. }
  assert (prepared P pe w0 w1) as HprP.
  { destruct HpP as [Hp Hr]. split; [intros x; by rewrite HpendP|].
    intros ps Hps. destruct (Hr ps Hps) as [Hl Hb]. split; [by rewrite HpendP|].
    eapply built_ext; [..|exact Hb]; [done|]. intros q. apply Hst.
    intros (t & E & Ht)%prepare_paths_tail; [|done].
    symmetry in E. by apply (apart_roots S P Hapart) in E. }
  apply spec_bind, spec_switch; [done| |intros e; split_and!; [done|by apply rested_steady|done]].
  intros u w2 H. rewrite HdS in H.
  destruct (commit_secrets _ _ _ _ _ _ Hw0 Hk01 HprS HprP H) as (Hv & Hptr & Hnone & Hst2).
  assert (either (Some es) pe w0 w2) as He2 by by right.
  assert (steady w2) as Hs2 by (eapply switch_steady; eauto using rested_steady).
  split; [done|]. intros [[]|e]; [|by split_and!]. apply spec_ret. do 2 (split; [done|]).
  intros v [= <-]. split.
  { f_equal. unfold versions_at. rewrite HpS. by apply read_versions_ext. }
  assert (∀ x, w2 !! pending_pointer P x = w1 !! pending_pointer P x) as HpendP2.
  { intros x. apply Hst2, switch_outside. by left. }
  constructor; [done..| |].
  - intros x. rewrite HpendP2. apply HprP.
  - intros [ps ->]. rewrite HpendP2. by destruct (proj2 HprP ps eq_refl).
Qed.

(** Both roots are switched; pruning leaves it at that. *)
Record finished se pe (w0 w : World) : Prop := {
  fi_view : new_view se pe w0 w;
  fi_steady : steady w;
  fi_secrets : no_pending S w;
  fi_public : no_pending P w;
  fi_pointer_secrets : is_Some se → pointer S w = Some (target id);
  fi_pointer_public : is_Some pe → pointer P w = Some (target id);
}.

Lemma finish_public se ps w0 w s :
  is_Some se → committed se (Some ps) w0 w →
  spec (either se (Some ps) w0) w (map_state_err (during s) (switch fault public id)) (λ r w',
    either se (Some ps) w0 w' ∧ steady w' ∧ (r = Ok tt → finished se (Some ps) w0 w')).
Proof.
  intros Hse [Hv Hs Hptr Hnone Hpub Hl].
  assert (either se (Some ps) w0 w) as He by by right.
  apply spec_switch; [done| |intros e; by split_and!]. intros u w' H. rewrite HdP in H.
  destruct (forward_keeps S P Hapart w id u w' Hptr ltac:(split; auto) H) as (Hv' & HP & Hst & Hn).
  assert (new_view se (Some ps) w0 w') as Hnew by (by eapply new_view_after).
  assert (steady w') as Hs' by (apply (switch_steady P w w' Hst Hs HP); by right).
  split; [by right|]. intros r. split_and!; [by right|done|]. intros _.
  constructor; [done..| | |intros _; destruct Hv' as [-> _]; done|done].
  - intros x. destruct Hst as [Hst _]. rewrite Hst; [done|]. apply switch_outside. by right.
  - intros x. destruct (decide (x = id)) as [->|Hx]; [done|]. destruct Hst as [Hst _].
    rewrite Hst; [by destruct (Hpub x) as [|[? _]]|].
    intros [E%pending_inj|E]; [done|]. apply app_inv_head in E. done.
Qed.

Lemma finish_public_alone ps w0 w s :
  rested w0 → keeps_view w0 w → rested w → no_pending S w → prepared P (Some ps) w0 w →
  spec (either None (Some ps) w0) w (map_state_err (during s) (switch fault public id)) (λ r w',
    either None (Some ps) w0 w' ∧ steady w' ∧ (r = Ok tt → finished None (Some ps) w0 w')).
Proof.
  intros Hw0 Hk Hw HnS HpP. assert (either None (Some ps) w0 w) as He by by apply either_old.
  apply spec_switch; [done| |intros e; split_and!; [done|by apply rested_steady|done]].
  intros u w' H. rewrite HdP in H.
  destruct (commit_public _ _ _ _ _ Hw0 Hk (prepared_none _ _ _ HnS) HpP H) as (Hv & Hn & Hptr & Hst).
  assert (steady w') as Hs' by (eapply (switch_steady P); eauto using rested_steady).
  split; [by right|]. intros r. split_and!; [by right|done|]. intros _.
  constructor; [done..| |done|by intros [? [=]]|done].
  intros x. destruct Hst as [Hst _]. rewrite Hst; [done|]. apply switch_outside. by right.
Qed.

Lemma view_not_pruned root w q :
  root = S ∨ root = P → pointer root w = Some (target id) → no_pending P w → steady w →
  relevant S P w q → ¬ prune_paths root id q.
Proof.
  intros Hroot Hptr Hn (_ & HS & HP) Hr (name & Hne & (r & ->)%under_spec).
  unfold store in Hr. rewrite <- !app_assoc in Hr. cbn in Hr.
  assert (∀ r' t, (r' = S ∨ r' = P) → root ++ ".generations" :: name :: r = r' ++ t →
    root = r' ∧ t = ".generations" :: name :: r) as Hsame.
  { intros r' t Hr' E. by apply same_root in E as [-> <-]. }
  assert (∀ r' t, (r' = S ∨ r' = P) → pointer r' w = Some t →
    ¬ under (r' ++ t) (root ++ ".generations" :: name :: r)) as Htree.
  { intros r' t Hr' Ht [r'' Hu]%under_spec. rewrite <- app_assoc in Hu.
    destruct (Hsame _ _ Hr' Hu) as [<- E]. rewrite Hptr in Ht. injection Ht as <-.
    injection E as E _. done. }
  destruct Hr as [E|[E|[(x & _ & E)|[(t & Ht & Hu)|(t & Ht & Hu)]]]].
  - by destruct (Hsame S _ ltac:(by left) E).
  - by destruct (Hsame P _ ltac:(by right) E).
  - by destruct (Hsame P _ ltac:(by right) E).
  - apply (Htree S t); auto.
  - rewrite effective_no_pending in Ht by done. apply (Htree P t); auto.
Qed.

Lemma finish_prune se pe root d w0 w s :
  root = S ∨ root = P → dp_root d = root → pointer root w = Some (target id) →
  finished se pe w0 w →
  spec (finished se pe w0) w (map_state_err (during s) (prune K fault d id))
    (λ _ w', finished se pe w0 w').
Proof.
  intros Hroot Hd Hptr Hf.
  assert (∀ w', step_in (prune_paths root id) w w' → finished se pe w0 w') as Hstep.
  { intros w' Hst. destruct Hf as [Hv Hs HnS HnP HpS HpP].
    assert (keeps_view w w') as Hk.
    { eapply keeps_view_outside; [|exact Hst]. intros q. by apply view_not_pruned. }
    assert (∀ r x, (r = S ∨ r = P) → w' !! pending_pointer r x = w !! pending_pointer r x) as Hpend.
    { intros r x Hr. apply Hst. intros (name & _ & (t & E)%under_spec).
      unfold store, pending_pointer in E. rewrite <- !app_assoc in E.
      apply same_root in E as [_ E]; done. }
    destruct (keeps_view_sound _ _ _ _ Hk (proj1 (proj2 Hs)) (proj2 (proj2 Hs))) as [HS' HP'].
    constructor.
    - eapply new_view_after; [done|]. apply Hk.
    - split_and!; [apply Hst, Hs|done|done].
    - intros x. rewrite Hpend; auto.
    - intros x. rewrite Hpend; auto.
    - intros H. destruct Hk as [[-> _] _]. auto.
    - intros H. destruct Hk as [_ Hk%pointer_current]. rewrite Hk. auto. }
  apply spec_map_err. eapply spec_mono; [apply (frames_prune K fault d id Hid w)|..].
  - rewrite Hd. apply Hstep.
  - intros r w' Hst. rewrite Hd in Hst. auto.
Qed.

Definition versions_before (se pe : option (list ValidatedSecret)) (w0 : World)
  : list (string * string) :=
  let previous := match pe with Some _ => extend_versions (versions_at P w0) [] | None => [] end in
  match se with Some _ => extend_versions (versions_at S w0) previous | None => previous end.

(** The last three steps. *)
Lemma finish_all se pe w0 w (previous : list (string * string)) s s' :
  finished se pe w0 w →
  spec (either se pe w0) w
    (_ ← when_some se (λ _, map_state_err (during s) (prune K fault secrets id));
     _ ← when_some pe (λ _, map_state_err (during s') (prune K fault public id));
     mret previous)
    (λ r w', finished se pe w0 w' ∧ (∀ v, r = Ok v → v = previous)).
Proof.
  intros Hf.
  assert (∀ root (o : option (list ValidatedSecret)) d t w1, root = S ∨ root = P → dp_root d = root →
    (is_Some o → pointer root w1 = Some (target id)) → finished se pe w0 w1 →
    spec (either se pe w0) w1 (when_some o (λ _, map_state_err (during t) (prune K fault d id)))
      (λ _ w', finished se pe w0 w')) as Hprune.
  { intros root o d t w1 Hroot Hd Hp Hf1. destruct o as [es|]; [|by apply spec_ret].
    eapply spec_mono; [eapply (finish_prune se pe root); eauto|..].
    - intros w' [Hv _ _ _ _ _]. by right.
    - done. }
  apply spec_bind. eapply spec_mono; [apply (Hprune S); [by left|done|apply Hf|done]|done|].
  intros [[]|e] w1 H1; [|by split].
  apply spec_bind. eapply spec_mono; [apply (Hprune P); [by right|done|apply H1|done]|done|].
  intros [[]|e] w2 H2; [|by split]. apply spec_ret. split; [done|]. by intros ? [= <-].
Qed.

Lemma publish_spec se pe w0 :
  rested w0 → no_pending S w0 → no_pending P w0 → admissible se → admissible pe →
  is_Some se ∨ is_Some pe →
  spec (either se pe w0) w0 (publish K fault to_json from_json hash_order secrets public se pe id)
    (λ r w', either se pe w0 w' ∧ steady w' ∧ ∀ v, r = Ok v →
       finished se pe w0 w' ∧ v = versions_before se pe w0).
Proof.
  intros Hw0 HnS HnP Hse Hpe Hsome. unfold publish.
  assert (∀ w' (r : result DeployError (list (string * string))) v, finished se pe w0 w' →
    (∀ v', r = Ok v' → v' = v) → v = versions_before se pe w0 →
    either se pe w0 w' ∧ steady w' ∧ ∀ v', r = Ok v' → finished se pe w0 w' ∧ v' = versions_before se pe w0)
    as Hdone.
  { intros w' r v Hf Hv ->. split_and!; [right; apply Hf|apply Hf|auto]. }
  apply spec_bind. eapply spec_mono; [by apply stage_public|intros w'; apply either_old|].
  intros r w1 (Hk1 & Hw1 & Hok). destruct r as [previous|e];
    [|split_and!; [by apply either_old|by apply rested_steady|done]].
  destruct (Hok previous eq_refl) as (-> & HnS1 & HprP). clear Hok. apply spec_bind.
  destruct se as [es|].
  - eapply spec_mono; [apply stage_secrets; [exact Hw0|exact Hse|exact Hk1|exact Hw1|exact HnS1|exact HprP]|done|].
    intros r w2 (He & Hs & Hok). destruct r as [v|e]; [|by split_and!].
    destruct (Hok v eq_refl) as [-> Hco]. clear Hok. apply spec_bind.
    apply (spec_mono (either (Some es) pe w0) _ _ _ (λ r w', either (Some es) pe w0 w' ∧ steady w'
      ∧ (r = Ok tt → finished (Some es) pe w0 w'))); [|done|].
    { destruct pe as [ps|]; [by apply finish_public|]. apply spec_ret. split_and!; [done|done|].
      intros _. destruct Hco as [Hv Hst Hptr Hno Hpub _]. constructor; [done..| |done|by intros [? [=]]].
      intros x. by destruct (Hpub x) as [|[_ [? [=]]]]. }
    intros [[]|e] w3 (He3 & Hs3 & Hf); [|by split_and!].
    eapply spec_mono; [by apply finish_all, Hf|done|]. intros r w4 [Hf4 Hv].
    by eapply Hdone.
  - destruct pe as [ps|]; [|destruct Hsome as [[? [=]]|[? [=]]]].
    apply spec_ret, spec_bind. eapply spec_mono; [apply finish_public_alone; [exact Hw0|exact Hk1|exact Hw1|exact HnS1|exact HprP]|done|].
    intros [[]|e] w3 (He3 & Hs3 & Hf); [|by split_and!].
    eapply spec_mono; [by apply finish_all, Hf|done|]. intros r w4 [Hf4 Hv].
    by eapply Hdone.
Qed.
End Publish.

(** ** Validated batches *)
Lemma map_err_ok {E F A : Type} (f : E → F) (r : result E A) a : map_err f r = Ok a ↔ r = Ok a.
Proof. destruct r; cbn; naive_solver. Qed.
Lemma validate_secret_ok destinations spec entry :
  validate_secret destinations spec = Ok entry →
  vs_spec entry = spec ∧ vs_relative entry = relative_path spec ∧ vs_relative entry ∉ destinations.
Proof.
  unfold validate_secret. intros H. repeat (apply bind_ok in H as ([] & ? & H)).
  injection H as <-. cbn. split_and!; [done|done|].
  repeat match goal with H : map_err _ (guard_err _ _) = Ok _ |- _ => apply map_err_ok, guard_ok in H end.
  by bool_prop.
Qed.

Lemma validate_each_ok destinations specs entries :
  validate_each destinations specs = Ok entries →
  vs_spec <$> entries = specs ∧ (∀ entry, entry ∈ entries → vs_relative entry = relative_path (vs_spec entry))
  ∧ NoDup (vs_relative <$> entries) ∧ (∀ entry, entry ∈ entries → vs_relative entry ∉ destinations).
Proof.
  revert destinations entries. induction specs as [|spec specs IH]; intros destinations entries; cbn.
  { intros [= <-]. split_and!; [done|by intros ? ?%elem_of_nil|constructor|by intros ? ?%elem_of_nil]. }
  intros H. apply bind_ok in H as (entry & (H1 & H2 & H3)%validate_secret_ok & H).
  apply bind_ok in H as (rest & (R1 & R2 & R3 & R4)%IH & [= <-]). split_and!.
  - cbn. by rewrite H1, R1.
  - intros e [->|He]%elem_of_cons; [by rewrite H1|auto].
  - cbn. apply NoDup_cons. split; [|done]. intros (e & E & He)%list_elem_of_fmap.
    apply (R4 e He). rewrite <- E. elem.
  - intros e [->|He]%elem_of_cons; [done|]. specialize (R4 e He).
    intros Hin. apply R4. elem.
Qed.

Lemma validate_destinations specs entries :
  validate specs = Ok entries → vs_spec <$> entries = specs ∧ destinations_ok entries.
Proof.
  unfold validate. intros H. apply bind_ok in H as ([] & _ & (H1 & H2 & H3 & _)%validate_each_ok).
  split; [done|]. split; [done|]. intros entry He. rewrite H2 by done. unfold relative_path.
  case_bool_decide; cbn; eauto.
Qed.

(** No service of a batch takes one of the deployer's own names. *)
Definition plain_batch (batch : option (list ResolvedSecret)) : Prop :=
  ∀ specs, batch = Some specs → ∀ spec, spec ∈ specs → starts_with "." (rs_service spec) = false.

Lemma validated_admissible batch d o :
  plain_batch batch → validated batch d = Ok o → admissible o.
Proof.
  unfold validated, plain_batch. intros Hp H entries ->.
  destruct batch as [[|spec specs]|]; try done. apply map_err_ok in H.
  apply bind_ok in H as (entries' & (H1 & H2)%validate_destinations & [= ->]).
  split; [|done]. intros entry He. apply (Hp _ eq_refl). rewrite <- H1. by apply list_elem_of_fmap_2.
Qed.

(** ** The whole deployment *)
Section Together.
Context (K : Kernel) (fault : nat → option string) (HK : kernel_ok K).
Context (to_json : list (string * string) → result string (list Z)).
Context (from_json : list Z → result string (list (string * string))).
Context (hash_order : list string → list string).
Context (Hcodec : codec_ok to_json from_json).
Context (Hhash : ∀ l s, s ∈ hash_order l → s ∈ l).
Context (secrets public : Deployer).
Let S := dp_root secrets.
Let P := dp_root public.
Context (Hapart : apart S P).

Lemma relevant_named w q :
  sound S w → sound P w → relevant S P w q →
  ∃ root r, (root = S ∨ root = P) ∧ q = root ++ r
    ∧ (r = [".current"] ∨ ∃ x r', r = ".generations" :: x :: r' ∨ r = [".current-" +:+ x]).
Proof.
  intros HS HP [->|[->|[(x & Hx & ->)|[(t & Ht & [r ->]%under_spec)|(t & Ht & [r ->]%under_spec)]]]].
  - exists S, [".current"]. eauto.
  - exists P, [".current"]. eauto.
  - exists P, [".current-" +:+ x]. split_and!; [by right|done|right; exists x, []; by right].
  - destruct (HS _ Ht) as (x & -> & _). exists S, (".generations" :: x :: r).
    rewrite <- app_assoc. eauto 10.
  - assert (∃ x, t = target x) as [x ->].
    { apply effective_cases in Ht as [(x & -> & _)|[Ht _]]; [eauto| |done].
      destruct (HP _ Ht) as (x & -> & _). eauto. }
    exists P, (".generations" :: x :: r). rewrite <- app_assoc. eauto 10.
Qed.

(** The roots themselves and their locks. *)
Definition entrance (q : Path) : Prop :=
  ∃ root, (root = S ∨ root = P) ∧ (q = root ∨ q = root ++ [".deploy-lock"]).

Lemma entrance_not_relevant w q : sound S w → sound P w → relevant S P w q → ¬ entrance q.
Proof.
  intros HS HP (root & r & Hroot & -> & Hr)%relevant_named (root' & Hroot' & E); [|done..].
  assert (∃ r', root ++ r = root' ++ r' ∧ (r' = [] ∨ r' = [".deploy-lock"])) as (r' & E' & Hr').
  { destruct E as [-> | ->]; [exists []|eexists; split; [done|by right]].
    split; [by rewrite app_nil_r|by left]. }
  apply (same_root S P Hapart) in E' as [_ ->]; [|done..].
  destruct Hr as [->|(x & r'' & [-> | ->])]; by destruct Hr'.
Qed.

(** What a deployment may start from: any state the deployer itself leaves. *)
Record startable (id : string) (w : World) : Prop := {
  st_wf : wf_world w;
  st_secrets : sound S w;
  st_public : sound P w;
  st_fresh_secrets : pointer S w ≠ Some (target id);
  st_fresh_public : effective S P w ≠ Some (target id);
  st_modes_secrets q : entry_ok (tree_at S (pointer S w) w q);
  st_modes_public q : entry_ok (tree_at P (effective S P w) w q);
}.

Lemma startable_keeps id w w' :
  startable id w → same_view S P w w' → steady S P w' → startable id w'.
Proof.
  intros Hw (H1 & H2 & H3 & H4) (Hwf & HS & HP). constructor; rewrite ?H1, ?H2; try done; try apply Hw.
  - intros q. rewrite (tree_at_keeps _ _ _ _ q H3). apply Hw.
  - intros q. rewrite (tree_at_keeps _ _ _ _ q H4). apply Hw.
Qed.

Lemma startable_rested id w : startable id w → no_pending P w → rested S P id w.
Proof.
  intros [] Hn. rewrite effective_no_pending in * by done. constructor; try done.
  by apply effective_no_pending.
Qed.
Lemma startable_steady id w : startable id w → steady S P w.
Proof. intros []. by split_and!. Qed.

Lemma steady_keeps w w' : steady S P w → keeps_view S P w w' → wf_world w' → steady S P w'.
Proof.
  intros (_ & HS & HP) Hk Hwf. destruct (keeps_view_sound _ _ _ _ Hk HS HP). by split_and!.
Qed.

(** A step that only touches the roots and their locks. *)
Lemma spec_entering {T U : Type} I id w0 w (m : FS T) (k : T → FS U) Q :
  frames entrance m → startable id w → same_view S P w0 w →
  (∀ w', same_view S P w0 w' → I w') →
  (∀ a w', startable id w' → same_view S P w0 w' → spec I w' (k a) Q) →
  (∀ e w', startable id w' → same_view S P w0 w' → Q (Err e) w') →
  spec I w (m ≫= k) Q.
Proof.
  intros Hm Hw Hv HI Hk He. apply spec_bind.
  assert (∀ w', step_in entrance w w' → same_view S P w0 w' ∧ startable id w') as Hstep.
  { intros w' Hst. assert (keeps_view S P w w') as Hkv.
    { eapply keeps_view_outside; [|exact Hst]. intros q. apply entrance_not_relevant; apply Hw. }
    assert (same_view S P w w') as Hs by apply Hkv.
    split; [by eapply same_view_trans|]. eapply startable_keeps; [done|done|].
    eapply steady_keeps; [by eapply startable_steady|done|]. apply Hst, Hw. }
  eapply spec_mono; [apply Hm|..].
  - intros w' Hst. apply HI. by destruct (Hstep _ Hst).
  - intros [a|e] w' Hst; destruct (Hstep _ Hst); auto.
Qed.

(** Recovery of one root. *)
Lemma recover_locked_spec d w :
  (d = secrets ∧ dp_commit_root d = None ∨ d = public ∧ dp_commit_root d = Some S) →
  steady S P w →
  spec (same_view S P w) w (recover_locked K fault d) (λ r w',
    same_view S P w w' ∧ steady S P w' ∧ step_in (recovery_paths (dp_root d) w) w w'
    ∧ (r = Ok tt → no_pending (dp_root d) w')).
Proof.
  intros Hd (Hwf & HS & HP). apply spec_map_err.
  eapply spec_mono; [apply (recover_pending_spec K fault HK S P Hapart d (dp_root d)); try done|done|].
  - destruct Hd as [[-> ?]|[-> ?]]; auto.
  - intros r w' (H1 & H2 & H3 & H4 & H5).
    split_and!; [done|by split_and!; [apply H4|..]|done|]. intros Hr. apply H5.
    by destruct r as [[]|].
Qed.

Lemma recovery_below root w q : recovery_paths root w q → ∃ t, q = root ++ t.
Proof.
  intros [->|(y & _ & [->|[t ->]%under_spec])]; [by eexists..|].
  unfold generation. rewrite <- app_assoc. by eexists.
Qed.

Lemma no_pending_kept w w' :
  no_pending S w → step_in (recovery_paths P w) w w' → no_pending S w'.
Proof.
  intros Hn [Hst _] x. rewrite Hst; [done|]. intros [t E]%recovery_below.
  by apply (apart_roots S P Hapart) in E.
Qed.

Definition versions_given (se pe : option (list ValidatedSecret)) (w : World) : list (string * string) :=
  let previous := match pe with
    | Some _ => extend_versions (read_versions from_json (tree_at P (effective S P w) w)) []
    | None => [] end in
  match se with
  | Some _ => extend_versions (read_versions from_json (tree_at S (pointer S w) w)) previous
  | None => previous
  end.

Lemma versions_given_recovered id se pe w0 w :
  same_view S P w0 w → rested S P id w →
  versions_before from_json S P se pe w = versions_given se pe w0.
Proof.
  intros (H1 & H2 & H3 & H4) Hw. unfold versions_before, versions_given, versions_at.
  rewrite <- (re_settled _ _ _ _ Hw), H1, H2.
  rewrite (read_versions_ext from_json (tree_at S (pointer S w0) w0) (tree_at S (pointer S w0) w)),
    (read_versions_ext from_json (tree_at P (effective S P w0) w0) (tree_at P (effective S P w0) w));
    [done|intros q; by apply tree_at_keeps..].
Qed.

(** Recovery after a failed attempt changes nothing that is given to consumers. *)
Lemma spec_recover_again id se pe w0 w d I Q :
  (d = secrets ∧ dp_commit_root d = None ∨ d = public ∧ dp_commit_root d = Some S) →
  steady S P w → either from_json S P id se pe w0 w →
  (∀ w', either from_json S P id se pe w0 w' → I w') →
  (∀ r w', either from_json S P id se pe w0 w' → steady S P w' → Q (Ok r) w') →
  spec I w (attempt (recover_locked K fault d) : FS _) Q.
Proof.
  intros Hd Hs He HI HQ.
  assert (∀ w', same_view S P w w' → either from_json S P id se pe w0 w') as Hk.
  { intros w' Hv. destruct He as [He|He]; [left; by eapply same_view_trans|right].
    by eapply new_view_after. }
  apply spec_attempt. eapply spec_mono; [by apply recover_locked_spec|..].
  - auto.
  - intros r w' (H1 & H2 & _). auto.
Qed.

(** What [publish] and the recovery after it leave. *)
Lemma publish_recovered id se pe w0 w :
  dp_commit_root secrets = None → dp_commit_root public = Some S →
  valid_generation id = true → admissible se → admissible pe → is_Some se ∨ is_Some pe →
  same_view S P w0 w → startable id w → no_pending S w → no_pending P w →
  spec (either from_json S P id se pe w0) w
    (result ← attempt (publish K fault to_json from_json hash_order secrets public se pe id);
     _ ← (if is_ok result then mret (Ok tt)
          else
            _ ← attempt (E:=DeployError) (F:=DeployError) (recover_locked K fault secrets);
            attempt (recover_locked K fault public));
     st_lift result)
    (λ r w', either from_json S P id se pe w0 w' ∧ steady S P w' ∧ ∀ v, r = Ok v →
       new_view from_json S P id se pe w0 w' ∧ no_pending S w' ∧ no_pending P w'
       ∧ v = versions_given se pe w0).
Proof.
  intros HcS HcP Hid Hse Hpe Hsome Hv Hw HnS HnP.
  assert (rested S P id w) as Hre by by apply startable_rested.
  assert (∀ w', either from_json S P id se pe w w' → either from_json S P id se pe w0 w') as Hfrom.
  { intros w' [H|H]; [left; by eapply same_view_trans|right; by eapply new_view_before]. }
  apply spec_bind, spec_attempt. eapply spec_mono;
    [apply (publish_spec K fault HK to_json from_json hash_order Hcodec Hhash S P Hapart id Hid
       secrets public eq_refl eq_refl se pe w Hre HnS HnP Hse Hpe Hsome)|exact Hfrom|].
  intros r w1 (He%Hfrom & Hs & Hok). apply spec_bind. destruct r as [v|e]; cbn [is_ok].
  - apply spec_ret, spec_lift. split_and!; [done|done|]. intros v' [= <-].
    destruct (Hok v eq_refl) as [[Hn _ H1 H2 _ _] ->].
    split_and!; [by eapply new_view_before|done|done|].
    by apply (versions_given_recovered id).
  - apply spec_bind. eapply spec_recover_again; [by left|done|exact He|done|].
    intros r1 w2 He2 Hs2. eapply spec_recover_again; [by right|done|exact He2|done|].
    intros r2 w3 He3 Hs3. apply spec_lift. by split_and!.
Qed.

Lemma frames_entrance_root d t :
  d = secrets ∨ d = public → frames entrance (map_state_err (during t) (prepare_root K fault d)).
Proof.
  intros Hd. apply frames_during, frames_prepare_root. exists (dp_root d).
  destruct Hd as [-> | ->]; auto.
Qed.
Lemma frames_entrance_lock d t :
  d = secrets ∨ d = public → frames entrance (map_state_err (during t) (lock_deployments K fault d)).
Proof.
  intros Hd. apply frames_during, frames_lock_deployments. exists (dp_root d).
  destruct Hd as [-> | ->]; auto.
Qed.

Lemma check_pair_ok :
  check_pair secrets public = Ok tt → dp_commit_root secrets = None ∧ dp_commit_root public = Some S.
Proof. intros H%guard_ok. by bool_prop. Qed.

(** ** Recovery on its own *)
Definition lock_path (d : Deployer) (q : Path) : Prop := q = dp_root d ++ [".deploy-lock"].

Lemma lock_existing_spec d w :
  spec (step_in (lock_path d) w) w (lock_existing K fault d) (λ r w',
    step_in (lock_path d) w w' ∧ (r = Ok false → w' !! dp_root d = None)).
Proof.
  unfold lock_existing. apply spec_bind, spec_unless_absent; [apply step_in_refl|..].
  - intros e He.
    assert (framed (lock_path d)
      (_ ← require_real_directory fault (dp_root d) "secret root";
       metadata ← io (fstat fault (dp_root d));
       _ ← require_root_metadata d metadata "secret root";
       _ ← lock_deployments K fault d;
       mret true) (λ b, b = true)) as Hf.
    { apply framed_after; [frame|intros _]. apply framed_after; [frame|intros m].
      apply framed_after; [frame|intros _].
      apply framed_after; [by apply frames_lock_deployments|intros _]. by apply framed_ret. }
    eapply spec_mono; [apply Hf|done|]. intros r w' [Hst Hr]. split; [done|].
    intros ->. by discriminate (Hr false eq_refl).
  - intros e He _. apply spec_ret. split; [apply step_in_refl|]. intros _.
    by destruct (w !! dp_root d).
  - intros e. split; [apply step_in_refl|done].
Qed.

Lemma absent_no_pending root w : wf_world w → w !! root = None → no_pending root w.
Proof.
  intros Hwf Hn x. apply eq_None_not_Some. intros [m Hm]%Hwf. congruence.
Qed.

(** A root that was locked is recovered; one that is absent has nothing pending. *)
Lemma spec_recover_if (locked : bool) d w :
  (d = secrets ∧ dp_commit_root d = None ∨ d = public ∧ dp_commit_root d = Some S) →
  steady S P w → (locked = false → w !! dp_root d = None) →
  spec (same_view S P w) w (if locked then recover_locked K fault d else mret tt) (λ r w',
    same_view S P w w' ∧ steady S P w' ∧ step_in (recovery_paths (dp_root d) w) w w'
    ∧ (r = Ok tt → no_pending (dp_root d) w')).
Proof.
  intros Hd Hs Hl. destruct locked; [by apply recover_locked_spec|].
  apply spec_ret. split_and!; [apply same_view_refl|done|apply step_in_refl|].
  intros _. apply absent_no_pending; [apply Hs|auto].
Qed.

Lemma spec_locking {U : Type} I w0 w d (k : bool → FS U) Q :
  d = secrets ∨ d = public → steady S P w → same_view S P w0 w →
  (∀ w', same_view S P w0 w' → I w') →
  (∀ b w', steady S P w' → same_view S P w0 w' → step_in (lock_path d) w w' →
     (b = false → w' !! dp_root d = None) → spec I w' (k b) Q) →
  (∀ e w', same_view S P w0 w' → Q (Err e) w') →
  spec I w (b ← lock_existing K fault d; k b) Q.
Proof.
  intros Hd Hs Hv HI Hk He. apply spec_bind.
  assert (∀ w', step_in (lock_path d) w w' → same_view S P w0 w' ∧ steady S P w') as Hstep.
  { intros w' Hst. assert (keeps_view S P w w') as Hkv.
    { eapply keeps_view_outside; [|exact Hst]. intros q Hq ->.
      eapply entrance_not_relevant; [apply Hs..|exact Hq|].
      exists (dp_root d). destruct Hd as [-> | ->]; auto. }
    assert (same_view S P w w') by apply Hkv.
    split; [by eapply same_view_trans|]. eapply steady_keeps; [done|done|]. by apply Hst, Hs. }
  eapply spec_mono; [apply lock_existing_spec|..].
  - intros w' Hst. apply HI. by destruct (Hstep _ Hst).
  - intros [b|e] w' [Hst Hb]; destruct (Hstep _ Hst); [|auto].
    apply Hk; try done. intros ->. auto.
Qed.

(** C4: Recovery changes nothing that is given to consumers, whatever fails and
    wherever it is interrupted; when it succeeds no pending pointer is left
    and the public root's own link names what it counted as. *)
Theorem recover_keeps_view w0 :
  steady S P w0 →
  spec (same_view S P w0) w0 (recover K fault secrets public) (λ r w',
    same_view S P w0 w' ∧ (r = Ok tt →
      no_pending S w' ∧ no_pending P w' ∧ pointer P w' = effective S P w0)).
Proof.
  intros Hs. unfold recover.
  assert (∀ (e : DeployError) w', same_view S P w0 w' → same_view S P w0 w' ∧ (Err e = Ok tt →
    no_pending S w' ∧ no_pending P w' ∧ pointer P w' = effective S P w0)) as HQ by done.
  apply spec_bind, spec_lift. destruct (check_pair secrets public) as [[]|e] eqn:Ec;
    [|apply HQ, same_view_refl]. destruct (check_pair_ok Ec) as [HcS HcP].
  eapply spec_locking; [by left|done|apply same_view_refl|done| |auto].
  intros bS w1 Hs1 Hv1 Hst1 HbS.
  eapply spec_locking; [by right|done|done|done| |auto].
  intros bP w2 Hs2 Hv2 Hst2 HbP.
  apply spec_bind. eapply spec_mono; [apply spec_recover_if; [by left|done|]
    |intros w' H; by eapply same_view_trans|].
  { intros Hb. destruct Hst2 as [Hst2 _]. rewrite Hst2; [auto|]. intros E.
    rewrite <- (app_nil_r (dp_root secrets)) in E. by apply (apart_roots S P Hapart) in E. }
  intros r w3 (H3 & Hs3 & Hst3 & Hn3). assert (same_view S P w0 w3) by (by eapply same_view_trans).
  destruct r as [[]|e]; [|auto].
  eapply spec_mono; [apply spec_recover_if; [by right|done|]
    |intros w' H'; by eapply same_view_trans|].
  { intros Hb. destruct Hst3 as [Hst3 _]. rewrite Hst3; [auto|].
    intros [t E]%recovery_below. rewrite <- (app_nil_r (dp_root public)) in E. symmetry in E.
    by apply (apart_roots S P Hapart) in E. }
  intros r w4 (H4 & Hs4 & Hst4 & Hn4). assert (same_view S P w0 w4) as Hv4 by (by eapply same_view_trans).
  split; [done|]. intros ->. assert (no_pending P w4) as HnP by auto.
  split_and!; [eapply no_pending_kept; [by apply Hn3|exact Hst4]|done|].
  rewrite <- (effective_no_pending S P) by done. apply Hv4.
Qed.

(** C1: A joint deployment replaces what consumers of both roots are given, or
    leaves all of it alone, wherever a failing call or a crash stops it:
    [spec] speaks of every world between two calls. When it reports success,
    the new generations are in place, nothing is pending, and the versions
    it returns are those that were installed before. *)
Theorem together_atomic id secrets_batch public_batch se pe w0 :
  valid_generation id = true → plain_batch secrets_batch → plain_batch public_batch →
  validated secrets_batch secrets = Ok se → validated public_batch public = Ok pe →
  startable id w0 →
  spec (either from_json S P id se pe w0) w0
    (deploy_together K fault to_json from_json hash_order secrets public secrets_batch public_batch id)
    (λ r w', either from_json S P id se pe w0 w' ∧ ∀ v, r = Ok v →
       new_view from_json S P id se pe w0 w' ∧ no_pending S w' ∧ no_pending P w'
       ∧ v = versions_given se pe w0).
Proof.
  intros Hid Hps Hpp Hse Hpe Hw. unfold deploy_together. rewrite Hse, Hpe.
  set (I := either from_json S P id se pe w0).
  assert (∀ w', same_view S P w0 w' → I w') as HI by (intros w' H; by left).
  set (Q := λ (r : result DeployError (list (string * string))) w', _).
  assert (∀ e w', same_view S P w0 w' → Q (Err e) w') as HQ by (intros e w' H; split; [auto|done]).
  assert (∀ e w', startable id w' → same_view S P w0 w' → Q (Err e) w') as HQ' by auto.
  apply spec_bind, spec_lift. destruct (check_pair secrets public) as [[]|e] eqn:Ec;
    [|apply HQ, same_view_refl].
  destruct (check_pair_ok Ec) as [HcS HcP].
  apply spec_bind, spec_lift, spec_bind, spec_lift, spec_bind, spec_guard;
    [intros Hsome|intros _; apply HQ, same_view_refl].
  assert (is_Some se ∨ is_Some pe) as Hsome' by (destruct se, pe; eauto; done).
  eapply (spec_entering I id w0); [apply frames_entrance_root; auto|done|apply same_view_refl|done| |done].
  intros _ w1 Hw1 Hv1.
  eapply (spec_entering I id w0); [apply frames_entrance_root; auto|done|done|done| |done].
  intros _ w2 Hw2 Hv2.
  eapply (spec_entering I id w0); [apply frames_entrance_lock; auto|done|done|done| |done].
  intros _ w3 Hw3 Hv3.
  eapply (spec_entering I id w0); [apply frames_entrance_lock; auto|done|done|done| |done].
  intros _ w4 Hw4 Hv4.
  apply spec_bind. eapply spec_mono;
    [apply recover_locked_spec; [by left|by eapply startable_steady]
    |intros w' H; apply HI; by eapply same_view_trans|].
  intros r w5 (H5 & Hs5 & _ & Hn5). assert (same_view S P w0 w5) by (by eapply same_view_trans).
  destruct r as [[]|e]; [|by apply HQ].
  apply spec_bind. eapply spec_mono;
    [apply recover_locked_spec; [by right|done]
    |intros w' H'; apply HI; by eapply same_view_trans|].
  intros r w6 (H6 & Hs6 & Hst6 & Hn6). assert (same_view S P w0 w6) as Hv6 by (by eapply same_view_trans).
  destruct r as [[]|e]; [|by apply HQ].
  assert (startable id w6) as Hw6 by (by eapply (startable_keeps id w0)).
  assert (no_pending S w6) as HnS by (by eapply no_pending_kept; [apply Hn5|]).
  eapply spec_mono; [exact (publish_recovered id se pe w0 w6 HcS HcP Hid
    (validated_admissible _ _ _ Hps Hse) (validated_admissible _ _ _ Hpp Hpe) Hsome' Hv6 Hw6 HnS
    (Hn6 eq_refl))|done|].
  - intros r w7 (H7 & _ & Hok). by split.
Qed.
End Together.
