(* ===== verification/Waiter.v ===== *)
(** * The secrets-ready waiter

    [crates/secrets-ready-waiter]: a unit that blocks the consumers of
    declared secrets until every one of them is installed, and tells systemd
    what it waits for.

    It reads the file system of FileSystem.v, follows the links the deployer
    of Deploy.v publishes and changes nothing.  Accounts, JSON, /etc/subuid,
    getfacl, the notify socket and the clock are arguments. *)
From S2P Require Import Prelude BTree FileSystem FsUtil Text Paths.
#[local] Open Scope Z_scope.

Definition SECRET_ROOT : Path := ["persistent"; "secrets"].
Definition POLL_INTERVAL : Z := secs 1.
Definition CATEGORIES : list string := ["setup"; "service"; "backup"].

(** ** Progress ([progress.rs]) *)
Definition STATUS_INTERVAL : Z := secs 30.
Definition LOG_INTERVAL : Z := secs 600.
Definition MAX_LISTED : nat := 8.

Record Emit := { em_status : option string; em_log : option string }.
Definition emit_default : Emit := {| em_status := None; em_log := None |}.
Record Progress := {
  pr_missing : list string;
  pr_error : option string;
  pr_last_status : option Z;
  pr_last_log : option Z
}.
Definition progress_default : Progress :=
  {| pr_missing := []; pr_error := None; pr_last_status := None; pr_last_log := None |}.

Definition waiting_text (missing : list string) (elapsed : Z) : string :=
  let listed := take MAX_LISTED missing
    ++ (if (MAX_LISTED <? length missing)%nat
        then ["+" +:+ dec (Z.of_nat (length missing - MAX_LISTED)) +:+ " more"] else []) in
  "still waiting for " +:+ join ", " listed +:+ " (" +:+ dec (as_secs elapsed) +:+ "s)".

Definition due (elapsed : Z) (last : option Z) (interval : Z) : bool :=
  is_none_or (λ last, interval <=? sat_sub elapsed last) last.
Definition emit (text : string) (changed log_now : bool) (elapsed : Z) (p : Progress) : Emit * Progress :=
  let status := changed || due elapsed (pr_last_status p) STATUS_INTERVAL in
  let log := log_now || due elapsed (pr_last_log p) LOG_INTERVAL in
  ({| em_status := if status then Some text else None;
      em_log := if log then Some ("secrets-ready-waiter: " +:+ text) else None |},
   {| pr_missing := pr_missing p; pr_error := pr_error p;
      pr_last_status := if status then Some elapsed else pr_last_status p;
      pr_last_log := if log then Some elapsed else pr_last_log p |}).

(** The paths are always those of the manifest, so their texts are compared.
    [error.take()] runs only when the missing paths are the same. *)
Definition observe (missing : list string) (elapsed : Z) (p : Progress) : Emit * Progress :=
  if bool_decide (missing = []) then (emit_default, p)
  else
    let different := negb (bool_decide (pr_missing p = missing)) in
    let changed := different || is_some (pr_error p) in
    let error := if different then pr_error p else None in
    emit (waiting_text missing elapsed) changed false elapsed
      {| pr_missing := if changed then missing else pr_missing p; pr_error := error;
         pr_last_status := pr_last_status p; pr_last_log := pr_last_log p |}.

Definition observe_error (error : string) (elapsed : Z) (p : Progress) : Emit * Progress :=
  let changed := negb (bool_decide (pr_error p = Some error)) in
  let p := if changed
           then {| pr_missing := []; pr_error := Some error; pr_last_status := pr_last_status p;
                   pr_last_log := pr_last_log p |}
           else p in
  emit ("still waiting: " +:+ error +:+ " (" +:+ dec (as_secs elapsed) +:+ "s)") changed changed elapsed p.

Definition waited (p : Progress) : bool := is_some (pr_last_status p).

(** ** Declared secrets ([main.rs]) *)
Record RuntimeReader := { rr_account : string; rr_uid_offset : Z }.
Record WaiterEntry := {
  we_path : string;
  we_owner : string;
  we_group : string;
  we_mode : string;
  we_runtime_readers : list RuntimeReader;
  we_acl_program : option string
}.
Record ExpectedFile := {
  ef_path : string;
  ef_uid : Z;
  ef_gid : Z;
  ef_mode : Z;
  ef_runtime_uids : list Z;
  ef_acl_program : option string
}.

Definition validate_secret_path (path : string) : result string unit :=
  guard_err
    match components path with
    | [RootDir; Normal persistent; Normal secrets; Normal _; Normal category; Normal _] =>
        bool_decide (persistent = "persistent") && bool_decide (secrets = "secrets")
        && bool_decide (category ∈ CATEGORIES)
    | _ => false
    end
    (path +:+ " is not /persistent/secrets/<service>/<setup|service|backup>/<secret>").

(** [debug] prints a text with its quotes. *)
Definition parse_mode (debug : string → string) (value : string) : result string Z :=
  _ ← guard_err ((slen value =? 4) && all_bytes (in_range 48 55) value)
        ("mode " +:+ debug value +:+ " must contain four octal digits");
  Ok (oct ((λ b, b - 48) <$> bytes value)).

Section Manifest.
Context (debug : string → string).
Context (user_id group_id : string → result string (option Z)).
Context (read_subuid : result string string).
Context (from_json : string → result string (list WaiterEntry)).

Definition parse_u32_text (text : string) : option Z := parse_unsigned u32_max (bytes text).

Definition resolve_runtime_uid (contents : string) (reader : RuntimeReader) : result string Z :=
  let matching := List.filter (λ fields, bool_decide (head fields = Some (rr_account reader)))
                    (split ":" <$> str_lines contents) in
  match matching with
  | [] => Err "runtime reader has no subordinate UID range"
  | fields :: rest =>
      match fields, rest with
      | [_; start; count], [] =>
          start ← ok_or "invalid runtime UID start" (parse_u32_text start);
          count ← ok_or "invalid runtime UID count" (parse_u32_text count);
          let uid := start + rr_uid_offset reader in
          _ ← guard_err (uid <=? u32_max) "runtime UID overflow";
          _ ← guard_err (negb ((start =? 0) || (count <=? rr_uid_offset reader) || (uid =? u32_max)))
                "runtime UID outside declared range";
          Ok uid
      | _, _ => Err "runtime reader subordinate UID range is ambiguous"
      end
  end.

(** [mapped] into the list, once. *)
Definition add_runtime_uid (contents : string) (uids : list Z) (reader : RuntimeReader)
  : result string (list Z) :=
  mapped ← resolve_runtime_uid contents reader;
  _ ← guard_err (negb (bool_decide (mapped ∈ uids))) "duplicate runtime reader UID";
  Ok (uids ++ [mapped]).

(** The program is [getfacl] in a [bin] below /nix/store. *)
Definition immutable_getfacl (program : string) : bool :=
  let parts := components program in
  bool_decide (take 3 parts = [RootDir; Normal "nix"; Normal "store"])
  && bool_decide (path_file_name parts = Some "getfacl")
  && bool_decide (path_parent parts ≫= path_file_name = Some "bin")
  && forallb (λ part, negb (bool_decide (part = ParentDir) || bool_decide (part = CurDir))) parts.

Definition resolve_runtime_uids (entry : WaiterEntry) (uid gid mode : Z) : result string (list Z) :=
  if bool_decide (we_runtime_readers entry = []) then Ok []
  else
    _ ← guard_err ((uid =? 0) && (gid =? 0) && (mode =? oct [4; 0; 0]))
          "runtime reader policy requires root-owned 0400 deployment";
    program ← ok_or "runtime ACL checker missing" (we_acl_program entry);
    _ ← guard_err (immutable_getfacl program) "runtime ACL checker must be immutable getfacl";
    contents ← map_err (λ error, "reading runtime UID mappings: " +:+ error) read_subuid;
    try_fold (add_runtime_uid contents) [] (we_runtime_readers entry).

Definition known_account (kind name : string) (lookup : string → result string (option Z)) : result string Z :=
  id ← map_err (λ error, "cannot resolve " +:+ kind +:+ " " +:+ name +:+ ": " +:+ error) (lookup name);
  ok_or ("unknown " +:+ kind +:+ ": " +:+ name) id.

Definition resolve_entry (entry : WaiterEntry) : result string ExpectedFile :=
  _ ← validate_secret_path (we_path entry);
  uid ← known_account "owner" (we_owner entry) user_id;
  gid ← known_account "group" (we_group entry) group_id;
  mode ← parse_mode debug (we_mode entry);
  runtime_uids ← resolve_runtime_uids entry uid gid mode;
  Ok {| ef_path := we_path entry; ef_uid := uid; ef_gid := gid; ef_mode := mode;
        ef_runtime_uids := runtime_uids; ef_acl_program := we_acl_program entry |}.

(** One turn of the loop: the paths seen, and what is resolved. *)
Definition add_entry (acc : list (list Component) * list ExpectedFile) (entry : WaiterEntry)
  : result string (list (list Component) * list ExpectedFile) :=
  let '(paths, resolved) := acc in
  let path := components (we_path entry) in
  _ ← guard_err (negb (bool_decide (path ∈ paths))) ("duplicate secret path: " +:+ we_path entry);
  entry ← resolve_entry entry;
  Ok (path :: paths, resolved ++ [entry]).

Definition parse_manifest (contents : string) : result string (list ExpectedFile) :=
  entries ← map_err (λ error, "invalid JSON manifest: " +:+ error) (from_json contents);
  _ ← guard_err (negb (bool_decide (entries = []))) "the manifest contains no secret objects";
  '(_, resolved) ← try_fold add_entry ([], []) entries;
  Ok resolved.
End Manifest.

(** ** One look at the root *)
Definition normal_names (path : list Component) : Path :=
  omap (λ c, match c with Normal name => Some name | _ => None end) path.
Definition expected_parts (expected : ExpectedFile) : Path := drop 2 (normal_names (components (ef_path expected))).

Definition exact_runtime_acl (text : string) (uids : list Z) : bool :=
  let actual := List.filter (λ line, negb (bool_decide (line = ""))) (str_lines text) in
  let expected := ["user::r--"; "group::---"; "mask::r--"; "other::---"]
    ++ ((λ uid, "user:" +:+ dec uid +:+ ":r--") <$> uids) in
  bool_decide (merge_sort kle actual = merge_sort kle expected).

Section Look.
Context (fault : nat → option string).
(** Running the checker on a file: whether it succeeded, and its output. *)
Context (getfacl : string → Path → World → result string (bool * list Z)).

Definition inspecting {A} (path : Path) (m : stE Fs IoErr A) : stE Fs string (option A) := λ s,
  match m s with
  | (Ok a, s) => (Ok (Some a), s)
  | (Err error, s) =>
      (match io_kind error with
       | KNotFound => Ok None
       | _ => Err ("cannot inspect " +:+ "/" +:+ join "/" path +:+ ": " +:+ io_text error)
       end, s)
  end.
Definition real_directory (path : Path) : stE Fs string bool :=
  metadata ← inspecting path (symlink_metadata fault path);
  mret (is_some_and is_dir metadata).

(** [None] when a directory is missing; the first that is stops the look. *)
Fixpoint real_directories (paths : list Path) : stE Fs string bool :=
  match paths with
  | [] => mret true
  | path :: paths => real ← real_directory path;
      if real : bool then real_directories paths else mret false
  end.

Definition is_generation_id (value : string) : bool :=
  is_some_and (λ '(time, process), (slen time =? 39) && (slen process =? 10)
                 && all_bytes is_ascii_digit time && all_bytes is_ascii_digit process) (split_once "-" value).

Definition current_generation (root : Path) : stE Fs string (option Path) :=
  let current := root ++ [".current"] in
  there ← real_directories [parent root; root; root ++ [".generations"]];
  if there : bool then
    metadata ← inspecting current (symlink_metadata fault current);
    match metadata with
    | None => mret None
    | Some metadata =>
        _ ← st_guard (is_link metadata) ("/" +:+ join "/" current +:+ " is not the required symlink");
        target ← map_state_err (λ error, "cannot read /" +:+ join "/" current +:+ ": " +:+ io_text error)
                   (read_link fault current);
        _ ← st_guard (match target with
                      | [store; id] => bool_decide (store = ".generations") && is_generation_id id
                      | _ => false
                      end) ("/" +:+ join "/" current +:+ " has an invalid target");
        real ← real_directory (root ++ target);
        mret (if real : bool then Some (root ++ target) else None)
    end
  else mret None.

Definition runtime_acl_ready (expected : ExpectedFile) (path : Path) : stE Fs string bool := λ s,
  (program ← ok_or "runtime ACL checker missing" (ef_acl_program expected);
   '(success, stdout) ← map_err (λ error, "inspecting runtime ACL: " +:+ error)
                          (getfacl program path (fs_world s));
   _ ← guard_err (negb (negb success || (65536 <? zlen stdout))) "runtime ACL inspection failed";
   text ← ok_or "runtime ACL is not UTF-8" (from_utf8 stdout);
   Ok (exact_runtime_acl text (ef_runtime_uids expected)), s).

(** The file itself, once its directories are there. *)
Definition file_is_ready (expected : ExpectedFile) (path : Path) : stE Fs string bool :=
  metadata ← inspecting path (symlink_metadata fault path);
  match metadata with
  | Some (EFile m _) =>
      if negb (m_uid m =? ef_uid expected) || negb (m_gid m =? ef_gid expected) then mret false
      else if m_mode m =? ef_mode expected then mret true
      else if negb (m_mode m =? oct [4; 4; 0]) || bool_decide (ef_runtime_uids expected = []) then mret false
      else runtime_acl_ready expected path
  | _ => mret false
  end.

Definition secret_is_ready_at (root : Path) (expected : ExpectedFile) : stE Fs string bool :=
  generation ← current_generation root;
  match generation, expected_parts expected with
  | Some generation, [service; category; secret] =>
      let service_link := root ++ [service] in
      metadata ← inspecting service_link (symlink_metadata fault service_link);
      match metadata with
      | None => mret false
      | Some metadata =>
          let unexpected := "/" +:+ join "/" service_link +:+ " is not the required service symlink" in
          _ ← st_guard (is_link metadata) unexpected;
          target ← map_state_err io_text (read_link fault service_link);
          _ ← st_guard (bool_decide (target = [".current"; service])) unexpected;
          there ← real_directories [generation ++ [service]; generation ++ [service; category]];
          if there : bool then file_is_ready expected (generation ++ [service; category; secret])
          else mret false
      end
  | _, _ => mret false
  end.

Fixpoint missing_secrets (root : Path) (secrets : list ExpectedFile) : stE Fs string (list string) :=
  match secrets with
  | [] => mret []
  | secret :: secrets =>
      ready ← secret_is_ready_at root secret;
      missing ← missing_secrets root secrets;
      mret (if ready : bool then missing else ef_path secret :: missing)
  end.

Inductive Poll := Ready | Waiting (emit : Emit).
Definition poll (root : Path) (secrets : list ExpectedFile) (elapsed : Z) (p : Progress) (s : Fs)
  : Poll * Progress :=
  match missing_secrets root secrets s with
  | (Ok [], _) => (Ready, p)
  | (Ok missing, _) => let '(emit, p) := observe missing elapsed p in (Waiting emit, p)
  | (Err error, _) => let '(emit, p) := observe_error error elapsed p in (Waiting emit, p)
  end.
End Look.

(** ** Telling systemd ([notify.rs]) *)
Definition socket_address (socket : string) : result string string :=
  match socket with
  | String "@" (String _ _) | String "/" _ => Ok socket
  | _ => Err "NOTIFY_SOCKET is neither absolute nor abstract"
  end.
Definition status_message (text : string) : string :=
  "STATUS=" +:+ of_bytes ((λ b, if b =? 10 then 32 else b) <$> bytes text).
(** [datagram] sends one message and says how much was sent. *)
Definition notify_send (datagram : string → string → result string Z) (socket : option string) (message : string)
  : result string unit :=
  match socket with
  | None => Ok tt
  | Some socket =>
      address ← socket_address socket;
      sent ← datagram address message;
      guard_err (sent =? slen message) "short notify datagram"
  end.

(** ** The loop *)
Inductive Said := Status (text : string) | Logged (line : string).

Section Run.
(** What poll [k] finds: the files, the time since the start, what getfacl
    and the notify socket do. *)
Context (fault : nat → nat → option string).
Context (getfacl : nat → string → Path → World → result string (bool * list Z)).
Context (datagram : nat → string → string → result string Z).
Context (view : nat → Fs) (elapsed : nat → Z).
Context (socket : option string).

(** The first failure to publish is logged, the others are silent. *)
Definition publish_status (k : nat) (text : string) (failed : bool) : list Said * bool :=
  match notify_send (datagram k) socket (status_message text) with
  | Ok _ => ([Status text], failed)
  | Err error =>
      (if failed then [] else [Logged ("secrets-ready-waiter: cannot update the unit status: " +:+ error)], true)
  end.

(** What is said about one poll that found something missing. *)
Definition say (k : nat) (emit : Emit) (failed : bool) : list Said * bool :=
  let '(said, failed) := match em_status emit with
                         | Some status => publish_status k status failed
                         | None => ([], failed)
                         end in
  (said ++ match em_log emit with Some line => [Logged line] | None => [] end, failed).

Fixpoint wait (fuel k : nat) (secrets : list ExpectedFile) (once : bool) (p : Progress) (failed : bool)
  : option (result string unit * list Said) :=
  match fuel with
  | O => None
  | S fuel =>
      match poll (fault k) (getfacl k) SECRET_ROOT secrets (elapsed k) p (view k) with
      | (Ready, p) =>
          Some (Ok tt, if waited p then (publish_status k "declared secrets are ready" failed).1 else [])
      | (Waiting emit, p) =>
          if once then Some (Err ("declared secrets are not ready: " +:+ default "" (em_status emit)), [])
          else
            let '(said, failed) := say k emit failed in
            '(r, more) ← wait fuel (S k) secrets once p failed;
            Some (r, said ++ more)
      end
  end.

Definition waiter_run (fuel : nat) (debug : string → string) (user_id group_id : string → result string (option Z))
    (read_subuid : result string string) (from_json : string → result string (list WaiterEntry))
    (read_manifest : string → result string string) (manifest : string) (once : bool)
  : option (result string unit * list Said) :=
  match (contents ← map_err (λ error, "cannot read manifest " +:+ manifest +:+ ": " +:+ error) (read_manifest manifest);
         parse_manifest debug user_id group_id read_subuid from_json contents) with
  | Ok secrets => wait fuel 0 secrets once progress_default false
  | Err error => Some (Err error, [])
  end.
End Run.

(** ** Arguments *)
Inductive Mode :=
| Wait (manifest : string) (once : bool)
| Report (systemctl : string) (after : Z).

Definition set_option (flag value : string) (slot : option string) : result string (option string) :=
  match slot with Some _ => Err ("duplicate option " +:+ flag) | None => Ok (Some value) end.
Fixpoint report_options (args : list string) (systemctl after : option string)
  : result string (option string * option string) :=
  match args with
  | [] => Ok (systemctl, after)
  | [_] => Err "missing option value"
  | flag :: value :: args =>
      if bool_decide (flag = "--systemctl") then
        systemctl ← set_option flag value systemctl; report_options args systemctl after
      else if bool_decide (flag = "--after") then
        after ← set_option flag value after; report_options args systemctl after
      else Err ("unknown option " +:+ flag)
  end.
Definition parse_report_args (args : list string) : result string Mode :=
  '(systemctl, after) ← report_options args None None;
  systemctl ← ok_or "--systemctl is required" systemctl;
  _ ← guard_err (is_absolute systemctl) "--systemctl must be an absolute path";
  after ← ok_or "--after is required" after;
  after ← ok_or "--after must be a whole number of seconds" (parse_unsigned u64_max (bytes after));
  Ok (Report systemctl (secs after)).
Definition parse_args (args : list string) : result string Mode :=
  match args with
  | mode :: rest =>
      if bool_decide (mode = "--report-waiting") then parse_report_args rest
      else match rest with
           | [] => Ok (Wait mode false)
           | [flag] => if bool_decide (flag = "--once") then Ok (Wait mode true) else Err "invalid arguments"
           | _ => Err "invalid arguments"
           end
  | [] => Err "invalid arguments"
  end.

(** ** Reporting long waits ([report.rs]) *)
Definition UNIT_PREFIX : string := "secrets-ready-waiter-".
Definition UNIT_SUFFIX : string := ".service".

Record WaiterUnit := { wu_id : string; wu_active_state : string; wu_inactive_exit_us : Z; wu_status_text : string }.
Record WaitingUnit := { wg_id : string; wg_waited : Z; wg_status_text : string }.

(** [split("\n\n")]. *)
Fixpoint split_blocks (s : string) : list string :=
  match s with
  | EmptyString => [""]
  | String a rest =>
      let one := match split_blocks rest with
                 | block :: blocks => String a block :: blocks
                 | [] => [String a ""]
                 end in
      match rest with
      | String b tail => if Ascii.eqb a (zb 10) && Ascii.eqb b (zb 10) then "" :: split_blocks tail else one
      | EmptyString => one
      end
  end.

Section Report.
Context (debug : string → string).

Definition add_property (properties : list (string * string)) (line : string)
  : result string (list (string * string)) :=
  if bool_decide (line = "") then Ok properties
  else
    '(key, value) ← ok_or ("malformed systemctl show line: " +:+ debug line) (split_once "=" line);
    Ok (bt_insert key value properties).

Definition unit_of (properties : list (string * string)) : result string (option WaiterUnit) :=
  match bt_get "Id" properties with
  | None => Ok None
  | Some id =>
      if negb (starts_with UNIT_PREFIX id && ends_with UNIT_SUFFIX id) then Ok None
      else
        active_state ← ok_or (id +:+ ": systemctl show lacks ActiveState") (bt_get "ActiveState" properties);
        inactive_exit_us ←
          match default "" (bt_get "InactiveExitTimestampMonotonic" properties) with
          | "" => Ok 0
          | value => ok_or (id +:+ ": invalid InactiveExitTimestampMonotonic " +:+ debug value)
                       (parse_unsigned u64_max (bytes value))
          end;
        Ok (Some {| wu_id := id; wu_active_state := active_state; wu_inactive_exit_us := inactive_exit_us;
                    wu_status_text := default "" (bt_get "StatusText" properties) |})
  end.

Definition parse_block (block : string) : result string (option WaiterUnit) :=
  properties ← try_fold add_property [] (str_lines block);
  unit_of properties.
Definition parse_show (output : string) : result string (list WaiterUnit) :=
  units ← try_map parse_block (split_blocks output);
  Ok (omap (λ unit : option WaiterUnit, unit) (units : list (option WaiterUnit))).
End Report.

Definition overdue (units : list WaiterUnit) (now_us after : Z) : list WaitingUnit :=
  List.filter (λ waiting, after <=? wg_waited waiting)
    ((λ unit, {| wg_id := wu_id unit; wg_waited := 1000 * sat_sub now_us (wu_inactive_exit_us unit);
                 wg_status_text := wu_status_text unit |})
     <$> List.filter (λ unit, bool_decide (wu_active_state unit = "activating")) units).

Definition report_line (waiting : WaitingUnit) : string :=
  "still waiting for secrets: " +:+ wg_id waiting +:+ " for " +:+ dec (as_secs (wg_waited waiting)) +:+ "s: "
  +:+ (if bool_decide (wg_status_text waiting = "") then "no status reported" else wg_status_text waiting).

(** [systemctl] gives success, standard output and the error text. *)
Definition show_waiters (systemctl : string → result string (bool * list Z * string)) (program : string)
  : result string string :=
  '(success, stdout, failure) ← map_err (λ error, "running " +:+ program +:+ ": " +:+ error) (systemctl program);
  _ ← guard_err success (program +:+ " show failed " +:+ failure);
  ok_or "systemctl show output is not UTF-8" (from_utf8 stdout).

(** The exit code and the lines printed. *)
Definition report_run (debug : string → string) (systemctl : string → result string (bool * list Z * string))
    (now_us : result string Z) (program : string) (after : Z) : result string (Z * list string) :=
  _ ← guard_err (is_absolute program) "--systemctl must be an absolute path";
  output ← show_waiters systemctl program;
  units ← parse_show debug output;
  now_us ← now_us;
  let waiting := overdue units now_us after in
  if bool_decide (waiting = []) then
    Ok (0, [if as_secs after =? 0 then "no secrets waiter is waiting"
            else "no secrets waiter has been waiting for " +:+ dec (as_secs after) +:+ "s or longer"])
  else Ok (2, report_line <$> waiting).
