(* ===== verification/WaiterFacts.v ===== *)
(** * What the waiter waits for

    A declared secret is ready exactly when the file its consumers open is
    there as declared; the waiter ends exactly when every one is, and what the
    deployer published is. *)
From S2P Require Import Prelude BTree FileSystem FsUtil Text Paths Deploy Waiter.
#[local] Open Scope Z_scope.

(** ** Looking without failing calls *)
Definition never : nat → option string := λ _, None.
Definition gives {E A} (w : World) (m : stE Fs E A) (a : A) : Prop :=
  ∀ s, fs_world s = w → ∃ s', m s = (Ok a, s') ∧ fs_world s' = w.

Section Gives.
Context {E A B : Type}.
Lemma gives_ret w (a : A) : gives w (mret a : stE Fs E A) a.
Proof. intros s Hs. by exists s. Qed.
Lemma gives_guard w b (e : E) : b = true → gives w (st_guard b e) tt.
Proof. intros -> s Hs. by exists s. Qed.
Lemma gives_bind w (m : stE Fs E A) (k : A → stE Fs E B) a b :
  gives w m a → gives w (k a) b → gives w (m ≫= k) b.
Proof.
  intros Hm Hk s Hs. destruct (Hm s Hs) as (s1 & E1 & Hs1). destruct (Hk s1 Hs1) as (s2 & E2 & Hs2).
  exists s2. split; [|done]. unfold mbind, stE_bind. by rewrite E1.
Qed.
Lemma gives_look w (f : World → result IoErr A) a : f w = Ok a → gives w (look never f) a.
Proof.
  intros H s Hs. unfold look, sys. rewrite Hs, H. cbn. by eexists.
Qed.
Lemma gives_map_err {F} w (f : F → E) (m : stE Fs F A) a : gives w m a → gives w (map_state_err f m) a.
Proof. intros Hm s Hs. destruct (Hm s Hs) as (s' & E' & Hs'). exists s'. unfold map_state_err. by rewrite E'. Qed.
End Gives.

Lemma gives_inspecting w p : gives w (inspecting p (symlink_metadata never p)) (w !! p).
Proof.
  intros s Hs. unfold inspecting, symlink_metadata, look, sys. rewrite Hs. cbn.
  destruct (w !! p); cbn; by eexists.
Qed.
Lemma gives_real_directory w p : gives w (real_directory never p) (dir_at w p).
Proof.
  eapply gives_bind; [apply gives_inspecting|]. unfold dir_at. destruct (w !! p) as [[]|]; apply gives_ret.
Qed.
Lemma gives_real_directories w ps : gives w (real_directories never ps) (forallb (dir_at w) ps).
Proof.
  induction ps as [|p ps IH]; [apply gives_ret|]. cbn [real_directories forallb].
  eapply gives_bind; [apply gives_real_directory|]. destruct (dir_at w p); [done|apply gives_ret].
Qed.

(** ** Looking with any failures *)
Section Reading.
Context (fault : nat → option string).
Lemma ok_inspecting w p :
  okspec w (inspecting p (symlink_metadata fault p)) (λ e w', w' = w ∧ e = w !! p).
Proof.
  intros n t. pose proof (spec_look fault (λ _, True) w (λ w, ok_or not_found (w !! p))
    (λ r w', w' = w ∧ match r with Ok e => w !! p = Some e | Err e => io_kind e = KNotFound → w !! p = None end)
    I) as H.
  assert (okr : ∀ a, ok_or not_found (w !! p) = Ok a → w = w ∧ w !! p = Some a) by (intros a; by destruct (w !! p); intros [= ->]).
  specialize (H okr). clear okr.
  assert (∀ e, ok_or not_found (w !! p) = Err e ∨ io_kind e = KOther → w = w ∧ (io_kind e = KNotFound → w !! p = None)) as Herr.
  { intros e [He|He]; (split; [done|]); [by destruct (w !! p)|rewrite He; discriminate]. }
  specialize (H Herr n t). clear Herr.
  unfold inspecting. destruct (symlink_metadata fault p _) as [r s] eqn:Es. unfold symlink_metadata in Es.
  rewrite Es in H. destruct H as [[Hw Hr] Ht]. destruct r as [e|e]; cbn.
  - split; [|done]. intros a [= <-]. by rewrite Hr.
  - split; [|done]. intros a. destruct (io_kind e); try done. intros [= <-]. by rewrite Hr.
Qed.
Lemma ok_real_directory w p : okspec w (real_directory fault p) (λ b w', w' = w ∧ b = dir_at w p).
Proof.
  apply ok_bind. eapply ok_mono; [apply ok_inspecting|]. intros e w' [-> ->]. apply ok_ret.
  split; [done|]. unfold dir_at. by destruct (w !! p) as [[]|].
Qed.
Lemma ok_real_directories w ps :
  okspec w (real_directories fault ps) (λ b w', w' = w ∧ b = forallb (dir_at w) ps).
Proof.
  induction ps as [|p ps IH]; [by apply ok_ret|]. cbn [real_directories forallb]. apply ok_bind.
  eapply ok_mono; [apply ok_real_directory|]. intros b w' [-> ->]. destruct (dir_at w p); [done|by apply ok_ret].
Qed.
Lemma ok_read_link {E} w p (f : IoErr → E) :
  okspec w (map_state_err f (read_link fault p)) (λ t w', w' = w ∧ w !! p = Some (ELink t)).
Proof.
  apply ok_map_err, ok_look. intros t. destruct (w !! p) as [[]|]; naive_solver.
Qed.
End Reading.

(** ** Ready *)
Section Ready.
Context (getfacl : string → Path → World → result string (bool * list Z)).

(** The generation the root names, over real directories. *)
Record live (w : World) (root generation : Path) (id : string) : Prop := {
  lv_parent : dir_at w (parent root) = true;
  lv_root : dir_at w root = true;
  lv_store : dir_at w (root ++ [".generations"]) = true;
  lv_current : w !! (root ++ [".current"]) = Some (ELink [".generations"; id]);
  lv_name : is_generation_id id = true;
  lv_path : generation = root ++ [".generations"; id];
  lv_generation : dir_at w generation = true
}.

(** The access list that lets exactly the declared accounts read. *)
Definition exact_acl (text : string) (uids : list Z) : Prop :=
  List.filter (λ line, negb (bool_decide (line = ""))) (str_lines text)
    ≡ₚ ["user::r--"; "group::---"; "mask::r--"; "other::---"] ++ ((λ uid, "user:" +:+ dec uid +:+ ":r--") <$> uids).
Definition readers_listed (w : World) (expected : ExpectedFile) (path : Path) : Prop :=
  ef_runtime_uids expected ≠ [] ∧ ∃ program stdout text,
    ef_acl_program expected = Some program ∧ getfacl program path w = Ok (true, stdout)
    ∧ zlen stdout ≤ 65536 ∧ from_utf8 stdout = Some text ∧ exact_acl text (ef_runtime_uids expected).
Record as_declared (w : World) (expected : ExpectedFile) (path : Path) : Prop := {
  ad_file : ∃ m contents, w !! path = Some (EFile m contents)
    ∧ m_uid m = ef_uid expected ∧ m_gid m = ef_gid expected
    ∧ (m_mode m = ef_mode expected ∨ m_mode m = oct [4; 4; 0] ∧ readers_listed w expected path)
}.

(** A declared secret in place. *)
Definition ready_in (w : World) (root : Path) (expected : ExpectedFile) : Prop :=
  ∃ generation id service category secret, live w root generation id
    ∧ expected_parts expected = [service; category; secret]
    ∧ w !! (root ++ [service]) = Some (ELink [".current"; service])
    ∧ dir_at w (generation ++ [service]) = true ∧ dir_at w (generation ++ [service; category]) = true
    ∧ as_declared w expected (generation ++ [service; category; secret]).

Lemma exact_runtime_acl_ok text uids : exact_runtime_acl text uids = true ↔ exact_acl text uids.
Proof. unfold exact_runtime_acl. by rewrite bool_decide_eq_true, merge_sort_perm. Qed.

Section Sound.
Context (fault : nat → option string).
Lemma ok_current_generation w root :
  okspec w (current_generation fault root) (λ g w', w' = w ∧ ∀ g', g = Some g' → ∃ id, live w root g' id).
Proof.
  unfold current_generation. apply ok_bind. eapply ok_mono; [apply ok_real_directories|].
  intros there w' [-> ->]. cbn [forallb]. destruct (dir_at w (parent root)) eqn:E1; [|by apply ok_ret].
  destruct (dir_at w root) eqn:E2; [|by apply ok_ret].
  destruct (dir_at w (root ++ [".generations"])) eqn:E3; [|by apply ok_ret]. cbn [andb].
  apply ok_bind. eapply ok_mono; [apply ok_inspecting|]. intros e w' [-> ->].
  destruct (w !! (root ++ [".current"])) as [e|] eqn:Ec; [|by apply ok_ret].
  apply ok_bind, ok_guard. intros _. apply ok_bind. eapply ok_mono; [apply ok_read_link|].
  intros t w' [-> Ht]. apply ok_bind, ok_guard. intros Hv. apply ok_bind.
  eapply ok_mono; [apply ok_real_directory|]. intros real w' [-> ->]. apply ok_ret. split; [done|].
  intros g'. destruct (dir_at w (root ++ t)) eqn:Ed; [|done]. intros [= <-].
  destruct t as [|st [|id [|]]]; try done. apply andb_true_iff in Hv as [->%bool_decide_eq_true Hid].
  exists id. by constructor.
Qed.

Lemma ok_runtime_acl_ready w expected path :
  ef_runtime_uids expected ≠ [] →
  okspec w (runtime_acl_ready getfacl expected path) (λ b w', w' = w ∧ (b = true → readers_listed w expected path)).
Proof.
  intros Hne n t. unfold runtime_acl_ready. cbn [fs_world fs_trace].
  split; [|by exists []]. intros b Hb. split; [done|]. intros ->. split; [done|].
  apply bind_ok in Hb as (program & Hp & Hb). apply bind_ok in Hb as ([success stdout] & Ho & Hb).
  apply guard_bind_ok in Hb as [Hg Hb]. apply bind_ok in Hb as (text & Ht & Hb).
  injection Hb as Hb. apply exact_runtime_acl_ok in Hb. exists program, stdout, text.
  destruct (ef_acl_program expected); cbn in Hp; [|done]. injection Hp as ->.
  destruct (getfacl program path w) as [o|]; cbn in Ho; [|done]. injection Ho as ->.
  destruct (from_utf8 stdout); cbn in Ht; [|done]. injection Ht as ->.
  apply negb_true_iff, orb_false_iff in Hg as [->%negb_false_iff ?%Z.ltb_ge]. done.
Qed.

Lemma ok_file_is_ready w expected path :
  okspec w (file_is_ready fault getfacl expected path) (λ b w', w' = w ∧ (b = true → as_declared w expected path)).
Proof.
  unfold file_is_ready. apply ok_bind. eapply ok_mono; [apply ok_inspecting|]. intros e w' [-> ->].
  destruct (w !! path) as [[|m contents| |]|] eqn:Ep; try by apply ok_ret.
  destruct (negb _ || negb _) eqn:Eo; [by apply ok_ret|].
  apply orb_false_iff in Eo as [Hu%negb_false_iff%Z.eqb_eq Hg%negb_false_iff%Z.eqb_eq].
  destruct (Z.eqb_spec (m_mode m) (ef_mode expected)) as [Em|Em].
  { apply ok_ret. split; [done|]. intros _. constructor. exists m, contents. by repeat (split; [done|]); left. }
  destruct (negb _ || bool_decide _) eqn:Er; [by apply ok_ret|].
  apply orb_false_iff in Er as [H4%negb_false_iff%Z.eqb_eq Hr%bool_decide_eq_false].
  eapply ok_mono; [by apply ok_runtime_acl_ready|]. intros b w' [-> H]. split; [done|]. intros Hb.
  constructor. exists m, contents. repeat (split; [done|]). right. split; [done|by apply H].
Qed.

Lemma ok_secret_is_ready w root expected :
  okspec w (secret_is_ready_at fault getfacl root expected)
    (λ b w', w' = w ∧ (b = true → ready_in w root expected)).
Proof.
  unfold secret_is_ready_at. apply ok_bind. eapply ok_mono; [apply ok_current_generation|].
  intros g w' [-> Hg]. destruct g as [g|]; [|by apply ok_ret]. destruct (Hg g eq_refl) as [id Hl].
  destruct (expected_parts expected) as [|service [|category [|secret [|]]]] eqn:Ep; try by apply ok_ret.
  apply ok_bind. eapply ok_mono; [apply ok_inspecting|]. intros e w' [-> ->].
  destruct (w !! (root ++ [service])) as [e|] eqn:Es; [|by apply ok_ret].
  apply ok_bind, ok_guard. intros _. apply ok_bind. eapply ok_mono; [apply ok_read_link|].
  intros t w' [-> Ht]. apply ok_bind, ok_guard. intros ->%bool_decide_eq_true.
  apply ok_bind. eapply ok_mono; [apply ok_real_directories|]. intros there w' [-> ->]. cbn [forallb].
  destruct (dir_at w (g ++ [service])) eqn:E1; [|by apply ok_ret].
  destruct (dir_at w (g ++ [service; category])) eqn:E2; [|by apply ok_ret]. cbn [andb].
  eapply ok_mono; [apply ok_file_is_ready|]. intros b w' [-> H]. split; [done|]. intros Hb.
  exists g, id, service, category, secret. by repeat (split; [by try apply H|]); apply H.
Qed.
End Sound.

(** ** Complete, when no call fails *)
Lemma gives_current_generation w root g id :
  live w root g id → gives w (current_generation never root) (Some g).
Proof.
  intros []. eapply gives_bind; [apply gives_real_directories|]. cbn [forallb].
  rewrite lv_parent0, lv_root0, lv_store0. cbn [andb].
  eapply gives_bind; [apply gives_inspecting|]. rewrite lv_current0.
  eapply gives_bind; [by apply gives_guard|]. eapply gives_bind.
  { apply gives_map_err, gives_look. by rewrite lv_current0. }
  eapply gives_bind; [by apply gives_guard|]. eapply gives_bind; [apply gives_real_directory|].
  subst. rewrite lv_generation0. apply gives_ret.
Qed.

Lemma gives_file_is_ready w expected path :
  as_declared w expected path → gives w (file_is_ready never getfacl expected path) true.
Proof.
  intros [(m & contents & Hp & Hu & Hg & Hm)]. eapply gives_bind; [apply gives_inspecting|].
  rewrite Hp, Hu, Hg, !Z.eqb_refl. cbn [negb orb]. destruct (Z.eqb_spec (m_mode m) (ef_mode expected)) as [|Hne].
  { apply gives_ret. }
  destruct Hm as [|[-> (Hr & program & stdout & text & Ha & Ho & Hz & Ht & Hx)]]; [done|].
  rewrite Z.eqb_refl, bool_decide_eq_false_2 by done. cbn [negb orb].
  intros s Hs. exists s. split; [|done]. unfold runtime_acl_ready. rewrite Ha. cbn.
  rewrite Hs, Ho. cbn. apply Z.ltb_ge in Hz. rewrite Hz. cbn. rewrite Ht. cbn.
  by apply exact_runtime_acl_ok in Hx as ->.
Qed.

Lemma gives_secret_is_ready w root expected :
  ready_in w root expected → gives w (secret_is_ready_at never getfacl root expected) true.
Proof.
  intros (g & id & service & category & secret & Hl & Hp & Hk & H1 & H2 & Hf).
  eapply gives_bind; [by eapply gives_current_generation|]. rewrite Hp.
  eapply gives_bind; [apply gives_inspecting|]. rewrite Hk.
  eapply gives_bind; [by apply gives_guard|]. eapply gives_bind.
  { apply gives_map_err, gives_look. by rewrite Hk. }
  eapply gives_bind; [by apply gives_guard, bool_decide_eq_true|].
  eapply gives_bind; [apply gives_real_directories|]. cbn [forallb]. rewrite H1, H2.
  by apply gives_file_is_ready.
Qed.

(** ** All of them *)
Lemma ok_missing_secrets fault w root secrets :
  okspec w (missing_secrets fault getfacl root secrets)
    (λ missing w', w' = w ∧ (missing = [] → Forall (ready_in w root) secrets)).
Proof.
  induction secrets as [|secret secrets IH]; cbn [missing_secrets]; [by apply ok_ret|].
  apply ok_bind. eapply ok_mono; [apply ok_secret_is_ready|]. intros ready w' [-> Hr].
  apply ok_bind. eapply ok_mono; [apply IH|]. intros missing w' [-> Hm]. apply ok_ret. split; [done|].
  destruct ready; [|done]. intros ->. constructor; auto.
Qed.
Lemma gives_missing_secrets w root secrets :
  Forall (ready_in w root) secrets → gives w (missing_secrets never getfacl root secrets) [].
Proof.
  induction 1 as [|secret secrets Hr _ IH]; [apply gives_ret|]. cbn [missing_secrets].
  eapply gives_bind; [by apply gives_secret_is_ready|]. eapply gives_bind; [apply IH|]. apply gives_ret.
Qed.

Lemma poll_ready fault root secrets elapsed p s p' :
  poll fault getfacl root secrets elapsed p s = (Ready, p') → Forall (ready_in (fs_world s) root) secrets.
Proof.
  unfold poll. intros H. destruct s as [w n t].
  pose proof (ok_missing_secrets fault w root secrets n t) as Hok.
  destruct (missing_secrets _ _ _ _ _) as [[[|x l]|e] s']; [|by destruct (observe _ _ _)|by destruct (observe_error _ _ _)].
  by destruct (proj1 Hok [] eq_refl) as [_ ?]; auto.
Qed.
Lemma ready_poll root secrets elapsed p s :
  Forall (ready_in (fs_world s) root) secrets →
  poll never getfacl root secrets elapsed p s = (Ready, p).
Proof.
  intros H. unfold poll. by destruct (gives_missing_secrets _ _ _ H s eq_refl) as (s' & -> & _).
Qed.
End Ready.

(** ** The loop *)
Section Loop.
Context (getfacl : nat → string → Path → World → result string (bool * list Z)).
Context (datagram : nat → string → string → result string Z).
Context (view : nat → Fs) (elapsed : nat → Z) (socket : option string).

Definition all_ready (k : nat) (secrets : list ExpectedFile) : Prop :=
  Forall (ready_in (getfacl k) (fs_world (view k)) SECRET_ROOT) secrets.

Lemma wait_ends fault fuel k secrets once p failed said :
  wait fault getfacl datagram view elapsed socket fuel k secrets once p failed = Some (Ok tt, said) →
  ∃ j, (k ≤ j < k + fuel)%nat ∧ all_ready j secrets.
Proof.
  revert k p failed said. induction fuel as [|fuel IH]; intros k p failed said; [done|]. cbn [wait].
  destruct (poll _ _ _ _ _ _ _) as [[|emit] p'] eqn:Ep.
  { intros _. exists k. split; [lia|by eapply poll_ready]. }
  destruct once; [done|]. destruct (say _ _ _ _ _) as [said1 failed1].
  intros ([r more] & H & [= -> _])%bind_Some. apply IH in H as (j & Hj & Hr). exists j. split; [lia|done].
Qed.

(** Nobody's call fails from poll [k] on. *)
Lemma wait_let_through fault k d secrets p failed fuel :
  fault (k + d)%nat = never → all_ready (k + d) secrets → (d < fuel)%nat →
  ∃ said, wait fault getfacl datagram view elapsed socket fuel k secrets false p failed = Some (Ok tt, said).
Proof.
  revert k p failed fuel. induction d as [|d IH]; intros k p failed [|fuel] Hf Hr Hd; try lia; cbn [wait].
  - rewrite Nat.add_0_r in *. rewrite Hf, ready_poll by done. eauto.
  - destruct (poll _ _ _ _ _ _ _) as [[|emit] p'] eqn:Ep; [eauto|].
    destruct (say _ _ _ _ _) as [said1 failed1]. replace (k + S d)%nat with (S k + d)%nat in * by lia.
    destruct (IH (S k) p' failed1 fuel Hf Hr ltac:(lia)) as [said ->]. cbn. eauto.
Qed.
End Loop.

(** C28: The waiter lets its consumers start exactly when every declared secret
    has been in place at one of its looks: it never ends well before, whatever
    calls fail in whatever look, and it does end with the first look that
    finds them all and is not disturbed; with [--once] it looks once. *)
Theorem waiter_lets_through getfacl datagram view elapsed socket fault secrets :
  (∀ fuel once p failed said,
     wait fault getfacl datagram view elapsed socket fuel 0 secrets once p failed = Some (Ok tt, said) →
     ∃ k, (k < fuel)%nat ∧ all_ready getfacl view k secrets)
  ∧ (∀ k, all_ready getfacl view k secrets → fault k = never → ∀ fuel p failed, (k < fuel)%nat →
     ∃ said, wait fault getfacl datagram view elapsed socket fuel 0 secrets false p failed = Some (Ok tt, said))
  ∧ (∀ fuel p failed, (0 < fuel)%nat →
     is_Some (wait fault getfacl datagram view elapsed socket fuel 0 secrets true p failed)).
Proof.
  split; [|split].
  - intros fuel once p failed said H. apply wait_ends in H as (k & Hk & Hr). exists k. split; [lia|done].
  - intros k Hr Hf fuel p failed Hk. by apply (wait_let_through _ _ _ _ _ _ 0 k).
  - intros [|fuel] p failed Hf; [lia|]. cbn [wait]. destruct (poll _ _ _ _ _ _ _) as [[|emit] p']; eauto.
Qed.

(** ** What the deployer publishes *)
Lemma same_generation_names value : is_generation_id value = valid_generation value.
Proof.
  unfold is_generation_id, valid_generation, all_digits. by destruct (split_once _ _) as [[time process]|].
Qed.

(** What the waiter's manifest says of a value of the deployer's batch. *)
Record declares (entry : ValidatedSecret) (expected : ExpectedFile) : Prop := {
  dc_path : expected_parts expected = vs_relative entry;
  dc_uid : ef_uid expected = rs_owner (vs_spec entry);
  dc_gid : ef_gid expected = rs_group (vs_spec entry);
  dc_mode : ef_mode expected = rs_mode (vs_spec entry)
}.

Lemma wf_dir w p q : wf_world w → q ≠ [] → is_Some (w !! (p ++ q)) → dir_at w p = true.
Proof.
  intros Hwf. revert p. induction q as [|c q IH] using rev_ind; intros p; [done|]. intros _ H.
  rewrite app_assoc in H. apply Hwf in H as [m Hm]. destruct q as [|d q].
  - rewrite app_nil_r in Hm. unfold dir_at. by rewrite Hm.
  - apply IH; [done|by rewrite Hm].
Qed.

