(* ===== verification/PublicDefault.v ===== *)
(** * Declared defaults of public information

    [crates/deploy/src/public_default.rs]: a unit that installs the declared
    default of a public leaf when nothing is installed there, and replaces
    only what it installed itself.

    SHA-256, base64, the SSH key parser and the manifest's JSON are arguments. *)
From S2P Require Import Prelude BTree Generator Schema SchemaValidation FileSystem FsUtil Deploy Text Paths Manifest.
#[local] Open Scope Z_scope.

(** ** Paths through the links of a root *)
(** Where a path leads; its last component is not followed. *)
Fixpoint resolve (fuel : nat) (w : World) (done rest : Path) : option Path :=
  match fuel, rest with
  | _, [] => Some done
  | O, _ => None
  | S fuel, component :: rest =>
      match w !! (done ++ [component]), rest with
      | Some (ELink target), _ :: _ => resolve fuel w done (target ++ rest)
      | _, _ => resolve fuel w (done ++ [component]) rest
      end
  end.
(** More than the components and links of any path below a root. *)
Definition LINKS : nat := 40.
Definition entry_at (w : World) (p : Path) : option entry := p ← resolve LINKS w [] p; w !! p.
Definition lstat (fault : nat → option string) (p : Path) : stE Fs IoErr entry :=
  look fault (λ w, ok_or not_found (entry_at w p)).
Definition read_through (fault : nat → option string) (p : Path) : stE Fs IoErr (list Z) :=
  look fault (λ w, match entry_at w p with
                   | Some (EFile _ contents) => Ok contents
                   | Some _ => Err (other "not a regular file")
                   | None => Err not_found
                   end).

(** [O_CREAT | O_TRUNC | O_NOFOLLOW]. *)
Definition open_truncated (K : Kernel) (fault : nat → option string) (p : Path) (mode : Z) : stE Fs IoErr unit :=
  sys fault (λ w, match w !! p with
                  | Some (EFile m _) => Ok (tt, <[p := EFile m []]> w)
                  | Some (ELink _) => Err (other "Too many levels of symbolic links")
                  | Some _ => Err (other "Is a directory")
                  | None => create p (λ pm, EFile (created K pm mode false) []) w
                  end).

Definition PROVENANCE_DIR : string := ".public-defaults".
Inductive Decision := Install | Unchanged | Replace | KeepOperatorValue.
#[export] Instance decision_eq_dec : EqDecision Decision.
Proof. solve_decision. Defined.
Inductive Installed := Absent | Present (digest : option string).

Definition decide_default (recorded installed_by_default : option string) (new_version : string)
    (installed : Installed) : Decision :=
  match recorded, installed with
  | None, Absent => Install
  | Some recorded, installed =>
      if bool_decide (recorded = new_version) then Unchanged
      else match installed with
           | Present (Some digest) =>
               if bool_decide (installed_by_default = Some recorded) && bool_decide (digest = recorded)
               then Replace else KeepOperatorValue
           | _ => KeepOperatorValue
           end
  | None, Present _ => KeepOperatorValue
  end.

Section PublicDefault.
Context (K : Kernel) (fault : nat → option string).
Context (to_json : list (string * string) → result string (list Z)).
Context (from_json : list Z → result string (list (string * string))).
Context (hash_order : list string → list string).
Context (sha256 : list Z → list Z).
Context (from_openssh : string → option Algorithm).

Definition sha256_hex (contents : list Z) : string := hex_of (sha256 contents).
Definition provenance_path (root : Path) (identifier : string) : Path :=
  root ++ [PROVENANCE_DIR; sha256_hex (bytes identifier)].

Definition installed_by_default (root : Path) (identifier : string) : FS (option string) :=
  let path := provenance_path root identifier in
  metadata ← unless_absent (symlink_metadata fault path);
  match metadata with
  | Some (EFile _ contents) =>
      if 256 <? zlen contents then mret None
      else text ← io (read_file fault path); mret (from_utf8 text)
  | _ => mret None
  end.

Definition record_installed_by_default (root : Path) (identifier version : string) : FS unit :=
  let directory := root ++ [PROVENANCE_DIR] in
  created ← attempt (create_directory K fault directory (oct [7; 0; 0]));
  _ ← match created with
      | Err (Io error) =>
          if bool_decide (io_kind error = KAlreadyExists)
          then require_real_directory fault directory "public default provenance"
          else st_lift (Err (Io error))
      | result => st_lift result
      end;
  let path := provenance_path root identifier in
  let staged := directory ++ [sha256_hex (bytes identifier) +:+ ".new"] in
  _ ← io (open_truncated K fault staged (oct [6; 0; 0]));
  _ ← io (write_file fault staged (bytes version));
  _ ← io (sync_path fault staged);
  _ ← io (rename fault staged path);
  sync_directory fault directory.

Definition secret_path (root : Path) (service : string) (class : SecretClass) (secret : string)
  : result DeployError Path :=
  _ ← validate_name "service" service;
  _ ← validate_name "secret" secret;
  let directory := directory class in
  Ok (root ++ [service] ++ (if bool_decide (directory = "") then [] else [directory]) ++ [secret]).

Definition inspect_installed (path : Path) : FS Installed :=
  metadata ← unless_absent (lstat fault path);
  match metadata with
  | None => mret Absent
  | Some (EFile _ contents) =>
      if MAX_KNOWN_HOSTS_BYTES <? zlen contents then mret (Present None)
      else contents ← io (read_through fault path); mret (Present (Some (sha256_hex contents)))
  | Some _ => mret (Present None)
  end.

(** The decision, taken under the deployment lock. *)
Definition decide_under_lock (root : Path) (entry : ResolvedSecret) : FS Decision :=
  versions ← current_versions fault from_json root;
  destination ← st_lift (secret_path root (rs_service entry) (rs_class entry) (rs_secret entry));
  by_default ← installed_by_default root (rs_identifier entry);
  installed ← inspect_installed destination;
  mret (decide_default (bt_get (rs_identifier entry) versions) by_default (rs_version_id entry) installed).
Definition installs (decision : Decision) : bool :=
  match decision with Install | Replace => true | _ => false end.

(** [deploy_if] with a [proceed] that returns what it decided. *)
Definition deploy_if {A} (d : Deployer) (batch : list ResolvedSecret) (id : string)
    (proceed : FS A) (approves : A → bool) (published : FS unit) : FS A :=
  entries ← st_lift (validate batch);
  _ ← prepare_root K fault d;
  _ ← lock_deployments K fault d;
  _ ← recover_locked K fault d;
  go ← proceed;
  if approves go then
    r ← attempt (run_deploy K fault to_json from_json hash_order d entries id);
    _ ← (if is_ok r then mret (Ok tt) else attempt (recover_locked K fault d));
    _ ← st_lift (map_err (during (publishing d)) r);
    _ ← published;
    mret go
  else mret go.

Definition install (d : Deployer) (public : list ResolvedSecret) (id : string) : FS Decision :=
  match public with
  | [entry] =>
      _ ← st_guard (bool_decide (rs_class entry = PublicInfo)) (Invalid "public default is not public information");
      deploy_if d public id (decide_under_lock (dp_root d) entry) installs
        (record_installed_by_default (dp_root d) (rs_identifier entry) (rs_version_id entry))
  | _ => st_lift (Err (Invalid "public default did not resolve to one public destination"))
  end.

(** The value to install and its version. *)
Definition usable_default (spec : SecretSpec) (value : list Z) (version : string) : option (list Z * string) :=
  let hosts := spec_ssh_hosts spec in
  let port := default 0 (ss_expected_ssh_port spec) in
  let valid text := is_ok (validate_ssh_known_hosts from_openssh text hosts port) in
  if is_some_and valid (from_utf8 value) then Some (value, version)
  else
    fallback ← ss_default_value spec;
    if valid fallback then Some (bytes fallback, sha256_hex (bytes fallback)) else None.

Context (schema_error : SchemaError → string) (schema_from_json : string → result string Schema).
Context (b64_encode : list Z → string).
(** The receiver's validation of a batch, over the same manifest. *)
Context (load_and_validate : string → string → DeploymentBatch → result DeployError (list ResolvedSecret)).

(** The leaf that declares a default. *)
Definition default_leaf (schema_text hostname identifier : string) : result DeployError SecretSpec :=
  schema ← map_err Invalid (schema_from_json schema_text);
  path ← map_err (λ error, Invalid (schema_error error)) (path_parse identifier);
  _ ← guard_err (bool_decide (head path = Some hostname)) (Invalid "public default belongs to another host");
  spec ← map_err (λ error, Invalid (schema_error error)) (secret schema path);
  _ ← guard_err (bool_decide (ss_kind spec = KPublicInfo) && ss_install_default_if_missing spec)
        (Invalid "public default is not enabled by the manifest");
  Ok spec.

Definition default_batch (identifier version : string) (value : list Z) : DeploymentBatch :=
  {| db_version := 1; db_requested_identifiers := [identifier];
     db_entries := [{| sd_identifier := identifier; sd_version_id := version;
                       sd_contents_base64 := b64_encode value |}] |}.

(** The source file, when it is needed. *)
Definition read_source (source : result IoErr FileInfo) : result DeployError (list Z) :=
  file ← map_err Io source;
  _ ← guard_err (fi_is_file file && (fi_len file <=? MAX_KNOWN_HOSTS_BYTES))
        (Invalid "public default source is invalid");
  Ok (fi_contents file).

Definition install_public_default `{HostFiles} (manifest hostname identifier source version id : string) : FS unit :=
  _ ← st_guard (negb (bool_decide (version = "") || (256 <? slen version) || negb (all_bytes is_ascii_hexdigit version)))
        (Invalid "invalid public default version");
  schema_file ← st_lift (map_err Io (follow manifest));
  schema_text ← st_lift (ok_or (Io (other "stream did not contain valid UTF-8")) (from_utf8 (fi_contents schema_file)));
  spec ← st_lift (default_leaf schema_text hostname identifier);
  _ ← recover_alone K fault public_info;
  versions ← current_versions fault from_json (dp_root public_info);
  if bool_decide (bt_get identifier versions = Some version) then mret tt
  else
    value ← st_lift (read_source (follow source));
    match usable_default spec value version with
    | None => mret tt
    | Some (value, version) =>
        resolved ← st_lift (load_and_validate manifest hostname (default_batch identifier version value));
        let '(private, public) := partition resolved in
        _ ← st_guard (bool_decide (private = []) && negb (bool_decide (public = []))
                      && (zlen (audit_details public) =? 1))
              (Invalid "public default did not resolve to one public destination");
        _ ← install public_info public id;
        mret tt
    end.
End PublicDefault.
