(* ===== verification/PublicDefaultFacts.v ===== *)
(** * The operator's public information is never replaced *)
From S2P Require Import Prelude BTree Generator Schema SchemaValidation FileSystem FsUtil Deploy Text Paths Manifest Together PublicDefault.
#[local] Open Scope Z_scope.

(** ** Runs whose worlds do not matter *)
Definition logs {E A} (m : stE Fs E A) : Prop := ∀ s, ∃ t', fs_trace (m s).2 = t' ++ fs_trace s.

Section Logs.
Context {E A B : Type}.
Lemma logs_ret (a : A) : logs (mret a : stE Fs E A).
Proof. intros s. by exists []. Qed.
Lemma logs_lift (r : result E A) : logs (st_lift r).
Proof. intros s. by exists []. Qed.
Lemma logs_bind (m : stE Fs E A) (k : A → stE Fs E B) : logs m → (∀ a, logs (k a)) → logs (m ≫= k).
Proof.
  intros Hm Hk s. unfold mbind, stE_bind. destruct (Hm s) as [t1 H1]. destruct (m s) as [[a|e] s1]; [|by exists t1].
  destruct (Hk a s1) as [t2 H2]. exists (t2 ++ t1). cbn in H1. by rewrite H2, H1, app_assoc.
Qed.
Lemma logs_attempt {F} (m : stE Fs E A) : logs m → logs (attempt m : stE Fs F _).
Proof. intros Hm s. unfold attempt. specialize (Hm s). by destruct (m s). Qed.
Lemma logs_map_err {F} (f : E → F) (m : stE Fs E A) : logs m → logs (map_state_err f m).
Proof. intros Hm s. unfold map_state_err. specialize (Hm s). by destruct (m s). Qed.
Lemma logs_spec (I : World → Prop) w (m : stE Fs E A) Q : spec I w m Q → ∀ n t,
  ∃ t', fs_trace (m {| fs_world := w; fs_calls := n; fs_trace := t |}).2 = t' ++ t.
Proof. intros H n t. specialize (H n t). destruct (m _) as [r s]. naive_solver. Qed.
Lemma logs_frames P (m : stE Fs E A) : frames P m → logs m.
Proof. intros H [w n t]. by eapply logs_spec. Qed.
Lemma spec_always (I : World → Prop) w (m : stE Fs E A) (Q : result E A → World → Prop) :
  logs m → (∀ w', I w') → (∀ r w', Q r w') → spec I w m Q.
Proof.
  intros Hm HI HQ n t. destruct (Hm {| fs_world := w; fs_calls := n; fs_trace := t |}) as [t' Ht].
  destruct (m _) as [r s]. split; [apply HQ|]. exists t'. split; [done|]. by apply Forall_true.
Qed.
End Logs.
#[export] Hint Resolve logs_ret logs_lift : logs.

Section Facts.
Context (K : Kernel) (fault : nat → option string) (HK : kernel_ok K).
Context (to_json : list (string * string) → result string (list Z)).
Context (from_json : list Z → result string (list (string * string))).
Context (hash_order : list string → list string).
Context (sha256 : list Z → list Z).
Context (secrets public : Deployer).
Notation S := (dp_root secrets).
Notation P := (dp_root public).
Context (Hapart : apart S P) (Hpair : dp_commit_root public = Some S).

(** ** The decision *)
(** Nothing is there, or exactly what this unit recorded installing. *)
Definition unclaimed (w : World) (entry : ResolvedSecret) : Prop :=
  ∃ destination, secret_path P (rs_service entry) (rs_class entry) (rs_secret entry) = Ok destination ∧
  let recorded := bt_get (rs_identifier entry) (read_versions from_json (tree_at P (pointer P w) w)) in
  (recorded = None ∧ entry_at w destination = None)
  ∨ ∃ version m contents m' text,
      recorded = Some version ∧ version ≠ rs_version_id entry
      ∧ entry_at w destination = Some (EFile m contents) ∧ sha256_hex sha256 contents = version
      ∧ w !! provenance_path sha256 P (rs_identifier entry) = Some (EFile m' text) ∧ from_utf8 text = Some version.

Lemma ok_installed_by_default w identifier :
  okspec w (installed_by_default fault sha256 P identifier) (λ v w', w' = w ∧ ∀ version, v = Some version →
    ∃ m text, w !! provenance_path sha256 P identifier = Some (EFile m text) ∧ from_utf8 text = Some version).
Proof.
  unfold installed_by_default. apply ok_bind, ok_unless_absent; [|by intros; apply ok_ret].
  intros e He. destruct e as [|m text| |]; try by apply ok_ret. destruct (256 <? zlen text); [by apply ok_ret|].
  assert (w !! provenance_path sha256 P identifier = Some (EFile m text)) as Hw.
  { by destruct (w !! provenance_path sha256 P identifier); simplify_eq/=. }
  apply ok_bind, ok_map_err, ok_look. intros a. rewrite Hw. intros [= <-]. apply ok_ret. split; [done|].
  intros version Hv. eauto.
Qed.

Lemma ok_inspect_installed w destination :
  okspec w (inspect_installed fault sha256 destination) (λ i w', w' = w ∧
    (i = Absent → entry_at w destination = None)
    ∧ ∀ digest, i = Present (Some digest) → ∃ m contents,
        entry_at w destination = Some (EFile m contents) ∧ sha256_hex sha256 contents = digest).
Proof.
  unfold inspect_installed. apply ok_bind, ok_unless_absent.
  - intros e He. destruct e as [|m contents| |]; try by apply ok_ret.
    destruct (MAX_KNOWN_HOSTS_BYTES <? zlen contents); [by apply ok_ret|].
    assert (entry_at w destination = Some (EFile m contents)) as Hw by (by destruct (entry_at w destination); simplify_eq/=).
    apply ok_bind, ok_map_err, ok_look. intros a. rewrite Hw. intros [= <-]. apply ok_ret.
    split_and!; [done|done|]. intros digest [= <-]. eauto.
  - intros e He Hk. apply ok_ret. split_and!; [done| |done]. intros _.
    destruct (entry_at w destination); [done|done].
Qed.

Lemma ok_decide_under_lock w entry :
  okspec w (decide_under_lock fault from_json sha256 P entry) (λ d w', installs d = true → unclaimed w entry).
Proof.
  unfold decide_under_lock. apply ok_bind. eapply ok_mono; [apply (current_versions_ok fault to_json)|].
  intros versions w' (-> & -> & _). apply ok_bind, ok_lift. intros destination Hd.
  apply ok_bind. eapply ok_mono; [apply ok_installed_by_default|]. intros by_default w' [-> Hp].
  apply ok_bind. eapply ok_mono; [apply ok_inspect_installed|]. intros installed w' (-> & Ha & Hi).
  apply ok_ret. intros Hin. exists destination. split; [done|]. cbv zeta.
  destruct (bt_get _ _) as [recorded|] eqn:Er; cbn [decide_default] in Hin.
  - case_bool_decide as Hv; [done|]. destruct installed as [|[digest|]]; try done.
    destruct (bool_decide (by_default = Some recorded)) eqn:Eb; [|done].
    case_bool_decide as Hdig; [|done]. apply bool_decide_eq_true in Eb. subst digest.
    destruct (Hi recorded eq_refl) as (m & contents & He & Hs). destruct (Hp recorded Eb) as (m' & text & Hpt & Htx).
    right. by exists recorded, m, contents, m', text.
  - destruct installed; [|done]. left. split; [done|by apply Ha].
Qed.

Lemma frames_decide_under_lock A entry : frames A (decide_under_lock fault from_json sha256 P entry).
Proof.
  assert (∀ T (f : World → result IoErr T), frames A (unless_absent (look fault f))) as Hu
    by (intros; apply frames_unless_absent, frames_look).
  unfold decide_under_lock. apply frames_bind; [apply frames_current_versions|intros versions].
  apply frames_bind; [apply frames_lift|intros destination].
  apply frames_bind; [unfold installed_by_default; cbv zeta; apply frames_bind; [apply Hu|intros e]; frame|intros by_default].
  apply frames_bind; [|intros; frame]. unfold inspect_installed. apply frames_bind; [apply Hu|intros e]. frame.
Qed.

(** ** Runs that change what consumers are given *)
Lemma logs_call {A} (f : World → result IoErr (A * World)) : logs (io (sys fault f)).
Proof.
  apply logs_map_err. intros s. unfold sys. destruct (fault _); [by exists []|].
  destruct (f _) as [[a w]|]; cbn; [by exists [w]|by exists []].
Qed.
Lemma logs_everywhere {E A} (m : stE Fs E A) : frames (λ _, True) m → logs m.
Proof. apply logs_frames. Qed.

Lemma logs_settle root committed current ids forward discarded :
  logs (settle fault root committed current ids forward discarded).
Proof.
  revert forward discarded. induction ids as [|i ids IH]; intros forward discarded; cbn [settle]; [apply logs_ret|].
  destruct (bool_decide _); [apply IH|]. apply logs_bind; [|intros; apply IH].
  apply logs_everywhere. unfold discard.
  assert (frames (λ _, True) (io (remove_file fault (pending_pointer root i)))) as Hr by (by apply frames_io; eauto with fs).
  apply frames_bind; [exact Hr|intros _]. destruct (bool_decide _); [frame|].
  apply frames_bind; [apply frames_unless_absent, frames_look|intros [[]|]]; frame.
Qed.

Lemma logs_recover_locked d : logs (recover_locked K fault d).
Proof.
  apply logs_map_err. unfold recover_pending. cbv zeta.
  assert (∀ root, logs (current_generation fault root)) as Hc.
  { intros root. apply (logs_everywhere _), frames_current_generation. }
  apply logs_bind; [destruct (dp_commit_root d); [apply Hc|apply logs_ret]|intros committed].
  apply logs_bind; [apply Hc|intros current].
  apply logs_bind; [apply (logs_everywhere _), frames_pending_pointers|intros ids].
  apply logs_bind; [apply logs_settle|intros [forward discarded]].
  apply logs_bind; [apply (logs_everywhere _); frame; apply frames_exists|intros _].
  destruct forward as [id|]; [|apply logs_ret]. apply (logs_everywhere _). frame.
Qed.

Lemma logs_run_deploy d entries id :
  valid_generation id = true → logs (run_deploy K fault to_json from_json hash_order d entries id).
Proof.
  intros Hid. unfold run_deploy. apply logs_bind; [by apply (logs_everywhere _), frames_prepare|intros _].
  apply logs_bind; [apply (logs_everywhere _); unfold switch; frame|intros _].
  by eapply logs_frames, frames_prune.
Qed.

Lemma logs_record root identifier version :
  logs (record_installed_by_default K fault sha256 root identifier version).
Proof.
  unfold record_installed_by_default. cbv zeta.
  apply logs_bind; [apply logs_attempt, (logs_everywhere _); by apply frames_create_directory|intros created].
  apply logs_bind; [apply (logs_everywhere _); frame|intros _].
  apply logs_bind; [apply logs_call|intros _]. apply (logs_everywhere _). frame.
Qed.

(** C2: The unit installs a declared default only where nothing is, or where what
    is there is exactly the default it recorded installing: until such a
    moment every state of the run gives consumers what they had, and a run
    that decides to keep the installed value changes nothing for them. *)
Theorem operator_value_kept w0 batch id :
  valid_generation id = true → startable secrets public id w0 →
  spec (λ w', same_view S P w0 w' ∨ ∃ entry w, batch = [entry] ∧ same_view S P w0 w ∧ unclaimed w entry) w0
    (install K fault to_json from_json hash_order sha256 public batch id)
    (λ r w', ∀ d, r = Ok d → installs d = false → same_view S P w0 w').
Proof.
  intros Hid Hw0. set (I := λ w' : World, same_view S P w0 w' ∨ _).
  assert (∀ w', same_view S P w0 w' → I w') as HI by (by left).
  destruct batch as [|entry [|]]; [by apply spec_lift| |by apply spec_lift].
  unfold install. apply spec_bind, spec_guard; [intros _|done].
  unfold deploy_if. apply spec_bind, spec_lift. destruct (validate [entry]) as [entries|]; [|done].
  eapply (spec_entering secrets public Hapart I id w0);
    [by apply frames_prepare_root; exists P; auto|done|apply same_view_refl|done| |done].
  intros _ w1 Hw1 Hv1.
  eapply (spec_entering secrets public Hapart I id w0);
    [by apply frames_lock_deployments; exists P; auto|done|done|done| |done].
  intros _ w2 Hw2 Hv2. apply spec_bind.
  eapply spec_mono; [apply (recover_locked_spec K fault HK secrets public Hapart public w2); auto|..].
  { by eapply startable_steady. }
  { intros w' H. apply HI. by eapply same_view_trans. }
  intros [[]|e] w3 (Hv3 & Hs3 & _); [|done]. assert (same_view S P w0 w3) as H3 by (by eapply same_view_trans).
  apply spec_bind. eapply spec_mono; [apply (spec_and _ _ _ _ _ _ (ok_decide_under_lock w3 entry)
    (spec_frames_nothing w3 _ (frames_decide_under_lock _ entry)))|..].
  { intros w' [_ ->]. by apply HI. }
  intros [d|e] w4 [Hd ->]; [|done]. specialize (Hd d eq_refl).
  destruct (installs d) eqn:Ei; [|by apply spec_ret; intros ? _ _].
  assert (∀ w', I w') as Hany by (intros w'; right; exists entry, w3; auto).
  assert (∀ w' (e : DeployError) d', Err e = Ok d' → installs d' = false → same_view S P w0 w') as Herr by done.
  apply spec_bind, spec_always; [by apply logs_attempt, logs_run_deploy|done|intros [r|?] w5; [|apply Herr]].
  apply spec_bind, spec_always; [destruct r; [apply logs_ret|apply logs_attempt, logs_recover_locked]|done|].
  intros [_|?] w6; [|apply Herr]. apply spec_bind, spec_lift.
  destruct (map_err _ r) as [[]|]; [|apply Herr].
  apply spec_bind, spec_always; [apply logs_record|done|intros [_|?] w7; [|apply Herr]].
  apply spec_ret. intros d' [= <-]. by rewrite Ei.
Qed.
End Facts.
