(* ===== verification/Prune.v ===== *)
(** * What pruning keeps

    [prune_generations] of [crates/deploy/src/deploy/staging.rs]: the current
    generation and the newest others, at most [RETAINED_GENERATIONS]
    directories in all; everything kept is untouched. *)
From S2P Require Import Prelude BTree FileSystem FsUtil Text Deploy Together.
#[local] Open Scope Z_scope.

(** ** Newer names first *)
#[export] Instance newer_total : Total newer.
Proof.
  intros a b. unfold newer. rewrite (kcmp_opp a b). destruct (kcmp a b); cbn; auto.
Qed.
#[export] Instance newer_trans : Transitive newer.
Proof.
  intros a b c. unfold newer. intros H1 H2.
  destruct (kcmp_spec b a) as [->|Hab|]; [done| |done].
  destruct (kcmp_spec c b) as [->|Hbc|]; [|by rewrite (kcmp_trans _ _ _ Hbc Hab)|done].
  unfold klt in Hab. by rewrite Hab.
Qed.

Lemma filter_ext_in {A : Type} (P Q : A → Prop) `{∀ x, Decision (P x), ∀ x, Decision (Q x)} (l : list A) :
  (∀ x, x ∈ l → P x ↔ Q x) → filter P l = filter Q l.
Proof.
  induction l as [|x l IH]; intros H'; [done|]. rewrite !filter_cons.
  rewrite IH by (intros; apply H'; by right). pose proof (H' x ltac:(by left)) as Hx.
  by repeat case_decide; try tauto.
Qed.

Lemma keep_newest_spec keep names :
  NoDup names → (length keep ≤ RETAINED_GENERATIONS)%nat →
  keep_newest keep names
  = keep ++ take (RETAINED_GENERATIONS - length keep) (filter (λ n, n ∉ keep) names).
Proof.
  revert keep. induction names as [|name names IH]; intros keep Hnd Hlen; cbn [keep_newest].
  { by rewrite filter_nil, take_nil, app_nil_r. }
  apply NoDup_cons in Hnd as [Hn Hnd].
  case_bool_decide as Hfull; [by rewrite Hfull, Nat.sub_diag, app_nil_r|].
  case_bool_decide as Hin.
  - rewrite IH by done. rewrite filter_cons_False by tauto. done.
  - assert (length (keep ++ [name]) = S (length keep)) as Hl by (rewrite length_app; cbn; lia).
    rewrite IH, Hl by (try done; lia). rewrite filter_cons_True by done.
    rewrite <- app_assoc. f_equal.
    replace (RETAINED_GENERATIONS - length keep)%nat
      with (S (RETAINED_GENERATIONS - S (length keep))) by lia.
    cbn [take app]. do 2 f_equal. apply filter_ext_in. intros x Hx.
    assert (x ≠ name) by (intros ->; done). rewrite elem_of_app, list_elem_of_singleton. tauto.
Qed.

Lemma sorted_filter {A : Type} (R : A → A → Prop) (P : A → Prop) `{∀ x, Decision (P x)} (l : list A) :
  StronglySorted R l → StronglySorted R (filter P l).
Proof.
  induction 1 as [|x l Hl IH Hx]; [constructor|]. rewrite filter_cons. case_decide; [|done].
  constructor; [done|]. apply Forall_forall. intros y [_ Hy]%list_elem_of_filter.
  by eapply Forall_forall in Hx.
Qed.

(** Of the names kept for their age, none is older than one left out. *)
Lemma kept_newer k active names name kept :
  let others := filter (λ n, n ∉ [active]) (merge_sort newer names) in
  name ∈ others → name ∉ take k others → kept ∈ take k others → klt name kept.
Proof.
  intros others Hn Hnk Hk. assert (StronglySorted newer others) as Hs.
  { apply sorted_filter, StronglySorted_merge_sort; apply _. }
  rewrite <- (take_drop k others) in Hs, Hn.
  apply elem_of_app in Hn as [Hn|Hn]; [done|].
  pose proof (StronglySorted_app_1_elem_of _ _ _ _ _ Hs Hk Hn) as Hnew.
  unfold newer in Hnew. destruct (kcmp_spec name kept) as [->|?|?]; [done..|].
  by destruct Hnew.
Qed.

(** ** Removing trees *)
Lemma remove_all_ok fault ps w :
  okspec w (remove_all fault ps) (λ _ w', ∀ q, w' !! q = if decide (q ∈ ps) then None else w !! q).
Proof.
  revert w. induction ps as [|p ps IH]; intros w; cbn [remove_all].
  { apply ok_ret. intros q. by rewrite decide_False by apply not_elem_of_nil. }
  apply ok_bind, ok_sys. intros [] w1 H%remove_entry_lookup. subst w1.
  eapply ok_mono; [apply IH|]. intros [] w' Hw' q. rewrite Hw'.
  destruct (decide (q ∈ ps)) as [Hq|Hq]; [by rewrite decide_True by (by right)|].
  destruct (decide (q = p)) as [->|Hne].
  - by rewrite lookup_delete_eq, decide_True by (by left).
  - rewrite lookup_delete_ne, decide_False by (try done; by intros [?|?]%elem_of_cons). done.
Qed.

Lemma remove_dir_all_ok fault p w :
  okspec w (remove_dir_all fault p) (λ _ w', ∀ q, w' !! q = if decide (under p q) then None else w !! q).
Proof.
  apply ok_bind, ok_look. intros ps [= <-]. eapply ok_mono; [apply remove_all_ok|].
  intros [] w' Hw' q. rewrite Hw'. pose proof (elem_below p w q) as Hb.
  destruct (decide (q ∈ below p w)) as [Hq|Hq], (decide (under p q)) as [Hu|Hu];
    try done; [by apply Hb in Hq as [? _]|].
  destruct (w !! q) eqn:E; [|done]. exfalso. apply Hq, Hb. eauto.
Qed.

(** ** The scan of the store and the removal of old generations *)
Section Prune.
Context (K : Kernel) (fault : nat → option string) (HK : kernel_ok K) (root : Path).

Definition in_store (name : string) (q : Path) : Prop := under (store root ++ [name]) q.
Definition staging_name (name : string) : Prop := starts_with ".staging-" name = true.

Lemma in_store_inj a b q : in_store a q → in_store b q → a = b.
Proof.
  unfold in_store. intros [x ->]%under_spec [y E]%under_spec.
  rewrite <- !app_assoc in E. apply app_inv_head in E. by injection E.
Qed.

(** What the scan of [names] removes: staging directories. *)
Definition scanned (names : list string) (w w' : World) : Prop :=
  (∀ q, (∀ name, name ∈ names → staging_name name → ¬ in_store name q) → w' !! q = w !! q)
  ∧ (∀ name q, name ∈ names → staging_name name → dir_at w (store root ++ [name]) = true →
       in_store name q → w' !! q = None).
Definition generation_dir (w : World) (name : string) : Prop :=
  valid_generation name = true ∧ dir_at w (store root ++ [name]) = true.

Lemma scanned_cons name names w w1 w' :
  name ∉ names →
  (∀ q, (staging_name name → ¬ in_store name q) → w1 !! q = w !! q) →
  (∀ q, staging_name name → dir_at w (store root ++ [name]) = true → in_store name q → w1 !! q = None) →
  scanned names w1 w' → scanned (name :: names) w w'.
Proof.
  intros Hn H1 H2 [H3 H4].
  assert (∀ n q, n ∈ names → in_store n q → ¬ in_store name q) as Hne.
  { intros n q Hin Hq Hq'. by rewrite (in_store_inj _ _ _ Hq Hq') in Hin. }
  split.
  - intros q Hq. rewrite H3, H1; [done|apply Hq; by left|]. intros n Hin. apply Hq. by right.
  - intros n q [->|Hin]%elem_of_cons Hs Hd Hq.
    + rewrite H3; [by apply H2|]. intros n' Hin' _ Hq'. by eapply Hne.
    + eapply H4; [done..| |done]. unfold dir_at. rewrite H1; [done|]. intros _.
      eapply Hne; [done|]. apply under_refl.
Qed.

(** The generations of a list of names, [name] looked at first. *)
Lemma generations_cons name names (gens : list string) (w : World) :
  name ∉ names →
  (∀ n, n ∈ gens ↔ n ∈ names ∧ ¬ staging_name n ∧ generation_dir w n) → NoDup gens →
  let gens' := if valid_generation name && dir_at w (store root ++ [name]) then name :: gens else gens in
  ¬ staging_name name →
  NoDup gens' ∧ ∀ n, n ∈ gens' ↔ n ∈ name :: names ∧ ¬ staging_name n ∧ generation_dir w n.
Proof.
  intros Hn Hg Hnd gens' Hs. unfold gens', generation_dir in *.
  destruct (valid_generation name) eqn:Ev, (dir_at w (store root ++ [name])) eqn:Ed; cbn.
  1: { split; [apply NoDup_cons; split; [rewrite Hg; tauto|done]|].
       intros n. rewrite !elem_of_cons, Hg. split; [|tauto]. intros [->|H]; tauto. }
  all: split; [done|]; intros n; rewrite elem_of_cons, Hg; split; [tauto|];
    intros ([->|H] & ? & ? & ?); [congruence|tauto].
Qed.

Lemma list_generations_ok names w :
  NoDup names →
  okspec w (list_generations fault root names) (λ gens w',
    NoDup gens ∧ (∀ n, n ∈ gens ↔ n ∈ names ∧ ¬ staging_name n ∧ generation_dir w n)
    ∧ scanned names w w').
Proof.
  revert w. induction names as [|name names IH]; intros w Hnd; cbn [list_generations].
  { apply ok_ret. split_and!; [constructor| |split; [done|by intros n q ?%elem_of_nil]].
    intros n. split; [|by intros [? _]]. by intros ?%elem_of_nil. }
  apply NoDup_cons in Hnd as [Hn Hnd].
  apply ok_bind, ok_io, ok_look. intros [] _. apply ok_bind, ok_io, ok_look. intros e He.
  assert (dir_at w (store root ++ [name]) = is_dir e) as Hd.
  { unfold dir_at. destruct (w !! (store root ++ [name])) as [e'|]; [|done].
    cbn in He. injection He as ->. by destruct e. }
  clear He. destruct (starts_with ".staging-" name) eqn:Es.
  - apply ok_bind. apply (ok_mono _ _ (λ _ w1,
      (∀ q, ¬ in_store name q → w1 !! q = w !! q)
      ∧ ∀ q, is_dir e = true → in_store name q → w1 !! q = None)).
    { destruct (is_dir e); [|by apply ok_ret].
      apply ok_io. eapply ok_mono; [apply remove_dir_all_ok|].
      intros [] w1 H1. split; intros q; rewrite H1; intros Hq; [by rewrite decide_False|].
      intros Hq'. by rewrite decide_True. }
    intros [] w1 [H1 H2]. eapply ok_mono; [by apply IH|].
    assert (∀ n, n ∈ names → w1 !! (store root ++ [n]) = w !! (store root ++ [n])) as Hsame.
    { intros n Hin. apply H1. intros Hu.
      by rewrite (in_store_inj n name _ (under_refl _) Hu) in Hin. }
    intros gens w' (G1 & G2 & G3). split_and!; [done| |].
    + intros n. rewrite G2, elem_of_cons. unfold generation_dir, dir_at. split.
      * intros (Hin & Hs & Hv & Hd'). rewrite Hsame in Hd' by done. tauto.
      * intros ([->|Hin] & Hs & Hv & Hd'); [done|]. rewrite Hsame by done. tauto.
    + eapply scanned_cons; [done| | |done]; [auto|]. intros q _ Hdir. apply H2. congruence.
  - assert (¬ staging_name name) as Hs by (unfold staging_name; congruence).
    apply ok_bind. eapply ok_mono; [by apply IH|]. intros gens w' (G1 & G2 & G3).
    apply ok_ret. rewrite <- Hd.
    destruct (generations_cons name names gens w Hn G2 G1 Hs) as [G4 G5].
    split_and!; [done|done|]. by eapply scanned_cons.
Qed.

Lemma remove_old_ok keep names w :
  okspec w (remove_old fault root keep names) (λ _ w',
    (∀ name q, name ∈ names → name ∉ keep → in_store name q → w' !! q = None)
    ∧ (∀ q, (∀ name, name ∈ names → name ∉ keep → ¬ in_store name q) → w' !! q = w !! q)).
Proof.
  revert w. induction names as [|n names IH]; intros w; cbn [remove_old].
  { apply ok_ret. split; [by intros name q ?%elem_of_nil|done]. }
  apply ok_bind. apply (ok_mono _ _ (λ _ w1,
    (∀ q, n ∉ keep → in_store n q → w1 !! q = None)
    ∧ ∀ q, (n ∉ keep → ¬ in_store n q) → w1 !! q = w !! q)).
  { case_bool_decide; [by apply ok_ret|]. apply ok_io. eapply ok_mono; [apply remove_dir_all_ok|].
    intros [] w1 H1. split; intros q Hq; [intros Hin|]; rewrite H1.
    - by rewrite decide_True.
    - rewrite decide_False; [done|]. by apply Hq. }
  intros [] w1 [H1 H2]. eapply ok_mono; [apply IH|]. intros [] w' [H3 H4]. split.
  - intros name q [->|Hin]%elem_of_cons Hk Hq; [|by eapply H3].
    destruct (decide (n ∈ names)); [by eapply (H3 n)|]. rewrite H4; [by apply H1|].
    intros name Hin _ Hq'. by rewrite (in_store_inj _ _ _ Hq' Hq) in Hin.
  - intros q Hq. rewrite H4, H2; [done| |].
    + intros Hk. apply Hq; [by left|done].
    + intros name Hin. apply Hq. by right.
Qed.

(** Pruning succeeds only with at most three generations left: the active
    one and the newest of the others; they are untouched, and so is
    everything outside the removed directories. *)
Theorem prune_generations_spec active w :
  valid_generation active = true →
  okspec w (prune_generations K fault root active) (λ _ w', ∃ keep,
    (length keep ≤ RETAINED_GENERATIONS)%nat ∧ active ∈ keep
    ∧ (∀ name, generation_dir w' name → name ∈ keep)
    ∧ (∀ name, name ∈ keep → ∀ q, in_store name q → w' !! q = w !! q)
    ∧ (∀ name kept, generation_dir w name → name ∉ keep → kept ∈ keep → kept ≠ active →
         klt name kept)
    ∧ (∀ name, staging_name name → dir_at w (store root ++ [name]) = true →
         dir_at w' (store root ++ [name]) = false)
    ∧ ∀ q, (∀ name, ¬ in_store name q) → w' !! q = w !! q).
Proof.
  intros Hact. unfold prune_generations. apply ok_bind, ok_io, ok_look. intros names Hn.
  assert (names = k_readdir K (children (store root) w)) as ->.
  { by destruct (w !! store root) as [[]|]; simplify_eq. }
  set (names := k_readdir K (children (store root) w)) in *. clear Hn.
  assert (NoDup names) as Hnd by (unfold names; rewrite (k_readdir_ok _ HK); apply NoDup_children).
  assert (∀ n, n ∈ names ↔ is_Some (w !! (store root ++ [n]))) as Hnames.
  { intros n. unfold names. by rewrite (k_readdir_ok _ HK), elem_children. }
  apply ok_bind. eapply ok_mono; [by apply list_generations_ok|].
  intros gens w1 (G1 & G2 & G3). cbv zeta. set (sorted := merge_sort newer gens).
  assert (∀ n, n ∈ sorted ↔ ¬ staging_name n ∧ generation_dir w n) as Hsorted.
  { intros n. unfold sorted. rewrite merge_sort_Permutation, G2, Hnames. split; [tauto|].
    intros [Hs Hd]. split_and!; [|done|done]. destruct Hd as [_ Hd]. unfold dir_at in Hd.
    destruct (w !! (store root ++ [n])); [eauto|done]. }
  assert (NoDup sorted) as Hnds by (unfold sorted; by rewrite merge_sort_Permutation).
  pose proof (keep_newest_spec [active] sorted Hnds ltac:(cbn; unfold RETAINED_GENERATIONS; lia)) as Hkeep.
  set (others := filter (λ n, n ∉ [active]) sorted) in Hkeep.
  set (keep := keep_newest [active] sorted) in *.
  apply ok_bind. eapply ok_mono; [apply remove_old_ok|]. intros [] w2 [R1 R2].
  apply ok_io, ok_look. intros [] _. exists keep.
  assert (active ∈ keep) as Hin by (rewrite Hkeep; cbn; by left).
  assert (∀ n, n ∈ keep → n = active ∨ n ∈ sorted) as Hsub.
  { intros n. rewrite Hkeep. intros [->%list_elem_of_singleton|Hn]%elem_of_app; [by left|right].
    apply elem_of_take in Hn as (i & Hi & _). apply list_elem_of_lookup_2 in Hi.
    by apply list_elem_of_filter in Hi as [_ ?]. }
  assert (∀ n, n ∈ keep → ¬ staging_name n) as Hks.
  { intros n [->|Hn]%Hsub; [|by apply Hsorted in Hn as [? _]].
    unfold staging_name. rewrite valid_generation_plain; done. }
  assert (∀ n q, n ∈ keep → in_store n q → w2 !! q = w !! q) as Hkept.
  { intros n q Hn Hq. destruct G3 as [G3 _]. rewrite R2, G3; [done| |].
    - intros n' _ Hs Hq'. rewrite (in_store_inj _ _ _ Hq' Hq) in Hs. by apply (Hks n).
    - intros n' _ Hnk Hq'. by rewrite (in_store_inj _ _ _ Hq' Hq) in Hnk. }
  assert (∀ n, staging_name n → dir_at w (store root ++ [n]) = true →
            w2 !! (store root ++ [n]) = None) as Hstaging.
  { intros n Hs Hd. destruct G3 as [_ G3]. rewrite R2.
    - apply (G3 n); [|done..|apply under_refl]. apply Hnames. unfold dir_at in Hd.
      destruct (w !! (store root ++ [n])); [eauto|done].
    - intros n' Hn' _ Hq'. apply Hsorted in Hn' as [Hn' _].
      by rewrite <- (in_store_inj _ _ _ (under_refl _) Hq') in Hn'. }
  split_and!; [|done| |by intros; eapply Hkept| | |].
  - rewrite Hkeep, length_app. unfold RETAINED_GENERATIONS. cbn [length Nat.sub].
    pose proof (length_take others 2). lia.
  - intros n [Hv Hd]. destruct (decide (n ∈ keep)) as [|Hnk]; [done|exfalso].
    assert (¬ staging_name n) as Hns by (unfold staging_name; by rewrite valid_generation_plain).
    unfold dir_at in Hd. destruct (decide (n ∈ sorted)) as [Hin'|Hni].
    { rewrite (R1 n) in Hd; [done|done|done|apply under_refl]. }
    rewrite R2 in Hd. 2: { intros n' Hn' _ Hq. by rewrite (in_store_inj _ _ _ Hq (under_refl _)) in Hn'. }
    destruct G3 as [G3 _]. rewrite G3 in Hd.
    + apply Hni, Hsorted. split; [done|]. by split.
    + intros n' _ Hs Hq. by rewrite (in_store_inj _ _ _ Hq (under_refl _)) in Hs.
  - intros n kept Hg Hnk Hk Hne. rewrite Hkeep in Hnk, Hk.
    apply (kept_newer (RETAINED_GENERATIONS - length [active]) active gens); fold sorted; fold others.
    + apply list_elem_of_filter. split; [|apply Hsorted; split; [|done]].
      * intros ->%list_elem_of_singleton. apply Hnk. cbn. by left.
      * unfold staging_name. destruct Hg as [Hg _]. by rewrite valid_generation_plain.
    + intros H. apply Hnk, elem_of_app. by right.
    + apply elem_of_app in Hk as [->%list_elem_of_singleton|Hk]; done.
  - intros n Hs Hd. unfold dir_at. by rewrite Hstaging.
  - intros q Hq. destruct G3 as [G3 _]. rewrite R2, G3; auto.
Qed.
End Prune.
