(* ===== verification/Sample.v ===== *)
(** * A concrete host

    A kernel, a JSON stand-in, two roots and batches on which the theorems
    about deployments are applied and the definitions run. *)
From S2P Require Import Prelude BTree FileSystem FsUtil Text Deploy Together Prune.
#[local] Open Scope Z_scope.

Definition kernel : Kernel := {|
  k_uid := 0; k_gid := 0; k_umask := 18; k_dev := λ _, 1;
  k_readdir := λ l, l;
  k_inherit := λ d mode, (d, mode);
  k_chmod_acl := λ _ d, d;
  k_acl_mode := λ _ mode, mode;
|}.
Lemma kernel_fine : kernel_ok kernel.
Proof. constructor; done. Qed.

#[export] Instance strongly_sorted_dec {A : Type} (R : A → A → Prop) `{∀ x y, Decision (R x y)} (l : list A) :
  Decision (StronglySorted R l).
Proof.
  induction l as [|x l [Hl|Hl]]; [left; constructor| |right; by inversion 1].
  destruct (decide (Forall (R x) l)) as [Hx|Hx]; [left; by constructor|right; by inversion 1].
Defined.
#[export] Instance klt_dec (a b : string) : Decision (klt a b) := decide (kcmp a b = Lt).
#[export] Instance bt_wf_dec (m : list (string * string)) : Decision (bt_wf m) :=
  strongly_sorted_dec klt (bt_keys m).

(** A codec for maps: any injective encoding serves. *)
Definition text_of (m : list (string * string)) : result string (list Z) := Ok [Zpos (encode m)].
Definition parse (text : list Z) : result string (list (string * string)) :=
  match text with
  | [Zpos p] => match decode p with
                | Some m => if decide (bt_wf m) then Ok m else Err "not a map"
                | None => Err "not JSON"
                end
  | _ => Err "not JSON"
  end.
Lemma codec_fine : codec_ok text_of parse.
Proof.
  split.
  - intros m text Hm [= <-]. unfold parse. by rewrite countable.decode_encode, decide_True.
  - intros text m. unfold parse. repeat case_match; intros; by simplify_eq.
Qed.

Definition roots : World :=
  {[ [] := EDir {| m_uid := 0; m_gid := 0; m_mode := 493; m_acl := None; m_default_acl := None |};
     ["persistent"] := EDir {| m_uid := 0; m_gid := 0; m_mode := 493; m_acl := None; m_default_acl := None |} ]}.
Definition secret_value (service name : string) (class : SecretClass) (mode : Z) : ResolvedSecret :=
  {| rs_identifier := service +:+ "." +:+ name; rs_version_id := "1"; rs_service := service;
     rs_class := class; rs_secret := name; rs_contents := [104; 105]; rs_owner := 0; rs_group := 0;
     rs_mode := mode; rs_audit_ssh_user := None; rs_audit_key_names := [] |}.
Definition secret_batch : list ResolvedSecret := [secret_value "web" "key" Service 256].
Definition public_batch : list ResolvedSecret := [secret_value "ssh" "host.pub" PublicInfo 420].
Definition now : string := generation_id 1 1.
Definition never : nat → option string := λ _, None.
Definition fresh_host : Fs := {| fs_world := roots; fs_calls := 0; fs_trace := [] |}.
Definition deployed (fault : nat → option string) :=
  deploy_together kernel fault text_of parse id persistent public_info (Some secret_batch)
    (Some public_batch) now fresh_host.

Definition entries_of_batch (batch : option (list ResolvedSecret)) (d : Deployer)
  : option (list ValidatedSecret) :=
  match validated batch d with Ok entries => entries | Err _ => None end.

Lemma roots_startable : startable persistent public_info now roots.
Proof.
  assert (wf_world roots) as Hwf.
  { intros p c [e He]. unfold roots in *. apply lookup_insert_Some in He as [[E _]|[_ He]].
    { by destruct p. }
    apply lookup_singleton_Some in He as [E _].
    destruct p as [|x p]; [eexists; by rewrite lookup_insert_eq|by destruct p]. }
  assert (pointer (dp_root persistent) roots = None) as HS by reflexivity.
  assert (pointer (dp_root public_info) roots = None) as HP by reflexivity.
  assert (effective (dp_root persistent) (dp_root public_info) roots = None) as HE by reflexivity.
  constructor; try (intros ?; congruence); [done|..].
  - intros q e m. by rewrite HS.
  - intros q e m. by rewrite HE.
Qed.
Lemma roots_apart : apart (dp_root persistent) (dp_root public_info).
Proof. by split. Qed.
Lemma plain_secrets : plain_batch (Some secret_batch).
Proof. by intros ? [= <-] spec ->%list_elem_of_singleton. Qed.
Lemma plain_public : plain_batch (Some public_batch).
Proof. by intros ? [= <-] spec ->%list_elem_of_singleton. Qed.

(** The deployment runs to the end on this host, and at every failure of its
    calls both roots are as before or both are new. *)
Lemma together_atomic_witness :
  is_ok (deployed never).1 = true ∧ ∀ fault,
  spec (either parse (dp_root persistent) (dp_root public_info) now
          (entries_of_batch (Some secret_batch) persistent) (entries_of_batch (Some public_batch) public_info) roots)
    roots
    (deploy_together kernel fault text_of parse id persistent public_info (Some secret_batch)
       (Some public_batch) now)
    (λ r w', either parse (dp_root persistent) (dp_root public_info) now
          (entries_of_batch (Some secret_batch) persistent) (entries_of_batch (Some public_batch) public_info) roots w'
       ∧ ∀ v, r = Ok v →
       new_view parse (dp_root persistent) (dp_root public_info) now
          (entries_of_batch (Some secret_batch) persistent) (entries_of_batch (Some public_batch) public_info) roots w'
       ∧ no_pending (dp_root persistent) w' ∧ no_pending (dp_root public_info) w'
       ∧ v = versions_given parse persistent public_info
               (entries_of_batch (Some secret_batch) persistent)
               (entries_of_batch (Some public_batch) public_info) roots).
Proof.
  split; [vm_compute; reflexivity|]. intros fault.
  exact (together_atomic kernel fault kernel_fine text_of parse id codec_fine (λ _ _ H, H)
    persistent public_info roots_apart now (Some secret_batch) (Some public_batch) _ _ roots
    eq_refl plain_secrets plain_public eq_refl eq_refl roots_startable).
Defined.

Lemma recover_keeps_view_witness :
  steady (dp_root persistent) (dp_root public_info) roots ∧ ∀ fault,
  spec (same_view (dp_root persistent) (dp_root public_info) roots) roots
    (recover kernel fault persistent public_info) (λ r w',
    same_view (dp_root persistent) (dp_root public_info) roots w' ∧ (r = Ok tt →
      no_pending (dp_root persistent) w' ∧ no_pending (dp_root public_info) w'
      ∧ pointer (dp_root public_info) w' = effective (dp_root persistent) (dp_root public_info) roots)).
Proof.
  pose proof (startable_steady _ _ _ _ roots_startable) as Hs. split; [exact Hs|]. intros fault.
  exact (recover_keeps_view kernel fault kernel_fine persistent public_info roots_apart roots Hs).
Defined.

(** Five generations, the second of them active. *)
Definition plain_dir : entry :=
  EDir {| m_uid := 0; m_gid := 0; m_mode := 493; m_acl := None; m_default_acl := None |}.
Definition crowded : World :=
  list_to_map ((λ p, (p, plain_dir)) <$>
    [[]; ["s"]; ["s"; ".generations"]; ["s"; ".generations"; ".staging-old"]]
    ++ ((λ n, ["s"; ".generations"; generation_id n 1]) <$> [1; 2; 3; 4; 5])).
Definition remaining : list string :=
  let '(_, s) := prune_generations kernel never ["s"] (generation_id 2 1)
                   {| fs_world := crowded; fs_calls := 0; fs_trace := [] |} in
  merge_sort newer (children (store ["s"]) (fs_world s)).

Lemma prune_generations_spec_witness :
  remaining = [generation_id 5 1; generation_id 4 1; generation_id 2 1] ∧ ∀ fault,
  okspec crowded (prune_generations kernel fault ["s"] (generation_id 2 1)) (λ _ w', ∃ keep,
    (length keep ≤ RETAINED_GENERATIONS)%nat ∧ generation_id 2 1 ∈ keep
    ∧ (∀ name, generation_dir ["s"] w' name → name ∈ keep)
    ∧ (∀ name, name ∈ keep → ∀ q, in_store ["s"] name q → w' !! q = crowded !! q)
    ∧ (∀ name kept, generation_dir ["s"] crowded name → name ∉ keep → kept ∈ keep →
         kept ≠ generation_id 2 1 → klt name kept)
    ∧ (∀ name, staging_name name → dir_at crowded (store ["s"] ++ [name]) = true →
         dir_at w' (store ["s"] ++ [name]) = false)
    ∧ ∀ q, (∀ name, ¬ in_store ["s"] name q) → w' !! q = crowded !! q).
Proof.
  split; [vm_compute; reflexivity|]. intros fault.
  exact (prune_generations_spec kernel fault kernel_fine ["s"] (generation_id 2 1) crowded eq_refl).
Defined.

(** ** A value named like the versions file

    [validate_name] accepts [.versions.json] as a secret's name, but
    [clone_tree] leaves out every entry of that name, at any depth: the value
    is gone from the next generation that does not redeploy it. *)
Definition batch_a : list ResolvedSecret := [secret_value "web" ".versions.json" Service 256].
Definition batch_b : list ResolvedSecret := [secret_value "web" "key" Service 256].
Definition deploy_on (batch : list ResolvedSecret) (nanos : Z) (w : World) :=
  deploy_together kernel never text_of parse id persistent public_info (Some batch) None
    (generation_id nanos 1) {| fs_world := w; fs_calls := 0; fs_trace := [] |}.
Definition installed_at (name : string) (w : World) : option entry :=
  t ← pointer (dp_root persistent) w; w !! (dp_root persistent ++ t ++ ["web"; "service"; name]).

(** A value called [.versions.json] is installed, and lost by the next deployment. *)
Theorem versions_name_dropped :
  let '(r1, s1) := deploy_on batch_a 1 roots in
  let '(r2, s2) := deploy_on batch_b 2 (fs_world s1) in
  is_ok r1 = true ∧ is_ok r2 = true
  ∧ is_some (installed_at ".versions.json" (fs_world s1)) = true
  ∧ installed_at ".versions.json" (fs_world s2) = None
  ∧ is_some (installed_at "key" (fs_world s2)) = true.
Proof. vm_compute. repeat split. Qed.

(** A service named like a pending pointer is published, and makes every
    later recovery, and with it every later deployment, fail. *)
Definition batch_c : list ResolvedSecret :=
  [secret_value (".current-" +:+ generation_id 7 7) "key" Service 256].
Theorem pointer_service_wedges :
  let '(r1, s1) := deploy_on batch_c 1 roots in
  let '(r2, _) := deploy_on batch_b 2 (fs_world s1) in
  is_ok r1 = true ∧ is_ok r2 = false.
Proof. vm_compute. repeat split. Qed.

(** A tree with a directory and a file is cloned. *)
Definition small_tree : World :=
  <[["a"; "f"] := EFile {| m_uid := 1; m_gid := 2; m_mode := 288; m_acl := Some [2; 0; 0; 0]; m_default_acl := None |} [7]]>
  (<[["b"] := plain_dir]> (<[["a"] := plain_dir]> (<[[] := plain_dir]> ∅))).
Lemma small_wf : wf_world small_tree.
Proof.
  intros p c [e He]. unfold small_tree in *.
  repeat (apply lookup_insert_Some in He as [[E _]|[_ He]];
    [destruct p as [|x [|y [|z p]]]; simplify_eq/=; eexists; reflexivity|]).
  by rewrite lookup_empty in He.
Qed.
Lemma small_modes : modes_ok ["a"] small_tree.
Proof.
  intros q e m He Hm. unfold small_tree in He.
  repeat (apply lookup_insert_Some in He as [[_ <-]|[_ He]];
    [injection Hm as <-; by split|]).
  by rewrite lookup_empty in He.
Qed.

Lemma clone_tree_exact_witness :
  (let '(r, s) := clone_tree kernel never ["a"] ["b"]
       {| fs_world := small_tree; fs_calls := 0; fs_trace := [] |} in
   is_ok r = true ∧ fs_world s !! ["b"; "f"] = small_tree !! ["a"; "f"]) ∧ ∀ fault,
  spec (step_in (under ["b"]) small_tree) small_tree (clone_tree kernel fault ["a"] ["b"]) (λ r w',
    step_in (under ["b"]) small_tree w' ∧ r ≠ Err OutOfFuel
    ∧ (r = Ok tt → ∀ q, q ≠ [] → w' !! (["b"] ++ q) =
         if decide (clean q) then small_tree !! (["a"] ++ q) else None)).
Proof.
  split; [vm_compute; split; reflexivity|]. intros fault.
  apply (clone_tree_exact kernel fault ["a"] ["b"] small_tree kernel_fine small_wf small_modes);
    [by split|reflexivity|].
  intros q Hq. apply eq_None_not_Some. intros [e He]. unfold small_tree in He.
  repeat (apply lookup_insert_Some in He as [[E _]|[_ He]]; [by destruct q|]).
  by rewrite lookup_empty in He.
Defined.
