(* ===== verification/HostSample.v ===== *)
(** * The waiter and the public defaults, evaluated

    A node that waits for its secrets, and the defaults it serves of the public
    files that a generation has not brought yet. *)
From S2P Require Import Prelude BTree FileSystem FsUtil Text Paths Deploy Together Sample Waiter WaiterFacts PublicDefault PublicDefaultFacts.
#[local] Open Scope Z_scope.

(** ** The waiter *)

(** Every entry but the root has a directory above it. *)
Lemma wf_check (w : World) :
  forallb (λ '(p, _), bool_decide (p = []) || dir_at w (removelast p)) (map_to_list w) = true → wf_world w.
Proof.
  intros H p c [e He%elem_of_map_to_list%list_elem_of_In]. rewrite forallb_forall in H.
  specialize (H _ He). cbn in H. rewrite removelast_last in H.
  apply orb_true_iff in H as [H%bool_decide_eq_true|H]; [by destruct p|].
  unfold dir_at in H. destruct (w !! p) as [[]|]; naive_solver.
Qed.

Definition published_host : Fs := (Sample.deployed Sample.never).2.
Definition published_entry : ValidatedSecret :=
  {| vs_spec := secret_value "web" "key" Service 256; vs_relative := ["web"; "service"; "key"] |}.
Definition web_key : ExpectedFile :=
  {| ef_path := "/persistent/secrets/web/service/key"; ef_uid := 0; ef_gid := 0; ef_mode := 256;
     ef_runtime_uids := []; ef_acl_program := None |}.
Definition no_getfacl (program : string) (path : Path) (w : World) : result string (bool * list Z) := Err "none".
Definition no_old (q : Path) : option entry := None.
Definition published_file : entry := EFile (manifest_meta (vs_spec published_entry)) [104; 105].


(** The first look finds nothing, the second what was published meanwhile. *)
Definition sample_view (k : nat) : Fs := match k with O => fresh_host | _ => published_host end.
Definition sample_wait (fuel : nat) : option (result string unit * list Said) :=
  wait (const WaiterFacts.never) (const no_getfacl) (λ _ _ message, Ok (slen message)) sample_view
    (λ k, secs (Z.of_nat k)) (Some "/run/notify") fuel 0 [web_key] false progress_default false.

Lemma waiter_lets_through_witness :
  all_ready (const no_getfacl) sample_view 1 [web_key]
  ∧ ∃ said, sample_wait 2 = Some (Ok tt, said).
Proof.
  assert (all_ready (const no_getfacl) sample_view 1 [web_key]) as Hr.
  { destruct (wait_ends (const no_getfacl) (λ _ _ message, Ok (slen message)) sample_view
      (λ k, secs (Z.of_nat k)) (Some "/run/notify") (const WaiterFacts.never) 1 1 [web_key] false
      progress_default false [] ltac:(vm_compute; reflexivity)) as (j & Hj & H).
    assert (j = 1%nat) as -> by lia. exact H. }
  split; [exact Hr|].
  destruct (waiter_lets_through (const no_getfacl) (λ _ _ message, Ok (slen message)) sample_view
    (λ k, secs (Z.of_nat k)) (Some "/run/notify") (const WaiterFacts.never) [web_key]) as (_ & Hlive & _).
  destruct (Hlive 1%nat Hr eq_refl 2%nat progress_default false ltac:(lia)) as [said H].
  exists said. exact H.
Defined.

Example sample_wait_says :
  sample_wait 2 = Some (Ok tt,
    [Status "still waiting for /persistent/secrets/web/service/key (0s)";
     Logged "secrets-ready-waiter: still waiting for /persistent/secrets/web/service/key (0s)";
     Status "declared secrets are ready"]).
Proof. vm_compute. reflexivity. Qed.

(** The same error a second time: when the waiter found secrets missing in
    between, [observe] kept the old error, so it is neither published nor
    logged, and the status names what is no longer known. *)
Theorem recurring_error_unreported (error path : string) :
  let p := (observe_error error 0 progress_default).2 in
  let '(between, p) := observe [path] (secs 1) p in
  em_status between = Some ("still waiting for " +:+ path +:+ " (1s)")
  ∧ (observe_error error (secs 2) p).1 = emit_default.
Proof.
  unfold observe_error, observe. cbn -[String.append].
  rewrite (bool_decide_eq_true_2 (Some error = Some error)) by done. by split.
Qed.

(** ** Public defaults *)

Definition digest (contents : list Z) : list Z := take 4 contents.
Definition declared_default (value : string) : ResolvedSecret :=
  {| rs_identifier := "web.services.ssh.host"; rs_version_id := sha256_hex digest (bytes value); rs_service := "ssh";
     rs_class := PublicInfo; rs_secret := "host.pub"; rs_contents := bytes value; rs_owner := 0; rs_group := 0;
     rs_mode := 420; rs_audit_ssh_user := None; rs_audit_key_names := [] |}.
Definition by_operator (value : string) : ResolvedSecret :=
  {| rs_identifier := "web.services.ssh.host"; rs_version_id := "1"; rs_service := "ssh";
     rs_class := PublicInfo; rs_secret := "host.pub"; rs_contents := bytes value; rs_owner := 0; rs_group := 0;
     rs_mode := 420; rs_audit_ssh_user := None; rs_audit_key_names := [] |}.
Definition install_default (value : string) (nanos : Z) (s : Fs) : result DeployError Decision * Fs :=
  install Sample.kernel Sample.never Sample.text_of Sample.parse id digest public_info [declared_default value]
    (generation_id nanos 1) s.
Definition operator_deploys (value : string) (nanos : Z) (s : Fs) : Fs :=
  (deploy_together Sample.kernel Sample.never Sample.text_of Sample.parse id persistent public_info None
     (Some [by_operator value]) (generation_id nanos 1) s).2.
Definition installed_text (s : Fs) : option string :=
  match entry_at (fs_world s) ["persistent"; "public-info"; "ssh"; "host.pub"] with
  | Some (EFile _ contents) => Some (of_bytes contents)
  | _ => None
  end.

Example defaults_follow :
  let '(first, s) := install_default "old" 1 fresh_host in
  let '(again, s) := install_default "old" 2 s in
  let '(newer, s) := install_default "new" 3 s in
  first = Ok Install ∧ again = Ok Unchanged ∧ newer = Ok Replace ∧ installed_text s = Some "new"
  ∧ let s := operator_deploys "mine" 4 s in
    let '(kept, s) := install_default "newest" 5 s in
    kept = Ok KeepOperatorValue ∧ installed_text s = Some "mine".
Proof. vm_compute. by repeat split. Qed.

Lemma operator_value_kept_witness :
  is_ok (install_default "old" 1 fresh_host).1 = true ∧ ∀ fault,
  spec (λ w', same_view (dp_root persistent) (dp_root public_info) roots w' ∨ ∃ entry w,
          [declared_default "old"] = [entry] ∧ same_view (dp_root persistent) (dp_root public_info) roots w
          ∧ unclaimed Sample.parse digest public_info w entry) roots
    (install Sample.kernel fault Sample.text_of Sample.parse id digest public_info [declared_default "old"] now)
    (λ r w', ∀ d, r = Ok d → installs d = false →
       same_view (dp_root persistent) (dp_root public_info) roots w').
Proof.
  split; [vm_compute; reflexivity|]. intros fault.
  exact (operator_value_kept Sample.kernel fault kernel_fine Sample.text_of Sample.parse id digest persistent
    public_info roots_apart eq_refl roots [declared_default "old"] now eq_refl roots_startable).
Defined.
