(* ===== verification/ApplySample.v ===== *)
(** * Operations on the target, evaluated

    - [Making]: a password is generated and the environment file derived from
      it framed; age only marks what it encrypts, base64 changes nothing.
    - [Local]: one service declares a local key and a key for a storage box
      whose known_hosts is not installed yet: the first is made, the second
      left out.
    - [Applying]: the batch of [Local] passes the checks and reaches the
      manifest; a batch whose only value this host refuses fails the
      deployment. *)
From S2P Require Import Prelude BTree Generator Schema SchemaValidation Crypto CryptoFacts Wire FileSystem FsUtil Deploy Handshake HandshakeFacts.
From S2P Require Import StorageBox StorageBoxSession StorageBoxSample Text Paths Manifest ManifestSample Generate GenerateFacts Tasks TasksFacts AuditRecord Apply ApplyFacts.
From S2P Require Sample.
#[local] Open Scope Z_scope.

Module Making.
#[local] Instance marks : CryptoProvider unit := {
  provider_encrypt _ inner := mret (255 :: inner);
  provider_decrypt ciphertext := mret (drop 1 ciphertext);
  provider_decrypt_batch ciphertexts := mret (drop 1 <$> ciphertexts)
}.
#[local] Instance fixed_host : GenerationHost unit := {
  mix _ := mret tt;
  host_generate _ := mret (bytes "hunter2");
  fresh_version := mret (repeat 7 16);
  read_installed _ := mret None
}.

Definition as_text : list Z → string := of_bytes.
Definition as_bytes (text : string) : option (list Z) := Some (bytes text).
Definition no_hash (l : list Z) : list Z := take 16 l.
Definition no_toml (text : string) : option (list (string * TomlValue)) := None.
Definition no_generator (text : string) : option DeployGenerator := None.
Definition password_entry : GenerateEntry :=
  {| ge_identifier := "web.services.mail.login.password";
     ge_client_contribution_base64 := "0123456789abcdef0123456789abcdef"; ge_shared := None |}.
Definition generate_password : result DeployError GeneratedValues * unit :=
  generate_values no_text as_text as_bytes no_hash no_toml no_generator derived_schema "web" [password_entry]
    ["web.services.mail.env"] [] tt.
Definition generated : GeneratedValues :=
  match generate_password with (Ok values, _) => values | _ => {| gv_deployments := []; gv_records := [] |} end.

Lemma generated_values_agree_witness :
  sd_contents_base64 <$> gv_deployments generated = ["hunter2"; "PASS=hunter2"]
  ∧ ∃ version value record,
      bt_get "web.services.mail.login.password" (gv_records generated) = Some record
      ∧ made no_text as_text as_bytes derived_schema "web" ["web.services.mail.env"] [] password_entry version value
          record.
Proof.
  split; [vm_compute; reflexivity|].
  assert (generate_password = (Ok generated, tt)) as H by (vm_compute; reflexivity).
  destruct (generated_values_agree no_text as_text as_bytes no_hash no_toml no_generator
    (λ keys inner s ciphertext s1 s2 E, ltac:(exists tt; injection E as <- _; destruct s2; reflexivity))
    (λ text l E, ltac:(injection E as <-; apply bytes_is_byte))
    (λ s v s' E, ltac:(injection E as <- _; split; reflexivity))
    (λ g s v s' E, ltac:(injection E as <- _; reflexivity))
    (λ p s v s' E, ltac:(discriminate E))
    derived_schema "web" [password_entry] ["web.services.mail.env"] [] tt generated tt H
    ltac:(apply NoDup_singleton)) as (_ & _ & Hall & _).
  destruct (Hall password_entry ltac:(by left)) as (version & value & record & Hr & Hm & _).
  exists version, value, record. by split.
Defined.
End Making.

Module Import Local.
Definition box_file : string := "/persistent/public-info/storage/box".
Definition public_leaf : SecretLeaf :=
  {| lf_kind := KPublicInfo; lf_shared_public_id := Some "storage/box"; lf_expected_ssh_host := Some "u1.box";
     lf_expected_ssh_port := Some 23; lf_expected_ssh_hosts := [];
     lf_install_default_if_missing := false; lf_default_value := None; lf_description := None;
     lf_human_facing := true; lf_external_input_required := false;
     lf_required_for_install := false; lf_optional := false; lf_identity := None;
     lf_presentation := None; lf_recipient_public_keys := []; lf_recipient_ids := []; lf_recipient_names := [];
     lf_destination := {| ds_path := box_file; ds_category := "public-info"; ds_owner := "root";
       ds_group := "root"; ds_mode := "0644"; ds_content_type := None; ds_authorized_for_user := None |};
     lf_consumer_units := []; lf_value_type := None; lf_consumer_constraints := None;
     lf_value_generator := None; lf_generate_on_deploy := false; lf_derived_from := None |}.
Definition key_leaf (type : GeneratedSecretType) (name : string) (bootstrap : option StorageBoxBootstrap)
  : GeneratedSecretLeaf :=
  {| gl_description := None; gl_human_facing := true; gl_external_input_required := false;
     gl_required_for_install := false; gl_optional := false; gl_identity := None; gl_presentation := None;
     gl_recipient_public_keys := ["key"]; gl_recipient_ids := ["id"]; gl_recipient_names := [];
     gl_generated_secret := {| gs_secret_type := type;
       gs_output := {| ds_path := "/persistent/secrets/backup/backup/" +:+ name; ds_category := "backup";
         ds_owner := "root"; ds_group := "root"; ds_mode := "0400"; ds_content_type := None;
         ds_authorized_for_user := None |};
       gs_bootstrap := bootstrap; gs_register_at := None |};
     gl_consumer_units := []; gl_value_type := None; gl_consumer_constraints := None |}.
Definition box_bootstrap : StorageBoxBootstrap :=
  {| sb_host := "u1.box"; sb_port := 23; sb_user := "u1"; sb_host_public_keys := [];
     sb_known_hosts_file := Some box_file |}.
Definition backup_schema : Schema :=
  [("web", {| hs_metadata := sample_metadata;
     hs_service_groups := [("services", [("backup", Branch
       [("box", Generated (key_leaf StorageBoxSshKey "box" (Some box_bootstrap)));
        ("hosts", Secret public_leaf);
        ("key", Generated (key_leaf LocalSshKey "key" None))])])] |})].

#[local] Instance nothing_installed : HostFiles := {
  follow _ := Err not_found;
  nofollow _ := Err not_found
}.
#[local] Instance sample_russh : SshBackend Box := russh_backend pin_data.
Definition task_entry (name : string) : TaskEntry :=
  {| te_identifier := "web.services.backup." +:+ name; te_version_id := "v1"; te_password_base64 := "";
     te_client_contribution_base64 := "0123456789abcdef0123456789abcdef" |}.
Definition text_of_bytes : list Z → string := of_bytes.
Definition no_error (e : SchemaError) : string := "".
Definition run_sample : result DeployError GeneratedTasks * Box :=
  generate_tasks no_error accounts accounts text_of_bytes plain_base64 no_key no_private pin_fingerprint
    (mret "now") backup_schema "web" [task_entry "key"; task_entry "box"] [] box.
Definition sample_tasks : GeneratedTasks :=
  {| gt_deployments := [{| sd_identifier := "web.services.backup.key"; sd_version_id := "v1";
                           sd_contents_base64 := "new private key" |}];
     gt_public_keys := [("web.services.backup.key", "now ssh-ed25519 NEW")];
     gt_not_deployed := [("web.services.backup.box",
       "/persistent/public-info/storage/box is absent: its public information is not installed on this host yet")] |}.

End Local.

Module Applying.
#[local] Existing Instance nothing_installed.
#[local] Existing Instance sample_russh.
#[local] Instance plain_age : CryptoProvider Box := {
  provider_encrypt _ inner := mret inner;
  provider_decrypt ciphertext := mret ciphertext;
  provider_decrypt_batch ciphertexts := mret ciphertexts
}.
#[local] Instance plain_host : GenerationHost Box := {
  mix _ := mret tt;
  host_generate _ := mret [];
  fresh_version := mret (repeat 0 16);
  read_installed _ := mret None
}.

Definition wire_destination (name : string) : WireDestination :=
  {| wd_path := "/persistent/secrets/backup/backup/" +:+ name; wd_category := "backup"; wd_owner := "root";
     wd_group := "root"; wd_mode := "0400"; wd_consumer_units := [] |}.
Definition declared_task (type name : string) : TargetTask :=
  {| tt_identifier := "web.services.backup." +:+ name; tt_task_type := type; tt_recipient_ids := ["id"];
     tt_output := wire_destination name; tt_bootstrap := None; tt_current_version_id := None |}.
Definition backup_state : TargetState :=
  {| st_protocol_version := DEPLOYMENT_PROTOCOL_VERSION; st_hostname := "web"; st_secrets := [];
     st_tasks := [declared_task LOCAL_SSH_KEY "key"; declared_task "hetzner-storagebox-ssh-key" "box"];
     st_absent := []; st_unselected := [] |}.
Definition version_text : string := "0123456789abcdef".
Definition submitted_task (name password : string) : TaskEntry :=
  {| te_identifier := "web.services.backup." +:+ name; te_version_id := version_text;
     te_password_base64 := password; te_client_contribution_base64 := "0123456789abcdef0123456789abcdef" |}.
Definition backup_batch (names : list string) : WireBatch :=
  let tasks := List.filter (λ '(name, _), bool_decide (name ∈ names)) [("key", ""); ("box", "password")] in
  {| wt_version := DEPLOYMENT_PROTOCOL_VERSION; wt_requested_identifiers := []; wt_entries := [];
     wt_requested_tasks := (λ '(name, _), "web.services.backup." +:+ name) <$> tasks;
     wt_tasks := (λ '(name, password), submitted_task name password) <$> tasks;
     wt_generate := []; wt_derive := [] |}.

Definition run_backup (batch : WireBatch) : result DeployError GeneratedTasks * Box :=
  generate_tasks no_error accounts accounts text_of_bytes plain_base64 no_key no_private pin_fingerprint
    (mret "now") backup_schema "web" (wt_tasks batch) (to_local <$> wt_entries batch) box.
Definition no_values (batch : WireBatch) (s : Box) : result DeployError GeneratedValues * Box :=
  generate_values no_error text_of_bytes plain_base64 (λ l, l) (const None) (const None) backup_schema "web"
    (wt_generate batch) (wt_derive batch) [] s.
Definition nothing_made : GeneratedValues := {| gv_deployments := []; gv_records := [] |}.
Definition both_tasks : WireBatch := backup_batch ["key"; "box"].
Definition made_tasks : GeneratedTasks :=
  match run_backup both_tasks with
  | (Ok tasks, _) => tasks
  | _ => {| gt_deployments := []; gt_public_keys := []; gt_not_deployed := [] |}
  end.
Definition plain_identifier (text : string) : option string := Some text.

Lemma applied_batch_matches_witness :
  (sd_identifier <$> db_entries (local_batch both_tasks made_tasks nothing_made)) = ["web.services.backup.key"]
  ∧ NoDup (sd_identifier <$> db_entries (local_batch both_tasks made_tasks nothing_made))
  ∧ NoDup (db_requested_identifiers (local_batch both_tasks made_tasks nothing_made))
  ∧ ∀ id, id ∈ db_requested_identifiers (local_batch both_tasks made_tasks nothing_made)
      ↔ id ∈ sd_identifier <$> db_entries (local_batch both_tasks made_tasks nothing_made).
Proof.
  split; [vm_compute; reflexivity|].
  assert (valid_batch plain_base64 plain_identifier both_tasks backup_state) as Hv
    by (apply validate_batch_ok; vm_compute; reflexivity).
  assert (run_backup both_tasks = (Ok made_tasks, box)) as Ht by (vm_compute; reflexivity).
  assert (no_values both_tasks box = (Ok nothing_made, box)) as Hn by reflexivity.
  exact (applied_batch_matches no_error text_of_bytes plain_base64 (λ l, l) (const None) (const None) accounts
    accounts no_key no_private pin_fingerprint (mret "now") plain_identifier both_tasks backup_state backup_schema
    "web" [] box made_tasks box box nothing_made box Hv
    ltac:(apply (bool_decide_unpack _); vm_compute; exact I) ltac:(constructor) ltac:(constructor)
    ltac:(intros id Hid; inversion Hid) Ht Hn).
Defined.

(** ** A task submitted twice *)
Definition twice (batch : WireBatch) : WireBatch :=
  {| wt_version := wt_version batch; wt_requested_identifiers := wt_requested_identifiers batch;
     wt_entries := wt_entries batch; wt_requested_tasks := wt_requested_tasks batch;
     wt_tasks := wt_tasks batch ++ wt_tasks batch; wt_generate := wt_generate batch; wt_derive := wt_derive batch |}.
Definition validate_local (batch : DeploymentBatch) :=
  validate_manifest accounts accounts plain_base64 no_key no_private_key backup_schema "web" batch.

(** The checks of the exchange accept a batch that lists a task twice: the
    key is made twice, and only then is the batch refused. *)
Theorem task_listed_twice :
  let batch := twice (backup_batch ["key"]) in
  validate_batch plain_base64 plain_identifier batch backup_state = Ok tt
  ∧ match run_backup batch with
    | (Ok tasks, _) =>
        sd_identifier <$> gt_deployments tasks = ["web.services.backup.key"; "web.services.backup.key"]
        ∧ validate_local (local_batch batch tasks nothing_made) = Err (Invalid "duplicate secret identifier: web.services.backup.key")
    | _ => False
    end.
Proof. vm_compute. repeat split; reflexivity. Qed.

(** ** A batch this host refuses entirely *)
Definition alias_batch : WireBatch :=
  {| wt_version := DEPLOYMENT_PROTOCOL_VERSION; wt_requested_identifiers := ["web.services.mail.alias"];
     wt_entries := [{| en_identifier := "web.services.mail.alias"; en_version_id := "v1";
                       en_contents_base64 := "alias" |}];
     wt_requested_tasks := []; wt_tasks := []; wt_generate := []; wt_derive := [] |}.
Definition mail_receiver : Receiver :=
  {| re_manifest := "/manifest.json"; re_hostname := "web"; re_current := []; re_audit := None;
     re_post_deploy := None |}.
Definition mail_files : HostFiles := {|
  follow p := if bool_decide (p = "/manifest.json")
              then Ok {| fi_is_file := true; fi_len := 2; fi_uid := 0; fi_gid := 0; fi_mode := oct [4; 4; 4];
                         fi_contents := bytes "{}" |}
              else Err not_found;
  nofollow p := Err not_found
|}.
Definition apply_mail : result string AppliedOutput * (Box * Fs) :=
  apply_batch (const mail_files) no_error text_of_bytes plain_base64 (λ l, l) (const None) (const None)
    (const (Ok (mail_schema "alias" "password"))) accounts accounts no_key no_private no_private_key
    pin_fingerprint (mret "now") Sample.kernel Sample.never Sample.text_of Sample.parse id
    (λ s, (Sample.now, s)) (mret "now") (const (Ok "{}")) (λ s, (Ok [], s)) (λ _, mret true)
    mail_receiver alias_batch (box, Sample.fresh_host).

(** The only value of the batch is left out, as it may be; nothing is
    published, which the code allows for, and then the empty audit record is
    refused: the operator sees this error instead of the reason. *)
Theorem refused_batch_fails :
  validate_manifest accounts accounts plain_base64 no_key no_private_key (mail_schema "alias" "password") "web"
    (local_batch alias_batch {| gt_deployments := []; gt_public_keys := []; gt_not_deployed := [] |} nothing_made)
    = Ok ([], alias_left_out)
  ∧ apply_mail = (Err "invalid audit change count", (box, Sample.fresh_host)).
Proof. vm_compute. split; reflexivity. Qed.
End Applying.
